(* ===== verification/_CoqProject ===== *)
-Q . S2P
Prelude.v
RtList.v
SList.v
Kernel.v
Sched.v
Object.v
Timer.v
Thread.v
Clock.v
Ipc.v
Demo.v
KernelProps.v
Sem.v
Mutex.v
Event.v
Mailbox.v
MsgQueue.v
Mempool.v
DeviceIpc.v
Life.v
Workqueue.v
Idle.v
Bytes.v
KString.v
Names.v
Device.v
Mem.v
Startup.v
RingBuffer.v
RingBlk.v
AppMain.v
AppProps.v
Kservice.v
Vsnprintf.v
Msh.v
Complete.v
Shell.v
FinshVm.v
FinshCompiler.v
FinshExpr.v
FinshRun.v
FinshC.v
FinshToken.v
FinshHeap.v
FinshLex.v
FinshParser.v
FinshBlocks.v
FinshStrings.v
FinshSyntax.v
FinshLine.v
Gui.v
FileWr.v
NbConn.v
System.v
