(* ===== verification/Prelude.v ===== *)
(** * TeamReach: the RT-Thread kernel and the application on it

    The program is firmware for a Loongson 1B board that sorts resistors: weights
    on a scale are read through an ADC, compared with a threshold, shown on a
    display, logged on flash and published over NB-IoT.  It runs on RT-Thread
    4.0.2 (src/RTT4), configured by src/include/rtconfig.h: one processor, 32
    priorities, 1000 ticks a second, the small-memory heap.  This library models
    both, and proves what each part promises to the others.

    ** The parts, and how they interact

    - The kernel.  Threads wait in ready queues, in the wait lists of IPC objects
      and on timers; [rt_schedule] picks the highest of the ready ones, the tick
      interrupt fires timers and ends time slices, the IPC objects put threads to
      sleep and wake them.  All of it works on one state, [Kernel.kstate].
    - The services of the kernel: the heap, the memory and string functions,
      formatted output, the ring buffer of the drivers.
    - The application: four threads and two interrupt handlers that talk through
      message queues.  The main thread owns the measurements; the display thread,
      the log thread and the NB-IoT thread are sent messages, and send some back.

    ** The files

    - [Prelude] (this file): machine integers with their wrap-around, the state
      and error monad [M], total triples, lists, circular buffers, tactics.
    - [RtList], [SList]: rtservice.h, doubly and singly linked lists.  The linked
      nodes implement plain lists, which is what the other kernel files use;
      [RingBlk] uses [SList] itself.
    - [Kernel]: rtdef.h, the structures and global variables as records.
    - [Sched]: scheduler.c, irq.c and [__rt_ffs] of kservice.c; the invariant [wf].
    - [Object], [Timer], [Thread], [Clock]: object.c, timer.c, thread.c, clock.c.
      The invariant [kwf] adds the timers to [wf].
    - [Ipc]: the wait queues of ipc.c, with [wait_spec] and [resume_spec], which
      [Sem], [Mutex], [Event], [Mailbox] and [MsgQueue] (the sections of ipc.c)
      prove their operations from.  [Mempool]: mempool.c, and [DeviceIpc]:
      completion.c, dataqueue.c and waitqueue.c of components/drivers/src, on the
      same kernel state; [Workqueue]: workqueue.c of the same place, on [Life].
      [Demo] is a concrete state for witnesses, [KernelProps] what the kernel files
      promise together.
    - [Life]: how threads begin and end (the theorems; the operations are in
      [Thread]).  [Idle]: idle.c, on [Life].  [Startup]: components.c, from reset
      to the main thread, on all of these and on [Mem], from which the main thread
      and its stack are allocated.
    - [Bytes]: src/datastructure_def.h, the messages as bytes.
    - [KString], [Kservice], [Vsnprintf]: kservice.c, memory and strings, what the
      conversions of a format produce, and how it gets into the buffer.
    - [Names]: object.c with the names of the objects, on the memory of [KString],
      where [Object] has only what the kernel objects need.  [Device]: device.c and
      the console, on [Names]; the drivers are functions it is given.
    - [Mem]: mem.c.  [RingBuffer], [RingBlk]: ringbuffer.c and ringblk_buf.c of
      components/drivers/src, on [Mem].
    - [Msh], [Complete], [Shell]: msh.c and shell.c of components/finsh: splitting a
      line and running its command, the completion of names, and the line editor
      that the shell's thread is.  The commands are parameters; they and the other
      threads change the working directory and what is in a directory.
    - The shell's interpreter of C expressions, also in components/finsh.  [FinshVm]:
      finsh_vm.c and finsh_ops.c, the stack machine.  [FinshCompiler]: the types and
      the code of finsh_compiler.c.  [FinshExpr], [FinshRun]: what the code of an
      expression computes.  [FinshC]: what it means in C, and where that is the same.
      [FinshToken]: finsh_token.c.
      [FinshHeap]: finsh_heap.c, the heap of strings.  [FinshLex]: how tokens are
      spelled, and that spelled ones are read.  [FinshParser]: finsh_parser.c,
      finsh_node.c, finsh_var.c.  [FinshBlocks], [FinshStrings]: the heap of strings
      against its specification.  [FinshSyntax]: the sentences that are parsed.
      [FinshLine]: a line from its characters to the value printed, with examples.
    - [AppMain], [AppProps]: main.c.  [Gui]: gui/new_gui.c.  [FileWr]: file_wr.c,
      against the interface [Yaffs] with the laws [YaffsLaws], and an instance.
      [NbConn]: nb_conn.c.  [System]: the threads together, from a measurement to
      the display, to the publish command and to the log, and a power cycle.

    A function of the program is a definition of the same name; a part of one
    that is used twice, or a loop, has a name of its own.  C code with effects is
    a function in [M state]: [None] is a failed [RT_ASSERT] (which spins), or
    what C leaves undefined.  Every theorem about a call says that it has a
    result, so these are excluded.

    ** What is proved

    - Scheduling and time ([Sched], [Clock], [KernelProps]): the running thread is
      never of lower priority than a ready one; timers are queued in the order in
      which they are due; a sleeping thread runs again after exactly its ticks;
      time slices go round.
    - IPC ([Sem] to [Mempool]): each operation refines a small abstract object (a
      counter with a queue of waiters, an owner with priority inheritance, a set
      of bits, bounded queues, and for [Mempool] a stack of free blocks with its
      waiters); any interleaving of the critical sections of
      senders and receivers of a message queue is a run of one FIFO queue.
    - The objects of the drivers ([DeviceIpc], [Workqueue]): a completion is a flag with one
      waiter, a data queue a bounded queue with a low-water mark, and a wait queue
      keeps a wake-up that comes before the wait.  A work queue ([Workqueue]) calls
      its works in order whatever runs between the steps of its thread, unless a
      submission resumes the thread late.
    - The life of a thread ([Life], [Idle], [Startup]): what creating, starting,
      ending and freeing a thread does to it and to the others; the idle thread's
      rounds end and free what has ended; and after reset the main thread runs in
      a state in which the kernel invariant, which all the other theorems start
      from, holds.
    - The heap ([Mem]): the blocks tile the heap, free neighbours are merged, and
      [rt_malloc] is first fit; over any sequence of requests what is owned is
      aligned, in the heap and disjoint, and no assertion fails; [rt_realloc]
      keeps the contents.
    - [KString], [Kservice], [RingBuffer], [RingBlk]: the word-wise loops do what the plain
      definitions say, searches find the first occurrence, numbers that are
      printed read back, output is truncated where it should be, the ring
      buffer is a queue of bytes, and the blocks of the ring block buffer never
      overlap.
    - Objects and devices ([Names], [Device]): finding answers the newest object
      whose name agrees in the first ten characters; whoever uses the devices in
      whatever order, their drivers are initialised once, before they are opened,
      closed when the last user leaves, and read and written only in between.
    - The shell ([Shell]): whatever keys are pressed, the line and its cursor are
      those of a simple editor with five past lines, as long as no line gets 80
      characters and the working directory has a short name; at its end the command that the line names is called with the
      arguments that the line says ([Msh.msh_exec_ok]), and the tab key puts what
      all names agree in ([Complete.msh_auto_complete_ok]).
    - The interpreter of expressions ([FinshLine]): from the characters of a line to
      its tokens ([FinshLex.token_run_ok]), to its tree ([FinshSyntax.parser_run_ok]),
      to the types and the code ([FinshRun.check_ok], [FinshRun.compile_ok]) and
      through the machine ([FinshRun.run_root_ok]), the value is that of the
      expressions in C ([FinshC.expr_agrees]) where the width and the sign of the
      operations are those of C ([FinshC.c_ok]); [line_runs] puts these together.
      The examples at the end of [FinshLine] show lines that do not do what they say.
    - The strings of expressions ([FinshBlocks], [FinshStrings]): the blocks tile the
      heap, its two lists are in the order of the addresses, and a string that a
      variable points to is not changed by making another one ([strings_are_kept]);
      one that is not may be given up within its line
      ([FinshStrings.string_is_given_up]).
    - The application: a batch is sorted as it was weighed; what is measured is
      what is displayed, published and logged; the date of the server is what is
      shown; each thread handles every sequence of messages without an undefined
      step, or the theorem says which message breaks it.
    - Where the code does not do what it means to, the theorem states what it
      does ([rt_thread_delay_until_sleeps], [rt_ringbuffer_put_force_ok],
      [placeholder_is_overrun], [spurious_pulse_blocks_input], ...), and examples
      show the rest ([Mem.shrinking_loses_memory], ...).

    ** Bounds and fuel

    Integers are [Z] kept reduced ([u8], [u15], [u16], [u32], [s16], [s32]), so
    overflow is what the code does; theorems that exclude it say so (a request of
    at most 2^32 - 8 bytes, fewer than 2^31 - 1 ticks, numbers of at most six
    digits in a cell of the display).  A loop that is not structural has fuel:
    the number of due timers in [Clock]; of threads that have ended in [Idle]; the
    number of blocks in [Mem], of which each has 24 bytes at least; the length of the
    format, of the strings, or of the line, in [Kservice], [KString], [Msh] and
    [Complete]; in the interpreter of expressions, the length of the line for the
    tokens and the parser, for the machine the 128 bytes of its code, which has no
    jumps, and for the heap of strings the 16 headers of 8 bytes that its 128 bytes
    can have.  In each case a lemma says that the fuel suffices.
    The loops of the threads, which do not end, are run on any list of messages.

    ** Not modelled

    - Code that is not the program's own or not configured: lwIP, yaffs2, LVGL and
      the other graphics code, the commands of finsh on files and its disassembler,
      the file systems, the board's drivers (parameters of [Device]; for the
      application, what a device reads and writes are inputs and recorded effects),
      memheap.c, slab.c, signals, the SMP variants, soft timers.
    - Context switches and interrupt entry in assembly: [rt_hw_interrupt_disable]
      and [enable] delimit what is atomic.
    - [rt_kprintf] and logs, [%f]; calls of hooks are only recorded, in [Names].
    - pipe.c of the drivers' IPC, which needs the device file system.
    - The board initialisation of the start-up, which is a parameter of [Startup]
      that makes no threads, and sets up the heap, or not.
    - The functions that an expression calls and the tables of symbols, which the
      linker makes, are parameters ([Functions], [Symbols], [Environment]); [line_runs]
      leaves out strings, casts and parentheses, which the definitions have.
    - at_command.h is not in the repository: the AT commands are a parameter. *)

From stdpp Require Export base tactics list fin_maps gmap.
From Stdlib Require Export ZArith Lia.
#[export] Set Warnings "-notation-overridden".
#[global] Open Scope Z_scope.

(** ** Machine integers: a [w]-bit unsigned value is a [Z] kept reduced *)

Definition wrap (w z : Z) : Z := z mod 2 ^ w.
Abbreviation u8 := (wrap 8).
Abbreviation u16 := (wrap 16).
Abbreviation u32 := (wrap 32).

(** The two's complement reading of a 32-bit pattern. *)
Definition s32 (z : Z) : Z :=
  if decide (u32 z < 2 ^ 31) then u32 z else u32 z - 2 ^ 32.

(** A [rt_int16_t]. *)
Definition s16 (z : Z) : Z := if decide (u16 z < 2 ^ 15) then u16 z else u16 z - 2 ^ 16.

Definition in_range (w z : Z) : Prop := 0 <= z < 2 ^ w.

Lemma wrap_range w z : 0 <= w -> in_range w (wrap w z).
Proof. intros. apply Z.mod_pos_bound. lia. Qed.

Lemma wrap_small w z : in_range w z -> wrap w z = z.
Proof. apply Z.mod_small. Qed.

Lemma wrap_wrap w z : 0 <= w -> wrap w (wrap w z) = wrap w z.
Proof. intros. apply wrap_small, wrap_range; lia. Qed.

Lemma wrap_add_l w a b : wrap w (wrap w a + b) = wrap w (a + b).
Proof. unfold wrap. by rewrite Zplus_mod_idemp_l. Qed.

Lemma wrap_sub_l w a b : wrap w (wrap w a - b) = wrap w (a - b).
Proof. unfold wrap. by rewrite Zminus_mod_idemp_l. Qed.

Lemma wrap_sub_r w a b : wrap w (a - wrap w b) = wrap w (a - b).
Proof. unfold wrap. by rewrite Zminus_mod_idemp_r. Qed.

Lemma wrap_neg_small w z : - 2 ^ w <= z < 0 -> wrap w z = z + 2 ^ w.
Proof.
  intros H. unfold wrap. symmetry. apply (Z.mod_unique _ _ (-1)); lia.
Qed.

Lemma s32_small z : 0 <= z < 2 ^ 31 -> s32 z = z.
Proof.
  intros H. unfold s32. rewrite !(wrap_small 32) by (unfold in_range; lia).
  rewrite decide_True; lia.
Qed.

Lemma s32_id z : - 2 ^ 31 <= z < 2 ^ 31 -> s32 z = z.
Proof.
  intros H. destruct (decide (0 <= z)); [apply s32_small; lia|]. unfold s32. rewrite wrap_neg_small by lia. rewrite decide_False by lia. lia.
Qed.

(** ** Bit sets in a machine word *)

Lemma lor_range w a b : 0 <= w -> in_range w a -> in_range w b -> in_range w (Z.lor a b).
Proof.
  unfold in_range. intros Hw [Ha Ha'] [Hb Hb'].
  assert (0 <= Z.lor a b) by (apply Z.lor_nonneg; lia).
  split; [done|].
  destruct (decide (Z.lor a b = 0)) as [->|Hn]; [lia|].
  apply Z.log2_lt_pow2; [lia|]. rewrite Z.log2_lor by lia.
  destruct (decide (a = 0)) as [->|], (decide (b = 0)) as [->|];
    repeat match goal with
    | |- context [Z.max ?x ?y] => destruct (Z.max_spec x y) as [[_ ->]|[_ ->]]
    end;
    try (apply Z.log2_lt_pow2; lia); change (Z.log2 0) with 0;
    try (rewrite Z.lor_0_l in Hn || rewrite Z.lor_0_r in Hn);
    try (assert (0 <> w) by (intros <-; simpl in *; lia); lia); try lia.
Qed.

Lemma land_range w a b : 0 <= w -> in_range w a -> in_range w (Z.land a b).
Proof.
  unfold in_range. intros Hw Ha.
  assert (0 <= Z.land a b) by (apply Z.land_nonneg; lia).
  split; [done|].
  assert (Z.land a b = Z.land (Z.land a b) (Z.ones w)) as ->.
  { rewrite <- Z.land_assoc, (Z.land_comm b), Z.land_assoc.
    rewrite (Z.land_ones a w), Z.mod_small by lia. done. }
  rewrite Z.land_ones by lia. apply Z.mod_pos_bound. lia.
Qed.

Lemma testbit_pow2 p i : 0 <= p -> Z.testbit (2 ^ p) i = bool_decide (p = i).
Proof.
  intros. rewrite Z.pow2_bits_eqb by done.
  destruct (Z.eqb_spec p i); by case_bool_decide.
Qed.

Lemma testbit_out w a i : in_range w a -> w <= i -> Z.testbit a i = false.
Proof.
  intros [H1 H2] Hi. destruct (decide (a = 0)) as [->|]; [apply Z.testbit_0_l|].
  apply Z.bits_above_log2; [lia|]. assert (Z.log2 a < w); [|lia].
  apply Z.log2_lt_pow2; lia.
Qed.

Lemma land_pow2_nonzero a p : 0 <= p -> Z.land a (2 ^ p) <> 0 <-> Z.testbit a p = true.
Proof.
  intros Hp. split.
  - intros H. destruct (Z.testbit a p) eqn:E; [done|]. destruct H.
    apply Z.bits_inj'; intros n Hn. rewrite Z.land_spec, testbit_pow2, Z.testbit_0_l by done.
    case_bool_decide; subst; rewrite ?E; by rewrite ?andb_false_r.
  - intros E H. apply (f_equal (fun x => Z.testbit x p)) in H.
    rewrite Z.land_spec, E, testbit_pow2, Z.testbit_0_l in H by done.
    by rewrite bool_decide_true in H.
Qed.

(** ** The error monad of the kernel code

    [None] is the state in which [RT_ASSERT] has called [rt_assert_handler],
    which spins for ever: nothing the caller wrote after it runs. *)

Definition M (S A : Type) : Type := S -> option (A * S).

#[export] Instance M_ret S : MRet (M S) := fun A a s => Some (a, s).
#[export] Instance M_bind S : MBind (M S) := fun A B f m s =>
  match m s with Some (a, s') => f a s' | None => None end.

Definition halt {S A} : M S A := fun _ => None.
(** What the C standard leaves undefined: an access outside an object. *)
Definition undefined {S A} : M S A := halt.
Definition gets {S A} (f : S -> A) : M S A := fun s => Some (f s, s).
Definition modify {S} (f : S -> S) : M S unit := fun s => Some (tt, f s).
Definition rt_assert {S} (b : bool) : M S unit := if b then mret tt else halt.
(** Dereferencing a reference that is not there. *)
Definition deref {S A} (f : S -> option A) : M S A := fun s =>
  match f s with Some a => Some (a, s) | None => None end.
Definition when {S} (b : bool) (m : M S unit) : M S unit := if b then m else mret tt.

(** ** Total triples: the code does not halt, and ends in [Q] *)

Definition triple {S A} (P : S -> Prop) (m : M S A) (Q : A -> S -> Prop) : Prop :=
  forall s, P s -> exists a s', m s = Some (a, s') /\ Q a s'.

Section triples.
Context {S A B : Type}.
Implicit Types P : S -> Prop.

Lemma triple_ret P (a : A) (Q : A -> S -> Prop) :
  (forall s, P s -> Q a s) -> triple P (mret a) Q.
Proof. intros H s Hs. exists a, s. split; [done|by apply H]. Qed.

Lemma triple_bind P (R : A -> S -> Prop) (Q : B -> S -> Prop) (m : M S A) (f : A -> M S B) :
  triple P m R -> (forall a, triple (R a) (f a) Q) -> triple P (m ≫= f) Q.
Proof.
  intros Hm Hf s Hs. destruct (Hm s Hs) as (a & s' & E & Hr).
  destruct (Hf a s' Hr) as (b & s'' & E' & Hq).
  exists b, s''. split; [|done]. unfold mbind, M_bind. by rewrite E.
Qed.

Lemma triple_conseq P P' (Q Q' : A -> S -> Prop) (m : M S A) :
  triple P m Q -> (forall s, P' s -> P s) -> (forall a s, Q a s -> Q' a s) ->
  triple P' m Q'.
Proof. intros H HP HQ s Hs. destruct (H s (HP s Hs)) as (a & s' & E & Hq). eauto. Qed.

Lemma triple_gets P (f : S -> A) (Q : A -> S -> Prop) :
  (forall s, P s -> Q (f s) s) -> triple P (gets f) Q.
Proof. intros H s Hs. by exists (f s), s; split; [|apply H]. Qed.

Lemma triple_deref P (f : S -> option A) (Q : A -> S -> Prop) :
  (forall s, P s -> exists a, f s = Some a /\ Q a s) -> triple P (deref f) Q.
Proof.
  intros H s Hs. destruct (H s Hs) as (a & E & Hq). exists a, s.
  unfold deref. by rewrite E.
Qed.
End triples.

Lemma triple_modify {S} (P : S -> Prop) (f : S -> S) (Q : unit -> S -> Prop) :
  (forall s, P s -> Q tt (f s)) -> triple P (modify f) Q.
Proof. intros H s Hs. by exists tt, (f s); split; [|apply H]. Qed.

Lemma triple_when {S} (P : S -> Prop) b (m : M S unit) (Q : unit -> S -> Prop) :
  (b = true -> triple P m Q) -> (b = false -> forall s, P s -> Q tt s) ->
  triple P (when b m) Q.
Proof. destruct b; simpl; intros H1 H2; [by apply H1|by apply triple_ret, H2]. Qed.

Lemma triple_assert {S} (P : S -> Prop) b (Q : unit -> S -> Prop) :
  (forall s, P s -> b = true) -> (forall s, P s -> Q tt s) -> triple P (rt_assert b) Q.
Proof.
  intros Hb HQ s Hs. rewrite (Hb s Hs). exists tt, s. split; [done|by apply HQ].
Qed.

(** Stepping a monadic equation: [m s = Some r] for a composed [m]. *)
Lemma bind_Some {S A B} (m : M S A) (f : A -> M S B) s r :
  (m ≫= f) s = Some r -> exists a s', m s = Some (a, s') /\ f a s' = Some r.
Proof.
  unfold mbind, M_bind. destruct (m s) as [[a s']|]; [|done]. eauto.
Qed.

Lemma bind_eval {S A B} (m : M S A) (f : A -> M S B) s a s' :
  m s = Some (a, s') -> (m ≫= f) s = f a s'.
Proof. intros E. unfold mbind, M_bind. by rewrite E. Qed.

(** Two steps whose joint result is known, in front of a third one. *)
Lemma bind_regroup {S A B C} (m : M S A) (f : A -> M S B) (k : B -> M S C) s b s' :
  (m ≫= f) s = Some (b, s') -> (a ← m; b ← f a; k b) s = k b s'.
Proof. unfold mbind, M_bind. destruct (m s) as [[a s1]|]; [|done]. by intros ->. Qed.

(** ** Lists *)

Section lists.
Context {A : Type} `{EqDecision A}.
Implicit Types l : list A.

(** [rt_list_remove] seen on the list of the nodes behind a head. *)
Definition lremove (x : A) l : list A := filter (fun y => y <> x) l.

Lemma elem_of_lremove x y l : y ∈ lremove x l <-> y <> x /\ y ∈ l.
Proof. unfold lremove. by rewrite list_elem_of_filter. Qed.

Lemma lremove_notin x l : x ∉ l -> lremove x l = l.
Proof.
  unfold lremove. induction l as [|y l IH]; [done|]. intros H.
  apply not_elem_of_cons in H as [H1 H2]. rewrite filter_cons_True by done.
  by rewrite IH.
Qed.

Lemma lremove_cons_eq x l : x ∉ l -> lremove x (x :: l) = l.
Proof. intros. unfold lremove. rewrite filter_cons_False by (intros ?; done). by apply lremove_notin. Qed.

Lemma lremove_app x l1 l2 : lremove x (l1 ++ l2) = lremove x l1 ++ lremove x l2.
Proof. apply filter_app. Qed.

Lemma NoDup_lremove x l : NoDup l -> NoDup (lremove x l).
Proof. apply NoDup_filter. Qed.

Lemma lremove_middle x l1 l2 :
  NoDup (l1 ++ x :: l2) -> lremove x (l1 ++ x :: l2) = l1 ++ l2.
Proof.
  intros H. apply NoDup_app in H as (H1 & H2 & H3).
  apply NoDup_cons in H3 as [H3 H4].
  rewrite lremove_app, lremove_cons_eq by done. f_equal. apply lremove_notin.
  intros Hin. apply (H2 x Hin). left.
Qed.
End lists.


(** ** Circular buffers *)

Section ring.
Context {A : Type} `{Inhabited A}.
Implicit Types pool : list A.

(** The [n] elements from index [out] on, wrapping around. *)
Definition ring pool (out n : nat) : list A :=
  map (fun i => pool !!! ((out + i) mod length pool)%nat) (seq 0 n).

Lemma ring_length pool out n : length (ring pool out n) = n.
Proof. unfold ring. by rewrite length_map, length_seq. Qed.

Lemma mod_diff (o i n m : nat) : (i < n < m)%nat -> ((o + i) mod m <> (o + n) mod m)%nat.
Proof.
  intros Hi E. pose proof (Nat.div_mod_eq (o + i) m) as H1. pose proof (Nat.div_mod_eq (o + n) m) as H2.
  rewrite E in H1. assert (n - i = m * ((o + n) / m - (o + i) / m))%nat as Hd by nia.
  destruct ((o + n) / m - (o + i) / m)%nat; nia.
Qed.

Lemma ring_push pool out n v : (n < length pool)%nat ->
  ring (<[((out + n) mod length pool)%nat := v]> pool) out (S n) = ring pool out n ++ [v].
Proof.
  intros Hn. unfold ring. rewrite length_insert, seq_S, map_app. f_equal.
  - apply map_ext_in. intros i [_ Hi]%in_seq. rewrite list_lookup_total_insert_ne; [done|].
    apply not_eq_sym, mod_diff. lia.
  - simpl. rewrite list_lookup_total_insert_eq; [done|]. apply Nat.mod_upper_bound. lia.
Qed.

Lemma ring_pop pool out n : (out < length pool)%nat ->
  ring pool out (S n) = pool !!! out :: ring pool ((out + 1) mod length pool)%nat n.
Proof.
  intros Ho. unfold ring. rewrite <- cons_seq. simpl. f_equal.
  - rewrite Nat.add_0_r, Nat.mod_small by done. done.
  - rewrite <- seq_shift, map_map. apply map_ext. intros i. f_equal.
    rewrite Nat.Div0.add_mod_idemp_l. f_equal. lia.
Qed.
End ring.

(** The wrap-around of an offset, as the code writes it. *)
Lemma next_offset (i m : nat) : (i < m)%nat -> 
  (if decide (Z.of_nat m <= Z.of_nat i + 1) then 0 else Z.of_nat i + 1) = Z.of_nat ((i + 1) mod m).
Proof.
  intros Hi. case_decide.
  - replace (i + 1)%nat with m by lia. rewrite Nat.Div0.mod_same. done.
  - rewrite Nat.mod_small by lia. lia.
Qed.

(** ** Alignment: [RT_ALIGN] and [RT_ALIGN_DOWN] of rtdef.h on a [rt_size_t] *)

Definition RT_ALIGN (size align : Z) : Z := Z.land (u32 (size + align - 1)) (Z.lnot (align - 1)).
Definition RT_ALIGN_DOWN (size align : Z) : Z := Z.land size (Z.lnot (align - 1)).

Lemma rt_align_8 size : 0 <= size -> size + 7 < 2 ^ 32 -> size <= RT_ALIGN size 8 < size + 8 /\ RT_ALIGN size 8 mod 8 = 0.
Proof.
  intros H1 H2. unfold RT_ALIGN. rewrite wrap_small by (unfold in_range; lia).
  change (Z.lnot (8 - 1)) with (Z.lnot (Z.ones 3)). rewrite <- Z.ldiff_land, Z.ldiff_ones_r by lia.
  rewrite Z.shiftl_mul_pow2, Z.shiftr_div_pow2 by lia. change (2 ^ 3) with 8. replace (size + 8 - 1) with (size + 7) by lia.
  split; [|by rewrite Z.mod_mul]. pose proof (Z.div_mod (size + 7) 8 ltac:(lia)). pose proof (Z.mod_pos_bound (size + 7) 8 ltac:(lia)). lia.
Qed.

Lemma rt_align_idem k : 0 <= k -> k + 7 < 2 ^ 32 -> k mod 8 = 0 -> RT_ALIGN k 8 = k.
Proof.
  intros H1 H2 H3. destruct (rt_align_8 k H1 H2) as [Hr Hm].
  pose proof (Z.div_mod k 8 ltac:(lia)). pose proof (Z.div_mod (RT_ALIGN k 8) 8 ltac:(lia)). lia.
Qed.

Lemma rt_align_down_8 x : 0 <= x -> x - 8 < RT_ALIGN_DOWN x 8 <= x /\ RT_ALIGN_DOWN x 8 mod 8 = 0.
Proof.
  intros H. unfold RT_ALIGN_DOWN. change (Z.lnot (8 - 1)) with (Z.lnot (Z.ones 3)). rewrite <- Z.ldiff_land, Z.ldiff_ones_r by lia.
  rewrite Z.shiftl_mul_pow2, Z.shiftr_div_pow2 by lia. change (2 ^ 3) with 8. split; [|by rewrite Z.mod_mul].
  pose proof (Z.div_mod x 8 ltac:(lia)). pose proof (Z.mod_pos_bound x 8 ltac:(lia)). lia.
Qed.

(** ** Proof automation *)

(** Split a conjunction in the hypotheses and the goal, and finish. *)
Ltac split_all := repeat match goal with
  | H : _ /\ _ |- _ => destruct H
  | |- _ /\ _ => split
  end.

(** Unfold one monadic step in a hypothesis [m s = Some r]. *)
Ltac mstep H :=
  let a := fresh "a" in let s := fresh "s" in let E := fresh "E" in
  apply bind_Some in H as (a & s & E & H).

