(* ===== verification/RtList.v ===== *)
(** * RtList: the intrusive doubly linked list of rtservice.h

    Every kernel object links itself into circular lists through an embedded
    [rt_list_t] node.  Module [RtList] gives the pointer-level operations of
    src/RTT4/include/rtservice.h on a store of [next]/[prev] fields, and shows
    that they implement the operations on plain lists ([l ++ [n]], [n :: l],
    [lremove n l], emptiness, length) that the kernel model of the other files
    uses.  A node that is in no list is linked to itself. *)

From S2P Require Import Prelude.

Module RtList.
Section RtList.
Context {A : Type} `{EqDecision A}.

(** [struct rt_list_node { next; prev }] for every node address. *)
Record links := Links { next : A -> A; prev : A -> A }.

Definition set_next (h : links) (x v : A) : links :=
  Links (fun y => if decide (y = x) then v else next h y) (prev h).
Definition set_prev (h : links) (x v : A) : links :=
  Links (next h) (fun y => if decide (y = x) then v else prev h y).

Definition rt_list_init (l : A) (h : links) : links :=
  let h := set_prev h l l in set_next h l (prev h l).

Definition rt_list_insert_after (l n : A) (h : links) : links :=
  let h := set_prev h (next h l) n in
  let h := set_next h n (next h l) in
  let h := set_next h l n in
  set_prev h n l.

Definition rt_list_insert_before (l n : A) (h : links) : links :=
  let h := set_next h (prev h l) n in
  let h := set_prev h n (prev h l) in
  let h := set_prev h l n in
  set_next h n l.

Definition rt_list_remove (n : A) (h : links) : links :=
  let h := set_prev h (next h n) (prev h n) in
  let h := set_next h (prev h n) (next h n) in
  let h := set_prev h n n in
  set_next h n (prev h n).

Definition rt_list_isempty (l : A) (h : links) : bool := bool_decide (next h l = l).

(** [rt_list_len]'s loop, bounded by the number of nodes there can be. *)
Fixpoint rt_list_len_from (fuel : nat) (l p : A) (h : links) : option nat :=
  match fuel with
  | O => None
  | S fuel => if decide (next h p = l) then Some O
              else S <$> rt_list_len_from fuel l (next h p) h
  end.
Definition rt_list_len (fuel : nat) (l : A) (h : links) : option nat :=
  rt_list_len_from fuel l l h.

(** ** Representation: following [f] from [x] visits [ns] and ends at [y] *)

Fixpoint path (f : A -> A) (x : A) (ns : list A) (y : A) : Prop :=
  match ns with
  | [] => f x = y
  | n :: ns => f x = n /\ path f n ns y
  end.

(** The list behind head [l] holds the nodes [ns]: the [next] fields lead
    through [ns] back to [l], the [prev] fields the other way round. *)
Definition is_list (h : links) (l : A) (ns : list A) : Prop :=
  NoDup (l :: ns) /\ path (next h) l ns l /\ path (prev h) l (reverse ns) l.

(** A node that is in no list. *)
Definition unlinked (h : links) (n : A) : Prop := is_list h n [].

Definition flip (h : links) : links := Links (prev h) (next h).

Ltac upd := simpl in *; repeat first
  [ rewrite decide_True by done
  | rewrite decide_False by (first [done | congruence | set_solver]) ].

Lemma path_app f x ns1 n ns2 y :
  path f x (ns1 ++ n :: ns2) y <-> path f x ns1 n /\ path f n ns2 y.
Proof. revert x. induction ns1 as [|m ns1 IH]; intros x; simpl; [done|]. rewrite IH. tauto. Qed.

Lemma path_ext f g x ns y :
  path f x ns y -> (forall z, z ∈ x :: ns -> g z = f z) -> path g x ns y.
Proof.
  revert x. induction ns as [|n ns IH]; intros x; simpl.
  - intros H Hfg. rewrite Hfg; [done|left].
  - intros [H1 H2] Hfg. split; [rewrite Hfg; [done|left]|].
    apply IH; [done|]. intros z Hz. apply Hfg. by right.
Qed.

(** The last node of [x :: ns]. *)
Fixpoint lastd (x : A) (ns : list A) : A :=
  match ns with [] => x | n :: ns => lastd n ns end.

Lemma path_last f x ns y : path f x ns y -> f (lastd x ns) = y.
Proof. revert x. induction ns as [|n ns IH]; intros x; [done|]. intros [_ H]. by apply IH. Qed.

Lemma elem_of_lastd (x : A) ns : lastd x ns ∈ x :: ns.
Proof. revert x. induction ns as [|n ns IH]; intros x; [left|]. right. apply IH. Qed.

Lemma lastd_snoc x ns n : lastd x (ns ++ [n]) = n.
Proof. revert x. induction ns; intros; simpl; done. Qed.

Lemma path_head_reverse f n ns l : path f n (reverse ns) l -> f n = lastd l ns.
Proof.
  destruct ns as [|m ns _] using rev_ind; [done|].
  rewrite reverse_snoc, lastd_snoc. by intros [H _].
Qed.

Lemma is_list_flip h l ns : is_list (flip h) l (reverse ns) <-> is_list h l ns.
Proof.
  unfold is_list. rewrite reverse_involutive. simpl.
  rewrite !NoDup_cons, elem_of_reverse.
  assert (NoDup (reverse ns) <-> NoDup ns) as ->; [|tauto].
  by rewrite (reverse_Permutation ns).
Qed.

Lemma is_list_nil h l : is_list h l [] <-> next h l = l /\ prev h l = l.
Proof. unfold is_list; simpl. split; [tauto|]. intros. split; [|done]. apply NoDup_singleton. Qed.

(** Nothing but the fields of the nodes of a list matters to it. *)
Lemma is_list_frame h h' l ns :
  is_list h l ns ->
  (forall z, z ∈ l :: ns -> next h' z = next h z /\ prev h' z = prev h z) ->
  is_list h' l ns.
Proof.
  intros (H1 & H2 & H3) E. split; [done|]. split.
  - eapply path_ext; [done|]. intros z Hz. by apply E.
  - eapply path_ext; [done|]. intros z Hz. apply E. set_solver.
Qed.

(** ** The operations *)

Lemma rt_list_init_spec (l : A) h : is_list (rt_list_init l h) l [].
Proof. apply is_list_nil. by upd. Qed.

Lemma insert_after_next h l n ns :
  n ∉ l :: ns -> is_list h l ns -> path (next (rt_list_insert_after l n h)) l (n :: ns) l.
Proof.
  intros Hn (Hd & Hp & _). apply NoDup_cons in Hd as [Hl Hd]. upd. split; [done|].
  destruct ns as [|m ns]; simpl in *.
  - by upd.
  - destruct Hp as [-> Hp]. upd. split; [done|].
    eapply path_ext; [done|]. intros z Hz. by upd.
Qed.

Lemma insert_after_prev h l n ns :
  n ∉ l :: ns -> is_list h l ns ->
  path (prev (rt_list_insert_after l n h)) l (reverse ns ++ [n]) l.
Proof.
  intros Hn (Hd & Hp & Hq). apply NoDup_cons in Hd as [Hl Hd].
  apply path_app. split; [|by upd].
  destruct ns as [|m ns].
  - simpl in *. by rewrite Hp; upd.
  - rewrite reverse_cons in *. simpl in Hp. destruct Hp as [Hm _].
    apply NoDup_cons in Hd as [Hd _].
    apply path_app in Hq as [Hq _]. apply path_app. split; [|simpl; by rewrite Hm; upd].
    eapply path_ext; [done|]. intros z Hz. simpl. rewrite Hm. by upd.
Qed.

(** Linking [n] after the head puts it first. *)
Lemma rt_list_insert_after_spec h l n ns :
  n ∉ l :: ns -> is_list h l ns -> is_list (rt_list_insert_after l n h) l (n :: ns).
Proof.
  intros Hn H. pose proof (insert_after_next _ _ _ _ Hn H).
  pose proof (insert_after_prev _ _ _ _ Hn H). destruct H as [Hd _].
  split; [|split; [done|by rewrite reverse_cons]].
  rewrite !NoDup_cons in *. set_solver.
Qed.

Lemma insert_before_flip l n h :
  rt_list_insert_before l n h = flip (rt_list_insert_after l n (flip h)).
Proof. done. Qed.

(** Linking [n] before the head puts it last. *)
Lemma rt_list_insert_before_spec h l n ns :
  n ∉ l :: ns -> is_list h l ns -> is_list (rt_list_insert_before l n h) l (ns ++ [n]).
Proof.
  intros Hn H. rewrite insert_before_flip. apply is_list_flip.
  rewrite reverse_app. simpl. change (flip (flip ?h)) with h.
  apply rt_list_insert_after_spec; [set_solver|].
  by apply is_list_flip.
Qed.

Lemma insert_frame h l n ns l' ns' :
  is_list h l ns -> is_list h l' ns' ->
  (forall z, z ∈ l' :: ns' -> z ∉ n :: l :: ns) -> is_list (rt_list_insert_after l n h) l' ns'.
Proof.
  intros (_ & Hp & _) H' Hz. eapply is_list_frame; [done|]. intros z Hz'.
  specialize (Hz z Hz'). assert (z <> next h l).
  { intros ->. apply Hz. destruct ns; simpl in Hp; [rewrite Hp|destruct Hp as [-> _]]; set_solver. }
  by upd.
Qed.

(** Bypassing [n] on a path. *)
Lemma path_bypass f g x ns1 n ns2 y p :
  NoDup (x :: ns1 ++ n :: ns2) -> path f x (ns1 ++ n :: ns2) y ->
  p ∈ x :: ns1 -> f p = n -> g p = f n ->
  (forall z, z <> p -> z <> n -> g z = f z) -> path g x (ns1 ++ ns2) y.
Proof.
  revert x. induction ns1 as [|m ns1 IH]; intros x Hd Hp Hin Hfp Hgp Hg; simpl in *.
  - apply list_elem_of_singleton in Hin as ->. destruct Hp as [_ Hp].
    rewrite !NoDup_cons in Hd. destruct ns2 as [|s ns2]; simpl in *; [congruence|].
    destruct Hp as [Hs Hp]. split; [congruence|]. eapply path_ext; [done|].
    destruct Hd as (Hx & Hn & _). intros z Hz.
    apply Hg; intros ->; [apply Hx; by right|by apply Hn].
  - destruct Hp as [Hm Hp]. apply NoDup_cons in Hd as [Hx Hd].
    assert (x <> p).
    { intros <-. rewrite Hm in Hfp. subst. apply NoDup_cons in Hd as [Hd _]. apply Hd. set_solver. }
    assert (x <> n) by set_solver.
    rewrite Hg by done. split; [done|]. apply (IH m); try done. set_solver.
Qed.

Lemma remove_next h l ns1 n ns2 :
  is_list h l (ns1 ++ n :: ns2) ->
  path (next (rt_list_remove n h)) l (ns1 ++ ns2) l /\ next h (prev h n) = n /\ prev h n ∈ l :: ns1.
Proof.
  intros (Hd & Hp & Hq).
  rewrite reverse_app, reverse_cons, <- app_assoc in Hq. apply path_app in Hq as [_ Hq].
  apply path_head_reverse in Hq.
  pose proof Hp as Hp1. apply path_app in Hp1 as [Hp1 _]. apply path_last in Hp1.
  assert (prev h n ∈ l :: ns1) as Hin by (rewrite Hq; apply elem_of_lastd).
  assert (next h (prev h n) = n) as Hpn by congruence.
  assert (n <> prev h n).
  { intros E. rewrite <- E in Hin. change (l :: ns1 ++ n :: ns2) with ((l :: ns1) ++ n :: ns2) in Hd.
    apply NoDup_app in Hd as (_ & Hd & _). apply (Hd n Hin). left. }
  split; [|done].
  eapply (path_bypass (next h)); try done; simpl; [repeat case_decide; congruence|].
  intros z Hz1 Hz2. repeat case_decide; congruence.
Qed.

Lemma remove_flip n h : next h (prev h n) = n -> prev h (next h n) = n ->
  forall z, next (rt_list_remove n (flip h)) z = prev (rt_list_remove n h) z /\
            prev (rt_list_remove n (flip h)) z = next (rt_list_remove n h) z.
Proof. intros E1 E2 z. simpl. split; repeat case_decide; congruence. Qed.

Lemma elem_split (n : A) ns : n ∈ ns -> exists ns1 ns2, ns = ns1 ++ n :: ns2.
Proof. apply list_elem_of_split. Qed.

(** Removing [n] takes it out and leaves it linked to itself. *)
Lemma rt_list_remove_spec h l n ns :
  n ∈ ns -> is_list h l ns ->
  is_list (rt_list_remove n h) l (lremove n ns) /\ unlinked (rt_list_remove n h) n.
Proof.
  intros (ns1 & ns2 & ->)%elem_split H.
  pose proof (remove_next _ _ _ _ _ H) as (Hn & E1 & Hin1).
  assert (is_list (flip h) l (reverse ns2 ++ n :: reverse ns1)) as Hf.
  { apply is_list_flip in H. by rewrite reverse_app, reverse_cons, <- app_assoc in H. }
  pose proof (remove_next _ _ _ _ _ Hf) as (Hq & E2 & Hin2). simpl in E2, Hin2.
  pose proof (remove_flip n h E1 E2) as Hfl.
  destruct H as (Hd & _ & _). apply NoDup_cons in Hd as [Hl Hd].
  rewrite lremove_middle by done. split.
  - split; [|split; [done|]].
    + apply NoDup_cons. split; [set_solver|]. apply NoDup_app in Hd as (?&?&Hd).
      apply NoDup_cons in Hd as []. apply NoDup_app. set_solver.
    + rewrite reverse_app. eapply path_ext; [apply Hq|]. intros z _. symmetry. apply Hfl.
  - apply is_list_nil. by upd.
Qed.

(** Removing an unlinked node changes nothing. *)
Lemma rt_list_remove_unlinked h n z :
  unlinked h n -> next (rt_list_remove n h) z = next h z /\ prev (rt_list_remove n h) z = prev h z.
Proof.
  intros [E1 E2]%is_list_nil. simpl. rewrite E1, E2.
  split; repeat case_decide; congruence.
Qed.

(** Removing a node leaves every other list as it is. *)
Lemma remove_frame h l n ns l' ns' :
  n ∈ ns -> is_list h l ns -> is_list h l' ns' ->
  (forall z, z ∈ l' :: ns' -> z ∉ l :: ns) -> is_list (rt_list_remove n h) l' ns'.
Proof.
  intros (ns1 & ns2 & ->)%elem_split H H' Hz.
  pose proof (remove_next _ _ _ _ _ H) as (_ & _ & Hin1).
  assert (is_list (flip h) l (reverse ns2 ++ n :: reverse ns1)) as Hf.
  { apply is_list_flip in H. by rewrite reverse_app, reverse_cons, <- app_assoc in H. }
  pose proof (remove_next _ _ _ _ _ Hf) as (_ & _ & Hin2). simpl in Hin2.
  eapply is_list_frame; [done|]. intros z Hz'. specialize (Hz z Hz').
  assert (z <> n /\ z <> prev h n /\ z <> next h n) as (? & ? & ?).
  { split_and!; intros ->; apply Hz; set_solver. }
  simpl. split; repeat case_decide; congruence.
Qed.

Lemma rt_list_isempty_spec h l ns : is_list h l ns -> rt_list_isempty l h = bool_decide (ns = []).
Proof.
  intros (Hd & Hp & _). unfold rt_list_isempty. apply bool_decide_ext.
  destruct ns as [|n ns]; simpl in Hp; [done|]. destruct Hp as [Hp _].
  split; [|done]. intros E. apply NoDup_cons in Hd. set_solver.
Qed.

Lemma len_from_spec h l p ns fuel :
  l ∉ ns -> path (next h) p ns l -> (length ns < fuel)%nat ->
  rt_list_len_from fuel l p h = Some (length ns).
Proof.
  revert p fuel. induction ns as [|n ns IH]; intros p [|fuel] Hl Hp Hf; simpl in *; try lia.
  - by rewrite decide_True.
  - destruct Hp as [Hn Hp]. rewrite decide_False by set_solver.
    rewrite Hn, IH by (done || set_solver || lia). done.
Qed.

End RtList.

(** ** The theorems *)

Section theorems.
Context {A : Type} `{EqDecision A}.

(** The operations on the linked nodes of a circular doubly linked list
    refine the operations on the list of nodes: insertion behind the last or in
    front of the first node, removal and the emptiness test; a removed node ends
    up unlinked and other lists are not changed. *)
Theorem rt_list_refinement (h : links (A:=A)) l ns n :
  is_list h l ns ->
  rt_list_isempty l h = bool_decide (ns = []) /\
  (n ∉ l :: ns -> is_list (rt_list_insert_before l n h) l (ns ++ [n]) /\
                  is_list (rt_list_insert_after l n h) l (n :: ns)) /\
  (n ∈ ns -> is_list (rt_list_remove n h) l (lremove n ns) /\
             unlinked (rt_list_remove n h) n /\
             forall l' ns', is_list h l' ns' -> (forall z, z ∈ l' :: ns' -> z ∉ l :: ns) ->
               is_list (rt_list_remove n h) l' ns').
Proof.
  intros H. split; [by apply rt_list_isempty_spec|]. split.
  - intros Hn. split; [by apply rt_list_insert_before_spec|by apply rt_list_insert_after_spec].
  - intros Hn. destruct (rt_list_remove_spec h l n ns) as [H1 H2]; [done..|].
    split_and!; [done..|]. intros. by eapply remove_frame.
Qed.

(** [rt_list_len] terminates on a well-formed list and returns the number
    of its nodes. *)
Theorem rt_list_len_correct (h : links (A:=A)) l ns fuel :
  is_list h l ns -> (length ns < fuel)%nat -> rt_list_len fuel l h = Some (length ns).
Proof.
  intros (Hd & Hp & _) Hf. apply NoDup_cons in Hd as [Hl _].
  by apply len_from_spec.
Qed.
End theorems.

(** A head with two nodes. *)
Definition demo_links : links (A:=nat) :=
  rt_list_insert_before 0%nat 2%nat (rt_list_insert_before 0%nat 1%nat (Links (fun x => x) (fun x => x))).

Lemma demo_is_list : is_list demo_links 0%nat [1%nat; 2%nat].
Proof. repeat (split || constructor); set_solver. Qed.

Lemma rt_list_refinement_witness :
  is_list (rt_list_remove 1%nat demo_links) 0%nat [2%nat] /\ unlinked (rt_list_remove 1%nat demo_links) 1%nat.
Proof.
  destruct (rt_list_refinement demo_links 0%nat [1%nat; 2%nat] 1%nat demo_is_list) as (_ & _ & H).
  destruct H as (H1 & H2 & _); [left|]. split; [exact H1|exact H2].
Defined.

Lemma rt_list_len_correct_witness : rt_list_len 3 0%nat demo_links = Some 2%nat.
Proof. apply (rt_list_len_correct demo_links 0%nat [1%nat; 2%nat] 3 demo_is_list). simpl. lia. Defined.
End RtList.
