(* ===== verification/SList.v ===== *)
(** * SList: singly linked lists

    The [rt_slist_*] functions of rtservice.h on nodes that are embedded in the
    elements of an array: [next] reads the node of an element, and [set_next]
    writes it.  A node is [None], the list head, or [Some i], the node of the
    element [i].  [chain], a path through the array, is also the shape of the free
    lists of [MsgQueue] and [Mempool]. *)

From S2P Require Import Prelude.

(** ** Paths *)

Section paths.
Context {A : Type} (next : A -> option nat).

(** From the pointer [o], over the elements [l], to the pointer [e]. *)
Fixpoint seg (pool : list A) (o e : option nat) (l : list nat) : Prop :=
  match l with
  | [] => o = e
  | i :: l => o = Some i /\ exists a, pool !! i = Some a /\ seg pool (next a) e l
  end.

Lemma seg_insert pool e i a l : forall o, i ∉ l -> seg pool o e l -> seg (<[i := a]> pool) o e l.
Proof.
  induction l as [|j l IH]; intros o Hi; simpl; [done|].
  apply not_elem_of_cons in Hi as [H1 H2]. intros (-> & x & Ex & Hc). split; [done|].
  exists x. rewrite list_lookup_insert_ne by done. auto.
Qed.

(** Changing an element, but not its node. *)
Lemma seg_update pool e i a a' l : pool !! i = Some a -> next a' = next a -> forall o, seg pool o e l -> seg (<[i := a']> pool) o e l.
Proof.
  intros Ea En. induction l as [|j l IH]; intros o; simpl; [done|]. intros (-> & x & Ex & Hc). split; [done|].
  destruct (decide (i = j)) as [<-|Hn].
  - exists a'. rewrite list_lookup_insert_eq by (by eapply lookup_lt_Some). split; [done|]. simplify_eq. rewrite En. by apply IH.
  - exists x. rewrite list_lookup_insert_ne by done. auto.
Qed.

Lemma chain_app pool e l1 l2 : forall o, seg pool o e (l1 ++ l2) <-> exists m, seg pool o m l1 /\ seg pool m e l2.
Proof.
  induction l1 as [|i l1 IH]; intros o; simpl.
  - split; [eauto|]. by intros (m & -> & H).
  - split.
    + intros (-> & a & Ea & H). apply IH in H as (m & H1 & H2). exists m. eauto 6.
    + intros (m & (-> & a & Ea & H1) & H2). split; [done|]. exists a. split; [done|]. apply IH. eauto.
Qed.

Lemma seg_bound pool e l : forall o i, seg pool o e l -> i ∈ l -> (i < length pool)%nat.
Proof.
  induction l as [|j l IH]; intros o i; simpl; [by intros _ ?%elem_of_nil|].
  intros (_ & a & Ea & Hc) [->|Hi]%elem_of_cons; [by eapply lookup_lt_Some|by eapply IH].
Qed.

Lemma chain_head pool l o : seg pool o None l -> o = head l.
Proof. destruct l; simpl; [done|]. by intros [-> _]. Qed.

Lemma chain_unique pool l1 : forall o l2, seg pool o None l1 -> seg pool o None l2 -> l1 = l2.
Proof.
  induction l1 as [|i l1 IH]; intros o [|j l2]; simpl; try done.
  - by intros -> [? _].
  - by intros [-> _] ?.
  - intros (-> & a & Ea & H1) ([= <-] & b & Eb & H2). simplify_eq. f_equal. by eapply IH.
Qed.

(** A path that ends does not come back to where it was. *)
Lemma chain_nodup pool l : forall o, seg pool o None l -> NoDup l.
Proof.
  induction l as [|i l IH]; intros o; simpl; [constructor|]. intros (-> & a & Ea & H). constructor; [|by eapply IH].
  intros (l1 & l2 & ->)%list_elem_of_split. pose proof H as H'. apply chain_app in H' as (m & _ & Hm).
  destruct (Hm) as [-> _]. assert (i :: l1 ++ i :: l2 = i :: l2) as E.
  { apply (chain_unique pool _ (Some i)); [|done]. simpl. eauto. }
  apply (f_equal length) in E. simpl in E. rewrite length_app in E. simpl in E. lia.
Qed.

(** Its elements are different, so there are not more than there are. *)
Lemma chain_length pool l o : seg pool o None l -> (length l <= length pool)%nat.
Proof.
  intros H. rewrite <- (length_seq (length pool) 0). apply submseteq_length, NoDup_submseteq.
  - by eapply chain_nodup.
  - intros i Hi. apply elem_of_seq. pose proof (seg_bound _ _ _ _ _ H Hi). lia.
Qed.

(** Hanging [i], whose [next] is NULL, behind the last element. *)
Lemma chain_link pool o u t i mt mt' mi :
  seg pool o None (u ++ [t]) -> i ∉ u ++ [t] -> pool !! t = Some mt -> pool !! i = Some mi ->
  next mt' = Some i -> next mi = None -> seg (<[t := mt']> pool) o None ((u ++ [t]) ++ [i]).
Proof.
  intros H Hi Et Ei Hn Hni. pose proof (chain_nodup _ _ _ H) as Hnd. rewrite <- app_assoc. apply chain_app in H as (m & H1 & -> & _).
  apply NoDup_app in Hnd as (_ & Ht & _). apply chain_app. exists (Some t). split.
  - apply seg_insert; [|done]. intros Hin. apply (Ht t Hin). left.
  - simpl. split; [done|]. exists mt'. rewrite list_lookup_insert_eq by (by eapply lookup_lt_Some). split; [done|].
    split; [done|]. exists mi. rewrite list_lookup_insert_ne by set_solver. done.
Qed.

End paths.

Abbreviation chain next pool o l := (seg next pool o None l).

(** ** Operations *)

Section slist.
Context {A : Type} (next : A -> option nat) (set_next : option nat -> A -> A).

(** [rt_slist_t *]: the head of the list, and the array its nodes are in. *)
Record slist := SList { sl_first : option nat; sl_pool : list A }.

Definition node_next (n : option nat) (s : slist) : option (option nat) :=
  match n with None => Some (sl_first s) | Some i => next <$> sl_pool s !! i end.
Definition set_node (n v : option nat) (s : slist) : option slist :=
  match n with
  | None => Some (SList v (sl_pool s))
  | Some i => a ← sl_pool s !! i; Some (SList (sl_first s) (<[i := set_next v a]> (sl_pool s)))
  end.

(** [while (node->next) node = node->next]; a list that does not end spins. *)
Fixpoint last_node (fuel : nat) (node : option nat) (s : slist) : option (option nat) :=
  nx ← node_next node s;
  match nx, fuel with
  | None, _ => Some node
  | Some i, O => None
  | Some i, S fuel => last_node fuel (Some i) s
  end.

(** [while (node->next && node->next != n) node = node->next] *)
Fixpoint node_before (fuel : nat) (n : nat) (node : option nat) (s : slist) : option (option nat) :=
  nx ← node_next node s;
  match nx with
  | None => Some node
  | Some i =>
    if decide (i = n) then Some node
    else match fuel with O => None | S fuel => node_before fuel n (Some i) s end
  end.

Fixpoint len_from (fuel : nat) (list : option nat) (s : slist) : option Z :=
  match list, fuel with
  | None, _ => Some 0
  | Some i, O => None
  | Some i, S fuel => nx ← node_next (Some i) s; len ← len_from fuel nx s; Some (u32 (len + 1))
  end.

Definition rt_slist_init (s : slist) : slist := SList None (sl_pool s).
Definition rt_slist_append (n : nat) (s : slist) : option slist :=
  node ← last_node (length (sl_pool s)) None s;
  s ← set_node node (Some n) s;
  set_node (Some n) None s.
Definition rt_slist_insert (n : nat) (s : slist) : option slist :=
  s ← set_node (Some n) (sl_first s) s;
  set_node None (Some n) s.
Definition rt_slist_len (s : slist) : option Z := len_from (length (sl_pool s)) (sl_first s) s.
Definition rt_slist_remove (n : nat) (s : slist) : option slist :=
  node ← node_before (length (sl_pool s)) n None s;
  nx ← node_next node s;
  match nx with
  | None => Some s
  | Some i => nxx ← node_next (Some i) s; set_node node nxx s
  end.
Definition rt_slist_first (s : slist) : option nat := sl_first s.
Definition rt_slist_tail (s : slist) : option (option nat) := last_node (length (sl_pool s)) None s.
Definition rt_slist_next (n : nat) (s : slist) : option (option nat) := node_next (Some n) s.
Definition rt_slist_isempty (s : slist) : bool := bool_decide (sl_first s = None).

(** ** What they do to the list of the elements *)

Context {B : Type} (data : A -> B).
Hypothesis next_set : forall v a, next (set_next v a) = v.
Hypothesis data_set : forall v a, data (set_next v a) = data a.

Definition slist_ok (s : slist) (l : list nat) : Prop := chain next (sl_pool s) (sl_first s) l.

Lemma map_data_insert (pool : list A) (i : nat) v a : pool !! i = Some a -> data <$> <[i := set_next v a]> pool = data <$> pool.
Proof.
  intros E. rewrite list_fmap_insert. apply list_insert_id. rewrite list_lookup_fmap, E. simpl. by rewrite data_set.
Qed.

Lemma slist_length s l : slist_ok s l -> (length l <= length (sl_pool s))%nat.
Proof. apply chain_length. Qed.

Lemma last_node_spec s l : forall fuel node o, node_next node s = Some o -> chain next (sl_pool s) o l ->
  (length l <= fuel)%nat -> last_node fuel node s = Some (match last l with None => node | Some i => Some i end).
Proof.
  induction l as [|i l IH]; intros fuel node o En H Hf; simpl in H.
  - subst. by destruct fuel; simpl; rewrite En.
  - destruct H as (-> & a & Ea & H). simpl in Hf. destruct fuel as [|fuel]; [lia|]. simpl. rewrite En. simpl.
    rewrite (IH fuel (Some i) (next a)); [rewrite last_cons; by destruct (last l)|simpl; by rewrite Ea|done|lia].
Qed.

Lemma rt_slist_tail_spec s l : slist_ok s l -> rt_slist_tail s = Some (last l).
Proof.
  intros H. unfold rt_slist_tail. rewrite (last_node_spec s l _ _ (sl_first s)); [by destruct (last l)|done|done|].
  by apply slist_length.
Qed.

Lemma slist_len_from_spec s l : forall fuel o, chain next (sl_pool s) o l -> (length l <= fuel)%nat -> Z.of_nat (length l) < 2 ^ 32 ->
  len_from fuel o s = Some (Z.of_nat (length l)).
Proof.
  induction l as [|i l IH]; intros fuel o H Hf Hl; simpl in H.
  - subst. by destruct fuel.
  - destruct H as (-> & a & Ea & H). simpl in Hf. destruct fuel as [|fuel]; [lia|]. simpl. rewrite Ea. simpl.
    simpl in Hl. rewrite (IH fuel (next a)) by (done || lia). simpl. f_equal. rewrite wrap_small; [lia|]. unfold in_range. lia.
Qed.

Lemma rt_slist_len_spec s l : slist_ok s l -> Z.of_nat (length (sl_pool s)) < 2 ^ 32 -> rt_slist_len s = Some (Z.of_nat (length l)).
Proof. intros H Hp. pose proof (slist_length s l H). apply slist_len_from_spec; [done|done|lia]. Qed.

Lemma rt_slist_append_spec s l i : slist_ok s l -> i ∉ l -> (i < length (sl_pool s))%nat ->
  exists s', rt_slist_append i s = Some s' /\ slist_ok s' (l ++ [i]) /\ data <$> sl_pool s' = data <$> sl_pool s.
Proof.
  intros H Hi Hb. destruct (lookup_lt_is_Some_2 (sl_pool s) i Hb) as [a Ea].
  unfold rt_slist_append. fold (rt_slist_tail s). rewrite (rt_slist_tail_spec s l H).
  destruct (last l) as [t|] eqn:El; simpl.
  - apply last_Some in El as [u ->]. assert (t <> i) as Hti by set_solver.
    destruct (lookup_lt_is_Some_2 (sl_pool s) t) as [b Eb]; [apply (seg_bound _ _ _ _ _ _ H); set_solver|].
    rewrite Eb. simpl. rewrite list_lookup_insert_ne, Ea by done. simpl. eexists. split; [done|].
    split; [|simpl; rewrite map_data_insert by (by rewrite list_lookup_insert_ne); by apply map_data_insert].
    unfold slist_ok. simpl. rewrite list_insert_insert_ne by done.
    apply (chain_link _ _ _ _ _ _ b _ (set_next None a)); try done; [by apply seg_insert|rewrite list_lookup_insert_ne by done|..]; try done.
    by rewrite list_lookup_insert_eq.
  - apply last_None in El as ->. rewrite Ea. simpl. eexists. split; [done|].
    split; [|simpl; by apply map_data_insert]. unfold slist_ok. simpl. split; [done|]. eexists. rewrite list_lookup_insert_eq by done. split; [done|]. simpl. apply next_set.
Qed.

Lemma node_before_spec s n l2 : forall l1 fuel node o, node_next node s = Some o -> n ∉ l1 ->
  chain next (sl_pool s) o (l1 ++ l2) -> (l2 = [] \/ exists l, l2 = n :: l) -> (length l1 <= fuel)%nat ->
  node_before fuel n node s = Some (match last l1 with None => node | Some i => Some i end).
Proof.
  induction l1 as [|i l1 IH]; intros fuel node o En Hn H Hl Hf; simpl in H.
  - destruct Hl as [->|[l ->]]; simpl in H.
    + subst. by destruct fuel; simpl; rewrite En.
    + destruct H as [-> _]. destruct fuel; simpl; rewrite En; simpl; by rewrite decide_True.
  - destruct H as (-> & a & Ea & H). apply not_elem_of_cons in Hn as [H1 H2]. simpl in Hf.
    destruct fuel as [|fuel]; [lia|]. simpl. rewrite En. simpl. rewrite decide_False by done.
    rewrite (IH fuel (Some i) (next a)); [rewrite last_cons; by destruct (last l1)|simpl; by rewrite Ea|done|done|done|lia].
Qed.

(** [rt_slist_remove] of an element that is not in the list does nothing; the
    node of one that was there keeps its [next]. *)
Lemma rt_slist_remove_spec s l i : slist_ok s l ->
  exists s', rt_slist_remove i s = Some s' /\ slist_ok s' (lremove i l) /\
    data <$> sl_pool s' = data <$> sl_pool s /\ (i ∉ l -> s' = s) /\ sl_pool s' !! i = sl_pool s !! i.
Proof.
  intros H. pose proof (slist_length s l H) as Hlen. pose proof (chain_nodup _ _ _ _ H) as Hnd. unfold rt_slist_remove.
  destruct (decide (i ∈ l)) as [Hi|Hi].
  - apply list_elem_of_split in Hi as (l1 & l2 & ->). apply NoDup_app in Hnd as (_ & Hd & [_ Hnd2]%NoDup_cons).
    assert (i ∉ l1) as Hi1 by (intros Hin; apply (Hd i Hin); left).
    rewrite length_app in Hlen.
    rewrite (node_before_spec s i (i :: l2) l1 _ None (sl_first s)); [|done|done|done|eauto|lia].
    rewrite lremove_middle by (pose proof (chain_nodup _ _ _ _ H); done).
    apply chain_app in H as (m & H1 & -> & a & Ea & H2).
    destruct (last l1) as [t|] eqn:El; simpl.
    + apply last_Some in El as [u ->]. apply chain_app in H1 as (m & Hu & -> & b & Eb & Hm). simpl in Hm.
      assert (t ∉ u ++ l2) as Ht.
      { pose proof (Hd t ltac:(set_solver)). apply not_elem_of_app. split; [|set_solver].
        pose proof (chain_nodup next (sl_pool s) (u ++ [t] ++ i :: l2) (sl_first s)) as Hn.
        intros Hin. assert (NoDup (u ++ [t] ++ i :: l2)) as (_ & Hx & _)%NoDup_app; [|by apply (Hx t Hin); left].
        apply Hn. apply chain_app. exists (Some t). split; [done|]. simpl. split; [done|]. exists b. rewrite Hm. eauto. }
      apply not_elem_of_app in Ht as [Ht1 Ht2].
      rewrite Eb. simpl. rewrite Hm, Ea. simpl. eexists. split; [done|]. split; [|split; [|split]].
      * unfold slist_ok. simpl. rewrite <- app_assoc. apply chain_app. exists (Some t). split; [by apply seg_insert|].
        simpl. split; [done|]. eexists. rewrite list_lookup_insert_eq by (by eapply lookup_lt_Some). split; [done|].
        rewrite next_set. by apply seg_insert.
      * simpl. by apply map_data_insert.
      * set_solver.
      * simpl. rewrite list_lookup_insert_ne by set_solver. done.
    + apply last_None in El as ->. simpl in H1. rewrite H1. simpl. rewrite Ea. simpl. eexists. split; [done|].
      split; [done|]. split; [done|]. split; [set_solver|done].
  - rewrite <- (app_nil_r l) in H. rewrite (node_before_spec s i [] l _ None (sl_first s)); [|done|done|done|by left|done].
    rewrite app_nil_r in H. simpl. exists s. rewrite lremove_notin by done. split; [|done].
    destruct (last l) as [t|] eqn:El; simpl.
    + apply last_Some in El as [u ->]. apply chain_app in H as (m & _ & _ & b & Eb & Hm). rewrite Eb. simpl in *. by rewrite Hm.
    + apply last_None in El as ->. by rewrite H.
Qed.

End slist.
