(* ===== verification/Kernel.v ===== *)
(** * Kernel: the state of the RT-Thread kernel

    The structures of src/RTT4/include/rtdef.h as records, the global variables
    of scheduler.c, clock.c, irq.c and timer.c as the fields of one [kstate],
    and the accessors the kernel code is written with.

    - A thread control block is a [tid], an IPC object an [oid] (their
      addresses).  [rt_object_get_type] is the map an object is found in: a
      reference that is not found there fails the type assertion of the code.
    - The intrusive lists are [k_lists], one plain list per list head; [RtList]
      shows that the linked nodes implement them.  A thread has one [tlist]
      node, so [rt_list_remove(&thread->tlist)] takes it out of the list it is
      in, whichever that is.
    - [rt_hw_interrupt_disable]/[enable] delimit what is atomic: every function
      here is one such section, or a sequence of them where this is said. *)

From stdpp Require Export functions.
From S2P Require Export Prelude.

(** ** Constants of rtdef.h and rtconfig.h *)

Definition RT_EOK : Z := 0.
Definition RT_ERROR : Z := 1.
Definition RT_ETIMEOUT : Z := 2.
Definition RT_EFULL : Z := 3.
Definition RT_ENOSYS : Z := 6.
Definition RT_EBUSY : Z := 7.
Definition RT_EINTR : Z := 9.

Definition RT_THREAD_PRIORITY_MAX : Z := 32.
Definition RT_TICK_PER_SECOND : Z := 1000.
Definition RT_TICK_MAX : Z := 4294967295.
Definition RT_ALIGN_SIZE : Z := 8.

Definition RT_THREAD_INIT : Z := 0.
Definition RT_THREAD_READY : Z := 1.
Definition RT_THREAD_SUSPEND : Z := 2.
Definition RT_THREAD_RUNNING : Z := 3.
Definition RT_THREAD_CLOSE : Z := 4.
Definition RT_THREAD_STAT_MASK : Z := 7.
Definition RT_THREAD_STAT_YIELD : Z := 8.

Definition RT_TIMER_FLAG_ACTIVATED : Z := 1.
Definition RT_TIMER_FLAG_ONE_SHOT : Z := 0.
Definition RT_TIMER_FLAG_PERIODIC : Z := 2.

Definition RT_IPC_FLAG_FIFO : Z := 0.
Definition RT_IPC_FLAG_PRIO : Z := 1.
Definition RT_IPC_CMD_RESET : Z := 1.
Definition RT_WAITING_FOREVER : Z := -1.

Definition RT_EVENT_FLAG_AND : Z := 1.
Definition RT_EVENT_FLAG_OR : Z := 2.
Definition RT_EVENT_FLAG_CLEAR : Z := 4.

(** ** Structures *)

Abbreviation tid := nat (only parsing).
Abbreviation oid := nat (only parsing).

(** The timers: the one embedded in each thread, and those the user makes. *)
Inductive timerid := ThreadTimer (t : tid) | UserTimer (n : nat).
#[export] Instance timerid_eq_dec : EqDecision timerid.
Proof. solve_decision. Defined.
#[export] Instance timerid_countable : Countable timerid.
Proof.
  apply (inj_countable' (fun i => match i with ThreadTimer t => inl t | UserTimer n => inr n end)
    (fun s => match s with inl t => ThreadTimer t | inr n => UserTimer n end)).
  by intros [].
Defined.

(** The heads of the lists a thread's [tlist] node can be in. *)
Inductive lhead :=
| LReady (p : Z)      (* rt_thread_priority_table[p] *)
| LDefunct            (* rt_thread_defunct *)
| LSuspend (o : oid)  (* ipc->suspend_thread *)
| LSender (o : oid).  (* mb/mq->suspend_sender_thread *)
#[export] Instance lhead_eq_dec : EqDecision lhead.
Proof. solve_decision. Defined.

(** [timeout_func] with its parameter: the kernel's own, or a user's. *)
Inductive timeout_func := TF_thread_timeout (t : tid) | TF_user (n : nat).

(** [struct rt_timer] *)
Record timer := Timer {
  tm_static : bool;           (* rt_object_is_systemobject *)
  tm_flag : Z;                (* u8 *)
  tm_init_tick : Z;           (* u32 *)
  tm_timeout_tick : Z;        (* u32 *)
  tm_func : timeout_func
}.

(** [struct rt_thread], the fields the kernel code reads and writes. *)
Record thread := Thread {
  th_static : bool;           (* rt_object_is_systemobject *)
  th_attached : bool;         (* type is RT_Object_Class_Thread *)
  th_cleanup : bool;          (* cleanup <> RT_NULL *)
  th_error : Z;               (* rt_err_t *)
  th_stat : Z;                (* u8 *)
  th_current_priority : Z;    (* u8 *)
  th_init_priority : Z;       (* u8 *)
  th_number_mask : Z;         (* u32 *)
  th_event_set : Z;           (* u32 *)
  th_event_info : Z;          (* u8 *)
  th_init_tick : Z;           (* u32 *)
  th_remaining_tick : Z       (* u32 *)
}.

(** [struct rt_ipc_object]: the parent of every IPC object (its
    [suspend_thread] list is [k_lists k (LSuspend o)]). *)
Record ipc_object := Ipc { ipc_static : bool; ipc_flag : Z }.

Record semaphore := Sem { sem_obj : ipc_object; sem_value : Z }.

Record mutex := Mutex {
  mtx_obj : ipc_object;
  mtx_value : Z;                (* u16 *)
  mtx_original_priority : Z;    (* u8 *)
  mtx_hold : Z;                 (* u8 *)
  mtx_owner : option tid
}.

Record event := Event { ev_obj : ipc_object; ev_set : Z }.

Record mailbox := Mailbox {
  mb_obj : ipc_object;
  mb_msg_pool : list Z;
  mb_size : Z;          (* u16 *)
  mb_entry : Z;         (* u16 *)
  mb_in_offset : Z;     (* u16 *)
  mb_out_offset : Z     (* u16 *)
}.

(** One slot of a message pool: [struct rt_mq_message] and the bytes after it. *)
Record mq_message := MqMessage { msg_next : option nat; msg_data : list Z }.

Record messagequeue := MessageQueue {
  mq_obj : ipc_object;
  mq_msg_pool : list mq_message;
  mq_msg_size : Z;      (* u16 *)
  mq_max_msgs : Z;      (* u16 *)
  mq_entry : Z;         (* u16 *)
  mq_queue_head : option nat;
  mq_queue_tail : option nat;
  mq_queue_free : option nat
}.

(** The word in front of a block of a memory pool: the next free block, or the
    pool that the block has been taken from. *)
Inductive mp_link := MpNext (next : option nat) | MpOwner (mp : oid).

(** A block is the index of the word in front of it. *)
Record mempool := Mempool {
  mp_static : bool;
  mp_size : Z;
  mp_block_size : Z;
  mp_links : list mp_link;       (* start_address *)
  mp_block_list : option nat;
  mp_block_total_count : Z;
  mp_block_free_count : Z
}.

(** The objects of components/drivers/include/ipc: [struct rt_data_item],
    [rt_data_queue], [rt_wqueue_node] and [rt_wqueue] (the waiters of a
    completion and of the consumers of a data queue are [LSuspend o], those of
    its producers [LSender o]; a wait queue has nodes of its own). *)
Record data_item := DataItem { data_ptr : Z; data_size : Z }.

Record data_queue := DataQueue {
  dq_size : Z;          (* u16 *)
  dq_lwm : Z;           (* u16 *)
  dq_get_index : Z;     (* u16 *)
  dq_put_index : Z;     (* u16 *)
  dq_queue : list data_item;
  dq_notify : bool      (* evt_notify <> RT_NULL *)
}.

(** A node is on the stack of the thread that waits ([WaitOf]), or the user's;
    [wakeup] is the default function or one of the user's. *)
Inductive wnode := WaitOf (t : tid) | UserNode (n : nat).
#[export] Instance wnode_eq_dec : EqDecision wnode.
Proof. solve_decision. Defined.
Record wqueue_node := WqueueNode { wn_node : wnode; wn_polling_thread : tid; wn_wakeup : option nat }.
Record wqueue := Wqueue { wq_flag : Z; wq_waiting : list wqueue_node }.

(** [struct rt_work], by its number, with its timer [UserTimer w], and
    [struct rt_workqueue], with the semaphore of its own number. *)
Record work := Work { wk_flags : Z; wk_type : Z; wk_workqueue : option oid }.
Record workqueue := Workqueue { wkq_list : list oid; wkq_current : option oid; wkq_thread : tid }.

Inductive dev_ipc := Completion (flag : Z) | DevDataQueue (q : data_queue) | DevWqueue (q : wqueue)
  | DevWork (w : work) | DevWorkqueue (q : workqueue).

(** ** The global state *)

Record kstate := KState {
  k_threads : gmap tid thread;
  k_lists : lhead -> list tid;
  k_ready_group : Z;               (* rt_thread_ready_priority_group *)
  k_current : option tid;          (* rt_current_thread *)
  k_current_priority : Z;          (* rt_current_priority *)
  k_lock_nest : Z;                 (* rt_scheduler_lock_nest, s16 *)
  k_irq_nest : Z;                  (* rt_interrupt_nest, u8 *)
  k_tick : Z;                      (* rt_tick *)
  k_timer : gmap timerid timer;
  k_timer_list : list timerid;     (* rt_timer_list[0] *)
  k_sems : gmap oid semaphore;
  k_mutexes : gmap oid mutex;
  k_events : gmap oid event;
  k_mbs : gmap oid mailbox;
  k_mqs : gmap oid messagequeue;
  k_mps : gmap oid mempool;
  k_dipc : gmap oid dev_ipc
}.

Definition with_threads f k := KState (f (k_threads k)) (k_lists k) (k_ready_group k) (k_current k)
  (k_current_priority k) (k_lock_nest k) (k_irq_nest k) (k_tick k) (k_timer k) (k_timer_list k)
  (k_sems k) (k_mutexes k) (k_events k) (k_mbs k) (k_mqs k) (k_mps k) (k_dipc k).
Definition with_lists f k := KState (k_threads k) (f (k_lists k)) (k_ready_group k) (k_current k)
  (k_current_priority k) (k_lock_nest k) (k_irq_nest k) (k_tick k) (k_timer k) (k_timer_list k)
  (k_sems k) (k_mutexes k) (k_events k) (k_mbs k) (k_mqs k) (k_mps k) (k_dipc k).
Definition with_ready_group f k := KState (k_threads k) (k_lists k) (f (k_ready_group k)) (k_current k)
  (k_current_priority k) (k_lock_nest k) (k_irq_nest k) (k_tick k) (k_timer k) (k_timer_list k)
  (k_sems k) (k_mutexes k) (k_events k) (k_mbs k) (k_mqs k) (k_mps k) (k_dipc k).
Definition with_current c p k := KState (k_threads k) (k_lists k) (k_ready_group k) c p (k_lock_nest k)
  (k_irq_nest k) (k_tick k) (k_timer k) (k_timer_list k)
  (k_sems k) (k_mutexes k) (k_events k) (k_mbs k) (k_mqs k) (k_mps k) (k_dipc k).
Definition with_lock_nest f k := KState (k_threads k) (k_lists k) (k_ready_group k) (k_current k)
  (k_current_priority k) (f (k_lock_nest k)) (k_irq_nest k) (k_tick k) (k_timer k) (k_timer_list k)
  (k_sems k) (k_mutexes k) (k_events k) (k_mbs k) (k_mqs k) (k_mps k) (k_dipc k).
Definition with_irq_nest f k := KState (k_threads k) (k_lists k) (k_ready_group k) (k_current k)
  (k_current_priority k) (k_lock_nest k) (f (k_irq_nest k)) (k_tick k) (k_timer k) (k_timer_list k)
  (k_sems k) (k_mutexes k) (k_events k) (k_mbs k) (k_mqs k) (k_mps k) (k_dipc k).
Definition with_tick f k := KState (k_threads k) (k_lists k) (k_ready_group k) (k_current k)
  (k_current_priority k) (k_lock_nest k) (k_irq_nest k) (f (k_tick k)) (k_timer k) (k_timer_list k)
  (k_sems k) (k_mutexes k) (k_events k) (k_mbs k) (k_mqs k) (k_mps k) (k_dipc k).
Definition with_timer f k := KState (k_threads k) (k_lists k) (k_ready_group k) (k_current k)
  (k_current_priority k) (k_lock_nest k) (k_irq_nest k) (k_tick k) (f (k_timer k)) (k_timer_list k)
  (k_sems k) (k_mutexes k) (k_events k) (k_mbs k) (k_mqs k) (k_mps k) (k_dipc k).
Definition with_timer_list f k := KState (k_threads k) (k_lists k) (k_ready_group k) (k_current k)
  (k_current_priority k) (k_lock_nest k) (k_irq_nest k) (k_tick k) (k_timer k) (f (k_timer_list k))
  (k_sems k) (k_mutexes k) (k_events k) (k_mbs k) (k_mqs k) (k_mps k) (k_dipc k).
Definition with_sems f k := KState (k_threads k) (k_lists k) (k_ready_group k) (k_current k)
  (k_current_priority k) (k_lock_nest k) (k_irq_nest k) (k_tick k) (k_timer k) (k_timer_list k)
  (f (k_sems k)) (k_mutexes k) (k_events k) (k_mbs k) (k_mqs k) (k_mps k) (k_dipc k).
Definition with_mutexes f k := KState (k_threads k) (k_lists k) (k_ready_group k) (k_current k)
  (k_current_priority k) (k_lock_nest k) (k_irq_nest k) (k_tick k) (k_timer k) (k_timer_list k)
  (k_sems k) (f (k_mutexes k)) (k_events k) (k_mbs k) (k_mqs k) (k_mps k) (k_dipc k).
Definition with_events f k := KState (k_threads k) (k_lists k) (k_ready_group k) (k_current k)
  (k_current_priority k) (k_lock_nest k) (k_irq_nest k) (k_tick k) (k_timer k) (k_timer_list k)
  (k_sems k) (k_mutexes k) (f (k_events k)) (k_mbs k) (k_mqs k) (k_mps k) (k_dipc k).
Definition with_mbs f k := KState (k_threads k) (k_lists k) (k_ready_group k) (k_current k)
  (k_current_priority k) (k_lock_nest k) (k_irq_nest k) (k_tick k) (k_timer k) (k_timer_list k)
  (k_sems k) (k_mutexes k) (k_events k) (f (k_mbs k)) (k_mqs k) (k_mps k) (k_dipc k).
Definition with_mqs f k := KState (k_threads k) (k_lists k) (k_ready_group k) (k_current k)
  (k_current_priority k) (k_lock_nest k) (k_irq_nest k) (k_tick k) (k_timer k) (k_timer_list k)
  (k_sems k) (k_mutexes k) (k_events k) (k_mbs k) (f (k_mqs k)) (k_mps k) (k_dipc k).

Definition with_mps f k := KState (k_threads k) (k_lists k) (k_ready_group k) (k_current k)
  (k_current_priority k) (k_lock_nest k) (k_irq_nest k) (k_tick k) (k_timer k) (k_timer_list k)
  (k_sems k) (k_mutexes k) (k_events k) (k_mbs k) (k_mqs k) (f (k_mps k)) (k_dipc k).
Definition with_dipc f k := KState (k_threads k) (k_lists k) (k_ready_group k) (k_current k)
  (k_current_priority k) (k_lock_nest k) (k_irq_nest k) (k_tick k) (k_timer k) (k_timer_list k)
  (k_sems k) (k_mutexes k) (k_events k) (k_mbs k) (k_mqs k) (k_mps k) (f (k_dipc k)).

(** What the scheduler does not touch. *)
Definition rest (k : kstate) :=
  (k_lock_nest k, k_irq_nest k, k_tick k, k_timer k, k_timer_list k,
   (k_sems k, k_mutexes k, k_events k, k_mbs k, k_mqs k, k_mps k, k_dipc k)).

Abbreviation KM := (M kstate).

(** ** Accessors *)

Definition get_thread (t : tid) : KM thread := deref (fun k => k_threads k !! t).
Definition set_thread (t : tid) (f : thread -> thread) : KM unit :=
  _ ← get_thread t; modify (with_threads (alter f t)).

Definition with_error e th := Thread (th_static th) (th_attached th) (th_cleanup th) e (th_stat th) (th_current_priority th)
  (th_init_priority th) (th_number_mask th) (th_event_set th) (th_event_info th)
  (th_init_tick th) (th_remaining_tick th).
Definition with_stat s th := Thread (th_static th) (th_attached th) (th_cleanup th) (th_error th) s (th_current_priority th)
  (th_init_priority th) (th_number_mask th) (th_event_set th) (th_event_info th)
  (th_init_tick th) (th_remaining_tick th).
Definition with_priority p m th := Thread (th_static th) (th_attached th) (th_cleanup th) (th_error th) (th_stat th) p
  (th_init_priority th) m (th_event_set th) (th_event_info th)
  (th_init_tick th) (th_remaining_tick th).
Definition with_event s i th := Thread (th_static th) (th_attached th) (th_cleanup th) (th_error th) (th_stat th) (th_current_priority th)
  (th_init_priority th) (th_number_mask th) s i (th_init_tick th) (th_remaining_tick th).
Definition with_attached b th := Thread (th_static th) b (th_cleanup th) (th_error th) (th_stat th)
  (th_current_priority th) (th_init_priority th) (th_number_mask th) (th_event_set th)
  (th_event_info th) (th_init_tick th) (th_remaining_tick th).
Definition with_remaining_tick n th := Thread (th_static th) (th_attached th) (th_cleanup th) (th_error th) (th_stat th)
  (th_current_priority th) (th_init_priority th) (th_number_mask th) (th_event_set th)
  (th_event_info th) (th_init_tick th) n.

(** [thread->stat & RT_THREAD_STAT_MASK] *)
Definition stat_base (th : thread) : Z := Z.land (th_stat th) RT_THREAD_STAT_MASK.
(** [s | (thread->stat & ~RT_THREAD_STAT_MASK)] *)
Definition put_stat (s : Z) (th : thread) : thread :=
  with_stat (Z.lor s (Z.land (th_stat th) (Z.lnot RT_THREAD_STAT_MASK))) th.
Definition yield_flag (th : thread) : bool :=
  bool_decide (Z.land (th_stat th) RT_THREAD_STAT_YIELD <> 0).
Definition clear_yield (th : thread) : thread :=
  with_stat (Z.land (th_stat th) (Z.lnot RT_THREAD_STAT_YIELD)) th.
Definition set_yield (th : thread) : thread :=
  with_stat (Z.lor (th_stat th) RT_THREAD_STAT_YIELD) th.

(** The list operations of rtservice.h on a thread's [tlist] node. *)
Definition list_remove (t : tid) : KM unit :=
  modify (with_lists (fun ls h => lremove t (ls h))).
Definition list_insert_before (h : lhead) (t : tid) : KM unit :=
  modify (with_lists (fun ls => <[h := ls h ++ [t]]> ls)).
Definition list_insert_after (h : lhead) (t : tid) : KM unit :=
  modify (with_lists (fun ls => <[h := t :: ls h]> ls)).
Definition list_isempty (h : lhead) : KM bool := gets (fun k => bool_decide (k_lists k h = [])).
(** [rt_list_entry(list->next, struct rt_thread, tlist)] *)
Definition list_first (h : lhead) : KM tid := deref (fun k => head (k_lists k h)).

(** [rt_thread_self]; using the result as a thread needs it to be one. *)
Definition rt_thread_self : KM (option tid) := gets k_current.
Definition self : KM tid := deref k_current.

(** A blocking function either returns, or has called [rt_schedule] with the
    calling thread suspended: the code after that call is the continuation [F],
    run by the [..._resume] function when the thread is switched back to. *)
Inductive outcome (F A : Type) := Returned (a : A) | Blocked (f : F).
Arguments Returned {F A} a.
Arguments Blocked {F A} f.

(** ** Facts about the status byte *)

Lemma stat_base_put s th : 0 <= s < 8 -> stat_base (put_stat s th) = s.
Proof.
  intros Hs. unfold stat_base, put_stat, with_stat, RT_THREAD_STAT_MASK. simpl th_stat.
  change 7 with (Z.ones 3). apply Z.bits_inj'; intros n Hn.
  rewrite Z.land_spec, Z.lor_spec, Z.land_spec, Z.lnot_spec by done.
  destruct (decide (n < 3)).
  - rewrite Z.ones_spec_low by lia. simpl.
    by rewrite andb_false_r, orb_false_r, andb_true_r.
  - rewrite Z.ones_spec_high by lia. rewrite andb_false_r.
    symmetry. apply (testbit_out 3); unfold in_range; lia.
Qed.

Lemma yield_flag_put s th : 0 <= s < 8 -> yield_flag (put_stat s th) = yield_flag th.
Proof.
  intros Hs. unfold yield_flag, put_stat, with_stat, RT_THREAD_STAT_YIELD. simpl th_stat.
  apply bool_decide_ext. change 8 with (2 ^ 3). rewrite !land_pow2_nonzero by lia.
  rewrite Z.lor_spec, Z.land_spec, Z.lnot_spec by lia.
  rewrite (testbit_out 3 s 3) by (unfold in_range; lia).
  unfold RT_THREAD_STAT_MASK. change (Z.testbit 7 3) with false.
  simpl. by rewrite andb_true_r.
Qed.

Lemma stat_base_clear_yield th : stat_base (clear_yield th) = stat_base th.
Proof.
  unfold stat_base, clear_yield, with_stat, RT_THREAD_STAT_MASK, RT_THREAD_STAT_YIELD. simpl th_stat.
  rewrite <- Z.land_assoc. by change (Z.land (Z.lnot 8) 7) with 7.
Qed.

Lemma yield_flag_clear th : yield_flag (clear_yield th) = false.
Proof.
  unfold yield_flag, clear_yield, with_stat, RT_THREAD_STAT_YIELD. simpl th_stat.
  rewrite <- Z.land_assoc. change (Z.land (Z.lnot 8) 8) with 0.
  rewrite Z.land_0_r. apply bool_decide_false. lia.
Qed.

Lemma stat_base_set_yield th : stat_base (set_yield th) = stat_base th.
Proof.
  unfold stat_base, set_yield, with_stat, RT_THREAD_STAT_MASK, RT_THREAD_STAT_YIELD. simpl th_stat.
  rewrite Z.land_lor_distr_l. change (Z.land 8 7) with 0. by rewrite Z.lor_0_r.
Qed.

Create Rewrite HintDb kstat.
#[export] Hint Rewrite stat_base_clear_yield stat_base_set_yield yield_flag_clear : kstat.
#[export] Hint Rewrite stat_base_put yield_flag_put using
  (unfold RT_THREAD_INIT, RT_THREAD_READY, RT_THREAD_SUSPEND, RT_THREAD_RUNNING, RT_THREAD_CLOSE; lia) : kstat.
