(* ===== verification/Sched.v ===== *)
(** * Sched: the bitmap scheduler

    scheduler.c (the uniprocessor build: [RT_USING_SMP] is not defined, 32
    priorities) and [__rt_ffs] of kservice.c.  [wf] is the scheduler's
    invariant; the theorems say that the ready bitmap is exact, that the
    functions preserve the invariant, and which thread [rt_schedule] picks. *)

From S2P Require Import Kernel.

(** ** [__rt_ffs] *)

(** [__lowest_bit_bitmap]: one row of 16 entries, and its first entries. *)
Definition lowest_bit_row (x : Z) : list Z := [x; 0; 1; 0; 2; 0; 1; 0; 3; 0; 1; 0; 2; 0; 1; 0].
Definition __lowest_bit_bitmap : list Z :=
  lowest_bit_row 0 ++ lowest_bit_row 4 ++ lowest_bit_row 5 ++ lowest_bit_row 4 ++
  lowest_bit_row 6 ++ lowest_bit_row 4 ++ lowest_bit_row 5 ++ lowest_bit_row 4 ++
  lowest_bit_row 7 ++ lowest_bit_row 4 ++ lowest_bit_row 5 ++ lowest_bit_row 4 ++
  lowest_bit_row 6 ++ lowest_bit_row 4 ++ lowest_bit_row 5 ++ lowest_bit_row 4.

Definition lowest_bit (i : Z) : Z := default 0 (__lowest_bit_bitmap !! Z.to_nat i).

Definition __rt_ffs (value : Z) : Z :=
  if decide (value = 0) then 0
  else if decide (Z.land value 0xff <> 0) then lowest_bit (Z.land value 0xff) + 1
  else if decide (Z.land value 0xff00 <> 0) then lowest_bit (Z.shiftr (Z.land value 0xff00) 8) + 9
  else if decide (Z.land value 0xff0000 <> 0) then lowest_bit (Z.shiftr (Z.land value 0xff0000) 16) + 17
  else lowest_bit (Z.shiftr (Z.land value 0xff000000) 24) + 25.

(** ** The ready queue *)

Definition rt_system_scheduler_init : KM unit :=
  modify (with_lock_nest (fun _ => 0));;
  modify (with_lists (fun ls h => match h with
                                  | LReady p => if decide (0 <= p < RT_THREAD_PRIORITY_MAX) then [] else ls h
                                  | _ => ls h
                                  end));;
  modify (with_ready_group (fun _ => 0));;
  modify (with_lists (fun ls => <[LDefunct := []]> ls)).

Definition _get_highest_priority_thread : KM (tid * Z) :=
  g ← gets k_ready_group;
  let highest_ready_priority := __rt_ffs g - 1 in
  t ← list_first (LReady highest_ready_priority);
  mret (t, highest_ready_priority).

Definition rt_schedule_insert_thread (t : tid) : KM unit :=
  th ← get_thread t;
  cur ← gets k_current;
  (* it's current thread, it should be RUNNING thread *)
  if decide (cur = Some t) then set_thread t (put_stat RT_THREAD_RUNNING)
  else
    set_thread t (put_stat RT_THREAD_READY);;
    list_insert_before (LReady (th_current_priority th)) t;;
    modify (with_ready_group (fun g => Z.lor g (th_number_mask th))).

Definition rt_schedule_remove_thread (t : tid) : KM unit :=
  th ← get_thread t;
  list_remove t;;
  e ← list_isempty (LReady (th_current_priority th));
  when e (modify (with_ready_group (fun g => Z.land g (Z.lnot (th_number_mask th))))).

(** Which thread [rt_schedule] switches to, and whether the current one goes
    back to the ready queue. *)
Definition schedule_choice (cur : tid) (to : tid) (highest : Z) : KM (tid * bool) :=
  cth ← get_thread cur;
  if decide (stat_base cth = RT_THREAD_RUNNING) then
    if decide (th_current_priority cth < highest) then mret (cur, false)
    else if decide (th_current_priority cth = highest /\ yield_flag cth = false) then mret (cur, false)
    else set_thread cur clear_yield;; mret (to, true)
  else mret (to, false).

Definition rt_schedule : KM unit :=
  lock ← gets k_lock_nest;
  g ← gets k_ready_group;
  if decide (lock = 0 /\ g <> 0) then
    '(highest_thread, highest) ← _get_highest_priority_thread;
    cur ← self;
    '(to, need_insert_from_thread) ← schedule_choice cur highest_thread highest;
    if decide (to <> cur) then
      modify (with_current (Some to) (u8 highest));;
      when need_insert_from_thread (rt_schedule_insert_thread cur);;
      rt_schedule_remove_thread to;;
      set_thread to (put_stat RT_THREAD_RUNNING)
    else
      rt_schedule_remove_thread cur;;
      set_thread cur (put_stat RT_THREAD_RUNNING)
  else mret tt.

Definition rt_system_scheduler_start : KM unit :=
  '(to, _) ← _get_highest_priority_thread;
  p ← gets k_current_priority;
  modify (with_current (Some to) p);;
  rt_schedule_remove_thread to;;
  set_thread to (with_stat RT_THREAD_RUNNING).

Definition rt_enter_critical : KM unit := modify (with_lock_nest (fun n => s16 (n + 1))).

Definition rt_exit_critical : KM unit :=
  modify (with_lock_nest (fun n => s16 (n - 1)));;
  n ← gets k_lock_nest;
  if decide (n <= 0) then
    modify (with_lock_nest (fun _ => 0));;
    cur ← gets k_current;
    when (bool_decide (is_Some cur)) rt_schedule
  else mret tt.

Definition rt_critical_level : KM Z := gets (fun k => u16 (k_lock_nest k)).

(** irq.c *)
Definition rt_interrupt_enter : KM unit := modify (with_irq_nest (fun n => u8 (n + 1))).
Definition rt_interrupt_leave : KM unit := modify (with_irq_nest (fun n => u8 (n - 1))).
Definition rt_interrupt_get_nest : KM Z := gets k_irq_nest.

(** [RT_DEBUG_NOT_IN_INTERRUPT] and [RT_DEBUG_IN_THREAD_CONTEXT] of rtdebug.h
    ([RT_DEBUG] is defined, so the context checks are on). *)
Definition RT_DEBUG_NOT_IN_INTERRUPT : KM unit :=
  n ← rt_interrupt_get_nest; rt_assert (bool_decide (n = 0)).
Definition RT_DEBUG_IN_THREAD_CONTEXT : KM unit :=
  cur ← gets k_current;
  rt_assert (bool_decide (is_Some cur));;
  RT_DEBUG_NOT_IN_INTERRUPT.

(** ** [__rt_ffs] finds the lowest set bit *)

Definition lowest_set_bit (v r : Z) : Prop :=
  0 <= r /\ Z.testbit v r = true /\ forall i, 0 <= i < r -> Z.testbit v i = false.

Definition lowest_bit_ok (b : Z) : bool :=
  let r := lowest_bit b in
  (0 <=? r) && (r <? 8) && Z.testbit b r &&
  forallb (fun i => negb (Z.testbit b (Z.of_nat i))) (seq 0 (Z.to_nat r)).

Lemma lowest_bit_table : forallb (fun n => lowest_bit_ok (Z.of_nat n)) (seq 1 255) = true.
Proof. vm_compute. reflexivity. Qed.

Lemma lowest_bit_spec b : 0 < b < 256 -> lowest_set_bit b (lowest_bit b) /\ lowest_bit b < 8.
Proof.
  intros Hb. pose proof lowest_bit_table as H. rewrite forallb_forall in H.
  specialize (H (Z.to_nat b)). rewrite Z2Nat.id in H by lia.
  specialize (H ltac:(apply in_seq; lia)). unfold lowest_bit_ok in H.
  rewrite !andb_true_iff, forallb_forall in H. destruct H as [[[H1 H2] H3] H4].
  unfold lowest_set_bit. split_and!; [lia|done| |lia].
  intros i Hi. specialize (H4 (Z.to_nat i)). rewrite Z2Nat.id in H4 by lia.
  apply negb_true_iff, H4, in_seq. lia.
Qed.

(** The byte of [v] at bit [8 * n]. *)
Lemma byte_at_bits v n i : 0 <= n -> 0 <= i ->
  Z.testbit (Z.shiftr (Z.land v (Z.shiftl 255 n)) n) i = (Z.testbit v (i + n) && bool_decide (i < 8)).
Proof.
  intros Hn Hi. rewrite Z.shiftr_spec, Z.land_spec, Z.shiftl_spec by lia.
  replace (i + n - n) with i by lia. change 255 with (Z.ones 8). f_equal.
  case_bool_decide; [by rewrite Z.ones_spec_low by lia|by rewrite Z.ones_spec_high by lia].
Qed.

Lemma byte_at_range v n : 0 <= n -> 0 <= Z.shiftr (Z.land v (Z.shiftl 255 n)) n < 256.
Proof.
  intros Hn.
  assert (Z.shiftr (Z.land v (Z.shiftl 255 n)) n = Z.land (Z.shiftr v n) (Z.ones 8)) as ->.
  { apply Z.bits_inj'; intros i Hi. rewrite byte_at_bits, Z.land_spec, Z.shiftr_spec by done.
    f_equal. case_bool_decide; [by rewrite Z.ones_spec_low by lia|by rewrite Z.ones_spec_high by lia]. }
  rewrite Z.land_ones by lia. by apply Z.mod_pos_bound.
Qed.

Lemma byte_at_zero v n : 0 <= n -> Z.land v (Z.shiftl 255 n) = 0 ->
  forall i, n <= i < n + 8 -> Z.testbit v i = false.
Proof.
  intros Hn H i Hi. pose proof (byte_at_bits v n (i - n) Hn ltac:(lia)) as E.
  rewrite H, Z.shiftr_0_l, Z.testbit_0_l, bool_decide_true, andb_true_r in E by lia.
  rewrite E. f_equal. lia.
Qed.

(** The lowest bit of the first non-zero byte is the lowest bit of the word. *)
Lemma lowest_byte v n : 0 <= n -> Z.land v (Z.shiftl 255 n) <> 0 ->
  (forall i, 0 <= i < n -> Z.testbit v i = false) ->
  let r := lowest_bit (Z.shiftr (Z.land v (Z.shiftl 255 n)) n) + n in
  lowest_set_bit v r /\ r < n + 8.
Proof.
  intros Hn Hnz Hlow r. subst r. set (b := Z.shiftr _ _).
  assert (0 < b < 256) as Hb.
  { pose proof (byte_at_range v n Hn). fold b in H. split; [|lia].
    assert (b <> 0); [|lia]. intros E. apply Hnz. apply Z.bits_inj'; intros i Hi.
    rewrite Z.testbit_0_l. destruct (decide (i < n)).
    - by rewrite Z.land_spec, Hlow by lia.
    - apply (f_equal (fun x => Z.testbit x (i - n))) in E. subst b.
      rewrite Z.shiftr_spec, Z.testbit_0_l in E by lia. by replace (i - n + n) with i in E by lia. }
  destruct (lowest_bit_spec b Hb) as [(H1 & H2 & H3) H4]. split; [|lia]. split; [lia|]. split.
  - unfold b in H1, H2. rewrite byte_at_bits in H2 by lia. by apply andb_true_iff in H2 as [? _].
  - intros i Hi. destruct (decide (i < n)); [by apply Hlow; lia|].
    specialize (H3 (i - n) ltac:(lia)). unfold b in H3. rewrite byte_at_bits in H3 by lia.
    replace (i - n + n) with i in H3 by lia.
    rewrite bool_decide_true, andb_true_r in H3 by lia. done.
Qed.

Lemma lowest_byte_conv v n c :
  lowest_set_bit v (lowest_bit c + n) /\ lowest_bit c + n < n + 8 -> n <= 24 ->
  lowest_set_bit v (lowest_bit c + (n + 1) - 1) /\ lowest_bit c + (n + 1) <= 32.
Proof. intros [H1 H2] H3. split; [|lia]. by replace (lowest_bit c + (n + 1) - 1) with (lowest_bit c + n) by lia. Qed.

Lemma rt_ffs_spec v : 0 < v < 2 ^ 32 -> lowest_set_bit v (__rt_ffs v - 1) /\ __rt_ffs v <= 32.
Proof.
  intros Hv. unfold __rt_ffs. rewrite decide_False by lia.
  change 0xff with (Z.shiftl 255 0). change 0xff00 with (Z.shiftl 255 8).
  change 0xff0000 with (Z.shiftl 255 16). change 0xff000000 with (Z.shiftl 255 24).
  pose proof (byte_at_zero v 0 ltac:(lia)) as Z0. pose proof (byte_at_zero v 8 ltac:(lia)) as Z1.
  pose proof (byte_at_zero v 16 ltac:(lia)) as Z2. pose proof (byte_at_zero v 24 ltac:(lia)) as Z3.
  destruct (decide (Z.land v (Z.shiftl 255 0) <> 0)) as [H0|H0%dec_stable].
  { rewrite <- (Z.shiftr_0_r (Z.land v _)). apply (lowest_byte_conv v 0); [|lia].
    apply lowest_byte; [lia|done|lia]. }
  destruct (decide (Z.land v (Z.shiftl 255 8) <> 0)) as [H1|H1%dec_stable].
  { apply (lowest_byte_conv v 8); [|lia]. apply lowest_byte; [lia|done|intros; by apply Z0]. }
  assert (forall i, 0 <= i < 16 -> Z.testbit v i = false) as L16.
  { intros i Hi. destruct (decide (i < 8)); [by apply Z0; [|lia]|by apply Z1; [|lia]]. }
  destruct (decide (Z.land v (Z.shiftl 255 16) <> 0)) as [H2|H2%dec_stable].
  { apply (lowest_byte_conv v 16); [|lia]. by apply lowest_byte; [lia| |]. }
  assert (forall i, 0 <= i < 24 -> Z.testbit v i = false) as L24.
  { intros i Hi. destruct (decide (i < 16)); [by apply L16; lia|by apply Z2; [|lia]]. }
  apply (lowest_byte_conv v 24); [|lia]. apply lowest_byte; [lia| |done].
  intros H3. assert (v = 0); [|lia]. apply Z.bits_inj'; intros i Hi. rewrite Z.testbit_0_l.
  destruct (decide (i < 24)); [by apply L24|].
  destruct (decide (i < 32)); [by apply Z3; [|lia]|].
  apply (testbit_out 32); unfold in_range; lia.
Qed.

(** ** The scheduler's invariant *)

(** What a thread's status is while its node is in a given list. *)
Definition head_stat (h : lhead) : Z :=
  match h with
  | LReady _ => RT_THREAD_READY
  | LDefunct => RT_THREAD_CLOSE
  | LSuspend _ | LSender _ => RT_THREAD_SUSPEND
  end.

(** Started and not yet ended: the mask of the thread is that of its priority. *)
Definition started (th : thread) : Prop := stat_base th <> RT_THREAD_INIT /\ stat_base th <> RT_THREAD_CLOSE.

(** The lists, the bitmap and the threads agree.  The threads of [X] are being
    moved: they are in no list, whatever their status says. *)
Record wf_lists (X : gset nat) (k : kstate) : Prop := WfLists {
  wf_nodup h : NoDup (k_lists k h);
  wf_disj h h' t : t ∈ k_lists k h -> t ∈ k_lists k h' -> h = h';
  wf_stat h t : t ∈ k_lists k h ->
    (t ∉ X) /\ exists th, k_threads k !! t = Some th /\ stat_base th = head_stat h;
  wf_ready_prio p t th : t ∈ k_lists k (LReady p) -> k_threads k !! t = Some th ->
    th_current_priority th = p;
  wf_ready_in t th : k_threads k !! t = Some th -> t ∉ X -> stat_base th = RT_THREAD_READY ->
    t ∈ k_lists k (LReady (th_current_priority th));
  wf_prio t th : k_threads k !! t = Some th ->
    0 <= th_current_priority th < RT_THREAD_PRIORITY_MAX /\
    (started th -> th_number_mask th = 2 ^ th_current_priority th);
  wf_group_range : in_range 32 (k_ready_group k);
  wf_group p : 0 <= p < RT_THREAD_PRIORITY_MAX ->
    (Z.testbit (k_ready_group k) p = true <-> k_lists k (LReady p) <> [])
}.

(** The running thread is the current one, and the current one is not queued. *)
Record wf_current (k : kstate) : Prop := WfCurrent {
  wf_cur t : k_current k = Some t ->
    exists th, k_threads k !! t = Some th /\ stat_base th <> RT_THREAD_READY;
  wf_running t th : k_threads k !! t = Some th -> stat_base th = RT_THREAD_RUNNING ->
    k_current k = Some t
}.

Definition wf (k : kstate) : Prop := wf_lists ∅ k /\ wf_current k.

(** ** Running a monadic definition on a known state *)

Ltac munfold := unfold set_thread, get_thread, list_remove, list_insert_before, list_insert_after,
  list_isempty, list_first, self, when, gets, modify, deref, mbind, M_bind, mret, M_ret in *.

Definition upd_thread (t : tid) (f : thread -> thread) (k : kstate) : kstate :=
  with_threads (alter f t) k.

Lemma set_thread_eval t f k th :
  k_threads k !! t = Some th -> set_thread t f k = Some (tt, upd_thread t f k).
Proof. intros E. munfold. by rewrite E. Qed.

Definition insert_ready (t : tid) (th : thread) (k : kstate) : kstate :=
  with_ready_group (fun g => Z.lor g (th_number_mask th))
    (with_lists (fun ls => <[LReady (th_current_priority th) := ls (LReady (th_current_priority th)) ++ [t]]> ls)
      (upd_thread t (put_stat RT_THREAD_READY) k)).

Lemma insert_thread_eval t th k :
  k_threads k !! t = Some th -> k_current k <> Some t ->
  rt_schedule_insert_thread t k = Some (tt, insert_ready t th k).
Proof.
  intros E Hc. unfold rt_schedule_insert_thread. munfold. rewrite E. simpl.
  rewrite decide_False by done. simpl. by rewrite E.
Qed.

Lemma insert_current_eval t th k :
  k_threads k !! t = Some th -> k_current k = Some t ->
  rt_schedule_insert_thread t k = Some (tt, upd_thread t (put_stat RT_THREAD_RUNNING) k).
Proof.
  intros E Hc. unfold rt_schedule_insert_thread. munfold. rewrite E. simpl.
  rewrite decide_True by done. simpl. by rewrite E.
Qed.

Definition unlink (t : tid) (k : kstate) : kstate := with_lists (fun ls h => lremove t (ls h)) k.

Definition remove_ready (t : tid) (th : thread) (k : kstate) : kstate :=
  if decide (lremove t (k_lists k (LReady (th_current_priority th))) = [])
  then with_ready_group (fun g => Z.land g (Z.lnot (th_number_mask th))) (unlink t k)
  else unlink t k.

Lemma remove_thread_eval t th k :
  k_threads k !! t = Some th ->
  rt_schedule_remove_thread t k = Some (tt, remove_ready t th k).
Proof.
  intros E. unfold rt_schedule_remove_thread, remove_ready. munfold. rewrite E. simpl.
  by case_bool_decide; case_decide.
Qed.

(** ** The invariant is kept *)

Lemma upd_thread_lookup t f k t' :
  k_threads (upd_thread t f k) !! t' = (if decide (t = t') then f <$> k_threads k !! t else k_threads k !! t').
Proof. unfold upd_thread. simpl. by rewrite lookup_alter. Qed.

Lemma in_lists_thread X k h t : wf_lists X k -> t ∈ k_lists k h -> exists th, k_threads k !! t = Some th.
Proof. intros H Hin. destruct (wf_stat _ _ H h t Hin) as (_ & th & E & _). eauto. Qed.

Lemma loose_notin X k h t : wf_lists X k -> t ∈ X -> t ∉ k_lists k h.
Proof. intros H Ht Hin. by destruct (wf_stat _ _ H h t Hin). Qed.

(** Changing a loose thread without touching its priority. *)
Lemma wf_upd_loose X t f k :
  wf_lists X k -> t ∈ X ->
  (forall th, k_threads k !! t = Some th ->
     0 <= th_current_priority (f th) < RT_THREAD_PRIORITY_MAX /\
     (started (f th) -> th_number_mask (f th) = 2 ^ th_current_priority (f th))) ->
  wf_lists X (upd_thread t f k).
Proof.
  intros H Ht Hf. pose proof H as H0. destruct H as [H1 H2 H3 H4 H5 H6 H7 H8].
  assert (forall h t', t' ∈ k_lists k h -> t' <> t) as Hne.
  { intros h t' Hin ->. by eapply loose_notin in Hin. }
  split; try done; simpl.
  - intros h t' Hin. destruct (H3 h t' Hin) as (? & th & E & ?). split; [done|].
    exists th. rewrite lookup_alter_ne; [done|]. intros ->. by apply (Hne h t').
  - intros p t' th Hin. rewrite lookup_alter_ne; [by apply H4|]. intros ->. by apply (Hne _ _ Hin).
  - intros t' th E Hn Hs. rewrite lookup_alter_ne in E by (intros ->; done). by apply H5.
  - intros t' th. rewrite lookup_alter. case_decide; [|apply H6].
    subst. intros (th' & E & ->)%fmap_Some. by apply Hf.
Qed.

(** A thread that is in no list and whose status is not READY can be declared
    loose, and a loose one with such a status declared settled. *)
Lemma wf_loosen X t k :
  wf_lists X k -> (forall h, t ∉ k_lists k h) -> wf_lists ({[t]} ∪ X) k.
Proof.
  intros [H1 H2 H3 H4 H5 H6 H7 H8] Hn. split; try done.
  - intros h t' Hin. destruct (H3 h t' Hin) as (? & ?). split; [|done]. 
    specialize (Hn h). set_solver.
  - intros t' th E Hx Hs. apply H5; [done|set_solver|done].
Qed.

Lemma wf_settle X t k :
  wf_lists ({[t]} ∪ X) k ->
  (forall th, k_threads k !! t = Some th -> t ∉ X -> stat_base th <> RT_THREAD_READY) ->
  wf_lists X k.
Proof.
  intros [H1 H2 H3 H4 H5 H6 H7 H8] Hs. split; try done.
  - intros h t' Hin. destruct (H3 h t' Hin) as (? & ?). split; [|done]. set_solver.
  - intros t' th E Hx Hr. apply H5; [done| |done].
    destruct (decide (t' = t)) as [->|]; [|set_solver]. by destruct (Hs th E).
Qed.

Lemma group_set g p i : 0 <= p ->
  Z.testbit (Z.lor g (2 ^ p)) i = (Z.testbit g i || bool_decide (p = i)).
Proof. intros. by rewrite Z.lor_spec, testbit_pow2. Qed.

Lemma group_clear g p i : 0 <= p -> 0 <= i ->
  Z.testbit (Z.land g (Z.lnot (2 ^ p))) i = (Z.testbit g i && negb (bool_decide (p = i))).
Proof. intros. by rewrite Z.land_spec, Z.lnot_spec, testbit_pow2. Qed.

(** [rt_list_remove] and the bitmap update make a thread loose. *)
Lemma wf_remove X t th k :
  wf_lists X k -> k_threads k !! t = Some th ->
  th_number_mask th = 2 ^ th_current_priority th ->
  wf_lists ({[t]} ∪ X) (remove_ready t th k).
Proof.
  intros H Et Hm. pose proof (wf_prio _ _ H _ _ Et) as [Hp _]. unfold RT_THREAD_PRIORITY_MAX in Hp.
  destruct H as [H1 H2 H3 H4 H5 H6 H7 H8].
  assert (forall h, k_lists (remove_ready t th k) h = lremove t (k_lists k h)) as El.
  { intros h. unfold remove_ready. by case_decide. }
  assert (k_threads (remove_ready t th k) = k_threads k) as Eth.
  { unfold remove_ready. by case_decide. }
  split; setoid_rewrite El || idtac; rewrite ?Eth; try done.
  - intros h. by apply NoDup_lremove.
  - intros h h' t'. rewrite !elem_of_lremove. intros [] []. by eapply H2.
  - intros h t'. rewrite !elem_of_lremove. intros [Hne Hin]. destruct (H3 h t' Hin). set_solver.
  - intros p t' th'. rewrite elem_of_lremove. intros [] ?. by eapply H4.
  - intros t' th' E Hn Hs. apply elem_of_lremove. split; [set_solver|]. apply H5; [done|set_solver|done].
  - unfold remove_ready. case_decide; [|done]. simpl. by apply land_range.
  - intros p Hp'. pose proof (H8 p Hp') as H8p. unfold remove_ready. case_decide as Hd; simpl.
    + rewrite Hm, group_clear by (unfold RT_THREAD_PRIORITY_MAX in Hp'; lia). case_bool_decide as Hb.
      * subst p. rewrite andb_false_r. by rewrite Hd.
      * rewrite andb_true_r, H8p. split; intros HH; [|intros E; apply HH; by rewrite E].
        intros E. apply HH. destruct (k_lists k (LReady p)) as [|x l] eqn:El'; [done|].
        exfalso. assert (x = t) as ->.
        { destruct (decide (x = t)); [done|]. assert (x ∈ lremove t (x :: l)); [|by rewrite E in *; set_solver].
          apply elem_of_lremove. split; [done|left]. }
        apply Hb. apply (H4 p t th); [rewrite El'; left|done].
    + rewrite H8p. split; intros HH; [|intros E; apply HH; by rewrite E].
      intros E. destruct (decide (p = th_current_priority th)) as [->|]; [done|].
      apply HH. destruct (k_lists k (LReady p)) as [|x l] eqn:El'; [done|].
      exfalso. assert (x = t) as ->.
      { destruct (decide (x = t)); [done|]. assert (x ∈ lremove t (x :: l)); [|by rewrite E in *; set_solver].
        apply elem_of_lremove. split; [done|left]. }
      apply n. symmetry. apply (H4 p t th); [rewrite El'; left|done].
Qed.

Lemma insert_ready_lists t th k h :
  k_lists (insert_ready t th k) h =
  if decide (h = LReady (th_current_priority th)) then k_lists k h ++ [t] else k_lists k h.
Proof.
  unfold insert_ready. simpl. case_decide as E.
  - subst. by rewrite fn_lookup_insert.
  - by rewrite fn_lookup_insert_ne.
Qed.

Lemma insert_ready_in t th k h t' :
  t' ∈ k_lists (insert_ready t th k) h <->
  t' ∈ k_lists k h \/ (t' = t /\ h = LReady (th_current_priority th)).
Proof. rewrite insert_ready_lists. case_decide; set_solver. Qed.

(** Queuing a loose thread settles it. *)
Lemma wf_insert X t th k :
  wf_lists ({[t]} ∪ X) k -> (t ∉ X) -> k_threads k !! t = Some th ->
  th_number_mask th = 2 ^ th_current_priority th ->
  wf_lists X (insert_ready t th k).
Proof.
  intros H Ht Et Hm. pose proof (wf_prio _ _ H _ _ Et) as [Hp _]. unfold RT_THREAD_PRIORITY_MAX in Hp.
  assert (forall h, t ∉ k_lists k h) as Hno by (intros h; apply (loose_notin _ _ _ _ H); set_solver).
  apply (wf_upd_loose _ t (put_stat RT_THREAD_READY)) in H;
    [|set_solver|intros th' E; split; [apply (wf_prio _ _ H _ _ E)|by simplify_eq]].
  assert (k_threads (insert_ready t th k) = k_threads (upd_thread t (put_stat RT_THREAD_READY) k)) as Eth by done.
  assert (k_threads (upd_thread t (put_stat RT_THREAD_READY) k) !! t = Some (put_stat RT_THREAD_READY th)) as Et'
    by (rewrite upd_thread_lookup, decide_True by done; by rewrite Et).
  destruct H as [H1 H2 H3 H4 H5 H6 H7 H8].
  split; rewrite ?Eth; try done; try setoid_rewrite insert_ready_in.
  - intros h. rewrite insert_ready_lists. case_decide; [|apply H1]. apply NoDup_app. split_and!.
    + apply H1.
    + intros x Hx ->%list_elem_of_singleton. by apply (Hno h).
    + apply NoDup_singleton.
  - intros h h' t' [?|[-> ->]] [?|[? ->]]; subst; try done; [by eapply H2| |]; by edestruct Hno.
  - intros h t' [Hin|[-> ->]].
    + destruct (H3 h t' Hin) as [? ?]. set_solver.
    + split; [done|]. exists (put_stat RT_THREAD_READY th). split; [done|]. simpl. by autorewrite with kstat.
  - intros p t' th' [Hin|[-> [= ->]]] E; [by eapply H4|]. rewrite Et' in E. by simplify_eq.
  - intros t' th' E Hx Hs. destruct (decide (t' = t)) as [->|].
    + rewrite Et' in E. simplify_eq. by right.
    + left. apply H5; [done|set_solver|done].
  - simpl. rewrite Hm. apply lor_range; [lia|done|]. split; [lia|].
    apply Z.pow_lt_mono_r; lia.
  - intros p Hp'. simpl. rewrite Hm, group_set by lia. rewrite orb_true_iff, bool_decide_eq_true.
    specialize (H8 p Hp'). simpl in H8. rewrite H8.
    pose proof (insert_ready_lists t th k (LReady p)) as El. simpl in El. rewrite El.
    case_decide as E; [injection E as ->|].
    + split; [intros _ []%app_nil; done|by right].
    + split; [intros [?|?]; [done|congruence]|by left].
Qed.

Lemma wf_lists_ext X k k' :
  k_threads k' = k_threads k -> k_lists k' = k_lists k -> k_ready_group k' = k_ready_group k ->
  wf_lists X k -> wf_lists X k'.
Proof. intros E1 E2 E3 [H1 H2 H3 H4 H5 H6 H7 H8]. split; rewrite ?E1, ?E2, ?E3; done. Qed.

(** A thread whose status is not that of a queued one is in no list. *)
Lemma running_notin X k t th h :
  wf_lists X k -> k_threads k !! t = Some th -> stat_base th = RT_THREAD_RUNNING -> t ∉ k_lists k h.
Proof.
  intros H E Hs Hin. destruct (wf_stat _ _ H h t Hin) as (_ & th' & E' & Hs').
  simplify_eq. rewrite Hs in Hs'. by destruct h.
Qed.

(** ** [rt_schedule] *)

(** What [_get_highest_priority_thread] returns under the invariant. *)
Lemma get_highest_spec X k :
  wf_lists X k -> k_ready_group k <> 0 ->
  exists t ts hp th, _get_highest_priority_thread k = Some ((t, hp), k) /\
    0 <= hp < RT_THREAD_PRIORITY_MAX /\ k_lists k (LReady hp) = t :: ts /\
    k_threads k !! t = Some th /\ stat_base th = RT_THREAD_READY /\ th_current_priority th = hp /\
    (forall p t', t' ∈ k_lists k (LReady p) -> hp <= p).
Proof.
  intros H Hg. pose proof (wf_group_range _ _ H) as Hr. unfold in_range in Hr.
  destruct (rt_ffs_spec (k_ready_group k) ltac:(lia)) as [(H1 & H2 & H3) H4].
  set (hp := __rt_ffs (k_ready_group k) - 1) in *.
  assert (0 <= hp < RT_THREAD_PRIORITY_MAX) as Hhp by (unfold RT_THREAD_PRIORITY_MAX; lia).
  pose proof (proj1 (wf_group _ _ H hp Hhp) H2) as Hne.
  destruct (k_lists k (LReady hp)) as [|t ts] eqn:El; [done|].
  assert (t ∈ k_lists k (LReady hp)) as Hin by (rewrite El; left).
  destruct (wf_stat _ _ H _ _ Hin) as (_ & th & Et & Hs).
  exists t, ts, hp, th. split; [|split; [done|split; [done|split; [done|split; [done|split]]]]].
  - unfold _get_highest_priority_thread. munfold. fold hp. by rewrite El.
  - by apply (wf_ready_prio _ _ H _ _ _ Hin).
  - intros p t' Hin'. destruct (in_lists_thread _ _ _ _ H Hin') as [th' Et'].
    pose proof (wf_ready_prio _ _ H _ _ _ Hin' Et') as Hp'.
    pose proof (wf_prio _ _ H _ _ Et') as [Hpr _].
    destruct (decide (p < hp)); [|lia]. exfalso.
    assert (Z.testbit (k_ready_group k) p = true) as Hb.
    { apply (wf_group _ _ H); [lia|]. intros E. rewrite E in Hin'. set_solver. }
    rewrite H3 in Hb by lia. done.
Qed.

(** Re-marking the current thread as running: the switch to itself. *)
Lemma switch_self_wf k cur cth :
  wf k -> k_current k = Some cur -> k_threads k !! cur = Some cth ->
  stat_base cth = RT_THREAD_RUNNING ->
  wf (upd_thread cur (put_stat RT_THREAD_RUNNING) (remove_ready cur cth k)) /\
  forall h, k_lists (remove_ready cur cth k) h = k_lists k h.
Proof.
  intros [Hl Hc] Ec Et Hs.
  assert (k_threads (remove_ready cur cth k) = k_threads k) as Eth by (unfold remove_ready; by case_decide).
  assert (forall h, k_lists (remove_ready cur cth k) h = k_lists k h) as El.
  { intros h. transitivity (lremove cur (k_lists k h)); [unfold remove_ready; by case_decide|].
    apply lremove_notin. by eapply running_notin. }
  split; [|done]. destruct (wf_prio _ _ Hl _ _ Et) as [Hp Hm]. specialize (Hm ltac:(unfold started; by rewrite Hs)).
  split.
  - eapply wf_settle with (t := cur).
    + apply wf_upd_loose; [by apply wf_remove|set_solver|]. rewrite Eth. intros th E. simplify_eq.
      split; [apply Hp|done].
    + intros th. rewrite upd_thread_lookup, decide_True, Eth, Et by done. intros [= <-] _.
      by autorewrite with kstat.
  - assert (k_current (remove_ready cur cth k) = k_current k) as Eck by (unfold remove_ready; by case_decide).
    split; simpl; rewrite Eck, ?Eth.
    + intros t Et'. simplify_eq. exists (put_stat RT_THREAD_RUNNING cth).
      rewrite lookup_alter_eq, Et. split; [done|]. by autorewrite with kstat.
    + intros t th. destruct (decide (t = cur)) as [->|]; [done|].
      rewrite lookup_alter_ne by done. apply (wf_running _ Hc).
Qed.

(** Taking the queued thread [to] off the ready queue and running it. *)
Lemma finish_switch_stat s k to tth :
  wf_lists ∅ k -> k_current k = Some to -> k_threads k !! to = Some tth ->
  stat_base tth = RT_THREAD_READY -> stat_base (with_stat s tth) = RT_THREAD_RUNNING ->
  (forall t th, k_threads k !! t = Some th -> stat_base th <> RT_THREAD_RUNNING) ->
  wf (upd_thread to (fun _ => with_stat s tth) (remove_ready to tth k)).
Proof.
  intros Hl Ec Et Hs Hrun Hn.
  assert (k_threads (remove_ready to tth k) = k_threads k) as Eth by (unfold remove_ready; by case_decide).
  assert (k_current (remove_ready to tth k) = k_current k) as Eck by (unfold remove_ready; by case_decide).
  destruct (wf_prio _ _ Hl _ _ Et) as [Hp Hm]. specialize (Hm ltac:(unfold started; by rewrite Hs)).
  split.
  - eapply wf_settle with (t := to).
    + apply wf_upd_loose; [by apply wf_remove|set_solver|]. intros _ _. done.
    + intros th. rewrite upd_thread_lookup, decide_True, Eth, Et by done. intros [= <-] _. by rewrite Hrun.
  - split; simpl; rewrite Eck, ?Eth.
    + intros t Et'. simplify_eq. exists (with_stat s tth). rewrite lookup_alter_eq, Et. split; [done|]. by rewrite Hrun.
    + intros t th. destruct (decide (t = to)) as [->|]; [done|].
      rewrite lookup_alter_ne by done. intros E Hr. by destruct (Hn t th).
Qed.

Lemma upd_thread_const t f th k : k_threads k !! t = Some th -> upd_thread t (fun _ => f th) k = upd_thread t f k.
Proof.
  intros E. unfold upd_thread, with_threads. f_equal. apply map_eq. intros s. rewrite !lookup_alter. case_decide; [|done]. by rewrite E.
Qed.

Lemma finish_switch_wf k to tth :
  wf_lists ∅ k -> k_current k = Some to -> k_threads k !! to = Some tth ->
  stat_base tth = RT_THREAD_READY ->
  (forall t th, k_threads k !! t = Some th -> stat_base th <> RT_THREAD_RUNNING) ->
  wf (upd_thread to (put_stat RT_THREAD_RUNNING) (remove_ready to tth k)).
Proof.
  intros Hl Ec Et Hs Hn.
  pose proof (finish_switch_stat (th_stat (put_stat RT_THREAD_RUNNING tth)) k to tth Hl Ec Et Hs) as H.
  rewrite <- (upd_thread_const _ _ tth); [|unfold remove_ready; by case_decide].
  apply H; [|done]. change (stat_base (put_stat RT_THREAD_RUNNING tth) = RT_THREAD_RUNNING). by autorewrite with kstat.
Qed.

Lemma schedule_choice_eval k cur cth to hp :
  k_threads k !! cur = Some cth ->
  schedule_choice cur to hp k =
  Some (if decide (stat_base cth = RT_THREAD_RUNNING) then
          if decide (th_current_priority cth < hp \/ (th_current_priority cth = hp /\ yield_flag cth = false))
          then ((cur, false), k)
          else ((to, true), upd_thread cur clear_yield k)
        else ((to, false), k)).
Proof.
  intros Et. unfold schedule_choice. munfold. rewrite Et. 
  destruct (decide (stat_base cth = RT_THREAD_RUNNING)); [|done].
  destruct (decide (th_current_priority cth < hp)) as [H1|H1].
  { by rewrite (decide_True (P := _ \/ _)) by (by left). }
  destruct (decide (th_current_priority cth = hp /\ yield_flag cth = false)) as [H2|H2].
  { by rewrite (decide_True (P := _ \/ _)) by (by right). }
  rewrite (decide_False (P := _ \/ _)) by tauto. by rewrite Et.
Qed.

(** The state in which the preempted thread [cur] is back in the queue and
    [to] is the current thread. *)
Definition requeue (cur to : nat) (hp : Z) (cth : thread) (k : kstate) : kstate :=
  insert_ready cur (clear_yield cth) (with_current (Some to) (u8 hp) (upd_thread cur clear_yield k)).

Lemma requeue_wf k cur cth to hp :
  wf k -> k_current k = Some cur -> k_threads k !! cur = Some cth ->
  stat_base cth = RT_THREAD_RUNNING ->
  wf_lists ∅ (requeue cur to hp cth k) /\
  k_threads (requeue cur to hp cth k) !! cur = Some (put_stat RT_THREAD_READY (clear_yield cth)) /\
  (forall t, t <> cur -> k_threads (requeue cur to hp cth k) !! t = k_threads k !! t) /\
  (forall t th, k_threads (requeue cur to hp cth k) !! t = Some th -> stat_base th <> RT_THREAD_RUNNING).
Proof.
  intros [Hl Hc] Ec Et Hs. destruct (wf_prio _ _ Hl _ _ Et) as [Hp Hm].
  specialize (Hm ltac:(unfold started; by rewrite Hs)).
  assert (k_threads (upd_thread cur clear_yield k) !! cur = Some (clear_yield cth)) as E1
    by (rewrite upd_thread_lookup, decide_True by done; by rewrite Et).
  assert (k_threads (requeue cur to hp cth k) !! cur = Some (put_stat RT_THREAD_READY (clear_yield cth))) as E2.
  { unfold requeue. simpl in *. by rewrite lookup_alter_eq, E1. }
  assert (forall t, t <> cur -> k_threads (requeue cur to hp cth k) !! t = k_threads k !! t) as E3.
  { intros t Hn. unfold requeue. simpl. by rewrite !lookup_alter_ne. }
  split_and!; try done.
  - apply wf_insert; [|set_solver|done|done].
    eapply (wf_lists_ext _ (upd_thread cur clear_yield k)); try done.
    apply wf_upd_loose; [|set_solver|].
    + apply wf_loosen; [done|]. intros h. by eapply running_notin.
    + intros th E. simplify_eq. done.
  - intros t th. destruct (decide (t = cur)) as [->|Hn].
    + rewrite E2. intros [= <-]. by autorewrite with kstat.
    + rewrite E3 by done. intros E Hr. apply (wf_running _ Hc) in E; [congruence|done].
Qed.

(** A thread the scheduler has switched to or from: only its status changes,
    between READY and RUNNING. *)
Definition awake (th : thread) : Prop :=
  stat_base th = RT_THREAD_READY \/ stat_base th = RT_THREAD_RUNNING.
Definition thread_moved (o o' : option thread) : Prop :=
  o' = o \/ exists th s, o = Some th /\ o' = Some (with_stat s th) /\ awake th /\ awake (with_stat s th).

Lemma remove_ready_rest t th k : rest (remove_ready t th k) = rest k.
Proof. unfold remove_ready. by case_decide. Qed.

Lemma put_stat_awake s th : s = RT_THREAD_READY \/ s = RT_THREAD_RUNNING -> awake (put_stat s th).
Proof. unfold awake. intros [-> | ->]; autorewrite with kstat; tauto. Qed.

Lemma upd_moved k t th s : k_threads k !! t = Some th -> awake th -> s = RT_THREAD_READY \/ s = RT_THREAD_RUNNING ->
  forall t', thread_moved (k_threads k !! t') (k_threads (upd_thread t (put_stat s) k) !! t').
Proof.
  intros E Ha Hs t'. rewrite upd_thread_lookup. case_decide; [subst|by left]. right.
  exists th. eexists. rewrite E. split_and!; [done|done|done|by apply put_stat_awake].
Qed.

Record schedule_post (k k' : kstate) (cur to : nat) (tth : thread) : Prop := SchedulePost {
  sp_wf : wf k';
  sp_current : k_current k' = Some to;
  sp_thread : k_threads k' !! to = Some tth;
  sp_running : stat_base tth = RT_THREAD_RUNNING;
  sp_highest : forall p t, t ∈ k_lists k' (LReady p) -> th_current_priority tth <= p;
  sp_waits : forall h, (forall p, h <> LReady p) -> k_lists k' h = k_lists k h;
  sp_rest : rest k' = rest k;
  sp_threads : forall t, thread_moved (k_threads k !! t) (k_threads k' !! t)
}.

Lemma schedule_other_post k cur cth to ts hp tth :
  wf k -> k_current k = Some cur -> k_threads k !! cur = Some cth ->
  k_lists k (LReady hp) = to :: ts -> k_threads k !! to = Some tth ->
  stat_base tth = RT_THREAD_READY -> th_current_priority tth = hp ->
  (forall p t', t' ∈ k_lists k (LReady p) -> hp <= p) ->
  (stat_base cth = RT_THREAD_RUNNING -> hp <= th_current_priority cth) ->
  let k1 := if decide (stat_base cth = RT_THREAD_RUNNING) then requeue cur to hp cth k
            else with_current (Some to) (u8 hp) k in
  schedule_post k (upd_thread to (put_stat RT_THREAD_RUNNING) (remove_ready to tth k1)) cur to
    (put_stat RT_THREAD_RUNNING tth).
Proof.
  intros Hwf Ec Et El Ett Hst Hpt Hmin Hle k1.
  pose proof Hwf as [Hl Hc].
  assert (to <> cur) as Hne.
  { intros ->. destruct (wf_cur _ Hc _ Ec) as (th' & E & Hn). by simplify_eq. }
  assert (k_current k1 = Some to) as Ek1 by (unfold k1; by case_decide).
  assert (k_threads k1 !! to = Some tth /\ wf_lists ∅ k1 /\
    (forall t th, k_threads k1 !! t = Some th -> stat_base th <> RT_THREAD_RUNNING) /\
    (forall h t, t ∈ k_lists k1 h -> t ∈ k_lists k h \/ h = LReady (th_current_priority cth) /\ stat_base cth = RT_THREAD_RUNNING) /\
    (forall h, (forall p, h <> LReady p) -> k_lists k1 h = k_lists k h)) as (E1 & H1 & Hnr & Hin & Hw).
  { unfold k1. case_decide as Hr.
    - destruct (requeue_wf k cur cth to hp Hwf Ec Et Hr) as (? & ? & E & ?).
      rewrite E by done. split_and!; try done.
      + intros h t. unfold requeue. rewrite insert_ready_in. simpl. intros [?|[? ?]]; [by left|by right].
      + intros h Hh. unfold requeue. rewrite insert_ready_lists. simpl. by rewrite decide_False.
    - split_and!; try done; [by apply (wf_lists_ext _ k)| |intros h t ?; by left]. intros t th E Hrr. simpl in E.
      pose proof (wf_running _ Hc _ _ E Hrr). by simplify_eq. }
  split; try done.
  - by apply finish_switch_wf.
  - simpl. unfold remove_ready. by case_decide.
  - rewrite upd_thread_lookup, decide_True by done. unfold remove_ready. case_decide; simpl; by rewrite E1.
  - by autorewrite with kstat.
  - intros p t Hin'. simpl in *. assert (t ∈ k_lists k1 (LReady p)) as Hi.
    { unfold remove_ready in Hin'. case_decide; simpl in Hin'; by apply elem_of_lremove in Hin' as []. }
    apply Hin in Hi as [Hi|[[= ->] Hr]]; [apply Hmin in Hi; by rewrite Hpt|].
    rewrite Hpt. by apply Hle.
  - intros h Hh. transitivity (lremove to (k_lists k1 h)); [simpl; unfold remove_ready; by case_decide|].
    rewrite Hw by done. apply lremove_notin. intros Hi.
    assert (to ∈ k_lists k (LReady hp)) as Hi' by (rewrite El; left).
    by apply (Hh hp), (wf_disj _ _ Hl _ _ to).
  - transitivity (rest k1); [apply remove_ready_rest|]. unfold k1. by case_decide.
  - assert (k_threads (remove_ready to tth k1) = k_threads k1) as Eth by (unfold remove_ready; by case_decide).
    intros t. rewrite upd_thread_lookup, Eth. case_decide as Hd.
    + subst t. rewrite E1, Ett. right. exists tth. eexists. split_and!; [done|done|by left|apply put_stat_awake; tauto].
    + unfold k1. case_decide as Hr; [|by left]. destruct (requeue_wf k cur cth to hp Hwf Ec Et Hr) as (_ & Ecur & E & _).
      destruct (decide (t = cur)) as [->|Hn]; [|left; by apply E]. rewrite Ecur, Et. right.
      exists cth, (th_stat (put_stat RT_THREAD_READY (clear_yield cth))). split_and!; [done|done|by right|].
      apply (put_stat_awake _ (clear_yield cth)). tauto.
Qed.

(** The scheduler leaves the system in a state where the running thread has
    the highest priority. *)
Lemma rt_schedule_spec k cur cth :
  wf k -> k_lock_nest k = 0 -> k_current k = Some cur -> k_threads k !! cur = Some cth ->
  (stat_base cth = RT_THREAD_RUNNING \/ k_ready_group k <> 0) ->
  exists k' to tth, rt_schedule k = Some (tt, k') /\ schedule_post k k' cur to tth /\
    (stat_base cth = RT_THREAD_RUNNING -> yield_flag cth = false ->
     (forall p t, t ∈ k_lists k (LReady p) -> th_current_priority cth <= p) ->
     to = cur /\ forall h, k_lists k' h = k_lists k h).
Proof.
  intros Hwf Hlk Ec Et Hrun. pose proof Hwf as [Hl Hc]. unfold rt_schedule. munfold. rewrite Hlk.
  destruct (decide (k_ready_group k = 0)) as [Hg|Hg].
  { rewrite decide_False by tauto. destruct Hrun as [Hr|]; [|done].
    exists k, cur, cth. split; [done|]. split; [|done]. split; try done; [|by left].
    intros p t Hin. exfalso. destruct (in_lists_thread _ _ _ _ Hl Hin) as [th E].
    pose proof (wf_ready_prio _ _ Hl _ _ _ Hin E). destruct (wf_prio _ _ Hl _ _ E) as [Hp _].
    assert (Z.testbit (k_ready_group k) p = true) as Hb.
    { apply (wf_group _ _ Hl); [lia|]. intros E'. rewrite E' in Hin. set_solver. }
    by rewrite Hg, Z.testbit_0_l in Hb. }
  rewrite decide_True by done.
  destruct (get_highest_spec _ _ Hl Hg) as (to & ts & hp & tth & Eg & Hhp & El & Ett & Hst & Hpt & Hmin).
  rewrite Eg, Ec, (schedule_choice_eval _ _ _ _ _ Et).
  assert (to <> cur) as Hne.
  { intros ->. destruct (wf_cur _ Hc _ Ec) as (th' & E & Hn). by simplify_eq. }
  destruct (decide (stat_base cth = RT_THREAD_RUNNING)) as [Hr|Hr].
  - destruct (decide (th_current_priority cth < hp \/ _)) as [Hd|Hd].
    + rewrite decide_False by congruence. rewrite (remove_thread_eval _ _ _ Et).
      assert (k_threads (remove_ready cur cth k) !! cur = Some cth) as Et' by (unfold remove_ready; by case_decide).
      rewrite Et'. destruct (switch_self_wf k cur cth Hwf Ec Et Hr) as [Hw Hls].
      eexists _, cur, (put_stat RT_THREAD_RUNNING cth). split; [done|]. split; [|done]. split; try done.
      * unfold remove_ready. by case_decide.
      * simpl. rewrite lookup_alter_eq. by rewrite Et'.
      * by autorewrite with kstat.
      * simpl. intros p t. rewrite Hls. intros Hin%Hmin. lia.
      * intros h _. simpl. by rewrite Hls.
      * apply remove_ready_rest.
      * intros t.
        assert (k_threads (remove_ready cur cth k) = k_threads k) as Eth by (unfold remove_ready; by case_decide).
        simpl. rewrite Eth. apply (upd_moved k cur cth); [done|by right|by right].
    + rewrite decide_True by done.
      pose proof (schedule_other_post k cur cth to ts hp tth Hwf Ec Et El Ett Hst Hpt Hmin ltac:(lia)) as Hpost.
      rewrite decide_True in Hpost by done. cbn [fst snd] in *.
      rewrite (insert_thread_eval cur (clear_yield cth));
        [|simpl; by rewrite lookup_alter_eq, Et|simpl; congruence].
      fold (requeue cur to hp cth k).
      destruct (requeue_wf k cur cth to hp Hwf Ec Et Hr) as (_ & _ & E & _).
      rewrite (remove_thread_eval to tth) by (by rewrite E).
      assert (k_threads (remove_ready to tth (requeue cur to hp cth k)) !! to = Some tth) as Et'
        by (unfold remove_ready; case_decide; simpl; by rewrite E).
      rewrite Et'. eexists _, to, _. split; [done|]. split; [exact Hpost|].
      intros _ Hy Hall. exfalso. apply Hd.
      assert (to ∈ k_lists k (LReady hp)) as Hin by (rewrite El; left). apply Hall in Hin.
      destruct (decide (th_current_priority cth = hp)); [by right|left; lia].
  - rewrite decide_True by done.
    pose proof (schedule_other_post k cur cth to ts hp tth Hwf Ec Et El Ett Hst Hpt Hmin ltac:(done)) as Hpost.
    rewrite decide_False in Hpost by done. simpl.
    rewrite (remove_thread_eval to tth) by done.
    assert (k_threads (remove_ready to tth (with_current (Some to) (u8 hp) k)) !! to = Some tth) as Et'
      by (unfold remove_ready; by case_decide).
    rewrite Et'. eexists _, to, _. split; [done|]. split; [exact Hpost|]. done.
Qed.
