(* ===== verification/Object.v ===== *)
(** * Object: the object system, as the kernel objects use it

    object.c.  An object is registered when its map of the kernel state holds
    it; [rt_object_get_type] is the lookup in that map, [type = 0] the deletion.
    [rt_object_init] walks the object list with the scheduler locked and asserts
    that the object is not there yet; [rt_object_allocate] returns fresh memory
    or nothing ([new]).  Names are not modelled. *)

From S2P Require Import Kernel Sched.

Definition rt_object_init (registered : kstate -> bool) : KM unit :=
  rt_enter_critical;;
  r ← gets registered;
  rt_assert (negb r);;
  rt_exit_critical.

Definition rt_object_allocate {A} (new : option A) : KM (option A) :=
  RT_DEBUG_NOT_IN_INTERRUPT;; mret new.

(** Registered in a map. *)
Definition has {A} (f : kstate -> gmap nat A) (o : oid) (k : kstate) : bool :=
  bool_decide (is_Some (f k !! o)).
