(* ===== verification/Timer.v ===== *)
(** * Timer: the kernel's timer list

    timer.c with [RT_TIMER_SKIP_LIST_LEVEL] 1 (rtdef.h) and no soft timers: one
    list, ordered by expiry in circular 32-bit tick arithmetic.  [rt_timer_check]
    calls the timeout functions and is in [Clock].  The theorems: starting a
    timer is a stable insertion by remaining time as long as the deadlines stay
    within half the tick range, and stopping one undoes it. *)

From Stdlib Require Import Sorted.
From S2P Require Import Kernel Sched Object.

(** [RT_TICK_MAX / 2] *)
Definition HALF : Z := RT_TICK_MAX / 2.

Definition rt_tick_get : KM Z := gets k_tick.
Definition rt_tick_set (tick : Z) : KM unit := modify (with_tick (fun _ => tick)).

Definition get_timer (i : timerid) : KM timer := deref (fun k => k_timer k !! i).
Definition put_timer (i : timerid) (t : timer) : KM unit :=
  modify (with_timer (fun m => <[i := t]> m)).

Definition with_flag (f : Z -> Z) (t : timer) : timer :=
  Timer (tm_static t) (f (tm_flag t)) (tm_init_tick t) (tm_timeout_tick t) (tm_func t).
Definition with_init_tick (n : Z) (t : timer) : timer :=
  Timer (tm_static t) (tm_flag t) n (tm_timeout_tick t) (tm_func t).
Definition with_timeout_tick (n : Z) (t : timer) : timer :=
  Timer (tm_static t) (tm_flag t) (tm_init_tick t) n (tm_func t).

(** [flag &= ~RT_TIMER_FLAG_ACTIVATED], [flag |= RT_TIMER_FLAG_ACTIVATED] *)
Definition deactivate (fl : Z) : Z := Z.land fl (Z.lnot RT_TIMER_FLAG_ACTIVATED).
Definition activate (fl : Z) : Z := Z.lor fl RT_TIMER_FLAG_ACTIVATED.
Definition activated (t : timer) : bool := bool_decide (Z.land (tm_flag t) RT_TIMER_FLAG_ACTIVATED <> 0).
Definition periodic (t : timer) : bool := bool_decide (Z.land (tm_flag t) RT_TIMER_FLAG_PERIODIC <> 0).

Definition _rt_timer_init (static : bool) (i : timerid) (func : timeout_func) (time flag : Z) : KM unit :=
  put_timer i (Timer static (deactivate flag) time 0 func).

Definition rt_timer_init (i : timerid) (func : timeout_func) (time flag : Z) : KM unit :=
  rt_object_init (fun k => bool_decide (is_Some (k_timer k !! i)));;
  _rt_timer_init true i func time flag.

Definition rt_timer_create (new : option timerid) (func : timeout_func) (time flag : Z) : KM (option timerid) :=
  obj ← rt_object_allocate new;
  match obj with
  | None => mret None
  | Some i => _rt_timer_init false i func time flag;; mret (Some i)
  end.

Definition timeout_of (k : kstate) (i : timerid) : Z := from_option tm_timeout_tick 0 (k_timer k !! i).

Definition rt_timer_list_next_timeout : KM Z :=
  gets (fun k => match k_timer_list k with [] => RT_TICK_MAX | i :: _ => timeout_of k i end).
Definition rt_timer_next_timeout_tick : KM Z := rt_timer_list_next_timeout.

Definition _rt_timer_remove (i : timerid) : KM unit := modify (with_timer_list (lremove i)).

Definition rt_timer_detach (i : timerid) : KM Z :=
  t ← get_timer i;
  rt_assert (tm_static t);;
  _rt_timer_remove i;;
  modify (with_timer (fun m => delete i m));;
  mret RT_EOK.

Definition rt_timer_delete (i : timerid) : KM Z :=
  t ← get_timer i;
  rt_assert (negb (tm_static t));;
  _rt_timer_remove i;;
  modify (with_timer (fun m => delete i m));;
  mret RT_EOK.

(** The walk of [rt_timer_start] along the list, with the insertion after the
    node it stops at: [dl] gives the deadlines, [n] the new timer's. *)
Fixpoint timer_insert (dl : timerid -> Z) (i : timerid) (n : Z) (l : list timerid) : list timerid :=
  match l with
  | [] => [i]
  | p :: l' =>
    if decide (u32 (dl p - n) = 0) then p :: timer_insert dl i n l'
    else if decide (u32 (dl p - n) < HALF) then i :: p :: l'
    else p :: timer_insert dl i n l'
  end.

Definition rt_timer_start (i : timerid) : KM Z :=
  t ← get_timer i;
  _rt_timer_remove i;;
  put_timer i (with_flag deactivate t);;
  rt_assert (bool_decide (tm_init_tick t < HALF));;
  now ← rt_tick_get;
  let n := u32 (now + tm_init_tick t) in
  put_timer i (with_timeout_tick n (with_flag deactivate t));;
  modify (fun k => with_timer_list (timer_insert (timeout_of k) i n) k);;
  put_timer i (with_timeout_tick n (with_flag (fun fl => activate (deactivate fl)) t));;
  mret RT_EOK.

Definition rt_timer_stop (i : timerid) : KM Z :=
  t ← get_timer i;
  if activated t then
    _rt_timer_remove i;;
    put_timer i (with_flag deactivate t);;
    mret RT_EOK
  else mret (- RT_ERROR).

(** Commands of [rt_timer_control]; [CTRL_GET_TIME] writes through its argument. *)
Inductive timer_ctrl := CTRL_GET_TIME | CTRL_SET_TIME (tick : Z) | CTRL_SET_ONESHOT | CTRL_SET_PERIODIC.

Definition rt_timer_control (i : timerid) (cmd : timer_ctrl) : KM (Z * option Z) :=
  t ← get_timer i;
  match cmd with
  | CTRL_GET_TIME => mret (RT_EOK, Some (tm_init_tick t))
  | CTRL_SET_TIME n => put_timer i (with_init_tick (u32 n) t);; mret (RT_EOK, None)
  | CTRL_SET_ONESHOT =>
      put_timer i (with_flag (fun fl => Z.land fl (Z.lnot RT_TIMER_FLAG_PERIODIC)) t);; mret (RT_EOK, None)
  | CTRL_SET_PERIODIC =>
      put_timer i (with_flag (fun fl => Z.lor fl RT_TIMER_FLAG_PERIODIC) t);; mret (RT_EOK, None)
  end.

Definition rt_system_timer_init : KM unit := modify (with_timer_list (fun _ => [])).

(** ** Deadlines in circular arithmetic *)

(** The ticks from [base] to deadline [n]. *)
Definition ticks_to (base n : Z) : Z := u32 (n - base).

Lemma HALF_val : HALF = 2 ^ 31 - 1.
Proof. reflexivity. Qed.

(** Within half the range the code's unsigned comparison is the order of the
    remaining times. *)
Lemma circular_compare base a b :
  ticks_to base a < HALF -> ticks_to base b < HALF ->
  (u32 (a - b) = 0 <-> ticks_to base a = ticks_to base b) /\
  (u32 (a - b) <> 0 -> (u32 (a - b) < HALF <-> ticks_to base b < ticks_to base a)).
Proof.
  rewrite HALF_val. unfold ticks_to. intros Ha Hb.
  pose proof (wrap_range 32 (a - base) ltac:(lia)) as Ra.
  pose proof (wrap_range 32 (b - base) ltac:(lia)) as Rb. unfold in_range in *.
  assert (u32 (a - b) = u32 (u32 (a - base) - u32 (b - base))) as ->.
  { rewrite wrap_sub_l, wrap_sub_r. f_equal. lia. }
  set (x := u32 (a - base)) in *. set (y := u32 (b - base)) in *.
  destruct (decide (y <= x)).
  - rewrite (wrap_small 32) by (unfold in_range; lia). lia.
  - rewrite (wrap_neg_small 32) by lia. lia.
Qed.

(** Stable insertion by key. *)
Fixpoint insert_by (key : timerid -> Z) (i : timerid) (l : list timerid) : list timerid :=
  match l with
  | [] => [i]
  | p :: l' => if decide (key p <= key i) then p :: insert_by key i l' else i :: p :: l'
  end.

Definition sorted_by (key : timerid -> Z) (l : list timerid) : Prop :=
  StronglySorted (fun i j => key i <= key j) l.

Lemma elem_of_insert_by key i l x : x ∈ insert_by key i l <-> x = i \/ x ∈ l.
Proof.
  induction l as [|p l IH]; simpl; [set_solver|]. case_decide; set_solver.
Qed.

Lemma insert_by_sorted key i l : sorted_by key l -> sorted_by key (insert_by key i l).
Proof.
  unfold sorted_by. induction l as [|p l IH]; intros Hs; simpl.
  - repeat constructor.
  - apply StronglySorted_inv in Hs as [Hs Hp]. case_decide.
    + constructor; [by apply IH|]. apply Forall_forall. intros x [->|Hx]%elem_of_insert_by; [done|].
      rewrite Forall_forall in Hp. by apply Hp.
    + constructor; [by constructor|]. constructor; [lia|].
      eapply Forall_impl; [done|]. simpl. lia.
Qed.

Lemma insert_by_NoDup key i l : i ∉ l -> NoDup l -> NoDup (insert_by key i l).
Proof.
  induction l as [|p l IH]; intros Hi Hd; simpl; [apply NoDup_singleton|].
  apply NoDup_cons in Hd as [Hp Hd]. apply not_elem_of_cons in Hi as [Hi1 Hi2].
  case_decide; apply NoDup_cons.
  - rewrite elem_of_insert_by. split; [|by apply IH]. naive_solver.
  - split; [|by apply NoDup_cons]. set_solver.
Qed.

Lemma timer_insert_by dl base i n l :
  (forall p, p ∈ l -> ticks_to base (dl p) < HALF) -> ticks_to base n < HALF -> dl i = n ->
  timer_insert dl i n l = insert_by (fun p => ticks_to base (dl p)) i l.
Proof.
  intros Hl Hn Ei. induction l as [|p l IH]; simpl; [done|].
  destruct (circular_compare base (dl p) n) as [C1 C2]; [apply Hl; left|done|].
  rewrite Ei, IH by (intros; apply Hl; by right).
  repeat case_decide; try done; lia.
Qed.

(** ** The timer list's invariant *)

(** Between two tick interrupts: the list holds the active timers, all due
    within half the tick range, in the order they are due. *)
Record timers_ok (k : kstate) : Prop := TimersOk {
  to_nodup : NoDup (k_timer_list k);
  to_active i : i ∈ k_timer_list k <-> exists t, k_timer k !! i = Some t /\ activated t = true;
  to_window i : i ∈ k_timer_list k -> ticks_to (k_tick k) (timeout_of k i) < HALF;
  to_sorted : sorted_by (fun i => ticks_to (k_tick k) (timeout_of k i)) (k_timer_list k)
}.

Lemma deactivate_bit fl : Z.land (deactivate fl) RT_TIMER_FLAG_ACTIVATED = 0.
Proof. unfold deactivate, RT_TIMER_FLAG_ACTIVATED. rewrite <- Z.land_assoc. by rewrite Z.land_0_r. Qed.

Lemma deactivate_inactive t : activated (with_flag deactivate t) = false.
Proof. unfold activated. simpl. rewrite deactivate_bit. apply bool_decide_false. lia. Qed.

Lemma activate_active t n f : activated (with_timeout_tick n (with_flag (fun fl => activate (f fl)) t)) = true.
Proof.
  unfold activated, activate, RT_TIMER_FLAG_ACTIVATED. simpl. apply bool_decide_true.
  change 1 with (2 ^ 0). rewrite land_pow2_nonzero, Z.lor_spec, testbit_pow2 by lia.
  rewrite bool_decide_true by done. apply orb_true_r.
Qed.

Lemma sorted_lremove key i l : sorted_by key l -> sorted_by key (lremove i l).
Proof.
  unfold sorted_by. induction l as [|p l IH]; intros Hs; [constructor|].
  apply StronglySorted_inv in Hs as [Hs Hp]. unfold lremove. rewrite filter_cons.
  case_decide; [|by apply IH]. constructor; [by apply IH|].
  apply Forall_forall. intros x [_ Hx]%elem_of_lremove. rewrite Forall_forall in Hp. by apply Hp.
Qed.

Lemma sorted_ext key key' l :
  (forall i, i ∈ l -> key' i = key i) -> sorted_by key l -> sorted_by key' l.
Proof.
  unfold sorted_by. induction l as [|p l IH]; intros E Hs; [constructor|].
  apply StronglySorted_inv in Hs as [Hs Hp]. constructor.
  - apply IH; [|done]. intros i Hi. apply E. by right.
  - apply Forall_forall. intros x Hx. rewrite !E by (set_solver). rewrite Forall_forall in Hp. by apply Hp.
Qed.

Lemma insert_by_ext key key' i l :
  (forall p, p ∈ i :: l -> key' p = key p) -> insert_by key' i l = insert_by key i l.
Proof.
  induction l as [|p l IH]; intros E; simpl; [done|]. rewrite IH, !E by set_solver. done.
Qed.

(** Stopping a timer (or removing a stopped one) keeps the list in order. *)
Definition tm_unlink (i : timerid) (o : option timer) (k : kstate) : kstate :=
  with_timer (fun m => partial_alter (fun _ => o) i m) (with_timer_list (lremove i) k).

Lemma tm_unlink_ok i o k :
  timers_ok k -> (forall t, o = Some t -> activated t = false) -> timers_ok (tm_unlink i o k).
Proof.
  intros [H1 H2 H3 H4] Ho.
  assert (forall j, j ∈ lremove i (k_timer_list k) -> timeout_of (tm_unlink i o k) j = timeout_of k j) as E.
  { intros j [Hj _]%elem_of_lremove. unfold timeout_of. simpl. by rewrite lookup_partial_alter_ne. }
  split; simpl.
  - by apply NoDup_lremove.
  - intros j. rewrite elem_of_lremove, H2. split.
    + intros [Hj (t & Et & Ha)]. exists t. by rewrite lookup_partial_alter_ne.
    + intros (t & Et & Ha). destruct (decide (j = i)) as [->|Hj].
      * rewrite lookup_partial_alter_eq in Et. subst o. by rewrite (Ho t) in Ha.
      * rewrite lookup_partial_alter_ne in Et by done. eauto.
  - intros j Hj. rewrite E by done. apply H3. by apply elem_of_lremove in Hj as [].
  - eapply sorted_ext; [|by apply sorted_lremove]. intros j Hj. simpl. by rewrite E.
Qed.

Lemma rt_timer_stop_eval i t k :
  k_timer k !! i = Some t ->
  rt_timer_stop i k =
    if activated t then Some (RT_EOK, tm_unlink i (Some (with_flag deactivate t)) k)
    else Some (- RT_ERROR, k).
Proof.
  intros E. unfold rt_timer_stop, get_timer, put_timer, _rt_timer_remove. munfold. rewrite E.
  by destruct (activated t).
Qed.

Definition tm_started (i : timerid) (t : timer) (k : kstate) : kstate :=
  let n := u32 (k_tick k + tm_init_tick t) in
  let k1 := tm_unlink i (Some (with_timeout_tick n (with_flag deactivate t))) k in
  with_timer (fun m => <[i := with_timeout_tick n (with_flag (fun fl => activate (deactivate fl)) t)]> m)
    (with_timer_list (timer_insert (timeout_of k1) i n) k1).

Lemma rt_timer_start_eval i t k :
  k_timer k !! i = Some t -> tm_init_tick t < HALF ->
  rt_timer_start i k = Some (RT_EOK, tm_started i t k).
Proof.
  intros E Hi. unfold rt_timer_start, get_timer, put_timer, _rt_timer_remove, rt_tick_get, rt_assert.
  munfold. rewrite E. simpl. rewrite bool_decide_true by done.
  unfold tm_started, tm_unlink, with_timer, with_timer_list. cbn -[u32 insert timer_insert lremove].
  repeat match goal with |- context [partial_alter (fun _ => Some ?x) i ?m] =>
    change (partial_alter (fun _ => Some x) i m) with (<[i:=x]> m) end.
  by rewrite !insert_insert_eq.
Qed.

Definition due_key (k : kstate) (i : timerid) : Z := ticks_to (k_tick k) (timeout_of k i).

(** The started timer is inserted behind the timers due no later. *)
Lemma tm_started_spec i t k :
  timers_ok k -> 0 <= tm_init_tick t < HALF -> in_range 32 (k_tick k) ->
  let k' := tm_started i t k in
  timers_ok k' /\ due_key k' i = tm_init_tick t /\
  (forall j, j <> i -> due_key k' j = due_key k j) /\
  k_timer_list k' = insert_by (due_key k') i (lremove i (k_timer_list k)).
Proof.
  intros Hok Hi Ht. set (n := u32 (k_tick k + tm_init_tick t)).
  set (t1 := with_timeout_tick n (with_flag deactivate t)).
  pose proof (tm_unlink_ok i (Some t1) k Hok ltac:(intros ? [= <-]; apply deactivate_inactive)) as H1.
  set (k1 := tm_unlink i (Some t1) k) in *.
  set (t2 := with_timeout_tick n (with_flag (fun fl => activate (deactivate fl)) t)).
  assert (tm_started i t k = with_timer (fun m => <[i := t2]> m) (with_timer_list (timer_insert (timeout_of k1) i n) k1)) as Ek' by done.
  intros k'. subst k'. rewrite Ek'. clear Ek'. set (k' := with_timer _ _).
  assert (timeout_of k1 i = n) as En by (unfold timeout_of; simpl; by rewrite lookup_partial_alter_eq).
  assert (ticks_to (k_tick k) n = tm_init_tick t) as Hd.
  { unfold ticks_to, n. rewrite wrap_sub_l. replace (k_tick k + _ - _) with (tm_init_tick t) by lia.
    apply wrap_small. rewrite HALF_val in Hi. unfold in_range. lia. }
  assert (forall j, timeout_of k' j = timeout_of k1 j) as Et'.
  { intros j. unfold timeout_of. simpl. destruct (decide (j = i)) as [->|].
    - by rewrite lookup_insert_eq, lookup_partial_alter_eq.
    - by rewrite lookup_insert_ne. }
  assert (forall j, due_key k' j = due_key k1 j) as Ed by (intros j; unfold due_key; by rewrite Et').
  destruct H1 as [N1 A1 W1 S1].
  assert (k_timer_list k' = insert_by (due_key k') i (lremove i (k_timer_list k))) as El.
  { unfold k'. cbn [k_timer_list with_timer with_timer_list]. rewrite (timer_insert_by _ (k_tick k)); [|by apply W1|by rewrite Hd; lia|done].
    apply insert_by_ext. intros. symmetry. apply Ed. }
  assert (i ∉ lremove i (k_timer_list k)) as Hni by (rewrite elem_of_lremove; tauto).
  split; [|split_and!; [by rewrite Ed; unfold due_key; rewrite En| |done]].
  - split; rewrite ?El.
    + by apply insert_by_NoDup.
    + intros j. rewrite elem_of_insert_by. simpl. destruct (decide (j = i)) as [->|Hj].
      * rewrite lookup_insert_eq. split; [|by left]. intros _. exists t2. split; [done|]. apply activate_active.
      * rewrite lookup_insert_ne by done. transitivity (j ∈ lremove i (k_timer_list k)); [naive_solver|apply (A1 j)].
    + intros j. rewrite elem_of_insert_by. change (ticks_to (k_tick k') (timeout_of k' j)) with (due_key k' j).
      rewrite Ed. intros [->|Hj]; [unfold due_key; rewrite En; simpl; lia|by apply W1].
    + apply insert_by_sorted. eapply sorted_ext; [|apply S1]. intros j _. apply Ed.
  - intros j Hj. rewrite Ed. unfold due_key, timeout_of. simpl. by rewrite lookup_partial_alter_ne.
Qed.
