(* ===== verification/Thread.v ===== *)
(** * Thread: thread control

    thread.c.  A function that ends in [rt_schedule] and goes on afterwards is
    split there: it answers [Blocked frame], and its [..._resume] function runs
    when the thread is current again.  Memory for a new thread is an argument:
    [rt_object_allocate] and [RT_KERNEL_MALLOC] may fail.  Stack contents, entry
    points and names are not modelled.

    [kwf] is the kernel invariant: the scheduler's, the timer list's, and that
    only suspended threads have a running thread timer. *)

From S2P Require Import Kernel Sched Object Timer.

(** ** Operations *)

(** [RT_ASSERT(rt_object_get_type(thread) == RT_Object_Class_Thread)] *)
Definition check_thread (t : tid) : KM thread :=
  th ← get_thread t; rt_assert (th_attached th);; mret th.

Definition rt_object_detach_thread (t : tid) : KM unit := set_thread t (with_attached false).

Definition rt_thread_suspend (t : tid) : KM Z :=
  th ← check_thread t;
  if decide (stat_base th <> RT_THREAD_READY /\ stat_base th <> RT_THREAD_RUNNING)
  then mret (- RT_ERROR)
  else
    cur ← rt_thread_self;
    when (bool_decide (stat_base th = RT_THREAD_RUNNING)) (rt_assert (bool_decide (cur = Some t)));;
    rt_schedule_remove_thread t;;
    set_thread t (put_stat RT_THREAD_SUSPEND);;
    _ ← rt_timer_stop (ThreadTimer t);
    mret RT_EOK.

Definition rt_thread_resume (t : tid) : KM Z :=
  th ← check_thread t;
  if decide (stat_base th <> RT_THREAD_SUSPEND) then mret (- RT_ERROR)
  else
    list_remove t;;
    _ ← rt_timer_stop (ThreadTimer t);
    rt_schedule_insert_thread t;;
    mret RT_EOK.

Definition rt_thread_timeout (t : tid) : KM unit :=
  th ← get_thread t;
  rt_assert (bool_decide (stat_base th = RT_THREAD_SUSPEND));;
  rt_assert (th_attached th);;
  set_thread t (with_error (- RT_ETIMEOUT));;
  list_remove t;;
  rt_schedule_insert_thread t;;
  rt_schedule.

(** [1L << p], in a [rt_uint32_t] *)
Definition number_mask (p : Z) : Z := u32 (Z.shiftl 1 p).

Definition rt_thread_startup (t : tid) : KM Z :=
  th ← get_thread t;
  rt_assert (bool_decide (stat_base th = RT_THREAD_INIT));;
  rt_assert (th_attached th);;
  set_thread t (with_priority (th_init_priority th) (number_mask (th_init_priority th)));;
  set_thread t (with_stat RT_THREAD_SUSPEND);;
  _ ← rt_thread_resume t;
  cur ← rt_thread_self;
  when (bool_decide (is_Some cur)) rt_schedule;;
  mret RT_EOK.

(** [rt_thread_control] with [RT_THREAD_CTRL_CHANGE_PRIORITY] *)
Definition change_priority (t : tid) (prio : Z) : KM unit :=
  th ← check_thread t;
  if decide (stat_base th = RT_THREAD_READY) then
    rt_schedule_remove_thread t;;
    set_thread t (with_priority prio (number_mask prio));;
    rt_schedule_insert_thread t
  else set_thread t (with_priority prio (number_mask prio)).

Definition rt_thread_yield : KM Z := rt_schedule;; mret RT_EOK.

(** [event_set] and [event_info] are left as they are (0 in cleared memory). *)
Definition _rt_thread_init (static : bool) (t : tid) (priority tick : Z) : KM Z :=
  rt_assert (bool_decide (priority < RT_THREAD_PRIORITY_MAX));;
  old ← gets (fun k => if static then k_threads k !! t else None);
  modify (with_threads (insert t
    (Thread static true false RT_EOK RT_THREAD_INIT priority priority 0
       (from_option th_event_set 0 old) (from_option th_event_info 0 old) tick tick)));;
  rt_timer_init (ThreadTimer t) (TF_thread_timeout t) 0 RT_TIMER_FLAG_ONE_SHOT;;
  mret RT_EOK.

Definition rt_thread_init (t : tid) (priority tick : Z) : KM Z :=
  rt_object_init (fun k => from_option th_attached false (k_threads k !! t));;
  _rt_thread_init true t priority tick.

Definition rt_thread_create (object : option tid) (stack : bool) (priority tick : Z) : KM (option tid) :=
  thread ← rt_object_allocate object;
  match thread with
  | None => mret None
  | Some t => if stack then _rt_thread_init false t priority tick;; mret (Some t) else mret None
  end.

(** The end of [rt_thread_exit] and [rt_thread_detach]: a static thread with no
    cleanup function is forgotten, any other waits for the idle thread. *)
Definition retire (t : tid) (th : thread) : KM unit :=
  if th_static th && negb (th_cleanup th) then rt_object_detach_thread t
  else list_insert_after LDefunct t.

Definition rt_thread_exit : KM unit :=
  t ← self;
  th ← get_thread t;
  rt_schedule_remove_thread t;;
  set_thread t (with_stat RT_THREAD_CLOSE);;
  _ ← rt_timer_detach (ThreadTimer t);
  retire t th;;
  rt_schedule.

Definition rt_thread_detach (t : tid) : KM Z :=
  th ← check_thread t;
  rt_assert (th_static th);;
  when (bool_decide (stat_base th <> RT_THREAD_INIT)) (rt_schedule_remove_thread t);;
  _ ← rt_timer_detach (ThreadTimer t);
  set_thread t (with_stat RT_THREAD_CLOSE);;
  retire t th;;
  mret RT_EOK.

Definition rt_thread_delete (t : tid) : KM Z :=
  th ← check_thread t;
  rt_assert (negb (th_static th));;
  when (bool_decide (stat_base th <> RT_THREAD_INIT)) (rt_schedule_remove_thread t);;
  _ ← rt_timer_detach (ThreadTimer t);
  set_thread t (with_stat RT_THREAD_CLOSE);;
  list_insert_after LDefunct t;;
  mret RT_EOK.

Inductive thread_ctrl := CTRL_CHANGE_PRIORITY (prio : Z) | CTRL_STARTUP | CTRL_CLOSE | CTRL_OTHER.

Definition rt_thread_control (t : tid) (cmd : thread_ctrl) : KM Z :=
  th ← check_thread t;
  match cmd with
  | CTRL_CHANGE_PRIORITY prio => change_priority t (u8 prio);; mret RT_EOK
  | CTRL_STARTUP => rt_thread_startup t
  | CTRL_CLOSE => rt_thread_delete t
  | CTRL_OTHER => mret RT_EOK
  end.

(** ** Sleeping *)

(** The part of the blocking functions between the suspension of the calling
    thread and [rt_schedule]: reset the thread timer and start it. *)
Definition start_thread_timer (t : tid) (ticks : Z) : KM unit :=
  _ ← rt_timer_control (ThreadTimer t) (CTRL_SET_TIME ticks);
  _ ← rt_timer_start (ThreadTimer t);
  mret tt.

Inductive sleep_frame := SleepFrame (t : tid).

Definition rt_thread_sleep (tick : Z) : KM (outcome sleep_frame Z) :=
  t ← self;
  th ← check_thread t;
  _ ← rt_thread_suspend t;
  start_thread_timer t tick;;
  rt_schedule;;
  mret (Blocked (SleepFrame t)).

Definition clear_timeout_error (t : tid) : KM unit :=
  th ← get_thread t;
  when (bool_decide (th_error th = - RT_ETIMEOUT)) (set_thread t (with_error RT_EOK)).

Definition rt_thread_sleep_resume (f : sleep_frame) : KM Z :=
  let '(SleepFrame t) := f in clear_timeout_error t;; mret RT_EOK.

Definition rt_thread_delay (tick : Z) : KM (outcome sleep_frame Z) := rt_thread_sleep tick.

(** The result carries the value left in [*tick]. *)
Definition rt_thread_delay_until (tick inc_tick : Z) : KM (outcome sleep_frame (Z * Z)) :=
  t ← self;
  th ← check_thread t;
  now ← rt_tick_get;
  if decide (u32 (now - tick) < inc_tick) then
    let ticks := u32 (u32 (now - tick) + inc_tick) in
    _ ← rt_thread_suspend t;
    start_thread_timer t ticks;;
    rt_schedule;;
    mret (Blocked (SleepFrame t))
  else mret (Returned (RT_EOK, now)).

Definition rt_thread_delay_until_resume (f : sleep_frame) : KM (Z * Z) :=
  let '(SleepFrame t) := f in
  clear_timeout_error t;;
  now ← rt_tick_get;
  mret (RT_EOK, now).

(** clock.c; [ms / 1000] and [ms % 1000] on a non-negative [rt_int32_t]. *)
Definition rt_tick_from_millisecond (ms : Z) : Z :=
  if decide (ms < 0) then u32 RT_WAITING_FOREVER
  else u32 (u32 (RT_TICK_PER_SECOND * (ms / 1000)) +
            (RT_TICK_PER_SECOND * (ms mod 1000) + 999) / 1000).

Definition rt_thread_mdelay (ms : Z) : KM (outcome sleep_frame Z) :=
  rt_thread_sleep (rt_tick_from_millisecond ms).

Lemma from_millisecond_eval ms : 0 <= ms < 2 ^ 31 -> rt_tick_from_millisecond ms = ms.
Proof.
  intros H. unfold rt_tick_from_millisecond, RT_TICK_PER_SECOND. rewrite decide_False by lia.
  assert ((1000 * (ms mod 1000) + 999) / 1000 = ms mod 1000) as ->.
  { symmetry. apply (Z.div_unique _ _ _ 999); lia. }
  pose proof (Z.div_mod ms 1000). pose proof (Z.mod_pos_bound ms 1000).
  rewrite (wrap_small 32 (1000 * (ms / 1000))) by (unfold in_range; lia). rewrite wrap_small by (unfold in_range; lia). lia.
Qed.

(** ** The kernel invariant *)

(** The timer of a thread: one-shot, a part of the thread, with the kernel's
    timeout function. *)
Definition thread_timer_ok (t : tid) (tm : timer) : Prop :=
  tm_func tm = TF_thread_timeout t /\ periodic tm = false /\ tm_static tm = true.

Lemma periodic_deactivate tm : periodic (with_flag deactivate tm) = periodic tm.
Proof.
  unfold periodic, deactivate, RT_TIMER_FLAG_ACTIVATED, RT_TIMER_FLAG_PERIODIC. simpl.
  rewrite <- Z.land_assoc. by change (Z.land (Z.lnot 1) 2) with 2.
Qed.

Lemma periodic_activate tm n :
  periodic (with_timeout_tick n (with_flag (fun fl => activate (deactivate fl)) tm)) = periodic tm.
Proof.
  unfold periodic, activate, deactivate, RT_TIMER_FLAG_ACTIVATED, RT_TIMER_FLAG_PERIODIC. simpl.
  rewrite Z.land_lor_distr_l, <- Z.land_assoc. change (Z.land (Z.lnot 1) 2) with 2.
  change (Z.land 1 2) with 0. by rewrite Z.lor_0_r.
Qed.

Record kwf (k : kstate) : Prop := Kwf {
  kwf_sched : wf k;
  kwf_timers : timers_ok k;
  kwf_tick : in_range 32 (k_tick k);
  kwf_attached t th : k_threads k !! t = Some th -> stat_base th <> RT_THREAD_CLOSE ->
    th_attached th = true /\
    exists tm, k_timer k !! ThreadTimer t = Some tm /\ thread_timer_ok t tm;
  kwf_suspended t : ThreadTimer t ∈ k_timer_list k ->
    exists th, k_threads k !! t = Some th /\ stat_base th = RT_THREAD_SUSPEND
}.

Lemma timers_ok_ext k k' :
  k_timer k' = k_timer k -> k_timer_list k' = k_timer_list k -> k_tick k' = k_tick k ->
  timers_ok k -> timers_ok k'.
Proof.
  intros E1 E2 E3 [H1 H2 H3 H4].
  assert (forall i, timeout_of k' i = timeout_of k i) as E by (intros; unfold timeout_of; by rewrite E1).
  split; rewrite ?E1, ?E2, ?E3; try done.
  - intros i. rewrite E. apply H3.
  - eapply sorted_ext; [|done]. intros. by rewrite E.
Qed.

Lemma wf_current_ext k k' :
  k_threads k' = k_threads k -> k_current k' = k_current k -> wf_current k -> wf_current k'.
Proof. intros E1 E2 [H1 H2]. split; rewrite ?E1, ?E2; done. Qed.

Lemma wf_ext k k' :
  k_threads k' = k_threads k -> k_lists k' = k_lists k -> k_ready_group k' = k_ready_group k ->
  k_current k' = k_current k -> wf k -> wf k'.
Proof. intros E1 E2 E3 E4 [H1 H2]. split; [by apply (wf_lists_ext _ k)|by apply (wf_current_ext k)]. Qed.

(** ** Suspending *)

Definition suspended (t : tid) (th : thread) (k : kstate) : kstate :=
  upd_thread t (put_stat RT_THREAD_SUSPEND) (remove_ready t th k).

Lemma remove_ready_fields t th k :
  k_threads (remove_ready t th k) = k_threads k /\ k_current (remove_ready t th k) = k_current k /\
  k_timer (remove_ready t th k) = k_timer k /\ k_timer_list (remove_ready t th k) = k_timer_list k /\
  k_tick (remove_ready t th k) = k_tick k /\ k_lock_nest (remove_ready t th k) = k_lock_nest k /\
  k_irq_nest (remove_ready t th k) = k_irq_nest k /\
  (forall h, k_lists (remove_ready t th k) h = lremove t (k_lists k h)).
Proof. unfold remove_ready. by case_decide. Qed.

(** The thread timer of a thread that is not suspended is stopped. *)
Lemma awake_timer k t th :
  kwf k -> k_threads k !! t = Some th -> stat_base th <> RT_THREAD_SUSPEND ->
  stat_base th <> RT_THREAD_CLOSE ->
  exists tm, k_timer k !! ThreadTimer t = Some tm /\ activated tm = false.
Proof.
  intros H E Hs Hc. destruct (kwf_attached _ H _ _ E Hc) as (_ & tm & Et & _).
  exists tm. split; [done|]. destruct (activated tm) eqn:Ea; [|done].
  destruct (kwf_suspended _ H t) as (th' & E' & Hs'); [|by simplify_eq].
  apply (to_active _ (kwf_timers _ H)). eauto.
Qed.

Lemma wf_running_suspended k t th :
  wf k -> k_threads k !! t = Some th -> started th ->
  wf (suspended t th k).
Proof.
  intros [Hl Hc] E Hs. destruct (wf_prio _ _ Hl _ _ E) as [Hp Hm]. specialize (Hm Hs).
  destruct (remove_ready_fields t th k) as (F1 & F2 & _). unfold suspended. split.
  - eapply wf_settle with (t := t).
    + apply wf_upd_loose; [by apply wf_remove|set_solver|]. rewrite F1. intros th' E'. simplify_eq. done.
    + intros th' E' _. rewrite upd_thread_lookup, decide_True, F1, E in E' by done.
      injection E' as <-. by autorewrite with kstat.
  - split; simpl; rewrite F1, ?F2.
    + intros c Ec. destruct (wf_cur _ Hc _ Ec) as (cth & Ecth & Hn).
      rewrite lookup_alter. case_decide; [|eauto]. subst. rewrite Ecth. eexists. split; [done|].
      by autorewrite with kstat.
    + intros t' th'. rewrite lookup_alter. case_decide as Hd; [|apply (wf_running _ Hc)].
      subst. rewrite E. intros [= <-]. by autorewrite with kstat.
Qed.

Lemma rt_thread_suspend_spec k t th :
  kwf k -> k_threads k !! t = Some th ->
  stat_base th = RT_THREAD_READY \/ stat_base th = RT_THREAD_RUNNING ->
  rt_thread_suspend t k = Some (RT_EOK, suspended t th k) /\ kwf (suspended t th k).
Proof.
  intros H E Hs.
  assert (stat_base th <> RT_THREAD_SUSPEND /\ stat_base th <> RT_THREAD_CLOSE /\ stat_base th <> RT_THREAD_INIT)
    as (N1 & N2 & N3) by (destruct Hs as [-> | ->]; done).
  destruct (kwf_attached _ H _ _ E N2) as [Ha _].
  destruct (awake_timer _ _ _ H E N1 N2) as (tm & Et & Hna).
  destruct (remove_ready_fields t th k) as (F1 & F2 & F3 & F4 & F5 & _).
  pose proof H as [[Hl Hc] Ht Hk Hat Hsu].
  split.
  - unfold rt_thread_suspend, check_thread, rt_thread_self. munfold. rewrite E. unfold rt_assert. rewrite Ha. simpl.
    rewrite decide_False by tauto.
    assert (stat_base th = RT_THREAD_RUNNING -> k_current k = Some t) as Hcur by apply (wf_running _ Hc _ _ E).
    assert ((if bool_decide (stat_base th = RT_THREAD_RUNNING)
             then if bool_decide (k_current k = Some t) then mret tt else halt else mret tt) k = Some (tt, k)) as Ea.
    { case_bool_decide; [|done]. by rewrite bool_decide_true by tauto. }
    munfold. rewrite Ea, (remove_thread_eval _ _ _ E). rewrite F1, E.
    fold (upd_thread t (put_stat RT_THREAD_SUSPEND) (remove_ready t th k)).
    rewrite (rt_timer_stop_eval _ tm) by (simpl; by rewrite F3). by rewrite Hna.
  - unfold suspended. split.
    + by apply wf_running_suspended.
    + by apply (timers_ok_ext k).
    + simpl. by rewrite F5.
    + simpl. rewrite F1, F3. intros t' th'. rewrite lookup_alter. case_decide as Hd; [|apply Hat].
      subst. rewrite E. intros [= <-] _. destruct (Hat _ _ E N2). done.
    + simpl. rewrite F4, F1. intros t' Hin. destruct (Hsu t' Hin) as (th' & E' & Hs').
      rewrite lookup_alter_ne; [eauto|]. intros ->. by simplify_eq.
Qed.

(** ** Resuming *)

Definition timer_stopped (t : tid) (k : kstate) : kstate :=
  match k_timer k !! ThreadTimer t with
  | Some tm => if activated tm then tm_unlink (ThreadTimer t) (Some (with_flag deactivate tm)) k else k
  | None => k
  end.

(** The state after the thread has left its list: it is queued, unless it is
    the current thread (resumed before it had given up the processor). *)
Definition awakened (t : tid) (th : thread) (k : kstate) : kstate :=
  if decide (k_current k = Some t) then upd_thread t (put_stat RT_THREAD_RUNNING) k
  else insert_ready t th k.

Definition resumed (t : tid) (th : thread) (k : kstate) : kstate :=
  awakened t th (timer_stopped t (unlink t k)).

Lemma timer_stopped_fields t k :
  k_threads (timer_stopped t k) = k_threads k /\ k_lists (timer_stopped t k) = k_lists k /\
  k_ready_group (timer_stopped t k) = k_ready_group k /\ k_current (timer_stopped t k) = k_current k /\
  k_tick (timer_stopped t k) = k_tick k /\ k_lock_nest (timer_stopped t k) = k_lock_nest k /\
  k_irq_nest (timer_stopped t k) = k_irq_nest k.
Proof. unfold timer_stopped. by repeat case_match. Qed.

Lemma wf_unlink X t th k :
  wf_lists X k -> k_threads k !! t = Some th -> stat_base th <> RT_THREAD_READY ->
  wf_lists ({[t]} ∪ X) (unlink t k).
Proof.
  intros H E Hs.
  assert (forall p, lremove t (k_lists k (LReady p)) = k_lists k (LReady p)) as El.
  { intros p. apply lremove_notin. intros Hin. destruct (wf_stat _ _ H _ _ Hin) as (_ & ? & ? & ?).
    by simplify_eq. }
  destruct H as [H1 H2 H3 H4 H5 H6 H7 H8]. split; try done; simpl.
  - intros h. by apply NoDup_lremove.
  - intros h h' t'. rewrite !elem_of_lremove. intros [] []. by eapply H2.
  - intros h t'. rewrite elem_of_lremove. intros [Hne Hin]. destruct (H3 h t' Hin). set_solver.
  - intros p t' th'. rewrite El. apply H4.
  - intros t' th' E' Hn Hs'. rewrite El. apply H5; [done|set_solver|done].
  - intros p Hp. rewrite El. by apply H8.
Qed.

Lemma insert_thread_awakened k t th :
  k_threads k !! t = Some th -> rt_schedule_insert_thread t k = Some (tt, awakened t th k).
Proof.
  intros E. unfold awakened. case_decide; [by apply (insert_current_eval _ th)|by apply insert_thread_eval].
Qed.

(** Awakening a thread that is in no list restores the invariant. *)
Lemma awakened_wf k t th :
  wf_lists {[t]} k -> k_threads k !! t = Some th -> started th ->
  (forall t' th', t' <> t -> k_threads k !! t' = Some th' -> stat_base th' = RT_THREAD_RUNNING ->
     k_current k = Some t') ->
  (forall c, k_current k = Some c -> exists cth, k_threads k !! c = Some cth /\ stat_base cth <> RT_THREAD_READY) ->
  wf (awakened t th k).
Proof.
  intros Hl E Hs Hr Hc. destruct (wf_prio _ _ Hl _ _ E) as [Hp Hm]. specialize (Hm Hs).
  assert (wf_lists ({[t]} ∪ ∅) k) as Hl' by (by rewrite union_empty_r_L).
  unfold awakened. case_decide as Hcur.
  - split.
    + eapply (wf_settle _ t).
      * apply wf_upd_loose; [done|set_solver|]. intros th' E'. simplify_eq. done.
      * intros th' E' _. rewrite upd_thread_lookup, decide_True, E in E' by done.
        injection E' as <-. by autorewrite with kstat.
    + split; simpl.
      * intros c Ec. simplify_eq. rewrite lookup_alter_eq, E. eexists. split; [done|]. by autorewrite with kstat.
      * intros t' th'. rewrite lookup_alter. case_decide; [by subst|]. by apply Hr.
  - split; [by apply wf_insert; [|set_solver|..]|]. split; simpl.
    + intros c Ec. rewrite lookup_alter_ne by congruence. by apply Hc.
    + intros t' th'. rewrite lookup_alter. case_decide as Hd; [|by apply Hr].
      subst. rewrite E. intros [= <-]. by autorewrite with kstat.
Qed.

Lemma timer_stop_eval k t tm :
  k_timer k !! ThreadTimer t = Some tm ->
  exists e, rt_timer_stop (ThreadTimer t) k = Some (e, timer_stopped t k).
Proof.
  intros E. rewrite (rt_timer_stop_eval _ tm) by done. unfold timer_stopped. rewrite E.
  destruct (activated tm); eauto.
Qed.

Lemma timer_stopped_ok k t : timers_ok k -> timers_ok (timer_stopped t k).
Proof.
  intros H. unfold timer_stopped. repeat case_match; try done.
  apply tm_unlink_ok; [done|]. intros ? [= <-]. apply deactivate_inactive.
Qed.

Lemma timer_stopped_timer k t i tm :
  k_timer k !! i = Some tm -> exists tm', k_timer (timer_stopped t k) !! i = Some tm' /\ tm_func tm' = tm_func tm /\ periodic tm' = periodic tm /\ tm_static tm' = tm_static tm.
Proof.
  intros E. unfold timer_stopped. repeat case_match; try (by eauto). simpl.
  destruct (decide (i = ThreadTimer t)) as [->|].
  - rewrite lookup_partial_alter_eq. eexists. split; [done|]. simplify_eq. split; [done|]. split; [apply periodic_deactivate|done].
  - rewrite lookup_partial_alter_ne by done. eauto.
Qed.

(** After the stop, the thread's own timer is off and the others are as before. *)
Lemma timer_stopped_list k t i :
  timers_ok k -> i ∈ k_timer_list (timer_stopped t k) -> i ∈ k_timer_list k /\ i <> ThreadTimer t.
Proof.
  intros H. unfold timer_stopped. repeat case_match; simpl; rewrite ?elem_of_lremove; [tauto| |].
  - intros Hin. split; [done|]. intros ->. apply (to_active _ H) in Hin as (? & ? & ?). congruence.
  - intros Hin. split; [done|]. intros ->. apply (to_active _ H) in Hin as (? & ? & ?). congruence.
Qed.

Lemma timer_stopped_unlink t k : timer_stopped t (unlink t k) = unlink t (timer_stopped t k).
Proof. unfold timer_stopped. simpl. by repeat case_match. Qed.

Lemma awakened_fields t th k :
  k_timer (awakened t th k) = k_timer k /\ k_timer_list (awakened t th k) = k_timer_list k /\
  k_tick (awakened t th k) = k_tick k /\ k_current (awakened t th k) = k_current k /\
  k_lock_nest (awakened t th k) = k_lock_nest k /\ k_irq_nest (awakened t th k) = k_irq_nest k /\
  (forall t', t' <> t -> k_threads (awakened t th k) !! t' = k_threads k !! t') /\
  (forall th0, k_threads k !! t = Some th0 -> k_threads (awakened t th k) !! t =
     Some (put_stat (if decide (k_current k = Some t) then RT_THREAD_RUNNING else RT_THREAD_READY) th0)) /\
  (forall h, k_lists (awakened t th k) h =
     if decide (k_current k <> Some t /\ h = LReady (th_current_priority th))
     then k_lists k h ++ [t] else k_lists k h).
Proof.
  unfold awakened. case_decide as Hc; simpl; split_and!; try done.
  - intros t' Hn. by rewrite lookup_alter_ne.
  - intros th0 E. by rewrite lookup_alter_eq, E.
  - intros h. rewrite decide_False by tauto. done.
  - intros t' Hn. by rewrite lookup_alter_ne.
  - intros th0 E. by rewrite lookup_alter_eq, E.
  - intros h. pose proof (insert_ready_lists t th k h) as El. simpl in El. rewrite El.
    repeat case_decide; tauto || done.
Qed.

(** A suspended thread that leaves its list with an error code set. *)
Lemma awakened_unlinked_wf k t th e :
  wf k -> k_threads k !! t = Some th -> stat_base th = RT_THREAD_SUSPEND ->
  wf (awakened t th (upd_thread t (with_error e) (unlink t k))).
Proof.
  intros [Hl Hc] E Hs. set (k2 := upd_thread t (with_error e) (unlink t k)).
  assert (k_threads k2 !! t = Some (with_error e th)) as E2
    by (unfold k2; rewrite upd_thread_lookup, decide_True by done; simpl; by rewrite E).
  assert (forall t', t' <> t -> k_threads k2 !! t' = k_threads k !! t') as En2
    by (intros t' Hn; unfold k2; by rewrite upd_thread_lookup, decide_False).
  assert (stat_base (with_error e th) = RT_THREAD_SUSPEND) as Hs2 by done.
  replace (awakened t th k2) with (awakened t (with_error e th) k2) by done.
  assert (wf_lists {[t]} (unlink t k)) as Hl1.
  { rewrite <- (union_empty_r_L {[t]}). eapply wf_unlink; [done..|]. by rewrite Hs. }
  apply awakened_wf; [|done|unfold started; by rewrite Hs2| |].
  - apply wf_upd_loose; [done|set_solver|]. intros th' E'. apply (wf_prio _ _ Hl1 _ _ E').
  - intros t' th' Hn. rewrite En2 by done. apply (wf_running _ Hc).
  - intros c Ec. destruct (wf_cur _ Hc _ Ec) as (cth & Ecth & Hn).
    destruct (decide (c = t)) as [->|Hne]; [|rewrite En2 by done; eauto].
    exists (with_error e th). split; [done|]. by rewrite Hs2.
Qed.

(** A suspended thread that is unlinked, has its timer stopped and possibly its
    error set, and is awakened: the kernel invariant holds again. *)
Lemma resumed_kwf k t th e :
  kwf k -> k_threads k !! t = Some th -> stat_base th = RT_THREAD_SUSPEND ->
  kwf (awakened t th (upd_thread t (with_error e) (timer_stopped t (unlink t k)))).
Proof.
  intros H E Hs. pose proof H as [[Hl Hc] Ht Hk Hat Hsu].
  set (k1 := timer_stopped t (unlink t k)).
  destruct (timer_stopped_fields t (unlink t k)) as (T1 & T2 & T3 & T4 & T5 & _). fold k1 in T1, T2, T3, T4, T5.
  set (k2 := upd_thread t (with_error e) k1).
  assert (k_threads k2 !! t = Some (with_error e th)) as E2.
  { unfold k2. rewrite upd_thread_lookup, decide_True, T1 by done. simpl. by rewrite E. }
  assert (forall t', t' <> t -> k_threads k2 !! t' = k_threads k !! t') as En2.
  { intros t' Hn. unfold k2. rewrite upd_thread_lookup, decide_False, T1 by done. done. }
  destruct (awakened_fields t th k2) as (A1 & A2 & A3 & A4 & _ & _ & A7 & A8 & _).
  split.
  - unfold k2, k1. rewrite timer_stopped_unlink.
    destruct (timer_stopped_fields t k) as (S1 & S2 & S3 & S4 & _).
    apply awakened_unlinked_wf; [by apply (wf_ext k)|by rewrite S1|done].
  - apply (timers_ok_ext k1); [done..|]. apply timer_stopped_ok. by apply (timers_ok_ext k).
  - rewrite A3. unfold k2. simpl. by rewrite T5.
  - intros t' th' E' Hn. rewrite A1.
    destruct (decide (t' = t)) as [->|Hne].
    + rewrite (A8 _ E2) in E'. injection E' as <-. 
      destruct (Hat _ _ E) as (Hatt & tm & Etm & Hf); [by rewrite Hs|]. split; [done|].
      destruct (timer_stopped_timer (unlink t k) t (ThreadTimer t) tm Etm) as (tm' & ? & ? & ? & ?).
      exists tm'. split; [done|]. unfold thread_timer_ok in *. intuition congruence.
    + rewrite A7, En2 in E' by done. destruct (Hat _ _ E' Hn) as (Hatt & tm & Etm & Hf). split; [done|].
      destruct (timer_stopped_timer (unlink t k) t (ThreadTimer t') tm Etm) as (tm' & ? & ? & ? & ?).
      exists tm'. split; [done|]. unfold thread_timer_ok in *. intuition congruence.
  - rewrite A2. intros t' Hin.
    assert (timers_ok (unlink t k)) as Htu by (by apply (timers_ok_ext k)).
    destruct (timer_stopped_list (unlink t k) t (ThreadTimer t') Htu Hin) as [Hin' Hne].
    destruct (Hsu t' Hin') as (th' & E' & Hs'). assert (t' <> t) by congruence.
    rewrite A7, En2 by done. eauto.
Qed.

Lemma upd_error_id k t th :
  k_threads k !! t = Some th -> upd_thread t (with_error (th_error th)) k = k.
Proof.
  intros E. unfold upd_thread, with_threads.
  assert (alter (with_error (th_error th)) t (k_threads k) = k_threads k) as ->; [|by destruct k].
  apply alter_id. intros x Ex. simplify_eq. by destruct th.
Qed.

Lemma rt_thread_resume_spec k t th :
  kwf k -> k_threads k !! t = Some th -> stat_base th = RT_THREAD_SUSPEND ->
  rt_thread_resume t k = Some (RT_EOK, resumed t th k) /\ kwf (resumed t th k).
Proof.
  intros H E Hs. destruct (kwf_attached _ H _ _ E) as (Ha & tm & Etm & _); [by rewrite Hs|].
  destruct (timer_stopped_fields t (unlink t k)) as (T1 & _).
  split.
  - unfold rt_thread_resume, check_thread, rt_assert. munfold. rewrite E, Ha. simpl.
    rewrite decide_False by tauto.
    destruct (timer_stop_eval (unlink t k) t tm) as [e Ee]; [done|].
    fold (unlink t k). rewrite Ee. rewrite (insert_thread_awakened _ t th) by (by rewrite T1). done.
  - pose proof (resumed_kwf k t th (th_error th) H E Hs) as Hk.
    assert (upd_thread t (with_error (th_error th)) (timer_stopped t (unlink t k)) = timer_stopped t (unlink t k)) as Eu.
    { apply upd_error_id. by rewrite T1. }
    by rewrite Eu in Hk.
Qed.

(** ** Rescheduling under the kernel invariant *)

(** [k'] is [k] after the scheduler has run: threads moved between READY and
    RUNNING, the ready queues and the current thread changed, nothing else. *)
Record switched (k k' : kstate) : Prop := Switched {
  sw_rest : rest k' = rest k;
  sw_threads t : thread_moved (k_threads k !! t) (k_threads k' !! t);
  sw_waits h : (forall p, h <> LReady p) -> k_lists k' h = k_lists k h;
  sw_current : is_Some (k_current k')
}.

Lemma moved_base o o' : thread_moved o o' ->
  forall th, o = Some th -> exists s, o' = Some (with_stat s th) /\
    (stat_base (with_stat s th) = stat_base th \/ awake th /\ awake (with_stat s th)).
Proof.
  intros [->|(th' & s & -> & -> & ? & ?)] th E.
  - exists (th_stat th). split; [by destruct th|by left].
  - injection E as ->. exists s. split; [done|by right].
Qed.

Lemma moved_back o o' : thread_moved o o' ->
  forall th', o' = Some th' -> exists th, o = Some th /\ th' = with_stat (th_stat th') th /\
    (stat_base th' = stat_base th \/ awake th /\ awake th').
Proof.
  intros [->|(th & s & -> & -> & ? & ?)] th' E.
  - exists th'. split; [done|]. split; [by destruct th'|by left].
  - injection E as <-. exists th. split; [done|]. split; [done|by right].
Qed.

Lemma awake_not_suspended th : awake th -> stat_base th <> RT_THREAD_SUSPEND /\ stat_base th <> RT_THREAD_CLOSE.
Proof. intros [-> | ->]; done. Qed.

Lemma switched_kwf k k' : kwf k -> wf k' -> switched k k' -> kwf k'.
Proof.
  intros H Hwf [Hr Ht Hl _]. unfold rest in Hr. injection Hr as R1 R2 R3 R4 R5 R6 R7 R8 R9 R10.
  split; [done|by apply (timers_ok_ext k), kwf_timers|by rewrite R3; apply kwf_tick| |].
  - intros t th' E Hn. destruct (moved_back _ _ (Ht t) _ E) as (th & E0 & Eth & Hs).
    destruct (kwf_attached _ H t th E0) as [Ha Htm].
    + destruct Hs as [Hs|[Hs _]]; [by rewrite <- Hs|]. by apply awake_not_suspended.
    + rewrite Eth, R4. done.
  - intros t. rewrite R5. intros Hin. destruct (kwf_suspended _ H t Hin) as (th & E & Hs).
    destruct (moved_base _ _ (Ht t) _ E) as (s & E' & [Hs'|[Hs' _]]).
    + exists (with_stat s th). split; [done|]. congruence.
    + apply awake_not_suspended in Hs' as []. congruence.
Qed.

Lemma rt_schedule_wf k :
  wf k -> is_Some (k_current k) ->
  exists k', rt_schedule k = Some (tt, k') /\ wf k' /\ switched k k'.
Proof.
  intros Hwf [cur Ec]. destruct (wf_cur _ (proj2 Hwf) _ Ec) as (cth & Et & _).
  destruct (decide (k_lock_nest k = 0 /\ k_ready_group k <> 0)) as [[Hk Hg]|Hn].
  - destruct (rt_schedule_spec k cur cth Hwf Hk Ec Et ltac:(by right)) as (k' & to & tth & E & Hp & _).
    exists k'. split_and!; [done|apply (sp_wf _ _ _ _ _ Hp)|].
    split; [apply (sp_rest _ _ _ _ _ Hp)|apply (sp_threads _ _ _ _ _ Hp)|apply (sp_waits _ _ _ _ _ Hp)|].
    rewrite (sp_current _ _ _ _ _ Hp). eauto.
  - exists k. split; [unfold rt_schedule; munfold; by rewrite decide_False|]. split; [done|].
    split; [done|by left|done|by rewrite Ec; eauto].
Qed.

Lemma rt_schedule_kwf k :
  kwf k -> is_Some (k_current k) ->
  exists k', rt_schedule k = Some (tt, k') /\ kwf k' /\ switched k k'.
Proof.
  intros H Hc. destruct (rt_schedule_wf k (kwf_sched _ H) Hc) as (k' & E & Hw & Hs).
  exists k'. split_and!; [done| |done]. by apply (switched_kwf k).
Qed.

(** ** Timing out *)

Definition timed_out (t : tid) (th : thread) (k : kstate) : kstate :=
  awakened t th (unlink t (upd_thread t (with_error (- RT_ETIMEOUT)) k)).

(** [rt_thread_timeout]: the thread leaves its wait list with [-RT_ETIMEOUT] and
    becomes ready. *)
Lemma rt_thread_timeout_spec k t th :
  wf k -> k_threads k !! t = Some th -> stat_base th = RT_THREAD_SUSPEND ->
  th_attached th = true -> is_Some (k_current k) ->
  exists k', rt_thread_timeout t k = Some (tt, k') /\ wf k' /\ switched (timed_out t th k) k'.
Proof.
  intros H E Hs Ha Hcur.
  assert (wf (timed_out t th k)) as Hk by (by apply awakened_unlinked_wf).
  destruct (rt_schedule_wf (timed_out t th k) Hk) as (k' & E' & Hk' & Hsw).
  { destruct (awakened_fields t th (unlink t (upd_thread t (with_error (- RT_ETIMEOUT)) k))) as (_ & _ & _ & A & _).
    unfold timed_out. by rewrite A. }
  exists k'. split; [|done]. unfold rt_thread_timeout, rt_assert. munfold. rewrite E, Ha.
  rewrite bool_decide_true by done. simpl. rewrite E.
  fold (upd_thread t (with_error (- RT_ETIMEOUT)) k).
  fold (unlink t (upd_thread t (with_error (- RT_ETIMEOUT)) k)).
  rewrite (insert_thread_awakened _ t (with_error (- RT_ETIMEOUT) th)); [done|].
  simpl. by rewrite lookup_alter_eq, E.
Qed.

(** ** Starting the thread timer *)

(** Everything but the timers. *)
Definition untimed (k : kstate) :=
  (k_threads k, k_lists k, k_ready_group k, k_current k, k_current_priority k,
   (k_lock_nest k, k_irq_nest k, k_tick k),
   (k_sems k, k_mutexes k, k_events k, k_mbs k, k_mqs k, k_mps k, k_dipc k)).

Lemma timers_ok_insert i t k :
  timers_ok k -> k_timer k !! i = Some t ->
  forall t', tm_flag t' = tm_flag t -> tm_timeout_tick t' = tm_timeout_tick t ->
  timers_ok (with_timer (insert i t') k).
Proof.
  intros [H1 H2 H3 H4] E t' Ef Et.
  assert (forall j, timeout_of (with_timer (insert i t') k) j = timeout_of k j) as Eo.
  { intros j. unfold timeout_of. simpl. destruct (decide (j = i)) as [->|].
    - by rewrite lookup_insert_eq, E.
    - by rewrite lookup_insert_ne. }
  split; try done.
  - intros j. change (k_timer_list (with_timer (insert i t') k)) with (k_timer_list k). rewrite H2. simpl.
    destruct (decide (j = i)) as [->|]; [|by rewrite lookup_insert_ne].
    rewrite lookup_insert_eq, E. split; intros (x & [= <-] & Ha); eexists; (split; [done|]);
      unfold activated in *; by rewrite Ef in *.
  - intros j Hj. rewrite Eo. by apply H3.
  - eapply sorted_ext; [|done]. intros. by rewrite Eo.
Qed.

Lemma start_thread_timer_spec k t th ticks :
  kwf k -> k_threads k !! t = Some th -> stat_base th = RT_THREAD_SUSPEND -> 0 <= ticks < HALF ->
  exists k', start_thread_timer t ticks k = Some (tt, k') /\ kwf k' /\ untimed k' = untimed k /\
    due_key k' (ThreadTimer t) = ticks /\
    (forall j, j <> ThreadTimer t -> due_key k' j = due_key k j) /\
    k_timer_list k' = insert_by (due_key k') (ThreadTimer t) (lremove (ThreadTimer t) (k_timer_list k)).
Proof.
  intros H E Hs Hti. pose proof H as [Hw Ht Hk Hat Hsu].
  destruct (Hat _ _ E) as (Ha & tm & Etm & Hf); [by rewrite Hs|].
  set (tm' := with_init_tick ticks tm). set (k1 := with_timer (insert (ThreadTimer t) tm') k).
  assert (u32 ticks = ticks) as Eu by (apply wrap_small; rewrite HALF_val in Hti; unfold in_range; lia).
  assert (timers_ok k1) as Ht1 by (by eapply timers_ok_insert).
  assert (k_timer k1 !! ThreadTimer t = Some tm') as E1 by (apply lookup_insert_eq).
  destruct (tm_started_spec (ThreadTimer t) tm' k1 Ht1 Hti Hk) as (S1 & S2 & S3 & S4).
  exists (tm_started (ThreadTimer t) tm' k1). split.
  - unfold start_thread_timer, rt_timer_control, get_timer, put_timer. munfold. rewrite Etm, Eu.
    fold tm' k1. change (with_timer (fun m => <[ThreadTimer t:=tm']> m) k) with k1.
    rewrite (rt_timer_start_eval _ tm'); [done|done|simpl; lia].
  - split; [|split_and!; try done; intros; rewrite S3 by done; unfold due_key, timeout_of; simpl; by rewrite lookup_insert_ne].
    split; try done.
    + by apply (wf_ext k).
    + intros t' th' E' Hn. destruct (Hat t' th' E' Hn) as (Ha' & tmx & Ex & Hfx). split; [done|]. simpl.
      destruct (decide (t' = t)) as [->|Hne].
      * rewrite lookup_insert_eq. eexists. split; [done|]. destruct Hf. split; [done|]. by rewrite periodic_activate.
      * rewrite lookup_insert_ne, lookup_partial_alter_ne, lookup_insert_ne by congruence. eauto.
    + rewrite S4. intros t' Hin%elem_of_insert_by. destruct Hin as [[= ->]|Hin]; [eauto|].
      apply elem_of_lremove in Hin as [_ Hin]. by apply Hsu.
Qed.

(** ** Sleeping *)

(** The current thread, running. *)
Definition running (k : kstate) (t : tid) (th : thread) : Prop :=
  k_current k = Some t /\ k_threads k !! t = Some th /\ stat_base th = RT_THREAD_RUNNING.

Lemma suspended_thread t th k :
  k_threads k !! t = Some th ->
  k_threads (suspended t th k) !! t = Some (put_stat RT_THREAD_SUSPEND th) /\
  (forall t', t' <> t -> k_threads (suspended t th k) !! t' = k_threads k !! t') /\
  k_current (suspended t th k) = k_current k /\
  rest (suspended t th k) = rest k /\
  (forall h, k_lists (suspended t th k) h = lremove t (k_lists k h)).
Proof.
  intros E. destruct (remove_ready_fields t th k) as (F1 & F2 & _ & _ & _ & _ & _ & F8). unfold suspended.
  split_and!.
  - rewrite upd_thread_lookup, decide_True, F1 by done. by rewrite E.
  - intros t' Hn. by rewrite upd_thread_lookup, decide_False, F1 by done.
  - done.
  - apply remove_ready_rest.
  - apply F8.
Qed.

Lemma rest_inj k k' : rest k' = rest k ->
  k_lock_nest k' = k_lock_nest k /\ k_irq_nest k' = k_irq_nest k /\ k_tick k' = k_tick k /\
  k_timer k' = k_timer k /\ k_timer_list k' = k_timer_list k /\ k_sems k' = k_sems k /\
  k_mutexes k' = k_mutexes k /\ k_events k' = k_events k /\ k_mbs k' = k_mbs k /\ k_mqs k' = k_mqs k /\ k_mps k' = k_mps k /\ k_dipc k' = k_dipc k.
Proof. intros E. unfold rest in E. injection E; intros. split_and!; done. Qed.

Lemma untimed_inj k k' : untimed k' = untimed k ->
  k_threads k' = k_threads k /\ k_lists k' = k_lists k /\ k_ready_group k' = k_ready_group k /\
  k_current k' = k_current k /\ k_lock_nest k' = k_lock_nest k /\ k_irq_nest k' = k_irq_nest k /\
  k_tick k' = k_tick k /\ k_sems k' = k_sems k /\ k_mutexes k' = k_mutexes k /\
  k_events k' = k_events k /\ k_mbs k' = k_mbs k /\ k_mqs k' = k_mqs k /\ k_mps k' = k_mps k /\ k_dipc k' = k_dipc k.
Proof. intros E. unfold untimed in E. injection E; intros. split_and!; done. Qed.

(** The suspension of the current thread with a timeout. *)
Lemma suspend_and_start k t th ticks :
  kwf k -> running k t th -> 0 <= ticks < HALF ->
  exists k1, start_thread_timer t ticks (suspended t th k) = Some (tt, k1) /\ kwf k1 /\
    untimed k1 = untimed (suspended t th k) /\ is_Some (k_current k1) /\
    ThreadTimer t ∈ k_timer_list k1 /\ due_key k1 (ThreadTimer t) = ticks /\
    (forall i, i ∈ k_timer_list k1 -> i = ThreadTimer t \/ i ∈ k_timer_list k).
Proof.
  intros H (Hc & E & Hs) Hti.
  destruct (rt_thread_suspend_spec k t th H E) as [_ Hk]; [by right|].
  destruct (suspended_thread t th k E) as (E1 & _ & Ec1 & _).
  destruct (start_thread_timer_spec _ t _ ticks Hk E1) as (k1 & Es & Hk1 & Hu & Hd & _ & Hl);
    [by autorewrite with kstat|done|].
  exists k1. destruct (untimed_inj _ _ Hu) as (_ & _ & _ & Ec & _). split_and!; try done.
  - rewrite Ec, Ec1, Hc. eauto.
  - rewrite Hl. apply elem_of_insert_by. by left.
  - intros i. rewrite Hl, elem_of_insert_by, elem_of_lremove.
    destruct (suspended_thread t th k E) as (_ & _ & _ & Hrest & _).
    destruct (rest_inj _ _ Hrest) as (_ & _ & _ & _ & -> & _). tauto.
Qed.

(** The functions that suspend the calling thread for [ticks] and reschedule. *)
Lemma suspend_start_schedule k t th ticks :
  kwf k -> running k t th -> 0 <= ticks < HALF ->
  exists k1 k', rt_thread_suspend t k = Some (RT_EOK, suspended t th k) /\
    start_thread_timer t ticks (suspended t th k) = Some (tt, k1) /\ rt_schedule k1 = Some (tt, k') /\ kwf k' /\
    (exists th', k_threads k' !! t = Some th' /\ stat_base th' = RT_THREAD_SUSPEND) /\
    k_tick k' = k_tick k /\ ThreadTimer t ∈ k_timer_list k' /\ due_key k' (ThreadTimer t) = ticks /\
    is_Some (k_current k') /\ (forall i, i ∈ k_timer_list k' -> i = ThreadTimer t \/ i ∈ k_timer_list k).
Proof.
  intros H Hr Hti. destruct (suspend_and_start k t th ticks H Hr Hti) as (k1 & E1 & Hk1 & Hu & Hc & Hin & Hd & Hi).
  destruct Hr as (Ec & E & Hs). destruct (rt_schedule_kwf k1 Hk1 Hc) as (k' & E' & Hk' & Hsw).
  destruct (rt_thread_suspend_spec k t th H E) as [Es _]; [by right|].
  destruct (suspended_thread t th k E) as (Eth & _ & _ & Hrest & _).
  destruct (untimed_inj _ _ Hu) as (U1 & _ & _ & _ & _ & _ & U7 & _).
  destruct (rest_inj _ _ (sw_rest _ _ Hsw)) as (_ & _ & R3 & R4 & R5 & _).
  destruct (rest_inj _ _ Hrest) as (_ & _ & Q3 & _).
  exists k1, k'. split_and!; try done.
  - assert (k_threads k1 !! t = Some (put_stat RT_THREAD_SUSPEND th)) as E1t by (by rewrite U1).
    destruct (moved_base _ _ (sw_threads _ _ Hsw t) _ E1t) as (s & Es' & Hs').
    eexists. split; [exact Es'|]. destruct Hs' as [->|[Haw _]]; [by autorewrite with kstat|].
    exfalso. apply awake_not_suspended in Haw as [Haw _]. apply Haw. by autorewrite with kstat.
  - congruence.
  - by rewrite R5.
  - rewrite <- Hd. unfold due_key, timeout_of. by rewrite R3, R4.
  - apply (sw_current _ _ Hsw).
  - intros i. rewrite R5. apply Hi.
Qed.

Lemma rt_thread_sleep_spec k t th tick :
  kwf k -> running k t th -> 0 <= tick < HALF ->
  exists k', rt_thread_sleep tick k = Some (Blocked (SleepFrame t), k') /\ kwf k' /\
    (exists th', k_threads k' !! t = Some th' /\ stat_base th' = RT_THREAD_SUSPEND) /\
    k_tick k' = k_tick k /\ ThreadTimer t ∈ k_timer_list k' /\ due_key k' (ThreadTimer t) = tick /\
    is_Some (k_current k') /\ (forall i, i ∈ k_timer_list k' -> i = ThreadTimer t \/ i ∈ k_timer_list k).
Proof.
  intros H Hr Hti. destruct (suspend_start_schedule k t th tick H Hr Hti) as (k1 & k' & Es & E1 & E' & P).
  destruct Hr as (Ec & E & Hs). destruct (kwf_attached _ H _ _ E) as [Ha _]; [by rewrite Hs|].
  exists k'. split; [|exact P]. unfold rt_thread_sleep, check_thread, rt_assert. munfold. rewrite Ec, E, Ha. simpl.
  by rewrite Es, E1, E'.
Qed.

(** ** Updates the scheduler does not see *)

(** An update of a thread the scheduler does not look at. *)
Definition keeps (f : thread -> thread) : Prop := forall th,
  stat_base (f th) = stat_base th /\ th_current_priority (f th) = th_current_priority th /\
  th_number_mask (f th) = th_number_mask th /\ th_attached (f th) = th_attached th.

Lemma wf_upd_keep t f k : keeps f -> wf k -> wf (upd_thread t f k).
Proof.
  intros Hf [Hl Hc].
  assert (forall t' th', k_threads (upd_thread t f k) !! t' = Some th' ->
    exists th, k_threads k !! t' = Some th /\ stat_base th' = stat_base th /\
      th_current_priority th' = th_current_priority th /\ th_number_mask th' = th_number_mask th) as Hb.
  { intros t' th'. rewrite upd_thread_lookup. case_decide; [|eauto]. subst.
    intros (th & E & ->)%fmap_Some. exists th. destruct (Hf th) as (? & ? & ? & _). done. }
  assert (forall t' th, k_threads k !! t' = Some th ->
    exists th', k_threads (upd_thread t f k) !! t' = Some th' /\ stat_base th' = stat_base th) as Hfw.
  { intros t' th E. rewrite upd_thread_lookup. case_decide; [|eauto]. subst. rewrite E.
    eexists. split; [done|]. apply Hf. }
  destruct Hl as [H1 H2 H3 H4 H5 H6 H7 H8]. split; split; try done.
  - intros h t' Hin. destruct (H3 h t' Hin) as (? & th & E & Hs). split; [done|].
    destruct (Hfw _ _ E) as (th' & ? & ?). exists th'. split; [done|congruence].
  - intros p t' th' Hin E. destruct (Hb _ _ E) as (th & E0 & _ & -> & _). by apply (H4 p t').
  - intros t' th' E Hx Hs. destruct (Hb _ _ E) as (th & E0 & Es & -> & _). apply H5; congruence.
  - intros t' th' E. unfold started; destruct (Hb _ _ E) as (th & E0 & -> & -> & ->). by apply (H6 t').
  - intros c Ec. destruct (wf_cur _ Hc _ Ec) as (th & E & Hn). destruct (Hfw _ _ E) as (th' & ? & ?).
    exists th'. split; [done|congruence].
  - intros t' th' E Hr. destruct (Hb _ _ E) as (th & E0 & Es & _). apply (wf_running _ Hc t' th); congruence.
Qed.

Lemma kwf_upd_keep t f k : keeps f -> kwf k -> kwf (upd_thread t f k).
Proof.
  intros Hf [Hw Ht Hk Hat Hsu]. split; [by apply wf_upd_keep|by apply (timers_ok_ext k)|done| |].
  - intros t' th'. rewrite upd_thread_lookup. case_decide; [|apply Hat]. subst.
    intros (th & E & ->)%fmap_Some Hn. destruct (Hf th) as (Es & _ & _ & ->). apply Hat; congruence.
  - intros t' Hin. destruct (Hsu t' Hin) as (th & E & Hs). rewrite upd_thread_lookup.
    case_decide; [|eauto]. subst. rewrite E. eexists. split; [done|]. destruct (Hf th). congruence.
Qed.

(** Changing an object does not disturb the kernel invariant. *)
Lemma kwf_objects k k' :
  k_threads k' = k_threads k -> k_lists k' = k_lists k -> k_ready_group k' = k_ready_group k ->
  k_current k' = k_current k -> k_tick k' = k_tick k -> k_timer k' = k_timer k ->
  k_timer_list k' = k_timer_list k -> kwf k -> kwf k'.
Proof.
  intros E1 E2 E3 E4 E5 E6 E7 [H1 H2 H3 H4 H5].
  split; rewrite ?E1, ?E5, ?E6, ?E7; try done; [by apply (wf_ext k)|by apply (timers_ok_ext k)].
Qed.

(** ** Changing a priority *)

(** Only the priority of [t] has changed, and its place in the ready queue. *)
Record reprioritised (k k' : kstate) (t : tid) (prio : Z) : Prop := Reprioritised {
  rp_kwf : kwf k';
  rp_thread : exists th th', k_threads k !! t = Some th /\ k_threads k' !! t = Some th' /\
    stat_base th' = stat_base th /\ th_current_priority th' = prio /\ th_error th' = th_error th /\
    th_event_set th' = th_event_set th /\ th_event_info th' = th_event_info th;
  rp_threads s : s <> t -> k_threads k' !! s = k_threads k !! s;
  rp_waits h : (forall p, h <> LReady p) -> k_lists k' h = k_lists k h;
  rp_current : k_current k' = k_current k;
  rp_rest : rest k' = rest k
}.

Lemma number_mask_pow p : 0 <= p < RT_THREAD_PRIORITY_MAX -> number_mask p = 2 ^ p.
Proof.
  unfold RT_THREAD_PRIORITY_MAX. intros Hp. unfold number_mask. rewrite Z.shiftl_mul_pow2, Z.mul_1_l by lia.
  apply wrap_small. split; [lia|]. apply Z.pow_lt_mono_r; lia.
Qed.

(** A change of a thread that is not queued as ready. *)
Lemma wf_upd_unqueued k t th prio :
  wf k -> k_threads k !! t = Some th -> stat_base th <> RT_THREAD_READY ->
  0 <= prio < RT_THREAD_PRIORITY_MAX -> wf (upd_thread t (with_priority prio (2 ^ prio)) k).
Proof.
  intros [[H1 H2 H3 H4 H5 H6 H7 H8] [C1 C2]] E Hs Hp. set (k' := upd_thread t _ k).
  assert (forall s, k_threads k' !! s = if decide (t = s) then Some (with_priority prio (2 ^ prio) th) else k_threads k !! s) as El.
  { intros s. unfold k'. rewrite upd_thread_lookup. case_decide; [by rewrite E|done]. }
  assert (forall s sth', k_threads k' !! s = Some sth' ->
    exists sth, k_threads k !! s = Some sth /\ stat_base sth = stat_base sth') as Hb.
  { intros s sth'. rewrite El. case_decide; [subst; intros [= <-]|]; eauto. }
  split; split; try done.
  - intros h s Hin. destruct (H3 h s Hin) as (? & sth & Es & Hst). split; [done|]. rewrite El.
    case_decide; [subst; simplify_eq|]; eauto.
  - intros p s sth Hin. rewrite El. case_decide; [subst|by apply H4].
    destruct (H3 _ _ Hin) as (_ & x & Ex & Hx). by simplify_eq.
  - intros s sth. rewrite El. case_decide; [subst; by intros [= <-]|by apply H5].
  - intros s sth. rewrite El. case_decide; [by intros [= <-]|by apply H6].
  - intros c Ec. destruct (C1 c Ec) as (cth & E' & Hn). rewrite El. case_decide; [subst; simplify_eq|]; eauto.
  - intros s sth Es Hr. destruct (Hb _ _ Es) as (x & Ex & Hx). apply (C2 s x); [done|congruence].
Qed.

Lemma kwf_attached_upd k k' :
  kwf k -> k_timer k' = k_timer k -> k_timer_list k' = k_timer_list k -> k_tick k' = k_tick k -> wf k' ->
  (forall s sth', k_threads k' !! s = Some sth' -> exists sth, k_threads k !! s = Some sth /\
     stat_base sth = stat_base sth' /\ th_attached sth = th_attached sth') ->
  (forall s sth, k_threads k !! s = Some sth -> exists sth', k_threads k' !! s = Some sth' /\ stat_base sth' = stat_base sth) ->
  kwf k'.
Proof.
  intros [_ H2 H3 H4 H5] E1 E2 E3 Hw Hb Hf. split; [done|by apply (timers_ok_ext k)|by rewrite E3| |].
  - intros s sth Es Hn. destruct (Hb _ _ Es) as (x & Ex & Hx & <-). rewrite E1. apply H4; congruence.
  - intros s. rewrite E2. intros Hin. destruct (H5 s Hin) as (x & Ex & Hx).
    destruct (Hf _ _ Ex) as (y & ? & ?). exists y. split; [done|congruence].
Qed.

Lemma change_priority_eval k t th prio :
  k_threads k !! t = Some th -> th_attached th = true -> 0 <= prio < RT_THREAD_PRIORITY_MAX ->
  (stat_base th = RT_THREAD_READY -> k_current k <> Some t) ->
  change_priority t prio k = Some (tt,
    if decide (stat_base th = RT_THREAD_READY)
    then insert_ready t (with_priority prio (2 ^ prio) th)
           (upd_thread t (with_priority prio (2 ^ prio)) (remove_ready t th k))
    else upd_thread t (with_priority prio (2 ^ prio)) k).
Proof.
  intros E Ha Hp Hc. unfold change_priority, check_thread, rt_assert. munfold. rewrite E, Ha. simpl.
  rewrite number_mask_pow by done. case_decide as Hs; [|by rewrite E].
  rewrite (remove_thread_eval t th k E).
  destruct (remove_ready_fields t th k) as (F1 & F2 & _). rewrite F1, E.
  fold (upd_thread t (with_priority prio (2 ^ prio)) (remove_ready t th k)).
  rewrite (insert_thread_eval t (with_priority prio (2 ^ prio) th)); [done| |].
  - rewrite upd_thread_lookup, decide_True by done. by rewrite F1, E.
  - simpl. rewrite F2. by apply Hc.
Qed.

(** Changing the priority of a thread that waits, runs or is ready. *)
Lemma change_priority_spec k t th prio :
  kwf k -> k_threads k !! t = Some th -> stat_base th <> RT_THREAD_CLOSE -> stat_base th <> RT_THREAD_INIT ->
  0 <= prio < RT_THREAD_PRIORITY_MAX ->
  exists k', change_priority t prio k = Some (tt, k') /\ reprioritised k k' t prio.
Proof.
  intros H E Hnc Hni Hp. pose proof H as [[Hl Hc] _ _ _ _].
  destruct (kwf_attached _ H _ _ E Hnc) as [Ha _].
  destruct (remove_ready_fields t th k) as (F1 & F2 & F3 & F4 & F5 & F6 & F7 & F8).
  destruct (wf_prio _ _ Hl _ _ E) as [_ Hm]. specialize (Hm (conj Hni Hnc)).
  rewrite (change_priority_eval k t th prio); [|done..|].
  2:{ intros Hs Hcur. destruct (wf_cur _ Hc _ Hcur) as (x & Ex & Hx). by simplify_eq. }
  eexists. split; [done|]. case_decide as Hs.
  - set (th1 := with_priority prio (2 ^ prio) th). set (k1 := upd_thread t _ (remove_ready t th k)).
    set (k2 := insert_ready t th1 k1).
    assert (forall s, k_threads k2 !! s = if decide (t = s) then Some (put_stat RT_THREAD_READY th1) else k_threads k !! s) as El.
    { intros s. unfold k2, insert_ready. simpl. rewrite F1. rewrite !lookup_alter. case_decide; [by rewrite decide_True, E|done]. }
    assert (wf k2) as Hw.
    { split.
      - apply wf_insert; [|set_solver| |done].
        + apply wf_upd_loose; [by apply wf_remove|set_solver|]. intros. done.
        + unfold k1. rewrite upd_thread_lookup, decide_True, F1, E by done. done.
      - split.
        + simpl. rewrite F2. intros c Ec. destruct (wf_cur _ Hc _ Ec) as (x & Ex & Hx).
          change (exists th0, k_threads k2 !! c = Some th0 /\ stat_base th0 <> RT_THREAD_READY).
          rewrite El. case_decide; [subst; by simplify_eq|]. eauto.
        + intros s sth. rewrite El. simpl. rewrite F2. case_decide; [|apply (wf_running _ Hc)].
          intros [= <-]. by autorewrite with kstat. }
    split; try done.
    + apply (kwf_attached_upd k); simpl; try done.
      * intros s sth'. change (k_threads k2 !! s = Some sth' -> exists sth, k_threads k !! s = Some sth /\
          stat_base sth = stat_base sth' /\ th_attached sth = th_attached sth').
        rewrite El. case_decide; [subst; intros [= <-]|eauto]. exists th. autorewrite with kstat. done.
      * intros s sth Es. change (exists sth', k_threads k2 !! s = Some sth' /\ stat_base sth' = stat_base sth).
        rewrite El. case_decide; [subst; simplify_eq; eexists; split; [done|]; by autorewrite with kstat|eauto].
    + exists th, (put_stat RT_THREAD_READY th1). rewrite El, decide_True by done. autorewrite with kstat. done.
    + intros s Hn. rewrite El, decide_False by done. done.
    + intros h Hh. unfold k2. rewrite insert_ready_lists, decide_False by apply Hh. simpl. rewrite F8.
      apply lremove_notin. intros Hin. destruct (wf_stat _ _ Hl _ _ Hin) as (_ & x & Ex & Hx).
      simplify_eq. rewrite Hs in Hx. destruct h; try done. by apply (Hh p).
    + apply remove_ready_rest.
  - assert (forall s, k_threads (upd_thread t (with_priority prio (2 ^ prio)) k) !! s =
      if decide (t = s) then Some (with_priority prio (2 ^ prio) th) else k_threads k !! s) as El.
    { intros s. rewrite upd_thread_lookup. case_decide; [by rewrite E|done]. }
    split; try done.
    + apply (kwf_attached_upd k); try done.
      * by eapply wf_upd_unqueued.
      * intros s sth'. rewrite El. case_decide; [subst; intros [= <-]|]; eauto.
      * intros s sth Es. rewrite El. case_decide; [subst; simplify_eq|]; eauto.
    + exists th. eexists. rewrite El, decide_True by done. done.
    + intros s Hn. rewrite El, decide_False by done. done.
Qed.
