(* ===== verification/Clock.v ===== *)
(** * Clock: the tick interrupt

    [rt_timer_check] of timer.c and [rt_tick_increase] of clock.c.  The callback
    of a user's timer is a parameter; the program starts none, so the theorems
    are about the thread timers.  The [while] loop of [rt_timer_check] is run
    with fuel: one-shot timers leave the list, so its length is enough
    ([rt_timer_check_spec] is total; [false] would mean the fuel ran out). *)

From Stdlib Require Import Sorted.
From S2P Require Import Kernel Sched Timer Thread.

Section Clock.
Context (user_timeout : nat -> KM unit).

(** [t->timeout_func(t->parameter)] *)
Definition call_timeout (f : timeout_func) : KM unit :=
  match f with
  | TF_thread_timeout t => rt_thread_timeout t
  | TF_user n => user_timeout n
  end.

Definition rt_timer_expire (i : timerid) : KM unit :=
  t ← get_timer i;
  _rt_timer_remove i;;
  call_timeout (tm_func t);;
  t ← get_timer i;
  if periodic t && activated t then
    put_timer i (with_flag deactivate t);;
    _ ← rt_timer_start i; mret tt
  else put_timer i (with_flag deactivate t).

Fixpoint rt_timer_check_loop (fuel : nat) : KM bool :=
  match fuel with
  | O => mret false
  | S fuel =>
    l ← gets k_timer_list;
    match l with
    | [] => mret true
    | i :: _ =>
      current_tick ← rt_tick_get;
      t ← get_timer i;
      if decide (u32 (current_tick - tm_timeout_tick t) < HALF)
      then rt_timer_expire i;; rt_timer_check_loop fuel
      else mret true
    end
  end.

Definition rt_timer_check : KM bool :=
  l ← gets k_timer_list; rt_timer_check_loop (S (length l)).

(** The first half of [rt_tick_increase]: the time slice of the current thread. *)
Definition check_time_slice : KM unit :=
  t ← self;
  set_thread t (fun th => with_remaining_tick (u32 (th_remaining_tick th - 1)) th);;
  th ← get_thread t;
  when (bool_decide (th_remaining_tick th = 0))
    (set_thread t (fun th => set_yield (with_remaining_tick (th_init_tick th) th));;
     _ ← rt_thread_yield; mret tt).

Definition rt_tick_increase : KM bool :=
  modify (with_tick (fun n => u32 (n + 1)));;
  check_time_slice;;
  rt_timer_check.

(** ** The loop *)

(** While the interrupt handles tick [n + 1] the deadlines are still counted
    from tick [n]. *)
Definition at_tick (n : Z) (k : kstate) : kstate := with_tick (fun _ => n) k.

Record ticking (n : Z) (k : kstate) : Prop := Ticking {
  tk_kwf : kwf (at_tick n k);
  tk_tick : k_tick k = u32 (n + 1);
  tk_cur : is_Some (k_current k);
  tk_threads i : i ∈ k_timer_list k -> exists t, i = ThreadTimer t
}.

Definition due_at (n : Z) (k : kstate) (i : timerid) : Z := ticks_to n (timeout_of k i).

Lemma at_tick_wf n k : wf (at_tick n k) <-> wf k.
Proof. split; by apply wf_ext. Qed.

Lemma expired_iff n k i :
  k_tick k = u32 (n + 1) -> due_at n k i < HALF ->
  (u32 (k_tick k - timeout_of k i) < HALF <-> due_at n k i <= 1).
Proof.
  intros -> Hd. unfold due_at, ticks_to in *. rewrite HALF_val in *.
  pose proof (wrap_range 32 (timeout_of k i - n) ltac:(lia)) as R. unfold in_range in R.
  assert (u32 (u32 (n + 1) - timeout_of k i) = u32 (1 - u32 (timeout_of k i - n))) as ->.
  { rewrite wrap_sub_l, wrap_sub_r. f_equal. lia. }
  set (d := u32 (timeout_of k i - n)) in *.
  destruct (decide (d <= 1)).
  - rewrite (wrap_small 32) by (unfold in_range; lia). lia.
  - rewrite (wrap_neg_small 32) by lia. lia.
Qed.

(** What the tick does to the thread of an expired timer. *)
Definition thread_timed_out (k : kstate) (t : tid) : Prop :=
  (exists th, k_threads k !! t = Some th /\ awake th /\ th_error th = - RT_ETIMEOUT) /\
  (ThreadTimer t ∉ k_timer_list k) /\ (forall h, (forall p, h <> LReady p) -> t ∉ k_lists k h).

(** How the other threads and the lists may have changed. *)
Record tick_frame (k k' : kstate) (fired : list tid) : Prop := TickFrame {
  tf_threads t : t ∉ fired -> thread_moved (k_threads k !! t) (k_threads k' !! t);
  tf_waits h : (forall p, h <> LReady p) -> forall t, t ∈ k_lists k' h <-> (t ∈ k_lists k h /\ (t ∉ fired));
  tf_due i : i ∈ k_timer_list k' -> timeout_of k' i = timeout_of k i;
  tf_tick : k_tick k' = k_tick k
}.

(** Clearing the activation flag of a timer that is off the list. *)
Definition cleared (i : timerid) (tm : timer) (k : kstate) : kstate :=
  with_timer (insert i (with_flag deactivate tm)) k.

Lemma expire_spec n k t l tm :
  ticking n k -> k_timer_list k = ThreadTimer t :: l ->
  k_timer k !! ThreadTimer t = Some tm -> thread_timer_ok t tm ->
  exists k', rt_timer_expire (ThreadTimer t) k = Some (tt, k') /\ ticking n k' /\
    k_timer_list k' = l /\ thread_timed_out k' t /\ tick_frame k k' [t].
Proof.
  intros [Hk Htk Hcur Hth] El Etm (Hf & Hp & Hst0).
  pose proof (to_nodup _ (kwf_timers _ Hk)) as Hnd. cbn in Hnd. rewrite El in Hnd.
  apply NoDup_cons in Hnd as [Hnl Hnd].
  destruct (kwf_suspended _ Hk t) as (th & E & Hs); [cbn; rewrite El; left|]. cbn in E.
  destruct (kwf_attached _ Hk _ _ E) as [Ha _]; [by rewrite Hs|].
  set (k1 := with_timer_list (lremove (ThreadTimer t)) k).
  assert (k_timer_list k1 = l) as El1 by (cbn; rewrite El; by apply lremove_cons_eq).
  assert (wf k1) as Hw1 by (apply (wf_ext (at_tick n k)); [done..|apply (kwf_sched _ Hk)]).
  destruct (rt_thread_timeout_spec k1 t th Hw1 E Hs Ha Hcur) as (k2 & E2 & Hw2 & Hsw).
  destruct (rest_inj _ _ (sw_rest _ _ Hsw)) as (_ & _ & R3 & R4 & R5 & _).
  destruct (awakened_fields t th (unlink t (upd_thread t (with_error (- RT_ETIMEOUT)) k1)))
    as (A1 & A2 & A3 & _ & _ & _ & A7 & A8 & A9). fold (timed_out t th k1) in A1, A2, A3, A7, A8, A9.
  rewrite A1 in R4. rewrite A2 in R5. rewrite A3 in R3. cbn in R3, R4. cbn -[k1] in R5.
  assert (k_timer k2 !! ThreadTimer t = Some tm) as Etm2 by (by rewrite R4).
  assert (k_timer_list k2 = l) as El2 by (rewrite R5; exact El1).
  set (k3 := cleared (ThreadTimer t) tm k2).
  assert (rt_timer_expire (ThreadTimer t) k = Some (tt, k3)) as Eexp.
  { unfold rt_timer_expire, get_timer, put_timer, _rt_timer_remove. munfold. rewrite Etm, Hf. fold k1.
    simpl. rewrite E2, Etm2, Hp. done. }
  assert (forall t', t' <> t -> thread_moved (k_threads k !! t') (k_threads k2 !! t')) as Hmv.
  { intros t' Hn. pose proof (sw_threads _ _ Hsw t') as Hm. rewrite A7 in Hm by done.
    cbn in Hm. by rewrite lookup_alter_ne in Hm. }
  assert (forall i, i <> ThreadTimer t -> timeout_of k3 i = timeout_of k i) as Hto.
  { intros i Hn. unfold timeout_of, k3, cleared. cbn. by rewrite lookup_insert_ne, R4 by done. }
  assert (forall h, (forall p, h <> LReady p) -> k_lists k2 h = lremove t (k_lists k h)) as Hwl.
  { intros h Hh. rewrite (sw_waits _ _ Hsw h Hh), A9. rewrite decide_False; [done|]. intros [_ ->]. by eapply Hh. }
  exists k3. split; [done|]. split; [|split; [done|split]].
  - split; [|cbn; congruence|apply (sw_current _ _ Hsw)|].
    + split.
      * by apply (wf_ext k2).
      * apply (timers_ok_ext (tm_unlink (ThreadTimer t) (Some (with_flag deactivate tm)) (at_tick n k))).
        -- cbn. by rewrite R4.
        -- cbn. by rewrite R5.
        -- done.
        -- apply tm_unlink_ok; [apply (kwf_timers _ Hk)|]. intros ? [= <-]. apply deactivate_inactive.
      * apply (kwf_tick _ Hk).
      * cbn. intros t' th' E' Hn. destruct (decide (t' = t)) as [->|Hne].
        -- rewrite lookup_insert_eq. split; [|eexists; split; [done|split; [done|by rewrite periodic_deactivate]]].
           destruct (moved_back _ _ (sw_threads _ _ Hsw t) _ E') as (th0 & E0 & -> & _).
           rewrite (A8 (with_error (- RT_ETIMEOUT) th)) in E0 by (cbn; by rewrite lookup_alter_eq, E).
           by injection E0 as <-.
        -- rewrite lookup_insert_ne by congruence. rewrite R4.
           destruct (moved_back _ _ (Hmv t' Hne) _ E') as (th0 & E0 & Eth0 & Hst).
           destruct (kwf_attached _ Hk t' th0 E0) as [Hat Htm0].
           { destruct Hst as [Hst|[Hst _]]; [by rewrite <- Hst|]. by apply awake_not_suspended. }
           rewrite Eth0. done.
      * cbn. rewrite El2. intros t' Hin. assert (t' <> t) as Hne by (intros ->; done).
        destruct (kwf_suspended _ Hk t') as (th' & E' & Hs'); [cbn; rewrite El; by right|].
        destruct (moved_base _ _ (Hmv t' Hne) _ E') as (s & E'' & [Hs''|[Hs'' _]]).
        -- eexists. split; [exact E''|]. by rewrite Hs''.
        -- apply awake_not_suspended in Hs'' as []. done.
    + cbn. rewrite El2. intros i Hi. apply Hth. rewrite El. by right.
  - split; [|split; [cbn; by rewrite El2|]].
    + pose proof (A8 (with_error (- RT_ETIMEOUT) th) ltac:(cbn; by rewrite lookup_alter_eq, E)) as Et.
      destruct (moved_base _ _ (sw_threads _ _ Hsw t) _ Et) as (s & Es & Hst).
      eexists. split; [exact Es|]. split; [|done].
      destruct Hst as [Hst|[_ Hst]]; [|done]. unfold awake. rewrite Hst.
      case_decide; autorewrite with kstat; tauto.
    + intros h Hh. cbn. rewrite Hwl, elem_of_lremove by done. tauto.
  - split.
    + intros t' Hn. apply Hmv. set_solver.
    + intros h Hh t'. cbn. rewrite Hwl, elem_of_lremove by done. set_solver.
    + intros i. cbn. rewrite El2. intros Hi. apply Hto. by intros ->.
    + cbn. congruence.
Qed.

Lemma timed_out_frame k k' t fired :
  thread_timed_out k t -> tick_frame k k' fired -> (t ∉ fired) ->
  (forall i, i ∈ k_timer_list k' -> i ∈ k_timer_list k) -> thread_timed_out k' t.
Proof.
  intros ((th & E & Ha & He) & Hni & Hw) F Hn Hsub. split; [|split].
  - destruct (moved_base _ _ (tf_threads _ _ _ F t Hn) _ E) as (s & E' & Hs).
    eexists. split; [exact E'|]. split; [|done]. unfold awake.
    destruct Hs as [->|[_ Hs]]; [exact Ha|exact Hs].
  - intros Hin. by apply Hni, Hsub.
  - intros h Hh. rewrite (tf_waits _ _ _ F h Hh t). intros [Hin _]. by apply (Hw h).
Qed.

Lemma moved_trans o1 o2 o3 : thread_moved o1 o2 -> thread_moved o2 o3 -> thread_moved o1 o3.
Proof.
  intros [->|(th & s & -> & -> & H1 & H2)]; [done|].
  intros [->|(th' & s' & E & -> & H3 & H4)].
  - right. exists th, s. done.
  - injection E as <-. right. exists th, s'. done.
Qed.

Lemma tick_frame_refl k : tick_frame k k [].
Proof. split; [by left|set_solver|done|done]. Qed.

Lemma tick_frame_trans k1 k2 k3 f1 f2 :
  tick_frame k1 k2 f1 -> tick_frame k2 k3 f2 ->
  (forall i, i ∈ k_timer_list k3 -> i ∈ k_timer_list k2) -> tick_frame k1 k3 (f1 ++ f2).
Proof.
  intros F1 F2 Hsub. split.
  - intros t Hn. apply not_elem_of_app in Hn as []. eapply moved_trans; [by eapply tf_threads|by eapply tf_threads].
  - intros h Hh t. rewrite (tf_waits _ _ _ F2 h Hh), (tf_waits _ _ _ F1 h Hh), not_elem_of_app. tauto.
  - intros i Hi. rewrite (tf_due _ _ _ F2) by done. apply (tf_due _ _ _ F1). by apply Hsub.
  - rewrite (tf_tick _ _ _ F2). apply (tf_tick _ _ _ F1).
Qed.

(** The result of serving the timer list. *)
Record served (n : Z) (k k' : kstate) (fired : list tid) : Prop := Served {
  sv_ticking : ticking n k';
  sv_frame : tick_frame k k' fired;
  sv_fired t : t ∈ fired -> thread_timed_out k' t;
  sv_list : k_timer_list k = map ThreadTimer fired ++ k_timer_list k';
  sv_due t : t ∈ fired -> due_at n k (ThreadTimer t) <= 1;
  sv_left i : i ∈ k_timer_list k' -> 1 < due_at n k' i
}.

Lemma served_step n k k1 k' t fired :
  thread_timed_out k1 t -> tick_frame k k1 [t] -> k_timer_list k = ThreadTimer t :: k_timer_list k1 ->
  NoDup (k_timer_list k) -> due_at n k (ThreadTimer t) <= 1 ->
  served n k1 k' fired -> served n k k' (t :: fired).
Proof.
  intros Hto F1 El Hnd Hd [H1 H2 H3 H4 H5 H6].
  assert (forall i, i ∈ k_timer_list k' -> i ∈ k_timer_list k1) as Hsub by (intros i; rewrite H4; set_solver).
  rewrite El in Hnd. apply NoDup_cons in Hnd as [Hnl _].
  assert (t ∉ fired) as Hnf.
  { intros Hin. apply Hnl. rewrite H4. apply elem_of_app. left. apply list_elem_of_fmap. eauto. }
  split; try done.
  - by apply (tick_frame_trans k k1 k' [t] fired).
  - intros t' [->|Hin]%elem_of_cons; [|by apply H3]. by apply (timed_out_frame k1 k' t fired).
  - rewrite El. simpl. by rewrite H4.
  - intros t' [->|Hin]%elem_of_cons; [done|]. unfold due_at.
    rewrite <- (tf_due _ _ _ F1); [by apply H5|]. rewrite H4. apply elem_of_app. left. apply list_elem_of_fmap. eauto.
Qed.

Lemma check_loop_spec n l : forall k fuel,
  ticking n k -> k_timer_list k = l -> (length l < fuel)%nat ->
  exists k' fired, rt_timer_check_loop fuel k = Some (true, k') /\ served n k k' fired.
Proof.
  induction l as [|i l IH]; intros k [|fuel] Hk El Hf; simpl in Hf; try lia.
  - exists k, []. split; [simpl; munfold; by rewrite El|].
    split; [done|apply tick_frame_refl|set_solver|done|set_solver|rewrite El; set_solver].
  - pose proof Hk as [Hkw Htk Hcur Hth].
    destruct (Hth i) as [t ->]; [rewrite El; left|].
    pose proof (kwf_timers _ Hkw) as Hto.
    destruct (proj1 (to_active _ Hto (ThreadTimer t))) as (tm & Etm & _); [cbn; rewrite El; left|]. cbn in Etm.
    assert (due_at n k (ThreadTimer t) < HALF) as Hw by (apply (to_window _ Hto); cbn; rewrite El; left).
    assert (timeout_of k (ThreadTimer t) = tm_timeout_tick tm) as Eto by (unfold timeout_of; by rewrite Etm).
    pose proof (expired_iff n k _ Htk Hw) as Hex. rewrite Eto in Hex.
    simpl. unfold rt_tick_get, get_timer. munfold. rewrite El, Etm. case_decide as Hd.
    + destruct (kwf_suspended _ Hkw t) as (th & E & Hs); [cbn; rewrite El; left|].
      destruct (kwf_attached _ Hkw _ _ E) as (_ & tm' & Etm' & Htok); [by rewrite Hs|].
      cbn in Etm'. simplify_eq.
      destruct (expire_spec n k t l tm Hk El Etm Htok) as (k1 & E1 & Hk1 & El1 & Hto1 & F1).
      destruct (IH k1 fuel Hk1 El1 ltac:(lia)) as (k' & fired & Eloop & Hsv).
      exists k', (t :: fired). rewrite E1. split; [done|].
      apply (served_step n k k1); try done; [by rewrite El1| |by apply Hex].
      apply (to_nodup _ Hto).
    + exists k, []. split; [done|].
      split; [done|apply tick_frame_refl|set_solver|done|set_solver|].
      pose proof (to_sorted _ Hto) as Hs. unfold sorted_by in Hs. cbn in Hs. rewrite El in Hs.
      apply StronglySorted_inv in Hs as [_ Hs]. rewrite Forall_forall in Hs.
      assert (1 < due_at n k (ThreadTimer t)) as H1 by lia.
      rewrite El. intros i [->|Hi]%elem_of_cons; [done|]. specialize (Hs i Hi).
      unfold due_at in *. cbn in Hs. eapply Z.lt_le_trans; [exact H1|exact Hs].
Qed.

(** ** The whole tick *)

Lemma keeps_remaining g : keeps (fun th => with_remaining_tick (g th) th).
Proof. done. Qed.

Lemma keeps_yield : keeps (fun th => set_yield (with_remaining_tick (th_init_tick th) th)).
Proof. intros th. split; [apply (stat_base_set_yield (with_remaining_tick _ th))|done]. Qed.

Lemma switched_at_tick n k k' : switched k k' -> switched (at_tick n k) (at_tick n k').
Proof.
  intros [H1 H2 H3 H4]. split; try done. destruct (rest_inj _ _ H1) as (E1&E2&E3&E4&E5&E6&E7&E8&E9&E10&E11&E12).
  unfold rest, at_tick. cbn. congruence.
Qed.

(** Time slice accounting leaves the timers alone. *)
Lemma time_slice_spec n k c :
  kwf (at_tick n k) -> k_tick k = u32 (n + 1) -> k_current k = Some c ->
  (forall i, i ∈ k_timer_list k -> exists t, i = ThreadTimer t) ->
  exists k', check_time_slice k = Some (tt, k') /\
    ticking n k' /\ k_timer_list k' = k_timer_list k /\ k_timer k' = k_timer k.
Proof.
  intros H Ht Hc Hth. destruct (wf_cur _ (proj2 (kwf_sched _ H)) _ Hc) as (cth & E & _). cbn in E.
  set (f1 := fun th => with_remaining_tick (u32 (th_remaining_tick th - 1)) th).
  set (k1 := upd_thread c f1 k).
  assert (k_threads k1 !! c = Some (f1 cth)) as E1
    by (unfold k1; rewrite upd_thread_lookup, decide_True by done; by rewrite E).
  assert (kwf (at_tick n k1)) as H1 by (apply (kwf_upd_keep c f1 (at_tick n k)); [apply keeps_remaining|done]).
  unfold check_time_slice. munfold. rewrite Hc, E. change (with_threads (alter _ c) k) with k1. rewrite E1.
  case_bool_decide as Hz.
  - set (f2 := fun th => set_yield (with_remaining_tick (th_init_tick th) th)). rewrite E1.
    set (k2 := upd_thread c f2 k1). change (with_threads (alter _ c) k1) with k2.
    assert (kwf (at_tick n k2)) as H2 by (apply (kwf_upd_keep c f2 (at_tick n k1)); [apply keeps_yield|done]).
    destruct (rt_schedule_wf k2) as (k3 & E3 & Hw3 & Hs3);
      [by apply (at_tick_wf n), kwf_sched|unfold k2; cbn; eauto|].
    destruct (rest_inj _ _ (sw_rest _ _ Hs3)) as (_ & _ & R3 & R4 & R5 & _).
    exists k3. unfold rt_thread_yield. munfold. rewrite E3. split; [done|].
    split; [|split; [by rewrite R5|by rewrite R4]]. split.
    + apply (switched_kwf (at_tick n k2)); [done|by apply at_tick_wf|by apply switched_at_tick].
    + by rewrite R3.
    + apply (sw_current _ _ Hs3).
    + by rewrite R5.
  - exists k1. split; [done|]. split; [|done]. split; try done.
Qed.

(** One tick later every pending deadline is one tick nearer. *)
Lemma due_next n k i :
  k_tick k = u32 (n + 1) -> 1 < due_at n k i < HALF -> due_key k i = due_at n k i - 1.
Proof.
  unfold due_key, due_at, ticks_to. rewrite HALF_val. intros -> Hd.
  assert (u32 (timeout_of k i - u32 (n + 1)) = u32 (u32 (timeout_of k i - n) - 1)) as ->.
  { rewrite wrap_sub_r, wrap_sub_l. f_equal. lia. }
  apply wrap_small. unfold in_range. lia.
Qed.

Lemma served_kwf n k k' fired : served n k k' fired -> kwf k'.
Proof.
  intros [[Hk Ht _ _] _ _ _ _ Hleft].
  pose proof (kwf_timers _ Hk) as [N A W S].
  assert (forall i, i ∈ k_timer_list k' -> due_key k' i = due_at n k' i - 1) as Hd.
  { intros i Hi. apply due_next; [done|]. split; [by apply Hleft|by apply W]. }
  split; try apply Hk.
  - by apply (at_tick_wf n), kwf_sched.
  - split; try done.
    + intros i Hi. change (due_key k' i < HALF). rewrite Hd by done. specialize (W i Hi).
      change (due_at n k' i < HALF) in W. lia.
    + change (sorted_by (due_key k') (k_timer_list k')).
      assert (sorted_by (fun i => due_at n k' i - 1) (k_timer_list k')) as S'.
      { unfold sorted_by in *. clear -S. change (k_timer_list (at_tick n k')) with (k_timer_list k') in S.
        induction S as [|p l S IH Hp]; constructor; [done|]. eapply Forall_impl; [exact Hp|].
        intros x Hx. change (due_at n k' p <= due_at n k' x) in Hx. lia. }
      eapply sorted_ext; [|exact S']. done.
  - rewrite Ht. apply wrap_range. lia.
Qed.

Lemma rt_tick_increase_spec k c :
  kwf k -> k_current k = Some c -> (forall i, i ∈ k_timer_list k -> exists t, i = ThreadTimer t) ->
  exists k' fired, rt_tick_increase k = Some (true, k') /\ kwf k' /\
    k_tick k' = u32 (k_tick k + 1) /\
    k_timer_list k = map ThreadTimer fired ++ k_timer_list k' /\
    (forall t, t ∈ fired -> due_key k (ThreadTimer t) <= 1 /\ thread_timed_out k' t) /\
    (forall i, i ∈ k_timer_list k' -> 1 < due_key k i /\ due_key k' i = due_key k i - 1) /\
    is_Some (k_current k').
Proof.
  intros H Hc Hth. set (n := k_tick k). set (k0 := with_tick (fun m => u32 (m + 1)) k).
  assert (at_tick n k0 = k) as E0 by (by destruct k).
  destruct (time_slice_spec n k0 c) as (k1 & E1 & Ht1 & El1 & Etm1); [by rewrite E0|done..|].
  destruct (check_loop_spec n (k_timer_list k1) k1 (S (length (k_timer_list k1))) Ht1 eq_refl ltac:(lia))
    as (k2 & fired & E2 & Hsv).
  assert (forall i, due_at n k1 i = due_key k i) as Hd1.
  { intros i. unfold due_at, due_key, timeout_of. by rewrite Etm1. }
  assert (forall i, i ∈ k_timer_list k2 -> due_at n k2 i = due_key k i) as Hd2.
  { intros i Hi. rewrite <- Hd1. unfold due_at. by rewrite (tf_due _ _ _ (sv_frame _ _ _ _ Hsv)). }
  exists k2, fired. split_and!.
  - unfold rt_tick_increase, rt_timer_check. munfold. fold k0. by rewrite E1.
  - by eapply served_kwf.
  - rewrite (tf_tick _ _ _ (sv_frame _ _ _ _ Hsv)). apply (tk_tick _ _ Ht1).
  - change (k_timer_list k) with (k_timer_list k0). rewrite <- El1. apply (sv_list _ _ _ _ Hsv).
  - intros t Ht. split; [|by apply (sv_fired _ _ _ _ Hsv)]. rewrite <- Hd1. by apply (sv_due _ _ _ _ Hsv).
  - intros i Hi. pose proof (sv_left _ _ _ _ Hsv i Hi) as Hl. rewrite <- Hd2 by done. split; [done|].
    apply due_next; [apply (sv_ticking _ _ _ _ Hsv)|]. split; [done|].
    apply (to_window _ (kwf_timers _ (tk_kwf _ _ (sv_ticking _ _ _ _ Hsv)))). done.
  - apply (tk_cur _ _ (sv_ticking _ _ _ _ Hsv)).
Qed.
End Clock.
