(* ===== verification/Ipc.v ===== *)
(** * Ipc: what the IPC objects share

    The inline functions at the top of ipc.c that put the calling thread in an
    object's wait list and wake waiters, and the two specifications every
    object's proofs use: [wait_spec] (suspension with an optional timeout) and
    [resume_spec] (the first waiter becomes ready). *)

From Stdlib Require Import Sorted.
From S2P Require Import Kernel Sched Timer Thread.

(** ** Operations *)

Definition rt_ipc_object_init (o : oid) : KM Z :=
  modify (with_lists (fun ls => <[LSuspend o := []]> ls));; mret RT_EOK.

(** The search of [rt_ipc_list_suspend] for the place of [t], [prio] giving the
    current priorities. *)
Fixpoint insert_prio (prio : tid -> Z) (t : tid) (l : list tid) : list tid :=
  match l with
  | [] => [t]
  | s :: l' => if decide (prio t < prio s) then t :: s :: l' else s :: insert_prio prio t l'
  end.

Definition priority_of (k : kstate) (t : tid) : Z := from_option th_current_priority 0 (k_threads k !! t).

Definition rt_ipc_list_suspend (h : lhead) (t : tid) (flag : Z) : KM Z :=
  _ ← rt_thread_suspend t;
  (if decide (flag = RT_IPC_FLAG_FIFO) then list_insert_before h t
   else if decide (flag = RT_IPC_FLAG_PRIO) then
     modify (fun k => with_lists (fun ls => <[h := insert_prio (priority_of k) t (ls h)]> ls) k)
   else mret tt);;
  mret RT_EOK.

Definition rt_ipc_list_resume (h : lhead) : KM Z :=
  t ← list_first h;
  _ ← rt_thread_resume t;
  mret RT_EOK.

(** [while (!rt_list_isempty(list))]: each round takes a thread off the list, so
    the length of the list is enough; a list that does not empty spins. *)
Fixpoint resume_all_loop (fuel : nat) (h : lhead) : KM unit :=
  b ← list_isempty h;
  if (b : bool) then mret tt else
  match fuel with
  | O => halt
  | S fuel =>
    t ← list_first h;
    set_thread t (with_error (- RT_ERROR));;
    _ ← rt_thread_resume t;
    resume_all_loop fuel h
  end.

Definition rt_ipc_list_resume_all (h : lhead) : KM Z :=
  l ← gets (fun k => k_lists k h);
  resume_all_loop (length l) h;;
  mret RT_EOK.

(** The tail of every blocking function: [suspend] takes the thread to a wait
    list, a timer is started if [timeout > 0], and another thread is scheduled. *)
Definition wait_in {A} (suspend : KM A) (t : tid) (timeout : Z) : KM unit :=
  _ ← suspend;
  when (bool_decide (0 < timeout)) (start_thread_timer t timeout);;
  rt_schedule.
Definition wait (h : lhead) (t : tid) (flag timeout : Z) : KM unit :=
  wait_in (rt_ipc_list_suspend h t flag) t timeout.

(** [timeout -= tick_delta; if (timeout < 0) timeout = 0], with
    [tick_delta = rt_tick_get() - tick_delta]. *)
Definition remaining_timeout (timeout start now : Z) : Z :=
  if decide (0 < timeout) then Z.max 0 (s32 (timeout - u32 (now - start))) else timeout.

(** ** Wait lists *)

Definition wait_head (h : lhead) : Prop :=
  match h with LSuspend _ | LSender _ => True | _ => False end.

Lemma wait_not_ready h : wait_head h -> forall p, h <> LReady p.
Proof. intros Hh p ->. destruct Hh. Qed.

Definition flag_ok (flag : Z) : Prop := flag = RT_IPC_FLAG_FIFO \/ flag = RT_IPC_FLAG_PRIO.

(** The place a thread takes in a wait list.  [LIFO] is not a flag of the code,
    but the order in which memory pools keep their waiters. *)
Definition LIFO : Z := 2.
Definition enqueue (flag : Z) (prio : tid -> Z) (t : tid) (l : list tid) : list tid :=
  if decide (flag = RT_IPC_FLAG_FIFO) then l ++ [t] else if decide (flag = LIFO) then t :: l else insert_prio prio t l.

Lemma insert_prio_perm prio t l : insert_prio prio t l ≡ₚ t :: l.
Proof.
  induction l as [|s l IH]; simpl; [done|]. case_decide; [done|].
  rewrite IH. apply Permutation_swap.
Qed.

Lemma insert_prio_ext prio prio' t l :
  (forall s, s ∈ t :: l -> prio s = prio' s) -> insert_prio prio t l = insert_prio prio' t l.
Proof.
  induction l as [|s l IH]; intros H; simpl; [done|].
  rewrite IH, !H by set_solver. done.
Qed.

Lemma enqueue_perm flag prio t l : enqueue flag prio t l ≡ₚ t :: l.
Proof.
  unfold enqueue. case_decide; [by rewrite Permutation_app_comm|]. case_decide; [done|apply insert_prio_perm].
Qed.

Lemma enqueue_ext flag prio prio' t l :
  (forall s, s ∈ t :: l -> prio s = prio' s) -> enqueue flag prio t l = enqueue flag prio' t l.
Proof. intros H. unfold enqueue. repeat (case_decide; [done|]). by apply insert_prio_ext. Qed.

(** A priority queue: sorted by priority, FIFO among equals. *)
Definition prio_sorted (prio : tid -> Z) (l : list tid) : Prop := Sorted (fun s t => prio s <= prio t) l.

Lemma insert_prio_sorted prio t l : prio_sorted prio l -> prio_sorted prio (insert_prio prio t l).
Proof.
  unfold prio_sorted. induction l as [|s l IH]; intros Hs; simpl; [by repeat constructor|].
  apply Sorted_inv in Hs as [Hs Hh]. case_decide.
  - constructor; [by constructor|]. constructor. lia.
  - constructor; [by apply IH|]. destruct l as [|s' l]; simpl; [constructor; lia|].
    case_decide; constructor; [lia|]. by inversion Hh.
Qed.

(** The maps of objects, which waiting and waking leave alone. *)
Definition objects (k : kstate) := (k_sems k, k_mutexes k, k_events k, k_mbs k, k_mqs k, k_mps k, k_dipc k).

Lemma objects_inj k k' : objects k' = objects k ->
  k_sems k' = k_sems k /\ k_mutexes k' = k_mutexes k /\ k_events k' = k_events k /\
  k_mbs k' = k_mbs k /\ k_mqs k' = k_mqs k /\ k_mps k' = k_mps k /\ k_dipc k' = k_dipc k.
Proof. unfold objects. intros E. injection E; intros. done. Qed.

Lemma rest_objects k k' : rest k' = rest k -> objects k' = objects k.
Proof. intros E. apply rest_inj in E as (_ & _ & _ & _ & _ & ? & ? & ? & ? & ? & ? & ?). unfold objects. congruence. Qed.

Definition in_wait (h : lhead) (l : list tid) (k : kstate) : kstate := with_lists (fun ls => <[h := l]> ls) k.

Lemma in_wait_lists h l k h' :
  k_lists (in_wait h l k) h' = if decide (h' = h) then l else k_lists k h'.
Proof.
  unfold in_wait. simpl. case_decide; [subst; by rewrite fn_lookup_insert|by rewrite fn_lookup_insert_ne].
Qed.

Lemma in_wait_elem h l k t h' s :
  l ≡ₚ t :: k_lists k h -> s ∈ k_lists (in_wait h l k) h' -> (s = t /\ h' = h) \/ s ∈ k_lists k h'.
Proof.
  intros Hp. rewrite in_wait_lists. case_decide; [|tauto]. subst. rewrite Hp, elem_of_cons. tauto.
Qed.

(** A thread in no list goes to a list that its status allows. *)
Lemma wf_in_list k t th h l :
  wf k -> (forall h', t ∉ k_lists k h') -> k_threads k !! t = Some th ->
  stat_base th = head_stat h -> (forall p, h <> LReady p) -> l ≡ₚ t :: k_lists k h ->
  wf (in_wait h l k).
Proof.
  intros [Hl Hc] Hn E Hs Hh Hp. split; [|by apply (wf_current_ext k)].
  destruct Hl as [H1 H2 H3 H4 H5 H6 H7 H8].
  assert (forall p, k_lists (in_wait h l k) (LReady p) = k_lists k (LReady p)) as Er.
  { intros p. rewrite in_wait_lists, decide_False; [done|]. intros E'. by eapply Hh. }
  split; try done.
  - intros h'. rewrite in_wait_lists. case_decide; [|done]. rewrite Hp. by constructor.
  - intros h1 h2 s [[-> ->]|Hi1]%(in_wait_elem _ _ _ t) [[? ->]|Hi2]%(in_wait_elem _ _ _ t); try done; subst.
    + by apply Hn in Hi2.
    + by apply Hn in Hi1.
    + by eapply H2.
  - intros h' s [[-> ->]|Hi]%(in_wait_elem _ _ _ t); try done; [|by apply H3].
    split; [set_solver|]. by exists th.
  - intros p s th'. rewrite Er. apply H4.
  - intros s th'. rewrite Er. apply H5.
  - intros p. rewrite Er. apply H8.
Qed.

Lemma kwf_in_list k t th h l :
  kwf k -> (forall h', t ∉ k_lists k h') -> k_threads k !! t = Some th ->
  stat_base th = head_stat h -> (forall p, h <> LReady p) -> l ≡ₚ t :: k_lists k h ->
  kwf (in_wait h l k).
Proof.
  intros [Hw Ht Hk Ha Hs] Hn E Hst Hh Hp.
  split; [by eapply wf_in_list|by apply (timers_ok_ext k)|done..].
Qed.

Lemma kwf_in_wait k t th h l :
  kwf k -> (forall h', t ∉ k_lists k h') -> k_threads k !! t = Some th ->
  stat_base th = RT_THREAD_SUSPEND -> wait_head h -> l ≡ₚ t :: k_lists k h ->
  kwf (in_wait h l k).
Proof. intros H Hn E Hs Hh. apply (kwf_in_list k t th); try done; [by destruct h|by apply wait_not_ready]. Qed.

(** ** Waiting *)

(** What waiting changes of a thread: its status, and nothing else. *)
Definition set_to_wait (o o' : option thread) : Prop :=
  exists th s, o = Some th /\ o' = Some (with_stat s th) /\ stat_base (with_stat s th) = RT_THREAD_SUSPEND.

Record waiting (k k' : kstate) (h : lhead) (t : tid) (flag timeout : Z) : Prop := Waiting {
  wt_kwf : kwf k';
  wt_list : k_lists k' h = enqueue flag (priority_of k) t (k_lists k h);
  wt_other h' : (forall p, h' <> LReady p) -> h' <> h -> k_lists k' h' = k_lists k h';
  wt_thread : set_to_wait (k_threads k !! t) (k_threads k' !! t);
  wt_threads s : s <> t -> thread_moved (k_threads k !! s) (k_threads k' !! s);
  wt_objects : objects k' = objects k;
  wt_tick : k_tick k' = k_tick k;
  wt_lock : k_lock_nest k' = k_lock_nest k;
  wt_irq : k_irq_nest k' = k_irq_nest k;
  wt_timer : 0 < timeout -> ThreadTimer t ∈ k_timer_list k' /\ due_key k' (ThreadTimer t) = timeout;
  wt_no_timer : timeout <= 0 -> ThreadTimer t ∉ k_timer_list k'
}.

Lemma insert_before_eval h t k :
  list_insert_before h t k = Some (tt, in_wait h (k_lists k h ++ [t]) k).
Proof. done. Qed.

Lemma insert_prio_eval h t k :
  modify (fun k => with_lists (fun ls => <[h := insert_prio (priority_of k) t (ls h)]> ls) k) k =
    Some (tt, in_wait h (insert_prio (priority_of k) t (k_lists k h)) k).
Proof. done. Qed.

Lemma list_suspend_eval k t th h flag :
  kwf k -> running k t th -> wait_head h -> flag_ok flag ->
  rt_ipc_list_suspend h t flag k =
    Some (RT_EOK, in_wait h (enqueue flag (priority_of k) t (k_lists k h)) (suspended t th k)).
Proof.
  intros H (Hc & E & Hs) Hh Hf.
  destruct (rt_thread_suspend_spec k t th H E) as [Es _]; [by right|].
  destruct (suspended_thread t th k E) as (Et & En & _ & _ & El).
  assert (lremove t (k_lists k h) = k_lists k h) as Er.
  { apply lremove_notin. apply (running_notin ∅ k t th); [apply H|done|done]. }
  assert (forall s, priority_of (suspended t th k) s = priority_of k s) as Ep.
  { intros s. unfold priority_of. destruct (decide (s = t)) as [->|]; [by rewrite Et, E|by rewrite En]. }
  unfold rt_ipc_list_suspend, enqueue. rewrite (bind_eval _ _ _ _ _ Es). destruct Hf as [-> | ->].
  - rewrite !decide_True by done. by rewrite (bind_eval _ _ _ _ _ (insert_before_eval h t _)), El, Er.
  - rewrite !decide_False, decide_True by done. erewrite bind_eval by apply insert_prio_eval.
    rewrite (insert_prio_ext _ (priority_of k)) by (intros; apply Ep). by rewrite El, Er.
Qed.

(** [suspend] puts a running thread where [flag] says. *)
Definition suspends {A} (suspend : KM A) (h : lhead) (t : tid) (flag : Z) : Prop := forall k th, kwf k -> running k t th ->
  exists a, suspend k = Some (a, in_wait h (enqueue flag (priority_of k) t (k_lists k h)) (suspended t th k)).

Lemma list_suspend_suspends h t flag : wait_head h -> flag_ok flag -> suspends (rt_ipc_list_suspend h t flag) h t flag.
Proof. intros Hh Hf k th H Hr. exists RT_EOK. by apply list_suspend_eval. Qed.

Lemma wait_in_spec {A} (suspend : KM A) k t th h flag timeout :
  kwf k -> running k t th -> wait_head h -> suspends suspend h t flag -> timeout < HALF ->
  exists k', wait_in suspend t timeout k = Some (tt, k') /\ waiting k k' h t flag timeout.
Proof.
  intros H Hr Hh Hf Hto. pose proof Hr as (Hc & E & Hs).
  destruct (Hf k th H Hr) as [a Eval].
  set (l := enqueue flag (priority_of k) t (k_lists k h)) in *.
  destruct (rt_thread_suspend_spec k t th H E) as [_ Hks]; [by right|].
  destruct (suspended_thread t th k E) as (Et & En & Ec & Er & El).
  destruct (rest_inj _ _ Er) as (R1 & R2 & R3 & R4 & R5 & _).
  assert (lremove t (k_lists k h) = k_lists k h) as Erm.
  { apply lremove_notin. apply (running_notin ∅ k t th); [apply H|done|done]. }
  set (k1 := in_wait h l (suspended t th k)) in *.
  assert (kwf k1) as Hk1.
  { apply (kwf_in_wait _ t (put_stat RT_THREAD_SUSPEND th)); try done.
    - intros h'. rewrite El, elem_of_lremove. tauto.
    - by autorewrite with kstat.
    - rewrite El, Erm. apply enqueue_perm. }
  assert (exists k2, (when (bool_decide (0 < timeout)) (start_thread_timer t timeout)) k1 = Some (tt, k2) /\
    kwf k2 /\ untimed k2 = untimed k1 /\
    (0 < timeout -> ThreadTimer t ∈ k_timer_list k2 /\ due_key k2 (ThreadTimer t) = timeout) /\
    (timeout <= 0 -> ThreadTimer t ∉ k_timer_list k2)) as (k2 & E2 & Hk2 & Hu & Hpos & Hneg).
  { destruct (decide (0 < timeout)) as [Hp|Hp].
    - rewrite bool_decide_true by done.
      destruct (start_thread_timer_spec k1 t (put_stat RT_THREAD_SUSPEND th) timeout Hk1 Et) as
        (k2 & ? & ? & ? & ? & _ & Hl); [by autorewrite with kstat|lia|].
      exists k2. split_and!; try done; [|lia]. intros _. split; [|done]. rewrite Hl. apply elem_of_insert_by. by left.
    - rewrite bool_decide_false by done. exists k1. split_and!; try done. intros _.
      change (ThreadTimer t ∉ k_timer_list (suspended t th k)). rewrite R5. intros Hin.
      destruct (kwf_suspended _ H t Hin) as (th' & E' & Hs'). simplify_eq. by rewrite Hs in Hs'. }
  destruct (untimed_inj _ _ Hu) as (U1 & U2 & _ & U4 & U5 & U6 & U7 & U8 & U9 & U10 & U11 & U12 & U13 & U14).
  destruct (rt_schedule_kwf k2 Hk2) as (k' & E' & Hk' & Hsw).
  { rewrite U4. change (is_Some (k_current (suspended t th k))). rewrite Ec, Hc. eauto. }
  destruct (rest_inj _ _ (sw_rest _ _ Hsw)) as (S1 & S2 & S3 & S4 & S5 & _).
  exists k'. split; [unfold wait_in; munfold; by rewrite Eval, E2|].
  split; try done.
  - rewrite (sw_waits _ _ Hsw) by (by apply wait_not_ready). rewrite U2. unfold k1. by rewrite in_wait_lists, decide_True.
  - intros h' Hh' Hne. rewrite (sw_waits _ _ Hsw) by done. rewrite U2. unfold k1.
    rewrite in_wait_lists, decide_False, El by done. apply lremove_notin.
    apply (running_notin ∅ k t th); [apply H|done|done].
  - exists th. assert (k_threads k2 !! t = Some (put_stat RT_THREAD_SUSPEND th)) as E2t by (by rewrite U1).
    destruct (moved_base _ _ (sw_threads _ _ Hsw t) _ E2t) as (s & Es & Hst).
    exists s. split_and!; [done|done|]. destruct Hst as [Hst|[Ha _]].
    + change (with_stat s th) with (with_stat s (put_stat RT_THREAD_SUSPEND th)). rewrite Hst. by autorewrite with kstat.
    + apply awake_not_suspended in Ha as [Ha _]. destruct Ha. by autorewrite with kstat.
  - intros s Hn. pose proof (sw_threads _ _ Hsw s) as Hm. rewrite U1 in Hm.
    change (k_threads k1) with (k_threads (suspended t th k)) in Hm. by rewrite En in Hm.
  - rewrite (rest_objects _ _ (sw_rest _ _ Hsw)). transitivity (objects (suspended t th k)).
    + unfold objects. rewrite U8, U9, U10, U11, U12, U13, U14. done.
    + by apply rest_objects.
  - rewrite S3, U7. exact R3.
  - rewrite S1, U5. exact R1.
  - rewrite S2, U6. exact R2.
  - intros Hp. destruct (Hpos Hp) as [Hi Hd]. rewrite S5. split; [done|]. rewrite <- Hd.
    unfold due_key, timeout_of. by rewrite S3, S4.
  - rewrite S5. done.
Qed.

Lemma wait_spec k t th h flag timeout :
  kwf k -> running k t th -> wait_head h -> flag_ok flag -> timeout < HALF ->
  exists k', wait h t flag timeout k = Some (tt, k') /\ waiting k k' h t flag timeout.
Proof. intros H Hr Hh Hf. apply (wait_in_spec _ k t th); [done..|]. by apply list_suspend_suspends. Qed.

(** ** Waking the first waiter *)

Definition set_to_run (o o' : option thread) : Prop :=
  exists th s, o = Some th /\ o' = Some (with_stat s th) /\ awake (with_stat s th).

(** A thread of a wait list leaves it and is ready, its timer stopped. *)
Record woken (k k' : kstate) (h : lhead) (t : tid) : Prop := Woken {
  wk_kwf : kwf k';
  wk_in : t ∈ k_lists k h;
  wk_list : k_lists k' h = lremove t (k_lists k h);
  wk_other h' : (forall p, h' <> LReady p) -> h' <> h -> k_lists k' h' = k_lists k h';
  wk_thread : set_to_run (k_threads k !! t) (k_threads k' !! t);
  wk_threads s : s <> t -> thread_moved (k_threads k !! s) (k_threads k' !! s);
  wk_objects : objects k' = objects k;
  wk_tick : k_tick k' = k_tick k;
  wk_lock : k_lock_nest k' = k_lock_nest k;
  wk_irq : k_irq_nest k' = k_irq_nest k;
  wk_timer : ThreadTimer t ∉ k_timer_list k';
  wk_current : is_Some (k_current k) -> is_Some (k_current k')
}.

Lemma timer_stopped_objects t k : objects (timer_stopped t k) = objects k.
Proof. unfold timer_stopped. by repeat case_match. Qed.

Lemma awakened_objects t th k : objects (awakened t th k) = objects k.
Proof. unfold awakened. by case_decide. Qed.

Lemma waiter_suspended k h t :
  wf k -> wait_head h -> t ∈ k_lists k h ->
  exists th, k_threads k !! t = Some th /\ stat_base th = RT_THREAD_SUSPEND.
Proof.
  intros [Hl _] Hh Hin. destruct (wf_stat _ _ Hl h t) as (_ & th & E & Hs); [done|].
  exists th. split; [done|]. by destruct h.
Qed.

Lemma resumed_woken k h t th :
  kwf k -> wait_head h -> t ∈ k_lists k h -> k_threads k !! t = Some th ->
  stat_base th = RT_THREAD_SUSPEND -> woken k (resumed t th k) h t.
Proof.
  intros H Hh Hin E Hs.
  destruct (rt_thread_resume_spec k t th H E Hs) as [_ Hk].
  destruct (timer_stopped_fields t (unlink t k)) as (T1 & T2 & T3 & T4 & T5 & T6 & T7).
  destruct (awakened_fields t th (timer_stopped t (unlink t k))) as (A1 & A2 & A3 & A4 & A5 & A6 & A7 & A8 & A9).
  fold (resumed t th k) in *.
  assert (forall h', (forall p, h' <> LReady p) -> k_lists (resumed t th k) h' = lremove t (k_lists k h')) as Elw.
  { intros h' Hh'. rewrite A9, decide_False, T2; [done|]. intros [_ ->]. by eapply Hh'. }
  split; try done.
  - by rewrite Elw by (by apply wait_not_ready).
  - intros h' Hh' Hn. rewrite Elw by done. apply lremove_notin. intros Hin'. apply Hn.
    by apply (wf_disj _ _ (proj1 (kwf_sched _ H)) _ _ t).
  - exists th. rewrite (A8 th) by (by rewrite T1). eexists. split_and!; [done|done|].
    apply put_stat_awake. case_decide; tauto.
  - intros s Hn. rewrite A7, T1 by done. by left.
  - unfold resumed. rewrite awakened_objects, timer_stopped_objects. done.
  - by rewrite A3, T5.
  - by rewrite A5, T6.
  - by rewrite A6, T7.
  - rewrite A2. intros Hi. assert (timers_ok (unlink t k)) as Htu by (apply (timers_ok_ext k); [done..|apply H]).
    by destruct (timer_stopped_list (unlink t k) t (ThreadTimer t) Htu Hi) as [_ ?].
  - by rewrite A4, T4.
Qed.

Lemma woken_head k k' h t l : kwf k -> k_lists k h = t :: l -> woken k k' h t -> k_lists k' h = l.
Proof.
  intros H El W. rewrite (wk_list _ _ _ _ W), El. apply lremove_cons_eq.
  pose proof (wf_nodup _ _ (proj1 (kwf_sched _ H)) h) as Hnd. rewrite El in Hnd. by apply NoDup_cons in Hnd as [].
Qed.

Lemma resume_spec k h t l :
  kwf k -> wait_head h -> k_lists k h = t :: l ->
  exists k', rt_ipc_list_resume h k = Some (RT_EOK, k') /\ woken k k' h t.
Proof.
  intros H Hh El.
  destruct (waiter_suspended k h t) as (th & E & Hs); [apply H|done|rewrite El; left|].
  destruct (rt_thread_resume_spec k t th H E Hs) as [Er _].
  exists (resumed t th k). split; [unfold rt_ipc_list_resume; munfold; rewrite El; simpl; by rewrite Er|].
  apply resumed_woken; try done. rewrite El. left.
Qed.

(** Rescheduling after a wake-up keeps what the wake-up did. *)
Lemma set_to_run_moved o1 o2 o3 : set_to_run o1 o2 -> thread_moved o2 o3 -> set_to_run o1 o3.
Proof.
  intros (th & s & -> & -> & Ha) [->|(th' & s' & E & -> & _ & Ha')].
  - exists th, s. done.
  - simplify_eq. exists th, s'. done.
Qed.

Lemma thread_moved_trans o1 o2 o3 : thread_moved o1 o2 -> thread_moved o2 o3 -> thread_moved o1 o3.
Proof.
  intros [->|(th & s & -> & -> & H1 & H2)]; [done|].
  intros [->|(th' & s' & E & -> & H3 & H4)].
  - right. exists th, s. done.
  - injection E as <-. right. exists th, s'. done.
Qed.

Lemma woken_schedule k k1 h t :
  wait_head h -> woken k k1 h t -> is_Some (k_current k) ->
  exists k', rt_schedule k1 = Some (tt, k') /\ woken k k' h t.
Proof.
  intros Hh [W1 Wi W2 W3 W4 W5 W6 W7 W8 W9 W10 W11] Hc.
  destruct (rt_schedule_kwf k1 W1 (W11 Hc)) as (k' & E & Hk' & Hsw).
  destruct (rest_inj _ _ (sw_rest _ _ Hsw)) as (S1 & S2 & S3 & S4 & S5 & _).
  exists k'. split; [done|]. split; try done.
  - rewrite (sw_waits _ _ Hsw) by (by apply wait_not_ready). done.
  - intros h' ? ?. rewrite (sw_waits _ _ Hsw) by done. by apply W3.
  - eapply set_to_run_moved; [done|apply (sw_threads _ _ Hsw)].
  - intros s Hn. eapply thread_moved_trans; [by apply W5|apply (sw_threads _ _ Hsw)].
  - rewrite (rest_objects _ _ (sw_rest _ _ Hsw)). done.
  - congruence.
  - congruence.
  - congruence.
  - by rewrite S5.
  - intros _. apply (sw_current _ _ Hsw).
Qed.

Lemma resume_and_schedule k h t l :
  kwf k -> wait_head h -> k_lists k h = t :: l -> is_Some (k_current k) ->
  exists k1 k', rt_ipc_list_resume h k = Some (RT_EOK, k1) /\ rt_schedule k1 = Some (tt, k') /\ woken k k' h t.
Proof.
  intros H Hh El Hc. destruct (resume_spec k h t l H Hh El) as (k1 & E1 & W).
  destruct (woken_schedule k k1 h t Hh W Hc) as (k' & E' & W'). eauto.
Qed.

(** ** Waking every waiter *)

Lemma keeps_error e : keeps (with_error e).
Proof. done. Qed.

(** All the threads of [h] have been made ready with error [-RT_ERROR]. *)
Record all_woken (k k' : kstate) (h : lhead) (l : list tid) : Prop := AllWoken {
  aw_kwf : kwf k';
  aw_list : k_lists k' h = [];
  aw_other h' : (forall p, h' <> LReady p) -> h' <> h -> k_lists k' h' = k_lists k h';
  aw_thread t : t ∈ l -> exists th, k_threads k' !! t = Some th /\ awake th /\ th_error th = - RT_ERROR;
  aw_threads t : t ∉ l -> thread_moved (k_threads k !! t) (k_threads k' !! t);
  aw_objects : objects k' = objects k;
  aw_tick : k_tick k' = k_tick k;
  aw_current : is_Some (k_current k) -> is_Some (k_current k')
}.

Lemma all_woken_step k k1 k' h t l th :
  k_threads k !! t = Some th -> NoDup (t :: l) ->
  woken (upd_thread t (with_error (- RT_ERROR)) k) k1 h t -> all_woken k1 k' h l -> all_woken k k' h (t :: l).
Proof.
  intros E [Hnt _]%NoDup_cons [W1 Wi W2 W3 W4 W5 W6 W7 W8 W9 W10 W11] [A1 A2 A3 A4 A5 A6 A7 A8]. split; try done.
  - intros h' ? ?. rewrite A3, W3 by done. done.
  - intros s [->|Hs]%elem_of_cons; [|by apply A4].
    rewrite upd_thread_lookup, decide_True, E in W4 by done.
    destruct W4 as (th' & s & [= <-] & E1 & Ha).
    destruct (moved_base _ _ (A5 t Hnt) _ E1) as (s' & E' & Hm).
    eexists. split; [exact E'|]. split; [|done]. destruct Hm as [Hm|[_ Hm]]; [|done]. unfold awake. by rewrite Hm.
  - intros s [Hn Hs]%not_elem_of_cons. eapply thread_moved_trans; [|by apply A5].
    specialize (W5 s Hn). by rewrite upd_thread_lookup, decide_False in W5.
  - by rewrite A6, W6.
  - by rewrite A7, W7.
  - intros Hc. by apply A8, W11.
Qed.

Lemma resume_all_loop_spec h l : wait_head h -> forall k fuel,
  kwf k -> k_lists k h = l -> (length l <= fuel)%nat ->
  exists k', resume_all_loop fuel h k = Some (tt, k') /\ all_woken k k' h l.
Proof.
  intros Hh. induction l as [|t l IH]; intros k fuel H El Hf.
  - exists k. split; [destruct fuel; simpl; munfold; by rewrite El|].
    split; try done; [set_solver|by left].
  - destruct fuel as [|fuel]; simpl in Hf; [lia|].
    destruct (waiter_suspended k h t) as (th & E & Hs); [apply H|done|rewrite El; left|].
    set (k0 := upd_thread t (with_error (- RT_ERROR)) k).
    assert (kwf k0) as H0 by (by apply kwf_upd_keep).
    assert (k_threads k0 !! t = Some (with_error (- RT_ERROR) th)) as E0
      by (unfold k0; rewrite upd_thread_lookup, decide_True by done; by rewrite E).
    destruct (rt_thread_resume_spec k0 t _ H0 E0 Hs) as [Er _].
    set (k1 := resumed t (with_error (- RT_ERROR) th) k0) in *.
    assert (woken k0 k1 h t) as W.
    { apply resumed_woken; try done. change (k_lists k0) with (k_lists k). rewrite El. left. }
    assert (k_lists k1 h = l) as El1.
    { by apply (woken_head k0 k1 h t l). }
    destruct (IH k1 fuel (wk_kwf _ _ _ _ W) El1 ltac:(lia)) as (k' & E' & A).
    exists k'. split.
    + simpl. munfold. rewrite El, bool_decide_false by done. simpl. rewrite El. simpl. rewrite E. fold (upd_thread t (with_error (- RT_ERROR)) k). fold k0. by rewrite Er.
    + eapply all_woken_step; [done| |done|done].
      pose proof (wf_nodup _ _ (proj1 (kwf_sched _ H)) h) as Hnd. by rewrite El in Hnd.
Qed.

Lemma resume_all_spec k h :
  kwf k -> wait_head h ->
  exists k', rt_ipc_list_resume_all h k = Some (RT_EOK, k') /\ all_woken k k' h (k_lists k h).
Proof.
  intros H Hh. destruct (resume_all_loop_spec h (k_lists k h) Hh k (length (k_lists k h)) H eq_refl ltac:(lia))
    as (k' & E & A).
  exists k'. split; [unfold rt_ipc_list_resume_all; munfold; by rewrite E|done].
Qed.

(** ** Waiters whose error is clear *)

(** A blocking function clears the error before it waits, and whoever takes the
    thread off the list decides what it finds there. *)
Definition waiters_clean (k : kstate) (h : lhead) : Prop := forall t, t ∈ k_lists k h ->
  exists th, k_threads k !! t = Some th /\ th_error th = RT_EOK.

Definition clean_update (f : thread -> thread) : Prop :=
  keeps f /\ forall th, th_error (f th) = RT_EOK.

Lemma clean_error : clean_update (with_error RT_EOK).
Proof. done. Qed.

Lemma priority_of_upd f t k s : keeps f -> priority_of (upd_thread t f k) s = priority_of k s.
Proof.
  intros Hf. unfold priority_of. rewrite upd_thread_lookup. case_decide; [subst|done].
  destruct (k_threads k !! s) as [th|]; [|done]. simpl. apply Hf.
Qed.

Lemma enqueue_upd flag f t t' k l : keeps f ->
  enqueue flag (priority_of (upd_thread t' f k)) t l = enqueue flag (priority_of k) t l.
Proof.
  intros Hf. unfold enqueue. repeat (case_decide; [done|]). apply insert_prio_ext. intros. by apply priority_of_upd.
Qed.

Lemma running_upd f t th k : keeps f -> running k t th -> running (upd_thread t f k) t (f th).
Proof.
  intros Hf (Hc & E & Hs). split_and!; [done| |].
  - rewrite upd_thread_lookup, decide_True by done. by rewrite E.
  - destruct (Hf th) as [-> _]. done.
Qed.

(** A blocking call: update the thread, then wait. *)
Record blocked (k k' : kstate) (h : lhead) (t : tid) (flag timeout : Z) (f : thread -> thread) : Prop := BlockedAt {
  bl_kwf : kwf k';
  bl_list : k_lists k' h = enqueue flag (priority_of k) t (k_lists k h);
  bl_other h' : (forall p, h' <> LReady p) -> h' <> h -> k_lists k' h' = k_lists k h';
  bl_thread : exists th s, k_threads k !! t = Some th /\ k_threads k' !! t = Some (with_stat s (f th)) /\
    stat_base (with_stat s (f th)) = RT_THREAD_SUSPEND;
  bl_clean h' : waiters_clean k h' -> wait_head h' -> waiters_clean k' h';
  bl_objects : objects k' = objects k;
  bl_tick : k_tick k' = k_tick k;
  bl_timer : 0 < timeout -> ThreadTimer t ∈ k_timer_list k' /\ due_key k' (ThreadTimer t) = timeout;
  bl_no_timer : timeout <= 0 -> ThreadTimer t ∉ k_timer_list k'
}.

Lemma moved_error o o' th : thread_moved o o' -> o = Some th ->
  exists th', o' = Some th' /\ th_error th' = th_error th.
Proof. intros Hm E. destruct (moved_base _ _ Hm _ E) as (s & -> & _). eauto. Qed.

Lemma block_in_spec {A} (suspend : KM A) k t th h flag timeout f :
  kwf k -> running k t th -> wait_head h -> suspends suspend h t flag -> timeout < HALF -> clean_update f ->
  exists k', wait_in suspend t timeout (upd_thread t f k) = Some (tt, k') /\ blocked k k' h t flag timeout f.
Proof.
  intros H Hr Hh Hf Ht [Hk He].
  destruct (wait_in_spec suspend (upd_thread t f k) t (f th) h flag timeout) as (k' & E & W); try done;
    [by apply kwf_upd_keep|by apply running_upd|].
  destruct W as [W1 W2 W3 W4 W5 W6 W7 W8 W9 W10 W11].
  destruct Hr as (_ & Et & _). rewrite upd_thread_lookup, decide_True, Et in W4 by done.
  destruct W4 as (th' & s & [= <-] & Es & Hs).
  exists k'. split; [done|]. split; try done.
  - rewrite W2. by apply enqueue_upd.
  - exists th, s. done.
  - intros h' Hc Hh' x Hx. destruct (decide (x = t)) as [->|Hn]; [eexists; split; [exact Es|apply He]|].
    assert (x ∈ k_lists k h') as Hin.
    { destruct (decide (h' = h)) as [->|Hne]; [|by rewrite W3 in Hx by (done || by apply wait_not_ready)].
      rewrite W2, enqueue_perm in Hx. by apply elem_of_cons in Hx as []. }
    destruct (Hc x Hin) as (xth & Ex & Hxe). specialize (W5 x Hn).
    rewrite upd_thread_lookup, decide_False in W5 by done.
    destruct (moved_error _ _ _ W5 Ex) as (xth' & ? & ?). exists xth'. split; [done|congruence].
Qed.

Lemma block_spec k t th h flag timeout f :
  kwf k -> running k t th -> wait_head h -> flag_ok flag -> timeout < HALF -> clean_update f ->
  exists k', wait h t flag timeout (upd_thread t f k) = Some (tt, k') /\ blocked k k' h t flag timeout f.
Proof. intros H Hr Hh Hf. apply (block_in_spec _ k t th); [done..|]. by apply list_suspend_suspends. Qed.

Lemma woken_clean k k' h t h' : woken k k' h t -> wait_head h' -> waiters_clean k h' -> waiters_clean k' h'.
Proof.
  intros W Hh' Hc s Hs.
  assert (s ∈ k_lists k h') as Hin.
  { destruct (decide (h' = h)) as [->|Hne]; [rewrite (wk_list _ _ _ _ W) in Hs; by apply elem_of_lremove in Hs as []|].
    by rewrite (wk_other _ _ _ _ W) in Hs by (done || by apply wait_not_ready). }
  destruct (Hc s Hin) as (th & E & He). destruct (decide (s = t)) as [->|Hn].
  - destruct (wk_thread _ _ _ _ W) as (th' & st & E' & -> & _). simplify_eq. eauto.
  - destruct (moved_error _ _ _ (wk_threads _ _ _ _ W s Hn) E) as (th' & ? & ?). exists th'. split; [done|congruence].
Qed.

(** A thread woken from a clean list finds no error. *)
Lemma woken_error k k' h t : woken k k' h t -> waiters_clean k h ->
  exists th, k_threads k' !! t = Some th /\ awake th /\ th_error th = RT_EOK.
Proof.
  intros W Hc. destruct (Hc t) as (th & E & He); [apply W|].
  destruct (wk_thread _ _ _ _ W) as (th' & s & E' & Es & Ha). simplify_eq. eauto.
Qed.

(** A clear error is kept by updates that do not look at the lists. *)
Lemma clean_upd k t f h : (forall th, th_error (f th) = RT_EOK) -> waiters_clean k h -> waiters_clean (upd_thread t f k) h.
Proof.
  intros Hf Hc s Hs. destruct (Hc s Hs) as (th & E & He). rewrite upd_thread_lookup.
  case_decide; [subst; rewrite E; eexists; split; [done|apply Hf]|eauto].
Qed.

(** ** Waking one waiter, if there is one *)

(** [if (!rt_list_isempty(list)) { rt_ipc_list_resume(list); ... rt_schedule(); }] *)
Definition resume_if_waiting (h : lhead) : KM unit :=
  e ← list_isempty h;
  if (e : bool) then mret tt
  else _ ← rt_ipc_list_resume h; rt_schedule.

Record notified (k k' : kstate) (h : lhead) : Prop := Notified {
  nt_kwf : kwf k';
  nt_list : k_lists k' h = tail (k_lists k h);
  nt_other h' : (forall p, h' <> LReady p) -> h' <> h -> k_lists k' h' = k_lists k h';
  nt_objects : objects k' = objects k;
  nt_clean h' : wait_head h' -> waiters_clean k h' -> waiters_clean k' h';
  nt_woken t l : k_lists k h = t :: l -> waiters_clean k h ->
    exists th, k_threads k' !! t = Some th /\ awake th /\ th_error th = RT_EOK;
  nt_tick : k_tick k' = k_tick k
}.

(** The first waiter of [h], if there is one, has left it and is ready. *)
Definition first_woken (k k' : kstate) (h : lhead) : Prop :=
  k_lists k' h = tail (k_lists k h) /\
  forall w l, k_lists k h = w :: l -> exists th, k_threads k' !! w = Some th /\ awake th /\ th_error th = RT_EOK.

Lemma notified_woken k k' h : notified k k' h -> waiters_clean k h -> first_woken k k' h.
Proof. intros N Hc. split; [apply N|]. intros w l El. by apply (nt_woken _ _ _ N w l). Qed.

Lemma resume_if_waiting_spec k h :
  kwf k -> wait_head h -> is_Some (k_current k) ->
  exists k', resume_if_waiting h k = Some (tt, k') /\ notified k k' h.
Proof.
  intros H Hh Hc. unfold resume_if_waiting. munfold. destruct (k_lists k h) as [|t l] eqn:El.
  - rewrite bool_decide_true by done. exists k. split; [done|]. split; try done; [by rewrite El|].
    intros t l. by rewrite El.
  - rewrite bool_decide_false by done.
    destruct (resume_and_schedule k h t l H Hh El Hc) as (k1 & k' & E1 & E' & W).
    exists k'. split; [by rewrite E1|]. split.
    + apply W.
    + rewrite El. by apply (woken_head k k' h t l).
    + apply W.
    + apply W.
    + intros. by eapply woken_clean.
    + intros x l' Ex Hcl. rewrite El in Ex. injection Ex as <- <-. by eapply woken_error.
    + apply W.
Qed.

Lemma moved_awake o o' : thread_moved o o' -> forall th, o = Some th -> awake th ->
  exists th', o' = Some th' /\ awake th' /\ th_error th' = th_error th /\ th_event_set th' = th_event_set th.
Proof.
  intros Hm th E Ha. destruct (moved_base _ _ Hm _ E) as (s & -> & Hs). eexists. split; [done|].
  destruct Hs as [Hs|[_ Hs]]; [|done]. split; [|done]. unfold awake. by rewrite Hs.
Qed.

Lemma clean_moved k k' h : (forall t, thread_moved (k_threads k !! t) (k_threads k' !! t)) ->
  k_lists k' h = k_lists k h -> waiters_clean k h -> waiters_clean k' h.
Proof.
  intros Hm El Hc t. rewrite El. intros Hin. destruct (Hc t Hin) as (th & E & He).
  destruct (moved_error _ _ _ (Hm t) E) as (th' & ? & ?). exists th'. split; [done|congruence].
Qed.

(** Rescheduling, if it is needed. *)
Lemma maybe_schedule (b : bool) k : kwf k -> is_Some (k_current k) ->
  exists k', when b rt_schedule k = Some (tt, k') /\ kwf k' /\ objects k' = objects k /\
    (forall h, (forall p, h <> LReady p) -> k_lists k' h = k_lists k h) /\
    (forall t, thread_moved (k_threads k !! t) (k_threads k' !! t)).
Proof.
  intros H Hc. destruct b; [|exists k; split_and!; try done; by left].
  destruct (rt_schedule_kwf k H Hc) as (k' & E & H' & S). exists k'. split_and!; try done; [|apply S|apply S].
  apply rest_objects, S.
Qed.

(** Emptying a list that is empty changes nothing. *)
Lemma kwf_empty_list h k : kwf k -> k_lists k h = [] -> kwf (with_lists (fun ls => <[h := []]> ls) k).
Proof.
  intros H E. assert (forall h', k_lists (with_lists (fun ls => <[h := []]> ls) k) h' = k_lists k h') as El.
  { intros h'. simpl. destruct (decide (h = h')) as [<-|]; [by rewrite fn_lookup_insert|by rewrite fn_lookup_insert_ne]. }
  destruct H as [[[W1 W2 W3 W4 W5 W6 W7 W8] [C1 C2]] T1 T2 T3 T4]. split; [|by apply (timers_ok_ext k)|done..].
  split; split; try done.
  - intros h'. by rewrite El.
  - intros h1 h2 t. rewrite !El. apply W2.
  - intros h' t. rewrite El. apply W3.
  - intros p t th. rewrite El. apply W4.
  - intros t th Et HX Hs. rewrite El. by apply W5.
  - intros p Hp. rewrite El. by apply W8.
Qed.

(** ** Rescheduling and the scheduler lock *)

(** Threads may have moved between READY and RUNNING; nothing else is changed,
    apart from the scheduler lock. *)
Record rescheduled (k k' : kstate) : Prop := Rescheduled {
  rs_wf : wf k';
  rs_objects : objects k' = objects k;
  rs_waits h : (forall p, h <> LReady p) -> k_lists k' h = k_lists k h;
  rs_threads t : thread_moved (k_threads k !! t) (k_threads k' !! t);
  rs_current : is_Some (k_current k) -> is_Some (k_current k');
  rs_who c : k_current k' = Some c -> k_current k = Some c \/ exists cth, k_threads k' !! c = Some cth /\ awake cth;
  rs_boot : k_current k = None -> k_current k' = None /\ k_threads k' = k_threads k /\ k_lists k' = k_lists k;
  rs_tick : k_tick k' = k_tick k;
  rs_irq : k_irq_nest k' = k_irq_nest k;
  rs_timers : k_timer k' = k_timer k /\ k_timer_list k' = k_timer_list k
}.

Lemma rescheduled_trans k1 k2 k3 : rescheduled k1 k2 -> rescheduled k2 k3 -> rescheduled k1 k3.
Proof.
  intros [A1 A2 A3 A4 A5 AW A6 A7 A8 [A9 A10]] [B1 B2 B3 B4 B5 BW B6 B7 B8 [B9 B10]].
  split; try done; [congruence| | |tauto| | |congruence..|split; congruence].
  - intros h Hh. rewrite B3 by done. by apply A3.
  - intros t. by eapply thread_moved_trans.
  - intros c Hc. destruct (BW c Hc) as [Hc2|]; [|by right]. destruct (AW c Hc2) as [|(cth & E & Ha)]; [by left|right].
    destruct (moved_awake _ _ (B4 c) _ E Ha) as (cth' & ? & ? & _). by exists cth'.
  - intros Hc. destruct (A6 Hc) as (E1 & E2 & E3). destruct (B6 E1) as (? & ? & ?). split_and!; [done|congruence..].
Qed.

Lemma rs_kwf k k' : rescheduled k k' -> kwf k -> kwf k'.
Proof.
  intros [R1 R2 R3 R4 R5 RW R6 R7 R8 [R9 R10]] H. split; [done|by apply (timers_ok_ext k), H|rewrite R7; apply H| |].
  - intros t th E Hn. destruct (moved_back _ _ (R4 t) _ E) as (th0 & E0 & Eth & Hs).
    destruct (kwf_attached _ H t th0 E0) as [Ha Htm].
    + destruct Hs as [Hs|[Hs _]]; [by rewrite <- Hs|by apply awake_not_suspended].
    + rewrite Eth, R9. done.
  - intros t. rewrite R10. intros Hin. destruct (kwf_suspended _ H t Hin) as (th & E & Hs).
    destruct (moved_base _ _ (R4 t) _ E) as (s & E' & [Hs'|[Hs' _]]).
    + exists (with_stat s th). split; [done|congruence].
    + apply awake_not_suspended in Hs' as []. congruence.
Qed.

Lemma rescheduled_lock k f : wf k -> rescheduled k (with_lock_nest f k).
Proof. intros H. split; try done; [by apply (wf_ext k)|by left|by left]. Qed.

(** Whom [rt_schedule] switches to is running. *)
Lemma schedule_who k k' c : wf k -> rt_schedule k = Some (tt, k') -> k_current k' = Some c ->
  k_current k = Some c \/ exists cth, k_threads k' !! c = Some cth /\ awake cth.
Proof.
  intros H E Hc. destruct (decide (k_lock_nest k = 0 /\ k_ready_group k <> 0)) as [[Hl Hg]|Hn].
  - destruct (k_current k) as [cur|] eqn:Ec.
    + destruct (wf_cur _ (proj2 H) _ Ec) as (cth & Et & _).
      destruct (rt_schedule_spec k cur cth H Hl Ec Et ltac:(by right)) as (k2 & to & tth & E2 & P & _). rewrite E in E2. injection E2 as <-.
      rewrite (sp_current _ _ _ _ _ P) in Hc. injection Hc as <-. right. exists tth. split; [apply P|]. right. apply P.
    + exfalso. revert E. unfold rt_schedule, _get_highest_priority_thread. munfold. rewrite decide_True by done.
      destruct (head _); [|done]. by rewrite Ec.
  - left. revert E. unfold rt_schedule. munfold. rewrite decide_False by done. by intros [= ->].
Qed.

Lemma rescheduled_schedule k : wf k -> is_Some (k_current k) -> exists k', rt_schedule k = Some (tt, k') /\ rescheduled k k'.
Proof.
  intros H Hc. destruct (rt_schedule_wf k H Hc) as (k' & E & H' & S). exists k'. split; [done|].
  destruct (rest_inj _ _ (sw_rest _ _ S)) as (S1 & S2 & S3 & S4 & S5 & _).
  split; try done; [by apply rest_objects, S|apply S|apply S|intros _; apply S|intros c; by apply schedule_who|].
  intros En. rewrite En in Hc. by destruct Hc.
Qed.

(** Leaving a critical section reschedules when it was the outermost one. *)
Lemma rescheduled_exit k : wf k -> exists k', rt_exit_critical k = Some (tt, k') /\ rescheduled k k'.
Proof.
  intros H. unfold rt_exit_critical. munfold. set (k1 := with_lock_nest _ k).
  assert (rescheduled k k1) as H1 by (by apply rescheduled_lock).
  destruct (decide (k_lock_nest k1 <= 0)) as [Hd|Hd]; [|by exists k1].
  set (k2 := with_lock_nest (fun _ => 0) k1). assert (rescheduled k1 k2) as H2 by (by apply rescheduled_lock, H1).
  pose proof (rescheduled_trans _ _ _ H1 H2) as H12. case_bool_decide as Hc; [|by exists k2].
  destruct (rescheduled_schedule k2) as (k3 & E & H3); [apply H2|done|].
  exists k3. split; [done|]. by eapply rescheduled_trans.
Qed.

(** [if (rt_thread_self() != RT_NULL) rt_schedule();] *)
Lemma rescheduled_if_running k : wf k ->
  exists k', when (bool_decide (is_Some (k_current k))) rt_schedule k = Some (tt, k') /\ rescheduled k k' /\ (k_current k = None -> k' = k).
Proof.
  intros H. case_bool_decide as Hc; [|exists k; split_and!; try done; split; try done; auto; by left].
  destruct (rescheduled_schedule k H Hc) as (k' & ? & ?). exists k'. split_and!; [done|done|].
  intros En. rewrite En in Hc. by destruct Hc.
Qed.

(** A thread that has been woken stays awake with its error. *)
Lemma rescheduled_awake k k' t th : rescheduled k k' -> k_threads k !! t = Some th -> awake th ->
  exists th', k_threads k' !! t = Some th' /\ awake th' /\ th_error th' = th_error th.
Proof.
  intros R E Ha. destruct (moved_awake _ _ (rs_threads _ _ R t) _ E Ha) as (th' & ? & ? & ? & _). by exists th'.
Qed.
