(* ===== verification/Demo.v ===== *)
(** * Demo: a concrete kernel state

    Three threads: 0 runs at priority 10, 1 is ready at priority 31 (the idle
    thread), 2 has priority 5 and waits in the list [LSuspend 7] with a timer of
    three ticks.  [demo] satisfies the kernel invariant; the witnesses of the
    theorems are stated on it. *)

From Stdlib Require Import Sorted.
From S2P Require Import Kernel Sched Timer Thread Ipc.

Definition demo_thread (stat prio : Z) : thread :=
  Thread true true false RT_EOK stat prio prio (2 ^ prio) 0 0 10 10.

Definition demo_timer (t : tid) (flag timeout : Z) : timer :=
  Timer true flag timeout timeout (TF_thread_timeout t).

Definition demo_lists (h : lhead) : list tid :=
  match h with
  | LReady p => if decide (p = 31) then [1%nat] else []
  | LSuspend o => if decide (o = 7%nat) then [2%nat] else []
  | _ => []
  end.

Definition demo : kstate := {|
  k_threads := <[0%nat := demo_thread RT_THREAD_RUNNING 10]>
    (<[1%nat := demo_thread RT_THREAD_READY 31]> (<[2%nat := demo_thread RT_THREAD_SUSPEND 5]> ∅));
  k_lists := demo_lists;
  k_ready_group := 2 ^ 31;
  k_current := Some 0%nat;
  k_current_priority := 10;
  k_lock_nest := 0;
  k_irq_nest := 0;
  k_tick := 0;
  k_timer := <[ThreadTimer 0 := demo_timer 0 0 0]> (<[ThreadTimer 1 := demo_timer 1 0 0]>
    (<[ThreadTimer 2 := demo_timer 2 RT_TIMER_FLAG_ACTIVATED 3]> ∅));
  k_timer_list := [ThreadTimer 2];
  k_sems := ∅; k_mutexes := ∅; k_events := ∅; k_mbs := ∅; k_mqs := ∅; k_mps := ∅; k_dipc := ∅
|}.

Lemma demo_threads t th : k_threads demo !! t = Some th ->
  (t = 0%nat /\ th = demo_thread RT_THREAD_RUNNING 10) \/
  (t = 1%nat /\ th = demo_thread RT_THREAD_READY 31) \/
  (t = 2%nat /\ th = demo_thread RT_THREAD_SUSPEND 5).
Proof.
  simpl. rewrite !lookup_insert_Some, lookup_empty. naive_solver.
Qed.

Lemma demo_in h t : t ∈ demo_lists h -> (h = LReady 31 /\ t = 1%nat) \/ (h = LSuspend 7 /\ t = 2%nat).
Proof.
  destruct h; simpl; try (by intros ?%elem_of_nil).
  - case_decide; [subst|by intros ?%elem_of_nil]. intros ->%list_elem_of_singleton. by left.
  - case_decide; [subst|by intros ?%elem_of_nil]. intros ->%list_elem_of_singleton. by right.
Qed.

Lemma demo_wf : wf demo.
Proof.
  split; split.
  - intros h. change (NoDup (demo_lists h)). destruct h; simpl; repeat case_decide; repeat constructor; set_solver.
  - intros h h' t H1%demo_in H2%demo_in. naive_solver.
  - intros h t H%demo_in. split; [set_solver|]. destruct H as [[-> ->]|[-> ->]]; eexists; done.
  - intros p t th H%demo_in E%demo_threads. naive_solver.
  - intros t th E%demo_threads _ Hs. destruct E as [[-> ->]|[[-> ->]|[-> ->]]]; try done. simpl. left.
  - intros t th E%demo_threads. destruct E as [[-> ->]|[[-> ->]|[-> ->]]]; done.
  - done.
  - intros p Hp. change (Z.testbit (2 ^ 31) p = true <-> demo_lists (LReady p) <> []).
    unfold RT_THREAD_PRIORITY_MAX in Hp. rewrite testbit_pow2 by lia. simpl.
    case_decide; case_bool_decide; subst; done.
  - intros t [= <-]. eexists. done.
  - intros t th E%demo_threads Hs. destruct E as [[-> ->]|[[-> ->]|[-> ->]]]; done.
Qed.

Lemma demo_kwf : kwf demo.
Proof.
  split.
  - apply demo_wf.
  - split.
    + repeat constructor. set_solver.
    + intros i. change (i ∈ [ThreadTimer 2] <-> exists t, k_timer demo !! i = Some t /\ activated t = true).
      rewrite list_elem_of_singleton. split.
      * intros ->. eexists. done.
      * simpl. intros (t & E & Ha). rewrite !lookup_insert_Some, lookup_empty in E. naive_solver.
    + intros i. change (i ∈ [ThreadTimer 2] -> ticks_to 0 (timeout_of demo i) < HALF).
      intros ->%list_elem_of_singleton. done.
    + repeat constructor.
  - done.
  - intros t th E%demo_threads _. destruct E as [[-> ->]|[[-> ->]|[-> ->]]]; (split; [done|]); eexists; done.
  - intros t. change (ThreadTimer t ∈ [ThreadTimer 2] -> exists th, k_threads demo !! t = Some th /\ stat_base th = RT_THREAD_SUSPEND).
    intros [= ->]%list_elem_of_singleton. eexists. done.
Qed.

Lemma demo_running : running demo 0 (demo_thread RT_THREAD_RUNNING 10).
Proof. done. Qed.

(** The same kernel with objects. *)
Definition demo_with (s : gmap oid semaphore) (m : gmap oid mutex) (e : gmap oid event)
    (b : gmap oid mailbox) (q : gmap oid messagequeue) : kstate :=
  with_sems (fun _ => s) (with_mutexes (fun _ => m) (with_events (fun _ => e)
    (with_mbs (fun _ => b) (with_mqs (fun _ => q) demo)))).

Lemma demo_with_kwf s m e b q : kwf (demo_with s m e b q).
Proof. apply (kwf_objects demo); [done..|]. apply demo_kwf. Qed.

(** No wait of the demo state has failed. *)
Lemma demo_clean s m e b q h : waiters_clean (demo_with s m e b q) h.
Proof.
  intros t Ht. change (t ∈ demo_lists h) in Ht. destruct (demo_in h t Ht) as [[-> ->]|[-> ->]]; eexists; done.
Qed.
