(* ===== verification/KernelProps.v ===== *)
(** * KernelProps: scheduling and time

    What the kernel files promise together: which thread runs, how the ready
    threads of one priority take turns, in which order timers and waiters are
    queued, and when a sleeping thread runs again. *)

From Stdlib Require Import Sorted.
From S2P Require Import Kernel Sched Object Timer Thread Clock Ipc Demo.

(** ** The scheduler *)

(** [__rt_ffs] returns 0 for 0 and otherwise one plus the index of the
    lowest set bit of a 32-bit word. *)
Theorem rt_ffs_lowest_bit v : 0 <= v < 2 ^ 32 ->
  if decide (v = 0) then __rt_ffs v = 0
  else 1 <= __rt_ffs v <= 32 /\ Z.testbit v (__rt_ffs v - 1) = true /\
       forall i, 0 <= i < __rt_ffs v - 1 -> Z.testbit v i = false.
Proof.
  intros Hv. case_decide as H0; [by subst|]. destruct (rt_ffs_spec v) as [(H1 & H2 & H3) H4]; [lia|].
  split; [lia|done].
Qed.

Lemma rt_ffs_lowest_bit_witness : 0 <= 0x50000 < 2 ^ 32 /\ __rt_ffs 0x50000 = 17 /\ Z.testbit 0x50000 (__rt_ffs 0x50000 - 1) = true.
Proof.
  pose proof (rt_ffs_lowest_bit 0x50000 ltac:(lia)) as H. rewrite decide_False in H by lia.
  split; [lia|]. split; [reflexivity|apply H].
Defined.

(** C19: [rt_schedule], called by the running thread with the scheduler
    unlocked, preserves the kernel invariant and ends with a running thread such
    that no ready or running thread has a higher priority (a smaller number);
    threads that wait for something stay where they are. *)
Theorem rt_schedule_runs_highest k cur cth :
  kwf k -> running k cur cth -> k_lock_nest k = 0 ->
  exists k' to tth, rt_schedule k = Some (tt, k') /\ kwf k' /\ running k' to tth /\
    (forall t th, k_threads k' !! t = Some th -> awake th -> th_current_priority tth <= th_current_priority th) /\
    (forall h, (forall p, h <> LReady p) -> k_lists k' h = k_lists k h).
Proof.
  intros H (Hc & E & Hs) Hl.
  destruct (rt_schedule_spec k cur cth (kwf_sched _ H) Hl Hc E (or_introl Hs)) as (k' & to & tth & Ek & P & _).
  destruct (rt_schedule_kwf k H ltac:(eauto)) as (k2 & Ek2 & H' & _). rewrite Ek in Ek2. injection Ek2 as <-.
  exists k', to, tth. split; [done|]. split; [done|].
  split; [split_and!; apply P|]. split; [|apply P].
  intros t th Et [Ha|Ha].
  - apply (sp_highest _ _ _ _ _ P _ t). by apply (wf_ready_in _ _ (proj1 (sp_wf _ _ _ _ _ P))); [|set_solver|].
  - pose proof (wf_running _ (proj2 (sp_wf _ _ _ _ _ P)) _ _ Et Ha) as Ec.
    rewrite (sp_current _ _ _ _ _ P) in Ec. injection Ec as ->. rewrite (sp_thread _ _ _ _ _ P) in Et.
    injection Et as ->. done.
Qed.

(** The running thread has priority 10, the only ready one is the idle thread. *)
Lemma rt_schedule_runs_highest_witness : exists k' to tth,
  rt_schedule demo = Some (tt, k') /\ kwf k' /\ running k' to tth.
Proof.
  destruct (rt_schedule_runs_highest demo 0 (demo_thread RT_THREAD_RUNNING 10)) as (k' & to & tth & E & H & Hr & _);
    [apply demo_kwf|apply demo_running|done|].
  by exists k', to, tth.
Defined.

(** With the YIELD flag the current thread goes behind the threads of its priority. *)
Lemma schedule_rotates k cur cth to ts :
  wf k -> running k cur cth -> k_lock_nest k = 0 -> yield_flag cth = true ->
  k_lists k (LReady (th_current_priority cth)) = to :: ts ->
  (forall p t, t ∈ k_lists k (LReady p) -> th_current_priority cth <= p) ->
  exists k' th', rt_schedule k = Some (tt, k') /\ k_current k' = Some to /\
    k_lists k' (LReady (th_current_priority cth)) = ts ++ [cur] /\
    k_threads k' !! cur = Some th' /\ stat_base th' = RT_THREAD_READY /\
    th_remaining_tick th' = th_remaining_tick cth /\ yield_flag th' = false.
Proof.
  intros Hwf (Ec & Et & Hr) Hlk Hy El Hall. pose proof Hwf as [Hl Hc].
  assert (k_ready_group k <> 0) as Hg.
  { intros Hg. destruct (wf_prio _ _ Hl _ _ Et) as [Hp _]. pose proof (wf_group _ _ Hl _ Hp) as Hb.
    rewrite Hg, Z.testbit_0_l, El in Hb. by assert (false = true) by (by apply Hb). }
  unfold rt_schedule. munfold. rewrite Hlk, decide_True by done.
  destruct (get_highest_spec _ _ Hl Hg) as (to' & ts' & hp & tth & Eg & Hhp & El' & Ett & Hst & Hpt & Hmin).
  assert (hp = th_current_priority cth) as ->.
  { assert (hp <= th_current_priority cth) by (apply (Hmin _ to); rewrite El; left).
    assert (th_current_priority cth <= hp) by (apply (Hall _ to'); rewrite El'; left). lia. }
  rewrite El in El'. injection El' as <- <-.
  assert (to <> cur) as Hne.
  { intros ->. destruct (wf_cur _ Hc _ Ec) as (th' & E & Hn). by simplify_eq. }
  rewrite Eg, Ec, (schedule_choice_eval _ _ _ _ _ Et), decide_True by done.
  rewrite decide_False by (rewrite Hy; intros [?|[? ?]]; [lia|done]). cbn [fst snd]. rewrite decide_True by done.
  set (p := th_current_priority cth) in *.
  rewrite (insert_thread_eval cur (clear_yield cth)); [|simpl; by rewrite lookup_alter_eq, Et|simpl; congruence].
  fold (requeue cur to p cth k).
  destruct (requeue_wf k cur cth to p Hwf Ec Et Hr) as (Hw & Ecur & E & _).
  rewrite (remove_thread_eval to tth) by (by rewrite E).
  assert (k_threads (remove_ready to tth (requeue cur to p cth k)) = k_threads (requeue cur to p cth k)) as Eth
    by (unfold remove_ready; by case_decide).
  assert (NoDup (to :: ts)) as Hnd by (rewrite <- El; apply (wf_nodup _ _ Hl)).
  apply NoDup_cons in Hnd as [Hnt _].
  rewrite Eth, E, Ett by done. eexists _, _. split; [done|]. split; [unfold remove_ready; by case_decide|]. split.
  { transitivity (lremove to (k_lists (requeue cur to p cth k) (LReady p))); [simpl; unfold remove_ready; by case_decide|].
    unfold requeue. rewrite insert_ready_lists, decide_True by done. simpl. rewrite El.
    rewrite lremove_app, lremove_cons_eq, (lremove_notin to [cur]) by (done || set_solver). done. }
  split; [simpl; rewrite lookup_alter_ne, Eth by done; exact Ecur|].
  autorewrite with kstat. split; [done|]. split; [done|]. by autorewrite with kstat.
Qed.

(** When the time slice of the running thread ends, the next ready thread
    of its priority runs, and the preempted one goes to the end of the queue of
    its priority with its slice reloaded. *)
Theorem time_slice_round_robin k cur cth to ts :
  kwf k -> running k cur cth -> k_lock_nest k = 0 -> th_remaining_tick cth = 1 ->
  k_lists k (LReady (th_current_priority cth)) = to :: ts ->
  (forall p t, t ∈ k_lists k (LReady p) -> th_current_priority cth <= p) ->
  exists k' th', check_time_slice k = Some (tt, k') /\ k_current k' = Some to /\
    k_lists k' (LReady (th_current_priority cth)) = ts ++ [cur] /\
    k_threads k' !! cur = Some th' /\ stat_base th' = RT_THREAD_READY /\ th_remaining_tick th' = th_init_tick cth.
Proof.
  intros H (Ec & Et & Hr) Hlk Hrem El Hall.
  set (f1 := fun th => with_remaining_tick (u32 (th_remaining_tick th - 1)) th).
  set (f2 := fun th => set_yield (with_remaining_tick (th_init_tick th) th)).
  set (k2 := upd_thread cur f2 (upd_thread cur f1 k)).
  assert (k_threads (upd_thread cur f1 k) !! cur = Some (f1 cth)) as E1
    by (rewrite upd_thread_lookup, decide_True by done; by rewrite Et).
  assert (k_threads k2 !! cur = Some (f2 (f1 cth))) as E2
    by (unfold k2; rewrite upd_thread_lookup, decide_True by done; by rewrite E1).
  assert (wf k2) as H2.
  { unfold k2. apply wf_upd_keep; [apply keeps_yield|]. apply wf_upd_keep; [apply keeps_remaining|apply H]. }
  destruct (schedule_rotates k2 cur (f2 (f1 cth)) to ts H2) as (k' & th' & E' & Hc' & Hl' & Eth' & Hs' & Hrt & _);
    try done.
  { split_and!; [done|done|]. unfold f2. by autorewrite with kstat. }
  { unfold yield_flag, f2, set_yield, with_stat, RT_THREAD_STAT_YIELD. simpl. apply bool_decide_true.
    change 8 with (2 ^ 3). rewrite land_pow2_nonzero, Z.lor_spec, testbit_pow2, bool_decide_true by lia. apply orb_true_r. }
  exists k', th'. split; [|done]. unfold check_time_slice. munfold. rewrite Ec, Et.
  fold f1. fold (upd_thread cur f1 k). rewrite E1. cbn [f1 with_remaining_tick th_remaining_tick]. rewrite Hrem.
  rewrite bool_decide_true by done. rewrite E1. fold f2. fold (upd_thread cur f2 (upd_thread cur f1 k)). fold k2.
  unfold rt_thread_yield. munfold. by rewrite E'.
Qed.

(** Two threads of one priority: the demo state with thread 1 at priority 10. *)
Definition demo_pair : kstate :=
  with_ready_group (fun _ => 2 ^ 10) (with_lists (fun ls h => match h with
    | LReady p => if decide (p = 10) then [1%nat] else []
    | _ => ls h end) (upd_thread 1 (fun _ => demo_thread RT_THREAD_READY 10)
      (upd_thread 0 (with_remaining_tick 1) demo))).

Lemma demo_pair_threads t th : k_threads demo_pair !! t = Some th ->
  (t = 0%nat /\ th = with_remaining_tick 1 (demo_thread RT_THREAD_RUNNING 10)) \/
  (t = 1%nat /\ th = demo_thread RT_THREAD_READY 10) \/
  (t = 2%nat /\ th = demo_thread RT_THREAD_SUSPEND 5).
Proof.
  unfold demo_pair. simpl. intros E.
  destruct (decide (t = 1%nat)) as [->|]; [rewrite lookup_alter_eq in E|rewrite lookup_alter_ne in E by done].
  { right; left. split; [done|]. vm_compute in E. by injection E as <-. }
  destruct (decide (t = 0%nat)) as [->|]; [rewrite lookup_alter_eq in E|rewrite lookup_alter_ne in E by done].
  { left. split; [done|]. vm_compute in E. by injection E as <-. }
  apply (demo_threads t) in E. naive_solver.
Qed.

Lemma demo_pair_in h t : t ∈ k_lists demo_pair h -> (h = LReady 10 /\ t = 1%nat) \/ (h = LSuspend 7 /\ t = 2%nat).
Proof.
  destruct h; simpl; try (by intros ?%elem_of_nil).
  - case_decide; [subst|by intros ?%elem_of_nil]. intros ->%list_elem_of_singleton. by left.
  - intros [[??]|[??]]%(demo_in (LSuspend _)); [done|by right].
Qed.

Lemma demo_pair_kwf : kwf demo_pair.
Proof.
  pose proof demo_kwf as [_ [T1 T2 T3 T4] _ _ _]. split.
  - split; split.
    + intros h. destruct h; simpl; repeat case_decide; repeat constructor; set_solver.
    + intros h h' t H1%demo_pair_in H2%demo_pair_in. naive_solver.
    + intros h t H%demo_pair_in. split; [set_solver|]. destruct H as [[-> ->]|[-> ->]]; eexists; done.
    + intros p t th H%demo_pair_in E%demo_pair_threads. naive_solver.
    + intros t th E%demo_pair_threads _ Hs. destruct E as [[-> ->]|[[-> ->]|[-> ->]]]; try done. simpl. left.
    + intros t th E%demo_pair_threads. destruct E as [[-> ->]|[[-> ->]|[-> ->]]]; done.
    + done.
    + intros p Hp. cbn [k_ready_group demo_pair with_ready_group]. unfold RT_THREAD_PRIORITY_MAX in Hp.
      rewrite testbit_pow2 by lia. simpl. case_decide; case_bool_decide; subst; done.
    + intros t [= <-]. eexists. done.
    + intros t th E%demo_pair_threads Hs. destruct E as [[-> ->]|[[-> ->]|[-> ->]]]; done.
  - by apply (timers_ok_ext demo).
  - done.
  - intros t th E%demo_pair_threads _. destruct E as [[-> ->]|[[-> ->]|[-> ->]]]; (split; [done|]); eexists; done.
  - intros t. change (ThreadTimer t ∈ [ThreadTimer 2] -> exists th, k_threads demo_pair !! t = Some th /\ stat_base th = RT_THREAD_SUSPEND).
    intros [= ->]%list_elem_of_singleton. eexists. done.
Qed.

Lemma time_slice_round_robin_witness : exists k',
  check_time_slice demo_pair = Some (tt, k') /\ k_current k' = Some 1%nat /\ k_lists k' (LReady 10) = [0%nat].
Proof.
  destruct (time_slice_round_robin demo_pair 0 (with_remaining_tick 1 (demo_thread RT_THREAD_RUNNING 10)) 1 [])
    as (k' & th' & E & Hc & Hl & _); [apply demo_pair_kwf|done|done|done|done| |by exists k'].
  intros p t [[[= ->] _]|[? _]]%demo_pair_in; done.
Defined.

(** [rt_thread_yield] does not give up the processor: as long as no ready
    thread has a higher priority the caller goes on running and the ready queues
    do not change, even if threads of its own priority are ready. *)
Theorem rt_thread_yield_keeps_running k cur cth :
  kwf k -> running k cur cth -> k_lock_nest k = 0 -> yield_flag cth = false ->
  (forall p t, t ∈ k_lists k (LReady p) -> th_current_priority cth <= p) ->
  exists k', rt_thread_yield k = Some (RT_EOK, k') /\ k_current k' = Some cur /\
    forall h, k_lists k' h = k_lists k h.
Proof.
  intros H (Hc & E & Hs) Hl Hy Hall.
  destruct (rt_schedule_spec k cur cth (kwf_sched _ H) Hl Hc E (or_introl Hs)) as (k' & to & tth & Ek & P & Hsame).
  destruct (Hsame Hs Hy Hall) as [-> Hls]. exists k'. split; [|split; [apply P|done]].
  unfold rt_thread_yield. munfold. by rewrite Ek.
Qed.

(** Thread 1 is ready at the same priority, and stays ready. *)
Lemma rt_thread_yield_keeps_running_witness : exists k',
  rt_thread_yield demo_pair = Some (RT_EOK, k') /\ k_current k' = Some 0%nat /\ k_lists k' (LReady 10) = [1%nat].
Proof.
  destruct (rt_thread_yield_keeps_running demo_pair 0 (with_remaining_tick 1 (demo_thread RT_THREAD_RUNNING 10)))
    as (k' & E & Hc & Hl); [apply demo_pair_kwf|done|done|done| |].
  { intros p t [[[= ->] _]|[? _]]%demo_pair_in; done. }
  exists k'. by rewrite Hl.
Defined.

(** ** Timers *)

Lemma insert_by_split key i l : sorted_by key l -> exists l1 l2, l = l1 ++ l2 /\ insert_by key i l = l1 ++ i :: l2 /\
  (forall j, j ∈ l1 -> key j <= key i) /\ (forall j, j ∈ l2 -> key i < key j).
Proof.
  unfold sorted_by. induction l as [|p l IH]; intros Hs; simpl.
  - exists [], []. split_and!; try done; by intros j ?%elem_of_nil.
  - apply StronglySorted_inv in Hs as [Hs Hp]. destruct (IH Hs) as (l1 & l2 & -> & E & H1 & H2). case_decide as Hd.
    + exists (p :: l1), l2. rewrite E. split_and!; try done. intros j [->|Hj]%elem_of_cons; [done|by apply H1].
    + exists [], (p :: l1 ++ l2). split_and!; try done; [by intros j ?%elem_of_nil|].
      rewrite Forall_forall in Hp. intros j [->|Hj]%elem_of_cons; [lia|]. specialize (Hp j Hj). lia.
Qed.

(** [rt_timer_start] puts the timer behind every timer due no later and in
    front of every timer due later, counted from now in circular arithmetic, and
    changes no other deadline; with [init_tick] of 0x7fffffff or more it stops
    in its assertion. *)
Theorem rt_timer_start_sorted k i t :
  timers_ok k -> in_range 32 (k_tick k) -> k_timer k !! i = Some t -> 0 <= tm_init_tick t ->
  if decide (tm_init_tick t < HALF) then
    exists k' l1 l2, rt_timer_start i k = Some (RT_EOK, k') /\ timers_ok k' /\
      due_key k' i = tm_init_tick t /\ (forall j, j <> i -> due_key k' j = due_key k j) /\
      lremove i (k_timer_list k) = l1 ++ l2 /\ k_timer_list k' = l1 ++ i :: l2 /\
      (forall j, j ∈ l1 -> due_key k j <= tm_init_tick t) /\ (forall j, j ∈ l2 -> tm_init_tick t < due_key k j)
  else rt_timer_start i k = None.
Proof.
  intros Hok Hk E Hi. case_decide as Hd.
  - destruct (tm_started_spec i t k Hok ltac:(lia) Hk) as (Hok' & Hdue & Hoth & Hl).
    set (k' := tm_started i t k) in *.
    assert (forall j, j ∈ lremove i (k_timer_list k) -> due_key k' j = due_key k j) as Hsame.
    { intros j [Hj _]%elem_of_lremove. by apply Hoth. }
    destruct (insert_by_split (due_key k') i (lremove i (k_timer_list k))) as (l1 & l2 & E1 & E2 & H1 & H2).
    { eapply sorted_ext; [exact Hsame|]. apply sorted_lremove, Hok. }
    exists k', l1, l2. rewrite Hdue in H1, H2. rewrite E1 in Hsame.
    split; [by apply rt_timer_start_eval|]. split_and!; try done; [by rewrite Hl, E2| |].
    + intros j Hj. rewrite <- Hsame by set_solver. by apply H1.
    + intros j Hj. rewrite <- Hsame by set_solver. by apply H2.
  - unfold rt_timer_start, get_timer, put_timer, _rt_timer_remove, rt_assert. munfold. rewrite E. simpl.
    by rewrite bool_decide_false.
Qed.

(** A timer of two ticks goes before the one that is due in three. *)
Definition demo_armed : kstate := with_timer (fun m => <[ThreadTimer 0 := demo_timer 0 0 2]> m) demo.

Lemma demo_armed_timers : timers_ok demo_armed.
Proof.
  destruct demo_kwf as [_ [T1 T2 T3 T4] _ _ _]. split; [done| |by intros i ->%list_elem_of_singleton|repeat constructor].
  intros i. change (i ∈ [ThreadTimer 2] <-> exists t, k_timer demo_armed !! i = Some t /\ activated t = true).
  rewrite list_elem_of_singleton. split; [intros ->; by eexists|]. simpl. intros (t & E & Ha).
  rewrite !lookup_insert_Some, lookup_empty in E. naive_solver.
Qed.

Lemma rt_timer_start_sorted_witness : exists k',
  rt_timer_start (ThreadTimer 0) demo_armed = Some (RT_EOK, k') /\ timers_ok k' /\
  k_timer_list k' = [ThreadTimer 0; ThreadTimer 2].
Proof.
  pose proof (rt_timer_start_sorted demo_armed (ThreadTimer 0) (demo_timer 0 0 2) demo_armed_timers
    ltac:(done) ltac:(by vm_compute) ltac:(done)) as H.
  rewrite decide_True in H by done. destruct H as (k' & l1 & l2 & E & Hok & _). exists k'. split; [done|]. split; [done|].
  assert (k_timer_list <$> (snd <$> rt_timer_start (ThreadTimer 0) demo_armed) = Some [ThreadTimer 0; ThreadTimer 2]) as Ev by (by vm_compute).
  rewrite E in Ev. simpl in Ev. congruence.
Defined.

Section time.
Context (user_timeout : nat -> KM unit).

Definition only_thread_timers (k : kstate) : Prop := forall i, i ∈ k_timer_list k -> exists t, i = ThreadTimer t.

(** C28: When no timers but those of threads are active, a tick interrupt
    terminates, advances the tick modulo 2^32, times out exactly the waiting
    threads whose timer is due within one tick, brings every other deadline one
    tick nearer (also across the wrap-around of the tick) and preserves the
    kernel invariant. (An active user timer calls its function, which may do
    anything; a periodic one of 0 ticks keeps [rt_timer_check] from ending.) *)
Theorem rt_tick_increase_fires k :
  kwf k -> is_Some (k_current k) -> only_thread_timers k ->
  exists k', rt_tick_increase user_timeout k = Some (true, k') /\ kwf k' /\ k_tick k' = u32 (k_tick k + 1) /\
    (forall t, ThreadTimer t ∈ k_timer_list k ->
       if decide (due_key k (ThreadTimer t) <= 1) then thread_timed_out k' t
       else ThreadTimer t ∈ k_timer_list k' /\ due_key k' (ThreadTimer t) = due_key k (ThreadTimer t) - 1) /\
    (forall i, i ∈ k_timer_list k' -> i ∈ k_timer_list k).
Proof.
  intros H [c Hc] Ht. destruct (rt_tick_increase_spec user_timeout k c H Hc Ht) as (k' & fired & E & H' & Etk & El & Hf & Hleft & _).
  exists k'. split; [done|]. split; [done|]. split; [done|]. split.
  - intros t Hin. rewrite El in Hin. apply elem_of_app in Hin as [Hin|Hin].
    + apply list_elem_of_fmap in Hin as (t' & [= <-] & Hin). destruct (Hf t Hin) as [Hd Hto]. by rewrite decide_True.
    + destruct (Hleft _ Hin) as [Hd Hn]. rewrite decide_False by lia. done.
  - intros i Hi. rewrite El. apply elem_of_app. by right.
Qed.

(** [n] tick interrupts in a row. *)
Fixpoint ticks (n : nat) (k : kstate) : option kstate :=
  match n with
  | O => Some k
  | S n => match rt_tick_increase user_timeout k with Some (_, k') => ticks n k' | None => None end
  end.

Lemma ticks_countdown t : forall n k,
  kwf k -> is_Some (k_current k) -> only_thread_timers k -> ThreadTimer t ∈ k_timer_list k ->
  Z.of_nat n = Z.max 1 (due_key k (ThreadTimer t)) ->
  (forall m, (m < n)%nat -> exists km th, ticks m k = Some km /\ k_threads km !! t = Some th /\ stat_base th = RT_THREAD_SUSPEND) /\
  exists k', ticks n k = Some k' /\ kwf k' /\ thread_timed_out k' t.
Proof.
  induction n as [|n IH]; intros k H Hc Hth Hin En; [lia|].
  assert (exists th, k_threads k !! t = Some th /\ stat_base th = RT_THREAD_SUSPEND) as (th & E & Hs) by (by apply kwf_suspended).
  destruct Hc as [c Hc].
  destruct (rt_tick_increase_spec user_timeout k c H Hc Hth) as (k1 & fired & E1 & H1 & _ & El & Hf & Hleft & Hc1).
  pose proof Hin as Hin'. rewrite El in Hin'. apply elem_of_app in Hin' as [Hin'|Hin'].
  - apply list_elem_of_fmap in Hin' as (t' & [= <-] & Hin'). destruct (Hf t Hin') as [Hd Hto].
    assert (n = 0%nat) as -> by lia. split.
    + intros m Hm. assert (m = 0%nat) as -> by lia. by exists k, th.
    + exists k1. simpl. by rewrite E1.
  - destruct (Hleft _ Hin') as [Hd Hn].
    assert (only_thread_timers k1) as Hth1 by (intros i Hi; apply Hth; rewrite El; apply elem_of_app; by right).
    destruct (IH k1 H1 Hc1 Hth1 Hin' ltac:(lia)) as [IH1 (k' & E' & IH2)]. split.
    + intros [|m] Hm; [by exists k, th|]. destruct (IH1 m ltac:(lia)) as (km & thm & Em & ?). exists km, thm. simpl. by rewrite E1.
    + exists k'. simpl. by rewrite E1.
Qed.

(** C27: A thread that calls [rt_thread_sleep] with n < 0x7fffffff ticks, when
    no timers but those of threads are active, and nothing but tick interrupts
    happens (no call of [rt_thread_resume], no new timers), stays suspended
    through the first max(1, n) - 1 of them, is ready or running after max(1, n)
    of them, and its call returns [RT_EOK]. *)
Theorem rt_thread_sleep_wakes_on_time k t th n :
  kwf k -> running k t th -> only_thread_timers k -> 0 <= n < HALF ->
  exists k1, rt_thread_sleep n k = Some (Blocked (SleepFrame t), k1) /\
    (forall m, (m < Z.to_nat (Z.max 1 n))%nat ->
       exists km th', ticks m k1 = Some km /\ k_threads km !! t = Some th' /\ stat_base th' = RT_THREAD_SUSPEND) /\
    exists k2 k3, ticks (Z.to_nat (Z.max 1 n)) k1 = Some k2 /\ kwf k2 /\ thread_timed_out k2 t /\
      rt_thread_sleep_resume (SleepFrame t) k2 = Some (RT_EOK, k3) /\ kwf k3.
Proof.
  intros H Hr Ht Hn. destruct (rt_thread_sleep_spec k t th n H Hr Hn) as (k1 & E & H1 & _ & _ & Hin & Hd & Hc & Hi).
  assert (only_thread_timers k1) as Ht1 by (intros i Hi1; destruct (Hi i Hi1) as [->|?]; [by exists t|by apply Ht]).
  destruct (ticks_countdown t (Z.to_nat (Z.max 1 n)) k1 H1 Hc Ht1 Hin) as [Hbefore (k2 & E2 & H2 & Hto)]; [rewrite Hd; lia|].
  exists k1. split; [done|]. split; [done|]. destruct Hto as [(th2 & Eth & Ha & He) Hto].
  exists k2, (upd_thread t (with_error RT_EOK) k2). split; [done|]. split; [done|]. split; [split; [by exists th2|done]|].
  split; [|by apply kwf_upd_keep].
  unfold rt_thread_sleep_resume, clear_timeout_error. munfold. rewrite Eth, He. rewrite bool_decide_true by done.
  by rewrite Eth.
Qed.

End time.

Lemma demo_only_threads : only_thread_timers demo.
Proof. intros i. change (i ∈ [ThreadTimer 2] -> exists t, i = ThreadTimer t). intros ->%list_elem_of_singleton. eauto. Qed.

Lemma rt_tick_increase_fires_witness : exists k',
  rt_tick_increase (fun _ => mret tt) demo = Some (true, k') /\ kwf k' /\ k_tick k' = 1 /\ due_key k' (ThreadTimer 2) = 2.
Proof.
  destruct (rt_tick_increase_fires (fun _ => mret tt) demo) as (k' & E & H & Ht & Hd & _);
    [apply demo_kwf|by eexists|apply demo_only_threads|].
  exists k'. split; [done|]. split; [done|]. split; [done|].
  specialize (Hd 2%nat ltac:(left)). rewrite decide_False in Hd by (by vm_compute). by destruct Hd as [_ ->].
Defined.

Lemma rt_thread_sleep_wakes_on_time_witness : exists k1 k2,
  rt_thread_sleep 5 demo = Some (Blocked (SleepFrame 0), k1) /\ ticks (fun _ => mret tt) 5 k1 = Some k2 /\ thread_timed_out k2 0.
Proof.
  destruct (rt_thread_sleep_wakes_on_time (fun _ => mret tt) demo 0 (demo_thread RT_THREAD_RUNNING 10) 5)
    as (k1 & E & _ & k2 & k3 & E2 & _ & Hto & _); [apply demo_kwf|apply demo_running|apply demo_only_threads|done|].
  by exists k1, k2.
Defined.

(** ** Delays *)

(** [rt_thread_delay_until] sleeps for [inc_tick] plus the ticks elapsed
    since [*tick] (not minus them) when fewer than [inc_tick] have elapsed, and
    returns at once otherwise. *)
Theorem rt_thread_delay_until_sleeps k t th tick inc_tick :
  kwf k -> running k t th ->
  let elapsed := u32 (k_tick k - tick) in
  if decide (elapsed < inc_tick) then
    elapsed + inc_tick < HALF ->
    exists k1, rt_thread_delay_until tick inc_tick k = Some (Blocked (SleepFrame t), k1) /\ kwf k1 /\
      ThreadTimer t ∈ k_timer_list k1 /\ due_key k1 (ThreadTimer t) = elapsed + inc_tick
  else rt_thread_delay_until tick inc_tick k = Some (Returned (RT_EOK, k_tick k), k).
Proof.
  intros H Hr elapsed. pose proof Hr as (Hc & E & Hs). destruct (kwf_attached _ H _ _ E) as [Ha _]; [by rewrite Hs|].
  pose proof (wrap_range 32 (k_tick k - tick) ltac:(lia)) as He. fold elapsed in He. unfold in_range in He.
  unfold rt_thread_delay_until, check_thread, rt_assert, rt_tick_get. munfold. rewrite Hc, E, Ha. simpl. fold elapsed.
  case_decide as Hd; [|done].
  intros Hb. destruct (suspend_start_schedule k t th (elapsed + inc_tick) H Hr ltac:(lia))
    as (k1 & k' & Es & E1 & E' & Hk & _ & _ & Hin & Hdue & _).
  rewrite HALF_val in Hb. rewrite (wrap_small 32) by (unfold in_range; lia).
  exists k'. by rewrite Es, E1, E'.
Qed.

(** At tick 0 (and [*tick] 2 ticks ago), a period of 10: the thread sleeps for
    12 ticks, not for the 8 that are left. *)
Lemma rt_thread_delay_until_sleeps_witness : exists k1,
  rt_thread_delay_until (2 ^ 32 - 2) 10 demo = Some (Blocked (SleepFrame 0), k1) /\ due_key k1 (ThreadTimer 0) = 12.
Proof.
  pose proof (rt_thread_delay_until_sleeps demo 0 (demo_thread RT_THREAD_RUNNING 10) (2 ^ 32 - 2) 10 demo_kwf demo_running) as H.
  cbv zeta in H. rewrite decide_True in H by (by vm_compute). destruct H as (k1 & E & _ & _ & Hd); [by vm_compute|].
  by exists k1.
Defined.

(** Sleeping for half the tick range or more stops in the assertion of [rt_timer_start]. *)
Lemma sleep_too_long k t th n : kwf k -> running k t th -> in_range 32 n -> HALF <= n -> rt_thread_sleep n k = None.
Proof.
  intros H (Hc & E & Hs) Hr Hn. destruct (kwf_attached _ H _ _ E) as [Ha _]; [by rewrite Hs|].
  destruct (rt_thread_suspend_spec k t th H E) as [Es Hk]; [by right|].
  destruct (suspended_thread t th k E) as (E1 & _).
  destruct (kwf_attached _ Hk _ _ E1) as (_ & tm & Etm & _); [by autorewrite with kstat|].
  unfold rt_thread_sleep, check_thread, rt_assert. munfold. rewrite Hc, E, Ha. simpl. rewrite Es.
  unfold start_thread_timer, rt_timer_control, rt_timer_start, get_timer, put_timer, _rt_timer_remove, rt_assert. munfold. rewrite Etm. simpl.
  rewrite lookup_insert_eq. simpl. rewrite (wrap_small 32) by done. by rewrite bool_decide_false by lia.
Qed.

(** [rt_thread_mdelay] sleeps for exactly [ms] ticks (1000 ticks a second)
    for 0 <= ms < 0x7fffffff; for 0x7fffffff and for every negative argument it
    stops in the assertion of [rt_timer_start]. *)
Theorem rt_thread_mdelay_ticks k t th ms :
  kwf k -> running k t th -> - 2 ^ 31 <= ms < 2 ^ 31 ->
  if decide (0 <= ms < 2 ^ 31 - 1) then
    exists k1, rt_thread_mdelay ms k = Some (Blocked (SleepFrame t), k1) /\ kwf k1 /\
      ThreadTimer t ∈ k_timer_list k1 /\ due_key k1 (ThreadTimer t) = ms
  else rt_thread_mdelay ms k = None.
Proof.
  intros H Hr Hms. unfold rt_thread_mdelay. case_decide as Hd.
  - rewrite from_millisecond_eval by lia.
    destruct (rt_thread_sleep_spec k t th ms H Hr) as (k1 & E & H1 & _ & _ & Hin & Hdue & _); [rewrite HALF_val; lia|].
    by exists k1.
  - apply (sleep_too_long k t th); try done; destruct (decide (0 <= ms)).
    + rewrite from_millisecond_eval by lia. unfold in_range. lia.
    + unfold rt_tick_from_millisecond. rewrite decide_True by lia. by apply wrap_range.
    + rewrite from_millisecond_eval by lia. rewrite HALF_val. lia.
    + unfold rt_tick_from_millisecond. rewrite decide_True by lia. by vm_compute.
Qed.

Lemma rt_thread_mdelay_ticks_witness :
  rt_thread_mdelay 0x7fffffff demo = None /\
  exists k1, rt_thread_mdelay 1500 demo = Some (Blocked (SleepFrame 0), k1) /\ due_key k1 (ThreadTimer 0) = 1500.
Proof.
  split.
  - pose proof (rt_thread_mdelay_ticks demo 0 (demo_thread RT_THREAD_RUNNING 10) 0x7fffffff demo_kwf demo_running ltac:(lia)) as H.
    by rewrite decide_False in H by lia.
  - pose proof (rt_thread_mdelay_ticks demo 0 (demo_thread RT_THREAD_RUNNING 10) 1500 demo_kwf demo_running ltac:(lia)) as H.
    rewrite decide_True in H by lia. destruct H as (k1 & E & _ & _ & Hd). by exists k1.
Defined.

(** ** Wait queues *)

Lemma insert_prio_split prio t l : prio_sorted prio l -> exists l1 l2, l = l1 ++ l2 /\ insert_prio prio t l = l1 ++ t :: l2 /\
  (forall s, s ∈ l1 -> prio s <= prio t) /\ (forall s, s ∈ l2 -> prio t < prio s).
Proof.
  intros Hs. apply Sorted_StronglySorted in Hs; [|intros x y z; lia].
  induction l as [|s l IH]; simpl.
  - exists [], []. split_and!; try done; by intros j ?%elem_of_nil.
  - apply StronglySorted_inv in Hs as [Hs Hp]. destruct (IH Hs) as (l1 & l2 & -> & E & H1 & H2). case_decide as Hd.
    + exists [], (s :: l1 ++ l2). split_and!; try done; [by intros j ?%elem_of_nil|].
      rewrite Forall_forall in Hp. intros j [->|Hj]%elem_of_cons; [lia|]. specialize (Hp j Hj). lia.
    + exists (s :: l1), l2. rewrite E. split_and!; try done. intros j [->|Hj]%elem_of_cons; [lia|by apply H1].
Qed.

(** [rt_ipc_list_suspend] puts the caller at the end of a FIFO queue; in a
    priority queue it goes behind every waiter of at least its priority and in
    front of all others, and the queue stays sorted. *)
Theorem rt_ipc_list_suspend_queues k t th h flag :
  kwf k -> running k t th -> wait_head h -> flag_ok flag ->
  (flag = RT_IPC_FLAG_PRIO -> prio_sorted (priority_of k) (k_lists k h)) ->
  exists k' l1 l2, rt_ipc_list_suspend h t flag k = Some (RT_EOK, k') /\ kwf k' /\
    k_lists k h = l1 ++ l2 /\ k_lists k' h = l1 ++ t :: l2 /\
    (flag = RT_IPC_FLAG_FIFO -> l2 = []) /\
    (flag = RT_IPC_FLAG_PRIO -> (forall s, s ∈ l1 -> priority_of k s <= priority_of k t) /\
       (forall s, s ∈ l2 -> priority_of k t < priority_of k s) /\ prio_sorted (priority_of k) (k_lists k' h)).
Proof.
  intros H Hr Hh Hf Hsort. pose proof (list_suspend_eval k t th h flag H Hr Hh Hf) as E. pose proof Hr as (Hc & Et & Hst).
  destruct (rt_thread_suspend_spec k t th H Et) as [_ Hk]; [by right|].
  destruct (suspended_thread t th k Et) as (E1 & _ & _ & _ & El).
  assert (lremove t (k_lists k h) = k_lists k h) as Er.
  { apply lremove_notin. apply (running_notin ∅ k t th); [apply H|done|done]. }
  set (l' := enqueue flag (priority_of k) t (k_lists k h)) in *.
  assert (kwf (in_wait h l' (suspended t th k))) as H'.
  { eapply kwf_in_wait; [exact Hk| |exact E1|by autorewrite with kstat|done|].
    - intros h'. rewrite El, elem_of_lremove. tauto.
    - rewrite El, Er. apply enqueue_perm. }
  assert (k_lists (in_wait h l' (suspended t th k)) h = l') as El' by (rewrite in_wait_lists; by rewrite decide_True).
  destruct Hf as [-> | ->].
  - exists (in_wait h l' (suspended t th k)), (k_lists k h), []. rewrite El'. unfold l', enqueue. rewrite decide_True by done.
    rewrite app_nil_r. done.
  - destruct (insert_prio_split (priority_of k) t (k_lists k h) (Hsort eq_refl)) as (l1 & l2 & Hl & Hi & H1 & H2).
    exists (in_wait h l' (suspended t th k)), l1, l2. rewrite El'.
    split; [done|]. split; [done|]. split; [done|]. unfold l', enqueue. rewrite decide_False by done.
    split; [done|]. split; [done|]. intros _. split; [done|]. split; [done|]. apply insert_prio_sorted. by apply Hsort.
Qed.

Lemma rt_ipc_list_suspend_queues_witness : exists k',
  rt_ipc_list_suspend (LSuspend 7) 0 RT_IPC_FLAG_PRIO demo = Some (RT_EOK, k') /\ kwf k' /\
  prio_sorted (priority_of demo) (k_lists k' (LSuspend 7)).
Proof.
  destruct (rt_ipc_list_suspend_queues demo 0 (demo_thread RT_THREAD_RUNNING 10) (LSuspend 7) RT_IPC_FLAG_PRIO)
    as (k' & l1 & l2 & E & H & _ & _ & _ & Hs); [apply demo_kwf|apply demo_running|done|by right|by repeat constructor|].
  exists k'. split; [done|]. split; [done|]. by apply Hs.
Defined.
