(* ===== verification/Sem.v ===== *)
(** * Sem: semaphores

    The semaphore section of ipc.c.  [rt_sem_take] is split at its call of
    [rt_schedule]: [rt_sem_take_resume] is the rest.  The abstract semaphore is a
    counter with a queue of waiting threads. *)

From S2P Require Import Kernel Sched Object Timer Thread Ipc Demo.

(** ** Operations *)

Definition get_sem (o : oid) : KM semaphore := deref (fun k => k_sems k !! o).
Definition put_sem (o : oid) (s : semaphore) : KM unit := modify (with_sems (insert o s)).
Definition set_sem_value (o : oid) (v : Z) : KM unit :=
  s ← get_sem o; put_sem o (Sem (sem_obj s) v).

Definition rt_sem_init (sem : oid) (value flag : Z) : KM Z :=
  rt_assert (bool_decide (value < 0x10000));;
  rt_object_init (has k_sems sem);;
  _ ← rt_ipc_object_init sem;
  put_sem sem (Sem (Ipc true flag) (u16 value));;
  mret RT_EOK.

Definition rt_sem_detach (sem : oid) : KM Z :=
  s ← get_sem sem;
  rt_assert (ipc_static (sem_obj s));;
  _ ← rt_ipc_list_resume_all (LSuspend sem);
  modify (with_sems (delete sem));;
  mret RT_EOK.

Definition rt_sem_create (new : option oid) (value flag : Z) : KM (option oid) :=
  RT_DEBUG_NOT_IN_INTERRUPT;;
  rt_assert (bool_decide (value < 0x10000));;
  obj ← rt_object_allocate new;
  match obj with
  | None => mret None
  | Some sem =>
    _ ← rt_ipc_object_init sem;
    put_sem sem (Sem (Ipc false flag) (u16 value));;
    mret (Some sem)
  end.

Definition rt_sem_delete (sem : oid) : KM Z :=
  RT_DEBUG_NOT_IN_INTERRUPT;;
  s ← get_sem sem;
  rt_assert (negb (ipc_static (sem_obj s)));;
  _ ← rt_ipc_list_resume_all (LSuspend sem);
  modify (with_sems (delete sem));;
  mret RT_EOK.

Inductive sem_frame := SemFrame (t : tid).

Definition rt_sem_take (sem : oid) (time : Z) : KM (outcome sem_frame Z) :=
  s ← get_sem sem;
  if decide (0 < sem_value s) then
    set_sem_value sem (u16 (sem_value s - 1));;
    mret (Returned RT_EOK)
  else if decide (time = 0) then mret (Returned (- RT_ETIMEOUT))
  else
    RT_DEBUG_IN_THREAD_CONTEXT;;
    t ← self;
    set_thread t (with_error RT_EOK);;
    wait (LSuspend sem) t (ipc_flag (sem_obj s)) time;;
    mret (Blocked (SemFrame t)).

(** [if (thread->error != RT_EOK) return thread->error; ... return RT_EOK] *)
Definition rt_sem_take_resume (f : sem_frame) : KM Z :=
  let '(SemFrame t) := f in
  th ← get_thread t;
  if decide (th_error th <> RT_EOK) then mret (th_error th) else mret RT_EOK.

Definition rt_sem_trytake (sem : oid) : KM (outcome sem_frame Z) := rt_sem_take sem 0.

Definition rt_sem_release (sem : oid) : KM Z :=
  s ← get_sem sem;
  e ← list_isempty (LSuspend sem);
  (if (e : bool) then set_sem_value sem (u16 (sem_value s + 1))
   else _ ← rt_ipc_list_resume (LSuspend sem); mret tt);;
  when (negb e) rt_schedule;;
  mret RT_EOK.

Definition rt_sem_control (sem : oid) (cmd value : Z) : KM Z :=
  s ← get_sem sem;
  if decide (cmd = RT_IPC_CMD_RESET) then
    _ ← rt_ipc_list_resume_all (LSuspend sem);
    set_sem_value sem (u16 value);;
    rt_schedule;;
    mret RT_EOK
  else mret (- RT_ERROR).

(** ** The abstract semaphore *)

Definition asem : Type := Z * list tid.

Definition asem_take (flag : Z) (prio : tid -> Z) (t : tid) (time : Z) (a : asem) : outcome unit Z * asem :=
  let '(v, q) := a in
  if decide (0 < v) then (Returned RT_EOK, (v - 1, q))
  else if decide (time = 0) then (Returned (- RT_ETIMEOUT), (v, q))
  else (Blocked tt, (v, enqueue flag prio t q)).

(** The thread a release wakes, if any; the counter wraps at 65536. *)
Definition asem_release (a : asem) : option tid * asem :=
  match a with
  | (v, []) => (None, (u16 (v + 1), []))
  | (v, t :: q) => (Some t, (v, q))
  end.

Definition sem_view (k : kstate) (o : oid) : option asem :=
  s ← k_sems k !! o; Some (sem_value s, k_lists k (LSuspend o)).

(** The semaphore's invariant: nobody waits while the counter is positive. *)
Record sem_ok (k : kstate) (o : oid) (s : semaphore) : Prop := SemOk {
  so_sem : k_sems k !! o = Some s;
  so_range : in_range 16 (sem_value s);
  so_flag : flag_ok (ipc_flag (sem_obj s));
  so_wait : k_lists k (LSuspend o) <> [] -> sem_value s = 0;
  so_clean : waiters_clean k (LSuspend o)
}.

Definition with_value (v : Z) (s : semaphore) : semaphore := Sem (sem_obj s) v.

Lemma set_sem_value_eval k o s v :
  k_sems k !! o = Some s -> set_sem_value o v k = Some (tt, with_sems (insert o (with_value v s)) k).
Proof. intros E. unfold set_sem_value, get_sem, put_sem. munfold. by rewrite E. Qed.

Lemma kwf_with_sems f k : kwf k -> kwf (with_sems f k).
Proof. by apply kwf_objects. Qed.

Lemma sem_ok_value k o s v :
  sem_ok k o s -> in_range 16 v -> k_lists k (LSuspend o) = [] ->
  sem_ok (with_sems (insert o (with_value v s)) k) o (with_value v s).
Proof.
  intros [H1 H2 H3 H4 H5] Hv Hl. split; try done. simpl. by rewrite lookup_insert_eq.
Qed.

Lemma in_thread_context_eval k t :
  k_current k = Some t -> k_irq_nest k = 0 -> RT_DEBUG_IN_THREAD_CONTEXT k = Some (tt, k).
Proof.
  intros Hc Hi. unfold RT_DEBUG_IN_THREAD_CONTEXT, RT_DEBUG_NOT_IN_INTERRUPT, rt_interrupt_get_nest, rt_assert.
  munfold. rewrite Hc, bool_decide_true by eauto. by rewrite Hi.
Qed.

(** What the result of a blocking function means for the abstract one. *)
Definition same_outcome {F} (r : outcome F Z) (a : outcome unit Z) : Prop :=
  match r, a with
  | Returned x, Returned y => x = y
  | Blocked _, Blocked _ => True
  | _, _ => False
  end.

(** [rt_sem_take] takes a unit if there is one; otherwise it answers
    [-RT_ETIMEOUT] without a change if the time is 0, and queues the caller (by
    arrival or by priority) with its timer started if not. *)
Definition sem_takes (k : kstate) (t : tid) (o : oid) (s : semaphore) (time : Z) : Prop :=
  exists r k' s' a',
    rt_sem_take o time k = Some (r, k') /\ kwf k' /\ sem_ok k' o s' /\
    asem_take (ipc_flag (sem_obj s)) (priority_of k) t time (sem_value s, k_lists k (LSuspend o)) =
      (a', (sem_value s', k_lists k' (LSuspend o))) /\ same_outcome r a' /\
    (sem_value s = 0 -> time = 0 -> k' = k) /\
    (sem_value s = 0 -> time <> 0 -> r = Blocked (SemFrame t) /\
       blocked k k' (LSuspend o) t (ipc_flag (sem_obj s)) time (with_error RT_EOK)).

Lemma rt_sem_take_sim k t th o s time :
  kwf k -> running k t th -> k_irq_nest k = 0 -> sem_ok k o s -> time < HALF -> sem_takes k t o s time.
Proof.
  intros H Hr Hi Hok Hto. pose proof Hok as [Es Hv Hf Hw Hcl]. pose proof Hr as (Hc & Et & Hst).
  unfold sem_takes, rt_sem_take, asem_take, get_sem. munfold. rewrite Es.
  destruct (decide (0 < sem_value s)) as [Hp|Hp].
  - assert (k_lists k (LSuspend o) = []) as El.
    { destruct (k_lists k (LSuspend o)) eqn:E; [done|]. rewrite Hw in Hp by done. lia. }
    assert (in_range 16 (sem_value s - 1)) as Hr1 by (unfold in_range in *; lia).
    rewrite (set_sem_value_eval k o s) by done. rewrite (wrap_small 16) by done.
    eexists _, _, _, _. split; [done|].
    split; [by apply kwf_with_sems|]. split; [by apply sem_ok_value|].
    split; [done|]. split; [done|]. split; intros; lia.
  - destruct (decide (time = 0)) as [Ht|Ht].
    { eexists _, k, s, _. split; [done|]. split; [done|]. split; [done|]. split; [done|].
      split; [done|]. split; [done|]. intros _ ?; done. }
    destruct (block_spec k t th (LSuspend o) (ipc_flag (sem_obj s)) time (with_error RT_EOK))
      as (k' & Ew & B); [done..|].
    rewrite (in_thread_context_eval k t) by done. rewrite Hc, Et.
    fold (upd_thread t (with_error RT_EOK) k). rewrite Ew.
    destruct (objects_inj _ _ (bl_objects _ _ _ _ _ _ _ B)) as (Eo & _).
    eexists _, k', s, _. split; [done|]. split; [apply B|]. split.
    + split; try done; [by rewrite Eo|unfold in_range in Hv; lia|]. by apply (bl_clean _ _ _ _ _ _ _ B).
    + split; [by rewrite (bl_list _ _ _ _ _ _ _ B)|]. split; [done|]. split; [done|]. done.
Qed.

(** [rt_sem_release] wakes the first waiting thread, whose [rt_sem_take] then
    returns [RT_EOK], or increments the counter. *)
Definition sem_releases (k : kstate) (o : oid) (s : semaphore) : Prop :=
  exists k' s' w,
    rt_sem_release o k = Some (RT_EOK, k') /\ kwf k' /\ sem_ok k' o s' /\
    asem_release (sem_value s, k_lists k (LSuspend o)) = (w, (sem_value s', k_lists k' (LSuspend o))) /\
    (forall t, w = Some t -> woken k k' (LSuspend o) t /\
       rt_sem_take_resume (SemFrame t) k' = Some (RT_EOK, k')).

Lemma rt_sem_release_sim k o s : kwf k -> is_Some (k_current k) -> sem_ok k o s -> sem_releases k o s.
Proof.
  intros H Hc Hok. pose proof Hok as [Es Hv Hf Hw Hcl].
  unfold sem_releases, rt_sem_release, get_sem. munfold. rewrite Es.
  destruct (k_lists k (LSuspend o)) as [|t l] eqn:El.
  - rewrite bool_decide_true by done. rewrite (set_sem_value_eval k o s) by done.
    eexists _, _, None. split; [done|]. split; [by apply kwf_with_sems|].
    split; [apply sem_ok_value; [done|by apply wrap_range|done]|].
    split; [simpl; by rewrite El|done].
  - rewrite bool_decide_false by done.
    destruct (resume_and_schedule k (LSuspend o) t l H) as (k1 & k' & E1 & E' & W); [done..|].
    rewrite E1. simpl. rewrite E'.
    destruct (objects_inj _ _ (wk_objects _ _ _ _ W)) as (Eo & _).
    assert (k_lists k' (LSuspend o) = l) as El'.
    { by apply (woken_head k k' (LSuspend o) t l). }
    exists k', s, (Some t). split; [done|]. split; [apply W|]. split.
    + split; try done; [by rewrite Eo|intros _; by apply Hw|by apply (woken_clean k k' (LSuspend o) t)].
    + split; [simpl; by rewrite El'|]. intros ? [= <-]. split; [done|].
      destruct (woken_error _ _ _ _ W Hcl) as (th & E & _ & He).
      unfold rt_sem_take_resume. munfold. rewrite E, He. by case_decide.
Qed.

(** C22: A semaphore implements the abstract counter with a queue: [rt_sem_take]
    takes a unit if there is one, and otherwise answers [-RT_ETIMEOUT] without a
    change (time 0) or queues the caller, by arrival or by priority, with its
    timer started; [rt_sem_release] wakes the first waiting thread, whose
    [rt_sem_take] then returns [RT_EOK], or increments the counter modulo 2^16.
    A semaphore with waiters never has units. *)
Theorem rt_sem_refines k t th o s time :
  kwf k -> running k t th -> k_irq_nest k = 0 -> sem_ok k o s -> time < HALF -> sem_takes k t o s time /\ sem_releases k o s.
Proof.
  intros H Hr Hi Hok Ht. split; [by apply (rt_sem_take_sim k t th)|]. apply rt_sem_release_sim; [done| |done].
  destruct Hr as (-> & _). by eexists.
Qed.

(** Thread 2 waits for the semaphore 7; the semaphore 8 has one unit. *)
Definition demo_sem : kstate := demo_with
  (<[7%nat := Sem (Ipc true RT_IPC_FLAG_PRIO) 0]> (<[8%nat := Sem (Ipc true RT_IPC_FLAG_FIFO) 1]> ∅)) ∅ ∅ ∅ ∅.

Lemma demo_sem_ok_7 : sem_ok demo_sem 7 (Sem (Ipc true RT_IPC_FLAG_PRIO) 0).
Proof. split; [done|done|by right|done|apply demo_clean]. Qed.

Lemma demo_sem_ok_8 : sem_ok demo_sem 8 (Sem (Ipc true RT_IPC_FLAG_FIFO) 1).
Proof. split; [done|done|by left|done|apply demo_clean]. Qed.

(** The running thread (priority 10) queues behind thread 2 (priority 5), which
    a release wakes. *)
Lemma rt_sem_refines_witness :
  (exists k', rt_sem_take 7 100 demo_sem = Some (Blocked (SemFrame 0), k') /\ kwf k' /\ k_lists k' (LSuspend 7) = [2%nat; 0%nat]) /\
  (exists k', rt_sem_release 7 demo_sem = Some (RT_EOK, k') /\ kwf k' /\ rt_sem_take_resume (SemFrame 2) k' = Some (RT_EOK, k')).
Proof.
  destruct (rt_sem_refines demo_sem 0 (demo_thread RT_THREAD_RUNNING 10) 7 (Sem (Ipc true RT_IPC_FLAG_PRIO) 0) 100) as [A B];
    [apply demo_with_kwf|apply demo_running|done|apply demo_sem_ok_7|done|]. split.
  - destruct A as (r & k' & s' & a' & E & H & _ & Ea & _ & _ & Hb). destruct (Hb ltac:(done) ltac:(done)) as [-> _].
    exists k'. split; [done|]. split; [done|]. vm_compute in Ea |- *. congruence.
  - destruct B as (k' & s' & w & E & H & _ & Ea & Hw). exists k'. split; [done|]. split; [done|].
    apply (Hw 2%nat). vm_compute in Ea |- *. congruence.
Defined.
