(* ===== verification/Mutex.v ===== *)
(** * Mutex: mutexes with priority inheritance

    The mutex section of ipc.c.  [mutex_again] is the code from the label
    [__again] on, [rt_mutex_take_resume] what follows its [rt_schedule].  The
    abstract mutex is an owner, a nesting count and a queue. *)

From S2P Require Import Kernel Sched Object Timer Thread Ipc Demo Sem.

(** ** Operations *)

Definition get_mutex (o : oid) : KM mutex := deref (fun k => k_mutexes k !! o).
Definition put_mutex (o : oid) (m : mutex) : KM unit := modify (with_mutexes (insert o m)).

Definition rt_mutex_init (mutex : oid) (flag : Z) : KM Z :=
  rt_object_init (has k_mutexes mutex);;
  _ ← rt_ipc_object_init mutex;
  put_mutex mutex (Mutex (Ipc true flag) 1 0xff 0 None);;
  mret RT_EOK.

Definition rt_mutex_detach (mutex : oid) : KM Z :=
  m ← get_mutex mutex;
  rt_assert (ipc_static (mtx_obj m));;
  _ ← rt_ipc_list_resume_all (LSuspend mutex);
  modify (with_mutexes (delete mutex));;
  mret RT_EOK.

Definition rt_mutex_create (new : option oid) (flag : Z) : KM (option oid) :=
  RT_DEBUG_NOT_IN_INTERRUPT;;
  obj ← rt_object_allocate new;
  match obj with
  | None => mret None
  | Some mutex =>
    _ ← rt_ipc_object_init mutex;
    put_mutex mutex (Mutex (Ipc false flag) 1 0xff 0 None);;
    mret (Some mutex)
  end.

Definition rt_mutex_delete (mutex : oid) : KM Z :=
  RT_DEBUG_NOT_IN_INTERRUPT;;
  m ← get_mutex mutex;
  rt_assert (negb (ipc_static (mtx_obj m)));;
  _ ← rt_ipc_list_resume_all (LSuspend mutex);
  modify (with_mutexes (delete mutex));;
  mret RT_EOK.

Inductive mutex_frame := MutexFrame (mutex : oid) (t : tid) (time : Z).

Definition mutex_again (mutex : oid) (t : tid) (time : Z) : KM (outcome mutex_frame Z) :=
  m ← get_mutex mutex;
  th ← get_thread t;
  if decide (0 < mtx_value m) then
    put_mutex mutex (Mutex (mtx_obj m) (u16 (mtx_value m - 1)) (th_current_priority th)
                       (u8 (mtx_hold m + 1)) (Some t));;
    mret (Returned RT_EOK)
  else if decide (time = 0) then
    set_thread t (with_error (- RT_ETIMEOUT));;
    mret (Returned (- RT_ETIMEOUT))
  else
    owner ← deref (fun _ => mtx_owner m);
    oth ← get_thread owner;
    when (bool_decide (th_current_priority th < th_current_priority oth))
      (_ ← rt_thread_control owner (CTRL_CHANGE_PRIORITY (th_current_priority th)); mret tt);;
    wait (LSuspend mutex) t (ipc_flag (mtx_obj m)) time;;
    mret (Blocked (MutexFrame mutex t time)).

Definition rt_mutex_take (mutex : oid) (time : Z) : KM (outcome mutex_frame Z) :=
  RT_DEBUG_IN_THREAD_CONTEXT;;
  m ← get_mutex mutex;
  t ← self;
  set_thread t (with_error RT_EOK);;
  if decide (mtx_owner m = Some t) then
    put_mutex mutex (Mutex (mtx_obj m) (mtx_value m) (mtx_original_priority m)
                       (u8 (mtx_hold m + 1)) (mtx_owner m));;
    mret (Returned RT_EOK)
  else mutex_again mutex t time.

Definition rt_mutex_take_resume (f : mutex_frame) : KM (outcome mutex_frame Z) :=
  let '(MutexFrame mutex t time) := f in
  th ← get_thread t;
  if decide (th_error th <> RT_EOK) then
    if decide (th_error th = - RT_EINTR) then mutex_again mutex t time
    else mret (Returned (th_error th))
  else mret (Returned RT_EOK).

(** The hand-over at the last release: to the first waiter, or to nobody. *)
Definition mutex_hand_over (mutex : oid) : KM bool :=
  m ← get_mutex mutex;
  e ← list_isempty (LSuspend mutex);
  if (e : bool) then
    put_mutex mutex (Mutex (mtx_obj m) (u16 (mtx_value m + 1)) 0xff (mtx_hold m) None);;
    mret false
  else
    t ← list_first (LSuspend mutex);
    th ← get_thread t;
    put_mutex mutex (Mutex (mtx_obj m) (mtx_value m) (th_current_priority th)
                       (u8 (mtx_hold m + 1)) (Some t));;
    _ ← rt_ipc_list_resume (LSuspend mutex);
    mret true.

Definition rt_mutex_release (mutex : oid) : KM Z :=
  m ← get_mutex mutex;
  RT_DEBUG_IN_THREAD_CONTEXT;;
  t ← self;
  if decide (Some t <> mtx_owner m) then
    set_thread t (with_error (- RT_ERROR));;
    mret (- RT_ERROR)
  else
    let hold := u8 (mtx_hold m - 1) in
    put_mutex mutex (Mutex (mtx_obj m) (mtx_value m) (mtx_original_priority m) hold (mtx_owner m));;
    need_schedule ←
      (if decide (hold = 0) then
         th ← get_thread t;
         when (bool_decide (mtx_original_priority m <> th_current_priority th))
           (_ ← rt_thread_control t (CTRL_CHANGE_PRIORITY (mtx_original_priority m)); mret tt);;
         mutex_hand_over mutex
       else mret false);
    when need_schedule rt_schedule;;
    mret RT_EOK.

Definition rt_mutex_control (mutex : oid) : KM Z := m ← get_mutex mutex; mret (- RT_ERROR).

(** ** The abstract mutex *)

Definition amutex : Type := option tid * Z * list tid.

Definition amutex_take (flag : Z) (prio : tid -> Z) (t : tid) (time : Z) (a : amutex) : outcome unit Z * amutex :=
  let '(owner, hold, q) := a in
  match owner with
  | None => (Returned RT_EOK, (Some t, 1, []))
  | Some w =>
    if decide (w = t) then (Returned RT_EOK, (Some t, hold + 1, q))
    else if decide (time = 0) then (Returned (- RT_ETIMEOUT), (owner, hold, q))
    else (Blocked tt, (owner, hold, enqueue flag prio t q))
  end.

Definition amutex_release (t : tid) (a : amutex) : Z * amutex :=
  let '(owner, hold, q) := a in
  if decide (owner = Some t) then
    (RT_EOK,
     if decide (1 < hold) then (owner, hold - 1, q)
     else match q with [] => (None, 0, []) | w :: q' => (Some w, 1, q') end)
  else (- RT_ERROR, (owner, hold, q)).

Definition mutex_view (k : kstate) (o : oid) (m : mutex) : amutex :=
  (mtx_owner m, mtx_hold m, k_lists k (LSuspend o)).

Definition alive (k : kstate) (t : tid) : Prop :=
  exists th, k_threads k !! t = Some th /\ stat_base th <> RT_THREAD_CLOSE /\ stat_base th <> RT_THREAD_INIT.

(** Owned by a live thread that does not wait for it, or free with nobody waiting. *)
Record mutex_ok (k : kstate) (o : oid) (m : mutex) : Prop := MutexOk {
  mo_mutex : k_mutexes k !! o = Some m;
  mo_flag : flag_ok (ipc_flag (mtx_obj m));
  mo_clean : waiters_clean k (LSuspend o);
  mo_owner : match mtx_owner m with
    | None => mtx_value m = 1 /\ mtx_hold m = 0 /\ mtx_original_priority m = 0xff /\ k_lists k (LSuspend o) = []
    | Some w => mtx_value m = 0 /\ 1 <= mtx_hold m < 2 ^ 8 /\
        0 <= mtx_original_priority m < RT_THREAD_PRIORITY_MAX /\ alive k w /\ (w ∉ k_lists k (LSuspend o))
    end
}.

Lemma moved_alive k k' t : thread_moved (k_threads k !! t) (k_threads k' !! t) -> alive k t -> alive k' t.
Proof.
  intros Hm (th & E & H1 & H2). destruct (moved_base _ _ Hm _ E) as (s & E' & Hs). eexists. split; [exact E'|].
  destruct Hs as [->|[_ Ha]]; [done|]. destruct Ha as [-> | ->]; done.
Qed.

Lemma kwf_with_mutexes f k : kwf k -> kwf (with_mutexes f k).
Proof. by apply kwf_objects. Qed.

Lemma running_alive k t th : running k t th -> alive k t.
Proof. intros (_ & E & Hs). exists th. rewrite Hs. done. Qed.

Lemma thread_prio k t th : kwf k -> k_threads k !! t = Some th -> 0 <= th_current_priority th < RT_THREAD_PRIORITY_MAX.
Proof. intros H E. by apply (wf_prio _ _ (proj1 (kwf_sched _ H)) _ _ E). Qed.

(** [rt_thread_control] with a priority in range. *)
Lemma control_priority_spec k t prio :
  kwf k -> alive k t -> 0 <= prio < RT_THREAD_PRIORITY_MAX ->
  exists k', rt_thread_control t (CTRL_CHANGE_PRIORITY prio) k = Some (RT_EOK, k') /\ reprioritised k k' t prio.
Proof.
  intros H (th & E & Hc & Hi) Hp. destruct (change_priority_spec k t th prio H E Hc Hi Hp) as (k' & Ek & R).
  exists k'. split; [|done]. destruct (kwf_attached _ H _ _ E Hc) as [Ha _].
  unfold rt_thread_control, check_thread, rt_assert. munfold. rewrite E, Ha. simpl.
  rewrite (wrap_small 8) by (unfold in_range, RT_THREAD_PRIORITY_MAX in *; lia). by rewrite Ek.
Qed.

Lemma reprio_alive k k' t p s : reprioritised k k' t p -> alive k s -> alive k' s.
Proof.
  intros R (th & E & H). destruct (decide (s = t)) as [->|Hn].
  - destruct (rp_thread _ _ _ _ R) as (x & x' & Ex & Ex' & Hs & _). simplify_eq. exists x'. by rewrite Hs.
  - exists th. by rewrite (rp_threads _ _ _ _ R).
Qed.

Lemma reprio_clean k k' t p h : reprioritised k k' t p -> wait_head h -> waiters_clean k h -> waiters_clean k' h.
Proof.
  intros R Hh Hc s. rewrite (rp_waits _ _ _ _ R) by (by apply wait_not_ready). intros Hs.
  destruct (Hc s Hs) as (th & E & He). destruct (decide (s = t)) as [->|Hn].
  - destruct (rp_thread _ _ _ _ R) as (x & x' & Ex & Ex' & _ & _ & Hx & _). simplify_eq. exists x'. by rewrite Hx.
  - exists th. by rewrite (rp_threads _ _ _ _ R).
Qed.

Lemma reprio_running k k' t p s sth : reprioritised k k' t p -> s <> t -> running k s sth -> running k' s sth.
Proof.
  intros R Hn (Hc & E & Hs). split_and!; [by rewrite (rp_current _ _ _ _ R)|by rewrite (rp_threads _ _ _ _ R)|done].
Qed.

Lemma mutex_ok_reprio k k' t p o m : reprioritised k k' t p -> mutex_ok k o m -> mutex_ok k' o m.
Proof.
  intros R [H1 H2 H3 H4].
  destruct (objects_inj _ _ (rest_objects _ _ (rp_rest _ _ _ _ R))) as (_ & Em & _).
  assert (k_lists k' (LSuspend o) = k_lists k (LSuspend o)) as El by (by apply (rp_waits _ _ _ _ R)).
  split; [by rewrite Em|done|by eapply reprio_clean|]. rewrite El.
  destruct (mtx_owner m); [|done]. split_all; try done. by eapply reprio_alive.
Qed.

Lemma alive_upd k t f s : keeps f -> alive k s -> alive (upd_thread t f k) s.
Proof.
  intros Hf (th & E & H). unfold alive. rewrite upd_thread_lookup. case_decide; [subst; rewrite E|eauto].
  eexists. split; [done|]. destruct (Hf th) as [-> _]. done.
Qed.

(** ** Taking *)

(** What a blocked take leaves: the taker waits, and the owner runs at least at
    the taker's priority. *)
Definition inherits (k k' : kstate) (t w : tid) : Prop :=
  forall oth oth', k_threads k !! w = Some oth -> k_threads k' !! w = Some oth' ->
    th_current_priority oth' = Z.min (th_current_priority oth) (priority_of k t).

Lemma mutex_ok_clear k t th o m :
  running k t th -> mutex_ok k o m -> mutex_ok (upd_thread t (with_error RT_EOK) k) o m.
Proof.
  intros Hr [H1 H2 H3 H4]. split; try done; [by apply clean_upd|]. destruct (mtx_owner m); [|done].
  split_all; try done. by apply alive_upd.
Qed.

Lemma mutex_ok_put k o m m' :
  mutex_ok k o m -> mtx_obj m' = mtx_obj m ->
  match mtx_owner m' with
  | None => mtx_value m' = 1 /\ mtx_hold m' = 0 /\ mtx_original_priority m' = 0xff /\ k_lists k (LSuspend o) = []
  | Some w => mtx_value m' = 0 /\ 1 <= mtx_hold m' < 2 ^ 8 /\
      0 <= mtx_original_priority m' < RT_THREAD_PRIORITY_MAX /\ alive k w /\ (w ∉ k_lists k (LSuspend o))
  end ->
  mutex_ok (with_mutexes (insert o m') k) o m'.
Proof.
  intros [H1 H2 H3 H4] E H. split; try done; [simpl; by rewrite lookup_insert_eq|by rewrite E].
Qed.

Lemma mutex_ok_blocked k k' o m t flag timeout :
  blocked k k' (LSuspend o) t flag timeout (with_error RT_EOK) -> mutex_ok k o m ->
  mtx_owner m <> Some t -> (forall s, s <> t -> thread_moved (k_threads k !! s) (k_threads k' !! s)) ->
  mtx_owner m <> None -> mutex_ok k' o m.
Proof.
  intros B [H1 H2 H3 H4] Hn Hmv Ho. destruct (objects_inj _ _ (bl_objects _ _ _ _ _ _ _ B)) as (_ & Em & _).
  split; [by rewrite Em|done|by apply (bl_clean _ _ _ _ _ _ _ B)|].
  destruct (mtx_owner m) as [w|]; [|done]. assert (w <> t) by congruence.
  rewrite (bl_list _ _ _ _ _ _ _ B), enqueue_perm. split_all; try done.
  - eapply moved_alive; [by apply Hmv|done].
  - set_solver.
Qed.

(** The boost of the owner before the taker waits. *)
Lemma boost_spec k t th w oth :
  kwf k -> running k t th -> alive k w -> k_threads k !! w = Some oth -> w <> t ->
  exists k', when (bool_decide (th_current_priority th < th_current_priority oth))
      (_ ← rt_thread_control w (CTRL_CHANGE_PRIORITY (th_current_priority th)); mret tt) k = Some (tt, k') /\
    (k' = k /\ th_current_priority oth <= th_current_priority th \/
     reprioritised k k' w (th_current_priority th) /\ th_current_priority th < th_current_priority oth).
Proof.
  intros H (Hc & E & Hs) Ha Ew Hn. case_bool_decide as Hp; [|exists k; split; [done|left; split; [done|lia]]].
  destruct (control_priority_spec k w (th_current_priority th) H Ha (thread_prio _ _ _ H E)) as (k' & Ek & R).
  exists k'. split; [simpl; munfold; by rewrite Ek|by right].
Qed.

Lemma boost_frame k k' t th w oth o m :
  (k' = k /\ th_current_priority oth <= th_current_priority th \/
   reprioritised k k' w (th_current_priority th) /\ th_current_priority th < th_current_priority oth) ->
  kwf k -> running k t th -> k_threads k !! w = Some oth -> w <> t -> mutex_ok k o m ->
  kwf k' /\ running k' t th /\ mutex_ok k' o m /\ k_lists k' (LSuspend o) = k_lists k (LSuspend o) /\
  k_irq_nest k' = k_irq_nest k /\ (forall s, s <> w -> k_threads k' !! s = k_threads k !! s) /\
  exists oth', k_threads k' !! w = Some oth' /\
    th_current_priority oth' = Z.min (th_current_priority oth) (th_current_priority th).
Proof.
  intros [[-> Hp]|[R Hp]] H Hr Ew Hn Hok.
  - split_and!; try done. exists oth. split; [done|lia].
  - destruct (rest_inj _ _ (rp_rest _ _ _ _ R)) as (_ & Ei & _). split_and!; try done.
    + apply R.
    + by eapply reprio_running.
    + by eapply mutex_ok_reprio.
    + by apply (rp_waits _ _ _ _ R).
    + apply R.
    + destruct (rp_thread _ _ _ _ R) as (x & x' & Ex & Ex' & _ & Hpx & _). simplify_eq. exists x'. split; [done|lia].
Qed.

(** The wait itself, after the boost. *)
Lemma mutex_wait_spec k t th w oth o m time :
  kwf k -> running k t th -> th_error th = RT_EOK -> mutex_ok k o m -> mtx_owner m = Some w -> w <> t ->
  k_threads k !! w = Some oth -> time < HALF -> time <> 0 ->
  exists k', mutex_again o t time k = Some (Blocked (MutexFrame o t time), k') /\ kwf k' /\ mutex_ok k' o m /\
    k_lists k' (LSuspend o) = enqueue (ipc_flag (mtx_obj m)) (priority_of k) t (k_lists k (LSuspend o)) /\
    inherits k k' t w /\ (forall s, s <> w -> priority_of k' s = priority_of k s) /\
    (exists th', k_threads k' !! t = Some th' /\ stat_base th' = RT_THREAD_SUSPEND) /\
    (0 < time -> ThreadTimer t ∈ k_timer_list k' /\ due_key k' (ThreadTimer t) = time).
Proof.
  intros H Hr He Hok Ho Hn Ew Hto Ht. pose proof Hok as [Em Hf Hcl Hst]. rewrite Ho in Hst.
  destruct Hst as (Hv & Hh & Hop & Ha & Hnw). pose proof Hr as (Hc & Et & Hs).
  destruct (boost_spec k t th w oth H Hr Ha Ew Hn) as (k1 & E1 & Hb).
  destruct (boost_frame k k1 t th w oth o m Hb H Hr Ew Hn Hok) as (H1 & Hr1 & Hok1 & El1 & _ & Et1 & oth1 & Ew1 & Hp1).
  pose proof Hr1 as (_ & Et1' & _).
  destruct (block_spec k1 t th (LSuspend o) (ipc_flag (mtx_obj m)) time (with_error RT_EOK) H1 Hr1)
    as (k' & E' & B); [done..|].
  assert (upd_thread t (with_error RT_EOK) k1 = k1) as Eid by (rewrite <- He; by apply upd_error_id).
  rewrite Eid in E'.
  assert (forall s, s <> t -> thread_moved (k_threads k1 !! s) (k_threads k' !! s)) as Hmv.
  { destruct (wait_spec k1 t th (LSuspend o) (ipc_flag (mtx_obj m)) time) as (k2 & E2 & W); try done.
    rewrite E' in E2. injection E2 as <-. apply W. }
  exists k'. split_and!.
  - unfold mutex_again, get_mutex. munfold. rewrite Em, Et, Hv, Ho. rewrite !decide_False by done.
    rewrite Ew. munfold. rewrite E1. by rewrite E'.
  - apply B.
  - apply (mutex_ok_blocked k1 k' o m t (ipc_flag (mtx_obj m)) time); congruence || done.
  - rewrite (bl_list _ _ _ _ _ _ _ B), El1. apply enqueue_ext.
    intros s Hin. unfold priority_of. rewrite Et1; [done|]. intros ->. by apply elem_of_cons in Hin as [].
  - intros x x' Ex Ex'. simplify_eq. unfold priority_of. rewrite Et. simpl.
    destruct (moved_base _ _ (Hmv w Hn) _ Ew1) as (s & Es & _). simplify_eq. exact Hp1.
  - intros s Hsw. unfold priority_of. destruct (decide (s = t)) as [->|Hst].
    + destruct (bl_thread _ _ _ _ _ _ _ B) as (x & st & Ex & Es & _). by rewrite Es, Et; simplify_eq.
    + rewrite <- (Et1 s Hsw). by destruct (Hmv s Hst) as [->|(x & st & -> & -> & _)].
  - destruct (bl_thread _ _ _ _ _ _ _ B) as (x & s & _ & Es & Hst). eexists. split; [exact Es|done].
  - intros Hp. by apply (bl_timer _ _ _ _ _ _ _ B).
Qed.

(** What [rt_mutex_take] does.  A thread that gets a free mutex leaves its
    priority in it, and only the owner's priority can change. *)
Definition mutex_takes (k : kstate) (t : tid) (o : oid) (m : mutex) (time : Z) : Prop :=
  exists r k' m' a',
    rt_mutex_take o time k = Some (r, k') /\ kwf k' /\ mutex_ok k' o m' /\
    amutex_take (ipc_flag (mtx_obj m)) (priority_of k) t time (mutex_view k o m) = (a', mutex_view k' o m') /\
    same_outcome r a' /\
    mtx_original_priority m' = match mtx_owner m with None => priority_of k t | Some _ => mtx_original_priority m end /\
    (forall s, mtx_owner m <> Some s -> priority_of k' s = priority_of k s) /\
    (a' = Blocked tt -> r = Blocked (MutexFrame o t time) /\
       (forall w, mtx_owner m = Some w -> inherits k k' t w) /\
       (exists th', k_threads k' !! t = Some th' /\ stat_base th' = RT_THREAD_SUSPEND) /\
       (0 < time -> ThreadTimer t ∈ k_timer_list k' /\ due_key k' (ThreadTimer t) = time)).

Lemma rt_mutex_take_sim k t th o m time :
  kwf k -> running k t th -> k_irq_nest k = 0 -> mutex_ok k o m -> time < HALF ->
  (mtx_owner m = Some t -> mtx_hold m < 255) -> mutex_takes k t o m time.
Proof.
  intros H Hr Hi Hok Hto Hh. unfold mutex_takes. pose proof Hok as [Em Hf Hcl Hst]. pose proof Hr as (Hc & Et & Hs).
  set (k0 := upd_thread t (with_error RT_EOK) k).
  assert (kwf k0) as H0 by (by apply kwf_upd_keep).
  assert (running k0 t (with_error RT_EOK th)) as Hr0 by (by apply running_upd).
  assert (mutex_ok k0 o m) as Hok0 by (by eapply mutex_ok_clear).
  pose proof Hr0 as (_ & Et0 & _).
  assert (rt_mutex_take o time k = (if decide (mtx_owner m = Some t) then
      Some (Returned RT_EOK, with_mutexes (insert o (Mutex (mtx_obj m) (mtx_value m) (mtx_original_priority m)
        (u8 (mtx_hold m + 1)) (mtx_owner m))) k0) else mutex_again o t time k0)) as Erun.
  { unfold rt_mutex_take, get_mutex, put_mutex. munfold. rewrite (in_thread_context_eval k t) by done.
    rewrite Em, Hc, Et. fold k0. by case_decide. }
  assert (forall s, priority_of k0 s = priority_of k s) as Hp0 by (intros; by apply priority_of_upd).
  rewrite Erun. unfold mutex_view, amutex_take. destruct (mtx_owner m) as [w|] eqn:Ho.
  - destruct Hst as (Hv & Hh1 & Hop & Ha & Hnw). destruct (decide (w = t)) as [->|Hn].
    + rewrite decide_True by done. specialize (Hh eq_refl).
      rewrite (wrap_small 8) by (unfold in_range; lia). eexists _, _, _, _. split; [done|].
      split; [by apply kwf_with_mutexes|]. split.
      * apply (mutex_ok_put k0 o m); [done|done|]. cbn [mtx_owner mtx_value mtx_hold mtx_original_priority].
        split_and!; try done; try lia. by apply alive_upd.
      * split; [done|]. split; [done|]. split; [done|]. split; [intros; apply Hp0|by intros].
    + rewrite decide_False by congruence. destruct Ha as (oth & Ew & Ha').
      assert (k_threads k0 !! w = Some oth) as Ew0 by (unfold k0; by rewrite upd_thread_lookup, decide_False).
      destruct (decide (time = 0)) as [->|Ht].
      * set (k1 := upd_thread t (with_error (- RT_ETIMEOUT)) k0).
        exists (Returned (- RT_ETIMEOUT)), k1, m, (Returned (- RT_ETIMEOUT)). rewrite Ho. split.
        { unfold mutex_again, get_mutex. munfold. change (k_mutexes k0) with (k_mutexes k). rewrite Em, Et0, Hv. rewrite decide_False, decide_True by done. by rewrite Et0. }
        split; [by apply kwf_upd_keep|]. split; [|split_and!; try done; intros; unfold k1; by rewrite priority_of_upd].
        destruct Hok0 as [G1 G2 G3 G4]. split; try done.
        -- intros s Hs0. assert (s <> t) as Hne.
           { intros ->. apply (running_notin ∅ k t th (LSuspend o)) in Hs0; [done|apply H|done|done]. }
           destruct (G3 s Hs0) as (x & Ex & Hx). exists x. split; [|done].
           unfold k1. by rewrite upd_thread_lookup, decide_False.
        -- rewrite Ho in *. split_all; try done. by apply alive_upd.
      * destruct (mutex_wait_spec k0 t _ w oth o m time H0 Hr0 eq_refl Hok0 Ho Hn Ew0 Hto Ht)
          as (k' & E' & Hk' & Hok' & El' & Hin & Hpr & Hsu & Hti).
        exists (Blocked (MutexFrame o t time)), k', m, (Blocked tt). rewrite Ho. split_and!; try done.
        -- rewrite El'. unfold k0. by rewrite enqueue_upd.
        -- intros s Hsw. rewrite Hpr, Hp0 by congruence. done.
        -- intros _. split_and!; try done. intros x [= <-] a b Ea Eb. simplify_eq. specialize (Hin oth b Ew0 Eb). by rewrite Hp0 in Hin.
  - rewrite decide_False by done. destruct Hst as (Hv & Hh0 & Hop & El).
    exists (Returned RT_EOK). eexists _, _, _. split.
    { unfold mutex_again, get_mutex, put_mutex. munfold. change (k_mutexes k0) with (k_mutexes k). rewrite Em, Et0, Hv, Hh0. done. }
    split; [by apply kwf_with_mutexes|]. split.
    + apply (mutex_ok_put k0 o m); [done|done|]. simpl. split_and!; try done.
      * apply (thread_prio k t th H Et).
      * apply (thread_prio k t th H Et).
      * by eapply running_alive.
      * change (k_lists k0) with (k_lists k). rewrite El. set_solver.
    + split; [simpl; by rewrite El|]. split; [done|]. split; [unfold priority_of; by rewrite Et|]. split; [intros; apply Hp0|by intros].
Qed.

(** ** Releasing *)

Lemma mutex_ok_value k o m v op hold owner t :
  mutex_ok k o m -> mtx_owner m = Some t -> owner = Some t -> v = 0 -> 1 <= hold < 2 ^ 8 ->
  op = mtx_original_priority m ->
  mutex_ok (with_mutexes (insert o (Mutex (mtx_obj m) v op hold owner)) k) o (Mutex (mtx_obj m) v op hold owner).
Proof.
  intros Hok Ho -> -> Hh ->. apply (mutex_ok_put k o m); [done|done|]. simpl.
  pose proof (mo_owner _ _ _ Hok) as Hst. rewrite Ho in Hst. split_all; done.
Qed.

(** The owner gets back the priority it had when it took the mutex. *)
Lemma restore_spec k t th p :
  kwf k -> running k t th -> 0 <= p < RT_THREAD_PRIORITY_MAX ->
  exists k' th', when (bool_decide (p <> th_current_priority th))
      (_ ← rt_thread_control t (CTRL_CHANGE_PRIORITY p); mret tt) k = Some (tt, k') /\
    kwf k' /\ running k' t th' /\ th_current_priority th' = p /\ objects k' = objects k /\
    k_current k' = k_current k /\
    (forall h, wait_head h -> k_lists k' h = k_lists k h) /\
    (forall s, s <> t -> k_threads k' !! s = k_threads k !! s).
Proof.
  intros H Hr Hp. pose proof Hr as (Hc & E & Hs). case_bool_decide as Hd.
  - destruct (control_priority_spec k t p H (running_alive _ _ _ Hr) Hp) as (k' & Ek & R).
    destruct (rp_thread _ _ _ _ R) as (x & th' & Ex & E' & Hs' & Hp' & _). simplify_eq.
    exists k', th'. split; [simpl; munfold; by rewrite Ek|]. split; [apply R|]. split.
    { split_and!; [by rewrite (rp_current _ _ _ _ R)|done|congruence]. }
    split; [done|]. split; [by apply rest_objects, R|]. split; [apply R|].
    split; [|by apply (rp_threads _ _ _ _ R)]. intros h Hh. by apply (rp_waits _ _ _ _ R), wait_not_ready.
  - exists k, th. split; [done|]. split_and!; try done.
Qed.

(** The hand-over to the first waiter. *)
Lemma hand_over_spec k o m w l wth :
  kwf k -> is_Some (k_current k) -> k_mutexes k !! o = Some m -> flag_ok (ipc_flag (mtx_obj m)) ->
  waiters_clean k (LSuspend o) -> mtx_value m = 0 -> mtx_hold m = 0 ->
  k_lists k (LSuspend o) = w :: l -> k_threads k !! w = Some wth ->
  exists k1 k' m', mutex_hand_over o k = Some (true, k1) /\ rt_schedule k1 = Some (tt, k') /\ kwf k' /\
    mutex_ok k' o m' /\ mtx_owner m' = Some w /\ mtx_hold m' = 1 /\
    mtx_original_priority m' = th_current_priority wth /\ k_lists k' (LSuspend o) = l /\
    (forall s, s <> w -> thread_moved (k_threads k !! s) (k_threads k' !! s)) /\
    exists wth', k_threads k' !! w = Some wth' /\ awake wth' /\ th_error wth' = RT_EOK /\
      th_current_priority wth' = th_current_priority wth.
Proof.
  intros H Hc Em Hf Hcl Hv Hh El Ew.
  set (m1 := Mutex (mtx_obj m) (mtx_value m) (th_current_priority wth) (u8 (mtx_hold m + 1)) (Some w)).
  set (k0 := with_mutexes (insert o m1) k).
  assert (kwf k0) as H0 by (by apply kwf_with_mutexes).
  destruct (resume_and_schedule k0 (LSuspend o) w l H0) as (k1 & k' & E1 & E' & W); [done..|].
  destruct (woken_error _ _ _ _ W Hcl) as (wth' & Ew' & Ha & He).
  destruct (wk_thread _ _ _ _ W) as (x & s & Ex & Es & _). change (k_threads k0 !! w) with (k_threads k !! w) in Ex.
  simplify_eq.
  assert (k_lists k' (LSuspend o) = l) as El'.
  { by apply (woken_head k0 k' (LSuspend o) w l). }
  destruct (objects_inj _ _ (wk_objects _ _ _ _ W)) as (_ & Emx & _).
  pose proof (wf_nodup _ _ (proj1 (kwf_sched _ H)) (LSuspend o)) as Hnd. rewrite El in Hnd.
  apply NoDup_cons in Hnd as [Hnl _].
  exists k1, k', m1. split_and!; try done.
  - unfold mutex_hand_over, get_mutex, put_mutex. munfold. rewrite Em, El, bool_decide_false by done. simpl.
    rewrite El. simpl. rewrite Ew. fold m1. fold k0. by rewrite E1.
  - apply W.
  - split; [rewrite Emx; simpl; by rewrite lookup_insert_eq|done|by apply (woken_clean k0 k' (LSuspend o) w)|].
    unfold m1. simpl. rewrite Hh. split_and!; try done; [apply (thread_prio k w wth H Ew)..| |by rewrite El'].
    eexists. split; [done|]. destruct Ha as [-> | ->]; done.
  - unfold m1. simpl. by rewrite Hh.
  - intros x Hn. apply (wk_threads _ _ _ _ W x Hn).
  - eexists. done.
Qed.

(** The last release, seen from the state with the count at zero. *)
Lemma last_release_sim k0 t th o m :
  kwf k0 -> running k0 t th -> k_mutexes k0 !! o = Some m -> flag_ok (ipc_flag (mtx_obj m)) ->
  waiters_clean k0 (LSuspend o) -> mtx_value m = 0 -> mtx_hold m = 0 ->
  0 <= mtx_original_priority m < RT_THREAD_PRIORITY_MAX -> (t ∉ k_lists k0 (LSuspend o)) ->
  exists k1 k' need m', (th ← get_thread t;
      when (bool_decide (mtx_original_priority m <> th_current_priority th))
           (_ ← rt_thread_control t (CTRL_CHANGE_PRIORITY (mtx_original_priority m)); mret tt);;
      mutex_hand_over o) k0 = Some (need, k1) /\
    when need rt_schedule k1 = Some (tt, k') /\ kwf k' /\ mutex_ok k' o m' /\
    mutex_view k' o m' = match k_lists k0 (LSuspend o) with [] => (None, 0, []) | w :: q => (Some w, 1, q) end /\
    (exists th', k_threads k' !! t = Some th' /\ th_current_priority th' = mtx_original_priority m) /\
    (forall w, mtx_owner m' = Some w -> w <> t /\
       mtx_original_priority m' = priority_of k0 w /\ priority_of k' w = priority_of k0 w /\
       rt_mutex_take_resume (MutexFrame o w (-1)) k' = Some (Returned RT_EOK, k')) /\
    (forall s, s <> t -> priority_of k' s = priority_of k0 s).
Proof.
  intros H0 Hr Em Hf Hcl Hv Hh Hp Hnt. pose proof Hr as (Hc & E & Hs).
  destruct (restore_spec k0 t th (mtx_original_priority m) H0 Hr Hp) as
    (k1 & th' & E1 & H1 & Hr1 & Hpt & Ho1 & Hc1 & Hl1 & Hth1).
  destruct (objects_inj _ _ Ho1) as (_ & Em1 & _). specialize (Hl1 (LSuspend o) I).
  pose proof Hr1 as (Hc1' & Et1 & Hs1).
  assert (waiters_clean k1 (LSuspend o)) as Hcl1.
  { intros s. rewrite Hl1. intros Hin. destruct (Hcl s Hin) as (x & Ex & Hx). exists x.
    rewrite Hth1; [done|]. by intros ->. }
  destruct (k_lists k0 (LSuspend o)) as [|w l] eqn:El.
  - set (m1 := Mutex (mtx_obj m) (u16 (mtx_value m + 1)) 0xff (mtx_hold m) None).
    set (k2 := with_mutexes (insert o m1) k1).
    exists k2, k2, false, m1. split.
    { munfold. rewrite E, E1. unfold mutex_hand_over, get_mutex, put_mutex. munfold. rewrite Em1, Em, Hl1. done. }
    split; [done|]. split; [by apply kwf_with_mutexes|]. split.
    { split; [simpl; by rewrite lookup_insert_eq|done|done|]. simpl. rewrite Hv, Hh. split_and!; done. }
    split; [unfold mutex_view; simpl; by rewrite Hl1, Hh|]. split; [exists th'; done|]. split; [done|].
    intros s Hn. unfold priority_of. simpl. by rewrite Hth1.
  - assert (w <> t) as Hwt by set_solver.
    destruct (waiter_suspended k0 (LSuspend o) w) as (wth & Ew & _); [apply H0|done|rewrite El; left|].
    destruct (hand_over_spec k1 o m w l wth) as (k2 & k' & m' & E2 & E3 & Hk' & Hok' & Ho' & Hh' & Hop' & El' & Hmv & wth' & Ew' & Ha & He & Hpw);
      try done; [by rewrite Em1|by rewrite Hth1|].
    assert (forall s, s <> t -> priority_of k' s = priority_of k0 s) as Hpr.
    { intros s Hn. unfold priority_of. rewrite <- (Hth1 s Hn). destruct (decide (s = w)) as [->|Hsw].
      - rewrite Ew', Hth1, Ew by done. done.
      - destruct (Hmv s Hsw) as [->|(x & st & -> & -> & _)]; done. }
    exists k2, k', true, m'. split; [munfold; by rewrite E, E1, E2|]. split; [done|]. split; [done|]. split; [done|].
    split; [unfold mutex_view; by rewrite Ho', Hh', El'|]. split.
    { destruct (moved_base _ _ (Hmv t (not_eq_sym Hwt)) _ Et1) as (s & Es & _). eexists. split; [exact Es|done]. }
    split; [|done]. intros x Hx. rewrite Ho' in Hx. injection Hx as <-.
    split; [done|]. split; [rewrite Hop'; unfold priority_of; by rewrite Ew|]. split; [by apply Hpr|].
    unfold rt_mutex_take_resume. munfold. rewrite Ew', He. by case_decide.
Qed.

(** What [rt_mutex_release] does. *)
Definition mutex_releases (k : kstate) (t : tid) (o : oid) (m : mutex) : Prop :=
  exists r k' m',
    rt_mutex_release o k = Some (r, k') /\ kwf k' /\ mutex_ok k' o m' /\
    amutex_release t (mutex_view k o m) = (r, mutex_view k' o m') /\
    (forall s, s <> t -> priority_of k' s = priority_of k s) /\
    if decide (mtx_owner m = Some t /\ mtx_hold m = 1)
    then priority_of k' t = mtx_original_priority m /\
       forall w, mtx_owner m' = Some w -> mtx_original_priority m' = priority_of k w /\
         rt_mutex_take_resume (MutexFrame o w (-1)) k' = Some (Returned RT_EOK, k')
    else priority_of k' t = priority_of k t /\ mtx_original_priority m' = mtx_original_priority m.

Lemma rt_mutex_release_sim k t th o m :
  kwf k -> running k t th -> k_irq_nest k = 0 -> mutex_ok k o m -> mutex_releases k t o m.
Proof.
  intros H Hr Hi Hok. unfold mutex_releases. pose proof Hok as [Em Hf Hcl Hst]. pose proof Hr as (Hc & Et & Hs).
  unfold rt_mutex_release, get_mutex. munfold. rewrite Em, (in_thread_context_eval k t), Hc by done.
  unfold amutex_release, mutex_view. case_decide as Hd.
  - rewrite Et. eexists _, _, m. split; [done|]. split; [by apply kwf_upd_keep|]. split.
    + split; try done.
      * intros s Hs0. assert (s <> t) as Hne.
        { intros ->. apply (running_notin ∅ k t th (LSuspend o)) in Hs0; [done|apply H|done|done]. }
        destruct (Hcl s Hs0) as (x & Ex & Hx). exists x. split; [|done]. simpl. by rewrite lookup_alter_ne.
      * destruct (mtx_owner m); [|done]. split_all; try done. by apply alive_upd.
    + split; [rewrite decide_False by congruence; done|].
      split; [intros s _; by apply priority_of_upd|]. rewrite decide_False by (intros []; congruence). split; [by apply priority_of_upd|done].
  - assert (mtx_owner m = Some t) as Ho by (destruct (decide (Some t = mtx_owner m)); [done|tauto]).
    rewrite Ho in *. destruct Hst as (Hv & Hh & Hop & Ha & Hnt). unfold put_mutex. munfold.
    rewrite (wrap_small 8) by (unfold in_range; lia). rewrite (decide_True (P := Some t = Some t)) by done.
    set (m1 := Mutex (mtx_obj m) (mtx_value m) (mtx_original_priority m) (mtx_hold m - 1) (Some t)).
    set (k0 := with_mutexes (insert o m1) k).
    destruct (decide (mtx_hold m - 1 = 0)) as [Hz|Hz].
    + destruct (last_release_sim k0 t th o m1) as (k1 & k' & need & m' & E1 & E2 & Hk' & Hok' & Hview & (th' & Et' & Hp') & Hw & Hpr);
        try done; [by apply kwf_with_mutexes|simpl; by rewrite lookup_insert_eq|].
      munfold. cbn [mtx_original_priority m1] in E1. rewrite E1. unfold when in E2. rewrite E2.
      exists RT_EOK, k', m'. split; [done|]. split; [done|]. split; [done|]. split.
      { rewrite (decide_False (P := 1 < mtx_hold m)) by lia. change (k_lists k0) with (k_lists k) in Hview.
        unfold mutex_view in Hview. by rewrite Hview. }
      split; [exact Hpr|]. rewrite decide_True by (split; [done|lia]). split; [unfold priority_of; by rewrite Et'|].
      intros w Ew. destruct (Hw w Ew) as (_ & ? & _ & ?). done.
    + exists RT_EOK, k0, m1. split; [done|]. split; [by apply kwf_with_mutexes|]. split.
      { apply (mutex_ok_value k o m _ _ _ _ t); try done. lia. }
      split; [rewrite decide_True by lia; done|]. split; [done|]. rewrite decide_False by (intros [_ ?]; lia). done.
Qed.

(** Thread 0 owns the mutex 7 and thread 2 waits for it; the idle thread 1 owns
    the mutex 8. *)
Definition demo_mutex_7 : mutex := Mutex (Ipc true RT_IPC_FLAG_PRIO) 0 10 1 (Some 0%nat).
Definition demo_mutex_8 : mutex := Mutex (Ipc true RT_IPC_FLAG_PRIO) 0 31 1 (Some 1%nat).
Definition demo_mutex : kstate := demo_with ∅ (<[7%nat := demo_mutex_7]> (<[8%nat := demo_mutex_8]> ∅)) ∅ ∅ ∅.

Lemma demo_mutex_ok_7 : mutex_ok demo_mutex 7 demo_mutex_7.
Proof.
  split; [done|by right|apply demo_clean|]. split_and!; try done; [by eexists|].
  by intros []%demo_in; destruct_and?.
Qed.

Lemma demo_mutex_ok_8 : mutex_ok demo_mutex 8 demo_mutex_8.
Proof.
  split; [done|by right|apply demo_clean|]. split_and!; try done; [by eexists|].
  by intros []%demo_in; destruct_and?.
Qed.

(** C23: A mutex implements the abstract recursive mutex with priority
    inheritance: [rt_mutex_take] (by a thread that holds it less than 255 times,
    as its count has 8 bits) of a free mutex notes the priority of the caller in
    it; of a mutex that another thread holds it queues the caller, suspended,
    with its timer started, and leaves the owner running at the higher of the
    two priorities; no other priority changes. [rt_mutex_release] answers
    [-RT_ERROR] to a thread that is not the owner; the last release gives the
    owner the noted priority back, changes no other one, and hands the mutex to
    the first waiter, whose priority is noted and whose [rt_mutex_take] then
    returns [RT_EOK]; any other release changes neither the priorities nor the
    noted one. *)
Theorem rt_mutex_refines k t th o m time :
  kwf k -> running k t th -> k_irq_nest k = 0 -> mutex_ok k o m -> time < HALF ->
  ((mtx_owner m = Some t -> mtx_hold m < 255) -> mutex_takes k t o m time) /\ mutex_releases k t o m.
Proof. intros H Hr Hi Hok Ht. split; [intros Hh; by eapply rt_mutex_take_sim|by eapply rt_mutex_release_sim]. Qed.

Lemma rt_mutex_refines_witness :
  (exists k',
  rt_mutex_take 8 (-1) demo_mutex = Some (Blocked (MutexFrame 8 0 (-1)), k') /\ kwf k' /\
  k_lists k' (LSuspend 8) = [0%nat] /\ inherits demo_mutex k' 0 1) /\
  (exists k',
  rt_mutex_release 7 demo_mutex = Some (RT_EOK, k') /\ kwf k' /\ mtx_owner <$> k_mutexes k' !! 7%nat = Some (Some 2%nat)).
Proof.
  split.
  - destruct (rt_mutex_refines demo_mutex 0 (demo_thread RT_THREAD_RUNNING 10) 8 demo_mutex_8 (-1) (demo_with_kwf _ _ _ _ _)
      demo_running eq_refl demo_mutex_ok_8 ltac:(done)) as [T _]. destruct T as (r & k' & m' & a' & E & H & _ & Ea & Hr & Hi); [done|].
    vm_compute in Ea. assert (a' = Blocked tt) as -> by congruence.
    destruct r as [z|[o t time]]; [done|]. exists k'.
    assert (rt_mutex_take 8 (-1) demo_mutex = Some (Blocked (MutexFrame 8 0 (-1)), k')) as E'.
    { rewrite E. assert (fst <$> rt_mutex_take 8 (-1) demo_mutex = Some (Blocked (MutexFrame 8 0 (-1)))) as Ef by (by vm_compute).
      rewrite E in Ef. simpl in Ef. congruence. }
    split_and!; [done|done|vm_compute in Ea |- *; congruence|]. apply Hi; [congruence|done].
  - destruct (rt_mutex_refines demo_mutex 0 (demo_thread RT_THREAD_RUNNING 10) 7 demo_mutex_7 0 (demo_with_kwf _ _ _ _ _)
      demo_running eq_refl demo_mutex_ok_7 ltac:(done)) as [_ (r & k' & m' & E & H & [Em _ _ _] & Ea & _)].
    exists k'. rewrite Em. vm_compute in Ea. assert (r = 0) as -> by congruence.
    split_and!; [done|done|]. simpl. f_equal. destruct m'. simpl in Ea |- *. congruence.
Defined.
