(* ===== verification/Event.v ===== *)
(** * Event: event sets

    The event section of ipc.c.  [event_send_loop] walks the wait list as it was
    when the walk began: the code reads [n->next] before it resumes the thread of
    [n], and resuming takes only that thread off the list.  [aevent_send] is the
    abstract walk.  The invariant says that no wake-up is lost: nobody waits for
    events that are there. *)

From S2P Require Import Kernel Sched Object Timer Thread Ipc Demo Sem.

(** ** Operations *)

Definition get_event (o : oid) : KM event := deref (fun k => k_events k !! o).
Definition put_event (o : oid) (e : event) : KM unit := modify (with_events (insert o e)).
Definition set_event_set (o : oid) (f : Z -> Z) : KM unit :=
  e ← get_event o; put_event o (Event (ev_obj e) (f (ev_set e))).

Definition rt_event_init (event : oid) (flag : Z) : KM Z :=
  rt_object_init (has k_events event);;
  _ ← rt_ipc_object_init event;
  put_event event (Event (Ipc true flag) 0);;
  mret RT_EOK.

Definition rt_event_detach (event : oid) : KM Z :=
  e ← get_event event;
  rt_assert (ipc_static (ev_obj e));;
  _ ← rt_ipc_list_resume_all (LSuspend event);
  modify (with_events (delete event));;
  mret RT_EOK.

Definition rt_event_create (new : option oid) (flag : Z) : KM (option oid) :=
  RT_DEBUG_NOT_IN_INTERRUPT;;
  obj ← rt_object_allocate new;
  match obj with
  | None => mret None
  | Some event =>
    _ ← rt_ipc_object_init event;
    put_event event (Event (Ipc false flag) 0);;
    mret (Some event)
  end.

Definition rt_event_delete (event : oid) : KM Z :=
  e ← get_event event;
  rt_assert (negb (ipc_static (ev_obj e)));;
  RT_DEBUG_NOT_IN_INTERRUPT;;
  _ ← rt_ipc_list_resume_all (LSuspend event);
  modify (with_events (delete event));;
  mret RT_EOK.

Definition has_flag (x flag : Z) : bool := bool_decide (Z.land x flag <> 0).

(** The test of one waiting thread; an OR waiter gets the events that are set. *)
Definition event_status (t : tid) (set : Z) : KM bool :=
  th ← get_thread t;
  if has_flag (th_event_info th) RT_EVENT_FLAG_AND then
    mret (bool_decide (Z.land (th_event_set th) set = th_event_set th))
  else if has_flag (th_event_info th) RT_EVENT_FLAG_OR then
    if bool_decide (Z.land (th_event_set th) set <> 0) then
      set_thread t (fun th => with_event (Z.land (th_event_set th) set) (th_event_info th) th);;
      mret true
    else mret false
  else mret false.

Fixpoint event_send_loop (event : oid) (l : list tid) (need_schedule : bool) : KM bool :=
  match l with
  | [] => mret need_schedule
  | t :: l =>
    e ← get_event event;
    status ← event_status t (ev_set e);
    if (status : bool) then
      th ← get_thread t;
      when (has_flag (th_event_info th) RT_EVENT_FLAG_CLEAR)
        (set_event_set event (fun s => Z.land s (Z.lnot (th_event_set th))));;
      _ ← rt_thread_resume t;
      event_send_loop event l true
    else event_send_loop event l need_schedule
  end.

Definition rt_event_send (event : oid) (set : Z) : KM Z :=
  e ← get_event event;
  if decide (set = 0) then mret (- RT_ERROR)
  else
    set_event_set event (fun s => Z.lor s set);;
    l ← gets (fun k => k_lists k (LSuspend event));
    need_schedule ← event_send_loop event l false;
    when need_schedule rt_schedule;;
    mret RT_EOK.

Inductive event_frame := EventFrame (t : tid).

(** The results carry what is stored through [recved]. *)
Definition rt_event_recv (event : oid) (set option timeout : Z) : KM (outcome event_frame (Z * Datatypes.option Z)) :=
  RT_DEBUG_IN_THREAD_CONTEXT;;
  e ← get_event event;
  if decide (set = 0) then mret (Returned (- RT_ERROR, None))
  else
    t ← self;
    set_thread t (with_error RT_EOK);;
    status ←
      (if has_flag option RT_EVENT_FLAG_AND then mret (bool_decide (Z.land (ev_set e) set = set))
       else if has_flag option RT_EVENT_FLAG_OR then mret (bool_decide (Z.land (ev_set e) set <> 0))
       else halt);
    if (status : bool) then
      when (has_flag option RT_EVENT_FLAG_CLEAR) (set_event_set event (fun s => Z.land s (Z.lnot set)));;
      mret (Returned (RT_EOK, Some (Z.land (ev_set e) set)))
    else if decide (timeout = 0) then
      set_thread t (with_error (- RT_ETIMEOUT));;
      mret (Returned (- RT_ETIMEOUT, None))
    else
      set_thread t (with_event set option);;
      wait (LSuspend event) t (ipc_flag (ev_obj e)) timeout;;
      mret (Blocked (EventFrame t)).

Definition rt_event_recv_resume (f : event_frame) : KM (Z * Datatypes.option Z) :=
  let '(EventFrame t) := f in
  th ← get_thread t;
  if decide (th_error th <> RT_EOK) then mret (th_error th, None)
  else mret (th_error th, Some (th_event_set th)).

Definition rt_event_control (event : oid) (cmd : Z) : KM Z :=
  e ← get_event event;
  if decide (cmd = RT_IPC_CMD_RESET) then
    _ ← rt_ipc_list_resume_all (LSuspend event);
    set_event_set event (fun _ => 0);;
    rt_schedule;;
    mret RT_EOK
  else mret (- RT_ERROR).

(** ** The abstract event set *)

(** A waiter: who, for what, how. *)
Record waiter := Waiter { wt_tid : tid; wt_want : Z; wt_option : Z }.

Definition event_match (option want set : Z) : bool :=
  if has_flag option RT_EVENT_FLAG_AND then bool_decide (Z.land want set = want)
  else has_flag option RT_EVENT_FLAG_OR && bool_decide (Z.land want set <> 0).

(** The events a matching waiter gets. *)
Definition event_got (option want set : Z) : Z :=
  if has_flag option RT_EVENT_FLAG_AND then want else Z.land want set.

Definition event_clear (option got set : Z) : Z :=
  if has_flag option RT_EVENT_FLAG_CLEAR then Z.land set (Z.lnot got) else set.

(** The set that is left, who is woken with what, and who goes on waiting. *)
Fixpoint aevent_send (set : Z) (ws : list waiter) : Z * list (tid * Z) * list waiter :=
  match ws with
  | [] => (set, [], [])
  | w :: ws =>
    if event_match (wt_option w) (wt_want w) set then
      let got := event_got (wt_option w) (wt_want w) set in
      let '(set', woken, waits) := aevent_send (event_clear (wt_option w) got set) ws in
      (set', (wt_tid w, got) :: woken, waits)
    else
      let '(set', woken, waits) := aevent_send set ws in (set', woken, w :: waits)
  end.

Definition ev_waiter (k : kstate) (t : tid) : waiter :=
  Waiter t (from_option th_event_set 0 (k_threads k !! t)) (from_option th_event_info 0 (k_threads k !! t)).

Definition subset (a b : Z) : Prop := Z.land a b = a.

Lemma subset_trans a b c : subset a b -> subset b c -> subset a c.
Proof. unfold subset. intros H1 H2. rewrite <- H1 at 1. by rewrite <- Z.land_assoc, H2. Qed.

Lemma event_match_mono option want a b : subset a b -> event_match option want b = false -> event_match option want a = false.
Proof.
  unfold subset, event_match. intros H. destruct (has_flag option RT_EVENT_FLAG_AND).
  - rewrite !bool_decide_eq_false. intros Hn E. apply Hn.
    rewrite <- E at 1. rewrite <- Z.land_assoc, H. done.
  - destruct (has_flag option RT_EVENT_FLAG_OR); [|done]. simpl. rewrite !bool_decide_eq_false. intros Hn E.
    apply Hn. intros Hb. apply E. by rewrite <- H, (Z.land_comm a), Z.land_assoc, Hb, Z.land_0_l.
Qed.

Lemma event_clear_subset option got set : subset (event_clear option got set) set.
Proof.
  unfold subset, event_clear. case_match; [|apply Z.land_diag].
  by rewrite <- Z.land_assoc, (Z.land_comm (Z.lnot got)), Z.land_assoc, Z.land_diag.
Qed.

(** Nobody is waits waiting for events that are there. *)
Lemma aevent_send_left ws : forall set set' woken waits,
  aevent_send set ws = (set', woken, waits) ->
  subset set' set /\ (forall w, w ∈ waits -> w ∈ ws /\ event_match (wt_option w) (wt_want w) set' = false).
Proof.
  induction ws as [|w ws IH]; intros set set' woken waits; simpl.
  - intros [= <- <- <-]. split; [apply Z.land_diag|set_solver].
  - destruct (event_match _ _ set) eqn:Em.
    + set (got := event_got _ _ _). destruct (aevent_send (event_clear _ got set) ws) as [[s1 w1] l1] eqn:E.
      intros [= <- <- <-]. destruct (IH _ _ _ _ E) as [H1 H2]. split.
      * eapply subset_trans; [done|apply event_clear_subset].
      * intros x Hx. destruct (H2 x Hx). split; [by right|done].
    + destruct (aevent_send set ws) as [[s1 w1] l1] eqn:E. intros [= <- <- <-].
      destruct (IH _ _ _ _ E) as [H1 H2]. split; [done|]. intros x [->|Hx]%elem_of_cons.
      * split; [left|]. by eapply event_match_mono.
      * destruct (H2 x Hx). split; [by right|done].
Qed.

(** ** Sending *)

Record event_ok (k : kstate) (o : oid) (e : event) : Prop := EventOk {
  eo_event : k_events k !! o = Some e;
  eo_range : in_range 32 (ev_set e);
  eo_flag : flag_ok (ipc_flag (ev_obj e));
  eo_clean : waiters_clean k (LSuspend o);
  eo_wait t : t ∈ k_lists k (LSuspend o) ->
    event_match (wt_option (ev_waiter k t)) (wt_want (ev_waiter k t)) (ev_set e) = false
}.

Lemma keeps_event s i : keeps (with_event s i).
Proof. done. Qed.

Lemma upd_event_id k t th : k_threads k !! t = Some th ->
  upd_thread t (with_event (th_event_set th) (th_event_info th)) k = k.
Proof.
  intros E. unfold upd_thread, with_threads.
  assert (alter (with_event (th_event_set th) (th_event_info th)) t (k_threads k) = k_threads k) as ->; [|by destruct k].
  apply alter_id. intros x Ex. simplify_eq. by destruct th.
Qed.

Lemma event_status_eval k t th set : k_threads k !! t = Some th ->
  event_status t set k =
    if event_match (th_event_info th) (th_event_set th) set
    then Some (true, upd_thread t (with_event (event_got (th_event_info th) (th_event_set th) set) (th_event_info th)) k)
    else Some (false, k).
Proof.
  intros E. unfold event_status, event_match, event_got. munfold. rewrite E.
  destruct (has_flag _ RT_EVENT_FLAG_AND).
  - case_bool_decide; [|done]. by rewrite upd_event_id.
  - destruct (has_flag _ RT_EVENT_FLAG_OR); [|done]. simpl. case_bool_decide; [|done]. rewrite E.
    do 2 f_equal. unfold upd_thread, with_threads. f_equal. apply alter_ext. intros x Ex. by simplify_eq.
Qed.

Definition event_with (e : event) (s : Z) : event := Event (ev_obj e) s.

(** What the walk has done: the scanned threads that matched are awake. *)
Record sent (k k' : kstate) (o : oid) (e : event) (pre l : list tid) (r : Z * list (tid * Z) * list waiter) : Prop := Sent {
  se_kwf : kwf k';
  se_event : k_events k' = <[o := event_with e (r.1.1)]> (k_events k);
  se_list : k_lists k' (LSuspend o) = pre ++ map wt_tid r.2;
  se_clean : waiters_clean k' (LSuspend o);
  se_woken t got : (t, got) ∈ r.1.2 -> exists th, k_threads k' !! t = Some th /\ awake th /\
    th_error th = RT_EOK /\ th_event_set th = got;
  se_threads t : (t ∉ map fst r.1.2) -> k_threads k' !! t = k_threads k !! t;
  se_other h : (forall p, h <> LReady p) -> h <> LSuspend o -> k_lists k' h = k_lists k h;
  se_current : k_current k' = k_current k;
  se_from t : t ∈ map fst r.1.2 -> t ∈ l
}.

Lemma resumed_current t th k : k_current (resumed t th k) = k_current k.
Proof.
  unfold resumed. destruct (awakened_fields t th (timer_stopped t (unlink t k))) as (_ & _ & _ & -> & _).
  by destruct (timer_stopped_fields t (unlink t k)) as (_ & _ & _ & -> & _).
Qed.

Lemma resumed_others t th k s : s <> t -> k_threads (resumed t th k) !! s = k_threads k !! s.
Proof.
  intros Hn. unfold resumed. destruct (awakened_fields t th (timer_stopped t (unlink t k))) as (_ & _ & _ & _ & _ & _ & A & _).
  rewrite A by done. by destruct (timer_stopped_fields t (unlink t k)) as (-> & _).
Qed.

Lemma ev_waiter_eq k t th : k_threads k !! t = Some th -> ev_waiter k t = Waiter t (th_event_set th) (th_event_info th).
Proof. intros E. unfold ev_waiter. by rewrite E. Qed.

Lemma map_ev_waiter k k' l : (forall t, t ∈ l -> k_threads k' !! t = k_threads k !! t) ->
  map (ev_waiter k') l = map (ev_waiter k) l.
Proof. intros H. apply map_ext_in. intros t Ht%list_elem_of_In. unfold ev_waiter. by rewrite H. Qed.

(** One match: the state in which the matched thread has left the list. *)
Lemma event_take k t th o e :
  kwf k -> k_events k !! o = Some e -> waiters_clean k (LSuspend o) -> t ∈ k_lists k (LSuspend o) ->
  k_threads k !! t = Some th -> stat_base th = RT_THREAD_SUSPEND ->
  event_match (th_event_info th) (th_event_set th) (ev_set e) = true ->
  let got := event_got (th_event_info th) (th_event_set th) (ev_set e) in
  let e' := event_with e (event_clear (th_event_info th) got (ev_set e)) in
  exists k', (forall l need, event_send_loop o (t :: l) need k = event_send_loop o l true k') /\
    kwf k' /\ k_events k' = <[o := e']> (k_events k) /\ waiters_clean k' (LSuspend o) /\
    (forall h, (forall p, h <> LReady p) -> k_lists k' h = if decide (h = LSuspend o) then lremove t (k_lists k h) else k_lists k h) /\
    k_current k' = k_current k /\ (forall s, s <> t -> k_threads k' !! s = k_threads k !! s) /\
    exists th', k_threads k' !! t = Some th' /\ awake th' /\ th_error th' = RT_EOK /\ th_event_set th' = got.
Proof.
  intros H Ee Hcl Hin E Hs Em got e'.
  set (k1 := upd_thread t (with_event got (th_event_info th)) k).
  set (th1 := with_event got (th_event_info th) th).
  assert (k_threads k1 !! t = Some th1) as E1 by (unfold k1; rewrite upd_thread_lookup, decide_True by done; by rewrite E).
  set (k2 := with_events (insert o e') k1).
  assert (when (has_flag (th_event_info th) RT_EVENT_FLAG_CLEAR)
        (set_event_set o (fun s => Z.land s (Z.lnot got))) k1 = Some (tt, k2)) as E2.
  { unfold set_event_set, get_event, put_event, k2, e', event_clear. munfold.
    destruct (has_flag _ RT_EVENT_FLAG_CLEAR); [change (k_events k1) with (k_events k); by rewrite Ee|].
    do 2 f_equal. unfold with_events, k1, upd_thread. simpl. unfold with_threads, event_with. simpl.
    rewrite insert_id; [by destruct k|]. rewrite Ee. by destruct e. }
  assert (kwf k2) as H2 by (apply (kwf_objects k1); [done..|]; by apply kwf_upd_keep).
  destruct (rt_thread_resume_spec k2 t th1 H2 E1 Hs) as [Er _].
  assert (woken k2 (resumed t th1 k2) (LSuspend o) t) as W by (by apply resumed_woken).
  assert (waiters_clean k2 (LSuspend o)) as Hcl2.
  { intros s Hs'. destruct (Hcl s Hs') as (x & Ex & Hx). unfold k2, k1. simpl. rewrite lookup_alter.
    case_decide; [subst; rewrite Ex; eexists; done|eauto]. }
  exists (resumed t th1 k2). split_and!.
  - intros l need. simpl. unfold get_event. munfold. rewrite Ee, (event_status_eval k t th) by done. rewrite Em.
    fold got k1. rewrite E1. cbn [th_event_info th_event_set th1 with_event]. unfold when in E2. rewrite E2. by rewrite Er.
  - apply W.
  - destruct (objects_inj _ _ (wk_objects _ _ _ _ W)) as (_ & _ & -> & _). done.
  - by apply (woken_clean k2 _ (LSuspend o) t).
  - intros h Hh. case_decide; [subst; by rewrite (wk_list _ _ _ _ W)|by rewrite (wk_other _ _ _ _ W)].
  - by rewrite resumed_current.
  - intros s Hn. rewrite resumed_others by done. simpl. by rewrite lookup_alter_ne.
  - destruct (woken_error _ _ _ _ W Hcl2) as (th' & E' & Ha & He). exists th'. split_and!; try done.
    destruct (wk_thread _ _ _ _ W) as (x & s & Ex & Es & _). change (k_threads k2) with (k_threads k1) in Ex. simplify_eq. done.
Qed.

Lemma event_send_loop_spec o : forall l k e pre need,
  kwf k -> k_events k !! o = Some e -> waiters_clean k (LSuspend o) -> k_lists k (LSuspend o) = pre ++ l ->
  exists k', event_send_loop o l need k =
      Some (need || negb (bool_decide ((aevent_send (ev_set e) (map (ev_waiter k) l)).1.2 = [])), k') /\
    sent k k' o e pre l (aevent_send (ev_set e) (map (ev_waiter k) l)).
Proof.
  induction l as [|t l IH]; intros k e pre need H Ee Hcl El.
  - exists k. simpl. rewrite orb_false_r. split; [done|]. split; try done; try set_solver.
    rewrite insert_id; [done|]. rewrite Ee. by destruct e.
  - assert (t ∈ k_lists k (LSuspend o)) as Hin by (rewrite El; set_solver).
    destruct (waiter_suspended k (LSuspend o) t) as (th & E & Hs); [apply H|done|done|].
    pose proof (wf_nodup _ _ (proj1 (kwf_sched _ H)) (LSuspend o)) as Hnd. rewrite El in Hnd.
    pose proof (lremove_middle t pre l Hnd) as Erm.
    apply NoDup_app in Hnd as (_ & Hpre & [Hnl _]%NoDup_cons).
    simpl map. rewrite (ev_waiter_eq k t th E). cbn [aevent_send wt_option wt_want wt_tid].
    destruct (event_match (th_event_info th) (th_event_set th) (ev_set e)) eqn:Em.
    + destruct (event_take k t th o e H Ee Hcl Hin E Hs Em) as (k1 & Er & H1 & Ee1 & Hcl1 & El1 & Ec1 & Eo1 & th' & E' & Ha & Herr & Hg).
      set (got := event_got _ _ _) in *. set (s1 := event_clear _ got _) in *.
      destruct (IH k1 (event_with e s1) pre true H1) as (k' & Erun & S).
      { rewrite Ee1. by rewrite lookup_insert_eq. }
      { done. }
      { rewrite El1 by done. by rewrite decide_True, El, Erm. }
      rewrite (map_ev_waiter k k1) in S, Erun by (intros s Hs'; apply Eo1; by intros ->).
      cbn [ev_set event_with] in S, Erun.
      destruct (aevent_send s1 (map (ev_waiter k) l)) as [[s2 w2] l2]. exists k'. cbn [fst snd] in *. rewrite Er, Erun. split.
      { rewrite (bool_decide_false ((t, got) :: w2 = [])) by done. by rewrite orb_true_r. }
      destruct S as [S1 S2 S3 S4 S5 S6 S7 S8 S9]. cbn [fst snd] in *. split; cbn [fst snd]; try done.
      * rewrite S2, Ee1, insert_insert_eq. done.
      * intros x g [[= -> ->]|Hx]%elem_of_cons; [|by apply S5]. exists th'. rewrite S6; [done|]. intros Hx. by apply Hnl, S9.
      * simpl. intros x [Hn Hx]%not_elem_of_cons. rewrite S6 by done. by apply Eo1.
      * intros h Hh Hn. rewrite S7 by done. rewrite El1 by done. by rewrite decide_False.
      * by rewrite S8.
      * simpl. intros x [->|Hx]%elem_of_cons; [left|]. right. by apply S9.
    + destruct (IH k e (pre ++ [t]) need H Ee Hcl) as (k' & Erun & S); [by rewrite El, <- app_assoc|].
      destruct (aevent_send (ev_set e) (map (ev_waiter k) l)) as [[s2 w2] l2]. exists k'. cbn [fst snd] in *. split.
      { rewrite <- Erun. simpl. unfold get_event. munfold. by rewrite Ee, (event_status_eval k t th), Em. }
      destruct S as [S1 S2 S3 S4 S5 S6 S7 S8 S9]. split; cbn [fst snd] in *; try done.
      * rewrite S3. simpl. by rewrite <- app_assoc.
      * intros x Hx. right. by apply S9.
Qed.

Lemma moved_waiter k k' t : thread_moved (k_threads k !! t) (k_threads k' !! t) -> ev_waiter k' t = ev_waiter k t.
Proof. unfold ev_waiter. intros [->|(th & s & -> & -> & _)]; done. Qed.

Lemma waits_tids k l set set' woken waits :
  aevent_send set (map (ev_waiter k) l) = (set', woken, waits) -> forall w, w ∈ waits -> w = ev_waiter k (wt_tid w) /\ wt_tid w ∈ l.
Proof.
  intros E w Hw. destruct (aevent_send_left _ _ _ _ _ E) as [_ H]. destruct (H w Hw) as [Hin _].
  apply list_elem_of_fmap in Hin as (t & -> & Ht). done.
Qed.

(** What [rt_event_send] does. *)
Definition event_sends (k : kstate) (o : oid) (e : event) (set : Z) : Prop :=
  exists k' e' woken, rt_event_send o set k = Some (RT_EOK, k') /\ kwf k' /\ event_ok k' o e' /\
    aevent_send (Z.lor (ev_set e) set) (map (ev_waiter k) (k_lists k (LSuspend o))) =
      (ev_set e', woken, map (ev_waiter k') (k_lists k' (LSuspend o))) /\
    (forall t got, (t, got) ∈ woken ->
       (exists th, k_threads k' !! t = Some th /\ awake th) /\
       rt_event_recv_resume (EventFrame t) k' = Some ((RT_EOK, Some got), k')) /\
    (forall t, t ∉ map fst woken -> thread_moved (k_threads k !! t) (k_threads k' !! t)).

Lemma rt_event_send_sim k o e set :
  kwf k -> is_Some (k_current k) -> event_ok k o e -> in_range 32 set -> set <> 0 -> event_sends k o e set.
Proof.
  intros H Hc [Ee Hr Hf Hcl Hw] Hs Hnz. unfold event_sends.
  set (e1 := event_with e (Z.lor (ev_set e) set)). set (k0 := with_events (insert o e1) k).
  destruct (event_send_loop_spec o (k_lists k (LSuspend o)) k0 e1 [] false) as (k1 & E1 & S);
    [by apply (kwf_objects k)|simpl; by rewrite lookup_insert_eq|done|done|].
  change (map (ev_waiter k0)) with (map (ev_waiter k)) in *. cbn [ev_set e1 event_with] in *.
  destruct (aevent_send (Z.lor (ev_set e) set) (map (ev_waiter k) (k_lists k (LSuspend o)))) as [[s' woken] waits] eqn:Ea.
  cbn [fst snd] in *. destruct S as [S1 S2 S3 S4 S5 S6 S7 S8 S9]. cbn [fst snd app] in *.
  destruct (maybe_schedule (false || negb (bool_decide (woken = []))) k1 S1) as (k' & E2 & H' & Ho & Hl & Hm);
    [by rewrite S8|].
  destruct (objects_inj _ _ Ho) as (_ & _ & Ee' & _). specialize (Hl (LSuspend o) ltac:(done)).
  destruct (aevent_send_left _ _ _ _ _ Ea) as [Hsub Hleft].
  assert (forall t, t ∈ map fst woken -> t ∉ k_lists k' (LSuspend o)) as Hdis.
  { intros t Ht Hin. apply list_elem_of_fmap in Ht as ([t' g] & -> & Ht). simpl in Hin.
    destruct (S5 t' g Ht) as (th & E & Ha & _). destruct (moved_awake _ _ (Hm t') _ E Ha) as (th' & E' & Ha' & _).
    destruct (waiter_suspended k' (LSuspend o) t') as (x & Ex & Hx); [apply H'|done|done|]. simplify_eq.
    by apply awake_not_suspended in Ha' as []. }
  assert (map (ev_waiter k') (k_lists k' (LSuspend o)) = waits) as Ews.
  { rewrite Hl, S3, map_map. transitivity (map (fun w : waiter => w) waits); [|apply map_id].
    apply map_ext_in. intros w Hwi%list_elem_of_In. destruct (waits_tids _ _ _ _ _ _ Ea w Hwi) as [Ew Hin].
    rewrite (moved_waiter k1 k') by done. rewrite Ew at 2. unfold ev_waiter. simpl.
    rewrite S6; [done|]. intros Hx. apply (Hdis _ Hx). rewrite Hl, S3. apply list_elem_of_fmap. eauto. }
  exists k', (event_with e s'), woken. split_and!.
  - unfold rt_event_send, get_event, set_event_set, put_event. munfold. rewrite Ee, decide_False by done.
    unfold get_event. munfold. rewrite Ee. change (with_events _ k) with k0. change (k_lists k0) with (k_lists k). rewrite E1.
    unfold when in E2. by rewrite E2.
  - done.
  - split.
    + rewrite Ee', S2. simpl. by rewrite insert_insert_eq, lookup_insert_eq.
    + rewrite <- Hsub. apply land_range; [lia|]. (* a subset of a word *)
      assert (in_range 32 (Z.lor (ev_set e) set)) as Hlr by (by apply lor_range).
      rewrite <- Hsub, Z.land_comm. by apply land_range.
    + done.
    + by apply (clean_moved k1).
    + intros t Hin. assert (ev_waiter k' t ∈ waits) as Hi by (rewrite <- Ews; apply list_elem_of_fmap; eauto).
      by apply Hleft.
  - by rewrite Ews.
  - intros t got Hin. destruct (S5 t got Hin) as (th & E & Ha & He & Hg).
    destruct (moved_awake _ _ (Hm t) _ E Ha) as (th' & E' & Ha' & He' & Hg'). split; [by exists th'|].
    unfold rt_event_recv_resume. munfold. rewrite E', He', He. by rewrite Hg', Hg.
  - intros t Hn. specialize (Hm t). by rewrite S6 in Hm.
Qed.

(** ** Receiving *)

Lemma clean_event s i : clean_update (fun th => with_event s i (with_error RT_EOK th)).
Proof. done. Qed.

Lemma upd_upd k t f g : upd_thread t f (upd_thread t g k) = upd_thread t (fun th => f (g th)) k.
Proof.
  unfold upd_thread, with_threads. simpl. f_equal. apply map_eq. intros i.
  destruct (decide (t = i)) as [->|]; [rewrite !lookup_alter_eq; by destruct (k_threads k !! i)|by rewrite !lookup_alter_ne].
Qed.

Lemma event_recv_start k t th o e set option timeout :
  running k t th -> k_irq_nest k = 0 -> k_events k !! o = Some e -> set <> 0 ->
  (has_flag option RT_EVENT_FLAG_AND || has_flag option RT_EVENT_FLAG_OR) = true ->
  let k0 := upd_thread t (with_error RT_EOK) k in
  rt_event_recv o set option timeout k =
    (if event_match option set (ev_set e) then
       when (has_flag option RT_EVENT_FLAG_CLEAR) (set_event_set o (fun s => Z.land s (Z.lnot set)));;
       mret (Returned (RT_EOK, Some (Z.land (ev_set e) set)))
     else if decide (timeout = 0) then
       set_thread t (with_error (- RT_ETIMEOUT));; mret (Returned (- RT_ETIMEOUT, None))
     else
       set_thread t (with_event set option);;
       wait (LSuspend o) t (ipc_flag (ev_obj e)) timeout;;
       mret (Blocked (EventFrame t))) k0.
Proof.
  intros (Hc & E & Hs) Hi Ee Hnz Hopt k0. unfold rt_event_recv, get_event. munfold.
  rewrite (in_thread_context_eval k t) by done. rewrite Ee, decide_False, Hc by done. rewrite E.
  fold (upd_thread t (with_error RT_EOK) k). fold k0. unfold event_match.
  destruct (has_flag option RT_EVENT_FLAG_AND); [by rewrite Z.land_comm|].
  destruct (has_flag option RT_EVENT_FLAG_OR); [|done]. by rewrite Z.land_comm.
Qed.

(** What [rt_event_recv] does. *)
Definition event_receives (k : kstate) (t : tid) (o : oid) (e : event) (set option timeout : Z) : Prop :=
  exists r k' e', rt_event_recv o set option timeout k = Some (r, k') /\ kwf k' /\ event_ok k' o e' /\
    if event_match option set (ev_set e)
    then r = Returned (RT_EOK, Some (Z.land (ev_set e) set)) /\ ev_set e' = event_clear option set (ev_set e) /\
         k_lists k' (LSuspend o) = k_lists k (LSuspend o)
    else ev_set e' = ev_set e /\
      if decide (timeout = 0) then r = Returned (- RT_ETIMEOUT, None) /\ k_lists k' (LSuspend o) = k_lists k (LSuspend o)
      else r = Blocked (EventFrame t) /\
        k_lists k' (LSuspend o) = enqueue (ipc_flag (ev_obj e)) (priority_of k) t (k_lists k (LSuspend o)) /\
        ev_waiter k' t = Waiter t set option /\
        (0 < timeout -> ThreadTimer t ∈ k_timer_list k' /\ due_key k' (ThreadTimer t) = timeout).

Lemma rt_event_recv_sim k t th o e set option timeout :
  kwf k -> running k t th -> k_irq_nest k = 0 -> event_ok k o e -> set <> 0 ->
  (has_flag option RT_EVENT_FLAG_AND || has_flag option RT_EVENT_FLAG_OR) = true -> timeout < HALF -> event_receives k t o e set option timeout.
Proof.
  intros H Hr Hi Hok Hnz Hopt Hto. unfold event_receives. pose proof Hok as [Ee Hrg Hf Hcl Hw]. pose proof Hr as (Hc & E & Hs).
  rewrite (event_recv_start k t th o e) by done.
  set (k0 := upd_thread t (with_error RT_EOK) k).
  assert (kwf k0) as H0 by (by apply kwf_upd_keep).
  assert (k_threads k0 !! t = Some (with_error RT_EOK th)) as E0
    by (unfold k0; rewrite upd_thread_lookup, decide_True by done; by rewrite E).
  assert (forall h, t ∉ k_lists k h) as Hni by (intros h; apply (running_notin ∅ k t th); [apply H|done|done]).
  assert (forall s, s <> t -> ev_waiter k0 s = ev_waiter k s) as Hw0.
  { intros s Hn. unfold ev_waiter, k0. by rewrite upd_thread_lookup, decide_False. }
  destruct (event_match option set (ev_set e)) eqn:Em.
  - set (e' := event_with e (event_clear option set (ev_set e))). set (k1 := with_events (insert o e') k0).
    assert (when (has_flag option RT_EVENT_FLAG_CLEAR) (set_event_set o (fun s => Z.land s (Z.lnot set))) k0 = Some (tt, k1)) as E2.
    { unfold set_event_set, get_event, put_event, k1, e', event_clear. munfold.
      destruct (has_flag _ RT_EVENT_FLAG_CLEAR); [change (k_events k0) with (k_events k); by rewrite Ee|].
      do 2 f_equal. unfold with_events, k0, upd_thread. simpl. unfold with_threads, event_with. simpl.
      rewrite insert_id; [by destruct k|]. rewrite Ee. by destruct e. }
    exists (Returned (RT_EOK, Some (Z.land (ev_set e) set))), k1, e'.
    split; [munfold; unfold when in E2; by rewrite E2|]. split; [by apply (kwf_objects k0)|]. split; [|done].
    split; [simpl; by rewrite lookup_insert_eq| |done|by apply clean_upd|].
    + simpl. unfold event_clear. case_match; [|done]. by apply land_range.
    + intros s Hs'. assert (s <> t) as Hne by (intros ->; by apply (Hni (LSuspend o))).
      change (ev_waiter k1 s) with (ev_waiter k0 s). rewrite Hw0 by done.
      eapply event_match_mono; [apply event_clear_subset|by apply Hw].
  - case_decide as Ht.
    + set (k1 := upd_thread t (with_error (- RT_ETIMEOUT)) k0).
      exists (Returned (- RT_ETIMEOUT, None)), k1, e. split; [munfold; by rewrite E0|].
      split; [by apply kwf_upd_keep|]. split; [|done]. split; try done.
      * intros s Hs'. assert (s <> t) as Hne by (intros ->; by apply (Hni (LSuspend o))).
        destruct (Hcl s Hs') as (x & Ex & Hx). exists x. unfold k1, k0. by rewrite !upd_thread_lookup, !decide_False.
      * intros s Hs'. assert (s <> t) as Hne by (intros ->; by apply (Hni (LSuspend o))).
        replace (ev_waiter k1 s) with (ev_waiter k s); [by apply Hw|].
        unfold ev_waiter, k1, k0. by rewrite !upd_thread_lookup, !decide_False.
    + set (f := fun th => with_event set option (with_error RT_EOK th)).
      destruct (block_spec k t th (LSuspend o) (ipc_flag (ev_obj e)) timeout f) as (k' & Ew & B); [done..|apply clean_event|].
      exists (Blocked (EventFrame t)), k', e.
      pose proof (upd_upd k t (with_event set option) (with_error RT_EOK)) as Euu. fold f in Euu.
      split; [munfold; rewrite E0; change (with_threads (alter _ t) k0) with (upd_thread t (with_event set option) k0);
              unfold k0; by rewrite Euu, Ew|].
      destruct (objects_inj _ _ (bl_objects _ _ _ _ _ _ _ B)) as (_ & _ & Eo & _).
      destruct (bl_thread _ _ _ _ _ _ _ B) as (x & s & Ex & Es & _).
      assert (ev_waiter k' t = Waiter t set option) as Ewt by (unfold ev_waiter; by rewrite Es).
      split; [apply B|]. split; [|split_and!; try done; [apply B|apply B]].
      split; [by rewrite Eo|done|done|by apply (bl_clean _ _ _ _ _ _ _ B)|].
      intros y. rewrite (bl_list _ _ _ _ _ _ _ B), enqueue_perm. intros [->|Hy]%elem_of_cons; [by rewrite Ewt|].
      assert (y <> t) as Hne by (intros ->; by apply (Hni (LSuspend o))).
      destruct (wait_spec (upd_thread t f k) t (f th) (LSuspend o) (ipc_flag (ev_obj e)) timeout) as (k2 & E2 & W);
        [by apply kwf_upd_keep|by apply running_upd|done..|].
      rewrite Ew in E2. injection E2 as <-.
      rewrite (moved_waiter (upd_thread t f k) k') by (by apply (wt_threads _ _ _ _ _ _ W)).
      unfold ev_waiter. rewrite upd_thread_lookup, decide_False by done. by apply Hw.
Qed.

(** Thread 2 waits in the event 7 for the bits 3, all of them, and clears them. *)
Definition demo_event : kstate := demo_with ∅ ∅ (<[7%nat := Event (Ipc true RT_IPC_FLAG_FIFO) 0]>
  (<[8%nat := Event (Ipc true RT_IPC_FLAG_FIFO) 0]> ∅)) ∅ ∅.
Definition demo_waiter : kstate := upd_thread 2 (with_event 3 (Z.lor RT_EVENT_FLAG_AND RT_EVENT_FLAG_CLEAR)) demo_event.

Lemma demo_waiter_kwf : kwf demo_waiter.
Proof. apply kwf_upd_keep; [apply keeps_event|apply demo_with_kwf]. Qed.

Lemma demo_waiter_ok : event_ok demo_waiter 7 (Event (Ipc true RT_IPC_FLAG_FIFO) 0).
Proof.
  split; [done|done|by left| |].
  - intros t Ht. change (t ∈ demo_lists (LSuspend 7)) in Ht. destruct (demo_in _ _ Ht) as [[? ?]|[_ ->]]; [done|].
    eexists. done.
  - intros t Ht. change (t ∈ demo_lists (LSuspend 7)) in Ht. destruct (demo_in _ _ Ht) as [[? ?]|[_ ->]]; done.
Qed.

(** Polling the event for bits that are not there. *)
Lemma demo_event_ok : event_ok demo_event 8 (Event (Ipc true RT_IPC_FLAG_FIFO) 0).
Proof.
  split; [done|done|by left|apply demo_clean|]. by intros t []%demo_in; destruct_and?.
Qed.

(** C24: An event set: [rt_event_recv] returns at once, with the received bits,
    exactly when its AND or OR condition holds, clearing the bits if asked to,
    and otherwise answers [-RT_ETIMEOUT] or queues the caller with its condition
    and its timer; [rt_event_send] of a set that is not empty sets the bits and
    serves the waiting threads in order: each one whose condition holds at its
    turn is off the list and ready or running, and its call returns the bits it
    received; the other threads are as they were, and afterwards no thread is
    left waiting for a condition that holds (no wake-up is lost). *)
Theorem rt_event_refines k t th o e set option timeout :
  kwf k -> running k t th -> k_irq_nest k = 0 -> event_ok k o e -> in_range 32 set -> set <> 0 -> timeout < HALF ->
  event_sends k o e set /\
  ((has_flag option RT_EVENT_FLAG_AND || has_flag option RT_EVENT_FLAG_OR) = true -> event_receives k t o e set option timeout).
Proof.
  intros H Hr Hi Hok Hs Hnz Ht. split; [|intros Ho; by eapply rt_event_recv_sim].
  apply rt_event_send_sim; [done| |done..]. destruct Hr as (-> & _). by eexists.
Qed.

Lemma rt_event_refines_witness :
  (exists k',
  rt_event_send 7 7 demo_waiter = Some (RT_EOK, k') /\ kwf k' /\ ev_set <$> k_events k' !! 7%nat = Some 4 /\
  rt_event_recv_resume (EventFrame 2) k' = Some ((RT_EOK, Some 3), k')) /\
  (exists k',
  rt_event_recv 8 3 RT_EVENT_FLAG_OR 0 demo_event = Some (Returned (- RT_ETIMEOUT, None), k') /\ kwf k').
Proof.
  split.
  - destruct (rt_event_refines demo_waiter 0 (demo_thread RT_THREAD_RUNNING 10) 7 (Event (Ipc true RT_IPC_FLAG_FIFO) 0) 7 0 0
      demo_waiter_kwf ltac:(done) eq_refl demo_waiter_ok ltac:(done) ltac:(done) ltac:(done)) as [(k' & e' & woken & E & H & [Ee _ _ _ _] & Ea & Hw & _) _].
    exists k'. rewrite Ee. vm_compute in Ea. split_and!; [done|done|simpl; vm_compute; congruence|].
    apply Hw. assert (woken = [(2%nat, 3)]) as -> by congruence. left.
  - destruct (rt_event_refines demo_event 0 (demo_thread RT_THREAD_RUNNING 10) 8 (Event (Ipc true RT_IPC_FLAG_FIFO) 0) 3 RT_EVENT_FLAG_OR 0
      (demo_with_kwf _ _ _ _ _) demo_running eq_refl demo_event_ok ltac:(done) ltac:(done) ltac:(done)) as [_ R].
    destruct (R eq_refl) as (r & k' & e' & E & H & _ & _ & Hr & _).
    exists k'. by rewrite E, Hr.
Defined.
