(* ===== verification/Mailbox.v ===== *)
(** * Mailbox: mailboxes

    The mailbox section of ipc.c.  [mb_send_loop] and [mb_recv_loop] are one
    round of the [while] loops; the [..._resume] functions go round again with
    the timeout that is left.  The abstract mailbox is a bounded queue. *)

From S2P Require Import Kernel Sched Object Timer Thread Ipc Demo Sem.

(** ** Operations *)

Definition get_mb (o : oid) : KM mailbox := deref (fun k => k_mbs k !! o).
Definition put_mb (o : oid) (b : mailbox) : KM unit := modify (with_mbs (insert o b)).

Definition rt_mb_init (mb : oid) (msgpool : list Z) (size flag : Z) : KM Z :=
  rt_object_init (has k_mbs mb);;
  _ ← rt_ipc_object_init mb;
  modify (with_lists (fun ls => <[LSender mb := []]> ls));;
  put_mb mb (Mailbox (Ipc true flag) msgpool (u16 size) 0 0 0);;
  mret RT_EOK.

Definition rt_mb_detach (mb : oid) : KM Z :=
  b ← get_mb mb;
  rt_assert (ipc_static (mb_obj b));;
  _ ← rt_ipc_list_resume_all (LSuspend mb);
  _ ← rt_ipc_list_resume_all (LSender mb);
  modify (with_mbs (delete mb));;
  mret RT_EOK.

(** [pool] is what [RT_KERNEL_MALLOC] returns for the mail slots, with their
    old contents. *)
Definition rt_mb_create (new : option oid) (pool : option (list Z)) (size flag : Z) : KM (option oid) :=
  RT_DEBUG_NOT_IN_INTERRUPT;;
  obj ← rt_object_allocate new;
  match obj with
  | None => mret None
  | Some mb =>
    _ ← rt_ipc_object_init mb;
    match pool with
    | None => mret None
    | Some msgpool =>
      modify (with_lists (fun ls => <[LSender mb := []]> ls));;
      put_mb mb (Mailbox (Ipc false flag) msgpool (u16 size) 0 0 0);;
      mret (Some mb)
    end
  end.

Definition rt_mb_delete (mb : oid) : KM Z :=
  RT_DEBUG_NOT_IN_INTERRUPT;;
  b ← get_mb mb;
  rt_assert (negb (ipc_static (mb_obj b)));;
  _ ← rt_ipc_list_resume_all (LSuspend mb);
  _ ← rt_ipc_list_resume_all (LSender mb);
  modify (with_mbs (delete mb));;
  mret RT_EOK.

(** [++ offset; if (offset >= size) offset = 0;] *)
Definition mb_advance (offset size : Z) : Z :=
  if decide (size <= u16 (offset + 1)) then 0 else u16 (offset + 1).

(** The code after the [while] loop of [rt_mb_send_wait]. *)
Definition mb_put (mb : oid) (value : Z) : KM Z :=
  b ← get_mb mb;
  (if decide (mb_in_offset b < Z.of_nat (length (mb_msg_pool b)))
   then put_mb mb (Mailbox (mb_obj b) (<[Z.to_nat (mb_in_offset b) := value]> (mb_msg_pool b)) (mb_size b)
                     (u16 (mb_entry b + 1)) (mb_advance (mb_in_offset b) (mb_size b)) (mb_out_offset b))
   else undefined);;
  resume_if_waiting (LSuspend mb);;
  mret RT_EOK.

Inductive mb_send_frame := MbSendFrame (mb : oid) (value : Z) (t : tid) (timeout tick_delta : Z).

Definition mb_send_loop (mb : oid) (value : Z) (thread : option tid) (timeout : Z) : KM (outcome mb_send_frame Z) :=
  b ← get_mb mb;
  if decide (mb_entry b = mb_size b) then
    t ← deref (fun _ => thread);
    set_thread t (with_error RT_EOK);;
    if decide (timeout = 0) then mret (Returned (- RT_EFULL))
    else
      RT_DEBUG_IN_THREAD_CONTEXT;;
      tick_delta ← rt_tick_get;
      wait (LSender mb) t (ipc_flag (mb_obj b)) timeout;;
      mret (Blocked (MbSendFrame mb value t timeout tick_delta))
  else r ← mb_put mb value; mret (Returned r).

Definition rt_mb_send_wait (mb : oid) (value timeout : Z) : KM (outcome mb_send_frame Z) :=
  b ← get_mb mb;
  thread ← rt_thread_self;
  if decide (mb_entry b = mb_size b /\ timeout = 0) then mret (Returned (- RT_EFULL))
  else mb_send_loop mb value thread timeout.

Definition rt_mb_send_resume (f : mb_send_frame) : KM (outcome mb_send_frame Z) :=
  let '(MbSendFrame mb value t timeout tick_delta) := f in
  th ← get_thread t;
  if decide (th_error th <> RT_EOK) then mret (Returned (th_error th))
  else
    now ← rt_tick_get;
    mb_send_loop mb value (Some t) (remaining_timeout timeout tick_delta now).

Definition rt_mb_send (mb : oid) (value : Z) : KM (outcome mb_send_frame Z) := rt_mb_send_wait mb value 0.

(** The code after the [while] loop of [rt_mb_recv]; the mail is stored in
    [*value] before [rt_schedule]. *)
Definition mb_get (mb : oid) : KM (Z * option Z) :=
  b ← get_mb mb;
  value ← deref (fun _ => mb_msg_pool b !! Z.to_nat (mb_out_offset b));
  put_mb mb (Mailbox (mb_obj b) (mb_msg_pool b) (mb_size b) (u16 (mb_entry b - 1)) (mb_in_offset b)
               (mb_advance (mb_out_offset b) (mb_size b)));;
  resume_if_waiting (LSender mb);;
  mret (RT_EOK, Some value).

Inductive mb_recv_frame := MbRecvFrame (mb : oid) (t : tid) (timeout tick_delta : Z).

Definition mb_recv_loop (mb : oid) (thread : option tid) (timeout : Z) : KM (outcome mb_recv_frame (Z * option Z)) :=
  b ← get_mb mb;
  if decide (mb_entry b = 0) then
    t ← deref (fun _ => thread);
    set_thread t (with_error RT_EOK);;
    if decide (timeout = 0) then
      set_thread t (with_error (- RT_ETIMEOUT));;
      mret (Returned (- RT_ETIMEOUT, None))
    else
      RT_DEBUG_IN_THREAD_CONTEXT;;
      tick_delta ← rt_tick_get;
      wait (LSuspend mb) t (ipc_flag (mb_obj b)) timeout;;
      mret (Blocked (MbRecvFrame mb t timeout tick_delta))
  else r ← mb_get mb; mret (Returned r).

Definition rt_mb_recv (mb : oid) (timeout : Z) : KM (outcome mb_recv_frame (Z * option Z)) :=
  b ← get_mb mb;
  thread ← rt_thread_self;
  if decide (mb_entry b = 0 /\ timeout = 0) then mret (Returned (- RT_ETIMEOUT, None))
  else mb_recv_loop mb thread timeout.

Definition rt_mb_recv_resume (f : mb_recv_frame) : KM (outcome mb_recv_frame (Z * option Z)) :=
  let '(MbRecvFrame mb t timeout tick_delta) := f in
  th ← get_thread t;
  if decide (th_error th <> RT_EOK) then mret (Returned (th_error th, None))
  else
    now ← rt_tick_get;
    mb_recv_loop mb (Some t) (remaining_timeout timeout tick_delta now).

Definition rt_mb_control (mb : oid) (cmd : Z) : KM Z :=
  b ← get_mb mb;
  if decide (cmd = RT_IPC_CMD_RESET) then
    _ ← rt_ipc_list_resume_all (LSuspend mb);
    _ ← rt_ipc_list_resume_all (LSender mb);
    b ← get_mb mb;
    put_mb mb (Mailbox (mb_obj b) (mb_msg_pool b) (mb_size b) 0 0 0);;
    rt_schedule;;
    mret RT_EOK
  else mret (- RT_ERROR).

(** ** The abstract mailbox: a queue of at most [length (mb_msg_pool b)] mails *)

Definition mb_content (b : mailbox) : list Z :=
  ring (mb_msg_pool b) (Z.to_nat (mb_out_offset b)) (Z.to_nat (mb_entry b)).

(** The ring invariant: the input offset is the output offset plus the number
    of mails. *)
Record ring_ok (b : mailbox) : Prop := RingOk {
  rk_pool : (0 < length (mb_msg_pool b))%nat;
  rk_size : mb_size b = Z.of_nat (length (mb_msg_pool b));
  rk_range : in_range 16 (mb_size b);
  rk_offsets : exists out n : nat, mb_out_offset b = Z.of_nat out /\ mb_entry b = Z.of_nat n /\
    mb_in_offset b = Z.of_nat ((out + n) mod length (mb_msg_pool b)) /\
    (out < length (mb_msg_pool b))%nat /\ (n <= length (mb_msg_pool b))%nat
}.

Record mb_ok (k : kstate) (o : oid) (b : mailbox) : Prop := MbOk {
  bo_mb : k_mbs k !! o = Some b;
  bo_ring : ring_ok b;
  bo_flag : flag_ok (ipc_flag (mb_obj b));
  bo_recv : waiters_clean k (LSuspend o);
  bo_send : waiters_clean k (LSender o)
}.

Lemma mb_advance_spec (i m : nat) : (i < m)%nat -> Z.of_nat m < 2 ^ 16 ->
  mb_advance (Z.of_nat i) (Z.of_nat m) = Z.of_nat ((i + 1) mod m).
Proof.
  intros Hi Hm. unfold mb_advance. rewrite (wrap_small 16) by (unfold in_range; lia). by apply next_offset.
Qed.

Definition mb_pushed (v : Z) (b : mailbox) : mailbox :=
  Mailbox (mb_obj b) (<[Z.to_nat (mb_in_offset b) := v]> (mb_msg_pool b)) (mb_size b)
    (u16 (mb_entry b + 1)) (mb_advance (mb_in_offset b) (mb_size b)) (mb_out_offset b).

Definition mb_popped (b : mailbox) : mailbox :=
  Mailbox (mb_obj b) (mb_msg_pool b) (mb_size b) (u16 (mb_entry b - 1)) (mb_in_offset b)
    (mb_advance (mb_out_offset b) (mb_size b)).

Lemma mb_pushed_ok v b : ring_ok b -> mb_entry b < mb_size b ->
  mb_in_offset b < Z.of_nat (length (mb_msg_pool b)) /\ ring_ok (mb_pushed v b) /\
  mb_content (mb_pushed v b) = mb_content b ++ [v].
Proof.
  intros [Hp Hs Hr (out & n & Eo & En & Ei & Ho & Hn)] Hlt. rewrite Hs in Hr. unfold in_range in Hr.
  set (L := length (mb_msg_pool b)) in *.
  assert ((out + n) mod L < L)%nat as Hm by (apply Nat.mod_upper_bound; lia).
  assert (u16 (mb_entry b + 1) = Z.of_nat (S n)) as E1 by (rewrite wrap_small; unfold in_range; lia).
  split; [lia|]. split.
  - split; unfold mb_pushed; simpl; rewrite ?length_insert; fold L; try done; [by rewrite Hs|].
    exists out, (S n). split; [done|]. split; [done|]. split; [|split; lia].
    rewrite Ei, Hs, mb_advance_spec by lia. rewrite Nat.Div0.add_mod_idemp_l. do 2 f_equal. lia.
  - unfold mb_content, mb_pushed. cbn [mb_msg_pool mb_out_offset mb_entry]. rewrite E1, Eo, Ei, En, !Nat2Z.id.
    apply ring_push. fold L. lia.
Qed.

Lemma mb_popped_ok b : ring_ok b -> mb_entry b <> 0 ->
  exists x, mb_msg_pool b !! Z.to_nat (mb_out_offset b) = Some x /\ ring_ok (mb_popped b) /\
    mb_content b = x :: mb_content (mb_popped b).
Proof.
  intros [Hp Hs Hr (out & n & Eo & En & Ei & Ho & Hn)] Hne. rewrite Hs in Hr. unfold in_range in Hr.
  set (L := length (mb_msg_pool b)) in *. destruct n as [|n]; [lia|].
  assert (u16 (mb_entry b - 1) = Z.of_nat n) as E1 by (rewrite wrap_small; unfold in_range; lia).
  exists (mb_msg_pool b !!! out). rewrite Eo, Nat2Z.id. split; [by apply list_lookup_lookup_total_lt|]. split.
  - split; unfold mb_popped; simpl; fold L; try done; [by rewrite Hs|].
    exists ((out + 1) mod L)%nat, n. rewrite Eo, Hs, mb_advance_spec by lia.
    split; [done|]. split; [done|]. split; [|split; [apply Nat.mod_upper_bound|]; lia].
    rewrite Ei, Nat.Div0.add_mod_idemp_l. do 2 f_equal. lia.
  - unfold mb_content, mb_popped. cbn [mb_msg_pool mb_out_offset mb_entry].
    rewrite E1, Eo, En, Hs, mb_advance_spec, !Nat2Z.id by lia. by apply ring_pop.
Qed.

Lemma mb_content_length b : ring_ok b -> Z.of_nat (length (mb_content b)) = mb_entry b.
Proof. intros [_ _ _ (out & n & _ & En & _)]. unfold mb_content. rewrite ring_length. lia. Qed.

(** ** Sending and receiving *)

Lemma kwf_with_mbs f k : kwf k -> kwf (with_mbs f k).
Proof. by apply kwf_objects. Qed.

Lemma mb_ok_notified k k' h o b :
  notified k k' h -> mb_ok k o b -> mb_ok k' o b.
Proof.
  intros N [H1 H2 H3 H4 H5]. destruct (objects_inj _ _ (nt_objects _ _ _ N)) as (_ & _ & _ & Eb & _).
  split; [by rewrite Eb|done|done|by apply (nt_clean _ _ _ N)|by apply (nt_clean _ _ _ N)].
Qed.

Lemma mb_ok_blocked k k' h t flag timeout o b :
  blocked k k' h t flag timeout (with_error RT_EOK) -> mb_ok k o b -> mb_ok k' o b.
Proof.
  intros B [H1 H2 H3 H4 H5]. destruct (objects_inj _ _ (bl_objects _ _ _ _ _ _ _ B)) as (_ & _ & _ & Eb & _).
  split; [by rewrite Eb|done|done|by apply (bl_clean _ _ _ _ _ _ _ B)|by apply (bl_clean _ _ _ _ _ _ _ B)].
Qed.

(** Room: the mail goes to the end of the queue and the first receiver wakes. *)
Lemma mb_put_spec k o b v :
  kwf k -> is_Some (k_current k) -> mb_ok k o b -> mb_entry b < mb_size b ->
  exists k' b', mb_put o v k = Some (RT_EOK, k') /\ kwf k' /\ mb_ok k' o b' /\
    mb_content b' = mb_content b ++ [v] /\ mb_size b' = mb_size b /\
    k_lists k' (LSuspend o) = tail (k_lists k (LSuspend o)) /\
    k_lists k' (LSender o) = k_lists k (LSender o) /\
    (forall t l, k_lists k (LSuspend o) = t :: l ->
       exists th, k_threads k' !! t = Some th /\ awake th /\ th_error th = RT_EOK).
Proof.
  intros H Hc [H1 H2 H3 H4 H5] Hlt. destruct (mb_pushed_ok v b H2 Hlt) as (Hi & Hok & Hcont).
  set (k0 := with_mbs (insert o (mb_pushed v b)) k).
  destruct (resume_if_waiting_spec k0 (LSuspend o)) as (k' & E' & N); [by apply kwf_with_mbs|done|done|].
  exists k', (mb_pushed v b). split_and!; try done.
  - unfold mb_put, get_mb, put_mb. munfold. rewrite H1, decide_True by done. fold (mb_pushed v b). fold k0. by rewrite E'.
  - apply N.
  - apply (mb_ok_notified k0 k' (LSuspend o)); [done|]. split; try done. simpl. by rewrite lookup_insert_eq.
  - apply (nt_list _ _ _ N).
  - by apply (nt_other _ _ _ N).
  - intros t l El. by apply (nt_woken _ _ _ N t l).
Qed.

Lemma mb_get_spec k o b :
  kwf k -> is_Some (k_current k) -> mb_ok k o b -> mb_entry b <> 0 ->
  exists x k' b', mb_get o k = Some ((RT_EOK, Some x), k') /\ kwf k' /\ mb_ok k' o b' /\
    mb_content b = x :: mb_content b' /\ mb_size b' = mb_size b /\
    k_lists k' (LSender o) = tail (k_lists k (LSender o)) /\
    k_lists k' (LSuspend o) = k_lists k (LSuspend o) /\
    (forall t l, k_lists k (LSender o) = t :: l ->
       exists th, k_threads k' !! t = Some th /\ awake th /\ th_error th = RT_EOK).
Proof.
  intros H Hc [H1 H2 H3 H4 H5] Hne. destruct (mb_popped_ok b H2 Hne) as (x & Hx & Hok & Hcont).
  set (k0 := with_mbs (insert o (mb_popped b)) k).
  destruct (resume_if_waiting_spec k0 (LSender o)) as (k' & E' & N); [by apply kwf_with_mbs|done|done|].
  exists x, k', (mb_popped b). split_and!; try done.
  - unfold mb_get, get_mb, put_mb. munfold. rewrite H1, Hx. fold (mb_popped b). fold k0. by rewrite E'.
  - apply N.
  - apply (mb_ok_notified k0 k' (LSender o)); [done|]. split; try done. simpl. by rewrite lookup_insert_eq.
  - apply (nt_list _ _ _ N).
  - by apply (nt_other _ _ _ N).
  - intros t l El. by apply (nt_woken _ _ _ N t l).
Qed.

(** The bounded queue a mailbox implements. *)
Inductive queue_send_result := QSent | QFull | QWait.
Definition queue_send {A} (capacity : Z) (v : A) (timeout : Z) (q : list A) : queue_send_result * list A :=
  if decide (Z.of_nat (length q) < capacity) then (QSent, q ++ [v])
  else if decide (timeout = 0) then (QFull, q) else (QWait, q).

Inductive queue_recv_result (A : Type) := QGot (a : A) | QEmpty | QWaitRecv.
Arguments QGot {A} a. Arguments QEmpty {A}. Arguments QWaitRecv {A}.
Definition queue_recv {A} (timeout : Z) (q : list A) : queue_recv_result A * list A :=
  match q with
  | a :: q => (QGot a, q)
  | [] => if decide (timeout = 0) then (QEmpty, []) else (QWaitRecv, [])
  end.

Lemma mb_entry_content b : ring_ok b ->
  (mb_entry b = mb_size b <-> ~ Z.of_nat (length (mb_content b)) < mb_size b) /\ (mb_entry b = 0 <-> mb_content b = []).
Proof.
  intros R. pose proof (mb_content_length b R) as El. destruct R as [_ Hs _ (out & n & _ & En & _ & _ & Hn)]. split; [lia|].
  split; intros E; [apply length_zero_iff_nil; lia|rewrite E in El; simpl in El; lia].
Qed.

(** What [rt_mb_send_wait] does. *)
Definition mb_sends (k : kstate) (t : tid) (o : oid) (b : mailbox) (v timeout : Z) : Prop :=
  exists r k' b', rt_mb_send_wait o v timeout k = Some (r, k') /\ kwf k' /\ mb_ok k' o b' /\
    let '(a, q') := queue_send (mb_size b) v timeout (mb_content b) in
    mb_content b' = q' /\
    match a with
    | QSent => r = Returned RT_EOK /\ k_lists k' (LSuspend o) = tail (k_lists k (LSuspend o)) /\
        (forall w l, k_lists k (LSuspend o) = w :: l ->
           exists wth, k_threads k' !! w = Some wth /\ awake wth /\ th_error wth = RT_EOK)
    | QFull => r = Returned (- RT_EFULL) /\ k' = k
    | QWait => r = Blocked (MbSendFrame o v t timeout (k_tick k)) /\
        k_lists k' (LSender o) = enqueue (ipc_flag (mb_obj b)) (priority_of k) t (k_lists k (LSender o)) /\
        (0 < timeout -> ThreadTimer t ∈ k_timer_list k' /\ due_key k' (ThreadTimer t) = timeout)
    end.

Lemma rt_mb_send_wait_sim k t th o b v timeout :
  kwf k -> running k t th -> k_irq_nest k = 0 -> mb_ok k o b -> timeout < HALF -> mb_sends k t o b v timeout.
Proof.
  intros H Hr Hi Hok Hto. unfold mb_sends. pose proof Hok as [H1 H2 H3 H4 H5]. pose proof Hr as (Hc & E & Hs).
  destruct (mb_entry_content b H2) as [Hfull _]. unfold queue_send.
  unfold rt_mb_send_wait, mb_send_loop, get_mb, rt_thread_self. munfold. rewrite H1.
  destruct (decide (Z.of_nat (length (mb_content b)) < mb_size b)) as [Hd|Hd].
  - assert (mb_entry b <> mb_size b) as Hne by tauto. rewrite decide_False by tauto.
    rewrite H1, decide_False by done.
    destruct (mb_put_spec k o b v H ltac:(by rewrite Hc) Hok) as (k' & b' & E' & Hk' & Hok' & Hcont & _ & Hl & _ & Hw).
    { pose proof (mb_content_length b H2). lia. }
    rewrite E'. exists (Returned RT_EOK), k', b'. done.
  - assert (mb_entry b = mb_size b) as He by tauto. destruct (decide (timeout = 0)) as [Ht|Ht].
    { rewrite decide_True by done. exists (Returned (- RT_EFULL)), k, b. done. }
    rewrite decide_False by tauto. rewrite H1, decide_True by done. rewrite Hc, E.
    destruct (block_spec k t th (LSender o) (ipc_flag (mb_obj b)) timeout (with_error RT_EOK)) as (k' & Ew & B); [done..|].
    fold (upd_thread t (with_error RT_EOK) k). rewrite (in_thread_context_eval _ t) by done.
    unfold rt_tick_get. munfold. rewrite Ew. eexists _, k', b. split; [done|]. split; [apply B|].
    split; [by eapply mb_ok_blocked|]. split; [done|]. split; [done|]. split; apply B.
Qed.

(** What [rt_mb_recv] does. *)
Definition mb_receives (k : kstate) (t : tid) (o : oid) (b : mailbox) (timeout : Z) : Prop :=
  exists r k' b', rt_mb_recv o timeout k = Some (r, k') /\ kwf k' /\ mb_ok k' o b' /\
    let '(a, q') := queue_recv timeout (mb_content b) in
    mb_content b' = q' /\
    match a with
    | QGot x => r = Returned (RT_EOK, Some x) /\ k_lists k' (LSender o) = tail (k_lists k (LSender o)) /\
        (forall w l, k_lists k (LSender o) = w :: l ->
           exists wth, k_threads k' !! w = Some wth /\ awake wth /\ th_error wth = RT_EOK)
    | QEmpty => r = Returned (- RT_ETIMEOUT, None) /\ k' = k
    | QWaitRecv => r = Blocked (MbRecvFrame o t timeout (k_tick k)) /\
        k_lists k' (LSuspend o) = enqueue (ipc_flag (mb_obj b)) (priority_of k) t (k_lists k (LSuspend o)) /\
        (0 < timeout -> ThreadTimer t ∈ k_timer_list k' /\ due_key k' (ThreadTimer t) = timeout)
    end.

Lemma rt_mb_recv_sim k t th o b timeout :
  kwf k -> running k t th -> k_irq_nest k = 0 -> mb_ok k o b -> timeout < HALF -> mb_receives k t o b timeout.
Proof.
  intros H Hr Hi Hok Hto. unfold mb_receives. pose proof Hok as [H1 H2 H3 H4 H5]. pose proof Hr as (Hc & E & Hs).
  destruct (mb_entry_content b H2) as [_ Hempty].
  unfold rt_mb_recv, mb_recv_loop, get_mb, rt_thread_self. munfold. rewrite H1.
  destruct (decide (mb_entry b = 0)) as [He|He].
  - assert (mb_content b = []) as Ec by tauto. unfold queue_recv. rewrite Ec.
    destruct (decide (timeout = 0)) as [Ht|Ht].
    { rewrite decide_True by done. exists (Returned (- RT_ETIMEOUT, None)), k, b. done. }
    rewrite decide_False by tauto. rewrite H1, decide_True by done. rewrite Hc, E.
    destruct (block_spec k t th (LSuspend o) (ipc_flag (mb_obj b)) timeout (with_error RT_EOK)) as (k' & Ew & B); [done..|].
    fold (upd_thread t (with_error RT_EOK) k). rewrite (in_thread_context_eval _ t) by done.
    unfold rt_tick_get. munfold. rewrite Ew. eexists _, k', b. split; [done|]. split; [apply B|].
    split; [by eapply mb_ok_blocked|]. split; [done|]. split; [done|]. split; apply B.
  - rewrite decide_False by tauto. rewrite H1. rewrite decide_False by done.
    destruct (mb_get_spec k o b H ltac:(by rewrite Hc) Hok He) as (x & k' & b' & E' & Hk' & Hok' & Hcont & _ & Hl & _ & Hw).
    rewrite E', Hcont. unfold queue_recv. exists (Returned (RT_EOK, Some x)), k', b'. done.
Qed.

(** A mailbox of two mails, with one in it. *)
Definition demo_mb_7 : mailbox := Mailbox (Ipc true RT_IPC_FLAG_FIFO) [0; 41] 2 1 0 1.
Definition demo_mb : kstate := demo_with ∅ ∅ ∅ (<[7%nat := demo_mb_7]> ∅) ∅.

Lemma demo_mb_ok_7 : mb_ok demo_mb 7 demo_mb_7.
Proof.
  split; [done| |by left|apply demo_clean|apply demo_clean]. split; [simpl; lia|done|done|].
  exists 1%nat, 1%nat. split_and!; simpl; try done; lia.
Qed.

(** C25: A mailbox, a circular buffer whose offsets wrap around, implements the
    bounded FIFO queue: [rt_mb_send_wait] adds a mail and wakes the first
    waiting receiver, [rt_mb_recv] takes the oldest mail and wakes the first
    waiting sender, and a call that cannot proceed answers with an error or
    waits. *)
Theorem rt_mb_refines k t th o b v timeout :
  kwf k -> running k t th -> k_irq_nest k = 0 -> mb_ok k o b -> timeout < HALF ->
  mb_sends k t o b v timeout /\ mb_receives k t o b timeout.
Proof. intros H Hr Hi Hok Ht. split; [by eapply rt_mb_send_wait_sim|by eapply rt_mb_recv_sim]. Qed.

Lemma rt_mb_refines_witness :
  (exists k' b',
  rt_mb_send_wait 7 42 0 demo_mb = Some (Returned RT_EOK, k') /\ kwf k' /\ mb_content b' = [41; 42] /\
  k_lists k' (LSuspend 7) = []) /\
  (exists k' b',
  rt_mb_recv 7 0 demo_mb = Some (Returned (RT_EOK, Some 41), k') /\ kwf k' /\ mb_content b' = []).
Proof.
  split.
  - destruct (rt_mb_refines demo_mb 0 (demo_thread RT_THREAD_RUNNING 10) 7 demo_mb_7 42 0 (demo_with_kwf _ _ _ _ _)
      demo_running eq_refl demo_mb_ok_7 ltac:(done)) as [(r & k' & b' & E & H & _ & Hc & Hr & Hl & _) _].
    exists k', b'. split_and!; [by rewrite E, Hr|done|done|done].
  - destruct (rt_mb_refines demo_mb 0 (demo_thread RT_THREAD_RUNNING 10) 7 demo_mb_7 42 0 (demo_with_kwf _ _ _ _ _)
      demo_running eq_refl demo_mb_ok_7 ltac:(done)) as [_ (r & k' & b' & E & H & _ & Hc & Hr & _)].
    exists k', b'. split_and!; [by rewrite E, Hr|done|done].
Defined.
