(* ===== verification/MsgQueue.v ===== *)
(** * MsgQueue: message queues

    The message queue section of ipc.c.  The pool is an array of blocks, each
    a [next] pointer (an index, or none for NULL) and [msg_size] bytes; the free
    list, the queue and the blocks in flight share it.

    A send (or receive) is two critical sections with a copy in between, during
    which other threads and interrupts may run: the sections are the [mq_*]
    functions on the queue record, the calls compose them, and [mq_step]
    interleaves the sections of any number of senders and receivers. *)

From S2P Require Import SList Kernel Sched Object Timer Thread Ipc Demo Sem Mailbox.

(** ** Blocks and pointers *)

Definition with_next (n : option nat) (m : mq_message) : mq_message := MqMessage n (msg_data m).

(** [msg->next], [msg->next = n] *)
Definition next_of (pool : list mq_message) (i : nat) : option (option nat) := msg_next <$> pool !! i.
Definition set_next (pool : list mq_message) (i : nat) (n : option nat) : option (list mq_message) :=
  m ← pool !! i; Some (<[i := with_next n m]> pool).

Definition with_pool pool q := MessageQueue (mq_obj q) pool (mq_msg_size q) (mq_max_msgs q) (mq_entry q)
  (mq_queue_head q) (mq_queue_tail q) (mq_queue_free q).
Definition with_queue entry head tail q := MessageQueue (mq_obj q) (mq_msg_pool q) (mq_msg_size q) (mq_max_msgs q) entry
  head tail (mq_queue_free q).
Definition with_free free q := MessageQueue (mq_obj q) (mq_msg_pool q) (mq_msg_size q) (mq_max_msgs q) (mq_entry q)
  (mq_queue_head q) (mq_queue_tail q) free.

(** ** The critical sections *)

(** [msg = mq->msg_queue_free; mq->msg_queue_free = msg->next;] *)
Definition mq_take_free (msg : nat) (q : messagequeue) : option messagequeue :=
  n ← next_of (mq_msg_pool q) msg; Some (with_free n q).

(** [rt_memcpy(msg + 1, buffer, size)], between the critical sections. *)
Definition mq_copy_in (msg : nat) (buffer : list Z) (size : Z) (q : messagequeue) : option messagequeue :=
  m ← mq_msg_pool q !! msg;
  if decide (size <= Z.of_nat (length buffer) /\ size <= Z.of_nat (length (msg_data m))) then
    Some (with_pool (<[msg := MqMessage (msg_next m)
      (take (Z.to_nat size) buffer ++ drop (Z.to_nat size) (msg_data m))]> (mq_msg_pool q)) q)
  else None.

(** [msg->next = RT_NULL] and the copy, in [rt_mq_send_wait]. *)
Definition mq_fill (msg : nat) (buffer : list Z) (size : Z) (q : messagequeue) : option messagequeue :=
  pool ← set_next (mq_msg_pool q) msg None;
  mq_copy_in msg buffer size (with_pool pool q).

(** The second section of [rt_mq_send_wait], before the wake-up. *)
Definition mq_link_tail (msg : nat) (q : messagequeue) : option messagequeue :=
  pool ← match mq_queue_tail q with
         | Some tail => set_next (mq_msg_pool q) tail (Some msg)
         | None => Some (mq_msg_pool q)
         end;
  Some (with_queue (u16 (mq_entry q + 1))
          (match mq_queue_head q with Some head => Some head | None => Some msg end)
          (Some msg) (with_pool pool q)).

(** The second section of [rt_mq_urgent]. *)
Definition mq_link_head (msg : nat) (q : messagequeue) : option messagequeue :=
  pool ← set_next (mq_msg_pool q) msg (mq_queue_head q);
  Some (with_queue (u16 (mq_entry q + 1)) (Some msg)
          (match mq_queue_tail q with Some tail => Some tail | None => Some msg end) (with_pool pool q)).

(** The first section of [rt_mq_recv]. *)
Definition mq_unlink_head (q : messagequeue) : option (nat * messagequeue) :=
  msg ← mq_queue_head q;
  n ← next_of (mq_msg_pool q) msg;
  Some (msg, with_queue (u16 (mq_entry q - 1)) n
               (if decide (mq_queue_tail q = Some msg) then None else mq_queue_tail q) q).

(** [rt_memcpy(buffer, msg + 1, size > mq->msg_size ? mq->msg_size : size)] *)
Definition mq_copy_out (msg : nat) (size : Z) (q : messagequeue) : option (list Z) :=
  m ← mq_msg_pool q !! msg;
  let n := if decide (mq_msg_size q < size) then mq_msg_size q else size in
  if decide (n <= Z.of_nat (length (msg_data m))) then Some (take (Z.to_nat n) (msg_data m)) else None.

(** The second section of [rt_mq_recv], before the wake-up. *)
Definition mq_put_free (msg : nat) (q : messagequeue) : option messagequeue :=
  pool ← set_next (mq_msg_pool q) msg (mq_queue_free q);
  Some (with_free (Some msg) (with_pool pool q)).

(** The loop of the RESET command; a queue that is not a list spins. *)
Fixpoint mq_release_all (fuel : nat) (q : messagequeue) : option messagequeue :=
  match mq_queue_head q with
  | None => Some q
  | Some msg =>
    match fuel with
    | O => None
    | S fuel =>
      n ← next_of (mq_msg_pool q) msg;
      q ← mq_put_free msg (with_queue (mq_entry q) n
            (if decide (mq_queue_tail q = Some msg) then None else mq_queue_tail q) q);
      mq_release_all fuel q
    end
  end.

(** [for (temp = 0; temp < mq->max_msgs; temp ++) { head = ...; head->next = free; free = head; }] *)
Fixpoint mq_init_free (n temp : nat) (pool : list mq_message) (free : option nat) : option (list mq_message * option nat) :=
  match n with
  | O => Some (pool, free)
  | S n => pool ← set_next pool temp free; mq_init_free n (S temp) pool (Some temp)
  end.

(** ** Operations *)

Definition get_mq (o : oid) : KM messagequeue := deref (fun k => k_mqs k !! o).
Definition put_mq (o : oid) (q : messagequeue) : KM unit := modify (with_mqs (insert o q)).
(** A section run on the queue; following a wild pointer is undefined. *)
Definition mq_section (o : oid) (f : messagequeue -> option messagequeue) : KM unit :=
  q ← get_mq o; q' ← deref (fun _ => f q); put_mq o q'.

(** [sizeof(struct rt_mq_message)] on the 32-bit target *)
Definition sizeof_mq_message : Z := 4.

(** The pool as it is in memory before it is initialised: arbitrary blocks. *)
Definition mq_setup (mq : oid) (static : bool) (flag msg_size max_msgs : Z) (blocks : list mq_message) : KM unit :=
  '(pool, free) ← deref (fun _ => mq_init_free (Z.to_nat max_msgs) 0 blocks None);
  put_mq mq (MessageQueue (Ipc static flag) pool msg_size max_msgs 0 None None free);;
  modify (with_lists (fun ls => <[LSender mq := []]> ls)).

Definition rt_mq_init (mq : oid) (blocks : list mq_message) (msg_size pool_size flag : Z) : KM Z :=
  rt_object_init (has k_mqs mq);;
  _ ← rt_ipc_object_init mq;
  let size := u16 (RT_ALIGN msg_size RT_ALIGN_SIZE) in
  mq_setup mq true flag size (u16 (pool_size / (size + sizeof_mq_message))) blocks;;
  mret RT_EOK.

Definition rt_mq_detach (mq : oid) : KM Z :=
  q ← get_mq mq;
  rt_assert (ipc_static (mq_obj q));;
  _ ← rt_ipc_list_resume_all (LSuspend mq);
  _ ← rt_ipc_list_resume_all (LSender mq);
  modify (with_mqs (delete mq));;
  mret RT_EOK.

Definition rt_mq_create (new : option oid) (blocks : option (list mq_message)) (msg_size max_msgs flag : Z) : KM (option oid) :=
  RT_DEBUG_NOT_IN_INTERRUPT;;
  obj ← rt_object_allocate new;
  match obj with
  | None => mret None
  | Some mq =>
    _ ← rt_ipc_object_init mq;
    match blocks with
    | None => mret None
    | Some blocks =>
      mq_setup mq false flag (u16 (RT_ALIGN msg_size RT_ALIGN_SIZE)) (u16 max_msgs) blocks;;
      mret (Some mq)
    end
  end.

Definition rt_mq_delete (mq : oid) : KM Z :=
  RT_DEBUG_NOT_IN_INTERRUPT;;
  q ← get_mq mq;
  rt_assert (negb (ipc_static (mq_obj q)));;
  _ ← rt_ipc_list_resume_all (LSuspend mq);
  _ ← rt_ipc_list_resume_all (LSender mq);
  modify (with_mqs (delete mq));;
  mret RT_EOK.

Inductive mq_send_frame := MqSendFrame (mq : oid) (buffer : list Z) (size : Z) (t : tid) (timeout tick_delta : Z).

Definition mq_send_loop (mq : oid) (buffer : list Z) (size : Z) (thread : option tid) (timeout : Z) :
    KM (outcome mq_send_frame Z) :=
  q ← get_mq mq;
  match mq_queue_free q with
  | None =>
    t ← deref (fun _ => thread);
    set_thread t (with_error RT_EOK);;
    if decide (timeout = 0) then mret (Returned (- RT_EFULL))
    else
      RT_DEBUG_IN_THREAD_CONTEXT;;
      tick_delta ← rt_tick_get;
      wait (LSender mq) t (ipc_flag (mq_obj q)) timeout;;
      mret (Blocked (MqSendFrame mq buffer size t timeout tick_delta))
  | Some msg =>
    mq_section mq (mq_take_free msg);;
    mq_section mq (mq_fill msg buffer size);;
    mq_section mq (mq_link_tail msg);;
    resume_if_waiting (LSuspend mq);;
    mret (Returned RT_EOK)
  end.

Definition rt_mq_send_wait (mq : oid) (buffer : list Z) (size timeout : Z) : KM (outcome mq_send_frame Z) :=
  q ← get_mq mq;
  rt_assert (bool_decide (size <> 0));;
  if decide (mq_msg_size q < size) then mret (Returned (- RT_ERROR))
  else
    thread ← rt_thread_self;
    if decide (mq_queue_free q = None /\ timeout = 0) then mret (Returned (- RT_EFULL))
    else mq_send_loop mq buffer size thread timeout.

Definition rt_mq_send_resume (f : mq_send_frame) : KM (outcome mq_send_frame Z) :=
  let '(MqSendFrame mq buffer size t timeout tick_delta) := f in
  th ← get_thread t;
  if decide (th_error th <> RT_EOK) then mret (Returned (th_error th))
  else
    now ← rt_tick_get;
    mq_send_loop mq buffer size (Some t) (remaining_timeout timeout tick_delta now).

Definition rt_mq_send (mq : oid) (buffer : list Z) (size : Z) : KM (outcome mq_send_frame Z) :=
  rt_mq_send_wait mq buffer size 0.

Definition rt_mq_urgent (mq : oid) (buffer : list Z) (size : Z) : KM Z :=
  q ← get_mq mq;
  rt_assert (bool_decide (size <> 0));;
  if decide (mq_msg_size q < size) then mret (- RT_ERROR)
  else match mq_queue_free q with
  | None => mret (- RT_EFULL)
  | Some msg =>
    mq_section mq (mq_take_free msg);;
    mq_section mq (mq_copy_in msg buffer size);;
    mq_section mq (mq_link_head msg);;
    resume_if_waiting (LSuspend mq);;
    mret RT_EOK
  end.

Inductive mq_recv_frame := MqRecvFrame (mq : oid) (size : Z) (t : tid) (timeout tick_delta : Z).

(** The results carry the bytes copied to [buffer]. *)
Definition mq_recv_loop (mq : oid) (size : Z) (thread : option tid) (timeout : Z) :
    KM (outcome mq_recv_frame (Z * option (list Z))) :=
  q ← get_mq mq;
  if decide (mq_entry q = 0) then
    RT_DEBUG_IN_THREAD_CONTEXT;;
    t ← deref (fun _ => thread);
    set_thread t (with_error RT_EOK);;
    if decide (timeout = 0) then
      set_thread t (with_error (- RT_ETIMEOUT));;
      mret (Returned (- RT_ETIMEOUT, None))
    else
      tick_delta ← rt_tick_get;
      wait (LSuspend mq) t (ipc_flag (mq_obj q)) timeout;;
      mret (Blocked (MqRecvFrame mq size t timeout tick_delta))
  else
    '(msg, q) ← deref (fun _ => mq_unlink_head q);
    put_mq mq q;;
    q ← get_mq mq;
    data ← deref (fun _ => mq_copy_out msg size q);
    mq_section mq (mq_put_free msg);;
    resume_if_waiting (LSender mq);;
    mret (Returned (RT_EOK, Some data)).

Definition rt_mq_recv (mq : oid) (size timeout : Z) : KM (outcome mq_recv_frame (Z * option (list Z))) :=
  q ← get_mq mq;
  rt_assert (bool_decide (size <> 0));;
  thread ← rt_thread_self;
  if decide (mq_entry q = 0 /\ timeout = 0) then mret (Returned (- RT_ETIMEOUT, None))
  else mq_recv_loop mq size thread timeout.

Definition rt_mq_recv_resume (f : mq_recv_frame) : KM (outcome mq_recv_frame (Z * option (list Z))) :=
  let '(MqRecvFrame mq size t timeout tick_delta) := f in
  th ← get_thread t;
  if decide (th_error th <> RT_EOK) then mret (Returned (th_error th, None))
  else
    now ← rt_tick_get;
    mq_recv_loop mq size (Some t) (remaining_timeout timeout tick_delta now).

Definition rt_mq_control (mq : oid) (cmd : Z) : KM Z :=
  q ← get_mq mq;
  if decide (cmd = RT_IPC_CMD_RESET) then
    _ ← rt_ipc_list_resume_all (LSuspend mq);
    _ ← rt_ipc_list_resume_all (LSender mq);
    mq_section mq (fun q => q ← mq_release_all (length (mq_msg_pool q)) q;
      Some (with_queue 0 (mq_queue_head q) (mq_queue_tail q) q));;
    rt_schedule;;
    mret RT_EOK
  else mret (- RT_ERROR).

(** ** Lists in the pool *)

(** [free], [used] and [fly]: the blocks of the free list, of the queue, and
    those a sender or receiver is copying. *)
Record mq_inv (q : messagequeue) (free used fly : list nat) : Prop := MqInv {
  mi_free : chain msg_next (mq_msg_pool q) (mq_queue_free q) free;
  mi_used : chain msg_next (mq_msg_pool q) (mq_queue_head q) used;
  mi_tail : mq_queue_tail q = last used;
  mi_perm : free ++ used ++ fly ≡ₚ seq 0 (length (mq_msg_pool q));
  mi_entry : mq_entry q = Z.of_nat (length used);
  mi_max : mq_max_msgs q = Z.of_nat (length (mq_msg_pool q)) /\ in_range 16 (mq_max_msgs q);
  mi_size : in_range 16 (mq_msg_size q);
  mi_data : Forall (fun m => Z.of_nat (length (msg_data m)) = mq_msg_size q) (mq_msg_pool q)
}.

(** The bytes of a block, and the messages of the queue in order. *)
Definition data_of (q : messagequeue) (i : nat) : list Z := from_option msg_data [] (mq_msg_pool q !! i).
Definition mq_content (q : messagequeue) (used : list nat) : list (list Z) := map (data_of q) used.

Lemma mq_inv_perm q f u fly fly' : fly ≡ₚ fly' -> mq_inv q f u fly -> mq_inv q f u fly'.
Proof. intros Hp [H1 H2 H3 H4 H5 H6 H7 H8]. split; try done. by rewrite <- Hp. Qed.

Lemma mq_inv_nodup q f u fly : mq_inv q f u fly -> NoDup (f ++ u ++ fly).
Proof. intros H. rewrite (mi_perm _ _ _ _ H). apply NoDup_seq. Qed.

Lemma mq_inv_block q f u fly i : mq_inv q f u fly -> i ∈ f ++ u ++ fly ->
  exists m, mq_msg_pool q !! i = Some m /\ Z.of_nat (length (msg_data m)) = mq_msg_size q.
Proof.
  intros H. rewrite (mi_perm _ _ _ _ H), list_elem_of_In, in_seq. intros Hi.
  destruct (lookup_lt_is_Some_2 (mq_msg_pool q) i) as [m Em]; [lia|]. exists m. split; [done|].
  pose proof (mi_data _ _ _ _ H) as Hd. rewrite Forall_lookup in Hd. by eapply Hd.
Qed.

Lemma mq_inv_length q f u fly : mq_inv q f u fly ->
  (length f + length u + length fly = length (mq_msg_pool q))%nat.
Proof.
  intros H. pose proof (Permutation_length (mi_perm _ _ _ _ H)) as E. rewrite !length_app, length_seq in E. lia.
Qed.

Lemma disjoint_blocks q f u fly i : mq_inv q f u (i :: fly) -> (i ∉ f) /\ (i ∉ u) /\ (i ∉ fly).
Proof.
  intros H%mq_inv_nodup. apply NoDup_app in H as (_ & H1 & H2). apply NoDup_app in H2 as (_ & H3 & H4).
  apply NoDup_cons in H4 as [H4 _]. split_and!; [|intros Hi; apply (H3 i Hi); left|done].
  intros Hi. apply (H1 i Hi). set_solver.
Qed.

(** Rewriting the block in flight leaves both lists alone. *)
Lemma mq_inv_fly q f u fly i m :
  mq_inv q f u (i :: fly) -> Z.of_nat (length (msg_data m)) = mq_msg_size q ->
  mq_inv (with_pool (<[i := m]> (mq_msg_pool q)) q) f u (i :: fly).
Proof.
  intros H Hm. destruct (disjoint_blocks _ _ _ _ _ H) as (H1 & H2 & H3).
  destruct H as [G1 G2 G3 G4 G5 G6 G7 G8]. split; simpl; rewrite ?length_insert; try done.
  - by apply seg_insert.
  - by apply seg_insert.
  - by apply Forall_insert.
Qed.

Lemma data_of_insert q i j m : i <> j -> data_of (with_pool (<[i := m]> (mq_msg_pool q)) q) j = data_of q j.
Proof. intros Hn. unfold data_of. simpl. by rewrite list_lookup_insert_ne. Qed.

(** ** The sections keep the invariant *)

Lemma take_free_spec q i f u fly : mq_inv q (i :: f) u fly ->
  exists q', mq_take_free i q = Some q' /\ mq_inv q' f u (i :: fly) /\ (forall j, data_of q' j = data_of q j) /\
    mq_msg_size q' = mq_msg_size q /\ mq_obj q' = mq_obj q.
Proof.
  intros [(E & m & Em & Hc) G2 G3 G4 G5 G6 G7 G8].
  exists (with_free (msg_next m) q). split; [unfold mq_take_free, next_of; by rewrite Em|].
  split; [|done]. split; try done. simpl. rewrite <- G4. simpl.
  rewrite !app_assoc, <- Permutation_middle. done.
Qed.

Lemma copy_in_spec q i f u fly buffer size : mq_inv q f u (i :: fly) ->
  0 <= size <= mq_msg_size q -> size <= Z.of_nat (length buffer) ->
  exists q', mq_copy_in i buffer size q = Some q' /\ mq_inv q' f u (i :: fly) /\
    data_of q' i = take (Z.to_nat size) buffer ++ drop (Z.to_nat size) (data_of q i) /\
    next_of (mq_msg_pool q') i = next_of (mq_msg_pool q) i /\
    (forall j, j <> i -> data_of q' j = data_of q j) /\ mq_msg_size q' = mq_msg_size q /\ mq_obj q' = mq_obj q.
Proof.
  intros H Hs Hb. destruct (mq_inv_block q f u (i :: fly) i H) as (m & Em & Hm); [set_solver|].
  unfold mq_copy_in. rewrite Em. simpl. rewrite decide_True by lia. eexists. split; [done|].
  assert (i < length (mq_msg_pool q))%nat as Hi by (by eapply lookup_lt_Some).
  split; [|split; [|split; [|split; [|done]]]].
  - apply mq_inv_fly; [done|]. simpl. rewrite length_app, length_take, length_drop. lia.
  - unfold data_of. simpl. rewrite list_lookup_insert_eq by done. simpl. by rewrite Em.
  - unfold next_of. simpl. rewrite list_lookup_insert_eq by done. by rewrite Em.
  - intros j Hj. by apply data_of_insert.
Qed.

Lemma fill_spec q i f u fly buffer size : mq_inv q f u (i :: fly) ->
  0 <= size <= mq_msg_size q -> size <= Z.of_nat (length buffer) ->
  exists q', mq_fill i buffer size q = Some q' /\ mq_inv q' f u (i :: fly) /\
    data_of q' i = take (Z.to_nat size) buffer ++ drop (Z.to_nat size) (data_of q i) /\
    next_of (mq_msg_pool q') i = Some None /\
    (forall j, j <> i -> data_of q' j = data_of q j) /\ mq_msg_size q' = mq_msg_size q /\ mq_obj q' = mq_obj q.
Proof.
  intros H Hs Hb. destruct (mq_inv_block q f u (i :: fly) i H) as (m & Em & Hm); [set_solver|].
  assert (i < length (mq_msg_pool q))%nat as Hi by (by eapply lookup_lt_Some).
  set (q1 := with_pool (<[i := with_next None m]> (mq_msg_pool q)) q).
  assert (mq_inv q1 f u (i :: fly)) as H1 by (by apply mq_inv_fly).
  destruct (copy_in_spec q1 i f u fly buffer size H1 Hs Hb) as (q' & E & Hq' & Hd & Hn & Ho & Hms & Hobj).
  assert (data_of q1 i = data_of q i) as Ed.
  { unfold data_of. simpl. rewrite list_lookup_insert_eq, Em by done. done. }
  exists q'. split; [unfold mq_fill, set_next; by rewrite Em|]. split; [done|]. split; [by rewrite Hd, Ed|].
  split; [rewrite Hn; unfold next_of; simpl; by rewrite list_lookup_insert_eq|].
  split; [|done]. intros j Hj. rewrite Ho by done. by apply data_of_insert.
Qed.

Lemma last_snoc_inv (u : list nat) t : last u = Some t -> exists u', u = u' ++ [t].
Proof.
  destruct u as [|x u _] using rev_ind; [done|]. rewrite last_snoc. intros [= ->]. eauto.
Qed.

Lemma entry_fits q f u fly i : mq_inv q f u (i :: fly) ->
  u16 (mq_entry q + 1) = Z.of_nat (S (length u)).
Proof.
  intros H. pose proof (mq_inv_length _ _ _ _ H) as Hl. simpl in Hl.
  destruct (mi_max _ _ _ _ H) as [Hm Hr]. unfold in_range in Hr.
  rewrite (mi_entry _ _ _ _ H), wrap_small; [lia|unfold in_range; lia].
Qed.

Lemma link_tail_spec q i f u fly : mq_inv q f u (i :: fly) -> next_of (mq_msg_pool q) i = Some None ->
  exists q', mq_link_tail i q = Some q' /\ mq_inv q' f (u ++ [i]) fly /\ (forall j, data_of q' j = data_of q j) /\
    mq_msg_size q' = mq_msg_size q /\ mq_obj q' = mq_obj q.
Proof.
  intros H Hn. pose proof (entry_fits _ _ _ _ _ H) as He. destruct (disjoint_blocks _ _ _ _ _ H) as (D1 & D2 & D3).
  pose proof (mq_inv_nodup _ _ _ _ H) as Hnd. apply NoDup_app in Hnd as (_ & Hfu & Hnu). apply NoDup_app in Hnu as (Hnu & _ & _).
  destruct (mq_inv_block q f u (i :: fly) i H) as (mi & Ei & _); [set_solver|].
  unfold next_of in Hn. rewrite Ei in Hn. injection Hn as Hn.
  pose proof H as [G1 G2 G3 G4 G5 G6 G7 G8].
  assert (forall pool : list mq_message, length pool = length (mq_msg_pool q) ->
    f ++ (u ++ [i]) ++ fly ≡ₚ seq 0 (length pool)) as Hperm.
  { intros pool ->. rewrite <- G4. by rewrite <- (app_assoc u). }
  unfold mq_link_tail. rewrite G3. destruct (last u) as [t|] eqn:El.
  - destruct (last_snoc_inv u t El) as (u' & ->).
    destruct (mq_inv_block q f (u' ++ [t]) (i :: fly) t H) as (mt & Et & Hmt); [set_solver|].
    assert (mq_queue_head q <> None) as Hh by (rewrite (chain_head _ _ _ _ G2); by destruct u').
    unfold set_next. rewrite Et. simpl. destruct (mq_queue_head q) as [h|] eqn:Eh; [|done].
    eexists. split; [done|]. split; [|split; [|done]].
    + split; simpl; rewrite ?length_insert; try done.
      * apply seg_insert; [|done]. intros Ht. apply (Hfu t Ht). set_solver.
      * by apply (chain_link _ _ _ _ _ _ mt _ mi).
      * by rewrite last_snoc.
      * by apply (Hperm (mq_msg_pool q)).
      * rewrite He. rewrite !length_app. simpl. lia.
      * by apply Forall_insert.
    + intros j. unfold data_of. simpl. destruct (decide (t = j)) as [->|]; [|by rewrite list_lookup_insert_ne].
      rewrite list_lookup_insert_eq by (by eapply lookup_lt_Some). by rewrite Et.
  - apply last_None in El as ->. rewrite (chain_head _ _ _ _ G2). simpl.
    eexists. split; [done|]. split; [|done]. split; simpl; try done.
    split; [done|]. exists mi. done.
Qed.

Lemma link_head_spec q i f u fly : mq_inv q f u (i :: fly) ->
  exists q', mq_link_head i q = Some q' /\ mq_inv q' f (i :: u) fly /\ (forall j, data_of q' j = data_of q j) /\
    mq_msg_size q' = mq_msg_size q /\ mq_obj q' = mq_obj q.
Proof.
  intros H. pose proof (entry_fits _ _ _ _ _ H) as He. destruct (disjoint_blocks _ _ _ _ _ H) as (D1 & D2 & D3).
  destruct (mq_inv_block q f u (i :: fly) i H) as (mi & Ei & Hmi); [set_solver|].
  assert (i < length (mq_msg_pool q))%nat as Hi by (by eapply lookup_lt_Some).
  destruct H as [G1 G2 G3 G4 G5 G6 G7 G8].
  unfold mq_link_head, set_next. rewrite Ei. simpl. eexists. split; [done|]. split; [|split; [|done]].
  - split; simpl; rewrite ?length_insert; try done.
    + by apply seg_insert.
    + split; [done|]. eexists. rewrite list_lookup_insert_eq by done. split; [done|]. by apply seg_insert.
    + rewrite G3. clear. destruct u as [|n u _] using rev_ind; [done|]. by rewrite app_comm_cons, !last_snoc.
    + rewrite <- G4. f_equiv. apply (Permutation_middle u fly i).
    + by apply Forall_insert.
  - intros j. unfold data_of. simpl. destruct (decide (i = j)) as [->|]; [|by rewrite list_lookup_insert_ne].
    rewrite list_lookup_insert_eq by done. by rewrite Ei.
Qed.

Lemma unlink_head_spec q i f u fly : mq_inv q f (i :: u) fly ->
  exists q', mq_unlink_head q = Some (i, q') /\ mq_inv q' f u (i :: fly) /\ (forall j, data_of q' j = data_of q j) /\
    mq_msg_size q' = mq_msg_size q /\ mq_obj q' = mq_obj q.
Proof.
  intros H. pose proof (mq_inv_nodup _ _ _ _ H) as Hnd. apply NoDup_app in Hnd as (_ & _ & Hnd).
  simpl in Hnd. apply NoDup_cons in Hnd as [Hi _].
  pose proof (mq_inv_length _ _ _ _ H) as Hl. simpl in Hl.
  destruct H as [G1 (E & m & Em & Hc) G3 G4 G5 [G6 G6'] G7 G8].
  unfold mq_unlink_head, next_of. rewrite E. simpl. rewrite Em. simpl. eexists. split; [done|]. split; [|done].
  split; simpl; try done.
  - rewrite G3. destruct u as [|j u]; [by rewrite decide_True|]. simpl in *. rewrite decide_False; [done|].
    intros El. apply Hi. assert (i ∈ j :: u); [|set_solver].
    destruct (last_snoc_inv (j :: u) i El) as (u' & ->). set_solver.
  - rewrite <- G4. f_equiv. by rewrite <- Permutation_middle.
  - rewrite G5. simpl length. unfold in_range in G6'. rewrite wrap_small; [lia|unfold in_range; lia].
Qed.

Lemma put_free_spec q i f u fly : mq_inv q f u (i :: fly) ->
  exists q', mq_put_free i q = Some q' /\ mq_inv q' (i :: f) u fly /\ (forall j, data_of q' j = data_of q j) /\
    mq_msg_size q' = mq_msg_size q /\ mq_obj q' = mq_obj q.
Proof.
  intros H. destruct (disjoint_blocks _ _ _ _ _ H) as (D1 & D2 & D3).
  destruct (mq_inv_block q f u (i :: fly) i H) as (mi & Ei & Hmi); [set_solver|].
  assert (i < length (mq_msg_pool q))%nat as Hi by (by eapply lookup_lt_Some).
  destruct H as [G1 G2 G3 G4 G5 G6 G7 G8].
  unfold mq_put_free, set_next. rewrite Ei. simpl. eexists. split; [done|]. split; [|split; [|done]].
  - split; simpl; rewrite ?length_insert; try done.
    + split; [done|]. eexists. rewrite list_lookup_insert_eq by done. split; [done|]. by apply seg_insert.
    + by apply seg_insert.
    + rewrite <- G4. rewrite !app_assoc, <- Permutation_middle. done.
    + by apply Forall_insert.
  - intros j. unfold data_of. simpl. destruct (decide (i = j)) as [->|]; [|by rewrite list_lookup_insert_ne].
    rewrite list_lookup_insert_eq by done. by rewrite Ei.
Qed.

(** ** Initialisation and reset *)

Lemma init_free_spec n : forall temp pool free,
  (temp + n = length pool)%nat -> chain msg_next pool free (rev (seq 0 temp)) ->
  exists pool' free', mq_init_free n temp pool free = Some (pool', free') /\ length pool' = length pool /\
    chain msg_next pool' free' (rev (seq 0 (length pool))) /\ map msg_data pool' = map msg_data pool.
Proof.
  induction n as [|n IH]; intros temp pool free Hl Hc; simpl.
  - exists pool, free. replace (length pool) with temp by lia. done.
  - destruct (lookup_lt_is_Some_2 pool temp ltac:(lia)) as [m Em]. unfold set_next. rewrite Em. simpl.
    destruct (IH (S temp) (<[temp := with_next free m]> pool) (Some temp)) as (pool' & free' & E & H1 & H2 & H3);
      [rewrite length_insert; lia| |].
    + rewrite seq_S, rev_app_distr. simpl. split; [done|]. eexists.
      rewrite list_lookup_insert_eq by lia. split; [done|]. apply seg_insert; [|done].
      rewrite list_elem_of_In, <- in_rev, in_seq. lia.
    + exists pool', free'. rewrite length_insert in *. split; [done|]. split; [done|]. split; [done|].
      rewrite H3. apply list_eq. intros i. rewrite !list_lookup_fmap.
      destruct (decide (temp = i)) as [->|]; [rewrite list_lookup_insert_eq, Em by lia; done|by rewrite list_lookup_insert_ne].
Qed.

(** [max_msgs] blocks of [msg_size] bytes make an empty queue with every block free. *)
Lemma mq_setup_inv obj blocks size :
  in_range 16 size -> in_range 16 (Z.of_nat (length blocks)) ->
  Forall (fun m => Z.of_nat (length (msg_data m)) = size) blocks ->
  exists pool free, mq_init_free (length blocks) 0 blocks None = Some (pool, free) /\
    mq_inv (MessageQueue obj pool size (Z.of_nat (length blocks)) 0 None None free) (rev (seq 0 (length blocks))) [] [].
Proof.
  intros Hs Hl Hd. destruct (init_free_spec (length blocks) 0 blocks None) as (pool & free & E & El & Hc & Hm); [done..|].
  exists pool, free. split; [done|]. split; simpl; rewrite ?El; try done.
  - rewrite app_nil_r. symmetry. apply Permutation_rev.
  - apply Forall_forall. intros m Hin.
    assert (msg_data m ∈ map msg_data pool) as Hi by (apply list_elem_of_fmap; eauto).
    rewrite Hm in Hi. apply list_elem_of_fmap in Hi as (m' & -> & Hi). rewrite Forall_forall in Hd. by apply Hd.
Qed.

Definition with_entry (n : nat) (q : messagequeue) : messagequeue :=
  with_queue (Z.of_nat n) (mq_queue_head q) (mq_queue_tail q) q.

Lemma put_free_entry i e h t q :
  mq_put_free i (with_queue e h t q) = q' ← mq_put_free i q; Some (with_queue e h t q').
Proof. unfold mq_put_free. simpl. by destruct (set_next _ i _). Qed.

Lemma put_free_queue i q q' : mq_put_free i q = Some q' ->
  mq_queue_head q' = mq_queue_head q /\ mq_queue_tail q' = mq_queue_tail q /\ mq_entry q' = mq_entry q.
Proof. unfold mq_put_free. destruct (set_next _ i _); [|done]. intros [= <-]. done. Qed.

Lemma release_all_spec u : forall q f fly fuel,
  mq_inv (with_entry (length u) q) f u fly -> (length u <= fuel)%nat ->
  exists q', mq_release_all fuel q = Some q' /\ mq_inv (with_entry 0 q') (rev u ++ f) [] fly /\
    mq_obj q' = mq_obj q /\ mq_msg_size q' = mq_msg_size q.
Proof.
  induction u as [|i u IH]; intros q f fly fuel H Hf.
  - exists q. pose proof (chain_head _ _ _ _ (mi_used _ _ _ _ H)) as Eh. simpl in Eh.
    split; [destruct fuel; simpl; by rewrite Eh|done].
  - destruct fuel as [|fuel]; simpl in Hf; [lia|].
    destruct (unlink_head_spec _ i f u fly H) as (q1 & E1 & H1 & _ & Hs1 & Ho1).
    destruct (put_free_spec q1 i f u fly H1) as (q2 & E2 & H2 & _ & Hs2 & Ho2).
    unfold mq_unlink_head, with_entry in E1. cbn [mq_queue_head mq_msg_pool mq_queue_tail with_queue] in E1.
    destruct (mq_queue_head q) as [h|] eqn:Eh; [|done]. simpl in E1.
    destruct (next_of (mq_msg_pool q) h) as [n|] eqn:En; [|done]. injection E1 as -> <-.
    set (tl := if decide (mq_queue_tail q = Some i) then None else mq_queue_tail q) in *.
    change (with_queue ?e n tl (with_queue _ _ _ q)) with (with_queue e n tl q) in E2, H1, Hs1, Ho1.
    pose proof E2 as E2'. rewrite put_free_entry in E2. destruct (mq_put_free i q) as [q0|] eqn:E0; [|done].
    assert (mq_put_free i (with_queue (mq_entry q) n tl q) = Some (with_queue (mq_entry q) n tl q0)) as E3
      by (rewrite put_free_entry; by rewrite E0).
    simpl in E2. injection E2 as <-.
    destruct (IH (with_queue (mq_entry q) n tl q0) (i :: f) fly fuel) as (q' & E' & H' & Ho' & Hs'); [|lia|].
    + pose proof (mi_entry _ _ _ _ H2) as He. cbn [mq_entry with_queue] in He.
      unfold with_entry. cbn [mq_queue_head mq_queue_tail with_queue]. rewrite He in H2. exact H2.
    + exists q'. split.
      * simpl. rewrite Eh. rewrite En. cbn [mbind option_bind]. fold tl. by rewrite E3.
      * split; [simpl; by rewrite <- app_assoc|]. simpl in *. split; congruence.
Qed.

(** ** Interleaved senders and receivers *)

(** A call of [rt_mq_send_wait] or [rt_mq_urgent] that has taken its block:
    before and after it has written the message. *)
Inductive sender := Filling (urgent : bool) | Filled (urgent : bool) (d : list Z).

(** The shared queue, the blocks being filled and those being read (with the
    bytes taken from the queue). *)
Record mq_sys := MqSys {
  ms_queue : messagequeue;
  ms_free : list nat;
  ms_used : list nat;
  ms_sending : list (nat * sender);
  ms_reading : list (nat * list Z)
}.

Inductive mq_label := LTau | LSend (d : list Z) | LUrgent (d : list Z) | LRecv (d : list Z).

(** One section, or the copy, of one of the calls in progress.  The lists of
    free and queued blocks are the ghost view of the pointers. *)
Inductive mq_step : mq_sys -> mq_label -> mq_sys -> Prop :=
| step_alloc q q' i f u s r urgent :
    mq_queue_free q = Some i -> mq_take_free i q = Some q' ->
    mq_step (MqSys q (i :: f) u s r) LTau (MqSys q' f u ((i, Filling urgent) :: s) r)
| step_fill q q' i f u s1 s2 r buffer size :
    0 < size <= mq_msg_size q -> size <= Z.of_nat (length buffer) ->
    mq_fill i buffer size q = Some q' ->
    mq_step (MqSys q f u (s1 ++ (i, Filling false) :: s2) r) LTau
            (MqSys q' f u (s1 ++ (i, Filled false (data_of q' i)) :: s2) r)
| step_fill_urgent q q' i f u s1 s2 r buffer size :
    0 < size <= mq_msg_size q -> size <= Z.of_nat (length buffer) ->
    mq_copy_in i buffer size q = Some q' ->
    mq_step (MqSys q f u (s1 ++ (i, Filling true) :: s2) r) LTau
            (MqSys q' f u (s1 ++ (i, Filled true (data_of q' i)) :: s2) r)
| step_link q q' i d f u s1 s2 r :
    mq_link_tail i q = Some q' ->
    mq_step (MqSys q f u (s1 ++ (i, Filled false d) :: s2) r) (LSend d) (MqSys q' f (u ++ [i]) (s1 ++ s2) r)
| step_link_urgent q q' i d f u s1 s2 r :
    mq_link_head i q = Some q' ->
    mq_step (MqSys q f u (s1 ++ (i, Filled true d) :: s2) r) (LUrgent d) (MqSys q' f (i :: u) (s1 ++ s2) r)
| step_unlink q q' i f u s r :
    mq_entry q <> 0 -> mq_unlink_head q = Some (i, q') ->
    mq_step (MqSys q f (i :: u) s r) (LRecv (data_of q i)) (MqSys q' f u s ((i, data_of q i) :: r))
| step_release q q' i d f u s r1 r2 :
    mq_put_free i q = Some q' ->
    mq_step (MqSys q f u s (r1 ++ (i, d) :: r2)) LTau (MqSys q' (i :: f) u s (r1 ++ r2)).

(** Every block is in one place, the copies are not disturbed, and a message
    that will be linked at the end has no successor. *)
Record sys_inv (x : mq_sys) : Prop := SysInv {
  si_inv : mq_inv (ms_queue x) (ms_free x) (ms_used x) (map fst (ms_sending x) ++ map fst (ms_reading x));
  si_sent i b d : (i, Filled b d) ∈ ms_sending x -> data_of (ms_queue x) i = d;
  si_next i d : (i, Filled false d) ∈ ms_sending x -> next_of (mq_msg_pool (ms_queue x)) i = Some None;
  si_read i d : (i, d) ∈ ms_reading x -> data_of (ms_queue x) i = d
}.

Definition sys_content (x : mq_sys) : list (list Z) := mq_content (ms_queue x) (ms_used x).

(** The abstract queue takes the step the label says. *)
Definition queue_step (c : list (list Z)) (l : mq_label) (c' : list (list Z)) : Prop :=
  match l with
  | LTau => c' = c
  | LSend d => c' = c ++ [d]
  | LUrgent d => c' = d :: c
  | LRecv d => c = d :: c'
  end.

Lemma content_ext q q' u : (forall j, j ∈ u -> data_of q' j = data_of q j) -> mq_content q' u = mq_content q u.
Proof. intros H. apply map_ext_in. intros j Hj%list_elem_of_In. by apply H. Qed.

Lemma middle_perm {A} (l1 l2 l3 : list A) x : (l1 ++ x :: l2) ++ l3 ≡ₚ x :: (l1 ++ l2) ++ l3.
Proof. by rewrite <- Permutation_middle. Qed.

Lemma middle_perm_r {A} (l1 l2 l3 : list A) x : l3 ++ l1 ++ x :: l2 ≡ₚ x :: l3 ++ l1 ++ l2.
Proof. by rewrite <- !Permutation_middle. Qed.

(** The sections leave the [next] field of every other block alone. *)
Lemma next_of_insert pool i j m : i <> j -> next_of (<[i := m]> pool) j = next_of pool j.
Proof. intros Hn. unfold next_of. by rewrite list_lookup_insert_ne. Qed.

Lemma set_next_ne pool i n pool' j : set_next pool i n = Some pool' -> j <> i -> next_of pool' j = next_of pool j.
Proof.
  unfold set_next. destruct (pool !! i); [|done]. intros [= <-] Hn. by apply next_of_insert.
Qed.

Lemma copy_in_next q q' i j buffer size :
  mq_copy_in i buffer size q = Some q' -> j <> i -> next_of (mq_msg_pool q') j = next_of (mq_msg_pool q) j.
Proof.
  unfold mq_copy_in. destruct (mq_msg_pool q !! i); [|done]. simpl. case_decide; [|done].
  intros [= <-] Hn. by apply next_of_insert.
Qed.

Lemma fill_next q q' i j buffer size :
  mq_fill i buffer size q = Some q' -> j <> i -> next_of (mq_msg_pool q') j = next_of (mq_msg_pool q) j.
Proof.
  unfold mq_fill. destruct (set_next _ i None) as [pool|] eqn:E; [|done]. intros Ec Hn.
  rewrite (copy_in_next _ _ _ _ _ _ Ec Hn). by apply (set_next_ne _ _ _ _ _ E).
Qed.

Lemma link_tail_next q q' i j :
  mq_link_tail i q = Some q' -> mq_queue_tail q <> Some j -> next_of (mq_msg_pool q') j = next_of (mq_msg_pool q) j.
Proof.
  unfold mq_link_tail. destruct (mq_queue_tail q) as [t|]; [|by intros [= <-]].
  destruct (set_next _ t _) as [pool|] eqn:E; [|done]. intros [= <-] Hn. apply (set_next_ne _ _ _ _ _ E). congruence.
Qed.

Lemma link_head_next q q' i j :
  mq_link_head i q = Some q' -> j <> i -> next_of (mq_msg_pool q') j = next_of (mq_msg_pool q) j.
Proof.
  unfold mq_link_head. destruct (set_next _ i _) as [pool|] eqn:E; [|done]. intros [= <-] Hn. by apply (set_next_ne _ _ _ _ _ E).
Qed.

Lemma put_free_next q q' i j :
  mq_put_free i q = Some q' -> j <> i -> next_of (mq_msg_pool q') j = next_of (mq_msg_pool q) j.
Proof.
  unfold mq_put_free. destruct (set_next _ i _) as [pool|] eqn:E; [|done]. intros [= <-] Hn. by apply (set_next_ne _ _ _ _ _ E).
Qed.

Lemma take_free_pool q q' i : mq_take_free i q = Some q' -> mq_msg_pool q' = mq_msg_pool q.
Proof. unfold mq_take_free. destruct (next_of _ i); [|done]. by intros [= <-]. Qed.

Lemma unlink_pool q q' i : mq_unlink_head q = Some (i, q') -> mq_msg_pool q' = mq_msg_pool q.
Proof.
  unfold mq_unlink_head. destruct (mq_queue_head q) as [h|]; [|done]. simpl. destruct (next_of _ h); [|done]. by intros [= _ <-].
Qed.

(** A copy into the block [i] in flight: every other block is as it was. *)
Lemma fill_frame q q' i b d f u s1 s2 r :
  sys_inv (MqSys q f u (s1 ++ (i, Filling b) :: s2) r) ->
  mq_inv q' f u (i :: map fst (s1 ++ s2) ++ map fst r) -> (forall j, j <> i -> data_of q' j = data_of q j) ->
  (forall j, j <> i -> next_of (mq_msg_pool q') j = next_of (mq_msg_pool q) j) ->
  (b = false -> next_of (mq_msg_pool q') i = Some None) ->
  d = data_of q' i ->
  sys_inv (MqSys q' f u (s1 ++ (i, Filled b d) :: s2) r) /\ mq_content q' u = mq_content q u.
Proof.
  intros [H1 H2 Hx H3] Hq Hd Hj Hi ->. cbn [ms_queue ms_free ms_used ms_sending ms_reading] in *.
  destruct (disjoint_blocks _ _ _ _ _ Hq) as (D1 & D2 & D3).
  rewrite map_app, <- app_assoc in D3. apply not_elem_of_app in D3 as [D3 D4]. apply not_elem_of_app in D4 as [D4 D5].
  assert (forall (j : nat) (o : sender), (j, o) ∈ s1 \/ (j, o) ∈ s2 -> j <> i) as Hne.
  { intros j o Hjr ->. destruct Hjr as [Hjr|Hjr]; [apply D3|apply D4]; apply list_elem_of_fmap; by exists (i, o). }
  split.
  - split; cbn [ms_queue ms_free ms_used ms_sending ms_reading].
    + eapply mq_inv_perm; [|exact Hq]. rewrite !map_app. cbn [map fst]. by rewrite middle_perm.
    + intros j b' d [Hjs|[[= -> -> <-]|Hjs]%elem_of_cons]%elem_of_app; [|done|];
        (rewrite Hd by (by eapply Hne; eauto)); apply (H2 _ b'); set_solver.
    + intros j d [Hjs|[[= -> Hb _]|Hjs]%elem_of_cons]%elem_of_app; [|by apply Hi|];
        (rewrite Hj by (by eapply Hne; eauto)); apply (Hx _ d); set_solver.
    + clear Hj. intros j d Hj. rewrite Hd; [by apply H3|]. intros ->. apply D5, list_elem_of_fmap. by exists (i, d).
  - apply content_ext. intros j Hju. apply Hd. by intros ->.
Qed.

Lemma sys_fly x i (o : sender) s1 s2 q f u r : x = MqSys q f u (s1 ++ (i, o) :: s2) r -> sys_inv x ->
  mq_inv q f u (i :: map fst (s1 ++ s2) ++ map fst r).
Proof.
  intros -> [H1 _ _ _]. cbn [ms_queue ms_free ms_used ms_sending ms_reading] in *.
  eapply mq_inv_perm; [|exact H1]. rewrite !map_app. cbn [map fst]. by rewrite middle_perm.
Qed.

(** Linking a filled block. *)
Lemma link_frame q q' i b d f u u' s1 s2 r :
  sys_inv (MqSys q f u (s1 ++ (i, Filled b d) :: s2) r) ->
  mq_inv q' f u' (map fst (s1 ++ s2) ++ map fst r) -> (forall j, data_of q' j = data_of q j) ->
  (forall j, j ∈ map fst (s1 ++ s2) -> next_of (mq_msg_pool q') j = next_of (mq_msg_pool q) j) ->
  sys_inv (MqSys q' f u' (s1 ++ s2) r) /\ data_of q' i = d /\ mq_content q' u = mq_content q u.
Proof.
  intros [H1 H2 Hx H3] Hq Hd Hn. cbn [ms_queue ms_free ms_used ms_sending ms_reading] in *. split; [split|split]; simpl.
  - done.
  - intros j b' d' Hj. rewrite Hd. apply (H2 _ b'). set_solver.
  - intros j d' Hj. rewrite Hn; [apply (Hx _ d'); set_solver|]. apply list_elem_of_fmap. by eexists (j, _).
  - intros j d' Hj. rewrite Hd. by apply H3.
  - rewrite Hd. apply (H2 _ b). set_solver.
  - apply content_ext. intros. apply Hd.
Qed.

(** Whatever the interleaving, the blocks stay partitioned and the queue is a
    queue of whole messages. *)
Lemma mq_step_refines x l y : sys_inv x -> mq_step x l y ->
  sys_inv y /\ queue_step (sys_content x) l (sys_content y).
Proof.
  intros H Hs. destruct Hs as [q q' i f u s r b Ef E|q q' i f u s1 s2 r buffer size Hsz Hb E|q q' i f u s1 s2 r buffer size Hsz Hb E
    |q q' i d f u s1 s2 r E|q q' i d f u s1 s2 r E|q q' i f u s r He E|q q' i d f u s r1 r2 E]; unfold sys_content;
    cbn [ms_queue ms_used ms_free ms_sending ms_reading queue_step].
  - destruct H as [H1 H2 Hx H3]. simpl in *. destruct (take_free_spec _ _ _ _ _ H1) as (q1 & E1 & Hq & Hd & _).
    rewrite E in E1; injection E1 as <-. split; [split; simpl|by apply content_ext].
    + done.
    + intros j b' d [[= -> [=]]|Hj]%elem_of_cons. rewrite Hd. by apply (H2 _ b').
    + intros j d [[= -> [=]]|Hj]%elem_of_cons. rewrite (take_free_pool _ _ _ E). by apply (Hx _ d).
    + intros j d Hj. rewrite Hd. by apply H3.
  - pose proof (sys_fly _ _ _ _ _ _ _ _ _ eq_refl H) as Hq.
    destruct (fill_spec _ _ _ _ _ buffer size Hq ltac:(lia) Hb) as (q1 & E1 & Hq1 & _ & Hn & Hd & _). rewrite E in E1; injection E1 as <-.
    apply (fill_frame q); try done. intros j. by apply (fill_next _ _ _ _ _ _ E).
  - pose proof (sys_fly _ _ _ _ _ _ _ _ _ eq_refl H) as Hq.
    destruct (copy_in_spec _ _ _ _ _ buffer size Hq ltac:(lia) Hb) as (q1 & E1 & Hq1 & _ & _ & Hd & _). rewrite E in E1; injection E1 as <-.
    apply (fill_frame q); try done. intros j. by apply (copy_in_next _ _ _ _ _ _ E).
  - pose proof (sys_fly _ _ _ _ _ _ _ _ _ eq_refl H) as Hq.
    destruct (link_tail_spec _ _ _ _ _ Hq) as (q1 & E1 & Hq1 & Hd & _);
      [apply (si_next _ H i d); cbn; set_solver|]. rewrite E in E1; injection E1 as <-.
    destruct (link_frame q q' i false d f u (u ++ [i]) s1 s2 r H Hq1 Hd) as (Hi & Hdi & Hc).
    { intros j Hj. apply (link_tail_next _ _ _ _ E). rewrite (mi_tail _ _ _ _ Hq). intros El.
      apply last_snoc_inv in El as (u' & ->). apply mq_inv_nodup, NoDup_app in Hq as (_ & _ & Hq).
      apply NoDup_app in Hq as (_ & Hq & _). apply (Hq j); set_solver. }
    split; [done|]. unfold mq_content in *. rewrite map_app, Hc. simpl. by rewrite Hdi.
  - pose proof (sys_fly _ _ _ _ _ _ _ _ _ eq_refl H) as Hq.
    destruct (link_head_spec _ _ _ _ _ Hq) as (q1 & E1 & Hq1 & Hd & _). rewrite E in E1; injection E1 as <-.
    destruct (link_frame q q' i true d f u (i :: u) s1 s2 r H Hq1 Hd) as (Hi & Hdi & Hc).
    { intros j Hj. apply (link_head_next _ _ _ _ E). intros ->. destruct (disjoint_blocks _ _ _ _ _ Hq) as (_ & _ & Hq2). set_solver. }
    split; [done|]. unfold mq_content in *. simpl. by rewrite Hdi, Hc.
  - destruct H as [H1 H2 Hx H3]. simpl in *. destruct (unlink_head_spec _ _ _ _ _ H1) as (q1 & E1 & Hq & Hd & _).
    rewrite E in E1; injection E1 as <-. split; [split; simpl|].
    + eapply mq_inv_perm; [|exact Hq]. by rewrite Permutation_middle.
    + intros j b d Hj. rewrite Hd. by apply (H2 _ b).
    + intros j d Hj. rewrite (unlink_pool _ _ _ E). by apply (Hx _ d).
    + intros j d [[= -> ->]|Hj]%elem_of_cons; rewrite Hd; [done|by apply H3].
    + simpl. f_equal. symmetry. by apply content_ext.
  - destruct H as [H1 H2 Hx H3]. simpl in *.
    assert (mq_inv q f u (i :: map fst s ++ map fst (r1 ++ r2))) as Hq.
    { eapply mq_inv_perm; [|exact H1]. rewrite !map_app. cbn [map fst]. by rewrite middle_perm_r. }
    destruct (put_free_spec _ _ _ _ _ Hq) as (q1 & E1 & Hq1 & Hd & _). rewrite E in E1; injection E1 as <-.
    split; [split; simpl|by apply content_ext].
    + done.
    + intros j b d' Hj. rewrite Hd. by apply (H2 _ b).
    + intros j d' Hj. rewrite (put_free_next _ _ _ _ E); [by apply (Hx _ d')|]. intros ->.
      destruct (disjoint_blocks _ _ _ _ _ Hq) as (_ & _ & Hq2). apply Hq2, elem_of_app. left. apply list_elem_of_fmap. by eexists (i, _).
    + intros j d' Hj. rewrite Hd. apply H3. set_solver.
Qed.

(** Every section that a call may run next is defined: it follows no wild pointer. *)
Definition sections_defined (x : mq_sys) : Prop :=
  let q := ms_queue x in
  (forall i, mq_queue_free q = Some i -> is_Some (mq_take_free i q)) /\
  (forall i b buffer size, (i, Filling b) ∈ ms_sending x -> 0 < size <= mq_msg_size q -> size <= Z.of_nat (length buffer) ->
     is_Some (if b then mq_copy_in i buffer size q else mq_fill i buffer size q)) /\
  (forall i b d, (i, Filled b d) ∈ ms_sending x -> is_Some (if b then mq_link_head i q else mq_link_tail i q)) /\
  (mq_entry q <> 0 -> is_Some (mq_unlink_head q)) /\
  (forall i d, (i, d) ∈ ms_reading x -> is_Some (mq_put_free i q)).

Lemma sys_fly_in x i (o : sender) : sys_inv x -> (i, o) ∈ ms_sending x ->
  exists fly, mq_inv (ms_queue x) (ms_free x) (ms_used x) (i :: fly).
Proof.
  destruct x as [q f u s r]. simpl. intros H (s1 & s2 & ->)%list_elem_of_split. eexists. by apply (sys_fly _ _ _ _ _ _ _ _ _ eq_refl H).
Qed.

Lemma sys_sections_defined x : sys_inv x -> sections_defined x.
Proof.
  intros H. pose proof (si_inv _ H) as Hq. split_and!.
  - intros i Ef. rewrite (chain_head _ _ _ _ (mi_free _ _ _ _ Hq)) in Ef. destruct (ms_free x) as [|j f]; [done|].
    injection Ef as ->. destruct (take_free_spec _ _ _ _ _ Hq) as (q' & -> & _). by eexists.
  - intros i b buffer size Hi Hs Hb. destruct (sys_fly_in _ _ _ H Hi) as [fly Hf]. destruct b.
    + destruct (copy_in_spec _ _ _ _ _ buffer size Hf) as (q' & -> & _); [lia|done|]. by eexists.
    + destruct (fill_spec _ _ _ _ _ buffer size Hf) as (q' & -> & _); [lia|done|]. by eexists.
  - intros i b d Hi. destruct (sys_fly_in _ _ _ H Hi) as [fly Hf]. destruct b.
    + destruct (link_head_spec _ _ _ _ _ Hf) as (q' & -> & _). by eexists.
    + destruct (link_tail_spec _ _ _ _ _ Hf) as (q' & -> & _); [by apply (si_next _ H i d)|]. by eexists.
  - intros He. rewrite (mi_entry _ _ _ _ Hq) in He. destruct (ms_used x) as [|i u]; [done|].
    destruct (unlink_head_spec _ _ _ _ _ Hq) as (q' & -> & _). by eexists.
  - intros i d (r1 & r2 & Er)%list_elem_of_split. eapply mq_inv_perm in Hq; [|rewrite Er, map_app; cbn [map fst]; apply middle_perm_r].
    destruct (put_free_spec _ _ _ _ _ Hq) as (q' & -> & _). by eexists.
Qed.

(** Runs, and the trace the abstract queue follows. *)
Inductive mq_steps : mq_sys -> list mq_label -> mq_sys -> Prop :=
| steps_nil x : mq_steps x [] x
| steps_cons x l y ls z : mq_step x l y -> mq_steps y ls z -> mq_steps x (l :: ls) z.

Fixpoint queue_trace (c : list (list Z)) (ls : list mq_label) (c' : list (list Z)) : Prop :=
  match ls with
  | [] => c' = c
  | l :: ls => exists c1, queue_step c l c1 /\ queue_trace c1 ls c'
  end.

(** ** The calls *)

Record mq_ok (k : kstate) (o : oid) (q : messagequeue) (f u : list nat) : Prop := MqOk {
  qo_mq : k_mqs k !! o = Some q;
  qo_inv : mq_inv q f u [];
  qo_flag : flag_ok (ipc_flag (mq_obj q));
  qo_recv : waiters_clean k (LSuspend o);
  qo_send : waiters_clean k (LSender o)
}.

Lemma kwf_with_mqs f k : kwf k -> kwf (with_mqs f k).
Proof. by apply kwf_objects. Qed.

Lemma section_eval o f k q q' : k_mqs k !! o = Some q -> f q = Some q' ->
  mq_section o f k = Some (tt, with_mqs (insert o q') k).
Proof. intros E Ef. unfold mq_section, get_mq, put_mq. munfold. by rewrite E, Ef. Qed.

Lemma with_mqs_twice o q q' k : with_mqs (insert o q') (with_mqs (insert o q) k) = with_mqs (insert o q') k.
Proof. unfold with_mqs. simpl. by rewrite insert_insert_eq. Qed.

Lemma mq_ok_notified k k' h o q f u :
  notified k k' h -> mq_ok k o q f u -> mq_ok k' o q f u.
Proof.
  intros N [H1 H2 H3 H4 H5]. destruct (objects_inj _ _ (nt_objects _ _ _ N)) as (_ & _ & _ & _ & Eq & _).
  split; [by rewrite Eq|done|done|by apply (nt_clean _ _ _ N)|by apply (nt_clean _ _ _ N)].
Qed.

Lemma mq_ok_blocked k k' h t flag timeout o q f u :
  blocked k k' h t flag timeout (with_error RT_EOK) -> mq_ok k o q f u -> mq_ok k' o q f u.
Proof.
  intros B [H1 H2 H3 H4 H5]. destruct (objects_inj _ _ (bl_objects _ _ _ _ _ _ _ B)) as (_ & _ & _ & _ & Eq & _).
  split; [by rewrite Eq|done|done|by apply (bl_clean _ _ _ _ _ _ _ B)|by apply (bl_clean _ _ _ _ _ _ _ B)].
Qed.

Lemma mq_ok_set k o q q' f u f' u' : mq_ok k o q f u -> mq_inv q' f' u' [] -> mq_obj q' = mq_obj q ->
  mq_ok (with_mqs (insert o q') k) o q' f' u'.
Proof. intros [H1 H2 H3 H4 H5] Hq E. split; try done; [simpl; by rewrite lookup_insert_eq|by rewrite E]. Qed.

(** The message a send of [size] bytes stores: the rest of the block is stale. *)
Definition stored (buffer : list Z) (size msg_size : Z) (d : list Z) : Prop :=
  Z.of_nat (length d) = msg_size /\ take (Z.to_nat size) d = take (Z.to_nat size) buffer.

Lemma stored_intro buffer size msg_size old :
  0 <= size <= msg_size -> size <= Z.of_nat (length buffer) -> Z.of_nat (length old) = msg_size ->
  stored buffer size msg_size (take (Z.to_nat size) buffer ++ drop (Z.to_nat size) old).
Proof.
  intros Hs Hb Ho. split.
  - rewrite length_app, length_take, length_drop. lia.
  - rewrite take_app_le by (rewrite length_take; lia). by rewrite take_take, Nat.min_id.
Qed.

(** The three sections of a send with room. *)
Lemma send_sections k o q i f u buffer size :
  kwf k -> mq_ok k o q (i :: f) u -> 0 < size <= mq_msg_size q -> size <= Z.of_nat (length buffer) ->
  exists q' d, (mq_section o (mq_take_free i);; mq_section o (mq_fill i buffer size);; mq_section o (mq_link_tail i)) k
      = Some (tt, with_mqs (insert o q') k) /\
    mq_ok (with_mqs (insert o q') k) o q' f (u ++ [i]) /\ mq_obj q' = mq_obj q /\ mq_msg_size q' = mq_msg_size q /\
    stored buffer size (mq_msg_size q) d /\ mq_content q' (u ++ [i]) = mq_content q u ++ [d].
Proof.
  intros H Hok Hs Hb. pose proof Hok as [H1 H2 H3 H4 H5].
  destruct (take_free_spec _ _ _ _ _ H2) as (q1 & E1 & I1 & D1 & S1 & O1).
  destruct (mq_inv_block _ _ _ _ i I1) as (m & Em & Hm); [set_solver|].
  destruct (fill_spec _ _ _ _ _ buffer size I1) as (q2 & E2 & I2 & Dd & Hn & D2 & S2 & O2); [lia|done|].
  destruct (link_tail_spec _ _ _ _ _ I2 Hn) as (q3 & E3 & I3 & D3 & S3 & O3).
  exists q3, (data_of q2 i). split_and!.
  - munfold. rewrite (section_eval o _ k q q1) by done.
    rewrite (section_eval o _ _ q1 q2) by (simpl; rewrite ?lookup_insert_eq; done). rewrite with_mqs_twice.
    rewrite (section_eval o _ _ q2 q3) by (simpl; rewrite ?lookup_insert_eq; done). by rewrite with_mqs_twice.
  - eapply mq_ok_set; [done|done|congruence].
  - congruence.
  - congruence.
  - rewrite Dd. apply stored_intro; [lia|done|]. unfold data_of. rewrite Em. simpl. lia.
  - destruct (disjoint_blocks _ _ _ _ _ I2) as (_ & Hiu & _). unfold mq_content. rewrite map_app. simpl. f_equal; [|by rewrite D3].
    apply map_ext_in. intros j Hj%list_elem_of_In. rewrite D3, D2 by (by intros ->). apply D1.
Qed.

Lemma mq_full q f u : mq_inv q f u [] -> (Z.of_nat (length u) < mq_max_msgs q <-> mq_queue_free q <> None).
Proof.
  intros H. pose proof (mq_inv_length _ _ _ _ H) as Hl. destruct (mi_max _ _ _ _ H) as [Hm _].
  rewrite (chain_head _ _ _ _ (mi_free _ _ _ _ H)), Hm. destruct f; simpl in *; split; intros; try done; lia.
Qed.

(** What [rt_mq_send_wait] does. *)
Definition mq_sends (k : kstate) (t : tid) (o : oid) (q : messagequeue) (f u : list nat) (buffer : list Z) (size timeout : Z) : Prop :=
  exists r k' q' f' u' d, rt_mq_send_wait o buffer size timeout k = Some (r, k') /\ kwf k' /\ mq_ok k' o q' f' u' /\
    stored buffer size (mq_msg_size q) d /\
    let '(a, c') := queue_send (mq_max_msgs q) d timeout (mq_content q u) in
    mq_content q' u' = c' /\
    match a with
    | QSent => r = Returned RT_EOK /\ first_woken k k' (LSuspend o)
    | QFull => r = Returned (- RT_EFULL) /\ k' = k
    | QWait => r = Blocked (MqSendFrame o buffer size t timeout (k_tick k)) /\
        k_lists k' (LSender o) = enqueue (ipc_flag (mq_obj q)) (priority_of k) t (k_lists k (LSender o)) /\
        (0 < timeout -> ThreadTimer t ∈ k_timer_list k' /\ due_key k' (ThreadTimer t) = timeout)
    end.

Lemma rt_mq_send_wait_sim k t th o q f u buffer size timeout :
  kwf k -> running k t th -> k_irq_nest k = 0 -> mq_ok k o q f u -> timeout < HALF ->
  0 < size <= mq_msg_size q -> size <= Z.of_nat (length buffer) -> mq_sends k t o q f u buffer size timeout.
Proof.
  intros H Hr Hi Hok Hto Hs Hb. unfold mq_sends. pose proof Hok as [H1 H2 H3 H4 H5]. pose proof Hr as (Hc & E & Hst).
  pose proof (mq_full _ _ _ H2) as Hfull. unfold queue_send.
  assert (length (mq_content q u) = length u) as -> by apply length_map.
  unfold rt_mq_send_wait, mq_send_loop, get_mq, rt_thread_self, rt_assert. munfold. rewrite H1.
  rewrite bool_decide_true by lia. simpl. rewrite decide_False by lia.
  destruct (decide (Z.of_nat (length u) < mq_max_msgs q)) as [Hd|Hd].
  - pose proof (chain_head _ _ _ _ (mi_free _ _ _ _ H2)) as Ef. destruct f as [|i f]; [by rewrite Ef in Hfull; tauto|].
    simpl in Ef. rewrite decide_False by (rewrite Ef; naive_solver). rewrite H1, Ef.
    destruct (send_sections k o q i f u buffer size H Hok Hs Hb) as (q' & d & E' & Hok' & _ & _ & Hd' & Hcont).
    destruct (resume_if_waiting_spec (with_mqs (insert o q') k) (LSuspend o)) as (k' & Ek & N);
      [by apply kwf_with_mqs|done|by exists t|].
    exists (Returned RT_EOK), k', q', f, (u ++ [i]), d. split.
    { munfold. destruct (mq_section o (mq_take_free i) k) as [[? k1]|]; [|done].
      destruct (mq_section o (mq_fill i buffer size) k1) as [[? k2]|]; [|done]. rewrite E'. by rewrite Ek. }
    split; [apply N|]. split; [by eapply mq_ok_notified|]. split; [done|]. split; [done|]. split; [done|].
    by apply (notified_woken _ _ _ N).
  - assert (mq_queue_free q = None) as Ef by (destruct (mq_queue_free q); [exfalso; naive_solver|done]).
    assert (exists d, stored buffer size (mq_msg_size q) d) as [d Hd'].
    { exists (take (Z.to_nat size) buffer ++ drop (Z.to_nat size) (replicate (Z.to_nat (mq_msg_size q)) 0)).
      apply stored_intro; [lia|done|]. rewrite length_replicate. lia. }
    destruct (decide (timeout = 0)) as [Ht|Ht].
    { rewrite decide_True by done. exists (Returned (- RT_EFULL)), k, q, f, u, d. done. }
    rewrite decide_False by tauto. rewrite H1, Ef, Hc, E. 
    destruct (block_spec k t th (LSender o) (ipc_flag (mq_obj q)) timeout (with_error RT_EOK)) as (k' & Ew & B); [done..|].
    fold (upd_thread t (with_error RT_EOK) k). rewrite (in_thread_context_eval _ t) by done.
    unfold rt_tick_get. munfold. rewrite Ew. eexists _, k', q, f, u, d. split; [done|]. split; [apply B|].
    split; [by eapply mq_ok_blocked|]. split; [done|]. split; [done|]. split; [done|]. split; apply B.
Qed.

(** What [rt_mq_urgent] does: the message goes in front of the queue. *)
Definition mq_sends_first (k : kstate) (o : oid) (q : messagequeue) (f u : list nat) (buffer : list Z) (size : Z) : Prop :=
  exists r k' q' f' u', rt_mq_urgent o buffer size k = Some (r, k') /\ kwf k' /\ mq_ok k' o q' f' u' /\
    if decide (Z.of_nat (length u) < mq_max_msgs q)
    then r = RT_EOK /\ first_woken k k' (LSuspend o) /\ exists d, stored buffer size (mq_msg_size q) d /\ mq_content q' u' = d :: mq_content q u
    else r = - RT_EFULL /\ k' = k.

Lemma rt_mq_urgent_sim k o q f u buffer size :
  kwf k -> is_Some (k_current k) -> mq_ok k o q f u -> 0 < size <= mq_msg_size q -> size <= Z.of_nat (length buffer) ->
  mq_sends_first k o q f u buffer size.
Proof.
  intros H Hc Hok Hs Hb. unfold mq_sends_first. pose proof Hok as [H1 H2 H3 H4 H5]. pose proof (mq_full _ _ _ H2) as Hfull.
  unfold rt_mq_urgent, get_mq, rt_assert. munfold. rewrite H1.
  rewrite bool_decide_true by lia. simpl. rewrite decide_False by lia.
  pose proof (chain_head _ _ _ _ (mi_free _ _ _ _ H2)) as Ef. rewrite Ef in *. destruct f as [|i f]; simpl in *.
  - destruct (decide (Z.of_nat (length u) < mq_max_msgs q)); [tauto|]. exists (- RT_EFULL), k, q, [], u. done.
  - destruct (decide (Z.of_nat (length u) < mq_max_msgs q)); [|exfalso; naive_solver].
    destruct (take_free_spec _ _ _ _ _ H2) as (q1 & E1 & I1 & D1 & S1 & O1).
    destruct (mq_inv_block _ _ _ _ i I1) as (m & Em & Hm); [set_solver|].
    destruct (copy_in_spec _ _ _ _ _ buffer size I1) as (q2 & E2 & I2 & Dd & _ & D2 & S2 & O2); [lia|done|].
    destruct (link_head_spec _ _ _ _ _ I2) as (q3 & E3 & I3 & D3 & S3 & O3).
    destruct (resume_if_waiting_spec (with_mqs (insert o q3) k) (LSuspend o)) as (k' & Ek & N);
      [by apply kwf_with_mqs|done|done|].
    exists RT_EOK, k', q3, f, (i :: u). split.
    { rewrite (section_eval o _ k q q1) by done.
      rewrite (section_eval o _ _ q1 q2) by (simpl; rewrite ?lookup_insert_eq; done). rewrite with_mqs_twice.
      rewrite (section_eval o _ _ q2 q3) by (simpl; rewrite ?lookup_insert_eq; done). rewrite with_mqs_twice. by rewrite Ek. }
    split; [apply N|]. split; [eapply mq_ok_notified; [done|]; eapply mq_ok_set; [done|done|congruence]|].
    split; [done|]. split; [by apply (notified_woken _ _ _ N)|]. exists (data_of q2 i). split.
    + rewrite Dd. apply stored_intro; [lia|done|]. unfold data_of. rewrite Em. simpl. lia.
    + destruct (disjoint_blocks _ _ _ _ _ I2) as (_ & Hiu & _). simpl. rewrite D3. f_equal.
      apply map_ext_in. intros j Hj%list_elem_of_In. rewrite D3, D2 by (by intros ->). apply D1.
Qed.

(** What [rt_mq_recv] does. *)
Definition mq_receives (k : kstate) (t : tid) (o : oid) (q : messagequeue) (f u : list nat) (size timeout : Z) : Prop :=
  exists r k' q' f' u', rt_mq_recv o size timeout k = Some (r, k') /\ kwf k' /\ mq_ok k' o q' f' u' /\
    let '(a, c') := queue_recv timeout (mq_content q u) in
    mq_content q' u' = c' /\
    match a with
    | QGot d => r = Returned (RT_EOK, Some (take (Z.to_nat (Z.min size (mq_msg_size q))) d)) /\
        first_woken k k' (LSender o)
    | QEmpty => r = Returned (- RT_ETIMEOUT, None) /\ k' = k
    | QWaitRecv => r = Blocked (MqRecvFrame o size t timeout (k_tick k)) /\
        k_lists k' (LSuspend o) = enqueue (ipc_flag (mq_obj q)) (priority_of k) t (k_lists k (LSuspend o)) /\
        (0 < timeout -> ThreadTimer t ∈ k_timer_list k' /\ due_key k' (ThreadTimer t) = timeout)
    end.

Lemma rt_mq_recv_sim k t th o q f u size timeout :
  kwf k -> running k t th -> k_irq_nest k = 0 -> mq_ok k o q f u -> timeout < HALF -> 0 < size -> mq_receives k t o q f u size timeout.
Proof.
  intros H Hr Hi Hok Hto Hs. unfold mq_receives. pose proof Hok as [H1 H2 H3 H4 H5]. pose proof Hr as (Hc & E & Hst).
  pose proof (mi_entry _ _ _ _ H2) as He.
  unfold rt_mq_recv, mq_recv_loop, get_mq, rt_thread_self, rt_assert. munfold. rewrite H1.
  rewrite bool_decide_true by lia. simpl. destruct u as [|i u]; simpl in He.
  - unfold queue_recv, mq_content. simpl. destruct (decide (timeout = 0)) as [Ht|Ht].
    { rewrite decide_True by done. exists (Returned (- RT_ETIMEOUT, None)), k, q, f, []. done. }
    rewrite decide_False by tauto. rewrite H1, decide_True by done.
    rewrite (in_thread_context_eval _ t) by done. rewrite Hc, E.
    destruct (block_spec k t th (LSuspend o) (ipc_flag (mq_obj q)) timeout (with_error RT_EOK)) as (k' & Ew & B); [done..|].
    fold (upd_thread t (with_error RT_EOK) k).
    unfold rt_tick_get. munfold. rewrite Ew. eexists _, k', q, f, []. split; [done|]. split; [apply B|].
    split; [by eapply mq_ok_blocked|]. split; [done|]. split; [done|]. split; apply B.
  - rewrite decide_False by lia. rewrite H1, decide_False by lia.
    destruct (unlink_head_spec _ _ _ _ _ H2) as (q1 & E1 & I1 & D1 & S1 & O1).
    destruct (mq_inv_block _ _ _ _ i I1) as (m & Em & Hm); [set_solver|].
    destruct (put_free_spec _ _ _ _ _ I1) as (q2 & E2 & I2 & D2 & S2 & O2).
    destruct (resume_if_waiting_spec (with_mqs (insert o q2) k) (LSender o)) as (k' & Ek & N);
      [by apply kwf_with_mqs|done|by exists t|].
    assert (mq_copy_out i size q1 = Some (take (Z.to_nat (Z.min size (mq_msg_size q))) (data_of q i))) as Eo.
    { unfold mq_copy_out. rewrite Em. simpl. rewrite S1 in *.
      assert ((if decide (mq_msg_size q < size) then mq_msg_size q else size) = Z.min size (mq_msg_size q)) as ->
        by (case_decide; lia).
      rewrite decide_True by lia. do 2 f_equal. rewrite <- D1. unfold data_of. by rewrite Em. }
    unfold queue_recv. simpl mq_content. exists (Returned (RT_EOK, Some (take (Z.to_nat (Z.min size (mq_msg_size q))) (data_of q i)))), k', q2, (i :: f), u.
    split.
    { rewrite E1. unfold put_mq. munfold. simpl. rewrite lookup_insert_eq, Eo.
      rewrite (section_eval o _ _ q1 q2) by (simpl; rewrite ?lookup_insert_eq; done). rewrite with_mqs_twice. by rewrite Ek. }
    split; [apply N|]. split; [eapply mq_ok_notified; [done|]; eapply mq_ok_set; [done|done|congruence]|].
    split; [apply content_ext; intros; by rewrite D2, D1|]. split; [done|].
    by apply (notified_woken _ _ _ N).
Qed.

(** ** Runs *)

Lemma mq_steps_trace x ls y : mq_steps x ls y -> sys_inv x -> sys_inv y /\ queue_trace (sys_content x) ls (sys_content y).
Proof.
  induction 1 as [x|x l y ls z Hs _ IH]; intros Hx; [done|].
  destruct (mq_step_refines x l y Hx Hs) as [Hy Hq]. destruct (IH Hy) as [Hz Ht]. split; [done|]. by exists (sys_content y).
Qed.

(** The messages sent and received in a run. *)
Definition sent_of (ls : list mq_label) : list (list Z) := omap (fun l => match l with LSend d => Some d | _ => None end) ls.
Definition received_of (ls : list mq_label) : list (list Z) := omap (fun l => match l with LRecv d => Some d | _ => None end) ls.

Lemma queue_trace_fifo ls : forall c c', queue_trace c ls c' -> (forall d, LUrgent d ∉ ls) ->
  c ++ sent_of ls = received_of ls ++ c'.
Proof.
  unfold sent_of, received_of. induction ls as [|l ls IH]; simpl; intros c c' H Hu; [by rewrite app_nil_r, H|].
  destruct H as (c1 & Hs & Ht). assert (forall d, LUrgent d ∉ ls) as Hu' by (intros d Hd; apply (Hu d); by right).
  specialize (IH _ _ Ht Hu'). destruct l as [|d|d|d]; simpl in *; subst.
  - done.
  - by rewrite <- app_assoc in IH.
  - destruct (Hu d). left.
  - simpl. f_equal. exact IH.
Qed.

(** C21: Whatever the interleaving of the critical sections of any number of
    senders (of both kinds) and receivers on a queue that is empty at first (the
    blocks are copied with interrupts enabled), every block stays in exactly one
    place, no section follows a wild pointer, and no message is lost,
    duplicated, torn or reordered: the queue is what the abstract queue makes of
    the sends, urgent sends and receptions in their order, and without urgent
    ones the messages sent are those received followed by the content of the
    queue. That the block of a message is linked at the end without a successor
    is what the copy section has established. *)
Theorem mq_runs_are_fifo x ls y :
  sys_inv x -> sys_content x = [] -> mq_steps x ls y ->
  sys_inv y /\ sections_defined y /\ queue_trace [] ls (sys_content y) /\
  ((forall d, LUrgent d ∉ ls) -> sent_of ls = received_of ls ++ sys_content y).
Proof.
  intros Hx Hc Hs. destruct (mq_steps_trace x ls y Hs Hx) as [Hy Ht]. rewrite Hc in Ht.
  split; [done|]. split; [by apply sys_sections_defined|]. split; [done|]. intros Hu. by apply (queue_trace_fifo ls [] _ Ht).
Qed.

(** ** Creation and reset *)

(** [rt_mq_create] makes an empty queue that satisfies the queue invariant,
    with [max_msgs] free blocks; its message size is the requested one rounded
    up to a multiple of 8, so the queue accepts messages of up to 7 bytes more
    than were asked for. *)
Theorem rt_mq_create_empty k o blocks msg_size max_msgs flag :
  kwf k -> k_irq_nest k = 0 -> k_lists k (LSuspend o) = [] -> k_lists k (LSender o) = [] ->
  0 <= msg_size <= 2 ^ 16 - 8 -> in_range 16 max_msgs -> flag_ok flag ->
  max_msgs = Z.of_nat (length blocks) ->
  Forall (fun m => Z.of_nat (length (msg_data m)) = RT_ALIGN msg_size 8) blocks ->
  exists k' q f, rt_mq_create (Some o) (Some blocks) msg_size max_msgs flag k = Some (Some o, k') /\ kwf k' /\
    mq_ok k' o q f [] /\ mq_max_msgs q = max_msgs /\ mq_msg_size q = RT_ALIGN msg_size 8 /\
    msg_size <= mq_msg_size q < msg_size + 8 /\ mq_msg_size q mod 8 = 0.
Proof.
  intros H Hi E1 E2 Hs Hm Hf Hb Hd. destruct (rt_align_8 msg_size ltac:(lia) ltac:(lia)) as [Ha Ha'].
  assert (u16 (RT_ALIGN msg_size RT_ALIGN_SIZE) = RT_ALIGN msg_size 8) as Eu
    by (apply wrap_small; unfold in_range, RT_ALIGN_SIZE in *; lia).
  unfold rt_mq_create, rt_object_allocate, RT_DEBUG_NOT_IN_INTERRUPT, rt_interrupt_get_nest, rt_assert, rt_ipc_object_init, mq_setup, put_mq.
  munfold. rewrite Hi. rewrite bool_decide_true by done. rewrite Hi. rewrite bool_decide_true by done.
  rewrite Eu, (wrap_small 16 max_msgs) by done. rewrite Hb, Nat2Z.id.
  destruct (mq_setup_inv (Ipc false flag) blocks (RT_ALIGN msg_size 8)) as (pool & free & Ep & Hq);
    [unfold in_range; lia|by rewrite <- Hb|done|]. rewrite Ep.
  eexists _, _, _. split; [done|]. split.
  { apply (kwf_objects (with_lists (fun ls => <[LSender o := []]> ls) (with_lists (fun ls => <[LSuspend o := []]> ls) k)));
      [reflexivity..|]. apply kwf_empty_list; [by apply kwf_empty_list|]. simpl. by rewrite fn_lookup_insert_ne. }
  split; [split; [simpl; by rewrite lookup_insert_eq|exact Hq|done| |]|done].
  - intros t. simpl. rewrite fn_lookup_insert_ne, fn_lookup_insert by done. by intros ?%elem_of_nil.
  - intros t. simpl. rewrite fn_lookup_insert by done. by intros ?%elem_of_nil.
Qed.

Lemma mq_entry_with q (u : list nat) : mq_entry q = Z.of_nat (length u) -> with_entry (length u) q = q.
Proof. intros E. unfold with_entry, with_queue. destruct q; simpl in *. by subst. Qed.

(** [rt_mq_control] with [RT_IPC_CMD_RESET] empties the queue, returns
    every block to the free list and wakes every waiting sender and receiver
    with error [-RT_ERROR]. *)
Theorem rt_mq_control_reset k o q f u :
  kwf k -> is_Some (k_current k) -> mq_ok k o q f u ->
  exists k' q' f', rt_mq_control o RT_IPC_CMD_RESET k = Some (RT_EOK, k') /\ kwf k' /\ mq_ok k' o q' f' [] /\
    mq_content q' [] = [] /\ (forall i, i ∈ f' <-> (i < length (mq_msg_pool q))%nat) /\
    k_lists k' (LSuspend o) = [] /\ k_lists k' (LSender o) = [] /\
    (forall t, t ∈ k_lists k (LSuspend o) ++ k_lists k (LSender o) ->
       exists th, k_threads k' !! t = Some th /\ awake th /\ th_error th = - RT_ERROR).
Proof.
  intros H Hc [H1 H2 H3 H4 H5].
  destruct (resume_all_spec k (LSuspend o) H I) as (k1 & E1 & A1).
  destruct (resume_all_spec k1 (LSender o) (aw_kwf _ _ _ _ A1) I) as (k2 & E2 & A2).
  assert (k_lists k1 (LSender o) = k_lists k (LSender o)) as El by (by apply (aw_other _ _ _ _ A1)).
  rewrite El in A2.
  destruct (objects_inj _ _ (aw_objects _ _ _ _ A1)) as (_ & _ & _ & _ & Q1 & _).
  destruct (objects_inj _ _ (aw_objects _ _ _ _ A2)) as (_ & _ & _ & _ & Q2 & _).
  assert (k_mqs k2 !! o = Some q) as Eq by (by rewrite Q2, Q1).
  pose proof (mi_entry _ _ _ _ H2) as He.
  destruct (release_all_spec u q f [] (length (mq_msg_pool q))) as (q' & Er & Hq' & Ho & Hs).
  { by rewrite mq_entry_with. }
  { pose proof (mq_inv_length _ _ _ _ H2). lia. }
  set (q2 := with_queue 0 (mq_queue_head q') (mq_queue_tail q') q') in *.
  set (k3 := with_mqs (insert o q2) k2).
  assert (kwf k3) as K3 by (apply kwf_with_mqs, A2).
  destruct (maybe_schedule true k3 K3) as (k' & Es & K' & Oo & Ow & Om); [by apply (aw_current _ _ _ _ A2), (aw_current _ _ _ _ A1)|].
  exists k', q2, (rev u ++ f). destruct (objects_inj _ _ Oo) as (_ & _ & _ & _ & Q3 & _).
  assert (forall h, wait_head h -> k_lists k' h = k_lists k2 h) as Ew by (intros; apply (Ow h), wait_not_ready; done).
  assert (k_lists k' (LSuspend o) = []) as L1.
  { rewrite Ew, (aw_other _ _ _ _ A2) by done. apply A1. }
  assert (k_lists k' (LSender o) = []) as L2 by (rewrite Ew by done; apply A2).
  split.
  { unfold rt_mq_control, get_mq. munfold. rewrite H1, decide_True, E1, E2 by done.
    rewrite (section_eval o _ k2 q q2) by (rewrite ?Er; done). fold k3. simpl when in Es. by rewrite Es. }
  split; [done|]. split.
  { split; [rewrite Q3; simpl; by rewrite lookup_insert_eq|exact Hq'|unfold q2; simpl; by rewrite Ho| |];
      intros t; rewrite ?L1, ?L2; by intros ?%elem_of_nil. }
  split; [done|]. split.
  { intros i. pose proof (mi_perm _ _ _ _ Hq') as Hp. rewrite app_nil_r in Hp. rewrite Hp, elem_of_seq.
    pose proof (mq_inv_length _ _ _ _ Hq') as L. pose proof (mq_inv_length _ _ _ _ H2) as L'.
    rewrite length_app, length_rev in L. simpl in *. lia. }
  split; [done|]. split; [done|]. intros t Ht.
  assert (exists th, k_threads k2 !! t = Some th /\ awake th /\ th_error th = - RT_ERROR) as (th & Et & Ha & Hth).
  { destruct (decide (t ∈ k_lists k (LSender o))) as [Hs2|Hs2]; [by apply (aw_thread _ _ _ _ A2)|].
    apply elem_of_app in Ht as [Ht|Ht]; [|done]. destruct (aw_thread _ _ _ _ A1 t Ht) as (th & Et & Ha & Hth).
    destruct (moved_awake _ _ (aw_threads _ _ _ _ A2 t Hs2) _ Et Ha) as (th' & ? & ? & ? & _). exists th'. split_and!; [done|done|congruence]. }
  destruct (moved_awake _ _ (Om t) _ Et Ha) as (th' & ? & ? & ? & _). exists th'. split_and!; [done|done|congruence].
Qed.

(** ** A queue of two blocks of eight bytes, one of them in use; thread 2 waits in it *)

Definition demo_block (z : Z) : mq_message := MqMessage None (replicate 8 z).
Definition demo_queue : messagequeue := MessageQueue (Ipc true RT_IPC_FLAG_FIFO) [demo_block 1; demo_block 2] 8 2 1 (Some 1%nat) (Some 1%nat) (Some 0%nat).
Definition demo_mq : kstate := demo_with ∅ ∅ ∅ ∅ (<[7%nat := demo_queue]> ∅).

Lemma demo_queue_inv : mq_inv demo_queue [0%nat] [1%nat] [].
Proof.
  split; try done; [split; [done|]; by eexists..|repeat constructor].
Qed.

Lemma demo_mq_ok : mq_ok demo_mq 7 demo_queue [0%nat] [1%nat].
Proof. split; [done|apply demo_queue_inv|by left|apply demo_clean|apply demo_clean]. Qed.

Lemma rt_mq_create_empty_witness : exists k' q f,
  rt_mq_create (Some 8%nat) (Some (replicate 6 (MqMessage None (replicate 24 0)))) 20 6 RT_IPC_FLAG_FIFO demo_mq = Some (Some 8%nat, k') /\
  mq_ok k' 8 q f [] /\ mq_msg_size q = 24.
Proof.
  destruct (rt_mq_create_empty demo_mq 8 (replicate 6 (MqMessage None (replicate 24 0))) 20 6 RT_IPC_FLAG_FIFO)
    as (k' & q & f & E & _ & Hq & _ & Hs & _);
    [apply demo_with_kwf|done|done|done|done|done|by left|done|by repeat constructor|].
  by exists k', q, f.
Defined.

Lemma rt_mq_control_reset_witness : exists k',
  rt_mq_control 7 RT_IPC_CMD_RESET demo_mq = Some (RT_EOK, k') /\ kwf k' /\ k_lists k' (LSuspend 7) = [].
Proof.
  destruct (rt_mq_control_reset demo_mq 7 demo_queue [0%nat] [1%nat]) as (k' & q' & f' & E & H & _ & _ & _ & L & _);
    [apply demo_with_kwf|by eexists|apply demo_mq_ok|].
  by exists k'.
Defined.

(** Two senders whose calls interleave, and a receiver. *)
Definition demo_empty : messagequeue := MessageQueue (Ipc true RT_IPC_FLAG_FIFO)
  [MqMessage (Some 1%nat) (replicate 8 1); MqMessage None (replicate 8 2)] 8 2 0 None None (Some 0%nat).

Lemma demo_empty_sys : sys_inv (MqSys demo_empty [0%nat; 1%nat] [] [] []).
Proof.
  split; simpl; try by (intros ? ? ?%elem_of_nil || intros ? ? ? ?%elem_of_nil). split; try done; [|repeat constructor].
  split; [done|]. eexists. split; [done|]. split; [done|]. by eexists.
Qed.

(** Thread A takes block 0, thread B block 1; B copies and links first. *)
Lemma demo_run : exists ls y, mq_steps (MqSys demo_empty [0%nat; 1%nat] [] [] []) ls y /\
  sent_of ls = [3 :: replicate 7 2; 4 :: replicate 7 1] /\ received_of ls = [3 :: replicate 7 2] /\
  forall d, LUrgent d ∉ ls.
Proof.
  eexists _, _. split.
  { eapply steps_cons; [eapply step_alloc; reflexivity|].
    eapply steps_cons; [eapply step_alloc; reflexivity|].
    eapply steps_cons; [eapply (step_fill _ _ 1%nat _ _ [] _ _ [3] 1); [done|done|reflexivity]|].
    eapply steps_cons; [eapply (step_fill _ _ 0%nat _ _ [_] [] _ [4] 1); [done|done|reflexivity]|].
    eapply steps_cons; [eapply (step_link _ _ 1%nat _ _ _ [] _); reflexivity|].
    eapply steps_cons; [eapply (step_link _ _ 0%nat _ _ _ [] _); reflexivity|].
    eapply steps_cons; [eapply (step_unlink _ _ 1%nat); [done|reflexivity]|].
    eapply steps_cons; [eapply (step_release _ _ 1%nat _ _ _ _ []); reflexivity|].
    apply steps_nil. }
  split; [reflexivity|]. split; [reflexivity|].
  intros d Hd. repeat (apply elem_of_cons in Hd as [Hd|Hd]; [done|]). by apply elem_of_nil in Hd.
Qed.

Lemma mq_runs_are_fifo_witness : exists ls y,
  mq_steps (MqSys demo_empty [0%nat; 1%nat] [] [] []) ls y /\ length (received_of ls) = 1%nat /\
  sent_of ls = received_of ls ++ sys_content y.
Proof.
  destruct demo_run as (ls & y & Hy & Es & Er & Hu). exists ls, y. split; [done|]. split; [by rewrite Er|].
  by apply (mq_runs_are_fifo _ _ _ demo_empty_sys eq_refl Hy).
Defined.

(** C20: A message queue implements the bounded FIFO queue of messages:
    [rt_mq_send_wait] puts the message (its first [size] bytes are the caller's)
    at the end and [rt_mq_urgent] in front, if there is a free block, and both
    take the first waiting receiver, and no other, off the list and make it
    ready or running without an error; a full queue answers [-RT_EFULL] without
    a change ([rt_mq_send_wait] only if the timeout is 0; otherwise it queues
    the caller among the senders with its timer started). [rt_mq_recv] gives the
    caller the first [min(size, msg_size)] bytes of the oldest message, whose
    block is free again, and wakes the first waiting sender in the same way, or
    answers [-RT_ETIMEOUT], or queues the caller. The kernel and queue
    invariants are preserved. The calls are made by the running thread outside
    interrupts, with 0 < [size], for a send of at most the size of a message and
    of the buffer, and timeouts below 2^31 - 1. *)
Theorem rt_mq_refines k t th o q f u buffer size timeout :
  kwf k -> running k t th -> k_irq_nest k = 0 -> mq_ok k o q f u -> timeout < HALF -> 0 < size ->
  (size <= mq_msg_size q -> size <= Z.of_nat (length buffer) ->
     mq_sends k t o q f u buffer size timeout /\ mq_sends_first k o q f u buffer size) /\
  mq_receives k t o q f u size timeout.
Proof.
  intros H Hr Hi Hok Ht Hs. split; [|by eapply rt_mq_recv_sim]. intros. split; [by eapply rt_mq_send_wait_sim|].
  apply rt_mq_urgent_sim; try done. destruct Hr as (-> & _). by eexists.
Qed.

Lemma rt_mq_refines_witness :
  (exists k' q' u' d,
  rt_mq_send_wait 7 [5; 6; 7; 8] 4 0 demo_mq = Some (Returned RT_EOK, k') /\ kwf k' /\
  mq_content q' u' = [replicate 8 2; d] /\ take 4 d = [5; 6; 7; 8] /\ k_lists k' (LSuspend 7) = []) /\
  (exists k',
  rt_mq_recv 7 100 0 demo_mq = Some (Returned (RT_EOK, Some (replicate 8 2)), k') /\ kwf k').
Proof.
  split.
  - destruct (rt_mq_refines demo_mq 0 (demo_thread RT_THREAD_RUNNING 10) 7 demo_queue [0%nat] [1%nat] [5; 6; 7; 8] 4 0
      (demo_with_kwf _ _ _ _ _) demo_running eq_refl demo_mq_ok ltac:(done) ltac:(done)) as [S _].
    destruct (S ltac:(done) ltac:(done)) as [(r & k' & q' & f' & u' & d & E & H & _ & [_ Hd] & Hc & -> & Hl & _) _].
    by exists k', q', u', d.
  - destruct (rt_mq_refines demo_mq 0 (demo_thread RT_THREAD_RUNNING 10) 7 demo_queue [0%nat] [1%nat] [5; 6; 7; 8] 100 0
      (demo_with_kwf _ _ _ _ _) demo_running eq_refl demo_mq_ok ltac:(done) ltac:(done)) as [_ (r & k' & q' & f' & u' & E & H & _ & _ & Hr & _)].
    exists k'. by rewrite E, Hr.
Defined.
