(* ===== verification/Mempool.v ===== *)
(** * Mempool: memory pools

    mempool.c.  A pool is an array of blocks of one size; the word in front of a
    block links it into the free list, or names the pool once the block has been
    taken ([mp_links] holds these words, and a block is the index of its word).
    [rt_mp_alloc] is split at its call of [rt_schedule], as the functions of
    ipc.c are.  A new waiter goes to the front of the wait list, and the front
    is who [rt_mp_free] wakes: the last one that came. *)

From S2P Require Import SList Kernel Sched Object Timer Thread Ipc Demo Sem.

(** ** Operations *)

Definition get_mp (o : oid) : KM mempool := deref (fun k => k_mps k !! o).
Definition put_mp (o : oid) (m : mempool) : KM unit := modify (with_mps (insert o m)).

Definition with_blocks (links : list mp_link) (block_list : option nat) (free : Z) (m : mempool) : mempool :=
  Mempool (mp_static m) (mp_size m) (mp_block_size m) links block_list (mp_block_total_count m) free.

(** [sizeof(rt_uint8_t * )] *)
Definition sizeof_link : Z := 4.

(** [for (offset = 0; offset < mp->block_total_count; offset ++)]: every word
    points to the next block.  Writing behind the memory of the pool is
    undefined. *)
Fixpoint mp_link_blocks (n offset : nat) (links : list mp_link) : option (list mp_link) :=
  match n with
  | O => Some links
  | S n =>
    if decide (offset < length links)%nat then
      mp_link_blocks n (S offset) (<[offset := MpNext (Some (S offset))]> links)
    else None
  end.

(** The last word is then set to [RT_NULL]; without a block it is the word in
    front of the pool. *)
Definition mp_init_list (total : Z) (links : list mp_link) : option (list mp_link) :=
  links ← mp_link_blocks (Z.to_nat total) 0 links;
  match Z.to_nat total with
  | O => None
  | S last => Some (<[last := MpNext None]> links)
  end.

(** [start]: the words in front of the blocks as they are in memory. *)
Definition rt_mp_init (mp : oid) (start : list mp_link) (size block_size : Z) : KM Z :=
  rt_assert (bool_decide (0 < size /\ 0 < block_size));;
  rt_object_init (has k_mps mp);;
  let size := RT_ALIGN_DOWN size RT_ALIGN_SIZE in
  let block_size := RT_ALIGN block_size RT_ALIGN_SIZE in
  let total := size / u32 (block_size + sizeof_link) in
  modify (with_lists (fun ls => <[LSuspend mp := []]> ls));;
  links ← deref (fun _ => mp_init_list total start);
  put_mp mp (Mempool true size block_size links (Some 0%nat) total total);;
  mret RT_EOK.

(** [while (!rt_list_isempty(&(mp->suspend_thread)))] of detach and delete *)
Definition mp_wake_all (mp : oid) : KM unit :=
  l ← gets (fun k => k_lists k (LSuspend mp));
  resume_all_loop (length l) (LSuspend mp).

Definition rt_mp_detach (mp : oid) : KM Z :=
  m ← get_mp mp;
  rt_assert (mp_static m);;
  mp_wake_all mp;;
  modify (with_mps (delete mp));;
  mret RT_EOK.

(** [rt_malloc]: the memory the heap has for a request, if any. *)
Definition rt_mp_create (new : option oid) (rt_malloc : Z -> option (list mp_link)) (block_count block_size : Z) :
    KM (option oid) :=
  RT_DEBUG_NOT_IN_INTERRUPT;;
  rt_assert (bool_decide (0 < block_count /\ 0 < block_size));;
  obj ← rt_object_allocate new;
  match obj with
  | None => mret None
  | Some mp =>
    let block_size := RT_ALIGN block_size RT_ALIGN_SIZE in
    let size := u32 (u32 (block_size + sizeof_link) * block_count) in
    match rt_malloc size with
    | None => mret None
    | Some start =>
      modify (with_lists (fun ls => <[LSuspend mp := []]> ls));;
      links ← deref (fun _ => mp_init_list block_count start);
      put_mp mp (Mempool false size block_size links (Some 0%nat) block_count block_count);;
      mret (Some mp)
    end
  end.

Definition rt_mp_delete (mp : oid) : KM Z :=
  RT_DEBUG_NOT_IN_INTERRUPT;;
  m ← get_mp mp;
  rt_assert (negb (mp_static m));;
  mp_wake_all mp;;
  modify (with_mps (delete mp));;
  mret RT_EOK.

(** In an interrupt the error goes to [__rt_errno], which only
    [rt_get_errno] reads and the state leaves out. *)
Definition rt_set_errno (error : Z) : KM unit :=
  nest ← rt_interrupt_get_nest;
  if decide (nest <> 0) then mret tt
  else
    t ← rt_thread_self;
    match t with None => mret tt | Some t => set_thread t (with_error error) end.

(** The end of [rt_mp_alloc]: a word of the free list that is not a link there
    has been overwritten. *)
Definition mp_pop (mp : oid) : KM nat :=
  m ← get_mp mp;
  let free := u32 (mp_block_free_count m - 1) in
  block ← deref (fun _ => mp_block_list m);
  next ← deref (fun _ => match mp_links m !! block with Some (MpNext n) => Some n | _ => None end);
  put_mp mp (with_blocks (<[block := MpOwner mp]> (mp_links m)) next free m);;
  mret block.

Inductive mp_frame := MpFrame (mp : oid) (t : tid) (time before_sleep : Z).

(** [while (mp->block_free_count == 0)], up to the next [rt_schedule] *)
Definition mp_alloc_loop (mp : oid) (thread : option tid) (time : Z) : KM (outcome mp_frame (option nat)) :=
  m ← get_mp mp;
  if decide (mp_block_free_count m = 0) then
    if decide (time = 0) then
      rt_set_errno (- RT_ETIMEOUT);;
      mret (Returned None)
    else
      RT_DEBUG_NOT_IN_INTERRUPT;;
      t ← deref (fun _ => thread);
      set_thread t (with_error RT_EOK);;
      before_sleep ← rt_tick_get;
      wait_in (_ ← rt_thread_suspend t; list_insert_after (LSuspend mp) t) t time;;
      mret (Blocked (MpFrame mp t time before_sleep))
  else
    block ← mp_pop mp;
    mret (Returned (Some block)).

Definition rt_mp_alloc (mp : oid) (time : Z) : KM (outcome mp_frame (option nat)) :=
  thread ← rt_thread_self;
  mp_alloc_loop mp thread time.

Definition rt_mp_alloc_resume (f : mp_frame) : KM (outcome mp_frame (option nat)) :=
  let '(MpFrame mp t time before_sleep) := f in
  th ← get_thread t;
  if decide (th_error th <> RT_EOK) then mret (Returned None)
  else
    now ← rt_tick_get;
    mp_alloc_loop mp (Some t) (remaining_timeout time before_sleep now).

(** A block is found by the pool and the index of its word.  A block whose word
    names another pool cannot be put on the list of that pool here. *)
Definition rt_mp_free (block : option (oid * nat)) : KM unit :=
  match block with
  | None => mret tt
  | Some (pool, i) =>
    m ← get_mp pool;
    mp ← deref (fun _ => match mp_links m !! i with Some (MpOwner mp) => Some mp | _ => None end);
    rt_assert (bool_decide (mp = pool));;
    put_mp mp (with_blocks (<[i := MpNext (mp_block_list m)]> (mp_links m)) (Some i) (u32 (mp_block_free_count m + 1)) m);;
    e ← list_isempty (LSuspend mp);
    if (e : bool) then mret tt
    else
      t ← list_first (LSuspend mp);
      set_thread t (with_error RT_EOK);;
      _ ← rt_thread_resume t;
      rt_schedule
  end.

(** ** The free list *)

(** The link of a block on the free list. *)
Definition mp_next (x : mp_link) : option nat := match x with MpNext n => n | MpOwner _ => None end.

(** [free] is the free list of the pool; every other block has been taken. *)
Record mp_inv (o : oid) (m : mempool) (free : list nat) : Prop := MpInv {
  mi_chain : chain mp_next (mp_links m) (mp_block_list m) free;
  mi_linked i : i ∈ free -> exists n, mp_links m !! i = Some (MpNext n);
  mi_count : mp_block_free_count m = Z.of_nat (length free);
  mi_total : mp_block_total_count m = Z.of_nat (length (mp_links m)) /\ in_range 32 (mp_block_total_count m);
  mi_owner i : (i < length (mp_links m))%nat -> i ∉ free -> mp_links m !! i = Some (MpOwner o)
}.

Record mp_ok (k : kstate) (o : oid) (m : mempool) (free : list nat) : Prop := MpOk {
  mo_mp : k_mps k !! o = Some m;
  mo_inv : mp_inv o m free;
  mo_clean : waiters_clean k (LSuspend o)
}.

(** No more blocks are free than there are. *)
Lemma mp_free_length o m free : mp_inv o m free -> (length free <= length (mp_links m))%nat.
Proof. intros [H _ _ _ _]. by eapply chain_length. Qed.

(** ** The abstract pool: the free blocks, last freed first, and the waiters,
    last come first *)

Definition amp : Type := list nat * list tid.

Definition amp_alloc (t : tid) (time : Z) (a : amp) : outcome unit (option nat) * amp :=
  match a with
  | (i :: free, q) => (Returned (Some i), (free, q))
  | ([], q) => if decide (time = 0) then (Returned None, ([], q)) else (Blocked tt, ([], t :: q))
  end.

(** The thread a release wakes. *)
Definition amp_free (i : nat) (a : amp) : option tid * amp :=
  let '(free, q) := a in (head q, (i :: free, tail q)).

Definition same_block {F} (r : outcome F (option nat)) (a : outcome unit (option nat)) : Prop :=
  match r, a with
  | Returned x, Returned y => x = y
  | Blocked _, Blocked _ => True
  | _, _ => False
  end.

(** ** Taking and putting back a block *)

Definition popped (i : nat) (next : option nat) (o : oid) (m : mempool) : mempool :=
  with_blocks (<[i := MpOwner o]> (mp_links m)) next (mp_block_free_count m - 1) m.
Definition pushed (i : nat) (m : mempool) : mempool :=
  with_blocks (<[i := MpNext (mp_block_list m)]> (mp_links m)) (Some i) (mp_block_free_count m + 1) m.

Lemma mp_pop_spec k o m i free : k_mps k !! o = Some m -> mp_inv o m (i :: free) ->
  exists n, mp_pop o k = Some (i, with_mps (insert o (popped i n o m)) k) /\ mp_inv o (popped i n o m) free.
Proof.
  intros Em Hm. pose proof (mp_free_length _ _ _ Hm) as Hl.
  destruct Hm as [Hch Hlk Hcount [Ht Hr] Ho]. pose proof (chain_nodup _ _ _ _ Hch) as [Hi Hnd]%NoDup_cons.
  destruct Hch as (Eb & x & Ex & Hc). destruct (Hlk i) as [n En]; [left|]. rewrite En in Ex. injection Ex as <-.
  simpl in Hl, Hcount. exists n. split.
  - unfold mp_pop, get_mp, put_mp. munfold. rewrite Em, Eb, En. simpl.
    rewrite wrap_small; [done|]. unfold in_range in *. lia.
  - split; simpl; rewrite ?length_insert; try done; [by apply seg_insert| |lia|].
    { intros j Hj. rewrite list_lookup_insert_ne by set_solver. apply Hlk. by right. }
    intros j Hj Hnf. destruct (decide (i = j)) as [<-|Hn]; [by rewrite list_lookup_insert_eq|].
    rewrite list_lookup_insert_ne by done. apply Ho; [done|]. set_solver.
Qed.

Lemma mp_push_spec o m i free : mp_inv o m free -> (i < length (mp_links m))%nat -> i ∉ free ->
  mp_inv o (pushed i m) (i :: free) /\ u32 (mp_block_free_count m + 1) = mp_block_free_count m + 1.
Proof.
  intros Hm Hi Hf. assert (mp_inv o (pushed i m) (i :: free)) as Hp.
  { destruct Hm as [Hc Hnd Hcount Ht Ho]. split; simpl; rewrite ?length_insert; try done.
    - split; [done|]. eexists. rewrite list_lookup_insert_eq by done. split; [done|by apply seg_insert].
    - intros j [->|Hj]%elem_of_cons; [rewrite list_lookup_insert_eq by done; eauto|].
      rewrite list_lookup_insert_ne by (intros ->; done). by apply Hnd.
    - lia.
    - intros j Hj [Hn Hnf]%not_elem_of_cons. rewrite list_lookup_insert_ne by done. by apply Ho. }
  split; [done|]. apply wrap_small. pose proof (mp_free_length _ _ _ Hp) as Hl. simpl in Hl. rewrite length_insert in Hl.
  destruct Hm as [_ _ Hcount [Ht Hr] _]. unfold in_range in *. lia.
Qed.

Lemma suspend_first_suspends h t : wait_head h ->
  suspends (_ ← rt_thread_suspend t; list_insert_after h t) h t LIFO.
Proof.
  intros Hh k th H (Hc & E & Hs). exists tt.
  destruct (rt_thread_suspend_spec k t th H E) as [Es _]; [by right|].
  destruct (suspended_thread t th k E) as (_ & _ & _ & _ & El).
  rewrite (bind_eval _ _ _ _ _ Es). unfold list_insert_after, in_wait. munfold. do 2 f_equal.
  assert (lremove t (k_lists k h) = k_lists k h) as Er
    by (apply lremove_notin, (running_notin ∅ k t th); [apply H|done|done]).
  unfold with_lists. by rewrite El, Er.
Qed.

Lemma kwf_with_mps f k : kwf k -> kwf (with_mps f k).
Proof. by apply kwf_objects. Qed.

Lemma mp_ok_put k o m m' free free' : mp_ok k o m free -> mp_inv o m' free' ->
  mp_ok (with_mps (insert o m') k) o m' free'.
Proof. intros [H1 H2 H3] H. split; [simpl; by rewrite lookup_insert_eq|done|done]. Qed.

Lemma mp_ok_objects k k' o m free : mp_ok k o m free -> objects k' = objects k -> waiters_clean k' (LSuspend o) -> mp_ok k' o m free.
Proof. intros [H1 H2 H3] (_ & _ & _ & _ & _ & E & _)%objects_inj Hc. split; [by rewrite E|done|done]. Qed.

Definition mp_view (free : list nat) (k : kstate) (o : oid) : amp := (free, k_lists k (LSuspend o)).

(** What an allocation does. *)
Record mp_allocates (k : kstate) (o : oid) (m : mempool) (free : list nat) (t : tid) (time : Z) : Prop := MpAllocates {
  ma_run : exists r k' m' free' a, rt_mp_alloc o time k = Some (r, k') /\ kwf k' /\ mp_ok k' o m' free' /\
    amp_alloc t time (mp_view free k o) = (a, mp_view free' k' o) /\ same_block r a /\
    mp_block_size m' = mp_block_size m /\ length (mp_links m') = length (mp_links m) /\
    (forall i, r = Returned (Some i) -> i ∈ free /\ i ∉ free') /\
    (free = [] -> time <> 0 -> r = Blocked (MpFrame o t time (k_tick k)) /\
      blocked k k' (LSuspend o) t LIFO time (with_error RT_EOK))
}.

Lemma rt_mp_alloc_sim k t th o m free time :
  kwf k -> running k t th -> k_irq_nest k = 0 -> mp_ok k o m free -> time < HALF -> mp_allocates k o m free t time.
Proof.
  intros H Hr Hi Hok Hto. pose proof Hok as [Em Hm Hcl]. pose proof Hr as (Hc & Et & Hst). pose proof (mi_count _ _ _ Hm) as Hn.
  split. unfold rt_mp_alloc, mp_alloc_loop, rt_thread_self, get_mp. munfold. rewrite Em, Hc.
  destruct free as [|i free]; simpl in Hn; rewrite Hn.
  - rewrite decide_True by done. destruct (decide (time = 0)) as [->|Ht].
    + unfold rt_set_errno, rt_interrupt_get_nest, rt_thread_self. munfold. rewrite Hi, decide_False by lia. rewrite Hc, Et.
      fold (upd_thread t (with_error (- RT_ETIMEOUT)) k).
      eexists _, _, m, [], _. split; [done|]. split; [by apply kwf_upd_keep|]. split_and!; try done.
      apply (mp_ok_objects k); [done..|]. intros s Hs. change (s ∈ k_lists k (LSuspend o)) in Hs.
      assert (s <> t) by (intros ->; by apply (running_notin ∅ k t th) in Hs; [|apply H|..]).
      rewrite upd_thread_lookup, decide_False by done. by apply Hcl.
    + destruct (block_in_spec (_ ← rt_thread_suspend t; list_insert_after (LSuspend o) t) k t th (LSuspend o) LIFO time (with_error RT_EOK))
        as (k' & Ew & B); [done..|apply suspend_first_suspends; exact I|done|done|].
      unfold RT_DEBUG_NOT_IN_INTERRUPT, rt_interrupt_get_nest, rt_assert, rt_tick_get. munfold. rewrite Hi.
      rewrite bool_decide_true by done. rewrite Et. fold (upd_thread t (with_error RT_EOK) k).
      eexists _, k', m, [], _. split; [by rewrite Ew|]. split; [apply B|].
      split; [apply (mp_ok_objects k); [done|apply B|by apply (bl_clean _ _ _ _ _ _ _ B)]|].
      split; [unfold mp_view; simpl; rewrite decide_False by done; by rewrite (bl_list _ _ _ _ _ _ _ B)|]. done.
  - rewrite decide_False by lia. destruct (mp_pop_spec k o m i free Em Hm) as (n & E & Hm'). rewrite E.
    eexists _, _, _, free, _. split; [done|]. split; [by apply kwf_with_mps|]. split; [by apply (mp_ok_put k o m _ (i :: free))|].
    split; [done|]. split; [done|]. split; [done|]. split; [simpl; apply length_insert|]. split; [|done].
    intros j [= <-]. split; [left|]. pose proof (chain_nodup _ _ _ _ (mi_chain _ _ _ Hm)) as Hnd. by apply NoDup_cons in Hnd as [].
Qed.

(** What a release of the block [i] does; the thread it wakes finds no error. *)
Record mp_releases (k : kstate) (o : oid) (m : mempool) (free : list nat) (i : nat) : Prop := MpReleases {
  mr_run : exists k' m' w, rt_mp_free (Some (o, i)) k = Some (tt, k') /\ kwf k' /\ mp_ok k' o m' (i :: free) /\
    amp_free i (mp_view free k o) = (w, mp_view (i :: free) k' o) /\
    mp_block_size m' = mp_block_size m /\ length (mp_links m') = length (mp_links m) /\
    (forall t, w = Some t -> exists th, k_threads k' !! t = Some th /\ awake th /\ th_error th = RT_EOK)
}.

Lemma rt_mp_free_sim k o m free i :
  kwf k -> is_Some (k_current k) -> mp_ok k o m free -> (i < length (mp_links m))%nat -> i ∉ free ->
  mp_releases k o m free i.
Proof.
  intros H Hc Hok Hi Hf. pose proof Hok as [Em Hm Hcl].
  destruct (mp_push_spec o m i free Hm Hi Hf) as [Hp Eu].
  set (k0 := with_mps (insert o (pushed i m)) k).
  assert (kwf k0) as H0 by (by apply kwf_with_mps).
  pose proof (mp_ok_put k o m _ free _ Hok Hp) as Hok0. fold k0 in Hok0.
  destruct (resume_if_waiting_spec k0 (LSuspend o) H0 I Hc) as (k' & E & [N1 N2 N3 N4 N5 N6 N7]).
  split. exists k', (pushed i m), (head (k_lists k (LSuspend o))). split.
  - rewrite <- E. unfold rt_mp_free, get_mp, put_mp, resume_if_waiting, rt_ipc_list_resume, rt_assert. munfold.
    rewrite Em, (mi_owner _ _ _ Hm) by done. rewrite bool_decide_true by done. rewrite Eu.
    fold (pushed i m). fold k0. change (k_lists k0) with (k_lists k).
    destruct (k_lists k (LSuspend o)) as [|t l] eqn:El; [by rewrite bool_decide_true by done|].
    rewrite bool_decide_false by done. simpl. rewrite El. simpl.
    destruct (Hcl t) as (th & Et & He); [rewrite El; left|]. rewrite Et.
    change (with_threads (alter (with_error RT_EOK) t) k0) with (upd_thread t (with_error RT_EOK) k0).
    rewrite <- He, (upd_error_id k0 t th) by done. by destruct (rt_thread_resume t k0) as [[]|].
  - split; [done|]. split; [by apply (mp_ok_objects k0); [..|apply N5]|].
    unfold mp_view. rewrite N2. split; [done|]. split; [done|]. split; [simpl; apply length_insert|].
    intros t Ht. change (k_lists k (LSuspend o)) with (k_lists k0 (LSuspend o)) in Ht.
    destruct (k_lists k0 (LSuspend o)) as [|x l] eqn:El; [done|]. injection Ht as ->. by apply (N6 t l).
Qed.

(** C26: A memory pool is a stack of free blocks with a stack of waiting
    threads: [rt_mp_alloc] takes the block that was freed last, or answers NULL
    at time 0, or puts the caller in front of the other waiters with its timer
    started; [rt_mp_free] of a block that has been taken makes it the next one
    to be taken and wakes the thread that came last, which finds no error. *)
Theorem rt_mp_refines k t th o m free time :
  kwf k -> running k t th -> k_irq_nest k = 0 -> mp_ok k o m free -> time < HALF ->
  mp_allocates k o m free t time /\
  (forall i, (i < length (mp_links m))%nat -> i ∉ free -> mp_releases k o m free i).
Proof.
  intros H Hr Hi Hok Ht. split; [by eapply rt_mp_alloc_sim|]. intros i. apply rt_mp_free_sim; [done| |done].
  destruct Hr as (-> & _). by eexists.
Qed.

(** ** Creation *)

Lemma mp_link_blocks_spec n : forall off links, (off + n <= length links)%nat ->
  exists links', mp_link_blocks n off links = Some links' /\ length links' = length links /\
    (forall i, (i < off)%nat -> links' !! i = links !! i) /\
    (forall i, (off <= i < off + n)%nat -> links' !! i = Some (MpNext (Some (S i)))).
Proof.
  induction n as [|n IH]; intros off links Hl; simpl.
  - exists links. split_and!; try done. intros; lia.
  - rewrite decide_True by lia. destruct (IH (S off) (<[off := MpNext (Some (S off))]> links)) as (links' & E & El & E1 & E2).
    { rewrite length_insert. lia. }
    exists links'. split; [done|]. split; [by rewrite El, length_insert|]. split; intros i Hi.
    + rewrite E1 by lia. apply list_lookup_insert_ne. lia.
    + destruct (decide (i = off)) as [->|Hn]; [rewrite E1 by lia; apply list_lookup_insert_eq; lia|apply E2; lia].
Qed.

(** More blocks than there is memory for are undefined. *)
Lemma mp_link_blocks_overrun n : forall off links, (off <= length links < off + n)%nat -> mp_link_blocks n off links = None.
Proof.
  induction n as [|n IH]; intros off links Hl; simpl; [lia|]. case_decide; [|done].
  apply IH. rewrite length_insert. lia.
Qed.

Lemma chain_seq links n : forall off, (off < length links)%nat -> (off + S n = length links)%nat ->
  (forall i, (off <= i < off + n)%nat -> links !! i = Some (MpNext (Some (S i)))) ->
  links !! (off + n)%nat = Some (MpNext None) -> chain mp_next links (Some off) (seq off (S n)).
Proof.
  induction n as [|n IH]; intros off Ho Hl Hs He.
  - rewrite Nat.add_0_r in He. simpl. split; [done|]. by exists (MpNext None).
  - change (seq off (S (S n))) with (off :: seq (S off) (S n)). split; [done|].
    exists (MpNext (Some (S off))). split; [apply Hs; lia|]. apply IH; [lia|lia| |by rewrite Nat.add_succ_comm].
    intros i Hi. apply Hs. lia.
Qed.

(** The list that [rt_mp_init] and [rt_mp_create] make has all blocks, in order. *)
Lemma mp_init_list_spec links : links <> [] ->
  exists links', mp_init_list (Z.of_nat (length links)) links = Some links' /\ length links' = length links /\
    chain mp_next links' (Some 0%nat) (seq 0 (length links)) /\
    (forall i, (i < length links)%nat -> exists n, links' !! i = Some (MpNext n)).
Proof.
  intros Hne. unfold mp_init_list. rewrite Nat2Z.id.
  destruct (mp_link_blocks_spec (length links) 0 links) as (l1 & E & El & _ & E1); [lia|]. rewrite E. simpl.
  destruct (length links) as [|n] eqn:Hn; [by destruct links|]. eexists. split; [done|]. rewrite length_insert.
  split; [done|]. assert (forall i, (i < n)%nat -> <[n := MpNext None]> l1 !! i = Some (MpNext (Some (S i)))) as E2.
  { intros i Hi. rewrite list_lookup_insert_ne by lia. apply E1. lia. }
  assert (<[n := MpNext None]> l1 !! n = Some (MpNext None)) as En by (apply list_lookup_insert_eq; lia). split.
  - apply chain_seq; rewrite ?length_insert; [lia|lia| |done]. intros i Hi. apply E2. lia.
  - intros i Hi. destruct (decide (i = n)) as [->|]; eexists; [done|apply E2; lia].
Qed.

Lemma fresh_pool_inv o static size block_size (links links' : list mp_link) : links <> [] -> Z.of_nat (length links) < 2 ^ 32 ->
  length links' = length links -> chain mp_next links' (Some 0%nat) (seq 0 (length links)) ->
  (forall i, (i < length links)%nat -> exists n, links' !! i = Some (MpNext n)) ->
  mp_inv o (Mempool static size block_size links' (Some 0%nat) (Z.of_nat (length links)) (Z.of_nat (length links)))
    (seq 0 (length links)).
Proof.
  intros Hne Hl El Hc Hlk. split; simpl; [done|intros i [_ Hi]%elem_of_seq; by apply Hlk|by rewrite length_seq|rewrite El; unfold in_range; lia|].
  intros i Hi []. apply elem_of_seq. lia.
Qed.

(** A pool from the heap: when the requested size does not wrap around, all the
    blocks of the new pool are free and big enough. *)
Lemma rt_mp_create_ok k o rt_malloc links block_count block_size :
  kwf k -> k_irq_nest k = 0 -> k_lists k (LSuspend o) = [] -> 0 < block_size -> block_size + 7 < 2 ^ 32 ->
  0 < block_count < 2 ^ 32 -> (RT_ALIGN block_size 8 + 4) * block_count < 2 ^ 32 ->
  rt_malloc ((RT_ALIGN block_size 8 + 4) * block_count) = Some links -> Z.of_nat (length links) = block_count ->
  exists k' m, rt_mp_create (Some o) rt_malloc block_count block_size k = Some (Some o, k') /\ kwf k' /\
    mp_ok k' o m (seq 0 (length links)) /\ block_size <= mp_block_size m < block_size + 8 /\
    mp_block_total_count m = block_count.
Proof.
  intros H Hi El Hb Hb7 Hc Hs Em Hl. destruct (rt_align_8 block_size) as [Ha _]; [lia..|].
  assert (links <> []) as Hne by (intros ->; simpl in Hl; lia).
  destruct (mp_init_list_spec links Hne) as (links' & E & El' & Hch & Hlk). rewrite Hl in E.
  pose proof (fresh_pool_inv o false ((RT_ALIGN block_size 8 + 4) * block_count) (RT_ALIGN block_size 8) links links') as Hinv. rewrite Hl in Hinv.
  unfold rt_mp_create, RT_DEBUG_NOT_IN_INTERRUPT, rt_interrupt_get_nest, rt_assert, rt_object_allocate, RT_DEBUG_NOT_IN_INTERRUPT, put_mp, sizeof_link, RT_ALIGN_SIZE.
  munfold. rewrite Hi. rewrite !bool_decide_true by lia. unfold rt_interrupt_get_nest. munfold. rewrite Hi, bool_decide_true by lia.
  rewrite (wrap_small 32 (RT_ALIGN block_size 8 + 4)) by (unfold in_range; nia).
  rewrite (wrap_small 32 (_ * _)) by (unfold in_range; nia). rewrite Em, E.
  eexists _, _. split; [done|]. split; [apply kwf_with_mps, kwf_empty_list; done|].
  split; [split; [simpl; by rewrite lookup_insert_eq|apply Hinv; [done|lia|done..]|]|done].
  intros t. simpl. rewrite fn_lookup_insert. by intros ?%elem_of_nil.
Qed.

Lemma mp_init_list_overrun total links : Z.of_nat (length links) < total -> mp_init_list total links = None.
Proof. intros H. unfold mp_init_list. by rewrite mp_link_blocks_overrun by lia. Qed.

(** The size that [rt_mp_create] asks the heap for wraps around: for
    0x15555556 blocks of 8 bytes it gets 8 bytes and links the blocks in the
    memory behind them. *)
Lemma mp_create_wraps k o links : k_irq_nest k = 0 -> Z.of_nat (length links) < 0x15555556 ->
  rt_mp_create (Some o) (fun size => if decide (size = 8) then Some links else None) 0x15555556 8 k = None.
Proof.
  intros Hi Hl. unfold rt_mp_create, RT_DEBUG_NOT_IN_INTERRUPT, rt_interrupt_get_nest, rt_assert, rt_object_allocate, RT_DEBUG_NOT_IN_INTERRUPT.
  munfold. rewrite Hi. rewrite !bool_decide_true by lia. unfold rt_interrupt_get_nest. munfold. rewrite Hi, bool_decide_true by lia.
  rewrite decide_True by reflexivity. by rewrite mp_init_list_overrun.
Qed.

(** 12 bytes are enough for a block of 8 and its word, but they are rounded
    down to 8; [rt_mp_init] then writes in front of the memory. *)
Example small_pool_is_undefined : rt_mp_init 7 [MpNext None] 12 8 demo = None /\ is_Some (rt_mp_init 7 [MpNext None] 16 8 demo).
Proof. split; [by vm_compute|]. destruct (rt_mp_init _ _ 16 _ _) eqn:E; [by eexists|by vm_compute in E]. Qed.

(** The pool 7 has a free block, and thread 2 waits there; the pool 8 is empty. *)
Definition demo_pool (o : oid) (m : mempool) : kstate := with_mps (fun _ => {[ o := m ]}) demo.

Lemma demo_pool_ok o m free : mp_inv o m free -> kwf (demo_pool o m) /\ mp_ok (demo_pool o m) o m free.
Proof.
  intros H. split; [apply kwf_with_mps, demo_kwf|]. split; [apply lookup_singleton_eq|done|].
  apply (demo_clean ∅ ∅ ∅ ∅ ∅).
Qed.

Definition demo_mp_7 : mempool := Mempool true 24 8 [MpOwner 7; MpNext None] (Some 1%nat) 2 1.
Definition demo_mp_8 : mempool := Mempool true 24 8 [MpOwner 8; MpOwner 8] None 2 0.

Lemma demo_mp_7_inv : mp_inv 7 demo_mp_7 [1%nat].
Proof.
  split; [by repeat (eexists || split)|by intros i ->%list_elem_of_singleton; eexists|done|done|].
  intros [|[|]]; simpl; [done|set_solver|lia].
Qed.

Lemma demo_mp_8_inv : mp_inv 8 demo_mp_8 [].
Proof. split; [done|by intros i ?%elem_of_nil|done|done|]. intros [|[|]]; simpl; [done|done|lia]. Qed.

(** From pool 7 block 1 is taken; the release of its block 0 wakes thread 2. *)
Lemma rt_mp_refines_witness :
  (exists k', rt_mp_alloc 7 0 (demo_pool 7 demo_mp_7) = Some (Returned (Some 1%nat), k') /\ kwf k') /\
  (exists k' th, rt_mp_free (Some (7%nat, 0%nat)) (demo_pool 7 demo_mp_7) = Some (tt, k') /\
     k_threads k' !! 2%nat = Some th /\ awake th) /\
  (exists k', rt_mp_alloc 8 100 (demo_pool 8 demo_mp_8) = Some (Blocked (MpFrame 8 0 100 0), k') /\ k_lists k' (LSuspend 8) = [0%nat]).
Proof.
  destruct (demo_pool_ok 7 _ _ demo_mp_7_inv) as [H7 K7]. destruct (demo_pool_ok 8 _ _ demo_mp_8_inv) as [H8 K8].
  destruct (rt_mp_refines _ 0 (demo_thread RT_THREAD_RUNNING 10) 7 _ _ 0 H7 demo_running eq_refl K7 ltac:(done)) as [A R].
  destruct (rt_mp_refines _ 0 (demo_thread RT_THREAD_RUNNING 10) 8 _ _ 100 H8 demo_running eq_refl K8 ltac:(done)) as [B _].
  split_and!.
  - destruct A as [(r & k' & m' & free' & a & E & Hk & _ & Ea & Hr & _)]. exists k'. split; [|done].
    rewrite E. injection Ea as <- _ _. destruct r; simpl in Hr; by subst.
  - destruct (R 0%nat) as [(k' & m' & w & E & Hk & _ & Ea & _ & _ & Hw)]; [simpl; lia|set_solver|].
    destruct (Hw 2%nat) as (th & ? & ? & _); [by injection Ea as <- _|]. by exists k', th.
  - destruct B as [(r & k' & m' & free' & a & E & Hk & _ & Ea & _ & _ & _ & _ & Hb)].
    destruct (Hb ltac:(done) ltac:(done)) as [-> _]. exists k'. split; [done|]. by injection Ea as _ _ <-.
Defined.
