(* ===== verification/DeviceIpc.v ===== *)
(** * DeviceIpc: completions, data queues and wait queues

    components/drivers/src/completion.c, dataqueue.c and waitqueue.c, what
    drivers and threads synchronise with.  The objects are in [k_dipc]; the
    blocking functions are split at [rt_schedule] as those of ipc.c are.  The
    call of [evt_notify] is the last thing a data queue does: the event it is
    called with is a result of the operation. *)

From S2P Require Import Kernel Sched Object Timer Thread Ipc Demo Sem Mailbox.

Definition RT_EEMPTY : Z := 4.
Definition RT_ENOMEM : Z := 5.

(** Suspend the thread and put it at the end of a list, for the code that does
    not go through [rt_ipc_list_suspend]. *)
Definition suspend_last (h : lhead) (t : tid) : KM unit :=
  _ ← rt_thread_suspend t;
  list_insert_before h t.

(** [if (!rt_list_isempty(list)) { rt_thread_resume(first); rt_schedule(); }]
    with [b] as the result of the rest of a function that depends on it. *)
Definition resume_first (h : lhead) : KM bool :=
  e ← list_isempty h;
  if (e : bool) then mret false
  else
    t ← list_first h;
    _ ← rt_thread_resume t;
    rt_schedule;;
    mret true.

(** ** Completions *)

Definition RT_COMPLETED : Z := 1.
Definition RT_UNCOMPLETED : Z := 0.

Definition put_dipc (o : oid) (d : dev_ipc) : KM unit := modify (with_dipc (insert o d)).

Definition get_completion (o : oid) : KM Z :=
  deref (fun k => match k_dipc k !! o with Some (Completion flag) => Some flag | _ => None end).

Definition rt_completion_init (completion : oid) : KM unit :=
  put_dipc completion (Completion RT_UNCOMPLETED);;
  modify (with_lists (fun ls => <[LSuspend completion := []]> ls)).

Inductive completion_frame := CompletionFrame (completion : oid) (t : tid).

Definition rt_completion_wait (completion : oid) (timeout : Z) : KM (outcome completion_frame Z) :=
  thread ← rt_thread_self;
  flag ← get_completion completion;
  if decide (flag <> RT_COMPLETED) then
    e ← list_isempty (LSuspend completion);
    rt_assert e;;
    if decide (timeout = 0) then mret (Returned (- RT_ETIMEOUT))
    else
      t ← deref (fun _ => thread);
      set_thread t (with_error RT_EOK);;
      wait_in (suspend_last (LSuspend completion) t;; RT_DEBUG_NOT_IN_INTERRUPT) t timeout;;
      mret (Blocked (CompletionFrame completion t))
  else
    put_dipc completion (Completion RT_UNCOMPLETED);;
    mret (Returned RT_EOK).

Definition rt_completion_wait_resume (f : completion_frame) : KM Z :=
  let '(CompletionFrame completion t) := f in
  th ← get_thread t;
  _ ← get_completion completion;
  put_dipc completion (Completion RT_UNCOMPLETED);;
  mret (th_error th).

Definition rt_completion_done (completion : oid) : KM unit :=
  flag ← get_completion completion;
  if decide (flag = RT_COMPLETED) then mret tt
  else
    put_dipc completion (Completion RT_COMPLETED);;
    _ ← resume_first (LSuspend completion);
    mret tt.

(** ** Data queues *)

Definition RT_DATAQUEUE_EVENT_POP : Z := 1.
Definition RT_DATAQUEUE_EVENT_PUSH : Z := 2.
Definition RT_DATAQUEUE_EVENT_LWM : Z := 3.

Definition get_dq (o : oid) : KM data_queue :=
  deref (fun k => match k_dipc k !! o with Some (DevDataQueue q) => Some q | _ => None end).
Definition put_dq (o : oid) (q : data_queue) : KM unit := put_dipc o (DevDataQueue q).

(** [sizeof(struct rt_data_item)] *)
Definition sizeof_data_item : Z := 8.

(** [rt_malloc]: the items the heap has for a request, if any.  Until then the
    queue points at nothing. *)
Definition rt_data_queue_init (queue : oid) (rt_malloc : Z -> option (list data_item)) (size lwm : Z) (notify : bool) : KM Z :=
  put_dq queue (DataQueue size lwm 0 0 [] notify);;
  modify (with_lists (fun ls => <[LSuspend queue := []]> (<[LSender queue := []]> ls)));;
  match rt_malloc (u32 (sizeof_data_item * size)) with
  | None => mret (- RT_ENOMEM)
  | Some items =>
    put_dq queue (DataQueue size lwm 0 0 items notify);;
    mret RT_EOK
  end.

(** The place of [index % queue->size]; dividing by 0 is undefined. *)
Definition dq_slot (index : Z) (q : data_queue) : KM nat :=
  rt_assert (bool_decide (dq_size q <> 0));; mret (Z.to_nat (index mod dq_size q)).

Definition notify_event (q : data_queue) (event : Z) : option Z := if dq_notify q then Some event else None.

(** The code after the [while] loop of [rt_data_queue_push]. *)
Definition dq_store (queue : oid) (item : data_item) : KM (Z * option Z) :=
  q ← get_dq queue;
  i ← dq_slot (dq_put_index q) q;
  (if decide (i < length (dq_queue q))%nat
   then put_dq queue (DataQueue (dq_size q) (dq_lwm q) (dq_get_index q) (u16 (dq_put_index q + 1))
                        (<[i := item]> (dq_queue q)) (dq_notify q))
   else undefined);;
  woken ← resume_first (LSuspend queue);
  mret (RT_EOK, if (woken : bool) then None else notify_event q RT_DATAQUEUE_EVENT_PUSH).

Inductive dq_push_frame := DqPushFrame (queue : oid) (item : data_item) (t : tid) (timeout : Z).

(** [while (queue->put_index - queue->get_index == queue->size)], with the
    subtraction on [int], up to the next [rt_schedule] *)
Definition dq_push_loop (queue : oid) (item : data_item) (thread : option tid) (timeout : Z) :
    KM (outcome dq_push_frame (Z * option Z)) :=
  q ← get_dq queue;
  if decide (dq_put_index q - dq_get_index q = dq_size q) then
    if decide (timeout = 0) then mret (Returned (- RT_ETIMEOUT, None))
    else
      RT_DEBUG_NOT_IN_INTERRUPT;;
      t ← deref (fun _ => thread);
      set_thread t (with_error RT_EOK);;
      wait_in (suspend_last (LSender queue) t) t timeout;;
      mret (Blocked (DqPushFrame queue item t timeout))
  else
    r ← dq_store queue item;
    mret (Returned r).

Definition rt_data_queue_push (queue : oid) (item : data_item) (timeout : Z) : KM (outcome dq_push_frame (Z * option Z)) :=
  thread ← rt_thread_self;
  dq_push_loop queue item thread timeout.

Definition rt_data_queue_push_resume (f : dq_push_frame) : KM (outcome dq_push_frame (Z * option Z)) :=
  let '(DqPushFrame queue item t timeout) := f in
  th ← get_thread t;
  if decide (th_error th <> RT_EOK) then mret (Returned (th_error th, None))
  else dq_push_loop queue item (Some t) timeout.

(** The code after the [while] loop of [rt_data_queue_pop]. *)
Definition dq_fetch (queue : oid) : KM (Z * option data_item * option Z) :=
  q ← get_dq queue;
  i ← dq_slot (dq_get_index q) q;
  item ← deref (fun _ => dq_queue q !! i);
  let get := u16 (dq_get_index q + 1) in
  put_dq queue (DataQueue (dq_size q) (dq_lwm q) get (dq_put_index q) (dq_queue q) (dq_notify q));;
  if decide (dq_put_index q - get <= dq_lwm q) then
    _ ← resume_first (LSender queue);
    mret (RT_EOK, Some item, notify_event q RT_DATAQUEUE_EVENT_LWM)
  else mret (RT_EOK, Some item, notify_event q RT_DATAQUEUE_EVENT_POP).

Inductive dq_pop_frame := DqPopFrame (queue : oid) (t : tid) (timeout : Z).

Definition dq_pop_loop (queue : oid) (thread : option tid) (timeout : Z) :
    KM (outcome dq_pop_frame (Z * option data_item * option Z)) :=
  q ← get_dq queue;
  if decide (dq_get_index q = dq_put_index q) then
    if decide (timeout = 0) then mret (Returned (- RT_ETIMEOUT, None, None))
    else
      RT_DEBUG_NOT_IN_INTERRUPT;;
      t ← deref (fun _ => thread);
      set_thread t (with_error RT_EOK);;
      wait_in (suspend_last (LSuspend queue) t) t timeout;;
      mret (Blocked (DqPopFrame queue t timeout))
  else
    r ← dq_fetch queue;
    mret (Returned r).

Definition rt_data_queue_pop (queue : oid) (timeout : Z) : KM (outcome dq_pop_frame (Z * option data_item * option Z)) :=
  thread ← rt_thread_self;
  dq_pop_loop queue thread timeout.

Definition rt_data_queue_pop_resume (f : dq_pop_frame) : KM (outcome dq_pop_frame (Z * option data_item * option Z)) :=
  let '(DqPopFrame queue t timeout) := f in
  th ← get_thread t;
  if decide (th_error th <> RT_EOK) then mret (Returned (th_error th, None, None))
  else dq_pop_loop queue (Some t) timeout.

Definition rt_data_queue_peak (queue : oid) : KM (Z * option data_item) :=
  q ← get_dq queue;
  if decide (dq_get_index q = dq_put_index q) then mret (- RT_EEMPTY, None)
  else
    i ← dq_slot (dq_get_index q) q;
    item ← deref (fun _ => dq_queue q !! i);
    mret (RT_EOK, Some item).

(** [while (!rt_list_isempty(list))] of [rt_data_queue_reset] *)
Definition dq_wake_all (h : lhead) : KM unit :=
  l ← gets (fun k => k_lists k h);
  resume_all_loop (length l) h.

Definition rt_data_queue_reset (queue : oid) : KM unit :=
  rt_enter_critical;;
  dq_wake_all (LSuspend queue);;
  dq_wake_all (LSender queue);;
  rt_exit_critical;;
  rt_schedule.

(** ** Wait queues *)

Definition RT_WQ_FLAG_WAKEUP : Z := 1.

Definition get_wqueue (o : oid) : KM wqueue :=
  deref (fun k => match k_dipc k !! o with Some (DevWqueue q) => Some q | _ => None end).
Definition put_wqueue (o : oid) (q : wqueue) : KM unit := put_dipc o (DevWqueue q).

Definition __wqueue_default_wake (wait : wqueue_node) (key : Z) : Z := 0.

Definition rt_wqueue_init (queue : oid) : KM unit := put_wqueue queue (Wqueue 0 []).

Definition rt_wqueue_add (queue : oid) (node : wqueue_node) : KM unit :=
  q ← get_wqueue queue;
  put_wqueue queue (Wqueue (wq_flag q) (wq_waiting q ++ [node])).

(** The node is in one list at most; the others are not changed. *)
Definition without_node (n : wnode) (d : dev_ipc) : dev_ipc :=
  match d with
  | DevWqueue q => DevWqueue (Wqueue (wq_flag q) (filter (fun x => wn_node x <> n) (wq_waiting q)))
  | _ => d
  end.
Definition rt_wqueue_remove (n : wnode) : KM unit := modify (with_dipc (fmap (without_node n))).

Section wakeup.
(** The wake-up functions of the user. *)
Context (user_wakeup : nat -> wqueue_node -> Z -> Z).

Definition call_wakeup (entry : wqueue_node) (key : Z) : Z :=
  match wn_wakeup entry with
  | None => __wqueue_default_wake entry key
  | Some f => user_wakeup f entry key
  end.

Definition rt_wqueue_wakeup (queue : oid) (key : Z) : KM unit :=
  q ← get_wqueue queue;
  put_wqueue queue (Wqueue RT_WQ_FLAG_WAKEUP (wq_waiting q));;
  match list_find (fun entry => call_wakeup entry key = 0) (wq_waiting q) with
  | None => mret tt
  | Some (_, entry) =>
    _ ← rt_thread_resume (wn_polling_thread entry);
    rt_wqueue_remove (wn_node entry);;
    rt_schedule
  end.
End wakeup.

Inductive wqueue_frame := WqueueFrame (queue : oid) (t : tid).

(** The end of [rt_wqueue_wait], from [queue->flag = 0] on. *)
Definition wqueue_exit (queue : oid) (t : tid) : KM Z :=
  q ← get_wqueue queue;
  put_wqueue queue (Wqueue 0 (wq_waiting q));;
  rt_wqueue_remove (WaitOf t);;
  mret 0.

Definition rt_wqueue_wait (queue : oid) (condition msec : Z) : KM (outcome wqueue_frame Z) :=
  thread ← rt_thread_self;
  RT_DEBUG_NOT_IN_INTERRUPT;;
  let tick := s32 (rt_tick_from_millisecond msec) in
  if decide (condition <> 0 \/ tick = 0) then mret (Returned 0)
  else
    t ← deref (fun _ => thread);
    q ← get_wqueue queue;
    if decide (wq_flag q = RT_WQ_FLAG_WAKEUP) then
      r ← wqueue_exit queue t;
      mret (Returned r)
    else
      rt_wqueue_add queue (WqueueNode (WaitOf t) t None);;
      _ ← rt_thread_suspend t;
      when (bool_decide (tick <> RT_WAITING_FOREVER)) (start_thread_timer t tick);;
      rt_schedule;;
      mret (Blocked (WqueueFrame queue t)).

Definition rt_wqueue_wait_resume (f : wqueue_frame) : KM Z :=
  let '(WqueueFrame queue t) := f in wqueue_exit queue t.

(** ** Waiting and waking outside of ipc.c *)

Lemma kwf_with_dipc f k : kwf k -> kwf (with_dipc f k).
Proof. by apply kwf_objects. Qed.

Lemma suspend_last_suspends h t : wait_head h -> suspends (suspend_last h t) h t RT_IPC_FLAG_FIFO.
Proof.
  intros Hh k th H Hr. exists tt.
  pose proof (list_suspend_eval k t th h RT_IPC_FLAG_FIFO H Hr Hh ltac:(by left)) as E.
  unfold rt_ipc_list_suspend in E. rewrite decide_True in E by done. revert E. unfold suspend_last. munfold.
  destruct (rt_thread_suspend t k) as [[a k1]|]; [|done]. unfold list_insert_before, modify.
  intros E'%(f_equal (fmap (fun r => (tt, snd r)))). exact E'.
Qed.

(** An assertion that holds can be left out of the code that suspends. *)
Lemma wait_in_thread {A} (suspend : KM A) k t th h flag timeout :
  kwf k -> running k t th -> suspends suspend h t flag -> k_irq_nest k = 0 ->
  wait_in (suspend;; RT_DEBUG_NOT_IN_INTERRUPT) t timeout k = wait_in suspend t timeout k.
Proof.
  intros H Hr Hs Hi. destruct (Hs k th H Hr) as [a E]. destruct Hr as (_ & Et & _).
  destruct (suspended_thread t th k Et) as (_ & _ & _ & Er & _). apply rest_inj in Er as (_ & Ei & _).
  set (k1 := in_wait _ _ _) in E. assert (k_irq_nest k1 = 0) as Ei1 by (rewrite <- Hi; exact Ei).
  unfold wait_in, RT_DEBUG_NOT_IN_INTERRUPT, rt_interrupt_get_nest, rt_assert. munfold. rewrite E.
  by rewrite bool_decide_true.
Qed.

Lemma resume_first_spec k h : kwf k -> wait_head h -> is_Some (k_current k) ->
  exists k', resume_first h k = Some (bool_decide (k_lists k h <> []), k') /\ notified k k' h.
Proof.
  intros H Hh Hc. destruct (resume_if_waiting_spec k h H Hh Hc) as (k' & E & N). exists k'. split; [|done].
  revert E. unfold resume_if_waiting, resume_first, rt_ipc_list_resume. munfold.
  destruct (k_lists k h) as [|t l] eqn:El; simpl.
  - intros [= <-]. done.
  - rewrite El. simpl. destruct (rt_thread_resume t k) as [[a k1]|]; [|done]. destruct (rt_schedule k1) as [[[] k2]|]; [|done].
    by intros [= <-].
Qed.

(** ** Completions: a flag and at most one waiter *)

Record completion_ok (k : kstate) (o : oid) (done : bool) (waiters : list tid) : Prop := CompletionOk {
  co_flag : k_dipc k !! o = Some (Completion (if done then RT_COMPLETED else RT_UNCOMPLETED));
  co_list : k_lists k (LSuspend o) = waiters;
  co_one : (length waiters <= 1)%nat;
  co_clean : waiters_clean k (LSuspend o)
}.

Lemma get_completion_eval k o done waiters : completion_ok k o done waiters ->
  get_completion o k = Some (if done then RT_COMPLETED else RT_UNCOMPLETED, k).
Proof. intros [E _ _ _]. unfold get_completion. munfold. by rewrite E. Qed.

Lemma k_dipc_put k o d : k_dipc (with_dipc (insert o d) k) !! o = Some d.
Proof. apply lookup_insert_eq. Qed.

(** What a wait does. *)
Definition completion_waits (k : kstate) (t : tid) (o : oid) (done : bool) (timeout : Z) : Prop :=
  exists r k', rt_completion_wait o timeout k = Some (r, k') /\ kwf k' /\
    if done then r = Returned RT_EOK /\ completion_ok k' o false [] /\ k_threads k' = k_threads k
    else if decide (timeout = 0) then r = Returned (- RT_ETIMEOUT) /\ k' = k
    else r = Blocked (CompletionFrame o t) /\ completion_ok k' o false [t] /\
      blocked k k' (LSuspend o) t RT_IPC_FLAG_FIFO timeout (with_error RT_EOK).

Lemma rt_completion_wait_sim k t th o done timeout :
  kwf k -> running k t th -> k_irq_nest k = 0 -> completion_ok k o done [] -> timeout < HALF ->
  completion_waits k t o done timeout.
Proof.
  intros H Hr Hi Hok Ht. pose proof Hr as (Hc & Et & Hs). pose proof Hok as [Ef El _ Hcl].
  unfold completion_waits, rt_completion_wait, rt_thread_self. munfold. rewrite (get_completion_eval k o done []) by done.
  destruct done.
  - rewrite decide_False by naive_solver. eexists _, _. split; [done|]. split; [by apply kwf_with_dipc|].
    split; [done|]. split; [|done]. split; [apply k_dipc_put|done|simpl; lia|done].
  - rewrite decide_True by done. rewrite El. rewrite bool_decide_true by done. unfold rt_assert. munfold. destruct (decide (timeout = 0)) as [->|Hn]; [by eexists _, _|].
    rewrite Hc, Et. fold (upd_thread t (with_error RT_EOK) k).
    destruct (block_in_spec (suspend_last (LSuspend o) t) k t th (LSuspend o) RT_IPC_FLAG_FIFO timeout (with_error RT_EOK))
      as (k' & Ew & B); [done..|by apply suspend_last_suspends|done|done|].
    pose proof (wait_in_thread (suspend_last (LSuspend o) t) (upd_thread t (with_error RT_EOK) k) t (with_error RT_EOK th)
      (LSuspend o) RT_IPC_FLAG_FIFO timeout ltac:(by apply kwf_upd_keep) ltac:(by apply (running_upd (with_error RT_EOK)))
      ltac:(by apply suspend_last_suspends) Hi) as Ea. unfold mbind, M_bind in Ea. rewrite Ea, Ew.
    eexists _, k'. split; [done|]. split; [apply B|]. split; [done|]. split; [|done].
    destruct (objects_inj _ _ (bl_objects _ _ _ _ _ _ _ B)) as (_ & _ & _ & _ & _ & _ & Ed).
    split; [by rewrite Ed|by rewrite (bl_list _ _ _ _ _ _ _ B), El|simpl; lia|by apply (bl_clean _ _ _ _ _ _ _ B)].
Qed.

(** What [rt_completion_done] does: the waiter becomes ready, and finds no
    error when it goes on. *)
Definition completion_completes (k : kstate) (o : oid) (waiters : list tid) : Prop :=
  exists k', rt_completion_done o k = Some (tt, k') /\ kwf k' /\ completion_ok k' o true [] /\
    forall t, waiters = [t] -> exists th, k_threads k' !! t = Some th /\ awake th /\ th_error th = RT_EOK.

Lemma rt_completion_done_sim k o waiters :
  kwf k -> is_Some (k_current k) -> completion_ok k o false waiters -> completion_completes k o waiters.
Proof.
  intros H Hc Hok. pose proof Hok as [Ef El Hone Hcl].
  unfold completion_completes, rt_completion_done, put_dipc. munfold. rewrite (get_completion_eval k o false waiters) by done.
  rewrite decide_False by done. set (k0 := with_dipc _ k).
  destruct (resume_first_spec k0 (LSuspend o)) as (k' & E & [N1 N2 N3 N4 N5 N6 N7]); [by apply kwf_with_dipc|done|done|].
  exists k'. split; [by rewrite E|]. split; [done|]. change (k_lists k0) with (k_lists k) in *. rewrite El in N2.
  destruct (objects_inj _ _ N4) as (_ & _ & _ & _ & _ & _ & Ed). split.
  - split; [rewrite Ed; apply k_dipc_put|rewrite N2; by destruct waiters as [|? [|? ?]]; simpl in *; try lia|simpl; lia|by apply N5].
  - intros t ->. by apply (N6 t []).
Qed.

(** The waiter goes on: it reports what it was woken with, and clears the flag. *)
Definition completion_ends (k : kstate) (t : tid) (th : thread) (o : oid) : Prop :=
  exists k', rt_completion_wait_resume (CompletionFrame o t) k = Some (th_error th, k') /\ kwf k' /\
    completion_ok k' o false [] /\ k_threads k' = k_threads k.

Lemma rt_completion_wait_resume_sim k t th o done :
  kwf k -> k_threads k !! t = Some th -> completion_ok k o done [] -> completion_ends k t th o.
Proof.
  intros H Et Hok. pose proof Hok as [Ef El Hone Hcl]. unfold completion_ends, rt_completion_wait_resume, put_dipc.
  munfold. rewrite Et, (get_completion_eval k o done []) by done.
  eexists. split; [done|]. split; [by apply kwf_with_dipc|]. split; [|done]. split; [apply k_dipc_put|done..].
Qed.

(** C36: A completion is a flag with at most one waiting thread.
    [rt_completion_wait] takes the flag if it is set, and otherwise answers
    [-RT_ETIMEOUT] at time 0 or waits with its timer started;
    [rt_completion_done] sets the flag and makes the waiter ready without an
    error, or does nothing if the flag is set already; a waiter that goes on
    reports the error it was woken with, and clears the flag. *)
Theorem rt_completion_refines k t th o done waiters timeout :
  kwf k -> running k t th -> k_irq_nest k = 0 -> completion_ok k o done waiters -> timeout < HALF ->
  (waiters = [] -> completion_waits k t o done timeout) /\
  (if done then rt_completion_done o k = Some (tt, k) else completion_completes k o waiters) /\
  (waiters = [] -> forall s sth, k_threads k !! s = Some sth -> completion_ends k s sth o).
Proof.
  intros H Hr Hi Hok Ht. split_and!.
  - intros ->. by eapply rt_completion_wait_sim.
  - destruct done; [|apply rt_completion_done_sim; [done| |done]; destruct Hr as (-> & _); by eexists].
    unfold rt_completion_done. munfold. rewrite (get_completion_eval k o true waiters) by done. by rewrite decide_True.
  - intros -> s sth E. by eapply rt_completion_wait_resume_sim.
Qed.

(** A completion that comes after the time-out of the waiter and before it runs
    is lost: the wait fails, and the flag is cleared all the same. *)
Lemma late_completion_is_lost k t th o :
  kwf k -> is_Some (k_current k) -> k_threads k !! t = Some th -> th_error th = - RT_ETIMEOUT -> completion_ok k o false [] ->
  exists k1 k2, rt_completion_done o k = Some (tt, k1) /\
    rt_completion_wait_resume (CompletionFrame o t) k1 = Some (- RT_ETIMEOUT, k2) /\ completion_ok k2 o false [].
Proof.
  intros H Hc Et He Hok. destruct (rt_completion_done_sim k o [] H Hc Hok) as (k1 & E1 & H1 & Hok1 & _).
  assert (k1 = with_dipc (insert o (Completion RT_COMPLETED)) k) as ->.
  { revert E1. unfold rt_completion_done, put_dipc, resume_first. munfold. rewrite (get_completion_eval k o false []) by done.
    rewrite decide_False by done. cbn [k_lists with_dipc]. rewrite (co_list _ _ _ _ Hok), bool_decide_true by done. by intros [= <-]. }
  destruct (rt_completion_wait_resume_sim _ t th o true H1 Et Hok1) as (k2 & E2 & H2 & Hok2 & _).
  rewrite He in E2. by exists (with_dipc (insert o (Completion RT_COMPLETED)) k), k2.
Qed.

(** Thread 2 waits for the completion 7; the completion 8 is done. *)
Definition demo_dipc (d : gmap oid dev_ipc) : kstate := with_dipc (fun _ => d) demo.

Lemma demo_dipc_kwf d : kwf (demo_dipc d).
Proof. apply kwf_with_dipc, demo_kwf. Qed.

Lemma demo_dipc_clean d h : waiters_clean (demo_dipc d) h.
Proof. apply (demo_clean ∅ ∅ ∅ ∅ ∅). Qed.

Definition demo_completions : kstate := demo_dipc {[ 7%nat := Completion RT_UNCOMPLETED; 8%nat := Completion RT_COMPLETED ]}.

Lemma rt_completion_refines_witness :
  (exists k' th, rt_completion_done 7 demo_completions = Some (tt, k') /\ k_threads k' !! 2%nat = Some th /\ awake th) /\
  (exists k', rt_completion_wait 8 100 demo_completions = Some (Returned RT_EOK, k')).
Proof.
  assert (completion_ok demo_completions 7 false [2%nat]) as H7 by (split; [done|done|done|apply demo_dipc_clean]).
  assert (completion_ok demo_completions 8 true []) as H8 by (split; [done|done|simpl; lia|apply demo_dipc_clean]).
  destruct (rt_completion_refines demo_completions 0 (demo_thread RT_THREAD_RUNNING 10) 7 _ _ 100 (demo_dipc_kwf _) demo_running eq_refl H7 ltac:(done))
    as (_ & (k' & E & _ & _ & W) & _).
  destruct (rt_completion_refines demo_completions 0 (demo_thread RT_THREAD_RUNNING 10) 8 _ _ 100 (demo_dipc_kwf _) demo_running eq_refl H8 ltac:(done))
    as (A & _). destruct (A eq_refl) as (r & k8 & E8 & _ & -> & _). split; [|by exists k8].
  destruct (W 2%nat eq_refl) as (th & ? & ? & _). by exists k', th.
Defined.

(** ** Data queues: a bounded queue of items, its waiting producers and consumers *)

#[export] Instance data_item_inhabited : Inhabited data_item := populate (DataItem 0 0).

(** [get_index] and [put_index] count the items, and have not wrapped around. *)
Record dq_inv (q : data_queue) (content : list data_item) : Prop := DqInv {
  di_size : 0 < dq_size q /\ dq_size q = Z.of_nat (length (dq_queue q)) /\ in_range 16 (dq_size q);
  di_indices : 0 <= dq_get_index q /\ dq_put_index q = dq_get_index q + Z.of_nat (length content) /\
    dq_put_index q < 2 ^ 16;
  di_fits : Z.of_nat (length content) <= dq_size q;
  di_content : content = ring (dq_queue q) (Z.to_nat (dq_get_index q mod dq_size q)) (length content)
}.

Record dq_ok (k : kstate) (o : oid) (q : data_queue) (content : list data_item) : Prop := DqOk {
  do_dq : k_dipc k !! o = Some (DevDataQueue q);
  do_inv : dq_inv q content;
  do_pop : waiters_clean k (LSuspend o);
  do_push : waiters_clean k (LSender o)
}.

Lemma get_dq_eval k o q content : dq_ok k o q content -> get_dq o k = Some (q, k).
Proof. intros [E _ _ _]. unfold get_dq. munfold. by rewrite E. Qed.

Lemma dq_slot_eval k q i content : dq_inv q content -> dq_slot i q k = Some (Z.to_nat (i mod dq_size q), k).
Proof.
  intros [[Hs _] _ _ _]. unfold dq_slot, rt_assert. rewrite bool_decide_true by lia. done.
Qed.

Lemma slot_ring (g s : Z) (n : nat) : 0 <= g -> 0 < s ->
  Z.to_nat ((g + Z.of_nat n) mod s) = ((Z.to_nat (g mod s) + n) mod Z.to_nat s)%nat.
Proof.
  intros Hg Hs. pose proof (Z.mod_pos_bound g s Hs). pose proof (Z.mod_pos_bound (g + Z.of_nat n) s Hs).
  apply Nat2Z.inj. rewrite Nat2Z.inj_mod, Nat2Z.inj_add, !Z2Nat.id by lia.
  by rewrite Z.add_mod_idemp_l by lia.
Qed.

Definition dq_pushed (item : data_item) (q : data_queue) : data_queue :=
  DataQueue (dq_size q) (dq_lwm q) (dq_get_index q) (u16 (dq_put_index q + 1))
    (<[Z.to_nat (dq_put_index q mod dq_size q) := item]> (dq_queue q)) (dq_notify q).
Definition dq_popped (q : data_queue) : data_queue :=
  DataQueue (dq_size q) (dq_lwm q) (u16 (dq_get_index q + 1)) (dq_put_index q) (dq_queue q) (dq_notify q).

Lemma dq_pushed_inv item q content :
  dq_inv q content -> Z.of_nat (length content) < dq_size q -> dq_put_index q < 2 ^ 16 - 1 ->
  (Z.to_nat (dq_put_index q mod dq_size q) < length (dq_queue q))%nat /\ dq_inv (dq_pushed item q) (content ++ [item]).
Proof.
  intros [(Hs & El & Hr) (Hg & Ep & Hp) Hf Hc] Hlt Hw.
  pose proof (Z.mod_pos_bound (dq_put_index q) (dq_size q) Hs). split; [lia|].
  assert (u16 (dq_put_index q + 1) = dq_put_index q + 1) as Eu by (apply wrap_small; unfold in_range; lia).
  split; unfold dq_pushed; cbn [dq_size dq_queue dq_get_index dq_put_index]; rewrite ?length_insert, ?length_app; try done.
  - rewrite Eu. simpl. lia.
  - simpl. lia.
  - rewrite Nat.add_comm. cbn [length Nat.add]. rewrite Ep, slot_ring by done.
    rewrite El at 2. rewrite Nat2Z.id, ring_push by lia. by rewrite <- Hc.
Qed.

Lemma dq_popped_inv q x content : dq_inv q (x :: content) ->
  dq_queue q !! Z.to_nat (dq_get_index q mod dq_size q) = Some x /\ dq_inv (dq_popped q) content /\
  dq_put_index q - u16 (dq_get_index q + 1) = Z.of_nat (length content).
Proof.
  intros [(Hs & El & Hr) (Hg & Ep & Hp) Hf Hc]. cbn [length] in *.
  pose proof (Z.mod_pos_bound (dq_get_index q) (dq_size q) Hs).
  assert (u16 (dq_get_index q + 1) = dq_get_index q + 1) as Eu by (apply wrap_small; unfold in_range; lia).
  rewrite ring_pop in Hc by lia. injection Hc as Ex Hc. split; [|split; [|lia]].
  - rewrite Ex. apply list_lookup_lookup_total_lt. lia.
  - split; unfold dq_popped; cbn [dq_size dq_queue dq_get_index dq_put_index]; try done; [lia|lia|].
    rewrite Eu, (slot_ring _ _ 1), El, Nat2Z.id by lia. rewrite El in Hc. done.
Qed.

Lemma dq_counts q content : dq_inv q content ->
  (dq_put_index q - dq_get_index q = dq_size q <-> ~ Z.of_nat (length content) < dq_size q) /\
  (dq_get_index q = dq_put_index q <-> content = []).
Proof.
  intros [_ (Hg & Ep & Hp) Hf _]. split; [lia|]. destruct content; simpl in *; split; (done || lia || intros; lia).
Qed.

Lemma dq_ok_objects k k' o q content : dq_ok k o q content -> objects k' = objects k ->
  (forall h, wait_head h -> waiters_clean k h -> waiters_clean k' h) -> dq_ok k' o q content.
Proof.
  intros [H1 H2 H3 H4] (_ & _ & _ & _ & _ & _ & E)%objects_inj Hc. split; [by rewrite E|done|by apply Hc..].
Qed.

Lemma dq_ok_put k o q q' content content' : dq_ok k o q content -> dq_inv q' content' ->
  dq_ok (with_dipc (insert o (DevDataQueue q')) k) o q' content'.
Proof. intros [H1 H2 H3 H4] H. split; [apply k_dipc_put|done..]. Qed.

Definition dq_pushes (k : kstate) (t : tid) (o : oid) (q : data_queue) (content : list data_item) (item : data_item) (timeout : Z) : Prop :=
  exists r k' q' a content', rt_data_queue_push o item timeout k = Some (r, k') /\ kwf k' /\
    queue_send (dq_size q) item timeout content = (a, content') /\ dq_ok k' o q' content' /\
    match a with
    | QSent => r = Returned (RT_EOK, if decide (k_lists k (LSuspend o) = []) then notify_event q RT_DATAQUEUE_EVENT_PUSH else None) /\
        first_woken k k' (LSuspend o) /\ k_lists k' (LSender o) = k_lists k (LSender o)
    | QFull => r = Returned (- RT_ETIMEOUT, None) /\ k' = k
    | QWait => r = Blocked (DqPushFrame o item t timeout) /\
        blocked k k' (LSender o) t RT_IPC_FLAG_FIFO timeout (with_error RT_EOK)
    end.

Lemma dq_store_spec k o q content item :
  kwf k -> is_Some (k_current k) -> dq_ok k o q content -> Z.of_nat (length content) < dq_size q -> dq_put_index q < 2 ^ 16 - 1 ->
  exists k', dq_store o item k = Some ((RT_EOK, if decide (k_lists k (LSuspend o) = []) then notify_event q RT_DATAQUEUE_EVENT_PUSH else None), k') /\
    kwf k' /\ dq_ok k' o (dq_pushed item q) (content ++ [item]) /\ first_woken k k' (LSuspend o) /\
    k_lists k' (LSender o) = k_lists k (LSender o).
Proof.
  intros H Hc Hok Hlt Hw. pose proof Hok as [Ed Hq Hcp Hcs].
  destruct (dq_pushed_inv item q content Hq Hlt Hw) as [Hi Hq'].
  set (k0 := with_dipc (insert o (DevDataQueue (dq_pushed item q))) k).
  destruct (resume_first_spec k0 (LSuspend o)) as (k' & E & N); [by apply kwf_with_dipc|done|done|].
  exists k'. split.
  - unfold dq_store, put_dq, put_dipc. munfold. rewrite (get_dq_eval k o q content) by done. rewrite (dq_slot_eval _ _ _ content) by done.
    rewrite decide_True by done. fold (dq_pushed item q). unfold modify. fold k0. rewrite E. change (k_lists k0) with (k_lists k).
    destruct (decide (k_lists k (LSuspend o) = [])) as [->|Hn]; [done|by rewrite bool_decide_true].
  - split; [apply N|]. split; [|split; [by apply (notified_woken k0)|by apply (nt_other _ _ _ N)]].
    apply (dq_ok_objects k0); [by apply (dq_ok_put k o q _ content)|apply N|apply N].
Qed.

(** A wait in one of the two lists. *)
Lemma dq_block_spec k t th o q content h timeout : (h = LSuspend o \/ h = LSender o) ->
  kwf k -> running k t th -> dq_ok k o q content -> timeout < HALF ->
  exists k', wait_in (suspend_last h t) t timeout (upd_thread t (with_error RT_EOK) k) = Some (tt, k') /\
    blocked k k' h t RT_IPC_FLAG_FIFO timeout (with_error RT_EOK) /\ dq_ok k' o q content.
Proof.
  intros Hh H Hr Hok Ht. assert (wait_head h) as Hw by (by destruct Hh as [-> | ->]).
  destruct (block_in_spec (suspend_last h t) k t th h RT_IPC_FLAG_FIFO timeout (with_error RT_EOK)) as (k' & Ew & B);
    [done..|by apply suspend_last_suspends|done|done|].
  exists k'. split; [done|]. split; [done|]. apply (dq_ok_objects k); [done|apply B|]. intros. by apply (bl_clean _ _ _ _ _ _ _ B).
Qed.

Lemma rt_data_queue_push_sim k t th o q content item timeout :
  kwf k -> running k t th -> k_irq_nest k = 0 -> dq_ok k o q content -> timeout < HALF -> dq_put_index q < 2 ^ 16 - 1 ->
  dq_pushes k t o q content item timeout.
Proof.
  intros H Hr Hi Hok Ht Hw. pose proof Hr as (Hc & Et & Hs). pose proof Hok as [Ed Hq Hcp Hcs].
  destruct (dq_counts q content Hq) as [Hfull _].
  unfold dq_pushes, rt_data_queue_push, dq_push_loop, rt_thread_self, queue_send. munfold. rewrite (get_dq_eval k o q content) by done.
  destruct (decide (Z.of_nat (length content) < dq_size q)) as [Hd|Hd].
  - rewrite decide_False by tauto. destruct (dq_store_spec k o q content item H ltac:(by rewrite Hc) Hok Hd Hw) as (k' & E & H' & Hok' & Hwk & Hl).
    rewrite E. by eexists _, k', _, _, _.
  - rewrite decide_True by tauto. destruct (decide (timeout = 0)) as [Hz|Hz]; [by eexists _, k, q, _, content|].
    unfold RT_DEBUG_NOT_IN_INTERRUPT, rt_interrupt_get_nest, rt_assert. munfold. rewrite Hi, bool_decide_true by done.
    rewrite Hc, Et. fold (upd_thread t (with_error RT_EOK) k).
    destruct (dq_block_spec k t th o q content (LSender o) timeout) as (k' & Ew & B & Hok'); [by right|done..|].
    rewrite Ew. eexists _, k', q, _, content. split; [done|]. split; [apply B|]. done.
Qed.

Definition dq_pops (k : kstate) (t : tid) (o : oid) (q : data_queue) (content : list data_item) (timeout : Z) : Prop :=
  exists r k' q' a content', rt_data_queue_pop o timeout k = Some (r, k') /\ kwf k' /\
    queue_recv timeout content = (a, content') /\ dq_ok k' o q' content' /\ dq_size q' = dq_size q /\
    match a with
    | QGot item =>
        k_lists k' (LSuspend o) = k_lists k (LSuspend o) /\
        if decide (Z.of_nat (length content') <= dq_lwm q)
        then r = Returned (RT_EOK, Some item, notify_event q RT_DATAQUEUE_EVENT_LWM) /\ first_woken k k' (LSender o)
        else r = Returned (RT_EOK, Some item, notify_event q RT_DATAQUEUE_EVENT_POP) /\ k_lists k' (LSender o) = k_lists k (LSender o)
    | QEmpty => r = Returned (- RT_ETIMEOUT, None, None) /\ k' = k
    | QWaitRecv => r = Blocked (DqPopFrame o t timeout) /\
        blocked k k' (LSuspend o) t RT_IPC_FLAG_FIFO timeout (with_error RT_EOK)
    end.

Lemma rt_data_queue_pop_sim k t th o q content timeout :
  kwf k -> running k t th -> k_irq_nest k = 0 -> dq_ok k o q content -> timeout < HALF -> dq_pops k t o q content timeout.
Proof.
  intros H Hr Hi Hok Ht. pose proof Hr as (Hc & Et & Hs). pose proof Hok as [Ed Hq Hcp Hcs].
  destruct (dq_counts q content Hq) as [_ Hempty].
  unfold dq_pops, rt_data_queue_pop, dq_pop_loop, rt_thread_self. munfold. rewrite (get_dq_eval k o q content) by done.
  destruct content as [|item content]; unfold queue_recv.
  - rewrite decide_True by tauto. destruct (decide (timeout = 0)) as [Hz|Hz]; [by eexists _, k, q, _, []|].
    unfold RT_DEBUG_NOT_IN_INTERRUPT, rt_interrupt_get_nest, rt_assert. munfold. rewrite Hi, bool_decide_true by done.
    rewrite Hc, Et. fold (upd_thread t (with_error RT_EOK) k).
    destruct (dq_block_spec k t th o q [] (LSuspend o) timeout) as (k' & Ew & B & Hok'); [by left|done..|].
    rewrite Ew. eexists _, k', q, _, []. split; [done|]. split; [apply B|]. done.
  - rewrite decide_False by (intros E%Hempty; done). destruct (dq_popped_inv q item content Hq) as (Ei & Hq' & En).
    unfold dq_fetch, put_dq, put_dipc. munfold. rewrite (get_dq_eval k o q (item :: content)) by done.
    rewrite (dq_slot_eval _ _ _ (item :: content)), Ei, En by done. fold (dq_popped q). unfold modify.
    set (k0 := with_dipc _ k).
    assert (dq_ok k0 o (dq_popped q) content) as Hok0 by (by apply (dq_ok_put k o q _ (item :: content))).
    destruct (decide (Z.of_nat (length content) <= dq_lwm q)) as [Hd|Hd].
    + destruct (resume_first_spec k0 (LSender o)) as (k' & E & N); [by apply kwf_with_dipc|done|change (k_current k0) with (k_current k); by rewrite Hc|]. rewrite E.
      eexists _, k', (dq_popped q), _, content. split; [done|]. split; [apply N|]. split; [done|].
      split; [apply (dq_ok_objects k0); [done|apply N|apply N]|]. split; [done|]. split; [by apply (nt_other _ _ _ N)|].
      rewrite decide_True by done. split; [done|]. by apply (notified_woken k0).
    + eexists _, k0, (dq_popped q), _, content. split; [done|]. split; [by apply kwf_with_dipc|]. split; [done|].
      split; [done|]. split; [done|]. split; [done|]. by rewrite decide_False.
Qed.

Lemma rt_data_queue_peak_spec k o q content : dq_ok k o q content ->
  rt_data_queue_peak o k = Some (match content with [] => (- RT_EEMPTY, None) | item :: _ => (RT_EOK, Some item) end, k).
Proof.
  intros Hok. pose proof Hok as [Ed Hq _ _]. destruct (dq_counts q content Hq) as [_ Hempty].
  unfold rt_data_queue_peak. munfold. rewrite (get_dq_eval k o q content) by done. destruct content as [|item content].
  - by rewrite decide_True by tauto.
  - rewrite decide_False by (intros E%Hempty; done). destruct (dq_popped_inv q item content Hq) as (Ei & _).
    by rewrite (dq_slot_eval _ _ _ (item :: content)), Ei.
Qed.

Lemma dq_wake_all_spec k h : kwf k -> wait_head h -> exists k', dq_wake_all h k = Some (tt, k') /\ all_woken k k' h (k_lists k h).
Proof. intros H Hh. unfold dq_wake_all. munfold. by apply resume_all_loop_spec. Qed.

(** [rt_data_queue_reset] lets all waiters go with [-RT_ERROR]; the items stay
    in the queue. *)
Lemma rt_data_queue_reset_spec k o q content : kwf k -> is_Some (k_current k) -> dq_ok k o q content ->
  exists k', rt_data_queue_reset o k = Some (tt, k') /\ kwf k' /\ dq_ok k' o q content /\
    k_lists k' (LSuspend o) = [] /\ k_lists k' (LSender o) = [] /\
    forall t, t ∈ k_lists k (LSuspend o) ++ k_lists k (LSender o) ->
      exists th, k_threads k' !! t = Some th /\ awake th /\ th_error th = - RT_ERROR.
Proof.
  intros H Hc Hok. unfold rt_data_queue_reset, rt_enter_critical. munfold. set (k0 := with_lock_nest _ k).
  assert (rescheduled k k0) as R0 by (by apply rescheduled_lock, H).
  destruct (dq_wake_all_spec k0 (LSuspend o)) as (k1 & E1 & A1); [by apply (rs_kwf k)|done|].
  destruct (dq_wake_all_spec k1 (LSender o)) as (k2 & E2 & A2); [apply A1|done|].
  destruct (rescheduled_exit k2) as (k3 & E3 & R3); [apply (aw_kwf _ _ _ _ A2)|].
  destruct (rescheduled_schedule k3) as (k4 & E4 & R4); [apply R3|by apply R3, A2, A1|].
  pose proof (rescheduled_trans _ _ _ R3 R4) as R. exists k4. split; [by rewrite E1, E2, E3, E4|].
  split; [by apply (rs_kwf _ _ R), A2|].
  assert (k_lists k4 (LSuspend o) = []) as L1 by (rewrite (rs_waits _ _ R), (aw_other _ _ _ _ A2) by done; apply A1).
  assert (k_lists k4 (LSender o) = []) as L2 by (rewrite (rs_waits _ _ R) by done; apply A2).
  split; [|split; [done|split; [done|]]].
  - destruct Hok as [Ed Hq _ _]. split; [|done|intros t; by rewrite L1, elem_of_nil|intros t; by rewrite L2, elem_of_nil].
    assert (objects k4 = objects k) as (_ & _ & _ & _ & _ & _ & E)%objects_inj; [|by rewrite E].
    rewrite (rs_objects _ _ R), (aw_objects _ _ _ _ A2), (aw_objects _ _ _ _ A1). apply R0.
  - assert (k_lists k1 (LSender o) = k_lists k (LSender o)) as El by (by apply (aw_other _ _ _ _ A1)).
    rewrite El in A2. intros t Ht. assert (exists th, k_threads k2 !! t = Some th /\ awake th /\ th_error th = - RT_ERROR) as (th & Et & Ha & He).
    { destruct (decide (t ∈ k_lists k (LSender o))) as [Hi|Hn]; [by apply (aw_thread _ _ _ _ A2)|].
      apply elem_of_app in Ht as [Ht|]; [|done]. destruct (aw_thread _ _ _ _ A1 t Ht) as (th & Et & Ha & He).
      destruct (moved_awake _ _ (aw_threads _ _ _ _ A2 t Hn) _ Et Ha) as (th' & ? & ? & ? & _). exists th'. split_and!; [done|done|congruence]. }
    destruct (rescheduled_awake _ _ _ _ R Et Ha) as (th' & ? & ? & ?). exists th'. split_and!; [done|done|congruence].
Qed.

(** C37: A data queue is a bounded FIFO queue, as long as fewer than 65535 items
    have been pushed in all. [rt_data_queue_push] adds the item at the end and
    wakes the first consumer (or else reports it to [evt_notify]), and when the
    queue is full answers [-RT_ETIMEOUT] at time 0 or waits; [rt_data_queue_pop]
    takes the oldest item, and wakes the first producer once no more items than
    the low-water mark are left, or answers [-RT_ETIMEOUT] or waits;
    [rt_data_queue_peak] looks at the oldest item; [rt_data_queue_reset] lets
    all waiting threads go with an error and keeps the items. *)
Theorem rt_data_queue_refines k t th o q content item timeout :
  kwf k -> running k t th -> k_irq_nest k = 0 -> dq_ok k o q content -> timeout < HALF ->
  (dq_put_index q < 2 ^ 16 - 1 -> dq_pushes k t o q content item timeout) /\
  dq_pops k t o q content timeout /\
  rt_data_queue_peak o k = Some (match content with [] => (- RT_EEMPTY, None) | x :: _ => (RT_EOK, Some x) end, k) /\
  exists k', rt_data_queue_reset o k = Some (tt, k') /\ kwf k' /\ dq_ok k' o q content /\
    k_lists k' (LSuspend o) = [] /\ k_lists k' (LSender o) = [] /\
    forall w, w ∈ k_lists k (LSuspend o) ++ k_lists k (LSender o) ->
      exists wth, k_threads k' !! w = Some wth /\ awake wth /\ th_error wth = - RT_ERROR.
Proof.
  intros H Hr Hi Hok Ht. split_and!.
  - intros Hw. by eapply rt_data_queue_push_sim.
  - by eapply rt_data_queue_pop_sim.
  - by eapply rt_data_queue_peak_spec.
  - apply rt_data_queue_reset_spec; [done| |done]. destruct Hr as (-> & _). by eexists.
Qed.

(** A new queue is empty. *)
Lemma rt_data_queue_init_ok k o rt_malloc items size lwm notify :
  kwf k -> 0 < size < 2 ^ 16 -> rt_malloc (sizeof_data_item * size) = Some items -> Z.of_nat (length items) = size ->
  exists k', rt_data_queue_init o rt_malloc size lwm notify k = Some (RT_EOK, k') /\
    dq_ok k' o (DataQueue size lwm 0 0 items notify) [].
Proof.
  intros H Hs Em El. unfold rt_data_queue_init, put_dq, put_dipc, sizeof_data_item in *. munfold.
  rewrite (wrap_small 32) by (unfold in_range; lia). rewrite Em. eexists. split; [done|]. split.
  - apply k_dipc_put.
  - split; simpl; [|lia..|]; [unfold in_range; lia|done].
  - intros t. simpl. rewrite fn_lookup_insert. by intros ?%elem_of_nil.
  - intros t. simpl. rewrite fn_lookup_insert_ne, fn_lookup_insert by done. by intros ?%elem_of_nil.
Qed.

(** After 65536 items [put_index] starts again at 0 and the test for a full
    queue, an [int] difference, does not hold any more: the queue of two items
    takes a third one, and the oldest is lost. *)
Definition wrapped_queue : data_queue := DataQueue 2 1 65534 0 [DataItem 1 4; DataItem 2 4] false.
Example full_queue_takes_another :
  (exists k, rt_data_queue_push 9 (DataItem 3 4) 0 (demo_dipc {[ 9%nat := DevDataQueue wrapped_queue ]}) = Some (Returned (RT_EOK, None), k) /\
     rt_data_queue_peak 9 k = Some ((RT_EOK, Some (DataItem 3 4)), k)) /\
  rt_data_queue_push 9 (DataItem 3 4) 0 (demo_dipc {[ 9%nat := DevDataQueue (DataQueue 2 1 65532 65534 (dq_queue wrapped_queue) false) ]}) =
    Some (Returned (- RT_ETIMEOUT, None), demo_dipc {[ 9%nat := DevDataQueue (DataQueue 2 1 65532 65534 (dq_queue wrapped_queue) false) ]}).
Proof. split; [eexists; split|]; reflexivity. Qed.

(** Thread 2 waits for items of queue 7; queue 8 is full, with the item that
    wraps around in front. *)
Definition demo_dq_7 : data_queue := DataQueue 2 1 4 4 [DataItem 0 0; DataItem 0 0] true.
Definition demo_dq_8 : data_queue := DataQueue 2 1 3 5 [DataItem 20 4; DataItem 10 4] true.
Definition demo_dqs : kstate := demo_dipc {[ 7%nat := DevDataQueue demo_dq_7; 8%nat := DevDataQueue demo_dq_8 ]}.

Lemma demo_dq_ok_7 : dq_ok demo_dqs 7 demo_dq_7 [].
Proof. split; [done| |apply demo_dipc_clean..]. by split. Qed.
Lemma demo_dq_ok_8 : dq_ok demo_dqs 8 demo_dq_8 [DataItem 10 4; DataItem 20 4].
Proof. split; [done| |apply demo_dipc_clean..]. by split. Qed.

Lemma rt_data_queue_refines_witness :
  (exists k' th, rt_data_queue_push 7 (DataItem 30 4) 0 demo_dqs = Some (Returned (RT_EOK, None), k') /\
     k_threads k' !! 2%nat = Some th /\ awake th) /\
  (exists k', rt_data_queue_pop 8 0 demo_dqs = Some (Returned (RT_EOK, Some (DataItem 10 4), Some RT_DATAQUEUE_EVENT_LWM), k')) /\
  (exists k', rt_data_queue_push 8 (DataItem 30 4) (-1) demo_dqs = Some (Blocked (DqPushFrame 8 (DataItem 30 4) 0 (-1)), k')).
Proof.
  destruct (rt_data_queue_refines demo_dqs 0 (demo_thread RT_THREAD_RUNNING 10) 7 demo_dq_7 _ (DataItem 30 4) 0
    (demo_dipc_kwf _) demo_running eq_refl demo_dq_ok_7 ltac:(done)) as (P7 & _).
  destruct (rt_data_queue_refines demo_dqs 0 (demo_thread RT_THREAD_RUNNING 10) 8 demo_dq_8 _ (DataItem 30 4) 0
    (demo_dipc_kwf _) demo_running eq_refl demo_dq_ok_8 ltac:(done)) as (_ & (r & k8 & q & a & c & E8 & _ & Eq & _ & _ & R8) & _).
  destruct (rt_data_queue_refines demo_dqs 0 (demo_thread RT_THREAD_RUNNING 10) 8 demo_dq_8 _ (DataItem 30 4) (-1)
    (demo_dipc_kwf _) demo_running eq_refl demo_dq_ok_8 ltac:(done)) as (P8 & _).
  split_and!.
  - destruct (P7 ltac:(done)) as (r' & k' & q' & a' & c' & E & _ & Ea & _ & R). injection Ea as <- <-.
    destruct R as (-> & [_ W] & _). destruct (W 2%nat [] eq_refl) as (th & ? & ? & _). by exists k', th.
  - injection Eq as <- <-. destruct R8 as (_ & -> & _). by exists k8.
  - destruct (P8 ltac:(done)) as (r' & k' & q' & a' & c' & E & _ & Ea & _ & R). injection Ea as <- <-.
    destruct R as [-> _]. by exists k'.
Defined.

(** ** Wait queues: a flag that keeps a wake-up, and nodes *)

Lemma get_wqueue_eval k o q : k_dipc k !! o = Some (DevWqueue q) -> get_wqueue o k = Some (q, k).
Proof. intros E. unfold get_wqueue. munfold. by rewrite E. Qed.

Lemma filter_none n (l : list wqueue_node) : n ∉ wn_node <$> l -> filter (fun x => wn_node x <> n) l = l.
Proof.
  induction l as [|x l IH]; [done|]. intros [H1 H2]%not_elem_of_cons. rewrite filter_cons_True by congruence. by rewrite IH.
Qed.

Lemma k_dipc_removed k n o q : k_dipc k !! o = Some (DevWqueue q) ->
  k_dipc (with_dipc (fmap (without_node n)) k) !! o =
    Some (DevWqueue (Wqueue (wq_flag q) (filter (fun x => wn_node x <> n) (wq_waiting q)))).
Proof. intros E. simpl. by rewrite lookup_fmap, E. Qed.

(** Nobody waits, or nobody is to be woken: the flag is set for the next one
    that waits. *)
Lemma rt_wqueue_wakeup_flag user k o q key :
  k_dipc k !! o = Some (DevWqueue q) -> (forall x, x ∈ wq_waiting q -> call_wakeup user x key <> 0) ->
  rt_wqueue_wakeup user o key k = Some (tt, with_dipc (insert o (DevWqueue (Wqueue RT_WQ_FLAG_WAKEUP (wq_waiting q)))) k).
Proof.
  intros E Hn. unfold rt_wqueue_wakeup, put_wqueue, put_dipc. munfold. rewrite (get_wqueue_eval k o q E).
  assert (list_find (fun entry => call_wakeup user entry key = 0) (wq_waiting q) = None) as ->; [|done].
  apply list_find_None, Forall_forall. done.
Qed.

(** The first node that accepts the key is taken out of the queue and its thread
    becomes ready. *)
Lemma rt_wqueue_wakeup_first user k o q key l1 x l2 th :
  kwf k -> is_Some (k_current k) -> k_dipc k !! o = Some (DevWqueue q) -> wq_waiting q = l1 ++ x :: l2 ->
  NoDup (wn_node <$> wq_waiting q) -> (forall y, y ∈ l1 -> call_wakeup user y key <> 0) -> call_wakeup user x key = 0 ->
  k_threads k !! wn_polling_thread x = Some th -> stat_base th = RT_THREAD_SUSPEND ->
  exists k' th', rt_wqueue_wakeup user o key k = Some (tt, k') /\ kwf k' /\
    k_dipc k' !! o = Some (DevWqueue (Wqueue RT_WQ_FLAG_WAKEUP (l1 ++ l2))) /\
    k_threads k' !! wn_polling_thread x = Some th' /\ awake th' /\ th_error th' = th_error th.
Proof.
  intros H Hc E El Hnd Hn Hx Et Hs. unfold rt_wqueue_wakeup, put_wqueue, put_dipc. munfold. rewrite (get_wqueue_eval k o q E).
  set (k0 := with_dipc _ k). assert (kwf k0) as H0 by (by apply kwf_with_dipc).
  assert (list_find (fun entry => call_wakeup user entry key = 0) (wq_waiting q) = Some (length l1, x)) as ->.
  { apply list_find_Some. rewrite El. split; [by apply list_lookup_middle|]. split; [done|]. intros j y Ey Hj.
    apply Hn. rewrite lookup_app_l in Ey by done. by eapply list_elem_of_lookup_2. }
  set (t := wn_polling_thread x) in *. destruct (rt_thread_resume_spec k0 t th H0 Et Hs) as [Er Hk1]. rewrite Er.
  set (k1 := resumed t th k0) in *.
  assert (k_dipc k1 !! o = Some (DevWqueue (Wqueue RT_WQ_FLAG_WAKEUP (wq_waiting q)))) as E1.
  { assert (objects k1 = objects k0) as (_ & _ & _ & _ & _ & _ & ->)%objects_inj; [|apply k_dipc_put].
    unfold k1, resumed. by rewrite awakened_objects, timer_stopped_objects. }
  unfold rt_wqueue_remove, modify. set (k2 := with_dipc (fmap (without_node (wn_node x))) k1). assert (kwf k2) as Hk2 by (by apply kwf_with_dipc).
  destruct (timer_stopped_fields t (unlink t k0)) as (T1 & _ & _ & T4 & _).
  destruct (awakened_fields t th (timer_stopped t (unlink t k0))) as (_ & _ & _ & A4 & _ & _ & _ & A8 & _). fold (resumed t th k0) in A4, A8.
  destruct (rescheduled_schedule k2 (kwf_sched _ Hk2)) as (k3 & E3 & R).
  { change (k_current k2) with (k_current k1). unfold k1. rewrite A4, T4. done. }
  assert (exists th1, k_threads k2 !! t = Some th1 /\ awake th1 /\ th_error th1 = th_error th) as (th1 & Et1 & Ha & He).
  { eexists. split; [apply (A8 th); by rewrite T1|]. split; [apply put_stat_awake; case_decide; tauto|done]. }
  destruct (rescheduled_awake _ _ _ _ R Et1 Ha) as (th' & ? & ? & ?).
  exists k3, th'. split; [by rewrite E3|]. split; [by apply (rs_kwf _ _ R)|]. split; [|split_and!; [done|done|congruence]].
  destruct (objects_inj _ _ (rs_objects _ _ R)) as (_ & _ & _ & _ & _ & _ & ->). unfold k2. rewrite (k_dipc_removed _ _ _ _ E1). simpl.
  rewrite El, fmap_app, fmap_cons in *. apply NoDup_app in Hnd as (_ & Hd1 & [Hd2 _]%NoDup_cons).
  rewrite filter_app, filter_cons_False by tauto. rewrite !filter_none; [done|done|].
  intros Hin. apply (Hd1 _ Hin). left.
Qed.

(** The thread goes on: the flag is cleared and its node taken out. *)
Lemma wqueue_exit_eval k o q t : k_dipc k !! o = Some (DevWqueue q) ->
  exists k', wqueue_exit o t k = Some (0, k') /\ k_threads k' = k_threads k /\ (kwf k -> kwf k') /\
    k_dipc k' !! o = Some (DevWqueue (Wqueue 0 (filter (fun x => wn_node x <> WaitOf t) (wq_waiting q)))).
Proof.
  intros E. unfold wqueue_exit, put_wqueue, put_dipc, rt_wqueue_remove. munfold. rewrite (get_wqueue_eval k o q E).
  eexists. split; [done|]. split; [done|]. split; [intros H; by apply kwf_with_dipc, kwf_with_dipc|].
  apply (k_dipc_removed _ _ _ (Wqueue 0 (wq_waiting q))), k_dipc_put.
Qed.

(** What a wait does, for a time of [0 <= msec < HALF] or -1. *)
Definition wqueue_waits (k : kstate) (t : tid) (o : oid) (q : wqueue) (condition msec : Z) : Prop :=
  if decide (condition <> 0 \/ msec = 0) then rt_wqueue_wait o condition msec k = Some (Returned 0, k)
  else if decide (wq_flag q = RT_WQ_FLAG_WAKEUP) then
    exists k', rt_wqueue_wait o condition msec k = Some (Returned 0, k') /\ k_threads k' = k_threads k /\
      k_dipc k' !! o = Some (DevWqueue (Wqueue 0 (wq_waiting q)))
  else exists k', rt_wqueue_wait o condition msec k = Some (Blocked (WqueueFrame o t), k') /\ kwf k' /\
    k_dipc k' !! o = Some (DevWqueue (Wqueue (wq_flag q) (wq_waiting q ++ [WqueueNode (WaitOf t) t None]))) /\
    (exists th', k_threads k' !! t = Some th' /\ stat_base th' = RT_THREAD_SUSPEND) /\
    (0 < msec -> ThreadTimer t ∈ k_timer_list k' /\ due_key k' (ThreadTimer t) = msec).

(** A thread that suspends itself in no list, with a timer unless it is to wait
    for ever. *)
Lemma suspend_self_spec k t th ticks : kwf k -> running k t th -> 0 <= ticks < HALF \/ ticks = RT_WAITING_FOREVER ->
  exists k1 k', rt_thread_suspend t k = Some (RT_EOK, suspended t th k) /\
    when (bool_decide (ticks <> RT_WAITING_FOREVER)) (start_thread_timer t ticks) (suspended t th k) = Some (tt, k1) /\
    rt_schedule k1 = Some (tt, k') /\ kwf k' /\ objects k' = objects k /\
    (exists th', k_threads k' !! t = Some th' /\ stat_base th' = RT_THREAD_SUSPEND) /\
    (0 <= ticks -> ThreadTimer t ∈ k_timer_list k' /\ due_key k' (ThreadTimer t) = ticks).
Proof.
  intros H Hr Ht. pose proof Hr as (Hc & Et & Hs).
  destruct (rt_thread_suspend_spec k t th H Et) as [Es Hks]; [by right|].
  destruct (suspended_thread t th k Et) as (E1 & _ & Ec1 & Er1 & _).
  assert (exists k1, when (bool_decide (ticks <> RT_WAITING_FOREVER)) (start_thread_timer t ticks) (suspended t th k) = Some (tt, k1) /\
    kwf k1 /\ untimed k1 = untimed (suspended t th k) /\
    (0 <= ticks -> ThreadTimer t ∈ k_timer_list k1 /\ due_key k1 (ThreadTimer t) = ticks)) as (k1 & Ek1 & Hk1 & Hu & Hd).
  { unfold RT_WAITING_FOREVER in *. case_bool_decide as Hb.
    - destruct Ht as [Ht|]; [|done]. destruct (suspend_and_start k t th ticks H Hr Ht) as (k1 & ? & ? & ? & _ & ? & ? & _). by exists k1.
    - exists (suspended t th k). split; [done|]. split; [done|]. split; [done|]. lia. }
  destruct (untimed_inj _ _ Hu) as (U1 & _ & _ & U4 & _ & _ & U7 & U8 & U9 & U10 & U11 & U12 & U13 & U14).
  destruct (rescheduled_schedule k1 (kwf_sched _ Hk1)) as (k' & E' & R); [by rewrite U4, Ec1, Hc|].
  exists k1, k'. split; [done|]. split; [done|]. split; [done|]. split; [by apply (rs_kwf _ _ R)|]. split; [|split].
  - rewrite (rs_objects _ _ R). transitivity (objects (suspended t th k)); [unfold objects; congruence|by apply rest_objects].
  - assert (k_threads k1 !! t = Some (put_stat RT_THREAD_SUSPEND th)) as Et1 by (by rewrite U1).
    destruct (moved_base _ _ (rs_threads _ _ R t) _ Et1) as (s & Es' & Hs').
    eexists. split; [exact Es'|]. destruct Hs' as [->|[Ha _]]; [by autorewrite with kstat|].
    exfalso. apply awake_not_suspended in Ha as [Ha _]. apply Ha. by autorewrite with kstat.
  - intros Hz. destruct (rs_timers _ _ R) as [T1 T2]. rewrite T2. unfold due_key, timeout_of. rewrite T1, (rs_tick _ _ R). by apply Hd.
Qed.

Lemma msec_ticks msec : 0 <= msec < HALF \/ msec = RT_WAITING_FOREVER -> s32 (rt_tick_from_millisecond msec) = msec.
Proof.
  unfold HALF, RT_TICK_MAX, RT_WAITING_FOREVER. intros [H | ->]; [|by vm_compute].
  change (4294967295 / 2) with 2147483647 in H. rewrite from_millisecond_eval by lia. apply s32_small. lia.
Qed.

Lemma rt_wqueue_wait_sim k t th o q condition msec :
  kwf k -> running k t th -> k_irq_nest k = 0 -> k_dipc k !! o = Some (DevWqueue q) -> WaitOf t ∉ wn_node <$> wq_waiting q ->
  0 <= msec < HALF \/ msec = RT_WAITING_FOREVER -> wqueue_waits k t o q condition msec.
Proof.
  intros H Hr Hi E Hn Hm. pose proof Hr as (Hc & Et & Hs).
  unfold wqueue_waits, rt_wqueue_wait, RT_DEBUG_NOT_IN_INTERRUPT, rt_interrupt_get_nest, rt_thread_self, rt_assert.
  munfold. rewrite Hi, bool_decide_true, (msec_ticks msec Hm) by done. simpl. munfold.
  case_decide as H1; [done|]. rewrite Hc, (get_wqueue_eval k o q E). case_decide as H2.
  - destruct (wqueue_exit_eval k o q t E) as (k' & Ek & Eth & _ & Ed). rewrite filter_none in Ed by done. rewrite Ek. by exists k'.
  - unfold rt_wqueue_add, put_wqueue, put_dipc. munfold. rewrite (get_wqueue_eval k o q E).
    set (k0 := with_dipc _ k). assert (running k0 t th) as Hr0 by done.
    destruct (suspend_self_spec k0 t th msec (kwf_with_dipc _ _ H) Hr0 Hm) as (k1 & k' & E1 & E2 & E3 & H' & Ho & Hst & Htm).
    exists k'. split; [unfold when, mret, M_ret in E2; by rewrite E1, E2, E3|]. split; [done|].
    split; [destruct (objects_inj _ _ Ho) as (_ & _ & _ & _ & _ & _ & ->); apply k_dipc_put|]. split; [done|].
    intros Hp. apply Htm. lia.
Qed.

(** A wait queue does not lose a wake-up. [rt_wqueue_wait] returns 0 at
    once if the condition holds, at time 0, or if the wake-up flag is set, which
    it clears; otherwise its thread waits with a node at the end of the queue
    and its timer started. [rt_wqueue_wakeup] sets the flag, takes out the first
    node that accepts the key and makes its thread ready; if there is none, the
    next wait does not block. A thread that goes on takes its node out. *)
Theorem rt_wqueue_keeps_wakeups user k t th o q condition msec key :
  kwf k -> running k t th -> k_irq_nest k = 0 -> k_dipc k !! o = Some (DevWqueue q) ->
  NoDup (wn_node <$> wq_waiting q) -> WaitOf t ∉ wn_node <$> wq_waiting q ->
  0 <= msec < HALF \/ msec = RT_WAITING_FOREVER ->
  wqueue_waits k t o q condition msec /\
  ((forall x, x ∈ wq_waiting q -> call_wakeup user x key <> 0) ->
     exists k1 k2, rt_wqueue_wakeup user o key k = Some (tt, k1) /\ k_threads k1 = k_threads k /\
       rt_wqueue_wait o condition msec k1 = Some (Returned 0, k2) /\ k_threads k2 = k_threads k) /\
  (forall l1 x l2 xth, wq_waiting q = l1 ++ x :: l2 -> (forall y, y ∈ l1 -> call_wakeup user y key <> 0) ->
     call_wakeup user x key = 0 -> k_threads k !! wn_polling_thread x = Some xth -> stat_base xth = RT_THREAD_SUSPEND ->
     exists k' th', rt_wqueue_wakeup user o key k = Some (tt, k') /\ kwf k' /\
       k_dipc k' !! o = Some (DevWqueue (Wqueue RT_WQ_FLAG_WAKEUP (l1 ++ l2))) /\
       k_threads k' !! wn_polling_thread x = Some th' /\ awake th' /\ th_error th' = th_error xth) /\
  exists k', rt_wqueue_wait_resume (WqueueFrame o t) k = Some (0, k') /\
    k_dipc k' !! o = Some (DevWqueue (Wqueue 0 (wq_waiting q))).
Proof.
  intros H Hr Hi E Hnd Hn Hm. split; [by eapply rt_wqueue_wait_sim|]. split; [|split].
  - intros Hno. rewrite (rt_wqueue_wakeup_flag user k o q key E Hno). set (k1 := with_dipc _ k). exists k1.
    pose proof (rt_wqueue_wait_sim k1 t th o (Wqueue RT_WQ_FLAG_WAKEUP (wq_waiting q)) condition msec) as W.
    unfold wqueue_waits in W. simpl in W. case_decide.
    + exists k1. split; [done|]. split; [done|]. split; [|done]. apply W; try done; [by apply kwf_with_dipc|apply k_dipc_put].
    + destruct W as (k2 & E2 & Eth & _); try done; [by apply kwf_with_dipc|apply k_dipc_put|]. by exists k2.
  - intros l1 x l2 xth El Hl1 Hx Ex Hs. eapply rt_wqueue_wakeup_first; try done. destruct Hr as (-> & _). by eexists.
  - destruct (wqueue_exit_eval k o q t E) as (k' & Ek & _ & _ & Ed). exists k'. rewrite filter_none in Ed by done. done.
Qed.

(** Thread 2 waits on the queue 5, nobody on the queue 6. *)
Definition demo_wqueues : kstate := demo_dipc {[ 5%nat := DevWqueue (Wqueue 0 [WqueueNode (WaitOf 2) 2 None]); 6%nat := DevWqueue (Wqueue 0 []) ]}.

Lemma rt_wqueue_keeps_wakeups_witness :
  (exists k' th, rt_wqueue_wakeup (fun _ _ _ => 1) 5 0 demo_wqueues = Some (tt, k') /\ k_threads k' !! 2%nat = Some th /\ awake th) /\
  (exists k1 k2, rt_wqueue_wakeup (fun _ _ _ => 1) 6 0 demo_wqueues = Some (tt, k1) /\ rt_wqueue_wait 6 0 (-1) k1 = Some (Returned 0, k2)) /\
  (exists k', rt_wqueue_wait 6 0 5 demo_wqueues = Some (Blocked (WqueueFrame 6 0), k') /\ ThreadTimer 0 ∈ k_timer_list k').
Proof.
  set (n2 := WqueueNode (WaitOf 2) 2 None).
  destruct (rt_wqueue_keeps_wakeups (fun _ _ _ => 1) demo_wqueues 0 (demo_thread RT_THREAD_RUNNING 10) 5 (Wqueue 0 [n2]) 0 5 0
    (demo_dipc_kwf _) demo_running eq_refl eq_refl (NoDup_singleton _) ltac:(by intros ?%list_elem_of_singleton) ltac:(left; by vm_compute))
    as (_ & _ & W & _).
  destruct (rt_wqueue_keeps_wakeups (fun _ _ _ => 1) demo_wqueues 0 (demo_thread RT_THREAD_RUNNING 10) 6 (Wqueue 0 []) 0 (-1) 0
    (demo_dipc_kwf _) demo_running eq_refl eq_refl (NoDup_nil_2) ltac:(by intros ?%elem_of_nil) ltac:(by right))
    as (_ & F & _).
  destruct (rt_wqueue_keeps_wakeups (fun _ _ _ => 1) demo_wqueues 0 (demo_thread RT_THREAD_RUNNING 10) 6 (Wqueue 0 []) 0 5 0
    (demo_dipc_kwf _) demo_running eq_refl eq_refl (NoDup_nil_2) ltac:(by intros ?%elem_of_nil) ltac:(left; by vm_compute))
    as (B & _).
  split_and!.
  - destruct (W [] n2 [] (demo_thread RT_THREAD_SUSPEND 5) eq_refl ltac:(by intros ? ?%elem_of_nil) eq_refl eq_refl eq_refl)
      as (k' & th' & ? & _ & _ & ? & ? & _). by exists k', th'.
  - destruct (F ltac:(by intros ? ?%elem_of_nil)) as (k1 & k2 & ? & _ & ? & _). by exists k1, k2.
  - destruct B as (k' & ? & _ & _ & _ & T). destruct (T ltac:(done)) as [? _]. by exists k'.
Defined.
