(* ===== verification/Life.v ===== *)
(** * Life: the life of a thread

    What the operations of thread.c that begin and end a thread do to the kernel
    state: [rt_thread_init] and [rt_thread_create] make a thread, [rt_thread_startup]
    queues it, [rt_thread_exit], [rt_thread_delete] and [rt_thread_detach] close
    it.  A closed thread waits in [LDefunct] for the idle thread ([Idle]), unless
    it is static and has no cleanup function. *)

From S2P Require Import Kernel Sched Object Timer Thread Ipc Demo.

(** ** The invariants when a thread or a timer is added or removed *)

(** A thread that is in no list is registered, or its record is replaced. *)
Lemma wf_put_thread k t th :
  wf k -> (forall h, t ∉ k_lists k h) ->
  stat_base th <> RT_THREAD_READY -> stat_base th <> RT_THREAD_RUNNING ->
  0 <= th_current_priority th < RT_THREAD_PRIORITY_MAX ->
  (started th -> th_number_mask th = 2 ^ th_current_priority th) ->
  wf (with_threads (insert t th) k).
Proof.
  intros [[H1 H2 H3 H4 H5 H6 H7 H8] [C1 C2]] Hn Hr Hrun Hp Hm.
  assert (forall h s, s ∈ k_lists k h -> s <> t) as Hne by (intros h s Hin ->; by apply (Hn h)).
  split; split; try done; simpl.
  - intros h s Hin. rewrite lookup_insert_ne by (by eapply not_eq_sym, Hne). by apply H3.
  - intros p s sth Hin. rewrite lookup_insert_ne by (by eapply not_eq_sym, Hne). by apply H4.
  - intros s sth. rewrite lookup_insert. case_decide; [by intros [= <-]|apply H5].
  - intros s sth. rewrite lookup_insert. case_decide; [by intros [= <-]|apply H6].
  - intros c Ec. rewrite lookup_insert. case_decide; [eauto|by apply C1].
  - intros s sth. rewrite lookup_insert. case_decide; [by intros [= <-]|apply C2].
Qed.

(** A thread that is in no list and not current is forgotten. *)
Lemma wf_drop_thread k t : wf k -> (forall h, t ∉ k_lists k h) -> k_current k <> Some t -> wf (with_threads (delete t) k).
Proof.
  intros [[H1 H2 H3 H4 H5 H6 H7 H8] [C1 C2]] Hn Hc.
  assert (forall h s, s ∈ k_lists k h -> t <> s) as Hne by (intros h s Hin ->; by apply (Hn h)).
  split; split; try done; simpl.
  - intros h s Hin. rewrite lookup_delete_ne by (by eapply Hne). by apply H3.
  - intros p s sth Hin. rewrite lookup_delete_ne by (by eapply Hne). by apply H4.
  - intros s sth [_ ?]%lookup_delete_Some. by apply H5.
  - intros s sth [_ ?]%lookup_delete_Some. by apply (H6 s).
  - intros c Ec. rewrite lookup_delete_ne by congruence. by apply C1.
  - intros s sth [_ ?]%lookup_delete_Some. by apply (C2 s sth).
Qed.

(** Timers that are not in the list come and go freely. *)
Lemma timers_ok_put k i o : timers_ok k -> i ∉ k_timer_list k -> (forall tm, o = Some tm -> activated tm = false) ->
  timers_ok (with_timer (fun m => partial_alter (fun _ => o) i m) k).
Proof.
  intros [H1 H2 H3 H4] Hi Ho.
  assert (forall j, j ∈ k_timer_list k -> timeout_of (with_timer (fun m => partial_alter (fun _ => o) i m) k) j = timeout_of k j) as Et.
  { intros j Hj. unfold timeout_of. simpl. rewrite lookup_partial_alter_ne; [done|by intros ->]. }
  split; simpl; try done.
  - intros j. rewrite H2. destruct (decide (i = j)) as [<-|Hn]; [|by rewrite lookup_partial_alter_ne].
    rewrite lookup_partial_alter_eq. split; [intros Hx%H2; done|]. intros (tm & E & Ha). by rewrite (Ho tm E) in Ha.
  - intros j Hj. rewrite Et by done. by apply H3.
  - eapply sorted_ext; [|done]. intros j Hj. by rewrite Et.
Qed.

Lemma no_timer_listed k i : timers_ok k -> k_timer k !! i = None -> i ∉ k_timer_list k.
Proof. intros H E Hi. apply (to_active _ H) in Hi as (tm & E' & _). congruence. Qed.

(** ** Beginning: [rt_thread_init], [rt_thread_create], [rt_thread_startup] *)

(** The record that [_rt_thread_init] makes. *)
Definition new_thread (static : bool) (priority tick : Z) : thread :=
  Thread static true false RT_EOK RT_THREAD_INIT priority priority 0 0 0 tick tick.

(** The memory of thread [t] has not been used. *)
Definition unused (k : kstate) (t : tid) : Prop := k_threads k !! t = None /\ k_timer k !! ThreadTimer t = None.

Lemma timer_stopped_others k t s : s <> t ->
  k_timer (timer_stopped t k) !! ThreadTimer s = k_timer k !! ThreadTimer s.
Proof. intros Hn. unfold timer_stopped. repeat case_match; [|done..]. simpl. by rewrite lookup_partial_alter_ne by congruence. Qed.

(** The threads but [t] may have been rescheduled; no other thread has left or
    entered a wait list. *)
Record others_kept (k k' : kstate) (t : tid) : Prop := OthersKept {
  ok_kwf : kwf k';
  ok_threads s : s <> t -> thread_moved (k_threads k !! s) (k_threads k' !! s);
  ok_waits h : wait_head h -> k_lists k' h = lremove t (k_lists k h);
  ok_objects : objects k' = objects k;
  ok_current : is_Some (k_current k) -> is_Some (k_current k');
  ok_irq : k_irq_nest k' = k_irq_nest k;
  ok_tick : k_tick k' = k_tick k;
  ok_timers s : s <> t -> k_timer k' !! ThreadTimer s = k_timer k !! ThreadTimer s
}.

Lemma unused_in_no_list k t : kwf k -> unused k t -> forall h, t ∉ k_lists k h.
Proof. intros H [E _] h Hi. destruct (in_lists_thread _ _ _ _ (proj1 (kwf_sched _ H)) Hi) as [th E']. congruence. Qed.

Lemma unused_not_current k t : kwf k -> unused k t -> k_current k <> Some t.
Proof. intros H [E _] Ec. destruct (wf_cur _ (proj2 (kwf_sched _ H)) _ Ec) as (th & E' & _). congruence. Qed.

Lemma object_init_spec k (registered : kstate -> bool) :
  wf k -> (forall f, registered (with_lock_nest f k) = false) ->
  exists k', rt_object_init registered k = Some (tt, k') /\ rescheduled k k'.
Proof.
  intros H Hr. unfold rt_object_init, rt_enter_critical, rt_assert. munfold. rewrite Hr. simpl.
  set (k1 := with_lock_nest _ k). assert (rescheduled k k1) as H1 by (by apply rescheduled_lock).
  destruct (rescheduled_exit k1) as (k2 & E & H2); [apply H1|]. exists k2. split; [done|]. by eapply rescheduled_trans.
Qed.

Lemma rescheduled_unused k k' t : rescheduled k k' -> unused k t -> unused k' t.
Proof.
  intros R [E1 E2]. split; [|by destruct (rs_timers _ _ R) as [-> _]].
  pose proof (rs_threads _ _ R t) as [Hm|(th & s & Hm & _)]; congruence.
Qed.

Lemma rescheduled_others k k' t : kwf k -> rescheduled k k' -> (forall h, t ∉ k_lists k h) -> others_kept k k' t.
Proof.
  intros H R Hn. split; try apply R; [by apply (rs_kwf k)| | |by intros; destruct (rs_timers _ _ R) as [-> _]].
  - intros s _. apply R.
  - intros h Hh. rewrite (rs_waits _ _ R) by (by apply wait_not_ready). symmetry. by apply lremove_notin.
Qed.

Definition new_thread_timer (t : tid) : timer := Timer true (deactivate RT_TIMER_FLAG_ONE_SHOT) 0 0 (TF_thread_timeout t).

Lemma new_thread_not_moved (k k' : kstate) t static priority tick : rescheduled k k' ->
  k_threads k !! t = Some (new_thread static priority tick) -> k_threads k' !! t = Some (new_thread static priority tick).
Proof.
  intros R E. destruct (rs_threads _ _ R t) as [->|(th & s & E' & _ & Ha & _)]; [done|].
  rewrite E in E'. injection E' as <-. by destruct Ha.
Qed.

(** The thread is registered between its timer and its record: the kernel
    invariant holds again once both are there. *)
Lemma registered_kwf k k2 t static priority tick :
  kwf k -> unused k t -> rescheduled (with_threads (insert t (new_thread static priority tick)) k) k2 ->
  kwf (with_timer (insert (ThreadTimer t) (new_thread_timer t)) k2).
Proof.
  intros H [Eth Etm] R. destruct (rs_timers _ _ R) as [T1 T2].
  assert (k_threads k2 !! t = Some (new_thread static priority tick)) as Et
    by (eapply new_thread_not_moved; [done|apply lookup_insert_eq]).
  assert (forall s, s <> t -> thread_moved (k_threads k !! s) (k_threads k2 !! s)) as Hm.
  { intros s Hn. pose proof (rs_threads _ _ R s) as Hm. simpl in Hm. by rewrite lookup_insert_ne in Hm. }
  assert (timers_ok k2) as Ht2 by (apply (timers_ok_ext k); [done|done|apply R|apply H]).
  split.
  - apply (wf_ext k2); [done..|apply R].
  - apply (timers_ok_put k2 (ThreadTimer t) (Some (new_thread_timer t)) Ht2).
    + apply no_timer_listed; [done|]. by rewrite T1.
    + by intros tm [= <-].
  - simpl. rewrite (rs_tick _ _ R). apply H.
  - simpl. intros s sth E Hn. destruct (decide (s = t)) as [->|Hst].
    + rewrite Et in E. injection E as <-. rewrite lookup_insert_eq. split; [done|]. eexists. split; [done|]. done.
    + rewrite lookup_insert_ne, T1 by congruence. destruct (moved_back _ _ (Hm s Hst) _ E) as (th0 & E0 & Eth0 & Hs).
      destruct (kwf_attached _ H s th0 E0) as [Ha Htm]; [|by rewrite Eth0].
      destruct Hs as [Hs|[Hs _]]; [by rewrite <- Hs|by apply awake_not_suspended].
  - simpl. rewrite T2. simpl. intros s Hin. destruct (kwf_suspended _ H s Hin) as (th & E & Hs).
    assert (s <> t) as Hst by (intros ->; congruence). destruct (moved_base _ _ (Hm s Hst) _ E) as (st & E' & [Hs'|[Ha _]]).
    + exists (with_stat st th). split; [done|congruence].
    + apply awake_not_suspended in Ha as []. congruence.
Qed.

(** What making a thread does. *)
Definition thread_made (k : kstate) (t : tid) (static : bool) (priority tick : Z) (k' : kstate) : Prop :=
  others_kept k k' t /\ k_threads k' !! t = Some (new_thread static priority tick) /\
  k_timer k' !! ThreadTimer t = Some (new_thread_timer t) /\ k_current k' <> Some t /\ (k_current k = None -> k_current k' = None /\ k_lists k' = k_lists k).

Lemma thread_init_spec k t static priority tick :
  kwf k -> unused k t -> 0 <= priority < RT_THREAD_PRIORITY_MAX ->
  exists k', _rt_thread_init static t priority tick k = Some (RT_EOK, k') /\ thread_made k t static priority tick k'.
Proof.
  intros H Hu Hp. pose proof Hu as [Eth Etm]. pose proof (unused_in_no_list k t H Hu) as Hnl.
  unfold _rt_thread_init, rt_timer_init, _rt_timer_init, put_timer, rt_assert. munfold.
  rewrite bool_decide_true by apply Hp. simpl.
  assert ((if static then k_threads k !! t else None) = None) as -> by (by destruct static). simpl.
  fold (new_thread static priority tick). set (k1 := with_threads (insert t (new_thread static priority tick)) k).
  assert (wf k1) as Hw1.
  { apply wf_put_thread; [apply H|done|done|done|apply Hp|by intros []]. }
  destruct (object_init_spec k1 (fun k => bool_decide (is_Some (k_timer k !! ThreadTimer t))) Hw1) as (k2 & E2 & R).
  { intros f. apply bool_decide_false. simpl. rewrite Etm. by intros []. }
  rewrite E2. fold (new_thread_timer t). eexists. split; [done|].
  pose proof (registered_kwf k k2 t static priority tick H Hu R) as Hk.
  assert (k_threads k2 !! t = Some (new_thread static priority tick)) as Et
    by (eapply new_thread_not_moved; [done|apply lookup_insert_eq]).
  split; [|split; [|split; [|split]]].
  - split; try done; try apply R.
    + intros s Hn. pose proof (rs_threads _ _ R s) as Hm. simpl in Hm. by rewrite lookup_insert_ne in Hm.
    + intros h Hh. simpl. rewrite (rs_waits _ _ R) by (by apply wait_not_ready). simpl. symmetry. by apply lremove_notin.
    + intros s Hn. simpl. rewrite lookup_insert_ne by congruence. by destruct (rs_timers _ _ R) as [-> _].
  - done.
  - apply lookup_insert_eq.
  - intros Hc. destruct (rs_who _ _ R t Hc) as [Hc1|(cth & Ec & Ha)]; [by apply (unused_not_current k t)|].
    rewrite Et in Ec. injection Ec as <-. by destruct Ha.
  - intros Hc. destruct (rs_boot _ _ R Hc) as (? & _ & ?). done.
Qed.

Lemma rt_thread_init_spec k t priority tick :
  kwf k -> unused k t -> 0 <= priority < RT_THREAD_PRIORITY_MAX ->
  exists k', rt_thread_init t priority tick k = Some (RT_EOK, k') /\ thread_made k t true priority tick k'.
Proof.
  intros H Hu Hp. unfold rt_thread_init. munfold.
  destruct (object_init_spec k (fun k => from_option th_attached false (k_threads k !! t))) as (k1 & E1 & R).
  { apply H. } { intros f. simpl. by rewrite (proj1 Hu). }
  rewrite E1. pose proof (rs_kwf _ _ R H) as H1. pose proof (rescheduled_unused _ _ _ R Hu) as Hu1.
  destruct (thread_init_spec k1 t true priority tick H1 Hu1 Hp) as (k2 & E2 & [O1 O2 O3 O4 O5 O6 O7 O8] & M2 & M3 & MC & M4).
  exists k2. split; [done|]. split; [|split; [done|split; [done|split; [done|]]]].
  - split; try done; [| |by rewrite O4; apply R| |by rewrite O6; apply R|by rewrite O7; apply R|].
    + intros s Hn. eapply thread_moved_trans; [apply (rs_threads _ _ R)|by apply O2].
    + intros h Hh. rewrite O3 by done. by rewrite (rs_waits _ _ R) by (by apply wait_not_ready).
    + intros Hc. by apply O5, R.
    + intros s Hn. rewrite O8 by done. by destruct (rs_timers _ _ R) as [-> _].
  - intros Hc. destruct (rs_boot _ _ R Hc) as (Hc1 & _ & El1). destruct (M4 Hc1) as [? El2]. split; [done|congruence].
Qed.

Lemma rt_thread_create_spec k t priority tick :
  kwf k -> unused k t -> 0 <= priority < RT_THREAD_PRIORITY_MAX -> k_irq_nest k = 0 ->
  exists k', rt_thread_create (Some t) true priority tick k = Some (Some t, k') /\ thread_made k t false priority tick k'.
Proof.
  intros H Hu Hp Hi. destruct (thread_init_spec k t false priority tick H Hu Hp) as (k' & E & M). exists k'. split; [|done].
  unfold rt_thread_create, rt_object_allocate, RT_DEBUG_NOT_IN_INTERRUPT, rt_interrupt_get_nest, rt_assert. munfold.
  rewrite Hi, bool_decide_true by done. simpl. by rewrite E.
Qed.

Lemma upd_thread_put k t th f : k_threads k !! t = Some th -> upd_thread t f k = with_threads (insert t (f th)) k.
Proof. intros E. unfold upd_thread, with_threads. f_equal. apply map_eq. intros s. rewrite lookup_alter, lookup_insert. case_decide; [by rewrite E|done]. Qed.

(** The record that [rt_thread_startup] hands to [rt_thread_resume]. *)
Definition startable (th : thread) : thread :=
  with_stat RT_THREAD_SUSPEND (with_priority (th_init_priority th) (2 ^ th_init_priority th) th).

Lemma startable_kwf k t th :
  kwf k -> k_threads k !! t = Some th -> stat_base th = RT_THREAD_INIT -> k_current k <> Some t ->
  0 <= th_init_priority th < RT_THREAD_PRIORITY_MAX -> kwf (with_threads (insert t (startable th)) k).
Proof.
  intros H E Hs Hc Hp.
  assert (forall h, t ∉ k_lists k h) as Hnl.
  { intros h Hi. destruct (wf_stat _ _ (proj1 (kwf_sched _ H)) h t Hi) as (_ & th' & E' & Hs'). simplify_eq. rewrite Hs in Hs'. by destruct h. }
  split; [by apply wf_put_thread; [apply H|..]|by apply (timers_ok_ext k), H|apply H| |].
  - intros s sth. simpl. rewrite lookup_insert. case_decide; [|apply H]. subst. intros [= <-] _.
    destruct (kwf_attached _ H s th E) as [Ha Htm]; [by rewrite Hs|]. done.
  - intros s Hin. simpl. destruct (kwf_suspended _ H s Hin) as (sth & Es & Hss). rewrite lookup_insert_ne; [eauto|].
    intros ->. simplify_eq. rewrite Hs in Hss. done.
Qed.

Lemma startup_eval k t th :
  kwf k -> k_threads k !! t = Some th -> stat_base th = RT_THREAD_INIT -> k_current k <> Some t ->
  0 <= th_init_priority th < RT_THREAD_PRIORITY_MAX ->
  let k2 := resumed t (startable th) (with_threads (insert t (startable th)) k) in
  kwf k2 /\ rt_thread_startup t k = (cur ← rt_thread_self; when (bool_decide (is_Some cur)) rt_schedule;; mret RT_EOK) k2.
Proof.
  intros H E Hs Hc Hp. pose proof (startable_kwf k t th H E Hs Hc Hp) as H1. set (k1 := with_threads (insert t (startable th)) k) in *.
  destruct (kwf_attached _ H t th E) as [Ha _]; [by rewrite Hs|].
  assert (k_threads k1 !! t = Some (startable th)) as E1 by apply lookup_insert_eq.
  destruct (rt_thread_resume_spec k1 t (startable th) H1 E1 eq_refl) as [Er Hk2]. split; [done|].
  unfold rt_thread_startup, rt_assert, rt_thread_self. munfold. rewrite E, Hs, bool_decide_true, Ha by done. simpl. rewrite E.
  fold (upd_thread t (with_priority (th_init_priority th) (number_mask (th_init_priority th))) k).
  rewrite (number_mask_pow _ Hp), (upd_thread_put k t th) by done. simpl. rewrite lookup_insert_eq.
  assert (with_threads (alter (with_stat RT_THREAD_SUSPEND) t)
    (with_threads (insert t (with_priority (th_init_priority th) (2 ^ th_init_priority th) th)) k) = k1) as ->; [|by rewrite Er].
  unfold k1, with_threads. simpl. f_equal. by rewrite alter_insert_eq.
Qed.

(** What starting a thread does: it is ready at its initial priority, behind the
    others there, and runs at once if it is the highest. *)
Definition thread_started (k : kstate) (t : tid) (th : thread) (k' : kstate) : Prop :=
  others_kept k k' t /\
  (exists s, k_threads k' !! t = Some (with_stat s (startable th)) /\ awake (with_stat s (startable th))) /\
  (k_current k = None -> k_current k' = None /\
     forall h, k_lists k' h = if decide (h = LReady (th_init_priority th)) then k_lists k h ++ [t] else k_lists k h).

Lemma rt_thread_startup_spec k t th :
  kwf k -> k_threads k !! t = Some th -> stat_base th = RT_THREAD_INIT -> k_current k <> Some t ->
  0 <= th_init_priority th < RT_THREAD_PRIORITY_MAX ->
  exists k', rt_thread_startup t k = Some (RT_EOK, k') /\ thread_started k t th k'.
Proof.
  intros H E Hs Hc Hp. destruct (startup_eval k t th H E Hs Hc Hp) as [Hk2 Eq]. set (k1 := with_threads (insert t (startable th)) k) in *.
  set (k2 := resumed t (startable th) k1) in *. rewrite Eq. unfold rt_thread_self.
  destruct (timer_stopped_fields t (unlink t k1)) as (T1 & T2 & _ & T4 & T5 & _ & T7).
  destruct (awakened_fields t (startable th) (timer_stopped t (unlink t k1))) as (_ & _ & A3 & A4 & _ & A6 & A7 & A8 & A9).
  fold (resumed t (startable th) k1) in A3, A4, A6, A7, A8, A9. fold k2 in A3, A4, A6, A7, A8, A9.
  assert (k_current k2 = k_current k) as Ec2 by (by rewrite A4, T4).
  destruct (rescheduled_if_running k2 (kwf_sched _ Hk2)) as (k' & E' & R & Hboot). rewrite Ec2 in Hboot. munfold.
  exists k'. split; [by rewrite E'|].
  assert (k_threads k2 !! t = Some (put_stat RT_THREAD_READY (startable th))) as E2.
  { rewrite (A8 (startable th)); [|rewrite T1; apply lookup_insert_eq]. rewrite decide_False; [done|]. rewrite T4. exact Hc. }
  split; [|split].
  - split; [by apply (rs_kwf _ _ R)| | | |intros Hs'; apply R; by rewrite Ec2| | |].
    + intros s Hn. eapply thread_moved_trans; [|apply (rs_threads _ _ R)]. rewrite A7, T1 by done. simpl.
      rewrite lookup_insert_ne by done. by left.
    + intros h Hh. rewrite (rs_waits _ _ R), A9, decide_False, T2 by (by apply wait_not_ready || by intros [_ ->]). done.
    + rewrite (rs_objects _ _ R). unfold k2, resumed. by rewrite awakened_objects, timer_stopped_objects.
    + rewrite (rs_irq _ _ R), A6, T7. done.
    + rewrite (rs_tick _ _ R), A3, T5. done.
    + intros s Hn. rewrite (proj1 (rs_timers _ _ R)). unfold k2, resumed. rewrite (proj1 (awakened_fields _ _ _)). by rewrite timer_stopped_others.
  - destruct (moved_base _ _ (rs_threads _ _ R t) _ E2) as (s & Es & Hst). exists s. split; [exact Es|].
    destruct Hst as [Hst|[_ Hst]]; [|exact Hst]. left. change (with_stat s (startable th)) with (with_stat s (put_stat RT_THREAD_READY (startable th))).
    rewrite Hst. by autorewrite with kstat.
  - intros Hn. rewrite (Hboot Hn). split; [congruence|]. intros h. rewrite A9, T2, T4. simpl.
    assert (forall l, t ∉ l -> lremove t l = l) as Hl by (intros; by apply lremove_notin).
    assert (t ∉ k_lists k h) as Hi.
    { intros Hi. destruct (wf_stat _ _ (proj1 (kwf_sched _ H)) h t Hi) as (_ & th' & Et' & Hs'). simplify_eq. rewrite Hs in Hs'. by destruct h. }
    rewrite Hl by done. repeat case_decide; naive_solver.
Qed.

(** ** Ending: [rt_thread_exit], [rt_thread_detach], [rt_thread_delete] *)

(** Out of every list; a thread that has not been started is in none. *)
Definition taken_out (t : tid) (th : thread) (k : kstate) : kstate :=
  if decide (stat_base th = RT_THREAD_INIT) then k else remove_ready t th k.

(** Closed, and its timer gone. *)
Definition closed (t : tid) (th : thread) (k : kstate) : kstate :=
  tm_unlink (ThreadTimer t) None (upd_thread t (with_stat RT_THREAD_CLOSE) (taken_out t th k)).

Lemma in_list_stat k h t th : kwf k -> t ∈ k_lists k h -> k_threads k !! t = Some th -> stat_base th = head_stat h.
Proof. intros H Hi E. destruct (wf_stat _ _ (proj1 (kwf_sched _ H)) h t Hi) as (_ & th' & E' & Hs). by simplify_eq. Qed.

Lemma taken_out_fields t th k : kwf k -> k_threads k !! t = Some th -> stat_base th <> RT_THREAD_CLOSE ->
  wf_lists {[t]} (taken_out t th k) /\ k_threads (taken_out t th k) = k_threads k /\ k_current (taken_out t th k) = k_current k /\
  k_timer (taken_out t th k) = k_timer k /\ k_timer_list (taken_out t th k) = k_timer_list k /\
  k_tick (taken_out t th k) = k_tick k /\ k_irq_nest (taken_out t th k) = k_irq_nest k /\
  objects (taken_out t th k) = objects k /\ forall h, k_lists (taken_out t th k) h = lremove t (k_lists k h).
Proof.
  intros H E Hc. pose proof (proj1 (kwf_sched _ H)) as Hl. unfold taken_out. case_decide as Hs.
  - assert (forall h, t ∉ k_lists k h) as Hn.
    { intros h Hi. pose proof (in_list_stat k h t th H Hi E) as Hh. rewrite Hs in Hh. by destruct h. }
    split_and!; try done; [|intros h; symmetry; by apply lremove_notin].
    rewrite <- (union_empty_r_L {[t]}). by apply wf_loosen.
  - destruct (remove_ready_fields t th k) as (F1 & F2 & F3 & F4 & F5 & _ & F7 & F8). split_and!; try done.
    + rewrite <- (union_empty_r_L {[t]}). apply wf_remove; [done..|]. by apply (wf_prio _ _ Hl _ _ E).
    + apply rest_objects, remove_ready_rest.
Qed.

Lemma closed_kwf k t th : kwf k -> k_threads k !! t = Some th -> stat_base th <> RT_THREAD_CLOSE -> kwf (closed t th k).
Proof.
  intros H E Hn. destruct (taken_out_fields t th k H E Hn) as (Hl & F1 & F2 & F3 & F4 & F5 & _).
  pose proof (kwf_sched _ H) as [Hl0 [C1 C2]].
  assert (timers_ok (taken_out t th k)) as Ht by (by apply (timers_ok_ext k), H). unfold closed.
  set (k1 := upd_thread t (with_stat RT_THREAD_CLOSE) (taken_out t th k)).
  assert (forall s, k_threads k1 !! s = if decide (t = s) then Some (with_stat RT_THREAD_CLOSE th) else k_threads k !! s) as El.
  { intros s. unfold k1. rewrite upd_thread_lookup, F1. case_decide; [by rewrite E|done]. }
  split.
  - apply (wf_ext k1); [done..|]. split.
    + eapply (wf_settle ∅ t).
      * rewrite union_empty_r_L. apply wf_upd_loose; [done|set_solver|]. rewrite F1. intros th' E'. simplify_eq.
        destruct (wf_prio _ _ Hl0 _ _ E) as [Hp _]. split; [done|]. by intros [].
      * intros th'. rewrite El, decide_True by done. by intros [= <-].
    + split.
      * intros c Ec. change (k_current k1) with (k_current (taken_out t th k)) in Ec. rewrite F2 in Ec.
        destruct (C1 c Ec) as (cth & Ecth & Hc). rewrite El. case_decide; [|eauto]. eexists. by split.
      * intros s sth. rewrite El. change (k_current k1) with (k_current (taken_out t th k)). rewrite F2. case_decide; [by intros [= <-]|apply C2].
  - apply tm_unlink_ok; [by apply (timers_ok_ext (taken_out t th k))|done].
  - simpl. rewrite F5. apply H.
  - intros s sth. change (k_threads (tm_unlink _ _ _)) with (k_threads k1). rewrite El. simpl. rewrite F3. case_decide as Hd; [by intros [= <-]|].
    intros Es Hs. rewrite lookup_partial_alter_ne by congruence. by apply H.
  - simpl. rewrite F4. intros s [Hs Hi]%elem_of_lremove. change (alter _ _ _) with (k_threads k1).
    rewrite El, decide_False by congruence. by apply H.
Qed.

(** After [retire]: queued for the idle thread, or forgotten. *)
Definition retired (t : tid) (th : thread) (k : kstate) : kstate :=
  if th_static th && negb (th_cleanup th) then upd_thread t (with_attached false) k
  else in_wait LDefunct (t :: k_lists k LDefunct) k.

(** What ending a thread does. *)
Record thread_ended (k : kstate) (t : tid) (th : thread) (k' : kstate) : Prop := ThreadEnded {
  te_others : others_kept k k' t;
  te_closed : exists th', k_threads k' !! t = Some th' /\ stat_base th' = RT_THREAD_CLOSE /\
    th_static th' = th_static th /\ th_cleanup th' = th_cleanup th /\
    th_attached th' = (th_attached th && negb (th_static th && negb (th_cleanup th)));
  te_timer : k_timer k' !! ThreadTimer t = None /\ ThreadTimer t ∉ k_timer_list k';
  te_defunct : k_lists k' LDefunct =
    if th_static th && negb (th_cleanup th) then k_lists k LDefunct else t :: k_lists k LDefunct
}.

Lemma upd_closed_fields t th k : kwf k -> k_threads k !! t = Some th -> stat_base th <> RT_THREAD_CLOSE ->
  k_threads (closed t th k) !! t = Some (with_stat RT_THREAD_CLOSE th) /\
  (forall s, s <> t -> k_threads (closed t th k) !! s = k_threads k !! s) /\
  k_lists (closed t th k) LDefunct = k_lists k LDefunct /\ (forall h, t ∉ k_lists (closed t th k) h).
Proof.
  intros H E Hn. destruct (taken_out_fields t th k H E Hn) as (_ & F1 & _ & _ & _ & _ & _ & _ & F8). unfold closed.
  change (k_threads (tm_unlink _ _ _)) with (k_threads (upd_thread t (with_stat RT_THREAD_CLOSE) (taken_out t th k))).
  change (k_lists (tm_unlink _ _ _)) with (k_lists (taken_out t th k)). split_and!.
  - by rewrite upd_thread_lookup, decide_True, F1, E.
  - intros s Hs. by rewrite upd_thread_lookup, decide_False, F1.
  - rewrite F8. apply lremove_notin. intros Hi. by pose proof (in_list_stat k LDefunct t th H Hi E).
  - intros h. rewrite F8, elem_of_lremove. tauto.
Qed.

Lemma kwf_put_closed k t th : kwf k -> (forall h, t ∉ k_lists k h) -> ThreadTimer t ∉ k_timer_list k ->
  stat_base th = RT_THREAD_CLOSE -> 0 <= th_current_priority th < RT_THREAD_PRIORITY_MAX -> kwf (with_threads (insert t th) k).
Proof.
  intros H Hn Ht Hs Hp.
  split; [apply wf_put_thread; try done; [apply H|by rewrite Hs..|by intros [_ ?]]|by apply (timers_ok_ext k), H|apply H| |].
  - intros s sth. simpl. rewrite lookup_insert. case_decide; [by intros [= <-]|apply H].
  - intros s Hin. simpl. destruct (kwf_suspended _ H s Hin) as (sth & Es & Hss). rewrite lookup_insert_ne; [eauto|]. by intros ->.
Qed.

Lemma forgotten_kwf k t th : kwf k -> k_threads k !! t = Some th -> stat_base th = RT_THREAD_CLOSE ->
  (forall h, t ∉ k_lists k h) -> kwf (upd_thread t (with_attached false) k).
Proof.
  intros H E Hs Hn. rewrite (upd_thread_put k t th) by done. destruct (wf_prio _ _ (proj1 (kwf_sched _ H)) _ _ E) as [Hp _].
  apply kwf_put_closed; try done. intros Hin. destruct (kwf_suspended _ H t Hin) as (sth & Es & Hss). simplify_eq. by rewrite Hs in Hss.
Qed.

Lemma retired_ended k t th : kwf k -> k_threads k !! t = Some th -> stat_base th <> RT_THREAD_CLOSE ->
  thread_ended k t th (retired t th (closed t th k)).
Proof.
  intros H E Hn. pose proof (closed_kwf k t th H E Hn) as Hk. destruct (upd_closed_fields t th k H E Hn) as (C1 & C2 & C3 & C4).
  destruct (taken_out_fields t th k H E Hn) as (_ & _ & F2 & F3 & F4 & F5 & F6 & F7 & F8).
  set (kc := closed t th k) in *.
  assert (forall h, k_lists kc h = lremove t (k_lists k h)) as Fl by exact F8.
  assert (k_current kc = k_current k) as Fc by exact F2.
  assert (k_timer kc !! ThreadTimer t = None) as Fm by apply lookup_delete_eq.
  pose proof (no_timer_listed kc (ThreadTimer t) (kwf_timers _ Hk) Fm) as Fn.
  assert (others_kept k kc t) as Ok.
  { split; [done| |by intros|exact F7|by rewrite Fc|exact F6|exact F5|].
    - intros s Hs. rewrite C2 by done. by left.
    - intros s Hs. simpl. rewrite lookup_partial_alter_ne by congruence. simpl. by rewrite F3. }
  clear F2 F3 F4 F5 F6 F7 F8. clearbody kc.
  unfold retired. destruct (th_static th && negb (th_cleanup th)) eqn:Er; rewrite <- ?Er.
  - split; rewrite ?Er; [destruct Ok; split; try done| |done|done].
    + by eapply forgotten_kwf.
    + intros s Hs. rewrite upd_thread_lookup, decide_False by done. auto.
    + exists (with_attached false (with_stat RT_THREAD_CLOSE th)). rewrite upd_thread_lookup, decide_True, C1 by done.
      by rewrite andb_false_r.
  - split; rewrite ?Er; [destruct Ok; split; try done| |done|by rewrite in_wait_lists, decide_True, C3].
    + by apply (kwf_in_list kc t (with_stat RT_THREAD_CLOSE th)); try done; rewrite C3.
    + intros h Hh. rewrite in_wait_lists, decide_False by (by intros ->). auto.
    + exists (with_stat RT_THREAD_CLOSE th). by rewrite andb_true_r.
Qed.

(** The part all three share, from [rt_schedule_remove_thread] on. *)
Lemma timer_detach_eval i tm k : k_timer k !! i = Some tm -> tm_static tm = true ->
  rt_timer_detach i k = Some (RT_EOK, tm_unlink i None k).
Proof. intros E Hs. unfold rt_timer_detach, get_timer, _rt_timer_remove, rt_assert. munfold. by rewrite E, Hs. Qed.

Lemma timer_detach_closed k t th : kwf k -> k_threads k !! t = Some th -> stat_base th <> RT_THREAD_CLOSE ->
  rt_timer_detach (ThreadTimer t) (taken_out t th k) = Some (RT_EOK, tm_unlink (ThreadTimer t) None (taken_out t th k)) /\
  rt_timer_detach (ThreadTimer t) (upd_thread t (with_stat RT_THREAD_CLOSE) (taken_out t th k)) = Some (RT_EOK, closed t th k).
Proof.
  intros H E Hn. destruct (taken_out_fields t th k H E Hn) as (_ & _ & _ & F3 & _).
  destruct (kwf_attached _ H t th E Hn) as (_ & tm & Etm & _ & _ & Hs).
  split; apply (timer_detach_eval _ tm); try done; simpl; by rewrite F3.
Qed.

Lemma remove_if_started k t th : kwf k -> k_threads k !! t = Some th ->
  when (bool_decide (stat_base th <> RT_THREAD_INIT)) (rt_schedule_remove_thread t) k = Some (tt, taken_out t th k).
Proof.
  intros H E. unfold taken_out. case_bool_decide as Hb; case_decide; try done. by apply remove_thread_eval.
Qed.

Lemma retire_eval k t th : kwf k -> k_threads k !! t = Some th -> stat_base th <> RT_THREAD_CLOSE ->
  retire t th (closed t th k) = Some (tt, retired t th (closed t th k)).
Proof.
  intros H E Hn. destruct (upd_closed_fields t th k H E Hn) as (C1 & _). unfold retire, retired, rt_object_detach_thread.
  destruct (th_static th && negb (th_cleanup th)); [by apply (set_thread_eval _ _ _ _ C1)|done].
Qed.

Lemma rt_thread_detach_spec k t th :
  kwf k -> k_threads k !! t = Some th -> stat_base th <> RT_THREAD_CLOSE -> th_static th = true ->
  exists k', rt_thread_detach t k = Some (RT_EOK, k') /\ thread_ended k t th k'.
Proof.
  intros H E Hn Hs. exists (retired t th (closed t th k)). split; [|by apply retired_ended].
  destruct (kwf_attached _ H t th E Hn) as [Ha _]. destruct (taken_out_fields t th k H E Hn) as (_ & F1 & _).
  pose proof (remove_if_started k t th H E) as Er. pose proof (proj1 (timer_detach_closed k t th H E Hn)) as Ed.
  pose proof (retire_eval k t th H E Hn) as Et. unfold rt_thread_detach, check_thread, rt_assert. munfold. rewrite E, Ha. simpl. rewrite Hs. simpl.
  rewrite Er, Ed. simpl. rewrite F1, E. change (with_threads _ (tm_unlink _ _ _)) with (closed t th k). by rewrite Et.
Qed.

Lemma rt_thread_delete_spec k t th :
  kwf k -> k_threads k !! t = Some th -> stat_base th <> RT_THREAD_CLOSE -> th_static th = false ->
  exists k', rt_thread_delete t k = Some (RT_EOK, k') /\ thread_ended k t th k'.
Proof.
  intros H E Hn Hs. exists (retired t th (closed t th k)). split; [|by apply retired_ended].
  destruct (kwf_attached _ H t th E Hn) as [Ha _]. destruct (taken_out_fields t th k H E Hn) as (_ & F1 & _).
  pose proof (remove_if_started k t th H E) as Er. pose proof (proj1 (timer_detach_closed k t th H E Hn)) as Ed.
  unfold rt_thread_delete, check_thread, rt_assert, retired. munfold. rewrite E, Ha. simpl. rewrite Hs. simpl.
  rewrite Er, Ed. simpl. rewrite F1, E. by change (with_threads _ (tm_unlink _ _ _)) with (closed t th k).
Qed.

Lemma ended_rescheduled k t th kr k' : thread_ended k t th kr -> rescheduled kr k' -> thread_ended k t th k'.
Proof.
  intros [[O1 O2 O3 O4 O5 O6 O7 O8] (th' & E & Hs & T2) T3 T4] R. split.
  - split; [by apply (rs_kwf _ _ R)| | |by rewrite (rs_objects _ _ R)|intros Hc; by apply R, O5|by rewrite (rs_irq _ _ R)|by rewrite (rs_tick _ _ R)|
      intros s Hn; rewrite (proj1 (rs_timers _ _ R)); by apply O8].
    + intros s Hn. eapply thread_moved_trans; [by apply O2|apply (rs_threads _ _ R)].
    + intros h Hh. rewrite (rs_waits _ _ R) by (by apply wait_not_ready). by apply O3.
  - exists th'. split; [|done]. destruct (rs_threads _ _ R t) as [->|(x & s & Ex & _ & Ha & _)]; [done|].
    simplify_eq. apply awake_not_suspended in Ha as [_ Ha]. done.
  - by destruct (rs_timers _ _ R) as [-> ->].
  - rewrite (rs_waits _ _ R) by done. done.
Qed.

(** Who is ready stays ready when a thread that is not leaves. *)
Lemma group_kept k k' X Y : wf_lists X k -> wf_lists Y k' ->
  (forall p, k_lists k (LReady p) <> [] -> k_lists k' (LReady p) <> []) -> k_ready_group k <> 0 -> k_ready_group k' <> 0.
Proof.
  intros H H' Hl Hg. pose proof (wf_group_range _ _ H) as Hr.
  destruct (rt_ffs_spec (k_ready_group k)) as [(H1 & H2 & _) H3]; [unfold in_range in Hr; lia|].
  assert (0 <= __rt_ffs (k_ready_group k) - 1 < RT_THREAD_PRIORITY_MAX) as Hp by (unfold RT_THREAD_PRIORITY_MAX; lia).
  apply (wf_group _ _ H _ Hp), Hl, (wf_group _ _ H' _ Hp) in H2. intros E. by rewrite E, Z.testbit_0_l in H2.
Qed.

(** The thread that ends goes on to [rt_schedule], which does not come back to
    it: as long as some thread is ready, another one runs. *)
Lemma rt_thread_exit_spec k t th :
  kwf k -> running k t th -> k_lock_nest k = 0 ->
  exists k', rt_thread_exit k = Some (tt, k') /\ thread_ended k t th k' /\
    (k_ready_group k <> 0 -> exists c cth, c <> t /\ running k' c cth).
Proof.
  intros H (Hc & E & Hs) Hlock. assert (stat_base th <> RT_THREAD_CLOSE) as Hn by (by rewrite Hs).
  destruct (taken_out_fields t th k H E Hn) as (_ & F1 & F2 & _ & _ & _ & _ & _ & F8).
  pose proof (proj2 (timer_detach_closed k t th H E Hn)) as Ed. pose proof (retire_eval k t th H E Hn) as Et.
  pose proof (retired_ended k t th H E Hn) as Te. pose proof (te_others _ _ _ _ Te) as To.
  assert (remove_ready t th k = taken_out t th k) as Eto by (unfold taken_out; by rewrite decide_False by (by rewrite Hs)).
  assert (k_current (retired t th (closed t th k)) = Some t /\ k_lock_nest (retired t th (closed t th k)) = 0 /\
    forall p, k_lists (retired t th (closed t th k)) (LReady p) = lremove t (k_lists k (LReady p))) as (Ecr & Elr & Err).
  { assert (k_lock_nest (taken_out t th k) = 0) as Elo by (rewrite <- Eto, <- Hlock; apply (remove_ready_fields t th k)).
    split_and!; [rewrite <- Hc, <- F2|rewrite <- Elo|]; unfold retired; [by case_match|by case_match|].
    intros p. case_match; [exact (F8 (LReady p))|]. rewrite in_wait_lists, decide_False by done. exact (F8 (LReady p)). }
  destruct (rescheduled_schedule _ (kwf_sched _ (ok_kwf _ _ _ To))) as (k' & E' & R); [by rewrite Ecr|].
  pose proof (ended_rescheduled _ _ _ _ _ Te R) as Te'. exists k'. split; [|split; [done|]].
  - unfold rt_thread_exit. munfold. rewrite Hc, E, (remove_thread_eval t th k E), Eto, F1, E.
    change (with_threads _ (taken_out t th k)) with (upd_thread t (with_stat RT_THREAD_CLOSE) (taken_out t th k)).
    by rewrite Ed, Et.
  - intros Hg. destruct (te_closed _ _ _ _ Te) as (th' & Eth' & _).
    destruct (rt_schedule_spec _ t th' (kwf_sched _ (ok_kwf _ _ _ To)) Elr Ecr Eth') as (k2 & c & cth & E2 & P & _).
    { right. apply (group_kept k _ ∅ ∅); [apply H|apply (kwf_sched _ (ok_kwf _ _ _ To))| |done]. intros p. rewrite Err.
      rewrite lremove_notin; [done|]. apply (running_notin ∅ k t th); [apply H|done|done]. }
    rewrite E' in E2. injection E2 as <-. exists c, cth. split; [|split_and!; apply P]. intros ->.
    destruct (te_closed _ _ _ _ Te') as (th2 & Eth2 & Hs2 & _). rewrite (sp_thread _ _ _ _ _ P) in Eth2. simplify_eq.
    by rewrite (sp_running _ _ _ _ _ P) in Hs2.
Qed.

(** ** What a thread's life promises *)

(** C32: A thread begins: [rt_thread_create] (or [rt_thread_init]) in unused
    memory and [rt_thread_startup] keep the kernel invariant and every other
    thread in its wait list, and end with the new thread ready, or running, at
    its priority with its time slice; before the scheduler has been started it
    is the last of its ready queue. *)
Theorem rt_thread_begins k t priority tick :
  kwf k -> unused k t -> 0 <= priority < RT_THREAD_PRIORITY_MAX -> k_irq_nest k = 0 ->
  exists k1 k2 k3 k4,
    rt_thread_create (Some t) true priority tick k = Some (Some t, k1) /\ thread_made k t false priority tick k1 /\
    rt_thread_init t priority tick k = Some (RT_EOK, k2) /\ thread_made k t true priority tick k2 /\
    rt_thread_startup t k1 = Some (RT_EOK, k3) /\ thread_started k1 t (new_thread false priority tick) k3 /\
    rt_thread_startup t k2 = Some (RT_EOK, k4) /\ thread_started k2 t (new_thread true priority tick) k4.
Proof.
  intros H Hu Hp Hi.
  assert (forall static k', thread_made k t static priority tick k' -> exists k'', rt_thread_startup t k' = Some (RT_EOK, k'') /\
    thread_started k' t (new_thread static priority tick) k'') as Hst.
  { intros static k' (O & E & _ & Hc & _). by apply rt_thread_startup_spec; [apply O|..]. }
  destruct (rt_thread_create_spec k t priority tick H Hu Hp Hi) as (k1 & E1 & M1).
  destruct (rt_thread_init_spec k t priority tick H Hu Hp) as (k2 & E2 & M2).
  destruct (Hst _ _ M1) as (k3 & E3 & M3). destruct (Hst _ _ M2) as (k4 & E4 & M4). by exists k1, k2, k3, k4.
Qed.

(** A new thread of priority 5 preempts thread 0. *)
Lemma rt_thread_begins_witness : exists k1 k3 th,
  rt_thread_create (Some 3%nat) true 5 10 demo = Some (Some 3%nat, k1) /\ rt_thread_startup 3 k1 = Some (RT_EOK, k3) /\
  k_threads k3 !! 3%nat = Some th /\ awake th /\ kwf k3.
Proof.
  destruct (rt_thread_begins demo 3 5 10 demo_kwf ltac:(done) ltac:(done) eq_refl)
    as (k1 & k2 & k3 & k4 & E1 & _ & _ & _ & E3 & (O & (s & Es & Ha) & _) & _).
  exists k1, k3. eexists. split; [done|]. split; [done|]. split; [exact Es|]. split; [done|apply O].
Defined.

(** C33: A thread ends: [rt_thread_exit] of the running thread,
    [rt_thread_detach] of a static and [rt_thread_delete] of another thread keep
    the kernel invariant; the thread is closed, in no queue or wait list, its
    timer is gone, all others stay where they are, and it waits for the idle
    thread, or is forgotten if it is static and has no cleanup function. After
    [rt_thread_exit] another thread runs if any is ready. *)
Theorem rt_thread_ends k t th :
  kwf k -> k_threads k !! t = Some th -> stat_base th <> RT_THREAD_CLOSE ->
  (running k t th -> k_lock_nest k = 0 -> exists k', rt_thread_exit k = Some (tt, k') /\ thread_ended k t th k' /\
     (k_ready_group k <> 0 -> exists c cth, c <> t /\ running k' c cth)) /\
  (th_static th = true -> exists k', rt_thread_detach t k = Some (RT_EOK, k') /\ thread_ended k t th k') /\
  (th_static th = false -> exists k', rt_thread_delete t k = Some (RT_EOK, k') /\ thread_ended k t th k').
Proof.
  intros H E Hn. split_and!; intros; [by apply rt_thread_exit_spec|by apply rt_thread_detach_spec|by apply rt_thread_delete_spec].
Qed.

(** Thread 0 ends and the idle thread 1 goes on; thread 2 ends while it waits. *)
Lemma rt_thread_ends_witness :
  (exists k' c cth, rt_thread_exit demo = Some (tt, k') /\ c <> 0%nat /\ running k' c cth) /\
  (exists k', rt_thread_detach 2 demo = Some (RT_EOK, k') /\ k_lists k' (LSuspend 7) = [] /\ k_timer k' !! ThreadTimer 2 = None).
Proof.
  destruct (rt_thread_ends demo 0 (demo_thread RT_THREAD_RUNNING 10) demo_kwf eq_refl ltac:(done)) as (X & _ & _).
  destruct (rt_thread_ends demo 2 (demo_thread RT_THREAD_SUSPEND 5) demo_kwf eq_refl ltac:(done)) as (_ & D & _). split.
  - destruct (X demo_running eq_refl) as (k' & E & _ & Hr). destruct (Hr ltac:(done)) as (c & cth & ? & ?). by exists k', c, cth.
  - destruct (D eq_refl) as (k' & E & T). exists k'. split; [done|].
    split; [by rewrite (ok_waits _ _ _ (te_others _ _ _ _ T))|apply T].
Defined.
