(* ===== verification/Workqueue.v ===== *)
(** * Workqueue: work queues

    components/drivers/src/workqueue.c.  A work queue has a thread that takes the
    works off a list and calls them.  Works and queues are in [k_dipc]; the
    semaphore of the queue [o] is [k_sems k !! o], the timer of the work [w] is
    [UserTimer w] with the function [TF_user w].  The loop of the thread is cut
    where interrupts are enabled or the thread is switched away from:
    [worker_step] is one piece of it, and others may run between two pieces. *)

From S2P Require Import Kernel Sched Object Timer Thread Ipc Demo Sem DeviceIpc Life.

Definition RT_EINVAL : Z := 10.
(** Of errno.h; the code answers it in one place instead of [RT_EINVAL]. *)
Definition EINVAL : Z := 22.

Definition RT_WORK_STATE_PENDING : Z := 1.
Definition RT_WORK_STATE_SUBMITTING : Z := 2.
Definition RT_WORK_TYPE_DELAYED : Z := 1.
Definition RT_TIMER_FLAG_SOFT_TIMER : Z := 4.

Definition work_of (k : kstate) (w : oid) : option work :=
  match k_dipc k !! w with Some (DevWork x) => Some x | _ => None end.
Definition queue_of (k : kstate) (o : oid) : option workqueue :=
  match k_dipc k !! o with Some (DevWorkqueue q) => Some q | _ => None end.

Definition get_work (w : oid) : KM work := deref (fun k => work_of k w).
Definition put_work (w : oid) (x : work) : KM unit := put_dipc w (DevWork x).
Definition get_workqueue (o : oid) : KM workqueue := deref (fun k => queue_of k o).
Definition put_workqueue (o : oid) (q : workqueue) : KM unit := put_dipc o (DevWorkqueue q).

(** [work->flags |= bit], [work->flags &= ~bit] *)
Definition set_bit (bit flags : Z) : Z := Z.lor flags bit.
Definition clear_bit (bit flags : Z) : Z := Z.land flags (Z.lnot bit).
Definition set_flags (w : oid) (f : Z -> Z) : KM unit :=
  x ← get_work w; put_work w (Work (f (wk_flags x)) (wk_type x) (wk_workqueue x)).
Definition set_type (w : oid) (f : Z -> Z) : KM unit :=
  x ← get_work w; put_work w (Work (wk_flags x) (f (wk_type x)) (wk_workqueue x)).
Definition set_queue (w : oid) (q : option oid) : KM unit :=
  x ← get_work w; put_work w (Work (wk_flags x) (wk_type x) q).

Definition set_current (queue : oid) (w : option oid) : KM unit :=
  q ← get_workqueue queue; put_workqueue queue (Workqueue (wkq_list q) w (wkq_thread q)).

(** [rt_list_remove(&work->list)]: the node is in one list at most. *)
Definition without_work (w : oid) (d : dev_ipc) : dev_ipc :=
  match d with
  | DevWorkqueue q => DevWorkqueue (Workqueue (lremove w (wkq_list q)) (wkq_current q) (wkq_thread q))
  | _ => d
  end.
Definition work_list_remove (w : oid) : KM unit := modify (with_dipc (fmap (without_work w))).

(** [rt_list_insert_after(queue->work_list.prev, &work->list)] *)
Definition work_list_append (queue w : oid) : KM unit :=
  q ← get_workqueue queue;
  put_workqueue queue (Workqueue (wkq_list q ++ [w]) (wkq_current q) (wkq_thread q)).

Definition rt_work_init (w : oid) : KM unit := put_work w (Work 0 0 None).
Definition rt_delayed_work_init (w : oid) : KM unit := rt_work_init w.

(** ** The end of a work *)

(** Release the semaphore until it can be taken: every waiter is let go. *)
Fixpoint completion_loop (fuel : nat) (queue : oid) : KM Z :=
  r ← rt_sem_trytake queue;
  match r with
  | Blocked _ => undefined
  | Returned result =>
    if decide (result = - RT_ETIMEOUT) then
      match fuel with
      | O => halt
      | S fuel => _ ← rt_sem_release queue; completion_loop fuel queue
      end
    else if decide (result = RT_EOK) then mret RT_EOK
    else mret (- RT_ERROR)
  end.

Definition _workqueue_work_completion (queue : oid) : KM Z :=
  rt_enter_critical;;
  l ← gets (fun k => k_lists k (LSuspend queue));
  result ← completion_loop (S (length l)) queue;
  rt_exit_critical;;
  mret result.

(** ** Submitting and cancelling *)

(** [rt_thread_resume(queue->work_thread)], when interrupts are enabled again *)
Definition resume_worker (queue : oid) : KM unit :=
  q ← get_workqueue queue;
  _ ← rt_thread_resume (wkq_thread q);
  mret tt.

(** The critical section of [_workqueue_submit_work]: the answer, and whether
    the thread of the queue is resumed behind it. *)
Definition submit_section (queue w : oid) : KM (Z * bool) :=
  x ← get_work w;
  if decide (Z.land (wk_flags x) RT_WORK_STATE_PENDING <> 0) then mret (- RT_EBUSY, false)
  else
    q ← get_workqueue queue;
    if decide (wkq_current q = Some w) then mret (- RT_EBUSY, false)
    else
      work_list_remove w;;
      work_list_append queue w;;
      set_flags w (set_bit RT_WORK_STATE_PENDING);;
      mret (RT_EOK, bool_decide (wkq_current q = None)).

Definition _workqueue_submit_work (queue w : oid) : KM Z :=
  '(result, wake) ← submit_section queue w;
  when wake (resume_worker queue;; rt_schedule);;
  mret result.

Definition _workqueue_cancel_work (queue w : oid) : KM Z :=
  q ← get_workqueue queue;
  if decide (wkq_current q = Some w) then mret (- RT_EBUSY)
  else
    work_list_remove w;;
    set_flags w (clear_bit RT_WORK_STATE_PENDING);;
    mret RT_EOK.

Definition _workqueue_cancel_delayed_work (w : oid) : KM Z :=
  x ← get_work w;
  match wk_workqueue x with
  | None => mret (- EINVAL)
  | Some queue =>
    ret ← (if decide (Z.land (wk_flags x) RT_WORK_STATE_PENDING <> 0) then _workqueue_cancel_work queue w
           else if decide (Z.land (wk_flags x) RT_WORK_STATE_SUBMITTING <> 0) then
             _ ← rt_timer_stop (UserTimer w);
             _ ← rt_timer_detach (UserTimer w);
             set_flags w (clear_bit RT_WORK_STATE_SUBMITTING);;
             mret RT_EOK
           else mret RT_EOK);
    if decide (ret <> 0) then mret ret
    else
      set_queue w None;;
      set_flags w (clear_bit RT_WORK_STATE_PENDING);;
      mret ret
  end.

Definition _workqueue_submit_delayed_work (queue w : oid) (ticks : Z) : KM Z :=
  x ← get_work w;
  if decide (wk_workqueue x <> None /\ wk_workqueue x <> Some queue) then mret (- RT_EINVAL)
  else
    ret ← (if decide (wk_workqueue x = Some queue) then _workqueue_cancel_delayed_work w else mret RT_EOK);
    if decide (ret < 0) then mret ret
    else
      set_queue w (Some queue);;
      if decide (ticks = 0) then _workqueue_submit_work queue w
      else
        set_flags w (set_bit RT_WORK_STATE_SUBMITTING);;
        rt_timer_init (UserTimer w) (TF_user w) ticks (Z.lor RT_TIMER_FLAG_ONE_SHOT RT_TIMER_FLAG_SOFT_TIMER);;
        _ ← rt_timer_start (UserTimer w);
        mret ret.

Definition _delayed_work_timeout_handler (w : oid) : KM unit :=
  _ ← rt_timer_stop (UserTimer w);
  _ ← rt_timer_detach (UserTimer w);
  set_flags w (clear_bit RT_WORK_STATE_SUBMITTING);;
  set_type w (clear_bit RT_WORK_TYPE_DELAYED);;
  x ← get_work w;
  queue ← deref (fun _ => wk_workqueue x);
  _ ← _workqueue_submit_work queue w;
  mret tt.

Definition rt_workqueue_dowork (queue w : oid) : KM Z := _workqueue_submit_work queue w.

Definition rt_workqueue_submit_work (queue w : oid) (time : Z) : KM Z :=
  when (bool_decide (0 < time)) (set_type w (set_bit RT_WORK_TYPE_DELAYED));;
  x ← get_work w;
  if decide (Z.land (wk_type x) RT_WORK_TYPE_DELAYED <> 0) then _workqueue_submit_delayed_work queue w time
  else _workqueue_submit_work queue w.

(** The critical section of [rt_workqueue_critical_work]. *)
Definition critical_section (queue w : oid) : KM (Z * bool) :=
  q ← get_workqueue queue;
  if decide (wkq_current q = Some w) then mret (- RT_EBUSY, false)
  else
    work_list_remove w;;
    work_list_append queue w;;
    mret (RT_EOK, bool_decide (wkq_current q = None)).

Definition rt_workqueue_critical_work (queue w : oid) : KM Z :=
  '(result, wake) ← critical_section queue w;
  when wake (resume_worker queue;; rt_schedule);;
  mret result.

Definition rt_workqueue_cancel_work (queue w : oid) : KM Z :=
  x ← get_work w;
  if decide (Z.land (wk_type x) RT_WORK_TYPE_DELAYED <> 0) then _workqueue_cancel_delayed_work w
  else _workqueue_cancel_work queue w.

Inductive cancel_frame := CancelFrame (w : oid) (f : sem_frame).

Definition rt_workqueue_cancel_work_sync (queue w : oid) : KM (outcome cancel_frame Z) :=
  q ← get_workqueue queue;
  if decide (wkq_current q = Some w) then
    r ← rt_sem_take queue RT_WAITING_FOREVER;
    match r with
    | Blocked f => mret (Blocked (CancelFrame w f))
    | Returned _ => set_flags w (clear_bit RT_WORK_STATE_PENDING);; mret (Returned RT_EOK)
    end
  else
    work_list_remove w;;
    set_flags w (clear_bit RT_WORK_STATE_PENDING);;
    mret (Returned RT_EOK).

Definition rt_workqueue_cancel_work_sync_resume (f : cancel_frame) : KM Z :=
  let '(CancelFrame w f) := f in
  _ ← rt_sem_take_resume f;
  set_flags w (clear_bit RT_WORK_STATE_PENDING);;
  mret RT_EOK.

Fixpoint remove_works (l : list oid) : KM unit :=
  match l with [] => mret tt | w :: l => work_list_remove w;; remove_works l end.

Definition rt_workqueue_cancel_all_work (queue : oid) : KM Z :=
  rt_enter_critical;;
  q ← get_workqueue queue;
  remove_works (wkq_list q);;
  rt_exit_critical;;
  mret RT_EOK.

(** ** Making and destroying a queue *)

(** The heap gives the memory of the queue, [new], and of its thread, [thread];
    when there is none for the thread, the queue is given back, and its
    semaphore stays registered. *)
Definition rt_workqueue_create (new : option oid) (thread : option tid) (stack : bool) (priority : Z) : KM (option oid) :=
  match new with
  | None => mret None
  | Some queue =>
    _ ← rt_sem_init queue 0 RT_IPC_FLAG_FIFO;
    t ← rt_thread_create thread stack priority 10;
    match t with
    | None => mret None
    | Some t =>
      put_workqueue queue (Workqueue [] None t);;
      _ ← rt_thread_startup t;
      mret (Some queue)
    end
  end.

Definition rt_workqueue_destroy (queue : oid) : KM Z :=
  q ← get_workqueue queue;
  _ ← rt_thread_delete (wkq_thread q);
  modify (with_dipc (delete queue));;
  mret RT_EOK.

(** ** The thread of the queue *)

(** Where the thread is in the body of its loop. *)
Inductive worker_pc :=
  | PcTest                (* rt_list_isempty(&queue->work_list) *)
  | PcSuspend             (* rt_thread_suspend(rt_thread_self()) *)
  | PcSchedule            (* rt_schedule() *)
  | PcTake                (* the first critical section *)
  | PcCall (w : oid)      (* work->work_func *)
  | PcDone                (* the second critical section *)
  | PcAck.                (* _workqueue_work_completion *)

#[export] Instance worker_pc_eq_dec : EqDecision worker_pc.
Proof. solve_decision. Defined.

Section worker.
Context (work_func : oid -> KM unit).

Definition worker_step (queue : oid) (pc : worker_pc) : KM worker_pc :=
  match pc with
  | PcTest =>
    q ← get_workqueue queue;
    mret (if decide (wkq_list q = []) then PcSuspend else PcTake)
  | PcSuspend =>
    t ← self;
    _ ← rt_thread_suspend t;
    mret PcSchedule
  | PcSchedule => rt_schedule;; mret PcTake
  | PcTake =>
    q ← get_workqueue queue;
    w ← deref (fun _ => head (wkq_list q));
    work_list_remove w;;
    set_current queue (Some w);;
    set_flags w (clear_bit RT_WORK_STATE_PENDING);;
    set_queue w None;;
    mret (PcCall w)
  | PcCall w => work_func w;; mret PcDone
  | PcDone => set_current queue None;; mret PcAck
  | PcAck => _ ← _workqueue_work_completion queue; mret PcTest
  end.
End worker.

(** ** What the operations do to works and queues *)

Definition without (w : oid) (q : workqueue) : workqueue := Workqueue (lremove w (wkq_list q)) (wkq_current q) (wkq_thread q).
Definition appended (w : oid) (q : workqueue) : workqueue := Workqueue (wkq_list q ++ [w]) (wkq_current q) (wkq_thread q).

Lemma get_work_eval k w x : work_of k w = Some x -> get_work w k = Some (x, k).
Proof. intros E. unfold get_work. munfold. by rewrite E. Qed.

Lemma get_workqueue_eval k o q : queue_of k o = Some q -> get_workqueue o k = Some (q, k).
Proof. intros E. unfold get_workqueue. munfold. by rewrite E. Qed.

Lemma work_not_queue k w x : work_of k w = Some x -> queue_of k w = None.
Proof. unfold work_of, queue_of. by destruct (k_dipc k !! w) as [[]|]. Qed.

Lemma queue_not_work k o q : queue_of k o = Some q -> work_of k o = None.
Proof. unfold work_of, queue_of. by destruct (k_dipc k !! o) as [[]|]. Qed.

Lemma removed_view k w : let k1 := with_dipc (fmap (without_work w)) k in
  (forall v, work_of k1 v = work_of k v) /\ (forall o, queue_of k1 o = without w <$> queue_of k o).
Proof.
  split; intros v; unfold work_of, queue_of; simpl; rewrite lookup_fmap; by destruct (k_dipc k !! v) as [[]|].
Qed.

Lemma put_queue_view k o q q' : queue_of k o = Some q -> let k1 := with_dipc (insert o (DevWorkqueue q')) k in
  (forall v, work_of k1 v = work_of k v) /\ queue_of k1 o = Some q'.
Proof.
  intros E. pose proof (queue_not_work _ _ _ E) as En. split; [|unfold queue_of; simpl; by rewrite lookup_insert_eq].
  intros v. unfold work_of in *. simpl. destruct (decide (o = v)) as [<-|]; [by rewrite lookup_insert_eq|by rewrite lookup_insert_ne].
Qed.

Lemma put_work_view k w x x' : work_of k w = Some x -> let k1 := with_dipc (insert w (DevWork x')) k in
  (forall v, work_of k1 v = if decide (v = w) then Some x' else work_of k v) /\ (forall o, queue_of k1 o = queue_of k o).
Proof.
  intros E. pose proof (work_not_queue _ _ _ E) as En. split; intros v; unfold work_of, queue_of in *; simpl.
  - case_decide; [subst; by rewrite lookup_insert_eq|by rewrite lookup_insert_ne].
  - destruct (decide (w = v)) as [<-|]; [by rewrite lookup_insert_eq|by rewrite lookup_insert_ne].
Qed.

(** Same works and queues. *)
Lemma objects_view k k' : objects k' = objects k -> (forall v, work_of k' v = work_of k v) /\ (forall o, queue_of k' o = queue_of k o).
Proof. intros (_ & _ & _ & _ & _ & _ & E)%objects_inj. split; intros v; unfold work_of, queue_of; by rewrite E. Qed.

(** ** Waking the thread of a queue *)

(** Thread [t] no longer waits; others may have been rescheduled. *)
Record let_run (k k' : kstate) (t : tid) : Prop := LetRun {
  lr_kwf : kwf k';
  lr_objects : objects k' = objects k;
  lr_current : is_Some (k_current k) -> is_Some (k_current k');
  lr_waits h : wait_head h -> k_lists k' h = lremove t (k_lists k h);
  lr_threads s : s <> t -> thread_moved (k_threads k !! s) (k_threads k' !! s);
  lr_thread th : k_threads k !! t = Some th -> exists th', k_threads k' !! t = Some th' /\ th_error th' = th_error th /\
    (stat_base th = RT_THREAD_SUSPEND \/ awake th -> awake th') /\ (started th -> started th')
}.

Lemma awake_started th : awake th -> started th.
Proof. unfold started. by intros [-> | ->]. Qed.

Lemma rescheduled_let_run k k' t th : kwf k -> k_threads k !! t = Some th -> stat_base th <> RT_THREAD_SUSPEND ->
  rescheduled k k' -> let_run k k' t.
Proof.
  intros H E Hn R. split; [by apply (rs_kwf _ _ R)|apply R|apply R| |intros s _; apply R|].
  - intros h Hh. rewrite (rs_waits _ _ R) by (by apply wait_not_ready). symmetry. apply lremove_notin. intros Hi.
    destruct (waiter_suspended k h t) as (x & Ex & Hx); [apply H|done|done|]. by simplify_eq.
  - intros x Ex. simplify_eq. destruct (moved_base _ _ (rs_threads _ _ R t) _ E) as (s & -> & Hs).
    eexists. split; [done|]. split; [done|]. split; [intros [?|Ha]; [done|]|intros Ha].
    + destruct Hs as [Hs|[_ Hs]]; [|done]. unfold awake. by rewrite Hs.
    + destruct Hs as [Hs|[_ Hs]]; [|by apply awake_started]. unfold started. by rewrite Hs.
Qed.

Lemma resumed_let_run k k' t th : kwf k -> k_threads k !! t = Some th -> stat_base th = RT_THREAD_SUSPEND ->
  rescheduled (resumed t th k) k' -> let_run k k' t.
Proof.
  intros H E Hs R. destruct (rt_thread_resume_spec k t th H E Hs) as [_ Hk].
  destruct (timer_stopped_fields t (unlink t k)) as (T1 & T2 & _ & T4 & _).
  destruct (awakened_fields t th (timer_stopped t (unlink t k))) as (_ & _ & _ & A4 & _ & _ & A7 & A8 & A9).
  fold (resumed t th k) in A4, A7, A8, A9. split.
  - by apply (rs_kwf _ _ R).
  - rewrite (rs_objects _ _ R). unfold resumed. by rewrite awakened_objects, timer_stopped_objects.
  - intros Hc. apply R. by rewrite A4, T4.
  - intros h Hh. rewrite (rs_waits _ _ R), A9, decide_False, T2 by (by apply wait_not_ready || by intros [_ ->]). done.
  - intros s Hn. eapply thread_moved_trans; [|apply (rs_threads _ _ R)]. rewrite A7, T1 by done. by left.
  - intros x Ex. simplify_eq. destruct (moved_awake _ _ (rs_threads _ _ R t) _ (A8 th ltac:(by rewrite T1))) as (th' & E' & Ha & He & _).
    + apply put_stat_awake. case_decide; tauto.
    + exists th'. split_and!; try done. intros _. by apply awake_started.
Qed.

Lemma rescheduled_same k : wf k -> rescheduled k k.
Proof. intros H. split; try done; auto; by left. Qed.

Lemma resume_worker_spec k o q th : kwf k -> queue_of k o = Some q -> k_threads k !! wkq_thread q = Some th -> started th ->
  exists k', resume_worker o k = Some (tt, k') /\ let_run k k' (wkq_thread q).
Proof.
  intros H Eq E [Hi Hn]. set (t := wkq_thread q) in *. unfold resume_worker. rewrite (bind_eval _ _ _ _ _ (get_workqueue_eval k o q Eq)). fold t.
  destruct (decide (stat_base th = RT_THREAD_SUSPEND)) as [Hs|Hs].
  - destruct (rt_thread_resume_spec k t th H E Hs) as [Er Hk]. exists (resumed t th k). split; [munfold; by rewrite Er|].
    eapply resumed_let_run; [done..|]. apply rescheduled_same, Hk.
  - exists k. split; [|eapply rescheduled_let_run; [done..|]; by apply rescheduled_same, H].
    destruct (kwf_attached _ H t th E Hn) as [Ha _].
    unfold rt_thread_resume, check_thread, rt_assert. munfold. rewrite E, Ha. simpl. by rewrite decide_True.
Qed.

Lemma sem_ok_let_run k k' t o s : let_run k k' t -> sem_ok k o s -> sem_ok k' o s.
Proof.
  intros L [H1 H2 H3 H4 H5]. destruct (objects_inj _ _ (lr_objects _ _ _ L)) as (Es & _).
  assert (k_lists k' (LSuspend o) = lremove t (k_lists k (LSuspend o))) as El by (by apply L). split; try done; [by rewrite Es| |].
  - rewrite El. intros Hn. apply H4. intros E. by rewrite E in Hn.
  - intros u. rewrite El. intros [Hn Hi]%elem_of_lremove. destruct (H5 u Hi) as (th & E & He).
    destruct (moved_error _ _ _ (lr_threads _ _ _ L u Hn) E) as (th' & ? & ?). exists th'. split; [done|congruence].
Qed.

Lemma sem_ok_dipc f k o s : sem_ok k o s -> sem_ok (with_dipc f k) o s.
Proof. intros [H1 H2 H3 H4 H5]. by split. Qed.

(** The works and queues of [k'] are those of [k], with the queue and the work changed. *)
Record updated (k k' : kstate) (o : oid) (q : workqueue) (w : oid) (x : work) : Prop := Updated {
  up_queue : queue_of k' o = Some q;
  up_works v : work_of k' v = if decide (v = w) then Some x else work_of k v;
  up_same : exists d, k' = with_dipc d k
}.

Definition with_pending (x : work) : work := Work (set_bit RT_WORK_STATE_PENDING (wk_flags x)) (wk_type x) (wk_workqueue x).
Definition not_pending (x : work) : work := Work (clear_bit RT_WORK_STATE_PENDING (wk_flags x)) (wk_type x) (wk_workqueue x).
Definition pending (x : work) : Prop := Z.land (wk_flags x) RT_WORK_STATE_PENDING <> 0.

(** Taking the node out of its list and putting it at the end of [o]. *)
Lemma relist_eval k o q w : queue_of k o = Some q ->
  exists d, (work_list_remove w;; work_list_append o w) k = Some (tt, with_dipc d k) /\
    queue_of (with_dipc d k) o = Some (appended w (without w q)) /\ (forall v, work_of (with_dipc d k) v = work_of k v).
Proof.
  intros E. unfold work_list_remove, work_list_append, put_workqueue, put_dipc. munfold. set (k1 := with_dipc _ k).
  destruct (removed_view k w) as [V1 V2]. fold k1 in V1, V2.
  assert (queue_of k1 o = Some (without w q)) as E1 by (by rewrite V2, E). rewrite (get_workqueue_eval k1 o _ E1).
  destruct (put_queue_view k1 o _ (appended w (without w q)) E1) as [P1 P2].
  eexists (fun m => insert o _ (fmap (without_work w) m)). split; [done|]. split; [exact P2|]. intros v. rewrite <- V1. apply P1.
Qed.

Lemma set_flags_eval k w f x : work_of k w = Some x ->
  exists d, set_flags w f k = Some (tt, with_dipc d k) /\
    (forall v, work_of (with_dipc d k) v = if decide (v = w) then Some (Work (f (wk_flags x)) (wk_type x) (wk_workqueue x)) else work_of k v) /\
    (forall o, queue_of (with_dipc d k) o = queue_of k o).
Proof.
  intros E. unfold set_flags. rewrite (bind_eval _ _ _ _ _ (get_work_eval k w x E)). unfold put_work, put_dipc, modify.
  eexists. split; [done|]. exact (put_work_view k w x _ E).
Qed.

Lemma submit_spec k o q w x : queue_of k o = Some q -> work_of k w = Some x ->
  if decide (pending x \/ wkq_current q = Some w) then submit_section o w k = Some ((- RT_EBUSY, false), k)
  else exists k', submit_section o w k = Some ((RT_EOK, bool_decide (wkq_current q = None)), k') /\
    updated k k' o (appended w (without w q)) w (with_pending x).
Proof.
  intros Eq Ew. unfold submit_section, pending. rewrite (bind_eval _ _ _ _ _ (get_work_eval k w x Ew)).
  destruct (decide (Z.land (wk_flags x) RT_WORK_STATE_PENDING <> 0)) as [Hp|Hp]; [by rewrite decide_True by tauto|].
  rewrite (bind_eval _ _ _ _ _ (get_workqueue_eval k o q Eq)).
  destruct (decide (wkq_current q = Some w)) as [Hw|Hw]; [by rewrite decide_True by tauto|]. rewrite decide_False by tauto.
  destruct (relist_eval k o q w Eq) as (d1 & E1 & Q1 & W1). set (k1 := with_dipc d1 k) in *.
  destruct (set_flags_eval k1 w (set_bit RT_WORK_STATE_PENDING) x) as (d2 & E2 & W2 & Q2); [by rewrite W1|].
  exists (with_dipc d2 k1). split; [|split; [by rewrite Q2|intros v; rewrite W2; by rewrite W1|by exists (fun m => d2 (d1 m))]].
  revert E1. munfold. destruct (work_list_remove w k) as [[[] ka]|]; [|done]. intros ->. by rewrite E2.
Qed.

Lemma critical_spec k o q w x : queue_of k o = Some q -> work_of k w = Some x ->
  if decide (wkq_current q = Some w) then critical_section o w k = Some ((- RT_EBUSY, false), k)
  else exists k', critical_section o w k = Some ((RT_EOK, bool_decide (wkq_current q = None)), k') /\
    updated k k' o (appended w (without w q)) w x.
Proof.
  intros Eq Ew. unfold critical_section. rewrite (bind_eval _ _ _ _ _ (get_workqueue_eval k o q Eq)).
  case_decide as Hw; [done|]. destruct (relist_eval k o q w Eq) as (d & E1 & Q1 & W1).
  exists (with_dipc d k). split; [|split; [done|intros v; rewrite W1; case_decide; by subst|by exists d]].
  revert E1. munfold. destruct (work_list_remove w k) as [[[] ka]|]; [|done]. by intros ->.
Qed.

Lemma cancel_spec k o q w x : queue_of k o = Some q -> work_of k w = Some x ->
  if decide (wkq_current q = Some w) then _workqueue_cancel_work o w k = Some (- RT_EBUSY, k)
  else exists k', _workqueue_cancel_work o w k = Some (RT_EOK, k') /\ updated k k' o (without w q) w (not_pending x).
Proof.
  intros Eq Ew. unfold _workqueue_cancel_work. rewrite (bind_eval _ _ _ _ _ (get_workqueue_eval k o q Eq)).
  case_decide as Hw; [done|]. unfold work_list_remove. munfold. destruct (removed_view k w) as [V1 V2].
  set (k1 := with_dipc _ k) in *. destruct (set_flags_eval k1 w (clear_bit RT_WORK_STATE_PENDING) x) as (d & E & W & Q); [by rewrite V1|].
  rewrite E. eexists. split; [done|]. split; [by rewrite Q, V2, Eq|intros v; rewrite W; by rewrite V1|].
  by exists (fun m => d (fmap (without_work w) m)).
Qed.

(** Removing every work of the list. *)
Lemma remove_works_eval o l : forall k q, queue_of k o = Some q ->
  exists d, remove_works l k = Some (tt, with_dipc d k) /\ (forall v, work_of (with_dipc d k) v = work_of k v) /\
    queue_of (with_dipc d k) o = Some (Workqueue (fold_left (fun l w => lremove w l) l (wkq_list q)) (wkq_current q) (wkq_thread q)).
Proof.
  induction l as [|w l IH]; intros k q E; simpl.
  - exists id. unfold mret, M_ret. destruct q. split; [by destruct k|]. by destruct k.
  - destruct (removed_view k w) as [V1 V2]. unfold work_list_remove. munfold. set (k1 := with_dipc _ k) in *.
    destruct (IH k1 (without w q)) as (d & E1 & W1 & Q1); [by rewrite V2, E|]. rewrite E1.
    exists (fun m => d (fmap (without_work w) m)). split; [done|]. split; [|done].
    intros v. rewrite <- V1. apply W1.
Qed.

Lemma remove_all (l1 l2 : list oid) : (forall w, w ∈ l2 -> w ∈ l1) -> fold_left (fun l w => lremove w l) l1 l2 = [].
Proof.
  revert l2. induction l1 as [|w l1 IH]; intros l2 Hs; simpl.
  - destruct l2 as [|x l2]; [done|]. specialize (Hs x ltac:(left)). by apply elem_of_nil in Hs.
  - apply IH. intros v [Hn Hi]%elem_of_lremove. apply Hs, elem_of_cons in Hi as [|]; [done|done].
Qed.

Lemma cancel_all_spec k o q : kwf k -> queue_of k o = Some q ->
  exists d k', rt_workqueue_cancel_all_work o k = Some (RT_EOK, k') /\ rescheduled (with_dipc d k) k' /\
    queue_of k' o = Some (Workqueue [] (wkq_current q) (wkq_thread q)) /\ (forall v, work_of k' v = work_of k v).
Proof.
  intros H Eq. unfold rt_workqueue_cancel_all_work, rt_enter_critical. munfold. set (k0 := with_lock_nest _ k).
  rewrite (get_workqueue_eval k0 o q Eq). destruct (remove_works_eval o (wkq_list q) k0 q Eq) as (d & E1 & W1 & Q1).
  rewrite remove_all in Q1 by done. set (k1 := with_dipc d k0) in *. rewrite E1.
  assert (rescheduled (with_dipc d k) k1) as R1.
  { apply (rescheduled_lock (with_dipc d k) (fun n => s16 (n + 1))). apply (kwf_sched _ (kwf_with_dipc d _ H)). }
  destruct (rescheduled_exit k1) as (k2 & E2 & R2); [apply R1|]. rewrite E2. exists d, k2. split; [done|].
  destruct (objects_view _ _ (rs_objects _ _ R2)) as [V1 V2].
  split; [by eapply rescheduled_trans|]. split; [by rewrite V2|]. intros v. rewrite V1. apply W1.
Qed.

(** ** The end of a work *)

(** The threads [l] have been made ready without an error. *)
Record let_go (k k' : kstate) (l : list tid) : Prop := LetGo {
  lg_kwf : kwf k';
  lg_current : is_Some (k_current k) -> is_Some (k_current k');
  lg_works v : work_of k' v = work_of k v;
  lg_queues o : queue_of k' o = queue_of k o;
  lg_awake t : t ∈ l -> exists th, k_threads k' !! t = Some th /\ awake th /\ th_error th = RT_EOK;
  lg_others t : t ∉ l -> thread_moved (k_threads k !! t) (k_threads k' !! t)
}.

Lemma let_go_rescheduled k k1 : rescheduled k k1 -> kwf k -> let_go k k1 [].
Proof.
  intros R H. destruct (objects_view _ _ (rs_objects _ _ R)). split; try done; [by apply (rs_kwf _ _ R)|apply R|by intros t ?%elem_of_nil|].
  intros t _. apply R.
Qed.

Lemma let_go_trans k1 k2 k3 l1 l2 : (forall t, t ∈ l1 -> t ∉ l2) -> let_go k1 k2 l1 -> let_go k2 k3 l2 -> let_go k1 k3 (l1 ++ l2).
Proof.
  intros Hd [A1 A2 A3 A4 A5 A6] [B1 B2 B3 B4 B5 B6]. split; try done; [by auto|by intros; rewrite B3|by intros; rewrite B4| |].
  - intros t [Hi|Hi]%elem_of_app; [|by apply B5]. destruct (A5 t Hi) as (th & E & Ha & He).
    destruct (moved_awake _ _ (B6 t (Hd t Hi)) _ E Ha) as (th' & ? & ? & ? & _). exists th'. split_and!; [done|done|congruence].
  - intros t [H1 H2]%not_elem_of_app. eapply thread_moved_trans; [by apply A6|by apply B6].
Qed.

Lemma let_go_sems f k : kwf k -> let_go k (with_sems f k) [].
Proof. intros H. split; try done; [by apply kwf_with_sems|by intros t ?%elem_of_nil|by left]. Qed.

Lemma trytake_empty k o s : sem_ok k o s -> sem_value s = 0 -> rt_sem_trytake o k = Some (Returned (- RT_ETIMEOUT), k).
Proof.
  intros [E _ _ _ _] Hv. unfold rt_sem_trytake, rt_sem_take, get_sem. munfold. rewrite E, decide_False by lia. by rewrite decide_True.
Qed.

(** Nobody waits: the semaphore goes from 0 to 1 and back. *)
Lemma completion_loop_last k o s fuel : kwf k -> sem_ok k o s -> sem_value s = 0 -> k_lists k (LSuspend o) = [] ->
  exists f, completion_loop (S fuel) o k = Some (RT_EOK, with_sems f k) /\ sem_ok (with_sems f k) o s.
Proof.
  intros H Hok Hv El. pose proof Hok as [Es _ _ _ _]. cbn [completion_loop]. munfold. rewrite (trytake_empty k o s Hok Hv), decide_True by done.
  unfold rt_sem_release, get_sem. munfold. rewrite Es, El, bool_decide_true by done. rewrite (set_sem_value_eval k o s _ Es). simpl.
  set (k1 := with_sems _ k). set (s1 := with_value (u16 (sem_value s + 1)) s) in *.
  assert (k_sems k1 !! o = Some s1) as E1 by apply lookup_insert_eq.
  assert (rt_sem_trytake o k1 = Some (Returned RT_EOK, with_sems (insert o (with_value 0 s1)) k1)) as Et.
  { unfold rt_sem_trytake, rt_sem_take, get_sem. munfold. rewrite E1. unfold s1. simpl. rewrite Hv, decide_True by done.
    by rewrite (set_sem_value_eval k1 o s1 _ E1). }
  exists (fun m => <[o := with_value 0 s1]> (<[o := s1]> m)). split; [by destruct fuel; cbn [completion_loop]; munfold; rewrite Et|].
  destruct Hok as [H1 H2 H3 H4 H5]. split; try done. simpl. rewrite lookup_insert_eq. f_equal. destruct s. unfold with_value. simpl in *. by subst.
Qed.

Lemma woken_let_go k k' h t : woken k k' h t -> waiters_clean k h -> let_go k k' [t].
Proof.
  intros W Hcl. destruct (objects_view _ _ (wk_objects _ _ _ _ W)). split; [apply W|apply W|done|done| |].
  - intros u ->%list_elem_of_singleton. destruct (woken_error _ _ _ _ W Hcl) as (th & E & Ha & He). by exists th.
  - intros u [Hu _]%not_elem_of_cons. by apply (wk_threads _ _ _ _ W).
Qed.

Lemma completion_loop_spec o l : forall k s fuel,
  kwf k -> is_Some (k_current k) -> sem_ok k o s -> sem_value s = 0 -> k_lists k (LSuspend o) = l -> (length l <= fuel)%nat ->
  exists k', completion_loop (S fuel) o k = Some (RT_EOK, k') /\ let_go k k' l /\ sem_ok k' o s /\ k_lists k' (LSuspend o) = [].
Proof.
  induction l as [|t l IH]; intros k s fuel H Hc Hok Hv El Hf.
  - destruct (completion_loop_last k o s fuel H Hok Hv El) as (f & E & Hok'). exists (with_sems f k). split; [done|].
    split; [by apply let_go_sems|]. by split.
  - destruct fuel as [|fuel]; simpl in Hf; [lia|]. pose proof Hok as [Es _ _ _ Hcl].
    destruct (resume_and_schedule k (LSuspend o) t l H) as (k1 & k2 & E1 & E2 & W); [done..|].
    pose proof (woken_head k k2 (LSuspend o) t l H El W) as El2.
    assert (sem_ok k2 o s) as Hok2.
    { destruct Hok as [S1 S2 S3 S4 S5]. destruct (objects_inj _ _ (wk_objects _ _ _ _ W)) as (Eo & _).
      split; try done; [by rewrite Eo|by apply (woken_clean k k2 (LSuspend o) t)]. }
    destruct (IH k2 s fuel (wk_kwf _ _ _ _ W) (wk_current _ _ _ _ W Hc) Hok2 Hv El2 ltac:(lia)) as (k3 & E3 & G3 & Hok3 & El3).
    exists k3. split; [|split; [|done]].
    + cbn [completion_loop]. munfold. rewrite (trytake_empty k o s Hok Hv), decide_True by done. unfold rt_sem_release, get_sem. munfold.
      rewrite Es, El, bool_decide_false by done. rewrite E1. simpl. rewrite E2. exact E3.
    + apply (let_go_trans k k2 k3 [t] l); [|by eapply woken_let_go|done]. intros u ->%list_elem_of_singleton.
      pose proof (wf_nodup _ _ (proj1 (kwf_sched _ H)) (LSuspend o)) as Hnd. rewrite El in Hnd. by apply NoDup_cons in Hnd as [? _].
Qed.

(** [_workqueue_work_completion] ends, and lets everybody go who waits for the
    end of the work; the semaphore is 0 again. *)
Lemma work_completion_spec k o s : kwf k -> is_Some (k_current k) -> sem_ok k o s -> sem_value s = 0 ->
  exists k', _workqueue_work_completion o k = Some (RT_EOK, k') /\ let_go k k' (k_lists k (LSuspend o)) /\ sem_ok k' o s /\
    k_lists k' (LSuspend o) = [].
Proof.
  intros H Hc Hok Hv. unfold _workqueue_work_completion, rt_enter_critical. munfold. set (k0 := with_lock_nest _ k).
  assert (rescheduled k k0) as R0 by (by apply rescheduled_lock, H).
  destruct (completion_loop_spec o (k_lists k0 (LSuspend o)) k0 s (length (k_lists k0 (LSuspend o)))) as (k1 & E1 & G1 & Hok1 & El1);
    [by apply (rs_kwf k)|done|by destruct Hok; split|done|done|lia|].
  rewrite E1. destruct (rescheduled_exit k1) as (k2 & E2 & R2); [apply (kwf_sched _ (lg_kwf _ _ _ G1))|]. rewrite E2.
  exists k2. split; [done|].
  assert (k_lists k2 (LSuspend o) = []) as El2 by (by rewrite (rs_waits _ _ R2)). split; [|split; [|done]].
  - pose proof (let_go_trans _ _ _ _ _ ltac:(by intros ? ?%elem_of_nil) (let_go_rescheduled _ _ R0 H) G1) as G.
    rewrite <- (app_nil_r (k_lists k (LSuspend o))). eapply let_go_trans; [by intros ? _ ?%elem_of_nil|exact G|].
    apply let_go_rescheduled; [done|apply G1].
  - destruct Hok1 as [S1 S2 S3 S4 S5]. destruct (objects_inj _ _ (rs_objects _ _ R2)) as (Eo & _).
    split; [by rewrite Eo|done|done|done|]. intros u. rewrite El2. by intros ?%elem_of_nil.
Qed.

(** ** Taking a work *)

Definition taken_work (x : work) : work := Work (clear_bit RT_WORK_STATE_PENDING (wk_flags x)) (wk_type x) None.

Lemma take_spec k o q w l x f : queue_of k o = Some q -> wkq_list q = w :: l -> NoDup (wkq_list q) -> work_of k w = Some x ->
  exists k', worker_step f o PcTake k = Some (PcCall w, k') /\
    updated k k' o (Workqueue l (Some w) (wkq_thread q)) w (taken_work x).
Proof.
  intros Eq El Hnd Ew. unfold worker_step. rewrite (bind_eval _ _ _ _ _ (get_workqueue_eval k o q Eq)), El. unfold work_list_remove. munfold. simpl.
  destruct (removed_view k w) as [V1 V2]. set (k1 := with_dipc _ k) in *.
  assert (queue_of k1 o = Some (Workqueue l (wkq_current q) (wkq_thread q))) as E1.
  { rewrite V2, Eq. simpl. unfold without. rewrite El in *. apply NoDup_cons in Hnd as [Hw _]. by rewrite lremove_cons_eq. }
  unfold set_current, put_workqueue, put_dipc. munfold. rewrite (get_workqueue_eval k1 o _ E1). simpl.
  set (q2 := Workqueue l (Some w) (wkq_thread q)). destruct (put_queue_view k1 o _ q2 E1) as [P1 P2]. set (k2 := with_dipc _ k1) in *.
  destruct (set_flags_eval k2 w (clear_bit RT_WORK_STATE_PENDING) x) as (d & E3 & W3 & Q3); [by rewrite P1, V1|].
  rewrite E3. set (k3 := with_dipc d k2) in *. unfold set_queue, put_work, put_dipc. munfold.
  assert (work_of k3 w = Some (not_pending x)) as Ex3 by (by rewrite W3, decide_True).
  rewrite (get_work_eval k3 w _ Ex3). destruct (put_work_view k3 w _ (taken_work x) Ex3) as [F1 F2].
  eexists. split; [done|]. split.
  - rewrite F2, Q3. exact P2.
  - intros v. rewrite F1. case_decide; [done|]. rewrite W3, decide_False by done. by rewrite P1, V1.
  - by exists (fun m => insert w (DevWork (taken_work x)) (d (insert o (DevWorkqueue q2) (fmap (without_work w) m)))).
Qed.

(** ** Runs of a work queue *)

(** What happens to the queue [o]: works are submitted (by threads, or by the
    timers of delayed works) and cancelled, the thread of the queue goes on, and
    everything else.  The work functions count as the rest.  A submission is
    two steps, its critical section and the resumption of the thread, for it
    enables interrupts between them.  [ELate] is a resumption that comes when
    the list is empty and the thread waits, or is about to. *)
Inductive wq_event := ESubmit (w : oid) | ECritical (w : oid) | ECancel (w : oid) | ECancelAll | ETake (w : oid) | ELate.

(** The thread has found the list empty, and will not look at it again. *)
Definition waiting (pc : worker_pc) : bool := match pc with PcSchedule | PcTake => true | _ => false end.

(** The rest of the system: it keeps the queue and the works' state, and does
    not wake the thread of the queue while it waits for work. *)
Record other_step (o : oid) (q : workqueue) (pc : worker_pc) (k k' : kstate) : Prop := OtherStep {
  ot_kwf : kwf k';
  ot_current : is_Some (k_current k');
  ot_queue : queue_of k' o = Some q;
  ot_works v x : work_of k v = Some x -> exists x', work_of k' v = Some x' /\ (pending x -> pending x');
  ot_sem s : sem_ok k o s -> sem_value s = 0 -> exists s', sem_ok k' o s' /\ sem_value s' = 0;
  ot_worker th : k_threads k !! wkq_thread q = Some th -> started th -> exists th', k_threads k' !! wkq_thread q = Some th' /\
    started th' /\ (waiting pc = true -> stat_base th = RT_THREAD_SUSPEND -> stat_base th' = RT_THREAD_SUSPEND)
}.

Definition accepted (r : Z) (e : wq_event) : list wq_event := if decide (r = RT_EOK) then [e] else [].

(** The thread of the queue is on the processor: it runs, or has suspended itself. *)
Definition on_cpu (k : kstate) (t : tid) (pc : worker_pc) : Prop :=
  k_current k = Some t /\ (pc = PcSchedule \/ exists th, running k t th).

(** The state is the kernel's, the place of the thread, and how many submissions
    have yet to resume it. *)
Inductive wq_step (o : oid) : kstate * worker_pc * nat -> list wq_event -> kstate * worker_pc * nat -> Prop :=
  | st_submit k pc n w r wake k' : is_Some (work_of k w) -> submit_section o w k = Some ((r, wake), k') ->
      wq_step o (k, pc, n) (accepted r (ESubmit w)) (k', pc, (if wake then S n else n)%nat)
  | st_critical k pc n w r wake k' : is_Some (work_of k w) -> critical_section o w k = Some ((r, wake), k') ->
      wq_step o (k, pc, n) (accepted r (ECritical w)) (k', pc, (if wake then S n else n)%nat)
  | st_resume k pc n q k' : queue_of k o = Some q -> resume_worker o k = Some (tt, k') ->
      wq_step o (k, pc, S n) (if decide (waiting pc = true /\ wkq_list q = []) then [ELate] else []) (k', pc, n)
  | st_cancel k pc n w r k' : is_Some (work_of k w) -> _workqueue_cancel_work o w k = Some (r, k') ->
      wq_step o (k, pc, n) (accepted r (ECancel w)) (k', pc, n)
  | st_cancel_all k pc n r k' : rt_workqueue_cancel_all_work o k = Some (r, k') -> wq_step o (k, pc, n) [ECancelAll] (k', pc, n)
  | st_worker k pc n q pc' k' : queue_of k o = Some q -> on_cpu k (wkq_thread q) pc ->
      worker_step (fun _ => mret tt) o pc k = Some (pc', k') ->
      wq_step o (k, pc, n) (match pc' with PcCall w => [ETake w] | _ => [] end) (k', pc', n)
  | st_other k pc n q k' : queue_of k o = Some q -> other_step o q pc k k' -> wq_step o (k, pc, n) [] (k', pc, n).

Inductive wq_steps (o : oid) : kstate * worker_pc * nat -> list wq_event -> kstate * worker_pc * nat -> Prop :=
  | ws_refl s : wq_steps o s [] s
  | ws_step s1 tr s2 e s3 : wq_steps o s1 tr s2 -> wq_step o s2 e s3 -> wq_steps o s1 (tr ++ e) s3.

(** The abstract queue. *)
Definition replay1 (l : list oid) (e : wq_event) : list oid :=
  match e with
  | ESubmit w | ECritical w => lremove w l ++ [w]
  | ECancel w => lremove w l
  | ECancelAll => []
  | ETake w => tail l
  | ELate => l
  end.
Definition replay (l : list oid) (tr : list wq_event) : list oid := fold_left replay1 tr l.

Definition submitted (tr : list wq_event) : list oid := omap (fun e => match e with ESubmit w => Some w | _ => None end) tr.
Definition called (tr : list wq_event) : list oid := omap (fun e => match e with ETake w => Some w | _ => None end) tr.
(** Works are submitted and done, the thread is resumed in time, and nothing else. *)
Definition plain (tr : list wq_event) : Prop := Forall (fun e => match e with ESubmit _ | ETake _ => True | _ => False end) tr.

Record wq_inv (o : oid) (q : workqueue) (plain : Prop) (k : kstate) (pc : worker_pc) : Prop := WqInv {
  wi_kwf : kwf k;
  wi_cur : is_Some (k_current k);
  wi_queue : queue_of k o = Some q;
  wi_sem : exists s, sem_ok k o s /\ sem_value s = 0;
  wi_worker : exists th, k_threads k !! wkq_thread q = Some th /\ started th /\
    (plain -> waiting pc = true -> wkq_list q <> [] \/ stat_base th = RT_THREAD_SUSPEND);
  wi_nodup : NoDup (wkq_list q);
  wi_apart w : wkq_current q = Some w -> w ∉ wkq_list q;
  wi_works w : w ∈ wkq_list q -> exists x, work_of k w = Some x /\ (plain -> pending x);
  wi_pc : match pc with PcCall w => wkq_current q = Some w | PcDone => wkq_current q <> None | _ => wkq_current q = None end
}.

Lemma moved_started o o' th : thread_moved o o' -> o = Some th -> started th ->
  exists th', o' = Some th' /\ started th' /\ (stat_base th = RT_THREAD_SUSPEND -> stat_base th' = RT_THREAD_SUSPEND).
Proof.
  intros Hm E Hs. destruct (moved_base _ _ Hm _ E) as (s & -> & Hs'). eexists. split; [done|]. destruct Hs' as [Hs'|[Ha Hs']].
  - split; [unfold started in *; by rewrite Hs'|congruence].
  - split; [by apply awake_started|]. intros Hsus. by apply awake_not_suspended in Ha as [].
Qed.

Lemma updated_inv o q q' P k k' pc pc' w x x' :
  wq_inv o q P k pc -> work_of k w = Some x -> updated k k' o q' w x' ->
  wkq_thread q' = wkq_thread q -> NoDup (wkq_list q') -> (forall v, wkq_current q' = Some v -> v ∉ wkq_list q') ->
  (forall v, v ∈ wkq_list q' -> v = w \/ v ∈ wkq_list q) -> (P -> w ∈ wkq_list q' -> pending x') ->
  (match pc' with PcCall w => wkq_current q' = Some w | PcDone => wkq_current q' <> None | _ => wkq_current q' = None end) ->
  (P -> waiting pc' = true -> wkq_list q' <> []) -> wq_inv o q' P k' pc'.
Proof.
  intros [I1 I2 I3 (s & Hs1 & Hs2) (th & Et & Hst & _) I6 I7 I8 I9] Ex [U1 U2 (d & ->)] Hth Hnd Hap Hl Hp Hpc Htake.
  split; try done.
  - by apply kwf_with_dipc.
  - exists s. split; [by apply sem_ok_dipc|done].
  - exists th. rewrite Hth. split_and!; [done|done|]. intros HP Hw. left. by apply Htake.
  - intros v Hv. rewrite U2. case_decide; [subst; exists x'; auto|]. apply I8. destruct (Hl v Hv); [done|done].
Qed.

Lemma NoDup_readd (l : list oid) w : NoDup l -> NoDup (lremove w l ++ [w]).
Proof.
  intros H. apply NoDup_app. split; [by apply NoDup_lremove|]. split; [|apply NoDup_singleton].
  intros v [Hn _]%elem_of_lremove. by intros ->%list_elem_of_singleton.
Qed.

Lemma pending_set x : pending (with_pending x).
Proof.
  unfold pending, with_pending, set_bit, RT_WORK_STATE_PENDING. simpl. change 1 with (2 ^ 0).
  rewrite land_pow2_nonzero, Z.lor_spec, testbit_pow2 by lia. rewrite bool_decide_true by done. apply orb_true_r.
Qed.

(** Putting a work at the end of the list. *)
Lemma relisted_inv o q P k k' pc w x x' :
  wq_inv o q P k pc -> work_of k w = Some x -> wkq_current q <> Some w -> (P -> pending x') ->
  updated k k' o (appended w (without w q)) w x' -> wq_inv o (appended w (without w q)) P k' pc.
Proof.
  intros I Ex Hc Hp U. eapply (updated_inv o q _ P k k' pc pc w x x'); try done.
  - apply NoDup_readd, I.
  - intros v Hv. simpl in *. rewrite elem_of_app, elem_of_lremove, list_elem_of_singleton. intros [[_ Hi]|Heq]; [by apply (wi_apart _ _ _ _ _ I v)|congruence].
  - intros v. simpl. rewrite elem_of_app, elem_of_lremove, list_elem_of_singleton. tauto.
  - intros HP _. auto.
  - apply I.
  - intros _ _. simpl. by destruct (lremove w (wkq_list q)).
Qed.

(** What a step of the system does to the abstract queue. *)
Definition step_ok (o : oid) (q : workqueue) (P : Prop) (k' : kstate) (pc' : worker_pc) (e : list wq_event) : Prop :=
  exists q', wq_inv o q' P k' pc' /\ wkq_list q' = replay (wkq_list q) e /\
    (P -> wkq_list q ++ submitted e = called e ++ wkq_list q').

Lemma refused_ok o q P k pc r e : wq_inv o q P k pc -> r <> RT_EOK -> step_ok o q P k pc (accepted r e).
Proof. intros I Hr. exists q. unfold accepted. rewrite decide_False by done. split; [done|]. split; [done|]. intros _. apply app_nil_r. Qed.

Lemma submit_ok o q P k pc w r wake k' : wq_inv o q P k pc -> is_Some (work_of k w) -> submit_section o w k = Some ((r, wake), k') ->
  step_ok o q P k' pc (accepted r (ESubmit w)).
Proof.
  intros I [x Ex] E. pose proof I as [I1 I2 I3 _ _ I6 I7 I8 I9].
  pose proof (submit_spec k o q w x I3 Ex) as S. case_decide as Hd; [rewrite S in E; simplify_eq; by apply refused_ok|].
  destruct S as (k1 & E1 & U). rewrite E in E1. simplify_eq. exists (appended w (without w q)).
  split; [|split; [done|]].
  - eapply relisted_inv; try done; [tauto|]. intros _. apply pending_set.
  - intros HP. simpl. rewrite lremove_notin; [done|]. intros Hi. destruct (I8 w Hi) as (y & Ey & Hy). simplify_eq. apply Hd. left. by apply Hy.
Qed.

Lemma not_plain (P : Prop) e : (P -> plain [e]) -> match e with ESubmit _ | ETake _ => True | _ => P -> False end.
Proof. intros H. destruct e; try done; intros HP; specialize (H HP); by apply Forall_inv in H. Qed.

Lemma critical_ok o q (P : Prop) k pc w r wake k' : wq_inv o q P k pc -> is_Some (work_of k w) -> critical_section o w k = Some ((r, wake), k') ->
  (P -> plain (accepted r (ECritical w))) -> step_ok o q P k' pc (accepted r (ECritical w)).
Proof.
  intros I [x Ex] E Hp. pose proof I as [I1 I2 I3 _ _ I6 I7 I8 I9].
  pose proof (critical_spec k o q w x I3 Ex) as S. case_decide as Hd; [rewrite S in E; simplify_eq; by apply refused_ok|].
  destruct S as (k1 & E1 & U). rewrite E in E1. simplify_eq. pose proof (not_plain P _ Hp) as HP. simpl in HP.
  exists (appended w (without w q)). split; [|by split]. eapply relisted_inv; [done|done|done| |done]. by intros ?%HP.
Qed.

Lemma cancel_ok o q (P : Prop) k pc w r k' : wq_inv o q P k pc -> is_Some (work_of k w) -> _workqueue_cancel_work o w k = Some (r, k') ->
  (P -> plain (accepted r (ECancel w))) -> step_ok o q P k' pc (accepted r (ECancel w)).
Proof.
  intros I [x Ex] E Hp. pose proof I as [I1 I2 I3 _ _ I6 I7 I8 I9].
  pose proof (cancel_spec k o q w x I3 Ex) as S. case_decide as Hd; [rewrite S in E; simplify_eq; by apply refused_ok|].
  destruct S as (k1 & E1 & U). rewrite E in E1. simplify_eq. pose proof (not_plain P _ Hp) as HP. simpl in HP.
  exists (without w q). split; [|split; [done|by intros ?%HP]].
  eapply updated_inv; [done|done|done|done|by apply NoDup_lremove| | |by intros ?%HP|done|by intros ?%HP].
  - intros v Hv. simpl. rewrite elem_of_lremove. intros [_ Hi]. by apply (I7 v).
  - intros v. simpl. rewrite elem_of_lremove. tauto.
Qed.

(** The thread is made ready; if it waits, there must be a work for it. *)
Lemma resume_ok o q (P : Prop) k pc k' : wq_inv o q P k pc -> resume_worker o k = Some (tt, k') ->
  let e := if decide (waiting pc = true /\ wkq_list q = []) then [ELate] else [] in (P -> plain e) -> step_ok o q P k' pc e.
Proof.
  intros [I1 I2 I3 (s & Hs1 & Hs2) (th & Et & Hst & _) I6 I7 I8 I9] E e Hp.
  destruct (resume_worker_spec k o q th I1 I3 Et Hst) as (k1 & E1 & L). rewrite E in E1. injection E1 as <-.
  destruct (objects_view _ _ (lr_objects _ _ _ L)) as [V1 V2]. destruct (lr_thread _ _ _ L th Et) as (th' & Et' & _ & _ & Hst').
  assert (P -> waiting pc = true -> wkq_list q <> []) as Hl.
  { intros HP Hw El. specialize (Hp HP). unfold e in Hp. rewrite decide_True in Hp by done. by apply Forall_inv in Hp. }
  exists q. split; [|split; [unfold e; by case_decide|intros HP; unfold e; case_decide; simpl; by rewrite app_nil_r]]. split; try done.
  - apply L.
  - by apply L.
  - by rewrite V2.
  - exists s. split; [by apply (sem_ok_let_run _ _ _ _ _ L)|done].
  - exists th'. split_and!; [done|by apply Hst'|]. intros HP Hw. left. by apply Hl.
  - intros w Hw. rewrite V1. by apply I8.
Qed.

Lemma rescheduled_sem_ok k k' o s : rescheduled k k' -> sem_ok k o s -> sem_ok k' o s.
Proof.
  intros R [H1 H2 H3 H4 H5]. destruct (objects_inj _ _ (rs_objects _ _ R)) as (Es & _).
  split; [by rewrite Es|done|done|by rewrite (rs_waits _ _ R)|]. apply (clean_moved k); [apply R|by rewrite (rs_waits _ _ R)|done].
Qed.

Lemma cancel_all_ok o q (P : Prop) k pc r k' : wq_inv o q P k pc -> rt_workqueue_cancel_all_work o k = Some (r, k') ->
  (P -> plain [ECancelAll]) -> step_ok o q P k' pc [ECancelAll].
Proof.
  intros [I1 I2 I3 (s & Hs1 & Hs2) (th & Et & Hst & _) I6 I7 I8 I9] E Hp. pose proof (not_plain P _ Hp) as HP. simpl in HP.
  destruct (cancel_all_spec k o q I1 I3) as (d & k1 & E1 & R & Q & W). rewrite E in E1. simplify_eq.
  exists (Workqueue [] (wkq_current q) (wkq_thread q)). split; [|split; [done|by intros ?%HP]]. split; try done.
  - apply (rs_kwf _ _ R). by apply kwf_with_dipc.
  - by apply R.
  - exists s. split; [|done]. by apply (rescheduled_sem_ok _ _ _ _ R), sem_ok_dipc.
  - destruct (moved_started _ _ th (rs_threads _ _ R (wkq_thread q)) Et Hst) as (th' & ? & ? & _). exists th'. split_and!; [done|done|by intros ?%HP].
  - apply NoDup_nil_2.
  - intros v _. simpl. apply not_elem_of_nil.
  - intros v Hi. simpl in Hi. by apply elem_of_nil in Hi.
Qed.

Lemma other_ok o q P k pc k' : wq_inv o q P k pc -> other_step o q pc k k' -> step_ok o q P k' pc [].
Proof.
  intros [I1 I2 I3 (s & Hs1 & Hs2) (th & Et & Hst & Ht) I6 I7 I8 I9] [O1 O2 O3 O4 O5 O6].
  exists q. split; [|split; [done|intros _; apply app_nil_r]]. split; try done.
  - by eapply O5.
  - destruct (O6 th Et Hst) as (th' & ? & ? & Hsus). exists th'. split_and!; [done|done|]. intros HP Hpc.
    destruct (Ht HP Hpc); [by left|right; auto].
  - intros w Hw. destruct (I8 w Hw) as (x & Ex & Hx). destruct (O4 w x Ex) as (x' & ? & ?). exists x'. auto.
Qed.

(** ** The steps of the thread *)

Definition nothing (_ : oid) : KM unit := mret tt.
Definition events (pc : worker_pc) : list wq_event := match pc with PcCall w => [ETake w] | _ => [] end.
Definition steps_ok (o : oid) (q : workqueue) (P : Prop) (k : kstate) (pc : worker_pc) : Prop :=
  exists pc' k', worker_step nothing o pc k = Some (pc', k') /\ step_ok o q P k' pc' (events pc').

Lemma same_queue_ok o q P k' pc' : wq_inv o q P k' pc' -> events pc' = [] -> step_ok o q P k' pc' (events pc').
Proof. intros I ->. exists q. split; [done|]. split; [done|]. intros _. apply app_nil_r. Qed.

Lemma wq_inv_pc o q P k pc pc' : wq_inv o q P k pc ->
  (match pc' with PcCall w => wkq_current q = Some w | PcDone => wkq_current q <> None | _ => wkq_current q = None end) ->
  (P -> waiting pc' = true -> wkq_list q <> []) -> wq_inv o q P k pc'.
Proof.
  intros [I1 I2 I3 I4 (th & Et & Hst & _) I6 I7 I8 I9] Hpc Ht. split; try done. exists th. split_and!; [done|done|]. auto.
Qed.

Lemma test_ok o q P k : wq_inv o q P k PcTest -> steps_ok o q P k PcTest.
Proof.
  intros I. pose proof (wi_pc _ _ _ _ _ I) as Hpc. unfold steps_ok. cbn [worker_step].
  rewrite (bind_eval _ _ _ _ _ (get_workqueue_eval k o q (wi_queue _ _ _ _ _ I))).
  eexists _, k. split; [done|]. case_decide as El; (apply same_queue_ok; [|done]); by eapply wq_inv_pc.
Qed.

Lemma suspend_ok o q P k th : wq_inv o q P k PcSuspend -> running k (wkq_thread q) th -> steps_ok o q P k PcSuspend.
Proof.
  intros I Hr. pose proof I as [I1 I2 I3 (s & Hs1 & Hs2) (th0 & Et0 & Hst & _) I6 I7 I8 I9]. pose proof Hr as (Hc & Et & Hs).
  rewrite Et in Et0. injection Et0 as <-. set (t := wkq_thread q) in *. destruct (rt_thread_suspend_spec k t th I1 Et) as [Es Hks]; [by right|].
  destruct (suspended_thread t th k Et) as (E1 & En & Ec1 & Er1 & El1). set (k1 := suspended t th k) in *.
  exists PcSchedule, k1. split; [cbn [worker_step]; unfold self, rt_thread_self; munfold; rewrite Hc, Es; done|].
  assert (stat_base (put_stat RT_THREAD_SUSPEND th) = RT_THREAD_SUSPEND) as Hps by (by autorewrite with kstat).
  destruct (objects_view k k1 (rest_objects _ _ Er1)) as [W1 W2].
  apply same_queue_ok; [|done]. split; try done.
  - by rewrite Ec1, Hc.
  - by rewrite W2.
  - exists s. split; [|done]. pose proof (rest_objects _ _ Er1) as (Eo & _)%objects_inj. destruct Hs1 as [S1 S2 S3 S4 S5].
    assert (k_lists k1 (LSuspend o) = k_lists k (LSuspend o)) as El.
    { rewrite El1. apply lremove_notin. apply (running_notin ∅ k t th); [apply I1|done|done]. }
    split; [by rewrite Eo|done|done|by rewrite El|]. intros u. rewrite El. intros Hu. destruct (S5 u Hu) as (uth & Eu & He).
    rewrite En; [by exists uth|]. intros ->. by apply (running_notin ∅ k t th (LSuspend o)) in Hu; [|apply I1|done..].
  - eexists. split; [exact E1|]. split; [unfold started; by rewrite Hps|]. intros _ _. by right.
  - intros w Hw. rewrite W1. by apply I8.
Qed.

Lemma schedule_ok o q P k : wq_inv o q P k PcSchedule -> steps_ok o q P k PcSchedule.
Proof.
  intros [I1 I2 I3 (s & Hs1 & Hs2) (th & Et & Hst & Ht) I6 I7 I8 I9].
  destruct (rescheduled_schedule k (kwf_sched _ I1) I2) as (k' & E' & R). destruct (objects_view _ _ (rs_objects _ _ R)) as [V1 V2].
  exists PcTake, k'. split; [cbn [worker_step]; munfold; by rewrite E'|]. apply same_queue_ok; [|done]. split; try done.
  - by apply (rs_kwf _ _ R).
  - by apply R.
  - by rewrite V2.
  - exists s. split; [by apply (rescheduled_sem_ok _ _ _ _ R)|done].
  - destruct (moved_started _ _ _ (rs_threads _ _ R (wkq_thread q)) Et Hst) as (th' & ? & ? & Hsus).
    exists th'. split_and!; [done|done|]. intros HP _. destruct (Ht HP eq_refl); [by left|right; by apply Hsus].
  - intros w Hw. rewrite V1. by apply I8.
Qed.

Lemma take_ok o q P k w l : wq_inv o q P k PcTake -> wkq_list q = w :: l -> steps_ok o q P k PcTake.
Proof.
  intros I El. pose proof I as [I1 I2 I3 _ _ I6 I7 I8 I9]. destruct (I8 w) as (x & Ex & _); [rewrite El; left|].
  destruct (take_spec k o q w l x nothing I3 El I6 Ex) as (k' & E & U). exists (PcCall w), k'. split; [done|].
  rewrite El in I6. apply NoDup_cons in I6 as [Hw Hl]. exists (Workqueue l (Some w) (wkq_thread q)).
  split; [|split; [simpl; by rewrite El|intros _; simpl; by rewrite El, app_nil_r]].
  eapply (updated_inv o q _ P k k' _ (PcCall w) w x); try done; [by intros v [= <-]|].
  intros v Hv. right. rewrite El. by right.
Qed.

Lemma done_ok o q P k : wq_inv o q P k PcDone -> steps_ok o q P k PcDone.
Proof.
  intros [I1 I2 I3 (s & Hs1 & Hs2) (th & Et & Hst & _) I6 I7 I8 I9]. unfold steps_ok, worker_step, set_current.
  set (q' := Workqueue (wkq_list q) None (wkq_thread q)). destruct (put_queue_view k o q q' I3) as [P1 P2].
  exists PcAck. eexists. split; [unfold put_workqueue, put_dipc; munfold; by rewrite (get_workqueue_eval k o q I3)|].
  exists q'. split; [|split; [done|intros _; apply app_nil_r]]. split; try done.
  - by apply kwf_with_dipc.
  - exists s. split; [by apply sem_ok_dipc|done].
  - exists th. by split_and!.
  - intros w Hw. rewrite P1. by apply I8.
Qed.

Lemma ack_ok o q P k th : wq_inv o q P k PcAck -> running k (wkq_thread q) th -> steps_ok o q P k PcAck.
Proof.
  intros [I1 I2 I3 (s & Hs1 & Hs2) (th0 & Et0 & Hst & _) I6 I7 I8 I9] (Hc & Et & Hs).
  rewrite Et in Et0. injection Et0 as <-. destruct (work_completion_spec k o s I1 I2 Hs1 Hs2) as (k' & E & [G1 G2 G3 G4 G5 G6] & Hs' & El).
  exists PcTest, k'. split; [cbn [worker_step]; munfold; by rewrite E|]. apply same_queue_ok; [|done]. split; try done.
  - by apply G2.
  - by rewrite G4.
  - by exists s.
  - destruct (moved_started _ _ th (G6 (wkq_thread q) ltac:(eapply (running_notin ∅ k); [apply I1|done|done])) Et Hst) as (th' & ? & ? & _).
    exists th'. by split_and!.
  - intros w Hw. rewrite G3. by apply I8.
Qed.

Lemma worker_ok o q P k pc : wq_inv o q P k pc -> on_cpu k (wkq_thread q) pc -> (pc = PcTake -> wkq_list q <> []) -> steps_ok o q P k pc.
Proof.
  intros I [Hc Hr] Ht. destruct (decide (pc = PcSchedule)) as [->|Hn]; [by apply schedule_ok|].
  destruct Hr as [?|[th Hr]]; [done|]. destruct pc as [| | | |w| |]; [..|by eapply ack_ok].
  - by apply test_ok.
  - by apply (suspend_ok o q P k th).
  - done.
  - destruct (wkq_list q) as [|w l] eqn:El; [by destruct (Ht eq_refl)|]. by eapply take_ok.
  - exists PcDone, k. split; [done|]. apply same_queue_ok; [|done]. eapply wq_inv_pc; [done| |done]. by rewrite (wi_pc _ _ _ _ _ I).
  - by apply done_ok.
Qed.

(** ** The queue as a whole *)

Lemma suspended_not_running k t th : running k t th -> stat_base th <> RT_THREAD_SUSPEND.
Proof. intros (_ & _ & ->). done. Qed.

Lemma wq_step_ok o q (P : Prop) k pc n e k' pc' n' :
  wq_inv o q P k pc -> wq_step o (k, pc, n) e (k', pc', n') -> (P -> plain e) -> step_ok o q P k' pc' e.
Proof.
  intros I S Hp. inversion S; subst.
  - by eapply submit_ok.
  - by eapply critical_ok.
  - match goal with Eq : queue_of _ _ = Some ?q1 |- _ => rewrite (wi_queue _ _ _ _ _ I) in Eq; injection Eq as Eq; subst q1 end.
    by apply (resume_ok o q P k).
  - by eapply cancel_ok.
  - by eapply cancel_all_ok.
  - match goal with Eq : queue_of _ _ = Some ?q1 |- _ => rewrite (wi_queue _ _ _ _ _ I) in Eq; injection Eq as Eq; subst q1 end.
    destruct (decide (pc = PcTake /\ wkq_list q = [])) as [[-> El]|Hn].
    + match goal with H : worker_step _ _ _ _ = _ |- _ => revert H end. cbn [worker_step].
      rewrite (bind_eval _ _ _ _ _ (get_workqueue_eval k o q (wi_queue _ _ _ _ _ I))), El. done.
    + destruct (worker_ok o q P k pc I ltac:(done) ltac:(naive_solver)) as (pc2 & k2 & E2 & Hs).
      unfold nothing in E2. simplify_eq. exact Hs.
  - match goal with Eq : queue_of _ _ = Some ?q1 |- _ => rewrite (wi_queue _ _ _ _ _ I) in Eq; injection Eq as Eq; subst q1 end.
    by eapply other_ok.
Qed.

Lemma replay_app l tr e : replay l (tr ++ e) = replay (replay l tr) e.
Proof. apply fold_left_app. Qed.

Lemma wq_steps_ok o q0 (P : Prop) k0 pc0 n0 tr k pc n :
  wq_inv o q0 P k0 pc0 -> wq_steps o (k0, pc0, n0) tr (k, pc, n) -> (P -> plain tr) -> step_ok o q0 P k pc tr.
Proof.
  intros I S. remember (k0, pc0, n0) as s0 eqn:E0. remember (k, pc, n) as s1 eqn:E1. revert k pc n E1.
  induction S as [s|s1 tr [[k2 pc2] n2] e s3 S IH St]; intros k pc n E1 Hp.
  - simplify_eq. exists q0. split; [done|]. split; [done|]. intros _. apply app_nil_r.
  - subst. destruct (IH eq_refl k2 pc2 n2 eq_refl) as (q2 & I2 & L2 & F2); [intros HP; by apply Hp, Forall_app in HP as []|].
    destruct (wq_step_ok o q2 P k2 pc2 n2 e k pc n I2 St) as (q3 & I3 & L3 & F3); [intros HP; by apply Hp, Forall_app in HP as []|].
    exists q3. split; [done|]. split; [by rewrite replay_app, <- L2|]. intros HP. unfold submitted, called. rewrite !omap_app.
    rewrite app_assoc. fold (submitted tr). rewrite (F2 HP), <- !app_assoc. f_equal. by apply F3.
Qed.

(** C31: A work queue does what it is told in the order it is told. A submission
    is two steps, its critical section and, with interrupts enabled in between,
    the resumption of the thread of the queue. Whatever the interleaving of such
    steps, cancellations, the steps of the thread and those of the rest of the
    system (a work that is called counts as the rest, cancelling all works is
    one step), the list is what the abstract queue says, and every queued work
    is in the list once; the thread never does an undefined step, unless it
    takes a work from an empty list. That does not happen, works are called in
    the order of their submissions, each once, and none is lost (it has been
    called or is in the list), as long as nothing is cancelled or submitted as
    critical and no resumption comes late, that is, when the thread has already
    run its work and waits with an empty list; a late one makes it take from the
    empty list. *)
Theorem workqueue_runs_fifo o q0 k0 pc0 n0 tr k pc n :
  wq_inv o q0 True k0 pc0 -> wq_steps o (k0, pc0, n0) tr (k, pc, n) ->
  exists q, queue_of k o = Some q /\ wq_inv o q False k pc /\ wkq_list q = replay (wkq_list q0) tr /\
    (on_cpu k (wkq_thread q) pc -> ~ (pc = PcTake /\ wkq_list q = []) -> is_Some (worker_step nothing o pc k)) /\
    (plain tr -> wkq_list q0 ++ submitted tr = called tr ++ wkq_list q /\
       (on_cpu k (wkq_thread q) pc -> is_Some (worker_step nothing o pc k))).
Proof.
  intros I S. assert (wq_inv o q0 False k0 pc0) as I0.
  { destruct I as [I1 I2 I3 I4 (th & ? & ? & _) I6 I7 I8 I9]. split; try done; [by exists th|].
    intros w Hw. destruct (I8 w Hw) as (x & ? & _). by exists x. }
  destruct (wq_steps_ok o q0 False k0 pc0 n0 tr k pc n I0 S ltac:(by intros [])) as (q & Iq & L & _).
  exists q. split; [apply Iq|]. split; [done|]. split; [done|]. split.
  { intros Hr Hn. destruct (worker_ok o q False k pc Iq Hr) as (pc' & k' & -> & _); [naive_solver|by eexists]. }
  intros Hp. destruct (wq_steps_ok o q0 True k0 pc0 n0 tr k pc n I S ltac:(done)) as (q' & Iq' & _ & F).
  assert (q' = q) as -> by (pose proof (wi_queue _ _ _ _ _ Iq); pose proof (wi_queue _ _ _ _ _ Iq'); congruence).
  split; [by apply F|]. intros Hr. destruct (worker_ok o q True k pc Iq' Hr) as (pc' & k' & -> & _); [|by eexists].
  intros -> El. destruct (wi_worker _ _ _ _ _ Iq') as (th' & Et & _ & Ht). destruct (Ht Logic.I eq_refl) as [|Hs]; [done|].
  destruct Hr as (Hc & [?|(th & _ & Et' & Hr)]); [done|]. rewrite Et in Et'. injection Et' as ->. by rewrite Hr in Hs.
Qed.

(** A new queue, in which its thread has not begun. *)
Lemma rt_workqueue_create_ok k o t priority :
  kwf k -> is_Some (k_current k) -> k_irq_nest k = 0 -> unused k t -> k_sems k !! o = None -> k_lists k (LSuspend o) = [] ->
  0 <= priority < RT_THREAD_PRIORITY_MAX ->
  exists k', rt_workqueue_create (Some o) (Some t) true priority k = Some (Some o, k') /\ wq_inv o (Workqueue [] None t) True k' PcTest.
Proof.
  intros H Hc Hi Hu Es El Hp. unfold rt_workqueue_create, rt_sem_init, rt_ipc_object_init, put_sem, rt_assert. munfold.
  rewrite bool_decide_true by done. simpl.
  destruct (object_init_spec k (has k_sems o)) as (k1 & E1 & R1); [apply H|intros f; unfold has; simpl; by rewrite Es|]. rewrite E1.
  set (k2 := with_sems _ (with_lists _ k1)).
  assert (kwf k2) as H2.
  { apply kwf_with_sems, kwf_empty_list; [by apply (rs_kwf _ _ R1)|by rewrite (rs_waits _ _ R1)]. }
  assert (unused k2 t) as Hu2 by (by apply (rescheduled_unused k k1)).
  destruct (rt_thread_create_spec k2 t priority 10 H2 Hu2 Hp ltac:(by rewrite <- Hi, <- (rs_irq _ _ R1))) as (k3 & E3 & O3 & Et3 & _ & Hn3 & _).
  rewrite E3. unfold put_workqueue, put_dipc, modify. set (k4 := with_dipc _ k3).
  destruct (rt_thread_startup_spec k4 t (new_thread false priority 10)) as (k5 & E5 & O5 & (s & Et5 & Ha5) & _); [by apply kwf_with_dipc, O3|done..|].
  exists k5. split; [by rewrite E5|]. pose proof (ok_objects _ _ _ O5) as Eo. destruct (objects_view _ _ Eo) as [V1 V2].
  assert (k_lists k5 (LSuspend o) = []) as El5.
  { rewrite (ok_waits _ _ _ O5) by done. change (k_lists k4) with (k_lists k3). rewrite (ok_waits _ _ _ O3) by done.
    unfold k2. simpl. by rewrite fn_lookup_insert. }
  assert (k_sems k5 !! o = Some (Sem (Ipc true RT_IPC_FLAG_FIFO) 0)) as Es5.
  { destruct (objects_inj _ _ Eo) as (-> & _). destruct (objects_inj _ _ (ok_objects _ _ _ O3)) as (E & _).
    change (k_sems k4) with (k_sems k3). rewrite E. apply lookup_insert_eq. }
  split; try done.
  - apply O5.
  - apply O5. change (k_current k4) with (k_current k3). apply O3. by apply R1.
  - rewrite V2. unfold queue_of. simpl. by rewrite lookup_insert_eq.
  - exists (Sem (Ipc true RT_IPC_FLAG_FIFO) 0). split; [|done]. split; [done|done|by left|by rewrite El5|]. intros u. rewrite El5. by intros ?%elem_of_nil.
  - exists (with_stat s (startable (new_thread false priority 10))). split; [done|]. split; [by apply awake_started|done].
  - apply NoDup_nil_2.
  - intros w Hw. by apply elem_of_nil in Hw.
Qed.

(** ** Delayed works *)

Lemma kwf_user_timer k k' n : kwf k -> timers_ok k' -> k_threads k' = k_threads k -> k_lists k' = k_lists k ->
  k_ready_group k' = k_ready_group k -> k_current k' = k_current k -> k_tick k' = k_tick k ->
  (forall t, k_timer k' !! ThreadTimer t = k_timer k !! ThreadTimer t) ->
  (forall i, i ∈ k_timer_list k' -> i = UserTimer n \/ i ∈ k_timer_list k) -> kwf k'.
Proof.
  intros H Ht E1 E2 E3 E4 E5 Et El. split; [by apply (wf_ext k), H|done|rewrite E5; apply H| |].
  - intros t th. rewrite E1, Et. apply H.
  - intros t [|Hi]%El; [done|]. rewrite E1. by apply H.
Qed.

Definition delayed_timer (w : oid) (ticks : Z) : timer :=
  Timer true (deactivate (Z.lor RT_TIMER_FLAG_ONE_SHOT RT_TIMER_FLAG_SOFT_TIMER)) ticks 0 (TF_user w).

Lemma start_user_timer_spec k w ticks : kwf k -> k_timer k !! UserTimer w = None -> 0 <= ticks < HALF ->
  exists k', (rt_timer_init (UserTimer w) (TF_user w) ticks (Z.lor RT_TIMER_FLAG_ONE_SHOT RT_TIMER_FLAG_SOFT_TIMER);;
    rt_timer_start (UserTimer w)) k = Some (RT_EOK, k') /\ kwf k' /\ objects k' = objects k /\
    UserTimer w ∈ k_timer_list k' /\ due_key k' (UserTimer w) = ticks /\
    (forall t, thread_moved (k_threads k !! t) (k_threads k' !! t)).
Proof.
  intros H En Ht. unfold rt_timer_init, _rt_timer_init, put_timer. munfold.
  destruct (object_init_spec k (fun k => bool_decide (is_Some (k_timer k !! UserTimer w)))) as (k1 & E1 & R);
    [apply H|intros f; apply bool_decide_false; simpl; rewrite En; by intros []|].
  rewrite E1. destruct (rs_timers _ _ R) as [T1 T2]. pose proof (rs_kwf _ _ R H) as H1. fold (delayed_timer w ticks). set (k2 := with_timer _ k1).
  assert (timers_ok k2) as Hk2.
  { apply (timers_ok_put k1 (UserTimer w) (Some (delayed_timer w ticks))); [apply H1| |by intros tm [= <-]].
    apply no_timer_listed; [apply H1|by rewrite T1]. }
  assert (k_timer k2 !! UserTimer w = Some (delayed_timer w ticks)) as Ew by apply lookup_insert_eq.
  rewrite (rt_timer_start_eval _ _ k2 Ew) by (simpl; lia). set (k3 := tm_started _ _ k2).
  destruct (tm_started_spec (UserTimer w) (delayed_timer w ticks) k2 Hk2 Ht ltac:(apply H1)) as (O1 & O2 & O3 & O4). fold k3 in O1, O2, O3, O4.
  exists k3. split; [done|]. split; [|split; [apply R|split; [|split; [done|apply R]]]].
  - apply (kwf_user_timer k1 k3 w); try done.
    + intros t. simpl. rewrite lookup_insert_ne, lookup_partial_alter_ne by done. simpl. by rewrite lookup_insert_ne.
    + intros i. rewrite O4, elem_of_insert_by, elem_of_lremove. tauto.
  - rewrite O4, elem_of_insert_by. by left.
Qed.

(** A delayed work is attached to the queue, with a timer of so many ticks. *)
Lemma delayed_submit_spec k o q w x ticks :
  kwf k -> queue_of k o = Some q -> work_of k w = Some x -> wk_workqueue x = None -> k_timer k !! UserTimer w = None -> 0 < ticks < HALF ->
  exists k', rt_workqueue_submit_work o w ticks k = Some (RT_EOK, k') /\ kwf k' /\ queue_of k' o = Some q /\
    work_of k' w = Some (Work (set_bit RT_WORK_STATE_SUBMITTING (wk_flags x)) (set_bit RT_WORK_TYPE_DELAYED (wk_type x)) (Some o)) /\
    UserTimer w ∈ k_timer_list k' /\ due_key k' (UserTimer w) = ticks.
Proof.
  intros H Eq Ew Ex Em Ht. unfold rt_workqueue_submit_work, set_type, put_work, put_dipc. rewrite bool_decide_true by lia. simpl. munfold.
  rewrite (get_work_eval k w x Ew). set (x1 := Work (wk_flags x) (set_bit RT_WORK_TYPE_DELAYED (wk_type x)) (wk_workqueue x)).
  destruct (put_work_view k w x x1 Ew) as [A1 A2]. set (k1 := with_dipc _ k) in *.
  assert (work_of k1 w = Some x1) as Ew1 by (by rewrite A1, decide_True). rewrite (get_work_eval k1 w x1 Ew1).
  rewrite decide_True.
  2:{ unfold x1, set_bit, RT_WORK_TYPE_DELAYED. simpl. change 1 with (2 ^ 0). rewrite land_pow2_nonzero, Z.lor_spec, testbit_pow2 by lia.
      rewrite bool_decide_true by done. apply orb_true_r. }
  unfold _workqueue_submit_delayed_work. munfold. rewrite (get_work_eval k1 w x1 Ew1). simpl. rewrite Ex.
  rewrite decide_False by naive_solver. rewrite decide_False by done. rewrite decide_False by done.
  unfold set_queue, put_work, put_dipc. munfold. rewrite (get_work_eval k1 w x1 Ew1).
  set (x2 := Work (wk_flags x1) (wk_type x1) (Some o)). destruct (put_work_view k1 w x1 x2 Ew1) as [B1 B2]. set (k2 := with_dipc _ k1) in *.
  rewrite decide_False by lia. assert (work_of k2 w = Some x2) as Ew2 by (by rewrite B1, decide_True).
  destruct (set_flags_eval k2 w (set_bit RT_WORK_STATE_SUBMITTING) x2 Ew2) as (d & E3 & W3 & Q3). rewrite E3. set (k3 := with_dipc d k2) in *.
  destruct (start_user_timer_spec k3 w ticks) as (k4 & E4 & H4 & O4 & L4 & D4 & _); [by repeat apply kwf_with_dipc|done|lia|].
  revert E4. munfold. destruct (rt_timer_init _ _ _ _ k3) as [[[] ka]|]; [|done]. intros ->.
  exists k4. destruct (objects_view _ _ O4) as [V1 V2]. split_and!; try done; [by rewrite V2, Q3, B2, A2|by rewrite V1, W3, decide_True].
Qed.

Lemma drop_user_timer_spec k w tm : kwf k -> k_timer k !! UserTimer w = Some tm -> tm_static tm = true ->
  exists k', (_ ← rt_timer_stop (UserTimer w); rt_timer_detach (UserTimer w)) k = Some (RT_EOK, k') /\ kwf k' /\ objects k' = objects k /\
    k_threads k' = k_threads k /\ k_current k' = k_current k /\ k_lists k' = k_lists k /\ k_timer k' !! UserTimer w = None.
Proof.
  intros H E Hs. assert (exists e k1 tm1, rt_timer_stop (UserTimer w) k = Some (e, k1) /\ timers_ok k1 /\ k_timer k1 !! UserTimer w = Some tm1 /\
    tm_static tm1 = true /\ (k1 = k \/ k1 = tm_unlink (UserTimer w) (Some (with_flag deactivate tm)) k)) as (e & k1 & tm1 & E1 & H1 & Em & Hs1 & Ek1).
  { rewrite (rt_timer_stop_eval _ tm) by done. destruct (activated tm).
    - eexists _, _, (with_flag deactivate tm). split; [done|]. split_and!; [|by simpl; rewrite lookup_partial_alter_eq|done|by right].
      apply tm_unlink_ok; [apply H|]. intros ? [= <-]. apply deactivate_inactive.
    - eexists _, k, tm. split; [done|]. split_and!; try done; [apply H|by left]. }
  rewrite (bind_eval _ _ _ _ _ E1), (timer_detach_eval _ tm1) by done. eexists. split; [done|]. split.
  - apply (kwf_user_timer k _ w H); [by apply tm_unlink_ok|destruct Ek1 as [-> | ->]; done..| |].
    + intros t. simpl. rewrite lookup_partial_alter_ne by done. destruct Ek1 as [-> | ->]; [done|]. simpl. by rewrite lookup_partial_alter_ne.
    + intros i. simpl. rewrite elem_of_lremove. destruct Ek1 as [-> | ->]; simpl; rewrite ?elem_of_lremove; tauto.
  - destruct Ek1 as [-> | ->]; (split_and!; try done); simpl; by rewrite lookup_partial_alter_eq.
Qed.

(** When the timer fires the work is put into the list. *)
Lemma delayed_handler_spec k o q w x tm th :
  kwf k -> is_Some (k_current k) -> queue_of k o = Some q -> work_of k w = Some x -> wk_workqueue x = Some o ->
  Z.land (clear_bit RT_WORK_STATE_SUBMITTING (wk_flags x)) RT_WORK_STATE_PENDING = 0 -> wkq_current q <> Some w ->
  k_threads k !! wkq_thread q = Some th -> started th -> k_timer k !! UserTimer w = Some tm -> tm_static tm = true ->
  exists k', _delayed_work_timeout_handler w k = Some (tt, k') /\ kwf k' /\ queue_of k' o = Some (appended w (without w q)).
Proof.
  intros H Hc Eq Ew Ex Hf Hw Et Hst Em Hs. destruct (drop_user_timer_spec k w tm H Em Hs) as (k1 & E1 & H1 & O1 & T1 & C1 & L1 & M1).
  destruct (objects_view _ _ O1) as [V1 V2]. unfold _delayed_work_timeout_handler. revert E1. munfold.
  destruct (rt_timer_stop (UserTimer w) k) as [[e ka]|]; [|done]. intros ->.
  destruct (set_flags_eval k1 w (clear_bit RT_WORK_STATE_SUBMITTING) x) as (d2 & E2 & W2 & Q2); [by rewrite V1|]. rewrite E2. set (k2 := with_dipc d2 k1) in *.
  set (x2 := Work (clear_bit RT_WORK_STATE_SUBMITTING (wk_flags x)) (wk_type x) (wk_workqueue x)) in *.
  assert (work_of k2 w = Some x2) as Ew2 by (by rewrite W2, decide_True).
  unfold set_type, put_work, put_dipc. munfold. rewrite (get_work_eval k2 w x2 Ew2). set (x3 := Work (wk_flags x2) _ (wk_workqueue x2)).
  destruct (put_work_view k2 w x2 x3 Ew2) as [P1 P2]. set (k3 := with_dipc _ k2) in *.
  assert (work_of k3 w = Some x3) as Ew3 by (by rewrite P1, decide_True). rewrite (get_work_eval k3 w x3 Ew3). simpl. rewrite Ex.
  assert (queue_of k3 o = Some q) as Eq3 by (by rewrite P2, Q2, V2).
  pose proof (submit_spec k3 o q w x3 Eq3 Ew3) as S. rewrite decide_False in S by (unfold pending, x3, x2; simpl; tauto).
  destruct S as (k4 & E4 & [U1 U2 (d & U3)]). unfold _workqueue_submit_work. munfold. rewrite E4.
  assert (kwf k4) as H4 by (rewrite U3; by repeat apply kwf_with_dipc). case_bool_decide as Hidle; simpl; [|by exists k4].
  destruct (resume_worker_spec k4 o (appended w (without w q)) th H4 U1) as (k5 & E5 & L5); [subst k4; by rewrite <- Et, <- T1|done|].
  munfold. rewrite E5.
  destruct (rescheduled_schedule k5 (kwf_sched _ (lr_kwf _ _ _ L5))) as (k6 & E6 & R6); [apply L5; subst k4; by rewrite <- C1 in Hc|].
  rewrite E6. exists k6. split; [done|]. split; [apply (rs_kwf _ _ R6), L5|].
  destruct (objects_view _ _ (rs_objects _ _ R6)) as [_ ->]. destruct (objects_view _ _ (lr_objects _ _ _ L5)) as [_ ->]. done.
Qed.

(** The queue 9 with the works 10 and 11; its thread is [t]. *)
Definition demo_wq (t : tid) : kstate := with_sems (fun _ => {[ 9%nat := Sem (Ipc true RT_IPC_FLAG_FIFO) 0 ]})
  (demo_dipc {[ 9%nat := DevWorkqueue (Workqueue [] None t); 10%nat := DevWork (Work 0 0 None); 11%nat := DevWork (Work 0 0 None) ]}).

Lemma demo_wq_inv : wq_inv 9 (Workqueue [] None 0%nat) True (demo_wq 0) PcTest.
Proof.
  split; try done.
  - apply kwf_with_sems, demo_dipc_kwf.
  - exists (Sem (Ipc true RT_IPC_FLAG_FIFO) 0). split; [|done]. split; [done|done|by left|done|]. by intros u ?%elem_of_nil.
  - eexists. split; [reflexivity|]. done.
  - apply NoDup_nil_2.
  - intros w Hw. by apply elem_of_nil in Hw.
Qed.

(** The state after an operation. *)
Definition after {A} (m : KM A) (k : kstate) : kstate := from_option snd k (m k).

Lemma after_eval {A} (m : KM A) k r : fst <$> m k = Some r -> m k = Some (r, after m k).
Proof. unfold after. destruct (m k) as [[a k']|]; [|done]. by intros [= ->]. Qed.

(** Two works are submitted while the thread is at the top of its loop, and it
    takes the first one before the second submission has resumed it. *)
Definition demo_wq1 : kstate := after (submit_section 9 10) (demo_wq 0).
Definition demo_wq2 : kstate := after (resume_worker 9) demo_wq1.
Definition demo_wq3 : kstate := after (submit_section 9 11) demo_wq2.
Definition demo_wq4 : kstate := after (worker_step nothing 9 PcTest) demo_wq3.
Definition demo_wq5 : kstate := after (worker_step nothing 9 PcTake) demo_wq4.

Lemma demo_wq_run : wq_steps 9 (demo_wq 0, PcTest, 0%nat) [ESubmit 10; ESubmit 11; ETake 10] (demo_wq5, PcCall 10, 1%nat).
Proof.
  assert (forall k pc, bool_decide (k_current k = Some 0%nat) && bool_decide (stat_base <$> (k_threads k !! 0%nat) = Some RT_THREAD_RUNNING) = true ->
    on_cpu k 0%nat pc) as Hr.
  { intros k pc [Hc Hs]%andb_true_iff. apply bool_decide_eq_true in Hc, Hs. apply fmap_Some in Hs as (th & E & Hs). split; [done|]. right. by exists th. }
  assert (forall k w, bool_decide (is_Some (work_of k w)) = true -> is_Some (work_of k w)) as Hw by (by intros k w ?%bool_decide_eq_true).
  assert (forall k, bool_decide (wkq_thread <$> queue_of k 9 = Some 0%nat) = true -> exists q, queue_of k 9 = Some q /\ wkq_thread q = 0%nat) as Hq.
  { intros k E%bool_decide_eq_true. apply fmap_Some in E as (q & ? & ?). by exists q. }
  destruct (Hq demo_wq1) as (q1 & Q1 & T1); [by vm_compute|].
  destruct (Hq demo_wq3) as (q3 & Q3 & T3); [by vm_compute|]. destruct (Hq demo_wq4) as (q4 & Q4 & T4); [by vm_compute|].
  eapply (ws_step _ _ [ESubmit 10; ESubmit 11] (demo_wq4, PcTake, 1%nat) [ETake 10]).
  - eapply (ws_step _ _ [ESubmit 10; ESubmit 11] (demo_wq3, PcTest, 1%nat) []).
    + eapply (ws_step _ _ [ESubmit 10] (demo_wq2, PcTest, 0%nat) [ESubmit 11]).
      * eapply (ws_step _ _ [ESubmit 10] (demo_wq1, PcTest, 1%nat) []).
        -- eapply (ws_step _ _ [] (demo_wq 0, PcTest, 0%nat) [ESubmit 10]); [apply ws_refl|].
           apply (st_submit 9 (demo_wq 0) PcTest 0 10 RT_EOK true demo_wq1); [apply Hw; by vm_compute|].
           apply (after_eval (submit_section 9 10) (demo_wq 0) (RT_EOK, true)). by vm_compute.
        -- apply (st_resume 9 demo_wq1 PcTest 0 q1 demo_wq2 Q1). apply (after_eval (resume_worker 9) demo_wq1 tt). by vm_compute.
      * apply (st_submit 9 demo_wq2 PcTest 0 11 RT_EOK true demo_wq3); [apply Hw; by vm_compute|].
        apply (after_eval (submit_section 9 11) demo_wq2 (RT_EOK, true)). by vm_compute.
    + apply (st_worker 9 demo_wq3 PcTest 1 q3 PcTake demo_wq4); [done|rewrite T3; apply Hr; by vm_compute|].
      apply (after_eval (worker_step nothing 9 PcTest) demo_wq3 PcTake). by vm_compute.
  - apply (st_worker 9 demo_wq4 PcTake 1 q4 (PcCall 10) demo_wq5); [done|rewrite T4; apply Hr; by vm_compute|].
    apply (after_eval (worker_step nothing 9 PcTake) demo_wq4 (PcCall 10)). by vm_compute.
Qed.

Lemma workqueue_runs_fifo_witness : exists q, queue_of demo_wq5 9 = Some q /\ wkq_list q = [11%nat].
Proof.
  destruct (workqueue_runs_fifo 9 (Workqueue [] None 0%nat) (demo_wq 0) PcTest 0 _ demo_wq5 (PcCall 10) 1 demo_wq_inv demo_wq_run)
    as (q & E & _ & _ & _ & F). exists q. split; [done|].
  destruct F as [F _]; [by repeat constructor|]. by injection F.
Defined.

(** ** What goes wrong *)

(** The thread does not look at the list again when it is woken: if the work has
    been cancelled by then, it takes the head of the empty list for a work. *)
Example cancelled_work_is_taken :
  let k0 := after (rt_thread_suspend 1) (demo_wq 1) in
  let k1 := after (_workqueue_submit_work 9 10) k0 in
  let k2 := after (_workqueue_cancel_work 9 10) k1 in
  fst <$> _workqueue_submit_work 9 10 k0 = Some RT_EOK /\ fst <$> _workqueue_cancel_work 9 10 k1 = Some RT_EOK /\
  stat_base <$> (k_threads k2 !! 1%nat) = Some RT_THREAD_READY /\ fst <$> worker_step nothing 9 PcTake k2 = None.
Proof. repeat split; by vm_compute. Qed.

(** A submission enables interrupts between its critical section and the
    resumption of the thread.  If another submission wakes the thread meanwhile
    and both works are done, the resumption comes late, and the thread takes the
    head of the empty list for a work. *)
Definition do_work (k : kstate) : kstate :=
  after (worker_step nothing 9 PcAck) (after (worker_step nothing 9 PcDone) (after (worker_step nothing 9 PcTake) k)).
Example late_resumption_takes_nothing :
  let k0 := after (rt_thread_suspend 1) (demo_wq 1) in
  let k1 := after (submit_section 9 10) k0 in
  let k2 := after (_workqueue_submit_work 9 11) k1 in
  let k3 := do_work (do_work k2) in
  let k4 := after (rt_thread_suspend 1) k3 in
  let k5 := after (resume_worker 9) k4 in
  fst <$> submit_section 9 10 k0 = Some (RT_EOK, true) /\ fst <$> _workqueue_submit_work 9 11 k1 = Some RT_EOK /\
  wkq_list <$> queue_of k3 9 = Some [] /\ fst <$> worker_step nothing 9 PcTest k3 = Some PcSuspend /\
  stat_base <$> (k_threads k4 !! 1%nat) = Some RT_THREAD_SUSPEND /\
  stat_base <$> (k_threads k5 !! 1%nat) = Some RT_THREAD_READY /\ fst <$> worker_step nothing 9 PcTake k5 = None.
Proof. repeat split; by vm_compute. Qed.

(** A work that is submitted after the thread has looked at the list, and before
    it is suspended, does not wake it. *)
Example work_is_not_noticed :
  let k1 := after (_workqueue_submit_work 9 10) (demo_wq 0) in
  let k2 := after (worker_step nothing 9 PcSuspend) k1 in
  fst <$> worker_step nothing 9 PcTest (demo_wq 0) = Some PcSuspend /\ fst <$> _workqueue_submit_work 9 10 (demo_wq 0) = Some RT_EOK /\
  fst <$> worker_step nothing 9 PcSuspend k1 = Some PcSchedule /\
  stat_base <$> (k_threads k2 !! 0%nat) = Some RT_THREAD_SUSPEND /\ wkq_list <$> queue_of k2 9 = Some [10%nat].
Proof. repeat split; by vm_compute. Qed.

(** [rt_workqueue_cancel_all_work] does not clear the flags: the works cannot be
    submitted again. *)
Example cancelled_works_stay_pending :
  let k1 := after (_workqueue_submit_work 9 10) (demo_wq 0) in
  let k2 := after (rt_workqueue_cancel_all_work 9) k1 in
  fst <$> rt_workqueue_cancel_all_work 9 k1 = Some RT_EOK /\ wkq_list <$> queue_of k2 9 = Some [] /\
  fst <$> _workqueue_submit_work 9 10 k2 = Some (- RT_EBUSY).
Proof. repeat split; by vm_compute. Qed.

(** The memory of a queue goes back to the heap with its semaphore registered. *)
Example semaphore_outlives_queue :
  let k1 := after (rt_workqueue_create (Some 12%nat) (Some 3%nat) true 15) demo in
  let k2 := after (rt_workqueue_destroy 12) k1 in
  fst <$> rt_workqueue_create (Some 12%nat) (Some 3%nat) true 15 demo = Some (Some 12%nat) /\
  fst <$> rt_workqueue_destroy 12 k1 = Some RT_EOK /\ k_dipc k2 !! 12%nat = None /\ bool_decide (is_Some (k_sems k2 !! 12%nat)) = true /\
  bool_decide (is_Some (k_sems (after (rt_workqueue_create (Some 12%nat) None true 5) demo) !! 12%nat)) = true.
Proof. repeat split; by vm_compute. Qed.
