(* ===== verification/Idle.v ===== *)
(** * Idle: the idle thread

    idle.c.  The idle thread runs its hooks and frees the threads that have
    ended.  [rt_thread_idle_excute] takes the threads out of [LDefunct] one by
    one, and returns after a static one; leaving the critical section it may be
    switched away from, so it is split there as the blocking functions are.  The
    cleanup functions and hooks are the user's. *)

From S2P Require Import Kernel Sched Object Timer Thread Ipc Demo Life.

Definition RT_IDLE_HOOK_LIST_SIZE : nat := 4.

(** ** Hooks: a function is a number, and [idle_hook_list] a list of slots *)

Definition idle_hooks : Type := list (option nat).

(** The loop of [rt_thread_idle_sethook] and [rt_thread_idle_delhook]: the first
    slot that holds [old] gets [new]. *)
Fixpoint replace_first (old new : option nat) (l : idle_hooks) : option idle_hooks :=
  match l with
  | [] => None
  | x :: l => if decide (x = old) then Some (new :: l) else (fun l => x :: l) <$> replace_first old new l
  end.

Definition rt_thread_idle_sethook (hook : option nat) (l : idle_hooks) : Z * idle_hooks :=
  match replace_first None hook l with Some l' => (RT_EOK, l') | None => (- RT_EFULL, l) end.

Definition rt_thread_idle_delhook (hook : option nat) (l : idle_hooks) : Z * idle_hooks :=
  match replace_first hook None l with Some l' => (RT_EOK, l') | None => (- RT_ENOSYS, l) end.

(** ** Freeing threads *)

(** [rt_object_delete] of a thread; its memory goes back to the heap. *)
Definition rt_object_delete_thread (t : tid) : KM unit :=
  th ← get_thread t;
  rt_assert (negb (th_static th));;
  modify (with_threads (delete t)).

Definition _has_defunct_thread : KM bool := e ← list_isempty LDefunct; mret (negb e).

(** The idle thread [me] has been switched away from at the end of the critical
    section: it still has to free [t], or to return. *)
Inductive idle_frame := IdleFrame (me : tid) (t : option tid).

Section idle.
Context (cleanup : tid -> KM unit) (run_hook : nat -> KM unit).

(** The body of the loop between [rt_hw_interrupt_disable] and the end of the
    critical section: the thread taken out, and whether it is static. *)
Definition idle_take : KM (tid * bool) :=
  t ← list_first LDefunct;
  list_remove t;;
  rt_enter_critical;;
  th ← get_thread t;
  when (th_cleanup th) (cleanup t);;
  th ← get_thread t;
  when (th_static th) (rt_object_detach_thread t);;
  rt_exit_critical;;
  mret (t, th_static th).

(** [while (_has_defunct_thread())], each round takes a thread off the list. *)
Fixpoint idle_excute_loop (fuel : nat) (me : tid) : KM (outcome idle_frame unit) :=
  b ← _has_defunct_thread;
  if negb b then mret (Returned tt) else
  match fuel with
  | O => halt
  | S fuel =>
    RT_DEBUG_NOT_IN_INTERRUPT;;
    b ← _has_defunct_thread;
    if negb b then mret (Returned tt)
    else
      '(t, static) ← idle_take;
      cur ← rt_thread_self;
      if decide (cur = Some me) then
        if (static : bool) then mret (Returned tt) else rt_object_delete_thread t;; idle_excute_loop fuel me
      else mret (Blocked (IdleFrame me (if static then None else Some t)))
  end.

Definition rt_thread_idle_excute : KM (outcome idle_frame unit) :=
  me ← self;
  l ← gets (fun k => k_lists k LDefunct);
  idle_excute_loop (length l) me.

Definition rt_thread_idle_excute_resume (f : idle_frame) : KM (outcome idle_frame unit) :=
  let '(IdleFrame me t) := f in
  match t with
  | None => mret (Returned tt)
  | Some t =>
    rt_object_delete_thread t;;
    l ← gets (fun k => k_lists k LDefunct);
    idle_excute_loop (length l) me
  end.

(** One round of [rt_thread_idle_entry]: the hooks in the order of their slots. *)
Fixpoint run_hooks (l : idle_hooks) : KM unit :=
  match l with
  | [] => mret tt
  | Some h :: l => run_hook h;; run_hooks l
  | None :: l => run_hooks l
  end.

Definition rt_thread_idle_entry (l : idle_hooks) : KM (outcome idle_frame unit) :=
  run_hooks l;; rt_thread_idle_excute.

(** [n] rounds of the [while (1)], as long as the idle thread is not switched
    away from. *)
Fixpoint idle_rounds (n : nat) (l : idle_hooks) : KM (outcome idle_frame unit) :=
  match n with
  | O => mret (Returned tt)
  | S n =>
    r ← rt_thread_idle_entry l;
    match r with
    | Returned _ => idle_rounds n l
    | Blocked f => mret (Blocked f)
    end
  end.
End idle.

(** The idle thread [idle] of priority 31 with a time slice of 32 ticks. *)
Definition rt_thread_idle_init (idle : tid) : KM unit :=
  _ ← rt_thread_init idle (RT_THREAD_PRIORITY_MAX - 1) 32;
  _ ← rt_thread_startup idle;
  mret tt.

(** ** What the idle thread frees *)

Definition idling (k : kstate) (me : tid) : Prop := kwf k /\ (exists th, running k me th) /\ k_irq_nest k = 0.

(** The contract of cleanup functions and hooks: they end, do not block the idle
    thread, and do not end, free or make threads.  They may wake others. *)
Record quiet (me : tid) (m : KM unit) : Prop := Quiet {
  qt_run k : idling k me -> exists k', m k = Some (tt, k') /\ idling k' me /\
    k_lists k' LDefunct = k_lists k LDefunct /\
    (forall s th, k_threads k !! s = Some th -> stat_base th = RT_THREAD_CLOSE -> k_threads k' !! s = Some th) /\
    (forall s, k_threads k !! s = None -> k_threads k' !! s = None)
}.

Definition static_of (k : kstate) (t : tid) : bool := from_option th_static false (k_threads k !! t).

(** What has become of the threads of a list when the idle thread returns, or is
    switched away from, with [rest] left. *)
Inductive reclaimed (static : tid -> bool) (k' : kstate) (me : tid) : list tid -> outcome idle_frame unit -> list tid -> Prop :=
| rc_empty : reclaimed static k' me [] (Returned tt) []
| rc_static t l : static t = true ->
    (exists th, k_threads k' !! t = Some th /\ stat_base th = RT_THREAD_CLOSE /\ th_attached th = false) ->
    reclaimed static k' me (t :: l) (Returned tt) l
| rc_freed t l r rest : static t = false -> k_threads k' !! t = None ->
    reclaimed static k' me l r rest -> reclaimed static k' me (t :: l) r rest
| rc_switched t l : k_current k' <> Some me ->
    reclaimed static k' me (t :: l) (Blocked (IdleFrame me (if static t then None else Some t))) l.

Lemma reclaimed_shorter static k' me l r rest : reclaimed static k' me l r rest -> l <> [] -> (length rest < length l)%nat.
Proof.
  induction 1 as [|t l|t l r rest ? ? R IH|]; intros Hn; simpl; [done|lia| |lia].
  destruct l; [inversion R; subst; simpl; lia|]. assert (length rest < length (n :: l))%nat by (by apply IH). simpl in *. lia.
Qed.

(** A closed thread that is in no list can be freed. *)
Lemma delete_thread_spec k me t th :
  idling k me -> k_threads k !! t = Some th -> stat_base th = RT_THREAD_CLOSE -> (forall h, t ∉ k_lists k h) -> th_static th = false ->
  exists k', rt_object_delete_thread t k = Some (tt, k') /\ idling k' me /\ k_threads k' = delete t (k_threads k) /\
    k_lists k' = k_lists k /\ k_current k' = k_current k.
Proof.
  intros (H & (mth & Hc & Em & Hm) & Hi) E Hs Hn Hst. assert (me <> t) as Hne by (intros ->; simplify_eq; by rewrite Hs in Hm).
  unfold rt_object_delete_thread, rt_assert. munfold. rewrite E, Hst. simpl. eexists. split; [done|]. split; [|done].
  split; [|split; [exists mth; split_and!; [done|simpl; by rewrite lookup_delete_ne|done]|done]].
  split; [apply wf_drop_thread; [apply H|done|rewrite Hc; by intros [= ->]]|by apply (timers_ok_ext k), H|apply H| |].
  - intros s sth. simpl. intros [_ Es]%lookup_delete_Some. by apply H.
  - intros s Hin. simpl. destruct (kwf_suspended _ H s Hin) as (sth & Es & Hss). exists sth.
    rewrite lookup_delete_ne; [done|]. intros ->. simplify_eq. by rewrite Hs in Hss.
Qed.

Section spec.
Context (me : tid) (cleanup : tid -> KM unit) (Hcleanup : forall t, quiet me (cleanup t)).

(** The thread is taken out of the list: its node is in no list then. *)
Lemma unlink_defunct k t l : idling k me -> k_lists k LDefunct = t :: l ->
  exists th, k_threads k !! t = Some th /\ stat_base th = RT_THREAD_CLOSE /\ idling (unlink t k) me /\
    k_lists (unlink t k) LDefunct = l /\ forall h, t ∉ k_lists (unlink t k) h.
Proof.
  intros (H & (mth & Hr) & Hi) El. pose proof (kwf_sched _ H) as [Hl Hc].
  destruct (wf_stat _ _ Hl LDefunct t) as (_ & th & E & Hs); [rewrite El; left|]. exists th.
  split; [done|]. split; [done|]. split; [|split].
  - split; [|split; [by exists mth|done]].
    split; [|by apply (timers_ok_ext k), H|apply H|apply H|apply H]. split; [|by apply (wf_current_ext k)].
    eapply (wf_settle ∅ t); [eapply wf_unlink; [done|done|by rewrite Hs]|]. intros th'. simpl. rewrite E. intros [= <-] _. by rewrite Hs.
  - simpl. rewrite El. apply lremove_cons_eq. pose proof (wf_nodup _ _ Hl LDefunct) as Hnd. rewrite El in Hnd. by apply NoDup_cons in Hnd as [].
  - intros h. simpl. rewrite elem_of_lremove. tauto.
Qed.

Lemma quiet_if b m : quiet me m -> quiet me (when b m).
Proof. intros Hm. destruct b; [done|]. split. intros k Hk. by exists k. Qed.

Lemma closed_in_no_list k t th l : kwf k -> k_threads k !! t = Some th -> stat_base th = RT_THREAD_CLOSE ->
  k_lists k LDefunct = l -> t ∉ l -> forall h, t ∉ k_lists k h.
Proof.
  intros H E Hs <- Hn h Hi. pose proof (in_list_stat k h t th H Hi E) as Hh. rewrite Hs in Hh. by destruct h.
Qed.

(** Rescheduled and still current: still running. *)
Lemma still_running k k' : rescheduled k k' -> idling k me -> k_current k' = Some me -> idling k' me.
Proof.
  intros R (H & (th & Hc & E & Hs) & Hi) Hc'. split; [by apply (rs_kwf _ _ R)|]. split; [|by rewrite (rs_irq _ _ R)].
  destruct (wf_cur _ (proj2 (rs_wf _ _ R)) _ Hc') as (th' & E' & Hn). exists th'. split; [done|]. split; [done|].
  destruct (moved_awake _ _ (rs_threads _ _ R me) _ E ltac:(by right)) as (x & Ex & [Ha|Ha] & _); by simplify_eq.
Qed.

(** The thread of the front is forgotten if it is static, and left otherwise. *)
Lemma idle_detach_spec k t th : idling k me -> k_threads k !! t = Some th -> stat_base th = RT_THREAD_CLOSE -> (forall h, t ∉ k_lists k h) ->
  exists k' th', when (th_static th) (rt_object_detach_thread t) k = Some (tt, k') /\ idling k' me /\ k_lists k' = k_lists k /\
    k_threads k' !! t = Some th' /\ stat_base th' = RT_THREAD_CLOSE /\ th_static th' = th_static th /\
    (th_static th = true -> th_attached th' = false) /\ (forall s, s <> t -> k_threads k' !! s = k_threads k !! s) /\
    k_current k' = k_current k.
Proof.
  intros (H & (mth & Hc & Em & Hm) & Hi) E Hs Hn. assert (me <> t) as Hne by (intros ->; simplify_eq; by rewrite Hs in Hm).
  destruct (th_static th) eqn:Hst.
  - exists (upd_thread t (with_attached false) k), (with_attached false th). unfold rt_object_detach_thread, when.
    split; [by apply (set_thread_eval _ _ _ _ E)|]. split.
    + split; [by eapply forgotten_kwf|]. split; [|done]. exists mth. split; [done|]. split; [|done]. by rewrite upd_thread_lookup, decide_False.
    + split; [done|]. split; [by rewrite upd_thread_lookup, decide_True, E|]. split; [done|]. split; [done|]. split; [done|].
      split; [|done]. intros s Hns. by rewrite upd_thread_lookup, decide_False.
  - exists k, th. split; [done|]. split; [by split; [|split; [exists mth|]]|]. done.
Qed.

(** What one round of the loop leaves. *)
Record taken (k k' : kstate) (t : tid) (l : list tid) : Prop := Taken {
  tk_kwf : kwf k' /\ k_irq_nest k' = 0;
  tk_idling : k_current k' = Some me -> idling k' me;
  tk_list : k_lists k' LDefunct = l;
  tk_nowhere h : t ∉ k_lists k' h;
  tk_thread : exists th, k_threads k' !! t = Some th /\ stat_base th = RT_THREAD_CLOSE /\ th_static th = static_of k t /\
    (static_of k t = true -> th_attached th = false);
  tk_closed s sth : s <> t -> k_threads k !! s = Some sth -> stat_base sth = RT_THREAD_CLOSE -> k_threads k' !! s = Some sth;
  tk_none s : k_threads k !! s = None -> k_threads k' !! s = None
}.

Lemma idle_take_spec k t l : idling k me -> k_lists k LDefunct = t :: l ->
  exists k', idle_take cleanup k = Some ((t, static_of k t), k') /\ taken k k' t l.
Proof.
  intros Hk El. destruct (unlink_defunct k t l Hk El) as (th & E & Hs & Hk1 & El1 & Hn1).
  assert (static_of k t = th_static th) as Est by (unfold static_of; by rewrite E).
  assert (t ∉ l) as Htl by (rewrite <- El1; apply Hn1).
  set (k2 := with_lock_nest (fun n => s16 (n + 1)) (unlink t k)).
  assert (idling k2 me) as Hk2 by (destruct Hk1 as (? & ? & ?); split; [by apply (rs_kwf (unlink t k)); [apply rescheduled_lock, H|]|done]).
  destruct (qt_run _ _ (quiet_if (th_cleanup th) _ (Hcleanup t)) k2 Hk2) as (k3 & E3 & Hk3 & L3 & C3 & N3).
  pose proof (C3 t th E Hs) as Et3.
  destruct (idle_detach_spec k3 t th Hk3 Et3 Hs) as (k4 & th4 & E4 & Hk4 & L4 & Et4 & Hs4 & Hst4 & Ha4 & N4 & Hc4).
  { apply (closed_in_no_list k3 t th l); [apply Hk3|done|done| |done]. by rewrite L3. }
  destruct (rescheduled_exit k4 (kwf_sched _ (proj1 Hk4))) as (k5 & E5 & R). exists k5. split.
  - unfold idle_take, rt_enter_critical. munfold. rewrite El. simpl. fold (unlink t k). fold k2.
    change (k_threads k2) with (k_threads k). rewrite E, E3, Et3, E4, E5. by rewrite Est.
  - assert (k_threads k5 !! t = Some th4) as Et5.
    { destruct (rs_threads _ _ R t) as [->|(x & s & Ex & _ & Ha & _)]; [done|]. simplify_eq. by apply awake_not_suspended in Ha as [_ []]. }
    split.
    + split; [by apply (rs_kwf _ _ R), Hk4|]. rewrite (rs_irq _ _ R). apply Hk4.
    + by apply (still_running k4).
    + rewrite (rs_waits _ _ R), L4, L3 by done. exact El1.
    + apply (closed_in_no_list k5 t th4 l); [by apply (rs_kwf _ _ R), Hk4|done|done| |done]. by rewrite (rs_waits _ _ R), L4, L3 by done.
    + exists th4. by rewrite Est.
    + intros s sth Hst Es Hss. destruct (rs_threads _ _ R s) as [Em|(x & st & Ex & _ & Ha & _)].
      * rewrite Em, N4 by done. by apply C3.
      * rewrite N4, (C3 s sth Es Hss) in Ex by done. simplify_eq. by apply awake_not_suspended in Ha as [_ []].
    + intros s Es. assert (s <> t) as Hst by (intros ->; congruence).
      destruct (rs_threads _ _ R s) as [Em|(x & st & Ex & _)]; [rewrite Em, N4 by done; by apply N3|].
      rewrite N4, N3 in Ex by done. done.
Qed.

Lemma reclaimed_ext static static' k' l r rest : (forall t, t ∈ l -> static t = static' t) ->
  reclaimed static k' me l r rest -> reclaimed static' k' me l r rest.
Proof.
  intros Hs R. induction R as [|t l Ht Hth|t l r rest Ht Hn R IH|t l Hc].
  - constructor.
  - apply rc_static; [rewrite <- Ht; symmetry; apply Hs; left|done].
  - apply rc_freed; [rewrite <- Ht; symmetry; apply Hs; left|done|]. apply IH. intros s Hin. apply Hs. by right.
  - rewrite (Hs t) by left. by apply rc_switched.
Qed.

Lemma idle_excute_loop_spec l : forall k fuel, idling k me -> k_lists k LDefunct = l -> (length l <= fuel)%nat ->
  exists r k' rest, idle_excute_loop cleanup fuel me k = Some (r, k') /\ kwf k' /\ k_irq_nest k' = 0 /\
    k_lists k' LDefunct = rest /\ reclaimed (static_of k) k' me l r rest /\ (r = Returned tt -> idling k' me) /\
    (forall s, k_threads k !! s = None -> k_threads k' !! s = None).
Proof.
  induction l as [|t l IH]; intros k fuel Hk El Hf.
  - exists (Returned tt), k, []. split; [destruct fuel; simpl; unfold _has_defunct_thread; munfold; by rewrite El|].
    split; [apply Hk|]. split; [apply Hk|]. split; [done|]. split; [constructor|]. done.
  - destruct fuel as [|fuel]; simpl in Hf; [lia|]. destruct (idle_take_spec k t l Hk El) as (k1 & E1 & T).
    pose proof Hk as (H & (mth & Hc & Em & Hm) & Hi).
    assert (idle_excute_loop cleanup (S fuel) me k =
      (if decide (k_current k1 = Some me) then
         if static_of k t then mret (Returned tt) else rt_object_delete_thread t;; idle_excute_loop cleanup fuel me
       else mret (Blocked (IdleFrame me (if static_of k t then None else Some t)))) k1) as ->.
    { cbn [idle_excute_loop]. unfold _has_defunct_thread, RT_DEBUG_NOT_IN_INTERRUPT, rt_interrupt_get_nest, rt_assert, rt_thread_self.
      munfold. rewrite El, bool_decide_false by done. simpl. rewrite Hi, bool_decide_true by done. simpl.
      rewrite El, bool_decide_false by done. simpl. rewrite E1. by case_decide. }
    destruct T as [[H1 I1] Tid Tl Tn (th & Et & Hs & Hst & Hat) Tc TN]. case_decide as Hc1.
    + destruct (static_of k t) eqn:Est.
      * exists (Returned tt), k1, l. split; [done|]. split; [done|]. split; [done|]. split; [done|].
        split; [apply rc_static; [done|eauto]|]. split; [intros _; by apply Tid|done].
      * destruct (delete_thread_spec k1 me t th (Tid Hc1) Et Hs Tn Hst) as (k2 & E2 & Hk2 & Eth2 & El2 & Ec2).
        munfold. rewrite E2. assert (k_lists k2 LDefunct = l) as El2' by (by rewrite El2).
        destruct (IH k2 fuel Hk2 El2' ltac:(lia)) as (r & k' & rest & E' & H' & I' & L' & R & Hr & N').
        exists r, k', rest. split; [done|]. split; [done|]. split; [done|]. split; [done|]. split; [|split; [done|]].
        -- apply rc_freed; [done|apply N'; rewrite Eth2; apply lookup_delete_eq|].
           eapply reclaimed_ext; [|done]. intros s Hin. unfold static_of. rewrite Eth2.
           assert (s <> t) as Hne by (intros ->; rewrite <- Tl in Hin; by apply Tn in Hin). rewrite lookup_delete_ne by done.
           destruct (wf_stat _ _ (proj1 (kwf_sched _ H)) LDefunct s) as (_ & sth & Es & Hss); [rewrite El; by right|].
           by rewrite (Tc s sth), Es.
        -- intros s Es. apply N'. rewrite Eth2. destruct (decide (s = t)) as [->|]; [apply lookup_delete_eq|].
           rewrite lookup_delete_ne by done. by apply TN.
    + eexists _, k1, l. split; [done|]. split; [done|]. split; [done|]. split; [done|]. split; [by apply rc_switched|done].
Qed.

Lemma rt_thread_idle_excute_spec k : idling k me ->
  exists r k' rest, rt_thread_idle_excute cleanup k = Some (r, k') /\ kwf k' /\ k_irq_nest k' = 0 /\
    k_lists k' LDefunct = rest /\ reclaimed (static_of k) k' me (k_lists k LDefunct) r rest /\ (r = Returned tt -> idling k' me).
Proof.
  intros Hk. destruct (idle_excute_loop_spec (k_lists k LDefunct) k (length (k_lists k LDefunct)) Hk eq_refl ltac:(done))
    as (r & k' & rest & E & H & I & L & R & Hr & _). exists r, k', rest. split; [|done].
  destruct Hk as (_ & (th & Hc & _) & _). unfold rt_thread_idle_excute. munfold. by rewrite Hc.
Qed.

(** ** Rounds of the idle thread *)

Context (run_hook : nat -> KM unit) (Hhook : forall h, quiet me (run_hook h)).

Lemma run_hooks_spec hooks : forall k, idling k me -> exists k', run_hooks run_hook hooks k = Some (tt, k') /\ idling k' me /\
  k_lists k' LDefunct = k_lists k LDefunct.
Proof.
  induction hooks as [|[h|] hooks IH]; intros k Hk; simpl; [by exists k| |by apply IH].
  destruct (qt_run _ _ (Hhook h) k Hk) as (k1 & E1 & Hk1 & L1 & _). destruct (IH k1 Hk1) as (k2 & E2 & Hk2 & L2).
  exists k2. munfold. rewrite E1, E2. split; [done|]. split; [done|congruence].
Qed.

Lemma idle_entry_spec hooks k : idling k me ->
  exists r k', rt_thread_idle_entry cleanup run_hook hooks k = Some (r, k') /\ kwf k' /\
    (k_lists k LDefunct <> [] -> (length (k_lists k' LDefunct) < length (k_lists k LDefunct))%nat) /\
    (k_lists k LDefunct = [] -> k_lists k' LDefunct = []) /\
    (forall u, r = Returned u -> idling k' me).
Proof.
  intros Hk. destruct (run_hooks_spec hooks k Hk) as (k1 & E1 & Hk1 & L1).
  destruct (rt_thread_idle_excute_spec k1 Hk1) as (r & k' & rest & E & H & _ & L & R & Hr). exists r, k'.
  split; [unfold rt_thread_idle_entry; munfold; by rewrite E1|]. split; [done|]. rewrite L, <- L1. split; [by eapply reclaimed_shorter|].
  split; [intros El; rewrite El in R; by inversion R|]. intros [] Eq. by apply Hr.
Qed.

Lemma idle_rounds_spec hooks n : forall k, idling k me ->
  exists r k', idle_rounds cleanup run_hook n hooks k = Some (r, k') /\ kwf k' /\
    (length (k_lists k' LDefunct) <= length (k_lists k LDefunct))%nat /\
    (r = Returned tt -> idling k' me /\ (length (k_lists k' LDefunct) <= length (k_lists k LDefunct) - n)%nat).
Proof.
  induction n as [|n IH]; intros k Hk; simpl.
  - exists (Returned tt), k. split; [done|]. split; [apply Hk|]. split; [done|]. intros _. split; [done|lia].
  - destruct (idle_entry_spec hooks k Hk) as (r & k1 & E1 & H1 & L1 & L2 & Hr). munfold. rewrite E1.
    assert (length (k_lists k1 LDefunct) <= length (k_lists k LDefunct) - 1)%nat as Hl.
    { destruct (decide (k_lists k LDefunct = [])) as [En|Hn]; [by rewrite (L2 En), En|]. specialize (L1 Hn). lia. }
    destruct r as [[]|f].
    + destruct (IH k1 (Hr tt eq_refl)) as (r & k' & E & H & Hle & R). exists r, k'. split; [done|]. split; [done|]. split; [lia|].
      intros ->. destruct (R eq_refl) as [? ?]. split; [done|lia].
    + exists (Blocked f), k1. split; [done|]. split; [done|]. split; [lia|done].
Qed.
End spec.

(** C34: The idle thread frees what has ended. Every call of
    [rt_thread_idle_excute] ends, and keeps the kernel invariant: it frees the
    dynamic threads from the front of the list up to the first static one, which
    it forgets and returns, unless leaving a critical section switches to a
    thread that a cleanup function has woken. As many rounds as there are ended
    threads empty the list, unless the idle thread is switched away from. *)
Theorem idle_frees_ended_threads me cleanup run_hook hooks k n :
  (forall t, quiet me (cleanup t)) -> (forall h, quiet me (run_hook h)) -> idling k me -> (length (k_lists k LDefunct) <= n)%nat ->
  (exists r k' rest, rt_thread_idle_excute cleanup k = Some (r, k') /\ kwf k' /\ k_lists k' LDefunct = rest /\
     reclaimed (static_of k) k' me (k_lists k LDefunct) r rest /\
     (k_lists k LDefunct <> [] -> (length rest < length (k_lists k LDefunct))%nat)) /\
  (exists r k', idle_rounds cleanup run_hook n hooks k = Some (r, k') /\ kwf k' /\
     (r = Returned tt -> k_lists k' LDefunct = [])).
Proof.
  intros Hc Hh Hk Hn. split.
  - destruct (rt_thread_idle_excute_spec me cleanup Hc k Hk) as (r & k' & rest & E & H & _ & L & R & _).
    exists r, k', rest. split_and!; try done. by eapply reclaimed_shorter.
  - destruct (idle_rounds_spec me cleanup Hc run_hook Hh hooks n k Hk) as (r & k' & E & H & _ & R). exists r, k'.
    split_and!; try done. intros ->. destruct (R eq_refl) as [_ Hl]. apply length_zero_iff_nil. lia.
Qed.

(** A thread that has ended. *)
Definition ended_thread (static : bool) : thread := Thread static true true RT_EOK RT_THREAD_CLOSE 20 20 (2 ^ 20) 0 0 10 10.
Definition add_ended (t : tid) (static : bool) (k : kstate) : kstate :=
  in_wait LDefunct (t :: k_lists k LDefunct) (with_threads (insert t (ended_thread static)) k).

Lemma add_ended_idling t static k me :
  idling k me -> k_threads k !! t = None -> idling (add_ended t static k) me.
Proof.
  intros (H & (th & Hc & E & Hs) & Hi) Et.
  assert (forall h, t ∉ k_lists k h) as Hn.
  { intros h Hin. destruct (in_lists_thread _ _ _ _ (proj1 (kwf_sched _ H)) Hin) as [x Ex]. congruence. }
  assert (ThreadTimer t ∉ k_timer_list k) as Ht.
  { intros Hin. destruct (kwf_suspended _ H t Hin) as (x & Ex & _). congruence. }
  split; [|split; [|done]].
  - assert (kwf (with_threads (insert t (ended_thread static)) k)) as H1 by (by apply kwf_put_closed).
    apply (kwf_in_list _ t (ended_thread static)); try done. apply lookup_insert_eq.
  - exists th. split; [done|]. split; [|done]. simpl. rewrite lookup_insert_ne; [done|]. intros ->. congruence.
Qed.

(** Thread 3 is dynamic, 4 and 5 are static; all three have ended. *)
Definition demo_ended : kstate := add_ended 3 false (add_ended 4 true (add_ended 5 true demo)).

Lemma demo_idling : idling demo 0.
Proof. split; [apply demo_kwf|]. split; [eexists; apply demo_running|done]. Qed.

Lemma demo_ended_idling : idling demo_ended 0.
Proof. repeat (apply add_ended_idling; [|done]). apply demo_idling. Qed.

Lemma quiet_nothing me : quiet me (mret tt).
Proof. split. intros k Hk. by exists k. Qed.

(** One call does not do all the cleaning up: it returns after a static thread. *)
Lemma idle_frees_ended_threads_witness :
  (exists k', rt_thread_idle_excute (fun _ => mret tt) demo_ended = Some (Returned tt, k') /\
     k_threads k' !! 3%nat = None /\ k_lists k' LDefunct = [5%nat]) /\
  (exists k', idle_rounds (fun _ => mret tt) (fun _ => mret tt) 3 [None; Some 1%nat] demo_ended = Some (Returned tt, k') /\
     k_lists k' LDefunct = []).
Proof.
  destruct (idle_frees_ended_threads 0 (fun _ => mret tt) (fun _ => mret tt) [None; Some 1%nat] demo_ended 3
    (fun _ => quiet_nothing 0) (fun _ => quiet_nothing 0) demo_ended_idling ltac:(done)) as [(r & k1 & rest & E1 & _ & L1 & R & _) (r2 & k2 & E2 & _ & L2)].
  assert (fst <$> rt_thread_idle_excute (fun _ => mret tt) demo_ended = Some (Returned tt)) as F1 by reflexivity.
  assert (fst <$> idle_rounds (fun _ => mret tt) (fun _ => mret tt) 3 [None; Some 1%nat] demo_ended = Some (Returned tt)) as F2 by reflexivity.
  rewrite E1 in F1. rewrite E2 in F2. injection F1 as ->. injection F2 as ->. split; [|exists k2; by split; [|apply L2]].
  exists k1. split; [done|]. rewrite L1. assert (k_lists demo_ended LDefunct = [3%nat; 4%nat; 5%nat]) as El by reflexivity. rewrite El in R.
  inversion R as [|t l Hs|t l r rest' Hs Hd R'|]; subst; [done|]. split; [done|]. by inversion R'; subst.
Defined.

(** ** Hooks *)

(** A hook takes the first free slot and leaves it again; the list of four slots
    may be full. *)
Lemma idle_hook_set_and_deleted hook l : Some hook ∉ l ->
  if decide (None ∈ l) then
    exists l', rt_thread_idle_sethook (Some hook) l = (RT_EOK, l') /\ length l' = length l /\ Some hook ∈ l' /\
      rt_thread_idle_delhook (Some hook) l' = (RT_EOK, l)
  else rt_thread_idle_sethook (Some hook) l = (- RT_EFULL, l) /\ rt_thread_idle_delhook (Some hook) l = (- RT_ENOSYS, l).
Proof.
  intros Hn. unfold rt_thread_idle_sethook, rt_thread_idle_delhook.
  assert (replace_first (Some hook) None l = None) as Ed.
  { induction l as [|x l IH]; [done|]. apply not_elem_of_cons in Hn as [Hx Hl]. simpl. rewrite decide_False by congruence. by rewrite IH. }
  case_decide as Hd.
  - assert (exists l', replace_first None (Some hook) l = Some l' /\ length l' = length l /\ Some hook ∈ l' /\
      replace_first (Some hook) None l' = Some l) as (l' & -> & ? & ? & E2); [|exists l'; by rewrite E2].
    induction l as [|x l IH]; [by apply elem_of_nil in Hd|]. apply not_elem_of_cons in Hn as [Hx Hl]. simpl in *.
    rewrite decide_False in Ed by congruence. case_decide as Ex.
    + subst. exists (Some hook :: l). simpl. rewrite decide_True by done. split_and!; [done|done|left|done].
    + apply elem_of_cons in Hd as [Hd|Hd]; [by symmetry in Hd|]. destruct IH as (l' & -> & El & Hi & E'); [done| |done|].
      { by destruct (replace_first (Some hook) None l). }
      exists (x :: l'). simpl. rewrite decide_False, E' by congruence. split_and!; [done|by rewrite El|by right|done].
  - rewrite Ed. assert (replace_first None (Some hook) l = None) as ->; [|done].
    clear Ed Hn. induction l as [|x l IH]; [done|]. apply not_elem_of_cons in Hd as [Hx Hl]. simpl. rewrite decide_False by congruence. by rewrite IH.
Qed.
