(* ===== verification/Bytes.v ===== *)
(** * Bytes: words and characters of the message buffers

    The unions [rt_mq_buf] and [rt_mq_lbuf] of src/datastructure_def.h are byte
    lists: [val_arr[i]] is the little-endian word at byte [4 * i] (the target is
    little-endian), [asc_str[j]] the byte [j].  [delivered] is what the message
    queues promise their users: the receiver's buffer starts with the bytes that
    were sent. *)

From S2P Require Import Prelude.

(** [asc_str[j]] as a [char], which is signed on the target. *)
Definition s8 (z : Z) : Z := if decide (u8 z < 128) then u8 z else u8 z - 256.

Definition byte_of (k : nat) (v : Z) : Z := u8 (Z.shiftr v (8 * Z.of_nat k)).

(** [buf->val_arr[i]], none outside the buffer. *)
Definition val_arr (b : list Z) (i : nat) : option Z :=
  b0 ← b !! (4 * i)%nat; b1 ← b !! (4 * i + 1)%nat; b2 ← b !! (4 * i + 2)%nat; b3 ← b !! (4 * i + 3)%nat;
  Some (u8 b0 + 256 * u8 b1 + 65536 * u8 b2 + 16777216 * u8 b3).

(** [buf->val_arr[i] = v] *)
Definition set_val (i : nat) (v : Z) (b : list Z) : list Z :=
  <[(4 * i + 3)%nat := byte_of 3 v]> (<[(4 * i + 2)%nat := byte_of 2 v]>
    (<[(4 * i + 1)%nat := byte_of 1 v]> (<[(4 * i)%nat := byte_of 0 v]> b))).

(** [buf->asc_str[j]], [buf->asc_str[j] = c] *)
Definition asc_str (b : list Z) (j : nat) : option Z := s8 <$> b !! j.
Definition set_asc (j : nat) (c : Z) (b : list Z) : list Z := <[j := u8 c]> b.

(** The receiver's buffer [r] after a message of [size] bytes from [b]. *)
Definition delivered (b : list Z) (size : nat) (r : list Z) : Prop := take size r = take size b.

(** [n] bytes copied over the start of [r]. *)
Definition receive (b : list Z) (size : nat) (r : list Z) : list Z := take size b ++ drop size r.

Lemma s8_small c : 0 <= c < 128 -> s8 c = c.
Proof. intros H. unfold s8. rewrite (wrap_small 8) by (unfold in_range; lia). by rewrite decide_True by lia. Qed.

Lemma length_set_val i v b : length (set_val i v b) = length b.
Proof. unfold set_val. by rewrite !length_insert. Qed.

Lemma length_set_asc j c b : length (set_asc j c b) = length b.
Proof. unfold set_asc. by rewrite length_insert. Qed.

Lemma u8_byte_of k v : u8 (byte_of k v) = byte_of k v.
Proof. unfold byte_of. by rewrite wrap_wrap. Qed.

Lemma bytes_of_word v :
  byte_of 0 v + 256 * byte_of 1 v + 65536 * byte_of 2 v + 16777216 * byte_of 3 v = u32 v.
Proof.
  unfold byte_of, wrap. rewrite !Z.shiftr_div_pow2 by lia.
  change (2 ^ (8 * Z.of_nat 0)) with 1. change (2 ^ (8 * Z.of_nat 1)) with 256.
  change (2 ^ (8 * Z.of_nat 2)) with 65536. change (2 ^ (8 * Z.of_nat 3)) with 16777216.
  change (2 ^ 8) with 256. change (2 ^ 32) with 4294967296. rewrite Z.div_1_r.
  rewrite (Z.mod_eq v 4294967296) by lia.
  change 4294967296 with (256 * 256 * 256 * 256) at 2. change 65536 with (256 * 256) at 2. change 16777216 with (256 * 256 * 256) at 2.
  rewrite <- !Z.div_div by lia. Z.div_mod_to_equations. lia.
Qed.

Lemma set_val_bytes i v b : (4 * i + 4 <= length b)%nat ->
  set_val i v b !! (4 * i)%nat = Some (byte_of 0 v) /\ set_val i v b !! (4 * i + 1)%nat = Some (byte_of 1 v) /\
  set_val i v b !! (4 * i + 2)%nat = Some (byte_of 2 v) /\ set_val i v b !! (4 * i + 3)%nat = Some (byte_of 3 v).
Proof.
  intros Hl. unfold set_val. split_and!; rewrite ?list_lookup_insert_ne by lia;
    apply list_lookup_insert_eq; rewrite ?length_insert; lia.
Qed.

Lemma val_arr_set i v b : (4 * i + 4 <= length b)%nat -> val_arr (set_val i v b) i = Some (u32 v).
Proof.
  intros (E0 & E1 & E2 & E3)%(set_val_bytes i v). rewrite <- bytes_of_word.
  unfold val_arr. rewrite E0, E1, E2, E3. cbn [mbind option_bind]. by rewrite !u8_byte_of.
Qed.

Lemma set_val_other i v b j : ((j < 4 * i)%nat \/ (4 * i + 4 <= j)%nat) -> set_val i v b !! j = b !! j.
Proof. intros H. unfold set_val. by rewrite !list_lookup_insert_ne by lia. Qed.

Lemma val_arr_set_ne i k v b : i <> k -> val_arr (set_val k v b) i = val_arr b i.
Proof. intros H. unfold val_arr. by rewrite !set_val_other by lia. Qed.

Lemma val_arr_set_asc i j c b : ((j < 4 * i)%nat \/ (4 * i + 4 <= j)%nat) -> val_arr (set_asc j c b) i = val_arr b i.
Proof. intros H. unfold val_arr, set_asc. by rewrite !list_lookup_insert_ne by lia. Qed.

Lemma asc_set j c b : (j < length b)%nat -> asc_str (set_asc j c b) j = Some (s8 c).
Proof.
  intros H. unfold asc_str, set_asc. rewrite list_lookup_insert_eq by done. simpl. f_equal.
  unfold s8. by rewrite wrap_wrap.
Qed.

Lemma asc_set_ne i j c b : i <> j -> asc_str (set_asc j c b) i = asc_str b i.
Proof. intros H. unfold asc_str, set_asc. by rewrite list_lookup_insert_ne. Qed.

Lemma asc_set_val i k v b : ((i < 4 * k)%nat \/ (4 * k + 4 <= i)%nat) -> asc_str (set_val k v b) i = asc_str b i.
Proof. intros H. unfold asc_str. by rewrite set_val_other. Qed.

Lemma delivered_lookup b n r j : delivered b n r -> (j < n)%nat -> r !! j = b !! j.
Proof. intros H Hj. rewrite <- (lookup_take_lt r n j), H by done. by rewrite lookup_take_lt. Qed.

Lemma delivered_val b n r i : delivered b n r -> (4 * i + 4 <= n)%nat -> val_arr r i = val_arr b i.
Proof. intros H Hi. unfold val_arr. by rewrite !(delivered_lookup b n r) by (done || lia). Qed.

Lemma delivered_asc b n r j : delivered b n r -> (j < n)%nat -> asc_str r j = asc_str b j.
Proof. intros H Hj. unfold asc_str. by rewrite (delivered_lookup b n r). Qed.

Lemma delivered_receive b n r : (n <= length b)%nat -> delivered b n (receive b n r).
Proof. intros H. unfold delivered, receive. rewrite take_app_length'; [done|]. rewrite length_take. lia. Qed.

(** Words of parts of a buffer. *)
Lemma val_arr_ext b1 b2 i j : (forall k, (k < 4)%nat -> b1 !! (4 * i + k)%nat = b2 !! (4 * j + k)%nat) -> val_arr b1 i = val_arr b2 j.
Proof.
  intros H. unfold val_arr. pose proof (H 0%nat) as H0. rewrite !Nat.add_0_r in H0.
  by rewrite H0, (H 1%nat), (H 2%nat), (H 3%nat) by lia.
Qed.

Lemma val_arr_take n b i : (4 * i + 4 <= n)%nat -> val_arr (take n b) i = val_arr b i.
Proof. intros H. apply val_arr_ext. intros k Hk. apply lookup_take_lt. lia. Qed.

Lemma val_arr_app_l b1 b2 i : (4 * i + 4 <= length b1)%nat -> val_arr (b1 ++ b2) i = val_arr b1 i.
Proof. intros H. apply val_arr_ext. intros k Hk. apply lookup_app_l. lia. Qed.

Lemma val_arr_app_r b1 b2 i j : length b1 = (4 * (i - j))%nat -> (j <= i)%nat -> val_arr (b1 ++ b2) i = val_arr b2 j.
Proof. intros H Hj. apply val_arr_ext. intros k Hk. rewrite lookup_app_r by lia. f_equal. lia. Qed.

Lemma val_arr_drop n b i j : n = (4 * (j - i))%nat -> (i <= j)%nat -> val_arr (drop n b) i = val_arr b j.
Proof. intros -> Hj. apply val_arr_ext. intros k Hk. rewrite lookup_drop. f_equal. lia. Qed.

Lemma val_arr_receive b n r i : (4 * i + 4 <= n)%nat -> (n <= length b)%nat -> val_arr (receive b n r) i = val_arr b i.
Proof. intros Hi Hn. apply (delivered_val b n); [by apply delivered_receive|done]. Qed.

Lemma length_receive b n r : (n <= length b)%nat -> (n <= length r)%nat -> length (receive b n r) = length r.
Proof. intros H E. unfold receive. rewrite length_app, length_take, length_drop. lia. Qed.

Create Rewrite HintDb bytes.
#[export] Hint Rewrite length_set_val length_set_asc : bytes.
#[export] Hint Rewrite val_arr_set asc_set using (autorewrite with bytes; lia) : bytes.
#[export] Hint Rewrite val_arr_set_ne val_arr_set_asc asc_set_ne asc_set_val using lia : bytes.
