(* ===== verification/KString.v ===== *)
(** * KString: memory and strings

    kservice.c: [rt_memset], [rt_memcpy], [rt_memmove], [rt_memcmp] and the
    string functions.  The memory is a function from addresses to bytes 0..255;
    a word is stored little-endian, and [char] is signed, as on the target.

    - A loop that counts down is structural on the count; one that runs up to a
      NUL has fuel, and no result when that is used up. *)

From S2P Require Import Prelude Bytes.

Abbreviation mem := (Z -> Z).

Definition store8 (a v : Z) (b : mem) : mem := fun x => if decide (x = a) then u8 v else b x.
(** [*(long * )a] *)
Definition load32 (a : Z) (b : mem) : Z := b a + 256 * b (a + 1) + 65536 * b (a + 2) + 16777216 * b (a + 3).
Definition store32 (a w : Z) (b : mem) : mem :=
  store8 (a + 3) (byte_of 3 w) (store8 (a + 2) (byte_of 2 w) (store8 (a + 1) (byte_of 1 w) (store8 a (byte_of 0 w) b))).

(** [while (count >= k) { ...; count -= k; }] *)
Fixpoint while_ge {A} (fuel : nat) (k : Z) (body : A -> A) (count : Z) (s : A) : Z * A :=
  match fuel with
  | O => (count, s)
  | S fuel => if decide (k <= count) then while_ge fuel k body (count - k) (body s) else (count, s)
  end.

(** ** Memory *)

(** [while (count--) *m++ = d] *)
Fixpoint set_bytes (count : nat) (m d : Z) (b : mem) : mem :=
  match count with O => b | S count => set_bytes count (m + 1) d (store8 m d b) end.

(** [*aligned_addr++ = buffer] *)
Definition set_word (buffer : Z) (s : Z * mem) : Z * mem := (fst s + 4, store32 (fst s) buffer (snd s)).

(** [d] in each byte of a word. *)
Definition splat (d : Z) : Z :=
  let buffer := Z.lor (Z.shiftl d 8) d in Z.lor buffer (u32 (Z.shiftl buffer 16)).

Definition rt_memset (s c count : Z) (b : mem) : mem :=
  let d := Z.land c 0xff in
  let '(count, (m, b)) :=
    if decide (~ count < 4 /\ Z.land s 3 = 0) then
      let fuel := Z.to_nat count in
      let four s := set_word (splat d) (set_word (splat d) (set_word (splat d) (set_word (splat d) s))) in
      let '(count, a) := while_ge fuel 16 four count (s, b) in
      while_ge fuel 4 (set_word (splat d)) count a
    else (count, (s, b)) in
  set_bytes (Z.to_nat count) m d b.

(** [while (len--) *dst_ptr++ = *src_ptr++] *)
Fixpoint copy_bytes (len : nat) (dst src : Z) (b : mem) : mem :=
  match len with O => b | S len => copy_bytes len (dst + 1) (src + 1) (store8 dst (b src) b) end.

(** [*aligned_dst++ = *aligned_src++] *)
Definition copy_word (s : Z * Z * mem) : Z * Z * mem :=
  let '(dst, src, b) := s in (dst + 4, src + 4, store32 dst (load32 src b) b).

Definition rt_memcpy (dst src count : Z) (b : mem) : mem :=
  let '(len, (dst, src, b)) :=
    if decide (~ count < 16 /\ Z.lor (Z.land src 3) (Z.land dst 3) = 0) then
      let fuel := Z.to_nat count in
      let '(len, s) := while_ge fuel 16 (fun s => copy_word (copy_word (copy_word (copy_word s)))) count (dst, src, b) in
      while_ge fuel 4 copy_word len s
    else (count, (dst, src, b)) in
  copy_bytes (Z.to_nat len) dst src b.

(** [while (n--) *(--tmp) = *(--s)] *)
Fixpoint copy_back (n : nat) (tmp s : Z) (b : mem) : mem :=
  match n with O => b | S n => copy_back n (tmp - 1) (s - 1) (store8 (tmp - 1) (b (s - 1)) b) end.

Definition rt_memmove (dest src n : Z) (b : mem) : mem :=
  if decide (src < dest /\ dest < src + n) then copy_back (Z.to_nat n) (dest + n) (src + n) b
  else copy_bytes (Z.to_nat n) dest src b.

Fixpoint memcmp_loop (count : nat) (su1 su2 : Z) (b : mem) : Z :=
  match count with
  | O => 0
  | S count => let res := b su1 - b su2 in if decide (res <> 0) then res else memcmp_loop count (su1 + 1) (su2 + 1) b
  end.
Definition rt_memcmp (cs ct count : Z) (b : mem) : Z := memcmp_loop (Z.to_nat count) cs ct b.

(** ** Strings *)

Fixpoint strlen_loop (fuel : nat) (sc s : Z) (b : mem) : option Z :=
  match fuel with
  | O => None
  | S fuel => if decide (b sc <> 0) then strlen_loop fuel (sc + 1) s b else Some (sc - s)
  end.
Definition rt_strlen (fuel : nat) (s : Z) (b : mem) : option Z := strlen_loop fuel s s b.

(** The byte at [sc] is read before the bound is looked at. *)
Fixpoint strnlen_loop (fuel : nat) (sc s maxlen : Z) (b : mem) : option Z :=
  match fuel with
  | O => None
  | S fuel => if decide (b sc <> 0 /\ sc - s < maxlen) then strnlen_loop fuel (sc + 1) s maxlen b else Some (sc - s)
  end.
Definition rt_strnlen (s maxlen : Z) (b : mem) : option Z := strnlen_loop (S (Z.to_nat maxlen)) s s maxlen b.

(** [while (l1 >= l2)]; 0 is [RT_NULL]. *)
Fixpoint strstr_loop (fuel : nat) (l1 l2 s1 s2 : Z) (b : mem) : option Z :=
  match fuel with
  | O => None
  | S fuel =>
    if decide (l2 <= l1) then
      if decide (rt_memcmp s1 s2 l2 b = 0) then Some s1 else strstr_loop fuel (l1 - 1) l2 (s1 + 1) s2 b
    else Some 0
  end.
Definition rt_strstr (fuel : nat) (s1 s2 : Z) (b : mem) : option Z :=
  l2 ← rt_strlen fuel s2 b;
  if decide (l2 = 0) then Some s1
  else l1 ← rt_strlen fuel s1 b; strstr_loop (S fuel) l1 l2 s1 s2 b.

Definition upper_to_lower (c : Z) : Z := if decide (65 <= c <= 90) then c + 32 else c.

Fixpoint rt_strcasecmp (fuel : nat) (a b' : Z) (b : mem) : option Z :=
  match fuel with
  | O => None
  | S fuel =>
    let ca := upper_to_lower (Z.land (b a) 0xff) in
    let cb := upper_to_lower (Z.land (b b') 0xff) in
    if decide (ca = cb /\ ca <> 0) then rt_strcasecmp fuel (a + 1) (b' + 1) b else Some (u32 (ca - cb))
  end.

(** [while (--n != 0) *d++ = 0], [n] bytes are left after the decrement *)
Fixpoint strncpy_loop (n : nat) (d s : Z) (b : mem) : mem :=
  match n with
  | O => b
  | S n =>
    let b' := store8 d (b s) b in
    if decide (b s = 0) then set_bytes n (d + 1) 0 b' else strncpy_loop n (d + 1) (s + 1) b'
  end.
Definition rt_strncpy (dst src n : Z) (b : mem) : mem := strncpy_loop (Z.to_nat n) dst src b.

(** The difference is kept in a [signed char]. *)
Fixpoint strncmp_loop (count : nat) (cs ct res : Z) (b : mem) : Z :=
  match count with
  | O => res
  | S count =>
    let res := s8 (s8 (b cs) - s8 (b ct)) in
    if decide (res <> 0 \/ b cs = 0) then res else strncmp_loop count (cs + 1) (ct + 1) res b
  end.
Definition rt_strncmp (cs ct count : Z) (b : mem) : Z := strncmp_loop (Z.to_nat count) cs ct 0 b.

Fixpoint rt_strcmp (fuel : nat) (cs ct : Z) (b : mem) : option Z :=
  match fuel with
  | O => None
  | S fuel => if decide (b cs <> 0 /\ s8 (b cs) = s8 (b ct)) then rt_strcmp fuel (cs + 1) (ct + 1) b else Some (s8 (b cs) - s8 (b ct))
  end.

(** ** What they are for *)

Definition bytes_ok (b : mem) : Prop := forall a, in_range 8 (b a).

Definition filled (s c n : Z) (b : mem) : mem := fun x => if decide (s <= x < s + n) then u8 c else b x.
(** All the bytes are read before one is written. *)
Definition moved (dst src n : Z) (b : mem) : mem := fun x => if decide (dst <= x < dst + n) then b (src + (x - dst)) else b x.

(** A C string: its characters, none of them NUL, and the NUL behind them. *)
Fixpoint str_at (b : mem) (a : Z) (s : list Z) : Prop :=
  match s with [] => b a = 0 | c :: s => c <> 0 /\ b a = c /\ str_at b (a + 1) s end.

Lemma while_ge_iter {A} k (body : A -> A) fuel : forall count s, 0 < k -> 0 <= count <= Z.of_nat fuel ->
  while_ge fuel k body count s = (count mod k, Nat.iter (Z.to_nat (count / k)) body s).
Proof.
  induction fuel as [|fuel IH]; intros count s Hk Hc; cbn [while_ge].
  - replace count with 0 by lia. rewrite Z.mod_0_l, Z.div_0_l by lia. done.
  - case_decide as Hd.
    + rewrite IH by lia. rewrite <- (Z.mod_add (count - k) 1 k) by lia. replace (count - k + 1 * k) with count by lia. f_equal.
      replace (count / k) with ((count - k) / k + 1) by (rewrite <- Z.div_add by lia; f_equal; lia).
      pose proof (Z.div_pos (count - k) k). rewrite Z2Nat.inj_add by lia. by rewrite Nat.add_1_r, Nat.iter_succ_r.
    + rewrite Z.mod_small, Z.div_small by lia. done.
Qed.

Lemma iter_four {A} (f : A -> A) n s : Nat.iter n (fun s => f (f (f (f s)))) s = Nat.iter (4 * n) f s.
Proof. induction n as [|n IH]; [done|]. replace (4 * S n)%nat with (4 + 4 * n)%nat by lia. simpl. simpl in IH. by rewrite IH. Qed.

(** Blocks of 16 bytes, then words: [count / 4] words in all. *)
Lemma words_iter {A} (f : A -> A) count s : 0 <= count ->
  (let '(c, s') := while_ge (Z.to_nat count) 16 (fun s => f (f (f (f s)))) count s in while_ge (Z.to_nat count) 4 f c s') =
    (count mod 4, Nat.iter (Z.to_nat (count / 4)) f s).
Proof.
  intros Hc. rewrite while_ge_iter by lia. pose proof (Z.mod_pos_bound count 16 ltac:(lia)).
  assert (count mod 16 <= count) by (apply Z.mod_le; lia). rewrite while_ge_iter by lia. rewrite iter_four, <- Nat.iter_add.
  f_equal; [|f_equal].
  - Z.div_mod_to_equations. lia.
  - replace (4 * Z.to_nat (count / 16))%nat with (Z.to_nat (4 * (count / 16))) by (rewrite Z2Nat.inj_mul by (apply Z.div_pos || lia; lia); done).
    pose proof (Z.div_pos count 16). pose proof (Z.div_pos (count mod 16) 4). rewrite <- Z2Nat.inj_add by lia. f_equal.
    pose proof (Z.div_mod count 16). Z.div_mod_to_equations. lia.
Qed.

(** *** Words *)

Lemma byte_of_small k v : in_range 8 (byte_of k v).
Proof. apply wrap_range. lia. Qed.

Lemma splat_bytes d k : 0 <= d < 256 -> (k < 4)%nat -> byte_of k (splat d) = d.
Proof.
  intros Hd Hk. assert (forallb (fun d => forallb (fun k => bool_decide (byte_of k (splat d) = d)) [0;1;2;3]%nat) (seqZ 0 256) = true) as H by (vm_compute; done).
  rewrite forallb_forall in H. specialize (H d). rewrite forallb_forall in H. apply (bool_decide_eq_true_1 _), H.
  - apply list_elem_of_In, elem_of_seqZ. lia.
  - destruct k as [|[|[|[|k]]]]; simpl; tauto || lia.
Qed.

Lemma load32_bytes a b k : bytes_ok b -> (k < 4)%nat -> byte_of k (load32 a b) = b (a + Z.of_nat k).
Proof.
  intros Hb Hk. pose proof (Hb a). pose proof (Hb (a + 1)). pose proof (Hb (a + 2)). pose proof (Hb (a + 3)). unfold in_range in *.
  unfold byte_of, load32, wrap. rewrite Z.shiftr_div_pow2 by lia. change (2 ^ 8) with 256 in *.
  destruct k as [|[|[|[|k]]]]; [..|lia].
  - change (2 ^ (8 * Z.of_nat 0)) with 1. change (Z.of_nat 0) with 0. rewrite Z.add_0_r. Z.div_mod_to_equations. lia.
  - change (2 ^ (8 * Z.of_nat 1)) with 256. change (Z.of_nat 1) with 1. Z.div_mod_to_equations. lia.
  - change (2 ^ (8 * Z.of_nat 2)) with 65536. change (Z.of_nat 2) with 2. Z.div_mod_to_equations. lia.
  - change (2 ^ (8 * Z.of_nat 3)) with 16777216. change (Z.of_nat 3) with 3. Z.div_mod_to_equations. lia.
Qed.

Lemma store32_spec a w b x : store32 a w b x = if decide (a <= x < a + 4) then byte_of (Z.to_nat (x - a)) w else b x.
Proof.
  unfold store32, store8. rewrite !(wrap_small 8 (byte_of _ _)) by apply byte_of_small.
  repeat case_decide; subst; try lia; try done; f_equal; lia.
Qed.

Lemma store8_ok a v b : bytes_ok b -> bytes_ok (store8 a v b).
Proof. intros H x. unfold store8. case_decide; [apply wrap_range; lia|apply H]. Qed.
Lemma store32_ok a w b : bytes_ok b -> bytes_ok (store32 a w b).
Proof. intros H. by repeat apply store8_ok. Qed.

(** *** The loops *)

Lemma set_bytes_spec n : forall m d b x, set_bytes n m d b x = if decide (m <= x < m + Z.of_nat n) then u8 d else b x.
Proof.
  induction n as [|n IH]; intros m d b x; cbn [set_bytes]; [by rewrite decide_False by lia|].
  rewrite IH. unfold store8. repeat case_decide; try done; lia.
Qed.

Lemma set_words_spec n d : forall m b, 0 <= d < 256 ->
  fst (Nat.iter n (set_word (splat d)) (m, b)) = m + 4 * Z.of_nat n /\
  forall x, snd (Nat.iter n (set_word (splat d)) (m, b)) x = if decide (m <= x < m + 4 * Z.of_nat n) then d else b x.
Proof.
  induction n as [|n IH]; intros m b Hd; rewrite ?Nat.iter_succ.
  - split; [simpl; lia|]. intros x. by rewrite decide_False by (simpl; lia).
  - destruct (IH m b Hd) as [E1 E2]. destruct (Nat.iter n _ _) as [m' b']. cbn [fst snd] in E1, E2. subst m'. unfold set_word. cbn [fst snd]. split; [lia|]. intros x.
    rewrite store32_spec, E2. repeat case_decide; try done; try lia. apply splat_bytes; [done|lia].
Qed.

Lemma copy_bytes_forward n : forall dst src b x, bytes_ok b -> ~ (src < dst < src + Z.of_nat n) ->
  copy_bytes n dst src b x = moved dst src (Z.of_nat n) b x.
Proof.
  unfold moved. induction n as [|n IH]; intros dst src b x Hb Hov; cbn [copy_bytes]; [by rewrite decide_False by lia|].
  rewrite IH by (try apply store8_ok; done || lia). unfold store8. rewrite (wrap_small 8) by apply Hb.
  repeat case_decide; try lia; try done; try (f_equal; lia).
Qed.

Lemma copy_back_spec n : forall dst src b x, bytes_ok b -> src < dst ->
  copy_back n (dst + Z.of_nat n) (src + Z.of_nat n) b x = moved dst src (Z.of_nat n) b x.
Proof.
  unfold moved. induction n as [|n IH]; intros dst src b x Hb Hov; cbn [copy_back]; [by rewrite decide_False by lia|].
  replace (dst + Z.of_nat (S n) - 1) with (dst + Z.of_nat n) by lia. replace (src + Z.of_nat (S n) - 1) with (src + Z.of_nat n) by lia.
  rewrite IH by (try apply store8_ok; done || lia). unfold store8. rewrite (wrap_small 8) by apply Hb.
  repeat case_decide; try lia; try done; try (f_equal; lia).
Qed.

Definition disjoint_ranges (a b n : Z) : Prop := a + n <= b \/ b + n <= a.

Lemma copy_words_spec n : forall dst src b, bytes_ok b -> disjoint_ranges dst src (4 * Z.of_nat n) ->
  exists b', Nat.iter n copy_word (dst, src, b) = (dst + 4 * Z.of_nat n, src + 4 * Z.of_nat n, b') /\ bytes_ok b' /\
    forall x, b' x = moved dst src (4 * Z.of_nat n) b x.
Proof.
  unfold moved, disjoint_ranges. induction n as [|n IH]; intros dst src b Hb Hd; rewrite ?Nat.iter_succ.
  - exists b. split; [by rewrite !Z.add_0_r|]. split; [done|]. intros x. by rewrite decide_False by lia.
  - destruct (IH dst src b Hb ltac:(lia)) as (b' & E & Hb' & H). rewrite E. unfold copy_word at 1.
    replace (dst + 4 * Z.of_nat (S n)) with (dst + 4 * Z.of_nat n + 4) by lia.
    replace (src + 4 * Z.of_nat (S n)) with (src + 4 * Z.of_nat n + 4) by lia. eexists. split; [reflexivity|]. split; [by apply store32_ok|]. intros x.
    rewrite store32_spec. case_decide as Hx.
    + rewrite load32_bytes, H by (done || lia). rewrite decide_False, decide_True by lia. f_equal. lia.
    + rewrite H. repeat case_decide; try done; lia.
Qed.

(** ** The properties of the memory functions *)

Lemma rt_memset_spec s c n b x : 0 <= n -> rt_memset s c n b x = filled s c n b x.
Proof.
  intros Hn. unfold rt_memset, filled. change 0xff with (Z.ones 8). rewrite Z.land_ones by lia. fold (wrap 8 c).
  pose proof (wrap_range 8 c ltac:(lia)) as Hd. case_decide as Hw.
  - pose proof (words_iter (set_word (splat (u8 c))) n (s, b) Hn) as Ew.
    destruct (while_ge _ 16 _ n (s, b)) as [c1 s1]. rewrite Ew. pose proof (Z.div_pos n 4 Hn ltac:(lia)).
    destruct (set_words_spec (Z.to_nat (n / 4)) (u8 c) s b Hd) as [E1 E2]. destruct (Nat.iter _ _ _) as [m b1]. simpl in E1, E2.
    rewrite set_bytes_spec, E2, E1, wrap_wrap by lia. rewrite Z2Nat.id in * by lia. pose proof (Z.mod_pos_bound n 4 ltac:(lia)). rewrite Z2Nat.id by lia.
    pose proof (Z.div_mod n 4 ltac:(lia)). repeat case_decide; try done; lia.
  - rewrite set_bytes_spec, wrap_wrap, Z2Nat.id by lia. done.
Qed.

Lemma moved_small dst src n b x : n <= 0 -> moved dst src n b x = b x.
Proof. intros H. unfold moved. by rewrite decide_False by lia. Qed.

Lemma rt_memcpy_spec dst src n b x : bytes_ok b -> 0 <= n -> disjoint_ranges dst src n -> rt_memcpy dst src n b x = moved dst src n b x.
Proof.
  intros Hb Hn Hd. unfold rt_memcpy. case_decide as Hw.
  - pose proof (words_iter copy_word n (dst, src, b) Hn) as Ew.
    destruct (while_ge _ 16 _ n (dst, src, b)) as [c1 s1]. rewrite Ew.
    pose proof (Z.div_pos n 4 Hn ltac:(lia)). pose proof (Z.div_mod n 4 ltac:(lia)). pose proof (Z.mod_pos_bound n 4 ltac:(lia)). unfold disjoint_ranges in *.
    destruct (copy_words_spec (Z.to_nat (n / 4)) dst src b Hb) as (b1 & -> & Hb1 & Hx); [unfold disjoint_ranges; lia|].
    rewrite copy_bytes_forward by (done || lia). unfold moved in *. rewrite !Hx. rewrite !Z2Nat.id in * by lia.
    repeat case_decide; try done; try lia. f_equal. lia.
  - rewrite copy_bytes_forward by (done || unfold disjoint_ranges in *; lia). by rewrite Z2Nat.id by lia.
Qed.

Lemma rt_memmove_spec dst src n b x : bytes_ok b -> 0 <= n -> rt_memmove dst src n b x = moved dst src n b x.
Proof.
  intros Hb Hn. unfold rt_memmove. case_decide as Ho.
  - pose proof (copy_back_spec (Z.to_nat n) dst src b x Hb) as H. rewrite Z2Nat.id in H by lia. apply H. lia.
  - pose proof (copy_bytes_forward (Z.to_nat n) dst src b x Hb) as H. rewrite Z2Nat.id in H by lia. apply H. lia.
Qed.

(** Bytes stay bytes. *)
Lemma set_bytes_ok n : forall m d b, bytes_ok b -> bytes_ok (set_bytes n m d b).
Proof. induction n as [|n IH]; intros m d b Hb; [done|]. by apply IH, store8_ok. Qed.
Lemma copy_bytes_ok n : forall dst src b, bytes_ok b -> bytes_ok (copy_bytes n dst src b).
Proof. induction n as [|n IH]; intros dst src b Hb; [done|]. by apply IH, store8_ok. Qed.

Lemma rt_memset_ok s c n b : 0 <= n -> bytes_ok b -> bytes_ok (rt_memset s c n b).
Proof. intros Hn Hb x. rewrite rt_memset_spec by done. unfold filled. case_decide; [apply wrap_range; lia|apply Hb]. Qed.
Lemma rt_memcpy_ok dst src n b : bytes_ok b -> 0 <= n -> disjoint_ranges dst src n -> bytes_ok (rt_memcpy dst src n b).
Proof. intros Hb Hn Hd x. rewrite rt_memcpy_spec by done. unfold moved. case_decide; apply Hb. Qed.

(** ** The properties of the string functions *)

Lemma str_at_app b s1 : forall a s2, str_at b a (s1 ++ s2) -> str_at b (a + Z.of_nat (length s1)) s2.
Proof.
  induction s1 as [|c s1 IH]; intros a s2; simpl app; [by rewrite Z.add_0_r|]. intros (_ & _ & H). apply IH in H.
  cbn [length]. by replace (a + Z.of_nat (S (length s1))) with (a + 1 + Z.of_nat (length s1)) by lia.
Qed.

Lemma strlen_loop_ok b s a0 : forall fuel a, str_at b a s -> (length s < fuel)%nat ->
  strlen_loop fuel a a0 b = Some (a + Z.of_nat (length s) - a0).
Proof.
  induction s as [|c s IH]; intros fuel a H Hf; (destruct fuel as [|fuel]; [lia|]); cbn [strlen_loop].
  - simpl in H. rewrite decide_False by (intros ?; done). f_equal. simpl. lia.
  - destruct H as (Hc & <- & H). rewrite decide_True, (IH fuel (a + 1)) by (done || simpl in Hf; lia). f_equal. cbn [length]. lia.
Qed.
Lemma rt_strlen_ok b s fuel a : str_at b a s -> (length s < fuel)%nat -> rt_strlen fuel a b = Some (Z.of_nat (length s)).
Proof. intros H Hf. unfold rt_strlen. rewrite (strlen_loop_ok b s a fuel a H Hf). f_equal. lia. Qed.

Lemma strnlen_loop_ok b s a0 m : forall fuel a, str_at b a s -> a0 <= a -> a - a0 <= m -> m - (a - a0) < Z.of_nat fuel ->
  strnlen_loop fuel a a0 m b = Some (Z.min (a + Z.of_nat (length s) - a0) m).
Proof.
  induction s as [|c s IH]; intros fuel a H Ha Hm Hf; (destruct fuel as [|fuel]; [lia|]); cbn [strnlen_loop length].
  - simpl in H. rewrite decide_False by (intros [? _]; done). f_equal. lia.
  - destruct H as (Hc & <- & H). destruct (decide (a - a0 < m)).
    + rewrite decide_True, (IH fuel (a + 1)) by (done || lia). f_equal. lia.
    + rewrite decide_False by lia. f_equal. lia.
Qed.
Lemma rt_strnlen_ok b s a m : str_at b a s -> 0 <= m -> rt_strnlen a m b = Some (Z.min (Z.of_nat (length s)) m).
Proof. intros H Hm. unfold rt_strnlen. rewrite (strnlen_loop_ok b s) by (done || lia). do 2 f_equal. lia. Qed.

(** The first difference decides. *)
Lemma memcmp_loop_ok b n : forall p q,
  (memcmp_loop n p q b = 0 /\ forall i, 0 <= i < Z.of_nat n -> b (p + i) = b (q + i)) \/
  (exists i, 0 <= i < Z.of_nat n /\ (forall j, 0 <= j < i -> b (p + j) = b (q + j)) /\ b (p + i) <> b (q + i) /\ memcmp_loop n p q b = b (p + i) - b (q + i)).
Proof.
  induction n as [|n IH]; intros p q; cbn [memcmp_loop]; [left; split; [done|lia]|]. case_decide as Hd.
  - right. exists 0. rewrite !Z.add_0_r. split; [lia|]. split; [lia|]. split; [lia|done].
  - destruct (IH (p + 1) (q + 1)) as [[E H]|(i & Hi & H & Hne & E)].
    + left. split; [done|]. intros i Hi. destruct (decide (i = 0)) as [->|]; [rewrite !Z.add_0_r; lia|].
      specialize (H (i - 1) ltac:(lia)). by replace (p + 1 + (i - 1)) with (p + i) in H by lia; replace (q + 1 + (i - 1)) with (q + i) in H by lia.
    + right. exists (i + 1). replace (p + (i + 1)) with (p + 1 + i) by lia. replace (q + (i + 1)) with (q + 1 + i) by lia.
      split; [lia|]. split; [|done]. intros j Hj. destruct (decide (j = 0)) as [->|]; [rewrite !Z.add_0_r; lia|].
      specialize (H (j - 1) ltac:(lia)). by replace (p + 1 + (j - 1)) with (p + j) in H by lia; replace (q + 1 + (j - 1)) with (q + j) in H by lia.
Qed.

(** Equal bytes are a prefix. *)
Lemma memcmp_prefix b t : forall p q s, str_at b p s -> str_at b q t ->
  (memcmp_loop (length t) p q b = 0 <-> exists v, s = t ++ v).
Proof.
  induction t as [|c t IH]; intros p q s Hs Ht; cbn [memcmp_loop length].
  - split; [by exists s|done].
  - destruct Ht as (Hc & Ec & Ht). destruct s as [|d s]; simpl in Hs.
    + rewrite Hs, Ec. rewrite decide_True by lia. split; [lia|]. intros [v [=]].
    + destruct Hs as (Hd & Ed & Hs). rewrite Ed, Ec. case_decide as Hcd.
      * split; [lia|]. intros [v [= -> _]]. lia.
      * rewrite (IH _ _ s Hs Ht). assert (d = c) as -> by lia. split; intros [v Hv]; exists v; [by subst|by injection Hv].
Qed.

Lemma strstr_loop_ok b t q : str_at b q t -> forall fuel s p, str_at b p s -> (length s < fuel)%nat -> 0 < p ->
  exists r, strstr_loop fuel (Z.of_nat (length s)) (Z.of_nat (length t)) p q b = Some r /\
    ((r = 0 /\ forall u v, s <> u ++ t ++ v) \/
     (exists u v, s = u ++ t ++ v /\ r = p + Z.of_nat (length u) /\ forall u' v', s = u' ++ t ++ v' -> (length u <= length u')%nat)).
Proof.
  intros Ht. induction fuel as [|fuel IH]; intros s p Hs Hf Hp; [lia|]. cbn [strstr_loop]. case_decide as Hl.
  - unfold rt_memcmp. rewrite Nat2Z.id. case_decide as Hm.
    + apply (memcmp_prefix b t p q s Hs Ht) in Hm as [v ->]. exists p. split; [done|]. right. exists [], v. simpl. split; [done|]. split; [lia|]. lia.
    + assert (~ exists v, s = t ++ v) as Hno by by rewrite <- (memcmp_prefix b t p q s Hs Ht). destruct s as [|c s].
      { destruct Hno. exists []. destruct t; [done|simpl in Hl; lia]. }
      destruct Hs as (_ & _ & Hs). replace (Z.of_nat (length (c :: s)) - 1) with (Z.of_nat (length s)) by (simpl; lia).
      destruct (IH s (p + 1) Hs) as (r & E & Hr); [simpl in Hf; lia|lia|]. exists r. split; [done|].
      destruct Hr as [[-> Hr]|(u & v & -> & -> & Hmin)]; [left; split; [done|]|right].
      * intros u v Euv. destruct u as [|d u]; [apply Hno; by exists v|]. injection Euv as _ Euv. by apply (Hr u v).
      * exists (c :: u), v. split; [done|]. split; [simpl; lia|]. intros u' v' E'. destruct u' as [|d u']; [destruct Hno; by exists v'|].
        injection E' as _ E'. simpl. apply le_n_S, (Hmin u' v' E').
  - exists 0. split; [done|]. left. split; [done|]. intros u v ->. rewrite !length_app in Hl. lia.
Qed.

Lemma strcmp_ok b s : forall fuel p q t, bytes_ok b -> str_at b p s -> str_at b q t -> (length s < fuel)%nat ->
  exists r, rt_strcmp fuel p q b = Some r /\ (r = 0 <-> s = t).
Proof.
  assert (forall x y, in_range 8 x -> in_range 8 y -> s8 x = s8 y -> x = y) as Hs8.
  { intros x y Hx Hy. unfold s8. rewrite !wrap_small by done. unfold in_range in *. repeat case_decide; lia. }
  induction s as [|c s IH]; intros fuel p q t Hb Hs Ht Hf; (destruct fuel as [|fuel]; [lia|]); cbn [rt_strcmp].
  - simpl in Hs. rewrite decide_False by (intros [? _]; done). eexists. split; [reflexivity|].
    destruct t as [|d t]; [simpl in Ht; rewrite Hs, Ht; done|]. destruct Ht as (Hd & Ed & _). split; [|done].
    intros E. exfalso. apply Hd. rewrite <- Ed, <- Hs. symmetry. apply Hs8; [apply Hb..|lia].
  - destruct Hs as (Hc & Ec & Hs). case_decide as Hcd.
    + destruct Hcd as [_ E]. apply Hs8 in E; [|apply Hb..]. destruct t as [|d t]; [simpl in Ht; congruence|].
      destruct Ht as (Hd & Ed & Ht). destruct (IH fuel (p + 1) (q + 1) t Hb Hs Ht) as (r & Er & Hr); [simpl in Hf; lia|].
      exists r. split; [done|]. rewrite Hr. assert (c = d) as -> by congruence. split; [by intros ->|by intros [= ->]].
    + eexists. split; [reflexivity|]. split.
      * intros E. exfalso. apply Hcd. split; [by rewrite Ec|lia].
      * intros <-. destruct Ht as (Hd & Ed & _). rewrite Ec, Ed. lia.
Qed.

Lemma str_at_frame b b' s : forall a, (forall x, a <= x <= a + Z.of_nat (length s) -> b' x = b x) -> str_at b a s -> str_at b' a s.
Proof.
  induction s as [|c s IH]; intros a H; simpl; [intros E; rewrite H; [done|simpl; lia]|]. intros (Hc & E & Hs).
  split; [done|]. split; [rewrite H; [done|simpl; lia]|]. apply IH; [|done]. intros x Hx. apply H. simpl. lia.
Qed.

Lemma str_at_moved b b' s : forall p q, (forall i, 0 <= i <= Z.of_nat (length s) -> b' (q + i) = b (p + i)) -> str_at b p s -> str_at b' q s.
Proof.
  induction s as [|c s IH]; intros p q H; simpl.
  - intros E. specialize (H 0 ltac:(simpl; lia)). rewrite !Z.add_0_r in H. by rewrite H.
  - intros (Hc & E & Hs). split; [done|]. split.
    + specialize (H 0 ltac:(simpl; lia)). rewrite !Z.add_0_r in H. by rewrite H.
    + apply (IH (p + 1)); [|done]. intros i Hi. rewrite <- !Z.add_assoc. apply H. simpl. lia.
Qed.

(** The characters, and NULs up to [n] bytes; no NUL if [n] is too small. *)
Lemma rt_strncpy_ok n : forall b s dst src x, bytes_ok b -> str_at b src s ->
  dst + Z.of_nat n <= src \/ src + Z.of_nat (length s) < dst ->
  rt_strncpy dst src (Z.of_nat n) b x = if decide (dst <= x < dst + Z.of_nat n) then nth (Z.to_nat (x - dst)) s 0 else b x.
Proof.
  unfold rt_strncpy. setoid_rewrite Nat2Z.id.
  induction n as [|n IH]; intros b s dst src x Hb Hs Hd; cbn [strncpy_loop]; [by rewrite decide_False by lia|].
  destruct s as [|c s].
  - simpl in Hs. rewrite Hs. rewrite decide_True by done. rewrite set_bytes_spec. unfold store8.
    assert (nth (Z.to_nat (x - dst)) [] 0 = 0) as -> by (by destruct (Z.to_nat (x - dst))). repeat case_decide; try done; lia.
  - destruct Hs as (Hc & Ec & Hs). rewrite Ec, decide_False by done.
    rewrite (IH _ s); [|by apply store8_ok|apply (str_at_frame b); [|done]|simpl in Hd; lia].
    + unfold store8. rewrite (wrap_small 8) by (rewrite <- Ec; apply Hb). destruct (decide (x = dst)) as [->|].
      * rewrite decide_False, decide_True, Z.sub_diag by lia. done.
      * replace (Z.to_nat (x - dst)) with (Z.to_nat (x - (dst + 1)) + (if decide (dst < x)%Z then 1 else 0))%nat by (case_decide; lia).
        repeat case_decide; try lia; try done. by rewrite Nat.add_1_r.
    + intros y Hy. unfold store8. rewrite decide_False; [done|]. simpl in Hd. lia.
Qed.

Lemma strncmp_zero b n : forall p q s t r, bytes_ok b -> str_at b p s -> str_at b q t ->
  strncmp_loop n p q r b = 0 <-> (n = 0%nat /\ r = 0) \/ (0 < n)%nat /\ take n s = take n t.
Proof.
  assert (forall x y, in_range 8 x -> in_range 8 y -> s8 (s8 x - s8 y) = 0 <-> x = y) as Hs8.
  { intros x y Hx Hy. split; [|intros ->; by rewrite Z.sub_diag]. unfold s8 at 2 3. rewrite !(wrap_small 8) by done.
    unfold in_range, s8, wrap in *. repeat case_decide; Z.div_mod_to_equations; lia. }
  induction n as [|n IH]; intros p q s t r Hb Hs Ht; cbn [strncmp_loop]; [split; [auto|intros [[_ ?]|[? _]]; [done|lia]]|].
  destruct s as [|c s]; destruct t as [|d t]; simpl in Hs, Ht.
  - rewrite decide_True by auto. rewrite Hs, Ht. split; [right; split; [lia|done]|done].
  - destruct Ht as (Hd & Ed & Ht). rewrite decide_True by auto. rewrite Hs8 by apply Hb. split; [congruence|].
    intros [[? _]|[_ [=]]]. lia.
  - destruct Hs as (Hc & Ec & Hs). rewrite decide_True; [|left; rewrite Hs8 by apply Hb; congruence]. rewrite Hs8 by apply Hb.
    split; [congruence|]. intros [[? _]|[_ [=]]]. lia.
  - destruct Hs as (Hc & Ec & Hs), Ht as (Hd & Ed & Ht). destruct (decide (c = d)) as [->|Hne].
    + rewrite Ec, Ed, Z.sub_diag. change (s8 0) with 0. rewrite decide_False by (intros [?|?]; done).
      rewrite (IH _ _ s t 0 Hb Hs Ht). cbn [take]. split.
      * intros [[-> _]|[_ E]]; right; (split; [lia|]); [done|by rewrite E].
      * intros [[? _]|[_ [= E]]]; [lia|]. destruct n; [by left|right; split; [lia|done]].
    + rewrite decide_True by (left; rewrite Hs8 by apply Hb; congruence). rewrite Hs8 by apply Hb. split; [congruence|].
      intros [[? _]|[_ [=]]]; [lia|congruence].
Qed.

Lemma rt_strncmp_zero b n p q s t : bytes_ok b -> str_at b p s -> str_at b q t -> 0 < n ->
  rt_strncmp p q n b = 0 <-> take (Z.to_nat n) s = take (Z.to_nat n) t.
Proof.
  intros Hb Hs Ht Hn. unfold rt_strncmp. rewrite (strncmp_zero b _ p q s t 0 Hb Hs Ht).
  split; [intros [[? _]|[_ E]]; [lia|done]|intros E; right; split; [lia|done]].
Qed.

(** Equal but for the case of the letters; the result is unsigned. *)
Lemma rt_strcasecmp_ok b s : forall fuel p q t, bytes_ok b -> str_at b p s -> str_at b q t -> (length s < fuel)%nat ->
  exists r, rt_strcasecmp fuel p q b = Some r /\ (r = 0 <-> map upper_to_lower s = map upper_to_lower t).
Proof.
  assert (forall x, in_range 8 x -> Z.land x 0xff = x) as Hland.
  { intros x Hx. change 0xff with (Z.ones 8). rewrite Z.land_ones by lia. by apply Z.mod_small. }
  assert (forall x, in_range 8 x -> in_range 8 (upper_to_lower x) /\ (upper_to_lower x = 0 <-> x = 0)) as Hul.
  { intros x Hx. unfold upper_to_lower, in_range in *. case_decide; lia. }
  assert (forall x y, in_range 8 x -> in_range 8 y -> u32 (x - y) = 0 <-> x = y) as Hsub.
  { intros x y Hx Hy. unfold wrap, in_range in *. split; [intros H; Z.div_mod_to_equations; lia|intros ->; by rewrite Z.sub_diag]. }
  induction s as [|c s IH]; intros fuel p q t Hb Hs Ht Hf; (destruct fuel as [|fuel]; [lia|]); cbn [rt_strcasecmp];
    rewrite !Hland by apply Hb; pose proof (Hul _ (Hb p)) as [P1 P2]; pose proof (Hul _ (Hb q)) as [Q1 Q2].
  - simpl in Hs. rewrite decide_False by (intros [_ ?]; tauto). eexists. split; [reflexivity|]. rewrite Hsub by done.
    destruct t as [|d t]; [simpl in Ht; by rewrite Hs, Ht|]. destruct Ht as (Hd & Ed & _). split; [|done].
    intros E. rewrite E in P2. exfalso. rewrite Ed in Q2. rewrite Ed in P2. tauto.
  - destruct Hs as (Hc & Ec & Hs). case_decide as Hcd.
    + destruct Hcd as [E Hnz]. destruct t as [|d t]; [simpl in Ht; tauto || (rewrite E in Hnz; tauto)|].
      destruct Ht as (Hd & Ed & Ht). destruct (IH fuel (p + 1) (q + 1) t Hb Hs Ht) as (r & Er & Hr); [simpl in Hf; lia|].
      exists r. split; [done|]. rewrite Hr. rewrite Ec, Ed in E. simpl. rewrite E. split; [by intros ->|by intros [= ->]].
    + eexists. split; [reflexivity|]. rewrite Hsub by done. split.
      * intros E. exfalso. apply Hcd. split; [done|]. rewrite P2, Ec. done.
      * intros E. destruct t as [|d t]; [done|]. destruct Ht as (Hd & Ed & _). injection E as E _. by rewrite Ec, Ed.
Qed.

(** ** The properties *)

(** C15: The word-wise [rt_memset] and [rt_memcpy] (of disjoint blocks) do what
    the byte-wise definitions say, whatever the alignment and the length;
    [rt_memmove] does so for blocks that overlap too; [rt_memcmp] is 0 exactly
    for equal blocks. *)
Theorem memory_functions_ok b : bytes_ok b -> forall s d c n x, 0 <= n ->
  rt_memset d c n b x = filled d c n b x /\
  rt_memmove d s n b x = moved d s n b x /\
  (disjoint_ranges d s n -> rt_memcpy d s n b x = moved d s n b x) /\
  (rt_memcmp s d n b = 0 <-> forall i, 0 <= i < n -> b (s + i) = b (d + i)).
Proof.
  intros Hb s d c n x Hn. split; [by apply rt_memset_spec|]. split; [by apply rt_memmove_spec|].
  split; [by apply rt_memcpy_spec|]. unfold rt_memcmp.
  destruct (memcmp_loop_ok b (Z.to_nat n) s d) as [[E H]|(i & Hi & _ & Hne & E)]; rewrite Z2Nat.id in * by done; [done|].
  split; [lia|]. intros H. by destruct Hne; apply H.
Qed.

(** [rt_strstr] ends and returns the address of the first occurrence of the
    second string in the first, or NULL if there is none. *)
Theorem rt_strstr_finds_first b p q s t fuel : str_at b p s -> str_at b q t -> 0 < p -> (length s + length t < fuel)%nat ->
  exists r, rt_strstr fuel p q b = Some r /\
    ((r = 0 /\ forall u v, s <> u ++ t ++ v) \/
     (exists u v, s = u ++ t ++ v /\ r = p + Z.of_nat (length u) /\ forall u' v', s = u' ++ t ++ v' -> (length u <= length u')%nat)).
Proof.
  intros Hs Ht Hp Hf. unfold rt_strstr. rewrite (rt_strlen_ok b t fuel q) by (done || lia). simpl. case_decide as Hz.
  - exists p. split; [done|]. right. exists [], s. destruct t; [|done]. simpl. split; [done|]. split; [lia|intros; lia].
  - rewrite (rt_strlen_ok b s fuel p) by (done || lia). simpl. apply (strstr_loop_ok b t q Ht (S fuel) s p Hs); lia.
Qed.

(** ** Concrete memories *)

(** "aab" at 16, "ab" at 32, two characters at 48 and 50. *)
Definition mem_demo : mem := fun x => match x with 16 => 97 | 17 => 97 | 18 => 98 | 32 => 97 | 33 => 98 | 48 => 127 | 50 => 128 | _ => 0 end.

Lemma mem_demo_ok : bytes_ok mem_demo.
Proof. intros x. unfold mem_demo, in_range. repeat case_match; lia. Qed.

(** 127 is more than -128, but the difference does not fit in a [signed char]. *)
Example strncmp_sign : rt_strncmp 48 50 1 mem_demo = -1 /\ rt_strcmp 2 48 50 mem_demo = Some 255.
Proof. vm_compute. split; reflexivity. Qed.

(** ** Witnesses *)

Lemma memory_functions_ok_witness : rt_memcpy 100 16 19 mem_demo 117 = 98.
Proof.
  destruct (memory_functions_ok mem_demo mem_demo_ok 16 100 0 19 117) as (_ & _ & H & _); [lia|].
  rewrite H; [vm_compute; reflexivity|unfold disjoint_ranges; lia].
Defined.

Lemma rt_strstr_finds_first_witness : exists r, rt_strstr 8 16 32 mem_demo = Some r /\
  ((r = 0 /\ forall u v, [97;97;98] <> u ++ [97;98] ++ v) \/
   (exists u v, [97;97;98] = u ++ [97;98] ++ v /\ r = 16 + Z.of_nat (length u) /\
      forall u' v', [97;97;98] = u' ++ [97;98] ++ v' -> (length u <= length u')%nat)).
Proof. apply (rt_strstr_finds_first mem_demo 16 32 [97;97;98] [97;98] 8); [vm_compute; intuition congruence..|lia|simpl; lia]. Defined.
