(* ===== verification/Names.v ===== *)
(** * Names: the object system with its names

    object.c, [rt_thread_find] of thread.c.  Objects are structures in the
    memory of [KString], at their addresses; the name is their first field.  The
    nodes of the object lists are not in the memory but in [o_lists], a list of
    addresses for each entry of [rt_object_container].  A hook is a number, and
    a call of it an entry of [o_hooked]; what the heap gives is an argument, what
    it is given back is in [o_freed].  [Object] is what the kernel needs of this. *)

From S2P Require Import Kernel Sched Object Timer Thread Ipc Demo Bytes KString.

Definition RT_NAME_MAX : Z := 10.
Definition RT_Object_Class_Thread : Z := 1.
Definition RT_Object_Class_Semaphore : Z := 2.
Definition RT_Object_Class_Mutex : Z := 3.
Definition RT_Object_Class_Event : Z := 4.
Definition RT_Object_Class_MailBox : Z := 5.
Definition RT_Object_Class_MessageQueue : Z := 6.
Definition RT_Object_Class_MemHeap : Z := 7.
Definition RT_Object_Class_MemPool : Z := 8.
Definition RT_Object_Class_Device : Z := 9.
Definition RT_Object_Class_Timer : Z := 10.
Definition RT_Object_Class_Unknown : Z := 12.
Definition RT_Object_Class_Static : Z := 128.

(** The fields of [struct rt_object] behind the name, and its size. *)
Definition object_type (object : Z) : Z := object + RT_NAME_MAX.
Definition object_flag (object : Z) : Z := object + RT_NAME_MAX + 1.
Definition sizeof_object : Z := 20.

Record ostate := OState {
  o_kernel : kstate;
  o_mem : mem;
  o_lists : nat -> list Z;
  o_attach_hook : option Z;
  o_detach_hook : option Z;
  o_trytake_hook : option Z;
  o_take_hook : option Z;
  o_put_hook : option Z;
  o_hooked : list (Z * Z);
  o_freed : list Z
}.
Abbreviation OM := (M ostate).

Definition in_kernel {A} (m : KM A) : OM A := fun s =>
  match m (o_kernel s) with
  | Some (a, k) => Some (a, OState k (o_mem s) (o_lists s) (o_attach_hook s) (o_detach_hook s) (o_trytake_hook s)
      (o_take_hook s) (o_put_hook s) (o_hooked s) (o_freed s))
  | None => None
  end.
Definition with_mem (f : mem -> mem) (s : ostate) : ostate :=
  OState (o_kernel s) (f (o_mem s)) (o_lists s) (o_attach_hook s) (o_detach_hook s) (o_trytake_hook s)
    (o_take_hook s) (o_put_hook s) (o_hooked s) (o_freed s).
Definition with_olists (f : (nat -> list Z) -> nat -> list Z) (s : ostate) : ostate :=
  OState (o_kernel s) (o_mem s) (f (o_lists s)) (o_attach_hook s) (o_detach_hook s) (o_trytake_hook s)
    (o_take_hook s) (o_put_hook s) (o_hooked s) (o_freed s).
Definition with_hooks (attach detach trytake take put : option Z -> option Z) (s : ostate) : ostate :=
  OState (o_kernel s) (o_mem s) (o_lists s) (attach (o_attach_hook s)) (detach (o_detach_hook s)) (trytake (o_trytake_hook s))
    (take (o_take_hook s)) (put (o_put_hook s)) (o_hooked s) (o_freed s).
Definition with_hooked (f : list (Z * Z) -> list (Z * Z)) (s : ostate) : ostate :=
  OState (o_kernel s) (o_mem s) (o_lists s) (o_attach_hook s) (o_detach_hook s) (o_trytake_hook s)
    (o_take_hook s) (o_put_hook s) (f (o_hooked s)) (o_freed s).
Definition with_freed (f : list Z -> list Z) (s : ostate) : ostate :=
  OState (o_kernel s) (o_mem s) (o_lists s) (o_attach_hook s) (o_detach_hook s) (o_trytake_hook s)
    (o_take_hook s) (o_put_hook s) (o_hooked s) (f (o_freed s)).

(** ** Hooks *)

Definition rt_object_attach_sethook (hook : option Z) : OM unit := modify (with_hooks (fun _ => hook) id id id id).
Definition rt_object_detach_sethook (hook : option Z) : OM unit := modify (with_hooks id (fun _ => hook) id id id).
Definition rt_object_trytake_sethook (hook : option Z) : OM unit := modify (with_hooks id id (fun _ => hook) id id).
Definition rt_object_take_sethook (hook : option Z) : OM unit := modify (with_hooks id id id (fun _ => hook) id).
Definition rt_object_put_sethook (hook : option Z) : OM unit := modify (with_hooks id id id id (fun _ => hook)).

Definition RT_OBJECT_HOOK_CALL (hook : ostate -> option Z) (object : Z) : OM unit :=
  h ← gets hook;
  match h with
  | Some f => modify (with_hooked (fun l => l ++ [(f, object)]))
  | None => mret tt
  end.

(** ** The container *)

(** The types of [rt_object_container] in the order of its entries. *)
Definition rt_object_container : list Z :=
  [RT_Object_Class_Thread; RT_Object_Class_Semaphore; RT_Object_Class_Mutex; RT_Object_Class_Event; RT_Object_Class_MailBox;
   RT_Object_Class_MessageQueue; RT_Object_Class_MemHeap; RT_Object_Class_MemPool; RT_Object_Class_Device; RT_Object_Class_Timer].

Fixpoint information_loop (index : nat) (container : list Z) (type : Z) : option nat :=
  match container with
  | [] => None
  | t :: container => if decide (t = type) then Some index else information_loop (S index) container type
  end.
(** The index of the entry stands for the pointer to it. *)
Definition rt_object_get_information (type : Z) : option nat := information_loop 0 rt_object_container type.

Definition rt_system_object_init : OM unit := mret tt.

(** ** Objects begin and end *)

Fixpoint assert_absent (object : Z) (l : list Z) : OM unit :=
  match l with
  | [] => mret tt
  | obj :: l => rt_assert (bool_decide (obj <> object));; assert_absent object l
  end.

Definition link_object (information : nat) (object : Z) : OM unit :=
  modify (with_olists (fun f => <[information := object :: f information]> f)).
Definition unlink_object (object : Z) : OM unit := modify (with_olists (fun f i => lremove object (f i))).
Definition write_mem (f : mem -> mem) : OM unit := modify (with_mem f).
Definition read_mem (a : Z) : OM Z := gets (fun s => o_mem s a).

Definition rt_object_init (object type name : Z) : OM unit :=
  information ← deref (fun _ => rt_object_get_information type);
  in_kernel rt_enter_critical;;
  l ← gets (fun s => o_lists s information);
  assert_absent object l;;
  in_kernel rt_exit_critical;;
  write_mem (store8 (object_type object) (Z.lor type RT_Object_Class_Static));;
  write_mem (rt_strncpy object name RT_NAME_MAX);;
  RT_OBJECT_HOOK_CALL o_attach_hook object;;
  link_object information object.

Definition rt_object_detach (object : Z) : OM unit :=
  rt_assert (bool_decide (object <> 0));;
  RT_OBJECT_HOOK_CALL o_detach_hook object;;
  write_mem (store8 (object_type object) 0);;
  unlink_object object.

(** [new] is what the heap gives, [size] the size of the objects of the type. *)
Definition rt_object_allocate (new : option Z) (size : nat -> Z) (type name : Z) : OM (option Z) :=
  in_kernel RT_DEBUG_NOT_IN_INTERRUPT;;
  information ← deref (fun _ => rt_object_get_information type);
  match new with
  | None => mret None
  | Some object =>
    write_mem (rt_memset object 0 (size information));;
    write_mem (store8 (object_type object) type);;
    write_mem (store8 (object_flag object) 0);;
    write_mem (rt_strncpy object name RT_NAME_MAX);;
    RT_OBJECT_HOOK_CALL o_attach_hook object;;
    link_object information object;;
    mret (Some object)
  end.

Definition rt_object_is_systemobject (object : Z) : OM bool :=
  rt_assert (bool_decide (object <> 0));;
  type ← read_mem (object_type object);
  mret (bool_decide (Z.land type RT_Object_Class_Static <> 0)).

Definition rt_object_get_type (object : Z) : OM Z :=
  rt_assert (bool_decide (object <> 0));;
  type ← read_mem (object_type object);
  mret (u8 (Z.land type (Z.lnot RT_Object_Class_Static))).

Definition rt_object_delete (object : Z) : OM unit :=
  rt_assert (bool_decide (object <> 0));;
  type ← read_mem (object_type object);
  rt_assert (bool_decide (Z.land type RT_Object_Class_Static = 0));;
  RT_OBJECT_HOOK_CALL o_detach_hook object;;
  write_mem (store8 (object_type object) 0);;
  unlink_object object;;
  modify (with_freed (cons object)).

(** ** Finding an object by its name *)

Fixpoint find_loop (name : Z) (l : list Z) (b : mem) : option Z :=
  match l with
  | [] => None
  | object :: l => if decide (rt_strncmp object name RT_NAME_MAX b = 0) then Some object else find_loop name l b
  end.

Definition rt_object_find (name type : Z) : OM (option Z) :=
  if decide (name = 0 \/ RT_Object_Class_Unknown < type) then mret None
  else
    in_kernel RT_DEBUG_NOT_IN_INTERRUPT;;
    in_kernel rt_enter_critical;;
    information ← deref (fun _ => rt_object_get_information type);
    object ← gets (fun s => find_loop name (o_lists s information) (o_mem s));
    in_kernel rt_exit_critical;;
    mret object.

(** [if (rt_thread_self() != RT_NULL) ...] *)
Definition if_running (m : KM unit) : OM unit :=
  cur ← in_kernel rt_thread_self;
  when (bool_decide (is_Some cur)) (in_kernel m).

(** The search that [rt_thread_find] and [rt_device_find] both have. *)
Definition find_object_of (type name : Z) : OM (option Z) :=
  if_running rt_enter_critical;;
  information ← deref (fun _ => rt_object_get_information type);
  object ← gets (fun s => find_loop name (o_lists s information) (o_mem s));
  if_running rt_exit_critical;;
  mret object.

Definition rt_thread_find (name : Z) : OM (option Z) := find_object_of RT_Object_Class_Thread name.

(** ** Names in memory *)

(** The characters of a field of [n] bytes, up to the NUL if there is one. *)
Fixpoint chars (n : nat) (a : Z) (b : mem) : list Z :=
  match n with
  | O => []
  | S n => if decide (b a = 0) then [] else b a :: chars n (a + 1) b
  end.

Lemma chars_str n : forall a b s, str_at b a s -> chars n a b = take n s.
Proof.
  induction n as [|n IH]; intros a b s H; [done|]. cbn [chars].
  destruct s as [|c s]; simpl in H; [by rewrite decide_True|]. destruct H as (Hc & E & Hs).
  rewrite decide_False by congruence. by rewrite E, (IH _ _ s Hs).
Qed.

Lemma chars_ext n : forall a b b', (forall x, a <= x < a + Z.of_nat n -> b' x = b x) -> chars n a b' = chars n a b.
Proof.
  induction n as [|n IH]; intros a b b' H; [done|]. cbn [chars]. rewrite (H a) by lia.
  rewrite (IH (a + 1) b b'); [done|]. intros x Hx. apply H. lia.
Qed.

Lemma chars_nth n : forall a b s, Forall (fun c => c <> 0) s -> (forall i, (i < n)%nat -> b (a + Z.of_nat i) = nth i s 0) -> chars n a b = take n s.
Proof.
  induction n as [|n IH]; intros a b s Hs H; [done|]. cbn [chars]. pose proof (H 0%nat ltac:(lia)) as H0. rewrite Z.add_0_r in H0.
  rewrite H0. destruct s as [|c s]; [done|]. apply Forall_cons in Hs as [Hc Hs]. simpl nth. rewrite decide_False by done. cbn [take].
  f_equal. apply IH; [done|]. intros i Hi. replace (a + 1 + Z.of_nat i) with (a + Z.of_nat (S i)) by lia. apply (H (S i)). lia.
Qed.

Lemma str_at_chars b s : forall a, str_at b a s -> Forall (fun c => c <> 0) s.
Proof. induction s as [|c s IH]; intros a H; [done|]. destruct H as (? & _ & ?). constructor; [done|by eapply IH]. Qed.

Lemma s8_diff_zero x y : in_range 8 x -> in_range 8 y -> s8 (s8 x - s8 y) = 0 <-> x = y.
Proof.
  intros Hx Hy. split; [|intros ->; by rewrite Z.sub_diag]. unfold s8 at 2 3. rewrite !(wrap_small 8) by done.
  unfold in_range, s8, wrap in *. repeat case_decide; Z.div_mod_to_equations; lia.
Qed.

(** [rt_strncmp] compares fields of [n] bytes: the strings need no NUL. *)
Lemma strncmp_chars b n : bytes_ok b -> forall p q, strncmp_loop n p q 0 b = 0 <-> chars n p b = chars n q b.
Proof.
  intros Hb. induction n as [|n IH]; intros p q; [done|]. cbn [strncmp_loop chars].
  destruct (decide (b p = b q)) as [E|E].
  - rewrite <- E, Z.sub_diag. change (s8 0) with 0. destruct (decide (b p = 0)) as [Ez|Ez].
    + rewrite decide_True by auto. done.
    + rewrite decide_False by tauto. rewrite IH. split; [by intros ->|by intros [= ?]].
  - rewrite decide_True by (left; by rewrite s8_diff_zero by apply Hb). rewrite s8_diff_zero by apply Hb.
    split; [done|]. intros Ec. repeat case_decide; simplify_eq; congruence.
Qed.

Lemma rt_strncmp_chars b n p q : bytes_ok b -> rt_strncmp p q n b = 0 <-> chars (Z.to_nat n) p b = chars (Z.to_nat n) q b.
Proof. intros Hb. by apply strncmp_chars. Qed.

(** ** The abstract registry *)

Record entry := Entry { e_object : Z; e_static : bool; e_name : list Z }.
(** The objects of each class, the newest first. *)
Abbreviation registry := (nat -> list entry).

Definition entry_at (b : mem) (object : Z) : entry :=
  Entry object (bool_decide (Z.land (b (object_type object)) RT_Object_Class_Static <> 0)) (chars (Z.to_nat RT_NAME_MAX) object b).
Definition entries (s : ostate) : registry := fun i => entry_at (o_mem s) <$> o_lists s i.

Inductive obj_op :=
  | OInit (object type name : Z)
  | OAllocate (new : option Z) (size : nat -> Z) (type name : Z)
  | ODetach (object : Z)
  | ODelete (object : Z)
  | OFind (name type : Z)
  | OFindThread (name : Z).

Definition obj_exec (op : obj_op) : OM (option Z) :=
  match op with
  | OInit object type name => rt_object_init object type name;; mret None
  | OAllocate new size type name => rt_object_allocate new size type name
  | ODetach object => rt_object_detach object;; mret None
  | ODelete object => rt_object_delete object;; mret None
  | OFind name type => rt_object_find name type
  | OFindThread name => rt_thread_find name
  end.

(** The names as texts: only their first ten characters count. *)
Definition short (name : list Z) : list Z := take (Z.to_nat RT_NAME_MAX) name.
Definition class_of (type : Z) : nat := Z.to_nat (type - 1).
Definition add_entry (type : Z) (e : entry) (r : registry) : registry := <[class_of type := e :: r (class_of type)]> r.
Definition drop_entry (object : Z) (r : registry) : registry := fun i => filter (fun e => e_object e <> object) (r i).
Definition find_entry (text : list Z) (l : list entry) : option Z :=
  e_object <$> head (filter (fun e => e_name e = short text) l).

Definition obj_spec (op : obj_op) (text : list Z) (r : registry) : option Z * registry :=
  match op with
  | OInit object type _ => (None, add_entry type (Entry object true (short text)) r)
  | OAllocate (Some object) _ type _ => (Some object, add_entry type (Entry object false (short text)) r)
  | OAllocate None _ _ _ => (None, r)
  | ODetach object | ODelete object => (None, drop_entry object r)
  | OFind _ type => (find_entry text (r (class_of type)), r)
  | OFindThread _ => (find_entry text (r (class_of RT_Object_Class_Thread)), r)
  end.

(** ** The invariant, and what an operation may be called with *)

Definition apart (a n b m : Z) : Prop := a + n <= b \/ b + m <= a.
Definition class_ok (type : Z) : Prop := 1 <= type <= 10.

Record registry_ok (s : ostate) : Prop := RegistryOk {
  ro_kernel : wf (o_kernel s);
  ro_irq : k_irq_nest (o_kernel s) = 0;
  ro_mem : bytes_ok (o_mem s);
  ro_types i a : a ∈ o_lists s i -> (i < 10)%nat /\ Z.land (o_mem s (object_type a)) 127 = Z.of_nat i + 1;
  ro_objects i j a a' : a ∈ o_lists s i -> a' ∈ o_lists s j -> a = a' \/ apart a sizeof_object a' sizeof_object;
  ro_nodup i : NoDup (o_lists s i);
  ro_null i : 0 ∉ o_lists s i
}.

(** Memory of [n] bytes at [a] that no object and not the string is in. *)
Definition unused_memory (s : ostate) (a n name len : Z) : Prop :=
  a <> 0 /\ sizeof_object <= n /\ apart a n name (len + 1) /\ forall i a', a' ∈ o_lists s i -> apart a n a' sizeof_object.
Definition registered (s : ostate) (a : Z) : Prop := exists i, a ∈ o_lists s i.

Definition obj_pre (op : obj_op) (text : list Z) (s : ostate) : Prop :=
  let len := Z.of_nat (length text) in
  match op with
  | OInit object type name =>
    class_ok type /\ str_at (o_mem s) name text /\ unused_memory s object sizeof_object name len
  | OAllocate new size type name =>
    class_ok type /\ str_at (o_mem s) name text /\
    (forall object, new = Some object -> unused_memory s object (size (class_of type)) name len)
  | ODetach object => registered s object
  | ODelete object => registered s object /\ Z.land (o_mem s (object_type object)) RT_Object_Class_Static = 0
  | OFind name type => class_ok type /\ name <> 0 /\ str_at (o_mem s) name text
  | OFindThread name => str_at (o_mem s) name text
  end.

(** ** The pieces *)

Lemma get_information_ok type : class_ok type -> rt_object_get_information type = Some (class_of type).
Proof.
  intros H. assert (type = 1 \/ type = 2 \/ type = 3 \/ type = 4 \/ type = 5 \/ type = 6 \/ type = 7 \/ type = 8 \/ type = 9 \/ type = 10)
    as Hc by (unfold class_ok in H; lia).
  by destruct Hc as [->|[->|[->|[->|[->|[->|[->|[->|[->| ->]]]]]]]]].
Qed.

(** What the kernel does meanwhile. *)
Definition kernel_moved (s s' : ostate) : Prop := exists k', rescheduled (o_kernel s) k' /\
  s' = OState k' (o_mem s) (o_lists s) (o_attach_hook s) (o_detach_hook s) (o_trytake_hook s) (o_take_hook s) (o_put_hook s) (o_hooked s) (o_freed s).

Lemma kernel_moved_trans s1 s2 s3 : kernel_moved s1 s2 -> kernel_moved s2 s3 -> kernel_moved s1 s3.
Proof. intros (k2 & R2 & ->) (k3 & R3 & ->). exists k3. split; [by eapply rescheduled_trans|done]. Qed.

Lemma moved_ok s s' : registry_ok s -> kernel_moved s s' -> registry_ok s' /\ entries s' = entries s /\ o_mem s' = o_mem s /\ o_lists s' = o_lists s.
Proof.
  intros [H1 H2 H3 H4 H5 H6 H7] (k' & R & ->). split; [|done]. split; try done; simpl; [apply R|by rewrite (rs_irq _ _ R)].
Qed.

Lemma enter_eval s : registry_ok s -> exists s', in_kernel rt_enter_critical s = Some (tt, s') /\ kernel_moved s s'.
Proof. intros H. eexists. split; [done|]. eexists. split; [|done]. by apply rescheduled_lock, H. Qed.

Lemma exit_eval s : registry_ok s -> exists s', in_kernel rt_exit_critical s = Some (tt, s') /\ kernel_moved s s'.
Proof.
  intros H. destruct (rescheduled_exit (o_kernel s)) as (k' & E & R); [apply H|].
  eexists. unfold in_kernel. rewrite E. split; [done|]. by exists k'.
Qed.

Lemma rescheduled_refl k : wf k -> rescheduled k k.
Proof. intros H. split; try done; auto; by left. Qed.

Lemma if_running_eval m s : registry_ok s -> (exists s', in_kernel m s = Some (tt, s') /\ kernel_moved s s') ->
  exists s', if_running m s = Some (tt, s') /\ kernel_moved s s'.
Proof.
  intros H (s' & E & R). unfold if_running, in_kernel at 1, rt_thread_self. munfold. destruct s. simpl. case_bool_decide; simpl.
  - by exists s'.
  - eexists. split; [done|]. eexists. split; [by apply rescheduled_refl, H|done].
Qed.

Lemma assert_absent_eval object l s : object ∉ l -> assert_absent object l s = Some (tt, s).
Proof.
  induction l as [|obj l IH]; [done|]. intros [Hn Hl]%not_elem_of_cons. cbn [assert_absent].
  rewrite bool_decide_true by done. munfold. by apply IH.
Qed.

Lemma find_loop_spec b name text l : bytes_ok b -> str_at b name text ->
  find_loop name l b = find_entry text (entry_at b <$> l).
Proof.
  intros Hb Hs. unfold find_entry. induction l as [|a l IH]; [done|]. cbn [find_loop fmap list_fmap].
  pose proof (rt_strncmp_chars b RT_NAME_MAX a name Hb) as Hc. rewrite (chars_str _ name b text Hs) in Hc.
  destruct (decide (rt_strncmp a name RT_NAME_MAX b = 0)) as [E|E].
  - rewrite filter_cons_True; [done|]. by apply Hc.
  - rewrite filter_cons_False; [by apply IH|]. by rewrite <- Hc.
Qed.

(** ** Writing a header, which does not change the others *)

Lemma entry_at_ext b b' a : (forall x, a <= x < a + sizeof_object -> b' x = b x) -> entry_at b' a = entry_at b a.
Proof.
  intros H. unfold entry_at, object_type. rewrite (H (a + RT_NAME_MAX)) by (unfold RT_NAME_MAX, sizeof_object; lia).
  by rewrite (chars_ext _ a b b') by (intros x Hx; apply H; unfold RT_NAME_MAX, sizeof_object in *; lia).
Qed.

Definition writes_within (a n : Z) (b b' : mem) : Prop := bytes_ok b' /\ forall x, ~ (a <= x < a + n) -> b' x = b x.

Lemma entries_ext s s' i : o_lists s' i = o_lists s i ->
  (forall a, a ∈ o_lists s i -> entry_at (o_mem s') a = entry_at (o_mem s) a) -> entries s' i = entries s i.
Proof. intros El H. unfold entries. rewrite El. apply list_fmap_ext. intros ? a Ha. apply H. by apply list_elem_of_lookup_2 in Ha. Qed.

Lemma within_entry a n b b' x : writes_within a n b b' -> apart a n x sizeof_object -> entry_at b' x = entry_at b x.
Proof. intros [_ W] H. apply entry_at_ext. intros y Hy. apply W. unfold apart in H. lia. Qed.

Lemma str_at_bytes b s : bytes_ok b -> forall a, str_at b a s -> Forall (in_range 8) s.
Proof.
  intros Hb. induction s as [|c s IH]; intros a H; [done|]. destruct H as (_ & E & H). constructor; [rewrite <- E; apply Hb|by eapply IH].
Qed.

Lemma Forall_nth_0 (P : Z -> Prop) i l : P 0 -> Forall P l -> P (nth i l 0).
Proof. intros H0 Hl. revert i. induction Hl; intros [|i]; simpl; auto. Qed.

Lemma strncpy_within b dst src text n : bytes_ok b -> str_at b src text -> 0 <= n -> apart dst n src (Z.of_nat (length text) + 1) ->
  writes_within dst n b (rt_strncpy dst src n b) /\ chars (Z.to_nat n) dst (rt_strncpy dst src n b) = take (Z.to_nat n) text.
Proof.
  intros Hb Hs Hn Ha. assert (forall x, rt_strncpy dst src n b x = if decide (dst <= x < dst + n) then nth (Z.to_nat (x - dst)) text 0 else b x) as E.
  { intros x. rewrite <- (Z2Nat.id n) at 1 by done. rewrite (rt_strncpy_ok _ b text); [by rewrite Z2Nat.id|done|done|]. rewrite Z2Nat.id by done. unfold apart in Ha. lia. }
  split; [split|].
  - intros x. rewrite E. case_decide; [|apply Hb]. apply Forall_nth_0; [done|by eapply str_at_bytes].
  - intros x Hx. by rewrite E, decide_False.
  - apply chars_nth; [by eapply str_at_chars|]. intros i Hi. rewrite E, decide_True by lia. f_equal. lia.
Qed.

Lemma within_trans a n b1 b2 b3 : writes_within a n b1 b2 -> writes_within a n b2 b3 -> writes_within a n b1 b3.
Proof. intros [_ W1] [H3 W2]. split; [done|]. intros x Hx. by rewrite W2, W1. Qed.

Lemma within_grow a n a' n' b b' : writes_within a n b b' -> a' <= a -> a + n <= a' + n' -> writes_within a' n' b b'.
Proof. intros [H W] ? ?. split; [done|]. intros x Hx. apply W. lia. Qed.

Lemma store8_within a v b : bytes_ok b -> writes_within a 1 b (store8 a v b).
Proof. intros Hb. split; [by apply store8_ok|]. intros x Hx. unfold store8. by rewrite decide_False by lia. Qed.

Lemma memset_within a n b : bytes_ok b -> 0 <= n -> writes_within a n b (rt_memset a 0 n b).
Proof. intros Hb Hn. split; [by apply rt_memset_ok|]. intros x Hx. rewrite rt_memset_spec by done. unfold filled. by rewrite decide_False. Qed.

(** A string elsewhere is still there. *)
Lemma within_str a n b b' src text : writes_within a n b b' -> apart a n src (Z.of_nat (length text) + 1) -> str_at b src text -> str_at b' src text.
Proof. intros [_ W] H. apply str_at_frame. intros x Hx. apply W. unfold apart in H. lia. Qed.

Lemma hook_eval h object s : exists l, RT_OBJECT_HOOK_CALL h object s = Some (tt, with_hooked (fun _ => l) s).
Proof. unfold RT_OBJECT_HOOK_CALL. munfold. destruct (h s) as [f|]; [by eexists|]. exists (o_hooked s). by destruct s. Qed.

(** The header that [rt_object_init] and [rt_object_allocate] write. *)
Definition written (object type : Z) (n : Z) (text : list Z) (b b' : mem) : Prop :=
  writes_within object n b b' /\ b' (object_type object) = type /\ chars (Z.to_nat RT_NAME_MAX) object b' = short text.

Lemma init_written object type name text n b : bytes_ok b -> str_at b name text -> in_range 8 type -> sizeof_object <= n ->
  apart object n name (Z.of_nat (length text) + 1) -> forall b0, writes_within object n b0 b ->
  written object type n text b0 (rt_strncpy object name RT_NAME_MAX (store8 (object_type object) type b)).
Proof.
  intros Hb Hs Ht Hn Ha b0 W0. set (b1 := store8 _ _ b). unfold sizeof_object in Hn.
  assert (writes_within object n b b1) as W1.
  { apply (within_grow (object_type object) 1); [by apply store8_within|unfold object_type, RT_NAME_MAX; lia..]. }
  destruct (strncpy_within b1 object name text RT_NAME_MAX) as [W2 E2]; [apply W1|by eapply within_str|done|unfold apart, RT_NAME_MAX in *; lia|].
  split; [|split; [|done]].
  - eapply within_trans; [done|]. eapply within_trans; [done|]. eapply within_grow; [done|lia|unfold RT_NAME_MAX; lia].
  - destruct W2 as [_ W2]. rewrite W2 by (unfold object_type; lia). unfold b1, store8. rewrite decide_True by done. by apply wrap_small.
Qed.

Lemma class_cases type : class_ok type -> in_range 8 type /\ in_range 8 (Z.lor type RT_Object_Class_Static) /\
  Z.land type 127 = type /\ Z.land (Z.lor type RT_Object_Class_Static) 127 = type /\
  Z.land type RT_Object_Class_Static = 0 /\ Z.land (Z.lor type RT_Object_Class_Static) RT_Object_Class_Static <> 0.
Proof.
  intros H. assert (type ∈ seqZ 1 10) as Hi by (apply elem_of_seqZ; unfold class_ok in H; lia).
  repeat (apply elem_of_cons in Hi as [->|Hi]; [by vm_compute|]). by apply elem_of_nil in Hi.
Qed.

Lemma type_byte t : in_range 8 t -> u8 (Z.land t (Z.lnot RT_Object_Class_Static)) = Z.land t 127.
Proof.
  intros H. assert (Forall (fun t => u8 (Z.land t (Z.lnot RT_Object_Class_Static)) = Z.land t 127) (seqZ 0 256)) as F.
  { apply (bool_decide_unpack _). by vm_compute. }
  rewrite Forall_forall in F. apply F, elem_of_seqZ. unfold in_range in H. lia.
Qed.

(** A new object in front of its class. *)
Lemma added_ok s s' object type t n text name len :
  registry_ok s -> class_ok type -> unused_memory s object n name len -> written object t n text (o_mem s) (o_mem s') ->
  Z.land t 127 = type -> o_lists s' = <[class_of type := object :: o_lists s (class_of type)]> (o_lists s) ->
  wf (o_kernel s') -> k_irq_nest (o_kernel s') = 0 ->
  registry_ok s' /\ forall i, entries s' i = add_entry type (Entry object (bool_decide (Z.land t RT_Object_Class_Static <> 0)) (short text)) (entries s) i.
Proof.
  intros H Hc (Hz & Hn & Hna & Hu) (W & Et & En) Ht El Hk Hi. pose proof W as [Wb Wo].
  assert (forall i a, a ∈ o_lists s i -> entry_at (o_mem s') a = entry_at (o_mem s) a) as Hold by (intros i a Ha; eapply within_entry; [done|by eapply Hu]).
  assert (forall i a, a ∈ o_lists s' i <-> i = class_of type /\ a = object \/ a ∈ o_lists s i) as Hin.
  { intros i a. rewrite El. destruct (decide (class_of type = i)) as [<-|Hne]; [rewrite fn_lookup_insert, elem_of_cons; naive_solver|].
    rewrite fn_lookup_insert_ne by done. naive_solver. }
  assert (forall i, object ∉ o_lists s i) as Hnew by (intros i Ha; specialize (Hu _ _ Ha); unfold apart, sizeof_object in *; lia).
  split; [split; try done|].
  - intros i a [[-> ->]|Ha]%Hin; [rewrite Et, Ht; unfold class_of, class_ok in *; lia|]. destruct (ro_types _ H i a Ha) as [? E].
    split; [done|]. rewrite <- E, Wo; [done|]. specialize (Hu _ _ Ha). unfold object_type, apart, sizeof_object, RT_NAME_MAX in *. lia.
  - intros i j a a' [[-> ->]|Ha]%Hin [[-> ->]|Ha']%Hin; [by left| | |by eapply (ro_objects _ H)].
    + right. specialize (Hu _ _ Ha'). unfold apart, sizeof_object in *. lia.
    + right. specialize (Hu _ _ Ha). unfold apart, sizeof_object in *. lia.
  - intros i. rewrite El. destruct (decide (class_of type = i)) as [<-|Hne]; [rewrite fn_lookup_insert; apply NoDup_cons; split; [done|apply H]|].
    rewrite fn_lookup_insert_ne by done. apply H.
  - intros i [[_ E]|Ha]%Hin; [done|by apply (ro_null _ H i)].
  - intros i. unfold add_entry. destruct (decide (class_of type = i)) as [<-|Hne].
    + rewrite fn_lookup_insert. unfold entries at 1. rewrite El, fn_lookup_insert. cbn [fmap list_fmap]. f_equal.
      * unfold entry_at. by rewrite Et, En.
      * apply list_fmap_ext. intros ? a Ha%list_elem_of_lookup_2. by eapply Hold.
    + rewrite fn_lookup_insert_ne by done. apply entries_ext; [by rewrite El, fn_lookup_insert_ne|intros a; apply Hold].
Qed.

Lemma filter_entries object b l : filter (fun e => e_object e <> object) (entry_at b <$> l) = entry_at b <$> lremove object l.
Proof.
  unfold lremove. induction l as [|a l IH]; [done|]. cbn [fmap list_fmap]. destruct (decide (a = object)) as [->|Hn].
  - rewrite !filter_cons_False; [done|by intros ?..].
  - rewrite !filter_cons_True by done. cbn [fmap list_fmap]. by rewrite <- IH.
Qed.

(** An object that is taken out. *)
Lemma dropped_ok s s' object : registry_ok s -> registered s object -> o_mem s' = store8 (object_type object) 0 (o_mem s) ->
  o_lists s' = (fun i => lremove object (o_lists s i)) -> o_kernel s' = o_kernel s ->
  registry_ok s' /\ forall i, entries s' i = drop_entry object (entries s) i.
Proof.
  intros H [j Hj] Em El Ek.
  assert (forall i a, a ∈ o_lists s i -> a <> object -> o_mem s' (object_type a) = o_mem s (object_type a) /\ entry_at (o_mem s') a = entry_at (o_mem s) a) as Hold.
  { intros i a Ha Hn. assert (apart a sizeof_object object sizeof_object) as Hap by (destruct (ro_objects _ H i j a object Ha Hj); done).
    rewrite Em. unfold apart, sizeof_object in Hap. split; [|apply entry_at_ext; intros x Hx]; unfold store8; rewrite decide_False; try done;
      unfold object_type, RT_NAME_MAX, sizeof_object in *; lia. }
  split; [split; rewrite ?Ek, ?El; try apply H|].
  - rewrite Em. by apply store8_ok, H.
  - intros i a [Hn Ha]%elem_of_lremove. rewrite (proj1 (Hold i a Ha Hn)). by apply (ro_types _ H).
  - intros i i' a a' [_ Ha]%elem_of_lremove [_ Ha']%elem_of_lremove. by eapply (ro_objects _ H).
  - intros i. apply NoDup_lremove, H.
  - intros i [_ Ha]%elem_of_lremove. by apply (ro_null _ H i).
  - intros i. unfold drop_entry, entries. rewrite El, filter_entries.
    apply list_fmap_ext. intros ? a Ha%list_elem_of_lookup_2. apply elem_of_lremove in Ha as [Hn Ha]. by eapply Hold.
Qed.

(** ** The operations *)

(** How an operation ends: the registry is what the abstract one says. *)
Definition ends (m : OM (option Z)) (s : ostate) (spec : option Z * registry) : Prop :=
  exists s', m s = Some (fst spec, s') /\ registry_ok s' /\ (forall i, entries s' i = snd spec i) /\ rescheduled (o_kernel s) (o_kernel s').

Lemma unmoved_memory s s' a n name len : o_lists s' = o_lists s -> unused_memory s a n name len -> unused_memory s' a n name len.
Proof. intros E. unfold unused_memory. by rewrite E. Qed.

Lemma rt_object_init_ok object type name text s : registry_ok s -> obj_pre (OInit object type name) text s ->
  ends (obj_exec (OInit object type name)) s (obj_spec (OInit object type name) text (entries s)).
Proof.
  intros H (Hc & Hs & Hu). destruct (class_cases type Hc) as (T1 & T2 & _ & T4 & _ & T6).
  destruct (enter_eval s H) as (s1 & E1 & M1). destruct (moved_ok s s1 H M1) as (H1 & _ & Em1 & El1).
  destruct (exit_eval s1 H1) as (s2 & E2 & M2). destruct (moved_ok s1 s2 H1 M2) as (H2 & _ & Em2 & El2).
  assert (kernel_moved s s2) as M by (by eapply kernel_moved_trans). destruct M as (k2 & R & ->).
  unfold ends, obj_exec, rt_object_init, write_mem, link_object. rewrite (get_information_ok type Hc). munfold. cbv beta iota. rewrite E1, El1.
  rewrite assert_absent_eval by (intros Ha; destruct Hu as (_ & _ & _ & Hu); specialize (Hu _ _ Ha); unfold apart, sizeof_object in *; lia).
  rewrite E2. set (s3 := with_mem _ (with_mem _ _)). destruct (hook_eval o_attach_hook object s3) as (l & ->).
  eexists. split; [done|]. cbn [fst snd obj_spec]. rewrite <- (bool_decide_true _ T6).
  apply and_assoc. split; [|done].
  eapply added_ok; [done|done|done| |exact T4|done|apply R|simpl; rewrite (rs_irq _ _ R); apply H].
  simpl. apply (init_written object _ name); try done; [apply H|apply Hu|]. split; [apply H|done].
Qed.

Lemma rt_object_allocate_ok new size type name text s : registry_ok s -> obj_pre (OAllocate new size type name) text s ->
  ends (obj_exec (OAllocate new size type name)) s (obj_spec (OAllocate new size type name) text (entries s)).
Proof.
  intros H (Hc & Hs & Hu). destruct (class_cases type Hc) as (T1 & T2 & T3 & _ & T5 & _).
  unfold ends, obj_exec, rt_object_allocate, write_mem, link_object, in_kernel, RT_DEBUG_NOT_IN_INTERRUPT, rt_interrupt_get_nest.
  munfold. rewrite (get_information_ok type Hc), (ro_irq _ H). simpl. destruct new as [object|].
  - specialize (Hu object eq_refl). set (s1 := OState _ _ _ _ _ _ _ _ _ _). assert (s1 = s) as -> by (by destruct s).
    set (s3 := with_mem _ (with_mem _ (with_mem _ (with_mem _ s)))). destruct (hook_eval o_attach_hook object s3) as (l & ->).
    eexists. split; [done|]. cbn [fst snd obj_spec].
    assert (bool_decide (Z.land type RT_Object_Class_Static <> 0) = false) as <- by (apply bool_decide_false; by intros ?).
    apply and_assoc. split; [|by apply rescheduled_refl, H]. destruct Hu as (Hz & Hn & Ha & Hu).
    eapply (added_ok s _ object type type (size (class_of type))); [done|done|done| |done|done|apply H|apply H]. unfold s3. simpl.
    set (b1 := rt_memset _ _ _ _). assert (writes_within object (size (class_of type)) (o_mem s) b1) as W1.
    { apply memset_within; [apply H|]. unfold sizeof_object in Hn. lia. }
    assert (bytes_ok (store8 (object_type object) type b1)) as Hb2 by (by apply store8_ok, W1).
    set (b2 := store8 (object_flag object) 0 _).
    assert (writes_within object (size (class_of type)) (o_mem s) b2) as W2.
    { eapply within_trans; [done|]. unfold sizeof_object in Hn. eapply within_trans.
      - apply (within_grow (object_type object) 1); [by apply store8_within, W1|unfold object_type, RT_NAME_MAX; lia..].
      - apply (within_grow (object_flag object) 1); [by apply store8_within|unfold object_flag, RT_NAME_MAX; lia..]. }
    destruct (strncpy_within b2 object name text RT_NAME_MAX) as [W3 E3]; [apply W2|by eapply within_str|done|unfold apart, RT_NAME_MAX, sizeof_object in *; lia|].
    split; [|split; [|done]].
    + eapply within_trans; [done|]. unfold sizeof_object in Hn. eapply within_grow; [done|lia|unfold RT_NAME_MAX; lia].
    + destruct W3 as [_ W3]. rewrite W3 by (unfold object_type; lia). unfold b2, store8. unfold object_flag, object_type.
      rewrite decide_False, decide_True by lia. by apply wrap_small.
  - eexists. split; [done|]. destruct s. split; [done|]. split; [done|]. apply rescheduled_refl, H.
Qed.

Lemma object_not_null s a : registry_ok s -> registered s a -> a <> 0.
Proof. intros H [i Hi] ->. by apply (ro_null _ H i). Qed.

Lemma rt_object_detach_ok object text s : registry_ok s -> obj_pre (ODetach object) text s ->
  ends (obj_exec (ODetach object)) s (obj_spec (ODetach object) text (entries s)).
Proof.
  intros H Hr. unfold ends, obj_exec, rt_object_detach, write_mem, unlink_object. munfold. rewrite bool_decide_true by (by eapply object_not_null).
  simpl. destruct (hook_eval o_detach_hook object s) as (l & ->). eexists. split; [done|]. apply and_assoc.
  split; [by apply dropped_ok|by apply rescheduled_refl, H].
Qed.

Lemma rt_object_delete_ok object text s : registry_ok s -> obj_pre (ODelete object) text s ->
  ends (obj_exec (ODelete object)) s (obj_spec (ODelete object) text (entries s)).
Proof.
  intros H [Hr Ht]. unfold ends, obj_exec, rt_object_delete, write_mem, read_mem, unlink_object. munfold. rewrite bool_decide_true by (by eapply object_not_null).
  simpl. rewrite bool_decide_true by done. simpl. destruct (hook_eval o_detach_hook object s) as (l & ->). eexists. split; [done|]. apply and_assoc.
  split; [by apply dropped_ok|by apply rescheduled_refl, H].
Qed.

Lemma find_object_of_ok type name text s : registry_ok s -> class_ok type -> str_at (o_mem s) name text ->
  ends (find_object_of type name) s (find_entry text (entries s (class_of type)), entries s).
Proof.
  intros H Hc Hs. destruct (if_running_eval rt_enter_critical s H (enter_eval s H)) as (s1 & E1 & M1).
  destruct (moved_ok s s1 H M1) as (H1 & En1 & Em1 & El1).
  destruct (if_running_eval rt_exit_critical s1 H1 (exit_eval s1 H1)) as (s2 & E2 & M2).
  destruct (moved_ok s1 s2 H1 M2) as (H2 & En2 & _ & _).
  unfold ends, find_object_of. rewrite (get_information_ok type Hc). munfold. cbv beta iota. rewrite E1, E2. exists s2.
  rewrite Em1, El1, (find_loop_spec _ name text) by (done || apply H). split; [done|]. split; [done|].
  split; [intros i; simpl; by rewrite En2, En1|]. destruct (kernel_moved_trans _ _ _ M1 M2) as (k2 & R & ->). done.
Qed.

Lemma rt_object_find_ok name type text s : registry_ok s -> obj_pre (OFind name type) text s ->
  ends (obj_exec (OFind name type)) s (obj_spec (OFind name type) text (entries s)).
Proof.
  intros H (Hc & Hn & Hs). destruct (enter_eval s H) as (s1 & E1 & M1). destruct (moved_ok s s1 H M1) as (H1 & En1 & Em1 & El1).
  destruct (exit_eval s1 H1) as (s2 & E2 & M2). destruct (moved_ok s1 s2 H1 M2) as (H2 & En2 & _ & _).
  unfold ends, obj_exec, rt_object_find. rewrite decide_False by (unfold class_ok, RT_Object_Class_Unknown in *; lia).
  assert (in_kernel RT_DEBUG_NOT_IN_INTERRUPT s = Some (tt, s)) as E0.
  { unfold in_kernel, RT_DEBUG_NOT_IN_INTERRUPT, rt_interrupt_get_nest. munfold. rewrite (ro_irq _ H). by destruct s. }
  rewrite (get_information_ok type Hc). munfold. cbv beta iota. rewrite E0, E1, E2. exists s2.
  rewrite Em1, El1, (find_loop_spec _ name text) by (done || apply H). split; [done|]. split; [done|].
  split; [intros i; simpl; by rewrite En2, En1|]. destruct (kernel_moved_trans _ _ _ M1 M2) as (k2 & R & ->). done.
Qed.

Lemma get_type_ok s i a : registry_ok s -> a ∈ o_lists s i -> rt_object_get_type a s = Some (Z.of_nat i + 1, s).
Proof.
  intros H Ha. unfold rt_object_get_type, read_mem. munfold. rewrite bool_decide_true by (by eapply object_not_null; [|exists i]).
  simpl. rewrite type_byte by apply H. by rewrite (proj2 (ro_types _ H i a Ha)).
Qed.

Lemma is_systemobject_ok s i a : registry_ok s -> a ∈ o_lists s i ->
  rt_object_is_systemobject a s = Some (e_static (entry_at (o_mem s) a), s).
Proof.
  intros H Ha. unfold rt_object_is_systemobject, read_mem. munfold. by rewrite bool_decide_true by (by eapply object_not_null; [|exists i]).
Qed.

(** C29: The object system is a registry of names: from any state that satisfies
    its invariant, an object that is initialised or allocated becomes the newest
    of its class, with the first ten characters of its name; one that is
    detached or deleted is gone; and finding answers the newest object of the
    class whose name agrees in the first ten characters, or NULL. No assertion
    fails, the objects of other classes and the headers of the others stay as
    they are, and the type and the static flag of each registered object are
    what its header says. *)
Theorem registry_refines op text s : registry_ok s -> obj_pre op text s ->
  ends (obj_exec op) s (obj_spec op text (entries s)) /\
  forall i a, a ∈ o_lists s i -> rt_object_get_type a s = Some (Z.of_nat i + 1, s) /\
    rt_object_is_systemobject a s = Some (e_static (entry_at (o_mem s) a), s).
Proof.
  intros H Hp. split; [|intros i a Ha; split; [by apply get_type_ok|by eapply is_systemobject_ok]].
  destruct op; [by apply rt_object_init_ok|by apply rt_object_allocate_ok|by apply rt_object_detach_ok|by apply rt_object_delete_ok|by apply rt_object_find_ok|].
  by apply find_object_of_ok.
Qed.

(** An object is found by its name as soon as it is registered, also by a name
    that only agrees in the first ten characters. *)
Lemma find_added type e r text : e_name e = short text -> find_entry text (add_entry type e r (class_of type)) = Some (e_object e).
Proof. intros E. unfold find_entry, add_entry. rewrite fn_lookup_insert. by rewrite filter_cons_True. Qed.

Lemma find_other type e r text type' : class_of type' <> class_of type \/ e_name e <> short text ->
  find_entry text (add_entry type e r (class_of type')) = find_entry text (r (class_of type')).
Proof.
  intros H. unfold find_entry, add_entry. destruct (decide (class_of type = class_of type')) as [E|E].
  - rewrite E, fn_lookup_insert. rewrite filter_cons_False; [done|]. intros ?. destruct H; congruence.
  - by rewrite fn_lookup_insert_ne.
Qed.

(** ** A concrete registry *)

Definition demo_objects : ostate := OState demo mem_demo (fun _ => []) None None None None None [] [].

Lemma demo_objects_ok : registry_ok demo_objects.
Proof.
  split.
  - apply demo_wf.
  - done.
  - apply mem_demo_ok.
  - by intros i a ?%elem_of_nil.
  - by intros i j a a' ?%elem_of_nil.
  - intros i. apply (NoDup_nil_2 (A:=Z)).
  - by intros i ?%elem_of_nil.
Qed.

(** A semaphore with the name that is at address 16, "aab". *)
Lemma registry_refines_witness : exists s', obj_exec (OInit 100 RT_Object_Class_Semaphore 16) demo_objects = Some (None, s') /\
  entries s' 1%nat = [Entry 100 true [97; 97; 98]].
Proof.
  destruct (registry_refines (OInit 100 RT_Object_Class_Semaphore 16) [97; 97; 98] demo_objects demo_objects_ok) as [(s' & E & _ & Es & _) _].
  - split; [done|]. split; [done|]. split; [done|]. split; [done|]. split; [by right|]. by intros i a ?%elem_of_nil.
  - exists s'. split; [done|]. apply (Es 1%nat).
Defined.

(** ** What goes wrong *)

(** A name of ten characters or more is cut: two objects have the same name when
    the first ten characters agree. *)
Definition two_names : mem := fun x => if decide (200 <= x < 211) then 97 else if decide (300 <= x < 310) then 97 else if decide (x = 310) then 98 else 0.
Example long_names_collide :
  fst <$> (rt_object_init 100 RT_Object_Class_Device 200;; rt_object_find 300 RT_Object_Class_Device)
    (OState demo two_names (fun _ => []) None None None None None [] []) = Some (Some 100).
Proof. by vm_compute. Qed.

(** The types 0, 11 and 12 have no entry in the container: asking for an object
    of such a type fails an assertion, with the scheduler locked. *)
Example find_of_no_class : forall type, type = 0 \/ type = 11 \/ type = 12 -> rt_object_find 16 type demo_objects = None.
Proof. by intros type [->|[->| ->]]; vm_compute. Qed.
