(* ===== verification/Device.v ===== *)
(** * Device: the device framework

    device.c, and the console of kservice.c on it.  The header of a device, with
    its name, is in [Names]; the rest of [struct rt_device] is a [device] at the
    same address.  The functions of the drivers are the fields of [device_ops]:
    each is a function on [D], which is all that drivers read and write (hardware,
    their own data, the buffers of the callers), but not the structures of the
    framework, of which the drivers of the repository write one: [open] sets
    [dev->open_flag] (bsp-ls1x/drv_uart.c, drv_can.c, drv_fb.c, drv_nand.c).  Each call of a driver is recorded in [ds_calls].  What
    [rt_kprintf] reports of a failed initialisation is left out. *)

From S2P Require Import Kernel Sched Object Timer Thread Ipc Demo Mempool Bytes KString Names.

Definition RT_DEVICE_FLAG_STANDALONE : Z := 8.
Definition RT_DEVICE_FLAG_ACTIVATED : Z := 16.
Definition RT_DEVICE_FLAG_STREAM : Z := 64.
Definition RT_DEVICE_OFLAG_CLOSE : Z := 0.
Definition RT_DEVICE_OFLAG_RDWR : Z := 3.
Definition RT_DEVICE_OFLAG_OPEN : Z := 8.
Definition RT_DEVICE_OFLAG_MASK : Z := 0xf0f.
(** On the 32-bit target. *)
Definition sizeof_device : Z := 68.

(** What a driver has been called for, and its answer. *)
Inductive dcall :=
  | CInit (result : Z)
  | COpen (oflag result : Z)
  | CClose (result : Z)
  | CRead (pos buffer size result : Z)
  | CWrite (pos buffer size result : Z)
  | CControl (cmd arg result : Z)
  | CConsole (str : Z).

Section device.
Context {D : Type}.

(** [None] is a null pointer.  [device_open] is given the [open_flag] of the
    device, and gives it back behind its answer. *)
Record device_ops := DeviceOps {
  device_init : option (D -> Z * D);
  device_open : option (Z -> Z -> D -> Z * Z * D);
  device_close : option (D -> Z * D);
  device_read : option (Z -> Z -> Z -> D -> Z * D);
  device_write : option (Z -> Z -> Z -> D -> Z * D);
  device_control : option (Z -> Z -> D -> Z * D)
}.

Record device := Device {
  dv_type : Z;
  dv_flag : Z;
  dv_open_flag : Z;
  dv_ref_count : Z;
  dv_rx_indicate : option Z;
  dv_tx_complete : option Z;
  dv_ops : device_ops
}.

Record dstate := DState {
  ds_obj : ostate;
  ds_dev : gmap Z device;
  ds_drv : D;
  ds_calls : list (Z * dcall);
  ds_console : option Z
}.
Abbreviation DM := (M dstate).

Definition in_objects {A} (m : OM A) : DM A := fun s =>
  match m (ds_obj s) with
  | Some (a, o) => Some (a, DState o (ds_dev s) (ds_drv s) (ds_calls s) (ds_console s))
  | None => None
  end.
Definition with_dev (f : gmap Z device -> gmap Z device) (s : dstate) : dstate :=
  DState (ds_obj s) (f (ds_dev s)) (ds_drv s) (ds_calls s) (ds_console s).
Definition with_console (c : option Z) (s : dstate) : dstate :=
  DState (ds_obj s) (ds_dev s) (ds_drv s) (ds_calls s) c.
Definition get_device (dev : Z) : DM device := deref (fun s => ds_dev s !! dev).
Definition put_device (dev : Z) (d : device) : DM unit := modify (with_dev (insert dev d)).
Definition set_device (dev : Z) (f : device -> device) : DM unit := d ← get_device dev; put_device dev (f d).
Definition call_driver (dev : Z) (c : Z -> dcall) (f : D -> Z * D) : DM Z := fun s =>
  let '(result, drv) := f (ds_drv s) in
  Some (result, DState (ds_obj s) (ds_dev s) drv (ds_calls s ++ [(dev, c result)]) (ds_console s)).

Definition set_flag (f : Z -> Z) (d : device) : device :=
  Device (dv_type d) (f (dv_flag d)) (dv_open_flag d) (dv_ref_count d) (dv_rx_indicate d) (dv_tx_complete d) (dv_ops d).
Definition set_open_flag (f : Z -> Z) (d : device) : device :=
  Device (dv_type d) (dv_flag d) (f (dv_open_flag d)) (dv_ref_count d) (dv_rx_indicate d) (dv_tx_complete d) (dv_ops d).
Definition set_ref_count (f : Z -> Z) (d : device) : device :=
  Device (dv_type d) (dv_flag d) (dv_open_flag d) (f (dv_ref_count d)) (dv_rx_indicate d) (dv_tx_complete d) (dv_ops d).
Definition set_callbacks (rx tx : option Z -> option Z) (d : device) : device :=
  Device (dv_type d) (dv_flag d) (dv_open_flag d) (dv_ref_count d) (rx (dv_rx_indicate d)) (tx (dv_tx_complete d)) (dv_ops d).

(** [device_open(dev, oflag)] *)
Definition call_open (dev oflag : Z) (f : Z -> Z -> D -> Z * Z * D) : DM Z :=
  d ← get_device dev;
  drv ← gets ds_drv;
  let '(result, flag, drv) := f oflag (dv_open_flag d) drv in
  result ← call_driver dev (COpen oflag) (fun _ => (result, drv));
  set_device dev (set_open_flag (fun _ => flag));;
  mret result.

(** The assertions in front of most operations. *)
Definition check_device (dev : Z) : DM unit :=
  rt_assert (bool_decide (dev <> 0));;
  type ← in_objects (rt_object_get_type dev);
  rt_assert (bool_decide (type = RT_Object_Class_Device)).

(** ** Registration *)

Definition rt_device_find (name : Z) : DM (option Z) := in_objects (find_object_of RT_Object_Class_Device name).

Definition rt_device_register (dev name flags : Z) : DM Z :=
  if decide (dev = 0) then mret (- RT_ERROR)
  else
    other ← rt_device_find name;
    match other with
    | Some _ => mret (- RT_ERROR)
    | None =>
      in_objects (rt_object_init dev RT_Object_Class_Device name);;
      set_device dev (set_flag (fun _ => flags));;
      set_device dev (set_ref_count (fun _ => 0));;
      set_device dev (set_open_flag (fun _ => 0));;
      mret RT_EOK
    end.

Definition rt_device_unregister (dev : Z) : DM Z :=
  check_device dev;;
  system ← in_objects (rt_object_is_systemobject dev);
  rt_assert system;;
  in_objects (rt_object_detach dev);;
  mret RT_EOK.

Definition rt_device_init_all : DM Z := mret RT_EOK.

(** [malloc] is what the heap answers to a request. *)
Definition rt_device_create (malloc : Z -> option Z) (type attach_size : Z) : DM (option Z) :=
  match malloc (u32 (RT_ALIGN sizeof_device RT_ALIGN_SIZE + RT_ALIGN attach_size RT_ALIGN_SIZE)) with
  | None => mret None
  | Some device =>
    in_objects (write_mem (rt_memset device 0 sizeof_device));;
    put_device device (Device type 0 0 0 None None (DeviceOps None None None None None None));;
    mret (Some device)
  end.

Definition rt_device_destroy (dev : Z) : DM unit :=
  check_device dev;;
  system ← in_objects (rt_object_is_systemobject dev);
  rt_assert (negb system);;
  in_objects (rt_object_detach dev);;
  in_objects (modify (with_freed (cons dev))).

(** ** Use *)

Definition rt_device_init (dev : Z) : DM Z :=
  rt_assert (bool_decide (dev <> 0));;
  d ← get_device dev;
  match device_init (dv_ops d) with
  | None => mret RT_EOK
  | Some f =>
    if decide (Z.land (dv_flag d) RT_DEVICE_FLAG_ACTIVATED = 0) then
      result ← call_driver dev CInit f;
      when (bool_decide (result = RT_EOK)) (set_device dev (set_flag (fun flag => Z.lor flag RT_DEVICE_FLAG_ACTIVATED)));;
      mret result
    else mret RT_EOK
  end.

(** "if device is not initialized, initialize it" *)
Definition activate_device (dev : Z) : DM Z :=
  d ← get_device dev;
  if decide (Z.land (dv_flag d) RT_DEVICE_FLAG_ACTIVATED = 0) then
    result ← match device_init (dv_ops d) with
             | Some f => call_driver dev CInit f
             | None => mret RT_EOK
             end;
    when (bool_decide (result = RT_EOK)) (set_device dev (set_flag (fun flag => Z.lor flag RT_DEVICE_FLAG_ACTIVATED)));;
    mret result
  else mret RT_EOK.

(** "call device_open interface", "set open flag" *)
Definition open_active_device (dev oflag : Z) : DM Z :=
  d ← get_device dev;
  result ← match device_open (dv_ops d) with
           | Some f => call_open dev oflag f
           | None => set_device dev (set_open_flag (fun _ => Z.land oflag RT_DEVICE_OFLAG_MASK));; mret RT_EOK
           end;
  if decide (result = RT_EOK \/ result = - RT_ENOSYS) then
    set_device dev (set_open_flag (fun flag => Z.lor flag RT_DEVICE_OFLAG_OPEN));;
    set_device dev (set_ref_count (fun n => u8 (n + 1)));;
    d ← get_device dev;
    rt_assert (bool_decide (dv_ref_count d <> 0));;
    mret result
  else mret result.

Definition rt_device_open (dev oflag : Z) : DM Z :=
  check_device dev;;
  result ← activate_device dev;
  if decide (result <> RT_EOK) then mret result
  else
    d ← get_device dev;
    if decide (Z.land (dv_flag d) RT_DEVICE_FLAG_STANDALONE <> 0 /\ Z.land (dv_open_flag d) RT_DEVICE_OFLAG_OPEN <> 0) then
      mret (- RT_EBUSY)
    else open_active_device dev oflag.

Definition rt_device_close (dev : Z) : DM Z :=
  check_device dev;;
  d ← get_device dev;
  if decide (dv_ref_count d = 0) then mret (- RT_ERROR)
  else
    set_device dev (set_ref_count (fun n => u8 (n - 1)));;
    d ← get_device dev;
    if decide (dv_ref_count d <> 0) then mret RT_EOK
    else
      result ← match device_close (dv_ops d) with
               | Some f => call_driver dev CClose f
               | None => mret RT_EOK
               end;
      when (bool_decide (result = RT_EOK \/ result = - RT_ENOSYS)) (set_device dev (set_open_flag (fun _ => RT_DEVICE_OFLAG_CLOSE)));;
      mret result.

Definition rt_device_read (dev pos buffer size : Z) : DM Z :=
  check_device dev;;
  d ← get_device dev;
  if decide (dv_ref_count d = 0) then in_objects (in_kernel (rt_set_errno (- RT_ERROR)));; mret 0
  else
    match device_read (dv_ops d) with
    | Some f => call_driver dev (CRead pos buffer size) (f pos buffer size)
    | None => in_objects (in_kernel (rt_set_errno (- RT_ENOSYS)));; mret 0
    end.

Definition rt_device_write (dev pos buffer size : Z) : DM Z :=
  check_device dev;;
  d ← get_device dev;
  if decide (dv_ref_count d = 0) then in_objects (in_kernel (rt_set_errno (- RT_ERROR)));; mret 0
  else
    match device_write (dv_ops d) with
    | Some f => call_driver dev (CWrite pos buffer size) (f pos buffer size)
    | None => in_objects (in_kernel (rt_set_errno (- RT_ENOSYS)));; mret 0
    end.

Definition rt_device_control (dev cmd arg : Z) : DM Z :=
  check_device dev;;
  d ← get_device dev;
  match device_control (dv_ops d) with
  | Some f => call_driver dev (CControl cmd arg) (f cmd arg)
  | None => mret (- RT_ENOSYS)
  end.

Definition rt_device_set_rx_indicate (dev : Z) (rx_ind : option Z) : DM Z :=
  check_device dev;;
  set_device dev (set_callbacks (fun _ => rx_ind) id);;
  mret RT_EOK.

Definition rt_device_set_tx_complete (dev : Z) (tx_done : option Z) : DM Z :=
  check_device dev;;
  set_device dev (set_callbacks id (fun _ => tx_done));;
  mret RT_EOK.

(** ** The console *)

Definition rt_console_get_device : DM (option Z) := gets ds_console.

Definition rt_console_set_device (name : Z) : DM (option Z) :=
  old_device ← gets ds_console;
  new_device ← rt_device_find name;
  match new_device with
  | Some dev =>
    match old_device with
    | Some old => _ ← rt_device_close old; mret tt
    | None => mret tt
    end;;
    _ ← rt_device_open dev (Z.lor RT_DEVICE_OFLAG_RDWR RT_DEVICE_FLAG_STREAM);
    modify (with_console (Some dev))
  | None => mret tt
  end;;
  mret old_device.

Definition rt_kputs (fuel : nat) (str : Z) : DM unit :=
  if decide (str = 0) then mret tt
  else
    console ← gets ds_console;
    match console with
    | None => fun s => Some (tt, DState (ds_obj s) (ds_dev s) (ds_drv s) (ds_calls s ++ [(0, CConsole str)]) (ds_console s))
    | Some dev =>
      d ← get_device dev;
      set_device dev (set_open_flag (fun flag => Z.lor flag RT_DEVICE_FLAG_STREAM));;
      length ← deref (fun s => rt_strlen fuel str (o_mem (ds_obj s)));
      _ ← rt_device_write dev 0 str length;
      set_device dev (set_open_flag (fun _ => dv_open_flag d))
    end.

(** ** The users of devices, and what their drivers see *)

Inductive dev_op :=
  | DInit (dev : Z)
  | DOpen (dev oflag : Z)
  | DClose (dev : Z)
  | DRead (dev pos buffer size : Z)
  | DWrite (dev pos buffer size : Z)
  | DControl (dev cmd arg : Z)
  | DRxIndicate (dev : Z) (rx : option Z)
  | DTxComplete (dev : Z) (tx : option Z).

Definition op_dev (op : dev_op) : Z :=
  match op with
  | DInit dev | DOpen dev _ | DClose dev | DRead dev _ _ _ | DWrite dev _ _ _ | DControl dev _ _ | DRxIndicate dev _ | DTxComplete dev _ => dev
  end.
Definition dev_exec (op : dev_op) : DM Z :=
  match op with
  | DInit dev => rt_device_init dev
  | DOpen dev oflag => rt_device_open dev oflag
  | DClose dev => rt_device_close dev
  | DRead dev pos buffer size => rt_device_read dev pos buffer size
  | DWrite dev pos buffer size => rt_device_write dev pos buffer size
  | DControl dev cmd arg => rt_device_control dev cmd arg
  | DRxIndicate dev rx => rt_device_set_rx_indicate dev rx
  | DTxComplete dev tx => rt_device_set_tx_complete dev tx
  end.

(** An operation with its answer and the calls of the driver that it made. *)
Record event := Event { ev_op : dev_op; ev_result : Z; ev_calls : list dcall }.
Definition dev_event (op : dev_op) : DM event := fun s =>
  match dev_exec op s with
  | Some (r, s') => Some (Event op r (snd <$> drop (length (ds_calls s)) (ds_calls s')), s')
  | None => None
  end.
Fixpoint dev_run (ops : list dev_op) : DM (list event) :=
  match ops with
  | [] => mret []
  | op :: ops => e ← dev_event op; es ← dev_run ops; mret (e :: es)
  end.

(** Whether the driver has initialised the device, and how many use it. *)
Record usage := Usage { us_inited : bool; us_users : Z }.
Definition inited (d : device) : bool :=
  bool_decide (is_Some (device_init (dv_ops d))) && bool_decide (Z.land (dv_flag d) RT_DEVICE_FLAG_ACTIVATED <> 0).
Definition standalone (d : device) : bool := bool_decide (Z.land (dv_flag d) RT_DEVICE_FLAG_STANDALONE <> 0).
Definition usage_of (d : device) : usage := Usage (inited d) (dv_ref_count d).

Definition accepted (r : Z) : Prop := r = RT_EOK \/ r = - RT_ENOSYS.
Definition init_failed (c : dcall) : bool := match c with CInit r => bool_decide (r <> RT_EOK) | _ => false end.
Definition init_done (c : dcall) : bool := match c with CInit r => bool_decide (r = RT_EOK) | _ => false end.

(** How an operation changes the usage of its device. *)
Definition next (e : event) (u : usage) : usage :=
  Usage (us_inited u || existsb init_done (ev_calls e))
    (match ev_op e with
     | DOpen _ _ => if decide (accepted (ev_result e)) then if existsb init_failed (ev_calls e) then us_users u else us_users u + 1 else us_users u
     | DClose _ => if decide (us_users u = 0) then 0 else us_users u - 1
     | _ => us_users u
     end).

(** A driver is initialised only as long as that has not succeeded, opened only
    when it is initialised, by one user at a time if it stands alone; it is closed
    when the last user leaves, and read and written only when it has users. *)
Definition call_ok (o : device_ops) (alone : bool) (u : usage) (op : dev_op) (r : Z) (before : list dcall) (c : dcall) : Prop :=
  match c with
  | CInit _ => us_inited u = false /\ before = []
  | COpen oflag r' => op = DOpen (op_dev op) oflag /\ r = r' /\ (is_Some (device_init o) -> us_inited u = true \/ before = [CInit RT_EOK]) /\
      (alone = true -> us_users u = 0)
  | CClose r' => op = DClose (op_dev op) /\ r = r' /\ us_users u = 1
  | CRead pos buffer size r' => op = DRead (op_dev op) pos buffer size /\ r = r' /\ us_users u <> 0
  | CWrite pos buffer size r' => op = DWrite (op_dev op) pos buffer size /\ r = r' /\ us_users u <> 0
  | CControl cmd arg r' => op = DControl (op_dev op) cmd arg /\ r = r'
  | CConsole _ => False
  end.

(** The calls that must be made. *)
Definition must_call (o : device_ops) (u : usage) (e : event) : Prop :=
  match ev_op e with
  | DOpen _ oflag =>
    (is_Some (device_init o) -> us_inited u = false -> exists r, head (ev_calls e) = Some (CInit r)) /\
    (is_Some (device_open o) -> us_users (next e u) <> us_users u -> last (ev_calls e) = Some (COpen oflag (ev_result e)))
  | DClose _ => is_Some (device_close o) -> us_users u = 1 -> ev_calls e = [CClose (ev_result e)]
  | DRead _ pos buffer size => is_Some (device_read o) -> us_users u <> 0 -> ev_calls e = [CRead pos buffer size (ev_result e)]
  | DWrite _ pos buffer size => is_Some (device_write o) -> us_users u <> 0 -> ev_calls e = [CWrite pos buffer size (ev_result e)]
  | DControl _ cmd arg => is_Some (device_control o) -> ev_calls e = [CControl cmd arg (ev_result e)]
  | DInit _ => is_Some (device_init o) -> us_inited u = false -> ev_calls e = [CInit (ev_result e)]
  | _ => True
  end.

Definition event_ok (o : device_ops) (alone : bool) (u : usage) (e : event) : Prop :=
  (forall before c after, ev_calls e = before ++ c :: after -> call_ok o alone u (ev_op e) (ev_result e) before c) /\ must_call o u e.

Fixpoint events_ok (cfg : Z -> device_ops * bool) (us : Z -> usage) (es : list event) : Prop :=
  match es with
  | [] => True
  | e :: es => let dev := op_dev (ev_op e) in
    event_ok (fst (cfg dev)) (snd (cfg dev)) (us dev) e /\ events_ok cfg (<[dev := next e (us dev)]> us) es
  end.
Definition users_after (us : Z -> usage) (es : list event) : Z -> usage :=
  fold_left (fun us e => <[op_dev (ev_op e) := next e (us (op_dev (ev_op e)))]> us) es us.

(** ** The invariant *)

Record device_ok (d : device) : Prop := DeviceOk {
  do_count : in_range 8 (dv_ref_count d);
  do_open : standalone d = true -> dv_ref_count d <> 0 -> Z.land (dv_open_flag d) RT_DEVICE_OFLAG_OPEN <> 0
}.

Definition is_device (s : dstate) (dev : Z) : Prop := dev ∈ o_lists (ds_obj s) (class_of RT_Object_Class_Device).
Definition devices_ok (s : dstate) : Prop :=
  registry_ok (ds_obj s) /\ forall dev, is_device s dev -> exists d, ds_dev s !! dev = Some d /\ device_ok d.

Definition usages (s : dstate) (dev : Z) : usage := from_option usage_of (Usage false 0) (ds_dev s !! dev).
Definition config (s : dstate) (dev : Z) : device_ops * bool :=
  from_option (fun d => (dv_ops d, standalone d)) (DeviceOps None None None None None None, false) (ds_dev s !! dev).

(** From [s] only the device [dev] has changed, to [d], and its driver has been
    called. *)
Record touched (s s' : dstate) (dev : Z) (d : device) (calls : list dcall) : Prop := Touched {
  tc_registry : registry_ok (ds_obj s');
  tc_lists : o_lists (ds_obj s') = o_lists (ds_obj s);
  tc_mem : o_mem (ds_obj s') = o_mem (ds_obj s);
  tc_dev : ds_dev s' = <[dev := d]> (ds_dev s);
  tc_calls : ds_calls s' = ds_calls s ++ (pair dev <$> calls)
}.

Lemma touched_refl s dev d : registry_ok (ds_obj s) -> ds_dev s !! dev = Some d -> touched s s dev d [].
Proof. intros H E. split; [done|done|done|by rewrite insert_id|by rewrite app_nil_r]. Qed.

Lemma touched_get s s' dev d calls : touched s s' dev d calls -> get_device dev s' = Some (d, s').
Proof. intros [_ _ _ E _]. unfold get_device, deref. by rewrite E, lookup_insert_eq. Qed.

Lemma touched_set s s' dev d calls f : touched s s' dev d calls ->
  exists s2, set_device dev f s' = Some (tt, s2) /\ touched s s2 dev (f d) calls.
Proof.
  intros T. unfold set_device. rewrite (bind_eval _ _ _ _ _ (touched_get _ _ _ _ _ T)). eexists. split; [done|].
  destruct T as [T1 T2 Tm T3 T4]. split; [done|done|done| |done]. simpl. rewrite T3. apply insert_insert_eq.
Qed.

Lemma touched_call s s' dev d calls c f : touched s s' dev d calls ->
  exists r s2, call_driver dev c f s' = Some (r, s2) /\ touched s s2 dev d (calls ++ [c r]).
Proof.
  intros [T1 T2 Tm T3 T4]. unfold call_driver. destruct (f (ds_drv s')) as [r drv]. exists r. eexists. split; [done|].
  split; [done|done|done|done|]. simpl. by rewrite T4, fmap_app, app_assoc.
Qed.

Lemma touched_open s s' dev oflag d calls f : touched s s' dev d calls ->
  exists r flag s2, call_open dev oflag f s' = Some (r, s2) /\ touched s s2 dev (set_open_flag (fun _ => flag) d) (calls ++ [COpen oflag r]).
Proof.
  intros T. unfold call_open. rewrite (bind_eval _ _ _ _ _ (touched_get _ _ _ _ _ T)).
  rewrite (bind_eval (gets ds_drv) _ s' (ds_drv s') s') by done. destruct (f oflag (dv_open_flag d) (ds_drv s')) as [[r flag] drv].
  destruct (touched_call _ _ _ _ _ (COpen oflag) (fun _ => (r, drv)) T) as (r' & s2 & E & T2).
  assert (r' = r) as -> by (unfold call_driver in E; by injection E).
  rewrite (bind_eval _ _ _ _ _ E). destruct (touched_set _ _ _ _ _ (set_open_flag (fun _ => flag)) T2) as (s3 & E3 & T3).
  exists r, flag, s3. by rewrite (bind_eval _ _ _ _ _ E3).
Qed.

Lemma set_errno_wf k e : wf k -> k_irq_nest k = 0 -> exists k', rt_set_errno e k = Some (tt, k') /\ wf k' /\ k_irq_nest k' = 0.
Proof.
  intros H Hi. unfold rt_set_errno, rt_interrupt_get_nest, rt_thread_self. munfold. rewrite Hi, decide_False by lia.
  destruct (k_current k) as [t|] eqn:Ec; [|by exists k]. destruct (wf_cur _ (proj2 H) _ Ec) as (th & Et & _). rewrite Et.
  fold (upd_thread t (with_error e) k). eexists. split; [done|]. split; [|done]. by apply wf_upd_keep.
Qed.

Lemma touched_errno s s' dev d calls e : touched s s' dev d calls ->
  exists s2, in_objects (in_kernel (rt_set_errno e)) s' = Some (tt, s2) /\ touched s s2 dev d calls.
Proof.
  intros [[H1 H2 H3 H4 H5 H6 H7] T2 Tm T3 T4]. destruct (set_errno_wf _ e H1 H2) as (k' & E & Hk & Hi).
  unfold in_objects, in_kernel. rewrite E. eexists. split; [done|]. split; try done.
Qed.

Lemma check_device_eval s dev : registry_ok (ds_obj s) -> is_device s dev -> check_device dev s = Some (tt, s).
Proof.
  intros H Hi. unfold check_device, in_objects. munfold.
  assert (dev <> 0) by (intros ->; by apply (ro_null _ H (class_of RT_Object_Class_Device))).
  rewrite bool_decide_true by done. simpl. rewrite (get_type_ok _ (class_of RT_Object_Class_Device) dev H Hi). by destruct s.
Qed.

Lemma calls_none o alone u op r : forall before c after, [] = before ++ c :: after -> call_ok o alone u op r before c.
Proof. by intros [|??] ??. Qed.

Lemma calls_one o alone u op r x : call_ok o alone u op r [] x -> forall before c after, [x] = before ++ c :: after -> call_ok o alone u op r before c.
Proof. intros H [|y [|? ?]] c after; by intros [= <- ?]. Qed.

Lemma calls_two o alone u op r x y : call_ok o alone u op r [] x -> call_ok o alone u op r [x] y ->
  forall before c after, [x; y] = before ++ c :: after -> call_ok o alone u op r before c.
Proof. intros H1 H2 [|? [|? [|? ?]]] c after [=]; by subst. Qed.

(** What an operation on [d] comes to. *)
Definition op_done (s : dstate) (op : dev_op) (d : device) : Prop :=
  exists r s' d' calls, dev_exec op s = Some (r, s') /\ touched s s' (op_dev op) d' calls /\ device_ok d' /\
    dv_ops d' = dv_ops d /\ standalone d' = standalone d /\
    event_ok (dv_ops d) (standalone d) (usage_of d) (Event op r calls) /\ usage_of d' = next (Event op r calls) (usage_of d).

Lemma flag_bit flag p q : 0 <= p -> 0 <= q -> Z.land (Z.lor flag (2 ^ p)) (2 ^ q) <> 0 <-> p = q \/ Z.land flag (2 ^ q) <> 0.
Proof.
  intros Hp Hq. rewrite !land_pow2_nonzero, Z.lor_spec by done. destruct (decide (p = q)) as [->|Hn].
  - rewrite Z.pow2_bits_true by done. rewrite orb_true_r. tauto.
  - rewrite Z.pow2_bits_false by done. rewrite orb_false_r. tauto.
Qed.

Lemma activated_flags d : let d' := set_flag (fun flag => Z.lor flag RT_DEVICE_FLAG_ACTIVATED) d in
  Z.land (dv_flag d') RT_DEVICE_FLAG_ACTIVATED <> 0 /\ standalone d' = standalone d /\ (device_ok d -> device_ok d').
Proof.
  split; [|split].
  - apply (flag_bit _ 4 4); [lia..|by left].
  - apply bool_decide_ext. simpl. rewrite (flag_bit _ 4 3) by lia. split; [intros [?|?]; [lia|done]|by right].
  - intros [H1 H2]. split; [done|]. simpl. intros Hs. apply H2. revert Hs. unfold standalone. simpl. rewrite !bool_decide_eq_true, (flag_bit _ 4 3) by lia. by intros [?|?].
Qed.

Lemma inited_spec d : inited d = true <-> is_Some (device_init (dv_ops d)) /\ Z.land (dv_flag d) RT_DEVICE_FLAG_ACTIVATED <> 0.
Proof. unfold inited. by rewrite andb_true_iff, !bool_decide_eq_true. Qed.

(** The device is active, or its initialisation has failed. *)
Lemma activate_device_ok s dev d : registry_ok (ds_obj s) -> ds_dev s !! dev = Some d -> device_ok d ->
  exists r s' d' calls, activate_device dev s = Some (r, s') /\ touched s s' dev d' calls /\ device_ok d' /\
    dv_ops d' = dv_ops d /\ standalone d' = standalone d /\ dv_ref_count d' = dv_ref_count d /\ dv_open_flag d' = dv_open_flag d /\
    (calls = [] /\ r = RT_EOK /\ inited d' = inited d /\ (is_Some (device_init (dv_ops d)) -> inited d = true) \/
     calls = [CInit r] /\ inited d = false /\ is_Some (device_init (dv_ops d)) /\ inited d' = bool_decide (r = RT_EOK)).
Proof.
  intros H E Hd. pose proof (touched_refl s dev d H E) as T. destruct (activated_flags d) as (A1 & A2 & A3).
  unfold activate_device. rewrite (bind_eval _ _ _ _ _ (touched_get _ _ _ _ _ T)). case_decide as Ha.
  - destruct (device_init (dv_ops d)) as [f|] eqn:Ei.
    + destruct (touched_call _ _ _ _ _ CInit f T) as (r & s1 & Ec & T1). rewrite (bind_eval _ _ _ _ _ Ec).
      assert (inited d = false) as Hi by (apply not_true_is_false; intros [_ ?]%inited_spec; done).
      case_bool_decide as Hr.
      * destruct (touched_set _ _ _ _ _ (set_flag (fun flag => Z.lor flag RT_DEVICE_FLAG_ACTIVATED)) T1) as (s2 & Es & T2).
        cbn [when]. rewrite (bind_eval _ _ _ _ _ Es). eexists r, s2, _, _. split; [done|]. split; [done|]. split_and!; try done; [by apply A3|].
        right. split_and!; try done. rewrite (bool_decide_true (r = RT_EOK)) by done. apply inited_spec. split; [simpl; by rewrite Ei|done].
      * exists r, s1, d, [CInit r]. split; [done|]. split; [done|]. split_and!; try done. right. split_and!; try done. by rewrite bool_decide_false.
    + rewrite (bind_eval _ _ s RT_EOK s) by done.
      destruct (touched_set _ _ _ _ _ (set_flag (fun flag => Z.lor flag RT_DEVICE_FLAG_ACTIVATED)) T) as (s2 & Es & T2).
      rewrite bool_decide_true by done. cbn [when]. rewrite (bind_eval _ _ _ _ _ Es). eexists RT_EOK, s2, _, _. split; [done|]. split; [done|].
      split_and!; try done; [by apply A3|]. left. split_and!; try done; try by intros [? ?].
      unfold inited. cbn. by rewrite Ei.
  - exists RT_EOK, s, d, []. split; [done|]. split; [done|]. split_and!; try done. left. split_and!; try done. intros Hi. by apply inited_spec.
Qed.

(** An opening stops at the assertion on the count, or is done. *)
Lemma open_active_ok s s1 dev oflag d calls : touched s s1 dev d calls -> device_ok d -> (standalone d = true -> dv_ref_count d = 0) ->
  open_active_device dev oflag s1 = None /\ dv_ref_count d = 255 \/
  exists r s' d' calls', open_active_device dev oflag s1 = Some (r, s') /\ touched s s' dev d' calls' /\ device_ok d' /\
    dv_ops d' = dv_ops d /\ standalone d' = standalone d /\ inited d' = inited d /\
    dv_ref_count d' = (if decide (accepted r) then dv_ref_count d + 1 else dv_ref_count d) /\
    (device_open (dv_ops d) = None /\ calls' = calls \/ is_Some (device_open (dv_ops d)) /\ calls' = calls ++ [COpen oflag r]).
Proof.
  intros T Hd Hn. unfold open_active_device. rewrite (bind_eval _ _ _ _ _ (touched_get _ _ _ _ _ T)).
  assert (exists r flag s2 calls2, match device_open (dv_ops d) with
      | Some f => call_open dev oflag f
      | None => set_device dev (set_open_flag (fun _ => Z.land oflag RT_DEVICE_OFLAG_MASK));; mret RT_EOK
      end s1 = Some (r, s2) /\ touched s s2 dev (set_open_flag (fun _ => flag) d) calls2 /\
      (device_open (dv_ops d) = None /\ calls2 = calls \/ is_Some (device_open (dv_ops d)) /\ calls2 = calls ++ [COpen oflag r]))
    as (r & flag & s2 & calls2 & E2 & T2 & Hc).
  { destruct (device_open (dv_ops d)) as [f|] eqn:Eo.
    - destruct (touched_open _ _ _ oflag _ _ f T) as (r & flag & s2 & E & T2). exists r, flag, s2, (calls ++ [COpen oflag r]).
      split; [done|]. split; [done|]. right. by split.
    - destruct (touched_set _ _ _ _ _ (set_open_flag (fun _ => Z.land oflag RT_DEVICE_OFLAG_MASK)) T) as (s2 & E & T2).
      eexists RT_EOK, _, s2, calls. rewrite (bind_eval _ _ _ _ _ E). split; [done|]. split; [exact T2|]. by left. }
  rewrite (bind_eval _ _ _ _ _ E2). set (d2 := set_open_flag (fun _ => flag) d) in *. destruct (decide (r = RT_EOK \/ r = - RT_ENOSYS)) as [Ha|Ha].
  - destruct (touched_set _ _ _ _ _ (set_open_flag (fun flag => Z.lor flag RT_DEVICE_OFLAG_OPEN)) T2) as (s3 & E3 & T3).
    destruct (touched_set _ _ _ _ _ (set_ref_count (fun n => u8 (n + 1))) T3) as (s4 & E4 & T4).
    rewrite (bind_eval _ _ _ _ _ E3), (bind_eval _ _ _ _ _ E4), (bind_eval _ _ _ _ _ (touched_get _ _ _ _ _ T4)).
    pose proof (do_count _ Hd) as Hcount. unfold in_range in Hcount. destruct (decide (dv_ref_count d = 255)) as [Hf|Hf].
    { left. split; [|done]. rewrite bool_decide_false; [done|]. simpl. rewrite Hf. intros Hx. by apply Hx. }
    assert (u8 (dv_ref_count d + 1) = dv_ref_count d + 1) as Eu by (apply wrap_small; unfold in_range; lia).
    right. rewrite bool_decide_true by (simpl; rewrite Eu; lia). eexists r, s4, _, calls2. split; [done|]. split; [done|].
    split_and!; try done; simpl.
    + split; simpl; [rewrite Eu; unfold in_range; lia|]. intros _ _. apply (flag_bit _ 3 3); [lia..|by left].
    + rewrite decide_True by done. exact Eu.
  - right. exists r, s2, d2, calls2. split; [done|]. split; [done|]. split_and!; try done; [|by rewrite decide_False].
    split; [apply Hd|]. intros Hs Hz. by destruct Hz, Hn.
Qed.

(** The event of an opening, when the initialisation went well. *)
Lemma open_event o alone u dev oflag r calls1 calls :
  (calls1 = [] /\ (is_Some (device_init o) -> us_inited u = true) \/ calls1 = [CInit RT_EOK] /\ us_inited u = false) ->
  (calls = calls1 /\ (device_open o = None \/ ~ accepted r) \/ calls = calls1 ++ [COpen oflag r] /\ (alone = true -> us_users u = 0)) ->
  event_ok o alone u (Event (DOpen dev oflag) r calls) /\
  next (Event (DOpen dev oflag) r calls) u = Usage (us_inited u || existsb init_done calls1) (if decide (accepted r) then us_users u + 1 else us_users u).
Proof.
  intros H1 H2. assert (existsb init_failed calls = false /\ existsb init_done calls = existsb init_done calls1) as [Hf Hd]
    by (destruct H1 as [[-> _]|[-> _]], H2 as [[-> _]|[-> _]]; done).
  split; [|unfold next; simpl; rewrite Hf, Hd; done]. split; simpl.
  - destruct H1 as [[-> Hi]|[-> Hi]], H2 as [[-> _]|[-> Ha]].
    + apply calls_none.
    + apply calls_one. split_and!; try done. intros ?. left. by apply Hi.
    + by apply calls_one.
    + apply calls_two; [done|]. split_and!; try done. by right.
  - split.
    + intros Ho Hu. destruct H1 as [[_ Hi]|[-> _]]; [by rewrite Hi in Hu|]. destruct H2 as [[-> _]|[-> _]]; by eexists.
    + intros [f Ho] Hu. destruct H2 as [[-> [Hn|Hn]]|[-> _]]; [congruence| |by destruct H1 as [[-> _]|[-> _]]].
      unfold next in Hu. simpl in Hu. by rewrite decide_False in Hu.
Qed.

Lemma rt_device_open_ok s dev oflag d : devices_ok s -> is_device s dev -> ds_dev s !! dev = Some d -> device_ok d ->
  dev_exec (DOpen dev oflag) s = None /\ dv_ref_count d = 255 \/ op_done s (DOpen dev oflag) d.
Proof.
  intros [H _] Hi E Hd. destruct (activate_device_ok s dev d H E Hd) as (r1 & s1 & d1 & calls1 & E1 & T1 & Hd1 & Eo & Es & Er & Ef & Hc).
  unfold op_done, dev_exec, rt_device_open. rewrite (bind_eval _ _ _ _ _ (check_device_eval s dev H Hi)), (bind_eval _ _ _ _ _ E1).
  destruct (decide (r1 = RT_EOK)) as [->|Hr1].
  - rewrite decide_False by auto. rewrite (bind_eval _ _ _ _ _ (touched_get _ _ _ _ _ T1)).
    assert (inited d1 = inited d || existsb init_done calls1 /\
      (calls1 = [] /\ (is_Some (device_init (dv_ops d)) -> inited d = true) \/ calls1 = [CInit RT_EOK] /\ inited d = false)) as (Ei & Hc1).
    { destruct Hc as [(Ec & _ & Ei & Hin)|(Ec & Hin & _ & Ei)]; subst calls1; rewrite Ei; [rewrite orb_false_r|rewrite Hin]; split_and!; try done; [by left|by right]. }
    destruct (decide (Z.land (dv_flag d1) RT_DEVICE_FLAG_STANDALONE <> 0 /\ Z.land (dv_open_flag d1) RT_DEVICE_OFLAG_OPEN <> 0)) as [Hs|Hs].
    + right. exists (- RT_EBUSY), s1, d1, calls1. assert (~ accepted (- RT_EBUSY)) as Hna by (by intros [?|?]).
      destruct (open_event (dv_ops d) (standalone d) (usage_of d) dev oflag (- RT_EBUSY) calls1 calls1) as [He Hnext]; [done|left; auto|].
      split; [done|]. split; [done|]. split_and!; try done. rewrite Hnext, decide_False by done. unfold usage_of. by rewrite Ei, Er.
    + assert (standalone d1 = true -> dv_ref_count d1 = 0) as Hfree.
      { intros Ha. destruct (decide (dv_ref_count d1 = 0)) as [|Hz]; [done|]. destruct Hs. split; [by apply bool_decide_eq_true in Ha|by apply Hd1]. }
      destruct (open_active_ok s s1 dev oflag d1 calls1 T1 Hd1 Hfree) as [[En E255]|(r & s' & d' & calls & E' & T' & Hd' & Eo' & Es' & Ei' & Er' & Hcalls)];
        [left; split; [done|congruence]|right].
      destruct (open_event (dv_ops d) (standalone d) (usage_of d) dev oflag r calls1 calls) as [He Hnext]; [done| |].
      { rewrite Eo in Hcalls. destruct Hcalls as [[? ?]|[_ ?]]; [left; auto|right]. split; [done|]. intros Ha. simpl.
        rewrite <- Er. apply Hfree. congruence. }
      exists r, s', d', calls. split; [done|]. split; [done|]. split_and!; try done; try congruence.
      rewrite Hnext. unfold usage_of. by rewrite Ei', Ei, Er', Er.
  - right. rewrite decide_True by done. destruct Hc as [(_ & ? & _)|(Ec & Hin & Hsome & Ei)]; [done|]. subst calls1.
    exists r1, s1, d1, [CInit r1]. split; [done|]. split; [done|].
    assert (next (Event (DOpen dev oflag) r1 [CInit r1]) (usage_of d) = usage_of d) as Hnext.
    { unfold next, usage_of. simpl. rewrite Hin. rewrite (bool_decide_false (r1 = RT_EOK)) by done.
      rewrite (bool_decide_true (r1 <> RT_EOK)) by done. simpl. by destruct (decide (accepted r1)). }
    split_and!; try done.
    + split; [apply calls_one; simpl; by rewrite Hin|]. split; [intros _ _; by eexists|]. rewrite Hnext. by intros _ ?.
    + rewrite Hnext. unfold usage_of. by rewrite Ei, Er, Hin, bool_decide_false.
Qed.

Lemma rt_device_init_ok s dev d : devices_ok s -> is_device s dev -> ds_dev s !! dev = Some d -> device_ok d -> op_done s (DInit dev) d.
Proof.
  intros [H _] Hi E Hd. pose proof (touched_refl s dev d H E) as T. destruct (activated_flags d) as (A1 & A2 & A3).
  assert (dev <> 0) by (intros ->; by apply (ro_null _ H (class_of RT_Object_Class_Device))).
  unfold op_done, dev_exec, rt_device_init. rewrite bool_decide_true by done. rewrite (bind_eval _ _ s tt s) by done.
  rewrite (bind_eval _ _ _ _ _ (touched_get _ _ _ _ _ T)).
  destruct (device_init (dv_ops d)) as [f|] eqn:Ei; [case_decide as Ha|].
  - assert (inited d = false) as Hin by (apply not_true_is_false; intros [_ ?]%inited_spec; done).
    destruct (touched_call _ _ _ _ _ CInit f T) as (r & s1 & Ec & T1). rewrite (bind_eval _ _ _ _ _ Ec). destruct (decide (r = RT_EOK)) as [->|Hr].
    + destruct (touched_set _ _ _ _ _ (set_flag (fun flag => Z.lor flag RT_DEVICE_FLAG_ACTIVATED)) T1) as (s2 & Es & T2).
      rewrite bool_decide_true by done. cbn [when]. rewrite (bind_eval _ _ _ _ _ Es). eexists RT_EOK, s2, _, _. split; [done|]. split; [done|].
      split_and!; [by apply A3|done|done| |].
      * split; [by apply calls_one|done].
      * unfold next, usage_of. simpl. rewrite Hin, orb_true_l || rewrite Hin. f_equal. apply inited_spec. split; [simpl; by rewrite Ei|done].
    + rewrite bool_decide_false by done. exists r, s1, d, [CInit r]. split; [done|]. split; [done|]. split_and!; [done..| |].
      * split; [by apply calls_one|done].
      * unfold next, usage_of. simpl. by rewrite Hin, bool_decide_false.
  - exists RT_EOK, s, d, []. split; [done|]. split; [done|]. assert (inited d = true) as Hin by (apply inited_spec; split; [by rewrite Ei|done]).
    split_and!; [done..| |].
    + split; [apply calls_none|]. unfold must_call. simpl. by rewrite Hin.
    + unfold next, usage_of. simpl. by rewrite orb_false_r.
  - exists RT_EOK, s, d, []. split; [done|]. split; [done|]. split_and!; [done..| |].
    + split; [apply calls_none|]. unfold must_call. simpl. rewrite Ei. by intros [? ?].
    + unfold next, usage_of. simpl. by rewrite orb_false_r.
Qed.

Lemma rt_device_close_ok s dev d : devices_ok s -> is_device s dev -> ds_dev s !! dev = Some d -> device_ok d -> op_done s (DClose dev) d.
Proof.
  intros [H _] Hi E Hd. pose proof (touched_refl s dev d H E) as T. pose proof (do_count _ Hd) as Hc. unfold in_range in Hc.
  unfold op_done, dev_exec, rt_device_close. rewrite (bind_eval _ _ _ _ _ (check_device_eval s dev H Hi)).
  rewrite (bind_eval _ _ _ _ _ (touched_get _ _ _ _ _ T)). case_decide as Hz.
  { exists (- RT_ERROR), s, d, []. split; [done|]. split; [done|]. split_and!; [done..| |].
    - split; [apply calls_none|]. unfold must_call. simpl. intros _ ?. congruence.
    - unfold next, usage_of. simpl. by rewrite Hz, orb_false_r. }
  destruct (touched_set _ _ _ _ _ (set_ref_count (fun n => u8 (n - 1))) T) as (s1 & E1 & T1).
  rewrite (bind_eval _ _ _ _ _ E1), (bind_eval _ _ _ _ _ (touched_get _ _ _ _ _ T1)). simpl.
  assert (u8 (dv_ref_count d - 1) = dv_ref_count d - 1) as Eu by (apply wrap_small; unfold in_range; lia). rewrite Eu. case_decide as Hl.
  { eexists RT_EOK, s1, _, []. split; [done|]. split; [done|]. split_and!; [|done..| |].
    - split; simpl; rewrite Eu; [unfold in_range; lia|]. intros Hs _. by apply Hd.
    - split; [apply calls_none|]. unfold must_call. simpl. intros _ ?. lia.
    - unfold next, usage_of. simpl. by rewrite Eu, orb_false_r, decide_False. }
  assert (dv_ref_count d = 1) as E1' by lia.
  assert (exists r s2 calls, match device_close (dv_ops d) with Some f => call_driver dev CClose f | None => mret RT_EOK end s1 = Some (r, s2) /\
    touched s s2 dev (set_ref_count (fun n => u8 (n - 1)) d) calls /\
    (calls = [] /\ device_close (dv_ops d) = None \/ calls = [CClose r])) as (r & s2 & calls & E2 & T2 & Hcalls).
  { destruct (device_close (dv_ops d)) as [f|]; [|eexists RT_EOK, s1, []; by auto].
    destruct (touched_call _ _ _ _ _ CClose f T1) as (r & s2 & Ec & T2). eexists r, s2, _. split; [done|]. split; [done|by right]. }
  rewrite (bind_eval _ _ _ _ _ E2).
  assert (exists s3 d3, when (bool_decide (r = RT_EOK \/ r = - RT_ENOSYS)) (set_device dev (set_open_flag (fun _ => RT_DEVICE_OFLAG_CLOSE))) s2 = Some (tt, s3) /\
    touched s s3 dev d3 calls /\ dv_ops d3 = dv_ops d /\ dv_flag d3 = dv_flag d /\ dv_ref_count d3 = 0) as (s3 & d3 & E3 & T3 & Eo & Ef & Er).
  { case_bool_decide; simpl; [|eexists s2, _; split; [done|]; split; [done|]; split_and!; try done; simpl; rewrite Eu; lia].
    destruct (touched_set _ _ _ _ _ (set_open_flag (fun _ => RT_DEVICE_OFLAG_CLOSE)) T2) as (s3 & E3 & T3).
    eexists s3, _. split; [done|]. split; [done|]. split_and!; try done; simpl; rewrite Eu; lia. }
  rewrite (bind_eval _ _ _ _ _ E3). exists r, s3, d3, calls. split; [done|]. split; [done|]. split_and!; [|done| | |].
  - split; rewrite Er; [done|by intros _ ?].
  - by apply bool_decide_ext; rewrite Ef.
  - destruct Hcalls as [[-> En]| ->]; (split; [first [apply calls_none|by apply calls_one]|]); unfold must_call; simpl; [|done]. rewrite En. by intros [? ?].
  - unfold next, usage_of. simpl. rewrite Er, E1'. assert (existsb init_done calls = false) as -> by (by destruct Hcalls as [[-> _]| ->]).
    rewrite orb_false_r. unfold inited. by rewrite Eo, Ef.
Qed.

(** An operation that only calls the driver, or sets an error. *)
Lemma transfer_ok s dev d op (f : option (D -> Z * D)) (c : Z -> dcall) (e1 e2 : Z) : devices_ok s -> is_device s dev -> ds_dev s !! dev = Some d -> device_ok d ->
  exists r s' calls, (check_device dev;; d ← get_device dev;
      if decide (dv_ref_count d = 0) then in_objects (in_kernel (rt_set_errno e1));; mret 0
      else match f with Some f => call_driver dev c f | None => in_objects (in_kernel (rt_set_errno e2));; mret 0 end) s = Some (r, s') /\
    touched s s' dev d calls /\ (calls = [] /\ (f = None \/ dv_ref_count d = 0) \/ calls = [c r] /\ dv_ref_count d <> 0) /\
    ((forall u, us_users (next (Event op r calls) u) = us_users u) -> existsb init_done calls = false -> usage_of d = next (Event op r calls) (usage_of d)).
Proof.
  intros [H _] Hi E Hd. pose proof (touched_refl s dev d H E) as T.
  assert (forall r calls, (forall u, us_users (next (Event op r calls) u) = us_users u) -> existsb init_done calls = false ->
    usage_of d = next (Event op r calls) (usage_of d)) as Hn.
  { intros r calls Hu Hc. specialize (Hu (usage_of d)). destruct (next _ _) as [i n] eqn:En. simpl in Hu. rewrite Hu.
    injection En as <- _. simpl. by rewrite Hc, orb_false_r. }
  rewrite (bind_eval _ _ _ _ _ (check_device_eval s dev H Hi)), (bind_eval _ _ _ _ _ (touched_get _ _ _ _ _ T)). case_decide as Hz.
  - destruct (touched_errno _ _ _ _ _ e1 T) as (s' & E' & T'). rewrite (bind_eval _ _ _ _ _ E'). exists 0, s', []. split; [done|]. split; [done|]. split; [left; auto|apply Hn].
  - destruct f as [f|].
    + destruct (touched_call _ _ _ _ _ c f T) as (r & s' & E' & T'). eexists r, s', _. split; [done|]. split; [done|]. split; [right; auto|apply Hn].
    + destruct (touched_errno _ _ _ _ _ e2 T) as (s' & E' & T'). rewrite (bind_eval _ _ _ _ _ E'). exists 0, s', []. split; [done|]. split; [done|]. split; [left; auto|apply Hn].
Qed.

Lemma rt_device_read_ok s dev pos buffer size d : devices_ok s -> is_device s dev -> ds_dev s !! dev = Some d -> device_ok d ->
  op_done s (DRead dev pos buffer size) d.
Proof.
  intros H Hi E Hd. pose proof H as [Hr _].
  destruct (transfer_ok s dev d (DRead dev pos buffer size) ((fun f => f pos buffer size) <$> device_read (dv_ops d)) (CRead pos buffer size) (- RT_ERROR) (- RT_ENOSYS) H Hi E Hd)
    as (r & s' & calls & E' & T & Hc & Hn).
  exists r, s', d, calls. split; [|split; [done|split_and!; try done]].
  - rewrite <- E'. unfold dev_exec, rt_device_read. rewrite !(bind_eval _ _ _ _ _ (check_device_eval s dev Hr Hi)).
    rewrite !(bind_eval _ _ _ _ _ (touched_get _ _ _ _ _ (touched_refl s dev d Hr E))). by destruct (device_read (dv_ops d)).
  - destruct Hc as [[-> Hf]|[-> Hz]]; [split; [apply calls_none|]|split; [by apply calls_one|done]].
    unfold must_call. simpl. intros [f Ef] Hz. rewrite Ef in Hf. by destruct Hf.
  - apply Hn; [done|]. by destruct Hc as [[-> _]|[-> _]].
Qed.

Lemma rt_device_write_ok s dev pos buffer size d : devices_ok s -> is_device s dev -> ds_dev s !! dev = Some d -> device_ok d ->
  op_done s (DWrite dev pos buffer size) d.
Proof.
  intros H Hi E Hd. pose proof H as [Hr _].
  destruct (transfer_ok s dev d (DWrite dev pos buffer size) ((fun f => f pos buffer size) <$> device_write (dv_ops d)) (CWrite pos buffer size) (- RT_ERROR) (- RT_ENOSYS) H Hi E Hd)
    as (r & s' & calls & E' & T & Hc & Hn).
  exists r, s', d, calls. split; [|split; [done|split_and!; try done]].
  - rewrite <- E'. unfold dev_exec, rt_device_write. rewrite !(bind_eval _ _ _ _ _ (check_device_eval s dev Hr Hi)).
    rewrite !(bind_eval _ _ _ _ _ (touched_get _ _ _ _ _ (touched_refl s dev d Hr E))). by destruct (device_write (dv_ops d)).
  - destruct Hc as [[-> Hf]|[-> Hz]]; [split; [apply calls_none|]|split; [by apply calls_one|done]].
    unfold must_call. simpl. intros [f Ef] Hz. rewrite Ef in Hf. by destruct Hf.
  - apply Hn; [done|]. by destruct Hc as [[-> _]|[-> _]].
Qed.

Lemma rt_device_control_ok s dev cmd arg d : devices_ok s -> is_device s dev -> ds_dev s !! dev = Some d -> device_ok d ->
  op_done s (DControl dev cmd arg) d.
Proof.
  intros [H _] Hi E Hd. pose proof (touched_refl s dev d H E) as T. unfold op_done, dev_exec, rt_device_control.
  rewrite (bind_eval _ _ _ _ _ (check_device_eval s dev H Hi)), (bind_eval _ _ _ _ _ (touched_get _ _ _ _ _ T)).
  destruct (device_control (dv_ops d)) as [f|] eqn:Ef.
  - destruct (touched_call _ _ _ _ _ (CControl cmd arg) (f cmd arg) T) as (r & s' & E' & T'). eexists r, s', d, _. split; [done|]. split; [done|].
    split_and!; try done; [split; [by apply calls_one|done]|]. unfold next, usage_of. simpl. by rewrite orb_false_r.
  - exists (- RT_ENOSYS), s, d, []. split; [done|]. split; [done|]. split_and!; try done.
    + split; [apply calls_none|]. unfold must_call. simpl. rewrite Ef. by intros [? ?].
    + unfold next, usage_of. simpl. by rewrite orb_false_r.
Qed.

Lemma set_callbacks_ok s op dev d rx tx : devices_ok s -> is_device s dev -> ds_dev s !! dev = Some d -> device_ok d ->
  dev_exec op = (check_device dev;; set_device dev (set_callbacks rx tx);; mret RT_EOK) -> op_dev op = dev ->
  (forall o u r, must_call o u (Event op r [])) -> (forall u, us_users (next (Event op RT_EOK []) u) = us_users u) -> op_done s op d.
Proof.
  intros [H _] Hi E Hd Ee Eo Hm Hu. pose proof (touched_refl s dev d H E) as T. unfold op_done.
  rewrite Ee, Eo, (bind_eval _ _ _ _ _ (check_device_eval s dev H Hi)).
  destruct (touched_set _ _ _ _ _ (set_callbacks rx tx) T) as (s1 & E1 & T1). rewrite (bind_eval _ _ _ _ _ E1).
  eexists RT_EOK, s1, _, []. split; [done|]. split; [done|]. split_and!; try done; [by destruct Hd|split; [apply calls_none|apply Hm]|].
  specialize (Hu (usage_of d)). destruct (next _ _) as [i n] eqn:En. simpl in Hu. rewrite Hu. injection En as <- _. simpl. by rewrite orb_false_r.
Qed.

Lemma op_ok s op d : devices_ok s -> is_device s (op_dev op) -> ds_dev s !! op_dev op = Some d -> device_ok d ->
  (exists oflag, op = DOpen (op_dev op) oflag) /\ dev_exec op s = None /\ dv_ref_count d = 255 \/ op_done s op d.
Proof.
  intros H Hi E Hd. destruct op as [|dev oflag| | | | | |]; simpl in *; cycle 1.
  { destruct (rt_device_open_ok s dev oflag d H Hi E Hd) as [[? ?]|?]; [left|by right]. split; [by exists oflag|done]. }
  all: right.
  - by apply rt_device_close_ok.
  - by apply rt_device_read_ok.
  - by apply rt_device_write_ok.
  - by apply rt_device_control_ok.
  - by apply (set_callbacks_ok s _ dev d (fun _ => rx) id).
  - by apply (set_callbacks_ok s _ dev d id (fun _ => tx)).
  - by apply rt_device_init_ok.
Qed.

(** ** Any use of any devices *)

(** How often the driver has said that the device is initialised. *)
Definition inits (dev : Z) (es : list event) : nat :=
  length (filter (fun c => init_done c = true) (concat (ev_calls <$> filter (fun e => op_dev (ev_op e) = dev) es))).

Lemma events_ok_ext cfg cfg' es : forall us us', (forall dev, cfg dev = cfg' dev) -> (forall dev, us dev = us' dev) ->
  events_ok cfg us es -> events_ok cfg' us' es.
Proof.
  induction es as [|e es IH]; intros us us' Ec Eu; [done|]. cbn [events_ok]. intros [H1 H2]. rewrite <- !Ec, <- !Eu. split; [done|].
  eapply IH; [done| |exact H2]. intros dev. destruct (decide (op_dev (ev_op e) = dev)) as [<-|]; [by rewrite !fn_lookup_insert|by rewrite !fn_lookup_insert_ne].
Qed.

Lemma users_after_ext es : forall us us', (forall dev, us dev = us' dev) -> forall dev, users_after us es dev = users_after us' es dev.
Proof.
  induction es as [|e es IH]; intros us us' Eu dev; [apply Eu|]. unfold users_after in *. simpl. apply IH. intros dev'. rewrite <- Eu.
  destruct (decide (op_dev (ev_op e) = dev')) as [<-|]; [by rewrite !fn_lookup_insert|by rewrite !fn_lookup_insert_ne].
Qed.

Lemma snd_pairs {A B} (a : A) (l : list B) : snd <$> (pair a <$> l) = l.
Proof. induction l; [done|]. cbn [fmap list_fmap]. by f_equal. Qed.

(** One operation among the devices of [s]. *)
Lemma event_step s op : devices_ok s -> is_device s (op_dev op) ->
  (exists oflag, op = DOpen (op_dev op) oflag) /\ dev_event op s = None /\ us_users (usages s (op_dev op)) = 255 \/
  exists e s', dev_event op s = Some (e, s') /\ ev_op e = op /\ devices_ok s' /\ (forall dev, is_device s' dev <-> is_device s dev) /\
    event_ok (fst (config s (op_dev op))) (snd (config s (op_dev op))) (usages s (op_dev op)) e /\
    (forall dev, usages s' dev = <[op_dev op := next e (usages s (op_dev op))]> (usages s) dev) /\ (forall dev, config s' dev = config s dev).
Proof.
  intros H Hi. destruct (proj2 H _ Hi) as (d & E & Hd).
  assert (usages s (op_dev op) = usage_of d) as Eu by (unfold usages; by rewrite E).
  assert (config s (op_dev op) = (dv_ops d, standalone d)) as Ec by (unfold config; by rewrite E).
  destruct (op_ok s op d H Hi E Hd) as [(Ho & Ex & Hx)|(r & s' & d' & calls & Ex & T & Hd' & Eo & Es & He & Hx)].
  { left. split; [done|]. unfold dev_event. rewrite Ex, Eu. done. }
  right. destruct T as [T1 T2 Tm T3 T4]. exists (Event op r calls), s'. rewrite Ec, Eu.
  assert (forall dev, is_device s' dev <-> is_device s dev) as Hdev by (intros dev; unfold is_device; by rewrite T2).
  split_and!; try done.
  - unfold dev_event. by rewrite Ex, T4, drop_app_length, snd_pairs.
  - split; [done|]. intros dev Hv. rewrite T3. destruct (decide (op_dev op = dev)) as [<-|Hne].
    + exists d'. by rewrite lookup_insert_eq.
    + rewrite lookup_insert_ne by done. by apply H, Hdev.
  - intros dev. unfold usages. rewrite T3. destruct (decide (op_dev op = dev)) as [<-|Hne].
    + by rewrite lookup_insert_eq, fn_lookup_insert.
    + by rewrite lookup_insert_ne, fn_lookup_insert_ne.
  - intros dev. unfold config. rewrite T3. destruct (decide (op_dev op = dev)) as [<-|Hne]; [|by rewrite lookup_insert_ne].
    rewrite lookup_insert_eq, E. simpl. by rewrite Eo, Es.
Qed.

Lemma filter_empty {A} (P : A -> Prop) `{!forall x, Decision (P x)} (l : list A) : (forall x, x ∈ l -> ~ P x) -> filter P l = [].
Proof.
  induction l as [|x l IH]; intros Hl; [done|]. rewrite filter_cons_False by (apply Hl; left). apply IH. intros y Hy. apply Hl. by right.
Qed.

Lemma event_inits o alone u e : event_ok o alone u e ->
  (length (filter (fun c => init_done c = true) (ev_calls e)) <= (if us_inited u then 0 else 1))%nat /\
  (us_inited (next e u) = false -> filter (fun c => init_done c = true) (ev_calls e) = []).
Proof.
  intros [H _]. destruct e as [op r calls]. simpl in *. split.
  - destruct calls as [|c calls]; [simpl; lia|]. rewrite filter_cons.
    assert (filter (fun c => init_done c = true) calls = []) as ->.
    { apply filter_empty. intros c' Hc' Hi. apply list_elem_of_split in Hc' as (l1 & l2 & ->).
      specialize (H (c :: l1) c' l2 eq_refl). destruct c'; try done. by destruct H. }
    case_decide as Hc; simpl; [|lia]. specialize (H [] c calls eq_refl). destruct c; try done. destruct H as [-> _]. lia.
  - intros Hf. apply orb_false_iff in Hf as [_ Hf]. apply filter_empty. intros c Hc Hi.
    assert (existsb init_done calls = true) by (apply existsb_exists; exists c; split; [by apply list_elem_of_In|done]). congruence.
Qed.

Lemma initialised_once cfg es dev : forall us, events_ok cfg us es -> (inits dev es <= (if us_inited (us dev) then 0 else 1))%nat.
Proof.
  induction es as [|e es IH]; intros us; [simpl; destruct (us_inited _); cbn; lia|]. cbn [events_ok]. intros [He Hs].
  destruct (event_inits _ _ _ _ He) as [H1 H2]. specialize (IH _ Hs). unfold inits in *. rewrite filter_cons. case_decide as Hd; [subst dev|by rewrite fn_lookup_insert_ne in IH].
  rewrite fn_lookup_insert in IH. cbn [fmap list_fmap concat]. rewrite filter_app, length_app.
  destruct (us_inited (next e (us (op_dev (ev_op e))))) eqn:En; [lia|]. rewrite (H2 eq_refl). simpl.
  destruct (us_inited (us (op_dev (ev_op e)))) eqn:Eu; [|lia]. unfold next in En. rewrite Eu in En. done.
Qed.

(** A run in which every operation is done. *)
Definition run_ok (ops : list dev_op) (s : dstate) (es : list event) (s' : dstate) : Prop :=
  ev_op <$> es = ops /\ devices_ok s' /\ events_ok (config s) (usages s) es /\ (forall dev, usages s' dev = users_after (usages s) es dev).

(** A run ends, or comes to an opening of a device that has 255 users. *)
Lemma dev_run_ok ops : forall s, devices_ok s -> Forall (fun op => is_device s (op_dev op)) ops ->
  match dev_run ops s with
  | Some (es, s') => run_ok ops s es s'
  | None => exists ops1 dev oflag ops2 es1 s1, ops = ops1 ++ DOpen dev oflag :: ops2 /\ dev_run ops1 s = Some (es1, s1) /\
      us_users (usages s1 dev) = 255
  end.
Proof.
  induction ops as [|op ops IH]; intros s H Ho; [by split_and!|]. apply Forall_cons in Ho as [Hop Ho]. cbn [dev_run].
  destruct (event_step s op H Hop) as [([oflag Eop] & En & Hu)|(e & s1 & E1 & <- & H1 & Hi1 & He & Hu1 & Hc1)].
  { unfold mbind, M_bind. rewrite En. exists [], (op_dev op), oflag, ops, [], s. by rewrite <- Eop. }
  rewrite (bind_eval _ _ _ _ _ E1).
  assert (Forall (fun op => is_device s1 (op_dev op)) ops) as Ho1 by (eapply Forall_impl; [exact Ho|]; intros op Hi; by apply Hi1).
  specialize (IH s1 H1 Ho1). destruct (dev_run ops s1) as [[es s']|] eqn:Er.
  - rewrite (bind_eval _ _ _ _ _ Er). destruct IH as (Em & H' & Hes & Hu'). split_and!.
    + cbn [fmap list_fmap]. by rewrite Em.
    + done.
    + split; [done|]. eapply events_ok_ext; [..|exact Hes]; [done|]. intros dev. by rewrite Hu1.
    + intros dev. rewrite Hu'. apply (users_after_ext es). intros dev'. by rewrite Hu1.
  - unfold mbind at 1, M_bind at 1. rewrite Er. destruct IH as (ops1 & dev & oflag & ops2 & es1 & s2 & -> & E2 & Hu).
    exists (ev_op e :: ops1), dev, oflag, ops2, (e :: es1), s2. split; [done|]. split; [|done].
    cbn [dev_run]. by rewrite (bind_eval _ _ _ _ _ E1), (bind_eval _ _ _ _ _ E2).
Qed.

(** C30: Whatever is done with registered devices, in any order, and whatever
    their drivers answer and write into the open flag, each driver sees the
    protocol: it is initialised successfully at most once, and before it is
    opened; a stand-alone device is opened only when it has no user; it is
    closed exactly when the last user leaves; it is read and written only while
    it has users, and then with the arguments of the caller; and the reference
    count is the number of users. No assertion fails before some device that has
    255 users is opened once more: a sequence of operations either runs to its
    end, or comes to such an opening. *)
Theorem device_users_are_counted ops s : devices_ok s -> Forall (fun op => is_device s (op_dev op)) ops ->
  match dev_run ops s with
  | Some (es, s') => run_ok ops s es s' /\ (forall dev, inits dev es <= 1)%nat
  | None => exists ops1 dev oflag ops2 es1 s1, ops = ops1 ++ DOpen dev oflag :: ops2 /\ dev_run ops1 s = Some (es1, s1) /\
      us_users (usages s1 dev) = 255
  end.
Proof.
  intros H Ho. pose proof (dev_run_ok ops s H Ho) as R. destruct (dev_run ops s) as [[es s']|]; [|done]. split; [done|].
  intros dev. destruct R as (_ & _ & He & _). pose proof (initialised_once _ _ dev _ He). destruct (us_inited _); lia.
Qed.

(** ** Registration *)

Lemma rt_device_find_ok s name text : devices_ok s -> str_at (o_mem (ds_obj s)) name text ->
  exists s', rt_device_find name s = Some (find_entry text (entries (ds_obj s) (class_of RT_Object_Class_Device)), s') /\
    registry_ok (ds_obj s') /\ (forall i, entries (ds_obj s') i = entries (ds_obj s) i) /\ ds_dev s' = ds_dev s /\ ds_calls s' = ds_calls s.
Proof.
  intros [H _] Hs. destruct (find_object_of_ok RT_Object_Class_Device name text (ds_obj s) H ltac:(done) Hs) as (o & E & Ho & En & _).
  unfold rt_device_find, in_objects. rewrite E. by eexists.
Qed.

Lemma entries_objects s i : e_object <$> entries s i = o_lists s i.
Proof. unfold entries. rewrite <- list_fmap_compose. induction (o_lists s i) as [|a l IH]; [done|]. cbn [fmap list_fmap]. by f_equal. Qed.

Lemma find_keeps s name text s' : devices_ok s -> str_at (o_mem (ds_obj s)) name text -> rt_device_find name s = Some (find_entry text (entries (ds_obj s) (class_of RT_Object_Class_Device)), s') ->
  o_lists (ds_obj s') = o_lists (ds_obj s) /\ o_mem (ds_obj s') = o_mem (ds_obj s).
Proof.
  intros [H _] Hs. unfold rt_device_find, in_objects. destruct (if_running_eval rt_enter_critical _ H (enter_eval _ H)) as (s1 & E1 & M1).
  destruct (moved_ok _ s1 H M1) as (H1 & _ & Em1 & El1).
  destruct (if_running_eval rt_exit_critical s1 H1 (exit_eval s1 H1)) as (s2 & E2 & M2). destruct (moved_ok s1 s2 H1 M2) as (_ & _ & Em2 & El2).
  unfold find_object_of. rewrite (get_information_ok RT_Object_Class_Device ltac:(done)). munfold. rewrite E1, E2. intros [= _ <-]. simpl. split; congruence.
Qed.

(** A device is registered unless one is there whose name agrees in the first
    ten characters; then it has no users, and is found. *)
Lemma rt_device_register_ok s dev name flags text d : devices_ok s -> ds_dev s !! dev = Some d ->
  obj_pre (OInit dev RT_Object_Class_Device name) text (ds_obj s) ->
  let named := find_entry text (entries (ds_obj s) (class_of RT_Object_Class_Device)) in
  exists r s', rt_device_register dev name flags s = Some (r, s') /\ devices_ok s' /\
    (is_Some named -> r = - RT_ERROR /\ (forall i, entries (ds_obj s') i = entries (ds_obj s) i) /\ ds_dev s' = ds_dev s) /\
    (named = None -> r = RT_EOK /\ usages s' dev = Usage (inited (set_flag (fun _ => flags) d)) 0 /\
      (forall dev', dev' <> dev -> usages s' dev' = usages s dev') /\
      (forall i, entries (ds_obj s') i = add_entry RT_Object_Class_Device (Entry dev true (short text)) (entries (ds_obj s)) i)).
Proof.
  intros H E Hp. pose proof Hp as (_ & Hs & Hz & _). destruct (rt_device_find_ok s name text H Hs) as (s1 & E1 & H1 & En1 & Ed1 & _).
  destruct (find_keeps s name text s1 H Hs E1) as [El1 Em1]. unfold rt_device_register. rewrite decide_False by done. rewrite (bind_eval _ _ _ _ _ E1).
  destruct (find_entry text _) as [other|].
  - exists (- RT_ERROR), s1. split; [done|]. split; [|split; [done|by intros ?]]. split; [done|]. intros dev' Hv. rewrite Ed1. apply H.
    unfold is_device in *. by rewrite <- El1.
  - assert (obj_pre (OInit dev RT_Object_Class_Device name) text (ds_obj s1)) as Hp1.
    { destruct Hp as (Hc & _ & Hu). split; [done|]. split; [by rewrite Em1|]. by eapply unmoved_memory. }
    destruct (rt_object_init_ok dev RT_Object_Class_Device name text (ds_obj s1) H1 Hp1) as (o & Eo & Ho & Eno & _).
    assert (rt_object_init dev RT_Object_Class_Device name (ds_obj s1) = Some (tt, o)) as Ei.
    { revert Eo. unfold obj_exec. munfold. destruct (rt_object_init _ _ _ _) as [[[] o']|]; [|done]. by intros [= ->]. }
    set (s2 := DState o (ds_dev s1) (ds_drv s1) (ds_calls s1) (ds_console s1)).
    rewrite (bind_eval (in_objects _) _ s1 tt s2) by (unfold in_objects; by rewrite Ei).
    pose proof (touched_refl s2 dev d Ho ltac:(simpl; by rewrite Ed1)) as T2.
    destruct (touched_set _ _ _ _ _ (set_flag (fun _ => flags)) T2) as (s3 & E3 & T3). rewrite (bind_eval _ _ _ _ _ E3).
    destruct (touched_set _ _ _ _ _ (set_ref_count (fun _ => 0)) T3) as (s4 & E4 & T4). rewrite (bind_eval _ _ _ _ _ E4).
    destruct (touched_set _ _ _ _ _ (set_open_flag (fun _ => 0)) T4) as (s5 & E5 & T5). rewrite (bind_eval _ _ _ _ _ E5).
    exists RT_EOK, s5. split; [done|]. destruct T5 as [T5a T5b Tm T5c _]. simpl in T5b, Tm, T5c. rewrite Ed1 in T5c. split; [|split; [by intros [? ?]|intros _; split; [done|]]].
    + split; [done|]. intros dev' Hv. rewrite T5c. destruct (decide (dev = dev')) as [<-|Hne]; [rewrite lookup_insert_eq; by eexists|].
      rewrite lookup_insert_ne by done. apply H. unfold is_device in *. rewrite T5b in Hv.
      rewrite <- entries_objects, Eno in Hv. cbn [snd obj_spec] in Hv. unfold add_entry in Hv. rewrite fn_lookup_insert in Hv.
      cbn [fmap list_fmap] in Hv. rewrite entries_objects, El1 in Hv. by apply elem_of_cons in Hv as [->|Hv].
    + split; [|split].
      * unfold usages. rewrite T5c, lookup_insert_eq. done.
      * intros dev' Hne. unfold usages. by rewrite T5c, lookup_insert_ne.
      * intros i. cbn [snd obj_spec] in Eno. unfold add_entry in *.
        assert (entries (ds_obj s5) i = entries o i) as ->.
        { unfold entries. by rewrite T5b, Tm. }
        rewrite Eno. destruct (decide (class_of RT_Object_Class_Device = i)) as [<-|]; [rewrite !fn_lookup_insert; f_equal; apply En1|rewrite !fn_lookup_insert_ne by done; apply En1].
Qed.

(** A device that is taken out is not found any more, and its record stays. *)
Lemma rt_device_unregister_ok s dev : devices_ok s -> is_device s dev -> e_static (entry_at (o_mem (ds_obj s)) dev) = true ->
  exists s', rt_device_unregister dev s = Some (RT_EOK, s') /\ devices_ok s' /\ ds_dev s' = ds_dev s /\
    forall i, entries (ds_obj s') i = drop_entry dev (entries (ds_obj s)) i.
Proof.
  intros [H Hd] Hi Hs. destruct (rt_object_detach_ok dev [] (ds_obj s) H ltac:(by eexists)) as (o & Eo & Ho & Eno & _).
  assert (rt_object_detach dev (ds_obj s) = Some (tt, o)) as Ei.
  { revert Eo. unfold obj_exec. munfold. destruct (rt_object_detach _ _) as [[[] o']|]; [|done]. by intros [= ->]. }
  unfold rt_device_unregister. rewrite (bind_eval _ _ _ _ _ (check_device_eval s dev H Hi)).
  rewrite (bind_eval (in_objects _) _ s true s); [|unfold in_objects; rewrite (is_systemobject_ok _ _ _ H Hi), Hs; by destruct s].
  cbn [rt_assert]. rewrite (bind_eval (mret tt) _ s tt s) by done.
  set (s' := DState o (ds_dev s) (ds_drv s) (ds_calls s) (ds_console s)). rewrite (bind_eval (in_objects _) _ s tt s') by (unfold in_objects; by rewrite Ei).
  exists s'. split; [done|]. split; [split; [done|]|done]. intros dev' Hv. apply Hd. unfold is_device in *. simpl in Hv.
  rewrite <- entries_objects, Eno in Hv. cbn [snd obj_spec] in Hv. unfold drop_entry, entries in Hv. rewrite filter_entries in Hv.
  rewrite <- (entries_objects (ds_obj s)). unfold entries. apply list_elem_of_fmap in Hv as (e & -> & He).
  apply list_elem_of_fmap in He as (a & -> & Ha). apply elem_of_lremove in Ha as [_ Ha]. apply list_elem_of_fmap. eexists. split; [|by apply list_elem_of_fmap_2]. done.
Qed.

(** [rt_device_destroy] fails an assertion whatever it is given: the type of a
    device is [RT_Object_Class_Device], without [RT_Object_Class_Static], only if
    it has been made with [rt_object_allocate], and none is. *)
Lemma rt_device_destroy_fails dev s :
  o_mem (ds_obj s) (object_type dev) = 0 \/ o_mem (ds_obj s) (object_type dev) = Z.lor RT_Object_Class_Device RT_Object_Class_Static ->
  rt_device_destroy dev s = None.
Proof.
  intros Ht. unfold rt_device_destroy, check_device, in_objects, rt_object_get_type, rt_object_is_systemobject, read_mem, rt_assert. munfold.
  destruct (bool_decide (dev <> 0)); [|done]. cbv beta iota. cbn [ds_obj]. destruct Ht as [E|E]; rewrite E; [done|]. simpl. by rewrite E.
Qed.
End device.

(** ** A concrete device *)

Definition demo_ops (init_result open_result close_result : Z) : device_ops := DeviceOps
  (Some (fun n : Z => (init_result, n))) (Some (fun oflag _ n => (open_result, Z.land (Z.lor oflag RT_DEVICE_FLAG_STREAM) 0xff, n + 1))) (Some (fun n => (close_result, n - 1)))
  (Some (fun _ _ size n => (size, n))) None None.
Definition demo_device (ops : device_ops) : dstate := DState demo_objects {[ 100 := Device 0 0 0 0 None None ops ]} 0 [] None.
Definition registered_device (flags : Z) (ops : device_ops) : dstate :=
  from_option snd (demo_device ops) (rt_device_register 100 16 flags (demo_device ops)).

Lemma registered_device_ok flags ops : devices_ok (registered_device flags ops) /\ is_device (registered_device flags ops) 100 /\
  usages (registered_device flags ops) 100 = Usage (inited (Device 0 flags 0 0 None None ops)) 0.
Proof.
  destruct (rt_device_register_ok (demo_device ops) 100 16 flags [97; 97; 98] (Device 0 0 0 0 None None ops)) as (r & s' & E & H & _ & Hn).
  - split; [apply demo_objects_ok|]. by intros dev ?%elem_of_nil.
  - reflexivity.
  - split; [done|]. split; [done|]. split; [done|]. split; [done|]. split; [by right|]. by intros i a ?%elem_of_nil.
  - destruct (Hn eq_refl) as (_ & Hu & _ & He). unfold registered_device. rewrite E. simpl. split; [done|]. split; [|done].
    unfold is_device. rewrite <- entries_objects, He. unfold add_entry. rewrite fn_lookup_insert. by left.
Qed.

(** Two users, of which each reads once, and one that comes too late. *)
Definition demo_use : list dev_op :=
  [DOpen 100 0; DOpen 100 0; DRead 100 0 0 8; DClose 100; DRead 100 0 0 8; DClose 100; DRead 100 0 0 8].

Example demo_use_calls :
  (fun r => (concat (ev_calls <$> fst r), us_users (usages (snd r) 100))) <$> dev_run demo_use (registered_device 0 (demo_ops 0 0 0))
  = Some ([CInit 0; COpen 0 0; COpen 0 0; CRead 0 0 8 8; CRead 0 0 8 8; CClose 0], 0).
Proof. by vm_compute. Qed.

Lemma device_users_are_counted_witness : exists es s', dev_run demo_use (registered_device 0 (demo_ops 0 0 0)) = Some (es, s') /\
  ev_op <$> es = demo_use /\ (inits 100 es <= 1)%nat.
Proof.
  destruct (registered_device_ok 0 (demo_ops 0 0 0)) as (H & Hi & Hu).
  pose proof (device_users_are_counted demo_use (registered_device 0 (demo_ops 0 0 0)) H) as R. pose proof demo_use_calls as Ec.
  destruct (dev_run demo_use _) as [[es s']|]; [|discriminate Ec]. destruct R as [(Eo & _) Hin].
  - repeat (apply Forall_cons; split; [exact Hi|]). apply Forall_nil. exact I.
  - exists es, s'. split; [reflexivity|]. split; [exact Eo|apply Hin].
Defined.

(** ** What goes wrong *)

(** A stand-alone device that fails to close can be neither opened nor closed. *)
Example standalone_is_stuck :
  option_map (fun r => map ev_result (fst r)) (dev_run [DOpen 100 0; DClose 100; DOpen 100 0; DClose 100] (registered_device RT_DEVICE_FLAG_STANDALONE (demo_ops 0 0 (-1))))
  = Some [RT_EOK; -1; - RT_EBUSY; - RT_ERROR].
Proof. by vm_compute. Qed.

(** The answer [-RT_ENOSYS] of [rt_device_open] means that the device is open if
    it comes from the driver's [open], and that it is not if from its [init]. *)
Example enosys_is_ambiguous :
  let run ops := option_map (fun r => (map ev_result (fst r), us_users (usages (snd r) 100))) (dev_run [DOpen 100 0] (registered_device 0 ops)) in
  run (demo_ops 0 (- RT_ENOSYS) 0) = Some ([- RT_ENOSYS], 1) /\ run (demo_ops (- RT_ENOSYS) 0 0) = Some ([- RT_ENOSYS], 0).
Proof. split; by vm_compute. Qed.

(** A device that cannot be opened becomes the console, and what is put on it is
    lost. *)
Example console_is_not_open :
  let m := rt_console_set_device 16;; rt_kputs 8 16 in
  option_map (fun r => (ds_console (snd r), ds_calls (snd r))) (m (registered_device 0 (demo_ops 0 (-1) 0))) = Some (Some 100, [(100, CInit 0); (100, COpen 67 (-1))]).
Proof. by vm_compute. Qed.
