(* ===== verification/Mem.v ===== *)
(** * Mem: the heap

    mem.c: the allocator of the kernel ([RT_USING_SMALL_MEM], with
    [RT_MEM_STATS]).  A header is found by its offset from [heap_ptr]; a pointer
    that is handed out is an address, 0 being [RT_NULL].  Every operation runs
    while [heap_sem] is held, so it is one step; hooks and the log are left out.

    - [heap_bytes] is the memory behind the headers, as the users see it.
    - A loop that runs out of fuel has no result; [heap_fuel] is enough because
      a block has at least 24 bytes. *)

From S2P Require Import Prelude Bytes KString.

(** ** Data *)

Definition HEAP_MAGIC : Z := 0x1ea0.
Definition MIN_SIZE : Z := 12.
Definition MIN_SIZE_ALIGNED : Z := RT_ALIGN MIN_SIZE 8.
(** [sizeof(struct heap_mem)] is 12. *)
Definition SIZEOF_STRUCT_MEM : Z := RT_ALIGN 12 8.

Record heap_mem := HeapMem { magic : Z; used : Z; next : Z; prev : Z }.

Record heap := Heap {
  heap_ptr : Z;
  heap_end : Z;                    (* an offset *)
  lfree : Z;                       (* an offset *)
  mem_size_aligned : Z;
  used_mem : Z;
  max_mem : Z;
  heap_at : gmap Z heap_mem;
  heap_bytes : mem
}.

Abbreviation HM := (M heap).

Definition with_lfree p h := Heap (heap_ptr h) (heap_end h) p (mem_size_aligned h) (used_mem h) (max_mem h) (heap_at h) (heap_bytes h).
Definition with_stats u m h := Heap (heap_ptr h) (heap_end h) (lfree h) (mem_size_aligned h) u m (heap_at h) (heap_bytes h).
Definition with_heap_at f h := Heap (heap_ptr h) (heap_end h) (lfree h) (mem_size_aligned h) (used_mem h) (max_mem h) (f (heap_at h)) (heap_bytes h).
Definition with_bytes f h := Heap (heap_ptr h) (heap_end h) (lfree h) (mem_size_aligned h) (used_mem h) (max_mem h) (heap_at h) (f (heap_bytes h)).

(** The header at an offset, and changing one of its fields. *)
Definition header (p : Z) : HM heap_mem := deref (fun h => heap_at h !! p).
Definition put_header (p : Z) (m : heap_mem) : HM unit := modify (with_heap_at <[p := m]>).
Definition set_next (p n : Z) : HM unit := m ← header p; put_header p (HeapMem (magic m) (used m) n (prev m)).
Definition set_prev (p n : Z) : HM unit := m ← header p; put_header p (HeapMem (magic m) (used m) (next m) n).
Definition set_used (p u : Z) : HM unit := m ← header p; put_header p (HeapMem (magic m) u (next m) (prev m)).
Definition set_magic (p : Z) : HM unit := m ← header p; put_header p (HeapMem HEAP_MAGIC (used m) (next m) (prev m)).
Definition set_lfree (p : Z) : HM unit := modify (with_lfree p).

(** ** Operations *)

(** Join [mem] with the block behind it, if that is free. *)
Definition plug_forward (mem : Z) : HM unit :=
  e ← gets heap_end;
  m ← header mem;
  let nmem := next m in
  n ← header nmem;
  when (bool_decide (mem <> nmem /\ used n = 0 /\ nmem <> e))
    (lf ← gets lfree;
     when (bool_decide (lf = nmem)) (set_lfree mem);;
     set_next mem (next n);;
     set_prev (next n) mem).

(** Join [mem] with the block in front of it, if that is free. *)
Definition plug_backward (mem : Z) : HM unit :=
  m ← header mem;
  let pmem := prev m in
  p ← header pmem;
  when (bool_decide (pmem <> mem /\ used p = 0))
    (lf ← gets lfree;
     when (bool_decide (lf = mem)) (set_lfree pmem);;
     set_next pmem (next m);;
     set_prev (next m) pmem).

Definition plug_holes (mem : Z) : HM unit :=
  e ← gets heap_end;
  m ← header mem;
  rt_assert (bool_decide (0 <= mem));;
  rt_assert (bool_decide (mem < e));;
  rt_assert (bool_decide (used m = 0));;
  plug_forward mem;;
  plug_backward mem.

(** The heap between two addresses; without room for it nothing is done. *)
Definition rt_system_heap_init (begin_addr end_addr : Z) : HM unit :=
  let begin_align := RT_ALIGN begin_addr 8 in
  let end_align := RT_ALIGN_DOWN end_addr 8 in
  if decide (2 * SIZEOF_STRUCT_MEM < end_align /\ begin_align <= end_align - 2 * SIZEOF_STRUCT_MEM) then
    let size := end_align - begin_align - 2 * SIZEOF_STRUCT_MEM in
    let last := u32 (size + SIZEOF_STRUCT_MEM) in
    modify (fun h => Heap begin_align last 0 size (used_mem h) (max_mem h)
      (<[last := HeapMem HEAP_MAGIC 1 last last]> (<[0 := HeapMem HEAP_MAGIC 0 last 0]> (heap_at h))) (heap_bytes h))
  else mret tt.

Definition count_used (n : Z) : HM unit :=
  modify (fun h => let u := u32 (used_mem h + n) in with_stats u (if decide (max_mem h < u) then u else max_mem h) h).

(** [while (lfree->used && lfree != heap_end)] *)
Fixpoint next_free (fuel : nat) : HM unit :=
  match fuel with
  | O => undefined
  | S fuel =>
    lf ← gets lfree; e ← gets heap_end; m ← header lf;
    if decide (used m <> 0 /\ lf <> e) then set_lfree (next m);; next_free fuel else mret tt
  end.

Definition heap_fuel (h : heap) : nat := S (S (Z.to_nat (mem_size_aligned h / 24))).

(** The block at [ptr] becomes a used one, split if another one fits behind it. *)
Definition mark_block (ptr size : Z) : HM unit :=
  m ← header ptr;
  msize ← gets mem_size_aligned;
  if decide (u32 (size + SIZEOF_STRUCT_MEM + MIN_SIZE_ALIGNED) <= u32 (next m - u32 (ptr + SIZEOF_STRUCT_MEM))) then
    let ptr2 := u32 (ptr + SIZEOF_STRUCT_MEM + size) in
    put_header ptr2 (HeapMem HEAP_MAGIC 0 (next m) ptr);;
    set_next ptr ptr2;;
    set_used ptr 1;;
    when (bool_decide (next m <> u32 (msize + SIZEOF_STRUCT_MEM))) (set_prev (next m) ptr2);;
    count_used (size + SIZEOF_STRUCT_MEM)
  else
    set_used ptr 1;;
    count_used (next m - ptr).

(** The block at [ptr] is big enough: take it. *)
Definition take_block (ptr size : Z) : HM Z :=
  mark_block ptr size;;
  set_magic ptr;;
  lf ← gets lfree;
  when (bool_decide (ptr = lf))
    (fuel ← gets heap_fuel;
     next_free fuel;;
     lf ← gets lfree; e ← gets heap_end; m ← header lf;
     rt_assert (bool_decide (lf = e \/ used m = 0)));;
  hp ← gets heap_ptr;
  e ← gets heap_end;
  rt_assert (bool_decide (hp + ptr + SIZEOF_STRUCT_MEM + size <= hp + e));;
  rt_assert (bool_decide ((hp + ptr + SIZEOF_STRUCT_MEM) mod 8 = 0));;
  rt_assert (bool_decide (Z.land (hp + ptr) 7 = 0));;
  mret (hp + ptr + SIZEOF_STRUCT_MEM).

Fixpoint malloc_loop (fuel : nat) (ptr size : Z) : HM Z :=
  match fuel with
  | O => undefined
  | S fuel =>
    msize ← gets mem_size_aligned;
    if decide (ptr < u32 (msize - size)) then
      m ← header ptr;
      if decide (used m = 0 /\ size <= u32 (next m - u32 (ptr + SIZEOF_STRUCT_MEM)))
      then take_block ptr size
      else malloc_loop fuel (next m) size
    else mret 0
  end.

Definition rt_malloc (size : Z) : HM Z :=
  if decide (size = 0) then mret 0
  else
    let size := RT_ALIGN size 8 in
    msize ← gets mem_size_aligned;
    if decide (msize < size) then mret 0
    else
      let size := if decide (size < MIN_SIZE_ALIGNED) then MIN_SIZE_ALIGNED else size in
      fuel ← gets heap_fuel;
      ptr ← gets lfree;
      malloc_loop fuel ptr size.

Definition rt_free (rmem : Z) : HM unit :=
  if decide (rmem = 0) then mret tt
  else
    hp ← gets heap_ptr; e ← gets heap_end;
    rt_assert (bool_decide (Z.land rmem 7 = 0));;
    rt_assert (bool_decide (hp <= rmem /\ rmem < hp + e));;
    let mem := rmem - SIZEOF_STRUCT_MEM - hp in
    m ← header mem;
    rt_assert (bool_decide (used m <> 0));;
    rt_assert (bool_decide (magic m = HEAP_MAGIC));;
    set_used mem 0;;
    set_magic mem;;
    lf ← gets lfree;
    when (bool_decide (mem < lf)) (set_lfree mem);;
    modify (fun h => with_stats (u32 (used_mem h - (next m - mem))) (max_mem h) h);;
    plug_holes mem.

Definition rt_realloc (rmem newsize : Z) : HM Z :=
  let newsize := RT_ALIGN newsize 8 in
  msize ← gets mem_size_aligned;
  if decide (msize < newsize) then mret 0
  else if decide (newsize = 0) then rt_free rmem;; mret 0
  else if decide (rmem = 0) then rt_malloc newsize
  else
    hp ← gets heap_ptr; e ← gets heap_end;
    if decide (rmem < hp \/ hp + e <= rmem) then mret rmem
    else
      let ptr := rmem - SIZEOF_STRUCT_MEM - hp in
      m ← header ptr;
      let size := u32 (next m - ptr - SIZEOF_STRUCT_MEM) in
      if decide (size = newsize) then mret rmem
      else if decide (u32 (newsize + SIZEOF_STRUCT_MEM + MIN_SIZE) < size) then
        modify (fun h => with_stats (u32 (used_mem h - (size - newsize))) (max_mem h) h);;
        let ptr2 := u32 (ptr + SIZEOF_STRUCT_MEM + newsize) in
        put_header ptr2 (HeapMem HEAP_MAGIC 0 (next m) ptr);;
        set_next ptr ptr2;;
        when (bool_decide (next m <> u32 (msize + SIZEOF_STRUCT_MEM))) (set_prev (next m) ptr2);;
        plug_holes ptr2;;
        mret rmem
      else
        nmem ← rt_malloc newsize;
        when (bool_decide (nmem <> 0))
          (modify (with_bytes (rt_memcpy nmem rmem (if decide (size < newsize) then size else newsize)));;
           rt_free rmem);;
        mret nmem.

Definition rt_calloc (count size : Z) : HM Z :=
  p ← rt_malloc (u32 (count * size));
  when (bool_decide (p <> 0)) (modify (with_bytes (rt_memset p 0 (u32 (count * size)))));;
  mret p.

(** [total], [used] and [max_used] *)
Definition rt_memory_info : HM (Z * Z * Z) := gets (fun h => (mem_size_aligned h, used_mem h, max_mem h)).

(** kservice.c; [fuel] is for [rt_strlen]. *)
Definition rt_strdup (fuel : nat) (s : Z) : HM Z :=
  len ← deref (fun h => rt_strlen fuel s (heap_bytes h));
  let len := u32 (len + 1) in
  tmp ← rt_malloc len;
  when (bool_decide (tmp <> 0)) (modify (with_bytes (rt_memcpy tmp s len)));;
  mret tmp.

(** ** Blocks *)

(** A heap as the list of its blocks: their sizes, headers included, and whether
    they are used. *)
Abbreviation blocks := (list (Z * bool)).

Definition total (bs : blocks) : Z := foldr (fun b n => fst b + n) 0 bs.
(** The offset of the last of the blocks from [p] on, [q] being the block in front. *)
Fixpoint last_at (q p : Z) (bs : blocks) : Z :=
  match bs with [] => q | (len, _) :: bs => last_at p (p + len) bs end.

Definition head_of (q p : Z) (b : Z * bool) : heap_mem := HeapMem HEAP_MAGIC (if snd b then 1 else 0) (p + fst b) q.

(** The headers of the blocks from [p] on. *)
Fixpoint seg (m : gmap Z heap_mem) (q p : Z) (bs : blocks) : Prop :=
  match bs with
  | [] => True
  | b :: bs => m !! p = Some (head_of q p b) /\ seg m p (p + fst b) bs
  end.

Definition used_total (bs : blocks) : Z := foldr (fun b n => (if snd b : bool then fst b else 0) + n) 0 bs.

(** No free block behind a free block. *)
Fixpoint coalesced (bs : blocks) : Prop :=
  match bs with
  | b :: bs => (snd b = false -> match bs with c :: _ => snd c = true | [] => True end) /\ coalesced bs
  | [] => True
  end.

(** Free blocks merged with the free blocks behind them. *)
Fixpoint coalesce (bs : blocks) : blocks :=
  match bs with
  | [] => []
  | (n, u) :: bs =>
    if u : bool then (n, u) :: coalesce bs
    else match coalesce bs with (k, false) :: bs' => (n + k, false) :: bs' | bs' => (n, false) :: bs' end
  end.

(** The addresses handed out, with the room behind each; the first block is at [p]. *)
Fixpoint allocated (p : Z) (bs : blocks) : gmap Z Z :=
  match bs with
  | [] => ∅
  | (len, u) :: bs => if u : bool then <[p + 16 := len - 16]> (allocated (p + len) bs) else allocated (p + len) bs
  end.

(** [rt_realloc] leaves blocks of 24 bytes, [rt_malloc] at least 32. *)
Definition block_ok (b : Z * bool) : Prop := 24 <= fst b /\ fst b mod 8 = 0.

Lemma total_app l1 l2 : total (l1 ++ l2) = total l1 + total l2.
Proof. induction l1 as [|b l1 IH]; simpl; lia. Qed.
Lemma used_total_app l1 l2 : used_total (l1 ++ l2) = used_total l1 + used_total l2.
Proof. induction l1 as [|b l1 IH]; simpl; lia. Qed.
Lemma last_at_app l1 : forall q p l2, last_at q p (l1 ++ l2) = last_at (last_at q p l1) (p + total l1) l2.
Proof.
  induction l1 as [|[len u] l1 IH]; intros q p l2; simpl; [by rewrite Z.add_0_r|]. rewrite IH. f_equal. lia.
Qed.
Lemma seg_app m l1 : forall q p l2, seg m q p (l1 ++ l2) <-> seg m q p l1 /\ seg m (last_at q p l1) (p + total l1) l2.
Proof.
  induction l1 as [|[len u] l1 IH]; intros q p l2; simpl; [rewrite Z.add_0_r; tauto|].
  rewrite IH. replace (p + len + total l1) with (p + (len + total l1)) by lia. tauto.
Qed.
Lemma total_ok bs : Forall block_ok bs -> 0 <= total bs /\ total bs mod 8 = 0.
Proof.
  induction 1 as [|[len u] bs [H1 H2] _ [IH1 IH2]]; simpl in *; [done|]. split; [lia|].
  rewrite Z.add_mod, H2, IH2 by lia. done.
Qed.
Lemma total_length bs : Forall block_ok bs -> 24 * Z.of_nat (length bs) <= total bs.
Proof. induction 1 as [|[len u] bs [H1 _] _ IH]; simpl in *; lia. Qed.
Lemma used_total_le bs : Forall block_ok bs -> 0 <= used_total bs <= total bs.
Proof. induction 1 as [|[len [|]] bs [H1 _] _ IH]; simpl in *; lia. Qed.

Lemma last_at_range bs : forall q p, Forall block_ok bs -> bs <> [] -> p <= last_at q p bs < p + total bs.
Proof.
  induction bs as [|[len u] bs IH]; intros q p H Hne; [done|]. apply Forall_cons in H as [[H1 H2] H]. simpl in *.
  destruct bs as [|b bs]; [simpl; lia|]. pose proof (IH p (p + len) H ltac:(done)). simpl in *. lia.
Qed.

(** Changes outside of the blocks do not matter. *)
Lemma seg_frame m m' bs : forall q p, Forall block_ok bs -> (forall k, p <= k < p + total bs -> m' !! k = m !! k) ->
  seg m q p bs -> seg m' q p bs.
Proof.
  induction bs as [|[len u] bs IH]; intros q p H Hm; [done|]. apply Forall_cons in H as [[H1 _] H]. simpl in *.
  pose proof (total_ok bs H) as [Ht _]. intros [E Hs]. split; [rewrite Hm; [done|lia]|].
  apply IH; [done| |done]. intros k Hk. apply Hm. lia.
Qed.

(** ** The invariant *)

(** The blocks fill the heap; the header at its end is used and its own successor. *)
Record heap_wf (h : heap) (bs : blocks) : Prop := HeapWf {
  wf_ptr : 0 < heap_ptr h /\ heap_ptr h mod 8 = 0;
  wf_end : heap_end h = mem_size_aligned h + 16;
  wf_room : 16 <= mem_size_aligned h;
  wf_bound : heap_ptr h + heap_end h + 16 <= 2 ^ 32;
  wf_blocks : Forall block_ok bs;
  wf_nonempty : bs <> [];
  wf_total : total bs = heap_end h;
  wf_seg : seg (heap_at h) 0 0 bs;
  wf_last : exists q, heap_at h !! heap_end h = Some (HeapMem HEAP_MAGIC 1 (heap_end h) q);
  wf_used : used_mem h = used_total bs;
  wf_bytes : bytes_ok (heap_bytes h)
}.

Definition starts_free (bs : blocks) : Prop := match bs with b :: _ => snd b = false | [] => True end.
Definition all_used (bs : blocks) : Prop := Forall (fun b => snd b = true) bs.

(** [lfree] is the free block behind [lo], or the end of the heap. *)
Record heap_lf (h : heap) (lo hi : blocks) : Prop := HeapLf {
  lf_wf : heap_wf h (lo ++ hi);
  lf_lfree : lfree h = total lo;
  lf_free : starts_free hi
}.

(** Between two operations no free block is behind a free one. *)
Definition heap_ok (h : heap) (lo hi : blocks) : Prop := heap_lf h lo hi /\ coalesced (lo ++ hi).

Lemma sizeof_struct_mem : SIZEOF_STRUCT_MEM = 16. Proof. reflexivity. Qed.
Lemma min_size_aligned : MIN_SIZE_ALIGNED = 16. Proof. reflexivity. Qed.

(** The header of a block in the middle. *)
Lemma seg_middle m q p l1 b l2 : seg m q p (l1 ++ b :: l2) -> m !! (p + total l1) = Some (head_of (last_at q p l1) (p + total l1) b).
Proof. intros [_ [E _]]%seg_app. done. Qed.

(** ** Changing headers *)

Lemma header_eval p m h : heap_at h !! p = Some m -> header p h = Some (m, h).
Proof. intros E. unfold header, deref. by rewrite E. Qed.

Lemma set_next_eval p n m h : heap_at h !! p = Some m ->
  set_next p n h = Some (tt, with_heap_at <[p := HeapMem (magic m) (used m) n (prev m)]> h).
Proof. intros E. unfold set_next. by rewrite (bind_eval _ _ _ _ _ (header_eval _ _ _ E)). Qed.
Lemma set_prev_eval p n m h : heap_at h !! p = Some m ->
  set_prev p n h = Some (tt, with_heap_at <[p := HeapMem (magic m) (used m) (next m) n]> h).
Proof. intros E. unfold set_prev. by rewrite (bind_eval _ _ _ _ _ (header_eval _ _ _ E)). Qed.
Lemma set_used_eval p u m h : heap_at h !! p = Some m ->
  set_used p u h = Some (tt, with_heap_at <[p := HeapMem (magic m) u (next m) (prev m)]> h).
Proof. intros E. unfold set_used. by rewrite (bind_eval _ _ _ _ _ (header_eval _ _ _ E)). Qed.
Lemma set_magic_eval p m h : heap_at h !! p = Some m ->
  set_magic p h = Some (tt, with_heap_at <[p := HeapMem HEAP_MAGIC (used m) (next m) (prev m)]> h).
Proof. intros E. unfold set_magic. by rewrite (bind_eval _ _ _ _ _ (header_eval _ _ _ E)). Qed.

(** The blocks behind a change keep their headers, but for the link of the first. *)
Lemma seg_relink m m' q q' p bs : Forall block_ok bs -> seg m q p bs ->
  (forall k, p < k < p + total bs -> m' !! k = m !! k) ->
  match bs with b :: _ => m' !! p = Some (head_of q' p b) | [] => True end -> seg m' q' p bs.
Proof.
  destruct bs as [|[len u] bs]; [done|]. intros [[H1 _] H]%Forall_cons [_ Hs] Hm Hh. split; [done|]. simpl in *.
  apply (seg_frame m); [done| |done]. intros k Hk. apply Hm. lia.
Qed.

(** The blocks [mid] in the middle replaced by [mid']. *)
Lemma seg_replace m m' l1 mid mid' l2 : Forall block_ok (l1 ++ mid ++ l2) -> total mid' = total mid ->
  seg m 0 0 (l1 ++ mid ++ l2) ->
  (forall k, 0 <= k < total l1 -> m' !! k = m !! k) ->
  seg m' (last_at 0 0 l1) (total l1) mid' ->
  (forall k, total (l1 ++ mid) < k < total (l1 ++ mid ++ l2) -> m' !! k = m !! k) ->
  match l2 with b :: _ => m' !! total (l1 ++ mid) = Some (head_of (last_at 0 0 (l1 ++ mid')) (total (l1 ++ mid)) b) | [] => True end ->
  seg m' 0 0 (l1 ++ mid' ++ l2).
Proof.
  intros [H1 [Hm H2]%Forall_app]%Forall_app Ht. rewrite !seg_app, !Z.add_0_l. intros (S1 & S2 & S3) F1 Smid F2 Fh.
  rewrite !total_app, Ht in *. rewrite last_at_app, Z.add_0_l in Fh.
  split; [by apply (seg_frame m)|]. split; [done|]. apply (seg_relink m _ _ _ _ _ H2 S3); [|done].
  intros k Hk. apply F2. lia.
Qed.

(** A change of the heap that keeps what it is made of. *)
Lemma wf_change h bs m' bs' lf u mx : heap_wf h bs -> seg m' 0 0 bs' -> total bs' = total bs -> Forall block_ok bs' -> bs' <> [] ->
  (exists q, m' !! heap_end h = Some (HeapMem HEAP_MAGIC 1 (heap_end h) q)) -> u = used_total bs' ->
  heap_wf (Heap (heap_ptr h) (heap_end h) lf (mem_size_aligned h) u mx m' (heap_bytes h)) bs'.
Proof. intros [] ? ? ? ? ? ?. split; simpl; try done. congruence. Qed.

(** What is behind the blocks [pre]: a block, or the end. *)
Lemma behind h pre post : heap_wf h (pre ++ post) ->
  exists n, heap_at h !! total pre = Some n /\
    match post with
    | b :: _ => n = head_of (last_at 0 0 pre) (total pre) b
    | [] => total pre = heap_end h /\ exists q, n = HeapMem HEAP_MAGIC 1 (heap_end h) q
    end.
Proof.
  intros [_ _ _ _ _ _ Ht Hs [q Hq] _]. destruct post as [|b post].
  - rewrite app_nil_r in Ht. rewrite Ht. eexists. split; [exact Hq|]. split; [done|]. by exists q.
  - eexists. split; [exact (seg_middle _ _ _ _ _ _ Hs)|done].
Qed.

Lemma blocks_split pre post : Forall block_ok (pre ++ post) -> Forall block_ok pre /\ Forall block_ok post /\
  0 <= total pre /\ 0 <= total post /\ total pre mod 8 = 0.
Proof. intros [H1 H2]%Forall_app. pose proof (total_ok _ H1). pose proof (total_ok _ H2). tauto. Qed.

(** ** Joining blocks *)

(** Two free blocks, the second one's header forgotten. *)
Lemma join_wf h l1 a b l2 lf mx m' : heap_wf h (l1 ++ (a, false) :: (b, false) :: l2) ->
  m' !! total l1 = Some (HeapMem HEAP_MAGIC 0 (total l1 + a + b) (last_at 0 0 l1)) ->
  (forall n, heap_at h !! (total l1 + a + b) = Some n -> m' !! (total l1 + a + b) = Some (HeapMem (magic n) (used n) (next n) (total l1))) ->
  (forall k, k <> total l1 -> k <> total l1 + a + b -> m' !! k = heap_at h !! k) ->
  heap_wf (Heap (heap_ptr h) (heap_end h) lf (mem_size_aligned h) (used_mem h) mx m' (heap_bytes h)) (l1 ++ (a + b, false) :: l2).
Proof.
  intros Hwf H1 H2 H3. pose proof Hwf as [_ _ _ _ Hok _ Ht Hs _ Hu].
  apply blocks_split in Hok as Hsp. destruct Hsp as (Hok1 & Hok2 & T1 & _ & _).
  apply Forall_cons in Hok2 as [[Ha Ha8] Hok2]. apply Forall_cons in Hok2 as [[Hb Hb8] Hok2]. simpl in Ha, Ha8, Hb, Hb8.
  pose proof (total_ok l2 Hok2) as [T2 _]. rewrite total_app in Ht. simpl in Ht.
  destruct (behind h (l1 ++ [(a, false); (b, false)]) l2) as (n & En & Hn); [by rewrite <- app_assoc|].
  rewrite total_app in En, Hn. simpl total in En, Hn. replace (total l1 + (a + (b + 0))) with (total l1 + a + b) in En, Hn by lia.
  specialize (H2 n En).
  apply wf_change with (1 := Hwf).
  - apply (seg_replace (heap_at h) _ l1 [(a, false); (b, false)] [(a + b, false)] l2).
    + done.
    + simpl. lia.
    + done.
    + intros k Hk. apply H3; lia.
    + split; [|done]. rewrite H1. unfold head_of. simpl. do 2 f_equal. lia.
    + intros k Hk. rewrite !total_app in Hk. simpl in Hk. apply H3; lia.
    + destruct l2 as [|c l2]; [done|]. rewrite total_app. simpl total. replace (total l1 + (a + (b + 0))) with (total l1 + a + b) by lia.
      rewrite H2, Hn, !(last_at_app l1), Z.add_0_l. done.
  - rewrite !total_app. simpl. lia.
  - apply Forall_app. split; [done|]. constructor; [|done]. split; [simpl; lia|]. simpl. rewrite Z.add_mod, Ha8, Hb8 by lia. done.
  - by destruct l1.
  - destruct l2 as [|c l2].
    + destruct Hn as [He (q & ->)]. exists (total l1). rewrite <- He at 1. rewrite H2. done.
    + pose proof Hwf as [_ _ _ _ _ _ _ _ [q Hq] _]. exists q. rewrite H3; [done| |];
        apply Forall_cons in Hok2 as [[Hc _] Hok2]; pose proof (total_ok l2 Hok2); simpl in Ht; lia.
  - rewrite Hu, !used_total_app. simpl. lia.
Qed.

(** What an operation on the blocks leaves alone. *)
Definition frame (h h' : heap) : Prop :=
  heap_ptr h' = heap_ptr h /\ heap_end h' = heap_end h /\ mem_size_aligned h' = mem_size_aligned h /\
  max_mem h' = max_mem h /\ heap_bytes h' = heap_bytes h.

(** One step of an operation whose result is known. *)
Ltac hstep := erewrite bind_eval by first [reflexivity | apply header_eval; eassumption].

Lemma when_lfree (P : Prop) `{Decision P} p h :
  when (bool_decide P) (set_lfree p) h = Some (tt, with_lfree (if decide P then p else lfree h) h).
Proof. case_bool_decide; case_decide; try done. by destruct h. Qed.

(** Joining, as both halves of [plug_holes] do it. *)
Lemma join_eval h l1 a b l2 (P : Prop) `{Decision P} : heap_wf h (l1 ++ (a, false) :: (b, false) :: l2) ->
  exists h', (when (bool_decide P) (set_lfree (total l1));;
      set_next (total l1) (total l1 + a + b);; set_prev (total l1 + a + b) (total l1)) h = Some (tt, h') /\
    heap_wf h' (l1 ++ (a + b, false) :: l2) /\ frame h h' /\ lfree h' = (if decide P then total l1 else lfree h).
Proof.
  intros Hwf. pose proof Hwf as [_ _ _ _ Hok _ _ Hs _ _].
  apply seg_middle in Hs as Ea. rewrite Z.add_0_l in Ea.
  destruct (behind h (l1 ++ [(a, false); (b, false)]) l2) as (n & En & _); [by rewrite <- app_assoc|].
  rewrite total_app in En. simpl total in En. replace (total l1 + (a + (b + 0))) with (total l1 + a + b) in En by lia.
  apply blocks_split in Hok as (_ & Hok2 & T1 & _ & _).
  apply Forall_cons in Hok2 as [[Ha _] Hok2]. apply Forall_cons in Hok2 as [[Hb _] _]. simpl in Ha, Hb.
  eexists. erewrite bind_eval by apply when_lfree. erewrite bind_eval by (apply set_next_eval; exact Ea).
  rewrite (set_prev_eval _ _ n); [|simpl; rewrite lookup_insert_ne by lia; exact En].
  split; [reflexivity|]. split; [|done].
  apply (join_wf h l1 a b l2 _ _ _ Hwf); simpl.
  - rewrite lookup_insert_ne, lookup_insert_eq by lia. unfold head_of. done.
  - intros n' En'. rewrite lookup_insert_eq. congruence.
  - intros k H1 H2. rewrite !lookup_insert_ne by lia. done.
Qed.

Lemma plug_forward_joins h l1 a b l2 : heap_wf h (l1 ++ (a, false) :: (b, false) :: l2) ->
  exists h', plug_forward (total l1) h = Some (tt, h') /\ heap_wf h' (l1 ++ (a + b, false) :: l2) /\ frame h h' /\
    lfree h' = (if decide (lfree h = total l1 + a) then total l1 else lfree h).
Proof.
  intros Hwf. pose proof Hwf as [_ _ _ _ Hok _ Ht Hs _ _].
  apply seg_middle in Hs as Ea. rewrite Z.add_0_l in Ea.
  destruct (behind h (l1 ++ [(a, false)]) ((b, false) :: l2)) as (n & En & ->); [by rewrite <- app_assoc|].
  rewrite total_app in En. simpl total in En. rewrite Z.add_0_r in En.
  apply blocks_split in Hok as (_ & Hok2 & T1 & _ & _).
  apply Forall_cons in Hok2 as [[Ha _] Hok2]. apply Forall_cons in Hok2 as [[Hb _] Hok2]. simpl in Ha, Hb.
  pose proof (total_ok l2 Hok2) as [T2 _]. rewrite total_app in Ht. simpl in Ht.
  destruct (join_eval h l1 a b l2 (lfree h = total l1 + a) Hwf) as (h' & E & R). exists h'. split; [|exact R].
  unfold plug_forward. hstep. hstep. simpl. hstep.
  rewrite bool_decide_true by (simpl; lia). simpl. hstep. exact E.
Qed.

Lemma plug_forward_stays h l1 a l2 : heap_wf h (l1 ++ (a, false) :: l2) ->
  match l2 with (_, u) :: _ => u = true | [] => True end -> plug_forward (total l1) h = Some (tt, h).
Proof.
  intros Hwf Hu. pose proof Hwf as [_ _ _ _ _ _ _ Hs _ _].
  apply seg_middle in Hs as Ea. rewrite Z.add_0_l in Ea.
  destruct (behind h (l1 ++ [(a, false)]) l2) as (n & En & Hn); [by rewrite <- app_assoc|].
  rewrite total_app in En. simpl total in En. rewrite Z.add_0_r in En.
  unfold plug_forward. hstep. hstep. simpl. hstep.
  rewrite bool_decide_false; [done|]. intros (_ & H & _).
  destruct l2 as [|[b u] l2]; [destruct Hn as (_ & q & ->)|subst u n]; done.
Qed.

Lemma plug_backward_joins h l1 p a l2 : heap_wf h (l1 ++ (p, false) :: (a, false) :: l2) ->
  exists h', plug_backward (total l1 + p) h = Some (tt, h') /\ heap_wf h' (l1 ++ (p + a, false) :: l2) /\ frame h h' /\
    lfree h' = (if decide (lfree h = total l1 + p) then total l1 else lfree h).
Proof.
  intros Hwf. pose proof Hwf as [_ _ _ _ Hok _ _ Hs _ _].
  apply seg_middle in Hs as Ep. rewrite Z.add_0_l in Ep.
  destruct (behind h (l1 ++ [(p, false)]) ((a, false) :: l2)) as (n & En & ->); [by rewrite <- app_assoc|].
  rewrite total_app, last_at_app in En. simpl total in En. rewrite Z.add_0_r in En.
  apply blocks_split in Hok as (_ & Hok2 & _). apply Forall_cons in Hok2 as [[Hp _] _]. simpl in Hp.
  destruct (join_eval h l1 p a l2 (lfree h = total l1 + p) Hwf) as (h' & E & R). exists h'. split; [|exact R].
  unfold plug_backward. hstep. simpl. rewrite Z.add_0_l. hstep.
  rewrite bool_decide_true by (simpl; lia). simpl. hstep. exact E.
Qed.

Lemma plug_backward_stays h l1 a l2 : heap_wf h (l1 ++ (a, false) :: l2) ->
  match last l1 with Some (_, u) => u = true | None => True end -> plug_backward (total l1) h = Some (tt, h).
Proof.
  intros Hwf Hu. pose proof Hwf as [_ _ _ _ _ _ _ Hs _ _].
  apply seg_middle in Hs as Ea. rewrite Z.add_0_l in Ea. unfold plug_backward. hstep. simpl.
  destruct l1 as [|[p u] l1 _] using rev_ind.
  - change (last_at 0 0 []) with 0. change (total []) with 0 in *. hstep. rewrite bool_decide_false; [done|]. intros [? _]. done.
  - rewrite last_snoc in Hu. subst u. rewrite <- app_assoc in Hs. apply seg_middle in Hs as Ep. rewrite Z.add_0_l in Ep.
    rewrite last_at_app, Z.add_0_l. simpl. hstep. rewrite bool_decide_false; [done|]. intros [_ ?]. done.
Qed.

(** ** Merging *)

Lemma coalesced_coalesce bs : coalesced (coalesce bs).
Proof.
  induction bs as [|[n [|]] bs IH]; simpl; [done|done|].
  destruct (coalesce bs) as [|[k [|]] cs]; simpl in *; tauto.
Qed.
Lemma coalesce_id bs : coalesced bs -> coalesce bs = bs.
Proof.
  induction bs as [|[n [|]] bs IH]; simpl; [done| |]; intros [H Hc]; rewrite IH by done; [done|].
  destruct bs as [|[k [|]] bs]; [done..|]. by specialize (H eq_refl).
Qed.
Lemma coalesced_app l1 l2 : coalesced (l1 ++ l2) -> coalesced l1 /\ coalesced l2.
Proof.
  induction l1 as [|[n u] l1 IH]; simpl; [done|]. intros [H Hc]. apply IH in Hc as [H1 H2].
  split; [|done]. split; [|done]. destruct l1; [done|exact H].
Qed.
(** Nothing is merged across a used block. *)
Lemma coalesce_behind_used l1 l2 : coalesced l1 -> match last l1 with Some (_, u) => u = true | None => True end ->
  coalesce (l1 ++ l2) = l1 ++ coalesce l2.
Proof.
  induction l1 as [|[n u] l1 IH]; [done|]. intros [H Hc] Hl. cbn [app coalesce].
  destruct l1 as [|[k v] l1].
  - simpl in Hl. subst u. done.
  - rewrite IH by done. destruct u; [done|]. simpl. specialize (H eq_refl). simpl in H. by subst v.
Qed.
Lemma coalesce_behind_free a l2 : coalesced l2 ->
  coalesce ((a, false) :: l2) = match l2 with (b, false) :: l2' => (a + b, false) :: l2' | _ => (a, false) :: l2 end.
Proof. intros H. cbn [coalesce]. rewrite coalesce_id by done. by destruct l2 as [|[b [|]] l2]. Qed.

Lemma coalesce_two x y l : coalesce ((x, false) :: (y, false) :: l) = coalesce ((x + y, false) :: l).
Proof. cbn [coalesce]. destruct (coalesce l) as [|[k [|]] cs]; [done..|]. by rewrite Z.add_assoc. Qed.

Lemma allocated_app p l1 l2 : allocated p (l1 ++ l2) = allocated p l1 ∪ allocated (p + total l1) l2.
Proof.
  revert p. induction l1 as [|[n [|]] l1 IH]; intros p; simpl.
  - by rewrite Z.add_0_r, (left_id_L ∅ (∪)).
  - by rewrite IH, insert_union_l, Z.add_assoc.
  - by rewrite IH, Z.add_assoc.
Qed.
Lemma allocated_coalesce bs : forall p, allocated p (coalesce bs) = allocated p bs.
Proof.
  induction bs as [|[n [|]] bs IH]; intros p; simpl; [done|by rewrite IH|]. rewrite <- IH.
  destruct (coalesce bs) as [|[k [|]] cs]; simpl; [done..|]. f_equal. lia.
Qed.
Lemma allocated_range bs : forall p a n, Forall block_ok bs -> allocated p bs !! a = Some n -> p + 16 <= a /\ 8 <= n /\ a + n <= p + total bs.
Proof.
  induction bs as [|[len u] bs IH]; intros p a n H E; [done|]. apply Forall_cons in H as [[H32 _] H]. simpl in *.
  pose proof (total_ok bs H) as [Ht _]. destruct u.
  - apply lookup_insert_Some in E as [[<- <-]|[_ E]]; [lia|]. specialize (IH _ _ _ H E). lia.
  - specialize (IH _ _ _ H E). lia.
Qed.

(** Joining two free blocks, seen from [lfree]. *)
Lemma join_split l1 a b l2 lo hi : Forall block_ok (lo ++ hi) -> lo ++ hi = l1 ++ (a, false) :: (b, false) :: l2 -> starts_free hi ->
  exists lo' hi', lo' ++ hi' = l1 ++ (a + b, false) :: l2 /\ starts_free hi' /\ (all_used lo -> all_used lo') /\
    total lo' = (if decide (total lo = total l1 + a) then total l1 else total lo).
Proof.
  intros Hok E Hf. rewrite E in Hok. apply blocks_split in Hok as (H1 & H2 & T1 & _ & _).
  apply Forall_cons in H2 as [[Ha _] H2]. apply Forall_cons in H2 as [[Hb _] H2]. simpl in Ha, Hb.
  apply app_eq_app in E as [k [[-> E]|[-> E]]].
  - (* [lo] reaches behind [l1] *)
    destruct k as [|b1 [|b2 k]]; simpl in E.
    + exists l1, ((a + b, false) :: l2). rewrite app_nil_r. split_and!; [done..|]. case_decide; lia.
    + injection E as <- E. exists l1, ((a + b, false) :: l2). split_and!; [done|done|..].
      * intros H. by apply Forall_app in H as [H _].
      * rewrite total_app. simpl. rewrite decide_True by lia. done.
    + injection E as <- <- ->. exists (l1 ++ (a + b, false) :: k), hi. rewrite <- app_assoc. split_and!; [done|done|..].
      * intros H. apply Forall_app in H as [_ H]. apply Forall_cons in H as [H _]. done.
      * apply Forall_app in H2 as [H2 _]. pose proof (total_ok _ H2) as [? _]. rewrite !total_app. simpl. rewrite decide_False by lia. lia.
  - exists lo, (k ++ (a + b, false) :: l2). rewrite <- app_assoc. split_and!; [done| |done|].
    + subst hi. by destruct k.
    + apply Forall_app in H1 as [_ H1]. pose proof (total_ok _ H1) as [? _]. rewrite total_app. rewrite decide_False by lia. done.
Qed.

(** What a join leaves is a heap again, [lfree] where it should be. *)
Lemma join_lf h h' l1 a b l2 lo hi : heap_lf h lo hi -> lo ++ hi = l1 ++ (a, false) :: (b, false) :: l2 ->
  heap_wf h' (l1 ++ (a + b, false) :: l2) -> lfree h' = (if decide (lfree h = total l1 + a) then total l1 else lfree h) ->
  exists lo' hi', heap_lf h' lo' hi' /\ lo' ++ hi' = l1 ++ (a + b, false) :: l2 /\ (all_used lo -> all_used lo').
Proof.
  intros [Hwf Hl Hf] E Hwf' Hl'. destruct (join_split _ _ _ _ _ _ (wf_blocks _ _ Hwf) E Hf) as (lo' & hi' & E' & Hf' & Hu & Ht).
  exists lo', hi'. split; [|done]. split; [by rewrite E'| |done]. by rewrite Hl', Ht, Hl.
Qed.

Lemma frame_refl h : frame h h.
Proof. done. Qed.
Lemma frame_trans h1 h2 h3 : frame h1 h2 -> frame h2 h3 -> frame h1 h3.
Proof. unfold frame. intuition congruence. Qed.

(** The block [a] is free and its neighbours may be: it is merged with both. *)
Definition plugged (h : heap) (lo bs : blocks) (h' : heap) : Prop :=
  exists lo' hi', heap_lf h' lo' hi' /\ lo' ++ hi' = bs /\ frame h h' /\ (all_used lo -> all_used lo').

Lemma plug_forward_ok h lo hi l1 a l2 : heap_lf h lo hi -> lo ++ hi = l1 ++ (a, false) :: l2 -> coalesced l2 ->
  exists h', plug_forward (total l1) h = Some (tt, h') /\ plugged h lo (l1 ++ coalesce ((a, false) :: l2)) h'.
Proof.
  intros Hlf E Hc. pose proof (lf_wf _ _ _ Hlf) as Hwf. rewrite E in Hwf. rewrite coalesce_behind_free by done.
  destruct l2 as [|[b [|]] l2].
  3: { destruct (plug_forward_joins h l1 a b l2 Hwf) as (h' & Eh & Hwf' & Hfr & Hl'). exists h'. split; [done|].
       destruct (join_lf _ _ _ _ _ _ _ _ Hlf E Hwf' Hl') as (lo' & hi' & ? & ? & ?). by exists lo', hi'. }
  all: exists h; split; [by eapply plug_forward_stays|by exists lo, hi].
Qed.

Lemma plug_backward_ok h lo hi l1 a l2 : heap_lf h lo hi -> lo ++ hi = l1 ++ (a, false) :: l2 -> coalesced l1 ->
  coalesced ((a, false) :: l2) ->
  exists h', plug_backward (total l1) h = Some (tt, h') /\ plugged h lo (coalesce (l1 ++ (a, false) :: l2)) h'.
Proof.
  intros Hlf E Hc1 Hc2. pose proof (lf_wf _ _ _ Hlf) as Hwf. rewrite E in Hwf.
  destruct l1 as [|[p [|]] l1 _] using rev_ind.
  3: { rewrite <- app_assoc in *. cbn [app] in *.
       destruct (plug_backward_joins h l1 p a l2 Hwf) as (h' & Eh & Hwf' & Hfr & Hl'). exists h'.
       rewrite total_app. simpl total. rewrite Z.add_0_r. split; [done|].
       destruct (join_lf _ _ _ _ _ _ _ _ Hlf E Hwf' Hl') as (lo' & hi' & Hlf' & Eb & Hu). exists lo', hi'.
       split_and!; [done| |done..]. rewrite Eb. destruct (coalesced_app _ _ Hc1) as [Hc1' _].
       rewrite coalesce_behind_used; [by rewrite coalesce_behind_free|done|].
       destruct l1 as [|[k u] l1 _] using rev_ind; [done|]. rewrite last_snoc. destruct u; [done|].
       rewrite <- app_assoc in Hc1. apply coalesced_app in Hc1 as [_ [Hk _]]. exact (Hk eq_refl). }
  - exists h. split; [by apply (plug_backward_stays _ _ _ _ Hwf)|]. rewrite (coalesce_id ([] ++ _)) by done. by exists lo, hi.
  - exists h. split; [apply (plug_backward_stays _ _ _ _ Hwf); by rewrite last_snoc|].
    rewrite coalesce_behind_used, (coalesce_id (_ :: _)) by (done || by rewrite last_snoc). by exists lo, hi.
Qed.

Lemma coalesce_coalesce l1 l2 : coalesce (l1 ++ coalesce l2) = coalesce (l1 ++ l2).
Proof. induction l1 as [|[n [|]] l1 IH]; simpl; [apply coalesce_id, coalesced_coalesce|by rewrite IH|by rewrite IH]. Qed.

Lemma plug_holes_ok h lo hi l1 a l2 : heap_lf h lo hi -> lo ++ hi = l1 ++ (a, false) :: l2 -> coalesced l1 -> coalesced l2 ->
  exists h', plug_holes (total l1) h = Some (tt, h') /\ plugged h lo (coalesce (l1 ++ (a, false) :: l2)) h'.
Proof.
  intros Hlf E Hc1 Hc2. pose proof (lf_wf _ _ _ Hlf) as Hwf. rewrite E in Hwf. pose proof Hwf as [_ _ _ _ Hok _ Ht Hs _ _].
  apply seg_middle in Hs as Ea. rewrite Z.add_0_l in Ea. apply blocks_split in Hok as (_ & Hok2 & T1 & _ & _).
  apply Forall_cons in Hok2 as [[Ha _] Hok2]. simpl in Ha. pose proof (total_ok l2 Hok2) as [T2 _]. rewrite total_app in Ht. simpl in Ht.
  destruct (plug_forward_ok _ _ _ _ _ _ Hlf E Hc2) as (h1 & E1 & lo1 & hi1 & Hlf1 & Eb1 & Hfr1 & Hu1).
  assert (exists a' l2', coalesce ((a, false) :: l2) = (a', false) :: l2') as (a' & l2' & Ec).
  { rewrite coalesce_behind_free by done. destruct l2 as [|[b [|]] l2]; eauto. }
  rewrite Ec in Eb1. destruct (plug_backward_ok h1 lo1 hi1 l1 a' l2' Hlf1 Eb1 Hc1) as (h2 & E2 & lo2 & hi2 & Hlf2 & Eb2 & Hfr2 & Hu2).
  { rewrite <- Ec. apply coalesced_coalesce. }
  rewrite <- Ec, coalesce_coalesce in Eb2. exists h2. split.
  - unfold plug_holes. hstep. hstep. rewrite !bool_decide_true by (simpl; lia || done). cbn [rt_assert].
    do 3 hstep. by rewrite (bind_eval _ _ _ _ _ E1).
  - exists lo2, hi2. split_and!; [done|done|by eapply frame_trans|tauto].
Qed.

(** A block changes hands. *)
Lemma flip_wf h l1 a u v l2 lf mx m' used' : heap_wf h (l1 ++ (a, u) :: l2) ->
  m' !! total l1 = Some (head_of (last_at 0 0 l1) (total l1) (a, v)) ->
  (forall k, k <> total l1 -> m' !! k = heap_at h !! k) ->
  used' = used_total (l1 ++ (a, v) :: l2) ->
  heap_wf (Heap (heap_ptr h) (heap_end h) lf (mem_size_aligned h) used' mx m' (heap_bytes h)) (l1 ++ (a, v) :: l2).
Proof.
  intros Hwf H1 H2 Hu. pose proof Hwf as [_ _ _ _ Hok _ Ht Hs [q Hq] _].
  apply blocks_split in Hok as Hsp. destruct Hsp as (Hok1 & Hok2 & T1 & _ & _).
  apply Forall_cons in Hok2 as [[Ha Ha8] Hok2]. simpl in Ha, Ha8. pose proof (total_ok l2 Hok2) as [T2 _].
  rewrite total_app in Ht. simpl in Ht.
  apply wf_change with (1 := Hwf); [|rewrite !total_app; done| |by destruct l1| |done].
  - apply (seg_replace (heap_at h) _ l1 [(a, u)] [(a, v)] l2 Hok); [done|done| |split; [exact H1|done]| |].
    + intros k Hk. apply H2. lia.
    + intros k Hk. rewrite !total_app in Hk. simpl in Hk. apply H2. lia.
    + destruct l2 as [|c l2]; [done|]. rewrite H2 by (rewrite total_app; simpl; lia).
      destruct (behind h (l1 ++ [(a, u)]) (c :: l2)) as (n & En & ->); [by rewrite <- app_assoc|]. rewrite !last_at_app in *. exact En.
  - apply Forall_app. split; [done|]. by constructor.
  - exists q. rewrite H2 by lia. done.
Qed.

(** A block is split: a free one is cut off its end. *)
Lemma split_wf h l1 a u n v l2 lf mx m' used' : heap_wf h (l1 ++ (a, u) :: l2) -> block_ok (n, v) -> block_ok (a - n, false) ->
  m' !! total l1 = Some (head_of (last_at 0 0 l1) (total l1) (n, v)) ->
  m' !! (total l1 + n) = Some (head_of (total l1) (total l1 + n) (a - n, false)) ->
  match l2 with b :: _ => m' !! (total l1 + a) = Some (head_of (total l1 + n) (total l1 + a) b)
  | [] => m' !! (total l1 + a) = heap_at h !! (total l1 + a) end ->
  (forall k, k <> total l1 -> k <> total l1 + n -> k <> total l1 + a -> m' !! k = heap_at h !! k) ->
  used' = used_total (l1 ++ (n, v) :: (a - n, false) :: l2) ->
  heap_wf (Heap (heap_ptr h) (heap_end h) lf (mem_size_aligned h) used' mx m' (heap_bytes h)) (l1 ++ (n, v) :: (a - n, false) :: l2).
Proof.
  intros Hwf Hn Han H1 H2 H3 H4 Hu. pose proof Hwf as [_ _ _ _ Hok _ Ht Hs [q Hq] _].
  pose proof Hn as [N1 _]. pose proof Han as [N2 _]. simpl in N1, N2.
  apply blocks_split in Hok as Hsp. destruct Hsp as (Hok1 & Hok2 & T1 & _ & _).
  apply Forall_cons in Hok2 as [_ Hok2]. pose proof (total_ok l2 Hok2) as [T2 _]. rewrite total_app in Ht. simpl in Ht.
  apply wf_change with (1 := Hwf); [|rewrite !total_app; simpl; lia| |by destruct l1| |done].
  - apply (seg_replace (heap_at h) _ l1 [(a, u)] [(n, v); (a - n, false)] l2 Hok); [simpl; lia|done|..].
    + intros k Hk. apply H4; lia.
    + exact (conj H1 (conj H2 I)).
    + intros k Hk. rewrite !total_app in Hk. simpl in Hk. apply H4; lia.
    + destruct l2 as [|c l2]; [done|]. rewrite total_app, last_at_app. cbn [last_at]. simpl total. rewrite !Z.add_0_r, !Z.add_0_l. exact H3.
  - apply Forall_app. split; [done|]. by constructor; [|constructor].
  - destruct l2 as [|c l2].
    + exists q. simpl in Ht. rewrite Z.add_0_r in Ht. rewrite <- Ht, H3, Ht. done.
    + apply Forall_cons in Hok2 as [[Hc _] Hok2]. pose proof (total_ok l2 Hok2). simpl in Ht, Hc. exists q. rewrite H4 by lia. done.
Qed.

(** ** Freeing *)

Lemma land_7 x : Z.land x 7 = x mod 8.
Proof. exact (Z.land_ones x 3 ltac:(lia)). Qed.

Lemma mod_8_add x y : x mod 8 = 0 -> y mod 8 = 0 -> (x + y) mod 8 = 0.
Proof. intros H1 H2. rewrite Z.add_mod, H1, H2 by lia. done. Qed.

(** [lfree] after the block [a] has been given back. *)
Lemma free_split l1 a l2 lo hi : Forall block_ok (lo ++ hi) -> lo ++ hi = l1 ++ (a, true) :: l2 -> starts_free hi ->
  exists lo' hi', lo' ++ hi' = l1 ++ (a, false) :: l2 /\ starts_free hi' /\ (all_used lo -> all_used lo') /\
    total lo' = (if decide (total l1 < total lo) then total l1 else total lo).
Proof.
  intros Hok E Hf. rewrite E in Hok. apply blocks_split in Hok as (H1 & H2 & T1 & _ & _).
  apply Forall_cons in H2 as [[Ha _] H2]. simpl in Ha. apply app_eq_app in E as [k [[-> E]|[-> E]]].
  - destruct k as [|b k]; simpl in E; [by subst hi|]. injection E as <- ->. exists l1, ((a, false) :: k ++ hi).
    split_and!; [done|done| |].
    + intros H. by apply Forall_app in H as [H _].
    + apply Forall_app in H2 as [H2 _]. pose proof (total_ok _ H2) as [? _]. rewrite total_app. simpl. by rewrite decide_True by lia.
  - exists lo, (k ++ (a, false) :: l2). rewrite <- app_assoc. split_and!; [done| |done|].
    + subst hi. by destruct k.
    + apply Forall_app in H1 as [_ H1]. pose proof (total_ok _ H1) as [? _]. rewrite total_app. by rewrite decide_False by lia.
Qed.

Lemma rt_free_ok h lo hi l1 a l2 : heap_ok h lo hi -> lo ++ hi = l1 ++ (a, true) :: l2 ->
  exists h' lo' hi', rt_free (heap_ptr h + total l1 + 16) h = Some (tt, h') /\ heap_ok h' lo' hi' /\
    lo' ++ hi' = coalesce (l1 ++ (a, false) :: l2) /\ frame h h' /\ (all_used lo -> all_used lo').
Proof.
  intros [Hlf Hc] E. pose proof Hlf as [Hwf Hl Hf]. rewrite E in Hwf, Hc. pose proof Hwf as [[Hp Hp8] He _ Hb Hok _ Ht Hs _ Hu].
  apply seg_middle in Hs as Ea. rewrite Z.add_0_l in Ea.
  apply blocks_split in Hok as (Hok1 & Hok2 & T1 & _ & T8). apply Forall_cons in Hok2 as [[Ha _] Hok2]. simpl in Ha.
  pose proof (total_ok l2 Hok2) as [T2 _]. rewrite total_app in Ht. simpl in Ht.
  apply coalesced_app in Hc as [Hc1 [_ Hc2]].
  destruct (free_split _ _ _ _ _ (wf_blocks _ _ (lf_wf _ _ _ Hlf)) E Hf) as (lo1 & hi1 & E1 & Hf1 & Hu1 & Ht1).
  set (m' := <[total l1 := head_of (last_at 0 0 l1) (total l1) (a, false)]> (<[total l1 := HeapMem HEAP_MAGIC 0 (total l1 + a) (last_at 0 0 l1)]> (heap_at h))).
  set (h1 := Heap (heap_ptr h) (heap_end h) (if decide (total l1 < lfree h) then total l1 else lfree h) (mem_size_aligned h)
    (u32 (used_mem h - (total l1 + a - total l1))) (max_mem h) m' (heap_bytes h)).
  assert (heap_lf h1 lo1 hi1) as Hlf1.
  { split; [|by rewrite Ht1, <- Hl|done]. rewrite E1. apply (flip_wf h l1 a true false l2 _ _ _ _ Hwf).
    - apply lookup_insert_eq.
    - intros k Hk. unfold m'. by rewrite !lookup_insert_ne.
    - pose proof (wf_bound _ _ Hwf). pose proof (used_total_le _ Hok1). pose proof (used_total_le _ Hok2).
      rewrite Hu, !used_total_app. cbn [used_total foldr fst snd]. fold (used_total l2). rewrite wrap_small by (unfold in_range; lia). lia. }
  destruct (plug_holes_ok h1 lo1 hi1 l1 a l2 Hlf1 E1 Hc1 Hc2) as (h2 & E2 & lo2 & hi2 & Hlf2 & Eb2 & Hfr2 & Hu2).
  exists h2, lo2, hi2. split; [|split; [split; [done|rewrite Eb2; apply coalesced_coalesce]|split; [done|split; [exact Hfr2|tauto]]]].
  unfold rt_free. rewrite decide_False by lia. rewrite sizeof_struct_mem. do 2 hstep. rewrite land_7.
  rewrite !bool_decide_true by (lia || (apply mod_8_add; [apply mod_8_add|]; done)). do 2 hstep.
  replace (heap_ptr h + total l1 + 16 - 16 - heap_ptr h) with (total l1) by lia. hstep.
  do 2 hstep. erewrite bind_eval by (apply set_used_eval; exact Ea).
  erewrite bind_eval by (apply set_magic_eval; apply lookup_insert_eq). hstep.
  erewrite bind_eval by apply when_lfree. hstep. exact E2.
Qed.

(** ** Allocating *)

(** The first block of [bs] that takes [n] bytes, the first one at [p]: what is
    in front of it, its size, what is behind it.  The bound on the offset is the
    one of the loop. *)
Fixpoint fit (n room p : Z) (bs : blocks) : option (blocks * Z * blocks) :=
  match bs with
  | [] => None
  | (len, u) :: bs =>
    if decide (u = false /\ n + 16 <= len /\ p + n < room) then Some ([], len, bs)
    else '(mid, l, post) ← fit n room (p + len) bs; Some ((len, u) :: mid, l, post)
  end.

(** What becomes of a free block of [len] bytes of which [n] are asked for. *)
Definition carved (n len : Z) : blocks :=
  if decide (n + 48 <= len) then [(n + 16, true); (len - (n + 16), false)] else [(len, true)].

Lemma fit_app n room bs : forall p mid len post, fit n room p bs = Some (mid, len, post) ->
  bs = mid ++ (len, false) :: post /\ n + 16 <= len /\ p + total mid + n < room.
Proof.
  induction bs as [|[l u] bs IH]; intros p mid len post; simpl; [done|].
  case_decide as Hd; [intros [= <- <- <-]; destruct Hd as (-> & ? & ?); simpl; split_and!; [done|lia..]|].
  destruct (fit n room (p + l) bs) as [[[mid' l'] post']|] eqn:E; [|done]. intros [= <- <- <-].
  destruct (IH _ _ _ _ E) as (-> & ? & ?). simpl. split_and!; [done|lia..].
Qed.

Lemma fit_late n room bs : forall p, Forall block_ok bs -> room <= p + n -> fit n room p bs = None.
Proof.
  induction bs as [|[l u] bs IH]; intros p H Hr; simpl; [done|]. apply Forall_cons in H as [[H1 _] H]. simpl in H1.
  rewrite decide_False by lia. by rewrite IH by (done || lia).
Qed.

Lemma total_carved n len : total (carved n len) = len.
Proof. unfold carved. case_decide; simpl; lia. Qed.

Lemma coalesced_carved l1 n len l2 : coalesced (l1 ++ (len, false) :: l2) -> coalesced (l1 ++ carved n len ++ l2).
Proof.
  induction l1 as [|b l1 IH]; simpl.
  - intros [H Hc]. unfold carved. case_decide; simpl; split_and?; done.
  - intros [H Hc]. split; [|by apply IH]. destruct l1 as [|c l1]; [|done]. intros Hb. by specialize (H Hb).
Qed.

(** The heap is the same one, and so is what is in it; the counters have moved on. *)
Definition grown (h h' : heap) : Prop :=
  heap_ptr h' = heap_ptr h /\ heap_end h' = heap_end h /\ mem_size_aligned h' = mem_size_aligned h /\
  heap_bytes h' = heap_bytes h /\ max_mem h' = Z.max (max_mem h) (used_mem h').

Lemma next_free_ok h hi : forall lo fuel, heap_wf h (lo ++ hi) -> (length hi < fuel)%nat ->
  exists lo' hi', next_free fuel (with_lfree (total lo) h) = Some (tt, with_lfree (total lo') h) /\
    lo' ++ hi' = lo ++ hi /\ starts_free hi' /\ (all_used lo -> all_used lo').
Proof.
  induction hi as [|[len u] hi IH]; intros lo fuel Hwf Hfuel; (destruct fuel as [|fuel]; [lia|]); cbn [next_free].
  - pose proof Hwf as [_ _ _ _ _ _ Ht _ [q Hq] _]. rewrite app_nil_r in Ht. exists lo, []. split; [|done].
    do 2 hstep. simpl lfree. rewrite Ht. hstep. by rewrite decide_False by (intros [_ ?]; done).
  - pose proof Hwf as [_ _ _ _ Hok _ Ht Hs _ _]. apply seg_middle in Hs as Ea. rewrite Z.add_0_l in Ea.
    apply blocks_split in Hok as (_ & Hok & T1 & _ & _). apply Forall_cons in Hok as [[Hl _] Hok]. simpl in Hl.
    pose proof (total_ok hi Hok) as [T2 _]. rewrite total_app in Ht. simpl in Ht.
    do 2 hstep. simpl lfree. hstep. destruct u; cbn [used heap_end with_lfree head_of snd].
    + rewrite decide_True by lia. hstep.
      destruct (IH (lo ++ [(len, true)]) fuel) as (lo' & hi' & E & Eb & Hf & Hu); [by rewrite <- app_assoc|simpl in Hfuel; lia|].
      rewrite total_app in E. simpl in E. rewrite Z.add_0_r in E. exists lo', hi'. split_and!; [exact E|by rewrite Eb, <- app_assoc|done|].
      intros H. apply Hu, Forall_app. split; [done|by repeat constructor].
    + rewrite decide_False by lia. by exists lo, ((len, false) :: hi).
Qed.

Ltac hlookup := repeat first [rewrite lookup_insert_eq | rewrite lookup_insert_ne by lia].

Lemma wf_bounds h l1 len l2 u : heap_wf h (l1 ++ (len, u) :: l2) ->
  0 <= total l1 /\ total l1 mod 8 = 0 /\ 24 <= len /\ len mod 8 = 0 /\ 0 <= total l2 /\
  total l1 + (len + total l2) = heap_end h /\ heap_end h = mem_size_aligned h + 16 /\ heap_end h + 16 < 2 ^ 32 /\
  heap_at h !! total l1 = Some (head_of (last_at 0 0 l1) (total l1) (len, u)) /\
  0 <= used_total l1 <= total l1 /\ 0 <= used_total l2 <= total l2.
Proof.
  intros [[Hp _] He _ Hb Hok _ Ht Hs _ _]. apply seg_middle in Hs. rewrite Z.add_0_l in Hs.
  apply blocks_split in Hok as (Hok1 & Hok2 & T1 & _ & T8). apply Forall_cons in Hok2 as [[Ha Ha8] Hok2]. simpl in Ha, Ha8.
  pose proof (total_ok l2 Hok2) as [T2 _]. rewrite total_app in Ht. simpl in Ht.
  pose proof (used_total_le _ Hok1). pose proof (used_total_le _ Hok2). split_and!; done || lia.
Qed.

(** The block behind a split one is told. *)
Lemma relink_eval h h1 l1 len u l2 x : heap_wf h (l1 ++ (len, u) :: l2) -> heap_at h1 !! (total l1 + len) = heap_at h !! (total l1 + len) ->
  when (bool_decide (total l1 + len <> u32 (mem_size_aligned h + 16))) (set_prev (total l1 + len) x) h1 =
    Some (tt, with_heap_at (match l2 with [] => id | c :: _ => <[total l1 + len := head_of x (total l1 + len) c]> end) h1).
Proof.
  intros Hwf E1. destruct (wf_bounds _ _ _ _ _ Hwf) as (T1 & _ & Ha & _ & T2 & Ht & He & Hb & _).
  rewrite wrap_small by (unfold in_range; lia).
  destruct (behind h (l1 ++ [(len, u)]) l2) as (b & Eb & Hl2); [by rewrite <- app_assoc|].
  rewrite total_app in Eb, Hl2. simpl total in Eb, Hl2. rewrite Z.add_0_r in Eb, Hl2. destruct l2 as [|c l2].
  - rewrite bool_decide_false by (simpl in Ht; lia). by destruct h1.
  - pose proof (wf_blocks _ _ Hwf) as Hok. apply blocks_split in Hok as (_ & Hok & _). apply Forall_cons in Hok as [_ Hok].
    apply Forall_cons in Hok as [[Hc _] Hok]. pose proof (total_ok _ Hok). simpl in Ht, Hc. subst b.
    rewrite bool_decide_true by lia. cbn [when]. rewrite Eb in E1. by erewrite set_prev_eval by exact E1.
Qed.

Lemma grown_count h m u :
  let h' := Heap (heap_ptr h) (heap_end h) (lfree h) (mem_size_aligned h) u (if decide (max_mem h < u) then u else max_mem h) m (heap_bytes h) in
  lfree h' = lfree h /\ grown h h'.
Proof. simpl. split; [done|]. unfold grown. simpl. split_and!; [done..|]. case_decide; lia. Qed.

(** The heap after [mark_block], whatever became of the headers. *)
Lemma mark_block_ok h l1 len l2 n : heap_wf h (l1 ++ (len, false) :: l2) -> 16 <= n -> n mod 8 = 0 -> n + 16 <= len ->
  exists h', mark_block (total l1) n h = Some (tt, h') /\ heap_wf h' (l1 ++ carved n len ++ l2) /\ lfree h' = lfree h /\ grown h h'.
Proof.
  intros Hwf Hn Hn8 Hlen. destruct (wf_bounds _ _ _ _ _ Hwf) as (T1 & T8 & Ha & Ha8 & T2 & Ht & He & Hb & Ea & U1 & U2).
  pose proof (wf_used _ _ Hwf) as Hu. rewrite used_total_app in Hu. simpl in Hu.
  assert (forall z, 0 <= z < 2 ^ 32 -> u32 z = z) as Hw by (intros; by apply wrap_small).
  unfold mark_block, carved. rewrite sizeof_struct_mem, min_size_aligned. hstep. hstep. cbn [next head_of fst].
  rewrite (Hw (n + 16 + 16)), (Hw (total l1 + 16)), (Hw (total l1 + len - (total l1 + 16))), (Hw (total l1 + 16 + n)) by lia.
  replace (total l1 + 16 + n) with (total l1 + (n + 16)) by lia.
  case_decide as Hd; [rewrite decide_True by lia|rewrite decide_False by lia].
  - unfold put_header. hstep. erewrite bind_eval by (apply set_next_eval; simpl; hlookup; exact Ea).
    erewrite bind_eval by (apply set_used_eval; simpl; hlookup; reflexivity). cbn [magic used next prev head_of snd].
    erewrite bind_eval by (apply (relink_eval h _ l1 len false l2); [done|simpl; by hlookup]).
    eexists. split; [reflexivity|]. split; [|apply (grown_count h)].
    eapply (split_wf h l1 len false (n + 16) true l2 _ _ _ _ Hwf); cbn [fst].
    + split; [simpl; lia|by apply mod_8_add].
    + split; [simpl; lia|]. simpl. rewrite Zminus_mod, Ha8, (mod_8_add n 16) by done. done.
    + destruct l2; simpl; hlookup; done.
    + unfold head_of. simpl. replace (total l1 + (n + 16) + (len - (n + 16))) with (total l1 + len) by lia. destruct l2; simpl; hlookup; done.
    + destruct l2; simpl; hlookup; done.
    + intros k H1 H2 H3. destruct l2; simpl; hlookup; done.
    + simpl. rewrite used_total_app. simpl. rewrite Hw by lia. lia.
  - erewrite bind_eval by (apply set_used_eval; exact Ea). eexists. split; [reflexivity|]. split; [|apply (grown_count h)].
    apply (flip_wf h l1 len false true l2 _ _ _ _ Hwf); simpl; [by hlookup|intros k Hk; by hlookup|].
    rewrite used_total_app. simpl. rewrite Hw by lia. lia.
Qed.

Lemma carved_used n len : exists k rest, carved n len = (k, true) :: rest.
Proof. unfold carved. case_decide; eauto. Qed.

Lemma set_magic_id h l1 b l2 : heap_wf h (l1 ++ b :: l2) -> set_magic (total l1) h = Some (tt, h).
Proof.
  intros Hwf. pose proof (wf_seg _ _ Hwf) as Hs. apply seg_middle in Hs as E. rewrite Z.add_0_l in E.
  rewrite (set_magic_eval _ _ _ E). unfold with_heap_at. do 2 f_equal. rewrite insert_id by done. by destruct h.
Qed.

Lemma heap_fuel_enough h lo hi : heap_wf h (lo ++ hi) -> (length hi < heap_fuel h)%nat.
Proof.
  intros [_ He _ _ Hok _ Ht _ _ _]. apply total_length in Hok. rewrite Ht, He, length_app in Hok. unfold heap_fuel.
  assert (Z.of_nat (length hi) <= mem_size_aligned h / 24 + 1); [|lia].
  pose proof (Z.div_mod (mem_size_aligned h) 24 ltac:(lia)). pose proof (Z.mod_pos_bound (mem_size_aligned h) 24 ltac:(lia)). lia.
Qed.

(** The search for the next free block, as [take_block] runs it. *)
Lemma settle_ok h lo hi l1 : heap_wf h (lo ++ hi) -> lfree h = total lo -> l1 = lo \/ (starts_free hi /\ total l1 <> total lo) ->
  exists h' lo' hi', (lf ← gets lfree;
    when (bool_decide (total l1 = lf))
    (fuel ← gets heap_fuel; next_free fuel;;
     lf ← gets lfree; e ← gets heap_end; m ← header lf; rt_assert (bool_decide (lf = e \/ used m = 0)))) h = Some (tt, h') /\
  heap_lf h' lo' hi' /\ lo' ++ hi' = lo ++ hi /\ h' = with_lfree (total lo') h /\ (all_used lo -> all_used lo').
Proof.
  intros Hwf Hl H. hstep. destruct H as [->|[Hf Hne]].
  - rewrite bool_decide_true by done. cbn [when]. hstep.
    assert (h = with_lfree (total lo) h) as Eh by (destruct h; simpl in *; by subst).
    destruct (next_free_ok h hi lo (heap_fuel h) Hwf (heap_fuel_enough _ _ _ Hwf)) as (lo' & hi' & E & Eb & Hf & Hu).
    rewrite <- Eh in E. exists (with_lfree (total lo') h), lo', hi'. rewrite (bind_eval _ _ _ _ _ E). do 2 hstep.
    rewrite <- Eb in Hwf. destruct (behind _ _ _ Hwf) as (b & Ebb & Hb). cbn [lfree with_lfree heap_end]. hstep.
    split; [|split; [split; [by destruct Hwf|done|done]|done]].
    destruct hi' as [|[a u] hi']; [destruct Hb as [-> _]|simpl in Hf; subst u b]; by rewrite bool_decide_true by auto.
  - rewrite bool_decide_false by congruence. exists h, lo, hi. split; [done|]. split; [by split|]. split; [done|].
    split; [|done]. rewrite <- Hl. by destruct h.
Qed.

Lemma take_block_ok h lo mid len post n : heap_ok h lo (mid ++ (len, false) :: post) -> 16 <= n -> n mod 8 = 0 -> n + 16 <= len ->
  exists h' lo' hi', take_block (total (lo ++ mid)) n h = Some (heap_ptr h + total (lo ++ mid) + 16, h') /\ heap_ok h' lo' hi' /\
    lo' ++ hi' = lo ++ mid ++ carved n len ++ post /\ grown h h' /\ (all_used lo -> all_used lo').
Proof.
  intros [[Hwf Hl Hf] Hc] Hn Hn8 Hlen. rewrite app_assoc in Hwf, Hc.
  destruct (wf_bounds _ _ _ _ _ Hwf) as (T1 & T8 & _ & _ & T2 & Ht & _).
  destruct (mark_block_ok _ _ _ _ _ Hwf Hn Hn8 Hlen) as (h1 & E1 & Hwf1 & Hl1 & Hg).
  destruct (carved_used n len) as (k & rest & Ek).
  assert (set_magic (total (lo ++ mid)) h1 = Some (tt, h1)) as Em.
  { rewrite Ek in Hwf1. cbn [app] in Hwf1. by eapply set_magic_id. }
  rewrite <- app_assoc in Hwf1.
  destruct (settle_ok h1 lo (mid ++ carved n len ++ post) (lo ++ mid) Hwf1 ltac:(congruence)) as (h2 & lo2 & hi2 & E2 & Hlf2 & Eb2 & Eh2 & Hu2).
  { destruct mid as [|[a u] mid]; [left; by rewrite app_nil_r|right; split; [exact Hf|]].
    pose proof (wf_blocks _ _ Hwf1) as Hok. apply blocks_split in Hok as (_ & Hok & _). apply Forall_cons in Hok as [[Ha _] Hok].
    apply Forall_app in Hok as [Hok _]. pose proof (total_ok _ Hok). rewrite total_app. simpl in *. lia. }
  assert (heap_ptr h2 = heap_ptr h /\ heap_end h2 = heap_end h) as [Ep Ee] by (rewrite Eh2; destruct Hg as (? & ? & _); done).
  exists h2, lo2, hi2. split; [|split; [split; [done|]|split; [done|split; [by rewrite Eh2|done]]]].
  - unfold take_block. rewrite (bind_eval _ _ _ _ _ E1), (bind_eval _ _ _ _ _ Em). erewrite bind_regroup by exact E2. do 2 hstep. pose proof (wf_ptr _ _ Hwf) as [_ Hp8]. rewrite sizeof_struct_mem, Ep, Ee, land_7.
    rewrite !bool_decide_true by (lia || (repeat apply mod_8_add; done)). done.
  - rewrite Eb2. rewrite <- app_assoc in Hc. rewrite app_assoc. apply coalesced_carved. by rewrite <- app_assoc.
Qed.

(** The loop finds the block that [fit] finds. *)
Lemma malloc_loop_ok h n hi : forall lo fuel, heap_wf h (lo ++ hi) -> 16 <= n <= mem_size_aligned h -> (length hi < fuel)%nat ->
  malloc_loop fuel (total lo) n h =
    match fit n (mem_size_aligned h) (total lo) hi with
    | Some (mid, _, _) => take_block (total (lo ++ mid)) n h
    | None => Some (0, h)
    end.
Proof.
  induction hi as [|[len u] hi IH]; intros lo fuel Hwf Hn Hfuel; (destruct fuel as [|fuel]; [lia|]); cbn [malloc_loop];
    hstep; (rewrite wrap_small by (destruct (wf_ptr _ _ Hwf); pose proof (wf_end _ _ Hwf); pose proof (wf_bound _ _ Hwf); unfold in_range; lia)).
  - pose proof Hwf as [_ He _ _ _ _ Ht _ _ _]. rewrite app_nil_r in Ht. rewrite decide_False by lia. done.
  - destruct (wf_bounds _ _ _ _ _ Hwf) as (T1 & T8 & Ha & Ha8 & T2 & Ht & He & Hb & Ea & U1 & U2). case_decide as Hd.
    + hstep. cbn [used next head_of fst snd]. rewrite sizeof_struct_mem. rewrite !wrap_small by (unfold in_range; rewrite ?wrap_small; unfold in_range; lia).
      cbn [fit]. destruct (decide (u = false /\ n + 16 <= len /\ total lo + n < mem_size_aligned h)) as [(-> & H1 & H2)|Hno].
      * rewrite decide_True by (split; [done|lia]). by rewrite app_nil_r.
      * rewrite decide_False by (destruct u; [intros [? _]; done|intros [_ ?]; destruct Hno; split_and!; [done|lia..]]).
        pose proof (IH (lo ++ [(len, u)]) fuel) as IH'. rewrite total_app in IH'. simpl total in IH'. rewrite Z.add_0_r, <- app_assoc in IH'.
        rewrite IH' by (done || simpl in Hfuel; lia). destruct (fit _ _ _ hi) as [[[mid l] post]|]; [|done]. simpl. by rewrite <- app_assoc.
    + rewrite fit_late; [done| |lia]. pose proof (wf_blocks _ _ Hwf) as Hok. by apply blocks_split in Hok as (_ & ? & _).
Qed.

(** What a request for [size] bytes needs. *)
Definition need (size : Z) : Z := Z.max (RT_ALIGN size 8) 16.

Lemma rt_malloc_fit h lo hi size : heap_ok h lo hi -> 0 < size -> size + 7 < 2 ^ 32 ->
  match fit (need size) (mem_size_aligned h) (total lo) hi with
  | None => rt_malloc size h = Some (0, h)
  | Some (mid, len, post) => exists h' lo' hi', rt_malloc size h = Some (heap_ptr h + total (lo ++ mid) + 16, h') /\
      heap_ok h' lo' hi' /\ lo' ++ hi' = lo ++ mid ++ carved (need size) len ++ post /\ grown h h' /\ (all_used lo -> all_used lo')
  end.
Proof.
  intros Hok H0 Hs. pose proof (rt_align_8 size ltac:(lia) Hs) as [Ha Ha8]. pose proof Hok as [[Hwf Hl _] _].
  pose proof (wf_blocks _ _ Hwf) as Hbs. apply blocks_split in Hbs as (_ & Hbs & T1 & _ & _).
  assert (need size mod 8 = 0) as Hn8 by (unfold need; destruct (Z.max_spec (RT_ALIGN size 8) 16) as [[_ ->]|[_ ->]]; done).
  unfold rt_malloc. rewrite decide_False by lia. hstep.
  destruct (decide (mem_size_aligned h < RT_ALIGN size 8)) as [Hbig|Hbig]; [by rewrite fit_late by (done || unfold need; lia)|].
  assert ((if decide (RT_ALIGN size 8 < MIN_SIZE_ALIGNED) then MIN_SIZE_ALIGNED else RT_ALIGN size 8) = need size) as ->.
  { rewrite min_size_aligned. unfold need. case_decide; lia. }
  do 2 hstep. rewrite Hl, (malloc_loop_ok _ _ _ _ _ Hwf); [|pose proof (wf_room _ _ Hwf); unfold need; lia|by eapply heap_fuel_enough].
  destruct (fit _ _ _ hi) as [[[mid len] post]|] eqn:E; [|done]. apply fit_app in E as (-> & E1 & E2).
  apply take_block_ok; [done|unfold need; lia|done|done].
Qed.

(** ** What the users see *)

(** The heap, and the room handed out at each address. *)
Definition handed_out (h : heap) (lo hi : blocks) : gmap Z Z := allocated (heap_ptr h) (lo ++ hi).

Definition apart (a n b m : Z) : Prop := a + n <= b \/ b + m <= a.

Lemma allocated_below p bs a : Forall block_ok bs -> a < p + 16 -> allocated p bs !! a = None.
Proof. intros H Ha. destruct (allocated p bs !! a) eqn:E; [|done]. apply allocated_range in E; [lia|done]. Qed.

(** A free block becomes a used one. *)
Lemma allocated_carve p l1 n len l2 k rest : carved n len = (k, true) :: rest -> Forall block_ok (l1 ++ carved n len ++ l2) ->
  allocated p (l1 ++ carved n len ++ l2) = <[p + total l1 + 16 := k - 16]> (allocated p (l1 ++ (len, false) :: l2)).
Proof.
  intros Ek Hok. rewrite !allocated_app. cbn [allocated]. rewrite total_carved.
  apply Forall_app in Hok as [H1 _]. rewrite insert_union_r.
  - f_equal. unfold carved in *. case_decide; injection Ek as <- <-; cbn [allocated].
    + rewrite <- insert_union_l, (left_id_L ∅ (∪)). done.
    + rewrite <- insert_union_l, (left_id_L ∅ (∪)). done.
  - destruct (allocated p l1 !! _) eqn:E; [|done]. apply allocated_range in E; [lia|done].
Qed.

Lemma allocated_free p l1 a l2 : Forall block_ok (l1 ++ (a, true) :: l2) ->
  allocated p (l1 ++ (a, false) :: l2) = delete (p + total l1 + 16) (allocated p (l1 ++ (a, true) :: l2)).
Proof.
  intros Hok. apply Forall_app in Hok as [H1 H2]. apply Forall_cons in H2 as [[Ha _] H2]. simpl in Ha.
  rewrite !allocated_app. cbn [allocated]. rewrite delete_union, delete_insert_id, (delete_id (allocated p l1)); [done|..].
  - destruct (allocated p l1 !! _) eqn:E; [|done]. apply allocated_range in E; [lia|done].
  - apply allocated_below; [done|lia].
Qed.

Lemma allocated_block a n bs : forall p, allocated p bs !! a = Some n ->
  exists l1 l2, bs = l1 ++ (n + 16, true) :: l2 /\ a = p + total l1 + 16.
Proof.
  induction bs as [|[len u] bs IH]; intros p E; [done|]. simpl in E.
  assert (allocated (p + len) bs !! a = Some n -> exists l1 l2, (len, u) :: bs = l1 ++ (n + 16, true) :: l2 /\ a = p + total l1 + 16) as Hr.
  { intros E'. destruct (IH _ E') as (l1 & l2 & -> & ->). exists ((len, u) :: l1), l2. simpl. split; [done|lia]. }
  destruct u; [|by apply Hr]. apply lookup_insert_Some in E as [[<- <-]|[_ E]]; [|by apply Hr].
  exists [], bs. simpl. split; [|lia]. by replace (len - 16 + 16) with len by lia.
Qed.

Lemma allocated_apart a n b m bs : forall p, Forall block_ok bs -> allocated p bs !! a = Some n -> allocated p bs !! b = Some m -> a <> b -> apart a n b m.
Proof.
  induction bs as [|[len u] bs IH]; intros p Hok E1 E2 Hne; [done|]. apply Forall_cons in Hok as [[Hl _] Hok]. simpl in *.
  destruct u; [|by eapply IH].
  apply lookup_insert_Some in E1 as [[<- <-]|[_ E1]]; apply lookup_insert_Some in E2 as [[<- <-]|[_ E2]]; [done|..|by eapply IH].
  - apply allocated_range in E2; [|done]. unfold apart. lia.
  - apply allocated_range in E1; [|done]. unfold apart. lia.
Qed.

(** [A] is what has been handed out: addresses, and the room behind each. *)
Definition heap_serves (h : heap) (A : gmap Z Z) : Prop := exists lo hi, heap_ok h lo hi /\ A = handed_out h lo hi.

Lemma serves_apart h A a n b m : heap_serves h A -> A !! a = Some n -> A !! b = Some m -> a <> b -> apart a n b m.
Proof. intros (lo & hi & [[Hwf _ _] _] & ->). apply allocated_apart, Hwf. Qed.

Lemma serves_inside h A a n : heap_serves h A -> A !! a = Some n ->
  heap_ptr h + 16 <= a /\ 8 <= n /\ a + n <= heap_ptr h + heap_end h /\ a mod 8 = 0.
Proof.
  intros (lo & hi & [[Hwf _ _] _] & ->) E. pose proof (wf_blocks _ _ Hwf) as Hok. pose proof (wf_total _ _ Hwf) as Ht.
  apply allocated_range in E as Hr; [|done]. destruct (allocated_block _ _ _ _ E) as (l1 & l2 & Eb & ->).
  pose proof (wf_ptr _ _ Hwf) as [_ Hp8]. rewrite Eb in Hok. apply blocks_split in Hok as (_ & _ & _ & _ & T8).
  split_and!; [lia..|]. by repeat apply mod_8_add.
Qed.

Lemma rt_malloc_serves h A size : heap_serves h A -> 0 < size -> size + 7 < 2 ^ 32 ->
  rt_malloc size h = Some (0, h) \/
  exists h' p n, rt_malloc size h = Some (p, h') /\ p <> 0 /\ A !! p = None /\ size <= n /\ heap_serves h' (<[p := n]> A) /\ grown h h'.
Proof.
  intros (lo & hi & Hok & ->) H0 Hs. pose proof (rt_malloc_fit h lo hi size Hok H0 Hs) as Hm.
  destruct (fit _ _ _ _) as [[[mid len] post]|] eqn:E; [|by left]. right. destruct Hm as (h' & lo' & hi' & Em & Hok' & Eb & Hg & _).
  apply fit_app in E as (-> & E1 & E2). destruct (carved_used (need size) len) as (k & rest & Ek).
  pose proof Hok' as [[Hwf' _ _] _]. pose proof (wf_blocks _ _ Hwf') as Hbs'. rewrite Eb, app_assoc in Hbs'.
  pose proof Hok as [[Hwf _ _] _]. pose proof (wf_blocks _ _ Hwf) as Hbs. rewrite app_assoc in Hbs.
  pose proof (allocated_carve (heap_ptr h) (lo ++ mid) _ _ post _ _ Ek Hbs') as Ec.
  apply blocks_split in Hbs as (_ & Hbs2 & T1 & _ & _). pose proof (wf_ptr _ _ Hwf) as [Hp _].
  pose proof (rt_align_8 size ltac:(lia) Hs) as [Ha _].
  exists h', (heap_ptr h + total (lo ++ mid) + 16), (k - 16). split; [done|]. split; [lia|]. split; [|split; [|split; [|done]]].
  - unfold handed_out. rewrite app_assoc, allocated_app. apply lookup_union_None. cbn [allocated].
    apply Forall_cons in Hbs2 as [[Hl _] Hbs2]. apply Forall_app in Hbs' as [Hbs1 _]. simpl in Hl. split.
    + destruct (allocated _ (lo ++ mid) !! _) eqn:E; [|done]. apply allocated_range in E; [lia|done].
    + apply allocated_below; [done|lia].
  - unfold carved, need in *. case_decide; injection Ek as <- _; lia.
  - exists lo', hi'. split; [done|]. unfold handed_out. rewrite Eb, !(app_assoc lo mid). destruct Hg as (-> & _). by rewrite Ec.
Qed.

Lemma rt_free_serves h A p n : heap_serves h A -> A !! p = Some n ->
  exists h', rt_free p h = Some (tt, h') /\ heap_serves h' (delete p A) /\ frame h h'.
Proof.
  intros (lo & hi & Hok & ->) E. destruct (allocated_block _ _ _ _ E) as (l1 & l2 & Eb & ->).
  destruct (rt_free_ok h lo hi l1 _ l2 Hok Eb) as (h' & lo' & hi' & Ef & Hok' & Eb' & Hfr & _).
  exists h'. split; [done|]. split; [|done]. exists lo', hi'. split; [done|].
  pose proof Hok as [[Hwf _ _] _]. pose proof (wf_blocks _ _ Hwf) as Hbs. rewrite Eb in Hbs.
  unfold handed_out. destruct Hfr as (-> & _). rewrite Eb', allocated_coalesce, Eb. symmetry. by apply allocated_free.
Qed.

(** ** Changing the size of a block *)

Lemma heap_ok_bytes f h lo hi : heap_ok h lo hi -> bytes_ok (f (heap_bytes h)) -> heap_ok (with_bytes f h) lo hi.
Proof. intros [[[] ? ?] ?] ?. done. Qed.

Lemma allocated_shrink p l1 n k l2 : Forall block_ok (l1 ++ (n + 16, true) :: l2) ->
  allocated p (l1 ++ (k + 16, true) :: (n - k, false) :: l2) = <[p + total l1 + 16 := k]> (allocated p (l1 ++ (n + 16, true) :: l2)).
Proof.
  intros Hok. apply Forall_app in Hok as [H1 _]. rewrite !allocated_app. cbn [allocated].
  rewrite insert_union_r.
  - rewrite insert_insert_eq, !Z.add_simpl_r. do 3 f_equal. lia.
  - destruct (allocated p l1 !! _) eqn:E; [|done]. apply allocated_range in E; [lia|done].
Qed.

(** [lfree] stays where it is when a used block is split. *)
Lemma shrink_split l1 a k l2 lo hi : lo ++ hi = l1 ++ (a, true) :: l2 -> starts_free hi ->
  exists lo' hi', lo' ++ hi' = l1 ++ (k, true) :: (a - k, false) :: l2 /\ starts_free hi' /\ total lo' = total lo.
Proof.
  intros E Hf. apply app_eq_app in E as [x [[-> E]|[-> E]]].
  - destruct x as [|b x]; simpl in E; [by subst hi|]. injection E as <- ->.
    exists (l1 ++ (k, true) :: (a - k, false) :: x), hi. rewrite <- app_assoc. split_and!; [done|done|]. rewrite !total_app. simpl. lia.
  - exists lo, (x ++ (k, true) :: (a - k, false) :: l2). rewrite <- app_assoc. split_and!; [done| |done]. subst hi. by destruct x.
Qed.

(** The part of [rt_realloc] that gives back the end of a block. *)
Lemma shrink_ok h lo hi l1 n l2 k : heap_ok h lo hi -> lo ++ hi = l1 ++ (n + 16, true) :: l2 -> k mod 8 = 0 -> 8 <= k -> k + 28 < n ->
  exists h' lo' hi', (modify (fun h => with_stats (u32 (used_mem h - (n - k))) (max_mem h) h);;
      put_header (total l1 + (k + 16)) (HeapMem HEAP_MAGIC 0 (total l1 + (n + 16)) (total l1));;
      set_next (total l1) (total l1 + (k + 16));;
      when (bool_decide (total l1 + (n + 16) <> u32 (mem_size_aligned h + 16))) (set_prev (total l1 + (n + 16)) (total l1 + (k + 16)));;
      plug_holes (total l1 + (k + 16))) h = Some (tt, h') /\
    heap_ok h' lo' hi' /\ lo' ++ hi' = coalesce (l1 ++ (k + 16, true) :: (n - k, false) :: l2) /\ frame h h'.
Proof.
  intros [[Hwf Hl Hf] Hc] E Hk8 Hk Hkn. rewrite E in Hwf, Hc.
  destruct (wf_bounds _ _ _ _ _ Hwf) as (T1 & T8 & Ha & Ha8 & T2 & Ht & He & Hb & Ea & U1 & U2).
  pose proof (wf_used _ _ Hwf) as Hu. rewrite used_total_app in Hu. simpl in Hu.
  destruct (shrink_split l1 (n + 16) (k + 16) l2 lo hi E Hf) as (lo1 & hi1 & E1 & Hf1 & Hl1).
  replace (n + 16 - (k + 16)) with (n - k) in E1 by lia.
  apply coalesced_app in Hc as [Hc1 [_ Hc2]].
  hstep. unfold put_header. hstep. erewrite bind_eval by (apply set_next_eval; simpl; hlookup; exact Ea).
  erewrite bind_eval by (apply (relink_eval h _ l1 (n + 16) true l2); [done|simpl; by hlookup]). cbn [magic used next prev head_of snd].
  match goal with |- context [plug_holes _ ?h2] => assert (heap_lf h2 lo1 hi1) as Hlf end.
  { split; [|by rewrite Hl1, <- Hl|done]. rewrite E1. replace (n - k) with (n + 16 - (k + 16)) by lia.
    apply (split_wf h l1 (n + 16) true (k + 16) true l2 _ _ _ _ Hwf).
    - split; [simpl; lia|by apply mod_8_add].
    - split; [simpl; lia|]. simpl. rewrite Zminus_mod, Ha8, (mod_8_add k 16) by done. done.
    - destruct l2; simpl; hlookup; done.
    - unfold head_of. simpl. replace (total l1 + (k + 16) + (n + 16 - (k + 16))) with (total l1 + (n + 16)) by lia. destruct l2; simpl; hlookup; done.
    - destruct l2; simpl; hlookup; done.
    - intros j H1 H2 H3. destruct l2; simpl; hlookup; done.
    - simpl. rewrite used_total_app. simpl. rewrite wrap_small by (unfold in_range; lia). lia. }
  replace (l1 ++ (k + 16, true) :: (n - k, false) :: l2) with ((l1 ++ [(k + 16, true)]) ++ (n - k, false) :: l2) in E1 |- * by by rewrite <- app_assoc.
  edestruct (plug_holes_ok _ _ _ _ _ _ Hlf E1) as (h2 & E2 & lo2 & hi2 & Hlf2 & Eb2 & Hfr & _); [|done|].
  { clear -Hc1. induction l1 as [|b l1 IH]; simpl in *; [done|]. destruct Hc1 as [H Hc]. split; [destruct l1; [done|exact H]|by apply IH]. }
  rewrite total_app in E2. simpl total in E2. rewrite Z.add_0_r in E2.
  exists h2, lo2, hi2. split; [exact E2|]. split; [split; [done|rewrite Eb2; apply coalesced_coalesce]|]. split; [done|exact Hfr].
Qed.

(** What [rt_realloc] may do with the block at [p], of [n] bytes, asked for [size]. *)
Inductive resized (h : heap) (A : gmap Z Z) (p n size : Z) : Z -> heap -> Prop :=
  | resized_none : resized h A p n size 0 h
  | resized_kept : size <= n -> resized h A p n size p h
  | resized_cut m h' : size <= m < n -> heap_serves h' (<[p := m]> A) -> frame h h' -> resized h A p n size p h'
  | resized_moved q m h' : q <> 0 -> A !! q = None -> RT_ALIGN size 8 <= m -> heap_serves h' (delete p (<[q := m]> A)) ->
      heap_ptr h' = heap_ptr h -> heap_end h' = heap_end h ->
      (forall x, heap_bytes h' x = moved q p (Z.min n (RT_ALIGN size 8)) (heap_bytes h) x) -> resized h A p n size q h'.

Lemma serves_bytes f h A : heap_serves h A -> bytes_ok (f (heap_bytes h)) -> heap_serves (with_bytes f h) A.
Proof. intros (lo & hi & Hok & ->) Hb. exists lo, hi. split; [by apply heap_ok_bytes|done]. Qed.
Lemma serves_bytes_ok h A : heap_serves h A -> bytes_ok (heap_bytes h).
Proof. intros (lo & hi & [[Hwf _ _] _] & _). apply (wf_bytes _ _ Hwf). Qed.

(** The contents move to the new block, and the old one is given back. *)
Lemma move_ok h h1 A p n k q m : A !! p = Some n -> q <> p -> heap_serves h1 (<[q := m]> A) -> 0 <= k -> k <= m -> heap_bytes h1 = heap_bytes h ->
  exists h2, rt_free p (with_bytes (rt_memcpy q p (if decide (n < k) then n else k)) h1) = Some (tt, h2) /\
    heap_serves h2 (delete p (<[q := m]> A)) /\ heap_ptr h2 = heap_ptr h1 /\ heap_end h2 = heap_end h1 /\
    forall x, heap_bytes h2 x = moved q p (Z.min n k) (heap_bytes h) x.
Proof.
  intros Hp Hqp Hsv Hk Hm Eb. assert ((<[q := m]> A) !! p = Some n) as Hp' by by rewrite lookup_insert_ne.
  destruct (serves_inside _ _ _ _ Hsv Hp') as (_ & Hn & _). pose proof (serves_bytes_ok _ _ Hsv) as Hb.
  assert (disjoint_ranges q p (Z.min n k)) as Hd.
  { destruct (serves_apart _ _ _ _ _ _ Hsv (lookup_insert_eq A q m) Hp' Hqp); unfold disjoint_ranges; lia. }
  replace (if decide (n < k) then n else k) with (Z.min n k) by (case_decide; lia).
  destruct (rt_free_serves (with_bytes (rt_memcpy q p (Z.min n k)) h1) (<[q := m]> A) p n) as (h2 & Ef & Hsv2 & F1 & F2 & F3 & F4 & F5); [|done|].
  - apply serves_bytes; [done|]. apply rt_memcpy_ok; done || lia.
  - exists h2. split; [done|]. split; [done|]. split; [done|]. split; [done|]. intros x. rewrite F5, <- Eb. apply rt_memcpy_spec; done || lia.
Qed.

Lemma rt_realloc_serves h A p n size : heap_serves h A -> A !! p = Some n -> 0 < size -> size + 7 < 2 ^ 32 ->
  exists q h', rt_realloc p size h = Some (q, h') /\ resized h A p n size q h'.
Proof.
  intros Hsv E H0 Hs. pose proof (serves_inside _ _ _ _ Hsv E) as (P1 & P2 & P3 & P4).
  pose proof (rt_align_8 size ltac:(lia) Hs) as [Ha Ha8]. set (k := RT_ALIGN size 8) in *.
  assert (8 <= k) as Hk8 by (pose proof (Z.div_mod k 8 ltac:(lia)); lia).
  unfold rt_realloc. fold k. hstep. case_decide as Hbig; [by exists 0, h; split; [|constructor]|].
  destruct Hsv as (lo & hi & Hok & EA). pose proof Hok as [[Hwf Hl Hf] _]. pose proof (wf_ptr _ _ Hwf) as [Hp _].
  rewrite !decide_False by lia. do 2 hstep. rewrite decide_False by lia.
  rewrite EA in E. destruct (allocated_block _ _ _ _ E) as (l1 & l2 & Eb & Ep). rewrite Eb in Hwf.
  destruct (wf_bounds _ _ _ _ _ Hwf) as (T1 & T8 & Hn & Hn8 & T2 & Ht & He & Hb & Eh & U1 & U2).
  rewrite sizeof_struct_mem. replace (p - 16 - heap_ptr h) with (total l1) by lia. hstep. cbn [next head_of fst].
  rewrite (wrap_small 32 (total l1 + (n + 16) - total l1 - 16)) by (unfold in_range; lia).
  replace (total l1 + (n + 16) - total l1 - 16) with n by lia.
  case_decide as Heq; [exists p, h; split; [done|apply resized_kept; lia]|].
  rewrite (wrap_small 32 (k + 16 + MIN_SIZE)) by (unfold in_range, MIN_SIZE; lia).
  unfold MIN_SIZE. case_decide as Hcut.
  - rewrite (wrap_small 32 (total l1 + 16 + k)) by (unfold in_range; lia). replace (total l1 + 16 + k) with (total l1 + (k + 16)) by lia.
    destruct (shrink_ok h lo hi l1 n l2 k Hok Eb Ha8 Hk8 ltac:(lia)) as (h' & lo' & hi' & E' & Hok' & Eb' & Hfr).
    exists p, h'. split.
    + unfold mbind, M_bind in *. destruct (modify _ h) as [[[] h1]|] eqn:E1; [|done].
      repeat match type of E' with context [match ?m ?s with _ => _ end] => destruct (m s) as [[[] ?]|]; [|done] end. by rewrite E'.
    + apply (resized_cut _ _ _ _ _ k); [lia| |done]. exists lo', hi'. split; [done|]. unfold handed_out. destruct Hfr as (-> & _).
      rewrite Eb', allocated_coalesce, allocated_shrink by apply Hwf. rewrite EA, Ep. unfold handed_out. by rewrite Eb.
  - assert (heap_serves h A) as Hsv by (by exists lo, hi). subst A.
    destruct (rt_malloc_serves h _ k Hsv) as [Em|(h1 & q & m & Em & Hq & Hnew & Hm & Hsv1 & Hg)]; [lia|lia|..].
    + rewrite (bind_eval _ _ _ _ _ Em), bool_decide_false by (intros ?; done). exists 0, h. split; [done|constructor].
    + rewrite (bind_eval _ _ _ _ _ Em), bool_decide_true by done. cbn [when].
      assert (q <> p) as Hqp by (intros ->; congruence).
      destruct (move_ok h h1 (handed_out h lo hi) p n k q m) as (h2 & Ef & Hsv2 & F1 & F2 & F3); [done|done|done|lia|done|apply Hg|].
      exists q, h2. split; [unfold mbind, M_bind, modify; by rewrite Ef|]. destruct Hg as (G1 & G2 & _).
      by apply (resized_moved _ _ _ _ _ q m); [..|rewrite F1|rewrite F2|].
Qed.

(** ** From the initialisation on *)

(** 48 bytes between the aligned ends: two headers, and the smallest request. *)
Lemma rt_system_heap_init_ok b e h : 0 < b -> b + 7 < 2 ^ 32 -> 0 <= e < 2 ^ 32 -> RT_ALIGN b 8 + 48 <= RT_ALIGN_DOWN e 8 -> used_mem h = 0 -> bytes_ok (heap_bytes h) ->
  exists h', rt_system_heap_init b e h = Some (tt, h') /\ heap_ok h' [] [(RT_ALIGN_DOWN e 8 - RT_ALIGN b 8 - 16, false)] /\
    heap_ptr h' = RT_ALIGN b 8 /\ heap_end h' = RT_ALIGN_DOWN e 8 - RT_ALIGN b 8 - 16.
Proof.
  intros Hb Hb' He Hroom Hu Hbs. destruct (rt_align_8 b ltac:(lia) Hb') as [Hab Hab8]. destruct (rt_align_down_8 e ltac:(lia)) as [Hae Hae8].
  unfold rt_system_heap_init. rewrite sizeof_struct_mem. rewrite decide_True by lia.
  set (x := RT_ALIGN b 8) in *. set (y := RT_ALIGN_DOWN e 8) in *. rewrite wrap_small by (unfold in_range; lia).
  replace (y - x - 2 * 16 + 16) with (y - x - 16) by lia.
  eexists. split; [reflexivity|]. split; [|done]. split; [|simpl; done]. split; [|done|done].
  split; simpl; try done || lia.
  - repeat constructor; simpl; [lia|]. rewrite Zminus_mod, (Zminus_mod y x), Hae8, Hab8. done.
  - split; [|done]. rewrite lookup_insert_ne, lookup_insert_eq by lia. done.
  - eexists. apply lookup_insert_eq.
Qed.

Lemma rt_calloc_serves h A count size : heap_serves h A -> 0 < count * size -> count * size + 7 < 2 ^ 32 ->
  rt_calloc count size h = Some (0, h) \/
  exists h' p n, rt_calloc count size h = Some (p, h') /\ p <> 0 /\ A !! p = None /\ count * size <= n /\ heap_serves h' (<[p := n]> A) /\
    forall i, 0 <= i < count * size -> heap_bytes h' (p + i) = 0.
Proof.
  intros Hsv H0 Hs. unfold rt_calloc. rewrite (wrap_small 32 (count * size)) by (unfold in_range; lia).
  destruct (rt_malloc_serves h A (count * size) Hsv H0 Hs) as [E|(h' & p & n & E & Hp & Hnew & Hn & Hsv' & Hg)].
  - left. rewrite (bind_eval _ _ _ _ _ E). by rewrite bool_decide_false by (intros ?; done).
  - right. rewrite (bind_eval _ _ _ _ _ E). rewrite bool_decide_true by done. eexists _, p, n. split; [reflexivity|].
    split; [done|]. split; [done|]. split; [done|]. split.
    + apply serves_bytes; [done|]. apply rt_memset_ok; [lia|by apply (serves_bytes_ok _ _ Hsv')].
    + intros i Hi. simpl. rewrite rt_memset_spec by lia. unfold filled. by rewrite decide_True by lia.
Qed.

(** A string in memory that somebody owns. *)
Lemma rt_strdup_copies h A fuel s str a n : heap_serves h A -> str_at (heap_bytes h) s str -> (length str < fuel)%nat ->
  A !! a = Some n -> a <= s -> s + Z.of_nat (length str) < a + n -> Z.of_nat (length str) + 8 < 2 ^ 32 ->
  exists p h', rt_strdup fuel s h = Some (p, h') /\ (p = 0 \/ exists m, heap_serves h' (<[p := m]> A) /\ str_at (heap_bytes h') p str).
Proof.
  intros Hsv Hs Hf Ha H1 H2 H3. unfold rt_strdup, deref. unfold mbind at 1, M_bind at 1. rewrite (rt_strlen_ok _ _ _ _ Hs Hf).
  set (len := Z.of_nat (length str) + 1). rewrite (wrap_small 32 len) by (unfold in_range; lia).
  destruct (rt_malloc_serves h A len Hsv) as [E|(h' & p & m & E & Hp & Hnew & Hm & Hsv' & Hg)]; [lia|lia|..]; rewrite (bind_eval _ _ _ _ _ E).
  - rewrite bool_decide_false by (intros ?; done). exists 0, h. split; [done|by left].
  - rewrite bool_decide_true by done. eexists p, _. split; [reflexivity|]. right. exists m.
    assert (disjoint_ranges p s len) as Hd.
    { assert (a <> p) as Hne by congruence. destruct (serves_apart h' _ a n p m Hsv'); [by rewrite lookup_insert_ne by done|apply lookup_insert_eq|done|..];
        unfold disjoint_ranges; lia. }
    pose proof (serves_bytes_ok _ _ Hsv') as Hb. split; [apply serves_bytes; [done|apply rt_memcpy_ok; done || lia]|].
    destruct Hg as (_ & _ & _ & Eb & _). rewrite <- Eb in Hs. simpl.
    apply (str_at_moved (heap_bytes h') _ str s p); [|done]. intros i Hi. rewrite rt_memcpy_spec by (done || lia). unfold moved. rewrite decide_True by lia. f_equal. lia.
Qed.

(** The heaps the users can bring about, and what they own: addresses, and the
    sizes they asked for.  They give back, and resize, what they own. *)
Inductive reachable : heap -> gmap Z Z -> Prop :=
  | reach_init b e h0 h : 0 < b -> b + 7 < 2 ^ 32 -> 0 <= e < 2 ^ 32 -> RT_ALIGN b 8 + 48 <= RT_ALIGN_DOWN e 8 -> used_mem h0 = 0 -> bytes_ok (heap_bytes h0) ->
      rt_system_heap_init b e h0 = Some (tt, h) -> reachable h ∅
  | reach_malloc h A size p h' : reachable h A -> 0 < size -> size + 7 < 2 ^ 32 -> rt_malloc size h = Some (p, h') ->
      reachable h' (if decide (p = 0) then A else <[p := size]> A)
  | reach_calloc h A count size p h' : reachable h A -> 0 < count * size -> count * size + 7 < 2 ^ 32 -> rt_calloc count size h = Some (p, h') ->
      reachable h' (if decide (p = 0) then A else <[p := count * size]> A)
  | reach_realloc h A p n size q h' : reachable h A -> A !! p = Some n -> 0 < size -> size + 7 < 2 ^ 32 -> rt_realloc p size h = Some (q, h') ->
      reachable h' (if decide (q = 0) then A else <[q := size]> (delete p A))
  | reach_free h A p n h' : reachable h A -> A !! p = Some n -> rt_free p h = Some (tt, h') -> reachable h' (delete p A)
  | reach_write h A f : reachable h A -> bytes_ok (f (heap_bytes h)) -> reachable (with_bytes f h) A.

(** What is owned is what has been handed out, with room enough. *)
Definition covers (A R : gmap Z Z) : Prop :=
  forall a, match A !! a, R !! a with Some n, Some m => n <= m | None, None => True | _, _ => False end.

Lemma covers_insert A R p n m : covers A R -> n <= m -> covers (<[p := n]> A) (<[p := m]> R).
Proof. intros H Hn a. destruct (decide (a = p)) as [->|Hne]; [by rewrite !lookup_insert_eq|rewrite !lookup_insert_ne by done; apply H]. Qed.
Lemma covers_delete A R p : covers A R -> covers (delete p A) (delete p R).
Proof. intros H a. destruct (decide (a = p)) as [->|Hne]; [by rewrite !lookup_delete_eq|rewrite !lookup_delete_ne by done; apply H]. Qed.
Lemma covers_Some A R p n : covers A R -> A !! p = Some n -> exists m, R !! p = Some m /\ n <= m.
Proof. intros H E. specialize (H p). rewrite E in H. destruct (R !! p) as [m|]; [by exists m|done]. Qed.

Lemma reachable_serves h A : reachable h A -> exists R, heap_serves h R /\ covers A R.
Proof.
  induction 1 as [b e h0 h H1 H2 H3 H4 H5 H6 E|h A size p h' _ (R & Hsv & Hc) H1 H2 E|h A count size p h' _ (R & Hsv & Hc) H1 H2 E
    |h A p n size q h' _ (R & Hsv & Hc) Hp H1 H2 E|h A p n h' _ (R & Hsv & Hc) Hp E|h A f _ (R & Hsv & Hc) Hf].
  - destruct (rt_system_heap_init_ok b e h0 H1 H2 H3 H4 H5 H6) as (h' & E' & Hok & _). rewrite E in E'. injection E' as <-.
    exists ∅. split; [|done]. by exists [], [(RT_ALIGN_DOWN e 8 - RT_ALIGN b 8 - 16, false)].
  - destruct (rt_malloc_serves _ _ _ Hsv H1 H2) as [E'|(h1 & q & m & E' & Hq & _ & Hm & Hsv' & _)]; rewrite E in E'; simplify_eq.
    + rewrite decide_True by done. by exists R.
    + rewrite decide_False by done. exists (<[q := m]> R). split; [done|by apply covers_insert].
  - destruct (rt_calloc_serves _ _ _ _ Hsv H1 H2) as [E'|(h1 & q & m & E' & Hq & _ & Hm & Hsv' & _)]; rewrite E in E'; simplify_eq.
    + rewrite decide_True by done. by exists R.
    + rewrite decide_False by done. exists (<[q := m]> R). split; [done|by apply covers_insert].
  - destruct (covers_Some _ _ _ _ Hc Hp) as (m & Hm & _). pose proof (serves_inside _ _ _ _ Hsv Hm) as (P1 & _).
    assert (p <> 0) as Hp0 by (destruct Hsv as (? & ? & [[Hwf _ _] _] & _); pose proof (wf_ptr _ _ Hwf); lia).
    destruct (rt_realloc_serves _ _ _ _ _ Hsv Hm H1 H2) as (q' & h1 & E' & Hr). rewrite E in E'. simplify_eq.
    destruct Hr as [|Hle|k h1 Hle Hsv' _|q k h1 Hq Hnew Hk Hsv' _ _ _].
    + rewrite decide_True by done. by exists R.
    + rewrite decide_False by done. exists R. split; [done|]. intros a. rewrite insert_delete_eq. destruct (decide (a = p)) as [->|Hne].
      * by rewrite lookup_insert_eq, Hm.
      * rewrite lookup_insert_ne by done. apply Hc.
    + rewrite decide_False, insert_delete_eq by done. exists (<[p := k]> R). split; [done|]. apply covers_insert; [done|lia].
    + rewrite decide_False by done. exists (delete p (<[q := k]> R)). split; [done|].
      rewrite delete_insert_ne by congruence. pose proof (rt_align_8 size ltac:(lia) H2). apply covers_insert; [by apply covers_delete|lia].
  - destruct (covers_Some _ _ _ _ Hc Hp) as (m & Hm & _). destruct (rt_free_serves _ _ _ _ Hsv Hm) as (h1 & E' & Hsv' & _).
    rewrite E in E'. simplify_eq. exists (delete p R). split; [done|by apply covers_delete].
  - exists R. split; [by apply serves_bytes|done].
Qed.

(** A search that starts behind used blocks misses nothing. *)
Lemma fit_skip n room lo hi : forall p, all_used lo -> fit n room p (lo ++ hi) =
  ('(mid, len, post) ← fit n room (p + total lo) hi; Some (lo ++ mid, len, post)).
Proof.
  induction lo as [|[l u] lo IH]; intros p Hu; simpl.
  - rewrite Z.add_0_r. by destruct (fit _ _ _ _) as [[[? ?] ?]|].
  - apply Forall_cons in Hu as [Hu Hlo]. simpl in Hu. subst u. rewrite decide_False by (intros [? _]; done).
    rewrite IH by done. replace (p + l + total lo) with (p + (l + total lo)) by lia. by destruct (fit _ _ _ hi) as [[[? ?] ?]|].
Qed.

(** ** The properties *)

(** C12: Whatever is allocated, resized and freed after [rt_system_heap_init],
    the blocks that are owned are aligned, inside the heap and disjoint, and the
    next request of at most 2^32 - 8 bytes or release of an owned block runs
    without a failing assertion; a new block is apart from all the others. *)
Theorem heap_is_safe h A : reachable h A ->
  (forall a n, A !! a = Some n -> a mod 8 = 0 /\ heap_ptr h + 16 <= a /\ a + n <= heap_ptr h + heap_end h) /\
  (forall a n b m, A !! a = Some n -> A !! b = Some m -> a <> b -> apart a n b m) /\
  (forall size, 0 < size -> size + 7 < 2 ^ 32 -> exists p h', rt_malloc size h = Some (p, h') /\
    (p <> 0 -> p mod 8 = 0 /\ p + size <= heap_ptr h + heap_end h /\ forall a n, A !! a = Some n -> apart a n p size)) /\
  (forall p n size, A !! p = Some n -> 0 < size -> size + 7 < 2 ^ 32 -> exists q h', rt_realloc p size h = Some (q, h')) /\
  (forall p n, A !! p = Some n -> exists h', rt_free p h = Some (tt, h')).
Proof.
  intros Hr. apply reachable_serves in Hr as (R & Hsv & Hc). split_and!.
  - intros a n Ha. destruct (covers_Some _ _ _ _ Hc Ha) as (m & Hm & ?). destruct (serves_inside _ _ _ _ Hsv Hm) as (? & ? & ? & ?). split_and!; [done|lia..].
  - intros a n b m Ha Hb Hne. destruct (covers_Some _ _ _ _ Hc Ha) as (n' & Hn & ?). destruct (covers_Some _ _ _ _ Hc Hb) as (m' & Hm & ?).
    destruct (serves_apart _ _ _ _ _ _ Hsv Hn Hm Hne); unfold apart; lia.
  - intros size H0 Hs. destruct (rt_malloc_serves _ _ _ Hsv H0 Hs) as [E|(h' & p & k & E & Hp & Hnew & Hk & Hsv' & Hg)]; [by exists 0, h|].
    exists p, h'. split; [done|]. intros _. destruct (serves_inside _ _ p k Hsv') as (? & ? & ? & ?); [apply lookup_insert_eq|].
    destruct Hg as (Ep & Ee & _). rewrite Ep, Ee in *. split; [done|]. split; [lia|]. intros a n Ha.
    destruct (covers_Some _ _ _ _ Hc Ha) as (n' & Hn & ?). assert (a <> p) as Hne by congruence.
    destruct (serves_apart h' _ a n' p k Hsv'); [by rewrite lookup_insert_ne by done|apply lookup_insert_eq|done|..]; unfold apart; lia.
  - intros p n size Ha H0 Hs. destruct (covers_Some _ _ _ _ Hc Ha) as (m & Hm & _).
    destruct (rt_realloc_serves _ _ _ _ _ Hsv Hm H0 Hs) as (q & h' & E & _). eauto.
  - intros p n Ha. destruct (covers_Some _ _ _ _ Hc Ha) as (m & Hm & _).
    destruct (rt_free_serves _ _ _ _ Hsv Hm) as (h' & E & _). eauto.
Qed.

(** C13: While nothing is free below [lfree], [rt_malloc] does what a first-fit
    search of the list of blocks says: it takes the first free block that is big
    enough and does not have to end exactly at the end of the heap, splits it if
    32 bytes are left over, and answers NULL without a change only if there is
    none. *)
Theorem rt_malloc_is_first_fit h lo hi size : heap_ok h lo hi -> all_used lo -> 0 < size -> size + 7 < 2 ^ 32 ->
  match fit (need size) (mem_size_aligned h) 0 (lo ++ hi) with
  | None => rt_malloc size h = Some (0, h)
  | Some (front, len, back) => exists h' lo' hi', rt_malloc size h = Some (heap_ptr h + total front + 16, h') /\
      heap_ok h' lo' hi' /\ lo' ++ hi' = front ++ carved (need size) len ++ back /\ all_used lo' /\ heap_bytes h' = heap_bytes h
  end.
Proof.
  intros Hok Hu H0 Hs. pose proof (rt_malloc_fit h lo hi size Hok H0 Hs) as Hm. rewrite fit_skip by done. rewrite Z.add_0_l.
  destruct (fit _ _ _ hi) as [[[mid len] post]|]; simpl; [|done]. destruct Hm as (h' & lo' & hi' & E & Hok' & Eb & Hg & Hu').
  exists h', lo', hi'. split; [done|]. split; [done|]. split; [by rewrite Eb, app_assoc|]. split; [by apply Hu'|by apply Hg].
Qed.

(** A block that is given back right after it has been allocated leaves the
    blocks of the heap as they were: the split is undone by the merging of free
    neighbours. *)
Theorem malloc_free_roundtrip h lo hi size p h' : heap_ok h lo hi -> 0 < size -> size + 7 < 2 ^ 32 ->
  rt_malloc size h = Some (p, h') -> p <> 0 ->
  exists h'' lo' hi', rt_free p h' = Some (tt, h'') /\ heap_ok h'' lo' hi' /\ lo' ++ hi' = lo ++ hi.
Proof.
  intros Hok H0 Hs Em Hp. pose proof (rt_malloc_fit h lo hi size Hok H0 Hs) as Hm.
  destruct (fit _ _ _ _) as [[[mid len] post]|] eqn:E; [|congruence]. destruct Hm as (h1 & lo' & hi' & Em' & Hok' & Eb & Hg & _).
  rewrite Em in Em'. injection Em' as -> <-. apply fit_app in E as (-> & _ & _). destruct Hok as [_ Hc].
  rewrite !app_assoc in Hc. destruct (coalesced_app _ _ Hc) as [Hc1 _].
  unfold carved in Eb. rewrite (app_assoc lo) in Eb.
  case_decide as Hd; cbn [app] in Eb; destruct (rt_free_ok h' lo' hi' _ _ _ Hok' Eb) as (h2 & lo2 & hi2 & Ef & Hok2 & Eb2 & _);
    (destruct Hg as (Ep & _); rewrite Ep in Ef; exists h2, lo2, hi2; split; [done|]; split; [done|]; rewrite Eb2, app_assoc).
  - rewrite <- coalesce_coalesce, coalesce_two, coalesce_coalesce.
    replace (need size + 16 + (len - (need size + 16))) with len by lia. by apply coalesce_id.
  - by apply coalesce_id.
Qed.

(** A size of 0, or one that the alignment wraps to 0. *)
Lemma rt_align_wraps size : size = 0 \/ 2 ^ 32 - 7 <= size < 2 ^ 32 -> RT_ALIGN size 8 = 0.
Proof.
  intros H. unfold RT_ALIGN. replace (size + 8 - 1) with (size + 7) by lia. set (r := u32 (size + 7)).
  assert (0 <= r < 8) as Hr.
  { subst r. unfold u32, wrap. destruct H as [->|H]; [done|].
    replace ((size + 7) mod 2 ^ 32) with (size + 7 - 2 ^ 32); [lia|]. apply (Zmod_unique _ _ 1); lia. }
  assert (r = 0 \/ r = 1 \/ r = 2 \/ r = 3 \/ r = 4 \/ r = 5 \/ r = 6 \/ r = 7) as Hc by lia.
  destruct Hc as [-> | [-> | [-> | [-> | [-> | [-> | [-> | ->]]]]]]]; reflexivity.
Qed.

Lemma rt_realloc_gives_back h A p n size : heap_serves h A -> A !! p = Some n -> RT_ALIGN size 8 = 0 ->
  exists h', rt_realloc p size h = Some (0, h') /\ heap_serves h' (delete p A) /\ frame h h'.
Proof.
  intros Hsv E H0. destruct (rt_free_serves _ _ _ _ Hsv E) as (h' & Ef & Hsv' & Hfr). exists h'. split; [|done].
  assert (0 <= mem_size_aligned h) as Hm.
  { destruct Hsv as (lo & hi & [[Hwf _ _] _] & EA). rewrite EA in E. destruct (allocated_block _ _ _ _ E) as (l1 & l2 & Eb & Ep).
    rewrite Eb in Hwf. pose proof (wf_bounds _ _ _ _ _ Hwf). lia. }
  unfold rt_realloc. rewrite H0. hstep. rewrite decide_False by lia. rewrite decide_True by done. unfold mbind, M_bind. by rewrite Ef.
Qed.

(** C14: [rt_realloc] of an owned block to a size from 1 to 2^32 - 8 answers
    NULL and changes nothing, or a block of at least the new size with the old
    contents up to the smaller of the two sizes; the contents of the other
    blocks stay. For the other sizes, 0 and those that the alignment wraps to 0,
    it frees the block and answers NULL. *)
Theorem rt_realloc_keeps_contents h A p n size : heap_serves h A -> A !! p = Some n -> in_range 32 size ->
  if decide (0 < size /\ size + 7 < 2 ^ 32) then exists q h' m, rt_realloc p size h = Some (q, h') /\
    if decide (q = 0) then h' = h
    else size <= m /\ heap_serves h' (<[q := m]> (delete p A)) /\
      (forall i, 0 <= i < Z.min n size -> heap_bytes h' (q + i) = heap_bytes h (p + i)) /\
      (forall r k i, r <> p -> A !! r = Some k -> 0 <= i < k -> heap_bytes h' (r + i) = heap_bytes h (r + i))
  else exists h', rt_realloc p size h = Some (0, h') /\ heap_serves h' (delete p A) /\
    (forall x, heap_bytes h' x = heap_bytes h x).
Proof.
  intros Hsv E Hrg. unfold in_range in Hrg. case_decide as Hc.
  2: { destruct (rt_realloc_gives_back h A p n size Hsv E) as (h' & Er & Hsv' & _ & _ & _ & _ & Hb); [apply rt_align_wraps; lia|].
       exists h'. split; [done|]. split; [done|]. by rewrite Hb. }
  destruct Hc as [H0 Hs]. pose proof (serves_inside _ _ _ _ Hsv E) as (P1 & _).
  assert (p <> 0) as Hp0 by (destruct Hsv as (? & ? & [[Hwf _ _] _] & _); pose proof (wf_ptr _ _ Hwf); lia).
  pose proof (rt_align_8 size ltac:(lia) Hs) as [Ha _].
  destruct (rt_realloc_serves _ _ _ _ _ Hsv E H0 Hs) as (q & h' & Er & Hr).
  destruct Hr as [|Hle|m h' Hm Hsv' Hfr|q m h' Hq Hnew Hm Hsv' _ _ Hb].
  - exists 0, h, 0. by rewrite decide_True by done.
  - exists p, h, n. rewrite decide_False by done. split; [done|]. split; [done|]. rewrite insert_delete_eq, insert_id by done. done.
  - exists p, h', m. rewrite decide_False by done. split; [done|]. split; [lia|]. rewrite insert_delete_eq. destruct Hfr as (_ & _ & _ & _ & ->). done.
  - exists q, h', m. rewrite decide_False by done. split; [done|]. split; [lia|]. rewrite delete_insert_ne in Hsv' by congruence.
    split; [done|]. unfold moved in Hb. split.
    + intros i Hi. rewrite Hb, decide_True by lia. f_equal. lia.
    + intros r k i Hrp Hr Hi. assert (r <> q) as Hrq by congruence. rewrite Hb, decide_False; [done|].
      destruct (serves_apart h' _ r k q m Hsv'); [by rewrite lookup_insert_ne, lookup_delete_ne by done|apply lookup_insert_eq|done|lia..].
Qed.

(** ** Concrete heaps *)

(** The heap before [rt_system_heap_init], one of 4080 bytes, and what 100 bytes
    of it leave. *)
Definition no_heap : heap := Heap 0 0 0 0 0 0 ∅ (fun _ => 0).
Definition heap_after {A} (m : HM A) (h : heap) : heap := match m h with Some (_, h') => h' | None => h end.
Definition heap_4k : heap := heap_after (rt_system_heap_init 4096 8192) no_heap.
Definition heap_100 : heap := heap_after (rt_malloc 100) heap_4k.

Lemma heap_4k_ok : heap_ok heap_4k [] [(4080, false)].
Proof.
  destruct (rt_system_heap_init_ok 4096 8192 no_heap) as (h & E & Hok & _); [lia..|vm_compute; discriminate|done|done|].
  unfold heap_4k, heap_after. rewrite E. exact Hok.
Qed.

Lemma heap_100_reachable : reachable heap_100 {[4112 := 100]}.
Proof.
  apply (reach_malloc heap_4k ∅ 100 4112 heap_100); [|lia|lia|vm_compute; reflexivity].
  apply (reach_init 4096 8192 no_heap); [lia..|vm_compute; discriminate|done|done|vm_compute; reflexivity].
Qed.

Lemma heap_100_serves : heap_serves heap_100 {[4112 := 104]}.
Proof.
  exists [(120, true)], [(3960, false)]. split; [|vm_compute; reflexivity]. split; [|by repeat split]. split; [|reflexivity..].
  split; try (vm_compute; by intuition congruence).
  - repeat constructor; simpl; lia.
  - exists 4080. vm_compute. reflexivity.
Qed.

(** The end of a block that [rt_realloc] gives back below [lfree] is not found
    again: 1984 bytes are free, and 1000 are not to be had. *)
Example shrinking_loses_memory : fst <$> (rt_system_heap_init 4096 8192;;
    p ← rt_malloc 2000; _ ← rt_malloc 2000; _ ← rt_realloc p 16; rt_malloc 1000) no_heap = Some 0.
Proof. vm_compute. reflexivity. Qed.

(** The sizes wrap around: the block has 16 bytes. *)
Example huge_request_is_served : fst <$> (rt_system_heap_init 4096 8192;; rt_malloc (2 ^ 32 - 1)) no_heap = Some 4112.
Proof. vm_compute. reflexivity. Qed.
Example calloc_wraps : fst <$> (rt_system_heap_init 4096 8192;; rt_calloc 3 0x55555556) no_heap = Some 4112.
Proof. vm_compute. reflexivity. Qed.

(** A block that would end exactly where the heap ends is never given out whole. *)
Example last_bytes_stay_unused : fst <$> (rt_system_heap_init 4096 8192;; rt_malloc 4064) no_heap = Some 0 /\
  fst <$> (rt_system_heap_init 4096 8192;; rt_malloc 4056) no_heap = Some 4112.
Proof. vm_compute. split; reflexivity. Qed.

(** Freeing twice stops in an assertion. *)
Example double_free_halts : (rt_system_heap_init 4096 8192;; p ← rt_malloc 8; rt_free p;; rt_free p) no_heap = None.
Proof. vm_compute. reflexivity. Qed.

(** ** Witnesses *)

Lemma heap_is_safe_witness : reachable heap_100 {[4112 := 100]} /\ exists p h', rt_malloc 8 heap_100 = Some (p, h').
Proof.
  split; [exact heap_100_reachable|].
  destruct (heap_is_safe heap_100 _ heap_100_reachable) as (_ & _ & H & _). destruct (H 8) as (p & h' & E & _); [lia..|eauto].
Defined.

Lemma rt_malloc_is_first_fit_witness : exists h' lo' hi', rt_malloc 100 heap_4k = Some (4112, h') /\
  heap_ok h' lo' hi' /\ lo' ++ hi' = [(120, true); (3960, false)] /\ all_used lo' /\ heap_bytes h' = heap_bytes heap_4k.
Proof. exact (rt_malloc_is_first_fit heap_4k [] [(4080, false)] 100 heap_4k_ok (Forall_nil_2 _) eq_refl eq_refl). Defined.

Lemma malloc_free_roundtrip_witness : exists h lo hi, rt_free 4112 heap_100 = Some (tt, h) /\ heap_ok h lo hi /\ lo ++ hi = [(4080, false)].
Proof.
  apply (malloc_free_roundtrip heap_4k [] [(4080, false)] 100 4112 heap_100 heap_4k_ok); [lia|lia| |lia]. vm_compute. reflexivity.
Defined.

Lemma rt_realloc_keeps_contents_witness : exists q h' m, rt_realloc 4112 200 heap_100 = Some (q, h') /\
  if decide (q = 0) then h' = heap_100
  else 200 <= m /\ heap_serves h' (<[q := m]> (delete 4112 {[4112 := 104]})) /\
    (forall i, 0 <= i < Z.min 104 200 -> heap_bytes h' (q + i) = heap_bytes heap_100 (4112 + i)) /\
    (forall r k i, r <> 4112 -> ({[4112 := 104]} : gmap Z Z) !! r = Some k -> 0 <= i < k -> heap_bytes h' (r + i) = heap_bytes heap_100 (r + i)).
Proof.
  pose proof (rt_realloc_keeps_contents heap_100 _ 4112 104 200 heap_100_serves) as H.
  rewrite decide_True in H by lia. apply H; [vm_compute; reflexivity|unfold in_range; lia].
Defined.
