(* ===== verification/Startup.v ===== *)
(** * Startup: from reset to the main thread

    [rtthread_startup] of components.c and what it calls.  [rt_hw_board_init] is
    assembly, hardware registers and the heap: a parameter, which leaves the
    threads alone and gives the heap as it has left it, for the memory of the
    main thread is allocated there.  [rt_show_version] prints, [rt_system_timer_thread_init] does
    nothing without soft timers.  [rt_system_scheduler_start] does not come back:
    its result is the state in which the first thread starts to run. *)

From S2P Require Import Kernel Sched Object Timer Thread Ipc Demo Life Idle Mem.

Definition RT_MAIN_THREAD_PRIORITY : Z := 10.

Definition RT_MAIN_THREAD_STACK_SIZE : Z := 1024 * 8.

(** The memory of a new thread in [rt_thread_create]: that of the object, then
    the stack, without which the object is given back. *)
Definition thread_memory (sizeof_thread stack_size : Z) : HM (bool * bool) :=
  thread ← rt_malloc sizeof_thread;
  if decide (thread = 0) then mret (false, false)
  else
    stack_start ← rt_malloc stack_size;
    if decide (stack_start = 0) then rt_free thread;; mret (true, false)
    else mret (true, true).

Section startup.
Context (sizeof_thread : Z) (rt_hw_board_init : KM heap) (main idle : tid).

(** [main] is the main thread if there is memory for it. *)
Definition rt_application_init (h : heap) : KM heap :=
  '((object, stack), h) ← deref (fun _ => thread_memory sizeof_thread RT_MAIN_THREAD_STACK_SIZE h);
  tid ← rt_thread_create (if (object : bool) then Some main else None) stack RT_MAIN_THREAD_PRIORITY 20;
  rt_assert (bool_decide (is_Some tid));;
  _ ← rt_thread_startup main;
  mret h.

Definition rt_system_timer_thread_init : KM unit := mret tt.

Definition rtthread_startup : KM heap :=
  h ← rt_hw_board_init;
  rt_system_timer_init;;
  rt_system_scheduler_init;;
  h ← rt_application_init h;
  rt_system_timer_thread_init;;
  rt_thread_idle_init idle;;
  rt_system_scheduler_start;;
  mret h.

End startup.

(** [main_thread_entry] initialises the components, in the order of the linker's
    table, before [main]. *)
Fixpoint rt_components_init (table : list (KM Z)) : KM unit :=
  match table with
  | [] => mret tt
  | f :: table => _ ← f; rt_components_init table
  end.

Definition main_thread_entry (table : list (KM Z)) (main : KM unit) : KM unit := rt_components_init table;; main.

(** ** The kernel's variables after reset *)

(** Nothing is running, and there are no threads, timers or waiters. *)
Record switched_on (k : kstate) : Prop := SwitchedOn {
  so_threads : k_threads k = ∅;
  so_lists h : k_lists k h = [];
  so_group : k_ready_group k = 0;
  so_current : k_current k = None;
  so_irq : k_irq_nest k = 0;
  so_tick : in_range 32 (k_tick k);
  so_timers t : k_timer k !! ThreadTimer t = None;
  so_timer_off i tm : k_timer k !! i = Some tm -> activated tm = false
}.

(** The state after [rt_system_timer_init] and [rt_system_scheduler_init]. *)
Lemma scheduler_init_spec k : switched_on k ->
  exists k', (rt_system_timer_init;; rt_system_scheduler_init) k = Some (tt, k') /\ kwf k' /\ switched_on k'.
Proof.
  intros [H1 H2 H3 H4 H5 H6 H7 H8]. unfold rt_system_timer_init, rt_system_scheduler_init. munfold.
  eexists. split; [done|]. set (k' := with_lists _ _).
  assert (forall h, k_lists k' h = []) as Hl.
  { intros h. unfold k'. simpl. destruct (decide (h = LDefunct)) as [->|]; [by rewrite fn_lookup_insert|].
    rewrite fn_lookup_insert_ne by congruence. destruct h; simpl; try apply H2. case_decide; [done|apply H2]. }
  split; [|split; try done]. split; [split; split| | | |]; try done.
  - intros h. rewrite Hl. constructor.
  - intros h h' t. rewrite Hl. by intros ?%elem_of_nil.
  - intros h t. rewrite Hl. by intros ?%elem_of_nil.
  - intros p t th. rewrite Hl. by intros ?%elem_of_nil.
  - intros t th. simpl. by rewrite H1.
  - intros t th. simpl. by rewrite H1.
  - intros p Hp. rewrite Hl. simpl. rewrite Z.testbit_0_l. by split.
  - intros t. simpl. by rewrite H4.
  - intros t th. simpl. by rewrite H1.
  - split; simpl; [constructor| |intros i Hi; by apply elem_of_nil in Hi|constructor].
    intros i. rewrite elem_of_nil. split; [done|]. intros (tm & E & Ha). by rewrite (H8 i tm E) in Ha.
  - intros t th. simpl. by rewrite H1.
  - intros t Hi. simpl in Hi. by apply elem_of_nil in Hi.
Qed.

(** [rt_system_scheduler_start] lets the first thread of the highest ready
    priority run. *)
Lemma scheduler_start_spec k : kwf k -> k_current k = None -> k_ready_group k <> 0 ->
  exists t th k', rt_system_scheduler_start k = Some (tt, k') /\ kwf k' /\ running k' t (with_stat RT_THREAD_RUNNING th) /\
    k_threads k !! t = Some th /\ t ∈ k_lists k (LReady (th_current_priority th)) /\
    (forall p t', t' ∈ k_lists k (LReady p) -> th_current_priority th <= p) /\
    (forall s, s <> t -> k_threads k' !! s = k_threads k !! s) /\ (forall h, k_lists k' h = lremove t (k_lists k h)).
Proof.
  intros H Hc Hg. pose proof (kwf_sched _ H) as [Hl [C1 C2]].
  destruct (get_highest_spec ∅ k Hl Hg) as (t & ts & hp & th & Eg & Hp & El & Et & Hs & Hpt & Hmin).
  set (k1 := with_current (Some t) (k_current_priority k) k).
  destruct (remove_ready_fields t th k1) as (F1 & F2 & F3 & F4 & F5 & _ & _ & F8).
  set (k' := upd_thread t (with_stat RT_THREAD_RUNNING) (remove_ready t th k1)).
  assert (forall s, k_threads k' !! s = if decide (t = s) then Some (with_stat RT_THREAD_RUNNING th) else k_threads k !! s) as El'.
  { intros s. unfold k'. rewrite upd_thread_lookup, F1. case_decide; [|done]. subst. change (k_threads k1) with (k_threads k). by rewrite Et. }
  assert (wf k') as Hw.
  { unfold k'. rewrite <- (upd_thread_const _ _ th); [|by rewrite F1].
    apply finish_switch_stat; try done; [split; apply Hl|]. intros s sth E Hr. specialize (C2 s sth E Hr). congruence. }
  exists t, th, k'. split_and!; try done.
  - unfold rt_system_scheduler_start. munfold. rewrite Eg. fold k1. rewrite (remove_thread_eval t th k1 Et), F1.
    change (k_threads k1) with (k_threads k). by rewrite Et.
  - split; [done|by apply (timers_ok_ext k), H|simpl; rewrite F5; apply H| |].
    + intros s sth. rewrite El'. simpl. rewrite F3. case_decide; [|apply H]. subst. intros [= <-] _. apply (kwf_attached _ H s th Et). by rewrite Hs.
    + simpl. rewrite F4. intros s Hi. change (alter _ _ _) with (k_threads k'). rewrite El'. destruct (kwf_suspended _ H s Hi) as (x & Ex & Hx).
      rewrite decide_False; [by exists x|]. intros ->. simplify_eq. by rewrite Hs in Hx.
  - split; [done|]. split; [by rewrite El', decide_True|done].
  - rewrite Hpt, El. left.
  - by rewrite Hpt.
  - intros s Hn. by rewrite El', decide_False.
Qed.

(** ** Making threads before the scheduler has been started *)

(** The record [th] is that of a thread made with this priority and slice, and
    since started. *)
Definition fresh (static : bool) (priority tick : Z) (th : thread) : Prop :=
  exists s, th = with_stat s (startable (new_thread static priority tick)) /\ awake th.

Record launched (k : kstate) (t : tid) (static : bool) (priority tick : Z) (k' : kstate) : Prop := Launched {
  la_kwf : kwf k';
  la_current : k_current k' = None;
  la_irq : k_irq_nest k' = k_irq_nest k;
  la_thread : exists th, k_threads k' !! t = Some th /\ fresh static priority tick th;
  la_threads s : s <> t -> thread_moved (k_threads k !! s) (k_threads k' !! s);
  la_timers s : s <> t -> k_timer k' !! ThreadTimer s = k_timer k !! ThreadTimer s;
  la_lists h : k_lists k' h = if decide (h = LReady priority) then k_lists k h ++ [t] else k_lists k h
}.

Lemma made_launched k t static priority tick k1 :
  k_current k = None -> 0 <= priority < RT_THREAD_PRIORITY_MAX -> thread_made k t static priority tick k1 ->
  exists k2, rt_thread_startup t k1 = Some (RT_EOK, k2) /\ launched k t static priority tick k2.
Proof.
  intros Hc Hp (O & E & _ & Hn & Hb). destruct (Hb Hc) as [Hc1 Hl1].
  destruct (rt_thread_startup_spec k1 t _ (ok_kwf _ _ _ O) E eq_refl Hn Hp) as (k2 & E2 & O2 & (s & Es & Ha) & B2).
  destruct (B2 Hc1) as [Hc2 Hl2]. exists k2. split; [done|]. split; try apply O2; try done.
  - by rewrite (ok_irq _ _ _ O2), (ok_irq _ _ _ O).
  - eexists. split; [done|]. by exists s.
  - intros u Hu. eapply thread_moved_trans; [by apply O|by apply O2].
  - intros u Hu. rewrite (ok_timers _ _ _ O2), (ok_timers _ _ _ O) by done. done.
  - intros h. rewrite Hl2, Hl1. done.
Qed.

(** ** The memory of the main thread *)

(** The heap has been initialised, whatever has been allocated since, or not. *)
Definition heap_left (h : heap) : Prop := mem_size_aligned h = 0 \/ exists lo hi, heap_ok h lo hi.

Lemma malloc_without_heap h size : mem_size_aligned h = 0 -> 0 < size -> size + 7 < 2 ^ 32 -> rt_malloc size h = Some (0, h).
Proof.
  intros Hm H0 Hs. pose proof (rt_align_8 size ltac:(lia) Hs) as [Ha _].
  unfold rt_malloc. rewrite decide_False by lia. hstep. by rewrite Hm, decide_True by lia.
Qed.

Lemma thread_memory_spec size stack h : heap_left h -> 0 < size -> size + 7 < 2 ^ 32 -> 0 < stack -> stack + 7 < 2 ^ 32 ->
  exists a b h', thread_memory size stack h = Some ((a, b), h') /\ (mem_size_aligned h = 0 -> a = false).
Proof.
  intros Hl H1 H2 H3 H4. unfold thread_memory. destruct Hl as [Hz|(lo & hi & Hok)].
  - unfold mbind, M_bind. rewrite (malloc_without_heap h size) by done. rewrite decide_True by done. eexists _, _, _. by split.
  - destruct (rt_malloc_serves h _ size (ex_intro _ lo (ex_intro _ hi (conj Hok eq_refl))) H1 H2) as [E|(h1 & p & n & E & Hp & Ep & _ & Hsv & _)].
    { unfold mbind, M_bind. rewrite E, decide_True by done. eexists _, _, _. by split. }
    assert (mem_size_aligned h <> 0) as Hm.
    { intros Hz. rewrite (malloc_without_heap h size) in E by done. congruence. }
    unfold mbind, M_bind. rewrite E, decide_False by done.
    destruct (rt_malloc_serves h1 _ stack Hsv H3 H4) as [E2|(h2 & q & m & E2 & Hq & _ & _ & _ & _)]; rewrite E2.
    + rewrite decide_True by done. destruct (rt_free_serves _ _ _ _ Hsv (lookup_insert_eq _ _ _)) as (h2 & -> & _). eexists _, _, _. by split.
    + rewrite decide_False by done. eexists _, _, _. by split.
Qed.

(** A fresh heap of a little more than the two blocks has room for them. *)
Lemma need_bound size : 0 < size -> size + 7 < 2 ^ 32 -> 16 <= need size < size + 16.
Proof. intros H1 H2. pose proof (rt_align_8 size ltac:(lia) H2) as [Ha _]. unfold need. lia. Qed.

(** [rt_malloc] takes the free block that the search finds. *)
Lemma malloc_fits h lo hi size found : heap_ok h lo hi -> all_used lo -> 0 < size -> size + 7 < 2 ^ 32 ->
  fit (need size) (mem_size_aligned h) 0 (lo ++ hi) = Some found ->
  exists h' lo' hi' p, rt_malloc size h = Some (p, h') /\ p <> 0 /\ heap_ok h' lo' hi' /\ all_used lo' /\
    let '(front, len, back) := found in lo' ++ hi' = front ++ carved (need size) len ++ back.
Proof.
  intros Hok Hu H0 Hs Ef. rewrite fit_skip in Ef by done. pose proof (rt_malloc_fit h lo hi size Hok H0 Hs) as Hm. rewrite Z.add_0_l in Ef.
  destruct (fit _ _ _ hi) as [[[mid len] post]|] eqn:Eh; [|done]. injection Ef as <-.
  destruct Hm as (h' & lo' & hi' & E & Hok' & Eb & _ & Hu'). exists h', lo', hi', (heap_ptr h + total (lo ++ mid) + 16).
  split; [done|]. split; [|split; [done|]; split; [by apply Hu'|by rewrite Eb, app_assoc]].
  pose proof Hok as [[Hwf _ _] _]. pose proof (wf_ptr _ _ Hwf) as [Hp _]. apply fit_app in Eh as (-> & _).
  pose proof (wf_blocks _ _ Hwf) as Hb. rewrite app_assoc in Hb. apply Forall_app in Hb as [Hb _]. pose proof (total_ok _ Hb). lia.
Qed.

Lemma thread_memory_fresh size stack h n : heap_ok h [] [(n, false)] -> 0 < size -> 0 < stack -> size + stack + 64 <= n ->
  exists h', thread_memory size stack h = Some ((true, true), h').
Proof.
  intros Hok H1 H2 Hn. pose proof Hok as [[Hwf _ _] _]. destruct (wf_bounds _ [] _ _ _ Hwf) as (_ & _ & _ & _ & _ & Ht & He & Hm & _).
  simpl in Ht. pose proof (need_bound size H1 ltac:(lia)) as Hn1. pose proof (need_bound stack H2 ltac:(lia)) as Hn2.
  destruct (malloc_fits h [] [(n, false)] size ([], n, []) Hok) as (h1 & lo1 & hi1 & p & E1 & Hp & Hok1 & Hu1 & Eb);
    [constructor|done|lia|simpl; by rewrite decide_True by (split_and!; (done || lia))|].
  cbn [app] in Eb. rewrite app_nil_r in Eb. unfold carved in Eb. rewrite decide_True in Eb by lia.
  pose proof Hok1 as [[Hwf1 _ _] _]. rewrite Eb in Hwf1.
  destruct (wf_bounds _ [] _ _ _ Hwf1) as (_ & _ & _ & _ & _ & Ht1 & He1 & _). simpl in Ht1.
  destruct (malloc_fits h1 lo1 hi1 stack ([(need size + 16, true)], n - (need size + 16), []) Hok1 Hu1) as (h2 & _ & _ & q & E2 & Hq & _);
    [done|lia| |].
  { rewrite Eb. cbn [fit]. rewrite decide_False by (intros (E & _); discriminate E). rewrite decide_True by (split_and!; (done || lia)). done. }
  exists h2. unfold thread_memory, mbind, M_bind. by rewrite E1, decide_False, E2, decide_False by done.
Qed.

Lemma application_init_spec size h h' k main : kwf k -> unused k main -> k_irq_nest k = 0 -> k_current k = None ->
  thread_memory size RT_MAIN_THREAD_STACK_SIZE h = Some ((true, true), h') ->
  exists k', rt_application_init size main h k = Some (h', k') /\ launched k main false RT_MAIN_THREAD_PRIORITY 20 k'.
Proof.
  intros H Hu Hi Hc Eh. destruct (rt_thread_create_spec k main RT_MAIN_THREAD_PRIORITY 20 H Hu ltac:(done) Hi) as (k1 & E1 & M).
  destruct (made_launched k main false RT_MAIN_THREAD_PRIORITY 20 k1 Hc ltac:(done) M) as (k2 & E2 & L). exists k2. split; [|done].
  unfold rt_application_init, rt_assert. munfold. rewrite Eh, E1. simpl. by rewrite E2.
Qed.

(** Without memory the assertion on the new thread fails. *)
Lemma application_init_fails size h h' k main object stack :
  thread_memory size RT_MAIN_THREAD_STACK_SIZE h = Some ((object, stack), h') -> object && stack = false ->
  rt_application_init size main h k = None.
Proof.
  intros Eh Hb. unfold rt_application_init, rt_assert. munfold. rewrite Eh.
  unfold rt_thread_create, rt_object_allocate, RT_DEBUG_NOT_IN_INTERRUPT, rt_interrupt_get_nest, rt_assert. munfold.
  destruct (bool_decide (k_irq_nest k = 0)); [|done]. by destruct object, stack.
Qed.

Lemma idle_init_spec k idle : kwf k -> unused k idle -> k_current k = None ->
  exists k', rt_thread_idle_init idle k = Some (tt, k') /\ launched k idle true (RT_THREAD_PRIORITY_MAX - 1) 32 k'.
Proof.
  intros H Hu Hc. destruct (rt_thread_init_spec k idle (RT_THREAD_PRIORITY_MAX - 1) 32 H Hu ltac:(done)) as (k1 & E1 & M).
  destruct (made_launched k idle true (RT_THREAD_PRIORITY_MAX - 1) 32 k1 Hc ltac:(done) M) as (k2 & E2 & L). exists k2. split; [|done].
  unfold rt_thread_idle_init. munfold. by rewrite E1, E2.
Qed.

Lemma fresh_moved static priority tick th o : fresh static priority tick th -> thread_moved (Some th) o ->
  exists th', o = Some th' /\ fresh static priority tick th'.
Proof.
  intros (s & -> & Ha) Hm. destruct (moved_base _ _ Hm _ eq_refl) as (s' & -> & Hs). eexists. split; [done|].
  exists s'. split; [done|]. destruct Hs as [Hs|[_ Hs]]; [|done]. unfold awake in *. by rewrite Hs.
Qed.

Lemma unused_launched k t u static priority tick k' :
  unused k u -> u <> t -> launched k t static priority tick k' -> unused k' u.
Proof.
  intros [E1 E2] Hn L. split; [|by rewrite (la_timers _ _ _ _ _ _ L)].
  pose proof (la_threads _ _ _ _ _ _ L u Hn) as [->|(th & s & Hs & _)]; congruence.
Qed.

(** The main thread and the idle thread are ready. *)
Lemma threads_launched_spec size h h' k main idle : switched_on k -> kwf k -> main <> idle ->
  thread_memory size RT_MAIN_THREAD_STACK_SIZE h = Some ((true, true), h') ->
  exists k', (h ← rt_application_init size main h; rt_system_timer_thread_init;; rt_thread_idle_init idle;; mret h) k = Some (h', k') /\
    kwf k' /\ k_current k' = None /\
    (exists mth, k_threads k' !! main = Some mth /\ fresh false RT_MAIN_THREAD_PRIORITY 20 mth) /\
    (exists ith, k_threads k' !! idle = Some ith /\ fresh true (RT_THREAD_PRIORITY_MAX - 1) 32 ith) /\
    (forall h, k_lists k' h = if decide (h = LReady RT_MAIN_THREAD_PRIORITY) then [main]
       else if decide (h = LReady (RT_THREAD_PRIORITY_MAX - 1)) then [idle] else []).
Proof.
  intros Hon H Hn Eh. pose proof Hon as [H1 H2 H3 H4 H5 H6 H7 H8].
  assert (forall t, unused k t) as Hu by (intros t; split; [by rewrite H1|apply H7]).
  destruct (application_init_spec size h h' k main H (Hu main) H5 H4 Eh) as (k1 & E1 & L1).
  destruct (idle_init_spec k1 idle (la_kwf _ _ _ _ _ _ L1)) as (k2 & E2 & L2); [by eapply unused_launched|apply L1|].
  exists k2. split; [unfold rt_system_timer_thread_init; munfold; by rewrite E1, E2|]. split_and!; try apply L2.
  - destruct (la_thread _ _ _ _ _ _ L1) as (th & E & F). pose proof (la_threads _ _ _ _ _ _ L2 main Hn) as Hm. rewrite E in Hm.
    by eapply fresh_moved.
  - intros hd. rewrite (la_lists _ _ _ _ _ _ L2), (la_lists _ _ _ _ _ _ L1), H2. repeat case_decide; subst; done.
Qed.

(** What [rtthread_startup] leaves: the main thread runs, the idle thread is ready. *)
Definition started (k : kstate) (main idle : tid) : Prop :=
  kwf k /\
  (exists mth, running k main mth /\ th_current_priority mth = RT_MAIN_THREAD_PRIORITY /\ th_remaining_tick mth = 20) /\
  (exists ith, k_threads k !! idle = Some ith /\ stat_base ith = RT_THREAD_READY) /\
  (forall h, k_lists k h = if decide (h = LReady (RT_THREAD_PRIORITY_MAX - 1)) then [idle] else []).

(** The scheduler starts the main thread. *)
Lemma scheduler_starts_main k main idle : kwf k -> k_current k = None -> main <> idle ->
  (exists mth, k_threads k !! main = Some mth /\ fresh false RT_MAIN_THREAD_PRIORITY 20 mth) ->
  (forall h, k_lists k h = if decide (h = LReady RT_MAIN_THREAD_PRIORITY) then [main]
       else if decide (h = LReady (RT_THREAD_PRIORITY_MAX - 1)) then [idle] else []) ->
  exists k', rt_system_scheduler_start k = Some (tt, k') /\ started k' main idle.
Proof.
  intros H2 Hc Hn (mth & Em & s & -> & _) Hl.
  assert (forall h t, t ∈ k_lists k h -> h = LReady 10 /\ t = main \/ h = LReady 31 /\ t = idle) as Hin.
  { intros h t. rewrite Hl. repeat case_decide; [intros ->%list_elem_of_singleton; by left|intros ->%list_elem_of_singleton; by right|by intros ?%elem_of_nil]. }
  assert (k_ready_group k <> 0) as Hg.
  { intros Hz. pose proof (proj2 (wf_group _ _ (proj1 (kwf_sched _ H2)) RT_MAIN_THREAD_PRIORITY ltac:(done))) as Hb.
    rewrite Hz, Hl, decide_True, Z.testbit_0_l in Hb by done. discriminate Hb. by intros [=]. }
  destruct (scheduler_start_spec k H2 Hc Hg) as (t & th & k' & E3 & H' & Hr & Eth & Hi & Hmin & Ho & Hl').
  assert (t = main) as ->.
  { destruct (Hin _ _ Hi) as [[_ ->]|[Hp _]]; [done|]. injection Hp as Hp.
    specialize (Hmin RT_MAIN_THREAD_PRIORITY main). rewrite Hl, Hp in Hmin. specialize (Hmin ltac:(left)). done. }
  assert (forall h, k_lists k' h = if decide (h = LReady 31) then [idle] else []) as Hl2.
  { intros h. rewrite Hl', Hl. repeat case_decide; subst; try done; [apply lremove_cons_eq, not_elem_of_nil|].
    apply lremove_notin. by intros ?%list_elem_of_singleton. }
  destruct (wf_stat _ _ (proj1 (kwf_sched _ H')) (LReady 31) idle) as (_ & ith & Ei & Hsi); [rewrite Hl2; left|].
  rewrite Em in Eth. injection Eth as <-. exists k'. split; [done|]. split; [done|]. split; [by eexists|]. split; [by exists ith|done].
Qed.

(** C35: The system starts if there is memory for it. From the state after
    reset, with a board initialisation that makes no threads and leaves a heap
    in good order, or none, [rtthread_startup] allocates the main thread and its
    stack. If it gets both, which it does from a fresh heap that is 64 bytes
    larger, no assertion fails, and it ends in a state that satisfies the kernel
    invariant, in which the main thread runs at its priority with a full time
    slice and only the idle thread is ready, at the lowest priority. If not, as
    always when the board has not initialised the heap, it stops at the
    assertion on the new thread. *)
Theorem rtthread_startup_runs_main sizeof_thread rt_hw_board_init k main idle :
  (forall s, switched_on s -> exists h s', rt_hw_board_init s = Some (h, s') /\ switched_on s' /\ heap_left h) ->
  switched_on k -> main <> idle -> 0 < sizeof_thread -> sizeof_thread + 7 < 2 ^ 32 ->
  exists h k0 object stack h', rt_hw_board_init k = Some (h, k0) /\
    thread_memory sizeof_thread RT_MAIN_THREAD_STACK_SIZE h = Some ((object, stack), h') /\
    (forall n, heap_ok h [] [(n, false)] -> sizeof_thread + RT_MAIN_THREAD_STACK_SIZE + 64 <= n -> object && stack = true) /\
    (mem_size_aligned h = 0 -> object = false) /\
    if object && stack
    then exists k', rtthread_startup sizeof_thread rt_hw_board_init main idle k = Some (h', k') /\ started k' main idle
    else rtthread_startup sizeof_thread rt_hw_board_init main idle k = None.
Proof.
  intros Hboard Hon Hn Hs1 Hs2. destruct (Hboard k Hon) as (h & k0 & E0 & Hon0 & Hl).
  destruct (scheduler_init_spec k0 Hon0) as (k1 & E1 & H1 & Hon1).
  destruct (thread_memory_spec sizeof_thread RT_MAIN_THREAD_STACK_SIZE h Hl) as (object & stack & h' & Eh & Hz); [done..|].
  exists h, k0, object, stack, h'. split; [done|]. split; [done|]. split.
  { intros n Hok Hr. destruct (thread_memory_fresh sizeof_thread RT_MAIN_THREAD_STACK_SIZE h n Hok) as (h2 & E2); [done..|].
    rewrite Eh in E2. by injection E2 as -> -> _. }
  split; [done|]. destruct (object && stack) eqn:Eb.
  - apply andb_true_iff in Eb as [-> ->].
    destruct (threads_launched_spec sizeof_thread h h' k1 main idle Hon1 H1 Hn Eh) as (k2 & E2 & H2 & Hc & Hm & _ & Hll).
    destruct (scheduler_starts_main k2 main idle H2 Hc Hn Hm Hll) as (k' & E3 & Hst). exists k'. split; [|done].
    unfold rtthread_startup. revert E1 E2. munfold. rewrite E0.
    intros E1 E2. destruct (rt_system_timer_init k0) as [[[] ka]|]; [|done]. rewrite E1.
    destruct (rt_application_init sizeof_thread main h k1) as [[h2 kb]|]; [|done]. destruct (rt_system_timer_thread_init kb) as [[[] kd]|]; [|done].
    destruct (rt_thread_idle_init idle kd) as [[[] ke]|]; [|done]. injection E2 as -> ->. by rewrite E3.
  - unfold rtthread_startup. revert E1. munfold. rewrite E0. intros E1. destruct (rt_system_timer_init k0) as [[[] ka]|]; [|done]. rewrite E1.
    by rewrite (application_init_fails _ _ _ _ _ _ _ Eh Eb).
Qed.

(** After reset all variables are zero. *)
Definition after_reset : kstate := {|
  k_threads := ∅; k_lists := fun _ => []; k_ready_group := 0; k_current := None; k_current_priority := 0;
  k_lock_nest := 0; k_irq_nest := 0; k_tick := 0; k_timer := ∅; k_timer_list := [];
  k_sems := ∅; k_mutexes := ∅; k_events := ∅; k_mbs := ∅; k_mqs := ∅; k_mps := ∅; k_dipc := ∅
|}.

(** Boards that initialise nothing but a heap of 64 KB, and not even that. *)
Definition board_64k : KM heap := fun k => Some (heap_after (rt_system_heap_init 4096 (4096 + 2 ^ 16)) no_heap, k).
Definition bare_board : KM heap := fun k => Some (no_heap, k).

Lemma after_reset_on : switched_on after_reset.
Proof. by split. Qed.

Lemma rtthread_startup_runs_main_witness :
  (exists h k', rtthread_startup 128 board_64k 0 1 after_reset = Some (h, k') /\ started k' 0 1) /\
  rtthread_startup 128 bare_board 0 1 after_reset = None.
Proof.
  split.
  - destruct (rt_system_heap_init_ok 4096 (4096 + 2 ^ 16) no_heap) as (h64 & E64 & Hok & _); [lia..|vm_compute; discriminate|done|done|].
    assert (forall k, board_64k k = Some (h64, k)) as Eb by (intros k; unfold board_64k, heap_after; by rewrite E64).
    destruct (rtthread_startup_runs_main 128 board_64k after_reset 0 1) as (h & k0 & object & stack & h' & E & _ & Hr & _ & Hs);
      [intros s Hs; exists h64, s; split; [done|]; split; [done|]; right; by eexists _, _|apply after_reset_on|done|done|done|].
    rewrite Eb in E. injection E as <- <-. specialize (Hr _ Hok ltac:(vm_compute; discriminate)). rewrite Hr in Hs.
    by exists h'.
  - destruct (rtthread_startup_runs_main 128 bare_board after_reset 0 1) as (h & k0 & object & stack & h' & E & _ & _ & Hz & Hs);
      [intros s Hs; exists no_heap, s; split; [done|]; split; [done|]; by left|apply after_reset_on|done|done|done|].
    injection E as <- <-. rewrite Hz in Hs by done. exact Hs.
Defined.
