(* ===== verification/RingBuffer.v ===== *)
(** * RingBuffer: the ring buffer of bytes

    components/drivers/src/ringbuffer.c.  The pool is the list of its bytes;
    an access outside of it, or behind the end of the caller's buffer, has no
    result.  A mirror bit is 0 or 1, an index has 15 bits. *)

From S2P Require Import Prelude Bytes KString Mem.

(** ** Data *)

Record rt_ringbuffer := Ringbuffer {
  buffer_ptr : list Z;
  read_mirror : Z; read_index : Z;
  write_mirror : Z; write_index : Z;
  buffer_size : Z
}.

Inductive rt_ringbuffer_state := RT_RINGBUFFER_EMPTY | RT_RINGBUFFER_FULL | RT_RINGBUFFER_HALFFULL.

Definition with_pool p rb := Ringbuffer p (read_mirror rb) (read_index rb) (write_mirror rb) (write_index rb) (buffer_size rb).
Definition with_read m i rb := Ringbuffer (buffer_ptr rb) m i (write_mirror rb) (write_index rb) (buffer_size rb).
Definition with_write m i rb := Ringbuffer (buffer_ptr rb) (read_mirror rb) (read_index rb) m i (buffer_size rb).

Abbreviation RM := (M rt_ringbuffer).

(** [~] on a bit-field of one bit *)
Definition flip (m : Z) : Z := 1 - m.
Abbreviation u15 := (wrap 15).

(** [n] bytes at [off], and [memcpy] to the offset [i] of the pool *)
Definition slice (off n : Z) (l : list Z) : option (list Z) :=
  if decide (0 <= off /\ 0 <= n /\ off + n <= Z.of_nat (length l)) then Some (take (Z.to_nat n) (drop (Z.to_nat off) l)) else None.
Definition blit (i : nat) (l pool : list Z) : list Z := take i pool ++ l ++ drop (i + length l) pool.
Definition copy_in (i : Z) (l : list Z) : RM unit :=
  pool ← gets buffer_ptr;
  if decide (0 <= i /\ i + Z.of_nat (length l) <= Z.of_nat (length pool))
  then modify (with_pool (blit (Z.to_nat i) l pool)) else undefined.

(** ** Operations *)

Definition rt_ringbuffer_status (rb : rt_ringbuffer) : rt_ringbuffer_state :=
  if decide (read_index rb = write_index rb) then
    if decide (read_mirror rb = write_mirror rb) then RT_RINGBUFFER_EMPTY else RT_RINGBUFFER_FULL
  else RT_RINGBUFFER_HALFFULL.

Definition rt_ringbuffer_data_len (rb : rt_ringbuffer) : Z :=
  match rt_ringbuffer_status rb with
  | RT_RINGBUFFER_EMPTY => 0
  | RT_RINGBUFFER_FULL => u32 (buffer_size rb)
  | RT_RINGBUFFER_HALFFULL =>
      if decide (read_index rb < write_index rb) then write_index rb - read_index rb
      else u32 (buffer_size rb - (read_index rb - write_index rb))
  end.

Definition rt_ringbuffer_space_len (rb : rt_ringbuffer) : Z := u32 (buffer_size rb - rt_ringbuffer_data_len rb).
Definition rt_ringbuffer_get_size (rb : rt_ringbuffer) : Z := u16 (buffer_size rb).

Definition rt_ringbuffer_init (pool : list Z) (size : Z) : RM unit :=
  rt_assert (bool_decide (0 < size));;
  modify (fun _ => Ringbuffer pool 0 0 0 0 (RT_ALIGN_DOWN size 8)).

Definition rt_ringbuffer_reset : RM unit := modify (fun rb => with_write 0 0 (with_read 0 0 rb)).

(** The two halves of a block that goes past the end of the pool. *)
Definition copy_around (ptr : list Z) (length : Z) : RM unit :=
  rb ← gets id;
  let n := buffer_size rb - write_index rb in
  l1 ← deref (fun _ => slice 0 n ptr); copy_in (write_index rb) l1;;
  l2 ← deref (fun _ => slice n (length - n) ptr); copy_in 0 l2;;
  modify (with_write (flip (write_mirror rb)) (u15 (length - n))).

Definition rt_ringbuffer_put (ptr : list Z) (length : Z) : RM Z :=
  rb ← gets id;
  let size := u16 (rt_ringbuffer_space_len rb) in
  if decide (size = 0) then mret 0
  else
    let length := if decide (size < length) then size else length in
    if decide (length < buffer_size rb - write_index rb) then
      l ← deref (fun _ => slice 0 length ptr); copy_in (write_index rb) l;;
      modify (with_write (write_mirror rb) (u15 (write_index rb + length)));;
      mret length
    else copy_around ptr length;; mret length.

Definition rt_ringbuffer_put_force (ptr : list Z) (length : Z) : RM Z :=
  rb ← gets id;
  let space_length := u16 (rt_ringbuffer_space_len rb) in
  let '(off, length) := if decide (buffer_size rb < length) then (length - buffer_size rb, u16 (buffer_size rb)) else (0, length) in
  ptr ← deref (fun _ => slice off length ptr);
  if decide (length < buffer_size rb - write_index rb) then
    copy_in (write_index rb) ptr;;
    modify (with_write (write_mirror rb) (u15 (write_index rb + length)));;
    when (bool_decide (space_length < length)) (modify (fun rb => with_read (read_mirror rb) (write_index rb) rb));;
    mret length
  else
    copy_around ptr length;;
    when (bool_decide (space_length < length)) (modify (fun rb => with_read (flip (read_mirror rb)) (write_index rb) rb));;
    mret length.

(** The answer is what is returned and what [ptr] gets. *)
Definition rt_ringbuffer_get (length : Z) : RM (Z * list Z) :=
  rb ← gets id;
  let size := rt_ringbuffer_data_len rb in
  if decide (size = 0) then mret (0, [])
  else
    let length := u16 (if decide (size < length) then size else length) in
    if decide (length < buffer_size rb - read_index rb) then
      l ← deref (fun _ => slice (read_index rb) length (buffer_ptr rb));
      modify (with_read (read_mirror rb) (u15 (read_index rb + length)));;
      mret (length, l)
    else
      let n := buffer_size rb - read_index rb in
      l1 ← deref (fun _ => slice (read_index rb) n (buffer_ptr rb));
      l2 ← deref (fun _ => slice 0 (length - n) (buffer_ptr rb));
      modify (with_read (flip (read_mirror rb)) (u15 (length - n)));;
      mret (length, l1 ++ l2).

Definition rt_ringbuffer_putchar (ch : Z) : RM Z :=
  rb ← gets id;
  if decide (rt_ringbuffer_space_len rb = 0) then mret 0
  else
    copy_in (write_index rb) [ch];;
    (if decide (write_index rb = buffer_size rb - 1) then modify (with_write (flip (write_mirror rb)) 0)
     else modify (with_write (write_mirror rb) (u15 (write_index rb + 1))));;
    mret 1.

Definition rt_ringbuffer_putchar_force (ch : Z) : RM Z :=
  rb ← gets id;
  let old_state := rt_ringbuffer_status rb in
  copy_in (write_index rb) [ch];;
  (if decide (write_index rb = buffer_size rb - 1) then
     modify (with_write (flip (write_mirror rb)) 0);;
     match old_state with RT_RINGBUFFER_FULL => modify (fun rb => with_read (flip (read_mirror rb)) (write_index rb) rb) | _ => mret tt end
   else
     modify (with_write (write_mirror rb) (u15 (write_index rb + 1)));;
     match old_state with RT_RINGBUFFER_FULL => modify (fun rb => with_read (read_mirror rb) (write_index rb) rb) | _ => mret tt end);;
  mret 1.

Definition rt_ringbuffer_getchar : RM (Z * list Z) :=
  rb ← gets id;
  if decide (rt_ringbuffer_data_len rb = 0) then mret (0, [])
  else
    l ← deref (fun _ => slice (read_index rb) 1 (buffer_ptr rb));
    (if decide (read_index rb = buffer_size rb - 1) then modify (with_read (flip (read_mirror rb)) 0)
     else modify (with_read (read_mirror rb) (u15 (read_index rb + 1))));;
    mret (1, l).

(** The addresses of the structure and of the pool, and what is in it; the pool
    starts with whatever the memory holds. *)
Definition rt_ringbuffer_create (size : Z) : M heap (option (Z * Z * rt_ringbuffer)) :=
  rt_assert (bool_decide (0 < size));;
  let size := RT_ALIGN_DOWN size 8 in
  rb ← rt_malloc 12;
  if decide (rb = 0) then mret None
  else
    pool ← rt_malloc size;
    if decide (pool = 0) then rt_free rb;; mret None
    else
      bytes ← gets heap_bytes;
      init ← deref (fun _ => rt_ringbuffer_init (map bytes (seqZ pool size)) (s16 size) (Ringbuffer [] 0 0 0 0 0));
      mret (Some (rb, pool, init.2)).

Definition rt_ringbuffer_destroy (rb pool : Z) : M heap unit :=
  rt_assert (bool_decide (rb <> 0));; rt_free pool;; rt_free rb.

(** ** The queue of the bytes in it *)

Record rb_ok (rb : rt_ringbuffer) (q : list Z) : Prop := RbOk {
  rb_size : 0 < buffer_size rb < 2 ^ 15 /\ buffer_size rb = Z.of_nat (length (buffer_ptr rb));
  rb_read : 0 <= read_index rb < buffer_size rb;
  rb_mirror : read_mirror rb = 0 \/ read_mirror rb = 1;
  rb_length : Z.of_nat (length q) <= buffer_size rb;
  rb_write : (write_mirror rb = read_mirror rb /\ write_index rb = read_index rb + Z.of_nat (length q) /\ write_index rb < buffer_size rb) \/
    (write_mirror rb = flip (read_mirror rb) /\ write_index rb = read_index rb + Z.of_nat (length q) - buffer_size rb /\ 0 <= write_index rb);
  rb_data : q = ring (buffer_ptr rb) (Z.to_nat (read_index rb)) (length q)
}.

Lemma rb_write_range rb q : rb_ok rb q -> 0 <= write_index rb < buffer_size rb.
Proof. intros [[? _] ? _ ? ? _]. lia. Qed.

Lemma data_len_ok rb q : rb_ok rb q -> rt_ringbuffer_data_len rb = Z.of_nat (length q) /\
  rt_ringbuffer_space_len rb = buffer_size rb - Z.of_nat (length q) /\
  (rt_ringbuffer_status rb = RT_RINGBUFFER_FULL <-> Z.of_nat (length q) = buffer_size rb).
Proof.
  intros [[Hs _] Hr Hm Hl Hw _].
  assert (rt_ringbuffer_data_len rb = Z.of_nat (length q) /\ (rt_ringbuffer_status rb = RT_RINGBUFFER_FULL <-> Z.of_nat (length q) = buffer_size rb)) as [E1 E2].
  { unfold rt_ringbuffer_data_len, rt_ringbuffer_status, flip in *.
    repeat case_decide; rewrite ?wrap_small by (unfold in_range; lia); (split; [lia|]); (split; [done || lia|]); intros; try done; lia. }
  split; [done|]. split; [|done]. unfold rt_ringbuffer_space_len. rewrite E1, wrap_small by (unfold in_range; lia). done.
Qed.

Lemma ring_lookup (pool : list Z) out n i : (i < n)%nat -> (0 < length pool)%nat -> ring pool out n !! i = pool !! ((out + i) mod length pool)%nat.
Proof.
  intros Hi Hp. unfold ring. rewrite list_lookup_fmap, lookup_seq_lt by done. simpl. symmetry.
  apply list_lookup_lookup_total_lt, Nat.mod_upper_bound. lia.
Qed.

Lemma mod_once a m : (0 < m)%nat -> (a < 2 * m)%nat -> (a mod m = if decide (a < m) then a else a - m)%nat.
Proof.
  intros Hm Ha. case_decide; [by apply Nat.mod_small|]. replace a with (a - m + 1 * m)%nat at 1 by lia.
  rewrite Nat.Div0.mod_add, Nat.mod_small by lia. done.
Qed.

Lemma length_blit i (l pool : list Z) : (i + length l <= length pool)%nat -> length (blit i l pool) = length pool.
Proof. intros H. unfold blit. rewrite !length_app, length_take, length_drop. lia. Qed.

Lemma lookup_blit i (l pool : list Z) k : (i + length l <= length pool)%nat ->
  blit i l pool !! k = if decide (i <= k < i + length l)%nat then l !! (k - i)%nat else pool !! k.
Proof.
  intros H. unfold blit. destruct (decide (k < i)%nat).
  - rewrite decide_False by lia. rewrite lookup_app_l by (rewrite length_take; lia). by rewrite lookup_take_lt.
  - rewrite lookup_app_r by (rewrite length_take; lia). rewrite length_take_le by lia. case_decide.
    + by rewrite lookup_app_l by lia.
    + rewrite lookup_app_r, lookup_drop by lia. f_equal. lia.
Qed.

Lemma slice_Some off n (l : list Z) : 0 <= off -> 0 <= n -> off + n <= Z.of_nat (length l) ->
  slice off n l = Some (take (Z.to_nat n) (drop (Z.to_nat off) l)).
Proof. intros. unfold slice. by rewrite decide_True. Qed.

Lemma lookup_slice off n (l : list Z) k : take n (drop off l) !! k = if decide (k < n)%nat then l !! (off + k)%nat else None.
Proof. case_decide; [by rewrite lookup_take_lt, lookup_drop|apply lookup_take_ge; lia]. Qed.

(** What is written behind the queue becomes its end. *)
Lemma ring_append (pool pool' : list Z) out n l : length pool' = length pool -> (0 < length pool)%nat -> (n + length l <= length pool)%nat ->
  (forall i, (i < n)%nat -> pool' !! ((out + i) mod length pool)%nat = pool !! ((out + i) mod length pool)%nat) ->
  (forall j, (j < length l)%nat -> pool' !! ((out + (n + j)) mod length pool)%nat = l !! j) ->
  ring pool' out (n + length l) = ring pool out n ++ l.
Proof.
  intros Hl H0 Hn H1 H2. apply list_eq. intros i. destruct (decide (i < n + length l)%nat) as [Hi|Hi].
  - rewrite ring_lookup by lia. rewrite Hl. destruct (decide (i < n)%nat).
    + rewrite lookup_app_l by (rewrite ring_length; lia). by rewrite ring_lookup, H1 by lia.
    + rewrite lookup_app_r by (rewrite ring_length; lia). rewrite ring_length. rewrite <- H2 by lia. do 2 f_equal. lia.
  - rewrite !lookup_ge_None_2; [done|rewrite length_app, ring_length; lia|rewrite ring_length; lia].
Qed.

Lemma ring_drop (pool : list Z) out n k : (k <= n)%nat -> (0 < length pool)%nat ->
  ring pool ((out + k) mod length pool)%nat (n - k) = drop k (ring pool out n).
Proof.
  intros Hk H0. apply list_eq. intros i. rewrite lookup_drop. destruct (decide (i < n - k)%nat).
  - rewrite !ring_lookup by lia. f_equal. rewrite Nat.Div0.add_mod_idemp_l. f_equal. lia.
  - rewrite !lookup_ge_None_2; [done|rewrite ring_length; lia..].
Qed.

(** ** The operations on the queue *)

Section put.
Context (rb : rt_ringbuffer) (q : list Z) (Hok : rb_ok rb q).
Let size := Z.to_nat (buffer_size rb).
Let w := Z.to_nat (write_index rb).
Let r := Z.to_nat (read_index rb).

Lemma rb_nat : (r < size /\ w < size /\ size = length (buffer_ptr rb) /\ length q <= size /\ 0 < size)%nat /\
  buffer_size rb = Z.of_nat size /\ write_index rb = Z.of_nat w /\ read_index rb = Z.of_nat r /\ Z.of_nat size < 2 ^ 15.
Proof. pose proof (rb_write_range _ _ Hok). destruct Hok as [[? ?] ? _ ? ? _]. lia. Qed.

Lemma rb_write_nat : w = ((r + length q) mod size)%nat.
Proof.
  destruct rb_nat as [(? & ? & ? & ? & ?) (Es & Ew & Er & ?)]. rewrite mod_once by lia.
  destruct Hok as [_ _ _ _ [(_ & E & ?)|(_ & E & ?)] _]; case_decide; lia.
Qed.

(** After the bytes [l] have been written from the write index on. *)
Lemma written_ok pool' l m : (length q + length l <= size)%nat -> length pool' = size ->
  (forall k, (k < size)%nat -> pool' !! k =
    if decide (w <= k < w + length l)%nat then l !! (k - w)%nat
    else if decide (k + size < w + length l)%nat then l !! (k + size - w)%nat else buffer_ptr rb !! k) ->
  m = (if decide (w + length l < size)%nat then write_mirror rb else flip (write_mirror rb)) ->
  rb_ok (Ringbuffer pool' (read_mirror rb) (read_index rb) m (Z.of_nat (if decide (w + length l < size) then w + length l else w + length l - size)%nat) (buffer_size rb)) (q ++ l).
Proof.
  intros Hl Hp Hk ->. destruct rb_nat as [(? & ? & Ep & ? & ?) (Es & Ew & Er & ?)]. pose proof rb_write_nat as Hw.
  destruct Hok as [? ? Hm _ Hwr Hq]. split; simpl.
  - lia.
  - done.
  - done.
  - rewrite length_app. lia.
  - rewrite length_app. unfold flip in *. case_decide; lia.
  - rewrite length_app. symmetry. fold r. rewrite (ring_append (buffer_ptr rb)); [f_equal; symmetry; exact Hq|lia..| |].
    + intros i Hi. rewrite Hk by (rewrite <- Ep; apply Nat.mod_upper_bound; lia). rewrite <- Ep in *. rewrite mod_once in * by lia.
      repeat case_decide; try lia; done.
    + intros j Hj. rewrite Hk by (rewrite <- Ep; apply Nat.mod_upper_bound; lia). rewrite <- Ep in *. rewrite mod_once in * by lia.
      repeat case_decide; try lia; f_equal; lia.
Qed.
End put.

(** The oldest [k] bytes are gone. *)
Lemma rb_skip rb q k : rb_ok rb q -> (k <= length q)%nat ->
  rb_ok (with_read (if decide (read_index rb + Z.of_nat k < buffer_size rb) then read_mirror rb else flip (read_mirror rb))
    (if decide (read_index rb + Z.of_nat k < buffer_size rb) then read_index rb + Z.of_nat k else read_index rb + Z.of_nat k - buffer_size rb) rb)
    (drop k q).
Proof.
  intros Hok Hk. destruct (rb_nat _ _ Hok) as [(? & ? & Ep & ? & ?) (Es & Ew & Er & ?)]. destruct Hok as [Hs Hr Hm Hl Hw Hq].
  split; simpl; rewrite ?length_drop.
  - done.
  - case_decide; lia.
  - unfold flip. case_decide; lia.
  - lia.
  - unfold flip in *. case_decide; lia.
  - rewrite Hq at 1. rewrite <- ring_drop by lia. f_equal. rewrite mod_once by lia. repeat case_decide; lia.
Qed.

Lemma copy_in_eval i l rb : 0 <= i -> i + Z.of_nat (length l) <= Z.of_nat (length (buffer_ptr rb)) ->
  copy_in i l rb = Some (tt, with_pool (blit (Z.to_nat i) l (buffer_ptr rb)) rb).
Proof. intros. unfold copy_in. rewrite (bind_eval _ _ _ _ _ (eq_refl : gets buffer_ptr rb = Some (_, rb))). by rewrite decide_True. Qed.

(** The pool after [l] has been written from [w] on, around its end. *)
Definition written (pool : list Z) (w : nat) (l pool' : list Z) : Prop :=
  length pool' = length pool /\ forall k, (k < length pool)%nat -> pool' !! k =
    if decide (w <= k < w + length l)%nat then l !! (k - w)%nat
    else if decide (k + length pool < w + length l)%nat then l !! (k + length pool - w)%nat else pool !! k.

Lemma written_blit pool w l : (w + length l <= length pool)%nat -> written pool w l (blit w l pool).
Proof.
  intros H. split; [by apply length_blit|]. intros k Hk. rewrite lookup_blit by done.
  repeat case_decide; try lia; done.
Qed.

Lemma copy_around_eval rb ptr L : buffer_size rb = Z.of_nat (length (buffer_ptr rb)) -> buffer_size rb < 2 ^ 15 ->
  0 <= write_index rb < buffer_size rb -> buffer_size rb - write_index rb <= L <= buffer_size rb -> L <= Z.of_nat (length ptr) ->
  exists pool', copy_around ptr L rb =
      Some (tt, with_write (flip (write_mirror rb)) (write_index rb + L - buffer_size rb) (with_pool pool' rb)) /\
    written (buffer_ptr rb) (Z.to_nat (write_index rb)) (take (Z.to_nat L) ptr) pool'.
Proof.
  intros Hs H15 Hw HL Hp. unfold copy_around. set (n := buffer_size rb - write_index rb) in *.
  set (b1 := blit (Z.to_nat (write_index rb)) (take (Z.to_nat n) ptr) (buffer_ptr rb)).
  assert (length b1 = length (buffer_ptr rb)) as Hb1 by (apply length_blit; rewrite length_take; lia).
  exists (blit 0 (take (Z.to_nat (L - n)) (drop (Z.to_nat n) ptr)) b1). split.
  - rewrite (bind_eval _ _ _ _ _ (eq_refl : gets id rb = Some (rb, rb))). fold n.
    unfold deref. rewrite !slice_Some by lia. rewrite (bind_eval _ _ _ (take (Z.to_nat n) ptr) rb) by (rewrite drop_0; done).
    erewrite bind_eval by (apply copy_in_eval; rewrite ?length_take; lia). erewrite bind_eval by reflexivity.
    erewrite bind_eval by (apply copy_in_eval; simpl; fold b1; rewrite ?length_take, ?length_drop; lia).
    unfold modify. rewrite wrap_small by (unfold in_range; lia). unfold with_write, with_pool. simpl. do 3 f_equal. lia.
  - split; [rewrite length_blit; [done|rewrite length_take, length_drop; lia]|]. intros k Hk.
    rewrite lookup_blit by (rewrite length_take, length_drop; lia). rewrite length_take, length_drop, length_take.
    unfold b1. rewrite lookup_blit by (rewrite length_take; lia). rewrite length_take.
    repeat case_decide; try lia; rewrite ?lookup_take_lt by lia; rewrite ?lookup_drop; try done; f_equal; lia.
Qed.

(** What was written, as [put] leaves it. *)
Lemma written_write rb q l pool' : rb_ok rb q -> (length q + length l <= length (buffer_ptr rb))%nat ->
  written (buffer_ptr rb) (Z.to_nat (write_index rb)) l pool' ->
  rb_ok (with_write (if decide (write_index rb + Z.of_nat (length l) < buffer_size rb) then write_mirror rb else flip (write_mirror rb))
    (if decide (write_index rb + Z.of_nat (length l) < buffer_size rb) then write_index rb + Z.of_nat (length l) else write_index rb + Z.of_nat (length l) - buffer_size rb)
    (with_pool pool' rb)) (q ++ l).
Proof.
  intros Hok Hl [Hp Hk]. destruct (rb_nat _ _ Hok) as [(? & ? & Ep & ? & ?) (Es & Ew & Er & ?)].
  rewrite <- Ep in *. pose proof (written_ok rb q Hok pool' l _ Hl Hp Hk eq_refl) as H'.
  unfold with_write, with_pool. simpl. repeat case_decide; try lia.
  - replace (write_index rb + Z.of_nat (length l)) with (Z.of_nat (Z.to_nat (write_index rb) + length l)) by lia. done.
  - replace (write_index rb + Z.of_nat (length l) - buffer_size rb) with (Z.of_nat (Z.to_nat (write_index rb) + length l - Z.to_nat (buffer_size rb))) by lia. done.
Qed.

(** Writing without a word about the read index. *)
Lemma write_eval rb q ptr L : rb_ok rb q -> 0 <= L <= buffer_size rb -> L <= Z.of_nat (length ptr) ->
  let l := take (Z.to_nat L) ptr in
  exists pool', written (buffer_ptr rb) (Z.to_nat (write_index rb)) l pool' /\
    if decide (L < buffer_size rb - write_index rb)
    then (copy_in (write_index rb) l;; modify (with_write (write_mirror rb) (u15 (write_index rb + L)))) rb =
        Some (tt, with_write (write_mirror rb) (write_index rb + L) (with_pool pool' rb))
    else copy_around ptr L rb = Some (tt, with_write (flip (write_mirror rb)) (write_index rb + L - buffer_size rb) (with_pool pool' rb)).
Proof.
  intros Hok HL Hp l. pose proof (rb_write_range _ _ Hok). destruct Hok as [[Hs0 Hs] Hr Hm Hl Hw Hq]. case_decide as Hd.
  - exists (blit (Z.to_nat (write_index rb)) l (buffer_ptr rb)). split.
    + apply written_blit. unfold l. rewrite length_take. lia.
    + erewrite bind_eval by (apply copy_in_eval; unfold l; rewrite ?length_take; lia). unfold modify. rewrite wrap_small by (unfold in_range; lia). done.
  - destruct (copy_around_eval rb ptr L Hs) as (pool' & E & H'); [lia..|]. by exists pool'.
Qed.

Lemma gets_id_eval {A} (f : rt_ringbuffer -> RM A) rb : (gets id ≫= f) rb = f rb rb.
Proof. done. Qed.

Lemma rt_ringbuffer_put_spec rb q ptr L : rb_ok rb q -> 0 <= L < 2 ^ 16 -> L <= Z.of_nat (length ptr) ->
  exists rb', rt_ringbuffer_put ptr L rb = Some (Z.min L (buffer_size rb - Z.of_nat (length q)), rb') /\
    rb_ok rb' (q ++ take (Z.to_nat (Z.min L (buffer_size rb - Z.of_nat (length q)))) ptr) /\ buffer_size rb' = buffer_size rb.
Proof.
  intros Hok HL Hp. destruct (data_len_ok _ _ Hok) as (_ & Esp & _). pose proof Hok as [[Hs0 Hs] _ _ Hl _ _].
  unfold rt_ringbuffer_put. rewrite gets_id_eval, Esp, wrap_small by (unfold in_range; lia).
  destruct (decide (buffer_size rb - Z.of_nat (length q) = 0)) as [Hz|Hz].
  - exists rb. rewrite Z.min_r by lia. rewrite Hz, app_nil_r. done.
  - remember (Z.min L (buffer_size rb - Z.of_nat (length q))) as n eqn:En.
    replace (if decide (buffer_size rb - Z.of_nat (length q) < L) then buffer_size rb - Z.of_nat (length q) else L) with n by (case_decide; lia).
    destruct (write_eval rb q ptr n Hok) as (pool' & Hw & E); [lia..|]. pose proof (written_write rb q (take (Z.to_nat n) ptr) pool' Hok ltac:(rewrite length_take; lia) Hw) as Hok'.
    rewrite length_take in Hok'. replace (Z.of_nat (Z.to_nat n `min` length ptr)) with n in Hok' by lia.
    destruct (decide (n < buffer_size rb - write_index rb)) as [Hd|Hd].
    + rewrite !decide_True in Hok' by lia. eexists. split; [|split; [exact Hok'|done]].
      unfold deref. rewrite slice_Some by lia. erewrite bind_eval by reflexivity. rewrite drop_0. by erewrite bind_regroup by exact E.
    + rewrite !decide_False in Hok' by lia. eexists. split; [|split; [exact Hok'|done]]. by rewrite (bind_eval _ _ _ _ _ E).
Qed.

Lemma rt_ringbuffer_get_spec rb q L : rb_ok rb q -> 0 <= L < 2 ^ 16 ->
  let n := Z.min L (Z.of_nat (length q)) in
  exists rb', rt_ringbuffer_get L rb = Some ((n, take (Z.to_nat n) q), rb') /\ rb_ok rb' (drop (Z.to_nat n) q) /\ buffer_size rb' = buffer_size rb.
Proof.
  intros Hok HL n. assert (n = Z.min L (Z.of_nat (length q))) as En by done. clearbody n. destruct (data_len_ok _ _ Hok) as (Edl & _ & _). destruct (rb_nat _ _ Hok) as [(? & ? & Ep & ? & ?) (Es & Ew & Er & ?)].
  pose proof (rb_skip rb q (Z.to_nat n) Hok ltac:(lia)) as Hok'. pose proof (rb_data _ _ Hok) as Hq.
  rewrite Z2Nat.id in Hok' by lia.
  unfold rt_ringbuffer_get. rewrite gets_id_eval, Edl. destruct (decide (Z.of_nat (length q) = 0)) as [Hz|Hz].
  - exists rb. replace n with 0 by lia. destruct q; [|done]. done.
  - replace (u16 (if decide (Z.of_nat (length q) < L) then Z.of_nat (length q) else L)) with n
      by (rewrite wrap_small; unfold in_range; destruct (decide (Z.of_nat (length q) < L)); lia).
    assert (forall k, (k < Z.to_nat n)%nat -> q !! k = buffer_ptr rb !! ((Z.to_nat (read_index rb) + k) mod length (buffer_ptr rb))%nat) as Hqk.
    { intros k Hk. rewrite Hq at 1. apply ring_lookup; lia. }
    destruct (decide (n < buffer_size rb - read_index rb)) as [Hd|Hd].
    + rewrite !decide_True in Hok' by lia. eexists. split; [|split; [exact Hok'|done]]. unfold deref. rewrite slice_Some by lia.
      erewrite bind_eval by reflexivity. rewrite wrap_small by (unfold in_range; lia). erewrite bind_eval by reflexivity.
      assert (take (Z.to_nat n) (drop (Z.to_nat (read_index rb)) (buffer_ptr rb)) = take (Z.to_nat n) q) as ->; [|done].
      apply list_eq. intros k. rewrite lookup_slice. destruct (decide (k < Z.to_nat n)%nat); [|by rewrite lookup_take_ge by lia].
      rewrite lookup_take_lt, Hqk, Nat.mod_small by lia. done.
    + rewrite !decide_False in Hok' by lia. eexists. split; [|split; [exact Hok'|done]]. unfold deref. rewrite !slice_Some by lia.
      erewrite bind_eval by reflexivity. erewrite bind_eval by reflexivity. rewrite wrap_small by (unfold in_range; lia).
      erewrite bind_eval by reflexivity.
      replace (n - (buffer_size rb - read_index rb)) with (read_index rb + n - buffer_size rb) by lia.
      match goal with |- mret (n, ?l) _ = _ => assert (l = take (Z.to_nat n) q) as ->; [|done] end.
      apply list_eq. intros k. destruct (decide (k < Z.to_nat n)%nat) as [Hk|Hk].
      * rewrite lookup_take_lt, Hqk by lia. rewrite mod_once by lia. case_decide.
        -- rewrite lookup_app_l by (rewrite length_take, length_drop; lia). by rewrite lookup_slice, decide_True by lia.
        -- rewrite lookup_app_r by (rewrite length_take, length_drop; lia). rewrite lookup_slice, length_take, length_drop, decide_True by lia. f_equal. lia.
      * rewrite lookup_take_ge by lia. apply lookup_ge_None_2. rewrite length_app, !length_take, !length_drop. lia.
Qed.

(** The last [n] bytes of [l]. *)
Definition last_bytes (n : nat) (l : list Z) : list Z := drop (length l - n) l.

(** Both branches of [put_force], the bytes to write being known. *)
Lemma put_force_eval rb q ptr L : rb_ok rb q -> 0 <= L < 2 ^ 16 -> L <= Z.of_nat (length ptr) ->
  let l := last_bytes (Z.to_nat (buffer_size rb)) (take (Z.to_nat L) ptr) in
  let n := Z.of_nat (length l) in
  exists pool', written (buffer_ptr rb) (Z.to_nat (write_index rb)) l pool' /\ n = Z.min L (buffer_size rb) /\
    let m := if decide (write_index rb + n < buffer_size rb) then write_mirror rb else flip (write_mirror rb) in
    let w := if decide (write_index rb + n < buffer_size rb) then write_index rb + n else write_index rb + n - buffer_size rb in
    let rb1 := with_write m w (with_pool pool' rb) in
    rt_ringbuffer_put_force ptr L rb = Some (n, if decide (buffer_size rb - Z.of_nat (length q) < n)
      then with_read (if decide (write_index rb + n < buffer_size rb) then read_mirror rb else flip (read_mirror rb)) w rb1 else rb1).
Proof.
  intros Hok HL Hp l n. destruct (data_len_ok _ _ Hok) as (_ & Esp & _). pose proof Hok as [[Hs0 Hs] Hr Hm Hl _ _].
  assert (n = Z.min L (buffer_size rb)) as En by (unfold n, l, last_bytes; rewrite length_drop, length_take; lia).
  assert (slice (L - n) n ptr = Some l) as Esl.
  { rewrite slice_Some by lia. f_equal. apply list_eq. intros k. unfold l, last_bytes. rewrite lookup_slice, lookup_drop, length_take.
    replace (Z.to_nat L `min` length ptr)%nat with (Z.to_nat L) by lia. case_decide.
    - rewrite lookup_take_lt by lia. f_equal. lia.
    - rewrite lookup_take_ge; [done|]. lia. }
  destruct (write_eval rb q l n Hok) as (pool' & Hw & E); [lia|lia|].
  rewrite take_ge in Hw, E by lia. exists pool'. split; [done|]. split; [done|]. cbv zeta.
  unfold rt_ringbuffer_put_force. rewrite gets_id_eval, Esp, !(wrap_small 16) by (unfold in_range; lia).
  replace (if decide (buffer_size rb < L) then (L - buffer_size rb, buffer_size rb) else (0, L)) with (L - n, n)
    by (destruct (decide (buffer_size rb < L)); f_equal; lia).
  cbv iota beta. unfold deref. rewrite Esl. erewrite bind_eval by reflexivity. destruct (decide (n < buffer_size rb - write_index rb)) as [Hd|Hd].
  - rewrite !(decide_True (P := write_index rb + n < buffer_size rb)) by lia. erewrite bind_regroup by exact E.
    case_bool_decide; case_decide; done.
  - rewrite !(decide_False (P := write_index rb + n < buffer_size rb)) by lia. rewrite (bind_eval _ _ _ _ _ E).
    case_bool_decide; case_decide; done.
Qed.

Lemma rb_empty rb : 0 < buffer_size rb < 2 ^ 15 -> buffer_size rb = Z.of_nat (length (buffer_ptr rb)) -> 0 <= read_index rb < buffer_size rb ->
  read_mirror rb = 0 \/ read_mirror rb = 1 -> write_mirror rb = read_mirror rb -> write_index rb = read_index rb -> rb_ok rb [].
Proof. intros. split; simpl; [done|done|done|lia|left; split; [done|lia]|done]. Qed.

Lemma rt_ringbuffer_put_force_spec rb q ptr L : rb_ok rb q -> 0 <= L < 2 ^ 16 -> L <= Z.of_nat (length ptr) ->
  let l := last_bytes (Z.to_nat (buffer_size rb)) (take (Z.to_nat L) ptr) in
  exists rb', rt_ringbuffer_put_force ptr L rb = Some (Z.of_nat (length l), rb') /\
    rb_ok rb' (if decide (Z.of_nat (length q + length l) <= buffer_size rb) then q ++ l
      else if decide (write_mirror rb = read_mirror rb) then [] else last_bytes (Z.to_nat (buffer_size rb)) (q ++ l)).
Proof.
  intros Hok HL Hp l. destruct (put_force_eval rb q ptr L Hok HL Hp) as (pool' & Hw & En & E). fold l in Hw, En, E.
  destruct (rb_nat _ _ Hok) as [(? & ? & Ep & ? & ?) (Es & Ew & Er & ?)]. pose proof (rb_write _ _ Hok) as Hwr.
  eexists. split; [exact E|]. destruct (decide (Z.of_nat (length q + length l) <= buffer_size rb)) as [Hfit|Hfit].
  - rewrite (decide_False (P := buffer_size rb - _ < _)) by lia. apply (written_write rb q l pool' Hok); [lia|done].
  - rewrite (decide_True (P := buffer_size rb - _ < _)) by lia.
    destruct (decide (write_mirror rb = read_mirror rb)) as [Hmir|Hmir].
    + assert (~ write_index rb + Z.of_nat (length l) < buffer_size rb) as Hwrap.
      { destruct Hwr as [(? & ? & ?)|(Hf & _)]; [lia|]. destruct Hok as [_ _ [?|?] _ _ _]; unfold flip in Hf; lia. }
      rewrite !(decide_False (P := write_index rb + _ < _)) by done. destruct Hok as [? ? Hm ? ? ?], Hw as [Hlen _].
      apply rb_empty; simpl; [tauto|lia|lia|unfold flip; lia|by rewrite Hmir|done].
    + destruct Hwr as [(? & _)|(Hf & Hwi & ?)]; [done|]. set (k := (length q + length l - Z.to_nat (buffer_size rb))%nat).
      assert (Z.of_nat k = Z.of_nat (length q) + Z.of_nat (length l) - buffer_size rb) as Ek by (unfold k; lia).
      pose proof (rb_skip rb q k Hok ltac:(unfold k; lia)) as Hok0.
      pose proof (written_write _ (drop k q) l pool' Hok0 ltac:(simpl; rewrite length_drop; unfold k; lia) Hw) as Hok1. simpl in Hok1.
      assert (last_bytes (Z.to_nat (buffer_size rb)) (q ++ l) = drop k q ++ l) as ->.
      { unfold last_bytes. rewrite length_app. fold k. rewrite drop_app_le; [done|unfold k; lia]. }
      unfold with_read, with_write, with_pool in *. simpl in *.
      replace (read_index rb + Z.of_nat k) with (write_index rb + Z.of_nat (length l)) in Hok1 by lia. exact Hok1.
Qed.

(** One byte into the pool. *)
Lemma char_eval rb q ch : rb_ok rb q -> exists pool', copy_in (write_index rb) [ch] rb = Some (tt, with_pool pool' rb) /\
  written (buffer_ptr rb) (Z.to_nat (write_index rb)) [ch] pool'.
Proof.
  intros Hok. pose proof (rb_write_range _ _ Hok). destruct (rb_size _ _ Hok). eexists. split; [apply copy_in_eval; simpl; lia|].
  apply written_blit. simpl. lia.
Qed.

Lemma rt_ringbuffer_putchar_spec rb q ch : rb_ok rb q ->
  exists n rb', rt_ringbuffer_putchar ch rb = Some (n, rb') /\
    (if decide (Z.of_nat (length q) < buffer_size rb) then n = 1 /\ rb_ok rb' (q ++ [ch]) else n = 0 /\ rb' = rb).
Proof.
  intros Hok. destruct (data_len_ok _ _ Hok) as (_ & Esp & _). pose proof (rb_length _ _ Hok). pose proof (rb_write_range _ _ Hok).
  destruct (rb_size _ _ Hok) as [? ?]. unfold rt_ringbuffer_putchar. rewrite gets_id_eval, Esp.
  destruct (decide (Z.of_nat (length q) < buffer_size rb)) as [Hl|Hl]; [rewrite decide_False by lia|rewrite decide_True by lia; by exists 0, rb].
  destruct (char_eval rb q ch Hok) as (pool' & E & Hw). rewrite (bind_eval _ _ _ _ _ E).
  pose proof (written_write rb q [ch] pool' Hok ltac:(simpl; lia) Hw) as Hok'. simpl in Hok'; try change (Z.of_nat 1) with 1 in Hok'.
  rewrite wrap_small by (unfold in_range; lia). destruct (decide (write_index rb = buffer_size rb - 1)) as [Hd|Hd].
  - rewrite !decide_False in Hok' by lia. replace (write_index rb + 1 - buffer_size rb) with 0 in Hok' by lia. eexists 1, _. split; [reflexivity|exact (conj eq_refl Hok')].
  - rewrite !decide_True in Hok' by lia. eexists 1, _. split; [reflexivity|exact (conj eq_refl Hok')].
Qed.

Lemma rt_ringbuffer_getchar_spec rb q : rb_ok rb q ->
  exists rb', rt_ringbuffer_getchar rb = Some (match q with [] => (0, []) | c :: _ => (1, [c]) end, rb') /\ rb_ok rb' (tail q).
Proof.
  intros Hok. destruct (data_len_ok _ _ Hok) as (Edl & _ & _). destruct (rb_nat _ _ Hok) as [(? & ? & Ep & ? & ?) (Es & Ew & Er & ?)].
  unfold rt_ringbuffer_getchar. rewrite gets_id_eval, Edl. destruct q as [|c q].
  - rewrite decide_True by done. by exists rb.
  - rewrite decide_False by (simpl; lia). pose proof (rb_skip rb (c :: q) 1 Hok ltac:(simpl; lia)) as Hok'. simpl in Hok'; try change (Z.of_nat 1) with 1 in Hok'.
    assert (buffer_ptr rb !! Z.to_nat (read_index rb) = Some c) as Ec.
    { pose proof (f_equal (fun l : list Z => l !! 0%nat) (rb_data _ _ Hok)) as E. rewrite ring_lookup in E by (simpl; lia). simpl in E.
      rewrite Nat.add_0_r, Nat.mod_small in E by lia. by rewrite <- E. }
    unfold deref. rewrite slice_Some by lia. erewrite bind_eval by reflexivity. rewrite (drop_S _ _ _ Ec). simpl take.
    rewrite wrap_small by (unfold in_range; lia). rewrite drop_0 in Hok'. destruct (decide (read_index rb = buffer_size rb - 1)) as [Hd|Hd].
    + rewrite !decide_False in Hok' by lia. replace (read_index rb + 1 - buffer_size rb) with 0 in Hok' by lia. eexists. split; [reflexivity|exact Hok'].
    + rewrite !decide_True in Hok' by lia. eexists. split; [reflexivity|exact Hok'].
Qed.

Lemma rt_ringbuffer_putchar_force_spec rb q ch : rb_ok rb q ->
  exists rb', rt_ringbuffer_putchar_force ch rb = Some (1, rb') /\
    rb_ok rb' (if decide (Z.of_nat (length q) < buffer_size rb) then q ++ [ch] else drop 1 q ++ [ch]).
Proof.
  intros Hok. destruct (data_len_ok _ _ Hok) as (_ & _ & Est). pose proof (rb_length _ _ Hok). pose proof (rb_write_range _ _ Hok).
  destruct (rb_size _ _ Hok) as [? ?]. unfold rt_ringbuffer_putchar_force. rewrite gets_id_eval.
  destruct (char_eval rb q ch Hok) as (pool' & E & Hw). rewrite (bind_eval _ _ _ _ _ E). rewrite wrap_small by (unfold in_range; lia).
  destruct (decide (Z.of_nat (length q) < buffer_size rb)) as [Hl|Hl].
  - pose proof (written_write rb q [ch] pool' Hok ltac:(simpl; lia) Hw) as Hok'. simpl in Hok'; try change (Z.of_nat 1) with 1 in Hok'.
    assert (rt_ringbuffer_status rb <> RT_RINGBUFFER_FULL) as Hst by (rewrite Est; lia).
    destruct (decide (write_index rb = buffer_size rb - 1)) as [Hd|Hd].
    + rewrite !decide_False in Hok' by lia. replace (write_index rb + 1 - buffer_size rb) with 0 in Hok' by lia.
      destruct (rt_ringbuffer_status rb); [|done|]; (eexists; split; [reflexivity|exact Hok']).
    + rewrite !decide_True in Hok' by lia. destruct (rt_ringbuffer_status rb); [|done|]; (eexists; split; [reflexivity|exact Hok']).
  - rewrite (proj2 Est) by lia. pose proof (rb_skip rb q 1 Hok ltac:(lia)) as Hok0.
    pose proof (written_write _ (drop 1 q) [ch] pool' Hok0 ltac:(simpl; rewrite length_drop; lia) Hw) as Hok1. simpl in Hok1.
    destruct (rb_write _ _ Hok) as [(? & ? & ?)|(Hf & Hwi & _)]; [pose proof (rb_read _ _ Hok); lia|].
    assert (write_index rb = read_index rb) as Ewr by lia. unfold with_read, with_write, with_pool in *. simpl in Hok1; try change (Z.of_nat 1) with 1 in Hok1. rewrite <- Ewr in Hok1.
    destruct (decide (write_index rb = buffer_size rb - 1)) as [Hd|Hd].
    + rewrite !decide_False in Hok1 by lia. replace (write_index rb + 1 - buffer_size rb) with 0 in Hok1 by lia.
      eexists. split; [reflexivity|exact Hok1].
    + rewrite !decide_True in Hok1 by lia. eexists. split; [reflexivity|exact Hok1].
Qed.

Lemma rt_ringbuffer_init_spec pool size rb : 8 <= size < 2 ^ 15 -> Z.of_nat (length pool) = RT_ALIGN_DOWN size 8 ->
  exists rb', rt_ringbuffer_init pool size rb = Some (tt, rb') /\ rb_ok rb' [] /\ buffer_size rb' = RT_ALIGN_DOWN size 8.
Proof.
  intros Hs Hp. destruct (rt_align_down_8 size ltac:(lia)) as [H1 H2]. unfold rt_ringbuffer_init. rewrite bool_decide_true by lia.
  eexists. split; [reflexivity|]. split; [|done]. pose proof (Z.div_mod (RT_ALIGN_DOWN size 8) 8 ltac:(lia)). apply rb_empty; simpl; try done; try lia.
Qed.

(** Both blocks or none. *)
Lemma rt_ringbuffer_create_spec h A size : heap_serves h A -> 8 <= size < 2 ^ 15 ->
  exists o h', rt_ringbuffer_create size h = Some (o, h') /\
    match o with
    | None => heap_serves h' A
    | Some (rb, pool, s) => exists n m, heap_serves h' (<[pool := m]> (<[rb := n]> A)) /\ A !! rb = None /\ A !! pool = None /\ rb <> pool /\
        buffer_size s <= m /\ rb_ok s []
    end.
Proof.
  intros Hsv Hs. destruct (rt_align_down_8 size ltac:(lia)) as [H1 H2]. pose proof (Z.div_mod (RT_ALIGN_DOWN size 8) 8 ltac:(lia)).
  unfold rt_ringbuffer_create. rewrite bool_decide_true by lia. erewrite bind_eval by reflexivity. cbv zeta.
  destruct (rt_malloc_serves h A 12 Hsv) as [E|(h1 & a & n & E & Ha & Hna & _ & Hsv1 & _)]; [lia..| |]; rewrite (bind_eval _ _ _ _ _ E).
  { rewrite decide_True by done. exists None, h. done. }
  rewrite decide_False by done.
  destruct (rt_malloc_serves h1 _ (RT_ALIGN_DOWN size 8) Hsv1) as [E1|(h2 & p & m & E1 & Hp & Hnp & Hm & Hsv2 & _)]; [lia..| |]; rewrite (bind_eval _ _ _ _ _ E1).
  - rewrite decide_True by done. destruct (rt_free_serves _ _ a n Hsv1) as (h2 & E2 & Hsv2 & _); [apply lookup_insert_eq|].
    rewrite (bind_eval _ _ _ _ _ E2). exists None, h2. split; [done|]. by rewrite delete_insert_id in Hsv2.
  - rewrite decide_False by done. erewrite bind_eval by reflexivity. unfold deref.
    assert (s16 (RT_ALIGN_DOWN size 8) = RT_ALIGN_DOWN size 8) as -> by (unfold s16; rewrite wrap_small by (unfold in_range; lia); by rewrite decide_True by lia).
    assert (RT_ALIGN_DOWN (RT_ALIGN_DOWN size 8) 8 = RT_ALIGN_DOWN size 8) as Eal.
    { destruct (rt_align_down_8 (RT_ALIGN_DOWN size 8) ltac:(lia)) as [H3 H4]. pose proof (Z.div_mod (RT_ALIGN_DOWN (RT_ALIGN_DOWN size 8) 8) 8 ltac:(lia)). lia. }
    destruct (rt_ringbuffer_init_spec (map (heap_bytes h2) (seqZ p (RT_ALIGN_DOWN size 8))) (RT_ALIGN_DOWN size 8) (Ringbuffer [] 0 0 0 0 0)) as (s & Ei & Hok & Esz);
      [lia|rewrite length_map, length_seqZ, Eal; lia|].
    rewrite Ei. erewrite bind_eval by reflexivity. eexists (Some (a, p, s)), h2. split; [reflexivity|].
    destruct (decide (a = p)) as [->|Hne]; [by rewrite lookup_insert_eq in Hnp|]. rewrite lookup_insert_ne in Hnp by done.
    exists n, m. rewrite Esz, Eal. done.
Qed.

Lemma rt_ringbuffer_destroy_spec h A rb pool n m : heap_serves h (<[pool := m]> (<[rb := n]> A)) -> rb <> pool -> A !! rb = None -> A !! pool = None ->
  exists h', rt_ringbuffer_destroy rb pool h = Some (tt, h') /\ heap_serves h' A.
Proof.
  intros Hsv Hne Ha Hp. pose proof (serves_inside _ _ rb n Hsv) as (? & _); [by rewrite lookup_insert_ne, lookup_insert_eq|].
  assert (0 < heap_ptr h) by (destruct Hsv as (? & ? & [[Hwf _ _] _] & _); apply (wf_ptr _ _ Hwf)).
  unfold rt_ringbuffer_destroy. rewrite bool_decide_true by lia. erewrite bind_eval by reflexivity.
  destruct (rt_free_serves _ _ pool m Hsv) as (h1 & E1 & Hsv1 & _); [apply lookup_insert_eq|]. rewrite (bind_eval _ _ _ _ _ E1).
  rewrite delete_insert_id in Hsv1 by by rewrite lookup_insert_ne.
  destruct (rt_free_serves _ _ rb n Hsv1) as (h2 & E2 & Hsv2 & _); [apply lookup_insert_eq|]. rewrite delete_insert_id in Hsv2 by done. eauto.
Qed.

(** ** The properties *)

(** C16: The ring buffer with its mirror bits implements a bounded queue of
    bytes: [put] appends as many bytes as fit, [get] takes the oldest ones,
    [putchar] and [getchar] do so for one byte, and [putchar_force] drops the
    oldest byte of a full buffer. *)
Theorem rt_ringbuffer_is_queue rb q : rb_ok rb q ->
  rt_ringbuffer_data_len rb = Z.of_nat (length q) /\
  (forall ptr len, 0 <= len < 2 ^ 16 -> len <= Z.of_nat (length ptr) ->
    let n := Z.min len (buffer_size rb - Z.of_nat (length q)) in
    exists rb', rt_ringbuffer_put ptr len rb = Some (n, rb') /\ rb_ok rb' (q ++ take (Z.to_nat n) ptr)) /\
  (forall len, 0 <= len < 2 ^ 16 -> let n := Z.min len (Z.of_nat (length q)) in
    exists rb', rt_ringbuffer_get len rb = Some ((n, take (Z.to_nat n) q), rb') /\ rb_ok rb' (drop (Z.to_nat n) q)) /\
  (forall ch, exists n rb', rt_ringbuffer_putchar ch rb = Some (n, rb') /\
    if decide (Z.of_nat (length q) < buffer_size rb) then n = 1 /\ rb_ok rb' (q ++ [ch]) else n = 0 /\ rb' = rb) /\
  (exists rb', rt_ringbuffer_getchar rb = Some (match q with [] => (0, []) | c :: _ => (1, [c]) end, rb') /\ rb_ok rb' (tail q)) /\
  (forall ch, exists rb', rt_ringbuffer_putchar_force ch rb = Some (1, rb') /\
    rb_ok rb' (if decide (Z.of_nat (length q) < buffer_size rb) then q ++ [ch] else drop 1 q ++ [ch])).
Proof.
  intros Hok. split; [apply (data_len_ok _ _ Hok)|]. split.
  { intros ptr len Hl Hp n. destruct (rt_ringbuffer_put_spec rb q ptr len Hok Hl Hp) as (rb' & E & H & _). eauto. }
  split. { intros len Hl n. destruct (rt_ringbuffer_get_spec rb q len Hok Hl) as (rb' & E & H & _). eauto. }
  split; [intros ch; by apply rt_ringbuffer_putchar_spec|]. split; [by apply rt_ringbuffer_getchar_spec|].
  intros ch. by apply rt_ringbuffer_putchar_force_spec.
Qed.

(** [rt_ringbuffer_put_force] writes the last bytes that fit into the
    buffer; when they overwrite old ones, the buffer then holds the last bytes
    of the queue and the new ones if the write index has gone around the end
    more often than the read index, but is empty if it has not. *)
Theorem rt_ringbuffer_put_force_ok rb q ptr len : rb_ok rb q -> 0 <= len < 2 ^ 16 -> len <= Z.of_nat (length ptr) ->
  let l := last_bytes (Z.to_nat (buffer_size rb)) (take (Z.to_nat len) ptr) in
  exists rb', rt_ringbuffer_put_force ptr len rb = Some (Z.of_nat (length l), rb') /\
    rb_ok rb' (if decide (Z.of_nat (length q + length l) <= buffer_size rb) then q ++ l
      else if decide (write_mirror rb = read_mirror rb) then []
      else last_bytes (Z.to_nat (buffer_size rb)) (q ++ l)).
Proof. apply rt_ringbuffer_put_force_spec. Qed.

(** ** Concrete buffers *)

(** Three bytes in a buffer of eight, at the front, and at the end. *)
Definition rb_front : rt_ringbuffer := Ringbuffer [1; 2; 3; 0; 0; 0; 0; 0] 0 0 0 3 8.
Definition rb_around : rt_ringbuffer := Ringbuffer [2; 3; 0; 0; 0; 0; 0; 1] 0 7 1 2 8.

Lemma rb_front_ok : rb_ok rb_front [1; 2; 3].
Proof. split; simpl; try done; lia. Qed.

Lemma rb_around_ok : rb_ok rb_around [1; 2; 3].
Proof. split; simpl; try done; unfold flip; lia. Qed.

(** Eight more bytes: all are there, or none. *)
Example put_force_around : exists rb', rt_ringbuffer_put_force [11;12;13;14;15;16;17;18] 8 rb_around = Some (8, rb') /\ rt_ringbuffer_data_len rb' = 8.
Proof. eexists. split; [vm_compute; reflexivity|vm_compute; reflexivity]. Qed.
Example put_force_front : exists rb', rt_ringbuffer_put_force [11;12;13;14;15;16;17;18] 8 rb_front = Some (8, rb') /\ rt_ringbuffer_data_len rb' = 0.
Proof. eexists. split; [vm_compute; reflexivity|vm_compute; reflexivity]. Qed.

(** ** Witnesses *)

Lemma rt_ringbuffer_is_queue_witness : rb_ok rb_around [1; 2; 3] /\
  exists rb', rt_ringbuffer_get 2 rb_around = Some ((2, [1; 2]), rb') /\ rb_ok rb' [3].
Proof. split; [exact rb_around_ok|]. destruct (rt_ringbuffer_is_queue _ _ rb_around_ok) as (_ & _ & H & _). apply (H 2). lia. Defined.

Lemma rt_ringbuffer_put_force_ok_witness : exists rb', rt_ringbuffer_put_force [11;12;13;14;15;16;17;18] 8 rb_front = Some (8, rb') /\ rb_ok rb' [].
Proof. apply (rt_ringbuffer_put_force_ok rb_front [1; 2; 3] [11;12;13;14;15;16;17;18] 8 rb_front_ok); simpl; lia. Defined.
