(* ===== verification/RingBlk.v ===== *)
(** * RingBlk: the ring block buffer

    components/drivers/src/ringblk_buf.c: a ring of blocks of different sizes,
    handed out in the order in which they were allocated.  A block is the index of
    its descriptor in [blk_set]; the descriptors in use are on a singly linked list
    ([SList]).  Addresses are numbers, so [blk_buf] can be compared with
    [rbb_buf] as the code does. *)

From S2P Require Import Prelude SList KString Mem.

(** ** Data *)

Inductive rt_rbb_status := RT_RBB_BLK_UNUSED | RT_RBB_BLK_INITED | RT_RBB_BLK_PUT | RT_RBB_BLK_GET.
#[export] Instance rt_rbb_status_eq_dec : EqDecision rt_rbb_status.
Proof. solve_decision. Defined.

(** [struct rt_rbb_blk]: [blk_size] has 24 bits, [blk_next] is the list node. *)
Record rbb_blk := Blk { blk_status : rt_rbb_status; blk_size : Z; blk_buf : Z; blk_next : option nat }.

Record rbb := Rbb { rbb_buf : Z; rbb_buf_size : Z; blk_set : list rbb_blk; blk_max_num : Z; blk_list : option nat }.

(** [struct rt_rbb_blk_queue]: [blocks] points into [blk_set]. *)
Record blk_queue := Queue { q_blocks : nat; blk_num : Z }.

Abbreviation RB := (M rbb).

Definition with_next (v : option nat) (b : rbb_blk) : rbb_blk := Blk (blk_status b) (blk_size b) (blk_buf b) v.
Definition with_status (s : rt_rbb_status) (b : rbb_blk) : rbb_blk := Blk s (blk_size b) (blk_buf b) (blk_next b).
Definition with_area (buf size : Z) (b : rbb_blk) : rbb_blk := Blk (blk_status b) size buf (blk_next b).
Definition with_blks (set : list rbb_blk) (r : rbb) : rbb := Rbb (rbb_buf r) (rbb_buf_size r) set (blk_max_num r) (blk_list r).

Definition blks (r : rbb) : slist (A:=rbb_blk) := SList (blk_list r) (blk_set r).
Definition with_slist (s : slist (A:=rbb_blk)) (r : rbb) : rbb := Rbb (rbb_buf r) (rbb_buf_size r) (sl_pool s) (blk_max_num r) (sl_first s).

Definition get_blk (i : nat) : RB rbb_blk := deref (fun r => blk_set r !! i).
Definition set_blk (i : nat) (f : rbb_blk -> rbb_blk) : RB unit :=
  b ← get_blk i; modify (fun r => with_blks (<[i := f b]> (blk_set r)) r).
Definition on_list (f : slist (A:=rbb_blk) -> option (slist (A:=rbb_blk))) : RB unit :=
  s ← deref (fun r => f (blks r)); modify (with_slist s).

(** ** Operations *)

(** [for (i = 0; i < blk_max_num; i++) block_set[i].status = RT_RBB_BLK_UNUSED] *)
Fixpoint init_blocks (n i : nat) (set : list rbb_blk) : option (list rbb_blk) :=
  match n with
  | O => Some set
  | S n => b ← set !! i; init_blocks n (S i) (<[i := with_status RT_RBB_BLK_UNUSED b]> set)
  end.

(** [block_set]: the descriptors as they are in memory. *)
Definition rt_rbb_init (buf buf_size : Z) (block_set : list rbb_blk) (blk_max_num : Z) : option rbb :=
  set ← init_blocks (Z.to_nat blk_max_num) 0 block_set;
  Some (with_slist (rt_slist_init (SList None set)) (Rbb buf buf_size set blk_max_num None)).

(** [blocks_at p n]: the descriptors that are in the [n] bytes from [p] on.  The
    addresses of the ring and of the descriptors are kept for the release. *)
Definition rt_rbb_create (blocks_at : Z -> Z -> list rbb_blk) (buf_size blk_max_num : Z) : M heap (option (Z * Z * rbb)) :=
  p ← rt_malloc 20;
  if decide (p = 0) then mret None
  else
    buf ← rt_malloc buf_size;
    if decide (buf = 0) then rt_free p;; mret None
    else
      let bytes := u32 (12 * blk_max_num) in
      set ← rt_malloc bytes;
      if decide (set = 0) then rt_free buf;; rt_free p;; mret None
      else
        r ← deref (fun _ => rt_rbb_init buf buf_size (blocks_at set bytes) blk_max_num);
        mret (Some (p, set, r)).

Definition rt_rbb_destroy (p set : Z) (r : rbb) : M heap unit :=
  rt_free (rbb_buf r);; rt_free set;; rt_free p.

(** [for (i = 0; i < rbb->blk_max_num; i ++)] *)
Fixpoint find_empty (n i : nat) (set : list rbb_blk) : option (option nat) :=
  match n with
  | O => Some None
  | S n =>
    b ← set !! i;
    if decide (blk_status b = RT_RBB_BLK_UNUSED) then Some (Some i) else find_empty n (S i) set
  end.

Definition find_empty_blk_in_set : RB (option nat) :=
  deref (fun r => find_empty (Z.to_nat (blk_max_num r)) 0 (blk_set r)).

(** [rt_slist_append], and the descriptor's status, address and size *)
Definition blk_append (new : nat) (buf size : Z) : RB unit :=
  on_list (rt_slist_append blk_next with_next new);;
  set_blk new (with_status RT_RBB_BLK_INITED);;
  set_blk new (with_area buf (wrap 24 size)).

(** The two pictures of [rt_rbb_blk_alloc]: the list has wrapped around or not. *)
Definition alloc_between (new : nat) (size : Z) (head tail : rbb_blk) : RB (option nat) :=
  start ← gets rbb_buf;
  if decide (blk_buf head <= blk_buf tail) then
    buf_size ← gets rbb_buf_size;
    let empty1 := u32 (start + buf_size - (blk_buf tail + blk_size tail)) in
    let empty2 := u32 (blk_buf head - start) in
    if decide (size <= empty1) then blk_append new (blk_buf tail + blk_size tail) size;; mret (Some new)
    else if decide (size <= empty2) then blk_append new start size;; mret (Some new)
    else mret None
  else
    let empty1 := u32 (blk_buf head - (blk_buf tail + blk_size tail)) in
    if decide (size <= empty1) then blk_append new (blk_buf tail + blk_size tail) size;; mret (Some new)
    else mret None.

Definition rt_rbb_blk_alloc (size : Z) : RB (option nat) :=
  rt_assert (bool_decide (size < 2 ^ 24));;
  new ← find_empty_blk_in_set;
  len ← deref (fun r => rt_slist_len blk_next (blks r));
  max ← gets blk_max_num;
  match new with
  | None => mret None
  | Some new =>
    if decide (len < max) then
      if decide (0 < len) then
        head ← deref (fun r => rt_slist_first (blks r)); head ← get_blk head;
        tail ← deref (fun r => rt_slist_tail blk_next (blks r)); tail ← deref (fun _ => tail); tail ← get_blk tail;
        alloc_between new size head tail
      else start ← gets rbb_buf; blk_append new start size;; mret (Some new)
    else mret None
  end.

Definition rt_rbb_blk_put (block : nat) : RB unit :=
  b ← get_blk block;
  rt_assert (bool_decide (blk_status b = RT_RBB_BLK_INITED));;
  set_blk block (with_status RT_RBB_BLK_PUT).

(** [for (node = rt_slist_first(&rbb->blk_list); node; node = rt_slist_next(node))] *)
Fixpoint get_loop (fuel : nat) (node : option nat) : RB (option nat) :=
  match node, fuel with
  | None, _ => mret None
  | Some _, O => halt
  | Some i, S fuel =>
    b ← get_blk i;
    if decide (blk_status b = RT_RBB_BLK_PUT) then
      set_blk i (with_status RT_RBB_BLK_GET);; mret (Some i)
    else get_loop fuel (blk_next b)
  end.

Definition rt_rbb_blk_get : RB (option nat) :=
  s ← gets blks;
  if rt_slist_isempty s then mret None
  else get_loop (length (sl_pool s)) (rt_slist_first s).

Definition rt_rbb_blk_size (block : nat) : RB Z := b ← get_blk block; mret (blk_size b).
Definition rt_rbb_blk_buf (block : nat) : RB Z := b ← get_blk block; mret (blk_buf b).

Definition rt_rbb_blk_free (block : nat) : RB unit :=
  b ← get_blk block;
  rt_assert (bool_decide (blk_status b <> RT_RBB_BLK_UNUSED));;
  on_list (rt_slist_remove blk_next with_next block);;
  set_blk block (with_status RT_RBB_BLK_UNUSED).

(** ** Block queues *)

(** The end of a round of [rt_rbb_blk_queue_get]. *)
Definition queue_take (i : nat) (total : Z) (q : blk_queue) : RB (Z * blk_queue) :=
  on_list (rt_slist_remove blk_next with_next i);;
  b ← get_blk i;
  set_blk i (with_status RT_RBB_BLK_GET);;
  mret (u32 (total + blk_size b), Queue (q_blocks q) (u32 (blk_num q + 1))).

Fixpoint queue_loop (fuel : nat) (node last : option nat) (max total : Z) (q : blk_queue) : RB (Z * blk_queue) :=
  match node, fuel with
  | None, _ => mret (total, q)
  | Some _, O => halt
  | Some i, S fuel =>
    block ← get_blk i;
    match last with
    | None =>
      if decide (blk_status block = RT_RBB_BLK_PUT) then
        '(total, q) ← queue_take i total (Queue i 0);
        block ← get_blk i;
        queue_loop fuel (blk_next block) (Some i) max total q
      else queue_loop fuel (blk_next block) None max total q
    | Some last =>
      last_block ← get_blk last;
      if decide (blk_status block <> RT_RBB_BLK_PUT \/ blk_buf block < blk_buf last_block \/ max < u32 (total + blk_size block))
      then mret (total, q)
      else
        '(total, q) ← queue_take i total q;
        block ← get_blk i;
        queue_loop fuel (blk_next block) (Some i) max total q
    end
  end.

Definition rt_rbb_blk_queue_get (queue_data_len : Z) (q : blk_queue) : RB (Z * blk_queue) :=
  s ← gets blks;
  if rt_slist_isempty s then mret (0, q)
  else queue_loop (length (sl_pool s)) (rt_slist_first s) None queue_data_len 0 q.

(** [blk_queue->blocks[i]] is the descriptor [i] places behind the first one. *)
Fixpoint queue_len_loop (n i : nat) (total : Z) : RB Z :=
  match n with
  | O => mret total
  | S n => b ← get_blk i; queue_len_loop n (S i) (u32 (total + blk_size b))
  end.
Definition rt_rbb_blk_queue_len (q : blk_queue) : RB Z := queue_len_loop (Z.to_nat (blk_num q)) (q_blocks q) 0.
Definition rt_rbb_blk_queue_buf (q : blk_queue) : RB Z := rt_rbb_blk_buf (q_blocks q).

Fixpoint queue_free_loop (n i : nat) : RB unit :=
  match n with
  | O => mret tt
  | S n => rt_rbb_blk_free i;; queue_free_loop n (S i)
  end.
Definition rt_rbb_blk_queue_free (q : blk_queue) : RB unit := queue_free_loop (Z.to_nat (blk_num q)) (q_blocks q).

Fixpoint next_len_loop (fuel : nat) (node last : option nat) (len : Z) : RB Z :=
  match node, fuel with
  | None, _ => mret len
  | Some _, O => halt
  | Some i, S fuel =>
    block ← get_blk i;
    match last with
    | None =>
      if decide (blk_status block = RT_RBB_BLK_PUT) then next_len_loop fuel (blk_next block) (Some i) (u32 (len + blk_size block))
      else next_len_loop fuel (blk_next block) None len
    | Some last =>
      last_block ← get_blk last;
      if decide (blk_status block <> RT_RBB_BLK_PUT \/ blk_buf block < blk_buf last_block) then mret len
      else next_len_loop fuel (blk_next block) (Some i) (u32 (len + blk_size block))
    end
  end.
Definition rt_rbb_next_blk_queue_len : RB Z :=
  s ← gets blks;
  if rt_slist_isempty s then mret 0 else next_len_loop (length (sl_pool s)) (rt_slist_first s) None 0.

Definition rt_rbb_get_buf_size : RB Z := gets rbb_buf_size.

(** ** Blocks in address order *)

(** The areas [f i], an address and a size, of the blocks [l] are between [lo]
    and [hi], one behind the other, and none is empty. *)
Fixpoint ascending (f : nat -> Z * Z) (lo : Z) (l : list nat) (hi : Z) : Prop :=
  match l with
  | [] => lo <= hi
  | i :: l => lo <= (f i).1 /\ 0 < (f i).2 /\ ascending f ((f i).1 + (f i).2) l hi
  end.

Definition end_of (f : nat -> Z * Z) (i : nat) : Z := (f i).1 + (f i).2.

Lemma ascending_le f l : forall lo hi, ascending f lo l hi -> lo <= hi.
Proof. induction l as [|i l IH]; intros lo hi; simpl; [done|]. intros (H1 & H2 & H3%IH). lia. Qed.

Lemma ascending_app f l1 l2 : forall lo hi, ascending f lo (l1 ++ l2) hi <-> exists m, ascending f lo l1 m /\ ascending f m l2 hi.
Proof.
  induction l1 as [|i l1 IH]; intros lo hi; simpl.
  - split; [by exists lo|]. intros (m & H1 & H2). destruct l2; simpl in *; [lia|]. destruct H2 as (? & ? & ?). split_and!; [lia|done..].
  - split.
    + intros (H1 & H2 & (m & H3 & H4)%IH). by exists m.
    + intros (m & (H1 & H2 & H3) & H4). split_and!; [done..|]. apply IH. eauto.
Qed.

Lemma ascending_ext f g l : (forall i, i ∈ l -> f i = g i) -> forall lo hi, ascending f lo l hi -> ascending g lo l hi.
Proof.
  induction l as [|i l IH]; intros E lo hi; simpl; [done|]. rewrite (E i) by set_solver. intros (H1 & H2 & H3).
  split_and!; [done..|]. apply IH; [set_solver|done].
Qed.

Lemma ascending_weaken f l hi hi' : hi <= hi' -> forall lo lo', lo' <= lo -> ascending f lo l hi -> ascending f lo' l hi'.
Proof.
  intros Hh. induction l as [|i l IH]; intros lo lo' Hl; simpl; [lia|]. intros (H1 & H2 & H3).
  split_and!; [lia|done|]. by apply (IH (end_of f i)).
Qed.

Lemma ascending_lremove f x l hi : forall lo, ascending f lo l hi -> ascending f lo (lremove x l) hi.
Proof.
  induction l as [|i l IH]; intros lo; [done|]. intros (H1 & H2 & H3). unfold lremove. rewrite filter_cons. case_decide.
  - simpl. split_and!; [done..|]. by apply IH.
  - apply IH. apply (ascending_weaken f l hi hi ltac:(lia) (end_of f i)); [unfold end_of; lia|done].
Qed.

Lemma ascending_inside f l hi : forall lo i, ascending f lo l hi -> i ∈ l -> lo <= (f i).1 /\ 0 < (f i).2 /\ end_of f i <= hi.
Proof.
  unfold end_of. induction l as [|j l IH]; intros lo i; simpl; [by intros _ ?%elem_of_nil|].
  intros (H1 & H2 & H3) [->|Hi]%elem_of_cons; [pose proof (ascending_le _ _ _ _ H3); lia|].
  destruct (IH _ _ H3 Hi) as (? & ? & ?). lia.
Qed.

Lemma ascending_apart f l hi : forall lo i j, ascending f lo l hi -> i ∈ l -> j ∈ l -> i <> j ->
  apart (f i).1 (f i).2 (f j).1 (f j).2.
Proof.
  unfold apart. induction l as [|x l IH]; intros lo i j; simpl; [by intros _ ?%elem_of_nil|].
  intros (H1 & H2 & H3) [->|Hi]%elem_of_cons [->|Hj]%elem_of_cons Hn; [done|..|by eapply IH].
  - apply (ascending_inside _ _ _ _ j) in H3; [|done]. unfold end_of in H3. lia.
  - apply (ascending_inside _ _ _ _ i) in H3; [|done]. unfold end_of in H3. lia.
Qed.

Lemma ascending_snoc f l lo t i hi : ascending f lo (l ++ [t]) hi -> end_of f t <= (f i).1 -> 0 < (f i).2 -> end_of f i <= hi ->
  ascending f lo ((l ++ [t]) ++ [i]) hi.
Proof.
  intros (m & H1 & H2 & H3 & H4)%ascending_app He Hs Hi. apply ascending_app. exists (end_of f t). split; [|simpl; done].
  apply ascending_app. exists m. split; [done|]. simpl. unfold end_of. split_and!; [done..|lia].
Qed.

(** ** The ring: the list of the blocks, wrapped around at most once *)

Definition layout (f : nat -> Z * Z) (lo hi : Z) (l : list nat) : Prop :=
  exists l1 l2, l = l1 ++ l2 /\ ascending f lo (l2 ++ l1) hi.

(** Where [rt_rbb_blk_alloc] puts a block of [n] bytes. *)
Definition place (f : nat -> Z * Z) (lo hi : Z) (l : list nat) (n : Z) : option Z :=
  match head l, last l with
  | Some h, Some t =>
    if decide ((f h).1 <= (f t).1) then
      if decide (end_of f t + n <= hi) then Some (end_of f t)
      else if decide (lo + n <= (f h).1) then Some lo else None
    else if decide (end_of f t + n <= (f h).1) then Some (end_of f t) else None
  | _, _ => Some lo
  end.

Lemma layout_apart f lo hi l i j : layout f lo hi l -> i ∈ l -> j ∈ l -> i <> j -> apart (f i).1 (f i).2 (f j).1 (f j).2.
Proof. intros (l1 & l2 & -> & H) Hi Hj. apply (ascending_apart _ _ _ _ _ _ H); set_solver. Qed.

Lemma layout_inside f lo hi l i : layout f lo hi l -> i ∈ l -> lo <= (f i).1 /\ 0 < (f i).2 /\ end_of f i <= hi.
Proof. intros (l1 & l2 & -> & H) Hi. apply (ascending_inside _ _ _ _ _ H); set_solver. Qed.

Lemma lremove_app_list (x : nat) l1 l2 : lremove x (l1 ++ l2) = lremove x l1 ++ lremove x l2.
Proof. apply lremove_app. Qed.

Lemma layout_lremove f lo hi x l : layout f lo hi l -> layout f lo hi (lremove x l).
Proof.
  intros (l1 & l2 & -> & H). exists (lremove x l1), (lremove x l2). rewrite <- !lremove_app. split; [done|]. by apply ascending_lremove.
Qed.

Lemma layout_ext f g lo hi l : (forall i, i ∈ l -> f i = g i) -> layout f lo hi l -> layout g lo hi l.
Proof. intros E (l1 & l2 & -> & H). exists l1, l2. split; [done|]. apply (ascending_ext f); [|done]. intros i Hi. apply E. set_solver. Qed.

(** The ring has wrapped around exactly when the first block is behind the last. *)
Lemma layout_cases f lo hi h l t : layout f lo hi l -> head l = Some h -> last l = Some t ->
  if decide ((f h).1 <= (f t).1) then ascending f lo l hi
  else exists l1 l2, l = (h :: l1) ++ (l2 ++ [t]) /\ ascending f lo ((l2 ++ [t]) ++ h :: l1) hi.
Proof.
  assert (forall l, ascending f lo l hi -> head l = Some h -> last l = Some t -> (f h).1 <= (f t).1) as Hup.
  { intros [|x l'] H Hh Ht; [done|]. injection Hh as ->. simpl in H. destruct H as (_ & H2 & H3). rewrite last_cons in Ht.
    destruct (last l') as [y|] eqn:Ey; injection Ht as ->; [|done].
    apply last_Some in Ey as [u ->]. destruct (ascending_inside f _ _ _ t H3) as (? & _); [set_solver|lia]. }
  intros (l1 & l2 & -> & H) Hh Ht. destruct l1 as [|h' l1].
  { rewrite app_nil_r in H. rewrite decide_True by (by apply (Hup l2)). done. }
  destruct l2 as [|t' l2 _] using rev_ind.
  { rewrite app_nil_r in *. simpl in H. rewrite decide_True by (by apply (Hup (h' :: l1))). done. }
  injection Hh as ->. rewrite app_assoc, last_snoc in Ht. injection Ht as ->. pose proof H as (m & H1 & H2)%ascending_app.
  destruct (ascending_inside f _ _ _ t H1) as (? & ? & He); [set_solver|]. destruct H2 as (? & ? & ?). unfold end_of in He.
  rewrite decide_False by lia. by exists l1, l2.
Qed.

Lemma layout_place f g lo hi l n a new : layout f lo hi l -> 0 < n -> (l = [] -> lo + n <= hi) -> place f lo hi l n = Some a ->
  new ∉ l -> g new = (a, n) -> (forall i, i ∈ l -> f i = g i) -> layout g lo hi (l ++ [new]).
Proof.
  intros H Hn He Hp Hnew Eg Ext. unfold place in Hp. assert (forall i, i ∈ l -> end_of f i = end_of g i) as Eend by (intros i Hi; unfold end_of; by rewrite Ext).
  destruct (head l) as [h|] eqn:Eh; [|destruct l; [|done]]; [destruct (last l) as [t|] eqn:Et; [|by apply last_None in Et as ->]|].
  - pose proof (layout_cases f lo hi h l t H Eh Et) as Hc.
    assert (t ∈ l) as Htl by (apply last_Some in Et as [u ->]; set_solver). assert (h ∈ l) as Hhl by (destruct l; simplify_eq/=; left).
    rewrite (Ext h Hhl), (Ext t Htl), (Eend t Htl) in *. destruct (decide ((g h).1 <= (g t).1)) as [Hd|Hd].
    + apply (ascending_ext f g) in Hc; [|done]. destruct (decide (end_of g t + n <= hi)) as [Hr|Hr]; simplify_eq/=.
      * exists (l ++ [new]), []. rewrite app_nil_r. split; [done|]. simpl. apply last_Some in Et as [u ->].
        apply ascending_snoc; [done|unfold end_of; rewrite ?Eg; simpl; unfold end_of in *; lia..].
      * destruct (decide (lo + n <= (g h).1)) as [Hr2|]; simplify_eq/=. exists l, [new]. split; [done|]. simpl. rewrite Eg. simpl.
        split_and!; [lia|done|]. destruct l as [|h' l]; [done|]. injection Eh as ->. simpl in *. destruct Hc as (? & ? & ?). split_and!; [lia|done..].
    + destruct (decide (end_of g t + n <= (g h).1)) as [Hr|]; simplify_eq/=. destruct Hc as (l1 & l2 & -> & Hc).
      apply (ascending_ext f g) in Hc; [|intros i Hi; apply Ext; set_solver]. exists (h :: l1), ((l2 ++ [t]) ++ [new]). split; [simpl; by rewrite <- !app_assoc|].
      apply ascending_app in Hc as (m & Hc1 & Hc2). apply ascending_app. exists (end_of g new).
      pose proof (ascending_inside g _ _ _ t Hc1 ltac:(set_solver)) as (_ & _ & Hm).
      assert (end_of g new <= (g h).1) as Hnh by (unfold end_of at 1; rewrite Eg; simpl; lia). split.
      * apply ascending_snoc; [|rewrite Eg; simpl; unfold end_of; lia|by rewrite Eg|lia].
        apply ascending_app in Hc1 as (m1 & Hc1 & Hc3). apply ascending_app. exists m1. split; [done|]. simpl in *.
        destruct Hc3 as (? & ? & _). split_and!; [done..|]. unfold end_of in *. rewrite Eg in *. simpl in *. lia.
      * simpl in *. destruct Hc2 as (_ & ? & ?). split_and!; [lia|done..].
  - simplify_eq/=. exists [new], []. split; [done|]. simpl. rewrite Eg. simpl. pose proof (He eq_refl). lia.
Qed.

(** ** The invariant *)

(** What a descriptor says, apart from its list node. *)
Definition blk_data (b : rbb_blk) : rt_rbb_status * (Z * Z) := (blk_status b, (blk_buf b, blk_size b)).
Definition info (r : rbb) (i : nat) : option (rt_rbb_status * (Z * Z)) := blk_data <$> blk_set r !! i.
Definition status_of (r : rbb) (i : nat) : rt_rbb_status := from_option fst RT_RBB_BLK_UNUSED (info r i).
Definition span (r : rbb) (i : nat) : Z * Z := from_option snd (0, 0) (info r i).

(** The fields that no operation changes. *)
Definition frame (r : rbb) : Z * Z * Z * nat := (rbb_buf r, rbb_buf_size r, blk_max_num r, length (blk_set r)).

(** [l]: the blocks on the list, in the order of their allocation. *)
Record rbb_ok (r : rbb) (l : list nat) : Prop := RbbOk {
  ro_list : slist_ok blk_next (blks r) l;
  ro_used i : i ∈ l -> status_of r i <> RT_RBB_BLK_UNUSED;
  ro_layout : layout (span r) (rbb_buf r) (rbb_buf r + rbb_buf_size r) l;
  ro_max : blk_max_num r = Z.of_nat (length (blk_set r)) /\ blk_max_num r < 2 ^ 32;
  ro_area : 0 <= rbb_buf r /\ 0 <= rbb_buf_size r /\ rbb_buf r + rbb_buf_size r < 2 ^ 32
}.

Lemma info_get r i x : info r i = Some x -> exists b, blk_set r !! i = Some b /\ blk_data b = x.
Proof. unfold info. intros (b & ? & ->)%fmap_Some. eauto. Qed.

Lemma rbb_block r l i : rbb_ok r l -> i ∈ l -> exists b, blk_set r !! i = Some b.
Proof. intros H Hi. apply lookup_lt_is_Some_2, (seg_bound _ _ _ _ _ _ (ro_list _ _ H) Hi). Qed.

Lemma status_block r i b : blk_set r !! i = Some b -> status_of r i = blk_status b /\ span r i = (blk_buf b, blk_size b).
Proof. intros E. unfold status_of, span, info. by rewrite E. Qed.

Lemma info_eq r r' i : info r' i = info r i -> status_of r' i = status_of r i /\ span r' i = span r i.
Proof. intros E. unfold status_of, span. by rewrite E. Qed.

Lemma data_info r s : blk_data <$> sl_pool s = blk_data <$> blk_set r -> (forall i, info (with_slist s r) i = info r i) /\ frame (with_slist s r) = frame r.
Proof.
  intros E. split.
  - intros i. unfold info. simpl. by rewrite <- !list_lookup_fmap, E.
  - unfold frame. simpl. apply (f_equal length) in E. rewrite !length_fmap in E. by rewrite E.
Qed.

(** Writing a descriptor, but not its node. *)
Lemma set_blk_spec r l i f b : slist_ok blk_next (blks r) l -> blk_set r !! i = Some b -> blk_next (f b) = blk_next b ->
  exists r', set_blk i f r = Some (tt, r') /\ slist_ok blk_next (blks r') l /\ frame r' = frame r /\
    blk_set r' !! i = Some (f b) /\ (forall j, j <> i -> info r' j = info r j).
Proof.
  intros H E En. unfold set_blk, get_blk. eexists. split; [unfold mbind, M_bind, deref, modify; by rewrite E|]. split; [by apply (seg_update _ _ _ _ b)|].
  split; [unfold frame; simpl; by rewrite length_insert|]. simpl. split; [apply list_lookup_insert_eq; by eapply lookup_lt_Some|].
  intros j Hj. unfold info. simpl. by rewrite list_lookup_insert_ne.
Qed.

Lemma on_list_eval f r s : f (blks r) = Some s -> on_list f r = Some (tt, with_slist s r).
Proof. intros E. unfold on_list, mbind, M_bind, deref, modify. by rewrite E. Qed.

Lemma blk_append_spec r l new buf n : slist_ok blk_next (blks r) l -> new ∉ l -> (new < length (blk_set r))%nat ->
  exists r', blk_append new buf n r = Some (tt, r') /\ slist_ok blk_next (blks r') (l ++ [new]) /\ frame r' = frame r /\
    info r' new = Some (RT_RBB_BLK_INITED, (buf, wrap 24 n)) /\ (forall j, j <> new -> info r' j = info r j).
Proof.
  intros H Hn Hb. destruct (rt_slist_append_spec blk_next with_next blk_data) with (s := blks r) (l := l) (i := new) as (s & Es & Hs & Ed); try done.
  destruct (data_info r s Ed) as [Ei Ef]. set (r1 := with_slist s r) in *.
  assert (slist_ok blk_next (blks r1) (l ++ [new])) as H1 by (by destruct s).
  destruct (lookup_lt_is_Some_2 (blk_set r1) new) as [b1 E1].
  { injection Ef as El. unfold r1. simpl. by rewrite El. }
  destruct (set_blk_spec r1 _ new (with_status RT_RBB_BLK_INITED) b1 H1 E1 eq_refl) as (r2 & R2 & H2 & F2 & E2 & I2).
  destruct (set_blk_spec r2 _ new (with_area buf (wrap 24 n)) _ H2 E2 eq_refl) as (r3 & R3 & H3 & F3 & E3 & I3).
  exists r3. split; [unfold blk_append; rewrite (bind_eval _ _ _ _ _ (on_list_eval _ _ _ Es)), (bind_eval _ _ _ _ _ R2); exact R3|].
  split; [done|]. split; [congruence|]. split; [unfold info; by rewrite E3|].
  intros j Hj. by rewrite I3, I2, Ei.
Qed.

Lemma frame_ok r r' l : frame r' = frame r -> rbb_ok r l ->
  (blk_max_num r' = Z.of_nat (length (blk_set r')) /\ blk_max_num r' < 2 ^ 32) /\
  (0 <= rbb_buf r' /\ 0 <= rbb_buf_size r' /\ rbb_buf r' + rbb_buf_size r' < 2 ^ 32) /\ rbb_buf r' = rbb_buf r /\ rbb_buf_size r' = rbb_buf_size r.
Proof. intros F [_ _ _ H1 H2]. injection F as F1 F2 F3 F4. rewrite F1, F2, F3, F4. done. Qed.

(** The block that is appended is where [place] puts it. *)
Lemma append_ok r l new a n : rbb_ok r l -> 0 < n < 2 ^ 24 -> (l = [] -> n <= rbb_buf_size r) -> new ∉ l -> (new < length (blk_set r))%nat ->
  place (span r) (rbb_buf r) (rbb_buf r + rbb_buf_size r) l n = Some a ->
  exists r', blk_append new a n r = Some (tt, r') /\ rbb_ok r' (l ++ [new]) /\ frame r' = frame r /\
    info r' new = Some (RT_RBB_BLK_INITED, (a, n)) /\ (forall j, j <> new -> info r' j = info r j).
Proof.
  intros Hok Hn He Hnew Hb Hp. destruct (blk_append_spec r l new a n (ro_list _ _ Hok) Hnew Hb) as (r' & E & H & F & I1 & I2).
  rewrite (wrap_small 24) in I1 by (unfold in_range; lia). exists r'. split; [done|]. split; [|done].
  destruct (frame_ok r r' l F Hok) as (Hm & Ha & Eb & Es). split; try done.
  - intros i [Hi| ->%list_elem_of_singleton]%elem_of_app.
    + destruct (info_eq r r' i) as [-> _]; [apply I2; by intros ->|]. by apply (ro_used _ _ Hok).
    + unfold status_of. by rewrite I1.
  - rewrite Eb, Es. apply (layout_place (span r) _ _ _ l n a); try done; [apply Hok|lia|intros El; specialize (He El); lia|unfold span; by rewrite I1|].
    intros i Hi. symmetry. apply info_eq, I2. by intros ->.
Qed.

Lemma find_empty_spec set n : forall i, (i + n)%nat = length set ->
  exists o, find_empty n i set = Some o /\
    match o with
    | None => forall j, (i <= j < length set)%nat -> forall b, set !! j = Some b -> blk_status b <> RT_RBB_BLK_UNUSED
    | Some j => exists b, set !! j = Some b /\ blk_status b = RT_RBB_BLK_UNUSED
    end.
Proof.
  induction n as [|n IH]; intros i Hi; simpl.
  - exists None. split; [done|]. intros j Hj. lia.
  - destruct (lookup_lt_is_Some_2 set i) as [b Eb]; [lia|]. rewrite Eb. simpl. case_decide as Hs; [exists (Some i); eauto|].
    destruct (IH (S i) ltac:(lia)) as (o & E & Ho). exists o. split; [done|]. destruct o; [done|].
    intros j Hj b' Eb'. destruct (decide (j = i)) as [->|]; [simplify_eq; done|]. apply (Ho j); [lia|done].
Qed.

(** ** What the operations do to the ring *)

Definition view (r : rbb) (l : list nat) : list (nat * rt_rbb_status) := map (fun i => (i, status_of r i)) l.

(** [rt_rbb_blk_alloc] takes the first room behind the last block, or at the
    start of the buffer; it fails if there is none, or no unused descriptor. *)
Definition allocates (r : rbb) (l : list nat) (n : Z) (o : option nat) (r' : rbb) : Prop :=
  let spot := place (span r) (rbb_buf r) (rbb_buf r + rbb_buf_size r) l n in
  frame r' = frame r /\
  match o with
  | None => r' = r /\ ((forall i b, blk_set r !! i = Some b -> blk_status b <> RT_RBB_BLK_UNUSED) \/ spot = None)
  | Some i => rbb_ok r' (l ++ [i]) /\ (i ∉ l) /\ status_of r i = RT_RBB_BLK_UNUSED /\ status_of r' i = RT_RBB_BLK_INITED /\
      (span r' i).2 = n /\ spot = Some (span r' i).1 /\ (forall j, j <> i -> info r' j = info r j)
  end.

Lemma unused_is_new r l new b : rbb_ok r l -> blk_set r !! new = Some b -> blk_status b = RT_RBB_BLK_UNUSED ->
  (new ∉ l) /\ (length l < length (blk_set r))%nat.
Proof.
  intros Hok Eb Hb. assert (new ∉ l) as Hnew by (intros Hi; apply (ro_used _ _ Hok new Hi); by rewrite (proj1 (status_block _ _ _ Eb))).
  split; [done|]. assert (length (new :: l) <= length (seq 0 (length (blk_set r))))%nat as Hx; [|rewrite length_seq in Hx; simpl in Hx; lia].
  apply submseteq_length, NoDup_submseteq; [constructor; [done|eapply chain_nodup, Hok]|].
  apply lookup_lt_Some in Eb. intros j [->|Hj]%elem_of_cons; apply elem_of_seq; [lia|].
  pose proof (seg_bound _ _ _ _ _ _ (ro_list _ _ Hok) Hj). simpl in *. lia.
Qed.

Lemma alloc_append r l n new b a : rbb_ok r l -> 0 < n < 2 ^ 24 -> n <= rbb_buf_size r -> blk_set r !! new = Some b -> blk_status b = RT_RBB_BLK_UNUSED ->
  place (span r) (rbb_buf r) (rbb_buf r + rbb_buf_size r) l n = Some a ->
  exists o r', (blk_append new a n;; mret (Some new)) r = Some (o, r') /\ allocates r l n o r'.
Proof.
  intros Hok Hn Hs Eb Hb Hp. destruct (unused_is_new _ _ _ _ Hok Eb Hb) as [Hnew _].
  destruct (append_ok r l new a n Hok Hn (fun _ => Hs) Hnew (lookup_lt_Some _ _ _ Eb) Hp) as (r' & E & Hok' & F & I1 & I2).
  exists (Some new), r'. split; [by rewrite (bind_eval _ _ _ _ _ E)|]. unfold allocates. rewrite (proj1 (status_block _ _ _ Eb)).
  unfold status_of, span in *. rewrite I1. done.
Qed.

Lemma alloc_fails r l n : place (span r) (rbb_buf r) (rbb_buf r + rbb_buf_size r) l n = None ->
  exists o r', mret (M := RB) (@None nat) r = Some (o, r') /\ allocates r l n o r'.
Proof. intros Hp. exists None, r. split; [done|]. split; [done|]. split; [done|]. by right. Qed.

(** The choice of the room, on a list with the first block [bh] and the last [bt]. *)
Lemma alloc_room r l n new b h t bh bt : rbb_ok r l -> 0 < n < 2 ^ 24 -> n <= rbb_buf_size r -> blk_set r !! new = Some b -> blk_status b = RT_RBB_BLK_UNUSED ->
  head l = Some h -> last l = Some t -> blk_set r !! h = Some bh -> blk_set r !! t = Some bt ->
  exists o r', alloc_between new n bh bt r = Some (o, r') /\ allocates r l n o r'.
Proof.
  intros Hok Hn Hs Eb Hb Eh Et Ebh Ebt. pose proof Hok as [_ _ Hlay _ (A1 & A2 & A3)].
  assert (h ∈ l) as Hhl by (destruct l; [done|]; injection Eh as ->; left). assert (t ∈ l) as Htl by (apply last_Some in Et as [u ->]; set_solver).
  destruct (status_block _ _ _ Ebh) as [_ Sh]. destruct (status_block _ _ _ Ebt) as [_ St].
  pose proof (layout_inside _ _ _ _ h Hlay Hhl) as (Ih1 & Ih2 & Ih3). pose proof (layout_inside _ _ _ _ t Hlay Htl) as (It1 & It2 & It3).
  pose proof (layout_cases _ _ _ h _ t Hlay Eh Et) as Hc. pose proof (fun a => alloc_append r l n new b a Hok Hn Hs Eb Hb) as Happ.
  pose proof (alloc_fails r l n) as Hfail. unfold alloc_between, place, end_of in *. rewrite Eh, Et, Sh, St in *. cbn [fst snd] in *.
  destruct (decide (blk_buf bh <= blk_buf bt)) as [Hd|Hd]; erewrite bind_eval by reflexivity.
  - erewrite bind_eval by reflexivity. rewrite !wrap_small by (unfold in_range; lia).
    destruct (decide (n <= rbb_buf r + rbb_buf_size r - (blk_buf bt + blk_size bt))) as [H1|H1].
    { apply Happ. by rewrite decide_True by lia. }
    rewrite (decide_False (P := blk_buf bt + blk_size bt + n <= _)) in Happ, Hfail by lia.
    destruct (decide (n <= blk_buf bh - rbb_buf r)) as [H2|H2]; [apply Happ; by rewrite decide_True by lia|].
    apply Hfail. by rewrite decide_False by lia.
  - destruct Hc as (l1 & l2 & -> & (m & Hc1 & Hc2)%ascending_app). destruct (ascending_inside _ _ _ _ t Hc1) as (_ & _ & He); [set_solver|].
    destruct Hc2 as (Hm & _). unfold end_of in He. rewrite Sh, St in *. cbn [fst snd] in *.
    rewrite wrap_small by (unfold in_range; lia).
    destruct (decide (n <= blk_buf bh - (blk_buf bt + blk_size bt))); [apply Happ; by rewrite decide_True by lia|].
    apply Hfail. by rewrite decide_False by lia.
Qed.

Lemma rt_rbb_blk_alloc_spec r l n : rbb_ok r l -> 0 < n < 2 ^ 24 -> n <= rbb_buf_size r ->
  exists o r', rt_rbb_blk_alloc n r = Some (o, r') /\ allocates r l n o r'.
Proof.
  intros Hok Hn Hs. pose proof Hok as [Hl _ _ [Hm Hm32] _]. pose proof (slist_length _ _ _ Hl) as Hlen. simpl in Hlen.
  unfold rt_rbb_blk_alloc. rewrite bool_decide_true by lia. erewrite bind_eval by reflexivity.
  unfold find_empty_blk_in_set. destruct (find_empty_spec (blk_set r) (length (blk_set r)) 0 eq_refl) as (o & Eo & Ho).
  erewrite bind_eval by (unfold deref; rewrite Hm, Nat2Z.id, Eo; reflexivity).
  erewrite bind_eval by (unfold deref; rewrite (rt_slist_len_spec _ _ _ Hl) by (simpl; lia); reflexivity).
  erewrite bind_eval by reflexivity. destruct o as [new|].
  2: { exists None, r. do 3 (split; [done|]). left. intros i b Eb. apply (Ho i); [|done]. split; [lia|by eapply lookup_lt_Some]. }
  destruct Ho as (b & Eb & Hb). destruct (unused_is_new _ _ _ _ Hok Eb Hb) as [_ Hll]. rewrite decide_True by lia.
  destruct (head l) as [h|] eqn:Eh.
  - destruct (last l) as [t|] eqn:Et; [|by apply last_None in Et as ->].
    destruct (rbb_block r l h Hok) as [bh Ebh]; [destruct l; [done|]; injection Eh as ->; left|].
    destruct (rbb_block r l t Hok) as [bt Ebt]; [apply last_Some in Et as [u ->]; set_solver|].
    rewrite decide_True by (destruct l; [done|simpl; lia]).
    erewrite bind_eval by (unfold deref, rt_slist_first; rewrite (chain_head _ _ _ _ Hl), Eh; reflexivity).
    erewrite bind_eval by (unfold get_blk, deref; rewrite Ebh; reflexivity).
    erewrite bind_eval by (unfold deref; rewrite (rt_slist_tail_spec _ _ _ Hl), Et; reflexivity).
    erewrite bind_eval by reflexivity. erewrite bind_eval by (unfold get_blk, deref; rewrite Ebt; reflexivity).
    by apply (alloc_room r l n new b h t).
  - destruct l; [|done]. rewrite decide_False by done. erewrite bind_eval by reflexivity. by apply (alloc_append r [] n new b).
Qed.

(** The abstract ring: blocks with their status, in the order of allocation. *)
Definition ring_state : Type := list (nat * rt_rbb_status).
Definition ring_set (i : nat) (s : rt_rbb_status) (v : ring_state) : ring_state :=
  map (fun x => (x.1, if decide (x.1 = i) then s else x.2)) v.
Definition ring_free (i : nat) (v : ring_state) : ring_state := filter (fun x => x.1 <> i) v.
Fixpoint ring_first (v : ring_state) : option nat :=
  match v with
  | [] => None
  | (i, s) :: v => if decide (s = RT_RBB_BLK_PUT) then Some i else ring_first v
  end.

Lemma view_ext r r' l : (forall i, i ∈ l -> status_of r' i = status_of r i) -> view r' l = view r l.
Proof. intros E. apply map_ext_in. intros i Hi. rewrite E; [done|by apply list_elem_of_In]. Qed.

Lemma view_set r r' l i s : status_of r' i = s -> (forall j, j <> i -> status_of r' j = status_of r j) ->
  view r' l = ring_set i s (view r l).
Proof.
  intros Ei Ej. unfold view, ring_set. rewrite map_map. apply map_ext. intros j. simpl.
  case_decide as Hd; [by subst|by rewrite Ej].
Qed.

Lemma view_free r l i : view r (lremove i l) = ring_free i (view r l).
Proof.
  induction l as [|j l IH]; [done|]. change (view r (j :: l)) with ((j, status_of r j) :: view r l).
  unfold lremove, ring_free in *. rewrite filter_cons, (filter_cons (fun x : nat * rt_rbb_status => x.1 <> i)). simpl. destruct (decide (j <> i)); [|exact IH].
  change (view r (j :: filter (fun y => y <> i) l)) with ((j, status_of r j) :: view r (filter (fun y => y <> i) l)). by rewrite IH.
Qed.

Lemma view_app r l1 l2 : view r (l1 ++ l2) = view r l1 ++ view r l2.
Proof. apply map_app. Qed.

(** A new status for a block. *)
Lemma set_status_ok r l i s b : rbb_ok r l -> blk_set r !! i = Some b -> (i ∈ l -> s <> RT_RBB_BLK_UNUSED) ->
  exists r', set_blk i (with_status s) r = Some (tt, r') /\ rbb_ok r' l /\ frame r' = frame r /\ status_of r' i = s /\
    (forall j, span r' j = span r j) /\ (forall j, j <> i -> info r' j = info r j) /\ view r' l = ring_set i s (view r l).
Proof.
  intros Hok Eb Hs. destruct (set_blk_spec r l i (with_status s) b (ro_list _ _ Hok) Eb eq_refl) as (r' & E & H & F & Eb' & I).
  assert (forall j, span r' j = span r j) as Esp.
  { intros j. destruct (decide (j = i)) as [->|Hn]; [|by apply info_eq, I].
    by rewrite (proj2 (status_block _ _ _ Eb)), (proj2 (status_block _ _ _ Eb')). }
  assert (status_of r' i = s) as Ei by (by rewrite (proj1 (status_block _ _ _ Eb'))).
  destruct (frame_ok r r' l F Hok) as (Hm & Ha & E1 & E2).
  exists r'. split; [done|]. split; [|split_and!; try done; apply view_set; [done|intros j Hj; by apply info_eq, I]].
  split; try done.
  - intros j Hj. destruct (decide (j = i)) as [->|Hn]; [rewrite Ei; by apply Hs|].
    rewrite (proj1 (info_eq _ _ _ (I j Hn))). by apply (ro_used _ _ Hok).
  - rewrite E1, E2. apply (layout_ext (span r)); [by intros; rewrite Esp|apply Hok].
Qed.

Lemma get_loop_spec r l : rbb_ok r l -> forall l2 fuel o, chain blk_next (blk_set r) o l2 -> (length l2 <= fuel)%nat ->
  (forall i, i ∈ l2 -> i ∈ l) -> exists r', get_loop fuel o r = Some (ring_first (view r l2), r') /\
    match ring_first (view r l2) with
    | None => r' = r
    | Some i => rbb_ok r' l /\ frame r' = frame r /\ status_of r i = RT_RBB_BLK_PUT /\ status_of r' i = RT_RBB_BLK_GET /\
        (forall j, j <> i -> info r' j = info r j) /\ view r' l = ring_set i RT_RBB_BLK_GET (view r l)
    end.
Proof.
  intros Hok. induction l2 as [|i l2 IH]; intros fuel o H Hf Hin; simpl in H.
  - subst. exists r. by destruct fuel.
  - destruct H as (-> & b & Eb & H). destruct fuel as [|fuel]; simpl in Hf; [lia|]. simpl.
    destruct (status_block _ _ _ Eb) as [Es _]. erewrite bind_eval by (unfold get_blk, deref; rewrite Eb; reflexivity). rewrite Es.
    destruct (decide (blk_status b = RT_RBB_BLK_PUT)) as [Hp|Hp].
    + destruct (set_status_ok r l i RT_RBB_BLK_GET b Hok Eb) as (r' & E & Hok' & F & Ei & _ & I & V); [done|].
      exists r'. split; [by rewrite (bind_eval _ _ _ _ _ E)|]. rewrite Es. done.
    + apply (IH fuel); [done|lia|]. intros j Hj. apply Hin. by right.
Qed.

Lemma rt_rbb_blk_get_spec r l : rbb_ok r l ->
  exists r', rt_rbb_blk_get r = Some (ring_first (view r l), r') /\
    match ring_first (view r l) with
    | None => r' = r
    | Some i => rbb_ok r' l /\ frame r' = frame r /\ status_of r i = RT_RBB_BLK_PUT /\ status_of r' i = RT_RBB_BLK_GET /\
        (forall j, j <> i -> info r' j = info r j) /\ view r' l = ring_set i RT_RBB_BLK_GET (view r l)
    end.
Proof.
  intros Hok. pose proof (ro_list _ _ Hok) as Hl. unfold rt_rbb_blk_get. erewrite bind_eval by reflexivity.
  unfold rt_slist_isempty. rewrite (chain_head _ _ _ _ Hl : sl_first (blks r) = _).
  destruct l as [|i l]; [rewrite bool_decide_true by done; by exists r|]. rewrite bool_decide_false by done.
  unfold rt_slist_first. apply (get_loop_spec r (i :: l) Hok); [done|by apply (slist_length _ _ _ Hl)|done].
Qed.

Lemma rt_rbb_blk_free_spec r l i b : rbb_ok r l -> blk_set r !! i = Some b -> blk_status b <> RT_RBB_BLK_UNUSED ->
  exists r', rt_rbb_blk_free i r = Some (tt, r') /\ rbb_ok r' (lremove i l) /\ frame r' = frame r /\
    status_of r' i = RT_RBB_BLK_UNUSED /\ (forall j, j <> i -> info r' j = info r j) /\
    view r' (lremove i l) = ring_free i (view r l).
Proof.
  intros Hok Eb Hs. pose proof Hok as [Hl Hu Hlay Hm Ha].
  destruct (rt_slist_remove_spec blk_next with_next blk_data) with (s := blks r) (l := l) (i := i) as (s & Es & H & Ed & _ & Ei); try done.
  destruct (data_info r s Ed) as [I1 F1]. set (r1 := with_slist s r) in *.
  assert (rbb_ok r1 (lremove i l)) as Hok1.
  { destruct (frame_ok r r1 l F1 Hok) as (Hm1 & Ha1 & E1 & E2). split; [by destruct s| | |done|done].
    - intros j [_ Hj]%elem_of_lremove. rewrite (proj1 (info_eq _ _ _ (I1 j))). by apply Hu.
    - rewrite E1, E2. apply (layout_ext (span r)); [intros j _; symmetry; by apply info_eq|]. by apply layout_lremove. }
  assert (blk_set r1 !! i = Some b) as Eb1 by (unfold r1; simpl; by rewrite Ei).
  destruct (set_status_ok r1 _ i RT_RBB_BLK_UNUSED b Hok1 Eb1) as (r' & E & Hok' & F & Est & _ & I & V).
  { intros [? _]%elem_of_lremove. done. }
  exists r'. split.
  { unfold rt_rbb_blk_free. erewrite bind_eval by (unfold get_blk, deref; rewrite Eb; reflexivity).
    rewrite bool_decide_true by done. erewrite bind_eval by reflexivity. rewrite (bind_eval _ _ _ _ _ (on_list_eval _ _ _ Es)). exact E. }
  split; [done|]. split; [congruence|]. split; [done|]. split; [intros j Hj; by rewrite I, I1|].
  rewrite <- (view_free r l i). apply view_ext. intros j [Hj _]%elem_of_lremove. rewrite (proj1 (info_eq _ _ _ (I j Hj))). by apply info_eq.
Qed.

(** ** Block queues *)

Lemma next_of_block r pre i l2 b : rbb_ok r (pre ++ i :: l2) -> blk_set r !! i = Some b -> blk_next b = head l2.
Proof.
  intros Hok Eb. pose proof (ro_list _ _ Hok) as Hl. apply chain_app in Hl as (m & _ & _ & b' & Eb' & H).
  simpl in Eb'. simplify_eq. by apply chain_head in H.
Qed.

Lemma queue_take_spec r pre i l2 b total q : rbb_ok r (pre ++ i :: l2) -> blk_set r !! i = Some b ->
  exists r' b', queue_take i total q r = Some ((u32 (total + blk_size b), Queue (q_blocks q) (u32 (blk_num q + 1))), r') /\
    rbb_ok r' (pre ++ l2) /\ frame r' = frame r /\ blk_set r' !! i = Some b' /\ blk_next b' = head l2 /\
    status_of r' i = RT_RBB_BLK_GET /\ (forall j, span r' j = span r j) /\ (forall j, j <> i -> info r' j = info r j).
Proof.
  intros Hok Eb. pose proof Hok as [Hl Hu Hlay Hm Ha]. pose proof (chain_nodup _ _ _ _ Hl) as Hnd.
  destruct (rt_slist_remove_spec blk_next with_next blk_data) with (s := blks r) (l := pre ++ i :: l2) (i := i) as (s & Es & H & Ed & _ & Ei); try done.
  rewrite lremove_middle in H by done. destruct (data_info r s Ed) as [I1 F1]. set (r1 := with_slist s r) in *.
  assert (rbb_ok r1 (pre ++ l2)) as Hok1.
  { destruct (frame_ok r r1 _ F1 Hok) as (Hm1 & Ha1 & E1 & E2). split; [by destruct s| | |done|done].
    - intros j Hj. rewrite (proj1 (info_eq _ _ _ (I1 j))). apply Hu. set_solver.
    - rewrite E1, E2. apply (layout_ext (span r)); [intros j _; symmetry; by apply info_eq|].
      rewrite <- (lremove_middle i pre l2) by done. by apply layout_lremove. }
  assert (blk_set r1 !! i = Some b) as Eb1 by (unfold r1; simpl; by rewrite Ei).
  destruct (set_blk_spec r1 _ i (with_status RT_RBB_BLK_GET) b (ro_list _ _ Hok1) Eb1 eq_refl) as (r' & E & H' & F & Eb' & _).
  destruct (set_status_ok r1 _ i RT_RBB_BLK_GET b Hok1 Eb1) as (r2 & E2 & Hok' & _ & Est & Sp & I & _); [done|].
  rewrite E in E2. injection E2 as <-. exists r', (with_status RT_RBB_BLK_GET b). split.
  { unfold queue_take. rewrite (bind_eval _ _ _ _ _ (on_list_eval _ _ _ Es)).
    erewrite bind_eval by (unfold get_blk, deref; fold r1; rewrite Eb1; reflexivity). by rewrite (bind_eval _ _ _ _ _ E). }
  split; [done|]. split; [congruence|]. split; [done|]. split; [exact (next_of_block r pre i l2 b Hok Eb)|]. split; [done|].
  split; [intros j; rewrite Sp; by apply info_eq|]. intros j Hj. by rewrite I, I1.
Qed.

(** The blocks [t] leave the ring for the queue. *)
Definition taken (r r' : rbb) (t : list nat) : Prop :=
  (forall i, i ∈ t -> status_of r i = RT_RBB_BLK_PUT /\ status_of r' i = RT_RBB_BLK_GET) /\
  (forall i, span r' i = span r i) /\ (forall i, i ∉ t -> info r' i = info r i) /\ frame r' = frame r.

Definition sizes (r : rbb) (t : list nat) : Z := foldr (fun i s => (span r i).2 + s) 0 t.

Lemma sizes_ext r r' t : (forall i, span r' i = span r i) -> sizes r' t = sizes r t.
Proof. intros E. unfold sizes. induction t as [|i t IH]; simpl; [done|]. by rewrite IH, E. Qed.

Lemma taken_cons r r1 r' i t : i ∉ t -> status_of r i = RT_RBB_BLK_PUT -> status_of r1 i = RT_RBB_BLK_GET ->
  (forall j, span r1 j = span r j) -> (forall j, j <> i -> info r1 j = info r j) -> frame r1 = frame r ->
  taken r1 r' t -> taken r r' (i :: t).
Proof.
  intros Hi Hp Hg Sp I F (T1 & T2 & T3 & T4). split; [|split; [|split]].
  - intros j [->|Hj]%elem_of_cons; [rewrite (proj1 (info_eq _ _ _ (T3 i Hi))); done|].
    destruct (T1 j Hj) as [Hs Hs']. split; [|done]. rewrite <- Hs. symmetry. apply info_eq, I. by intros ->.
  - intros j. by rewrite T2, Sp.
  - intros j [Hn Hj]%not_elem_of_cons. by rewrite T3, I.
  - congruence.
Qed.

(** What is taken, and what the queue says about it. *)
Definition queued (r : rbb) (pre : list nat) (total : Z) (q : blk_queue) (l : list nat) (x : Z * blk_queue) (r' : rbb) : Prop :=
  exists t post, l = t ++ post /\ rbb_ok r' (pre ++ post) /\ taken r r' t /\
    x = (u32 (total + sizes r t), Queue (q_blocks q) (u32 (blk_num q + Z.of_nat (length t)))).

Lemma queued_none r pre total q l : rbb_ok r (pre ++ l) -> in_range 32 total -> in_range 32 (blk_num q) -> queued r pre total q l (total, q) r.
Proof.
  intros Hok Ht Hq. exists [], l. split; [done|]. split; [done|]. split; [split; [by intros i ?%elem_of_nil|done]|].
  simpl. rewrite !Z.add_0_r, !wrap_small by done. by destruct q.
Qed.

Lemma queued_cons r r1 pre total q i l x r' : NoDup (pre ++ i :: l) -> status_of r i = RT_RBB_BLK_PUT -> status_of r1 i = RT_RBB_BLK_GET ->
  (forall j, span r1 j = span r j) -> (forall j, j <> i -> info r1 j = info r j) -> frame r1 = frame r ->
  queued r1 pre (u32 (total + (span r i).2)) (Queue (q_blocks q) (u32 (blk_num q + 1))) l x r' ->
  exists t post, l = t ++ post /\ rbb_ok r' (pre ++ post) /\ taken r r' (i :: t) /\
    x = (u32 (total + sizes r (i :: t)), Queue (q_blocks q) (u32 (blk_num q + Z.of_nat (length (i :: t))))).
Proof.
  intros Hnd Hp Hg Sp I F (t & post & -> & Hok & Ht & ->). exists t, post. split; [done|]. split; [done|]. split.
  - apply (taken_cons r r1); try done. apply NoDup_app in Hnd as (_ & _ & [Hi _]%NoDup_cons). set_solver.
  - simpl. rewrite !wrap_add_l, (sizes_ext r r1) by done. unfold sizes. simpl. f_equal; [|f_equal]; f_equal; lia.
Qed.

Lemma queue_loop_rest pre max : forall l r fuel last lb total q, rbb_ok r (pre ++ l) -> (length l <= fuel)%nat ->
  blk_set r !! last = Some lb -> in_range 32 total -> in_range 32 (blk_num q) ->
  exists x r', queue_loop fuel (head l) (Some last) max total q r = Some (x, r') /\ queued r pre total q l x r'.
Proof.
  induction l as [|i l IH]; intros r fuel last lb total q Hok Hf Elb Ht Hq.
  - exists (total, q), r. split; [by destruct fuel|]. by apply queued_none.
  - destruct fuel as [|fuel]; simpl in Hf; [lia|]. destruct (rbb_block _ _ i Hok) as [b Eb]; [set_solver|]. simpl.
    erewrite bind_eval by (unfold get_blk, deref; rewrite Eb; reflexivity).
    erewrite bind_eval by (unfold get_blk, deref; rewrite Elb; reflexivity).
    destruct (decide (blk_status b <> RT_RBB_BLK_PUT \/ blk_buf b < blk_buf lb \/ max < u32 (total + blk_size b))) as [Hd|Hd].
    { exists (total, q), r. split; [done|]. by apply queued_none. }
    destruct (queue_take_spec r pre i l b total q Hok Eb) as (r1 & b1 & E & Hok1 & F1 & Eb1 & En & Hg & Sp & I1).
    erewrite bind_eval by exact E. cbv beta iota.
    erewrite bind_eval by (unfold get_blk, deref; rewrite Eb1; reflexivity). rewrite En.
    destruct (IH r1 fuel i b1 (u32 (total + blk_size b)) (Queue (q_blocks q) (u32 (blk_num q + 1))) Hok1 ltac:(lia) Eb1) as (x & r' & Ex & Hx);
      [by apply wrap_range..|].
    exists x, r'. split; [done|]. destruct (status_block _ _ _ Eb) as [Es Esp].
    destruct (queued_cons r r1 pre total q i l x r') as (t & post & -> & ?); [..|by exists (i :: t), post]; try done; [eapply chain_nodup, Hok|rewrite Es; destruct (decide (blk_status b = RT_RBB_BLK_PUT)); [done|tauto]|by rewrite Esp].
Qed.

(** The blocks [pre] before the first one that was put are skipped, and a run of
    blocks that were put moves from the ring to the queue. *)
Definition queue_result (r : rbb) (l : list nat) (q : blk_queue) (x : Z * blk_queue) (r' : rbb) : Prop :=
  (x = (0, q) /\ r' = r /\ forall i, i ∈ l -> status_of r i <> RT_RBB_BLK_PUT) \/
  exists pre i t post, l = pre ++ (i :: t) ++ post /\ rbb_ok r' (pre ++ post) /\ taken r r' (i :: t) /\
    (forall j, j ∈ pre -> status_of r j <> RT_RBB_BLK_PUT) /\
    x = (u32 (sizes r (i :: t)), Queue i (u32 (Z.of_nat (length (i :: t))))).

Lemma queue_loop_first r max q l : forall pre fuel, rbb_ok r (pre ++ l) -> (length l <= fuel)%nat ->
  (forall j, j ∈ pre -> status_of r j <> RT_RBB_BLK_PUT) ->
  exists x r', queue_loop fuel (head l) None max 0 q r = Some (x, r') /\ queue_result r (pre ++ l) q x r'.
Proof.
  induction l as [|i l IH]; intros pre fuel Hok Hf Hpre.
  - exists (0, q), r. split; [by destruct fuel|]. left. rewrite app_nil_r. done.
  - destruct fuel as [|fuel]; simpl in Hf; [lia|]. destruct (rbb_block _ _ i Hok) as [b Eb]; [set_solver|]. simpl.
    destruct (status_block _ _ _ Eb) as [Es Esp].
    erewrite bind_eval by (unfold get_blk, deref; rewrite Eb; reflexivity). case_decide as Hd.
    + destruct (queue_take_spec r pre i l b 0 (Queue i 0) Hok Eb) as (r1 & b1 & E & Hok1 & F1 & Eb1 & En & Hg & Sp & I1).
      erewrite bind_eval by exact E. cbv beta iota. erewrite bind_eval by (unfold get_blk, deref; rewrite Eb1; reflexivity). rewrite En.
      destruct (queue_loop_rest pre max l r1 fuel i b1 (u32 (0 + blk_size b)) (Queue i (u32 (0 + 1))) Hok1 ltac:(lia) Eb1) as (x & r' & Ex & Hx);
        [by apply wrap_range..|]. exists x, r'. split; [done|]. right.
      destruct (queued_cons r r1 pre 0 (Queue i 0) i l x r') as (t & post & -> & Hok' & Ht & ->); try done;
        [eapply chain_nodup, Hok|by rewrite Es|by rewrite Esp|].
      by exists pre, i, t, post.
    + rewrite (next_of_block r pre i l b) by done.
      destruct (IH (pre ++ [i]) fuel) as (x & r' & Ex & Hx); [by rewrite <- app_assoc|lia|intros j [Hj| ->%list_elem_of_singleton]%elem_of_app; [by apply Hpre|by rewrite Es]|].
      exists x, r'. split; [done|]. by rewrite <- app_assoc in Hx.
Qed.

Lemma rt_rbb_blk_queue_get_spec r l max q : rbb_ok r l ->
  exists x r', rt_rbb_blk_queue_get max q r = Some (x, r') /\ queue_result r l q x r'.
Proof.
  intros Hok. pose proof (ro_list _ _ Hok) as Hl. unfold rt_rbb_blk_queue_get. erewrite bind_eval by reflexivity.
  unfold rt_slist_isempty, rt_slist_first. rewrite (chain_head _ _ _ _ Hl : sl_first (blks r) = _).
  destruct l as [|i l].
  { rewrite bool_decide_true by done. exists (0, q), r. split; [done|]. left. split_and!; try done. by intros i ?%elem_of_nil. }
  rewrite bool_decide_false by done. apply (queue_loop_first r max q (i :: l) []); [done|by apply (slist_length _ _ _ Hl)|by intros j ?%elem_of_nil].
Qed.

(** ** The ring as a whole *)

Inductive rbb_op := OpAlloc (n : Z) | OpPut (i : nat) | OpGet | OpFree (i : nat).

Definition rbb_do (op : rbb_op) : RB (option nat) :=
  match op with
  | OpAlloc n => rt_rbb_blk_alloc n
  | OpPut i => rt_rbb_blk_put i;; mret None
  | OpGet => rt_rbb_blk_get
  | OpFree i => rt_rbb_blk_free i;; mret None
  end.

(** What the caller has to see to. *)
Definition rbb_allowed (op : rbb_op) (r : rbb) : Prop :=
  match op with
  | OpAlloc n => 0 < n < 2 ^ 24 /\ n <= rbb_buf_size r
  | OpPut i => status_of r i = RT_RBB_BLK_INITED
  | OpGet => True
  | OpFree i => status_of r i <> RT_RBB_BLK_UNUSED
  end.

(** Blocks are handed out in the order in which they were allocated. *)
Inductive ring_step (v : ring_state) : rbb_op -> option nat -> ring_state -> Prop :=
| ring_full n : ring_step v (OpAlloc n) None v
| ring_alloc n i : i ∉ v.*1 -> ring_step v (OpAlloc n) (Some i) (v ++ [(i, RT_RBB_BLK_INITED)])
| ring_put i : ring_step v (OpPut i) None (ring_set i RT_RBB_BLK_PUT v)
| ring_get i : ring_first v = Some i -> ring_step v OpGet (Some i) (ring_set i RT_RBB_BLK_GET v)
| ring_empty : ring_first v = None -> ring_step v OpGet None v
| ring_freed i : ring_step v (OpFree i) None (ring_free i v).

(** Every block that is in use is on the list. *)
Definition listed (r : rbb) (l : list nat) : Prop := forall i, status_of r i <> RT_RBB_BLK_UNUSED -> i ∈ l.

Lemma used_block r i : status_of r i <> RT_RBB_BLK_UNUSED -> exists b, blk_set r !! i = Some b /\ blk_status b = status_of r i.
Proof.
  unfold status_of, info. destruct (blk_set r !! i) as [b|] eqn:E; [|done]. intros _. by exists b.
Qed.

Lemma view_fst r l : (view r l).*1 = l.
Proof. unfold view. rewrite <- list_fmap_compose. apply list_fmap_id. Qed.

Lemma listed_others r r' l i : listed r l -> i ∈ l -> (forall j, j <> i -> info r' j = info r j) -> listed r' l.
Proof.
  intros H Hi I j Hj. destruct (decide (j = i)) as [->|Hn]; [done|]. apply H. by rewrite <- (proj1 (info_eq _ _ _ (I j Hn))).
Qed.

Definition rbb_steps (r : rbb) (l : list nat) (op : rbb_op) : Prop :=
  exists res r' l', rbb_do op r = Some (res, r') /\ rbb_ok r' l' /\ frame r' = frame r /\
    ring_step (view r l) op res (view r' l') /\ (listed r l -> listed r' l').

Lemma alloc_step r l n : rbb_ok r l -> rbb_allowed (OpAlloc n) r -> rbb_steps r l (OpAlloc n).
Proof.
  intros Hok [Hn Hs]. destruct (rt_rbb_blk_alloc_spec r l n Hok Hn Hs) as (o & r' & E & F & Ho).
  destruct o as [i|].
  - destruct Ho as (Hok' & Hi & _ & Hst & _ & _ & I). exists (Some i), r', (l ++ [i]). split; [done|]. split; [done|]. split; [done|]. split.
    + rewrite view_app, (view_ext r r' l) by (intros j Hj; apply info_eq, I; by intros ->). simpl. rewrite Hst.
      constructor. by rewrite view_fst.
    + intros Hl j Hj. apply elem_of_app. destruct (decide (j = i)) as [->|Hn']; [right; by left|left; apply Hl].
      by rewrite <- (proj1 (info_eq _ _ _ (I j Hn'))).
  - destruct Ho as [-> _]. exists None, r, l. do 3 (split; [done|]). by split; [constructor|].
Qed.

Lemma put_step r l i : rbb_ok r l -> rbb_allowed (OpPut i) r -> rbb_steps r l (OpPut i).
Proof.
  intros Hok Hs. simpl in Hs. destruct (used_block r i) as (b & Eb & Es); [by rewrite Hs|].
  destruct (set_status_ok r l i RT_RBB_BLK_PUT b Hok Eb) as (r' & E & Hok' & F & _ & _ & I & V); [done|].
  assert (rt_rbb_blk_put i r = Some (tt, r')) as E'.
  { unfold rt_rbb_blk_put. erewrite bind_eval by (unfold get_blk, deref; rewrite Eb; reflexivity).
    rewrite bool_decide_true by congruence. erewrite bind_eval by reflexivity. exact E. }
  exists None, r', l. split; [unfold rbb_do; by rewrite (bind_eval _ _ _ _ _ E')|].
  split; [done|]. split; [done|]. rewrite V. split; [constructor|]. intros Hl. apply (listed_others r r' l i); [done| |done].
  apply Hl. by rewrite Hs.
Qed.

Lemma get_step r l : rbb_ok r l -> rbb_steps r l OpGet.
Proof.
  intros Hok. destruct (rt_rbb_blk_get_spec r l Hok) as (r' & E & H). destruct (ring_first (view r l)) as [i|] eqn:Ef.
  - destruct H as (Hok' & F & Hp & _ & I & V). exists (Some i), r', l. do 3 (split; [done|]). rewrite V. split; [by constructor|].
    intros Hl. apply (listed_others r r' l i); [done| |done]. apply Hl. by rewrite Hp.
  - subst. exists None, r, l. do 3 (split; [done|]). by split; [constructor|].
Qed.

Lemma free_step r l i : rbb_ok r l -> rbb_allowed (OpFree i) r -> rbb_steps r l (OpFree i).
Proof.
  intros Hok Hs. destruct (used_block r i Hs) as (b & Eb & Es).
  destruct (rt_rbb_blk_free_spec r l i b Hok Eb) as (r' & E & Hok' & F & Hu & I & V); [by rewrite Es|].
  exists None, r', (lremove i l). split; [unfold rbb_do; by rewrite (bind_eval _ _ _ _ _ E)|]. split; [done|]. split; [done|].
  rewrite V. split; [constructor|]. intros Hl j Hj. apply elem_of_lremove. destruct (decide (j = i)) as [->|Hn]; [done|]. split; [done|].
  apply Hl. by rewrite <- (proj1 (info_eq _ _ _ (I j Hn))).
Qed.

Lemma rbb_op_steps r l op : rbb_ok r l -> rbb_allowed op r -> rbb_steps r l op.
Proof. destruct op; [apply alloc_step|apply put_step|intros H _; by apply get_step|apply free_step]. Qed.

(** Initialisation *)
Lemma init_blocks_spec n : forall i set, (i + n <= length set)%nat ->
  exists set', init_blocks n i set = Some set' /\ length set' = length set /\
    (forall j, (i <= j < i + n)%nat -> exists b, set' !! j = Some b /\ blk_status b = RT_RBB_BLK_UNUSED) /\
    (forall j, (j < i)%nat -> set' !! j = set !! j).
Proof.
  induction n as [|n IH]; intros i set Hl; simpl.
  - exists set. split_and!; try done. intros j Hj. lia.
  - destruct (lookup_lt_is_Some_2 set i) as [b Eb]; [lia|]. rewrite Eb. simpl.
    destruct (IH (S i) (<[i := with_status RT_RBB_BLK_UNUSED b]> set)) as (set' & E & El & H1 & H2); [rewrite length_insert; lia|].
    exists set'. split; [done|]. split; [by rewrite El, length_insert|]. split; intros j Hj.
    + destruct (decide (j = i)) as [->|Hn]; [|apply H1; lia]. rewrite H2 by lia. eexists. by rewrite list_lookup_insert_eq by lia.
    + rewrite H2 by lia. apply list_lookup_insert_ne. lia.
Qed.

Lemma rt_rbb_init_spec buf size set : 0 <= buf -> 0 <= size -> buf + size < 2 ^ 32 -> Z.of_nat (length set) < 2 ^ 32 ->
  exists r, rt_rbb_init buf size set (Z.of_nat (length set)) = Some r /\ rbb_ok r [] /\ listed r [] /\ rbb_buf r = buf /\ rbb_buf_size r = size.
Proof.
  intros H1 H2 H3 H4. unfold rt_rbb_init. rewrite Nat2Z.id.
  destruct (init_blocks_spec (length set) 0 set) as (set' & E & El & Hu & _); [lia|]. rewrite E. simpl.
  eexists. split; [done|]. split; [split; simpl; try done|split; [|done]].
  - by intros i ?%elem_of_nil.
  - exists [], []. split; [done|]. simpl. lia.
  - lia.
  - intros i Hi. destruct Hi. unfold status_of, info. simpl. destruct (set' !! i) as [b|] eqn:Eb; [|done].
    destruct (Hu i) as (b' & Eb' & Hb'); [apply lookup_lt_Some in Eb; lia|]. simpl. congruence.
Qed.

(** The rings that the operations reach from an initialised one. *)
Inductive rbb_reach : rbb -> Prop :=
| reach_init buf size set r : 0 <= buf -> 0 <= size -> buf + size < 2 ^ 32 -> Z.of_nat (length set) < 2 ^ 32 ->
    rt_rbb_init buf size set (Z.of_nat (length set)) = Some r -> rbb_reach r
| reach_step r op res r' : rbb_reach r -> rbb_allowed op r -> rbb_do op r = Some (res, r') -> rbb_reach r'.

Lemma reach_ok r : rbb_reach r -> exists l, rbb_ok r l /\ listed r l.
Proof.
  induction 1 as [buf size set r H1 H2 H3 H4 E|r op res r' _ (l & Hok & Hl) Ha E].
  - destruct (rt_rbb_init_spec buf size set H1 H2 H3 H4) as (r' & E' & Hok & Hl & _). simplify_eq. eauto.
  - destruct (rbb_op_steps r l op Hok Ha) as (res' & r2 & l' & E' & Hok' & _ & _ & Hl'). simplify_eq. eauto.
Qed.

(** C17: The ring block buffer is a list of blocks in the order of their
    allocation: [rt_rbb_blk_alloc] of a positive size up to that of the buffer
    adds a block at the end or fails, [rt_rbb_blk_put] marks it,
    [rt_rbb_blk_get] hands out the first block that was put, and
    [rt_rbb_blk_free] takes a block out wherever it is. *)
Theorem rbb_refines r l op : rbb_ok r l -> rbb_allowed op r ->
  exists res r' l', rbb_do op r = Some (res, r') /\ rbb_ok r' l' /\ ring_step (view r l) op res (view r' l').
Proof. intros Hok Ha. destruct (rbb_op_steps r l op Hok Ha) as (res & r' & l' & H1 & H2 & _ & H3 & _). eauto 10. Qed.

(** C18: From [rt_rbb_init] on, whatever blocks are allocated (with positive
    sizes up to that of the buffer), put, got and freed in whatever order, the
    blocks in use lie inside the buffer and do not overlap, although the ring
    wraps around, and the next operation runs without a failing assertion. *)
Theorem rbb_is_safe r : rbb_reach r ->
  (forall i, status_of r i <> RT_RBB_BLK_UNUSED ->
     rbb_buf r <= (span r i).1 /\ 0 < (span r i).2 /\ (span r i).1 + (span r i).2 <= rbb_buf r + rbb_buf_size r) /\
  (forall i j, i <> j -> status_of r i <> RT_RBB_BLK_UNUSED -> status_of r j <> RT_RBB_BLK_UNUSED ->
     apart (span r i).1 (span r i).2 (span r j).1 (span r j).2) /\
  (forall op, rbb_allowed op r -> is_Some (rbb_do op r)).
Proof.
  intros (l & Hok & Hl)%reach_ok. pose proof (ro_layout _ _ Hok) as Hlay. split; [|split].
  - intros i Hi. apply (layout_inside _ _ _ _ _ Hlay). by apply Hl.
  - intros i j Hn Hi Hj. apply (layout_apart _ _ _ _ _ _ Hlay); [by apply Hl..|done].
  - intros op Ha. destruct (rbb_op_steps r l op Hok Ha) as (res & r' & l' & E & _). by exists (res, r').
Qed.

(** ** Creation on the heap *)

Lemma rt_rbb_create_spec h A blocks_at buf_size n : heap_serves h A -> 0 < buf_size -> buf_size + 7 < 2 ^ 32 -> 0 < n -> 12 * n + 7 < 2 ^ 32 ->
  (forall p, length (blocks_at p (12 * n)) = Z.to_nat n) ->
  exists o h', rt_rbb_create blocks_at buf_size n h = Some (o, h') /\
    match o with
    | None => heap_serves h' A
    | Some (p, set, r) => exists n1 n2 n3, heap_serves h' (<[set := n3]> (<[rbb_buf r := n2]> (<[p := n1]> A))) /\
        A !! p = None /\ <[p := n1]> A !! rbb_buf r = None /\ <[rbb_buf r := n2]> (<[p := n1]> A) !! set = None /\
        buf_size <= n2 /\ rbb_buf_size r = buf_size /\ rbb_ok r [] /\ listed r []
    end.
Proof.
  intros Hsv Hb Hb7 Hn Hn7 Hlen. unfold rt_rbb_create.
  destruct (rt_malloc_serves h A 20 Hsv) as [E|(h1 & p & n1 & E & Hp & Hp0 & _ & Hsv1 & _)]; [lia..| |]; rewrite (bind_eval _ _ _ _ _ E).
  { rewrite decide_True by done. by exists None, h. }
  rewrite decide_False by done.
  destruct (rt_malloc_serves h1 _ buf_size Hsv1) as [E1|(h2 & b & n2 & E1 & Hb0 & Hbn & Hn2 & Hsv2 & _)]; [lia..| |]; rewrite (bind_eval _ _ _ _ _ E1).
  { rewrite decide_True by done. destruct (rt_free_serves _ _ p n1 Hsv1) as (h2 & E2 & Hsv2 & _); [apply lookup_insert_eq|].
    rewrite (bind_eval _ _ _ _ _ E2). exists None, h2. split; [done|]. by rewrite delete_insert_id in Hsv2. }
  rewrite decide_False by done. cbv zeta. rewrite (wrap_small 32) by (unfold in_range; lia).
  destruct (rt_malloc_serves h2 _ (12 * n) Hsv2) as [E2|(h3 & s & n3 & E2 & Hs0 & Hsn & _ & Hsv3 & _)]; [lia..| |]; rewrite (bind_eval _ _ _ _ _ E2).
  - rewrite decide_True by done. destruct (rt_free_serves _ _ b n2 Hsv2) as (h3 & E3 & Hsv3 & _); [apply lookup_insert_eq|].
    rewrite delete_insert_id in Hsv3 by done. destruct (rt_free_serves _ _ p n1 Hsv3) as (h4 & E4 & Hsv4 & _); [apply lookup_insert_eq|].
    rewrite delete_insert_id in Hsv4 by done. exists None, h4. split; [|done].
    rewrite (bind_eval _ _ _ _ _ E3). by rewrite (bind_eval _ _ _ _ _ E4).
  - rewrite decide_False by done. pose proof (serves_inside _ _ b n2 Hsv2 (lookup_insert_eq _ _ _)) as (I1 & _ & I3 & _).
    destruct Hsv2 as (lo & hi & [[Hwf _ _] _] & _). pose proof (wf_bound _ _ Hwf) as Hbd. pose proof (proj1 (wf_ptr _ _ Hwf)) as Hpos.
    destruct (rt_rbb_init_spec b buf_size (blocks_at s (12 * n))) as (r & Ei & Hok & Hl & Eb & Es); [lia..|rewrite Hlen; lia|].
    rewrite Hlen, Z2Nat.id in Ei by lia. unfold deref. rewrite Ei. erewrite bind_eval by reflexivity.
    exists (Some (p, s, r)), h3. split; [done|]. exists n1, n2, n3. rewrite Eb. done.
Qed.

Lemma rt_rbb_destroy_spec h A p set r n1 n2 n3 : heap_serves h (<[set := n3]> (<[rbb_buf r := n2]> (<[p := n1]> A))) ->
  A !! p = None -> <[p := n1]> A !! rbb_buf r = None -> <[rbb_buf r := n2]> (<[p := n1]> A) !! set = None ->
  exists h', rt_rbb_destroy p set r h = Some (tt, h') /\ heap_serves h' A.
Proof.
  intros Hsv Hp Hb Hs. assert (rbb_buf r <> set) as Hne by (intros E; by rewrite E, lookup_insert_eq in Hs).
  destruct (rt_free_serves _ _ (rbb_buf r) n2 Hsv) as (h1 & E1 & Hsv1 & _); [by rewrite lookup_insert_ne, lookup_insert_eq|].
  rewrite delete_insert_ne, delete_insert_id in Hsv1 by done.
  rewrite lookup_insert_ne in Hs by done.
  destruct (rt_free_serves _ _ set n3 Hsv1) as (h2 & E2 & Hsv2 & _); [apply lookup_insert_eq|]. rewrite delete_insert_id in Hsv2 by done.
  destruct (rt_free_serves _ _ p n1 Hsv2) as (h3 & E3 & Hsv3 & _); [apply lookup_insert_eq|]. rewrite delete_insert_id in Hsv3 by done.
  exists h3. split; [|done]. unfold rt_rbb_destroy. rewrite (bind_eval _ _ _ _ _ E1), (bind_eval _ _ _ _ _ E2). exact E3.
Qed.

(** ** Where the code goes wrong *)

(** A ring of [size] bytes at 1000 with [n] descriptors. *)
Definition demo_ring (size : Z) (n : nat) : rbb := Rbb 1000 size (replicate n (Blk RT_RBB_BLK_UNUSED 0 0 None)) (Z.of_nat n) None.
Definition result {A} (m : RB A) (r : rbb) : option A := fst <$> m r.

(** The size of the first block is not compared with the size of the buffer. *)
Example first_block_overruns :
  result (rt_rbb_blk_alloc 200;; rt_rbb_blk_size 0) (demo_ring 100 2) = Some 200.
Proof. reflexivity. Qed.

(** A block of 0 bytes at the start of the first block hides that the ring has
    wrapped around: two blocks of 40 bytes get the same address. *)
Example empty_block_confuses :
  result (rt_rbb_blk_alloc 60;; rt_rbb_blk_alloc 40;; rt_rbb_blk_free 0;; rt_rbb_blk_alloc 60;; rt_rbb_blk_alloc 0;;
    i ← rt_rbb_blk_alloc 40; b ← rt_rbb_blk_buf 1; b' ← rt_rbb_blk_buf 3; mret (i, b, b')) (demo_ring 100 4) =
  Some (Some 3%nat, 1060, 1060).
Proof. reflexivity. Qed.

(** The blocks of a queue leave the list, so their memory is given away while
    they are still read: blocks 0 and 1 are the same 60 bytes. *)
Example queue_is_overwritten :
  result (rt_rbb_blk_alloc 60;; rt_rbb_blk_put 0;; x ← rt_rbb_blk_queue_get 100 (Queue 0 0); i ← rt_rbb_blk_alloc 60;
    b ← rt_rbb_blk_buf 0; b' ← rt_rbb_blk_buf 1; s ← gets (fun r => status_of r 0); mret (x.1, i, b, b', s)) (demo_ring 100 2) =
  Some (60, Some 1%nat, 1000, 1000, RT_RBB_BLK_GET).
Proof. reflexivity. Qed.

(** [rt_rbb_blk_queue_len] goes through [blk_set], not through the list: here the
    queue has 20 and 30 bytes, and it sums up 20 and 0. *)
Example queue_len_differs :
  result (rt_rbb_blk_alloc 10;; rt_rbb_blk_alloc 20;; rt_rbb_blk_free 0;; rt_rbb_blk_alloc 30;; rt_rbb_blk_put 0;; rt_rbb_blk_put 1;;
    x ← rt_rbb_blk_queue_get 100 (Queue 0 0); n ← rt_rbb_blk_queue_len x.2; mret (x, n)) (demo_ring 100 3) =
  Some (50, Queue 1 2, 20).
Proof. reflexivity. Qed.

(** The blocks of a queue need not be continuous: 20 bytes are missing between
    the two of this queue. *)
Example queue_has_a_gap :
  result (rt_rbb_blk_alloc 10;; rt_rbb_blk_alloc 20;; rt_rbb_blk_alloc 30;; rt_rbb_blk_free 1;; rt_rbb_blk_put 0;; rt_rbb_blk_put 2;;
    x ← rt_rbb_blk_queue_get 100 (Queue 0 0); b ← rt_rbb_blk_buf 0; b' ← rt_rbb_blk_buf 2; mret (x, b, b')) (demo_ring 100 3) =
  Some (40, Queue 0 2, 1000, 1030).
Proof. reflexivity. Qed.

(** The first block of a queue may be longer than the limit. *)
Example queue_exceeds_limit :
  result (rt_rbb_blk_alloc 60;; rt_rbb_blk_put 0;; x ← rt_rbb_blk_queue_get 10 (Queue 0 0); mret x.1) (demo_ring 100 2) = Some 60.
Proof. reflexivity. Qed.

(** ** Witnesses *)

Lemma demo_ring_ok size n : 0 <= size -> 1000 + size < 2 ^ 32 -> Z.of_nat n < 2 ^ 32 ->
  rbb_reach (demo_ring size n) /\ rbb_ok (demo_ring size n) [].
Proof.
  intros H1 H2 H3. assert (rt_rbb_init 1000 size (replicate n (Blk RT_RBB_BLK_UNUSED 0 0 None)) (Z.of_nat n) = Some (demo_ring size n)) as E.
  { unfold rt_rbb_init. rewrite Nat2Z.id. enough (forall m i, (i + m)%nat = n -> init_blocks m i (replicate n (Blk RT_RBB_BLK_UNUSED 0 0 None)) =
      Some (replicate n (Blk RT_RBB_BLK_UNUSED 0 0 None))) as -> by done.
    induction m as [|m IH]; intros i Hi; simpl; [done|]. rewrite lookup_replicate_2 by lia. simpl.
    rewrite list_insert_id by (by apply lookup_replicate_2; lia). apply IH. lia. }
  destruct (rt_rbb_init_spec 1000 size (replicate n (Blk RT_RBB_BLK_UNUSED 0 0 None))) as (r & E' & Hok & _); [lia..|by rewrite length_replicate|].
  rewrite length_replicate in E'. rewrite E in E'. injection E' as <-. split; [|done].
  apply (reach_init 1000 size (replicate n (Blk RT_RBB_BLK_UNUSED 0 0 None))); [lia..|by rewrite length_replicate|by rewrite length_replicate].
Qed.

Lemma rbb_refines_witness : exists res r', rt_rbb_blk_alloc 60 (demo_ring 100 2) = Some (res, r') /\ exists l, rbb_ok r' l.
Proof.
  destruct (rbb_refines (demo_ring 100 2) [] (OpAlloc 60)) as (res & r' & l' & E & H & _); [apply demo_ring_ok; done|done|].
  exists res, r'. split; [exact E|by exists l'].
Defined.

(** Two blocks of the ring are apart. *)
Lemma rbb_is_safe_witness : exists r, rt_rbb_blk_alloc 60 (demo_ring 100 2) = Some (Some 0%nat, r) /\ is_Some (rt_rbb_blk_put 0 r).
Proof.
  eexists. split; [reflexivity|].
  destruct (rbb_is_safe (snd (default (None, demo_ring 100 2) (rt_rbb_blk_alloc 60 (demo_ring 100 2))))) as (_ & _ & H).
  { apply (reach_step (demo_ring 100 2) (OpAlloc 60) (Some 0%nat)); [apply demo_ring_ok; done|done|reflexivity]. }
  destruct (H (OpPut 0)) as [[res r'] E]; [reflexivity|].
  destruct (rt_rbb_blk_put 0 _) as [x|] eqn:Ex in |- *; [by exists x|]. vm_compute in Ex. discriminate.
Defined.
