(* ===== verification/AppMain.v ===== *)
(** * AppMain: the main thread

    main.c and src/datastructure_def.h.  [main_step] is the body of the [while]
    loop after a successful [rt_mq_recv]: a function of the received buffer, of
    the values the ADC gives and of the program's variables, with the calls that
    leave the thread recorded as [effect]s in the order they are made.

    - [sbuf0] is what an uninitialised [rt_mq_buf] on the stack holds.
    - [set_product_info] reads [val_arr[5]] of the five words of [r_buf].  In C
      this is undefined, and [beyond] is none; on a target where the word behind
      the buffer can be read, it is that word.
    - An ADC sample that is [None] is a failed read: the variable keeps its value.
    - [subf] in [send_info_to_file_msg] and [send_date_to_file_msg] is read as
      [sbuf]; as written, the file does not compile.  Logging is not modelled. *)

From S2P Require Import Prelude Bytes.

(** ** Data *)

Record res_paras := ResParas { v_measure : Z; v_threshold : Z; qualified : Z }.
Record product_info := ProductInfo { total : Z; qualified_amount : Z; year : Z; mon : Z; day : Z }.
Record tr_stat := TrStat { csq : Z; msg_id : Z; stat_code : Z }.

Inductive mq_name := MainMq | OutputMq | FileMq | NbMq.
Inductive task := GuiTask | FileTask | NbTask.

Definition PULSE_OUT : Z := 36.
Definition INPUT_SIGNAL : Z := 37.
Definition INPUT_SIGNAL2 : Z := 34.
Definition VIL : Z := 0.

Inductive effect :=
| ECreate (q : mq_name) (msg_size max_msgs : Z)   (* rt_mq_create *)
| ESend (q : mq_name) (buffer : list Z) (size : nat) (* rt_mq_send *)
| EGpio (pin value : Z)                           (* gpio_write *)
| EIrq (pin : Z) (enabled : bool)                 (* ls1x_enable/disable_gpio_interrupt *)
| EIsr (pin : Z)                                  (* ls1x_install_gpio_isr *)
| EDelay (ticks : Z)                              (* rt_thread_delay *)
| ERtc (y m d hour min sec : Z)                   (* ls1x_rtc_set_datetime *)
| EStart (t : task).
#[export] Instance effect_eq_dec : EqDecision effect.
Proof. unfold EqDecision, Decision. repeat decide equality. Defined.

(** The variables of [main], the samples to come and what has been done. *)
Record app := App {
  a_res : res_paras;
  a_info : product_info;
  a_stat : tr_stat;
  a_ctrl_flow : Z;            (* unsigned char *)
  a_adc_sum : Z;              (* uint16_t *)
  a_adc_measure_count : Z;    (* unsigned char *)
  a_temp_adc : Z;             (* uint16_t *)
  a_samples : list (option Z);
  a_trace : list effect
}.

Definition with_res f a := App (f (a_res a)) (a_info a) (a_stat a) (a_ctrl_flow a) (a_adc_sum a)
  (a_adc_measure_count a) (a_temp_adc a) (a_samples a) (a_trace a).
Definition with_info f a := App (a_res a) (f (a_info a)) (a_stat a) (a_ctrl_flow a) (a_adc_sum a)
  (a_adc_measure_count a) (a_temp_adc a) (a_samples a) (a_trace a).
Definition with_tr f a := App (a_res a) (a_info a) (f (a_stat a)) (a_ctrl_flow a) (a_adc_sum a)
  (a_adc_measure_count a) (a_temp_adc a) (a_samples a) (a_trace a).
Definition with_ctrl_flow n a := App (a_res a) (a_info a) (a_stat a) n (a_adc_sum a)
  (a_adc_measure_count a) (a_temp_adc a) (a_samples a) (a_trace a).
Definition with_adc_sum n a := App (a_res a) (a_info a) (a_stat a) (a_ctrl_flow a) n
  (a_adc_measure_count a) (a_temp_adc a) (a_samples a) (a_trace a).
Definition with_count n a := App (a_res a) (a_info a) (a_stat a) (a_ctrl_flow a) (a_adc_sum a)
  n (a_temp_adc a) (a_samples a) (a_trace a).
Definition with_temp_adc n a := App (a_res a) (a_info a) (a_stat a) (a_ctrl_flow a) (a_adc_sum a)
  (a_adc_measure_count a) n (a_samples a) (a_trace a).
Definition with_samples l a := App (a_res a) (a_info a) (a_stat a) (a_ctrl_flow a) (a_adc_sum a)
  (a_adc_measure_count a) (a_temp_adc a) l (a_trace a).
Definition with_trace f a := App (a_res a) (a_info a) (a_stat a) (a_ctrl_flow a) (a_adc_sum a)
  (a_adc_measure_count a) (a_temp_adc a) (a_samples a) (f (a_trace a)).

Abbreviation AM := (M app).

Definition emit (e : effect) : AM unit := modify (with_trace (fun tr => tr ++ [e])).

(** [rt_device_read(devADC, ADS1015_CHANNEL_S3, &x, 2)], [old] being [x]'s value. *)
Definition read_adc (old : Z) : AM Z :=
  l ← gets a_samples;
  match l with
  | [] => mret old
  | v :: l => modify (with_samples l);; mret (from_option u16 old v)
  end.

(** Unfold the effects of a handler. *)
Ltac aunfold := unfold emit, read_adc, gets, modify, deref, when, mbind, M_bind, mret, M_ret in *.

(** Reduce the updates of a state that is a record. *)
Ltac awith :=
  cbv beta iota zeta delta [with_res with_info with_tr with_ctrl_flow with_adc_sum with_count with_temp_adc with_samples with_trace
    a_res a_info a_stat a_ctrl_flow a_adc_sum a_adc_measure_count a_temp_adc a_samples a_trace
    v_measure v_threshold qualified total qualified_amount year mon day csq msg_id stat_code].

Section Main.
Context (sbuf0 : list Z) (beyond : option Z).

(** ** Initialisation *)

Definition init_datastructure : AM unit :=
  modify (with_res (fun _ => ResParas 0 350 0));;
  modify (with_info (fun _ => ProductInfo 0 0 2022 7 13));;
  modify (with_tr (fun _ => TrStat 0 0 0)).

Definition init_rtc_time : AM unit :=
  p ← gets a_info; emit (ERtc (year p) (mon p) (day p) 8 0 0).

(** ** Updates *)

Definition set_v_measure (t : Z) : AM unit :=
  modify (with_res (fun r => ResParas (u32 (u16 t * 2)) (v_threshold r) (qualified r))).

Definition set_qualified : AM unit :=
  modify (with_res (fun r => ResParas (v_measure r) (v_threshold r)
    (if decide (v_threshold r < v_measure r) then 1 else 0))).

Definition add_porduct : AM unit :=
  r ← gets a_res;
  modify (with_info (fun p => ProductInfo (u32 (total p + 1)) (u32 (qualified_amount p + qualified r))
    (year p) (mon p) (day p))).

Definition set_output : AM unit := r ← gets a_res; emit (EGpio PULSE_OUT (qualified r)).

Definition set_msg_id : AM unit :=
  modify (with_tr (fun t => let id := u32 (msg_id t + 1) in
    TrStat (csq t) (if decide (999 < id) then 0 else id) (stat_code t))).

(** A character of the received buffer. *)
Definition asc (b : list Z) (j : nat) : AM Z := deref (fun _ => asc_str b j).
(** A word of the received buffer; [val_arr[5]] is behind it. *)
Definition val (b : list Z) (i : nat) : AM Z :=
  if decide (i = 5%nat) then deref (fun _ => u32 <$> beyond) else deref (fun _ => val_arr b i).

Definition digit (c : Z) : Z := c - 48.

Definition set_product_info (b : list Z) : AM unit :=
  v1 ← val b 1; v2 ← val b 2; v3 ← val b 3; v4 ← val b 4; v5 ← val b 5;
  modify (with_info (fun _ => ProductInfo v1 v2 v3 v4 v5)).

Definition set_csq (b : list Z) : AM unit :=
  c4 ← asc b 4; c5 ← asc b 5;
  modify (with_tr (fun t => TrStat (u32 (digit c4 * 10 + c5 - 48)) (msg_id t) (stat_code t))).

Definition set_date_time (b : list Z) : AM unit :=
  c4 ← asc b 4; c5 ← asc b 5; c6 ← asc b 6; c7 ← asc b 7;
  c8 ← asc b 8; c9 ← asc b 9; c10 ← asc b 10; c11 ← asc b 11;
  modify (with_info (fun p => ProductInfo (total p) (qualified_amount p)
    (u32 (digit c4 * 1000 + digit c5 * 100 + digit c6 * 10 + digit c7))
    (u32 (digit c8 * 10 + digit c9)) (u32 (digit c10 * 10 + digit c11)))).

(** ** Messages *)

Definition send_v_threshold_msg : AM unit :=
  r ← gets a_res;
  emit (ESend OutputMq (set_val 1 (v_threshold r) (set_val 0 2 sbuf0)) 8).

Definition send_rtc_msg : AM unit :=
  p ← gets a_info;
  emit (ESend OutputMq (set_val 3 (day p) (set_val 2 (mon p) (set_val 1 (year p) (set_val 0 3 sbuf0)))) 16).

Definition send_data_msg : AM unit :=
  r ← gets a_res; p ← gets a_info;
  emit (ESend OutputMq (set_val 4 (qualified_amount p) (set_val 3 (total p) (set_val 2 (qualified r)
    (set_val 1 (v_measure r) (set_val 0 1 sbuf0))))) 20).

Definition send_product_info_msg : AM unit :=
  p ← gets a_info;
  emit (ESend OutputMq (set_val 2 (qualified_amount p) (set_val 1 (total p) (set_val 0 4 sbuf0))) 12).

Definition send_csq : AM unit :=
  t ← gets a_stat; emit (ESend OutputMq (set_val 1 (csq t) (set_val 0 5 sbuf0)) 8).

Definition send_msg_id_msg : AM unit :=
  t ← gets a_stat; emit (ESend OutputMq (set_val 1 (msg_id t) (set_val 0 6 sbuf0)) 8).

Definition send_stat_code_msg : AM unit :=
  emit (ESend OutputMq (set_val 1 200 (set_val 0 7 sbuf0)) 8).

(** The characters of [send_nb_msg]. *)
Definition nb_message (r : res_paras) (t : tr_stat) : list Z :=
  let b := set_val 0 1 sbuf0 in
  let b := set_asc 4 (v_measure r / 1000 + 48) b in
  let b := set_asc 5 ((v_measure r mod 1000) / 100 + 48) b in
  let b := set_asc 6 ((v_measure r mod 100) / 10 + 48) b in
  let b := set_asc 7 (v_measure r mod 10 + 48) b in
  let b := set_asc 8 (qualified r + 48) b in
  let b := set_asc 9 (msg_id t / 100 + 48) b in
  let b := set_asc 10 ((msg_id t mod 100) / 10 + 48) b in
  let b := set_asc 11 (msg_id t mod 10 + 48) b in
  let b := set_asc 12 (v_threshold r / 1000 + 48) b in
  let b := set_asc 13 ((v_threshold r mod 100) / 100 + 48) b in
  let b := set_asc 14 ((v_threshold r mod 100) / 10 + 48) b in
  set_asc 15 (v_threshold r mod 10 + 48) b.

Definition send_nb_msg : AM unit :=
  r ← gets a_res; t ← gets a_stat; emit (ESend NbMq (nb_message r t) 16).

Definition send_info_to_file_msg : AM unit :=
  p ← gets a_info;
  emit (ESend FileMq (set_val 2 (qualified_amount p) (set_val 1 (total p) (set_val 0 1 sbuf0))) 12).

Definition send_date_to_file_msg : AM unit :=
  p ← gets a_info;
  emit (ESend FileMq (set_val 3 (day p) (set_val 2 (mon p) (set_val 1 (year p) (set_val 0 2 sbuf0)))) 16).

(** ** The thread *)

(** [main] up to its loop; [dev] says whether [rt_device_find] found the ADC. *)
Definition main_start (dev : bool) : AM bool :=
  init_datastructure;;
  init_rtc_time;;
  modify (with_ctrl_flow 0);;
  modify (with_adc_sum 0);;
  modify (with_count 0);;
  emit (ECreate OutputMq 20 4);;
  emit (EStart GuiTask);;
  send_v_threshold_msg;;
  send_rtc_msg;;
  if dev then
    emit (EGpio PULSE_OUT VIL);;
    emit (EIrq INPUT_SIGNAL false);;
    emit (EIsr INPUT_SIGNAL);;
    emit (EIrq INPUT_SIGNAL true);;
    emit (EIrq INPUT_SIGNAL2 false);;
    emit (EIsr INPUT_SIGNAL2);;
    emit (EIrq INPUT_SIGNAL2 true);;
    emit (ECreate MainMq 20 6);;
    emit (ECreate FileMq 24 2);;
    emit (ECreate NbMq 20 2);;
    emit (EStart FileTask);;
    emit (EStart NbTask);;
    mret true
  else mret false.

(** [case 1]: one resistor has been put down. *)
Definition on_single : AM unit :=
  flow ← gets a_ctrl_flow;
  when (bool_decide (flow <> 0))
    (old ← gets a_temp_adc;
     temp_adc ← read_adc old;
     modify (with_temp_adc temp_adc);;
     adc_sum ← gets a_adc_sum;
     (if decide (temp_adc <= adc_sum) then set_v_measure (adc_sum - temp_adc) else set_v_measure 0);;
     modify (with_adc_sum temp_adc);;
     set_qualified;;
     add_porduct;;
     set_output;;
     send_data_msg;;
     set_msg_id;;
     send_nb_msg;;
     emit (EDelay 800);;
     emit (EGpio PULSE_OUT VIL);;
     n ← gets a_adc_measure_count;
     modify (with_count (u8 (n - 1)));;
     when (bool_decide (u8 (n - 1) = 0))
       (modify (with_ctrl_flow 0);; emit (EIrq INPUT_SIGNAL2 true));;
     emit (EIrq INPUT_SIGNAL true)).

(** [case 9]: six resistors have been picked up. *)
Definition on_batch : AM unit :=
  flow ← gets a_ctrl_flow;
  when (bool_decide (flow = 0))
    (old ← gets a_adc_sum;
     adc_sum ← read_adc old;
     modify (with_adc_sum adc_sum);;
     modify (with_count 6);;
     modify (with_ctrl_flow 1)).

Definition change_threshold (d : Z) : AM unit :=
  modify (with_res (fun r => ResParas (v_measure r) (u32 (v_threshold r + d)) (qualified r))).

Definition main_step (r_buf : list Z) : AM unit :=
  code ← deref (fun _ => val_arr r_buf 0);
  match code with
  | 1 => on_single
  | 2 => send_info_to_file_msg;; send_date_to_file_msg
  | 3 => set_product_info r_buf;; send_rtc_msg;; send_product_info_msg
  | 4 => set_csq r_buf;; send_csq
  | 5 => set_date_time r_buf;; send_rtc_msg
  | 6 => change_threshold 10;; send_v_threshold_msg
  | 7 => change_threshold (-10);; send_v_threshold_msg
  | 8 => send_msg_id_msg
  | 9 => on_batch
  | _ => mret tt
  end.

(** The interrupt handlers: [static int op_code], [sizeof(op_code)] is 4. *)
Definition input_interrupt_isr : AM unit :=
  emit (EIrq INPUT_SIGNAL false);; emit (ESend MainMq (set_val 0 1 (replicate 4 0)) 4).
Definition input_interrupt_isr2 : AM unit :=
  emit (EIrq INPUT_SIGNAL2 false);; emit (ESend MainMq (set_val 0 9 (replicate 4 0)) 4).

(** ** Running the handlers *)

(** The state after one measured resistor, [t] being the sample. *)
Definition measured (t : Z) (a : app) : Z := u32 (u16 (if decide (t <= a_adc_sum a) then a_adc_sum a - t else 0) * 2).

Definition single_res (t : Z) (a : app) : res_paras :=
  ResParas (measured t a) (v_threshold (a_res a)) (if decide (v_threshold (a_res a) < measured t a) then 1 else 0).
Definition single_info (t : Z) (a : app) : product_info :=
  ProductInfo (u32 (total (a_info a) + 1)) (u32 (qualified_amount (a_info a) + qualified (single_res t a)))
    (year (a_info a)) (mon (a_info a)) (day (a_info a)).
Definition single_stat (a : app) : tr_stat :=
  let id := u32 (msg_id (a_stat a) + 1) in
  TrStat (csq (a_stat a)) (if decide (999 < id) then 0 else id) (stat_code (a_stat a)).
Definition data_message (r : res_paras) (p : product_info) : list Z :=
  set_val 4 (qualified_amount p) (set_val 3 (total p) (set_val 2 (qualified r) (set_val 1 (v_measure r) (set_val 0 1 sbuf0)))).
Definition single_trace (t : Z) (a : app) : list effect :=
  [EGpio PULSE_OUT (qualified (single_res t a));
   ESend OutputMq (data_message (single_res t a) (single_info t a)) 20;
   ESend NbMq (nb_message (single_res t a) (single_stat a)) 16;
   EDelay 800;
   EGpio PULSE_OUT VIL] ++
  (if decide (u8 (a_adc_measure_count a - 1) = 0) then [EIrq INPUT_SIGNAL2 true] else []) ++
  [EIrq INPUT_SIGNAL true].

(** What the ADC gives next, and the samples after it. *)
Definition next_sample (a : app) : Z :=
  match a_samples a with [] => a_temp_adc a | v :: _ => from_option u16 (a_temp_adc a) v end.

Lemma on_single_eval a : a_ctrl_flow a <> 0 ->
  on_single a = Some (tt, App (single_res (next_sample a) a) (single_info (next_sample a) a) (single_stat a)
    (if decide (u8 (a_adc_measure_count a - 1) = 0) then 0 else a_ctrl_flow a) (next_sample a)
    (u8 (a_adc_measure_count a - 1)) (next_sample a) (tail (a_samples a)) (a_trace a ++ single_trace (next_sample a) a)).
Proof.
  intros Hc. destruct a as [res info stat flow adc n temp samples tr]. cbn [a_ctrl_flow] in Hc.
  unfold on_single, single_trace, single_info, single_stat, single_res, measured, data_message, next_sample.
  unfold set_v_measure, set_qualified, add_porduct, set_output, send_data_msg, set_msg_id, send_nb_msg.
  aunfold. awith. rewrite bool_decide_true by done. destruct samples as [|v l]; awith.
  - destruct (decide (temp <= adc)), (decide (u8 (n - 1) = 0));
      rewrite ?(bool_decide_true (u8 (n - 1) = 0)), ?(bool_decide_false (u8 (n - 1) = 0)) by done; awith;
      rewrite <- !app_assoc; reflexivity.
  - destruct (decide (from_option u16 temp v <= adc)), (decide (u8 (n - 1) = 0));
      rewrite ?(bool_decide_true (u8 (n - 1) = 0)), ?(bool_decide_false (u8 (n - 1) = 0)) by done; awith;
      rewrite <- !app_assoc; reflexivity.
Qed.

(** ** The invariant of the main thread *)

Record app_ok (a : app) : Prop := AppOk {
  ap_flow : (a_ctrl_flow a = 0 /\ a_adc_measure_count a = 0) \/
            (a_ctrl_flow a = 1 /\ 1 <= a_adc_measure_count a <= 6);
  ap_id : 0 <= msg_id (a_stat a) <= 999;
  ap_qualified : qualified (a_res a) = 0 \/ qualified (a_res a) = 1;
  ap_adc : in_range 16 (a_adc_sum a) /\ in_range 16 (a_temp_adc a);
  ap_res : in_range 32 (v_measure (a_res a)) /\ in_range 32 (v_threshold (a_res a));
  ap_info : in_range 32 (total (a_info a)) /\ in_range 32 (qualified_amount (a_info a)) /\
    in_range 32 (year (a_info a)) /\ in_range 32 (mon (a_info a)) /\ in_range 32 (day (a_info a))
}.

Lemma val_arr_total b i : (4 * i + 4 <= length b)%nat -> exists v, val_arr b i = Some v /\ in_range 32 v.
Proof.
  intros Hl. unfold val_arr.
  destruct (lookup_lt_is_Some_2 b (4 * i)%nat) as [b0 ->]; [lia|]. destruct (lookup_lt_is_Some_2 b (4 * i + 1)%nat) as [b1 ->]; [lia|].
  destruct (lookup_lt_is_Some_2 b (4 * i + 2)%nat) as [b2 ->]; [lia|]. destruct (lookup_lt_is_Some_2 b (4 * i + 3)%nat) as [b3 ->]; [lia|].
  eexists. split; [done|].
  pose proof (wrap_range 8 b0 ltac:(lia)). pose proof (wrap_range 8 b1 ltac:(lia)).
  pose proof (wrap_range 8 b2 ltac:(lia)). pose proof (wrap_range 8 b3 ltac:(lia)). unfold in_range in *. lia.
Qed.

Lemma asc_str_total b j : (j < length b)%nat -> exists c, asc_str b j = Some c.
Proof. intros H. unfold asc_str. destruct (lookup_lt_is_Some_2 b j H) as [c ->]. simpl. eauto. Qed.

Lemma asc_eval b j c a : asc_str b j = Some c -> asc b j a = Some (c, a).
Proof. intros E. unfold asc. aunfold. by rewrite E. Qed.

Lemma val_eval b i v a : i <> 5%nat -> val_arr b i = Some v -> val b i a = Some (v, a).
Proof. intros Hi E. unfold val. rewrite decide_False by done. aunfold. by rewrite E. Qed.

Lemma set_product_info_eval b v1 v2 v3 v4 w a : beyond = Some w ->
  val_arr b 1 = Some v1 -> val_arr b 2 = Some v2 -> val_arr b 3 = Some v3 -> val_arr b 4 = Some v4 ->
  set_product_info b a = Some (tt, with_info (fun _ => ProductInfo v1 v2 v3 v4 (u32 w)) a).
Proof.
  intros Ew E1 E2 E3 E4. unfold set_product_info.
  rewrite (bind_eval _ _ a v1 a) by (by apply val_eval). rewrite (bind_eval _ _ a v2 a) by (by apply val_eval).
  rewrite (bind_eval _ _ a v3 a) by (by apply val_eval). rewrite (bind_eval _ _ a v4 a) by (by apply val_eval).
  rewrite (bind_eval _ _ a (u32 w) a); [done|]. unfold val. rewrite decide_True by done. unfold deref. by rewrite Ew.
Qed.

Lemma set_product_info_undefined b a : beyond = None -> set_product_info b a = None.
Proof.
  intros Ew. unfold set_product_info, val. aunfold. repeat case_decide; try done. destruct (val_arr b 1); [|done].
  destruct (val_arr b 2); [|done]. destruct (val_arr b 3); [|done]. destruct (val_arr b 4); [|done]. by rewrite Ew.
Qed.

Lemma set_csq_eval b c4 c5 a : asc_str b 4 = Some c4 -> asc_str b 5 = Some c5 ->
  set_csq b a = Some (tt, with_tr (fun t => TrStat (u32 (digit c4 * 10 + c5 - 48)) (msg_id t) (stat_code t)) a).
Proof.
  intros E4 E5. unfold set_csq. rewrite (bind_eval _ _ a c4 a) by (by apply asc_eval).
  rewrite (bind_eval _ _ a c5 a) by (by apply asc_eval). done.
Qed.

Lemma set_date_time_eval b c4 c5 c6 c7 c8 c9 c10 c11 a :
  asc_str b 4 = Some c4 -> asc_str b 5 = Some c5 -> asc_str b 6 = Some c6 -> asc_str b 7 = Some c7 ->
  asc_str b 8 = Some c8 -> asc_str b 9 = Some c9 -> asc_str b 10 = Some c10 -> asc_str b 11 = Some c11 ->
  set_date_time b a = Some (tt, with_info (fun p => ProductInfo (total p) (qualified_amount p)
    (u32 (digit c4 * 1000 + digit c5 * 100 + digit c6 * 10 + digit c7))
    (u32 (digit c8 * 10 + digit c9)) (u32 (digit c10 * 10 + digit c11))) a).
Proof.
  intros E4 E5 E6 E7 E8 E9 E10 E11. unfold set_date_time.
  rewrite (bind_eval _ _ a c4 a) by (by apply asc_eval). rewrite (bind_eval _ _ a c5 a) by (by apply asc_eval).
  rewrite (bind_eval _ _ a c6 a) by (by apply asc_eval). rewrite (bind_eval _ _ a c7 a) by (by apply asc_eval).
  rewrite (bind_eval _ _ a c8 a) by (by apply asc_eval). rewrite (bind_eval _ _ a c9 a) by (by apply asc_eval).
  rewrite (bind_eval _ _ a c10 a) by (by apply asc_eval). rewrite (bind_eval _ _ a c11 a) by (by apply asc_eval). done.
Qed.

Lemma u32_range z : in_range 32 (u32 z).
Proof. by apply wrap_range. Qed.
Lemma u16_range z : in_range 16 (u16 z).
Proof. by apply wrap_range. Qed.

Lemma next_sample_range a : app_ok a -> in_range 16 (next_sample a).
Proof.
  intros H. unfold next_sample. destruct (a_samples a) as [|[v|] l]; simpl; try apply (proj2 (ap_adc _ H)). apply u16_range.
Qed.

Lemma single_stat_id a : app_ok a -> 0 <= msg_id (single_stat a) <= 999 /\ msg_id (single_stat a) = (msg_id (a_stat a) + 1) mod 1000.
Proof.
  intros H. pose proof (ap_id _ H) as Hi. unfold single_stat. simpl.
  rewrite (wrap_small 32) by (unfold in_range; lia). case_decide.
  - assert (msg_id (a_stat a) = 999) as -> by lia. done.
  - rewrite Z.mod_small by lia. lia.
Qed.

Lemma on_single_ok a : app_ok a -> exists a' tr, on_single a = Some (tt, a') /\ app_ok a' /\ a_trace a' = a_trace a ++ tr.
Proof.
  intros H. destruct (decide (a_ctrl_flow a = 0)) as [Hc|Hc].
  - exists a, []. unfold on_single. aunfold. rewrite bool_decide_false by tauto. by rewrite app_nil_r.
  - pose proof H as [Hf _ _ _ [_ Ht] (_ & _ & Hy & Hm & Hd)]. destruct Hf as [[? _]|[Hf Hn]]; [done|].
    eexists _, _. split; [by apply on_single_eval|]. split; [|done].
    assert (u8 (a_adc_measure_count a - 1) = a_adc_measure_count a - 1) as En by (apply wrap_small; unfold in_range; lia).
    split; cbn [a_res a_info a_stat a_ctrl_flow a_adc_sum a_adc_measure_count a_temp_adc single_res single_info v_measure v_threshold qualified
      total qualified_amount year mon day].
    + rewrite En. case_decide; [left|right]; split; lia.
    + by apply single_stat_id.
    + case_decide; tauto.
    + split; by apply next_sample_range.
    + split; [apply u32_range|done].
    + split_and!; try done; apply u32_range.
Qed.

Lemma on_batch_ok a : app_ok a -> exists a', on_batch a = Some (tt, a') /\ app_ok a' /\ a_trace a' = a_trace a.
Proof.
  intros H. unfold on_batch. aunfold. destruct (decide (a_ctrl_flow a = 0)) as [Hc|Hc].
  - rewrite bool_decide_true by done. destruct a as [res info stat flow adc n temp samples tr].
    destruct H as [H1 H2 H3 [H4 H4'] H5 H6]. awith. cbn in *. destruct samples as [|[v|] l]; cbn -[u16]; eexists; (split; [done|]);
      (split; [|done]); split; try done; cbn; try (right; lia). split; [apply u16_range|done].
  - rewrite bool_decide_false by done. eauto.
Qed.

(** A message whose handler reads behind the buffer. *)
Definition reads_beyond (b : list Z) : Prop := val_arr b 0 = Some 3.
#[export] Instance reads_beyond_dec b : Decision (reads_beyond b).
Proof. unfold reads_beyond. apply _. Defined.

(** Every other message is handled, whatever it holds, and the invariant is kept. *)
Lemma main_step_ok r_buf a : is_Some beyond \/ ~ reads_beyond r_buf -> length r_buf = 20%nat -> app_ok a ->
  exists a' tr, main_step r_buf a = Some (tt, a') /\ app_ok a' /\ a_trace a' = a_trace a ++ tr.
Proof.
  intros Hb3 Hl H.
  assert (forall i, (i < 5)%nat -> exists v, val_arr r_buf i = Some v /\ in_range 32 v) as Hv by (intros; apply val_arr_total; lia).
  assert (forall j, (j < 20)%nat -> exists c, asc_str r_buf j = Some c) as Ha by (intros; apply asc_str_total; lia).
  destruct (Hv 0%nat ltac:(lia)) as (code & E0 & _). unfold main_step. 
  rewrite (bind_eval _ _ a code a) by (aunfold; by rewrite E0).
  assert (exists a', (mret tt : AM unit) a = Some (tt, a') /\ app_ok a' /\ a_trace a' = a_trace a ++ []) as Hskip
    by (exists a; by rewrite app_nil_r).
  assert (exists a' tr, on_single a = Some (tt, a') /\ app_ok a' /\ a_trace a' = a_trace a ++ tr) as Hs by (by apply on_single_ok).
  assert (exists a' tr, on_batch a = Some (tt, a') /\ app_ok a' /\ a_trace a' = a_trace a ++ tr) as Hb.
  { destruct (on_batch_ok a H) as (a' & ? & ? & Et). exists a', []. by rewrite app_nil_r, Et. }
  destruct (decide (code = 1)) as [->|]; [done|]. destruct (decide (code = 9)) as [->|]; [done|].
  destruct (decide (code = 2)) as [->|]; [|destruct (decide (code = 3)) as [->|]; [|destruct (decide (code = 4)) as [->|];
    [|destruct (decide (code = 5)) as [->|]; [|destruct (decide (code = 6)) as [->|]; [|destruct (decide (code = 7)) as [->|];
    [|destruct (decide (code = 8)) as [->|]]]]]]].
  - eexists _, _. split; [done|]. split; [by destruct H|]. simpl. by rewrite <- app_assoc.
  - destruct (Hv 1%nat ltac:(lia)) as (v1 & E1 & R1), (Hv 2%nat ltac:(lia)) as (v2 & E2 & R2),
      (Hv 3%nat ltac:(lia)) as (v3 & E3 & R3), (Hv 4%nat ltac:(lia)) as (v4 & E4 & R4).
    destruct Hb3 as [[w Ew]|?]; [|done].
    eexists _, _. split; [cbv beta iota; erewrite bind_eval by (apply set_product_info_eval; eassumption); done|].
    split; [|simpl; by rewrite <- app_assoc].
    destruct H. split; try done. split_and!; try done. apply u32_range.
  - destruct (Ha 4%nat ltac:(lia)) as (c4 & E4), (Ha 5%nat ltac:(lia)) as (c5 & E5). eexists _, _. split.
    + cbv beta iota; erewrite bind_eval by (apply set_csq_eval; eassumption); done.
    + split; [by destruct H|done].
  - destruct (Ha 4%nat ltac:(lia)) as (c4 & E4), (Ha 5%nat ltac:(lia)) as (c5 & E5), (Ha 6%nat ltac:(lia)) as (c6 & E6),
      (Ha 7%nat ltac:(lia)) as (c7 & E7), (Ha 8%nat ltac:(lia)) as (c8 & E8), (Ha 9%nat ltac:(lia)) as (c9 & E9),
      (Ha 10%nat ltac:(lia)) as (c10 & E10), (Ha 11%nat ltac:(lia)) as (c11 & E11). eexists _, _. split.
    + cbv beta iota; erewrite bind_eval by (apply set_date_time_eval; eassumption); done.
    + split; [|done]. destruct H as [? ? ? ? ? (? & ? & _)]. split; try done. split_and!; try done; apply u32_range.
  - eexists _, _. split; [done|]. split; [|done]. destruct H as [? ? ? ? [? ?] ?]. split; try done. split; [done|apply u32_range].
  - eexists _, _. split; [done|]. split; [|done]. destruct H as [? ? ? ? [? ?] ?]. split; try done. split; [done|apply u32_range].
  - eexists _, _. split; [done|]. split; [by destruct H|done].
  - destruct Hskip as (a' & Ea' & ?). exists a', []. split; [|done]. rewrite <- Ea'.
    clear -n n0 n1 n2 n3 n4 n5 n6 n7. destruct code as [|p|p]; try done.
    do 4 (destruct p as [p|p|]; try done).
Qed.

(** The [while] loop on the messages that arrive. *)
Fixpoint main_loop (msgs : list (list Z)) : AM unit :=
  match msgs with [] => mret tt | b :: msgs => main_step b;; main_loop msgs end.

Lemma main_loop_ok msgs : forall a, is_Some beyond \/ Forall (fun b => ~ reads_beyond b) msgs -> Forall (fun b => length b = 20%nat) msgs -> app_ok a ->
  exists a' tr, main_loop msgs a = Some (tt, a') /\ app_ok a' /\ a_trace a' = a_trace a ++ tr.
Proof.
  induction msgs as [|b msgs IH]; intros a H3 Hl H; [exists a, []; by rewrite app_nil_r|].
  rewrite Forall_cons in H3. apply Forall_cons in Hl as [Hb Hl]. destruct (main_step_ok b a ltac:(tauto) Hb H) as (a1 & tr1 & E1 & H1 & T1).
  destruct (IH a1 ltac:(tauto) Hl H1) as (a2 & tr2 & E2 & H2 & T2). exists a2, (tr1 ++ tr2). simpl. rewrite (bind_eval _ _ _ _ _ E1).
  by rewrite app_assoc, <- T1.
Qed.

Lemma main_start_ok a : in_range 16 (a_temp_adc a) ->
  exists a' tr, main_start true a = Some (true, a') /\ app_ok a' /\ a_trace a' = a_trace a ++ tr.
Proof.
  intros Ht. destruct a as [res info stat flow adc n temp samples tr]. eexists _, _. split; [reflexivity|].
  split; [|awith; rewrite <- !app_assoc; reflexivity].
  split; awith; [by left|done|by left|done|done|done].
Qed.

Lemma main_loop_undefined msgs : forall a, beyond = None -> Forall (fun b => length b = 20%nat) msgs -> app_ok a -> Exists reads_beyond msgs ->
  main_loop msgs a = None.
Proof.
  induction msgs as [|b msgs IH]; intros a Hw Hl H H3; [by apply Exists_nil in H3|]. apply Forall_cons in Hl as [Hb Hl]. simpl.
  destruct (decide (reads_beyond b)) as [Hr|Hr].
  - unfold main_step. aunfold. rewrite Hr. pose proof (set_product_info_undefined b a Hw) as E. by rewrite E.
  - apply Exists_cons in H3 as [?|H3]; [done|]. destruct (main_step_ok b a (or_intror Hr) Hb H) as (a1 & tr1 & E1 & H1 & _).
    rewrite (bind_eval _ _ _ _ _ E1). by apply IH.
Qed.

(** C2: From its start on, the main thread handles every sequence of messages of
    20 bytes, whatever they hold, without an undefined step, except for those of
    code 3 (the logged statistics), whose handler reads a sixth word of the five
    of the receive buffer: where there is no such word to read, the first one of
    them is undefined, and where there is one, they are handled as well. The
    variables stay in their ranges: the flow flag and the countdown agree, the
    message number stays below 1000, the verdict is 0 or 1. *)
Theorem main_runs_for_ever a msgs :
  in_range 16 (a_temp_adc a) -> Forall (fun b => length b = 20%nat) msgs ->
  if decide (beyond = None /\ Exists reads_beyond msgs) then (main_start true;; main_loop msgs) a = None
  else exists a', (main_start true;; main_loop msgs) a = Some (tt, a') /\ app_ok a'.
Proof.
  intros Ht Hl. destruct (main_start_ok a Ht) as (a1 & tr & E1 & H1 & _). rewrite (bind_eval _ _ _ _ _ E1). case_decide as Hc.
  - destruct Hc. by apply main_loop_undefined.
  - destruct (main_loop_ok msgs a1) as (a2 & tr2 & E2 & H2 & _); [|done|done|by exists a2].
    destruct beyond as [w|]; [by left|right]. apply Forall_Exists_neg. tauto.
Qed.

End Main.
