(* ===== verification/AppProps.v ===== *)
(** * AppProps: what the main thread does for its users

    The sorting of a batch of resistors, the messages to the other threads, the
    commands, and the initialisation of what is sent. *)

From S2P Require Import Prelude Bytes AppMain.

(** ** A batch *)

(** The voltage of the resistor that was put down, from two samples of the sum
    (the measured value is doubled), and the verdict. *)
Definition weigh1 (th prev s : Z) : Z * Z :=
  let v := 2 * Z.max 0 (prev - s) in (v, if decide (th < v) then 1 else 0).

Fixpoint weigh (th prev : Z) (ss : list Z) : list (Z * Z) :=
  match ss with [] => [] | s :: ss => weigh1 th prev s :: weigh th s ss end.

(** What the display is told: the voltage, the verdict and the two counters. *)
Fixpoint reports (tot am : Z) (ws : list (Z * Z)) : list (Z * Z * Z * Z) :=
  match ws with
  | [] => []
  | (v, q) :: ws => (v, q, u32 (tot + 1), u32 (am + q)) :: reports (u32 (tot + 1)) (u32 (am + q)) ws
  end.

(** Reading the messages of [send_data_msg]. *)
Definition shown (e : effect) : option (Z * Z * Z * Z) :=
  match e with
  | ESend OutputMq b 20 =>
      v ← val_arr b 1; q ← val_arr b 2; t ← val_arr b 3; m ← val_arr b 4; Some (v, q, t, m)
  | _ => None
  end.

(** How often the interrupt of [pin] is enabled. *)
Definition enables (pin : Z) (tr : list effect) : nat := length (filter (fun e => e = EIrq pin true) tr).

Definition is_code (c : Z) (b : list Z) : Prop := val_arr b 0 = Some c.

Lemma enables_app pin l1 l2 : enables pin (l1 ++ l2) = (enables pin l1 + enables pin l2)%nat.
Proof. unfold enables. by rewrite filter_app, length_app. Qed.

Section app.
Context (sbuf0 : list Z) (beyond : option Z).
Abbreviation main_step := (main_step sbuf0 beyond).
Abbreviation main_loop := (main_loop sbuf0 beyond).

Lemma step_single b a : is_code 1 b -> main_step b a = on_single sbuf0 a.
Proof. intros E. unfold AppMain.main_step. rewrite (bind_eval _ _ a 1 a); [done|]. unfold deref. by rewrite E. Qed.

Lemma step_batch b a : is_code 9 b -> main_step b a = on_batch a.
Proof. intros E. unfold AppMain.main_step. rewrite (bind_eval _ _ a 9 a); [done|]. unfold deref. by rewrite E. Qed.

Lemma data_message_shown r p : length sbuf0 = 20%nat -> in_range 32 (v_measure r) -> in_range 32 (qualified r) ->
  in_range 32 (total p) -> in_range 32 (qualified_amount p) ->
  shown (ESend OutputMq (data_message sbuf0 r p) 20) = Some (v_measure r, qualified r, total p, qualified_amount p).
Proof.
  intros Hl H1 H2 H3 H4. unfold shown, data_message.
  autorewrite with bytes. cbn [mbind option_bind].
  by rewrite !(wrap_small 32) by done.
Qed.

(** One resistor. *)
Lemma single_step b a s ss n :
  length sbuf0 = 20%nat -> app_ok a -> is_code 1 b -> a_ctrl_flow a = 1 -> a_adc_measure_count a = Z.of_nat (S n) ->
  a_samples a = Some s :: ss -> in_range 16 s ->
  let '(v, q) := weigh1 (v_threshold (a_res a)) (a_adc_sum a) s in
  exists a' tr, main_step b a = Some (tt, a') /\ app_ok a' /\ a_trace a' = a_trace a ++ tr /\
    a_ctrl_flow a' = (if decide (n = 0%nat) then 0 else 1) /\ a_adc_measure_count a' = Z.of_nat n /\
    a_samples a' = ss /\ a_adc_sum a' = s /\ v_threshold (a_res a') = v_threshold (a_res a) /\
    total (a_info a') = u32 (total (a_info a) + 1) /\ qualified_amount (a_info a') = u32 (qualified_amount (a_info a) + q) /\
    msg_id (a_stat a') = (msg_id (a_stat a) + 1) mod 1000 /\
    omap shown tr = [(v, q, u32 (total (a_info a) + 1), u32 (qualified_amount (a_info a) + q))] /\
    enables INPUT_SIGNAL tr = 1%nat /\ enables INPUT_SIGNAL2 tr = (if decide (n = 0%nat) then 1%nat else 0%nat).
Proof.
  intros Hl H Hb Hf Hn Hs Hr. destruct (weigh1 _ _ s) as [v q] eqn:Ew.
  pose proof H as [Hfl _ _ [Hadc _] _ _]. destruct Hfl as [[? _]|[_ Hc]]; [lia|]. rewrite Hn in Hc.
  assert (u8 (Z.of_nat (S n) - 1) = Z.of_nat n) as Eu by (rewrite wrap_small; unfold in_range; lia).
  assert (next_sample a = s) as En by (unfold next_sample; rewrite Hs; simpl; by apply wrap_small).
  assert (measured s a = v) as Em.
  { unfold weigh1 in Ew. injection Ew as <- _. unfold measured, in_range in *. destruct (decide (s <= a_adc_sum a)).
    - rewrite (wrap_small 16), (wrap_small 32) by (unfold in_range; lia). lia.
    - rewrite Z.max_l by lia. done. }
  assert (qualified (single_res s a) = q) as Eq by (unfold weigh1 in Ew; injection Ew as Ev <-; simpl; by rewrite Em, <- Ev).
  pose proof (on_single_eval sbuf0 a ltac:(by rewrite Hf)) as E. rewrite En, Hn, Eu, Hs, Hf in E. simpl tail in E.
  set (a1 := App _ _ _ _ _ _ _ _ _) in E.
  destruct (on_single_ok sbuf0 a H) as (a2 & tr2 & E1 & H1 & _). rewrite E in E1. injection E1 as <-.
  pose proof H1 as [_ _ Hq _ [Hv1 _] (Ht1 & Hm1 & _)].
  exists a1, (single_trace sbuf0 s a). rewrite (step_single b a Hb).
  split; [done|]. split; [done|]. split; [done|]. subst a1. cbn [a_ctrl_flow a_adc_measure_count a_samples a_adc_sum a_res a_info a_stat] in *.
  assert ((if decide (Z.of_nat n = 0) then 0 else 1) = (if decide (n = 0%nat) then 0 else 1)) as ->
    by (destruct (decide (n = 0%nat)) as [->|]; [done|]; by rewrite decide_False by lia).
  pose proof (single_stat_id a H) as [_ Hid].
  split; [done|]. split; [done|]. split; [done|]. split; [done|]. split; [done|]. split; [done|].
  split; [by rewrite <- Eq|]. split; [done|].
  unfold single_trace. rewrite Hn, Eu.
  assert (shown (ESend OutputMq (data_message sbuf0 (single_res s a) (single_info s a)) 20) =
    Some (v, q, u32 (total (a_info a) + 1), u32 (qualified_amount (a_info a) + q))) as Es.
  { rewrite data_message_shown; [|done..|destruct Hq as [-> | ->]; done|done|done]. cbn [v_measure single_res total qualified_amount single_info].
    by rewrite Em, Eq. }
  split; [|split].
  - cbn [Datatypes.app omap list_omap]. rewrite Es. simpl. by destruct (decide (Z.of_nat n = 0)).
  - unfold enables. destruct (decide (Z.of_nat n = 0)); reflexivity.
  - destruct (decide (n = 0%nat)) as [->|]; [reflexivity|]. by rewrite decide_False by lia.
Qed.

Definition passed (ws : list (Z * Z)) : Z := foldr (fun w n => snd w + n) 0 ws.

Lemma singles_run : forall ss msgs a later,
  length sbuf0 = 20%nat -> app_ok a -> Forall (is_code 1) msgs -> length msgs = length ss -> Forall (in_range 16) ss ->
  a_ctrl_flow a = (if decide (length ss = 0%nat) then 0 else 1) -> a_adc_measure_count a = Z.of_nat (length ss) ->
  a_samples a = map Some ss ++ later ->
  let ws := weigh (v_threshold (a_res a)) (a_adc_sum a) ss in
  exists a' tr, main_loop msgs a = Some (tt, a') /\ app_ok a' /\ a_trace a' = a_trace a ++ tr /\
    a_ctrl_flow a' = 0 /\ a_samples a' = later /\ v_threshold (a_res a') = v_threshold (a_res a) /\
    total (a_info a') = u32 (total (a_info a) + Z.of_nat (length ss)) /\
    qualified_amount (a_info a') = u32 (qualified_amount (a_info a) + passed ws) /\
    msg_id (a_stat a') = (msg_id (a_stat a) + Z.of_nat (length ss)) mod 1000 /\
    omap shown tr = reports (total (a_info a)) (qualified_amount (a_info a)) ws /\
    enables INPUT_SIGNAL tr = length ss /\ enables INPUT_SIGNAL2 tr = (if decide (length ss = 0%nat) then 0%nat else 1%nat).
Proof.
  induction ss as [|s ss IH]; intros [|b msgs] a later Hl H Hc Hlen Hr Hf Hn Hs; try done.
  - pose proof H as [_ Hid _ _ _ (Ht & Hm & _)]. exists a, []. rewrite app_nil_r. simpl in *. rewrite !Z.add_0_r.
    rewrite !(wrap_small 32), Z.mod_small by (done || lia). done.
  - apply Forall_cons in Hc as [Hb Hc]. apply Forall_cons in Hr as [Hr1 Hr]. injection Hlen as Hlen.
    pose proof (single_step b a s (map Some ss ++ later) (length ss) Hl H Hb Hf Hn Hs Hr1) as Hstep.
    simpl weigh. destruct (weigh1 _ _ s) as [v q] eqn:Ew.
    destruct Hstep as (a1 & tr1 & E1 & H1 & T1 & F1 & N1 & S1 & A1 & V1 & To1 & Q1 & I1 & O1 & P1 & R1).
    destruct (IH msgs a1 later Hl H1 Hc Hlen Hr F1 N1 S1) as (a2 & tr2 & E2 & H2 & T2 & F2 & S2 & V2 & To2 & Q2 & I2 & O2 & P2 & R2).
    exists a2, (tr1 ++ tr2). rewrite V1, A1 in *. rewrite To1, Q1 in *. rewrite I1 in *.
    split; [simpl; by rewrite (bind_eval _ _ _ _ _ E1)|]. split; [done|]. split; [by rewrite T2, T1, app_assoc|].
    split; [done|]. split; [done|]. split; [done|].
    split; [rewrite To2, wrap_add_l; f_equal; simpl length; lia|].
    split; [rewrite Q2, wrap_add_l; f_equal; simpl; lia|].
    split; [rewrite I2, Zplus_mod_idemp_l; f_equal; simpl length; lia|].
    split; [rewrite omap_app, O1, O2; done|].
    split; [rewrite enables_app, P1, P2; done|]. rewrite enables_app, R1, R2. simpl. by case_decide.
Qed.

(** C1: A batch of six resistors: after the pick-up message and six put-down
    messages, each resistor's voltage is twice the drop of the ADC sum (never
    below 0), its verdict compares that with the threshold, the display is told
    voltage, verdict and both counters in order, the counters and the message
    number advance accordingly, and the put-down interrupt has been enabled six
    times and the pick-up interrupt once. *)
Theorem batch_is_sorted pick singles s0 ss later a :
  length sbuf0 = 20%nat -> app_ok a -> a_ctrl_flow a = 0 ->
  is_code 9 pick -> Forall (is_code 1) singles -> length singles = 6%nat -> length ss = 6%nat ->
  Forall (in_range 16) (s0 :: ss) -> a_samples a = map Some (s0 :: ss) ++ later ->
  let ws := weigh (v_threshold (a_res a)) s0 ss in
  exists a' tr, main_loop (pick :: singles) a = Some (tt, a') /\ app_ok a' /\ a_trace a' = a_trace a ++ tr /\
    a_ctrl_flow a' = 0 /\ a_samples a' = later /\
    total (a_info a') = u32 (total (a_info a) + 6) /\
    qualified_amount (a_info a') = u32 (qualified_amount (a_info a) + passed ws) /\
    msg_id (a_stat a') = (msg_id (a_stat a) + 6) mod 1000 /\
    omap shown tr = reports (total (a_info a)) (qualified_amount (a_info a)) ws /\
    enables INPUT_SIGNAL tr = 6%nat /\ enables INPUT_SIGNAL2 tr = 1%nat.
Proof.
  intros Hl H Hf Hb Hc Hn6 Hl6 Hr Hs. apply Forall_cons in Hr as [Hr0 Hr].
  destruct (on_batch_ok a H) as (a1 & E1 & H1 & T1). simpl. rewrite (bind_eval _ _ a tt a1) by (by rewrite step_batch).
  assert (a_ctrl_flow a1 = 1 /\ a_adc_measure_count a1 = 6 /\ a_samples a1 = map Some ss ++ later /\ a_adc_sum a1 = s0 /\
    a_res a1 = a_res a /\ a_info a1 = a_info a /\ a_stat a1 = a_stat a) as (F1 & N1 & S1 & A1 & R1 & I1 & St1).
  { clear -E1 Hf Hs Hr0. destruct a as [res info stat flow adc n temp samples tr]. simpl in Hf, Hs. subst.
    revert E1. unfold on_batch. aunfold. awith. rewrite bool_decide_true by done. intros [= <-]. simpl.
    split_and!; try done. by apply wrap_small. }
  destruct (singles_run ss singles a1 later Hl H1 Hc ltac:(congruence) Hr) as (a2 & tr & E2 & H2 & T2 & F2 & S2 & _ & To2 & Q2 & Id2 & O2 & P2 & R2);
    [by rewrite Hl6|by rewrite Hl6|done|].
  rewrite R1, A1, I1, St1, T1, Hl6 in *. by exists a2, tr.
Qed.

(** ** The input interrupt *)

(** Computations that never enable the input interrupt. *)
Definition quiet {A} (m : AM A) : Prop := forall a x a', m a = Some (x, a') ->
  exists tr, a_trace a' = a_trace a ++ tr /\ enables INPUT_SIGNAL tr = 0%nat.

Lemma quiet_bind {A B} (m : AM A) (f : A -> AM B) : quiet m -> (forall x, quiet (f x)) -> quiet (m ≫= f).
Proof.
  intros Hm Hf a y a' (x & a1 & E1 & E2)%bind_Some. destruct (Hm _ _ _ E1) as (t1 & T1 & N1).
  destruct (Hf x _ _ _ E2) as (t2 & T2 & N2). exists (t1 ++ t2). by rewrite T2, T1, app_assoc, enables_app, N1, N2.
Qed.

Lemma quiet_keep {A} (m : AM A) : (forall a x a', m a = Some (x, a') -> a_trace a' = a_trace a) -> quiet m.
Proof. intros H a x a' E. exists []. by rewrite app_nil_r, (H _ _ _ E). Qed.

Lemma quiet_ret {A} (x : A) : quiet (mret x).
Proof. by apply quiet_keep; intros a y a' [= <- <-]. Qed.
Lemma quiet_gets {A} (f : AppMain.app -> A) : quiet (gets f).
Proof. by apply quiet_keep; intros a y a' [= <- <-]. Qed.
Lemma quiet_modify f : (forall a, a_trace (f a) = a_trace a) -> quiet (modify f).
Proof. intros H. apply quiet_keep. intros a y a' [= <- <-]. apply H. Qed.
Lemma quiet_deref {A} (f : AppMain.app -> option A) : quiet (deref f).
Proof. apply quiet_keep. unfold deref. intros a y a' E. destruct (f a); by simplify_eq. Qed.
Lemma quiet_emit e : e <> EIrq INPUT_SIGNAL true -> quiet (emit e).
Proof. intros H a y a' [= <- <-]. exists [e]. split; [done|]. unfold enables. by rewrite filter_cons_False. Qed.
Lemma quiet_read old : quiet (read_adc old).
Proof.
  apply quiet_bind; [apply quiet_gets|]. intros [|v l]; [apply quiet_ret|].
  apply quiet_bind; [by apply quiet_modify|intros _; apply quiet_ret].
Qed.
Lemma quiet_when b (m : AM unit) : quiet m -> quiet (when b m).
Proof. destruct b; [done|]. intros _. apply quiet_ret. Qed.
Lemma quiet_val b i : quiet (val beyond b i).
Proof. unfold val. case_decide; apply quiet_deref. Qed.

Ltac quiet := repeat match goal with
  | |- forall _, _ => intros ?
  | |- quiet (_ ≫= _) => apply quiet_bind
  | |- quiet (mret _) => apply quiet_ret
  | |- quiet (gets _) => apply quiet_gets
  | |- quiet (deref _) => apply quiet_deref
  | |- quiet (modify _) => apply quiet_modify; done
  | |- quiet (emit _) => apply quiet_emit; done
  | |- quiet (read_adc _) => apply quiet_read
  | |- quiet (val _ _ _) => apply quiet_val
  | |- quiet (when _ _) => apply quiet_when
  end.

Lemma main_step_quiet b : ~ is_code 1 b -> quiet (main_step b).
Proof.
  intros Hc a x a' (c & a1 & E1 & E2)%bind_Some. unfold is_code in Hc. unfold deref in E1.
  destruct (val_arr b 0) as [c'|]; [|done]. injection E1 as <- <-. revert E2.
  revert a x a'. change (quiet (match c' with
    | 1 => on_single sbuf0
    | 2 => send_info_to_file_msg sbuf0;; send_date_to_file_msg sbuf0
    | 3 => set_product_info beyond b;; send_rtc_msg sbuf0;; send_product_info_msg sbuf0
    | 4 => set_csq b;; send_csq sbuf0
    | 5 => set_date_time b;; send_rtc_msg sbuf0
    | 6 => change_threshold 10;; send_v_threshold_msg sbuf0
    | 7 => change_threshold (-10);; send_v_threshold_msg sbuf0
    | 8 => send_msg_id_msg sbuf0
    | 9 => on_batch
    | _ => mret tt
    end)).
  assert (c' <> 1) as Hc1 by (by intros ->).
  repeat case_match; subst; try done; unfold send_info_to_file_msg, send_date_to_file_msg, set_product_info, send_rtc_msg,
    send_product_info_msg, set_csq, send_csq, set_date_time, change_threshold, send_v_threshold_msg, send_msg_id_msg, on_batch, asc; quiet.
Qed.

Lemma main_loop_quiet msgs : Forall (fun b => ~ is_code 1 b) msgs -> quiet (main_loop msgs).
Proof.
  induction 1 as [|b msgs Hb _ IH]; simpl; [apply quiet_ret|]. apply quiet_bind; [by apply main_step_quiet|done].
Qed.

(** A put-down pulse between two batches disables the put-down interrupt,
    and the main thread does not enable it again, whatever messages follow until
    one says that a resistor was put down. *)
Theorem spurious_pulse_blocks_input pulse a :
  is_code 1 pulse -> a_ctrl_flow a = 0 ->
  let a1 := with_trace (fun tr => tr ++ [EIrq INPUT_SIGNAL false; ESend MainMq (set_val 0 1 (replicate 4 0)) 4]) a in
  (input_interrupt_isr;; main_step pulse) a = Some (tt, a1) /\
  forall msgs a', Forall (fun b => ~ is_code 1 b) msgs -> main_loop msgs a1 = Some (tt, a') ->
    exists tr, a_trace a' = a_trace a1 ++ tr /\ enables INPUT_SIGNAL tr = 0%nat.
Proof.
  intros Hp Hf a1. split.
  - assert (input_interrupt_isr a = Some (tt, a1)) as Ei.
    { unfold input_interrupt_isr, emit, modify, mbind, M_bind, a1, with_trace. simpl. by rewrite <- app_assoc. }
    rewrite (bind_eval _ _ _ _ _ Ei). rewrite step_single by done. unfold on_single, gets, when, mbind, M_bind.
    change (a_ctrl_flow a1) with (a_ctrl_flow a). rewrite Hf. by rewrite bool_decide_false by tauto.
  - intros msgs a' Hm E. by apply (main_loop_quiet msgs Hm a1 tt a').
Qed.

(** ** Commands *)

(** The threshold buttons change the threshold by 10 modulo 2^32 and send
    the new value to the display: below 10 the button that lowers it makes it
    more than four billion. *)
Theorem threshold_button b a (up : bool) :
  length sbuf0 = 20%nat -> app_ok a -> is_code (if up then 6 else 7) b ->
  let th := v_threshold (a_res a) in
  let th' := if up then u32 (th + 10) else if decide (10 <= th) then th - 10 else th + 2 ^ 32 - 10 in
  exists m, main_step b a = Some (tt, with_trace (fun tr => tr ++ [ESend OutputMq m 8])
      (with_res (fun r => ResParas (v_measure r) th' (qualified r)) a)) /\
    val_arr m 0 = Some 2 /\ val_arr m 1 = Some th'.
Proof.
  intros Hl H Hb th th'. pose proof (ap_res _ H) as [_ Hth]. fold th in Hth.
  exists (set_val 1 th' (set_val 0 2 sbuf0)).
  assert (u32 th' = th') as Ew.
  { unfold th', in_range in *. destruct up; [by rewrite wrap_wrap|]. apply wrap_small. unfold in_range.
    destruct (decide (10 <= th)); lia. }
  split; [|autorewrite with bytes; by rewrite Ew].
  unfold AppMain.main_step. rewrite (bind_eval _ _ a (if up then 6 else 7) a) by (unfold deref; by rewrite Hb).
  destruct up; [done|]. unfold change_threshold, send_v_threshold_msg. aunfold.
  assert (u32 (v_threshold (a_res a) + -10) = th') as E'.
  { fold th. unfold th', in_range in *. case_decide; [rewrite wrap_small by (unfold in_range; lia); lia|].
    rewrite wrap_neg_small by lia. lia. }
  destruct a as [[vm vt q] info stat flow adc n temp samples tr]. cbn [a_res v_threshold] in *. awith. by rewrite E'.
Qed.

(** ** Numbers as decimal digits *)

(** The number that the [n] characters from [i] on spell. *)
Definition decimal (b : list Z) (i n : nat) : option Z :=
  foldl (fun acc j => v ← acc; c ← asc_str b j; if decide (48 <= c <= 57) then Some (10 * v + (c - 48)) else None)
    (Some 0) (seq i n).

Lemma decimal_S b i n v c : decimal b i n = Some v -> asc_str b (i + n) = Some c -> 48 <= c <= 57 ->
  decimal b i (S n) = Some (10 * v + (c - 48)).
Proof. unfold decimal. intros E Ec Hc. rewrite seq_S, foldl_snoc, E. simpl. rewrite Ec. simpl. by rewrite decide_True. Qed.

Lemma decimal_inv b i n v : decimal b i (S n) = Some v ->
  exists u c, decimal b i n = Some u /\ asc_str b (i + n) = Some c /\ 48 <= c <= 57 /\ v = 10 * u + (c - 48).
Proof.
  unfold decimal. rewrite seq_S, foldl_snoc. destruct (foldl _ _ _) as [u|]; [|done]. simpl.
  destruct (asc_str b (i + n)) as [c|]; [|done]. simpl. case_decide; [|done]. intros [= <-]. by exists u, c.
Qed.

Lemma decimal_digits b i ds : (forall k d, ds !! k = Some d -> 0 <= d <= 9 /\ asc_str b (i + k) = Some (d + 48)) ->
  decimal b i (length ds) = Some (foldl (fun u d => 10 * u + d) 0 ds).
Proof.
  induction ds as [|d ds IH] using rev_ind; intros H; [done|].
  rewrite length_app, foldl_app. simpl length. rewrite Nat.add_1_r.
  destruct (H (length ds) d) as [Hd Ed]; [by rewrite lookup_app_r, Nat.sub_diag by lia|].
  rewrite (decimal_S b i (length ds) (foldl (fun u d => 10 * u + d) 0 ds) (d + 48)); [simpl; f_equal; lia| |done|lia].
  apply IH. intros k d' E. apply H. by apply lookup_app_l_Some.
Qed.

Lemma decimal_intro b i ds v : v = foldl (fun u d => 10 * u + d) 0 ds -> Forall (fun d => 0 <= d <= 9) ds ->
  (forall k d, ds !! k = Some d -> asc_str b (i + k) = Some (d + 48)) -> decimal b i (length ds) = Some v.
Proof.
  intros -> Hd H. apply decimal_digits. intros k d E. rewrite Forall_forall in Hd. split; [|by apply H].
  apply Hd. by eapply list_elem_of_lookup_2.
Qed.

Ltac digits := rewrite !Forall_cons; split_and!; try apply Forall_nil; lia.

(** The digits of the message for the NB-IoT thread; the hundreds digit of the
    threshold is always 0. *)
Lemma nb_message_spells r t :
  length sbuf0 = 20%nat -> 0 <= v_measure r <= 9999 -> 0 <= v_threshold r <= 9999 -> 0 <= msg_id t <= 999 ->
  qualified r = 0 \/ qualified r = 1 ->
  let m := nb_message sbuf0 r t in
  is_code 1 m /\ decimal m 4 4 = Some (v_measure r) /\ decimal m 8 1 = Some (qualified r) /\
  decimal m 9 3 = Some (msg_id t) /\
  decimal m 12 4 = Some (v_threshold r - 100 * (v_threshold r / 100 mod 10)).
Proof.
  intros Hl Hv Ht Hi Hq m. unfold m, nb_message, is_code.
  set (v := v_measure r) in *. set (th := v_threshold r) in *. set (id := msg_id t) in *. set (q := qualified r) in *.
  split; [autorewrite with bytes; done|].
  assert (forall j c (b : list Z), (j < length b)%nat -> 0 <= c < 128 -> asc_str (set_asc j c b) j = Some c) as Ea
    by (intros; rewrite asc_set, s8_small by done; done).
  assert (0 <= v / 1000 <= 9 /\ 0 <= (v mod 1000) / 100 <= 9 /\ 0 <= (v mod 100) / 10 <= 9 /\ 0 <= v mod 10 <= 9) as (V1 & V2 & V3 & V4)
    by (Z.div_mod_to_equations; lia).
  assert (0 <= th / 1000 <= 9 /\ (th mod 100) / 100 = 0 /\ 0 <= (th mod 100) / 10 <= 9 /\ 0 <= th mod 10 <= 9) as (T1 & T2 & T3 & T4)
    by (Z.div_mod_to_equations; lia).
  assert (0 <= id / 100 <= 9 /\ 0 <= (id mod 100) / 10 <= 9 /\ 0 <= id mod 10 <= 9) as (I1 & I2 & I3)
    by (Z.div_mod_to_equations; lia).
  split; [apply (decimal_intro _ 4 [v / 1000; (v mod 1000) / 100; (v mod 100) / 10; v mod 10]);
    [simpl; Z.div_mod_to_equations; lia|digits|]|].
  { intros [|[|[|[|k]]]] d [= <-]; simpl; rewrite ?asc_set_ne by lia; apply Ea; autorewrite with bytes; lia. }
  split; [apply (decimal_intro _ 8 [q]); [done|digits|]|].
  { intros [|k] d [= <-]; simpl; rewrite ?asc_set_ne by lia; apply Ea; autorewrite with bytes; lia. }
  split; [apply (decimal_intro _ 9 [id / 100; (id mod 100) / 10; id mod 10]);
    [simpl; Z.div_mod_to_equations; lia|digits|]|].
  { intros [|[|[|k]]] d [= <-]; simpl; rewrite ?asc_set_ne by lia; apply Ea; autorewrite with bytes; lia. }
  apply (decimal_intro _ 12 [th / 1000; (th mod 100) / 100; (th mod 100) / 10; th mod 10]);
    [simpl; Z.div_mod_to_equations; lia|rewrite T2; digits|].
  intros [|[|[|[|k]]]] d [= <-]; simpl; rewrite ?asc_set_ne by lia; apply Ea; autorewrite with bytes; lia.
Qed.

Lemma decimal_0 b i u : decimal b i 0 = Some u -> u = 0.
Proof. by intros [= <-]. Qed.

Lemma rtc_message p : length sbuf0 = 20%nat -> in_range 32 (year p) -> in_range 32 (mon p) -> in_range 32 (day p) ->
  let m := set_val 3 (day p) (set_val 2 (mon p) (set_val 1 (year p) (set_val 0 3 sbuf0))) in
  val_arr m 0 = Some 3 /\ val_arr m 1 = Some (year p) /\ val_arr m 2 = Some (mon p) /\ val_arr m 3 = Some (day p).
Proof. intros Hl H1 H2 H3 m. unfold m. autorewrite with bytes. by rewrite !(wrap_small 32) by done. Qed.

(** A message with code 5 sets the date its digits spell. *)
Lemma set_date_step b a y mo d :
  length sbuf0 = 20%nat -> is_code 5 b -> decimal b 4 4 = Some y -> decimal b 8 2 = Some mo -> decimal b 10 2 = Some d ->
  exists m, main_step b a = Some (tt, with_trace (fun tr => tr ++ [ESend OutputMq m 16])
      (with_info (fun p => ProductInfo (total p) (qualified_amount p) y mo d) a)) /\
    val_arr m 0 = Some 3 /\ val_arr m 1 = Some y /\ val_arr m 2 = Some mo /\ val_arr m 3 = Some d.
Proof.
  intros Hl Hb (y3 & c7 & (y2 & c6 & (y1 & c5 & (y0 & c4 & ->%decimal_0 & E4 & R4 & ->)%decimal_inv & E5 & R5 & ->)%decimal_inv
    & E6 & R6 & ->)%decimal_inv & E7 & R7 & ->)%decimal_inv
    (m1 & c9 & (m0 & c8 & ->%decimal_0 & E8 & R8 & ->)%decimal_inv & E9 & R9 & ->)%decimal_inv
    (d1 & c11 & (d0 & c10 & ->%decimal_0 & E10 & R10 & ->)%decimal_inv & E11 & R11 & ->)%decimal_inv.
  set (p' := ProductInfo (total (a_info a)) (qualified_amount (a_info a))
    (10 * (10 * (10 * (10 * 0 + (c4 - 48)) + (c5 - 48)) + (c6 - 48)) + (c7 - 48))
    (10 * (10 * 0 + (c8 - 48)) + (c9 - 48)) (10 * (10 * 0 + (c10 - 48)) + (c11 - 48))).
  eexists. split; [|apply (rtc_message p'); unfold in_range; simpl; lia].
  unfold AppMain.main_step. rewrite (bind_eval _ _ a 5 a) by (unfold deref; by rewrite Hb).
  erewrite bind_eval by (apply set_date_time_eval; eassumption). unfold send_rtc_msg. aunfold.
  assert (u32 (digit c4 * 1000 + digit c5 * 100 + digit c6 * 10 + digit c7) = year p') as ->
    by (unfold digit; simpl; rewrite wrap_small by (unfold in_range; lia); lia).
  assert (u32 (digit c8 * 10 + digit c9) = mon p') as ->
    by (unfold digit; simpl; rewrite wrap_small by (unfold in_range; lia); lia).
  assert (u32 (digit c10 * 10 + digit c11) = day p') as ->
    by (unfold digit; simpl; rewrite wrap_small by (unfold in_range; lia); lia).
  destruct a. done.
Qed.

(** The log message has six words, the receive buffer of [main] holds five. *)
Lemma restore_step b a t q y mo w : beyond = Some w ->
  length sbuf0 = 20%nat -> is_code 3 b ->
  val_arr b 1 = Some t -> val_arr b 2 = Some q -> val_arr b 3 = Some y -> val_arr b 4 = Some mo ->
  exists a' m1 m2, main_step b a = Some (tt, a') /\ a_trace a' = a_trace a ++ [ESend OutputMq m1 16; ESend OutputMq m2 12] /\
    a_info a' = ProductInfo t q y mo (u32 w) /\
    val_arr m1 0 = Some 3 /\ val_arr m1 1 = Some (u32 y) /\ val_arr m1 2 = Some (u32 mo) /\ val_arr m1 3 = Some (u32 w).
Proof.
  intros Hw Hl Hb E1 E2 E3 E4. unfold AppMain.main_step. rewrite (bind_eval _ _ a 3 a) by (unfold deref; by rewrite Hb).
  erewrite bind_eval by (apply set_product_info_eval; eassumption). eexists _, _, _. split; [done|].
  split; [simpl; by rewrite <- app_assoc|]. split; [done|]. cbn [a_info with_info]. autorewrite with bytes. by rewrite wrap_wrap.
Qed.
End app.

(** ** What is sent has been written *)

(** What the receiver of a message can see of it. *)
Definition sent_bytes (e : effect) : effect := match e with ESend q b n => ESend q (take n b) n | e => e end.
Definition view (a : AppMain.app) : AppMain.app := with_trace (map sent_bytes) a.

(** Buffers of a message that agree on what has been written so far. *)
Definition agree (n : nat) (b1 b2 : list Z) : Prop :=
  length b1 = 20%nat /\ length b2 = 20%nat /\ forall j, (j < n)%nat -> b1 !! j = b2 !! j.

Lemma agree_val i v b1 b2 : (i < 5)%nat -> agree (4 * i) b1 b2 -> agree (4 * S i) (set_val i v b1) (set_val i v b2).
Proof.
  intros Hi (L1 & L2 & H). split_and!; [by rewrite length_set_val..|]. intros j Hj.
  destruct (decide (j < 4 * i)%nat); [rewrite !set_val_other by lia; by apply H|].
  destruct (set_val_bytes i v b1) as (A0 & A1 & A2 & A3); [lia|]. destruct (set_val_bytes i v b2) as (B0 & B1 & B2 & B3); [lia|].
  assert (j = 4 * i \/ j = 4 * i + 1 \/ j = 4 * i + 2 \/ j = 4 * i + 3)%nat as [->|[->|[->| ->]]] by lia; congruence.
Qed.

Lemma agree_asc j c b1 b2 : (j < 20)%nat -> agree j b1 b2 -> agree (S j) (set_asc j c b1) (set_asc j c b2).
Proof.
  intros Hj (L1 & L2 & H). split_and!; [by rewrite length_set_asc..|]. unfold set_asc. intros i Hi.
  destruct (decide (i = j)) as [->|]; [by rewrite !list_lookup_insert_eq by lia|].
  rewrite !list_lookup_insert_ne by done. apply H. lia.
Qed.

Lemma agree_0 b1 b2 : length b1 = 20%nat -> length b2 = 20%nat -> agree (4 * 0) b1 b2.
Proof. intros. split_and!; [done|done|]. lia. Qed.

Lemma agree_sent q n b1 b2 : agree n b1 b2 -> sent_bytes (ESend q b1 n) = sent_bytes (ESend q b2 n).
Proof.
  intros (L1 & L2 & H). simpl. f_equal. apply list_eq. intros i. destruct (decide (i < n)%nat).
  - rewrite !lookup_take_lt by done. by apply H.
  - by rewrite !lookup_take_ge by lia.
Qed.

(** Two computations that start from, and lead to, states with the same view. *)
Definition same {A} (m1 m2 : AM A) : Prop := forall a1 a2, view a1 = view a2 ->
  match m1 a1, m2 a2 with
  | Some (x1, a1'), Some (x2, a2') => x1 = x2 /\ view a1' = view a2'
  | None, None => True
  | _, _ => False
  end.

Lemma same_bind {A B} (m1 m2 : AM A) (f1 f2 : A -> AM B) :
  same m1 m2 -> (forall x, same (f1 x) (f2 x)) -> same (m1 ≫= f1) (m2 ≫= f2).
Proof.
  intros Hm Hf a1 a2 Ha. unfold mbind, M_bind. specialize (Hm a1 a2 Ha).
  destruct (m1 a1) as [[x1 a1']|], (m2 a2) as [[x2 a2']|]; try done. destruct Hm as [-> Hv]. by apply Hf.
Qed.

Lemma view_inj a1 a2 : view a1 = view a2 ->
  a_res a1 = a_res a2 /\ a_info a1 = a_info a2 /\ a_stat a1 = a_stat a2 /\ a_ctrl_flow a1 = a_ctrl_flow a2 /\
  a_adc_sum a1 = a_adc_sum a2 /\ a_adc_measure_count a1 = a_adc_measure_count a2 /\ a_temp_adc a1 = a_temp_adc a2 /\
  a_samples a1 = a_samples a2 /\ map sent_bytes (a_trace a1) = map sent_bytes (a_trace a2).
Proof. unfold view, with_trace. intros [=]. done. Qed.

Lemma same_gets {A} (f : AppMain.app -> A) : (forall a, f (view a) = f a) -> same (gets f) (gets f).
Proof. intros Hf a1 a2 Ha. simpl. split; [|done]. by rewrite <- (Hf a1), Ha. Qed.
Lemma same_modify f : (forall a, f (view a) = view (f a)) -> same (modify f) (modify f).
Proof. intros Hf a1 a2 Ha. simpl. split; [done|]. by rewrite <- !Hf, Ha. Qed.
Lemma same_const {A} (o : option A) : same (deref (fun _ => o)) (deref (fun _ => o)).
Proof. intros a1 a2 Ha. unfold deref. by destruct o. Qed.
Lemma same_ret {A} (x : A) : same (mret x) (mret x).
Proof. by intros a1 a2 Ha. Qed.
Lemma same_emit e1 e2 : sent_bytes e1 = sent_bytes e2 -> same (emit e1) (emit e2).
Proof.
  intros He a1 a2 Ha. simpl. split; [done|]. destruct (view_inj _ _ Ha) as (E1&E2&E3&E4&E5&E6&E7&E8&E9).
  unfold view, with_trace. cbn -[sent_bytes]. by rewrite !map_app, E1, E2, E3, E4, E5, E6, E7, E8, E9; cbn -[sent_bytes]; rewrite He.
Qed.
Lemma same_when b (m1 m2 : AM unit) : same m1 m2 -> same (when b m1) (when b m2).
Proof. destruct b; [done|]. intros _. apply same_ret. Qed.
Lemma same_read old : same (read_adc old) (read_adc old).
Proof.
  apply same_bind; [by apply same_gets|]. intros [|v l]; [apply same_ret|].
  apply same_bind; [by apply same_modify|intros _; apply same_ret].
Qed.
Lemma same_val beyond b i : same (val beyond b i) (val beyond b i).
Proof. unfold val. case_decide; apply same_const. Qed.

Ltac same := repeat match goal with
  | |- forall _, _ => intros ?
  | |- same (_ ≫= _) (_ ≫= _) => apply same_bind
  | |- same (mret _) _ => apply same_ret
  | |- same (gets _) _ => apply same_gets; done
  | |- same (deref _) _ => apply same_const
  | |- same (modify _) _ => apply same_modify; done
  | |- same (read_adc _) _ => apply same_read
  | |- same (val _ _ _) _ => apply same_val
  | |- same (when _ _) _ => apply same_when
  | |- same (emit (ESend _ _ _)) _ => apply same_emit
  | |- same (emit _) _ => apply same_emit; reflexivity
  | |- same (if decide ?P then _ else _) _ => destruct (decide P)
  end.

Section two_stacks.
Context (s1 s2 : list Z) (beyond : option Z) (L1 : length s1 = 20%nat) (L2 : length s2 = 20%nat).

Lemma agree_v0 v : agree 4 (set_val 0 v s1) (set_val 0 v s2).
Proof. apply (agree_val 0); [lia|by apply agree_0]. Qed.

Ltac sends := unfold send_v_threshold_msg, send_rtc_msg, send_data_msg, send_product_info_msg, send_csq, send_msg_id_msg,
  send_nb_msg, send_info_to_file_msg, send_date_to_file_msg.

(** The words are written from the first on, without a gap. *)
Ltac filled := apply agree_sent; unfold nb_message; repeat first
  [ apply agree_v0 | apply (agree_val 4); [lia|] | apply (agree_val 3); [lia|] | apply (agree_val 2); [lia|]
  | apply (agree_val 1); [lia|] | apply agree_asc; [lia|] ].

Lemma same_single : same (on_single s1) (on_single s2).
Proof. unfold on_single, set_v_measure, set_qualified, add_porduct, set_output, set_msg_id. sends. same; filled. Qed.

Lemma same_step b : same (main_step s1 beyond b) (main_step s2 beyond b).
Proof.
  unfold main_step. apply same_bind; [apply same_const|]. intros c.
  pose proof same_single.
  repeat case_match; try done; unfold set_product_info, set_csq, set_date_time, change_threshold, on_batch, asc; sends; same; filled.
Qed.

Lemma same_loop msgs : same (main_loop s1 beyond msgs) (main_loop s2 beyond msgs).
Proof. induction msgs as [|b msgs IH]; simpl; [apply same_ret|]. apply same_bind; [apply same_step|done]. Qed.

Lemma same_start : same (main_start s1 true) (main_start s2 true).
Proof. unfold main_start, init_datastructure, init_rtc_time. sends. same; filled. Qed.

(** C11: What the main thread does, the bytes of its messages included, does not
    depend on the uninitialised stack memory its message buffers start with. *)
Theorem no_stack_garbage_is_sent msgs a :
  (view ∘ snd) <$> (main_start s1 true;; main_loop s1 beyond msgs) a =
  (view ∘ snd) <$> (main_start s2 true;; main_loop s2 beyond msgs) a.
Proof.
  assert (same (main_start s1 true;; main_loop s1 beyond msgs) (main_start s2 true;; main_loop s2 beyond msgs)) as H.
  { apply same_bind; [apply same_start|intros _; apply same_loop]. }
  specialize (H a a eq_refl).
  destruct ((main_start s1 true;; _) a) as [[[] a1]|], ((main_start s2 true;; _) a) as [[[] a2]|]; try done.
  simpl. by destruct H as [_ ->].
Qed.
End two_stacks.

(** ** Examples *)

Definition demo_stack : list Z := replicate 20 170.
Definition demo_msg (c : Z) : list Z := set_val 0 c (replicate 20 0).

(** Between two batches, with the samples of the next one. *)
Definition demo_app : AppMain.app := App (ResParas 0 350 0) (ProductInfo 10 7 2022 7 13) (TrStat 20 998 0) 0 0 0 0
  (map Some [3000; 2700; 2600; 2300; 2100; 2100; 1900]) [].

Lemma demo_app_ok : app_ok demo_app.
Proof. split; [by left|done|by left|done..]. Qed.

Lemma demo_code c : in_range 32 c -> is_code c (demo_msg c).
Proof. intros H. unfold is_code, demo_msg. rewrite val_arr_set by (rewrite length_replicate; lia). by rewrite (wrap_small 32). Qed.

Lemma main_runs_for_ever_witness :
  (exists a', (main_start demo_stack true;; main_loop demo_stack (Some 0) [demo_msg 6; demo_msg 3; demo_msg 77]) demo_app = Some (tt, a') /\ app_ok a') /\
  (main_start demo_stack true;; main_loop demo_stack None [demo_msg 6; demo_msg 3; demo_msg 77]) demo_app = None.
Proof.
  pose proof (fun w => main_runs_for_ever demo_stack w demo_app [demo_msg 6; demo_msg 3; demo_msg 77] ltac:(done) ltac:(by repeat constructor)) as H.
  split; [pose proof (H (Some 0)) as H1|pose proof (H None) as H1].
  - rewrite decide_False in H1 by (intros [? _]; done). exact H1.
  - rewrite decide_True in H1; [exact H1|]. split; [done|]. apply Exists_cons_tl, Exists_cons_hd. by vm_compute.
Defined.

(** Voltages 600, 200, 600, 400, 0 and 400 against the threshold 350. *)
Lemma batch_is_sorted_witness : exists a' tr,
  main_loop demo_stack (Some 0) (demo_msg 9 :: replicate 6 (demo_msg 1)) demo_app = Some (tt, a') /\
  a_trace a' = a_trace demo_app ++ tr /\
  omap shown tr = [(600, 1, 11, 8); (200, 0, 12, 8); (600, 1, 13, 9); (400, 1, 14, 10); (0, 0, 15, 10); (400, 1, 16, 11)] /\
  msg_id (a_stat a') = 4 /\ enables INPUT_SIGNAL2 tr = 1%nat.
Proof.
  destruct (batch_is_sorted demo_stack (Some 0) (demo_msg 9) (replicate 6 (demo_msg 1)) 3000 [2700; 2600; 2300; 2100; 2100; 1900] [] demo_app)
    as (a' & tr & E & _ & T & _ & _ & _ & _ & Hi & Ho & _ & H2);
    [done|apply demo_app_ok|done|by apply demo_code|by repeat constructor|done|done|by repeat constructor|done|].
  exists a', tr. split; [done|]. split; [done|]. split; [by rewrite Ho|]. split; [by rewrite Hi|done].
Defined.

Lemma spurious_pulse_blocks_input_witness : exists a',
  main_loop demo_stack (Some 0) [demo_msg 9; demo_msg 6] (with_trace (fun tr => tr ++ [EIrq INPUT_SIGNAL false; ESend MainMq (set_val 0 1 (replicate 4 0)) 4]) demo_app) =
    Some (tt, a') /\ exists tr, a_trace a' = [EIrq INPUT_SIGNAL false; ESend MainMq (set_val 0 1 (replicate 4 0)) 4] ++ tr /\ enables INPUT_SIGNAL tr = 0%nat.
Proof.
  destruct (spurious_pulse_blocks_input demo_stack (Some 0) (demo_msg 1) demo_app) as [_ H]; [by apply demo_code|done|].
  eexists. split; [reflexivity|]. apply (H [demo_msg 9; demo_msg 6]); [|reflexivity].
  repeat constructor; unfold is_code; vm_compute; congruence.
Defined.

(** Two presses below 10 and the threshold is more than 4 million volts. *)
Lemma threshold_button_witness : exists m,
  main_step demo_stack (Some 0) (demo_msg 7) (with_res (fun _ => ResParas 0 5 0) demo_app) =
    Some (tt, with_trace (fun tr => tr ++ [ESend OutputMq m 8]) (with_res (fun _ => ResParas 0 4294967291 0) demo_app)) /\
  val_arr m 1 = Some 4294967291.
Proof.
  destruct (threshold_button demo_stack (Some 0) (demo_msg 7) (with_res (fun _ => ResParas 0 5 0) demo_app) false) as (m & E & _ & Em);
    [done|destruct demo_app_ok; by split|by apply (demo_code 7)|]. exists m. split; [exact E|exact Em].
Defined.

Lemma no_stack_garbage_is_sent_witness :
  (view ∘ snd) <$> (main_start demo_stack true;; main_loop demo_stack (Some 0) [demo_msg 6]) demo_app =
  (view ∘ snd) <$> (main_start (replicate 20 0) true;; main_loop (replicate 20 0) (Some 0) [demo_msg 6]) demo_app.
Proof. by apply (no_stack_garbage_is_sent demo_stack (replicate 20 0) (Some 0)). Defined.
