(* ===== verification/Kservice.v ===== *)
(** * Kservice: formatted output

    The conversions of [rt_vsnprintf] of kservice.c and its helpers, as the kernel
    is configured ([RT_PRINTF_PRECISION], neither [RT_PRINTF_LONGLONG] nor
    [RT_PRINTF_SPECIAL]).  The characters that are produced are a list; how they
    get into the buffer is in [Vsnprintf].  [%f] ([print_float]) is not modelled:
    a format with it has no result here, as has one whose arguments do not fit.

    [long] and [int] have 32 bits; a [long] is its two's complement pattern. *)

From Stdlib Require Import Ascii String.
From S2P Require Import Prelude.
#[local] Open Scope Z_scope.

(** The characters of a literal. *)
Fixpoint chars (s : string) : list Z :=
  match s with EmptyString => [] | String c s => Z.of_nat (nat_of_ascii c) :: chars s end.

(** ** Numbers *)

Definition isdigit (c : Z) : bool := bool_decide (u32 (c - 48) < 10).

(** [divide]: the remainder and the quotient. *)
Definition divide (n base : Z) : Z * Z :=
  if decide (base = 10) then (u32 n mod 10, u32 n / 10) else (u32 n mod 16, u32 n / 16).

(** [skip_atoi]: the number and the rest of the string. *)
Fixpoint skip_atoi_from (i : Z) (s : list Z) : Z * list Z :=
  match s with
  | c :: s' => if isdigit c then skip_atoi_from (s32 (i * 10 + c - 48)) s' else (i, s)
  | [] => (i, [])
  end.
Definition skip_atoi (s : list Z) : Z * list Z := skip_atoi_from 0 s.

Definition ZEROPAD : Z := 1.
Definition SIGN : Z := 2.
Definition PLUS : Z := 4.
Definition SPACE : Z := 8.
Definition LEFT : Z := 16.
Definition SPECIAL : Z := 32.
Definition LARGE : Z := 64.

Definition flag (type bit : Z) : bool := bool_decide (Z.land type bit <> 0).

Definition small_digits : list Z := chars "0123456789abcdef".
Definition large_digits : list Z := chars "0123456789ABCDEF".

(** [while (num != 0) tmp[i++] = digits[divide(&num, base)];] the digits, the
    last one first.  [tmp] has room for 16. *)
Fixpoint digits_loop (fuel : nat) (digits : list Z) (num base : Z) : list Z :=
  match fuel with
  | O => []
  | S fuel =>
    if decide (num = 0) then []
    else let '(r, q) := divide num base in default 0 (digits !! Z.to_nat r) :: digits_loop fuel digits q base
  end.

Definition tmp_digits (digits : list Z) (num base : Z) : list Z :=
  if decide (num = 0) then [48] else digits_loop 16 digits num base.

(** [n] times the character [c], as [while (n-- > 0)] writes it. *)
Definition pad (n c : Z) : list Z := replicate (Z.to_nat n) c.
(** What such a loop leaves in [n]. *)
Definition after_pad (n : Z) : Z := Z.min n 0 - 1.

(** The sign character, if any, and the number without it. *)
Definition get_sign (type num : Z) : option Z * Z :=
  if flag type SIGN then
    if decide (s32 num < 0) then (Some 45, u32 (- num))
    else (if flag type PLUS then Some 43 else if flag type SPACE then Some 32 else None, u32 num)
  else (None, u32 num).

(** [print_number]: the characters it produces. *)
Definition print_number (num base s precision type : Z) : list Z :=
  let digits := if flag type LARGE then large_digits else small_digits in
  let type := if flag type LEFT then Z.land type (Z.lnot ZEROPAD) else type in
  let c := if flag type ZEROPAD then 48 else 32 in
  let '(sign, num) := get_sign type num in
  let tmp := tmp_digits digits num base in
  let i := Z.of_nat (length tmp) in
  let precision' := Z.max i precision in
  let size := s - precision' in
  let '(blanks, size) :=
    if negb (flag type (Z.lor ZEROPAD LEFT)) then
      let size := if decide (sign <> None /\ 0 < size) then size - 1 else size in (pad size 32, after_pad size)
    else ([], size) in
  let '(signs, size) := match sign with Some x => ([x], size - 1) | None => ([], size) end in
  let '(fill, size) := if negb (flag type LEFT) then (pad size c, after_pad size) else ([], size) in
  blanks ++ signs ++ fill ++ pad (precision' - i) 48 ++
  (if decide (precision = 0) then [] else rev tmp) ++ pad size 32.

(** ** The format *)

Inductive va := VInt (z : Z) | VStr (s : option (list Z)) | VPtr (z : Z).

(** The flag characters behind a [%]. *)
Fixpoint scan_flags (flags : Z) (fmt : list Z) : Z * list Z :=
  match fmt with
  | c :: fmt' =>
    if decide (c = 45) then scan_flags (Z.lor flags LEFT) fmt'
    else if decide (c = 43) then scan_flags (Z.lor flags PLUS) fmt'
    else if decide (c = 32) then scan_flags (Z.lor flags SPACE) fmt'
    else if decide (c = 35) then scan_flags (Z.lor flags SPECIAL) fmt'
    else if decide (c = 48) then scan_flags (Z.lor flags ZEROPAD) fmt'
    else (flags, fmt)
  | [] => (flags, [])
  end.

(** The field width: a number, [*] for the next argument, or [-1]. *)
Definition scan_width (flags : Z) (fmt : list Z) (args : list va) : option (Z * Z * list Z * list va) :=
  match fmt with
  | c :: fmt' =>
    if isdigit c then let '(n, r) := skip_atoi fmt in Some (n, flags, r, args)
    else if decide (c = 42) then
      match args with
      | VInt z :: args =>
          if decide (s32 z < 0) then Some (s32 (- s32 z), Z.lor flags LEFT, fmt', args) else Some (s32 z, flags, fmt', args)
      | _ => None
      end
    else Some (-1, flags, fmt, args)
  | [] => Some (-1, flags, [], args)
  end.

(** The precision: [-1] if there is none, and never negative otherwise. *)
Definition scan_precision (fmt : list Z) (args : list va) : option (Z * list Z * list va) :=
  match fmt with
  | c :: fmt =>
    if decide (c = 46) then
      match fmt with
      | d :: fmt' =>
        if isdigit d then let '(n, r) := skip_atoi fmt in Some (Z.max 0 n, r, args)
        else if decide (d = 42) then
          match args with VInt z :: args => Some (Z.max 0 (s32 z), fmt', args) | _ => None end
        else Some (0, fmt, args)
      | [] => Some (0, [], args)
      end
    else Some (-1, c :: fmt, args)
  | [] => Some (-1, [], args)
  end.

Definition print_char (c width flags : Z) : list Z :=
  if flag flags LEFT then c :: pad (width - 1) 32 else pad (width - 1) 32 ++ [c].

Definition null_string : list Z := chars "(NULL)".

Definition print_string (s : option (list Z)) (width precision flags : Z) : list Z :=
  let s := default null_string s in
  let len := Z.of_nat (length s) in
  let len := if decide (0 < precision /\ precision < len) then precision else len in
  let body := take (Z.to_nat len) s in
  if flag flags LEFT then body ++ pad (width - len) 32 else pad (width - len) 32 ++ body.

(** The integer argument, by the qualifier. *)
Definition int_arg (qualifier : option Z) (flags z : Z) : Z :=
  if decide (qualifier = Some 104) then
    if flag flags SIGN then u32 (if decide (u16 z < 2 ^ 15) then u16 z else u16 z - 2 ^ 16) else u16 z
  else u32 z.

Definition print_int (base flags : Z) (qualifier : option Z) (width precision : Z) (args : list va) : option (list Z * list va) :=
  match args with
  | VInt z :: args => Some (print_number (int_arg qualifier flags z) base width precision flags, args)
  | _ => None
  end.

(** One conversion, [fmt] being behind the [%]: the characters, the rest of the
    format and the arguments left. *)
Definition convert (fmt : list Z) (args : list va) : option (list Z * list Z * list va) :=
  let '(flags, fmt) := scan_flags 0 fmt in
  '(width, flags, fmt, args) ← scan_width flags fmt args;
  '(precision, fmt, args) ← scan_precision fmt args;
  let '(qualifier, fmt) := match fmt with
    | c :: fmt' => if decide (c = 104 \/ c = 108) then (Some c, fmt') else (None, fmt)
    | [] => (None, []) end in
  match fmt with
  | [] => Some ([37], [], args)
  | c :: fmt' =>
    if decide (c = 99) then
      match args with VInt z :: args => Some (print_char (u8 z) width flags, fmt', args) | _ => None end
    else if decide (c = 115) then
      match args with VStr s :: args => Some (print_string s width precision flags, fmt', args) | _ => None end
    else if decide (c = 112) then
      let '(width, flags) := if decide (width = -1) then (8, Z.lor flags ZEROPAD) else (width, flags) in
      match args with VPtr z :: args => Some (print_number (u32 z) 16 width precision flags, fmt', args) | _ => None end
    else if decide (c = 37) then Some ([37], fmt', args)
    else if decide (c = 111) then '(o, args) ← print_int 8 flags qualifier width precision args; Some (o, fmt', args)
    else if decide (c = 88) then '(o, args) ← print_int 16 (Z.lor flags LARGE) qualifier width precision args; Some (o, fmt', args)
    else if decide (c = 120) then '(o, args) ← print_int 16 flags qualifier width precision args; Some (o, fmt', args)
    else if decide (c = 100 \/ c = 105) then '(o, args) ← print_int 10 (Z.lor flags SIGN) qualifier width precision args; Some (o, fmt', args)
    else if decide (c = 117) then '(o, args) ← print_int 10 flags qualifier width precision args; Some (o, fmt', args)
    else if decide (c = 102) then None
    else Some ([37; c], fmt', args)
  end.

Fixpoint format (fuel : nat) (fmt : list Z) (args : list va) : option (list Z) :=
  match fuel with
  | O => None
  | S fuel =>
    match fmt with
    | [] => Some []
    | c :: fmt =>
      if decide (c <> 37) then o ← format fuel fmt args; Some (c :: o)
      else '(o, fmt, args) ← convert fmt args; o' ← format fuel fmt args; Some (o ++ o')
    end
  end.

(** [rt_sprintf]: no bound.  A buffer that is too small is overrun.  [Vsnprintf]
    shows that [rt_vsnprintf] does this with the size that is passed to it. *)
Definition rt_sprintf (buf : list Z) (fmt : list Z) (args : list va) : option (list Z) :=
  out ← format (S (length fmt)) fmt args;
  if decide (length out < length buf)%nat then Some (out ++ 0 :: drop (S (length out)) buf) else None.

(** ** Reading a number back *)

(** The value of a digit character. *)
Definition digit_value (c : Z) : option Z :=
  if decide (48 <= c <= 57) then Some (c - 48) else if decide (97 <= c <= 102) then Some (c - 87)
  else if decide (65 <= c <= 70) then Some (c - 55) else None.

(** The number at the front of a text, and the rest. *)
Fixpoint read_digits (base v : Z) (s : list Z) : Z * list Z :=
  match s with
  | c :: s' =>
    match digit_value c with
    | Some d => if decide (d < base) then read_digits base (base * v + d) s' else (v, s)
    | None => (v, s)
    end
  | [] => (v, [])
  end.

Fixpoint skip_blanks (s : list Z) : list Z :=
  match s with c :: s' => if decide (c = 32) then skip_blanks s' else s | [] => [] end.

(** A number as [strtol] reads it, with nothing but blanks around it. *)
Definition read_number (base : Z) (s : list Z) : option Z :=
  let s := skip_blanks s in
  let '(k, s) := match s with
    | c :: s' => if decide (c = 45) then (-1, s') else if decide (c = 43) then (1, s') else (1, s)
    | [] => (1, []) end in
  match s with
  | c :: _ =>
    if decide (digit_value c = None) then None
    else let '(v, r) := read_digits base 0 s in
      match skip_blanks r with [] => Some (k * v) | _ => None end
  | [] => None
  end.

Definition table (digits : list Z) : Prop := digits = small_digits \/ digits = large_digits.
Definition digit_char (digits : list Z) (d : Z) : Z := default 0 (digits !! Z.to_nat d).

Lemma digit_value_char digits d : table digits -> 0 <= d < 16 -> digit_value (digit_char digits d) = Some d.
Proof.
  intros Ht Hd.
  assert (d = 0 \/ d = 1 \/ d = 2 \/ d = 3 \/ d = 4 \/ d = 5 \/ d = 6 \/ d = 7 \/ d = 8 \/ d = 9 \/ d = 10 \/ d = 11 \/
    d = 12 \/ d = 13 \/ d = 14 \/ d = 15) as H by lia.
  destruct Ht as [-> | ->]; repeat destruct H as [-> | H]; try reflexivity; subst; reflexivity.
Qed.

Lemma skip_blanks_pad n s : skip_blanks (replicate n 32 ++ s) = skip_blanks s.
Proof. induction n; [done|]. simpl. done. Qed.

Lemma skip_blanks_id c s : c <> 32 -> skip_blanks (c :: s) = c :: s.
Proof. intros. simpl. by rewrite decide_False. Qed.

Lemma read_digits_blanks base v n : read_digits base v (replicate n 32) = (v, replicate n 32).
Proof. by destruct n. Qed.

Lemma read_digits_zeros base n s : 0 < base -> read_digits base 0 (replicate n 48 ++ s) = read_digits base 0 s.
Proof.
  intros. induction n; [done|]. simpl. rewrite decide_True by lia. by rewrite Z.mul_0_r.
Qed.

Lemma read_digits_app digits base ds s : table digits -> base <= 16 -> Forall (fun d => 0 <= d < base) ds -> forall v,
  read_digits base v (map (digit_char digits) ds ++ s) = read_digits base (foldl (fun v d => base * v + d) v ds) s.
Proof.
  intros Ht Hb. induction 1 as [|d ds Hd _ IH]; intros v; [done|]. simpl.
  rewrite digit_value_char by (done || lia). by rewrite decide_True by lia.
Qed.

(** ** The digits of a number *)

Definition base_ok (base : Z) : Prop := base = 10 \/ base = 16.

Lemma divide_ok n base : base_ok base -> in_range 32 n -> divide n base = (n mod base, n / base).
Proof. intros [-> | ->] Hn; unfold divide; by rewrite (wrap_small 32). Qed.

(** [ds] are the digits of [n], the first one not being zero. *)
Definition numeral (base n : Z) (ds : list Z) : Prop :=
  Forall (fun d => 0 <= d < base) ds /\ foldl (fun v d => base * v + d) 0 ds = n /\
  (0 < length ds)%nat /\ n < base ^ Z.of_nat (length ds) /\ (0 < n -> base ^ (Z.of_nat (length ds) - 1) <= n) /\
  (n = 0 -> ds = [0]).

Lemma digits_loop_numeral digits base : base_ok base -> forall fuel n, 0 < n < base ^ Z.of_nat fuel -> in_range 32 n ->
  exists ds, rev (digits_loop fuel digits n base) = map (digit_char digits) ds /\ numeral base n ds.
Proof.
  intros Hb. assert (1 < base <= 16) as Hb1 by (destruct Hb; lia).
  induction fuel as [|fuel IH]; intros n Hn Hr; [simpl in Hn; lia|].
  cbn [digits_loop]. rewrite decide_False by lia. rewrite divide_ok by done.
  pose proof (Z.mod_pos_bound n base ltac:(lia)). pose proof (Z.div_mod n base ltac:(lia)) as En.
  change (default 0 (digits !! Z.to_nat (n mod base))) with (digit_char digits (n mod base)).
  destruct (decide (n / base = 0)) as [E0|E0].
  - exists [n mod base]. rewrite E0. split; [by destruct fuel|].
    rewrite E0 in En. unfold numeral. change (length [n mod base]) with 1%nat.
    change (Z.of_nat 1 - 1) with 0. rewrite Z.pow_1_r, Z.pow_0_r. simpl foldl.
    split_and!; [by constructor|lia|lia|lia|lia|lia].
  - rewrite Nat2Z.inj_succ, Z.pow_succ_r in Hn by lia.
    assert (0 <= n / base) by (apply Z.div_pos; lia).
    destruct (IH (n / base)) as (ds & E & Hd & Hv & Hl & Hu & Hlo & _).
    { split; [lia|]. apply Z.div_lt_upper_bound; lia. }
    { unfold in_range in *. split; [lia|]. apply Z.le_lt_trans with n; [|lia]. apply Z.div_le_upper_bound; nia. }
    exists (ds ++ [n mod base]). split; [simpl; by rewrite E, map_app|].
    unfold numeral. rewrite length_app, foldl_app, Hv. simpl length. simpl foldl. specialize (Hlo ltac:(lia)).
    rewrite Nat2Z.inj_add. change (Z.of_nat 1) with 1.
    replace (Z.of_nat (length ds) + 1 - 1) with (Z.succ (Z.of_nat (length ds) - 1)) by lia.
    rewrite (Z.pow_succ_r base (_ - 1)), Z.pow_add_r, Z.pow_1_r by lia.
    split_and!; [apply Forall_app; split; [done|by constructor]|lia|lia|nia|nia|lia].
Qed.

Lemma tmp_digits_numeral digits base n : table digits -> base_ok base -> in_range 32 n ->
  exists ds, rev (tmp_digits digits n base) = map (digit_char digits) ds /\ numeral base n ds.
Proof.
  intros Ht Hb Hn. unfold tmp_digits. destruct (decide (n = 0)) as [->|H0].
  - exists [0]. split; [by destruct Ht as [-> | ->]|]. unfold numeral. simpl length. simpl foldl.
    destruct Hb as [-> | ->]; split_and!; try done; by repeat constructor.
  - apply digits_loop_numeral; [done| |done]. unfold in_range in Hn. split; [lia|].
    apply Z.lt_le_trans with (1 := proj2 Hn). destruct Hb as [-> | ->]; vm_compute; congruence.
Qed.

Lemma numeral_read digits base n ds zeros s : table digits -> base_ok base -> numeral base n ds ->
  read_digits base 0 (replicate zeros 48 ++ map (digit_char digits) ds ++ s) = read_digits base n s.
Proof.
  intros Ht Hb (Hd & Hv & _). rewrite read_digits_zeros by (destruct Hb; lia).
  rewrite read_digits_app by (done || destruct Hb; lia). by rewrite Hv.
Qed.

(** ** [print_number] *)

Definition sign_of (type num : Z) : list Z := from_option (fun x => [x]) [] (fst (get_sign type num)).
Definition magnitude (type num : Z) : Z := snd (get_sign type num).
Definition value_of (type num : Z) : Z := if flag type SIGN then s32 num else u32 num.

Lemma flag_clear_zeropad type : flag (Z.land type (Z.lnot ZEROPAD)) ZEROPAD = false.
Proof.
  unfold flag. apply bool_decide_eq_false. intros H. apply H. rewrite <- Z.land_assoc.
  change (Z.land (Z.lnot ZEROPAD) ZEROPAD) with 0. apply Z.land_0_r.
Qed.

Lemma flag_lor type a b : flag type (Z.lor a b) = flag type a || flag type b.
Proof.
  unfold flag. rewrite Z.land_lor_distr_r. apply eq_true_iff_eq.
  rewrite orb_true_iff, !bool_decide_eq_true, Z.lor_eq_0_iff.
  destruct (decide (Z.land type a = 0)), (decide (Z.land type b = 0)); tauto.
Qed.

Lemma flag_keep type bit : Z.land (Z.lnot ZEROPAD) bit = bit -> flag (Z.land type (Z.lnot ZEROPAD)) bit = flag type bit.
Proof. intros E. unfold flag. by rewrite <- Z.land_assoc, E. Qed.

Lemma get_sign_keep type num : get_sign (Z.land type (Z.lnot ZEROPAD)) num = get_sign type num.
Proof. unfold get_sign. by rewrite !flag_keep. Qed.

Lemma length_pad n c : Z.of_nat (length (pad n c)) = Z.max 0 n.
Proof. unfold pad. rewrite length_replicate. lia. Qed.

(** Blanks, the sign, zeros, the digits and blanks; as wide as it has to be. *)
Lemma print_number_shape num base s precision type : precision <> 0 ->
  let tmp := tmp_digits (if flag type LARGE then large_digits else small_digits) (magnitude type num) base in
  exists a b c, print_number num base s precision type =
    replicate a 32 ++ sign_of type num ++ replicate b 48 ++ rev tmp ++ replicate c 32 /\
    Z.of_nat (a + b + c + length (sign_of type num) + length tmp) =
      Z.max s (Z.of_nat (length (sign_of type num)) + Z.max (Z.of_nat (length tmp)) precision).
Proof.
  intros Hp. cbv zeta. unfold print_number, sign_of, magnitude.
  set (type' := if flag type LEFT then _ else type).
  assert (get_sign type' num = get_sign type num) as -> by (subst type'; case_match; [apply get_sign_keep|done]).
  destruct (get_sign type num) as [o m]. cbn [fst snd].
  set (tmp := tmp_digits _ _ _). set (p := Z.max (Z.of_nat (length tmp)) precision).
  rewrite (decide_False (P := precision = 0)) by done.
  assert (0 <= p - Z.of_nat (length tmp)) as Hz by lia.
  assert (Datatypes.length (from_option (fun x => [x]) [] o) = if decide (o = None) then 0%nat else 1%nat) as El by by destruct o.
  rewrite El. subst type'. destruct (flag type LEFT) eqn:Hleft.
  - rewrite flag_lor, (flag_keep _ LEFT), flag_clear_zeropad, Hleft by done. simpl negb. cbv iota.
    destruct o as [x|]; [rewrite decide_False by done|rewrite decide_True by done]; cbn [from_option]; unfold pad;
      (eexists 0%nat, _, _; split; [reflexivity|lia]).
  - rewrite flag_lor, Hleft, orb_false_r. destruct (flag type ZEROPAD) eqn:Hzero; simpl negb; cbv iota; unfold pad, after_pad.
    + destruct o as [x|]; [rewrite decide_False by done|rewrite decide_True by done]; cbn [from_option].
      all: eexists 0%nat, (_ + _)%nat, _; split; [rewrite replicate_add, <- !app_assoc; reflexivity|lia].
    + destruct o as [x|]; cbn [from_option].
      * rewrite (decide_False (P := Some x = None)) by done.
        destruct (decide (Some x <> None /\ 0 < s - p)) as [[_ Hs]|Hs].
        -- eexists _, _, _. split; [|shelve]. replace (Z.to_nat (Z.min (s - p - 1) 0 - 1 - 1)) with 0%nat by lia. reflexivity.
           Unshelve. lia.
        -- assert (s - p <= 0) by (destruct (decide (0 < s - p)); [by destruct Hs|lia]).
           eexists _, _, _. split; [|shelve]. replace (Z.to_nat (Z.min (s - p) 0 - 1 - 1)) with 0%nat by lia. reflexivity.
           Unshelve. lia.
      * rewrite (decide_True (P := None = None)) by done. rewrite decide_False by tauto.
        eexists _, _, _. split; [|shelve]. replace (Z.to_nat (Z.min (s - p) 0 - 1)) with 0%nat by lia. reflexivity.
        Unshelve. lia.
Qed.

Lemma signed_value type num : value_of type num =
  (if decide (sign_of type num = [45]) then -1 else 1) * magnitude type num.
Proof.
  unfold value_of, sign_of, magnitude, get_sign. destruct (flag type SIGN); cbn [fst snd from_option]; [|rewrite decide_False by done; lia].
  assert (s32 num = u32 num \/ (2 ^ 31 <= u32 num /\ s32 num = u32 num - 2 ^ 32)) as Hs by (unfold s32; case_decide; [by left|right; split; [lia|done]]).
  pose proof (wrap_range 32 num ltac:(lia)) as Hr. unfold in_range in Hr.
  destruct (decide (s32 num < 0)) as [Hn|Hn]; cbn [fst snd from_option].
  - rewrite decide_True by done. assert (u32 (- num) = 2 ^ 32 - u32 num) as ->; [|lia].
    unfold wrap in *. rewrite Z.mod_opp_l_nz by lia. done.
  - destruct (flag type PLUS), (flag type SPACE); cbn [from_option]; rewrite decide_False by done; lia.
Qed.

Lemma sign_of_cases type num : sign_of type num = [] \/ sign_of type num = [45] \/ sign_of type num = [43] \/ sign_of type num = [32].
Proof. unfold sign_of, get_sign. repeat case_match; simpl; tauto. Qed.

Lemma digit_char_not_special digits d : table digits -> 0 <= d < 16 ->
  digit_char digits d <> 32 /\ digit_char digits d <> 43 /\ digit_char digits d <> 45.
Proof. intros Ht Hd. pose proof (digit_value_char digits d Ht Hd) as E. split_and!; intros H; by rewrite H in E. Qed.

(** Text that starts with a digit. *)
Lemma read_unsigned base s c s' v r : s = c :: s' -> c <> 32 -> c <> 43 -> c <> 45 -> digit_value c <> None ->
  read_digits base 0 s = (v, r) -> skip_blanks r = [] -> read_number base s = Some v.
Proof.
  intros -> ? ? ? Hd Hr Hs. unfold read_number. rewrite skip_blanks_id by done.
  rewrite (decide_False (P := c = 45)), (decide_False (P := c = 43)) by done. cbv beta iota zeta.
  rewrite decide_False, Hr by done. cbv beta iota zeta. rewrite Hs. f_equal. lia.
Qed.

Lemma read_number_blanks base n s : read_number base (replicate n 32 ++ s) = read_number base s.
Proof. unfold read_number. by rewrite skip_blanks_pad. Qed.

Lemma read_number_sign base s v c s' : (s = c :: s' /\ c <> 32 /\ c <> 43 /\ c <> 45) -> read_number base s = Some v ->
  read_number base (45 :: s) = Some (- v) /\ read_number base (43 :: s) = Some v.
Proof.
  intros (-> & ? & ? & ?). unfold read_number. rewrite !skip_blanks_id by done.
  rewrite (decide_False (P := c = 45)), (decide_False (P := c = 43)), (decide_True (P := 45 = 45)), (decide_False (P := 43 = 45)), (decide_True (P := 43 = 43)) by done.
  cbv beta iota zeta.
  case_decide; [done|].
  destruct (read_digits _ _ _) as [v0 r]. destruct (skip_blanks r); [|done]. intros [= <-]. split; f_equal; lia.
Qed.

(** C9: The text of [print_number] in base 10 or 16, with any flags, width and
    non-zero precision, reads back as the number, and it is exactly as wide as
    the width or as the sign with the digits filled up to the precision,
    whichever is more. *)
Theorem print_number_reads_back num base s precision type :
  base_ok base -> precision <> 0 ->
  exists ds, numeral base (magnitude type num) ds /\
    read_number base (print_number num base s precision type) = Some (value_of type num) /\
    Z.of_nat (length (print_number num base s precision type)) =
      Z.max s (Z.of_nat (length (sign_of type num)) + Z.max (Z.of_nat (length ds)) precision).
Proof.
  intros Hb Hp. set (digits := if flag type LARGE then large_digits else small_digits).
  assert (table digits) as Ht by (subst digits; case_match; [by right|by left]).
  assert (in_range 32 (magnitude type num)) as Hm by (unfold magnitude, get_sign; repeat case_match; apply wrap_range; lia).
  destruct (tmp_digits_numeral digits base _ Ht Hb Hm) as (ds & Er & Hn). exists ds. split; [done|].
  destruct (print_number_shape num base s precision type Hp) as (a & b & c & E & El). fold digits in E, El.
  set (tmp := tmp_digits digits _ _) in *.
  assert (length tmp = length ds) as Eld by (by rewrite <- length_rev, Er, length_map).
  rewrite E, Er. split.
  2:{ rewrite !length_app, length_map, !length_replicate. rewrite Eld in El. rewrite <- El. lia. }
  rewrite read_number_blanks, signed_value. set (body := replicate b 48 ++ _).
  assert (read_number base body = Some (magnitude type num) /\ exists x y, body = x :: y /\ x <> 32 /\ x <> 43 /\ x <> 45) as [Hv Hh].
  { assert (exists x y, body = x :: y /\ x <> 32 /\ x <> 43 /\ x <> 45 /\ digit_value x <> None) as (x & y & Ey & H1 & H2 & H3 & H4).
    { subst body. destruct b; [|by eexists _, _]. destruct Hn as (Hd & _ & Hl & _). destruct ds as [|d ds]; [simpl in Hl; lia|].
      apply Forall_cons in Hd as [Hd _]. assert (0 <= d < 16) as Hd' by (destruct Hb; lia).
      destruct (digit_char_not_special digits d Ht Hd') as (? & ? & ?). eexists _, _. split_and!; [done..|].
      by rewrite digit_value_char. }
    split; [|by eexists _, _]. eapply read_unsigned; [done..| |].
    - subst body. rewrite (numeral_read digits base _ ds) by done. apply read_digits_blanks.
    - rewrite <- (app_nil_r (replicate c 32)). apply skip_blanks_pad. }
  destruct Hh as (x & y & Hh). destruct (read_number_sign base body _ x y Hh Hv) as [Hneg Hpos].
  destruct (sign_of_cases type num) as [-> | [-> | [-> | ->]]]; simpl Datatypes.app.
  - rewrite Hv; f_equal; simpl; lia.
  - rewrite Hneg; f_equal; simpl; lia.
  - rewrite Hpos; f_equal; simpl; lia.
  - transitivity (read_number base body); [exact (read_number_blanks base 1 body)|rewrite Hv; f_equal; simpl; lia].
Qed.

(** ** The format *)

Lemma skip_atoi_shorter s : forall i n r, skip_atoi_from i s = (n, r) -> (length r <= length s)%nat.
Proof.
  induction s as [|c s IH]; simpl; intros i n r; [by intros [= _ <-]|].
  destruct (isdigit c); [intros E%IH; lia|by intros [= _ <-]].
Qed.

Lemma scan_flags_shorter fmt : forall f f' r, scan_flags f fmt = (f', r) -> (length r <= length fmt)%nat.
Proof.
  induction fmt as [|c fmt IH]; simpl; intros f f' r; [by intros [= _ <-]|].
  repeat case_decide; try (intros E%IH; lia). by intros [= _ <-].
Qed.

Lemma scan_width_shorter f fmt args w f' r args' : scan_width f fmt args = Some (w, f', r, args') -> (length r <= length fmt)%nat.
Proof.
  destruct fmt as [|c fmt]; simpl; [by intros [= _ _ <- _]|]. destruct (isdigit c).
  - destruct (skip_atoi _) as [n r'] eqn:E. apply skip_atoi_shorter in E. by intros [= _ _ <- _].
  - repeat case_match; try done; intros [= _ _ <- _]; simpl; lia.
Qed.

Lemma scan_precision_shorter fmt args p r args' : scan_precision fmt args = Some (p, r, args') -> (length r <= length fmt)%nat.
Proof.
  destruct fmt as [|c [|d fmt]]; simpl; [by intros [= _ <- _]|case_decide; intros [= _ <- _]; simpl; lia|].
  case_decide; [|by intros [= _ <- _]]. destruct (isdigit d).
  - destruct (skip_atoi _) as [n r'] eqn:E. apply skip_atoi_shorter in E. intros [= _ <- _]. simpl in *. lia.
  - repeat case_match; try done; intros [= _ <- _]; simpl; lia.
Qed.

Lemma bind_Some_inv {A B} (m : option A) (f : A -> option B) y : (x ← m; f x) = Some y -> exists x, m = Some x /\ f x = Some y.
Proof. destruct m; [|done]. by eexists. Qed.

(** A conversion does not read behind the format. *)
Lemma convert_shorter fmt args o r args' : convert fmt args = Some (o, r, args') -> (length r <= length fmt)%nat.
Proof.
  unfold convert. destruct (scan_flags 0 fmt) as [f r1] eqn:E1. apply scan_flags_shorter in E1.
  intros ([[[w f'] r2] a2] & E2 & H)%bind_Some_inv. apply scan_width_shorter in E2.
  apply bind_Some_inv in H as ([[p r3] a3] & E3 & H). apply scan_precision_shorter in E3.
  assert (exists q r4, (match r3 with c :: fmt' => if decide (c = 104 \/ c = 108) then (Some c, fmt') else (None, r3) | [] => (None, []) end)
    = (q, r4) /\ (length r4 <= length r3)%nat) as (q & r4 & E4 & L4).
  { destruct r3 as [|c r3]; [by eexists _, _|]. case_decide; eexists _, _; (split; [done|simpl; lia]). }
  rewrite E4 in H. clear E4. destruct r4 as [|c r4]; [by injection H as _ <- _; simpl; lia|]. simpl in L4.
  assert (forall b fl q w p, (('(o, args) ← print_int b fl q w p a3; Some (o, r4, args)) = Some (o, r, args')) -> r = r4) as Hi.
  { intros * ([o' a'] & _ & [= _ <- _])%bind_Some_inv. done. }
  assert (r = r4 \/ (length r <= length fmt)%nat) as [-> | ?]; [|lia..].
  repeat case_decide; try (left; exact (Hi _ _ _ _ _ H)); try done; repeat case_match; try done; injection H as _ <- _; by left.
Qed.

(** The loop over the format ends: more fuel than characters makes no difference. *)
Lemma format_enough fuel : forall fuel' fmt args, (length fmt < fuel)%nat -> (length fmt < fuel')%nat ->
  format fuel fmt args = format fuel' fmt args.
Proof.
  induction fuel as [|fuel IH]; intros [|fuel'] [|c fmt] args H H'; try (simpl in *; lia); try done.
  simpl in H, H' |- *. case_decide; [by rewrite (IH fuel') by lia|].
  destruct (convert fmt args) as [[[o r] args']|] eqn:E; [|done]. apply convert_shorter in E.
  cbn [mbind option_bind]. by rewrite (IH fuel') by lia.
Qed.

(** [%i] and [%d]: the sign and the digits of an [int]. *)
Definition int_text (z : Z) : list Z := print_number (u32 z) 10 (-1) (-1) SIGN.

Lemma format_char fuel c fmt args : c <> 37 ->
  format (S fuel) (c :: fmt) args = (o ← format fuel fmt args; Some (c :: o)).
Proof. intros. cbn [format]. by rewrite decide_True. Qed.

Lemma convert_int fmt z args : convert (105 :: fmt) (VInt z :: args) = Some (int_text z, fmt, args).
Proof. reflexivity. Qed.

Lemma format_int fuel fmt z args :
  format (S fuel) (37 :: 105 :: fmt) (VInt z :: args) = (o ← format fuel fmt args; Some (int_text z ++ o)).
Proof. cbn [format]. rewrite decide_False by tauto. by rewrite convert_int. Qed.

Lemma s32_u32 z : s32 (u32 z) = s32 z.
Proof. unfold s32. by rewrite wrap_wrap. Qed.

Lemma numeral_length base n ds k : base_ok base -> numeral base n ds -> 0 <= n -> 0 <= k -> 0 < n \/ 0 < k ->
  Z.of_nat (length ds) <= k <-> n < base ^ k.
Proof.
  intros Hb (_ & _ & Hl & Hu & Hlo & H0) Hn Hk Hnk. assert (1 < base) by (destruct Hb; lia). split.
  - intros Hle. apply Z.lt_le_trans with (1 := Hu). apply Z.pow_le_mono_r; lia.
  - intros Hlt. destruct (decide (Z.of_nat (length ds) <= k)); [done|]. exfalso.
    destruct (decide (n = 0)) as [->|]; [rewrite (H0 eq_refl) in *; simpl in *; lia|].
    assert (base ^ k <= base ^ (Z.of_nat (length ds) - 1)) by (apply Z.pow_le_mono_r; lia).
    specialize (Hlo ltac:(lia)). lia.
Qed.

(** The text of an [int] reads back, and it has at most [k] characters exactly
    for the numbers of [k] digits, or [k - 1] and a sign. *)
Lemma int_text_ok z : read_number 10 (int_text z) = Some (s32 z) /\
  forall k, 1 <= k -> Z.of_nat (length (int_text z)) <= k <-> - 10 ^ (k - 1) < s32 z < 10 ^ k.
Proof.
  destruct (print_number_reads_back (u32 z) 10 (-1) (-1) SIGN) as (ds & Hn & Hr & Hl); [by left|lia|].
  fold (int_text z) in Hr, Hl. change (value_of SIGN (u32 z)) with (s32 (u32 z)) in Hr. rewrite s32_u32 in Hr.
  split; [done|]. intros k Hk. pose proof (signed_value SIGN (u32 z)) as Hs.
  change (value_of SIGN (u32 z)) with (s32 (u32 z)) in Hs. rewrite s32_u32 in Hs.
  pose proof (proj1 (proj2 (proj2 Hn))) as Hpos.
  assert (sign_of SIGN (u32 z) = if decide (s32 z < 0) then [45] else []) as Esg
    by (unfold sign_of, get_sign; cbn [fst snd]; change (flag SIGN SIGN) with true; change (flag SIGN PLUS) with false; change (flag SIGN SPACE) with false; cbv beta iota; rewrite s32_u32; destruct (decide (s32 z < 0)); reflexivity).
  assert (0 <= magnitude SIGN (u32 z)) as Hm by (unfold magnitude, get_sign; cbn [fst snd]; repeat case_match; apply wrap_range; lia).
  rewrite Hl, Esg in *. destruct (decide (s32 z < 0)) as [Hneg|Hneg].
  - rewrite decide_True in Hs by done. simpl length.
    pose proof (numeral_length 10 _ ds (k - 1) ltac:(by left) Hn Hm ltac:(lia) ltac:(lia)) as Hlen.
    assert (0 < 10 ^ k) by (apply Z.pow_pos_nonneg; lia). lia.
  - rewrite decide_False in Hs by done. simpl length.
    pose proof (numeral_length 10 _ ds k ltac:(by left) Hn Hm ltac:(lia) ltac:(lia)) as Hlen.
    assert (0 < 10 ^ (k - 1)) by (apply Z.pow_pos_nonneg; lia). lia.
Qed.

(** The sign, and the digits without any filling. *)
Lemma int_text_shape z : exists ds, int_text z = sign_of SIGN (u32 z) ++ map (digit_char small_digits) ds /\
  numeral 10 (magnitude SIGN (u32 z)) ds.
Proof.
  destruct (print_number_shape (u32 z) 10 (-1) (-1) SIGN) as (a & b & c & E & El); [lia|]. cbv zeta in E, El.
  change (if flag SIGN LARGE then large_digits else small_digits) with small_digits in *.
  destruct (tmp_digits_numeral small_digits 10 (magnitude SIGN (u32 z))) as (ds & Er & Hn); [by left|by left| |].
  { unfold magnitude, get_sign. repeat case_match; apply wrap_range; lia. }
  exists ds. split; [|done]. rewrite Er in E.
  assert (a = 0 /\ b = 0 /\ c = 0)%nat as (-> & -> & ->) by lia.
  unfold int_text. rewrite E. simpl. by rewrite app_nil_r.
Qed.

(** There is no NUL among the characters of a number. *)
Lemma int_text_no_nul z : Forall (fun c => c <> 0) (int_text z).
Proof.
  destruct (int_text_shape z) as (ds & -> & Hd & _). apply Forall_app. split.
  - destruct (sign_of_cases SIGN (u32 z)) as [-> | [-> | [-> | ->]]]; by repeat constructor.
  - apply Forall_map. eapply Forall_impl; [exact Hd|]. cbv beta. intros d Hr H0.
    pose proof (digit_value_char small_digits d ltac:(by left) ltac:(lia)) as Ev. cbv beta in H0. by rewrite H0 in Ev.
Qed.

(** A number that is not negative is read as far as its digits go. *)
Lemma int_text_digits z s : 0 <= z < 2 ^ 31 -> read_digits 10 0 (int_text z ++ s) = read_digits 10 z s.
Proof.
  intros Hz. destruct (int_text_shape z) as (ds & -> & Hn).
  assert (s32 (u32 z) = z) as Es by (rewrite s32_u32; by apply s32_small).
  assert (get_sign SIGN (u32 z) = (None, z)) as E.
  { unfold get_sign. rewrite Es. change (flag SIGN SIGN) with true. change (flag SIGN PLUS) with false.
    change (flag SIGN SPACE) with false. rewrite decide_False by lia.
    rewrite wrap_wrap, (wrap_small 32) by (unfold in_range; lia). done. }
  unfold sign_of, magnitude in *. rewrite E in *. simpl in *.
  apply (numeral_read small_digits 10 z ds 0 s); [by left|by left|done].
Qed.

(** ** Examples *)

(** [%08d] of -1234. *)
Lemma print_number_reads_back_witness :
  print_number (u32 (-1234)) 10 8 (-1) (Z.lor SIGN ZEROPAD) = chars "-0001234" /\
  read_number 10 (print_number (u32 (-1234)) 10 8 (-1) (Z.lor SIGN ZEROPAD)) = Some (-1234) /\
  Z.of_nat (List.length (print_number (u32 (-1234)) 10 8 (-1) (Z.lor SIGN ZEROPAD))) = 8.
Proof.
  destruct (print_number_reads_back (u32 (-1234)) 10 8 (-1) (Z.lor SIGN ZEROPAD)) as (ds & Hn & Hr & Hl); [by left|lia|].
  split; [reflexivity|]. split; [exact Hr|]. rewrite Hl.
  assert (Z.of_nat (List.length ds) <= 4) as Hd; [|change (sign_of _ _) with [45]; simpl; lia].
  apply (numeral_length 10 1234); [by left|exact Hn|lia..].
Defined.
