(* ===== verification/Vsnprintf.v ===== *)
(** * Vsnprintf: the buffer of formatted output

    [rt_vsnprintf] of kservice.c.  What a conversion produces is in [Kservice];
    here the characters go to memory one after the other, each as
    [if (str < end) *str = c; ++str], and a write outside of the array that [buf]
    points to is undefined.  Pointers have 32 bits.  The spec is a list of
    directives with their arguments. *)

From Stdlib Require Import String.
From S2P Require Import Prelude Kservice.
#[local] Open Scope Z_scope.

(** The array that [buf] points to, and [str]. *)
Record printing := Printing { array : list Z; str : Z }.
Definition set_array x s := Printing x (str s).
Definition set_str x s := Printing (array s) (u32 x).

Abbreviation PM := (M printing).

Section printing.
Context (addr end_ : Z).

(** [*p = c] *)
Definition write (p c : Z) : PM unit := fun s =>
  if decide (addr <= p < addr + Z.of_nat (length (array s))) then Some (tt, set_array (<[Z.to_nat (p - addr) := c]> (array s)) s) else None.

(** [if (str < end) *str = c; ++str;] *)
Definition put (c : Z) : PM unit :=
  p ← gets str;
  when (bool_decide (p < end_)) (write p c);;
  modify (set_str (p + 1)).

Fixpoint puts (cs : list Z) : PM unit :=
  match cs with [] => mret tt | c :: cs => put c;; puts cs end.

(** The loop over the format. *)
Fixpoint print_loop (fuel : nat) (fmt : list Z) (args : list va) : PM unit :=
  match fuel with
  | O => undefined
  | S fuel =>
    match fmt with
    | [] => mret tt
    | c :: fmt =>
      if decide (c <> 37) then put c;; print_loop fuel fmt args
      else
        '(o, fmt, args) ← deref (fun _ => convert fmt args);
        puts o;; print_loop fuel fmt args
    end
  end.

(** The NUL behind the text. *)
Definition print_end (size : Z) : PM unit :=
  when (bool_decide (0 < size)) (
    p ← gets str;
    if decide (p < end_) then write p 0 else write (u32 (end_ - 1)) 0).
End printing.

(** [buf] is the array at [addr]: what is in it afterwards, and the result. *)
Definition rt_vsnprintf (addr : Z) (buf : list Z) (size : Z) (fmt : list Z) (args : list va) : option (list Z * Z) :=
  let end_ := u32 (addr + size) in
  let '(end_, size) := if decide (end_ < addr) then (u32 (-1), u32 (-1) - addr) else (end_, size) in
  '(_, s) ← (print_loop addr end_ (S (length fmt)) fmt args;; print_end addr end_ size) (Printing buf addr);
  Some (array s, s32 (str s - addr)).

(** ** The spec: directives *)

(** A width or a precision: digits, or [*] and its argument. *)
Inductive field := Number (ds : list Z) | Star (z : Z).
(** What is converted: [%c], [%s], [%p], [%%] and the numbers, by their letter. *)
Inductive conversion := CChar (z : Z) | CString (s : option (list Z)) | CPointer (z : Z) | CPercent | CInt (letter : Z) (z : Z).
Record directive := Directive {
  d_flags : list Z;
  d_width : option field;
  d_precision : option field;
  d_qualifier : option Z;
  d_conversion : conversion
}.
Inductive item := Literal (c : Z) | Convert (d : directive).

Definition number (ds : list Z) : Z := foldl (fun i d => i * 10 + d) 0 ds.

(** How it is written in the format, and its arguments. *)
Definition field_fmt (f : field) : list Z := match f with Number ds => map (fun d => 48 + d) ds | Star _ => [42] end.
Definition field_args (f : field) : list va := match f with Number _ => [] | Star z => [VInt z] end.
Definition letter (c : conversion) : Z :=
  match c with CChar _ => 99 | CString _ => 115 | CPointer _ => 112 | CPercent => 37 | CInt l _ => l end.
Definition conversion_args (c : conversion) : list va :=
  match c with CChar z | CInt _ z => [VInt z] | CString s => [VStr s] | CPointer z => [VPtr z] | CPercent => [] end.
Definition option_list {A B} (f : A -> list B) (x : option A) : list B := match x with Some a => f a | None => [] end.
Definition directive_fmt (d : directive) : list Z :=
  d_flags d ++ option_list field_fmt (d_width d) ++ option_list (fun f => 46 :: field_fmt f) (d_precision d) ++
  option_list (fun q => [q]) (d_qualifier d) ++ [letter (d_conversion d)].
Definition directive_args (d : directive) : list va :=
  option_list field_args (d_width d) ++ option_list field_args (d_precision d) ++ conversion_args (d_conversion d).
Definition item_fmt (i : item) : list Z := match i with Literal c => [c] | Convert d => 37 :: directive_fmt d end.
Definition item_args (i : item) : list va := match i with Literal _ => [] | Convert d => directive_args d end.

(** What it means. *)
Definition flag_bit (c : Z) : Z :=
  if decide (c = 45) then LEFT else if decide (c = 43) then PLUS else if decide (c = 32) then SPACE
  else if decide (c = 35) then SPECIAL else ZEROPAD.
Definition flag_bits (f : Z) (cs : list Z) : Z := foldl (fun f c => Z.lor f (flag_bit c)) f cs.
Definition width_of (w : option field) : Z := match w with None => -1 | Some (Number ds) => number ds | Some (Star z) => Z.abs z end.
Definition precision_of (p : option field) : Z := match p with None => -1 | Some (Number ds) => number ds | Some (Star z) => Z.max 0 z end.
Definition flags_of (d : directive) : Z :=
  let f := flag_bits 0 (d_flags d) in match d_width d with Some (Star z) => if decide (z < 0) then Z.lor f LEFT else f | _ => f end.

(** [body] with blanks to [width], on the side that is asked for. *)
Definition in_field (flags width : Z) (body : list Z) : list Z :=
  let blanks := replicate (Z.to_nat (width - Z.of_nat (length body))) 32 in
  if flag flags LEFT then body ++ blanks else blanks ++ body.

Definition directive_text (d : directive) : list Z :=
  let flags := flags_of d in
  let width := width_of (d_width d) in
  let precision := precision_of (d_precision d) in
  match d_conversion d with
  | CChar z => in_field flags width [u8 z]
  | CString s =>
      let s := default (chars "(NULL)") s in
      in_field flags width (if decide (0 < precision) then take (Z.to_nat precision) s else s)
  | CPointer z =>
      if decide (width = -1) then print_number (u32 z) 16 8 precision (Z.lor flags ZEROPAD) else print_number (u32 z) 16 width precision flags
  | CPercent => [37]
  | CInt l z =>
      let '(base, flags) :=
        if decide (l = 111) then (8, flags) else if decide (l = 88) then (16, Z.lor flags LARGE) else if decide (l = 120) then (16, flags)
        else if decide (l = 117) then (10, flags) else (10, Z.lor flags SIGN) in
      print_number (int_arg (d_qualifier d) flags z) base width precision flags
  end.
Definition item_text (i : item) : list Z := match i with Literal c => [c] | Convert d => directive_text d end.

(** The directives that are meant: a width does not begin with a zero, which is a
    flag, and the numbers fit into an [int]. *)
Definition digits_ok (ds : list Z) : Prop := Forall (fun d => 0 <= d < 10) ds /\ number ds < 2 ^ 31.
Definition width_ok (w : field) : Prop :=
  match w with Number ds => digits_ok ds /\ ds <> [] /\ head ds <> Some 0 | Star z => - 2 ^ 31 < z < 2 ^ 31 end.
Definition precision_ok (p : field) : Prop := match p with Number ds => digits_ok ds | Star z => - 2 ^ 31 <= z < 2 ^ 31 end.
Definition conversion_ok (c : conversion) : Prop :=
  match c with CInt l _ => l ∈ [111; 88; 120; 100; 105; 117] | CString (Some s) => Forall (fun c => c <> 0) s | _ => True end.
Definition option_all {A} (P : A -> Prop) (x : option A) : Prop := match x with Some a => P a | None => True end.
Definition directive_ok (d : directive) : Prop :=
  Forall (fun c => c ∈ [45; 43; 32; 35; 48]) (d_flags d) /\ option_all width_ok (d_width d) /\ option_all precision_ok (d_precision d) /\
  option_all (fun q => q = 104 \/ q = 108) (d_qualifier d) /\ conversion_ok (d_conversion d).
Definition item_ok (i : item) : Prop := match i with Literal c => c <> 0 /\ c <> 37 | Convert d => directive_ok d end.

(** Up to where [rt_vsnprintf] writes: a size that goes beyond the memory ends there. *)
Definition limit (addr size : Z) : Z := if decide (addr + size < 2 ^ 32) then size else 2 ^ 32 - 1 - addr.

(** ** The format is read as it is written *)

Definition stops : list Z := [46; 104; 108; 99; 115; 112; 37; 111; 88; 120; 100; 105; 117].

(** [c] is one of some numbers: a case for each. *)
Ltac one_of H := try unfold stops in H; repeat (apply elem_of_cons in H as [H | H]; [try discriminate H; subst|]); [..|by apply not_elem_of_nil in H].

Lemma stop_not_digit c : c ∈ stops -> isdigit c = false.
Proof. intros H. unfold stops in H. one_of H; reflexivity. Qed.

Lemma digit_char_ok d : 0 <= d < 10 -> isdigit (48 + d) = true.
Proof. intros H. unfold isdigit. apply bool_decide_true. rewrite wrap_small by (unfold in_range; lia). lia. Qed.

Lemma number_ge ds : forall i, 0 <= i -> Forall (fun d => 0 <= d < 10) ds -> i <= foldl (fun i d => i * 10 + d) i ds.
Proof.
  induction ds as [|d ds IH]; intros i Hi Hd; [done|]. apply Forall_cons in Hd as [Hd Hds]. cbn [foldl].
  specialize (IH (i * 10 + d) ltac:(lia) Hds). lia.
Qed.

Lemma skip_digits ds c rest : isdigit c = false -> forall i, 0 <= i -> Forall (fun d => 0 <= d < 10) ds -> foldl (fun i d => i * 10 + d) i ds < 2 ^ 31 ->
  skip_atoi_from i (map (fun d => 48 + d) ds ++ c :: rest) = (foldl (fun i d => i * 10 + d) i ds, c :: rest).
Proof.
  intros Hc. induction ds as [|d ds IH]; intros i Hi Hd Hn; [cbn; by rewrite Hc|]. apply Forall_cons in Hd as [Hd Hds]. cbn [foldl map app skip_atoi_from] in *.
  rewrite digit_char_ok by done. pose proof (number_ge ds (i * 10 + d) ltac:(lia) Hds).
  replace (i * 10 + (48 + d) - 48) with (i * 10 + d) by lia. rewrite s32_id by lia. apply IH; [lia|done|done].
Qed.

Lemma scan_flags_ok fs c rest : Forall (fun c => c ∈ [45; 43; 32; 35; 48]) fs -> c ∉ [45; 43; 32; 35; 48] -> forall f,
  scan_flags f (fs ++ c :: rest) = (flag_bits f fs, c :: rest).
Proof.
  intros Hf Hc. induction Hf as [|d fs Hd _ IH]; intros f.
  - cbn [app scan_flags flag_bits foldl]. rewrite !decide_False by (intros ->; apply Hc; set_solver). done.
  - unfold flag_bits. cbn [app foldl scan_flags]. fold (flag_bits (Z.lor f (flag_bit d)) fs). one_of Hd; apply IH.
Qed.

Lemma number_not_neg ds : digits_ok ds -> 0 <= number ds.
Proof. intros [Hd _]. by apply number_ge. Qed.

Lemma scan_width_ok w f c rest args : option_all width_ok w -> c ∈ stops ->
  scan_width f (option_list field_fmt w ++ c :: rest) (option_list field_args w ++ args) =
  Some (width_of w, match w with Some (Star z) => if decide (z < 0) then Z.lor f LEFT else f | _ => f end, c :: rest, args).
Proof.
  intros Hw Hc. pose proof (stop_not_digit c Hc) as Hd. destruct w as [[ds|z]|]; cbn [option_all width_ok option_list field_fmt field_args app] in *.
  - destruct Hw as ([Hds Hn] & Hne & _). destruct ds as [|d ds]; [done|]. pose proof (skip_digits (d :: ds) c rest Hd 0 ltac:(lia) Hds Hn) as E.
    apply Forall_cons in Hds as [Hd0 _]. cbn [map app scan_width] in *. rewrite digit_char_ok by done. unfold skip_atoi. rewrite E. done.
  - cbn [scan_width width_of]. change (isdigit 42) with false. rewrite decide_True by done. rewrite (s32_id z) by lia. 
    destruct (decide (z < 0)); [rewrite s32_id by lia; by rewrite Z.abs_neq by lia|]. by rewrite Z.abs_eq by lia.
  - cbn [scan_width]. rewrite Hd. rewrite decide_False; [done|]. intros ->. by one_of Hc.
Qed.

Lemma scan_precision_ok p c rest args : option_all precision_ok p -> c ∈ stops -> c <> 46 ->
  scan_precision (option_list (fun f => 46 :: field_fmt f) p ++ c :: rest) (option_list field_args p ++ args) =
  Some (precision_of p, c :: rest, args).
Proof.
  intros Hp Hc Hdot. pose proof (stop_not_digit c Hc) as Hd. destruct p as [[ds|z]|]; cbn [option_all option_list field_fmt field_args app] in *.
  - pose proof (number_not_neg ds Hp) as Hpos. destruct Hp as [Hds Hn]. cbn [scan_precision]. rewrite decide_True by done. destruct ds as [|d ds].
    + cbn [map app]. rewrite Hd. rewrite decide_False; [done|]. intros ->. by one_of Hc.
    + pose proof (skip_digits (d :: ds) c rest Hd 0 ltac:(lia) Hds Hn) as E. apply Forall_cons in Hds as [Hd0 _]. cbn [map app] in *.
      rewrite digit_char_ok by done. unfold skip_atoi. rewrite E. fold (number (d :: ds)). unfold precision_of. by rewrite Z.max_r by lia.
  - cbn [scan_precision]. rewrite decide_True by done. change (isdigit 42) with false. rewrite decide_True by done. cbn [precision_ok] in Hp. rewrite (s32_id z) by lia. done.
  - cbn [scan_precision]. by rewrite decide_False.
Qed.

Lemma in_field_char flags width c : print_char c width flags = in_field flags width [c].
Proof. reflexivity. Qed.

Lemma in_field_string flags width precision s : print_string s width precision flags =
  let s := default (chars "(NULL)") s in in_field flags width (if decide (0 < precision) then take (Z.to_nat precision) s else s).
Proof.
  unfold print_string, in_field, pad, null_string. cbv zeta. generalize (default (chars "(NULL)") s). intros t.
  destruct (decide (0 < precision)) as [Hp|Hp]; [destruct (decide (precision < Z.of_nat (length t)))|].
  - rewrite decide_True by lia. rewrite length_take. replace (Z.of_nat (Z.to_nat precision `min` length t)) with precision by lia. done.
  - rewrite decide_False by lia. rewrite Nat2Z.id, !take_ge by lia. done.
  - rewrite decide_False by lia. by rewrite Nat2Z.id, take_ge by lia.
Qed.

(** One directive. *)
Lemma convert_ok d rest args : directive_ok d ->
  convert (directive_fmt d ++ rest) (directive_args d ++ args) = Some (directive_text d, rest, args).
Proof.
  destruct d as [fs w p q c]. intros (Hf & Hw & Hp & Hq & Hc). cbn [d_flags d_width d_precision d_qualifier d_conversion] in *.
  unfold convert, directive_fmt, directive_args. cbn [d_flags d_width d_precision d_qualifier d_conversion].
  rewrite <- !app_assoc.
  assert (exists c1 r1, option_list (fun q => [q]) q ++ [letter c] ++ rest = c1 :: r1 /\ c1 ∈ stops /\ c1 <> 46) as (c1 & r1 & E1 & Hc1 & Hdot).
  { assert (letter c ∈ stops /\ letter c <> 46) as [? ?]; [|destruct q as [q|]; cbn [option_list app]; eexists _, _; split; [done| |done|done]].
    - unfold stops. destruct c; cbn [letter conversion_ok] in *; try (split; [set_solver|done]). one_of Hc; (split; [set_solver|done]).
    - cbn in Hq. unfold stops. destruct Hq as [-> | ->]; (split; [set_solver|done]). }
  assert (exists c2 r2, option_list (fun f => 46 :: field_fmt f) p ++ c1 :: r1 = c2 :: r2 /\ c2 ∈ stops) as (c2 & r2 & E2 & Hc2).
  { destruct p; cbn [option_list app]; eexists _, _; (split; [done|]); [unfold stops; set_solver|done]. }
  assert (exists c3 r3, option_list field_fmt w ++ c2 :: r2 = c3 :: r3 /\ c3 ∉ [45; 43; 32; 35; 48]) as (c3 & r3 & E3 & Hc3).
  { destruct w as [w|]; cbn [option_list app]; [|eexists _, _; (split; [done|])]; [|by intros H; one_of H; one_of Hc2].
    destruct w as [ds|z]; cbn [field_fmt option_all width_ok] in *; [|eexists _, _; (split; [done|]); by intros H; one_of H].
    destruct Hw as ([Hds _] & Hne & H0). destruct ds as [|d ds]; [done|]. cbn [map app]. eexists _, _. split; [done|]. apply Forall_cons in Hds as [Hd _].
    intros H. cbn in H0. repeat (apply elem_of_cons in H as [H | H]); try lia; [|by apply not_elem_of_nil in H]. apply H0. f_equal. lia. }
  rewrite E1, E2, E3, scan_flags_ok by done. rewrite <- E3, scan_width_ok by done. cbn [mbind option_bind]. rewrite <- E2, scan_precision_ok by done. cbn [mbind option_bind].
  set (fl := match w with Some (Star _) => _ | _ => _ end).
  assert ((match c1 :: r1 with c :: fmt' => if decide (c = 104 \/ c = 108) then (Some c, fmt') else (None, c1 :: r1) | [] => (None, []) end) = (q, letter c :: rest)) as Eq.
  { destruct q as [q|]; cbn [option_list app option_all] in *; injection E1 as <- <-; [by rewrite decide_True|]. rewrite decide_False; [done|].
    destruct c; cbn in *; try (intros []; lia). by one_of Hc; intros []. }
  rewrite Eq. clear Eq E1 E2 E3 Hc1 Hc2 Hc3 Hdot c1 c2 c3 r1 r2 r3.
  destruct c as [z|s|z| |l z]; cbn [letter conversion_args app].
  - done.
  - rewrite in_field_string. done.
  - unfold directive_text. cbn [d_conversion d_width d_precision]. change (flags_of _) with fl. cbn. by destruct (decide (width_of w = -1)).
  - done.
  - unfold directive_text. cbn [d_conversion d_width d_precision d_qualifier]. change (flags_of _) with fl. cbn in Hc. by one_of Hc.
Qed.

(** A format of directives. *)
Lemma format_items items : Forall item_ok items -> forall fuel, (length (items ≫= item_fmt) < fuel)%nat ->
  format fuel (items ≫= item_fmt) (items ≫= item_args) = Some (items ≫= item_text).
Proof.
  induction 1 as [|i items Hi _ IH]; intros [|fuel] Hf; try (cbn in Hf; lia); [done|]. rewrite !bind_cons in *. rewrite length_app in Hf. destruct i as [c|d]; cbn [item_fmt item_args item_text app length] in *.
  - destruct Hi. cbn [format]. rewrite decide_True by done. rewrite IH by lia. done.
  - cbn [format]. rewrite decide_False by tauto. rewrite convert_ok by done. cbn [mbind option_bind]. rewrite IH by lia. done.
Qed.

(** ** The characters in the array *)

(** The first [k] characters of [out] over the array. *)
Definition written (buf out : list Z) (k : nat) : list Z := take k out ++ drop k buf.

Lemma write_here addr (buf out : list Z) c s : array s = out ++ drop (length out) buf -> (length out < length buf)%nat ->
  write addr (addr + Z.of_nat (length out)) c s = Some (tt, set_array (out ++ c :: drop (S (length out)) buf) s).
Proof.
  intros E Hl. unfold write. rewrite E, length_app, length_drop, decide_True by lia. do 3 f_equal.
  replace (Z.to_nat (addr + Z.of_nat (length out) - addr)) with (length out + 0)%nat by lia. rewrite insert_app_r. f_equal.
  destruct (lookup_lt_is_Some_2 buf (length out) Hl) as [d Hd]. by rewrite (drop_S _ _ _ Hd).
Qed.

Section puts.
Context (addr : Z) (L : nat) (buf : list Z).
Hypothesis addr_ok : 0 <= addr.

Lemma put_ok out c : addr + Z.of_nat (S (length out)) < 2 ^ 32 -> (L <= length buf \/ S (length out) <= length buf)%nat ->
  put addr (addr + Z.of_nat L) c (Printing (written buf out (length out `min` L)) (addr + Z.of_nat (length out))) =
  Some (tt, Printing (written buf (out ++ [c]) (length (out ++ [c]) `min` L)) (addr + Z.of_nat (length (out ++ [c])))).
Proof.
  intros Ha Hl. unfold put. rewrite (bind_eval _ _ _ _ _ eq_refl). cbn [str]. rewrite length_app. cbn [length].
  assert (forall s, str s = addr + Z.of_nat (length out) -> modify (set_str (addr + Z.of_nat (length out) + 1)) s =
    Some (tt, Printing (array s) (addr + Z.of_nat (length out + 1)))) as Hm.
  { intros s Es. unfold modify, set_str. rewrite wrap_small by (unfold in_range; lia). do 3 f_equal. lia. }
  destruct (decide (length out < L)%nat) as [Hlt|Hge].
  - rewrite bool_decide_true by lia. unfold when. rewrite !Nat.min_l by lia. unfold written. rewrite !take_ge by (rewrite ?length_app; simpl; lia).
    rewrite (bind_eval _ _ _ _ _ (write_here addr buf out c (Printing _ _) eq_refl ltac:(lia))), Hm by done. cbn [array set_array].
    by rewrite Nat.add_1_r, <- app_assoc.
  - rewrite bool_decide_false by lia. rewrite (bind_eval _ _ _ _ _ eq_refl), Hm by done. cbn [array]. rewrite !Nat.min_r by lia. unfold written.
    by rewrite take_app_le by lia.
Qed.

Lemma puts_ok cs : forall out, addr + Z.of_nat (length (out ++ cs)) < 2 ^ 32 -> (L <= length buf \/ length (out ++ cs) <= length buf)%nat ->
  puts addr (addr + Z.of_nat L) cs (Printing (written buf out (length out `min` L)) (addr + Z.of_nat (length out))) =
  Some (tt, Printing (written buf (out ++ cs) (length (out ++ cs) `min` L)) (addr + Z.of_nat (length (out ++ cs)))).
Proof.
  induction cs as [|c cs IH]; intros out Ha Hl; [by rewrite app_nil_r|]. rewrite length_app in Ha, Hl. cbn [length puts] in *.
  rewrite (bind_eval _ _ _ _ _ (put_ok out c ltac:(lia) ltac:(lia))), IH by (rewrite !length_app; simpl; lia). by rewrite <- app_assoc.
Qed.

(** The NUL goes behind the text, or into the last place. *)
Lemma print_end_ok out size : 0 <= size -> (size <> 0 <-> (0 < L)%nat) -> addr + Z.of_nat L < 2 ^ 32 -> (L <= length buf \/ length out < length buf)%nat ->
  let m := (length out `min` (L - 1))%nat in
  print_end addr (addr + Z.of_nat L) size (Printing (written buf out (length out `min` L)) (addr + Z.of_nat (length out))) =
  Some (tt, Printing (if decide (L = 0%nat) then buf else take m out ++ 0 :: drop (S m) buf) (addr + Z.of_nat (length out))).
Proof.
  intros Hs Hz Ha Hl m. unfold print_end. destruct (decide (L = 0%nat)) as [E0|N0].
  - rewrite bool_decide_false by lia. rewrite E0, Nat.min_0_r. done.
  - rewrite bool_decide_true by lia. unfold when. rewrite (bind_eval _ _ _ _ _ eq_refl). cbn [str]. subst m. destruct (decide (length out < L)%nat).
    + rewrite decide_True by lia. rewrite !Nat.min_l by lia. unfold written. rewrite !take_ge by lia. by apply write_here; [|lia].
    + rewrite decide_False by lia. rewrite !Nat.min_r by lia. rewrite wrap_small by (unfold in_range; lia).
      assert (length (take (L - 1) out) = L - 1)%nat as El by (rewrite length_take; lia).
      destruct (lookup_lt_is_Some_2 out (L - 1) ltac:(lia)) as [x Hx].
      assert (take L out = take (L - 1) out ++ [x]) as Et by (rewrite <- (take_S_r _ _ _ Hx); f_equal; lia).
      unfold write. cbn [array]. unfold written. rewrite length_app, length_take, length_drop, decide_True by lia. unfold set_array. cbn [str]. do 3 f_equal.
      replace (Z.to_nat (addr + Z.of_nat L - 1 - addr)) with (length (take (L - 1) out) + 0)%nat by lia.
      rewrite Et, <- app_assoc, insert_app_r. cbn. do 3 f_equal. lia.
Qed.

(** The loop writes what [format] says. *)
Lemma print_loop_ok fuel : forall fmt args cs out, format fuel fmt args = Some cs ->
  addr + Z.of_nat (length (out ++ cs)) < 2 ^ 32 -> (L <= length buf \/ length (out ++ cs) <= length buf)%nat ->
  print_loop addr (addr + Z.of_nat L) fuel fmt args (Printing (written buf out (length out `min` L)) (addr + Z.of_nat (length out))) =
  Some (tt, Printing (written buf (out ++ cs) (length (out ++ cs) `min` L)) (addr + Z.of_nat (length (out ++ cs)))).
Proof.
  induction fuel as [|fuel IH]; intros fmt args cs out E Ha Hl; [done|]. cbn [format print_loop] in *. destruct fmt as [|c fmt]; [injection E as <-; by rewrite app_nil_r|].
  case_decide.
  - apply bind_Some_inv in E as (cs' & E & [= <-]). change (c :: cs') with ([c] ++ cs') in *. rewrite app_assoc in *.
    rewrite (bind_eval _ _ _ _ _ (put_ok out c ltac:(rewrite !length_app in Ha; simpl in Ha; lia) ltac:(rewrite !length_app in Hl; simpl in Hl; lia))). by apply IH.
  - apply bind_Some_inv in E as ([[o r] args'] & Ec & E). apply bind_Some_inv in E as (cs' & E & [= <-]). rewrite app_assoc in *.
    rewrite (bind_eval _ _ _ (o, r, args') _) by (unfold deref; by rewrite Ec). 
    rewrite (bind_eval _ _ _ _ _ (puts_ok o out ltac:(rewrite !length_app in *; lia) ltac:(rewrite !length_app in *; lia))). by apply IH.
Qed.
End puts.

(** [rt_vsnprintf] writes what [format] says. *)
Lemma rt_vsnprintf_format addr buf size fmt args out : in_range 32 addr -> in_range 32 size ->
  format (S (length fmt)) fmt args = Some out -> addr + Z.of_nat (length out) < 2 ^ 32 -> Z.of_nat (length out) < 2 ^ 31 ->
  (limit addr size <= Z.of_nat (length buf) \/ (length out < length buf)%nat) ->
  let m := (length out `min` (Z.to_nat (limit addr size) - 1))%nat in
  rt_vsnprintf addr buf size fmt args =
  Some (if decide (limit addr size = 0) then buf else take m out ++ 0 :: drop (S m) buf, Z.of_nat (length out)).
Proof.
  intros Ha Hs E Hout Hres Hroom m. unfold in_range in Ha, Hs. unfold rt_vsnprintf. set (L := Z.to_nat (limit addr size)) in *.
  assert (addr + Z.of_nat L < 2 ^ 32 /\ 0 <= limit addr size) as [HL Hlim] by (unfold L, limit; case_decide; lia).
  assert (exists size', (let end_ := u32 (addr + size) in if decide (end_ < addr) then (u32 (-1), u32 (-1) - addr) else (end_, size)) = (addr + Z.of_nat L, size') /\
    size' = limit addr size) as (size' & Ee & Es).
  { cbv zeta. change (u32 (-1)) with (2 ^ 32 - 1). subst L. unfold limit in *. destruct (decide (addr + size < 2 ^ 32)).
    - rewrite wrap_small by (unfold in_range; lia). rewrite decide_False by lia. exists size. split; [f_equal; lia|done].
    - rewrite decide_True. { eexists. split; [f_equal; lia|done]. }
      unfold wrap. rewrite <- (Z.mod_unique (addr + size) (2 ^ 32) 1 (addr + size - 2 ^ 32)); lia. }
  cbv zeta in Ee. rewrite Ee. clear Ee.
  assert (L <= length buf \/ length out < length buf)%nat as Hr by (unfold L; lia).
  pose proof (print_loop_ok addr L buf ltac:(lia) _ _ _ out [] E) as Ep. cbn [app] in Ep. specialize (Ep Hout ltac:(lia)).
  pose proof (print_end_ok addr L buf ltac:(lia) out size' ltac:(lia) ltac:(lia) HL Hr) as Ee. cbv zeta in Ee. fold m in Ee.
  change (written buf [] _) with buf in Ep. rewrite Z.add_0_r in Ep. rewrite (bind_eval _ _ _ _ _ Ep), Ee. cbn [mbind option_bind array str].
  rewrite s32_id by lia. do 2 f_equal; [|lia]. destruct (decide (L = 0%nat)), (decide (limit addr size = 0)); try done; lia.
Qed.

(** [rt_sprintf] is [rt_vsnprintf] with the largest size. *)
Lemma rt_sprintf_is_vsnprintf addr buf fmt args buf' : in_range 32 addr -> addr + Z.of_nat (length buf) < 2 ^ 32 -> Z.of_nat (length buf) < 2 ^ 31 ->
  rt_sprintf buf fmt args = Some buf' -> exists n, rt_vsnprintf addr buf (u32 (-1)) fmt args = Some (buf', n).
Proof.
  intros Ha Hb Hlen (out & E & H)%bind_Some_inv. case_decide as Hl; [|done]. injection H as <-. eexists.
  rewrite (rt_vsnprintf_format _ _ _ _ _ out) by (done || lia || (unfold in_range; vm_compute; by split) || by right).
  assert (limit addr (u32 (-1)) = if decide (addr = 0) then 2 ^ 32 - 1 else 2 ^ 32 - 1 - addr) as ->.
  { unfold limit, in_range in *. change (u32 (-1)) with (2 ^ 32 - 1). repeat case_decide; lia. }
  unfold in_range in Ha. assert (forall L : Z, Z.of_nat (length buf) <= L -> (length out `min` (Z.to_nat L - 1) = length out)%nat) as Hm by lia.
  rewrite Hm by (case_decide; lia). rewrite decide_False by (case_decide; lia). by rewrite firstn_all.
Qed.

(** C10: [rt_vsnprintf] truncates. For any format that is made of literals and
    of directives (flags, a width and a precision in digits or by an argument,
    [h] or [l], and one of c s p % o x X d i u) and their arguments, it ends,
    reads and writes nothing but what it may, and returns the length of the
    whole text [item_text]. It puts into the array at [addr] as much of the text
    as leaves room for a NUL within [size], then that NUL, and changes nothing
    else; with size 0 it writes nothing. A size that goes beyond the memory is
    taken for the rest of it, so this is also what [rt_sprintf] does. The array
    has to have [size] bytes, or room for the whole text; the text is shorter
    than 2^31 - 1 and, from [addr] on, does not go beyond the memory. What a
    number looks like is what [print_number] says. Not covered is %f:
    [print_float] writes without regard to the end of the buffer. *)
Theorem rt_vsnprintf_truncates addr buf size items :
  let out := items ≫= item_text in
  Forall item_ok items -> in_range 32 addr -> in_range 32 size ->
  addr + Z.of_nat (length out) < 2 ^ 32 -> Z.of_nat (length out) < 2 ^ 31 - 1 ->
  (limit addr size <= Z.of_nat (length buf) \/ (length out < length buf)%nat) ->
  let m := (length out `min` (Z.to_nat (limit addr size) - 1))%nat in
  rt_vsnprintf addr buf size (items ≫= item_fmt) (items ≫= item_args) =
  Some (if decide (limit addr size = 0) then buf else take m out ++ 0 :: drop (S m) buf, Z.of_nat (length out)).
Proof.
  intros out Hi Ha Hs Hout Hres Hroom m. subst out m. apply rt_vsnprintf_format; [done..| |done|lia|done]. apply format_items; [done|lia].
Qed.

(** [snprintf(buf, 6, "n=%-*d%.2s", 5, 12, "abc")] in an array of 8: the text is
    "n=12   ab". *)
Definition demo_items : list item :=
  [Literal 110; Literal 61; Convert (Directive [45] (Some (Star 5)) None None (CInt 100 12));
   Convert (Directive [] None (Some (Number [2])) None (CString (Some (chars "abc"))))].
Lemma rt_vsnprintf_truncates_witness :
  rt_vsnprintf 1000 (replicate 8 7) 6 (chars "n=%-*d%.2s") [VInt 5; VInt 12; VStr (Some (chars "abc"))] = Some (chars "n=12 " ++ [0; 7; 7], 9).
Proof.
  apply (rt_vsnprintf_truncates 1000 (replicate 8 7) 6 demo_items).
  - repeat constructor; try discriminate; try lia; apply elem_of_list_In; simpl; tauto.
  - by vm_compute.
  - by vm_compute.
  - by vm_compute.
  - by vm_compute.
  - left. by vm_compute.
Defined.

(** Without a bound the array is overrun, and so it is by a size that is too large. *)
Example small_array_is_overrun :
  rt_vsnprintf 1000 (replicate 4 7) 5 (chars "hello") [] = None /\ rt_vsnprintf 1000 (replicate 5 7) 5 (chars "hello") [] = Some (chars "hell" ++ [0], 5).
Proof. by vm_compute. Qed.
