(* ===== verification/Msh.v ===== *)
(** * Msh: the commands of the shell

    components/finsh/msh.c: splitting a line into arguments, finding the command
    and running it, and completing its name.  A line is in an array [list Z] of
    characters; a pointer into it is an index, and an access outside of the array
    is undefined.  The table of the commands, [msh_exec_script] (msh_file.c) and
    the directory that path completion reads are parameters.  What is printed is
    left out. *)

From S2P Require Import Prelude.

Definition FINSH_ARG_MAX : nat := 10.
Definition CMD_NOT_FOUND : Z := -1.

(** The characters that matter. *)
Definition SPACE : Z := 32.
Definition TAB : Z := 9.
Definition QUOTE : Z := 34.
Definition BACKSLASH : Z := 92.
Definition SLASH : Z := 47.

(** The state is the array that the line is in. *)
Abbreviation BM := (M (list Z)).
Definition peek (i : nat) : BM Z := deref (fun b => b !! i).
Definition poke (i : nat) (c : Z) : BM unit := fun b =>
  if decide (i < length b)%nat then Some (tt, <[i := c]> b) else None.

Definition blank (c : Z) : Prop := c = SPACE \/ c = TAB.
#[export] Instance blank_dec c : Decision (blank c).
Proof. unfold blank. apply _. Defined.

(** ** Splitting a line into arguments *)

Section split.
(** [position] counts from [cmd]; [ptr] is [cmd + position] all along. *)
Context (cmd : nat) (len : Z).

(** "strip bank and tab" *)
Fixpoint strip_blanks (fuel position : nat) : BM nat :=
  c ← peek (cmd + position);
  if decide (blank c /\ Z.of_nat position < len) then
    match fuel with
    | O => halt
    | S fuel => poke (cmd + position) 0;; strip_blanks fuel (S position)
    end
  else mret position.

(** "skip this string" *)
Fixpoint skip_string (fuel position : nat) : BM nat :=
  c ← peek (cmd + position);
  if decide (c <> QUOTE /\ Z.of_nat position < len) then
    match fuel with
    | O => halt
    | S fuel =>
      position ← (if decide (c = BACKSLASH) then
                    c' ← peek (cmd + S position);
                    mret (if decide (c' = QUOTE) then S position else position)
                  else mret position);
      skip_string fuel (S position)
    end
  else mret position.

Fixpoint skip_word (fuel position : nat) : BM nat :=
  c ← peek (cmd + position);
  if decide (~ blank c /\ Z.of_nat position < len) then
    match fuel with
    | O => halt
    | S fuel => skip_word fuel (S position)
    end
  else mret position.

(** [argv] are the pointers stored so far, [argc] is their number; [fuel] is at
    least what is left of the line. *)
Fixpoint split_loop (fuel position : nat) (argv : list nat) : BM (list nat) :=
  if decide (Z.of_nat position < len) then
    match fuel with
    | O => halt
    | S fuel =>
      position ← strip_blanks (S fuel) position;
      if decide (FINSH_ARG_MAX <= length argv)%nat then mret argv
      else if decide (len <= Z.of_nat position) then mret argv
      else
        c ← peek (cmd + position);
        if decide (c = QUOTE) then
          let argv := argv ++ [(cmd + S position)%nat] in
          position ← skip_string (S fuel) (S position);
          if decide (len <= Z.of_nat position) then mret argv
          else
            poke (cmd + position) 0;;
            split_loop fuel (S position) argv
        else
          let argv := argv ++ [(cmd + position)%nat] in
          position ← skip_word (S fuel) position;
          if decide (len <= Z.of_nat position) then mret argv
          else split_loop fuel position argv
    end
  else mret argv.
End split.

Definition msh_split (cmd : nat) (len : Z) : BM (list nat) :=
  n ← gets length;
  split_loop cmd len n 0 [].

(** ** Finding and running a command *)

Record syscall := Syscall { sc_name : list Z; sc_func : Z }.

(** Characters of a C string that is not in the array of the line. *)
Definition name_at (name : list Z) (i : nat) : Z := nth i name 0.

(** [strncmp(s1, s2, n) == 0] *)
Fixpoint strncmp_equal (n : nat) (s1 s2 : nat -> Z) : bool :=
  match n with
  | O => true
  | S n =>
    if decide (s1 0%nat = s2 0%nat) then
      if decide (s1 0%nat = 0) then true else strncmp_equal n (fun i => s1 (S i)) (fun i => s2 (S i))
    else false
  end.

Definition __cmd_ : list Z := [95; 95; 99; 109; 100; 95].
Definition is_command (s : syscall) : bool := strncmp_equal 6 (name_at (sc_name s)) (name_at __cmd_).

(** What running a line comes to; the pointers are into the array. *)
Inductive exec_result :=
  | Nothing
  | Ran (func : Z) (argv : list nat)
  | Script
  | NotFound.

Section exec.
(** Whether a text names a script, which is then run. *)
Context (table : list syscall) (msh_exec_script : list Z -> bool).

Fixpoint get_cmd_loop (table : list syscall) (cmd size : nat) (b : list Z) : option Z :=
  match table with
  | [] => None
  | s :: table =>
    if is_command s && strncmp_equal size (fun i => name_at (sc_name s) (6 + i)) (fun i => name_at b (cmd + i)) &&
       bool_decide (name_at (sc_name s) (6 + size) = 0)
    then Some (sc_func s) else get_cmd_loop table cmd size b
  end.
Definition msh_get_cmd (cmd size : nat) : BM (option Z) := gets (get_cmd_loop table cmd size).

(** [None] is the answer [-RT_ERROR]. *)
Definition _msh_exec_cmd (cmd : nat) (len : Z) : BM (option (Z * list nat)) :=
  n ← gets length;
  cmd0_size ← skip_word cmd len n 0;
  if decide (cmd0_size = 0)%nat then mret None
  else
    cmd_func ← msh_get_cmd cmd cmd0_size;
    match cmd_func with
    | None => mret None
    | Some func =>
      argv ← msh_split cmd len;
      mret (if decide (length argv = 0)%nat then None else Some (func, argv))
    end.

(** "strim the beginning of command" *)
Fixpoint trim_loop (fuel cmd : nat) (len : Z) : BM (nat * Z) :=
  c ← peek cmd;
  if decide (blank c) then
    match fuel with
    | O => halt
    | S fuel => trim_loop fuel (S cmd) (u32 (len - 1))
    end
  else mret (cmd, len).

(** "truncate the cmd at the first space" *)
Fixpoint truncate_loop (fuel tcmd : nat) : BM unit :=
  c ← peek tcmd;
  if decide (c <> SPACE /\ c <> 0) then
    match fuel with
    | O => halt
    | S fuel => truncate_loop fuel (S tcmd)
    end
  else poke tcmd 0.

Definition msh_exec (cmd : nat) (len : Z) : BM exec_result :=
  n ← gets length;
  '(cmd, len) ← trim_loop n cmd len;
  if decide (len = 0) then mret Nothing
  else
    r ← _msh_exec_cmd cmd len;
    match r with
    | Some (func, argv) => mret (Ran func argv)
    | None =>
      script ← gets (fun b => msh_exec_script (take (Z.to_nat len) (drop cmd b)));
      if script : bool then mret Script
      else truncate_loop n cmd;; mret NotFound
    end.
End exec.

(** ** The arguments of a text *)

(** The text up to the first blank, and the rest. *)
Fixpoint word (s : list Z) : list Z * list Z :=
  match s with
  | [] => ([], [])
  | c :: s' => if decide (blank c) then ([], s) else let '(w, r) := word s' in (c :: w, r)
  end.
(** The text up to the closing quote, and the rest if there is one; a quote
    behind a backslash does not close, and both are kept. *)
Fixpoint quoted (s : list Z) : list Z * option (list Z) :=
  match s with
  | [] => ([], None)
  | c :: s' =>
    if decide (c = QUOTE) then ([], Some s')
    else if decide (c = BACKSLASH) then
      match s' with
      | d :: s'' =>
        if decide (d = QUOTE) then let '(w, r) := quoted s'' in (c :: d :: w, r)
        else let '(w, r) := quoted s' in (c :: w, r)
      | [] => ([c], None)
      end
    else let '(w, r) := quoted s' in (c :: w, r)
  end.
Fixpoint drop_blanks (s : list Z) : list Z :=
  match s with c :: s' => if decide (blank c) then drop_blanks s' else s | [] => [] end.

Fixpoint arguments (fuel : nat) (s : list Z) : list (list Z) :=
  match fuel with
  | O => []
  | S fuel =>
    match drop_blanks s with
    | [] => []
    | c :: s' =>
      if decide (c = QUOTE) then
        let '(w, r) := quoted s' in w :: match r with Some r => arguments fuel r | None => [] end
      else let '(w, r) := word (c :: s') in w :: arguments fuel r
    end
  end.
(** What a line says: at most ten arguments. *)
Definition args_of (s : list Z) : list (list Z) := take FINSH_ARG_MAX (arguments (length s) s).

(** The C string at a place of the array. *)
Fixpoint c_text (b : list Z) : list Z :=
  match b with c :: b => if decide (c = 0) then [] else c :: c_text b | [] => [] end.
Definition string_in (b : list Z) (o : nat) : list Z := c_text (drop o b).

Example arguments_of_a_line : let line := [112; 32; 34; 97; 32; 98; 34; 99; 32; 32; 100] in
  args_of line = [[112]; [97; 32; 98]; [99]; [100]] /\
  (fun r => map (string_in (snd r)) (fst r)) <$> msh_split 0 11 (line ++ replicate 5 0) = Some (args_of line).
Proof. split; by vm_compute. Qed.

(** ** Scanning lemmas *)

Lemma peek_eval P c s : peek (length P) (P ++ c :: s) = Some (c, P ++ c :: s).
Proof. unfold peek, deref. by rewrite lookup_app_r, Nat.sub_diag by lia. Qed.

Lemma poke_eval P c c' s : poke (length P) c' (P ++ c :: s) = Some (tt, P ++ c' :: s).
Proof.
  unfold poke. rewrite decide_True by (rewrite length_app; simpl; lia). do 2 f_equal.
  replace (length P) with (length P + 0)%nat by lia. by rewrite insert_app_r.
Qed.

Lemma word_spec s : forall w r, word s = (w, r) -> s = w ++ r /\ Forall (fun c => ~ blank c) w /\ (r = [] \/ exists c r', r = c :: r' /\ blank c).
Proof.
  induction s as [|c s IH]; intros w r; simpl; [intros [= <- <-]; auto|]. case_decide as Hc.
  - intros [= <- <-]. split; [done|]. split; [done|]. right. by exists c, s.
  - destruct (word s) as [w' r'] eqn:E. intros [= <- <-]. destruct (IH w' r' eq_refl) as (-> & Hw & Hr). split; [done|]. by split; [constructor|].
Qed.

Lemma drop_blanks_spec s : exists bl, s = bl ++ drop_blanks s /\ Forall blank bl /\ (forall c r, drop_blanks s = c :: r -> ~ blank c).
Proof.
  induction s as [|c s IH]; [exists []; by split_and!|]. simpl. case_decide as Hc.
  - destruct IH as (bl & E & Hb & Hr). exists (c :: bl). split; [simpl; congruence|]. by split; [constructor|].
  - exists []. split_and!; [done|done|]. by intros ? ? [= <- _].
Qed.

Section scan.
Context (cmd : nat) (len : Z) (post : list Z).

(** The scan is at the text [s], which ends with the line. *)
Definition at_text (P s : list Z) (position : nat) : Prop :=
  length P = (cmd + position)%nat /\ len = Z.of_nat (position + length s).

Lemma at_text_app P s1 s2 position : at_text P (s1 ++ s2) position -> at_text (P ++ s1) s2 (position + length s1).
Proof. unfold at_text. rewrite !length_app. lia. Qed.

Lemma at_text_cons P c c' s position : at_text P (c :: s) position -> at_text (P ++ [c']) s (S position).
Proof. unfold at_text. rewrite length_app. cbn [length]. lia. Qed.

Lemma peek_text P s position : at_text P s position ->
  peek (cmd + position) (P ++ s ++ 0 :: post) = Some (hd 0 s, P ++ s ++ 0 :: post).
Proof. intros [<- _]. destruct s; apply peek_eval. Qed.

Lemma strip_blanks_ok bl : forall P s fuel position, at_text P (bl ++ s) position -> Forall blank bl -> (forall c r, s = c :: r -> ~ blank c) ->
  (length bl <= fuel)%nat ->
  strip_blanks cmd len fuel position (P ++ (bl ++ s) ++ 0 :: post) =
  Some ((position + length bl)%nat, (P ++ replicate (length bl) 0) ++ s ++ 0 :: post).
Proof.
  induction bl as [|c bl IH]; intros P s fuel position Ha Hb Hs Hf.
  - unfold replicate. simpl length in *. simpl app at 2. rewrite app_nil_r, Nat.add_0_r. pose proof (peek_text _ _ _ Ha) as Ep.
    destruct fuel; cbn [strip_blanks]; rewrite (bind_eval _ _ _ _ _ Ep), decide_False; try done;
      (intros [Hc Hl]; destruct s as [|c s]; [destruct Ha; simpl in *; lia|by apply (Hs c s)]).
  - destruct fuel as [|fuel]; [simpl in Hf; lia|]. apply Forall_cons in Hb as [Hc Hb]. cbn [strip_blanks].
    pose proof (peek_text _ _ _ Ha) as Ep. rewrite (bind_eval _ _ _ _ _ Ep).
    rewrite decide_True by (split; [done|]; destruct Ha as [_ ->]; simpl; lia).
    assert (poke (cmd + position) 0 (P ++ ((c :: bl) ++ s) ++ 0 :: post) = Some (tt, P ++ 0 :: (bl ++ s) ++ 0 :: post)) as Ek
      by (destruct Ha as [<- _]; apply poke_eval).
    rewrite (bind_eval _ _ _ _ _ Ek). rewrite cons_middle, app_assoc. rewrite (IH (P ++ [0])); [|by apply (at_text_cons _ c)|done|done|simpl in Hf; lia].
    do 2 f_equal; [simpl; lia|]. by rewrite <- !app_assoc.
Qed.

Lemma skip_word_ok w : forall P s fuel position, at_text P (w ++ s) position -> Forall (fun c => ~ blank c) w ->
  (s = [] \/ exists c r, s = c :: r /\ blank c) -> (length w <= fuel)%nat ->
  skip_word cmd len fuel position (P ++ (w ++ s) ++ 0 :: post) = Some ((position + length w)%nat, P ++ (w ++ s) ++ 0 :: post).
Proof.
  induction w as [|c w IH]; intros P s fuel position Ha Hw Hs Hf.
  - pose proof (peek_text _ _ _ Ha) as Ep. simpl length. rewrite Nat.add_0_r.
    destruct fuel; cbn [skip_word]; rewrite (bind_eval _ _ _ _ _ Ep), decide_False; try done;
      (intros [Hc Hl]; destruct Hs as [->|(c & r & -> & Hb)]; [destruct Ha; simpl in *; lia|done]).
  - destruct fuel as [|fuel]; [simpl in Hf; lia|]. apply Forall_cons in Hw as [Hc Hw]. cbn [skip_word].
    pose proof (peek_text _ _ _ Ha) as Ep. rewrite (bind_eval _ _ _ _ _ Ep).
    rewrite decide_True by (split; [done|]; destruct Ha as [_ ->]; simpl; lia).
    apply (at_text_cons _ c c) in Ha. specialize (IH (P ++ [c]) s fuel (S position)). rewrite <- !app_assoc in IH. simpl in IH.
    simpl app. rewrite <- !app_assoc. rewrite IH; [do 2 f_equal; simpl; lia|done|done|done|simpl in Hf; lia].
Qed.

Lemma quoted_cons c s : quoted (c :: s) =
  if decide (c = QUOTE) then ([], Some s)
  else if decide (c = BACKSLASH /\ head s = Some QUOTE) then let '(w, r) := quoted (tail s) in (c :: QUOTE :: w, r)
  else let '(w, r) := quoted s in (c :: w, r).
Proof.
  cbn [quoted]. case_decide; [done|]. destruct (decide (c = BACKSLASH)); [|by rewrite decide_False by tauto].
  destruct s as [|d s]; [by rewrite decide_False by naive_solver|]. destruct (decide (d = QUOTE)) as [->|].
  - by rewrite decide_True.
  - rewrite decide_False by naive_solver. done.
Qed.

(** How far the scan of a quoted text goes: to the closing quote, or to the end. *)
Lemma skip_string_ok n : forall P s fuel position, (length s <= n)%nat -> at_text P s position -> Forall (fun c => c <> 0) s -> (length s <= fuel)%nat ->
  skip_string cmd len fuel position (P ++ s ++ 0 :: post) =
    Some ((position + length (fst (quoted s)))%nat, P ++ s ++ 0 :: post) /\
  match snd (quoted s) with Some r => s = fst (quoted s) ++ QUOTE :: r | None => s = fst (quoted s) end.
Proof.
  induction n as [n IH] using lt_wf_ind. intros P s fuel position Hn Ha Hz Hf. pose proof (peek_text _ _ _ Ha) as Ep.
  destruct s as [|c s].
  { split; [|done]. simpl length. rewrite Nat.add_0_r.
    destruct fuel; cbn [skip_string]; rewrite (bind_eval _ _ _ _ _ Ep), decide_False; try done; destruct Ha; simpl in *; lia. }
  destruct fuel as [|fuel]; [simpl in Hf; lia|]. cbn [skip_string]. rewrite (bind_eval _ _ _ _ _ Ep). rewrite quoted_cons. cbn [hd].
  destruct (decide (c = QUOTE)) as [->|Hq]; [rewrite decide_False by tauto; simpl; by rewrite Nat.add_0_r|].
  apply Forall_cons in Hz as [Hc Hz]. simpl in Hn, Hf.
  rewrite decide_True by (split; [done|]; destruct Ha as [_ ->]; simpl; lia).
  assert (forall k s1 s2, s = s1 ++ s2 -> k = length s1 ->
    skip_string cmd len fuel (S (k + position)) (P ++ (c :: s) ++ 0 :: post) = Some ((S (k + position) + length (fst (quoted s2)))%nat, P ++ (c :: s) ++ 0 :: post) /\
    match snd (quoted s2) with Some r => s2 = fst (quoted s2) ++ QUOTE :: r | None => s2 = fst (quoted s2) end) as Hrec.
  { intros k s1 s2 -> ->. specialize (IH (length s2) ltac:(rewrite length_app in Hn; lia) (P ++ c :: s1) s2 fuel (S (length s1 + position))).
    rewrite <- !app_assoc in IH. simpl app in IH. simpl app. rewrite <- !app_assoc. apply IH; [done| |by apply Forall_app in Hz as [_ ?]|rewrite length_app in Hf; lia].
    destruct Ha as [H1 H2]. simpl in H2. rewrite length_app in H2. split; [rewrite length_app; simpl|]; lia. }
  assert (exists p, (if decide (c = BACKSLASH) then c' ← peek (cmd + S position); mret (if decide (c' = QUOTE) then S position else position) else mret position)
      (P ++ (c :: s) ++ 0 :: post) = Some (p, P ++ (c :: s) ++ 0 :: post) /\
      p = if decide (c = BACKSLASH /\ head s = Some QUOTE) then S position else position) as (p & E1 & ->).
  { destruct (decide (c = BACKSLASH)) as [->|Hb]; [|exists position; split; [done|]; by rewrite decide_False by tauto].
    pose proof (peek_text (P ++ [BACKSLASH]) s (S position) (at_text_cons _ _ _ _ _ Ha)) as E. rewrite <- app_assoc in E.
    eexists. rewrite (bind_eval _ _ _ _ _ E). split; [done|]. destruct s as [|d s]; cbn [hd head]; repeat case_decide; naive_solver. }
  rewrite (bind_eval _ _ _ _ _ E1). destruct (decide (c = BACKSLASH /\ head s = Some QUOTE)) as [[-> Hh]|Hb].
  - destruct s as [|d s]; simpl in Hh; [done|]. injection Hh as ->. destruct (Hrec 1%nat [QUOTE] s) as [E Hm]; [done|done|]. cbn [tail].
    simpl Nat.add in E. rewrite E. destruct (quoted s) as [w r]. cbn [fst snd] in *. split; [do 2 f_equal; simpl; lia|destruct r; simpl; congruence].
  - destruct (Hrec 0%nat [] s) as [E Hm]; [done|done|]. simpl Nat.add in E. rewrite E.
    destruct (quoted s) as [w r]. cbn [fst snd] in *. split; [do 2 f_equal; simpl; lia|destruct r; simpl; congruence].
Qed.
End scan.

(** ** What splitting makes of a line *)

Lemma c_text_app w b : Forall (fun c => c <> 0) w -> c_text (w ++ 0 :: b) = w.
Proof. induction 1 as [|c w Hc _ IH]; simpl; [done|]. rewrite decide_False by done. by rewrite IH. Qed.

Lemma string_in_app P R i : string_in (P ++ R) (length P + i) = string_in R i.
Proof. unfold string_in. by rewrite drop_app_add. Qed.

Lemma string_in_here P R : string_in (P ++ R) (length P) = c_text R.
Proof. unfold string_in. by rewrite drop_app_length. Qed.

Lemma arguments_fuel f1 : forall f2 s, (length s <= f1)%nat -> (length s <= f2)%nat -> arguments f1 s = arguments f2 s.
Proof.
  induction f1 as [|f1 IH]; intros f2 s H1 H2.
  { destruct s; [|simpl in H1; lia]. by destruct f2. }
  destruct f2 as [|f2]; [destruct s; [done|simpl in H2; lia]|]. cbn [arguments].
  destruct (drop_blanks_spec s) as (bl & E & _ & Hn). destruct (drop_blanks s) as [|c s'] eqn:Ed; [done|].
  assert (length s = (length bl + S (length s'))%nat) as El by (rewrite E, length_app; done). case_decide as Hq.
  - destruct (quoted s') as [w [r|]] eqn:Eq; [|done]. f_equal.
    assert (length r <= length s')%nat.
    { clear -Eq. revert w r Eq. induction s' as [s' IH] using (induction_ltof1 _ (@length Z)); unfold ltof in IH; intros w r.
      destruct s' as [|c s']; [done|]. rewrite quoted_cons. case_decide; [intros [= <- <-]; simpl; lia|]. case_decide as Hb.
      - destruct s' as [|d s']; [naive_solver|]. cbn [tail]. destruct (quoted s') as [w' r'] eqn:E. intros [= <- ->].
        specialize (IH s' ltac:(simpl; lia) _ _ E). simpl. lia.
      - destruct (quoted s') as [w' r'] eqn:E. intros [= <- ->]. specialize (IH s' ltac:(simpl; lia) _ _ E). simpl. lia. }
    apply IH; lia.
  - destruct (word (c :: s')) as [w r] eqn:Ew. f_equal. destruct (word_spec _ _ _ Ew) as (E' & _ & Hr).
    assert (length r <= length s')%nat.
    { destruct w as [|c' w]; [|apply (f_equal length) in E'; rewrite length_app in E'; simpl in E'; lia].
      simpl in E'. subst r. destruct Hr as [?|(? & ? & [= <- <-] & Hb)]; [done|]. by destruct (Hn c s' eq_refl). }
    apply IH; lia.
Qed.

Section split_loop.
Context (cmd : nat) (len : Z) (post : list Z).

(** From the text [s] the loop makes [s'], and finds the arguments at the places
    [argv'] of it; there are [argv] already. *)
Definition splits (s : list Z) (argv argv' : list nat) (fuel : nat) (s' : list Z) : Prop :=
  length s' = length s /\ ((s = [] \/ exists c r, s = c :: r /\ blank c) -> hd 0 s' = 0) /\
  (string_in (s' ++ 0 :: post) <$> argv') = take (FINSH_ARG_MAX - length argv) (arguments fuel s).

Lemma splits_done bl s1 argv fuel : Forall blank bl -> (forall c r, s1 = c :: r -> ~ blank c) ->
  take (FINSH_ARG_MAX - length argv) (arguments fuel (bl ++ s1)) = [] -> splits (bl ++ s1) argv [] fuel (replicate (length bl) 0 ++ s1).
Proof.
  intros Hb Hs Ha. split; [by rewrite !length_app, length_replicate|]. split; [|by rewrite Ha].
  intros [E|(c & r & E & Hc)]; destruct bl as [|d bl]; simpl in *; try done; subst; [done|]. by destruct (Hs c r eq_refl).
Qed.

(** One more argument, [w], whose text starts [k] characters into what has been
    scanned, [Q]; [s'] is what follows. *)
Lemma splits_more bl c s1 Q w r s' argv argv' fuel :
  Forall blank bl -> ~ blank c -> length (Q ++ w ++ s') = length (c :: s1) ->
  Forall (fun c => c <> 0) w -> hd 0 (s' ++ 0 :: post) = 0 ->
  (string_in (s' ++ 0 :: post) <$> argv') = take (FINSH_ARG_MAX - S (length argv)) r ->
  (length argv < FINSH_ARG_MAX)%nat -> arguments fuel (bl ++ c :: s1) = w :: r ->
  splits (bl ++ c :: s1) argv ((length bl + length Q)%nat :: ((fun o => (length bl + length Q + length w + o)%nat) <$> argv')) fuel
    (replicate (length bl) 0 ++ Q ++ w ++ s').
Proof.
  intros Hb Hc Hl Hw Hh Hargs Hn Ea. split; [rewrite !length_app, length_replicate in *; simpl in *; lia|]. split.
  - intros [E|(d & t & E & Hd)]; destruct bl as [|e bl]; simpl in *; try done. injection E as -> _. done.
  - rewrite Ea. replace (FINSH_ARG_MAX - length argv)%nat with (S (FINSH_ARG_MAX - S (length argv))) by lia. cbn [fmap list_fmap take].
    set (Z0 := replicate (length bl) 0). assert (length (Z0 ++ Q) = (length bl + length Q)%nat) as El by (by rewrite length_app; unfold Z0; rewrite length_replicate).
    assert ((Z0 ++ Q ++ w ++ s') ++ 0 :: post = (Z0 ++ Q) ++ w ++ s' ++ 0 :: post) as -> by (by rewrite <- !app_assoc).
    rewrite <- Hargs, <- El. f_equal.
    + rewrite string_in_here. destruct (s' ++ 0 :: post) as [|d t] eqn:E; [by destruct s'|]. simpl in Hh. subst d. by apply c_text_app.
    + rewrite <- list_fmap_compose. apply list_fmap_ext. intros ? o _. unfold compose. rewrite <- Nat.add_assoc. by rewrite !string_in_app.
Qed.

Lemma split_loop_ok fuel : forall s P position argv, at_text cmd len P s position -> Forall (fun c => c <> 0) s -> (length s <= fuel)%nat ->
  exists s' argv', split_loop cmd len fuel position argv (P ++ s ++ 0 :: post) =
      Some (argv ++ ((fun o => (length P + o)%nat) <$> argv'), P ++ s' ++ 0 :: post) /\ splits s argv argv' fuel s'.
Proof.
  induction fuel as [|fuel IH]; intros s P position argv Ha Hz Hf.
  { destruct s as [|]; [|simpl in Hf; lia]. exists [], []. cbn [split_loop]. rewrite decide_False by (destruct Ha; simpl in *; lia).
    rewrite app_nil_r. split; [done|]. split; [done|]. split; [done|]. by destruct (FINSH_ARG_MAX - length argv)%nat. }
  destruct (decide (s = [])) as [->|Hne].
  { exists [], []. cbn [split_loop]. rewrite decide_False by (destruct Ha; simpl in *; lia).
    rewrite app_nil_r. split; [done|]. split; [done|]. split; [done|]. by destruct (FINSH_ARG_MAX - length argv)%nat. }
  cbn [split_loop]. rewrite decide_True by (destruct s; [done|destruct Ha as [_ ->]; simpl; lia]).
  destruct (drop_blanks_spec s) as (bl & Es & Hb & Hs1). remember (drop_blanks s) as s1 eqn:Ed. rewrite Es in Ha, Hz, Hf, Hne |- *.
  assert (length bl <= S fuel)%nat as Hbl by (rewrite length_app in Hf; lia).
  rewrite (bind_eval _ _ _ _ _ (strip_blanks_ok cmd len post bl P s1 (S fuel) position Ha Hb Hs1 Hbl)). set (Z0 := replicate (length bl) 0).
  assert (at_text cmd len (P ++ Z0) s1 (position + length bl)) as Ha1.
  { apply at_text_app in Ha. unfold at_text in *. rewrite !length_app in *. unfold Z0. by rewrite length_replicate. }
  assert (drop_blanks (bl ++ s1) = s1) as Ed1 by (by rewrite <- Es).
  apply Forall_app in Hz as [_ Hz]. rewrite length_app in Hf.
  destruct (decide (FINSH_ARG_MAX <= length argv)%nat) as [Hmax|Hmax].
  { exists (Z0 ++ s1), []. rewrite app_nil_r, <- !app_assoc. split; [done|]. apply splits_done; try done. by replace (FINSH_ARG_MAX - length argv)%nat with 0%nat by lia. }
  destruct s1 as [|c s1].
  { exists (Z0 ++ []), []. rewrite decide_True by (destruct Ha1; simpl in *; lia). rewrite app_nil_r, <- !app_assoc. split; [done|]. apply splits_done; try done.
    cbn [arguments]. rewrite Ed1. by destruct (FINSH_ARG_MAX - length argv)%nat. }
  rewrite decide_False by (destruct Ha1 as [_ ->]; simpl; lia).
  rewrite (bind_eval _ _ _ _ _ (peek_text cmd len post _ _ _ Ha1)). cbn [hd].
  assert (~ blank c) as Hc by (by eapply Hs1). destruct (decide (c = QUOTE)) as [->|Hq].
  - pose proof (at_text_cons cmd len _ QUOTE QUOTE _ _ Ha1) as Ha2. apply Forall_cons in Hz as [_ Hz].
    destruct (skip_string_ok cmd len post (length s1) ((P ++ Z0) ++ [QUOTE]) s1 (S fuel) _ ltac:(done) Ha2 Hz ltac:(simpl in Hf; lia)) as [E Hr].
    assert (((P ++ Z0) ++ [QUOTE]) ++ s1 ++ 0 :: post = (P ++ Z0) ++ (QUOTE :: s1) ++ 0 :: post) as Ex by (by rewrite <- app_assoc).
    rewrite Ex in E. rewrite (bind_eval _ _ _ _ _ E). destruct (quoted s1) as [w [r|]] eqn:Eq; cbn [fst snd] in *.
    + subst s1. rewrite decide_False by (destruct Ha2 as [_ ->]; rewrite length_app; simpl; lia).
      set (P2 := (((P ++ Z0) ++ [QUOTE]) ++ w)). pose proof (at_text_app _ _ _ _ _ _ Ha2) as Ha3. fold P2 in Ha3.
      assert ((P ++ Z0) ++ (QUOTE :: w ++ QUOTE :: r) ++ 0 :: post = P2 ++ QUOTE :: r ++ 0 :: post) as Ey by (unfold P2; rewrite <- !app_assoc; simpl; by rewrite <- !app_assoc).
      rewrite Ey. rewrite (bind_eval _ _ _ tt (P2 ++ 0 :: r ++ 0 :: post)) by (destruct Ha3 as [<- _]; apply poke_eval).
      apply (at_text_cons _ _ _ _ 0) in Ha3. apply Forall_app in Hz as [Hw [_ Hz]%Forall_cons].
      assert (P2 ++ 0 :: r ++ 0 :: post = (P2 ++ [0]) ++ r ++ 0 :: post) as -> by (by rewrite <- app_assoc).
      edestruct (IH r (P2 ++ [0]) _ (argv ++ [(cmd + S (position + length bl))%nat]) Ha3 Hz) as (r' & argv' & E2 & Hl & _ & Hargs);
        [simpl in Hf; rewrite length_app in Hf; simpl in Hf; lia|].
      rewrite E2. exists (Z0 ++ [QUOTE] ++ w ++ 0 :: r'), ((length bl + 1)%nat :: ((fun o => (length bl + 1 + length w + o)%nat) <$> (S <$> argv'))).
      split.
      * apply (f_equal Some), f_equal2; [|unfold P2; by rewrite <- !app_assoc]. rewrite <- app_assoc. f_equal. cbn [app fmap list_fmap]. f_equal; [destruct Ha; lia|].
        rewrite <- !list_fmap_compose. apply list_fmap_ext. intros ? o _. unfold compose, P2, Z0. rewrite !length_app, length_replicate. simpl. lia.
      * apply (splits_more bl QUOTE (w ++ QUOTE :: r) [QUOTE] w (arguments fuel r)); try done.
        -- rewrite !length_app. simpl. rewrite !length_app. simpl. lia.
        -- rewrite length_app in Hargs. simpl in Hargs. rewrite Nat.add_1_r in Hargs. rewrite <- Hargs, <- list_fmap_compose. by apply list_fmap_ext.
        -- lia.
        -- cbn [arguments]. rewrite Ed1, decide_True by done. by rewrite Eq.
    + subst w. rewrite decide_True by (destruct Ha2 as [_ ->]; lia).
      exists (Z0 ++ [QUOTE] ++ s1 ++ []), ((length bl + 1)%nat :: ((fun o => (length bl + 1 + length s1 + o)%nat) <$> [])). split.
      * apply (f_equal Some), f_equal2; [|by rewrite app_nil_r, <- !app_assoc]. f_equal. cbn [app fmap list_fmap]. f_equal. destruct Ha; lia.
      * apply (splits_more bl QUOTE s1 [QUOTE] s1 []); try done; [by rewrite app_nil_r|by destruct (FINSH_ARG_MAX - S _)%nat|lia|].
        cbn [arguments]. rewrite Ed1, decide_True by done. by rewrite Eq.
  - destruct (word (c :: s1)) as [w r] eqn:Ew. destruct (word_spec _ _ _ Ew) as (E' & Hw & Hr). rewrite E' in Ha1 |- *.
    assert (length (c :: s1) = length w + length r)%nat as Elen by (by rewrite E', length_app).
    assert (length w <= S fuel)%nat as Hwf by lia.
    rewrite (bind_eval _ _ _ _ _ (skip_word_ok cmd len post w _ r (S fuel) _ Ha1 Hw Hr Hwf)).
    pose proof (at_text_app _ _ _ _ _ _ Ha1) as Ha2. rewrite E' in Hz. apply Forall_app in Hz as [Hzw Hzr].
    assert (arguments (S fuel) (bl ++ w ++ r) = w :: arguments fuel r) as Eargs.
    { cbn [arguments]. rewrite <- E', Ed1, decide_False by done. by rewrite Ew. }
    destruct (decide (r = [])) as [->|Hrn].
    + rewrite decide_True by (destruct Ha2 as [_ ->]; simpl; lia).
      exists (Z0 ++ [] ++ w ++ []), ((length bl + 0)%nat :: ((fun o => (length bl + 0 + length w + o)%nat) <$> [])). split.
      * apply (f_equal Some), f_equal2; [|by rewrite <- !app_assoc]. f_equal. cbn [app fmap list_fmap]. f_equal. destruct Ha; lia.
      * rewrite <- E' at 1. apply (splits_more bl c s1 [] w []); try done; [rewrite <- E'; done|by destruct (FINSH_ARG_MAX - S _)%nat|lia|].
        rewrite E', Eargs. by destruct fuel.
    + rewrite decide_False by (destruct Ha2 as [_ ->]; destruct r; [done|simpl; lia]).
      assert (w <> []) as Hwn by (intros ->; simpl in E'; destruct Hr as [|(d & t & -> & Hd)]; [done|]; injection E' as -> _; done).
      edestruct (IH r ((P ++ Z0) ++ w) _ (argv ++ [(cmd + (position + length bl))%nat]) Ha2 Hzr) as (r' & argv' & E2 & Hl & Hh & Hargs).
      { destruct w; [done|]. simpl in Elen, Hf. lia. }
      assert ((P ++ Z0) ++ (w ++ r) ++ 0 :: post = ((P ++ Z0) ++ w) ++ r ++ 0 :: post) as -> by (by rewrite <- !app_assoc).
      rewrite E2. exists (Z0 ++ [] ++ w ++ r'), ((length bl + 0)%nat :: ((fun o => (length bl + 0 + length w + o)%nat) <$> argv')). split.
      * apply (f_equal Some), f_equal2; [|by rewrite <- !app_assoc]. rewrite <- app_assoc. f_equal. cbn [app fmap list_fmap]. f_equal; [destruct Ha; lia|].
        rewrite <- !list_fmap_compose. apply list_fmap_ext. intros ? o _. unfold compose, Z0. rewrite !length_app, length_replicate. simpl. lia.
      * rewrite <- E' at 1. apply (splits_more bl c s1 [] w (arguments fuel r)); try done.
        -- rewrite E'. simpl. rewrite !length_app. lia.
        -- destruct r' as [|d r']; [done|]. by apply Hh.
        -- rewrite length_app in Hargs. simpl in Hargs. by rewrite Nat.add_1_r in Hargs.
        -- lia.
        -- by rewrite E'.
Qed.
End split_loop.

Definition no_nul (s : list Z) : Prop := Forall (fun c => c <> 0) s.

(** Splitting a text in an array, in place. *)
Lemma msh_split_ok pre text post : no_nul text ->
  exists text' argv, msh_split (length pre) (Z.of_nat (length text)) (pre ++ text ++ 0 :: post) = Some (argv, pre ++ text' ++ 0 :: post) /\
    length text' = length text /\ (string_in (pre ++ text' ++ 0 :: post) <$> argv) = args_of text.
Proof.
  intros Hz. unfold msh_split. rewrite (bind_eval _ _ _ (length (pre ++ text ++ 0 :: post)) (pre ++ text ++ 0 :: post)) by done.
  assert (length text <= length (pre ++ text ++ 0%Z :: post))%nat as Hf by (rewrite !length_app; lia).
  destruct (split_loop_ok (length pre) (Z.of_nat (length text)) post _ text pre 0 [] ltac:(split; [lia|done]) Hz Hf) as (s' & argv' & E & Hl & _ & Ha).
  rewrite E. eexists s', _. split; [done|]. split; [done|]. unfold args_of. rewrite (arguments_fuel _ (length (pre ++ text ++ 0 :: post))) by lia.
  simpl app. simpl length in Ha. rewrite Nat.sub_0_r in Ha. rewrite <- Ha, <- list_fmap_compose. apply list_fmap_ext. intros ? o _. unfold compose. apply string_in_app.
Qed.

(** ** What running a line does *)

Inductive outcome :=
  | ENothing
  | ERan (func : Z) (args : list (list Z))
  | EScript
  | ENotFound.

Section run.
Context (table : list syscall) (script : list Z -> bool).

(** The first command of that name. *)
Definition find_command (name : list Z) : option Z :=
  sc_func <$> head (filter (fun s => sc_name s = __cmd_ ++ name) table).

Definition exec_spec (text : list Z) : outcome :=
  let text := drop_blanks text in
  if decide (text = []) then ENothing
  else
    match find_command (fst (word text)) with
    | Some func => ERan func (args_of text)
    | None => if script text then EScript else ENotFound
    end.

(** The answer [r] with the array [b] is the outcome [o]. *)
Definition says (b : list Z) (r : exec_result) (o : outcome) : Prop :=
  match r, o with
  | Nothing, ENothing | Script, EScript | NotFound, ENotFound => True
  | Ran func argv, ERan func' args => func = func' /\ (string_in b <$> argv) = args
  | _, _ => False
  end.

Lemma strncmp_prefix w : forall L g, no_nul w -> (forall i, (i < length w)%nat -> g i = nth i w 0) ->
  strncmp_equal (length w) (name_at L) g = bool_decide (take (length w) L = w).
Proof.
  unfold name_at. induction w as [|c w IH]; intros L g Hw Hg; [by rewrite take_0|].
  apply Forall_cons in Hw as [Hc Hw]. cbn [length strncmp_equal]. rewrite (Hg 0%nat) by (simpl; lia). cbn [nth].
  destruct L as [|d L]; cbn [nth take].
  - rewrite decide_False by congruence. by rewrite bool_decide_false.
  - destruct (decide (d = c)) as [->|Hd]; [|by rewrite bool_decide_false by congruence]. rewrite decide_False by done.
    rewrite (IH L) by (done || intros i Hi; apply (Hg (S i)); simpl; lia). apply bool_decide_ext. split; [by intros ->|by intros [= ?]].
Qed.

Lemma nth_end (L : list Z) n : no_nul L -> nth n L 0 = 0 <-> (length L <= n)%nat.
Proof.
  intros HL. revert n. induction HL as [|c L Hc _ IH]; intros [|n]; simpl; [split; [lia|done]..| |].
  - split; [done|lia].
  - rewrite IH. lia.
Qed.

Lemma get_cmd_loop_ok l w cmd b : Forall (fun s => no_nul (sc_name s)) l -> no_nul w -> w <> [] ->
  (forall i, (i < length w)%nat -> name_at b (cmd + i) = nth i w 0) ->
  get_cmd_loop l cmd (length w) b = sc_func <$> head (filter (fun s => sc_name s = __cmd_ ++ w) l).
Proof.
  intros Hl Hw Hn Hb. induction Hl as [|s l Hs _ IH]; [done|]. cbn [get_cmd_loop]. rewrite IH.
  assert (is_command s && strncmp_equal (length w) (fun i => name_at (sc_name s) (6 + i)) (fun i => name_at b (cmd + i)) &&
    bool_decide (name_at (sc_name s) (6 + length w) = 0) = bool_decide (sc_name s = __cmd_ ++ w)) as ->.
  { unfold is_command. change 6%nat with (length __cmd_) at 1. rewrite strncmp_prefix; [|by repeat constructor|done].
    assert (forall i, name_at (sc_name s) (6 + i) = name_at (drop 6 (sc_name s)) i) as Ed by (intros i; unfold name_at; symmetry; apply nth_skipn).
    assert (strncmp_equal (length w) (fun i => name_at (sc_name s) (6 + i)) (fun i => name_at b (cmd + i)) = bool_decide (take (length w) (drop 6 (sc_name s)) = w)) as ->.
    { rewrite <- (strncmp_prefix w (drop 6 (sc_name s)) (fun i => name_at b (cmd + i))) by done. clear -Ed.
      assert (forall n f f' g, (forall i, f i = f' i) -> strncmp_equal n f g = strncmp_equal n f' g) as Hx.
      { induction n as [|n IHn]; intros f f' g Hf; [done|]. simpl. rewrite Hf. repeat case_decide; try done. apply IHn. intros i. apply Hf. }
      by apply Hx. }
    rewrite <- !bool_decide_and. apply bool_decide_ext. unfold name_at. rewrite nth_end by done. change (length __cmd_) with 6%nat. split.
    - intros [[E1 E2] E3]. rewrite <- (take_drop 6 (sc_name s)), E1. f_equal. rewrite <- E2. symmetry. apply take_ge. rewrite length_drop. lia.
    - intros ->. rewrite length_app. change (length __cmd_) with 6%nat. rewrite (take_app_length' __cmd_ w) by done. rewrite (drop_app_length' __cmd_ w) by done.
      split; [split; [done|by rewrite take_ge]|lia]. }
  rewrite filter_cons. case_bool_decide; by case_decide.
Qed.

Lemma trim_loop_ok bl : forall pre s post fuel len, Forall blank bl -> (forall c r, s = c :: r -> ~ blank c) -> (length bl <= fuel)%nat ->
  Z.of_nat (length bl) <= len < 2 ^ 32 ->
  trim_loop fuel (length pre) len (pre ++ (bl ++ s) ++ 0 :: post) = Some ((length pre + length bl)%nat, len - Z.of_nat (length bl), pre ++ (bl ++ s) ++ 0 :: post).
Proof.
  induction bl as [|c bl IH]; intros pre s post fuel len Hb Hs Hf Hl.
  - assert (peek (length pre) (pre ++ s ++ 0 :: post) = Some (hd 0 s, pre ++ s ++ 0 :: post)) as Ep by (destruct s; apply peek_eval).
    simpl app. destruct fuel; cbn [trim_loop]; rewrite (bind_eval _ _ _ _ _ Ep), decide_False;
      try (simpl length; rewrite Nat.add_0_r, Z.sub_0_r; done); destruct s as [|c s]; try (by intros [?|?]); by apply (Hs c s).
  - apply Forall_cons in Hb as [Hc Hb]. destruct fuel as [|fuel]; [simpl in Hf; lia|]. cbn [trim_loop].
    rewrite (bind_eval _ _ _ _ _ (peek_eval pre c ((bl ++ s) ++ 0 :: post))). rewrite decide_True by done.
    cbn [length] in Hl, Hf. rewrite wrap_small by (unfold in_range; lia).
    specialize (IH (pre ++ [c]) s post fuel (len - 1) Hb Hs ltac:(lia) ltac:(lia)). rewrite length_app, <- !app_assoc in IH. cbn [length app] in IH.
    rewrite Nat.add_1_r in IH. cbn [length app]. rewrite <- !app_assoc, IH. apply (f_equal Some), f_equal2; [f_equal; lia|done].
Qed.

Lemma truncate_loop_ok s : forall pre post fuel, (length s <= fuel)%nat ->
  exists s', truncate_loop fuel (length pre) (pre ++ s ++ 0 :: post) = Some (tt, pre ++ s' ++ 0 :: post) /\ length s' = length s.
Proof.
  induction s as [|c s IH]; intros pre post fuel Hf.
  - exists []. simpl app. split; [|done]. destruct fuel; cbn [truncate_loop]; rewrite (bind_eval _ _ _ _ _ (peek_eval pre 0 post)), decide_False by tauto; apply poke_eval.
  - destruct fuel as [|fuel]; [simpl in Hf; lia|]. cbn [truncate_loop]. rewrite (bind_eval _ _ _ _ _ (peek_eval pre c (s ++ 0 :: post))).
    case_decide as Hc.
    + destruct (IH (pre ++ [c]) post fuel) as (s' & E & Hl); [simpl in Hf; lia|]. rewrite length_app, <- !app_assoc in E. simpl in E. rewrite Nat.add_1_r in E.
      exists (c :: s'). split; [exact E|simpl; lia].
    + exists (0 :: s). split; [apply poke_eval|done].
Qed.

Lemma args_of_not_nil c s : ~ blank c -> args_of (c :: s) <> [].
Proof.
  intros Hc. unfold args_of. cbn [length arguments drop_blanks]. rewrite decide_False by done.
  destruct (decide (c = QUOTE)); [destruct (quoted s) as [w r]|destruct (word (c :: s)) as [w r]]; unfold FINSH_ARG_MAX; by intros [=].
Qed.

(** Running the text at [pre] in the array: what happens is what the text says. *)
Lemma msh_exec_ok pre text post : Forall (fun s => no_nul (sc_name s)) table -> no_nul text -> Z.of_nat (length text) < 2 ^ 32 ->
  exists r text', msh_exec table script (length pre) (Z.of_nat (length text)) (pre ++ text ++ 0 :: post) = Some (r, pre ++ text' ++ 0 :: post) /\
    length text' = length text /\ says (pre ++ text' ++ 0 :: post) r (exec_spec text).
Proof.
  intros Ht Hz Hlen. destruct (drop_blanks_spec text) as (bl & Es & Hb & Hs). unfold exec_spec. remember (drop_blanks text) as s eqn:Ed. clear Ed. subst text.
  unfold msh_exec. rewrite (bind_eval _ _ _ _ _ eq_refl). set (n := length _).
  assert (length bl + length s <= n)%nat as Hn by (unfold n; rewrite !length_app; lia).
  assert (Z.of_nat (length bl) <= Z.of_nat (length (bl ++ s)) < 2 ^ 32) as Hlb by (rewrite length_app in *; lia).
  rewrite (bind_eval _ _ _ _ _ (trim_loop_ok bl pre s post n _ Hb Hs ltac:(lia) Hlb)).
  assert (Z.of_nat (length (bl ++ s)) - Z.of_nat (length bl) = Z.of_nat (length s)) as -> by (rewrite length_app; lia).
  apply Forall_app in Hz as [_ Hz].
  assert (pre ++ (bl ++ s) ++ 0 :: post = (pre ++ bl) ++ s ++ 0 :: post) as Ex by (by rewrite <- !app_assoc).
  assert ((length pre + length bl)%nat = length (pre ++ bl)) as Ep by (by rewrite length_app). rewrite Ex, Ep.
  destruct (decide (s = [])) as [->|Hsn].
  { exists Nothing, (bl ++ []). rewrite decide_True by done. rewrite <- Ex. done. }
  rewrite decide_False by (destruct s; [done|simpl; lia]).
  destruct (word s) as [w r] eqn:Ew. destruct (word_spec _ _ _ Ew) as (E' & Hw & Hr). cbn [fst].
  assert (w <> []) as Hwn.
  { intros ->. simpl in E'. subst r. destruct Hr as [?|(c & t & -> & Hc)]; [done|]. by apply (Hs c t). }
  assert (_msh_exec_cmd table (length (pre ++ bl)) (Z.of_nat (length s)) ((pre ++ bl) ++ s ++ 0 :: post) =
    match find_command w with
    | None => Some (None, (pre ++ bl) ++ s ++ 0 :: post)
    | Some func => (argv ← msh_split (length (pre ++ bl)) (Z.of_nat (length s));
        mret (if decide (length argv = 0)%nat then None else Some (func, argv))) ((pre ++ bl) ++ s ++ 0 :: post)
    end) as Ec.
  { unfold _msh_exec_cmd. rewrite (bind_eval _ _ _ _ _ eq_refl).
    assert (skip_word (length (pre ++ bl)) (Z.of_nat (length s)) (length ((pre ++ bl) ++ s ++ 0 :: post)) 0 ((pre ++ bl) ++ s ++ 0 :: post) =
      Some (length w, (pre ++ bl) ++ s ++ 0 :: post)) as Esk.
    { rewrite E'. rewrite skip_word_ok; [done|split; [lia|done]|done|done|]. rewrite !length_app. lia. }
    rewrite (bind_eval _ _ _ _ _ Esk). rewrite decide_False by (by destruct w).
    unfold msh_get_cmd. rewrite (bind_eval _ _ _ _ _ eq_refl).
    assert (no_nul w) as Hzw by (rewrite E' in Hz; by apply Forall_app in Hz as [? _]).
    rewrite (get_cmd_loop_ok table w); [|done|done|done|].
    2:{ intros i Hi. unfold name_at. rewrite app_nth2_plus, app_nth1 by (rewrite E', length_app; lia). by rewrite E', app_nth1 by lia. }
    unfold find_command. by destruct (head _). }
  destruct (find_command w) as [func|].
  - destruct (msh_split_ok (pre ++ bl) s post Hz) as (s' & argv & E2 & Hl & Ha). rewrite (bind_eval _ _ _ _ _ E2) in Ec.
    assert (length argv <> 0%nat) as Hargv.
    { destruct argv; [|done]. destruct s as [|c s]; [done|]. simpl in Ha. symmetry in Ha. by apply args_of_not_nil in Ha; [|by eapply Hs]. }
    rewrite decide_False in Ec by done. rewrite (bind_eval _ _ _ _ _ Ec). exists (Ran func argv), (bl ++ s').
    assert ((pre ++ bl) ++ s' ++ 0 :: post = pre ++ (bl ++ s') ++ 0 :: post) as Ey by (by rewrite <- !app_assoc). rewrite Ey in Ha |- *.
    split; [done|]. split; [rewrite !length_app; lia|]. by split.
  - rewrite (bind_eval _ _ _ _ _ Ec), (bind_eval _ _ _ _ _ eq_refl).
    assert (take (Z.to_nat (Z.of_nat (length s))) (drop (length (pre ++ bl)) ((pre ++ bl) ++ s ++ 0 :: post)) = s) as ->
      by (rewrite Nat2Z.id, drop_app_length; by apply take_app_length).
    destruct (script s).
    + exists Script, (bl ++ s). by rewrite <- Ex.
    + destruct (truncate_loop_ok s (pre ++ bl) post n ltac:(lia)) as (s' & E2 & Hl). rewrite (bind_eval _ _ _ _ _ E2). exists NotFound, (bl ++ s').
      assert ((pre ++ bl) ++ s' ++ 0 :: post = pre ++ (bl ++ s') ++ 0 :: post) as -> by (by rewrite <- !app_assoc). split; [done|]. split; [rewrite !length_app; lia|done].
Qed.
End run.
