(* ===== verification/Complete.v ===== *)
(** * Complete: the completion of what is typed

    components/finsh/msh.c: completing the name of a command, and of a file.  The
    line is an array as in [Msh]; what is in a directory ([opendir], [readdir]),
    the working directory and whether there is memory for a path are parameters.
    The candidates are printed, which is left out. *)

From S2P Require Import Prelude Msh.

(** The length of the string at [i]; without an end it is undefined. *)
Definition strlen (i : nat) : BM nat := fun b =>
  let n := length (string_in b i) in if decide (i + n < length b)%nat then Some (n, b) else None.

(** [memcpy] of what is in another object. *)
Fixpoint write_at (i : nat) (cs : list Z) : BM unit :=
  match cs with [] => mret tt | c :: cs => poke i c;; write_at (S i) cs end.

(** [strncmp(prefix, name, strlen(prefix)) == 0] *)
Definition starts (prefix name : list Z) : bool := strncmp_equal (length prefix) (name_at prefix) (name_at name).

Fixpoint str_common (str1 str2 : list Z) : nat :=
  match str1, str2 with
  | c1 :: str1, c2 :: str2 => if decide (c1 <> 0 /\ c2 <> 0 /\ c1 = c2) then S (str_common str1 str2) else 0%nat
  | _, _ => 0%nat
  end.

Definition PATH_SIZE : nat := 256.
(** What [full_path] holds, if it is large enough. *)
Definition full_path (s : list Z) : BM (list Z) := if decide (length s < PATH_SIZE)%nat then mret s else undefined.

Section complete.
Context (table : list syscall) (cwd : list Z) (readdir : list Z -> option (list (list Z))) (memory : bool).

(** The place behind the last slash from [ptr] on, or [index]. *)
Fixpoint behind_slash (fuel ptr index : nat) : BM nat :=
  c ← peek ptr;
  let index := if decide (c = SLASH) then S ptr else index in
  if decide (c = 0) then mret index
  else match fuel with O => halt | S fuel => behind_slash fuel (S ptr) index end.

(** The names of a directory that begin with [prefix]: how much of [first] they
    have in common. *)
Fixpoint match_names (prefix : list Z) (names : list (list Z)) (min_length : nat) (first : list Z) : BM (nat * list Z) :=
  match names with
  | [] => mret (min_length, first)
  | d_name :: names =>
    if starts prefix d_name then
      '(min_length, first) ← (if decide (min_length = 0)%nat then first ← full_path d_name; mret (length d_name, first)
                              else mret (min_length, first));
      let length := str_common d_name first in
      match_names prefix names (if decide (length < min_length)%nat then length else min_length) first
    else match_names prefix names min_length first
  end.

Definition msh_auto_complete_path (path : nat) : BM unit :=
  if memory then
    c ← peek path;
    parent ← (if decide (c <> SLASH) then
                match last cwd with
                | None => undefined
                | Some c => full_path (if decide (c <> SLASH) then cwd ++ [SLASH] else cwd)
                end
              else mret []);
    n ← gets length;
    index ← behind_slash n path path;
    part ← gets (fun b => take (index - path) (drop path b));
    parent ← full_path (parent ++ part);
    match readdir parent with
    | None => mret tt
    | Some names =>
      c ← peek index;
      if decide (c = 0) then mret tt
      else
        length ← strlen index;
        prefix ← gets (fun b => take length (drop index b));
        '(min_length, first) ← match_names prefix names 0 parent;
        if decide (min_length = 0)%nat then mret tt
        else write_at index (take min_length first);; poke (index + min_length) 0
    end
  else mret tt.

(** From [ptr] down to [prefix], which itself is not looked at. *)
Fixpoint last_blank (prefix n : nat) : BM (option nat) :=
  match n with
  | O => mret None
  | S n' =>
    c ← peek (prefix + n);
    if decide (c = SPACE) then mret (Some (prefix + n)%nat) else last_blank prefix n'
  end.

(** The commands whose names begin with [text]: the first, and how much of it
    they have in common. *)
Fixpoint match_commands (text : list Z) (table : list syscall) (min_length : nat) (name_ptr : option (list Z)) : nat * option (list Z) :=
  match table with
  | [] => (min_length, name_ptr)
  | s :: table =>
    let cmd_name := drop 6 (sc_name s) in
    if is_command s && starts text cmd_name then
      let '(min_length, name_ptr) := if decide (min_length = 0)%nat then (length cmd_name, Some cmd_name) else (min_length, name_ptr) in
      let length := str_common (default [] name_ptr) cmd_name in
      match_commands text table (if decide (length < min_length)%nat then length else min_length) name_ptr
    else match_commands text table min_length name_ptr
  end.

Definition msh_auto_complete (prefix : nat) : BM unit :=
  c ← peek prefix;
  if decide (c = 0) then mret tt
  else
    n ← strlen prefix;
    ptr ← last_blank prefix n;
    match ptr with Some ptr => msh_auto_complete_path (S ptr) | None => mret tt end;;
    n ← strlen prefix;
    text ← gets (fun b => take n (drop prefix b));
    let '(min_length, name_ptr) := match_commands text table 0 None in
    match name_ptr with
    | Some name_ptr => write_at prefix (take min_length name_ptr)
    | None => mret tt
    end.
End complete.

(** ** What completion makes of a text *)

(** The longest common beginning. *)
Fixpoint common (s t : list Z) : list Z :=
  match s, t with c :: s, d :: t => if decide (c = d) then c :: common s t else [] | _, _ => [] end.

(** As far as all the names that begin with [s] agree. *)
Definition extend (names : list (list Z)) (s : list Z) : list Z :=
  match filter (fun name => s `prefix_of` name) names with [] => s | name :: names => foldl common name names end.

(** The text up to the last separator, which is included, and the rest. *)
Fixpoint after_last (sep : Z) (s : list Z) : option (list Z * list Z) :=
  match s with
  | [] => None
  | c :: s =>
    match after_last sep s with
    | Some (a, b) => Some (c :: a, b)
    | None => if decide (c = sep) then Some ([c], s) else None
    end
  end.

Section spec.
Context (table : list syscall) (cwd : list Z) (readdir : list Z -> option (list (list Z))) (memory : bool).

Definition with_slash (s : list Z) : list Z := if decide (last s = Some SLASH) then s else s ++ [SLASH].
Definition complete_path (s : list Z) : list Z :=
  let '(a, b) := default ([], s) (after_last SLASH s) in
  if decide (memory = false \/ b = []) then s
  else match readdir ((if decide (head s = Some SLASH) then [] else with_slash cwd) ++ a) with
       | None => s
       | Some names => a ++ extend names b
       end.

Definition commands : list (list Z) := map (fun s => drop 6 (sc_name s)) (filter (fun s => __cmd_ `prefix_of` sc_name s) table).
Definition complete_spec (text : list Z) : list Z :=
  match text with
  | [] => []
  | c :: t =>
    extend commands (match after_last SPACE t with Some (a, b) => c :: a ++ complete_path b | None => text end)
  end.
End spec.

Example completes : let table := [Syscall (__cmd_ ++ [112; 115]) 1; Syscall (__cmd_ ++ [112; 119; 100]) 2; Syscall (__cmd_ ++ [112; 119; 101]) 3] in
  let readdir := fun p => if decide (p = [47; 97; 47]) then Some [[120; 121; 122]; [120; 121]; [122]] else None in
  (fun r => take 6 (snd r)) <$> msh_auto_complete table [47] readdir true 0 ([112; 119] ++ replicate 6 0) = Some ([112; 119] ++ replicate 4 0) /\
  (fun r => take 6 (snd r)) <$> msh_auto_complete table [47] readdir true 0 ([112; 32; 97; 47; 120; 0; 0; 0; 0]) = Some [112; 32; 97; 47; 120; 121] /\
  complete_spec table [47] readdir true [112; 32; 97; 47; 120] = [112; 32; 97; 47; 120; 121].
Proof. by vm_compute. Qed.

(** ** Lemmas *)

Lemma strlen_ok pre text post : no_nul text -> strlen (length pre) (pre ++ text ++ 0 :: post) = Some (length text, pre ++ text ++ 0 :: post).
Proof.
  intros Hz. unfold strlen. rewrite string_in_here, c_text_app by done.
  rewrite decide_True; [done|]. rewrite !length_app. simpl. lia.
Qed.

Lemma write_at_ok cs : forall pre old post, length old = length cs ->
  write_at (length pre) cs (pre ++ old ++ post) = Some (tt, pre ++ cs ++ post).
Proof.
  induction cs as [|c cs IH]; intros pre [|d old] post Hl; try done. injection Hl as Hl. cbn [write_at app].
  rewrite (bind_eval _ _ _ _ _ (poke_eval pre d c (old ++ post))). specialize (IH (pre ++ [c]) old post Hl).
  rewrite length_app, <- !app_assoc in IH. cbn [length app] in IH. by rewrite Nat.add_1_r in IH.
Qed.

(** Writing a longer text over one that is followed by zeros. *)
Lemma write_longer pre old new k : (length old <= length new <= length old + k)%nat ->
  write_at (length pre) new (pre ++ old ++ replicate k 0) = Some (tt, pre ++ new ++ replicate (length old + k - length new) 0).
Proof.
  intros Hl. replace k with ((length new - length old) + (length old + k - length new))%nat at 1 by lia.
  rewrite replicate_add, (app_assoc old). apply write_at_ok. rewrite length_app, length_replicate. lia.
Qed.

Lemma strncmp_sym n : forall f g, strncmp_equal n f g = strncmp_equal n g f.
Proof.
  induction n as [|n IH]; intros f g; [done|]. cbn [strncmp_equal]. destruct (decide (f 0%nat = g 0%nat)) as [E|E].
  - rewrite (decide_True (P := g 0%nat = f 0%nat)) by done. rewrite E, IH. done.
  - by rewrite decide_False by congruence.
Qed.

Lemma starts_ok prefix name : no_nul prefix -> starts prefix name = bool_decide (prefix `prefix_of` name).
Proof.
  intros Hz. unfold starts. rewrite strncmp_sym, strncmp_prefix by done. apply bool_decide_ext. split.
  - intros <-. apply prefix_take.
  - intros [r ->]. by apply take_app_length.
Qed.

Lemma str_common_ok s : forall t, no_nul s -> str_common s t = length (common s t).
Proof.
  induction s as [|c s IH]; intros [|d t] Hs; try done. apply Forall_cons in Hs as [Hc Hs]. cbn [str_common common].
  destruct (decide (c = d)) as [->|Hd]; [rewrite decide_True by done; simpl; by rewrite IH|by rewrite decide_False by tauto].
Qed.

Lemma common_take d : forall m f, common (take m f) d = take (m `min` length (common d f)) f.
Proof.
  induction d as [|c d IH]; intros [|m] [|e f]; try done. cbn [take common]. destruct (decide (e = c)) as [->|He].
  - rewrite (decide_True (P := c = c)) by done. cbn [length Nat.min take]. by rewrite IH.
  - by rewrite decide_False by congruence.
Qed.

Lemma common_refl s : common s s = s.
Proof. induction s as [|c s IH]; [done|]. simpl. rewrite decide_True by done. by rewrite IH. Qed.

Lemma common_prefix p : forall s t, p `prefix_of` s -> p `prefix_of` t -> p `prefix_of` common s t.
Proof.
  induction p as [|c p IH]; intros s t [s' ->] [t' ->]; [apply prefix_nil|]. simpl. rewrite decide_True by done.
  apply prefix_cons, IH; by apply prefix_app_r.
Qed.

Lemma common_comm s : forall t, common s t = common t s.
Proof. induction s as [|c s IH]; intros [|d t]; try done. simpl. destruct (decide (c = d)) as [->|]; [rewrite decide_True by done; by rewrite IH|by rewrite decide_False by congruence]. Qed.

Lemma common_no_nul s : forall t, no_nul s -> no_nul (common s t).
Proof. induction s as [|c s IH]; intros [|d t] Hs; try constructor. apply Forall_cons in Hs as [Hc Hs]. simpl. case_decide; [constructor; [done|by apply IH]|constructor]. Qed.

(** Completion only adds to the text. *)
Lemma extend_prefix names s : s `prefix_of` extend names s.
Proof.
  unfold extend. assert (Forall (fun name => s `prefix_of` name) (filter (fun name => s `prefix_of` name) names)) as H
    by (apply Forall_forall; by intros x [? _]%list_elem_of_filter).
  destruct H as [|n l Hn Hl]; [done|]. revert n Hn. induction Hl as [|m l Hm _ IH]; intros n Hn; [done|]. apply IH. by apply common_prefix.
Qed.

Lemma extend_no_nul names s : Forall no_nul names -> no_nul s -> no_nul (extend names s).
Proof.
  intros Hn Hs. unfold extend. assert (Forall no_nul (filter (fun name => s `prefix_of` name) names)) as H by (apply Forall_forall; intros x [_ Hx]%list_elem_of_filter; by eapply Forall_forall in Hx).
  destruct H as [|n l Hn' Hl]; [done|]. revert n Hn'. induction Hl as [|m l Hm _ IH]; intros n Hn'; [done|]. apply IH. by apply common_no_nul.
Qed.

Lemma after_last_app sep s : forall a b, after_last sep s = Some (a, b) -> s = a ++ b.
Proof.
  induction s as [|c s IH]; intros a b; [done|]. cbn [after_last]. destruct (after_last sep s) as [[a' b']|] eqn:E.
  - intros [= <- <-]. simpl. by rewrite (IH a' b').
  - case_decide; [|done]. by intros [= <- <-].
Qed.

Lemma after_last_snoc sep c s : after_last sep (s ++ [c]) =
  if decide (c = sep) then Some (s ++ [c], []) else prod_map id (.++ [c]) <$> after_last sep s.
Proof.
  induction s as [|d s IH]; simpl; [by case_decide|]. rewrite IH. case_decide; [done|]. destruct (after_last sep s) as [[a b]|]; [done|]. by case_decide.
Qed.

(** What both loops compute: how much of [first] the names that begin with
    [prefix] have in common. *)
Fixpoint scan (prefix : list Z) (names : list (list Z)) (min_length : nat) (first : list Z) : nat * list Z :=
  match names with
  | [] => (min_length, first)
  | name :: names =>
    if decide (prefix `prefix_of` name) then
      let '(m, f) := if decide (min_length = 0)%nat then (length name, name) else (min_length, first) in
      scan prefix names (m `min` str_common f name) f
    else scan prefix names min_length first
  end.

Definition name_ok (name : list Z) : Prop := no_nul name /\ (length name < PATH_SIZE)%nat.

Lemma min_if m n : (if decide (n < m)%nat then n else m) = (m `min` n)%nat.
Proof. case_decide; lia. Qed.

Lemma match_names_ok prefix names b : no_nul prefix -> Forall name_ok names -> forall m f, (m <> 0%nat -> no_nul f) ->
  match_names prefix names m f b = Some (scan prefix names m f, b).
Proof.
  intros Hp. induction 1 as [|name names [Hn Hl] _ IH]; intros m f Hf; [done|]. cbn [match_names scan]. rewrite starts_ok by done.
  destruct (decide (prefix `prefix_of` name)); [rewrite bool_decide_true by done|rewrite bool_decide_false by done; by apply IH].
  destruct (decide (m = 0)%nat).
  - unfold full_path. rewrite decide_True by done. rewrite (bind_eval _ _ _ (length name, name) b) by done. rewrite min_if. by apply IH.
  - rewrite (bind_eval _ _ _ (m, f) b) by done. rewrite min_if, IH by auto.
    rewrite !str_common_ok by auto. by rewrite common_comm.
Qed.

(** [m] characters of [first] are what the names so far have in common. *)
Definition agrees (prefix : list Z) (m : nat) (first : list Z) : Prop := prefix <> [] /\ prefix `prefix_of` take m first /\ no_nul first /\ (m <= length first)%nat.

Lemma agrees_pos prefix m first : agrees prefix m first -> m <> 0%nat.
Proof. intros (Hne & [r E] & _) ->. by destruct prefix. Qed.

Lemma agrees_more prefix m first name : agrees prefix m first -> prefix `prefix_of` name ->
  take (m `min` str_common first name) first = common (take m first) name /\ agrees prefix (m `min` str_common first name) first.
Proof.
  intros (Hne & Hp & Hz & Hl) Hn. rewrite str_common_ok by done. assert (take (m `min` length (common first name)) first = common (take m first) name) as E
    by (by rewrite common_comm, common_comm, common_take, (common_comm name)).
  split; [done|]. split; [done|]. split; [rewrite E; by apply common_prefix|]. split; [done|lia].
Qed.

Lemma agrees_first prefix name : prefix <> [] -> prefix `prefix_of` name -> no_nul name ->
  take (length name `min` str_common name name) name = name /\ agrees prefix (length name `min` str_common name name) name.
Proof.
  intros Hne Hp Hz. rewrite str_common_ok, common_refl, Nat.min_id by done. assert (take (length name) name = name) as E by by apply take_ge.
  split; [done|]. split; [done|]. by rewrite E.
Qed.

Lemma scan_more prefix names : Forall no_nul names -> forall m first, agrees prefix m first ->
  let '(m', first') := scan prefix names m first in
  first' = first /\ agrees prefix m' first /\ take m' first = foldl common (take m first) (filter (fun name => prefix `prefix_of` name) names).
Proof.
  induction 1 as [|name names Hn _ IH]; intros m first Ha; [done|]. cbn [scan]. rewrite filter_cons. destruct (decide (prefix `prefix_of` name)) as [Hp|Hp]; [|by apply IH].
  rewrite decide_False by (by eapply agrees_pos). destruct (agrees_more _ _ _ _ Ha Hp) as [E Ha']. specialize (IH _ _ Ha').
  destruct (scan prefix names _ first) as [m' first']. cbn [foldl]. by rewrite <- E.
Qed.

Lemma scan_ok prefix names x : prefix <> [] -> Forall no_nul names ->
  let '(m, first) := scan prefix names 0 x in
  if decide (m = 0)%nat then extend names prefix = prefix else take m first = extend names prefix /\ agrees prefix m first.
Proof.
  intros Hne. unfold extend. induction 1 as [|name names Hn Hns IH]; [done|]. cbn [scan]. rewrite filter_cons. destruct (decide (prefix `prefix_of` name)) as [Hp|Hp]; [|by apply IH].
  rewrite decide_True by done. destruct (agrees_first prefix name) as [E Ha]; [done..|]. pose proof (scan_more prefix names Hns _ _ Ha) as Hs.
  destruct (scan prefix names _ name) as [m first]. destruct Hs as (-> & Ha' & E'). rewrite decide_False by (by eapply agrees_pos). rewrite E' , E. by split.
Qed.

Lemma match_commands_ok text table : no_nul text -> text <> [] -> Forall (fun s => no_nul (sc_name s)) table -> forall m np,
  (np = None /\ m = 0%nat \/ exists f, np = Some f /\ agrees text m f) ->
  match_commands text table m np =
  let '(m', f) := scan text (commands table) m (default [] np) in (m', if decide (m' = 0)%nat then None else Some f).
Proof.
  intros Hp Hne. induction 1 as [|s table Hs _ IH]; intros m np Hm.
  { simpl. destruct Hm as [[-> ->]|(f & -> & Ha)]; [done|]. by rewrite decide_False by (by eapply agrees_pos). }
  unfold commands. cbn [match_commands map]. rewrite filter_cons.
  assert (is_command s = bool_decide (__cmd_ `prefix_of` sc_name s)) as ->.
  { unfold is_command. change (strncmp_equal 6) with (strncmp_equal (length __cmd_)). rewrite strncmp_prefix; [|by repeat constructor|done].
    rewrite <- starts_ok by (by repeat constructor). unfold starts. rewrite strncmp_sym. by rewrite strncmp_prefix by (done || by repeat constructor). }
  rewrite starts_ok by done. destruct (decide (__cmd_ `prefix_of` sc_name s)); [rewrite bool_decide_true by done|rewrite bool_decide_false by done; by apply IH].
  cbn [map scan andb].
  set (name := drop 6 (sc_name s)) in *. assert (no_nul name) as Hn by (by apply Forall_drop).
  destruct (decide (text `prefix_of` name)); [rewrite bool_decide_true by done|rewrite bool_decide_false by done; by apply IH].
  destruct Hm as [[-> ->]|(f & -> & Ha)].
  - rewrite decide_True by done. rewrite min_if. apply (IH _ (Some name)). right. exists name. split; [done|]. by apply agrees_first.
  - rewrite decide_False by (by eapply agrees_pos). rewrite min_if, decide_False by (by eapply agrees_pos). apply (IH _ (Some f)). right. exists f. split; [done|]. by apply agrees_more.
Qed.

(** ** The scans of the line *)

Lemma behind_slash_ok s : forall pre post fuel index, no_nul s -> (length s <= fuel)%nat ->
  behind_slash fuel (length pre) index (pre ++ s ++ 0 :: post) =
  Some (match after_last SLASH s with Some (a, _) => (length pre + length a)%nat | None => index end, pre ++ s ++ 0 :: post).
Proof.
  induction s as [|c s IH]; intros pre post fuel index Hz Hf.
  { simpl app. by destruct fuel; cbn [behind_slash]; rewrite (bind_eval _ _ _ _ _ (peek_eval pre 0 post)). }
  apply Forall_cons in Hz as [Hc Hz]. destruct fuel as [|fuel]; [simpl in Hf; lia|]. cbn [behind_slash].
  rewrite (bind_eval _ _ _ _ _ (peek_eval pre c (s ++ 0 :: post))). rewrite (decide_False (P := c = 0)) by done.
  specialize (IH (pre ++ [c]) post fuel (if decide (c = SLASH) then S (length pre) else index) Hz ltac:(simpl in Hf; lia)).
  rewrite length_app, <- !app_assoc in IH. cbn [length app] in IH. rewrite Nat.add_1_r in IH. cbn [app]. rewrite IH. cbn [after_last].
  destruct (after_last SLASH s) as [[a b]|]; [simpl; do 2 f_equal; lia|]. case_decide; [simpl; do 2 f_equal; lia|done].
Qed.

Lemma last_blank_ok t : forall pre c post,
  last_blank (length pre) (length t) (pre ++ c :: t ++ post) =
  Some (match after_last SPACE t with Some (a, _) => Some (length pre + length a)%nat | None => None end, pre ++ c :: t ++ post).
Proof.
  induction t as [|d t IH] using rev_ind; intros pre c post; [done|]. rewrite after_last_snoc, length_app, <- app_assoc. cbn [length app]. rewrite Nat.add_1_r. cbn [last_blank].
  assert (peek (length pre + S (length t)) (pre ++ c :: t ++ d :: post) = Some (d, pre ++ c :: t ++ d :: post)) as Ep.
  { pose proof (peek_eval (pre ++ c :: t) d post) as E. rewrite length_app, <- app_assoc in E. exact E. }
  rewrite (bind_eval _ _ _ _ _ Ep). case_decide.
  - by rewrite length_app, Nat.add_1_r.
  - rewrite IH. by destruct (after_last SPACE t) as [[a b]|].
Qed.

Lemma peek_hd pre s post : peek (length pre) (pre ++ s ++ 0 :: post) = Some (hd 0 s, pre ++ s ++ 0 :: post).
Proof. destruct s; apply peek_eval. Qed.

Section complete_ok.
Context (table : list syscall) (cwd : list Z) (readdir : list Z -> option (list (list Z))) (memory : bool).
(** The working directory has a name that leaves room for a line, and names of
    files are at most 255 characters. *)
Hypothesis cwd_ok : cwd <> [] /\ (length cwd + 81 < PATH_SIZE)%nat.
Hypothesis readdir_ok : forall p names, readdir p = Some names -> Forall name_ok names.
Hypothesis table_ok : Forall (fun s => no_nul (sc_name s)) table.

Definition parent_of (s : list Z) : list Z := if decide (head s = Some SLASH) then [] else with_slash cwd.

Lemma parent_ok s b : no_nul s ->
  (if decide (hd 0 s <> SLASH) then
     match last cwd with
     | None => undefined
     | Some c => full_path (if decide (c <> SLASH) then cwd ++ [SLASH] else cwd)
     end
   else mret []) b = Some (parent_of s, b) /\ (length (parent_of s) + 80 < PATH_SIZE)%nat.
Proof.
  intros Hz. unfold parent_of, with_slash. destruct cwd_ok as [Hne Hl]. assert (hd 0 s = SLASH <-> head s = Some SLASH) as Hs.
  { destruct s; simpl; [by split|]. split; [by intros ->|by intros [=]]. }
  destruct (decide (head s = Some SLASH)) as [H|H]; [rewrite decide_False by tauto; split; [done|simpl; unfold PATH_SIZE; lia]|].
  rewrite decide_True by tauto. destruct (last cwd) as [c|] eqn:El; [|by apply last_None in El]. unfold full_path.
  destruct (decide (c = SLASH)) as [->|Hc].
  - rewrite (decide_True (P := Some SLASH = Some SLASH)) by done. rewrite (decide_False (P := SLASH <> SLASH)) by tauto. rewrite decide_True by lia. split; [done|lia].
  - rewrite (decide_True (P := c <> SLASH)), (decide_False (P := Some c = Some SLASH)) by congruence. rewrite length_app. simpl.
    rewrite decide_True by lia. split; [done|lia].
Qed.

Lemma msh_auto_complete_path_ok pre s k : no_nul s -> (length s < 80)%nat ->
  let s' := complete_path cwd readdir memory s in (length s' <= length s + k)%nat ->
  msh_auto_complete_path cwd readdir memory (length pre) (pre ++ s ++ replicate (S k) 0) =
  Some (tt, pre ++ s' ++ replicate (S (length s + k - length s')) 0).
Proof.
  intros Hz Hl80 s' Hl. subst s'. unfold complete_path, msh_auto_complete_path in *. fold (parent_of s) in *.
  assert (exists a b, default ([], s) (after_last SLASH s) = (a, b) /\ s = a ++ b /\
    match after_last SLASH s with Some (a, _) => (length pre + length a)%nat | None => length pre end = length (pre ++ a)) as (a & b & Ed & Es & Ei).
  { destruct (after_last SLASH s) as [[a b]|] eqn:E; [exists a, b; split_and!; [done|by eapply after_last_app|by rewrite length_app]|exists [], s; by rewrite app_nil_r]. }
  rewrite Ed in *. subst s. assert (forall n, (n + k - n = k)%nat) as Hk by lia. change (replicate (S k) 0) with (0 :: replicate k 0).
  destruct memory; [|rewrite (decide_True (P := _ \/ _)) by auto; by rewrite Hk].
  set (zs := replicate k 0). rewrite (bind_eval _ _ _ _ _ (peek_hd pre (a ++ b) zs)).
  destruct (parent_ok (a ++ b) (pre ++ (a ++ b) ++ 0 :: zs) Hz) as [Ep Hpl]. rewrite (bind_eval _ _ _ _ _ Ep). clear Ep.
  assert (length (a ++ b) <= length (pre ++ (a ++ b) ++ 0%Z :: zs))%nat as Hfuel by (rewrite !length_app; lia).
  rewrite (bind_eval _ _ _ _ _ eq_refl), (bind_eval _ _ _ _ _ (behind_slash_ok (a ++ b) pre _ _ (length pre) Hz Hfuel)).
  rewrite (bind_eval _ _ _ _ _ eq_refl), Ei.
  assert (take (length (pre ++ a) - length pre) (drop (length pre) (pre ++ (a ++ b) ++ 0 :: zs)) = a) as ->.
  { rewrite drop_app_length, length_app. replace (length pre + length a - length pre)%nat with (length a) by lia. by rewrite <- app_assoc, take_app_length. }
  set (parent := parent_of (a ++ b)) in *.
  assert (full_path (parent ++ a) (pre ++ (a ++ b) ++ 0 :: zs) = Some (parent ++ a, pre ++ (a ++ b) ++ 0 :: zs)) as Ef.
  { unfold full_path. rewrite decide_True; [done|]. rewrite length_app in *. lia. }
  rewrite (bind_eval _ _ _ _ _ Ef). clear Ef Ei. pose proof (readdir_ok (parent ++ a)) as Hr. destruct (readdir (parent ++ a)) as [names|]; [|by case_decide; rewrite Hk].
  specialize (Hr names eq_refl). apply Forall_app in Hz as [Hza Hzb].
  assert (pre ++ (a ++ b) ++ 0 :: zs = (pre ++ a) ++ b ++ 0 :: zs) as E1 by (by rewrite <- !app_assoc). rewrite E1.
  rewrite (bind_eval _ _ _ _ _ (peek_hd (pre ++ a) b zs)). destruct (decide (b = [])) as [->|Hb].
  { rewrite (decide_True (P := _ \/ _)) by auto. rewrite decide_True by done. rewrite Hk. by rewrite <- E1. }
  rewrite (decide_False (P := _ \/ _)) in Hl |- * by (by intros [?|?]).
  rewrite decide_False by (destruct b as [|c b]; [done|by apply Forall_cons in Hzb as [? _]]).
  rewrite (bind_eval _ _ _ _ _ (strlen_ok (pre ++ a) b zs Hzb)), (bind_eval _ _ _ _ _ eq_refl).
  rewrite drop_app_length, take_app_length.
  assert (Forall no_nul names) as Hnn by (eapply Forall_impl; [done|by intros ? [? _]]).
  rewrite (bind_eval _ _ _ _ _ (match_names_ok b names _ Hzb Hr 0 (parent ++ a) ltac:(done))).
  pose proof (scan_ok b names (parent ++ a) Hb Hnn) as Hs. destruct (scan b names 0 (parent ++ a)) as [m first].
  destruct (decide (m = 0)%nat) as [->|Hm]; [rewrite Hs, Hk; by rewrite <- E1|]. destruct Hs as [Et (_ & _ & _ & Hml)]. rewrite Et.
  rewrite !length_app in Hl. pose proof (prefix_length _ _ (extend_prefix names b)) as Hlb.
  pose proof (write_longer (pre ++ a) b (extend names b) (S k) ltac:(lia)) as Ew. rewrite (bind_eval _ _ _ _ _ Ew).
  assert (length (extend names b) = m) as Em by (rewrite <- Et; by apply length_take_le). rewrite Em in *.
  pose proof (poke_eval ((pre ++ a) ++ extend names b) 0 0 (replicate (length b + k - m) 0)) as Ek. rewrite (length_app (pre ++ a)), Em, <- app_assoc in Ek.
  replace (length b + S k - m)%nat with (S (length b + k - m)) by lia. cbn [replicate]. rewrite Ek.
  rewrite !length_app, Em. do 2 f_equal. replace (length a + length b + k - (length a + m))%nat with (length b + k - m)%nat by lia. by rewrite <- !app_assoc.
Qed.

Lemma complete_path_no_nul s : no_nul s -> no_nul (complete_path cwd readdir memory s).
Proof.
  intros Hz. unfold complete_path. destruct (default ([], s) (after_last SLASH s)) as [a b] eqn:E. case_decide; [done|].
  destruct (readdir _) as [names|] eqn:Er; [|done]. apply readdir_ok in Er.
  assert (s = a ++ b) as -> by (destruct (after_last SLASH s) as [[a' b']|] eqn:E'; simpl in E; injection E as <- <-; [by eapply after_last_app|done]).
  apply Forall_app in Hz as [Ha Hb]. apply Forall_app. split; [done|]. apply extend_no_nul; [|done]. eapply Forall_impl; [done|by intros ? [? _]].
Qed.

Lemma commands_no_nul : Forall no_nul (commands table).
Proof.
  apply Forall_forall. intros x [s [-> [_ Hs]%list_elem_of_filter]]%list_elem_of_fmap. apply Forall_drop. by eapply Forall_forall in table_ok.
Qed.

Lemma complete_no_nul text : no_nul text -> no_nul (complete_spec table cwd readdir memory text).
Proof.
  intros Hz. unfold complete_spec. destruct text as [|c t]; [done|]. apply extend_no_nul; [apply commands_no_nul|].
  destruct (after_last SPACE t) as [[a b]|] eqn:E; [|done]. apply after_last_app in E as ->. rewrite app_comm_cons in Hz |- *.
  apply Forall_app in Hz as [Ha Hb]. apply Forall_app. split; [done|by apply complete_path_no_nul].
Qed.

(** The completion that is shown is the one the names allow. *)
Lemma msh_auto_complete_ok pre text k : no_nul text -> (length text < 80)%nat ->
  let text' := complete_spec table cwd readdir memory text in (length text' <= length text + k)%nat ->
  msh_auto_complete table cwd readdir memory (length pre) (pre ++ text ++ replicate (S k) 0) =
  Some (tt, pre ++ text' ++ replicate (S (length text + k - length text')) 0).
Proof.
  intros Hz Hl80 text' Hl. subst text'. unfold msh_auto_complete, complete_spec in *. destruct text as [|c t].
  { change (replicate (S k) 0) with (0 :: replicate k 0). rewrite (bind_eval _ _ _ _ _ (peek_hd pre [] _)), decide_True by done. by rewrite Nat.sub_0_r. }
  set (text := match after_last SPACE t with Some (a, b) => c :: a ++ complete_path cwd readdir memory b | None => c :: t end) in *.
  pose proof (prefix_length _ _ (extend_prefix (commands table) text)) as Hpl.
  assert (no_nul text /\ text <> []) as [Hzt Htn].
  { unfold text. destruct (after_last SPACE t) as [[a b]|] eqn:E; [|done]. apply after_last_app in E as ->. split; [|done]. rewrite app_comm_cons in Hz |- *.
    apply Forall_app in Hz as [Ha Hb]. apply Forall_app. split; [done|by apply complete_path_no_nul]. }
  assert (forall P : Prop, (c <> 0 -> P) -> P) as Hc by (apply Forall_cons in Hz as [? _]; auto). change (replicate (S k) 0) with (0 :: replicate k 0).
  rewrite (bind_eval _ _ _ _ _ (peek_hd pre (c :: t) _)). rewrite decide_False by (by apply Hc). clear Hc.
  rewrite (bind_eval _ _ _ _ _ (strlen_ok pre (c :: t) (replicate k 0) Hz)).
  assert (last_blank (length pre) (length (c :: t)) (pre ++ (c :: t) ++ 0 :: replicate k 0) =
    Some (match after_last SPACE t with Some (a, _) => Some (length pre + length a)%nat | None => None end, pre ++ (c :: t) ++ 0 :: replicate k 0)) as Eb.
  { cbn [length last_blank]. assert (peek (length pre + S (length t)) (pre ++ (c :: t) ++ 0 :: replicate k 0) = Some (0, pre ++ (c :: t) ++ 0 :: replicate k 0)) as Ep.
    { pose proof (peek_eval (pre ++ c :: t) 0 (replicate k 0)) as E. by rewrite length_app, <- app_assoc in E. }
    rewrite (bind_eval _ _ _ _ _ Ep), decide_False by done. apply last_blank_ok. }
  rewrite (bind_eval _ _ _ _ _ Eb). clear Eb.
  set (k' := (length (c :: t) + k - length text)%nat).
  assert (match match after_last SPACE t with Some (a, _) => Some (length pre + length a)%nat | None => None end with
    | Some ptr => msh_auto_complete_path cwd readdir memory (S ptr) | None => mret tt end (pre ++ (c :: t) ++ 0 :: replicate k 0) =
    Some (tt, pre ++ text ++ 0 :: replicate k' 0)) as Epath.
  { unfold k', text in *. destruct (after_last SPACE t) as [[a b]|] eqn:E; [|by replace (length (c :: t) + k - length (c :: t))%nat with k by lia].
    apply after_last_app in E as ->. rewrite app_comm_cons in *. apply Forall_app in Hz as [_ Hzb].
    assert (length b < 80 /\ length (complete_path cwd readdir memory b) <= length b + k)%nat as [Hb1 Hb2]
      by (clear -Hl Hpl Hl80; cbn [app length] in *; rewrite ?length_app in *; lia).
    pose proof (msh_auto_complete_path_ok (pre ++ c :: a) b k Hzb Hb1 Hb2) as E. rewrite <- !app_assoc in E. rewrite <- !app_assoc.
    replace (S (length pre + length a))%nat with (length (pre ++ c :: a)) by (rewrite length_app; simpl; lia).
    replace (length ((c :: a) ++ b) + k - length (c :: a ++ complete_path cwd readdir memory b))%nat with (length b + k - length (complete_path cwd readdir memory b))%nat
      by (rewrite length_app; simpl; rewrite length_app; lia). rewrite app_comm_cons, <- app_assoc. exact E. }
  rewrite (bind_eval _ _ _ _ _ Epath). clear Epath.
  rewrite (bind_eval _ _ _ _ _ (strlen_ok pre text (replicate k' 0) Hzt)), (bind_eval _ _ _ _ _ eq_refl).
  rewrite drop_app_length, take_app_length. rewrite match_commands_ok by (done || by left). cbn [default].
  pose proof (scan_ok text (commands table) [] Htn commands_no_nul) as Hs. destruct (scan text (commands table) 0 []) as [m first].
  destruct (decide (m = 0)%nat) as [->|Hm]; [by rewrite Hs|]. destruct Hs as [-> _].
  change (0 :: replicate k' 0) with (replicate (S k') 0). rewrite write_longer by (unfold k'; lia).
  do 5 f_equal. unfold k'. lia.
Qed.
End complete_ok.
