(* ===== verification/Shell.v ===== *)
(** * Shell: the line editor of the shell

    components/finsh/shell.c: [finsh_thread_entry] takes one key after another,
    edits the line, keeps the history, and at the end of a line runs it.  The
    line is the array of 80 characters of the structure, and an access outside of
    it is undefined.  What is printed is left out, and with it the echo and the
    prompt; the prefix search ([list_prefix]) is a parameter.  A line for
    the interpreter of expressions is recorded; [FinshLine] runs it.  The
    commands, the expressions and the other threads change the working directory
    and the directories, which is [surroundings].  The spec is a text with a
    cursor and a list of past lines. *)

From S2P Require Import Prelude Msh Complete.

Definition FINSH_CMD_SIZE : nat := 80.
Definition FINSH_HISTORY_LINES : nat := 5.

Inductive input_stat := WAIT_NORMAL | WAIT_SPEC_KEY | WAIT_FUNC_KEY.

(** What the end of a line makes happen. *)
Inductive event := Command (o : outcome) | Expression (line : list Z).

(** What a tab sees besides the line: the working directory, what [opendir] and
    [readdir] say of a directory, and whether there is memory for a path. *)
Record surroundings := Surroundings {
  cwd : list Z;
  readdir : list Z -> option (list (list Z));
  memory : bool
}.

(** [__msh_state] is the static of msh.c; [events] records what has been run. *)
Record finsh_shell := Shell {
  stat : input_stat;
  current_history : Z;
  history_count : Z;
  cmd_history : list (list Z);
  line : list Z;
  line_position : Z;
  line_curpos : Z;
  __msh_state : bool;
  events : list event;
  around : surroundings
}.

Definition set_stat x s := Shell x (current_history s) (history_count s) (cmd_history s) (line s) (line_position s) (line_curpos s) (__msh_state s) (events s) (around s).
Definition set_current x s := Shell (stat s) x (history_count s) (cmd_history s) (line s) (line_position s) (line_curpos s) (__msh_state s) (events s) (around s).
Definition set_count x s := Shell (stat s) (current_history s) x (cmd_history s) (line s) (line_position s) (line_curpos s) (__msh_state s) (events s) (around s).
Definition set_row i x s := Shell (stat s) (current_history s) (history_count s) (<[i := x]> (cmd_history s)) (line s) (line_position s) (line_curpos s) (__msh_state s) (events s) (around s).
Definition set_line x s := Shell (stat s) (current_history s) (history_count s) (cmd_history s) x (line_position s) (line_curpos s) (__msh_state s) (events s) (around s).
Definition set_position x s := Shell (stat s) (current_history s) (history_count s) (cmd_history s) (line s) (u16 x) (line_curpos s) (__msh_state s) (events s) (around s).
Definition set_curpos x s := Shell (stat s) (current_history s) (history_count s) (cmd_history s) (line s) (line_position s) (u16 x) (__msh_state s) (events s) (around s).
Definition add_event (msh : bool) w x s := Shell (stat s) (current_history s) (history_count s) (cmd_history s) (line s) (line_position s) (line_curpos s) msh (events s ++ [x]) w.
Definition set_around w s := Shell (stat s) (current_history s) (history_count s) (cmd_history s) (line s) (line_position s) (line_curpos s) (__msh_state s) (events s) w.

(** [rt_calloc] of the structure, in [finsh_system_init]. *)
Definition finsh_system_init (w : surroundings) : finsh_shell :=
  Shell WAIT_NORMAL 0 0 (replicate FINSH_HISTORY_LINES (replicate FINSH_CMD_SIZE 0)) (replicate FINSH_CMD_SIZE 0) 0 0 true [] w.

Abbreviation SM := (M finsh_shell).
Definition on_line {A} (m : BM A) : SM A := fun s =>
  match m (line s) with Some (a, l) => Some (a, set_line l s) | None => None end.

(** [memmove] within the line, as [KString] shows of [rt_memmove]. *)
Definition memmove (dst src n : nat) : BM unit := fun b =>
  if decide (dst + n <= length b /\ src + n <= length b)%nat
  then Some (tt, take dst b ++ take n (drop src b) ++ drop (dst + n) b) else None.

(** ** The history *)

Definition row (i : Z) : SM (list Z) := deref (fun s => cmd_history s !! Z.to_nat i).

(** Row [i] becomes the line up to [line_position], and zeros. *)
Definition store_row (i : Z) : SM unit :=
  row i;;
  n ← gets line_position;
  l ← gets line;
  if decide (n <= Z.of_nat FINSH_CMD_SIZE)
  then modify (set_row (Z.to_nat i) (take (Z.to_nat n) l ++ replicate (FINSH_CMD_SIZE - Z.to_nat n) 0))
  else undefined.

(** "move history", from row [index] on. *)
Fixpoint move_history (n index : nat) : SM unit :=
  match n with
  | O => mret tt
  | S n => next ← row (Z.of_nat (S index)); modify (set_row index next);; move_history n (S index)
  end.

(** "push history" of a line that is not empty. *)
Definition push_line : SM unit :=
  count ← gets history_count;
  l ← gets line;
  if decide (Z.of_nat FINSH_HISTORY_LINES <= count) then
    last ← row (Z.of_nat (FINSH_HISTORY_LINES - 1));
    when (bool_decide (last <> l)) (
      move_history (FINSH_HISTORY_LINES - 1) 0;;
      store_row (Z.of_nat (FINSH_HISTORY_LINES - 1));;
      modify (set_count (Z.of_nat FINSH_HISTORY_LINES)))
  else
    push ← (if decide (count = 0) then mret true else last ← row (count - 1); mret (bool_decide (last <> l)));
    when push (
      modify (set_current count);;
      store_row count;;
      modify (set_count (u16 (count + 1)))).

Definition shell_push_history : SM unit :=
  n ← gets line_position;
  when (bool_decide (n <> 0)) push_line;;
  count ← gets history_count;
  modify (set_current count).

(** [line_curpos = line_position = strlen(line)] *)
Definition to_end : SM unit :=
  n ← on_line (strlen 0);
  modify (set_position (Z.of_nat n));; modify (set_curpos (Z.of_nat n)).

(** "copy the history command" *)
Definition recall : SM unit :=
  h ← gets current_history;
  t ← row h;
  modify (set_line t);;
  to_end.

(** ** The keys *)

Definition up_key : SM unit :=
  h ← gets current_history;
  if decide (0 < h) then modify (set_current (u16 (h - 1)));; recall
  else modify (set_current 0).

Definition down_key : SM unit :=
  h ← gets current_history;
  count ← gets history_count;
  if decide (h < count - 1) then modify (set_current (u16 (h + 1)));; recall
  else if decide (count <> 0) then modify (set_current (u16 (count - 1)));; recall
  else mret tt.

Definition left_key : SM unit :=
  cur ← gets line_curpos;
  when (bool_decide (cur <> 0)) (modify (set_curpos (cur - 1))).

(** The character is read to be printed. *)
Definition right_key : SM unit :=
  cur ← gets line_curpos;
  n ← gets line_position;
  when (bool_decide (cur < n)) (on_line (peek (Z.to_nat cur));; modify (set_curpos (cur + 1))).

Definition backspace_key : SM unit :=
  cur ← gets line_curpos;
  if decide (cur = 0) then mret tt
  else
    n ← gets line_position;
    modify (set_position (n - 1));; modify (set_curpos (cur - 1));;
    n ← gets line_position;
    cur ← gets line_curpos;
    if decide (cur < n) then
      on_line (memmove (Z.to_nat cur) (Z.to_nat (cur + 1)) (Z.to_nat (n - cur)));;
      on_line (poke (Z.to_nat n) 0)
    else on_line (poke (Z.to_nat n) 0).

Definition normal_key (ch : Z) : SM unit :=
  n ← gets line_position;
  when (bool_decide (Z.of_nat FINSH_CMD_SIZE <= n)) (modify (set_position 0));;
  n ← gets line_position;
  cur ← gets line_curpos;
  (if decide (cur < n) then
     on_line (memmove (Z.to_nat (cur + 1)) (Z.to_nat cur) (Z.to_nat (n - cur)));;
     on_line (poke (Z.to_nat cur) ch)
   else on_line (poke (Z.to_nat n) ch));;
  modify (set_position (n + 1));; modify (set_curpos (cur + 1));;
  n ← gets line_position;
  when (bool_decide (Z.of_nat FINSH_CMD_SIZE <= n)) (modify (set_position 0);; modify (set_curpos 0)).

(** What running the text of an array was. *)
Definition outcome_of (b : list Z) (r : exec_result) : outcome :=
  match r with
  | Nothing => ENothing
  | Ran func argv => ERan func (string_in b <$> argv)
  | Script => EScript
  | NotFound => ENotFound
  end.

Definition SEMICOLON : Z := 59.

Section shell.
Context (table : list syscall) (script : list Z -> bool).
(** What the commands and the expressions do to [__msh_state] and to what is
    around the shell (cmd_cd, cmd_mkdir, ...), and the completion of an expression. *)
Context (switches : event -> bool -> bool) (changes : event -> surroundings -> surroundings) (list_prefix : BM unit).

Definition run_event (x : event) : SM unit :=
  msh ← gets __msh_state;
  w ← gets around;
  modify (add_event (switches x msh) (changes x w) x).

(** [finsh_run_line]: the interpreter reads to the end of the string. *)
Definition finsh_run_line : SM unit :=
  n ← on_line (strlen 0);
  text ← gets (fun s => take n (line s));
  run_event (Expression text).

Definition enter_key : SM unit :=
  shell_push_history;;
  msh ← gets __msh_state;
  n ← gets line_position;
  (if msh : bool then
     r ← on_line (msh_exec table script 0 n);
     o ← gets (fun s => outcome_of (line s) r);
     run_event (Command o)
   else
     on_line (poke (Z.to_nat n) SEMICOLON);;
     when (bool_decide (n <> 0)) finsh_run_line);;
  modify (set_line (replicate FINSH_CMD_SIZE 0));;
  modify (set_position 0);; modify (set_curpos 0).

Definition shell_auto_complete : SM unit :=
  msh ← gets __msh_state;
  w ← gets around;
  if msh : bool then on_line (msh_auto_complete table (cwd w) (readdir w) (memory w) 0) else on_line list_prefix.

Definition tab_key : SM unit := shell_auto_complete;; to_end.

Definition plain_key (ch : Z) : SM unit :=
  if decide (ch = 0 \/ ch = 255) then mret tt
  else if decide (ch = TAB) then tab_key
  else if decide (ch = 127 \/ ch = 8) then backspace_key
  else if decide (ch = 13 \/ ch = 10) then enter_key
  else normal_key ch.

(** The body of the loop of [finsh_thread_entry], for one character. *)
Definition finsh_key (ch : Z) : SM unit :=
  if decide (ch < 0) then mret tt
  else if decide (ch = 27) then modify (set_stat WAIT_SPEC_KEY)
  else
    st ← gets stat;
    match st with
    | WAIT_SPEC_KEY =>
      if decide (ch = 91) then modify (set_stat WAIT_FUNC_KEY)
      else modify (set_stat WAIT_NORMAL);; plain_key ch
    | WAIT_FUNC_KEY =>
      modify (set_stat WAIT_NORMAL);;
      if decide (ch = 65) then up_key
      else if decide (ch = 66) then down_key
      else if decide (ch = 68) then left_key
      else if decide (ch = 67) then right_key
      else plain_key ch
    | WAIT_NORMAL => plain_key ch
    end.

(** What the thread comes across: a character, and that other threads have
    changed what is around it, which they do while it waits for one. *)
Inductive input := Key (ch : Z) | Elsewhere (w : surroundings).

Definition finsh_input (i : input) : SM unit :=
  match i with Key ch => finsh_key ch | Elsewhere w => modify (set_around w) end.

Fixpoint finsh_thread_entry (inputs : list input) : SM unit :=
  match inputs with [] => mret tt | i :: inputs => finsh_input i;; finsh_thread_entry inputs end.

(** ** The spec: a text with a cursor *)

Record editor := Editor {
  before : list Z;
  behind : list Z;
  past : list (list Z);
  shown : nat;
  mode : input_stat;
  msh : bool;
  log : list event;
  world : surroundings
}.

Definition text (e : editor) : list Z := before e ++ behind e.
Definition with_text l r e := Editor l r (past e) (shown e) (mode e) (msh e) (log e) (world e).
Definition with_mode m e := Editor (before e) (behind e) (past e) (shown e) m (msh e) (log e) (world e).
Definition with_world w e := Editor (before e) (behind e) (past e) (shown e) (mode e) (msh e) (log e) w.

(** Five lines, none empty, none the same as the one before. *)
Definition remember (t : list Z) (past : list (list Z)) : list (list Z) :=
  if decide (t = [] \/ last past = Some t) then past
  else (if decide (length past = FINSH_HISTORY_LINES) then tail past else past) ++ [t].

Definition go_to (i : nat) (e : editor) : editor :=
  match past e !! i with Some t => Editor t [] (past e) i (mode e) (msh e) (log e) (world e) | None => e end.

Definition end_of_line (e : editor) : option editor :=
  let past' := remember (text e) (past e) in
  let done_ msh log w := Some (Editor [] [] past' (length past') (mode e) msh log w) in
  let happens x := done_ (switches x (msh e)) (log e ++ [x]) (changes x (world e)) in
  if msh e then happens (Command (exec_spec table script (text e)))
  else if decide (text e = []) then done_ (msh e) (log e) (world e)
  else if decide (S (length (text e)) < FINSH_CMD_SIZE)%nat then happens (Expression (text e ++ [SEMICOLON]))
  else None.

Definition fits (t : list Z) : Prop := (length t < FINSH_CMD_SIZE)%nat.
#[export] Instance fits_dec t : Decision (fits t).
Proof. unfold fits. apply _. Defined.

(** [full_path] has room for the working directory and a line. *)
Definition short_cwd (w : surroundings) : Prop := (length (cwd w) + 81 < PATH_SIZE)%nat.
#[export] Instance short_cwd_dec w : Decision (short_cwd w).
Proof. unfold short_cwd. apply _. Defined.

Definition completed (e : editor) : list Z :=
  complete_spec table (cwd (world e)) (readdir (world e)) (memory (world e)) (text e).

Definition edit_plain (ch : Z) (e : editor) : option editor :=
  if decide (ch = 0 \/ ch = 255) then Some e
  else if decide (ch = TAB) then
    if msh e then
      let t := completed e in
      if decide (fits t /\ short_cwd (world e)) then Some (with_text t [] e) else None
    else None
  else if decide (ch = 127 \/ ch = 8) then Some (with_text (removelast (before e)) (behind e) e)
  else if decide (ch = 13 \/ ch = 10) then end_of_line e
  else if decide (fits (ch :: text e)) then Some (with_text (before e ++ [ch]) (behind e) e) else None.

Definition edit_arrow (ch : Z) (e : editor) : option editor :=
  if decide (ch = 65) then Some (match shown e with O => e | S i => go_to i e end)
  else if decide (ch = 66) then Some (go_to (if decide (S (shown e) < length (past e))%nat then S (shown e) else (length (past e) - 1)%nat) e)
  else if decide (ch = 68) then
    Some (match last (before e) with Some c => with_text (removelast (before e)) (c :: behind e) e | None => e end)
  else if decide (ch = 67) then
    Some (match behind e with c :: r => with_text (before e ++ [c]) r e | [] => e end)
  else edit_plain ch e.

(** [None] is for a line that would be too long, and a tab in a directory with a
    long name or in an expression. *)
Definition edit (ch : Z) (e : editor) : option editor :=
  if decide (ch < 0) then Some e
  else if decide (ch = 27) then Some (with_mode WAIT_SPEC_KEY e)
  else
    match mode e with
    | WAIT_SPEC_KEY => if decide (ch = 91) then Some (with_mode WAIT_FUNC_KEY e) else edit_plain ch (with_mode WAIT_NORMAL e)
    | WAIT_FUNC_KEY => edit_arrow ch (with_mode WAIT_NORMAL e)
    | WAIT_NORMAL => edit_plain ch e
    end.

Definition edit_input (i : input) (e : editor) : option editor :=
  match i with Key ch => edit ch e | Elsewhere w => Some (with_world w e) end.

Fixpoint edits (inputs : list input) (e : editor) : option editor :=
  match inputs with [] => Some e | i :: inputs => match edit_input i e with Some e => edits inputs e | None => None end end.

Definition fresh (w : surroundings) : editor := Editor [] [] [] 0 WAIT_NORMAL true [] w.
End shell.

(** ** The line shows the text *)

Definition buffer (t : list Z) : list Z := t ++ replicate (FINSH_CMD_SIZE - length t) 0.

Definition text_is (l r : list Z) (ln : list Z) (pos cur : Z) : Prop :=
  fits (l ++ r) /\ no_nul (l ++ r) /\ ln = buffer (l ++ r) /\ pos = Z.of_nat (length (l ++ r)) /\ cur = Z.of_nat (length l).

Definition line_ok (t : list Z) : Prop := fits t /\ no_nul t.
Definition history_is (past : list (list Z)) (shown : nat) (rows : list (list Z)) (count current : Z) : Prop :=
  Forall line_ok past /\ (length past <= FINSH_HISTORY_LINES)%nat /\ length rows = FINSH_HISTORY_LINES /\
  take (length past) rows = buffer <$> past /\ count = Z.of_nat (length past) /\ current = Z.of_nat shown /\ (shown <= length past)%nat.

(** There is a working directory, and names of files have at most 255 characters. *)
Definition names_ok (w : surroundings) : Prop :=
  cwd w <> [] /\ forall p names, readdir w p = Some names -> Forall name_ok names.

Definition shows (s : finsh_shell) (e : editor) : Prop :=
  text_is (before e) (behind e) (line s) (line_position s) (line_curpos s) /\
  history_is (past e) (shown e) (cmd_history s) (history_count s) (current_history s) /\
  stat s = mode e /\ __msh_state s = msh e /\ events s = log e /\ around s = world e /\ names_ok (world e).

Lemma length_buffer t : fits t -> length (buffer t) = FINSH_CMD_SIZE.
Proof. unfold fits, buffer. intros H. rewrite length_app, length_replicate. lia. Qed.

Lemma buffer_end t : fits t -> buffer t = t ++ 0 :: replicate (FINSH_CMD_SIZE - S (length t)) 0.
Proof. unfold fits, buffer. intros H. by replace (FINSH_CMD_SIZE - length t)%nat with (S (FINSH_CMD_SIZE - S (length t))) by lia. Qed.

Lemma string_in_buffer t : line_ok t -> string_in (buffer t) 0 = t.
Proof. intros [Hf Hz]. rewrite buffer_end by done. unfold string_in. rewrite drop_0. by apply c_text_app. Qed.

Lemma buffer_inj t1 t2 : line_ok t1 -> line_ok t2 -> buffer t1 = buffer t2 -> t1 = t2.
Proof. intros H1 H2 E. by rewrite <- (string_in_buffer t1), E, string_in_buffer. Qed.

Lemma strlen_buffer t : line_ok t -> strlen 0 (buffer t) = Some (length t, buffer t).
Proof. intros [Hf Hz]. rewrite buffer_end by done. by apply (strlen_ok []). Qed.

Lemma on_line_eval {A} (m : BM A) s a l : m (line s) = Some (a, l) -> on_line m s = Some (a, set_line l s).
Proof. unfold on_line. by intros ->. Qed.

Lemma u16_nat n : (n <= FINSH_CMD_SIZE)%nat -> u16 (Z.of_nat n) = Z.of_nat n.
Proof. intros H. apply wrap_small. unfold in_range, FINSH_CMD_SIZE in *. lia. Qed.

Lemma u16_succ n : (n < FINSH_CMD_SIZE)%nat -> u16 (Z.of_nat n + 1) = Z.of_nat (S n).
Proof. intros H. rewrite <- (u16_nat (S n)) by lia. f_equal. lia. Qed.

(** Opening and closing a gap in an array. *)
Lemma open_gap l c r post : memmove (S (length l)) (length l) (length (c :: r)) (l ++ (c :: r) ++ 0 :: post) = Some (tt, l ++ c :: (c :: r) ++ post).
Proof.
  unfold memmove. rewrite decide_True by (rewrite !length_app; simpl; lia). do 2 f_equal. rewrite drop_app_length, take_app_length.
  assert (take (S (length l)) (l ++ (c :: r) ++ 0 :: post) = l ++ [c]) as ->
    by (change (l ++ (c :: r) ++ 0 :: post) with (l ++ [c] ++ r ++ 0 :: post); rewrite app_assoc; apply take_app_length'; rewrite length_app; simpl; lia).
  assert (drop (S (length l) + length (c :: r)) (l ++ (c :: r) ++ 0 :: post) = post) as ->
    by (change (0 :: post) with ([0] ++ post); rewrite !app_assoc; apply drop_app_length'; rewrite !length_app; simpl; lia).
  by rewrite <- app_assoc.
Qed.

Lemma close_gap l c r post : exists d, memmove (length l) (S (length l)) (length r) (l ++ (c :: r) ++ post) = Some (tt, (l ++ r) ++ d :: post).
Proof.
  destruct (exists_last (l := c :: r)) as (r1 & d & E); [done|]. exists d.
  assert (length r1 = length r) as El by (apply (f_equal length) in E; rewrite length_app in E; simpl in E; lia).
  unfold memmove. rewrite decide_True by (rewrite !length_app; simpl; lia). do 2 f_equal. rewrite take_app_length, <- app_assoc. f_equal.
  assert (take (length r) (drop (S (length l)) (l ++ (c :: r) ++ post)) = r) as ->.
  { change (l ++ (c :: r) ++ post) with (l ++ [c] ++ r ++ post). rewrite app_assoc, drop_app_length' by (rewrite length_app; simpl; lia). apply take_app_length. }
  f_equal. rewrite E, <- app_assoc, app_assoc. apply drop_app_length'. rewrite length_app. lia.
Qed.

(** ** The keys do what the spec says *)

(** [s] with another line. *)
Definition put_text (l r : list Z) (s : finsh_shell) : finsh_shell :=
  Shell (stat s) (current_history s) (history_count s) (cmd_history s) (buffer (l ++ r)) (Z.of_nat (length (l ++ r))) (Z.of_nat (length l)) (__msh_state s) (events s) (around s).

Lemma shows_text s e l r : shows s e -> line_ok (l ++ r) -> shows (put_text l r s) (with_text l r e).
Proof. intros (_ & H) [Hf Hz]. split; [by split_and!|done]. Qed.

Lemma shows_put s e : shows s e -> s = put_text (before e) (behind e) s /\ line_ok (text e).
Proof. intros ((Hf & Hz & El & Ep & Ec) & _). split; [|done]. unfold put_text. rewrite <- El, <- Ep, <- Ec. by destruct s. Qed.

Lemma fits_cons_app ch l r : fits (ch :: l ++ r) -> fits ((l ++ [ch]) ++ r) /\ fits (l ++ r).
Proof. unfold fits. simpl. rewrite !length_app. simpl. lia. Qed.

Ltac fields := cbn [line line_position line_curpos stat current_history history_count cmd_history __msh_state events around].
Ltac step := rewrite (bind_eval _ _ _ _ _ eq_refl).
Ltac line_step H := rewrite (bind_eval _ _ _ _ _ (on_line_eval _ _ _ _ H)).

Lemma normal_key_ok ch s e : shows s e -> ch <> 0 -> fits (ch :: text e) ->
  exists s', normal_key ch s = Some (tt, s') /\ shows s' (with_text (before e ++ [ch]) (behind e) e).
Proof.
  intros Hs Hc Hf. destruct (shows_put _ _ Hs) as [-> [_ Hz]]. unfold text in *. set (l := before e) in *. set (r := behind e) in *.
  destruct (fits_cons_app _ _ _ Hf) as [Hf1 Hf0]. assert (line_ok ((l ++ [ch]) ++ r)) as Hok.
  { split; [done|]. apply Forall_app in Hz as [? ?]. rewrite <- app_assoc. apply Forall_app. split; [done|]. by constructor. }
  exists (put_text (l ++ [ch]) r s). split; [|by apply shows_text]. clear Hs.
  assert (length (l ++ r) < FINSH_CMD_SIZE)%nat as Hn by exact Hf0. assert (length ((l ++ [ch]) ++ r) < FINSH_CMD_SIZE)%nat as Hn1 by exact Hf1.
  assert (length ((l ++ [ch]) ++ r) = S (length (l ++ r)) /\ length (l ++ [ch]) = S (length l)) as [El1 El2] by (rewrite !length_app; simpl; lia).
  assert (length l <= length (l ++ r))%nat as Hl by (rewrite length_app; lia).
  assert (forall X : SM unit, X (put_text l r s) = Some (tt, set_line (buffer ((l ++ [ch]) ++ r)) (put_text l r s)) ->
    (X;; modify (set_position (Z.of_nat (length (l ++ r)) + 1));; modify (set_curpos (Z.of_nat (length l) + 1));;
     n ← gets line_position; when (bool_decide (Z.of_nat FINSH_CMD_SIZE <= n)) (modify (set_position 0);; modify (set_curpos 0))) (put_text l r s) =
    Some (tt, put_text (l ++ [ch]) r s)) as Hend.
  { intros X E. rewrite (bind_eval _ _ _ _ _ E). do 3 step. cbn [line_position set_curpos set_position]. rewrite u16_succ, bool_decide_false by lia.
    unfold put_text, set_line, set_position, set_curpos. rewrite !u16_succ by lia. by rewrite El1, El2. }
  unfold normal_key. step. cbn [line_position put_text]. rewrite bool_decide_false by lia. do 3 step. cbn [line_position line_curpos put_text].
  apply Hend. clear Hend.
  assert (exists post, buffer (l ++ r) = l ++ r ++ 0 :: post /\ buffer ((l ++ [ch]) ++ r) = l ++ ch :: r ++ post) as (post & Eb & Eb').
  { exists (replicate (FINSH_CMD_SIZE - S (length (l ++ r))) 0). rewrite buffer_end by done. split; [by rewrite <- app_assoc|].
    unfold buffer. rewrite El1. by rewrite <- !app_assoc. }
  rewrite Eb'. destruct r as [|c r'].
  - rewrite decide_False by (rewrite app_nil_r; lia). rewrite app_nil_r, Nat2Z.id. apply on_line_eval. cbn [line put_text]. rewrite Eb. apply poke_eval.
  - rewrite decide_True by (rewrite length_app; simpl; lia).
    replace (Z.to_nat (Z.of_nat (length l) + 1)) with (S (length l)) by lia.
    replace (Z.to_nat (Z.of_nat (length (l ++ c :: r')) - Z.of_nat (length l))) with (length (c :: r')) by (rewrite length_app; lia). rewrite Nat2Z.id.
    assert (memmove (S (length l)) (length l) (length (c :: r')) (line (put_text l (c :: r') s)) = Some (tt, l ++ c :: (c :: r') ++ post)) as E
      by (cbn [line put_text]; rewrite Eb; apply open_gap).
    line_step E. etransitivity; [apply on_line_eval, poke_eval|done].
Qed.

Lemma u16_pred n : (S n <= FINSH_CMD_SIZE)%nat -> u16 (Z.of_nat (S n) - 1) = Z.of_nat n.
Proof. intros H. rewrite <- (u16_nat n) by lia. f_equal. lia. Qed.

Lemma backspace_key_ok s e : shows s e ->
  exists s', backspace_key s = Some (tt, s') /\ shows s' (with_text (removelast (before e)) (behind e) e).
Proof.
  intros Hs. destruct (shows_put _ _ Hs) as [Es [Hf Hz]]. unfold text in *. set (l := before e) in *. set (r := behind e) in *.
  destruct (decide (l = [])) as [El|Hne].
  { exists s. split; [|]. 
    - unfold backspace_key. step. destruct Hs as ((_ & _ & _ & _ & Ec) & _). fold l in Ec. by rewrite Ec, El.
    - rewrite El. cbn [removelast]. assert (with_text [] r e = e) as -> by (subst l r; destruct e; cbn in El; by subst). done. }
  destruct (exists_last Hne) as (l0 & c & El). rewrite El, removelast_last in *. clear Hne El.
  assert (line_ok (l0 ++ r)) as Hok.
  { unfold line_ok, fits, no_nul in *. rewrite <- app_assoc in *. apply Forall_app in Hz as [? [_ ?]%Forall_cons]. split; [rewrite !length_app in *; simpl in *; lia|by apply Forall_app]. }
  exists (put_text l0 r s). split; [|by apply shows_text]. rewrite Es. clear Hs.
  assert (length ((l0 ++ [c]) ++ r) = S (length (l0 ++ r)) /\ length (l0 ++ [c]) = S (length l0)) as [E1 E2] by (rewrite !length_app; simpl; lia).
  destruct Hok as [Hf0 _]. unfold fits in Hf, Hf0. assert (length l0 <= length (l0 ++ r))%nat as Hl by (rewrite length_app; lia).
  set (s1 := set_line (buffer ((l0 ++ [c]) ++ r)) (put_text l0 r s)).
  assert (forall X, X s1 = Some (tt, put_text l0 r s) -> (modify (set_position (Z.of_nat (S (length (l0 ++ r))) - 1));; modify (set_curpos (Z.of_nat (S (length l0)) - 1));; X)
    (put_text (l0 ++ [c]) r s) = Some (tt, put_text l0 r s)) as Hstart.
  { intros X E. do 2 step. rewrite <- E. unfold set_curpos, set_position, s1. cbn [line_position line_curpos put_text]. rewrite !u16_pred by lia. done. }
  unfold backspace_key. step. cbn [line_curpos put_text]. rewrite E2, decide_False by lia. step. cbn [line_position put_text]. rewrite E1. apply Hstart. clear Hstart.
  do 2 step. subst s1. cbn [line_position line_curpos put_text set_line]. set (post := replicate (FINSH_CMD_SIZE - S (length (l0 ++ r))) 0).
  assert (buffer (l0 ++ r) = (l0 ++ r) ++ 0 :: post) as Eb by (by apply buffer_end).
  assert (buffer ((l0 ++ [c]) ++ r) = l0 ++ (c :: r) ++ post) as Eb' by (unfold buffer; rewrite E1, <- !app_assoc; done). rewrite Nat2Z.id.
  assert (forall d, on_line (poke (length (l0 ++ r)) 0) (set_line ((l0 ++ r) ++ d :: post) (put_text l0 r s)) = Some (tt, put_text l0 r s)) as Hp.
  { intros d. etransitivity; [apply on_line_eval, poke_eval|]. unfold set_line, put_text. by rewrite Eb. }
  destruct r as [|d r'].
  - rewrite decide_False by (rewrite app_nil_r; lia). rewrite Eb'. rewrite app_nil_r in *. apply Hp.
  - rewrite decide_True by (rewrite length_app; simpl; lia).
    replace (Z.to_nat (Z.of_nat (length l0) + 1)) with (S (length l0)) by lia.
    replace (Z.to_nat (Z.of_nat (length (l0 ++ d :: r')) - Z.of_nat (length l0))) with (length (d :: r')) by (rewrite length_app; lia). rewrite Nat2Z.id.
    destruct (close_gap l0 c (d :: r') post) as [x E]. rewrite <- Eb' in E.
    change (buffer ((l0 ++ [c]) ++ d :: r')) with (line (set_line (buffer ((l0 ++ [c]) ++ d :: r')) (put_text l0 (d :: r') s))) in E. line_step E. apply Hp.
Qed.

Lemma left_key_ok s e : shows s e ->
  exists s', left_key s = Some (tt, s') /\ shows s' (match last (before e) with Some c => with_text (removelast (before e)) (c :: behind e) e | None => e end).
Proof.
  intros Hs. destruct (shows_put _ _ Hs) as [Es Hok]. unfold text in *. destruct (last (before e)) as [c|] eqn:El.
  - apply last_Some in El as [l0 El]. rewrite El, removelast_last in *. exists (put_text l0 (c :: behind e) s).
    split; [|apply shows_text; [done|by rewrite <- app_assoc in Hok]]. rewrite Es. unfold left_key. step. cbn [line_curpos put_text].
    assert (length (l0 ++ [c]) = S (length l0)) as E2 by (rewrite length_app; simpl; lia). rewrite E2, bool_decide_true by lia.
    destruct Hok as [Hf _]. unfold fits in Hf. rewrite !length_app in Hf. simpl in Hf.
    unfold when, modify, put_text, set_curpos. fields. rewrite u16_pred, <- app_assoc by lia. done.
  - apply last_None in El. exists s. split; [|done]. unfold left_key. step. destruct Hs as ((_ & _ & _ & _ & ->) & _). by rewrite El.
Qed.

Lemma right_key_ok s e : shows s e ->
  exists s', right_key s = Some (tt, s') /\ shows s' (match behind e with c :: r => with_text (before e ++ [c]) r e | [] => e end).
Proof.
  intros Hs. destruct (shows_put _ _ Hs) as [Es Hok]. unfold text in *. destruct (behind e) as [|c r] eqn:Er.
  - exists s. split; [|done]. destruct Hs as ((_ & _ & _ & Ep & Ec) & _). unfold right_key. do 2 step. rewrite Ep, Ec, Er, app_nil_r.
    by rewrite bool_decide_false by lia.
  - exists (put_text (before e ++ [c]) r s). assert (line_ok ((before e ++ [c]) ++ r)) as Hok' by (by rewrite <- app_assoc). split; [|by apply shows_text].
    rewrite Es. unfold right_key. do 2 step. cbn [line_position line_curpos put_text]. destruct Hok as [Hf _].
    pose proof Hf as Hf'. unfold fits in Hf'. rewrite length_app in Hf' |- *. simpl in Hf'. rewrite bool_decide_true by (simpl; lia). unfold when. rewrite Nat2Z.id.
    assert (peek (length (before e)) (line (put_text (before e) (c :: r) s)) = Some (c, buffer (before e ++ c :: r))) as Ep
      by (cbn [line put_text]; rewrite buffer_end, <- app_assoc by done; apply peek_eval).
    line_step Ep. unfold modify, put_text, set_curpos, set_line. fields.
    rewrite u16_succ by lia. rewrite <- app_assoc, !length_app. simpl. by rewrite Nat.add_1_r.
Qed.

(** ** The history *)

Lemma history_row past shown rows count current i t : history_is past shown rows count current -> past !! i = Some t -> rows !! i = Some (buffer t).
Proof.
  intros (_ & _ & _ & Et & _) Hi. assert (take (length past) rows !! i = Some (buffer t)) as E by (by rewrite Et, list_lookup_fmap, Hi).
  by rewrite lookup_take_lt in E by (by eapply lookup_lt_Some).
Qed.

Lemma to_end_ok s t : line s = buffer t -> line_ok t -> to_end s = Some (tt, put_text t [] s).
Proof.
  intros El [Hf Hz]. unfold to_end. assert (strlen 0 (line s) = Some (length t, buffer t)) as E by (rewrite El; by apply strlen_buffer).
  line_step E. step. unfold modify, put_text, set_line, set_position, set_curpos. fields. unfold fits in Hf. by rewrite !u16_nat, app_nil_r by lia.
Qed.

Lemma recall_ok s e i t : shows s e -> past e !! i = Some t ->
  exists s', recall (set_current (Z.of_nat i) s) = Some (tt, s') /\ shows s' (go_to i e).
Proof.
  intros (_ & Hh & Hr) Hi. pose proof (history_row _ _ _ _ _ _ _ Hh Hi) as Er. destruct Hh as (Hp & H5 & Hl & Et & Ec & _).
  assert (line_ok t) as Hok by (by eapply Forall_lookup in Hp). pose proof (lookup_lt_Some _ _ _ Hi) as Hlt.
  unfold recall. step. assert (row (current_history (set_current (Z.of_nat i) s)) (set_current (Z.of_nat i) s) = Some (buffer t, set_current (Z.of_nat i) s)) as E.
  { unfold row, deref, set_current. fields. by rewrite Nat2Z.id, Er. }
  rewrite (bind_eval _ _ _ _ _ E). step. rewrite (to_end_ok _ t) by done. eexists. split; [done|]. unfold go_to. rewrite Hi.
  destruct Hok. split; [unfold text_is, put_text; fields; cbn [before behind]; rewrite app_nil_r; by split_and!|]. split; [|done]. repeat split; try done. simpl. lia.
Qed.

Lemma up_key_ok s e : shows s e -> exists s', up_key s = Some (tt, s') /\ shows s' (match shown e with O => e | S i => go_to i e end).
Proof.
  intros Hs. pose proof Hs as (_ & (_ & H5 & _ & _ & _ & Ec & Hle) & _). unfold FINSH_HISTORY_LINES in H5. unfold up_key. step. rewrite Ec. destruct (shown e) as [|i] eqn:E.
  - rewrite decide_False by lia. eexists. split; [done|]. replace (set_current 0 s) with s; [done|]. destruct s. simpl in Ec. by subst.
  - rewrite decide_True by lia. step. rewrite u16_pred by (unfold FINSH_CMD_SIZE; lia).
    destruct (lookup_lt_is_Some_2 (past e) i ltac:(lia)) as [t Hi]. by eapply recall_ok.
Qed.

Lemma down_key_ok s e : shows s e ->
  exists s', down_key s = Some (tt, s') /\ shows s' (go_to (if decide (S (shown e) < length (past e))%nat then S (shown e) else (length (past e) - 1)%nat) e).
Proof.
  intros Hs. pose proof Hs as (_ & (_ & H5 & _ & _ & En & Ec & Hle) & _). unfold FINSH_HISTORY_LINES in H5. unfold down_key. do 2 step. rewrite Ec, En.
  destruct (decide (S (shown e) < length (past e))%nat) as [Hlt|Hge].
  - rewrite decide_True by lia. step. rewrite u16_succ by (unfold FINSH_CMD_SIZE; lia).
    destruct (lookup_lt_is_Some_2 (past e) (S (shown e)) ltac:(lia)) as [t Hi]. by eapply recall_ok.
  - rewrite decide_False by lia. destruct (length (past e)) as [|n] eqn:El.
    + rewrite decide_False by lia. exists s. split; [done|]. unfold go_to. apply nil_length_inv in El. by rewrite El.
    + rewrite decide_True by lia. step. rewrite u16_pred by (unfold FINSH_CMD_SIZE; lia). replace (S n - 1)%nat with n by lia.
      destruct (lookup_lt_is_Some_2 (past e) n ltac:(lia)) as [t Hi]. by eapply recall_ok.
Qed.

(** [s] with another history. *)
Definition put_history (past : list (list Z)) (rows : list (list Z)) (s : finsh_shell) : finsh_shell :=
  Shell (stat s) (Z.of_nat (length past)) (Z.of_nat (length past)) rows (line s) (line_position s) (line_curpos s) (__msh_state s) (events s) (around s).

Lemma store_row_ok s l r i : (i < length (cmd_history s))%nat -> line_ok (l ++ r) ->
  store_row (Z.of_nat i) (put_text l r s) = Some (tt, set_row i (buffer (l ++ r)) (put_text l r s)).
Proof.
  intros Hi [Hf _]. unfold fits in Hf. destruct (lookup_lt_is_Some_2 _ _ Hi) as [old Ho]. unfold store_row.
  assert (row (Z.of_nat i) (put_text l r s) = Some (old, put_text l r s)) as E by (unfold row, deref; rewrite Nat2Z.id; cbn [cmd_history put_text]; by rewrite Ho).
  rewrite (bind_eval _ _ _ _ _ E). do 2 step. cbn [line_position line put_text]. rewrite decide_True by lia. rewrite !Nat2Z.id.
  unfold buffer at 1. by rewrite take_app_length.
Qed.

Lemma history_set past rows t i : line_ok t -> Forall line_ok past -> length rows = FINSH_HISTORY_LINES -> (length past < FINSH_HISTORY_LINES)%nat ->
  take (length past) rows = buffer <$> past -> i = length past ->
  history_is (past ++ [t]) (length (past ++ [t])) (<[i := buffer t]> rows) (Z.of_nat (length (past ++ [t]))) (Z.of_nat (length (past ++ [t]))).
Proof.
  intros Ht Hp Hl H5 Et ->. split; [by apply Forall_app_2; [|constructor]|]. rewrite length_app. cbn [length].
  split; [lia|]. split; [by rewrite length_insert|]. split; [|by split_and!].
  rewrite Nat.add_1_r, (take_S_r _ _ (buffer t)) by (apply list_lookup_insert_eq; lia). rewrite take_insert_ge by lia. by rewrite Et, fmap_app.
Qed.

Lemma move_history_ok rows s : length rows = FINSH_HISTORY_LINES -> cmd_history s = rows ->
  exists d, move_history (FINSH_HISTORY_LINES - 1) 0 s = Some (tt, Shell (stat s) (current_history s) (history_count s) (tail rows ++ [d]) (line s) (line_position s) (line_curpos s) (__msh_state s) (events s) (around s)).
Proof. intros Hl E. destruct s. cbn in E. subst. destruct rows as [|a [|b [|c [|d [|f [|g rows]]]]]]; try done. by exists f. Qed.

Lemma history_last past rows t : take (length past) rows = buffer <$> past -> last past = Some t -> rows !! (length past - 1)%nat = Some (buffer t).
Proof.
  intros Et Hl. assert (past !! (length past - 1)%nat = Some t) as Hi by (rewrite <- Hl, last_lookup; f_equal; lia).
  assert (take (length past) rows !! (length past - 1)%nat = Some (buffer t)) as E by (by rewrite Et, list_lookup_fmap, Hi).
  rewrite lookup_take_lt in E by (by eapply lookup_lt_Some). by rewrite E.
Qed.

(** [s] with another history, up to the place in it. *)
Definition has_history (past rows : list (list Z)) (s s' : finsh_shell) : Prop :=
  exists c, s' = set_current c (put_history past rows s) /\
    history_is past (length past) rows (Z.of_nat (length past)) (Z.of_nat (length past)).

Lemma push_line_ok s e : shows s e -> text e <> [] -> exists rows s', push_line s = Some (tt, s') /\ has_history (remember (text e) (past e)) rows s s'.
Proof.
  intros Hs Hne. destruct (shows_put _ _ Hs) as [Es Hok]. destruct Hs as (_ & (Hp & H5 & Hl & Et & Ec & _ & _) & _).
  unfold remember, text in *. unfold push_line. set (t := before e ++ behind e) in *. do 2 step. rewrite Ec.
  assert (line s = buffer t /\ line_position s = Z.of_nat (length t) /\ line_curpos s = Z.of_nat (length (before e))) as (Eln & Epos & Ecur) by (by rewrite Es).
  assert (forall s1, line s1 = line s -> line_position s1 = line_position s -> line_curpos s1 = line_curpos s -> s1 = put_text (before e) (behind e) s1) as Eput.
  { intros s1 E1 E2 E3. unfold put_text. fold t. rewrite <- Eln, <- Epos, <- Ecur, <- E1, <- E2, <- E3. by destruct s1. }
  assert (forall last, line_ok last -> bool_decide (buffer last <> line s) = bool_decide (last <> t)) as Eb.
  { intros u Hu. rewrite Eln. apply bool_decide_ext. split; [by intros H ->|]. intros H E. by apply buffer_inj in E. }
  assert (forall u, last (past e) = Some u -> row (Z.of_nat (length (past e) - 1)) s = Some (buffer u, s) /\ line_ok u /\ (0 < length (past e))%nat) as Hlast.
  { intros u Hu. split; [unfold row, deref; by rewrite Nat2Z.id, (history_last (past e) _ u)|]. split; [rewrite last_lookup in Hu; by eapply Forall_lookup in Hp|].
    destruct (past e); [done|simpl; lia]. }
  assert (has_history (past e) (cmd_history s) s s) as Hsame.
  { exists (current_history s). split; [|by split_and!]. unfold set_current, put_history. fields. rewrite <- Ec. by destruct s. }
  destruct (decide (length (past e) = FINSH_HISTORY_LINES)) as [E5|N5].
  - rewrite decide_True by lia. destruct (last (past e)) as [u|] eqn:Elast; [|apply last_None in Elast; by rewrite Elast in E5].
    destruct (Hlast u eq_refl) as (Er & Hu & Hpos). rewrite <- E5 in *. rewrite (bind_eval _ _ _ _ _ Er), Eb by done.
    destruct (decide (u = t)) as [->|Hut].
    + rewrite bool_decide_false by tauto. exists (cmd_history s), s. by rewrite decide_True by auto.
    + rewrite bool_decide_true by done. rewrite (decide_False (P := _ \/ _)) by naive_solver. rewrite ?decide_True by done. unfold when.
      destruct (move_history_ok (cmd_history s) s) as [d Em]; [lia|done|]. rewrite E5, (bind_eval _ _ _ _ _ Em).
      set (rows := tail (cmd_history s) ++ [d]). set (s1 := Shell (stat s) (current_history s) (history_count s) rows (line s) (line_position s) (line_curpos s) (__msh_state s) (events s) (around s)).
      assert (length rows = FINSH_HISTORY_LINES) as Elr by (unfold rows; rewrite length_app; destruct (cmd_history s); simpl in *; lia).
      pose proof (store_row_ok s1 (before e) (behind e) (FINSH_HISTORY_LINES - 1) ltac:(cbn; rewrite Elr; unfold FINSH_HISTORY_LINES; lia) Hok) as E.
      rewrite <- Eput in E by done. rewrite (bind_eval _ _ _ _ _ E). fold t.
      exists (<[(FINSH_HISTORY_LINES - 1)%nat := buffer t]> rows). eexists. split; [done|]. exists (current_history s).
      assert (length (tail (past e)) = FINSH_HISTORY_LINES - 1)%nat as Elt by (rewrite <- E5; destruct (past e); simpl; lia). split.
      * unfold set_count, set_row, set_current, put_history, s1. fields. rewrite length_app, Elt. done.
      * apply history_set; [done|by destruct Hp|done|rewrite Elt; unfold FINSH_HISTORY_LINES; lia| |done].
        rewrite E5, take_ge in Et by lia. unfold rows. rewrite Et, take_app_length' by (rewrite Elt; destruct (past e); simpl in *; [done|rewrite length_fmap; lia]).
        by destruct (past e).
  - rewrite decide_False by lia. unfold FINSH_HISTORY_LINES in H5, N5.
    set (c0 := Z.of_nat (length (past e))).
    assert (exists rows s', (modify (set_current c0);; store_row c0;; modify (set_count (u16 (c0 + 1)))) s = Some (tt, s') /\ has_history (past e ++ [t]) rows s s') as Hpush.
    { set (s1 := set_current c0 s). assert (length (past e) < length (cmd_history s1))%nat as Hlt by (cbn; rewrite Hl; unfold FINSH_HISTORY_LINES; lia).
      pose proof (store_row_ok s1 (before e) (behind e) (length (past e)) Hlt Hok) as E. rewrite <- Eput in E by done. step. fold s1. rewrite (bind_eval _ _ _ _ _ E). fold t.
      exists (<[length (past e) := buffer t]> (cmd_history s)). eexists. split; [done|]. exists c0. split.
      - unfold set_count, set_row, set_current, put_history, s1, c0. fields. rewrite length_app, u16_succ by (unfold FINSH_CMD_SIZE; lia). by rewrite Nat.add_1_r.
      - apply history_set; try done. unfold FINSH_HISTORY_LINES. lia. }
    subst c0. destruct (last (past e)) as [u|] eqn:Elast.
    + destruct (Hlast u eq_refl) as (Er & Hu & Hpos). rewrite (decide_False (P := Z.of_nat (length (past e)) = 0)) by lia.
      replace (Z.of_nat (length (past e)) - 1) with (Z.of_nat (length (past e) - 1)) by lia.
      assert ((last ← row (Z.of_nat (length (past e) - 1)); mret (bool_decide (last <> line s))) s = Some (bool_decide (u <> t), s)) as E
        by (rewrite (bind_eval _ _ _ _ _ Er); by rewrite Eb).
      rewrite (bind_eval _ _ _ _ _ E). destruct (decide (u = t)) as [->|Hut].
      * rewrite bool_decide_false, (decide_True (P := _ \/ _)) by tauto. by exists (cmd_history s), s.
      * rewrite bool_decide_true, (decide_False (P := _ \/ _)) by naive_solver. exact Hpush.
    + apply last_None in Elast. rewrite decide_True by (by rewrite Elast). rewrite (decide_False (P := _ \/ _)) by naive_solver. rewrite (bind_eval _ _ _ true s) by done. exact Hpush.
Qed.

Lemma shell_push_ok s e : shows s e -> exists s', shell_push_history s = Some (tt, s') /\
  shows s' (Editor (before e) (behind e) (remember (text e) (past e)) (length (remember (text e) (past e))) (mode e) (msh e) (log e) (world e)).
Proof.
  intros Hs. pose proof Hs as (Ht & (Hp & H5 & Hl & Et & Ec & _ & _) & Hr). unfold shell_push_history. step.
  assert (exists rows s', when (bool_decide (line_position s <> 0)) push_line s = Some (tt, s') /\ has_history (remember (text e) (past e)) rows s s') as (rows & s' & E & c & -> & Hh).
  { destruct (decide (text e = [])) as [E0|Hne].
    - destruct Ht as (_ & _ & _ & Epos & _). fold (text e) in Epos. unfold remember. rewrite decide_True by auto. rewrite Epos, E0, bool_decide_false by (simpl; tauto).
      exists (cmd_history s), s. split; [done|]. exists (current_history s). split; [|by split_and!]. unfold set_current, put_history. fields. rewrite <- Ec. by destruct s.
    - rewrite bool_decide_true; [by apply push_line_ok|]. destruct Ht as (_ & _ & _ & -> & _). fold (text e). destruct (text e); [done|simpl; lia]. }
  rewrite (bind_eval _ _ _ _ _ E). step. eexists. split; [done|]. split; [exact Ht|]. by split.
Qed.

(** ** Running a line, and completing it *)

Section shell_ok.
Context (table : list syscall) (script : list Z -> bool).
Context (switches : event -> bool -> bool) (changes : event -> surroundings -> surroundings) (list_prefix : BM unit).
Hypothesis changes_ok : forall x w, names_ok w -> names_ok (changes x w).
Hypothesis table_ok : Forall (fun s => no_nul (sc_name s)) table.

Lemma outcome_of_says b r o : says b r o -> outcome_of b r = o.
Proof. destruct r, o; simpl; try done. by intros [-> ->]. Qed.

(** The line is cleared at its end. *)
Lemma clear_line_ok s past shown mode msh log w : history_is past shown (cmd_history s) (history_count s) (current_history s) ->
  stat s = mode -> __msh_state s = msh -> events s = log -> around s = w -> names_ok w ->
  exists s', (modify (set_line (replicate FINSH_CMD_SIZE 0));; modify (set_position 0);; modify (set_curpos 0)) s = Some (tt, s') /\
    shows s' (Editor [] [] past shown mode msh log w).
Proof.
  intros Hh <- <- <- <- Hw. eexists. split; [done|]. split; [|done]. split; [unfold fits, FINSH_CMD_SIZE; simpl; lia|]. split; [constructor|done].
Qed.

Lemma run_event_ok x s : run_event switches changes x s = Some (tt, add_event (switches x (__msh_state s)) (changes x (around s)) x s).
Proof. done. Qed.

Lemma run_command_ok s t : line s = buffer t -> line_position s = Z.of_nat (length t) -> line_ok t -> exists ln,
  (r ← on_line (msh_exec table script 0 (line_position s)); o ← gets (fun s => outcome_of (line s) r); run_event switches changes (Command o)) s =
  let x := Command (exec_spec table script t) in
  Some (tt, add_event (switches x (__msh_state s)) (changes x (around s)) x (set_line ln s)).
Proof.
  intros El Ep [Hf Hz]. destruct (msh_exec_ok table script [] t (replicate (FINSH_CMD_SIZE - S (length t)) 0) table_ok Hz) as (r & text' & E & _ & Hsays).
  { unfold fits, FINSH_CMD_SIZE in Hf. lia. }
  cbn [app length] in E, Hsays. rewrite <- (buffer_end t), <- El in E by done. rewrite <- Ep in E. line_step E. step. rewrite run_event_ok. exists (text' ++ 0 :: replicate (FINSH_CMD_SIZE - S (length t)) 0).
  by rewrite <- (outcome_of_says _ _ _ Hsays).
Qed.

Lemma run_expression_ok s t : line s = buffer t -> line_position s = Z.of_nat (length t) -> line_ok t ->
  (t = [] \/ (S (length t) < FINSH_CMD_SIZE)%nat) -> exists ln,
  (on_line (poke (Z.to_nat (line_position s)) SEMICOLON);; when (bool_decide (line_position s <> 0)) (finsh_run_line switches changes)) s =
  let x := Expression (t ++ [SEMICOLON]) in
  Some (tt, if decide (t = []) then set_line ln s else add_event (switches x (__msh_state s)) (changes x (around s)) x (set_line ln s)).
Proof.
  intros El Ep [Hf Hz] Hlen. set (post := replicate (FINSH_CMD_SIZE - S (length t)) 0).
  assert (poke (Z.to_nat (line_position s)) SEMICOLON (line s) = Some (tt, t ++ SEMICOLON :: post)) as E
    by (rewrite El, Ep, Nat2Z.id, buffer_end by done; apply poke_eval).
  line_step E. rewrite Ep. exists (t ++ SEMICOLON :: post). destruct (decide (t = [])) as [->|Hne].
  { by rewrite bool_decide_false by (simpl; tauto). }
  rewrite bool_decide_true by (destruct t; [done|simpl; lia]). destruct Hlen as [|Hlen]; [done|]. unfold when, finsh_run_line.
  assert (t ++ SEMICOLON :: post = buffer (t ++ [SEMICOLON])) as Eb.
  { unfold buffer, post. rewrite length_app, <- app_assoc. simpl. by rewrite Nat.add_1_r. }
  assert (strlen 0 (line (set_line (t ++ SEMICOLON :: post) s)) = Some (length (t ++ [SEMICOLON]), t ++ SEMICOLON :: post)) as Es.
  { unfold set_line. fields. rewrite Eb. apply strlen_buffer. split; [unfold fits; rewrite length_app; simpl; lia|]. apply Forall_app_2; [done|by repeat constructor]. }
  assert (take (length (t ++ [SEMICOLON])) (t ++ SEMICOLON :: post) = t ++ [SEMICOLON]) as Et by (change (SEMICOLON :: post) with ([SEMICOLON] ++ post); rewrite app_assoc; apply take_app_length).
  line_step Es. step. unfold set_line. fields. by rewrite Et.
Qed.

Lemma enter_key_ok s e e' : shows s e -> end_of_line table script switches changes e = Some e' ->
  exists s', enter_key table script switches changes s = Some (tt, s') /\ shows s' e'.
Proof.
  intros Hs He. destruct (shell_push_ok s e Hs) as (s1 & E1 & Hs1). destruct Hs1 as ((Hf & Hz & El & Ep & _) & Hh & Hst & Hm & Hl & Ha & Hn). cbn [before behind past shown mode msh log world] in *. fold (text e) in *.
  assert (line_ok (text e)) as Hok by done. unfold enter_key. rewrite (bind_eval _ _ _ _ _ E1). do 2 step. unfold end_of_line in He. rewrite Hm. destruct (msh e) eqn:Em.
  - injection He as <-. destruct (run_command_ok s1 (text e) El Ep Hok) as [ln E]. rewrite (bind_eval _ _ _ _ _ E). apply clear_line_ok; try done; simpl; rewrite ?Hm, ?Hl, ?Ha; auto.
  - assert (text e = [] \/ (S (length (text e)) < FINSH_CMD_SIZE)%nat) as Hlen by (repeat case_decide; auto; done).
    destruct (run_expression_ok s1 (text e) El Ep Hok Hlen) as [ln E]. rewrite (bind_eval _ _ _ _ _ E). clear E.
    destruct (decide (text e = [])); [|destruct (decide _) in He; [|done]]; injection He as <-; apply clear_line_ok; try done; simpl; rewrite ?Hm, ?Hl, ?Ha; auto.
Qed.

Lemma tab_key_ok s e : shows s e -> msh e = true -> fits (completed table e) -> short_cwd (world e) ->
  exists s', tab_key table list_prefix s = Some (tt, s') /\ shows s' (with_text (completed table e) [] e).
Proof.
  intros Hs Hm Hf Hw. pose proof Hs as ((Hft & Hz & El & _) & _ & _ & Em & _ & Ew & Hcwd & Hnames). fold (text e) in *. unfold tab_key, shell_auto_complete.
  pose proof (conj Hcwd Hw) as cwd_ok. set (t := completed table e) in *. unfold fits, FINSH_CMD_SIZE in Hf, Hft.
  set (k := (FINSH_CMD_SIZE - S (length (text e)))%nat). assert (length t <= length (text e) + k)%nat as Hk by (unfold k, FINSH_CMD_SIZE; lia).
  pose proof (msh_auto_complete_ok table _ _ (memory (world e)) cwd_ok Hnames table_ok [] (text e) k Hz Hft Hk) as E. fold (completed table e) in E. fold t in E. cbn [app length] in E.
  assert (text e ++ replicate (S k) 0 = line s) as Eb by (rewrite El, buffer_end by done; done).
  assert (t ++ replicate (S (length (text e) + k - length t)) 0 = buffer t) as Eb'
    by (unfold buffer; do 2 f_equal; unfold k, FINSH_CMD_SIZE; lia).
  rewrite Eb, Eb' in E. assert (line_ok t) as Hok.
  { split; [done|]. apply complete_no_nul; done. }
  assert ((msh ← gets __msh_state; w ← gets around;
    if msh : bool then on_line (msh_auto_complete table (cwd w) (readdir w) (memory w) 0) else on_line list_prefix) s = Some (tt, set_line (buffer t) s)) as Ea
    by (do 2 step; rewrite Em, Hm, Ew; by apply on_line_eval).
  rewrite (bind_eval _ _ _ _ _ Ea), (to_end_ok _ t) by done. eexists. split; [done|]. apply (shows_text s e t []); [done|]. by rewrite app_nil_r.
Qed.

Lemma plain_key_ok ch s e e' : shows s e -> 0 <= ch -> edit_plain table script switches changes ch e = Some e' ->
  exists s', plain_key table script switches changes list_prefix ch s = Some (tt, s') /\ shows s' e'.
Proof.
  intros Hs Hch He. unfold plain_key, edit_plain in *. destruct (decide (ch = 0 \/ ch = 255)); [injection He as <-; by exists s|].
  destruct (decide (ch = TAB)).
  { destruct (msh e) eqn:Em; [|done]. case_decide as Ht; [|done]. injection He as <-. destruct Ht. by apply tab_key_ok. }
  destruct (decide (ch = 127 \/ ch = 8)); [injection He as <-; by apply backspace_key_ok|].
  destruct (decide (ch = 13 \/ ch = 10)); [by apply enter_key_ok with e|].
  case_decide; [|done]. injection He as <-. apply normal_key_ok; [done|lia|done].
Qed.

Lemma shows_mode s e m : shows s e -> shows (set_stat m s) (with_mode m e).
Proof. intros (Ht & Hh & _ & Hr). by split. Qed.

Lemma finsh_key_ok ch s e e' : shows s e -> edit table script switches changes ch e = Some e' ->
  exists s', finsh_key table script switches changes list_prefix ch s = Some (tt, s') /\ shows s' e'.
Proof.
  intros Hs He. unfold finsh_key, edit in *. destruct (decide (ch < 0)); [injection He as <-; by exists s|].
  destruct (decide (ch = 27)); [injection He as <-; eexists; split; [done|by apply shows_mode]|].
  step. pose proof Hs as (_ & _ & -> & _). pose proof (shows_mode s e WAIT_NORMAL Hs) as Hn. destruct (mode e).
  - apply (plain_key_ok ch s e); [done|lia|done].
  - destruct (decide (ch = 91)); [injection He as <-; eexists; split; [done|by apply shows_mode]|]. step. eapply plain_key_ok; [done|lia|done].
  - step. unfold edit_arrow in He.
    destruct (decide (ch = 65)); [injection He as <-; exact (up_key_ok _ _ Hn)|].
    destruct (decide (ch = 66)); [injection He as <-; exact (down_key_ok _ _ Hn)|].
    destruct (decide (ch = 68)); [injection He as <-; exact (left_key_ok _ _ Hn)|].
    destruct (decide (ch = 67)); [injection He as <-; exact (right_key_ok _ _ Hn)|].
    eapply plain_key_ok; [done|lia|done].
Qed.

Definition input_ok (i : input) : Prop := match i with Key _ => True | Elsewhere w => names_ok w end.

Lemma finsh_input_ok i s e e' : shows s e -> input_ok i -> edit_input table script switches changes i e = Some e' ->
  exists s', finsh_input table script switches changes list_prefix i s = Some (tt, s') /\ shows s' e'.
Proof.
  destruct i as [ch|w]; cbn [input_ok edit_input finsh_input]; intros Hs Hi He; [by eapply finsh_key_ok|]. injection He as <-.
  eexists. split; [done|]. destruct Hs as (Ht & Hh & Hst & Hm & Hl & _). by split_and!.
Qed.

Lemma finsh_inputs_ok inputs : forall s e e', shows s e -> Forall input_ok inputs -> edits table script switches changes inputs e = Some e' ->
  exists s', finsh_thread_entry table script switches changes list_prefix inputs s = Some (tt, s') /\ shows s' e'.
Proof.
  induction inputs as [|i inputs IH]; intros s e e' Hs Hi He; [injection He as <-; by exists s|]. cbn [edits finsh_thread_entry] in *. apply Forall_cons in Hi as [Hi His].
  destruct (edit_input table script switches changes i e) as [e1|] eqn:E1; [|done].
  destruct (finsh_input_ok _ _ _ _ Hs Hi E1) as (s1 & E & Hs1). rewrite (bind_eval _ _ _ _ _ E). by eapply IH.
Qed.

Lemma inputs_of_keys keys : Forall input_ok (Key <$> keys).
Proof. by apply Forall_fmap, Forall_true. Qed.

Lemma fresh_shows w : names_ok w -> shows (finsh_system_init w) (fresh w).
Proof.
  intros Hw. split; [split; [unfold fits, FINSH_CMD_SIZE; simpl; lia|]; split; [constructor|done]|]. split; [|by split_and!].
  split; [constructor|]. split; [simpl; unfold FINSH_HISTORY_LINES; lia|done].
Qed.

(** ** Typing a line *)

(** Characters that stand for themselves. *)
Definition printable (c : Z) : Prop := 32 <= c < 127.

Lemma edit_printable c e : mode e = WAIT_NORMAL -> printable c -> fits (c :: text e) ->
  edit table script switches changes c e = Some (with_text (before e ++ [c]) (behind e) e).
Proof.
  unfold printable. intros Hm Hc Hf. unfold edit. rewrite !decide_False by lia. rewrite Hm. unfold edit_plain.
  rewrite (decide_False (P := c = 0 \/ c = 255)), (decide_False (P := c = TAB)), (decide_False (P := c = 127 \/ c = 8)), (decide_False (P := c = 13 \/ c = 10)) by (unfold TAB; lia).
  by rewrite decide_True.
Qed.

Lemma edits_app k1 : forall k2 e, edits table script switches changes (k1 ++ k2) e =
  match edits table script switches changes k1 e with Some e => edits table script switches changes k2 e | None => None end.
Proof. induction k1 as [|i k1 IH]; intros k2 e; [done|]. cbn [app edits]. by destruct (edit_input _ _ _ _ i e). Qed.

Lemma edits_text t : forall e, mode e = WAIT_NORMAL -> Forall printable t -> (length t + length (text e) < FINSH_CMD_SIZE)%nat ->
  edits table script switches changes (Key <$> t) e = Some (with_text (before e ++ t) (behind e) e).
Proof.
  induction t as [|c t IH]; intros e Hm Ht Hl; [rewrite app_nil_r; by destruct e|]. apply Forall_cons in Ht as [Hc Ht]. cbn [length] in Hl. cbn [fmap list_fmap edits edit_input].
  rewrite edit_printable by (done || unfold fits; simpl; lia). fold (Key <$> t). rewrite IH; [|done|done|].
  - unfold with_text. cbn [before behind past shown mode msh log world]. by rewrite <- app_assoc.
  - unfold text in *. cbn [with_text before behind]. rewrite !length_app in *. simpl. lia.
Qed.

(** ** The claims *)

(** C38: The shell is a line editor with a history. What it runs ([changes]),
    and other threads between two keys ([Elsewhere]), may change the working
    directory and what the directories hold (no name of a file is longer than
    255 characters). From its start on, and for any keys that the editor [edits]
    of the spec (a text before and one behind the cursor, and the last five
    different lines) accepts, nothing undefined happens: the line holds the two
    texts and then zeros, the position and the cursor are their lengths, the
    rows of the history hold the past lines, and what has been run is what the
    spec says. Accepted are the keys with which no line gets 80 characters long,
    the semicolon of an expression included, and which have a tab only in the
    mode of commands and while the name of the working directory has less than
    175 characters; the [full_path] of 256 is too short for a longer one, and
    the completion of an expression is not modelled. At the end of a line what
    runs is [exec_spec] of the text: the first command of that name with the
    arguments of the text, quotes included, at most ten; a tab puts what the
    names of the commands, or of the files that are then in the directory, have
    in common. *)
Theorem shell_edits_and_runs w inputs e : names_ok w -> Forall input_ok inputs ->
  edits table script switches changes inputs (fresh w) = Some e ->
  exists s, finsh_thread_entry table script switches changes list_prefix inputs (finsh_system_init w) = Some (tt, s) /\
    line s = before e ++ behind e ++ replicate (FINSH_CMD_SIZE - length (before e ++ behind e)) 0 /\
    line_position s = Z.of_nat (length (before e ++ behind e)) /\ line_curpos s = Z.of_nat (length (before e)) /\
    history_count s = Z.of_nat (length (past e)) /\ current_history s = Z.of_nat (shown e) /\
    (forall i t, past e !! i = Some t -> cmd_history s !! i = Some (t ++ replicate (FINSH_CMD_SIZE - length t) 0)) /\
    stat s = mode e /\ __msh_state s = msh e /\ events s = log e /\ around s = world e.
Proof.
  intros Hw Hi He. destruct (finsh_inputs_ok inputs _ _ _ (fresh_shows w Hw) Hi He) as (s & E & (_ & _ & El & Ep & Ec) & Hh & Hst & Hm & Hl & Ha & _). exists s. split; [done|].
  split; [rewrite El; unfold buffer; by rewrite <- app_assoc|]. split; [done|]. split; [done|].
  pose proof Hh as (_ & _ & _ & _ & En & Es & _). do 2 (split; [done|]). split; [|done]. intros i t. by apply (history_row _ _ _ _ _ _ _ Hh).
Qed.

(** What is typed is run, and comes back.  A printable text of at most 79
    characters and return run exactly the command that the text says, and the up
    key then shows the text again, with the cursor at its end. *)
Theorem shell_runs_and_recalls w t : names_ok w -> t <> [] -> Forall printable t -> (length t < FINSH_CMD_SIZE)%nat ->
  exists s, finsh_thread_entry table script switches changes list_prefix (Key <$> t ++ [13; 27; 91; 65]) (finsh_system_init w) = Some (tt, s) /\
    events s = [Command (exec_spec table script t)] /\ string_in (line s) 0 = t /\ line_curpos s = Z.of_nat (length t).
Proof.
  intros Hw Hne Ht Hl. set (x := Command (exec_spec table script t)).
  assert (edits table script switches changes (Key <$> t ++ [13; 27; 91; 65]) (fresh w) = Some (Editor t [] [t] 0 WAIT_NORMAL (switches x true) [x] (changes x w))) as He.
  { rewrite fmap_app, edits_app, edits_text by (done || simpl; lia). cbn [before behind fresh app edits fmap list_fmap edit_input].
    assert (end_of_line table script switches changes (with_text t [] (fresh w)) = Some (Editor [] [] [t] 1 WAIT_NORMAL (switches x true) [x] (changes x w))) as E13.
    { unfold end_of_line, remember, text. cbn [before behind with_text past msh log mode fresh world]. rewrite app_nil_r. by rewrite decide_False by (by intros [?|?]). }
    change (edit table script switches changes 13 (with_text t [] (fresh w))) with (end_of_line table script switches changes (with_text t [] (fresh w))). by rewrite E13. }
  destruct (finsh_inputs_ok _ _ _ _ (fresh_shows w Hw) (inputs_of_keys _) He) as (s & E & (Hf & Hz & El & _ & Ec) & _ & _ & _ & Hlog & _). exists s. split; [done|]. split; [done|]. split; [|done].
  rewrite El. cbn [before behind] in *. rewrite app_nil_r in *. by apply string_in_buffer.
Qed.
End shell_ok.

(** ** Examples *)

(** A shell with the commands "ls", which is 7, and "cd", which is 8 and goes to
    the directory of its argument.  In the root are the names [names], in "/d/"
    is the file "xy". *)
Definition demo_table : list syscall := [Syscall (__cmd_ ++ [108; 115]) 7; Syscall (__cmd_ ++ [99; 100]) 8].
Definition demo_world (names : list (list Z)) : surroundings :=
  Surroundings [SLASH] (fun p => if decide (p = [SLASH]) then Some names else if decide (p = [SLASH; 100; SLASH]) then Some [[120; 121]] else None) true.
Definition demo_changes (x : event) (w : surroundings) : surroundings :=
  match x with Command (ERan 8 [_; SLASH :: d]) => Surroundings (SLASH :: d) (readdir w) (memory w) | _ => w end.
Definition demo_shell (names : list (list Z)) (keys : list Z) : M finsh_shell unit := fun s =>
  finsh_thread_entry demo_table (fun _ => false) (fun _ msh => msh) demo_changes halt (Key <$> keys) s.
Definition demo_init (names : list (list Z)) : finsh_shell := finsh_system_init (demo_world names).

Lemma demo_world_ok names : Forall name_ok names -> names_ok (demo_world names).
Proof.
  intros H. split; [done|]. intros p ns. cbn. repeat case_decide; intros [= <-]; [done|]. repeat constructor; discriminate.
Qed.

Lemma demo_changes_ok x w : names_ok w -> names_ok (demo_changes x w).
Proof.
  intros [Hc Hr]. unfold demo_changes. repeat case_match; by split.
Qed.

(** "lxs", the left key, backspace, return: that is "ls".  Then "cd /d", and
    "ls x", which the tab makes "ls xy" there. *)
Definition demo_keys : list Z :=
  [108; 120; 115; 27; 91; 68; 127; 13; 99; 100; 32; 47; 100; 13; 108; 115; 32; 120; TAB; 13].
Lemma shell_edits_and_runs_witness :
  exists s, demo_shell [] demo_keys (demo_init []) = Some (tt, s) /\
    events s = [Command (ERan 7 [[108; 115]]); Command (ERan 8 [[99; 100]; [47; 100]]); Command (ERan 7 [[108; 115]; [120; 121]])].
Proof.
  destruct (edits demo_table (fun _ => false) (fun _ msh => msh) demo_changes (Key <$> demo_keys) (fresh (demo_world []))) as [e|] eqn:He; [|by vm_compute in He].
  destruct (shell_edits_and_runs demo_table (fun _ => false) (fun _ msh => msh) demo_changes halt) with (w := demo_world []) (inputs := Key <$> demo_keys) (e := e)
    as (s & E & _ & _ & _ & _ & _ & _ & _ & _ & Hl & _).
  - exact demo_changes_ok.
  - repeat constructor; discriminate.
  - apply demo_world_ok. constructor.
  - apply inputs_of_keys.
  - exact He.
  - exists s. split; [exact E|]. rewrite Hl. clear -He. vm_compute in He. injection He as <-. reflexivity.
Defined.

Lemma shell_runs_and_recalls_witness :
  exists s, demo_shell [] [108; 115; 13; 27; 91; 65] (demo_init []) = Some (tt, s) /\ string_in (line s) 0 = [108; 115].
Proof.
  destruct (shell_runs_and_recalls demo_table (fun _ => false) (fun _ msh => msh) demo_changes halt) with (w := demo_world []) (t := [108; 115])
    as (s & E & _ & Hl & _).
  - exact demo_changes_ok.
  - repeat constructor; discriminate.
  - apply demo_world_ok. constructor.
  - discriminate.
  - repeat constructor; discriminate.
  - unfold FINSH_CMD_SIZE. simpl. lia.
  - exists s. exact (conj E Hl).
Defined.

(** A line of 80 characters is given up but not cleared: what is typed next is
    not ended by a zero, and the argument is the rest of the old line too. *)
Example long_line_is_not_cleared :
  (fun r => events (snd r)) <$> demo_shell [] (replicate 80 97 ++ [108; 115; 13]) (demo_init []) =
  Some [Command (ERan 7 [[108; 115] ++ replicate 78 97])].
Proof. vm_compute. reflexivity. Qed.

(** After it the tab key looks for the end of the line outside of the array. *)
Example long_line_then_tab : demo_shell [] (replicate 80 97 ++ [TAB]) (demo_init []) = None.
Proof. vm_compute. reflexivity. Qed.

(** A path is completed without regard to the length of the line. *)
Example path_completion_overruns :
  let names := [replicate 90 97] in demo_shell names [108; 115; 32; 97; TAB] (demo_init names) = None.
Proof. vm_compute. reflexivity. Qed.

(** In a directory with a long name the path does not fit into [full_path]. *)
Example long_directory_overruns :
  let deep := Surroundings (SLASH :: replicate 255 97) (fun _ => None) true in
  demo_shell [] [108; 115; 32; 97; TAB] (finsh_system_init deep) = None.
Proof. vm_compute. reflexivity. Qed.

(** An expression of 79 characters has its end overwritten by the semicolon. *)
Example long_expression_overruns :
  demo_shell [] (replicate 79 97 ++ [13]) (Shell WAIT_NORMAL 0 0 (replicate 5 (replicate 80 0)) (replicate 80 0) 0 0 false [] (demo_world [])) = None.
Proof. vm_compute. reflexivity. Qed.
