(* ===== verification/FinshVm.v ===== *)
(** * FinshVm: the stack machine of the shell

    components/finsh/finsh_vm.c and finsh_ops.c.  The machine runs the byte code
    that the compiler makes of an expression: a stack of 64 words, a text of 128
    bytes, and the memory of the program, in which the variables are ([KString]'s
    [mem]).  A slot of the stack is a union: a [char] or a [short] is in its low
    bits, and writing one keeps the others.  What the called functions do is a
    parameter.  Programs that write into the machine's own arrays are left out. *)

From S2P Require Import Prelude Bytes KString.

Definition FINSH_STACK_MAX : nat := 64.
Definition FINSH_TEXT_MAX : nat := 128.

Record vm := Vm {
  finsh_vm_stack : list Z;
  finsh_sp : nat;
  finsh_pc : nat;
  text_segment : list Z;
  data : mem
}.

Abbreviation VM := (M vm).
Definition set_slot (i : nat) (w : Z) : VM unit := fun s =>
  if decide (i < length (finsh_vm_stack s))%nat
  then Some (tt, Vm (<[i := w]> (finsh_vm_stack s)) (finsh_sp s) (finsh_pc s) (text_segment s) (data s)) else None.
Definition set_sp (sp : nat) (s : vm) : vm := Vm (finsh_vm_stack s) sp (finsh_pc s) (text_segment s) (data s).
Definition set_pc (pc : nat) (s : vm) : vm := Vm (finsh_vm_stack s) (finsh_sp s) pc (text_segment s) (data s).
Definition set_data (b : mem) (s : vm) : vm := Vm (finsh_vm_stack s) (finsh_sp s) (finsh_pc s) (text_segment s) b.

(** The slot [k] below the stack pointer; below the array it is undefined. *)
Definition slot_index (k : nat) : VM nat := fun s => if decide (k <= finsh_sp s)%nat then Some ((finsh_sp s - k)%nat, s) else None.
Definition slot (k : nat) : VM Z :=
  i ← slot_index k;
  deref (fun s => finsh_vm_stack s !! i).

(** ** The widths *)

Inductive width := Byte | Short | Long.
Definition bits (w : width) : Z := match w with Byte => 8 | Short => 16 | Long => 32 end.

(** A member of the union: as it is read, and written into the slot [z]. *)
Definition view (w : width) (z : Z) : Z := match w with Byte => s8 z | Short => s16 z | Long => s32 z end.
Definition put (w : width) (v z : Z) : Z := z - wrap (bits w) z + wrap (bits w) v.

(** Memory, at addresses that are multiples of the width. *)
Definition store16 (a v : Z) (b : mem) : mem := store8 (a + 1) (v / 256) (store8 a v b).
Definition aligned (w : width) (a : Z) : Prop := a mod (bits w / 8) = 0.
#[export] Instance aligned_dec w a : Decision (aligned w a).
Proof. unfold aligned. apply _. Defined.
Definition load (w : width) (a : Z) (b : mem) : option Z :=
  if decide (aligned w a) then Some (match w with Byte => s8 (b a) | Short => s16 (b a + 256 * b (a + 1)) | Long => s32 (load32 a b) end) else None.
Definition store (w : width) (a v : Z) (b : mem) : option mem :=
  if decide (aligned w a) then Some (match w with Byte => store8 a v b | Short => store16 a v b | Long => store32 a (u32 v) b end) else None.

(** ** Operations on two values, which C promotes to [int]

    Overflow wraps around, as on the processor; division by zero and shifts by
    more than 31 are undefined. *)

Definition binop := Z -> Z -> option Z.
Definition op_add : binop := fun a b => Some (a + b).
Definition op_sub : binop := fun a b => Some (a - b).
Definition op_mul : binop := fun a b => Some (a * b).
Definition op_div : binop := fun a b => if decide (b = 0 \/ (a = - 2 ^ 31 /\ b = -1)) then None else Some (Z.quot a b).
Definition op_mod : binop := fun a b => if decide (b = 0 \/ (a = - 2 ^ 31 /\ b = -1)) then None else Some (Z.rem a b).
Definition op_and : binop := fun a b => Some (Z.land a b).
Definition op_or : binop := fun a b => Some (Z.lor a b).
Definition op_xor : binop := fun a b => Some (Z.lxor a b).
Definition op_shl : binop := fun a b => if decide (0 <= b < 32) then Some (Z.shiftl a b) else None.
Definition op_shr : binop := fun a b => if decide (0 <= b < 32) then Some (Z.shiftr a b) else None.

(** ** The operations of the machine *)

(** Operands: [FINSH_GET16] and [FINSH_GET32] are made of these. *)
Definition fetch : VM Z :=
  pc ← gets finsh_pc;
  c ← deref (fun s => text_segment s !! pc);
  modify (set_pc (S pc));;
  mret c.
Fixpoint fetch_le (n : nat) : VM Z :=
  match n with
  | O => mret 0
  | S n => c ← fetch; r ← fetch_le n; mret (c + 256 * r)
  end.
Definition bytes (w : width) : nat := match w with Byte => 1 | Short => 2 | Long => 4 end.

Definition OP_no_op : VM unit := mret tt.

Definition OP_BIN (w : width) (x : binop) : VM unit :=
  a ← slot 2;
  b ← slot 1;
  r ← deref (fun _ => x (view w a) (view w b));
  i ← slot_index 2;
  set_slot i (put w r a);;
  sp ← gets finsh_sp;
  modify (set_sp (sp - 1)).

Definition OP_bw (w : width) : VM unit :=
  a ← slot 1;
  i ← slot_index 1;
  set_slot i (put w (Z.lnot (view w a)) a).

(** A value is put into the next slot. *)
Definition push (w : width) (v : Z) : VM unit :=
  old ← slot 0;
  i ← slot_index 0;
  set_slot i (put w v old);;
  modify (set_sp (S i)).

Definition OP_ld (w : width) : VM unit :=
  v ← fetch_le (bytes w);
  push w v.

Definition OP_ld_value (w : width) : VM unit :=
  a ← fetch_le 4;
  v ← deref (fun s => load w a (data s));
  push w v.

Definition OP_ld_value_stack (w : width) : VM unit :=
  a ← slot 1;
  v ← deref (fun s => load w (u32 a) (data s));
  i ← slot_index 1;
  set_slot i (put w v a).

Definition OP_st (w : width) : VM unit :=
  a ← slot 2;
  v ← slot 1;
  b ← deref (fun s => store w (u32 a) (view w v) (data s));
  modify (set_data b);;
  sp ← gets finsh_sp;
  modify (set_sp (sp - 1)).

Definition OP_pop : VM unit :=
  i ← slot_index 1;
  modify (set_sp i).

Definition PARAMETERS_MAX : nat := 16.

(** The function at an address, given its parameters and the memory. *)
Class Functions := func : Z -> list Z -> mem -> option (Z * mem).

Section call.
Context {fs : Functions}.

(** The last parameter is popped first. *)
Fixpoint pop_parameters (n : nat) (parameterv : list Z) : VM (list Z) :=
  match n with
  | O => mret parameterv
  | S n => v ← slot 1; OP_pop;; pop_parameters n (u32 v :: parameterv)
  end.

(** A call without parameters passes a zero. *)
Definition arguments (parameterv : list Z) : list Z := match parameterv with [] => [0] | _ :: _ => parameterv end.

Definition OP_call : VM unit :=
  parameters ← fetch;
  if decide (parameters <= Z.of_nat PARAMETERS_MAX) then
    parameterv ← pop_parameters (Z.to_nat parameters) [];
    f ← slot 1;
    '(r, b) ← deref (fun s => func (u32 f) (arguments parameterv) (data s));
    modify (set_data b);;
    OP_pop;;
    push Long r
  else undefined.

Definition op_table : list (VM unit) :=
  [OP_no_op; OP_BIN Byte op_add; OP_BIN Short op_add; OP_BIN Long op_add;
   OP_BIN Byte op_sub; OP_BIN Short op_sub; OP_BIN Long op_sub;
   OP_BIN Byte op_div; OP_BIN Short op_div; OP_BIN Long op_div;
   OP_BIN Byte op_mod; OP_BIN Short op_mod; OP_BIN Long op_mod;
   OP_BIN Byte op_mul; OP_BIN Short op_mul; OP_BIN Long op_mul;
   OP_BIN Byte op_and; OP_BIN Short op_and; OP_BIN Long op_and;
   OP_BIN Byte op_or; OP_BIN Short op_or; OP_BIN Long op_or;
   OP_BIN Byte op_xor; OP_BIN Short op_xor; OP_BIN Long op_xor;
   OP_bw Byte; OP_bw Short; OP_bw Long;
   OP_BIN Byte op_shl; OP_BIN Short op_shl; OP_BIN Long op_shl;
   OP_BIN Byte op_shr; OP_BIN Short op_shr; OP_BIN Long op_shr;
   OP_ld Byte; OP_ld Short; OP_ld Long;
   OP_ld_value Byte; OP_ld_value Short; OP_ld_value Long;
   OP_st Byte; OP_st Short; OP_st Long;
   OP_pop; OP_call;
   OP_ld_value_stack Byte; OP_ld_value_stack Short; OP_ld_value_stack Long].

(** One turn of the loop of [finsh_vm_run]. *)
Definition vm_step : VM unit :=
  op ← fetch;
  f ← deref (fun _ => op_table !! Z.to_nat op);
  f.

(** Every turn takes a byte of the text, so [FINSH_TEXT_MAX] turns are enough. *)
Fixpoint vm_loop (fuel : nat) : VM unit :=
  pc ← gets finsh_pc;
  if decide (pc < FINSH_TEXT_MAX)%nat then
    match fuel with O => halt | S fuel => vm_step;; vm_loop fuel end
  else mret tt.

Definition finsh_vm_run : VM unit :=
  modify (set_sp 0);;
  modify (set_pc 0);;
  vm_loop FINSH_TEXT_MAX.
End call.

(** ** The members of the union *)

Lemma bits_pos w : 0 < bits w.
Proof. by destruct w. Qed.

Lemma wrap_s16 z : u16 (s16 z) = u16 z.
Proof. unfold s16. case_decide; [by apply wrap_wrap|]. unfold wrap. by rewrite Zminus_mod, Z_mod_same_full, Z.sub_0_r, !Zmod_mod. Qed.
Lemma wrap_s8 z : u8 (s8 z) = u8 z.
Proof. unfold s8. case_decide; [by apply wrap_wrap|]. change 256 with (2 ^ 8). unfold wrap. by rewrite Zminus_mod, Z_mod_same_full, Z.sub_0_r, !Zmod_mod. Qed.
Lemma wrap_s32 z : u32 (s32 z) = u32 z.
Proof. unfold s32. case_decide; [by apply wrap_wrap|]. unfold wrap. by rewrite Zminus_mod, Z_mod_same_full, Z.sub_0_r, !Zmod_mod. Qed.

Lemma wrap_view w z : wrap (bits w) (view w z) = wrap (bits w) z.
Proof. destruct w; [apply wrap_s8|apply wrap_s16|apply wrap_s32]. Qed.

(** A member depends on its bits alone. *)
Lemma view_wrap w y z : wrap (bits w) y = wrap (bits w) z -> view w y = view w z.
Proof. destruct w; cbn [bits view]; unfold s8, s16, s32; by intros ->. Qed.

Lemma wrap_wrap_le a b z : 0 <= a <= b -> wrap a (wrap b z) = wrap a z.
Proof.
  intros H. unfold wrap. apply Z.mod_mod_divide. exists (2 ^ (b - a)). rewrite <- Z.pow_add_r by lia. f_equal. lia.
Qed.

(** A narrower member of a wider one. *)
Lemma view_view w w' z : bits w <= bits w' -> view w (view w' z) = view w z.
Proof.
  intros H. apply view_wrap. pose proof (bits_pos w). rewrite <- (wrap_wrap_le (bits w) (bits w')), wrap_view, wrap_wrap_le by lia. done.
Qed.

Lemma put_wrap w v z : wrap (bits w) (put w v z) = wrap (bits w) v.
Proof.
  unfold put, wrap. pose proof (bits_pos w). rewrite Zplus_mod, Zminus_mod, Zmod_mod, Z.sub_diag, Zmod_0_l, Z.add_0_l, !Zmod_mod. done.
Qed.

Lemma view_put w v z : view w (put w v z) = view w v.
Proof. apply view_wrap, put_wrap. Qed.

(** What has been stored is what is loaded. *)
Lemma load32_same a v b : load32 a (store32 a v b) = u32 v.
Proof.
  unfold load32. rewrite !store32_spec, !decide_True by lia.
  replace (a - a) with 0 by lia. replace (a + 1 - a) with 1 by lia. replace (a + 2 - a) with 2 by lia. replace (a + 3 - a) with 3 by lia.
  change (Z.to_nat 0) with 0%nat. change (Z.to_nat 1) with 1%nat. change (Z.to_nat 2) with 2%nat. change (Z.to_nat 3) with 3%nat.
  apply bytes_of_word.
Qed.

Lemma load_store w a v b b' : store w a v b = Some b' -> load w a b' = Some (view w v).
Proof.
  unfold store, load. case_decide; [|done]. intros [= <-]. f_equal. destruct w; cbn [view].
  - apply (view_wrap Byte). cbn [bits]. unfold store8. rewrite decide_True by done. by apply wrap_wrap.
  - apply (view_wrap Short). cbn [bits]. unfold store16, store8. rewrite (decide_False (P := a = a + 1)), !decide_True by lia.
    unfold wrap. change (2 ^ 8) with 256. change (2 ^ 16) with 65536. Z.div_mod_to_equations. lia.
  - apply (view_wrap Long). cbn [bits]. by rewrite load32_same, !wrap_wrap by lia.
Qed.

Lemma deref_eval {S A} (f : S -> option A) s a : f s = Some a -> deref f s = Some (a, s).
Proof. unfold deref. by intros ->. Qed.

Lemma bind_deref {S A B} (f : S -> option A) (k : A -> M S B) s a : f s = Some a -> (deref f ≫= k) s = k a s.
Proof. intros E. by rewrite (bind_eval _ _ _ _ _ (deref_eval _ _ _ E)). Qed.

(** ** Runs of a piece of code *)

Section runs.
Context {fs : Functions}.

(** From [s] the machine gets to [s'], with at most a turn for each byte. *)
Definition steps (s s' : vm) : Prop :=
  exists n, (n + finsh_pc s <= finsh_pc s')%nat /\ forall fuel, vm_loop (n + fuel) s = vm_loop fuel s'.

Lemma steps_refl s : steps s s.
Proof. by exists 0%nat. Qed.

Lemma steps_trans s1 s2 s3 : steps s1 s2 -> steps s2 s3 -> steps s1 s3.
Proof.
  intros (n & Hn & E1) (m & Hm & E2). exists (n + m)%nat. split; [lia|]. intros fuel. by rewrite <- Nat.add_assoc, E1.
Qed.

Lemma step_steps s s' : (finsh_pc s < FINSH_TEXT_MAX)%nat -> (finsh_pc s < finsh_pc s')%nat -> vm_step s = Some (tt, s') -> steps s s'.
Proof.
  intros Hpc Hlt E. exists 1%nat. split; [lia|]. intros fuel. cbn [Nat.add vm_loop]. rewrite (bind_eval _ _ _ _ _ eq_refl). rewrite decide_True by done.
  by rewrite (bind_eval _ _ _ _ _ E).
Qed.

(** The code [c] takes the machine from one stack and memory to another,
    wherever it is in the text.  Every value that is put on the stack takes two
    bytes of code at least, so a stack of [FINSH_STACK_MAX] is large enough. *)
Definition runs (c : list Z) (stk : list Z) (sp : nat) (b : mem) (stk' : list Z) (sp' : nat) (b' : mem) : Prop :=
  (2 * sp' <= 2 * sp + length c)%nat /\
  forall text pc post, length text = FINSH_TEXT_MAX -> drop pc text = c ++ post -> (2 * sp <= pc)%nat -> length stk = FINSH_STACK_MAX ->
    length stk' = FINSH_STACK_MAX /\ steps (Vm stk sp pc text b) (Vm stk' sp' (pc + length c) text b').

Lemma runs_nil stk sp b : runs [] stk sp b stk sp b.
Proof. split; [simpl; lia|]. intros text pc post _ _ _ Hl. split; [done|]. rewrite Nat.add_0_r. apply steps_refl. Qed.

Lemma runs_app c1 c2 stk1 sp1 b1 stk2 sp2 b2 stk3 sp3 b3 :
  runs c1 stk1 sp1 b1 stk2 sp2 b2 -> runs c2 stk2 sp2 b2 stk3 sp3 b3 -> runs (c1 ++ c2) stk1 sp1 b1 stk3 sp3 b3.
Proof.
  intros [H1 R1] [H2 R2]. split; [rewrite length_app; lia|]. intros text pc post Ht Hd Hsp Hl. rewrite <- app_assoc in Hd.
  destruct (R1 text pc (c2 ++ post) Ht Hd Hsp Hl) as [Hl2 S1].
  assert (drop (pc + length c1) text = c2 ++ post) as Hd2 by (by rewrite <- drop_drop, Hd, drop_app_length).
  destruct (R2 text (pc + length c1)%nat post Ht Hd2 ltac:(lia) Hl2) as [Hl3 S2]. split; [done|].
  rewrite length_app, Nat.add_assoc. by eapply steps_trans.
Qed.

Lemma fetch_eval stk sp pc text b c post : drop pc text = c :: post ->
  fetch (Vm stk sp pc text b) = Some (c, Vm stk sp (S pc) text b) /\ drop (S pc) text = post.
Proof.
  intros Hd. assert (text !! pc = Some c) as Hc by (by rewrite <- (Nat.add_0_r pc), <- lookup_drop, Hd).
  split; [unfold fetch; rewrite (bind_eval _ _ _ _ _ eq_refl); by rewrite (bind_eval _ _ _ c (Vm stk sp pc text b)) by (apply deref_eval; exact Hc)|].
  by rewrite <- Nat.add_1_r, <- drop_drop, Hd.
Qed.

Fixpoint le_value (l : list Z) : Z := match l with [] => 0 | c :: l => c + 256 * le_value l end.

Lemma fetch_le_eval l : forall stk sp pc text b post, drop pc text = l ++ post ->
  fetch_le (length l) (Vm stk sp pc text b) = Some (le_value l, Vm stk sp (pc + length l) text b) /\ drop (pc + length l) text = post.
Proof.
  induction l as [|c l IH]; intros stk sp pc text b post Hd; [by rewrite Nat.add_0_r|].
  destruct (fetch_eval stk sp pc text b c (l ++ post) Hd) as [E Hd']. destruct (IH stk sp (S pc) text b post Hd') as [E' Hd''].
  cbn [length fetch_le le_value]. rewrite Nat.add_succ_r. split; [|exact Hd'']. rewrite (bind_eval _ _ _ _ _ E), (bind_eval _ _ _ _ _ E'). done.
Qed.

(** An operation with its operands. *)
Lemma runs_op op operands f stk sp b stk' sp' b' : op_table !! Z.to_nat op = Some f -> (2 * sp' <= 2 * sp + S (length operands))%nat ->
  (length stk = FINSH_STACK_MAX -> length stk' = FINSH_STACK_MAX) ->
  (forall text pc post, drop pc text = operands ++ post -> length stk = FINSH_STACK_MAX -> (2 * sp + S (length operands) <= FINSH_TEXT_MAX)%nat ->
    f (Vm stk sp pc text b) = Some (tt, Vm stk' sp' (pc + length operands) text b')) ->
  runs (op :: operands) stk sp b stk' sp' b'.
Proof.
  intros Ho Hsp Hl Hf. split; [done|]. intros text pc post Ht Hd Hpc Hls. split; [by apply Hl|]. cbn [app] in Hd.
  destruct (fetch_eval stk sp pc text b op (operands ++ post) Hd) as [E Hd'].
  assert (pc + S (length operands) <= FINSH_TEXT_MAX)%nat as Hlt.
  { apply (f_equal length) in Hd. cbn [length] in Hd. rewrite length_drop, length_app, Ht in Hd. lia. }
  apply step_steps; cbn [finsh_pc length]; [lia|lia|]. unfold vm_step. rewrite (bind_eval _ _ _ _ _ E).
  rewrite (bind_eval _ _ _ f (Vm stk sp (S pc) text b)) by (apply deref_eval; exact Ho). rewrite (Hf _ _ post Hd' Hls ltac:(lia)). do 3 f_equal. lia.
Qed.

Lemma slot_eval k i stk pc text b w : stk !! i = Some w -> slot k (Vm stk (k + i) pc text b) = Some (w, Vm stk (k + i) pc text b).
Proof.
  intros Hw. unfold slot, slot_index. rewrite (bind_eval _ _ _ i (Vm stk (k + i) pc text b)).
  - by apply deref_eval.
  - cbn [finsh_sp]. rewrite decide_True by lia. do 2 f_equal. lia.
Qed.

Lemma slot_index_eval k i stk pc text b : slot_index k (Vm stk (k + i) pc text b) = Some (i, Vm stk (k + i) pc text b).
Proof. unfold slot_index. cbn [finsh_sp]. rewrite decide_True by lia. do 2 f_equal. lia. Qed.

Lemma set_slot_eval i w stk sp pc text b : (i < length stk)%nat -> set_slot i w (Vm stk sp pc text b) = Some (tt, Vm (<[i := w]> stk) sp pc text b).
Proof. intros H. unfold set_slot. cbn [finsh_vm_stack]. by rewrite decide_True. Qed.

Definition pushed (w : width) (v : Z) (stk : list Z) (sp : nat) : list Z := <[sp := put w v (default 0 (stk !! sp))]> stk.

Lemma push_eval w v stk sp pc text b : (sp < length stk)%nat -> push w v (Vm stk sp pc text b) = Some (tt, Vm (pushed w v stk sp) (S sp) pc text b).
Proof.
  intros H. unfold push, pushed. destruct (lookup_lt_is_Some_2 _ _ H) as [old Ho]. rewrite Ho. cbn [default].
  rewrite (bind_eval _ _ _ _ _ (slot_eval 0 sp _ _ _ _ _ Ho)), (bind_eval _ _ _ _ _ (slot_index_eval 0 sp _ _ _ _)).
  by rewrite (bind_eval _ _ _ _ _ (set_slot_eval _ _ _ _ _ _ _ H)).
Qed.

Lemma runs_ld op w l stk sp b : op_table !! Z.to_nat op = Some (OP_ld w) -> length l = bytes w ->
  runs (op :: l) stk sp b (pushed w (le_value l) stk sp) (S sp) b.
Proof.
  intros Ho Hl. apply (runs_op _ _ _ _ _ _ _ _ _ Ho); [rewrite Hl; destruct w; simpl; lia|unfold pushed; by rewrite length_insert|].
  intros text pc post Hd Hs Hlt. unfold OP_ld. rewrite <- Hl. destruct (fetch_le_eval l stk sp pc text b post Hd) as [E _].
  rewrite (bind_eval _ _ _ _ _ E). apply push_eval. unfold FINSH_TEXT_MAX, FINSH_STACK_MAX in *. lia.
Qed.

Lemma runs_ld_value op w l stk sp b v : op_table !! Z.to_nat op = Some (OP_ld_value w) -> length l = 4%nat -> load w (le_value l) b = Some v ->
  runs (op :: l) stk sp b (pushed w v stk sp) (S sp) b.
Proof.
  intros Ho Hl Hv. apply (runs_op _ _ _ _ _ _ _ _ _ Ho); [lia|unfold pushed; by rewrite length_insert|].
  intros text pc post Hd Hs Hlt. unfold OP_ld_value. destruct (fetch_le_eval l stk sp pc text b post Hd) as [E _]. rewrite Hl in *.
  rewrite (bind_eval _ _ _ _ _ E). rewrite (bind_deref _ _ _ v) by exact Hv. apply push_eval. unfold FINSH_TEXT_MAX, FINSH_STACK_MAX in *. lia.
Qed.

(** Operations without operands, on the two topmost slots. *)
Lemma runs_bin op w x stk sp b a c r : op_table !! Z.to_nat op = Some (OP_BIN w x) -> stk !! sp = Some a -> stk !! S sp = Some c ->
  x (view w a) (view w c) = Some r -> runs [op] stk (S (S sp)) b (<[sp := put w r a]> stk) (S sp) b.
Proof.
  intros Ho Ha Hc Hx. apply (runs_op _ _ _ _ _ _ _ _ _ Ho); [simpl; lia|by rewrite length_insert|]. intros text pc post _ _ _. rewrite Nat.add_0_r.
  unfold OP_BIN. rewrite (bind_eval _ _ _ _ _ (slot_eval 2 sp _ _ _ _ _ Ha)), (bind_eval _ _ _ _ _ (slot_eval 1 (S sp) _ _ _ _ _ Hc)).
  rewrite (bind_deref _ _ _ r) by exact Hx. rewrite (bind_eval _ _ _ _ _ (slot_index_eval 2 sp _ _ _ _)).
  rewrite (bind_eval _ _ _ _ _ (set_slot_eval sp _ _ _ _ _ _ (lookup_lt_Some _ _ _ Ha))). done.
Qed.

Lemma runs_bw op w stk sp b a : op_table !! Z.to_nat op = Some (OP_bw w) -> stk !! sp = Some a ->
  runs [op] stk (S sp) b (<[sp := put w (Z.lnot (view w a)) a]> stk) (S sp) b.
Proof.
  intros Ho Ha. apply (runs_op _ _ _ _ _ _ _ _ _ Ho); [simpl; lia|by rewrite length_insert|]. intros text pc post _ _ _. rewrite Nat.add_0_r.
  unfold OP_bw. rewrite (bind_eval _ _ _ _ _ (slot_eval 1 sp _ _ _ _ _ Ha)), (bind_eval _ _ _ _ _ (slot_index_eval 1 sp _ _ _ _)).
  apply set_slot_eval. by eapply lookup_lt_Some.
Qed.

Lemma runs_ld_value_stack op w stk sp b a v : op_table !! Z.to_nat op = Some (OP_ld_value_stack w) -> stk !! sp = Some a ->
  load w (u32 a) b = Some v -> runs [op] stk (S sp) b (<[sp := put w v a]> stk) (S sp) b.
Proof.
  intros Ho Ha Hv. apply (runs_op _ _ _ _ _ _ _ _ _ Ho); [simpl; lia|by rewrite length_insert|]. intros text pc post _ _ _. rewrite Nat.add_0_r.
  unfold OP_ld_value_stack. rewrite (bind_eval _ _ _ _ _ (slot_eval 1 sp _ _ _ _ _ Ha)), (bind_deref _ _ _ v) by exact Hv.
  rewrite (bind_eval _ _ _ _ _ (slot_index_eval 1 sp _ _ _ _)). apply set_slot_eval. by eapply lookup_lt_Some.
Qed.

Lemma runs_st op w stk sp b b' a v : op_table !! Z.to_nat op = Some (OP_st w) -> stk !! sp = Some a -> stk !! S sp = Some v ->
  store w (u32 a) (view w v) b = Some b' -> runs [op] stk (S (S sp)) b stk (S sp) b'.
Proof.
  intros Ho Ha Hv Hb. apply (runs_op _ _ _ _ _ _ _ _ _ Ho); [simpl; lia|done|]. intros text pc post _ _ _. rewrite Nat.add_0_r.
  unfold OP_st. rewrite (bind_eval _ _ _ _ _ (slot_eval 2 sp _ _ _ _ _ Ha)), (bind_eval _ _ _ _ _ (slot_eval 1 (S sp) _ _ _ _ _ Hv)).
  by rewrite (bind_deref _ _ _ b') by exact Hb.
Qed.

Lemma runs_pop op stk sp b : op_table !! Z.to_nat op = Some OP_pop -> runs [op] stk (S sp) b stk sp b.
Proof.
  intros Ho. apply (runs_op _ _ _ _ _ _ _ _ _ Ho); [simpl; lia|done|]. intros text pc post _ _ _. rewrite Nat.add_0_r.
  unfold OP_pop. by rewrite (bind_eval _ _ _ _ _ (slot_index_eval 1 sp _ _ _ _)).
Qed.

(** The parameters are the slots above the function, from below. *)
Lemma pop_parameters_eval vs : forall acc stk sp pc text b, take (length vs) (drop sp stk) = vs ->
  pop_parameters (length vs) acc (Vm stk (sp + length vs) pc text b) = Some ((u32 <$> vs) ++ acc, Vm stk sp pc text b).
Proof.
  induction vs as [|v vs IH] using rev_ind; intros acc stk sp pc text b Hv; [cbn; by rewrite Nat.add_0_r|].
  rewrite length_app, Nat.add_1_r in *. rewrite Nat.add_succ_r. cbn [pop_parameters].
  assert (stk !! (sp + length vs)%nat = Some v) as Hs.
  { rewrite <- lookup_drop, <- (lookup_take_lt _ (S (length vs))), Hv, lookup_app_r, Nat.sub_diag by lia. done. }
  rewrite (bind_eval _ _ _ _ _ (slot_eval 1 (sp + length vs) _ _ _ _ _ Hs)).
  assert (OP_pop (Vm stk (S (sp + length vs)) pc text b) = Some (tt, Vm stk (sp + length vs) pc text b)) as Ep.
  { unfold OP_pop. by rewrite (bind_eval _ _ _ _ _ (slot_index_eval 1 (sp + length vs) _ _ _ _)). }
  rewrite (bind_eval _ _ _ _ _ Ep), IH; [by rewrite fmap_app, <- app_assoc|].
  apply (f_equal (take (length vs))) in Hv. rewrite take_take, Nat.min_l, take_app_length in Hv by lia. exact Hv.
Qed.

Lemma runs_call op vs stk sp b f r b' : op_table !! Z.to_nat op = Some OP_call -> stk !! sp = Some f ->
  take (length vs) (drop (S sp) stk) = vs -> (length vs <= PARAMETERS_MAX)%nat -> func (u32 f) (arguments (u32 <$> vs)) b = Some (r, b') ->
  runs [op; Z.of_nat (length vs)] stk (S (sp + length vs)) b (pushed Long r stk sp) (S sp) b'.
Proof.
  intros Ho Hf Hv Hn Hr. apply (runs_op _ _ _ _ _ _ _ _ _ Ho); [simpl; lia|unfold pushed; by rewrite length_insert|]. intros text pc post Hd _ _.
  destruct (fetch_eval stk (S (sp + length vs)) pc text b _ _ Hd) as [E _]. unfold OP_call. rewrite (bind_eval _ _ _ _ _ E), decide_True by lia.
  rewrite Nat2Z.id. change (S (sp + length vs)) with (S sp + length vs)%nat. rewrite (bind_eval _ _ _ _ _ (pop_parameters_eval vs [] _ _ _ _ _ Hv)), app_nil_r.
  rewrite (bind_eval _ _ _ _ _ (slot_eval 1 sp _ _ _ _ _ Hf)), (bind_deref _ _ _ (r, b')) by exact Hr.
  rewrite (bind_eval _ _ _ _ _ eq_refl).
  assert (OP_pop (Vm stk (1 + sp) (S pc) text b') = Some (tt, Vm stk sp (S pc) text b')) as Ep
    by (unfold OP_pop; by rewrite (bind_eval _ _ _ _ _ (slot_index_eval 1 sp _ _ _ _))).
  rewrite (bind_eval _ _ _ _ _ Ep). cbn [length]. rewrite Nat.add_1_r. apply push_eval. by eapply lookup_lt_Some.
Qed.
End runs.
