(* ===== verification/FinshCompiler.v ===== *)
(** * FinshCompiler: the compiler of expressions of the shell

    components/finsh/finsh_compiler.c: the types of a syntax tree, and the byte
    code of it.  A tree has a child and a sibling, as the nodes of finsh_node.c
    do; [Null] is the null pointer.  Identifiers are pointers, and what they
    point to (a variable, a variable or a function of the system) is read by the
    members of [Symbols].  Code behind the text segment is undefined. *)

From S2P Require Import Prelude Bytes KString FinshVm.

(** ** finsh.h *)

Inductive finsh_type :=
  | finsh_type_unknown | finsh_type_void | finsh_type_voidp
  | finsh_type_char | finsh_type_uchar | finsh_type_charp
  | finsh_type_short | finsh_type_ushort | finsh_type_shortp
  | finsh_type_int | finsh_type_uint | finsh_type_intp
  | finsh_type_long | finsh_type_ulong | finsh_type_longp.

#[export] Instance finsh_type_eq_dec : EqDecision finsh_type.
Proof. solve_decision. Defined.

Inductive node_kind :=
  | FINSH_NODE_UNKNOWN | FINSH_NODE_ID
  | FINSH_NODE_VALUE_CHAR | FINSH_NODE_VALUE_INT | FINSH_NODE_VALUE_LONG | FINSH_NODE_VALUE_STRING | FINSH_NODE_VALUE_NULL
  | FINSH_NODE_SYS_ADD | FINSH_NODE_SYS_SUB | FINSH_NODE_SYS_MUL | FINSH_NODE_SYS_DIV | FINSH_NODE_SYS_MOD
  | FINSH_NODE_SYS_AND | FINSH_NODE_SYS_OR | FINSH_NODE_SYS_XOR | FINSH_NODE_SYS_BITWISE
  | FINSH_NODE_SYS_SHL | FINSH_NODE_SYS_SHR | FINSH_NODE_SYS_FUNC | FINSH_NODE_SYS_ASSIGN | FINSH_NODE_SYS_CAST
  | FINSH_NODE_SYS_PREINC | FINSH_NODE_SYS_PREDEC | FINSH_NODE_SYS_INC | FINSH_NODE_SYS_DEC
  | FINSH_NODE_SYS_GETVALUE | FINSH_NODE_SYS_GETADDR | FINSH_NODE_SYS_NULL.

Definition FINSH_DATA_TYPE_VOID : Z := 0.
Definition FINSH_DATA_TYPE_BYTE : Z := 1.
Definition FINSH_DATA_TYPE_WORD : Z := 2.
Definition FINSH_DATA_TYPE_DWORD : Z := 3.

Definition FINSH_IDTYPE_VAR : Z := 1.
Definition FINSH_IDTYPE_SYSVAR : Z := 2.
Definition FINSH_IDTYPE_SYSCALL : Z := 4.
Definition FINSH_IDTYPE_ADDRESS : Z := 8.

Definition FINSH_ERROR_UNKNOWN_TYPE : Z := 3.
Definition FINSH_ERROR_UNKNOWN_NODE : Z := 8.

(** [value] and [id] are the words of the two unions. *)
Record finsh_node := Node { node_type : node_kind; data_type : Z; idtype : Z; value : Z; id : Z }.
Inductive tree := Null | Tree (n : finsh_node) (child sibling : tree).

Definition set_data_type (t : Z) (n : finsh_node) : finsh_node := Node (node_type n) t (idtype n) (value n) (id n).
Definition or_idtype (t : Z) (n : finsh_node) : finsh_node := Node (node_type n) (data_type n) (Z.lor (idtype n) t) (value n) (id n).

(** The text segment, the stack of the machine and the error number are global. *)
Record cstate := CState { ctext : list Z; finsh_compile_pc : nat; cstack : list Z; global_errno : Z }.
Abbreviation CM := (M cstate).

Definition finsh_error_set (e : Z) : CM unit := modify (fun s => CState (ctext s) (finsh_compile_pc s) (cstack s) e).
Definition finsh_code_byte (x : Z) : CM unit := fun s =>
  if decide (finsh_compile_pc s < length (ctext s))%nat
  then Some (tt, CState (<[finsh_compile_pc s := u8 x]> (ctext s)) (S (finsh_compile_pc s)) (cstack s) (global_errno s)) else None.
Definition finsh_code_word (x : Z) : CM unit := finsh_code_byte (byte_of 0 x);; finsh_code_byte (byte_of 1 x).
Definition finsh_code_dword (x : Z) : CM unit :=
  finsh_code_byte (byte_of 0 x);; finsh_code_byte (byte_of 1 x);; finsh_code_byte (byte_of 2 x);; finsh_code_byte (byte_of 3 x).

(** ** finsh_ops.h; of each group the code for bytes, which those for words and
    double words follow *)

Definition FINSH_OP_ADD_BYTE : Z := 1.
Definition FINSH_OP_SUB_BYTE : Z := 4.
Definition FINSH_OP_DIV_BYTE : Z := 7.
Definition FINSH_OP_MOD_BYTE : Z := 10.
Definition FINSH_OP_MUL_BYTE : Z := 13.
Definition FINSH_OP_AND_BYTE : Z := 16.
Definition FINSH_OP_OR_BYTE : Z := 19.
Definition FINSH_OP_XOR_BYTE : Z := 22.
Definition FINSH_OP_BITWISE_BYTE : Z := 25.
Definition FINSH_OP_SHL_BYTE : Z := 28.
Definition FINSH_OP_SHR_BYTE : Z := 31.
Definition FINSH_OP_LD_BYTE : Z := 34.
Definition FINSH_OP_LD_VALUE_BYTE : Z := 37.
Definition FINSH_OP_ST_BYTE : Z := 40.
Definition FINSH_OP_POP : Z := 43.
Definition FINSH_OP_SYSCALL : Z := 44.
Definition FINSH_OP_LD_VALUE_BYTE_STACK : Z := 45.
Definition FINSH_OP_LD_DWORD : Z := FINSH_OP_LD_BYTE + 2.
Definition FINSH_OP_LD_VALUE_DWORD_STACK : Z := FINSH_OP_LD_VALUE_BYTE_STACK + 2.

(** [if (t == BYTE) ... else if (t == WORD) ... else if (t == DWORD) ...] *)
Definition by_type (t : Z) (f : width -> CM unit) (otherwise : CM unit) : CM unit :=
  if decide (t = FINSH_DATA_TYPE_BYTE) then f Byte
  else if decide (t = FINSH_DATA_TYPE_WORD) then f Short
  else if decide (t = FINSH_DATA_TYPE_DWORD) then f Long
  else otherwise.
Definition offset (w : width) : Z := match w with Byte => 0 | Short => 1 | Long => 2 end.
Definition code_op (op : Z) (w : width) : CM unit := finsh_code_byte (op + offset w).

(** "ld_byte 1", "ld_word 1", "ld_dword 1" *)
Definition code_ld_one (w : width) : CM unit :=
  code_op FINSH_OP_LD_BYTE w;;
  match w with Byte => finsh_code_byte 1 | Short => finsh_code_word 1 | Long => finsh_code_dword 1 end.

(** The members of the structures that identifiers point to. *)
Class Symbols := {
  var_type : Z -> finsh_type;
  sysvar_type : Z -> finsh_type;
  sysvar_var : Z -> Z;
  syscall_func : Z -> Z
}.

Section compiler.
Context {sy : Symbols}.

(** [&var->value]: the name (17 characters) and the type are in front of it. *)
Definition var_value (p : Z) : Z := p + 20.

(** The width of a variable; none, and no code, for [void *]. *)
Definition type_width (t : finsh_type) : option width :=
  match t with
  | finsh_type_char | finsh_type_uchar => Some Byte
  | finsh_type_short | finsh_type_ushort => Some Short
  | finsh_type_int | finsh_type_uint | finsh_type_long | finsh_type_ulong
  | finsh_type_charp | finsh_type_shortp | finsh_type_intp | finsh_type_longp => Some Long
  | finsh_type_unknown | finsh_type_void | finsh_type_voidp => None
  end.

(** A variable of type [t] at [a]: its address, or its value. *)
Definition compile_var (n : finsh_node) (t : finsh_type) (a : Z) : CM unit :=
  match type_width t with
  | Some w =>
    (if decide (Z.land (idtype n) FINSH_IDTYPE_ADDRESS <> 0) then finsh_code_byte FINSH_OP_LD_DWORD
     else code_op FINSH_OP_LD_VALUE_BYTE w);;
    finsh_code_dword a
  | None => mret tt
  end.

Definition compile_id (n : finsh_node) : CM unit :=
  if decide (Z.land (idtype n) FINSH_IDTYPE_SYSCALL <> 0) then
    finsh_code_byte FINSH_OP_LD_DWORD;; finsh_code_dword (syscall_func (id n))
  else if decide (Z.land (idtype n) FINSH_IDTYPE_SYSVAR <> 0) then
    when (bool_decide (id n <> 0)) (compile_var n (sysvar_type (id n)) (sysvar_var (id n)))
  else when (bool_decide (id n <> 0)) (compile_var n (var_type (id n)) (var_value (id n))).

Fixpoint siblings (t : tree) : nat :=
  match t with Null => 0 | Tree _ _ sibling => S (siblings sibling) end.

(** A store, and "load value again". *)
Definition code_assign (t : Z) : CM unit :=
  by_type t (fun w => code_op FINSH_OP_ST_BYTE w;; code_op FINSH_OP_LD_VALUE_BYTE_STACK w) (finsh_error_set FINSH_ERROR_UNKNOWN_TYPE).

Definition compile_assign (child : tree) : CM unit :=
  match child with
  | Null => undefined
  | Tree c _ _ =>
    match node_type c with
    | FINSH_NODE_ID => code_assign (data_type c)
    | FINSH_NODE_SYS_GETVALUE => code_assign (Z.land (data_type c) 15)
    | _ => mret tt
    end
  end.

(** [++x] and [--x]: the address has been loaded by the child. *)
Definition compile_pre (n : finsh_node) (child : tree) (op : Z) : CM unit :=
  match child with
  | Tree c _ _ =>
    match node_type c with
    | FINSH_NODE_ID =>
      by_type (data_type n) (fun w =>
        code_op FINSH_OP_LD_VALUE_BYTE w;; finsh_code_dword (var_value (id c));;
        code_ld_one w;;
        code_op op w;; code_op FINSH_OP_ST_BYTE w;;
        finsh_code_byte FINSH_OP_LD_VALUE_DWORD_STACK) (mret tt)
    | _ => mret tt
    end
  | Null => mret tt
  end.

(** [x++] and [x--]: the value has been loaded by the child. *)
Definition compile_post (n : finsh_node) (child : tree) (op : Z) : CM unit :=
  match child with
  | Tree c _ _ =>
    match node_type c with
    | FINSH_NODE_ID =>
      by_type (data_type n) (fun w =>
        finsh_code_byte FINSH_OP_LD_DWORD;; finsh_code_dword (var_value (id c));;
        code_op FINSH_OP_LD_VALUE_BYTE w;; finsh_code_dword (var_value (id c));;
        code_ld_one w;;
        code_op op w;; code_op FINSH_OP_ST_BYTE w;;
        finsh_code_byte FINSH_OP_POP) (mret tt)
    | _ => mret tt
    end
  | Null => mret tt
  end.

(** "compile current node" *)
Definition compile_node (n : finsh_node) (child : tree) : CM unit :=
  match node_type n with
  | FINSH_NODE_ID => compile_id n
  | FINSH_NODE_VALUE_CHAR => finsh_code_byte FINSH_OP_LD_BYTE;; finsh_code_byte (value n)
  | FINSH_NODE_VALUE_INT | FINSH_NODE_VALUE_LONG => finsh_code_byte FINSH_OP_LD_DWORD;; finsh_code_dword (value n)
  | FINSH_NODE_VALUE_NULL | FINSH_NODE_VALUE_STRING => finsh_code_byte FINSH_OP_LD_DWORD;; finsh_code_dword (value n)
  | FINSH_NODE_SYS_ADD => by_type (data_type n) (code_op FINSH_OP_ADD_BYTE) (mret tt)
  | FINSH_NODE_SYS_SUB => by_type (data_type n) (code_op FINSH_OP_SUB_BYTE) (mret tt)
  | FINSH_NODE_SYS_MUL => by_type (data_type n) (code_op FINSH_OP_MUL_BYTE) (mret tt)
  | FINSH_NODE_SYS_DIV => by_type (data_type n) (code_op FINSH_OP_DIV_BYTE) (mret tt)
  | FINSH_NODE_SYS_MOD => by_type (data_type n) (code_op FINSH_OP_MOD_BYTE) (mret tt)
  | FINSH_NODE_SYS_AND => by_type (data_type n) (code_op FINSH_OP_AND_BYTE) (mret tt)
  | FINSH_NODE_SYS_OR => by_type (data_type n) (code_op FINSH_OP_OR_BYTE) (mret tt)
  | FINSH_NODE_SYS_XOR => by_type (data_type n) (code_op FINSH_OP_XOR_BYTE) (mret tt)
  | FINSH_NODE_SYS_BITWISE => by_type (data_type n) (code_op FINSH_OP_BITWISE_BYTE) (mret tt)
  | FINSH_NODE_SYS_SHL => by_type (data_type n) (code_op FINSH_OP_SHL_BYTE) (mret tt)
  | FINSH_NODE_SYS_SHR => by_type (data_type n) (code_op FINSH_OP_SHR_BYTE) (mret tt)
  | FINSH_NODE_SYS_FUNC =>
    match child with
    | Null => mret tt
    | Tree _ _ sibling => finsh_code_byte FINSH_OP_SYSCALL;; finsh_code_byte (Z.of_nat (siblings sibling))
    end
  | FINSH_NODE_SYS_ASSIGN => compile_assign child
  | FINSH_NODE_SYS_PREINC => compile_pre n child FINSH_OP_ADD_BYTE
  | FINSH_NODE_SYS_PREDEC => compile_pre n child FINSH_OP_SUB_BYTE
  | FINSH_NODE_SYS_INC => compile_post n child FINSH_OP_ADD_BYTE
  | FINSH_NODE_SYS_DEC => compile_post n child FINSH_OP_SUB_BYTE
  | FINSH_NODE_SYS_NULL => finsh_code_dword 0
  | FINSH_NODE_SYS_GETVALUE =>
    if decide (Z.land (idtype n) FINSH_IDTYPE_ADDRESS <> 0) then mret tt
    else by_type (data_type n) (code_op FINSH_OP_LD_VALUE_BYTE_STACK) (mret tt)
  | FINSH_NODE_SYS_GETADDR => mret tt
  | FINSH_NODE_UNKNOWN | FINSH_NODE_SYS_CAST => finsh_error_set FINSH_ERROR_UNKNOWN_NODE
  end.

Fixpoint finsh_compile (node : tree) : CM unit :=
  match node with
  | Null => mret tt
  | Tree n child sibling => finsh_compile child;; compile_node n child;; finsh_compile sibling
  end.

(** ** Types *)

(** The type of a variable; an unknown one is an error, and changes nothing. *)
Definition check_var (n : finsh_node) (t : finsh_type) : CM finsh_node :=
  match t with
  | finsh_type_void => mret (set_data_type FINSH_DATA_TYPE_VOID n)
  | finsh_type_char | finsh_type_uchar => mret (set_data_type FINSH_DATA_TYPE_BYTE n)
  | finsh_type_short | finsh_type_ushort => mret (set_data_type FINSH_DATA_TYPE_WORD n)
  | finsh_type_int | finsh_type_uint | finsh_type_long | finsh_type_ulong => mret (set_data_type FINSH_DATA_TYPE_DWORD n)
  | finsh_type_charp | finsh_type_voidp | finsh_type_shortp | finsh_type_intp | finsh_type_longp => mret (set_data_type FINSH_DATA_TYPE_DWORD n)
  | finsh_type_unknown => finsh_error_set FINSH_ERROR_UNKNOWN_TYPE;; mret n
  end.

(** The type of a node without a child. *)
Definition check_leaf (n : finsh_node) : CM finsh_node :=
  match node_type n with
  | FINSH_NODE_ID =>
    if decide (Z.land (idtype n) FINSH_IDTYPE_VAR <> 0) then
      if decide (id n <> 0) then check_var n (var_type (id n)) else mret n
    else if decide (Z.land (idtype n) FINSH_IDTYPE_SYSVAR <> 0) then
      if decide (id n <> 0) then check_var n (sysvar_type (id n)) else mret n
    else mret n
  | FINSH_NODE_VALUE_CHAR => mret (set_data_type FINSH_DATA_TYPE_BYTE n)
  | FINSH_NODE_VALUE_INT | FINSH_NODE_VALUE_LONG | FINSH_NODE_VALUE_STRING | FINSH_NODE_VALUE_NULL =>
    mret (set_data_type FINSH_DATA_TYPE_DWORD n)
  | _ => mret n
  end.

Definition child_is_addr (n : finsh_node) (is_addr : Z) : Z :=
  match node_type n with
  | FINSH_NODE_SYS_ASSIGN | FINSH_NODE_SYS_PREINC | FINSH_NODE_SYS_PREDEC | FINSH_NODE_SYS_GETADDR => FINSH_IDTYPE_ADDRESS
  | FINSH_NODE_SYS_GETVALUE => if decide (is_addr <> 0) then 0 else is_addr
  | _ => is_addr
  end.

Fixpoint finsh_type_check (node : tree) (is_addr : Z) : CM tree :=
  match node with
  | Null => mret Null
  | Tree n child sibling =>
    child ← finsh_type_check child (child_is_addr n is_addr);
    sibling ← finsh_type_check sibling 0;
    let n := if decide (idtype n <> FINSH_IDTYPE_SYSCALL) then or_idtype is_addr n else n in
    match child with
    | Tree c _ _ => mret (Tree (set_data_type (data_type c) n) child sibling)
    | Null => n ← check_leaf n; mret (Tree n Null sibling)
    end
  end.

(** The statements, of which each but the last is popped. *)
Fixpoint compile_statements (node : tree) : CM unit :=
  match node with
  | Null => mret tt
  | Tree n child sibling =>
    finsh_compile (Tree n child Null);;
    match sibling with
    | Null => mret tt
    | Tree _ _ _ => finsh_code_byte FINSH_OP_POP;; compile_statements sibling
    end
  end.

(** The text starts out as zeros; of the stack only the bottom is cleared. *)
Definition finsh_compiler_run (node : tree) : CM unit :=
  node ← finsh_type_check node 0;
  modify (fun s => CState (replicate FINSH_TEXT_MAX 0) 0 (<[0%nat := 0]> (cstack s)) (global_errno s));;
  compile_statements node.
End compiler.
