(* ===== verification/FinshExpr.v ===== *)
(** * FinshExpr: what the shell computes of an expression

    The compiler and the machine together: for a well-typed expression the byte
    code leaves its value on the stack and does its assignments to the memory.
    The expressions are those of C without parentheses, casts and calls of
    variables; a value has the width of its first operand, as the compiler types
    it, and only its low bits are on the stack, so the operands of an operation
    must have as many bits as the first one.  [FinshC] has what expressions mean in
    C, and where that is the same. *)

From S2P Require Import Prelude Bytes KString FinshVm FinshCompiler.

(** ** Expressions *)

Inductive const_kind := CInt | CLong | CString | CNull.
Inductive bop := Add | Sub | Mul | Div | Mod | And | Or | Xor | Shl | Shr.

(** A variable of the shell or of the system. *)
Inductive ident := Var (p : Z) | Sysvar (p : Z).

#[warnings="-register-all"]
Inductive expr :=
  | EChar (c : Z)
  | EConst (k : const_kind) (v : Z)
  | EId (i : ident)
  | EAddr (i : ident)
  | EBin (op : bop) (e1 e2 : expr)
  | ENot (e : expr)
  | ELoad (e : expr)
  | EAssign (i : ident) (e : expr)
  | EStore (e1 e2 : expr)
  | EPre (inc : bool) (p : Z)
  | EPost (inc : bool) (p : Z)
  | ECall (f : Z) (args : list expr).

Section expr_ind.
Context (P : expr -> Prop).
Hypotheses (HChar : forall c, P (EChar c)) (HConst : forall k v, P (EConst k v)) (HId : forall i, P (EId i)) (HAddr : forall i, P (EAddr i))
  (HBin : forall op e1 e2, P e1 -> P e2 -> P (EBin op e1 e2)) (HNot : forall e, P e -> P (ENot e)) (HLoad : forall e, P e -> P (ELoad e))
  (HAssign : forall i e, P e -> P (EAssign i e)) (HStore : forall e1 e2, P e1 -> P e2 -> P (EStore e1 e2))
  (HPre : forall inc p, P (EPre inc p)) (HPost : forall inc p, P (EPost inc p)) (HCall : forall f args, Forall P args -> P (ECall f args)).

(** Induction with the arguments of a call. *)
Fixpoint expr_ind' (e : expr) : P e :=
  match e with
  | EChar c => HChar c
  | EConst k v => HConst k v
  | EId i => HId i
  | EAddr i => HAddr i
  | EBin op e1 e2 => HBin op e1 e2 (expr_ind' e1) (expr_ind' e2)
  | ENot e => HNot e (expr_ind' e)
  | ELoad e => HLoad e (expr_ind' e)
  | EAssign i e => HAssign i e (expr_ind' e)
  | EStore e1 e2 => HStore e1 e2 (expr_ind' e1) (expr_ind' e2)
  | EPre inc p => HPre inc p
  | EPost inc p => HPost inc p
  | ECall f args => HCall f args ((fix go (args : list expr) : Forall P args :=
      match args return Forall P args with [] => Forall_nil_2 P | a :: args => Forall_cons_2 P a args (expr_ind' a) (go args) end) args)
  end.
End expr_ind.

Definition bop_fun (op : bop) : binop :=
  match op with
  | Add => op_add | Sub => op_sub | Mul => op_mul | Div => op_div | Mod => op_mod
  | And => op_and | Or => op_or | Xor => op_xor | Shl => op_shl | Shr => op_shr
  end.
Definition bop_code (op : bop) : Z :=
  match op with
  | Add => FINSH_OP_ADD_BYTE | Sub => FINSH_OP_SUB_BYTE | Mul => FINSH_OP_MUL_BYTE | Div => FINSH_OP_DIV_BYTE | Mod => FINSH_OP_MOD_BYTE
  | And => FINSH_OP_AND_BYTE | Or => FINSH_OP_OR_BYTE | Xor => FINSH_OP_XOR_BYTE | Shl => FINSH_OP_SHL_BYTE | Shr => FINSH_OP_SHR_BYTE
  end.
Definition bop_node (op : bop) : node_kind :=
  match op with
  | Add => FINSH_NODE_SYS_ADD | Sub => FINSH_NODE_SYS_SUB | Mul => FINSH_NODE_SYS_MUL | Div => FINSH_NODE_SYS_DIV | Mod => FINSH_NODE_SYS_MOD
  | And => FINSH_NODE_SYS_AND | Or => FINSH_NODE_SYS_OR | Xor => FINSH_NODE_SYS_XOR | Shl => FINSH_NODE_SYS_SHL | Shr => FINSH_NODE_SYS_SHR
  end.
Definition inc_op (inc : bool) : bop := if inc then Add else Sub.
Definition const_node (k : const_kind) : node_kind :=
  match k with CInt => FINSH_NODE_VALUE_INT | CLong => FINSH_NODE_VALUE_LONG | CString => FINSH_NODE_VALUE_STRING | CNull => FINSH_NODE_VALUE_NULL end.

Definition le (a b : width) : Prop := bits a <= bits b.
#[export] Instance le_dec a b : Decision (le a b).
Proof. unfold le. apply _. Defined.

(** The first result of a computation that has one. *)
Ltac inv_bind H x E := match type of H with (?m ≫= _) = Some _ => destruct m as [x|] eqn:E; [cbn [mbind option_bind] in H|discriminate H] end.

Section spec.
Context {sy : Symbols} {fs : Functions}.

Definition addr_of (i : ident) : Z := match i with Var p => var_value p | Sysvar p => sysvar_var p end.
Definition ident_type (i : ident) : finsh_type := match i with Var p => var_type p | Sysvar p => sysvar_type p end.
Definition ident_width (i : ident) : width := default Long (type_width (ident_type i)).

(** The width that the operations on an expression have; none for a call. *)
Fixpoint dt (e : expr) : option width :=
  match e with
  | EChar _ => Some Byte
  | EConst _ _ => Some Long
  | EId i | EAddr i | EAssign i _ => Some (ident_width i)
  | EBin _ e _ | ENot e | ELoad e | EStore e _ => dt e
  | EPre _ p | EPost _ p => Some (ident_width (Var p))
  | ECall _ _ => None
  end.
(** The bits of its value that are on the stack. *)
Definition known (e : expr) : width :=
  match e with EAddr _ | ECall _ _ => Long | _ => default Long (dt e) end.

Definition ident_ok (i : ident) : Prop :=
  match i with Var p | Sysvar p => p <> 0 end /\ type_width (ident_type i) <> None /\ in_range 32 (addr_of i).
(** As wide as the operation that it is for. *)
Definition has (e : expr) (w : width) : Prop := le w (known e).
Fixpoint well_typed (e : expr) : Prop :=
  match e with
  | EChar _ | EConst _ _ => True
  | EId i | EAddr i => ident_ok i
  | EBin _ e1 e2 => well_typed e1 /\ well_typed e2 /\ exists w, dt e1 = Some w /\ has e2 w
  | ENot e => well_typed e /\ dt e <> None
  | ELoad e => well_typed e /\ dt e <> None /\ has e Long
  | EAssign i e => ident_ok i /\ well_typed e /\ has e (ident_width i)
  | EStore e1 e2 => well_typed e1 /\ well_typed e2 /\ has e1 Long /\ exists w, dt e1 = Some w /\ has e2 w
  | EPre _ p | EPost _ p => ident_ok (Var p) /\ aligned Long (var_value p)
  | ECall f args => in_range 32 (syscall_func f) /\ (length args <= PARAMETERS_MAX)%nat /\ foldr (fun a q => well_typed a /\ has a Long /\ q) True args
  end.

(** ** Values *)

Definition opt_width (e : expr) : width := default Long (dt e).
Fixpoint eval (e : expr) (b : mem) : option (Z * mem) :=
  match e with
  | EChar c => Some (s8 c, b)
  | EConst _ v => Some (s32 v, b)
  | EId i => v ← load (ident_width i) (addr_of i) b; Some (v, b)
  | EAddr i => Some (s32 (addr_of i), b)
  | EBin op e1 e2 =>
    '(v1, b) ← eval e1 b; '(v2, b) ← eval e2 b;
    let w := opt_width e1 in r ← bop_fun op (view w v1) (view w v2); Some (view w r, b)
  | ENot e => '(v, b) ← eval e b; let w := opt_width e in Some (view w (Z.lnot (view w v)), b)
  | ELoad e => '(a, b) ← eval e b; v ← load (opt_width e) (u32 a) b; Some (v, b)
  | EAssign i e =>
    '(v, b) ← eval e b; let w := ident_width i in b ← store w (addr_of i) (view w v) b; Some (view w v, b)
  | EStore e1 e2 =>
    '(a, b) ← eval e1 b; '(v, b) ← eval e2 b;
    let w := opt_width e1 in b ← store w (u32 a) (view w v) b; Some (view w v, b)
  | EPre inc p =>
    let w := ident_width (Var p) in
    v ← load w (var_value p) b; r ← bop_fun (inc_op inc) v 1; b ← store w (var_value p) (view w r) b; Some (view w r, b)
  | EPost inc p =>
    let w := ident_width (Var p) in
    v ← load w (var_value p) b; r ← bop_fun (inc_op inc) v 1; b ← store w (var_value p) (view w r) b; Some (v, b)
  | ECall f args =>
    '(vs, b) ← (fix eval_args args b := match args with
                | [] => Some ([], b)
                | a :: args => '(v, b) ← eval a b; '(vs, b) ← eval_args args b; Some (u32 v :: vs, b)
                end) args b;
    '(r, b) ← func (syscall_func f) (arguments vs) b; Some (s32 r, b)
  end.
Fixpoint eval_args (args : list expr) (b : mem) : option (list Z * mem) :=
  match args with
  | [] => Some ([], b)
  | a :: args => '(v, b) ← eval a b; '(vs, b) ← eval_args args b; Some (u32 v :: vs, b)
  end.

(** ** Code *)

Definition le4 (v : Z) : list Z := [byte_of 0 v; byte_of 1 v; byte_of 2 v; byte_of 3 v].
Definition op_byte (op : Z) (w : width) : Z := op + offset w.
Definition ld_one (w : width) : list Z :=
  op_byte FINSH_OP_LD_BYTE w :: match w with Byte => [1] | Short => [1; 0] | Long => [1; 0; 0; 0] end.
Definition ld_addr (a : Z) : list Z := FINSH_OP_LD_DWORD :: le4 a.
Definition ld_value (w : width) (a : Z) : list Z := op_byte FINSH_OP_LD_VALUE_BYTE w :: le4 a.
Definition st_code (w : width) : list Z := [op_byte FINSH_OP_ST_BYTE w; op_byte FINSH_OP_LD_VALUE_BYTE_STACK w].
Fixpoint code (e : expr) : list Z :=
  match e with
  | EChar c => [FINSH_OP_LD_BYTE; u8 c]
  | EConst _ v => ld_addr v
  | EId i => ld_value (ident_width i) (addr_of i)
  | EAddr i => ld_addr (addr_of i)
  | EBin op e1 e2 => code e1 ++ code e2 ++ [op_byte (bop_code op) (opt_width e1)]
  | ENot e => code e ++ [op_byte FINSH_OP_BITWISE_BYTE (opt_width e)]
  | ELoad e => code e ++ [op_byte FINSH_OP_LD_VALUE_BYTE_STACK (opt_width e)]
  | EAssign i e => ld_addr (addr_of i) ++ code e ++ st_code (ident_width i)
  | EStore e1 e2 => code e1 ++ code e2 ++ st_code (opt_width e1)
  | EPre inc p =>
    let w := ident_width (Var p) in
    ld_addr (var_value p) ++ ld_value w (var_value p) ++ ld_one w ++
      [op_byte (bop_code (inc_op inc)) w; op_byte FINSH_OP_ST_BYTE w; FINSH_OP_LD_VALUE_DWORD_STACK]
  | EPost inc p =>
    let w := ident_width (Var p) in
    ld_value w (var_value p) ++ ld_addr (var_value p) ++ ld_value w (var_value p) ++ ld_one w ++
      [op_byte (bop_code (inc_op inc)) w; op_byte FINSH_OP_ST_BYTE w; FINSH_OP_POP]
  | ECall f args => ld_addr (syscall_func f) ++ flat_map code args ++ [FINSH_OP_SYSCALL; Z.of_nat (length args)]
  end.

(** ** The code leaves the value *)

(** After [c] one more slot is in use, whose low bits are [v]. *)
Definition yields (c : list Z) (stk : list Z) (sp : nat) (b : mem) (w : width) (v : Z) (b' : mem) : Prop :=
  exists stk' a, runs c stk sp b stk' (S sp) b' /\ length stk' = FINSH_STACK_MAX /\ take sp stk' = take sp stk /\ stk' !! sp = Some a /\ view w a = v.

Lemma take_lookup {A} (l l' : list A) n i : take n l' = take n l -> (i < n)%nat -> l' !! i = l !! i.
Proof. intros E Hi. by rewrite <- (lookup_take_lt l' n), E, lookup_take_lt. Qed.

Lemma take_le {A} (l l' : list A) n m : take n l' = take n l -> (m <= n)%nat -> take m l' = take m l.
Proof. intros E Hm. apply (f_equal (take m)) in E. by rewrite !take_take, Nat.min_l in E. Qed.

Lemma le_value_le4 v : le_value (le4 v) = u32 v.
Proof. rewrite <- bytes_of_word. unfold le4, le_value. lia. Qed.

Lemma pushed_facts w v stk sp : length stk = FINSH_STACK_MAX -> (sp < FINSH_STACK_MAX)%nat ->
  length (pushed w v stk sp) = FINSH_STACK_MAX /\ take sp (pushed w v stk sp) = take sp stk /\
  exists a, pushed w v stk sp !! sp = Some a /\ view w a = view w v.
Proof.
  intros Hl Hsp. unfold pushed. rewrite length_insert. split; [done|]. split; [by apply take_insert_ge|].
  eexists. split; [apply list_lookup_insert_eq; lia|]. apply view_put.
Qed.

Lemma yields_pushed c w v stk sp b b' : runs c stk sp b (pushed w v stk sp) (S sp) b' -> length stk = FINSH_STACK_MAX -> (sp < FINSH_STACK_MAX)%nat ->
  yields c stk sp b w (view w v) b'.
Proof. intros Hr Hl Hsp. destruct (pushed_facts w v stk sp Hl Hsp) as (Hl' & Ht & a & Ha & Hv). by exists (pushed w v stk sp), a. Qed.

Lemma yields_ld_addr a stk sp b : length stk = FINSH_STACK_MAX -> (sp < FINSH_STACK_MAX)%nat -> yields (ld_addr a) stk sp b Long (s32 a) b.
Proof.
  intros Hl Hsp. replace (s32 a) with (view Long (le_value (le4 a))) by (rewrite le_value_le4; apply (view_wrap Long); by apply wrap_wrap).
  by apply yields_pushed; [apply runs_ld|..].
Qed.

Lemma ld_value_op w : op_table !! Z.to_nat (op_byte FINSH_OP_LD_VALUE_BYTE w) = Some (OP_ld_value w).
Proof. by destruct w. Qed.
Lemma ld_op w : op_table !! Z.to_nat (op_byte FINSH_OP_LD_BYTE w) = Some (OP_ld w).
Proof. by destruct w. Qed.
Lemma st_op w : op_table !! Z.to_nat (op_byte FINSH_OP_ST_BYTE w) = Some (OP_st w).
Proof. by destruct w. Qed.
Lemma ld_value_stack_op w : op_table !! Z.to_nat (op_byte FINSH_OP_LD_VALUE_BYTE_STACK w) = Some (OP_ld_value_stack w).
Proof. by destruct w. Qed.
Lemma bw_op w : op_table !! Z.to_nat (op_byte FINSH_OP_BITWISE_BYTE w) = Some (OP_bw w).
Proof. by destruct w. Qed.
Lemma bin_op op w : op_table !! Z.to_nat (op_byte (bop_code op) w) = Some (OP_BIN w (bop_fun op)).
Proof. by destruct op, w. Qed.

Lemma view_load w a b v : load w a b = Some v -> view w v = v.
Proof. unfold load. case_decide; [|done]. intros [= <-]. destruct w; cbn [view]; by apply (view_view Byte Byte) || apply (view_view Short Short) || apply (view_view Long Long). Qed.

Lemma yields_ld_value w a stk sp b v : length stk = FINSH_STACK_MAX -> (sp < FINSH_STACK_MAX)%nat -> in_range 32 a -> load w a b = Some v ->
  yields (ld_value w a) stk sp b w v b.
Proof.
  intros Hl Hsp Ha Hv. rewrite <- (view_load _ _ _ _ Hv). apply yields_pushed; [|done..]. apply runs_ld_value; [apply ld_value_op|done|].
  by rewrite le_value_le4, wrap_small.
Qed.

Lemma yields_ld_one w stk sp b : length stk = FINSH_STACK_MAX -> (sp < FINSH_STACK_MAX)%nat -> yields (ld_one w) stk sp b w 1 b.
Proof.
  intros Hl Hsp. destruct w.
  - apply (yields_pushed _ Byte 1); [exact (runs_ld 34 Byte [1] stk sp b eq_refl eq_refl)|done..].
  - apply (yields_pushed _ Short 1); [exact (runs_ld 35 Short [1; 0] stk sp b eq_refl eq_refl)|done..].
  - apply (yields_pushed _ Long 1); [exact (runs_ld 36 Long [1; 0; 0; 0] stk sp b eq_refl eq_refl)|done..].
Qed.

Lemma yields_app c1 c2 stk sp b1 w1 v1 b2 w v b3 : yields c1 stk sp b1 w1 v1 b2 ->
  (forall stk1 a, length stk1 = FINSH_STACK_MAX -> take sp stk1 = take sp stk -> stk1 !! sp = Some a -> view w1 a = v1 ->
    exists stk2 a2, runs c2 stk1 (S sp) b2 stk2 (S sp) b3 /\ length stk2 = FINSH_STACK_MAX /\ take sp stk2 = take sp stk1 /\ stk2 !! sp = Some a2 /\ view w a2 = v) ->
  yields (c1 ++ c2) stk sp b1 w v b3.
Proof.
  intros (stk1 & a & R1 & L1 & T1 & A1 & V1) H2. destruct (H2 stk1 a L1 T1 A1 V1) as (stk2 & a2 & R2 & L2 & T2 & A2 & V2).
  exists stk2, a2. split; [by eapply runs_app|]. split; [done|]. split; [by rewrite T2|]. done.
Qed.

Lemma view_known e a v w : view (known e) a = v -> le w (known e) -> view w a = view w v.
Proof. intros <- Hle. symmetry. by apply view_view. Qed.

Lemma opt_width_known e : le (opt_width e) (known e).
Proof. unfold opt_width. assert (forall w, le w w) as Hr by (intros w; unfold le; lia). assert (forall w, le w Long) as Hl by (by intros []). destruct e; try apply Hr; apply Hl. Qed.

Lemma known_long e a v : has e Long -> view (known e) a = v -> u32 a = u32 v.
Proof. intros Hh Hv. pose proof (view_known e a v Long Hv Hh) as E. apply (f_equal u32) in E. by rewrite !wrap_s32 in E. Qed.

Lemma code_length e : (2 <= length (code e))%nat.
Proof. induction e using expr_ind'; cbn [code ld_addr ld_value le4 length]; rewrite ?length_app; cbn [length]; lia. Qed.

Definition exec_ok (e : expr) : Prop := well_typed e -> forall b v b' stk sp, eval e b = Some (v, b') ->
  length stk = FINSH_STACK_MAX -> (2 * sp + length (code e) <= FINSH_TEXT_MAX)%nat -> yields (code e) stk sp b (known e) v b'.

Lemma room c sp : (2 <= c)%nat -> (2 * sp + c <= FINSH_TEXT_MAX)%nat -> (sp < FINSH_STACK_MAX)%nat.
Proof. unfold FINSH_TEXT_MAX, FINSH_STACK_MAX. lia. Qed.

(** A second value above the first one. *)
Lemma second_value (c : list Z) stk1 sp a b w v b' : yields c stk1 (S sp) b w v b' -> stk1 !! sp = Some a ->
  exists stk2 a2, runs c stk1 (S sp) b stk2 (S (S sp)) b' /\ length stk2 = FINSH_STACK_MAX /\ take sp stk2 = take sp stk1 /\
    stk2 !! sp = Some a /\ stk2 !! S sp = Some a2 /\ view w a2 = v.
Proof.
  intros (stk2 & a2 & R & L & T & A & V) Ha. exists stk2, a2. split; [done|]. split; [done|]. split; [by apply (take_le _ _ (S sp)); [|lia]|].
  split; [by rewrite (take_lookup _ _ _ _ T) by lia|done].
Qed.

Lemma bin_ok op e1 e2 : exec_ok e1 -> exec_ok e2 -> exec_ok (EBin op e1 e2).
Proof.
  intros H1 H2 (W1 & W2 & w & Ew & Hh) b v b' stk sp He Hl Hlen. cbn [eval] in He. inv_bind He p1 E1. destruct p1 as [v1 b1]. inv_bind He p2 E2. destruct p2 as [v2 b2].
  inv_bind He r Er. injection He as <- <-. assert (opt_width e1 = w) as Eo by (unfold opt_width; by rewrite Ew). cbn [code known] in *. cbn [dt]. rewrite Ew, Eo in *.
  rewrite !length_app in Hlen. cbn [length] in Hlen. pose proof (code_length e1) as C1. pose proof (code_length e2) as C2.
  eapply yields_app; [apply H1; [done|exact E1|done|lia]|]. intros stk1 a1 L1 T1 A1 V1.
  destruct (second_value _ _ _ _ _ _ _ _ (H2 W2 _ _ _ stk1 (S sp) E2 L1 ltac:(lia)) A1) as (stk2 & a2 & R2 & L2 & T2 & A2 & A2' & V2).
  pose proof (opt_width_known e1) as Hk. rewrite Eo in Hk. exists (<[sp := put w r a1]> stk2), (put w r a1).
  split; [|split; [by rewrite length_insert|]; split; [by rewrite take_insert_ge by lia|]; split; [apply list_lookup_insert_eq; apply lookup_lt_Some in A2; lia|apply view_put]].
  eapply runs_app; [exact R2|]. eapply runs_bin; [apply bin_op|done|done|].
  by rewrite (view_known _ _ _ w V1 Hk), (view_known _ _ _ w V2 Hh).
Qed.

Lemma not_ok e : exec_ok e -> exec_ok (ENot e).
Proof.
  intros H (W & Hd) b v b' stk sp He Hl Hlen. cbn [eval] in He. inv_bind He p1 E1. destruct p1 as [v1 b1]. injection He as <- <-. cbn [code] in *.
  rewrite length_app in Hlen. cbn [length] in Hlen. change (known (ENot e)) with (opt_width e).
  eapply yields_app; [apply H; [done|exact E1|done|lia]|]. intros stk1 a1 L1 T1 A1 V1. eexists _, _. split; [eapply runs_bw; [apply bw_op|done]|].
  split; [by rewrite length_insert|]. split; [by rewrite take_insert_ge by lia|]. split; [apply list_lookup_insert_eq; apply lookup_lt_Some in A1; lia|].
  rewrite view_put. by rewrite (view_known _ _ _ (opt_width e) V1 (opt_width_known e)).
Qed.

Lemma load_ok e : exec_ok e -> exec_ok (ELoad e).
Proof.
  intros H (W & Hd & Hh) b v b' stk sp He Hl Hlen. cbn [eval] in He. inv_bind He p1 E1. destruct p1 as [v1 b1]. inv_bind He v2 E2. injection He as <- <-. cbn [code] in *.
  rewrite length_app in Hlen. cbn [length] in Hlen. change (known (ELoad e)) with (opt_width e).
  eapply yields_app; [apply H; [done|exact E1|done|lia]|]. intros stk1 a1 L1 T1 A1 V1. eexists _, _.
  split; [eapply runs_ld_value_stack; [apply ld_value_stack_op|done|by rewrite (known_long _ _ _ Hh V1)]|].
  split; [by rewrite length_insert|]. split; [by rewrite take_insert_ge by lia|]. split; [apply list_lookup_insert_eq; apply lookup_lt_Some in A1; lia|].
  rewrite view_put. by eapply view_load.
Qed.

(** A store through the address in the slot [sp], and the value again. *)
Lemma runs_st_code w stk sp b b' a v0 v : stk !! sp = Some a -> stk !! S sp = Some v0 -> view w v0 = view w v -> store w (u32 a) (view w v) b = Some b' ->
  length stk = FINSH_STACK_MAX -> exists stk' a', runs (st_code w) stk (S (S sp)) b stk' (S sp) b' /\ length stk' = FINSH_STACK_MAX /\
    take sp stk' = take sp stk /\ stk' !! sp = Some a' /\ view w a' = view w v.
Proof.
  intros Ha Hv0 Ev Hs Hl. exists (<[sp := put w (view w v) a]> stk), (put w (view w v) a).
  split; [|split; [by rewrite length_insert|]; split; [by rewrite take_insert_ge by lia|]; split; [apply list_lookup_insert_eq; apply lookup_lt_Some in Ha; lia|]].
  - unfold st_code. change [op_byte FINSH_OP_ST_BYTE w; op_byte FINSH_OP_LD_VALUE_BYTE_STACK w] with ([op_byte FINSH_OP_ST_BYTE w] ++ [op_byte FINSH_OP_LD_VALUE_BYTE_STACK w]).
    eapply runs_app; [eapply runs_st; [apply st_op|done|done|by rewrite Ev]|]. eapply runs_ld_value_stack; [apply ld_value_stack_op|done|].
    rewrite (load_store _ _ _ _ _ Hs). f_equal. apply view_view. lia.
  - rewrite view_put. apply view_view. lia.
Qed.

Lemma yields_st c w stk sp b a v0 v b1 b2 : yields c stk (S sp) b w v0 b1 -> view w v0 = view w v -> stk !! sp = Some a ->
  store w (u32 a) (view w v) b1 = Some b2 -> exists stk2 a2, runs (c ++ st_code w) stk (S sp) b stk2 (S sp) b2 /\ length stk2 = FINSH_STACK_MAX /\
    take sp stk2 = take sp stk /\ stk2 !! sp = Some a2 /\ view w a2 = view w v.
Proof.
  intros Hy Ev Ha Hs. destruct (second_value _ _ _ _ _ _ _ _ Hy Ha) as (stk1 & a1 & R1 & L1 & T1 & A1 & A1' & V1).
  assert (view w a1 = view w v) as Ev1 by (rewrite <- Ev, <- V1; symmetry; apply view_view; lia).
  destruct (runs_st_code w stk1 sp b1 b2 a a1 v A1 A1' Ev1 Hs L1) as (stk2 & a2 & R2 & L2 & T2 & A2 & V2).
  exists stk2, a2. split; [by eapply runs_app|]. split; [done|]. split; [by rewrite T2|done].
Qed.

(** The value of an expression, as a narrower one. *)
Lemma yields_has e c stk sp b v b' w : yields c stk sp b (known e) v b' -> has e w -> yields c stk sp b w (view w v) b'.
Proof. intros (stk' & a & R & L & T & A & V) Hh. exists stk', a. split_and!; try done. by apply (view_known e). Qed.

Lemma assign_ok i e : exec_ok e -> exec_ok (EAssign i e).
Proof.
  intros H ((Hp & Hw & Ha) & W & Hh) b v b' stk sp He Hl Hlen. cbn [eval] in He. inv_bind He p1 E1. destruct p1 as [v1 b1]. inv_bind He b2 E2. injection He as <- <-. cbn [code] in *.
  rewrite !length_app in Hlen. cbn [ld_addr le4 st_code length] in Hlen. pose proof (code_length e) as C1. change (known (EAssign i e)) with (ident_width i).
  eapply yields_app; [apply yields_ld_addr; [done|apply (room 5 sp); lia]|]. intros stk1 a1 L1 T1 A1 V1.
  assert (u32 a1 = addr_of i) as Ea by (apply (f_equal u32) in V1; cbn [view] in V1; rewrite !wrap_s32 in V1; by rewrite V1, wrap_small).
  eapply yields_st; [eapply yields_has; [apply H; [done|exact E1|done|lia]|done]|apply view_view; lia|done|by rewrite Ea].
Qed.

Lemma store_ok e1 e2 : exec_ok e1 -> exec_ok e2 -> exec_ok (EStore e1 e2).
Proof.
  intros H1 H2 (W1 & W2 & Hl1 & w & Ew & Hh) b v b' stk sp He Hl Hlen. cbn [eval] in He. inv_bind He p1 E1. destruct p1 as [v1 b1]. inv_bind He p2 E2. destruct p2 as [v2 b2].
  inv_bind He b3 E3. injection He as <- <-. assert (opt_width e1 = w) as Eo by (unfold opt_width; by rewrite Ew). cbn [code] in *. change (known (EStore e1 e2)) with (opt_width e1). rewrite Eo in *.
  rewrite !length_app in Hlen. cbn [st_code length] in Hlen. pose proof (code_length e1) as C1. pose proof (code_length e2) as C2.
  eapply yields_app; [apply H1; [done|exact E1|done|lia]|]. intros stk1 a1 L1 T1 A1 V1.
  eapply yields_st; [eapply yields_has; [apply H2; [done|exact E2|done|lia]|done]|apply view_view; lia|done|by rewrite (known_long _ _ _ Hl1 V1)].
Qed.

Lemma id_ok i : exec_ok (EId i).
Proof.
  intros (Hp & Hw & Ha) b v b' stk sp He Hl Hlen. cbn [eval] in He. inv_bind He v1 E1. injection He as <- <-. cbn [code ld_value le4 length] in *.
  change (known (EId i)) with (ident_width i). apply yields_ld_value; try done. apply (room 5 sp); lia.
Qed.

(** [x + 1] or [x - 1], which [++] and [--] store. *)
Lemma yields_inc inc w a stk sp b v r : length stk = FINSH_STACK_MAX -> (S sp < FINSH_STACK_MAX)%nat -> in_range 32 a -> load w a b = Some v ->
  bop_fun (inc_op inc) v 1 = Some r -> yields (ld_value w a ++ ld_one w ++ [op_byte (bop_code (inc_op inc)) w]) stk sp b w (view w r) b.
Proof.
  intros Hl Hsp Ha Hv Hr. eapply yields_app; [apply yields_ld_value; [done|lia|done|exact Hv]|]. intros stk1 a1 L1 T1 A1 V1.
  destruct (second_value _ _ _ _ _ _ _ _ (yields_ld_one w stk1 (S sp) b L1 Hsp) A1) as (stk2 & a2 & R2 & L2 & T2 & A2 & A2' & V2).
  exists (<[sp := put w r a1]> stk2), (put w r a1).
  split; [|split; [by rewrite length_insert|]; split; [by rewrite take_insert_ge by lia|]; split; [apply list_lookup_insert_eq; apply lookup_lt_Some in A2; lia|apply view_put]].
  eapply runs_app; [exact R2|]. eapply runs_bin; [apply bin_op|done|done|]. by rewrite V1, V2.
Qed.

(** A wider load has the narrower one in its low bits. *)
Lemma load_low w a b v : load w a b = Some v -> aligned Long a -> exists v', load Long a b = Some v' /\ view w v' = v.
Proof.
  unfold load. intros Hv Ha. rewrite (decide_True (P := aligned Long a)) by done. case_decide; [|done]. injection Hv as <-. eexists. split; [done|].
  destruct w; cbn [view].
  - apply (view_wrap Byte). cbn [bits]. rewrite <- (wrap_wrap_le 8 32), wrap_s32, wrap_wrap_le by lia. unfold load32, wrap. change (2 ^ 8) with 256. Z.div_mod_to_equations. lia.
  - apply (view_wrap Short). cbn [bits]. rewrite <- (wrap_wrap_le 16 32), wrap_s32, wrap_wrap_le by lia. unfold load32, wrap. change (2 ^ 16) with 65536. Z.div_mod_to_equations. lia.
  - by apply (view_view Long Long).
Qed.

Lemma aligned_le w a : aligned Long a -> aligned w a.
Proof. unfold aligned. destruct w; cbn [bits]; [intros _; apply Z.mod_1_r|intros H; change (16 / 8) with 2; change (32 / 8) with 4 in H; Z.div_mod_to_equations; lia|done]. Qed.

Lemma pre_ok inc p : exec_ok (EPre inc p).
Proof.
  intros ((Hp & Hw & Ha) & Hal) b v b' stk sp He Hl Hlen. cbn [eval] in He. inv_bind He v1 E1. inv_bind He r Er. inv_bind He b2 E2. injection He as <- <-.
  change (known (EPre inc p)) with (ident_width (Var p)). set (w := ident_width (Var p)) in *. cbn [code] in *. fold w in Hlen |- *. set (x := var_value p) in *.
  rewrite !length_app in Hlen. assert (2 * sp + 10 <= FINSH_TEXT_MAX)%nat as Hroom by (cbn [ld_addr ld_value le4 length] in Hlen; lia). clear Hlen.
  eapply yields_app; [apply yields_ld_addr; [done|apply (room 5 sp); lia]|]. intros stk1 a1 L1 T1 A1 V1.
  assert (u32 a1 = x) as Ea by (apply (f_equal u32) in V1; cbn [view] in V1; rewrite !wrap_s32 in V1; by rewrite V1, wrap_small).
  assert (S (S sp) < FINSH_STACK_MAX)%nat as Hs2 by (unfold FINSH_TEXT_MAX, FINSH_STACK_MAX in *; lia).
  pose proof (yields_inc inc w x stk1 (S sp) b v1 r L1 Hs2 Ha E1 Er) as Hy.
  destruct (second_value _ _ _ _ _ _ _ _ Hy A1) as (stk2 & a2 & R2 & L2 & T2 & A2 & A2' & V2).
  assert (store w (u32 a1) (view w a2) b = Some b2) as Es by (rewrite Ea, V2; exact E2).
  pose proof (load_store _ _ _ _ _ E2) as El. rewrite view_view in El by lia. destruct (load_low _ _ _ _ El Hal) as (v' & El' & Ev').
  exists (<[sp := put Long v' a1]> stk2), (put Long v' a1).
  split; [|split; [by rewrite length_insert|]; split; [by rewrite take_insert_ge by lia|]; split; [apply list_lookup_insert_eq; apply lookup_lt_Some in A2; lia|]].
  - replace (ld_value w x ++ ld_one w ++ [op_byte (bop_code (inc_op inc)) w; op_byte FINSH_OP_ST_BYTE w; FINSH_OP_LD_VALUE_DWORD_STACK])
      with ((ld_value w x ++ ld_one w ++ [op_byte (bop_code (inc_op inc)) w]) ++ [op_byte FINSH_OP_ST_BYTE w] ++ [FINSH_OP_LD_VALUE_DWORD_STACK])
      by (rewrite <- !app_assoc; done).
    eapply runs_app; [exact R2|]. eapply runs_app; [eapply runs_st; [apply st_op|done|done|exact Es]|].
    apply (runs_ld_value_stack FINSH_OP_LD_VALUE_DWORD_STACK Long); [done|done|by rewrite Ea].
  - rewrite <- (view_view w Long) by (by destruct w). rewrite view_put, view_view by (by destruct w). exact Ev'.
Qed.

Lemma post_ok inc p : exec_ok (EPost inc p).
Proof.
  intros ((Hp & Hw & Ha) & Hal) b v b' stk sp He Hl Hlen. cbn [eval] in He. inv_bind He v1 E1. inv_bind He r Er. inv_bind He b2 E2. injection He as <- <-.
  change (known (EPost inc p)) with (ident_width (Var p)). set (w := ident_width (Var p)) in *. cbn [code] in *. fold w in Hlen |- *. set (x := var_value p) in *.
  rewrite !length_app in Hlen. assert (S (S (S sp)) < FINSH_STACK_MAX)%nat as Hs3 by (cbn [ld_addr ld_value le4 length] in Hlen; unfold FINSH_TEXT_MAX, FINSH_STACK_MAX in *; lia). clear Hlen.
  eapply yields_app; [apply yields_ld_value; [done|lia|done|exact E1]|]. intros stk1 a1 L1 T1 A1 V1.
  destruct (second_value _ _ _ _ _ _ _ _ (yields_ld_addr x stk1 (S sp) b L1 ltac:(lia)) A1) as (stk2 & a2 & R2 & L2 & T2 & A2 & A2' & V2).
  assert (u32 a2 = x) as Ea by (apply (f_equal u32) in V2; cbn [view] in V2; rewrite !wrap_s32 in V2; by rewrite V2, wrap_small).
  destruct (second_value _ _ _ _ _ _ _ _ (yields_inc inc w x stk2 (S (S sp)) b v1 r L2 Hs3 Ha E1 Er) A2') as (stk3 & a3 & R3 & L3 & T3 & A3 & A3' & V3).
  assert (stk3 !! sp = Some a1) as A3'' by (rewrite (take_lookup _ _ _ _ T3); [exact A2|lia]).
  exists stk3, a1. split; [|split; [done|]; split; [rewrite (take_le _ _ _ _ T3) by lia; exact T2|done]].
  replace (ld_addr x ++ ld_value w x ++ ld_one w ++ [op_byte (bop_code (inc_op inc)) w; op_byte FINSH_OP_ST_BYTE w; FINSH_OP_POP])
    with (ld_addr x ++ (ld_value w x ++ ld_one w ++ [op_byte (bop_code (inc_op inc)) w]) ++ [op_byte FINSH_OP_ST_BYTE w] ++ [FINSH_OP_POP])
    by (rewrite <- !app_assoc; done).
  eapply runs_app; [exact R2|]. eapply runs_app; [exact R3|].
  eapply runs_app; [eapply runs_st; [apply st_op|done|done|rewrite Ea, V3; exact E2]|]. by apply runs_pop.
Qed.

Lemma char_ok c : exec_ok (EChar c).
Proof.
  intros _ b v b' stk sp [= <- <-] Hl Hlen. cbn [code length known] in *.
  replace (s8 c) with (view Byte (le_value [u8 c])) by (apply (view_wrap Byte); cbn [le_value]; rewrite Z.mul_0_r, Z.add_0_r; by apply wrap_wrap).
  apply yields_pushed; [by apply runs_ld|done|apply (room 2 sp); lia].
Qed.

Lemma const_ok k c : exec_ok (EConst k c).
Proof. intros _ b v b' stk sp [= <- <-] Hl Hlen. apply yields_ld_addr; [done|]. cbn [code ld_addr le4 length] in Hlen. apply (room 5 sp); lia. Qed.

Lemma addr_ok i : exec_ok (EAddr i).
Proof. intros _ b v b' stk sp [= <- <-] Hl Hlen. apply yields_ld_addr; [done|]. cbn [code ld_addr le4 length] in Hlen. apply (room 5 sp); lia. Qed.

(** The arguments of a call are in the slots from [sp] on. *)
Lemma args_ok args : Forall exec_ok args -> foldr (fun a q => well_typed a /\ has a Long /\ q) True args -> forall b vs b' stk sp,
  eval_args args b = Some (vs, b') -> length stk = FINSH_STACK_MAX -> (2 * sp + length (flat_map code args) <= FINSH_TEXT_MAX)%nat ->
  exists stk', runs (flat_map code args) stk sp b stk' (sp + length args) b' /\ length stk' = FINSH_STACK_MAX /\ take sp stk' = take sp stk /\
    u32 <$> take (length args) (drop sp stk') = vs.
Proof.
  induction 1 as [|e args He _ IH]; intros Hw b vs b' stk sp Hv Hl Hlen; cbn [eval_args flat_map length foldr] in *.
  { injection Hv as <- <-. exists stk. rewrite Nat.add_0_r. split_and!; try done. apply runs_nil. }
  destruct Hw as (W & Hh & Hw). inv_bind Hv p1 E1. destruct p1 as [v1 b1]. inv_bind Hv p2 E2. destruct p2 as [vs2 b2]. injection Hv as <- <-.
  rewrite length_app in Hlen. pose proof (code_length e) as C1.
  destruct (He W b v1 b1 stk sp E1 Hl ltac:(lia)) as (stk1 & a & R1 & L1 & T1 & A1 & V1).
  destruct (IH Hw b1 vs2 b2 stk1 (S sp) E2 L1 ltac:(lia)) as (stk2 & R2 & L2 & T2 & V2).
  exists stk2. rewrite Nat.add_succ_r. split_and!; [by eapply runs_app|done|by rewrite (take_le _ _ (S sp) sp T2) by lia|].
  assert (stk2 !! sp = Some a) as A2 by (by rewrite (take_lookup _ _ _ _ T2) by lia). rewrite (drop_S _ _ _ A2). cbn [take fmap list_fmap].
  rewrite V2, (known_long e a v1 Hh V1). done.
Qed.

Lemma call_ok f args : Forall exec_ok args -> exec_ok (ECall f args).
Proof.
  intros H (Hf & Hn & Hw) b v b' stk sp He Hl Hlen. change (('(vs, b) ← eval_args args b; '(r, b) ← func (syscall_func f) (arguments vs) b; Some (s32 r, b)) = Some (v, b')) in He.
  inv_bind He p1 E1. destruct p1 as [vs b1]. inv_bind He p2 E2. destruct p2 as [r b2]. injection He as <- <-. cbn [code known] in *.
  rewrite !length_app in Hlen. cbn [ld_addr le4 length] in Hlen.
  eapply yields_app; [apply yields_ld_addr; [done|apply (room 5 sp); lia]|]. intros stk1 a1 L1 T1 A1 V1.
  destruct (args_ok args H Hw b vs b1 stk1 (S sp) E1 L1 ltac:(lia)) as (stk2 & R2 & L2 & T2 & V2).
  assert (sp < FINSH_STACK_MAX)%nat as Hs by (apply (room 5 sp); lia).
  assert (stk2 !! sp = Some a1) as A2 by (by rewrite (take_lookup _ _ _ _ T2) by lia).
  destruct (pushed_facts Long r stk2 sp L2 Hs) as (L3 & T3 & a3 & A3 & V3).
  exists (pushed Long r stk2 sp), a3. split_and!; [|done|by rewrite T3, (take_le _ _ _ _ T2) by lia|done|exact V3].
  eapply runs_app; [exact R2|]. set (ws := take (length args) (drop (S sp) stk2)) in *.
  assert (length ws = length args) as Hws. { apply length_take_le. rewrite length_drop, L2. destruct R2 as [Hr _]. unfold FINSH_TEXT_MAX, FINSH_STACK_MAX in *. lia. }
  rewrite <- Hws. apply (runs_call FINSH_OP_SYSCALL ws stk2 sp b1 a1 r b2); [done|done|by rewrite Hws|by rewrite Hws|].
  rewrite V2. replace (u32 a1) with (syscall_func f); [done|]. apply (f_equal u32) in V1; cbn [view] in V1; rewrite !wrap_s32 in V1; by rewrite V1, wrap_small.
Qed.

(** The code of an expression leaves its value, and its memory. *)
Lemma exec e : exec_ok e.
Proof.
  induction e using expr_ind'; [apply char_ok|apply const_ok|apply id_ok|apply addr_ok|by apply bin_ok|by apply not_ok|by apply load_ok|by apply assign_ok|by apply store_ok
    |apply pre_ok|apply post_ok|by apply call_ok].
Qed.
End spec.
