(* ===== verification/FinshRun.v ===== *)
(** * FinshRun: what the expressions of a line do

    The compiler and the machine on the trees of expressions: the types that the
    compiler finds, the code it makes of a list of statements, and the run of the
    machine on it ([finsh_run_line] of shell.c, behind the parser). *)

From S2P Require Import Prelude Bytes KString FinshVm FinshCompiler FinshExpr.

(** The text and the stack of the machine are those of the compiler. *)
Record finsh := Finsh { compiler : cstate; machine_sp : nat; machine_pc : nat; memory : mem }.

(** What is printed of the value at the bottom of the stack: a character and a
    number, or a number. *)
Inductive report := PrintChar (c n : Z) | PrintNumber (n : Z).
Definition finsh_report (bottom : Z) : report :=
  let ch := s8 bottom in
  if decide (32 < ch /\ ch < 126) then PrintChar (u8 bottom) (u32 bottom) else PrintNumber (u32 bottom).

Section run.
Context {sy : Symbols} {fs : Functions}.

Definition finsh_stack_bottom (s : finsh) : option Z := s32 <$> cstack (compiler s) !! 0%nat.

(** [finsh_run_line] behind the parser, whose errors are in the error number. *)
Definition run_compiler (root : tree) : M finsh unit := fun s =>
  '(_, c) ← finsh_compiler_run root (compiler s);
  Some (tt, Finsh c (machine_sp s) (machine_pc s) (memory s)).
Definition run_vm : M finsh unit := fun s =>
  let c := compiler s in
  '(_, v) ← finsh_vm_run (Vm (cstack c) (machine_sp s) (machine_pc s) (ctext c) (memory s));
  Some (tt, Finsh (CState (text_segment v) (finsh_compile_pc c) (finsh_vm_stack v) (global_errno c)) (finsh_sp v) (finsh_pc v) (data v)).
Definition finsh_run_root (root : tree) : M finsh (option report) :=
  errno ← gets (fun s => global_errno (compiler s));
  when (bool_decide (errno = 0)) (run_compiler root);;
  errno ← gets (fun s => global_errno (compiler s));
  if decide (errno = 0) then
    run_vm;;
    bottom ← deref finsh_stack_bottom;
    mret (Some (finsh_report bottom))
  else mret None.

(** ** The trees of expressions *)

Definition id_type (i : ident) : Z := match i with Var _ => FINSH_IDTYPE_VAR | Sysvar _ => FINSH_IDTYPE_SYSVAR end.
Definition ident_ptr (i : ident) : Z := match i with Var p | Sysvar p => p end.

(** A node of the data type [t], which is for an address if [addr] is. *)
Definition id_node (t addr : Z) (i : ident) : finsh_node := Node FINSH_NODE_ID t (Z.lor (id_type i) addr) 0 (ident_ptr i).
Definition sys_node (k : node_kind) (t : Z) : finsh_node := Node k t 0 0 0.
Definition inc_node (inc : bool) (pre : bool) : node_kind :=
  match pre, inc with
  | true, true => FINSH_NODE_SYS_PREINC | true, false => FINSH_NODE_SYS_PREDEC
  | false, true => FINSH_NODE_SYS_INC | false, false => FINSH_NODE_SYS_DEC
  end.

Definition width_type (w : width) : Z :=
  match w with Byte => FINSH_DATA_TYPE_BYTE | Short => FINSH_DATA_TYPE_WORD | Long => FINSH_DATA_TYPE_DWORD end.
Definition expr_type (e : expr) : Z := match dt e with Some w => width_type w | None => FINSH_DATA_TYPE_VOID end.

(** The tree of an expression as the parser makes it ([typed] false), and with the
    data types and the attributes that the compiler gives it. *)
Section tree.
Context (typed : bool).
Definition ty (t : Z) : Z := if typed then t else 0.
Definition at_ (addr : Z) : Z := if typed then addr else 0.
Definition id_tree (i : ident) (addr : Z) (sibling : tree) : tree := Tree (id_node (ty (width_type (ident_width i))) (at_ addr) i) Null sibling.
Fixpoint tree_of (e : expr) (sibling : tree) : tree :=
  match e with
  | EChar c => Tree (Node FINSH_NODE_VALUE_CHAR (ty FINSH_DATA_TYPE_BYTE) 0 c 0) Null sibling
  | EConst k v => Tree (Node (const_node k) (ty FINSH_DATA_TYPE_DWORD) 0 v 0) Null sibling
  | EId i => id_tree i 0 sibling
  | EAddr i => Tree (sys_node FINSH_NODE_SYS_GETADDR (ty (expr_type e))) (id_tree i FINSH_IDTYPE_ADDRESS Null) sibling
  | EBin op e1 e2 => Tree (sys_node (bop_node op) (ty (expr_type e))) (tree_of e1 (tree_of e2 Null)) sibling
  | ENot e1 => Tree (sys_node FINSH_NODE_SYS_BITWISE (ty (expr_type e))) (tree_of e1 Null) sibling
  | ELoad e1 => Tree (sys_node FINSH_NODE_SYS_GETVALUE (ty (expr_type e))) (tree_of e1 Null) sibling
  | EAssign i e2 => Tree (sys_node FINSH_NODE_SYS_ASSIGN (ty (expr_type e))) (id_tree i FINSH_IDTYPE_ADDRESS (tree_of e2 Null)) sibling
  | EStore e1 e2 =>
    Tree (sys_node FINSH_NODE_SYS_ASSIGN (ty (expr_type e)))
      (Tree (Node FINSH_NODE_SYS_GETVALUE (ty (expr_type e)) (at_ FINSH_IDTYPE_ADDRESS) 0 0) (tree_of e1 Null) (tree_of e2 Null)) sibling
  | EPre inc p => Tree (sys_node (inc_node inc true) (ty (expr_type e))) (id_tree (Var p) FINSH_IDTYPE_ADDRESS Null) sibling
  | EPost inc p => Tree (sys_node (inc_node inc false) (ty (expr_type e))) (id_tree (Var p) 0 Null) sibling
  | ECall f args =>
    Tree (sys_node FINSH_NODE_SYS_FUNC (ty FINSH_DATA_TYPE_VOID)) (Tree (Node FINSH_NODE_ID 0 FINSH_IDTYPE_SYSCALL 0 f) Null (foldr tree_of Null args)) sibling
  end.
End tree.

Lemma seq_eval {A B} (m : CM A) (k : A -> CM B) s a s' : m s = Some (a, s') -> (m ≫= k) s = k a s'.
Proof. apply bind_eval. Qed.

Lemma check_id i addr s sib sib' : addr = 0 \/ addr = FINSH_IDTYPE_ADDRESS -> ident_ok i -> finsh_type_check sib 0 s = Some (sib', s) ->
  finsh_type_check (id_tree false i 0 sib) addr s = Some (id_tree true i addr sib', s).
Proof.
  intros Ha (Hp & Hw & _) Hs. unfold id_tree. cbn [finsh_type_check]. rewrite (seq_eval _ _ s Null s) by done. rewrite (seq_eval _ _ s sib' s) by done.
  rewrite decide_True by (destruct i; done).
  assert (check_leaf (or_idtype addr (id_node 0 0 i)) s = Some (id_node (width_type (ident_width i)) addr i, s)) as E.
  { unfold check_leaf. cbn [node_type or_idtype id_node idtype]. unfold ident_width in *.
    destruct i as [p|p]; cbn [id_type ident_ptr ident_type id or_idtype id_node] in *.
    - rewrite decide_True by (destruct Ha as [->| ->]; done). rewrite decide_True by done. destruct Ha as [->| ->], (var_type p); done.
    - rewrite decide_False by (destruct Ha as [->| ->]; cbv; congruence). rewrite decide_True by (destruct Ha as [->| ->]; done). rewrite decide_True by done.
      destruct Ha as [->| ->], (sysvar_type p); done. }
  by rewrite (seq_eval _ _ _ _ _ E).
Qed.

(** An inner node has the data type of its first child. *)
Lemma check_inner n c cc cs child addr sib sib' s :
  finsh_type_check child (child_is_addr n addr) s = Some (Tree c cc cs, s) -> finsh_type_check sib 0 s = Some (sib', s) -> idtype n <> FINSH_IDTYPE_SYSCALL ->
  finsh_type_check (Tree n child sib) addr s = Some (Tree (set_data_type (data_type c) (or_idtype addr n)) (Tree c cc cs) sib', s).
Proof.
  intros Hc Hs Hi. cbn [finsh_type_check]. rewrite (seq_eval _ _ _ _ _ Hc), (seq_eval _ _ _ _ _ Hs). by rewrite decide_True.
Qed.

(** The node of an expression, with the type of it. *)
Lemma tree_of_node e sib : exists n child, tree_of true e sib = Tree n child sib /\ data_type n = expr_type e.
Proof. destruct e; cbn; eexists _, _; split; reflexivity. Qed.

Lemma check_ok e : well_typed e -> forall s sib sib', finsh_type_check sib 0 s = Some (sib', s) ->
  finsh_type_check (tree_of false e sib) 0 s = Some (tree_of true e sib', s).
Proof.
  induction e as [c|k v|i|i|op e1 e2 IH1 IH2|e IH|e IH|i e IH|e1 e2 IH1 IH2|inc p|inc p|f args IH] using expr_ind'; intros W s sib sib' Hs; cbn [tree_of] in *.
  - cbn [finsh_type_check]. rewrite (seq_eval _ _ s Null s) by done. by rewrite (seq_eval _ _ s sib' s) by done.
  - cbn [finsh_type_check]. rewrite (seq_eval _ _ s Null s) by done. rewrite (seq_eval _ _ s sib' s) by done. by destruct k.
  - apply check_id; [by left|done|done].
  - etrans; [eapply check_inner; [apply check_id; [by right|done|done]|done|done]|done].
  - destruct W as (W1 & W2 & _).
    assert (finsh_type_check (tree_of false e1 (tree_of false e2 Null)) 0 s = Some (tree_of true e1 (tree_of true e2 Null), s)) as E by (apply IH1; [done|by apply IH2]).
    destruct (tree_of_node e1 (tree_of true e2 Null)) as (n & child & En & Ed). rewrite En in *.
    erewrite check_inner; [|destruct op; exact E|done|done]. rewrite Ed. done.
  - destruct W as (W & _). assert (finsh_type_check (tree_of false e Null) 0 s = Some (tree_of true e Null, s)) as E by (by apply IH).
    destruct (tree_of_node e Null) as (n & child & En & Ed). rewrite En in *.
    erewrite check_inner; [|exact E|done|done]. rewrite Ed. done.
  - destruct W as (W & _). assert (finsh_type_check (tree_of false e Null) 0 s = Some (tree_of true e Null, s)) as E by (by apply IH).
    destruct (tree_of_node e Null) as (n & child & En & Ed). rewrite En in *.
    erewrite check_inner; [|exact E|done|done]. rewrite Ed. done.
  - destruct W as (Wi & W & _). etrans; [eapply check_inner; [apply check_id; [by right|done|by apply IH]|done|done]|done].
  - destruct W as (W1 & W2 & _). assert (finsh_type_check (tree_of false e1 Null) 0 s = Some (tree_of true e1 Null, s)) as E by (by apply IH1).
    destruct (tree_of_node e1 Null) as (n & child & En & Ed). rewrite En in *.
    etrans; [eapply check_inner; [eapply check_inner; [exact E|by apply IH2|done]|done|done]|]. cbn [set_data_type data_type]. by rewrite Ed.
  - destruct W as (W & _). destruct inc; (etrans; [eapply check_inner; [apply check_id; [by right|done|done]|done|done]|done]).
  - destruct W as (W & _). destruct inc; (etrans; [eapply check_inner; [apply check_id; [by left|done|done]|done|done]|done]).
  - destruct W as (_ & _ & W).
    assert (finsh_type_check (foldr (tree_of false) Null args) 0 s = Some (foldr (tree_of true) Null args, s)) as E.
    { clear -IH W. induction IH as [|e args He _ IHl]; [done|]. cbn [foldr] in *. destruct W as (W1 & _ & W). by apply He; [|apply IHl]. }
    etrans; [eapply check_inner; [|done|done]|].
    { cbn [finsh_type_check child_is_addr node_type sys_node]. rewrite (seq_eval _ _ s Null s) by done. rewrite (seq_eval _ _ _ _ _ E). done. }
    done.
Qed.

(** ** The code that the compiler makes *)

Definition code_bytes (l : list Z) : CM unit := foldr (fun x m => finsh_code_byte x;; m) (mret tt) l.
Definition emits (m : CM unit) (l : list Z) : Prop := forall s, m s = code_bytes l s.

Lemma code_bytes_app l1 l2 s : (code_bytes l1;; code_bytes l2) s = code_bytes (l1 ++ l2) s.
Proof.
  revert s. induction l1 as [|x l1 IH]; intros s; [done|]. cbn [app]. unfold code_bytes in *. cbn [foldr]. unfold mbind, M_bind in *.
  destruct (finsh_code_byte x s) as [[[] s']|]; [apply IH|done].
Qed.

Lemma emits_nil : emits (mret tt) [].
Proof. done. Qed.
Lemma emits_byte x : emits (finsh_code_byte x) [x].
Proof. intros s. unfold code_bytes. cbn [foldr]. unfold mbind, M_bind. by destruct (finsh_code_byte x s) as [[[] s']|]. Qed.
Lemma emits_seq m1 m2 l1 l2 : emits m1 l1 -> emits m2 l2 -> emits (m1;; m2) (l1 ++ l2).
Proof. intros H1 H2 s. rewrite <- code_bytes_app. unfold mbind, M_bind. rewrite H1. by destruct (code_bytes l1 s) as [[[] s']|]. Qed.
Lemma emits_cons x m l : emits m l -> emits (finsh_code_byte x;; m) (x :: l).
Proof. exact (emits_seq _ _ [x] l (emits_byte x)). Qed.
Lemma emits_dword v : emits (finsh_code_dword v) (le4 v).
Proof. repeat apply emits_cons. apply emits_byte. Qed.
Lemma emits_ld v : emits (finsh_code_byte FINSH_OP_LD_DWORD;; finsh_code_dword v) (ld_addr v).
Proof. apply emits_cons, emits_dword. Qed.
Lemma emits_ld_value w a : emits (code_op FINSH_OP_LD_VALUE_BYTE w;; finsh_code_dword a) (ld_value w a).
Proof. apply emits_cons, emits_dword. Qed.
Lemma emits_ld_one w : emits (code_ld_one w) (ld_one w).
Proof. destruct w; repeat apply emits_cons; apply emits_byte. Qed.
Lemma emits_op op w : emits (code_op op w) [op_byte op w].
Proof. apply emits_byte. Qed.

Lemma by_type_width w (f : width -> CM unit) m : by_type (width_type w) f m = f w.
Proof. by destruct w. Qed.

(** [x + 1] or [x - 1], its store, and an operation. *)
Lemma emits_inc w a op last :
  emits (code_op FINSH_OP_LD_VALUE_BYTE w;; finsh_code_dword a;; code_ld_one w;; code_op op w;; code_op FINSH_OP_ST_BYTE w;; finsh_code_byte last)
    (ld_value w a ++ ld_one w ++ [op_byte op w; op_byte FINSH_OP_ST_BYTE w; last]).
Proof.
  apply emits_cons. apply emits_seq; [apply emits_dword|]. apply emits_seq; [apply emits_ld_one|]. apply emits_cons, emits_cons, emits_byte.
Qed.

(** The child, the node, and the siblings. *)
Lemma emits_tree n child sib lc ln ls : emits (finsh_compile child) lc -> emits (compile_node n child) ln -> emits (finsh_compile sib) ls ->
  emits (finsh_compile (Tree n child sib)) (lc ++ ln ++ ls).
Proof. intros Hc Hn Hs. cbn [finsh_compile]. by apply emits_seq; [|apply emits_seq]. Qed.

Lemma emits_leaf n sib l ls : emits (compile_node n Null) l -> emits (finsh_compile sib) ls -> emits (finsh_compile (Tree n Null sib)) (l ++ ls).
Proof. intros Hn Hs. by apply (emits_tree n Null sib [] l ls). Qed.

(** An inner node: the code of the children and an operation. *)
Lemma emits_inner n child sib lc op ls : emits (finsh_compile child) lc -> emits (compile_node n child) [op] -> emits (finsh_compile sib) ls ->
  emits (finsh_compile (Tree n child sib)) ((lc ++ [op]) ++ ls).
Proof. intros. rewrite <- app_assoc. by apply emits_tree. Qed.

Lemma compile_id_ok i addr : addr = 0 \/ addr = FINSH_IDTYPE_ADDRESS -> ident_ok i ->
  emits (compile_id (id_node (width_type (ident_width i)) addr i)) (if decide (addr = 0) then ld_value (ident_width i) (addr_of i) else ld_addr (addr_of i)).
Proof.
  intros Ha (Hp & Hw & _). unfold compile_id, id_node. cbn [idtype id].
  rewrite decide_False by (destruct i, Ha as [->| ->]; cbv; congruence).
  assert (forall n t a, Z.land (idtype n) FINSH_IDTYPE_ADDRESS = addr -> type_width t <> None ->
    emits (compile_var n t a) (if decide (addr = 0) then ld_value (default Long (type_width t)) a else ld_addr a)) as Hv.
  { intros n t a Hn Ht. unfold compile_var. destruct (type_width t) as [w|]; [|done]. cbn [default]. destruct (decide (addr = 0)) as [E|E].
    - rewrite decide_False by congruence. apply emits_ld_value.
    - rewrite decide_True by congruence. apply emits_ld. }
  destruct i as [p|p]; cbn [id_type ident_ptr ident_type addr_of] in *.
  - rewrite decide_False by (destruct Ha as [->| ->]; cbv; congruence). rewrite bool_decide_true by done. cbn [when]. apply Hv; [destruct Ha as [->| ->]; done|done].
  - rewrite decide_True by (destruct Ha as [->| ->]; cbv; congruence). rewrite bool_decide_true by done. cbn [when]. apply Hv; [destruct Ha as [->| ->]; done|done].
Qed.

Lemma emits_id i addr sib ls : addr = 0 \/ addr = FINSH_IDTYPE_ADDRESS -> ident_ok i -> emits (finsh_compile sib) ls ->
  emits (finsh_compile (id_tree true i addr sib)) ((if decide (addr = 0) then ld_value (ident_width i) (addr_of i) else ld_addr (addr_of i)) ++ ls).
Proof. intros Ha Hi Hs. apply emits_leaf; [by apply compile_id_ok|done]. Qed.

Lemma emits_assign w : emits (code_assign (width_type w)) (st_code w).
Proof. unfold code_assign. rewrite by_type_width. apply emits_cons, emits_op. Qed.

Lemma expr_type_width e : dt e <> None -> expr_type e = width_type (opt_width e).
Proof. unfold expr_type, opt_width. by destruct (dt e). Qed.

Lemma siblings_args args : siblings (foldr (tree_of true) Null args) = length args.
Proof. induction args as [|e args IH]; [done|]. cbn [foldr length]. destruct (tree_of_node e (foldr (tree_of true) Null args)) as (n & child & -> & _). cbn [siblings]. by rewrite IH. Qed.

Lemma compile_ok e : well_typed e -> forall sib ls, emits (finsh_compile sib) ls -> emits (finsh_compile (tree_of true e sib)) (code e ++ ls).
Proof.
  induction e as [c|k v|i|i|op e1 e2 IH1 IH2|e IH|e IH|i e IH|e1 e2 IH1 IH2|inc p|inc p|f args IH] using expr_ind'; intros W sib ls Hs; cbn [tree_of code].
  - apply emits_leaf; [|done]. apply emits_cons. intros s. rewrite <- emits_byte. unfold finsh_code_byte. by rewrite (wrap_wrap 8).
  - apply emits_leaf; [|done]. destruct k; apply emits_ld.
  - apply emits_id; [by left|done..].
  - replace (ld_addr (addr_of i)) with ((ld_addr (addr_of i) ++ []) ++ []) by by rewrite !app_nil_r. rewrite <- app_assoc.
    apply emits_tree; [apply (emits_id i FINSH_IDTYPE_ADDRESS Null []); [by right|done|done]|done|done].
  - destruct W as (W1 & W2 & w & Ew & _). rewrite app_assoc. apply emits_inner; [|  |done].
    + apply IH1; [done|]. rewrite <- (app_nil_r (code e2)). by apply IH2.
    + unfold compile_node. rewrite (expr_type_width (EBin op e1 e2)) by (cbn [dt]; congruence). destruct op; cbn [node_type sys_node bop_node data_type ty]; rewrite by_type_width; apply emits_op.
  - destruct W as (W & Hd). apply emits_inner; [rewrite <- (app_nil_r (code e)); by apply IH| |done].
    unfold compile_node. cbn [node_type sys_node data_type ty]. rewrite (expr_type_width (ENot e)), by_type_width by done. apply emits_op.
  - destruct W as (W & Hd & _). apply emits_inner; [rewrite <- (app_nil_r (code e)); by apply IH| |done].
    unfold compile_node. cbn [node_type sys_node data_type ty idtype]. rewrite decide_False by (cbv; congruence). rewrite (expr_type_width (ELoad e)), by_type_width by done. apply emits_op.
  - destruct W as (Wi & W & _). rewrite <- app_assoc, <- app_assoc. rewrite (app_assoc (ld_addr _)). apply emits_tree; [|apply emits_assign|done].
    apply (emits_id i FINSH_IDTYPE_ADDRESS); [by right|done|]. rewrite <- (app_nil_r (code e)). by apply IH.
  - destruct W as (W1 & W2 & _ & w & Ew & _). rewrite <- app_assoc, <- app_assoc. rewrite (app_assoc (code e1)).
    rewrite !(expr_type_width (EStore e1 e2)) by (cbn [dt]; congruence). apply emits_tree; [| |done].
    + replace (code e1 ++ code e2) with ((code e1 ++ []) ++ [] ++ code e2 ++ []) by by rewrite !app_nil_r.
      apply emits_tree; [by apply IH1|done|by apply IH2].
    + unfold compile_node, compile_assign. cbn [node_type sys_node data_type ty]. change (opt_width (EStore e1 e2)) with (opt_width e1).
      replace (Z.land (width_type (opt_width e1)) 15) with (width_type (opt_width e1)) by (by destruct (opt_width e1)). apply emits_assign.
  - destruct W as (W & _). cbv zeta. rewrite <- app_assoc. apply emits_tree; [rewrite <- (app_nil_r (ld_addr _)); apply (emits_id (Var p) FINSH_IDTYPE_ADDRESS Null []); [by right|done|done]| |done].
    destruct inc; unfold compile_node; cbn [node_type sys_node inc_node inc_op bop_code]; unfold compile_pre, id_tree; cbn [node_type id_node data_type sys_node id ident_ptr ty];
      rewrite expr_type_width by done; rewrite by_type_width; apply emits_inc.
  - destruct W as (W & _). cbv zeta. rewrite <- app_assoc. apply emits_tree; [rewrite <- (app_nil_r (ld_value _ _)); apply (emits_id (Var p) 0 Null []); [by left|done|done]| |done].
    destruct inc; unfold compile_node; cbn [node_type sys_node inc_node inc_op bop_code]; unfold compile_post, id_tree; cbn [node_type id_node data_type sys_node id ident_ptr ty];
      rewrite expr_type_width by done; rewrite by_type_width; apply emits_cons; (apply emits_seq; [apply emits_dword|apply emits_inc]).
  - destruct W as (Hf & Hn & W). rewrite <- app_assoc, <- app_assoc. rewrite (app_assoc (ld_addr _)). apply emits_tree; [| |done].
    + apply emits_leaf; [apply emits_ld|]. clear -IH W. induction IH as [|e args He _ IHl]; [done|]. cbn [foldr flat_map] in *. destruct W as (W1 & _ & W).
      by apply He; [|apply IHl].
    + unfold compile_node. cbn [node_type sys_node]. rewrite siblings_args. apply emits_cons, emits_byte.
Qed.

(** ** Lines of expressions *)

Definition trees (typed : bool) (es : list expr) : tree := foldr (tree_of typed) Null es.
Fixpoint codes (es : list expr) : list Z :=
  match es with
  | [] => []
  | e :: es => match es with [] => code e | _ :: _ => code e ++ FINSH_OP_POP :: codes es end
  end.
(** The value of the last one, and the bits of it that are on the stack. *)
Fixpoint eval_all (es : list expr) (b : mem) : option (Z * mem) :=
  match es with
  | [] => None
  | e :: es => match es with [] => eval e b | _ :: _ => '(_, b) ← eval e b; eval_all es b end
  end.
Fixpoint known_last (es : list expr) : width :=
  match es with
  | [] => Long
  | e :: es => match es with [] => known e | _ :: _ => known_last es end
  end.

Lemma check_all es : Forall well_typed es -> forall s, finsh_type_check (trees false es) 0 s = Some (trees true es, s).
Proof. induction 1 as [|e es He _ IH]; intros s; [done|]. by apply check_ok. Qed.

Lemma tree_of_sibling e n child sib1 sib2 : tree_of true e sib1 = Tree n child sib1 -> tree_of true e sib2 = Tree n child sib2.
Proof. destruct e; cbn; by intros [= <- <-]. Qed.

Lemma compile_all es : Forall well_typed es -> emits (compile_statements (trees true es)) (codes es).
Proof.
  induction 1 as [|e es He _ IH]; [apply emits_nil|]. cbn [trees foldr codes]. destruct (tree_of_node e (trees true es)) as (n & child & En & _).
  assert (emits (finsh_compile (Tree n child Null)) (code e)) as Hc.
  { rewrite <- (tree_of_sibling _ _ _ _ Null En), <- (app_nil_r (code e)). by apply compile_ok. }
  unfold trees in *. rewrite En. cbn [compile_statements]. destruct es as [|e' es]; cbn [foldr] in *.
  - rewrite <- (app_nil_r (code e)). apply emits_seq; [done|apply emits_nil].
  - destruct (tree_of_node e' (foldr (tree_of true) Null es)) as (n' & child' & En' & _). rewrite En' in *. apply emits_seq; [done|]. by apply emits_cons.
Qed.

(** The code consists of bytes. *)
Lemma codes_bytes es : Forall well_typed es -> Forall (fun x => u8 x = x) (codes es).
Proof.
  assert (forall v, Forall (fun x => u8 x = x) (le4 v)) as H4 by (intros v; repeat constructor; apply u8_byte_of).
  assert (forall v, Forall (fun x => u8 x = x) (ld_addr v)) as Ha by (intros v; constructor; [done|apply H4]).
  assert (forall w v, Forall (fun x => u8 x = x) (ld_value w v)) as Hv by (intros w v; constructor; [by destruct w|apply H4]).
  assert (forall w, Forall (fun x => u8 x = x) (ld_one w)) as H1 by (intros w; destruct w; repeat constructor).
  assert (forall op w, u8 (op_byte (bop_code op) w) = op_byte (bop_code op) w) as Hb by (by intros [] []).
  assert (forall w, u8 (op_byte FINSH_OP_ST_BYTE w) = op_byte FINSH_OP_ST_BYTE w) as Hs by (by intros []).
  assert (forall w, u8 (op_byte FINSH_OP_LD_VALUE_BYTE_STACK w) = op_byte FINSH_OP_LD_VALUE_BYTE_STACK w) as Hl by (by intros []).
  assert (forall e, well_typed e -> Forall (fun x => u8 x = x) (code e)) as Hc.
  { induction e as [c|k v|i|i|op e1 e2 IH1 IH2|e IH|e IH|i e IH|e1 e2 IH1 IH2|inc p|inc p|f args IH] using expr_ind'; intros W; cbn [code]; cbv zeta; rewrite ?Forall_app; try done.
    - repeat constructor. apply (wrap_wrap 8). done.
    - destruct W as (W1 & W2 & _). split_and!; [by apply IH1|by apply IH2|by constructor].
    - destruct W as (W & _). split; [by apply IH|]. constructor; [by destruct (opt_width e)|done].
    - destruct W as (W & _). split; [by apply IH|by constructor].
    - destruct W as (_ & W & _). split_and!; [done|by apply IH|]. by repeat constructor.
    - destruct W as (W1 & W2 & _). split_and!; [by apply IH1|by apply IH2|]. by repeat constructor.
    - split_and!; try done. repeat constructor; done.
    - split_and!; try done. repeat constructor; done.
    - destruct W as (_ & Hn & W). split_and!; [done| |constructor; [done|constructor; [apply wrap_small; unfold in_range, PARAMETERS_MAX in *; lia|done]]].
      clear -IH W. induction IH as [|e args He _ IHl]; [done|]. cbn [foldr flat_map] in *. destruct W as (W1 & _ & W). apply Forall_app. by split; [apply He|apply IHl]. }
  induction 1 as [|e es He _ IH]; [done|]. cbn [codes]. destruct es as [|e' es]; [by apply Hc|]. apply Forall_app. split; [by apply Hc|]. by constructor.
Qed.

Definition text_of (l : list Z) : list Z := l ++ replicate (FINSH_TEXT_MAX - length l) 0.

Lemma text_of_length l : (length l <= FINSH_TEXT_MAX)%nat -> length (text_of l) = FINSH_TEXT_MAX.
Proof. intros H. unfold text_of. rewrite length_app, length_replicate. lia. Qed.

Lemma code_bytes_eval l : forall pre stk err, Forall (fun x => u8 x = x) l -> (length (pre ++ l) <= FINSH_TEXT_MAX)%nat ->
  code_bytes l (CState (text_of pre) (length pre) stk err) = Some (tt, CState (text_of (pre ++ l)) (length (pre ++ l)) stk err).
Proof.
  induction l as [|x l IH]; intros pre stk err Hb Hl; [by rewrite app_nil_r|]. apply Forall_cons in Hb as [Hx Hb]. rewrite length_app in Hl. cbn [length] in Hl.
  assert (finsh_code_byte x (CState (text_of pre) (length pre) stk err) = Some (tt, CState (text_of (pre ++ [x])) (length (pre ++ [x])) stk err)) as E.
  { unfold finsh_code_byte. cbn [finsh_compile_pc ctext cstack global_errno]. rewrite text_of_length, decide_True by lia. rewrite Hx, length_app, Nat.add_1_r. do 3 f_equal.
    unfold text_of. rewrite length_app. cbn [length]. replace (FINSH_TEXT_MAX - length pre)%nat with (S (FINSH_TEXT_MAX - (length pre + 1))) by lia.
    cbn [replicate]. rewrite insert_app_r_alt, Nat.sub_diag by lia. cbn. by rewrite <- app_assoc. }
  unfold code_bytes. cbn [foldr]. rewrite (seq_eval _ _ _ _ _ E). fold (code_bytes l). rewrite IH by (rewrite ?length_app in *; cbn [length] in *; try done; lia).
  by rewrite <- app_assoc.
Qed.

(** The compiler of well-typed statements: their code, in a text of zeros. *)
Lemma compiler_run_ok es c : Forall well_typed es -> (length (codes es) <= FINSH_TEXT_MAX)%nat ->
  finsh_compiler_run (trees false es) c = Some (tt, CState (text_of (codes es)) (length (codes es)) (<[0%nat := 0]> (cstack c)) (global_errno c)).
Proof.
  intros W Hl. unfold finsh_compiler_run. rewrite (seq_eval _ _ _ _ _ (check_all es W c)). rewrite (seq_eval _ _ _ _ _ eq_refl).
  rewrite (compile_all es W). apply (code_bytes_eval (codes es) []); [by apply codes_bytes|done].
Qed.

(** Behind the code the text is zeros, which do nothing. *)
Lemma loop_zeros k : forall fuel stk sp pc text b, length text = FINSH_TEXT_MAX -> drop pc text = replicate k 0 -> (pc + k = FINSH_TEXT_MAX)%nat -> (k <= fuel)%nat ->
  vm_loop fuel (Vm stk sp pc text b) = Some (tt, Vm stk sp FINSH_TEXT_MAX text b).
Proof.
  induction k as [|k IH]; intros fuel stk sp pc text b Ht Hd Hpc Hf.
  - rewrite Nat.add_0_r in Hpc. subst pc. by destruct fuel.
  - destruct fuel as [|fuel]; [lia|]. cbn [vm_loop]. rewrite (bind_eval _ _ _ _ _ eq_refl). cbn [finsh_pc]. rewrite decide_True by lia.
    destruct (fetch_eval stk sp pc text b 0 (replicate k 0) Hd) as [E Hd'].
    assert (vm_step (Vm stk sp pc text b) = Some (tt, Vm stk sp (S pc) text b)) as Es by (unfold vm_step; by rewrite (bind_eval _ _ _ _ _ E)).
    rewrite (bind_eval _ _ _ _ _ Es). apply IH; [done|done|lia|lia].
Qed.

(** The code of statements, run by the machine. *)
Lemma vm_run_ok c stk sp pc b stk' sp' b' : runs c stk 0 b stk' sp' b' -> length stk = FINSH_STACK_MAX -> (length c <= FINSH_TEXT_MAX)%nat ->
  finsh_vm_run (Vm stk sp pc (text_of c) b) = Some (tt, Vm stk' sp' FINSH_TEXT_MAX (text_of c) b').
Proof.
  intros [_ R] Hs Hl. unfold finsh_vm_run. rewrite !(bind_eval _ _ _ _ _ eq_refl). unfold set_sp, set_pc. cbn [finsh_vm_stack finsh_sp finsh_pc text_segment data].
  destruct (R (text_of c) 0%nat (replicate (FINSH_TEXT_MAX - length c) 0) (text_of_length _ Hl) eq_refl ltac:(lia) Hs) as (_ & n & Hn & E).
  cbn [finsh_pc] in Hn. replace FINSH_TEXT_MAX with (n + (FINSH_TEXT_MAX - n))%nat at 1 by lia. rewrite E.
  apply (loop_zeros (FINSH_TEXT_MAX - length c)); [by apply text_of_length| |lia|lia]. cbn [Nat.add]. unfold text_of. by rewrite drop_app_length.
Qed.

Lemma statements_ok es : Forall well_typed es -> forall b v b' stk, eval_all es b = Some (v, b') -> length stk = FINSH_STACK_MAX ->
  (length (codes es) <= FINSH_TEXT_MAX)%nat -> yields (codes es) stk 0 b (known_last es) v b'.
Proof.
  induction 1 as [|e es He _ IH]; intros b v b' stk Hv Hl Hlen; [done|]. cbn [eval_all codes known_last] in *. destruct es as [|e' es]; [by apply exec|].
  inv_bind Hv p1 E1. destruct p1 as [v1 b1]. rewrite length_app in Hlen. cbn [length] in Hlen.
  eapply yields_app; [apply exec; [done|exact E1|done|lia]|]. intros stk1 a1 L1 _ _ _.
  destruct (IH b1 v b' stk1 Hv L1 ltac:(lia)) as (stk2 & a2 & R2 & L2 & T2 & A2 & V2). exists stk2, a2. split; [|done].
  apply (runs_app [FINSH_OP_POP] _ _ _ _ stk1 0 b1); [by apply runs_pop|done].
Qed.

(** The compiler and the machine on a line of well-typed expressions. *)
Lemma run_root_ok es b v b' s : Forall well_typed es -> eval_all es b = Some (v, b') -> (length (codes es) <= FINSH_TEXT_MAX)%nat ->
  length (cstack (compiler s)) = FINSH_STACK_MAX -> global_errno (compiler s) = 0 -> memory s = b ->
  exists s' bottom, finsh_run_root (trees false es) s = Some (Some (finsh_report bottom), s') /\ view (known_last es) bottom = v /\ memory s' = b' /\
    finsh_stack_bottom s' = Some bottom /\ machine_sp s' = 1%nat /\ global_errno (compiler s') = 0 /\ length (cstack (compiler s')) = FINSH_STACK_MAX.
Proof.
  intros W Hv Hlen Hs He Hm. destruct s as [[text pc stk err] sp mpc m]. cbn [compiler cstack global_errno memory] in *. subst m err.
  pose proof (compiler_run_ok es (CState text pc stk 0) W Hlen) as Ec. cbn [cstack global_errno] in Ec. set (stk0 := <[0%nat := 0]> stk) in *.
  assert (length stk0 = FINSH_STACK_MAX) as Hs0 by (unfold stk0; by rewrite length_insert).
  destruct (statements_ok es W b v b' stk0 Hv Hs0 Hlen) as (stk1 & a & R & L & _ & A & V).
  exists (Finsh (CState (text_of (codes es)) (length (codes es)) stk1 0) 1 FINSH_TEXT_MAX b'), (s32 a).
  split; [|split; [rewrite <- V; apply (view_view _ Long); by destruct (known_last es)|]; unfold finsh_stack_bottom; cbn [compiler cstack memory machine_sp global_errno]; by rewrite A].
  unfold finsh_run_root. rewrite (bind_eval _ _ _ _ _ eq_refl). cbn [compiler global_errno]. rewrite bool_decide_true by done. cbn [when].
  rewrite (bind_eval _ _ _ tt (Finsh (CState (text_of (codes es)) (length (codes es)) stk0 0) sp mpc b)) by (unfold run_compiler; cbn [compiler]; by rewrite Ec).
  rewrite (bind_eval _ _ _ _ _ eq_refl). cbn [compiler global_errno]. rewrite decide_True by done.
  pose proof (vm_run_ok (codes es) stk0 sp mpc b stk1 1 b' R Hs0 Hlen) as Ev.
  rewrite (bind_eval _ _ _ tt (Finsh (CState (text_of (codes es)) (length (codes es)) stk1 0) 1 FINSH_TEXT_MAX b')) by (unfold run_vm; cbn [compiler cstack machine_sp machine_pc ctext memory]; by rewrite Ev).
  rewrite (bind_deref _ _ _ (s32 a)) by (unfold finsh_stack_bottom; cbn [compiler cstack]; by rewrite A). done.
Qed.
End run.
