(* ===== verification/FinshC.v ===== *)
(** * FinshC: what the expressions of the shell mean in C

    The reference for the compiler and the machine of the shell: the types of C
    with their promotions and conversions on a machine of 32 bits ([char] is
    signed), undefined where C says so (a signed overflow, a division by zero, a
    shift that is too far).  Operands are evaluated from left to right.  Pointers
    are addresses, and their arithmetic counts in elements.  [c_ok] is where the
    shell, which does an operation in the width of its first operand, without
    signs other than those of signed numbers, agrees with that. *)

From S2P Require Import Prelude Bytes KString FinshVm FinshCompiler FinshExpr FinshRun.

(** ** Types *)

Inductive ctype := Scalar (t : finsh_type) | Pointer (t : finsh_type).
#[export] Instance ctype_eq_dec : EqDecision ctype.
Proof. solve_decision. Defined.

Definition ctype_of (t : finsh_type) : ctype :=
  match t with
  | finsh_type_charp => Pointer finsh_type_char
  | finsh_type_shortp => Pointer finsh_type_short
  | finsh_type_intp => Pointer finsh_type_int
  | finsh_type_longp => Pointer finsh_type_long
  | _ => Scalar t
  end.
Definition c_width (t : ctype) : option width := match t with Scalar t => type_width t | Pointer _ => Some Long end.
Definition deref_type (t : ctype) : ctype := match t with Pointer t => ctype_of t | Scalar _ => Scalar finsh_type_unknown end.

(** A value of the type that has the bits of [z]. *)
Definition convert (t : ctype) (z : Z) : Z :=
  match t with
  | Scalar finsh_type_char => s8 z
  | Scalar finsh_type_uchar => u8 z
  | Scalar finsh_type_short => s16 z
  | Scalar finsh_type_ushort => u16 z
  | Scalar finsh_type_int | Scalar finsh_type_long => s32 z
  | _ => u32 z
  end.

(** What is narrower than [int] becomes one. *)
Definition promote (t : ctype) : ctype :=
  match t with
  | Scalar finsh_type_char | Scalar finsh_type_uchar | Scalar finsh_type_short | Scalar finsh_type_ushort => Scalar finsh_type_int
  | _ => t
  end.
Definition is_unsigned (t : ctype) : bool := bool_decide (t = Scalar finsh_type_uint \/ t = Scalar finsh_type_ulong).
Definition common (t1 t2 : ctype) : ctype := Scalar (if is_unsigned t1 || is_unsigned t2 then finsh_type_uint else finsh_type_int).

(** The bytes of an element. *)
Definition elem_size (t : finsh_type) : Z := match type_width t with Some w => bits w / 8 | None => 1 end.
Definition step (t : ctype) : Z := match t with Pointer t => elem_size t | Scalar _ => 1 end.

Section types.
Context {sy : Symbols}.

Fixpoint type_of (e : expr) : ctype :=
  match e with
  | EChar _ => Scalar finsh_type_int
  | EConst k _ =>
    match k with CInt | CLong => Scalar finsh_type_int | CString => Pointer finsh_type_char | CNull => Pointer finsh_type_void end
  | EId i | EAssign i _ => ctype_of (ident_type i)
  | EAddr i => Pointer (ident_type i)
  | EBin op e1 e2 =>
    match op with
    | Shl | Shr => promote (type_of e1)
    | _ => match type_of e1 with Pointer t => Pointer t | t1 => common t1 (type_of e2) end
    end
  | ENot e => promote (type_of e)
  | ELoad e | EStore e _ => deref_type (type_of e)
  | EPre _ p | EPost _ p => ctype_of (var_type p)
  | ECall _ _ => Scalar finsh_type_int
  end.

(** ** Values *)

(** A signed result has to be one. *)
Definition c_result (t : ctype) (z : Z) : option Z :=
  match t with
  | Scalar finsh_type_int | Scalar finsh_type_long => if decide (- 2 ^ 31 <= z < 2 ^ 31) then Some z else None
  | _ => Some (convert t z)
  end.

Definition c_arithmetic (op : bop) (t : ctype) (a b : Z) : option Z :=
  match op with
  | Add => c_result t (a + b)
  | Sub => c_result t (a - b)
  | Mul => c_result t (a * b)
  | Div => if decide (b = 0) then None else c_result t (Z.quot a b)
  | Mod => if decide (b = 0 \/ (a = - 2 ^ 31 /\ b = -1)) then None else c_result t (Z.rem a b)
  | And => Some (convert t (Z.land a b))
  | Or => Some (convert t (Z.lor a b))
  | Xor => Some (convert t (Z.lxor a b))
  | Shl | Shr => None
  end.

Definition c_binop (op : bop) (t1 : ctype) (v1 : Z) (t2 : ctype) (v2 : Z) : option Z :=
  match t1, t2 with
  | Scalar _, Scalar _ =>
    match op with
    | Shl => if decide (0 <= v2 < 32 /\ (0 <= v1 \/ is_unsigned t1)) then c_result (promote t1) (v1 * 2 ^ v2) else None
    | Shr => if decide (0 <= v2 < 32) then Some (convert (promote t1) (v1 / 2 ^ v2)) else None
    | _ => let t := common t1 t2 in c_arithmetic op t (convert t v1) (convert t v2)
    end
  | Pointer t, Scalar _ =>
    match op with
    | Add => Some (u32 (v1 + v2 * elem_size t))
    | Sub => Some (u32 (v1 - v2 * elem_size t))
    | _ => None
    end
  | _, Pointer _ => None
  end.

Definition c_load (t : ctype) (a : Z) (b : mem) : option Z := w ← c_width t; z ← load w a b; Some (convert t z).
Definition c_store (t : ctype) (a v : Z) (b : mem) : option mem := w ← c_width t; store w a v b.
End types.

Section values.
Context {sy : Symbols} {fs : Functions}.

(** A function gets words, at least one of them, and gives an [int] back. *)
Fixpoint c_eval (e : expr) (b : mem) : option (Z * mem) :=
  let t := type_of e in
  match e with
  | EChar c => Some (s8 c, b)
  | EConst _ v => Some (convert t v, b)
  | EId i => v ← c_load t (addr_of i) b; Some (v, b)
  | EAddr i => Some (u32 (addr_of i), b)
  | EBin op e1 e2 => '(v1, b) ← c_eval e1 b; '(v2, b) ← c_eval e2 b; r ← c_binop op (type_of e1) v1 (type_of e2) v2; Some (r, b)
  | ENot e =>
    '(v, b) ← c_eval e b;
    match type_of e with Scalar _ => Some (convert t (Z.lnot v), b) | Pointer _ => None end
  | ELoad e => '(a, b) ← c_eval e b; v ← c_load t (u32 a) b; Some (v, b)
  | EAssign i e => '(v, b) ← c_eval e b; b ← c_store t (addr_of i) v b; Some (convert t v, b)
  | EStore e1 e2 => '(a, b) ← c_eval e1 b; '(v, b) ← c_eval e2 b; b ← c_store t (u32 a) v b; Some (convert t v, b)
  | EPre inc p =>
    v ← c_load t (var_value p) b; r ← c_binop (inc_op inc) t v (Scalar finsh_type_int) 1; b ← c_store t (var_value p) r b; Some (convert t r, b)
  | EPost inc p =>
    v ← c_load t (var_value p) b; r ← c_binop (inc_op inc) t v (Scalar finsh_type_int) 1; b ← c_store t (var_value p) r b; Some (v, b)
  | ECall f args =>
    '(vs, b) ← (fix c_args args b := match args with
                | [] => Some ([], b)
                | a :: args => '(v, b) ← c_eval a b; '(vs, b) ← c_args args b; Some (u32 v :: vs, b)
                end) args b;
    '(r, b) ← func (syscall_func f) (arguments vs) b; Some (s32 r, b)
  end.
Fixpoint c_args (args : list expr) (b : mem) : option (list Z * mem) :=
  match args with
  | [] => Some ([], b)
  | a :: args => '(v, b) ← c_eval a b; '(vs, b) ← c_args args b; Some (u32 v :: vs, b)
  end.

(** The statements of a line, and the value of the last one. *)
Fixpoint c_eval_all (es : list expr) (b : mem) : option (Z * mem) :=
  match es with
  | [] => None
  | e :: es => match es with [] => c_eval e b | _ :: _ => '(_, b) ← c_eval e b; c_eval_all es b end
  end.

(** ** Where the shell does the same *)

Definition signed_width (t : ctype) : option width :=
  match t with
  | Scalar finsh_type_char => Some Byte
  | Scalar finsh_type_short => Some Short
  | Scalar finsh_type_int | Scalar finsh_type_long => Some Long
  | _ => None
  end.
(** The value of [e] is that of its bits as a signed number of this width. *)
Definition exact (w : width) (e : expr) : Prop :=
  match e with EConst _ v => view w v = v | _ => signed_width (type_of e) = Some w end.

(** A division, a remainder and a shift to the right have signed operands of one
    width; the elements that are counted have one byte; what a pointer points to
    is as wide as the shell takes it for; a constant is an [int]. *)
Fixpoint c_ok (e : expr) : Prop :=
  match e with
  | EChar _ | EId _ | EAddr _ => True
  | EConst _ v => 0 <= v < 2 ^ 31
  | EBin op e1 e2 =>
    c_ok e1 /\ c_ok e2 /\
    match op with
    | Div | Mod => exact (opt_width e1) e1 /\ exact (opt_width e1) e2
    | Shr => exact (opt_width e1) e1
    | Add | Sub => step (type_of e1) = 1
    | _ => True
    end
  | ENot e | EAssign _ e => c_ok e
  | ELoad e => c_ok e /\ c_width (deref_type (type_of e)) = Some (opt_width e)
  | EStore e1 e2 => c_ok e1 /\ c_ok e2 /\ c_width (deref_type (type_of e1)) = Some (opt_width e1)
  | EPre _ p | EPost _ p => step (ctype_of (var_type p)) = 1
  | ECall _ args => foldr (fun a q => c_ok a /\ q) True args
  end.
End values.

(** ** The same low bits *)

Variant same (w : width) (x y : Z) : Prop := Same (_ : wrap (bits w) x = wrap (bits w) y).

Lemma same_wrap w x y : same w x y <-> wrap (bits w) x = wrap (bits w) y.
Proof. split; [by intros []|by constructor]. Qed.

#[export] Instance same_equivalence w : Equivalence (same w).
Proof. split; [by intros x|by intros x y []|intros x y z [] []; constructor; congruence]. Qed.
#[export] Instance same_add w : Proper (same w ==> same w ==> same w) Z.add.
Proof. intros x x' [Hx] y y' [Hy]. constructor. unfold wrap in *. by rewrite Zplus_mod, Hx, Hy, <- Zplus_mod. Qed.
#[export] Instance same_sub w : Proper (same w ==> same w ==> same w) Z.sub.
Proof. intros x x' [Hx] y y' [Hy]. constructor. unfold wrap in *. by rewrite Zminus_mod, Hx, Hy, <- Zminus_mod. Qed.
#[export] Instance same_mul w : Proper (same w ==> same w ==> same w) Z.mul.
Proof. intros x x' [Hx] y y' [Hy]. constructor. unfold wrap in *. by rewrite Zmult_mod, Hx, Hy, <- Zmult_mod. Qed.

(** The bits decide. *)
Lemma same_bits w x y : same w x y <-> forall k, 0 <= k < bits w -> Z.testbit x k = Z.testbit y k.
Proof.
  pose proof (bits_pos w). rewrite same_wrap. unfold wrap. split.
  - intros E k Hk. apply (f_equal (fun z => Z.testbit z k)) in E. by rewrite !Z.mod_pow2_bits_low in E by lia.
  - intros E. apply Z.bits_inj'. intros k Hk. destruct (decide (k < bits w)); [rewrite !Z.mod_pow2_bits_low by lia; apply E; lia|].
    by rewrite !Z.mod_pow2_bits_high by lia.
Qed.

#[export] Instance same_land w : Proper (same w ==> same w ==> same w) Z.land.
Proof. intros x x' Hx y y' Hy. rewrite same_bits in *. intros k Hk. by rewrite !Z.land_spec, Hx, Hy. Qed.
#[export] Instance same_lor w : Proper (same w ==> same w ==> same w) Z.lor.
Proof. intros x x' Hx y y' Hy. rewrite same_bits in *. intros k Hk. by rewrite !Z.lor_spec, Hx, Hy. Qed.
#[export] Instance same_lxor w : Proper (same w ==> same w ==> same w) Z.lxor.
Proof. intros x x' Hx y y' Hy. rewrite same_bits in *. intros k Hk. by rewrite !Z.lxor_spec, Hx, Hy. Qed.
#[export] Instance same_lnot w : Proper (same w ==> same w) Z.lnot.
Proof. intros x x' Hx. rewrite same_bits in *. intros k Hk. by rewrite !Z.lnot_spec, Hx by lia. Qed.

Lemma same_le w w' x y : le w w' -> same w' x y -> same w x y.
Proof. unfold le. intros H [E]. constructor. pose proof (bits_pos w). by rewrite <- (wrap_wrap_le (bits w) (bits w') x), E, wrap_wrap_le by lia. Qed.

Lemma same_view w z : same w (view w z) z.
Proof. constructor. apply wrap_view. Qed.

Lemma view_same w x y : same w x y <-> view w x = view w y.
Proof. split; [intros []; by apply view_wrap|]. intros E. by rewrite <- (same_view w x), E, same_view. Qed.

Lemma same_u32 w z : same w (u32 z) z.
Proof. apply (same_le w Long); [by destruct w|]. constructor. by apply wrap_wrap. Qed.

Lemma le_long w : le w Long.
Proof. by destruct w. Qed.

(** A conversion keeps the bits of the type. *)
Lemma same_convert t w z : c_width t = Some w -> same w (convert t z) z.
Proof.
  destruct t as [t|t]; [|intros [= <-]; apply same_u32].
  destruct t; cbn [c_width type_width convert]; intros [= <-]; try apply (same_view Byte); try apply (same_view Short); try apply (same_view Long);
    constructor; by apply wrap_wrap.
Qed.

Lemma wide_convert t w z : match t with Scalar finsh_type_char | Scalar finsh_type_uchar | Scalar finsh_type_short | Scalar finsh_type_ushort => False | _ => True end ->
  same w (convert t z) z.
Proof. intros H. apply (same_le w Long); [apply le_long|]. destruct t as [t|t]; [destruct t; try done|]; apply (same_view Long) || apply same_u32. Qed.

Lemma promoted_convert t w z : same w (convert (promote t) z) z.
Proof. apply wide_convert. destruct t as [t|t]; [by destruct t|done]. Qed.
Lemma common_convert t1 t2 w z : same w (convert (common t1 t2) z) z.
Proof. apply wide_convert. unfold common. by destruct (_ || _). Qed.

Lemma c_result_same t z r w : (forall z, same w (convert t z) z) -> c_result t z = Some r -> same w r z.
Proof. intros H. unfold c_result. destruct t as [t|t]; [destruct t|]; try (case_decide; [|done]); intros [= <-]; done || apply H. Qed.

(** A value is one of its type. *)
Definition typed (t : ctype) (v : Z) : Prop := convert t v = v.

Lemma convert_typed t z : typed t (convert t z).
Proof.
  unfold typed. destruct t as [t|t]; [|by apply wrap_wrap].
  destruct t; cbn [convert]; try (by apply wrap_wrap); apply (view_view Byte Byte) || apply (view_view Short Short) || apply (view_view Long Long); lia.
Qed.

Lemma c_result_typed t z r : c_result t z = Some r -> typed t r.
Proof.
  unfold c_result. destruct t as [t|t]; [destruct t|]; try (intros [= <-]; exact (convert_typed _ _)).
  all: case_decide; [|done]; intros [= <-]; by apply s32_id.
Qed.

Lemma c_arithmetic_typed op t a b r : c_arithmetic op t a b = Some r -> typed t r.
Proof.
  destruct op; cbn [c_arithmetic]; try case_decide; try done; try apply c_result_typed; intros [= <-]; apply convert_typed.
Qed.

Lemma exact_view w t v : typed t v -> signed_width t = Some w -> view w v = v.
Proof. unfold typed. destruct t as [t|t]; [destruct t|]; cbn [signed_width convert]; by intros ? [= <-]. Qed.

Lemma store_same w a v v' b : same w v v' -> store w a v b = store w a v' b.
Proof.
  intros H. unfold store. case_decide; [|done]. f_equal. apply same_wrap in H. destruct w; cbn [bits] in H.
  - unfold store8. by rewrite H.
  - unfold store16, store8. rewrite <- (wrap_wrap_le 8 16 v), H, wrap_wrap_le by lia.
    assert (u8 (v / 256) = u8 (v' / 256)) as ->; [|done].
    assert (same Short v v') as Hs by by constructor. rewrite same_bits in Hs. change 256 with (2 ^ 8). rewrite <- !Z.shiftr_div_pow2 by lia.
    apply (same_wrap Byte). apply same_bits. intros k Hk. cbn [bits] in Hk. rewrite !Z.shiftr_spec by lia. apply Hs. cbn [bits]. lia.
  - by rewrite H.
Qed.

(** ** An operation of the machine is that of C *)

Lemma view_range w z : - 2 ^ 31 <= view w z < 2 ^ 31.
Proof.
  assert (forall k, 0 <= k -> 0 <= wrap k z < 2 ^ k) as H by (intros k Hk; by apply wrap_range).
  pose proof (H 8). pose proof (H 16). pose proof (H 32). destruct w; cbn [view]; unfold s8, s16, s32; case_decide; lia.
Qed.

Lemma small_view w v : 0 <= v < 32 -> view w v = v.
Proof. intros H. destruct w; cbn [view]; [unfold s8|unfold s16|apply s32_id; lia]; rewrite wrap_small, decide_True by (unfold in_range; lia); done. Qed.

Definition agree (op : bop) (w : width) (t1 : ctype) (v1 : Z) (t2 : ctype) (v2 : Z) : Prop :=
  match op with
  | Div | Mod => (is_unsigned t1 = false /\ is_unsigned t2 = false) /\ view w v1 = v1 /\ view w v2 = v2
  | Shr => view w v1 = v1
  | Add | Sub => step t1 = 1
  | _ => True
  end.

Lemma arithmetic_agrees op w t1 v1 t2 v2 r : c_arithmetic op (common t1 t2) (convert (common t1 t2) v1) (convert (common t1 t2) v2) = Some r ->
  agree op w t1 v1 t2 v2 -> exists r', bop_fun op (view w v1) (view w v2) = Some r' /\ same w r' r.
Proof.
  set (t := common t1 t2). intros E H.
  assert (forall z, same w (convert t z) z) as Hc by (intros z; apply common_convert).
  assert (same w (view w v1) (convert t v1) /\ same w (view w v2) (convert t v2)) as [H1 H2] by (split; by rewrite same_view, Hc).
  assert (match op with Div | Mod => True | _ => False end -> convert t v1 = v1 /\ convert t v2 = v2) as Hd.
  { intros Hop. assert ((is_unsigned t1 = false /\ is_unsigned t2 = false) /\ view w v1 = v1 /\ view w v2 = v2) as [[Hu1 Hu2] [E1 E2]] by (by destruct op).
    unfold t, common. rewrite Hu1, Hu2. cbn. split; apply s32_id; [rewrite <- E1|rewrite <- E2]; apply view_range. }
  destruct op; cbn [c_arithmetic agree bop_fun] in *; unfold op_add, op_sub, op_mul, op_and, op_or, op_xor; try done.
  - eexists. split; [done|]. rewrite (c_result_same _ _ _ w Hc E). by rewrite H1, H2.
  - eexists. split; [done|]. rewrite (c_result_same _ _ _ w Hc E). by rewrite H1, H2.
  - eexists. split; [done|]. rewrite (c_result_same _ _ _ w Hc E). by rewrite H1, H2.
  - destruct H as [[Hu1 Hu2] [E1 E2]], (Hd I) as [C1 C2]. rewrite E1, E2. rewrite C1, C2 in E. unfold op_div. case_decide as Hz; [done|].
    rewrite decide_False.
    { eexists. split; [done|]. by rewrite (c_result_same _ _ _ w Hc E). }
    intros [?|[-> ->]]; [done|]. unfold t, common in E. rewrite Hu1, Hu2 in E. done.
  - destruct H as [_ [E1 E2]], (Hd I) as [C1 C2]. rewrite E1, E2. rewrite C1, C2 in E. unfold op_mod. case_decide as Hz; [done|].
    eexists. split; [done|]. by rewrite (c_result_same _ _ _ w Hc E).
  - apply (inj Some) in E as <-. eexists. split; [done|]. by rewrite Hc, H1, H2.
  - apply (inj Some) in E as <-. eexists. split; [done|]. by rewrite Hc, H1, H2.
  - apply (inj Some) in E as <-. eexists. split; [done|]. by rewrite Hc, H1, H2.
Qed.

Lemma binop_agrees op w t1 v1 t2 v2 r : c_binop op t1 v1 t2 v2 = Some r -> agree op w t1 v1 t2 v2 ->
  exists r', bop_fun op (view w v1) (view w v2) = Some r' /\ same w r' r.
Proof.
  intros E H. unfold c_binop in E. destruct t1 as [t1|t1], t2 as [t2|t2]; try done.
  - destruct op; try (by eapply arithmetic_agrees); cbn [bop_fun].
    + case_decide as Hv; [|done]. destruct Hv as [Hv _]. unfold op_shl. rewrite (small_view w v2 Hv), decide_True by done. eexists. split; [done|].
      rewrite (c_result_same _ _ _ w (fun z => promoted_convert _ w z) E). by rewrite Z.shiftl_mul_pow2, same_view by lia.
    + case_decide as Hv; [|done]. apply (inj Some) in E as <-. cbn [agree] in H. unfold op_shr. rewrite (small_view w v2 Hv), decide_True by done. eexists. split; [done|].
      by rewrite promoted_convert, H, Z.shiftr_div_pow2 by lia.
  - assert (elem_size t1 = 1 \/ op <> Add /\ op <> Sub) as He by (destruct op; auto).
    destruct op; try done; (destruct He as [He|[? ?]]; [|done]); injection E as <-; eexists; (split; [done|]); by rewrite same_u32, He, Z.mul_1_r, !same_view.
Qed.

(** ** An expression of the shell is that of C *)

Section agrees.
Context {sy : Symbols} {fs : Functions}.

Lemma c_width_of t w : type_width t = Some w -> c_width (ctype_of t) = Some w.
Proof. by destruct t. Qed.

Lemma ident_c_width i : ident_ok i -> c_width (ctype_of (ident_type i)) = Some (ident_width i).
Proof. intros (_ & H & _). apply c_width_of. unfold ident_width. by destruct (type_width _). Qed.

Lemma c_load_same t w a b v : c_width t = Some w -> c_load t a b = Some v -> load w a b = Some (view w v) /\ typed t v.
Proof.
  intros Hw. unfold c_load. rewrite Hw. cbn [mbind option_bind]. intros H. inv_bind H z E. apply (inj Some) in H as <-. split; [|apply convert_typed].
  f_equal. rewrite <- (view_load _ _ _ _ E) at 1. apply view_same. by rewrite (same_convert t w z).
Qed.

Lemma c_store_same t w a v v' b b' : c_width t = Some w -> same w v' v -> c_store t a v b = Some b' -> store w a v' b = Some b'.
Proof. intros Hw Hv. unfold c_store. rewrite Hw. cbn [mbind option_bind]. intros <-. by apply store_same. Qed.

Lemma c_binop_typed op t1 v1 t2 v2 r : c_binop op t1 v1 t2 v2 = Some r ->
  typed (match op with Shl | Shr => promote t1 | _ => match t1 with Pointer t => Pointer t | _ => common t1 t2 end end) r.
Proof.
  unfold c_binop. destruct t1 as [t1|t1], t2 as [t2|t2]; try done.
  - destruct op; try apply c_arithmetic_typed; (case_decide; [|done]); [apply c_result_typed|intros [= <-]; apply convert_typed].
  - destruct op; try done; intros [= <-]; by apply wrap_wrap.
Qed.

Lemma c_eval_typed e b v b' : c_eval e b = Some (v, b') -> typed (type_of e) v.
Proof.
  destruct e as [c|k z|i|i|op e1 e2|e|e|i e|e1 e2|inc p|inc p|f args]; cbn [c_eval]; intros H.
  - injection H as <- _. apply s32_id. pose proof (view_range Byte c). done.
  - injection H as <- _. apply convert_typed.
  - inv_bind H x E. injection H as <- _. unfold c_load in E. inv_bind E w Ew. inv_bind E z Ez. apply (inj Some) in E as <-. apply convert_typed.
  - injection H as <- _. by apply wrap_wrap.
  - inv_bind H p1 E1. destruct p1 as [v1 b1]. inv_bind H p2 E2. destruct p2 as [v2 b2]. inv_bind H r Er. injection H as <- _. pose proof (c_binop_typed _ _ _ _ _ _ Er) as Ht. cbn [type_of]. by destruct (type_of e1), op.
  - inv_bind H p1 E1. destruct p1 as [v1 b1]. destruct (type_of e) eqn:Et; [|done]. apply (inj Some), (inj2 pair) in H as [<- _]. cbn [type_of]. rewrite Et. apply convert_typed.
  - inv_bind H p1 E1. destruct p1 as [v1 b1]. inv_bind H x E. injection H as <- _. unfold c_load in E. inv_bind E w Ew. inv_bind E z Ez. apply (inj Some) in E as <-. apply convert_typed.
  - inv_bind H p1 E1. destruct p1 as [v1 b1]. inv_bind H b2 E2. injection H as <- _. apply convert_typed.
  - inv_bind H p1 E1. destruct p1 as [v1 b1]. inv_bind H p2 E2. destruct p2 as [v2 b2]. inv_bind H b3 E3. injection H as <- _. apply convert_typed.
  - inv_bind H x E. inv_bind H r Er. inv_bind H b1 E1. injection H as <- _. apply convert_typed.
  - inv_bind H x E. inv_bind H r Er. inv_bind H b1 E1. injection H as <- _. unfold c_load in E. inv_bind E w Ew. inv_bind E z Ez. apply (inj Some) in E as <-. apply convert_typed.
  - inv_bind H p1 E1. destruct p1 as [vs b1]. inv_bind H p2 E2. destruct p2 as [r b2]. injection H as <- _. apply s32_id. exact (view_range Long r).
Qed.

Definition agrees (e : expr) : Prop := well_typed e -> c_ok e -> forall b v b', c_eval e b = Some (v, b') -> eval e b = Some (view (known e) v, b').

Lemma exact_value w e b v b' : exact w e -> c_ok e -> c_eval e b = Some (v, b') -> view w v = v /\ (is_unsigned (type_of e) = false \/ exists t, type_of e = Pointer t).
Proof.
  intros He Hc Ev. assert ((exists k z, e = EConst k z) \/ signed_width (type_of e) = Some w) as [(k & z & ->)|Hs] by (destruct e; try (by right); left; by eexists _, _).
  - apply (inj Some), (inj2 pair) in Ev as [<- _]. cbn [exact c_ok] in *. assert (convert (type_of (EConst k z)) z = z) as E.
    { destruct k; cbn [type_of convert]; first [apply s32_id; lia|apply wrap_small; unfold in_range; lia]. }
    split; [by rewrite E|]. destruct k; [by left|by left|by right; eexists|by right; eexists].
  - split; [by eapply exact_view; [eapply c_eval_typed|]|]. left. destruct (type_of e) as [t|t]; [|done]. by destruct t.
Qed.

Lemma bin_agrees op e1 e2 : agrees e1 -> agrees e2 -> agrees (EBin op e1 e2).
Proof.
  intros H1 H2 (W1 & W2 & w & Ew & Hh) (C1 & C2 & Hop) b v b' E. cbn [c_eval] in E. inv_bind E p1 E1. destruct p1 as [v1 b1]. inv_bind E p2 E2. destruct p2 as [v2 b2].
  inv_bind E r Er. injection E as <- <-. assert (opt_width e1 = w) as Eo by (unfold opt_width; by rewrite Ew). cbn [eval known dt].
  rewrite (H1 W1 C1 _ _ _ E1). cbn [mbind option_bind]. rewrite (H2 W2 C2 _ _ _ E2). cbn [mbind option_bind]. rewrite Ew, Eo in *. cbn [default].
  pose proof (opt_width_known e1) as Hk. rewrite Eo in Hk. rewrite !view_view by done.
  assert (agree op w (type_of e1) v1 (type_of e2) v2) as Ha.
  { destruct op; cbn [agree] in *; try done; first [by destruct (exact_value _ _ _ _ _ Hop C1 E1)|destruct Hop as [X1 X2], (exact_value _ _ _ _ _ X1 C1 E1) as [? [?|[? Ht1]]], (exact_value _ _ _ _ _ X2 C2 E2) as [? [?|[? Ht2]]]; try (by split_and!)].
    all: unfold c_binop in Er; rewrite ?Ht1, ?Ht2 in Er; by destruct (type_of e1), (type_of e2). }
  destruct (binop_agrees _ w _ _ _ _ _ Er Ha) as (r' & E' & Hr). rewrite E'. cbn [mbind option_bind]. do 2 f_equal. by apply view_same.
Qed.

Lemma c_args_agree args : Forall agrees args -> foldr (fun a q => well_typed a /\ has a Long /\ q) True args -> foldr (fun a q => c_ok a /\ q) True args ->
  forall b vs b', c_args args b = Some (vs, b') -> eval_args args b = Some (vs, b').
Proof.
  induction 1 as [|a args Ha _ IH]; cbn [foldr c_args eval_args]; intros W C b vs b' E; [done|]. destruct W as (Wa & Hl & W), C as (Ca & C).
  inv_bind E p1 E1. destruct p1 as [v b1]. inv_bind E p2 E2. destruct p2 as [vs' b2]. injection E as <- <-.
  rewrite (Ha Wa Ca _ _ _ E1). cbn [mbind option_bind]. rewrite (IH W C _ _ _ E2). cbn [mbind option_bind]. do 3 f_equal.
  assert (known a = Long) as -> by (unfold has, le in Hl; by destruct (known a)). by apply wrap_s32.
Qed.

Lemma inc_agrees inc w t v r : c_width t = Some w -> step t = 1 -> c_binop (inc_op inc) t v (Scalar finsh_type_int) 1 = Some r ->
  exists r', bop_fun (inc_op inc) (view w v) 1 = Some r' /\ same w r' r.
Proof.
  intros Hw Hs E. destruct (binop_agrees _ w _ _ _ _ _ E) as (r' & E' & H); [by destruct inc|]. rewrite (small_view w 1) in E' by lia. by exists r'.
Qed.

Lemma expr_agrees e : agrees e.
Proof.
  induction e as [c|k z|i|i|op e1 e2 IH1 IH2|e IH|e IH|i e IH|e1 e2 IH1 IH2|inc p|inc p|f args IH] using expr_ind'; intros W C b v b' E.
  - cbn [c_eval eval known dt] in *. injection E as <- <-. do 2 f_equal. symmetry. apply (view_view Byte Byte). lia.
  - apply (inj Some) in E as [= <- <-]. cbn [eval known]. do 2 f_equal. apply (view_same Long). symmetry. apply wide_convert. by destruct k.
  - cbn [c_eval eval known dt] in *. inv_bind E x Ex. injection E as <- <-. destruct (c_load_same _ _ _ _ _ (ident_c_width i W) Ex) as [-> _]. done.
  - cbn [c_eval eval known] in *. injection E as <- <-. do 2 f_equal. apply (view_same Long). symmetry. apply same_u32.
  - by eapply bin_agrees.
  - destruct W as [W Hd]. cbn [c_eval] in E. inv_bind E p1 E1. destruct p1 as [v1 b1]. destruct (type_of e) as [t|] eqn:Et; [|done].
    apply (inj Some) in E as [= <- <-]. cbn [eval]. rewrite (IH W C _ _ _ E1). cbn [mbind option_bind]. do 2 f_equal. change (known (ENot e)) with (opt_width e).
    apply view_same. cbn [type_of]. by rewrite promoted_convert, (view_view _ _ v1 (opt_width_known e)), same_view.
  - destruct W as (W & Hd & Hl), C as [C Hw]. cbn [c_eval] in E. inv_bind E p1 E1. destruct p1 as [a b1]. inv_bind E x Ex. injection E as <- <-.
    cbn [eval]. rewrite (IH W C _ _ _ E1). cbn [mbind option_bind].
    destruct (c_load_same _ _ _ _ _ Hw Ex) as [Ey _]. assert (known e = Long) as -> by (unfold has, le in Hl; by destruct (known e)).
    cbn [view]. rewrite wrap_s32, Ey. done.
  - destruct W as (Wi & W & Hh). cbn [c_eval] in E. inv_bind E p1 E1. destruct p1 as [v1 b1]. inv_bind E b2 E2. apply (inj Some) in E as [= <- <-].
    pose proof (ident_c_width i Wi) as Hw. cbn [eval]. rewrite (IH W C _ _ _ E1). cbn [mbind option_bind]. rewrite view_view by done.
    rewrite (c_store_same _ _ _ v1 _ _ _ Hw (same_view _ _) E2). cbn [mbind option_bind]. do 2 f_equal. change (known (EAssign i e)) with (ident_width i).
    apply view_same. symmetry. by apply same_convert.
  - destruct W as (W1 & W2 & Hl & w & Ew & Hh), C as (C1 & C2 & Hw). assert (opt_width e1 = w) as Eo by (unfold opt_width; by rewrite Ew). cbn [c_eval] in E.
    inv_bind E p1 E1. destruct p1 as [a b1]. inv_bind E p2 E2. destruct p2 as [v1 b2]. inv_bind E b3 E3. apply (inj Some) in E as [= <- <-].
    cbn [eval]. rewrite (IH1 W1 C1 _ _ _ E1). cbn [mbind option_bind]. rewrite (IH2 W2 C2 _ _ _ E2). cbn [mbind option_bind].
    assert (known e1 = Long) as -> by (unfold has, le in Hl; by destruct (known e1)). cbn [view]. rewrite wrap_s32, Eo in *. rewrite view_view by done.
    rewrite (c_store_same _ _ _ v1 _ _ _ Hw (same_view _ _) E3). cbn [mbind option_bind]. do 2 f_equal. change (known (EStore e1 e2)) with (opt_width e1). rewrite Eo.
    apply view_same. symmetry. by apply same_convert.
  - destruct W as [W _]. pose proof (ident_c_width (Var p) W) as Hw. cbn [ident_type] in Hw. cbn [c_eval] in E. inv_bind E x Ex. inv_bind E r Er. inv_bind E b1 Eb. apply (inj Some) in E as [= <- <-].
    destruct (c_load_same _ _ _ _ _ Hw Ex) as [Ey _], (inc_agrees inc _ _ _ _ Hw C Er) as (r' & Er' & Hr).
    cbn [eval]. rewrite Ey. cbn [mbind option_bind]. rewrite Er'. cbn [mbind option_bind].
    rewrite (c_store_same _ _ _ r _ _ _ Hw (transitivity (same_view _ _) Hr) Eb). cbn [mbind option_bind]. do 2 f_equal. change (known (EPre inc p)) with (ident_width (Var p)).
    apply view_same. rewrite Hr. symmetry. by apply same_convert.
  - destruct W as [W _]. pose proof (ident_c_width (Var p) W) as Hw. cbn [ident_type] in Hw. cbn [c_eval] in E. inv_bind E x Ex. inv_bind E r Er. inv_bind E b1 Eb. injection E as <- <-.
    destruct (c_load_same _ _ _ _ _ Hw Ex) as [Ey _], (inc_agrees inc _ _ _ _ Hw C Er) as (r' & Er' & Hr).
    cbn [eval]. rewrite Ey. cbn [mbind option_bind]. rewrite Er'. cbn [mbind option_bind].
    by rewrite (c_store_same _ _ _ r _ _ _ Hw (transitivity (same_view _ _) Hr) Eb).
  - destruct W as (_ & _ & W). cbn [c_eval] in E.
    inv_bind E p1 E1. destruct p1 as [vs b1]. inv_bind E p2 E2. destruct p2 as [r b2]. injection E as <- <-.
    pose proof (c_args_agree args IH W C _ _ _ E1) as Ea. cbn [eval known]. 
    change (('(vs, b) ← eval_args args b; '(r, b) ← func (syscall_func f) (arguments vs) b; Some (s32 r, b)) = Some (view Long (s32 r), b2)).
    rewrite Ea. cbn [mbind option_bind]. rewrite E2. cbn [mbind option_bind]. do 2 f_equal. symmetry. apply (view_view Long Long). lia.
Qed.

Lemma lines_agree es : Forall well_typed es -> Forall c_ok es -> forall b v b', c_eval_all es b = Some (v, b') -> eval_all es b = Some (view (known_last es) v, b').
Proof.
  induction 1 as [|e es He _ IH]; intros C b v b' E; [done|]. apply Forall_cons in C as [Ce C]. cbn [c_eval_all eval_all known_last] in *.
  destruct es as [|e' es]; [by apply expr_agrees|]. inv_bind E p1 E1. destruct p1 as [v1 b1].
  rewrite (expr_agrees e He Ce _ _ _ E1). cbn [mbind option_bind]. by apply IH.
Qed.
End agrees.
