(* ===== verification/FinshToken.v ===== *)
(** * FinshToken: the tokens of a line of the shell

    components/finsh/finsh_token.c.  A line is the characters in front of its
    terminator; [string] is the buffer of 128 characters that identifiers and
    strings are put into, behind which a write is undefined.  A character is
    signed.  The error number of the shell is part of the state.  The loops take as
    much fuel as the line has characters: each turn takes one of them. *)

From S2P Require Import Prelude Bytes FinshVm FinshCompiler.

Inductive finsh_token_type :=
  | finsh_token_type_none
  | finsh_token_type_left_paren | finsh_token_type_right_paren | finsh_token_type_comma | finsh_token_type_semicolon
  | finsh_token_type_mul | finsh_token_type_add | finsh_token_type_inc | finsh_token_type_sub | finsh_token_type_dec
  | finsh_token_type_div | finsh_token_type_mod | finsh_token_type_assign
  | finsh_token_type_and | finsh_token_type_or | finsh_token_type_xor | finsh_token_type_bitwise
  | finsh_token_type_shl | finsh_token_type_shr | finsh_token_type_comments
  | finsh_token_type_void | finsh_token_type_char | finsh_token_type_short | finsh_token_type_int | finsh_token_type_long
  | finsh_token_type_unsigned
  | finsh_token_type_value_char | finsh_token_type_value_int | finsh_token_type_value_long | finsh_token_type_value_string
  | finsh_token_type_value_null
  | finsh_token_type_identifier | finsh_token_type_bad | finsh_token_type_eof.
#[export] Instance token_type_eq_dec : EqDecision finsh_token_type.
Proof. solve_decision. Defined.

Definition FINSH_STRING_MAX : nat := 128.
Definition FINSH_ERROR_EXPECT_CHAR : Z := 9.
Definition FINSH_ERROR_UNEXPECT_END : Z := 10.
Definition FINSH_ERROR_UNKNOWN_TOKEN : Z := 11.

Record finsh_token := Token {
  eof : bool;
  replay : bool;
  position : nat;
  current_token : finsh_token_type;
  tvalue : Z;
  string : list Z;
  line : list Z;
  terrno : Z
}.
Abbreviation TM := (M finsh_token).

Definition set_eof (b : bool) (s : finsh_token) : finsh_token := Token b (replay s) (position s) (current_token s) (tvalue s) (string s) (line s) (terrno s).
Definition set_replay (b : bool) (s : finsh_token) : finsh_token := Token (eof s) b (position s) (current_token s) (tvalue s) (string s) (line s) (terrno s).
Definition set_position (n : nat) (s : finsh_token) : finsh_token := Token (eof s) (replay s) n (current_token s) (tvalue s) (string s) (line s) (terrno s).
Definition set_current (t : finsh_token_type) (s : finsh_token) : finsh_token := Token (eof s) (replay s) (position s) t (tvalue s) (string s) (line s) (terrno s).
Definition set_value (v : Z) (s : finsh_token) : finsh_token := Token (eof s) (replay s) (position s) (current_token s) v (string s) (line s) (terrno s).
Definition set_string (l : list Z) (s : finsh_token) : finsh_token := Token (eof s) (replay s) (position s) (current_token s) (tvalue s) l (line s) (terrno s).
Definition set_errno (e : Z) (s : finsh_token) : finsh_token := Token (eof s) (replay s) (position s) (current_token s) (tvalue s) (string s) (line s) e.

Definition finsh_token_init (l : list Z) (e : Z) : finsh_token := Token false false 0 finsh_token_type_none 0 (replicate FINSH_STRING_MAX 0) l e.

(** [self->string[p] = c] *)
Definition put_string (p : nat) (c : Z) : TM unit := fun s =>
  if decide (p < length (string s))%nat then Some (tt, set_string (<[p := u8 c]> (string s)) s) else None.

(** ** The classes of characters *)

Definition is_alpha (ch : Z) : Prop := u32 (Z.lor ch 32 - 97) < 26.
Definition is_digit (ch : Z) : Prop := 48 <= ch <= 57.
Definition is_xdigit (ch : Z) : Prop := is_digit ch \/ u32 (Z.lor ch 32 - 97) < 6.
Definition is_octal (ch : Z) : Prop := u32 (ch - 48) < 8.
Definition is_separator (ch : Z) : Prop := ~ (97 <= ch <= 122 \/ 65 <= ch <= 90 \/ 48 <= ch <= 57 \/ ch = 95).
#[export] Instance is_alpha_dec ch : Decision (is_alpha ch).
Proof. unfold is_alpha. apply _. Defined.
#[export] Instance is_digit_dec ch : Decision (is_digit ch).
Proof. unfold is_digit. apply _. Defined.
#[export] Instance is_xdigit_dec ch : Decision (is_xdigit ch).
Proof. unfold is_xdigit. apply _. Defined.
#[export] Instance is_octal_dec ch : Decision (is_octal ch).
Proof. unfold is_octal. apply _. Defined.
#[export] Instance is_separator_dec ch : Decision (is_separator ch).
Proof. unfold is_separator. apply _. Defined.

(** ** Characters *)

(** Behind the line the position is 0 again. *)
Definition token_next_char : TM Z := fun s =>
  if eof s then Some (0, s)
  else match line s !! position s with
  | Some c => if decide (c = 10) then Some (0, set_position 0 (set_eof true s)) else Some (s8 c, set_position (S (position s)) s)
  | None => Some (0, set_position 0 (set_eof true s))
  end.
Definition token_prev_char : TM unit := modify (fun s => if eof s then s else set_position (position s - 1) s).

Fixpoint trim_loop (fuel : nat) : TM unit :=
  ch ← token_next_char;
  if decide (ch = 32 \/ ch = 9 \/ ch = 13) then
    match fuel with O => halt | S fuel => trim_loop fuel end
  else mret tt.
Definition token_trim_space : TM unit :=
  fuel ← gets (fun s => length (line s));
  trim_loop fuel;;
  token_prev_char.

(** Characters as long as they are wanted: each is given to [f]; the result is the
    first one that is not.  The escapes and the numbers are read so. *)
Fixpoint read_while {A} (want : Z -> bool) (f : A -> Z -> TM A) (fuel : nat) (a : A) (ch : Z) : TM (A * Z) :=
  if want ch then
    match fuel with
    | O => halt
    | S fuel => a ← f a ch; ch ← token_next_char; read_while want f fuel a ch
    end
  else mret (a, ch).
Definition reading {A} (want : Z -> bool) (f : A -> Z -> TM A) (a : A) (ch : Z) : TM (A * Z) :=
  fuel ← gets (fun s => length (line s));
  read_while want f (S fuel) a ch.

(** ** Identifiers *)

Fixpoint get_string_loop (fuel p : nat) (ch : Z) : TM nat :=
  e ← gets eof;
  if decide (~ is_separator ch /\ e = false) then
    match fuel with
    | O => halt
    | S fuel => put_string p ch;; ch ← token_next_char; get_string_loop fuel (S p) ch
    end
  else mret p.

Definition token_get_string : TM unit :=
  ch ← token_next_char;
  e ← gets eof;
  if (e : bool) then mret tt
  else
    put_string 0 0;;
    if decide (is_digit ch) then token_prev_char
    else
      fuel ← gets (fun s => length (line s));
      p ← get_string_loop (S fuel) 0 ch;
      modify (set_eof false);;
      token_prev_char;;
      put_string p 0.

(** The C string in a buffer; without a terminator it is undefined. *)
Fixpoint c_string (l : list Z) : option (list Z) :=
  match l with
  | [] => None
  | c :: l => if decide (c = 0) then Some [] else r ← c_string l; Some (c :: r)
  end.

(** [finsh_name_table] *)
Definition finsh_name_table : list (list Z * finsh_token_type) :=
  [([118; 111; 105; 100], finsh_token_type_void); ([99; 104; 97; 114], finsh_token_type_char);
   ([115; 104; 111; 114; 116], finsh_token_type_short); ([105; 110; 116], finsh_token_type_int);
   ([108; 111; 110; 103], finsh_token_type_long); ([117; 110; 115; 105; 103; 110; 101; 100], finsh_token_type_unsigned);
   ([78; 85; 76; 76], finsh_token_type_value_null); ([110; 117; 108; 108], finsh_token_type_value_null)].
Definition token_match_name (str : list Z) : option finsh_token_type := snd <$> find (fun e => bool_decide (fst e = str)) finsh_name_table.

(** ** Escapes *)

(** The digits are skipped: the number is read of the empty string behind them. *)
Definition token_proc_char : TM Z :=
  ch ← token_next_char;
  ch ← (if decide (ch = 92) then
          ch ← token_next_char;
          if decide (ch = 110) then mret 10 else if decide (ch = 116) then mret 9 else if decide (ch = 118) then mret 11
          else if decide (ch = 98) then mret 8 else if decide (ch = 114) then mret 13 else if decide (ch = 92) then mret 92
          else if decide (ch = 39) then mret 39
          else
            '(n, _) ← reading (fun ch => bool_decide (is_digit ch)) (fun (n : nat) _ => mret (S n)) 0%nat ch;
            token_prev_char;;
            if decide (n < 4)%nat then mret 0 else undefined
        else mret ch);
  c ← token_next_char;
  if decide (c = 39) then mret ch
  else
    token_prev_char;;
    modify (set_errno FINSH_ERROR_EXPECT_CHAR);;
    mret ch.

Definition token_proc_escape : TM Z :=
  ch ← token_next_char;
  if decide (ch = 110) then mret 10 else if decide (ch = 116) then mret 9 else if decide (ch = 118) then mret 11
  else if decide (ch = 98) then mret 8 else if decide (ch = 114) then mret 13 else if decide (ch = 102) then mret 12
  else if decide (ch = 97) then mret 7 else if decide (ch = 34) then mret 34
  else if decide (ch = 120 \/ ch = 88) then
    ch ← token_next_char;
    '(result, _) ← reading (fun ch => bool_decide (is_xdigit ch))
      (fun result ch => mret (s32 (result * 16 + (if decide (ch < 65) then ch - 48 else Z.lor ch 32 - 97 + 10)))) 0 ch;
    token_prev_char;;
    mret result
  else if decide (is_octal ch) then
    '(result, _) ← reading (fun ch => bool_decide (is_octal ch)) (fun result ch => mret (s32 (result * 8 + ch - 48))) 0 ch;
    token_prev_char;;
    mret result
  else mret 0.

(** [p] counts from the buffer; a string that fills it has no terminator. *)
Fixpoint proc_string_loop (fuel p : nat) : TM unit :=
  if decide (p < FINSH_STRING_MAX)%nat then
    match fuel with
    | O => halt
    | S fuel =>
      ch ← token_next_char;
      e ← gets eof;
      if (e : bool) then modify (set_errno FINSH_ERROR_UNEXPECT_END)
      else if decide (ch = 92) then ch ← token_proc_escape; put_string p ch;; proc_string_loop fuel (S p)
      else if decide (ch = 34) then put_string p 0
      else put_string p ch;; proc_string_loop fuel (S p)
    end
  else mret tt.
Definition token_proc_string : TM unit := proc_string_loop FINSH_STRING_MAX 0.

(** ** Numbers *)

(** One digit of [token_spec_number]: it is shifted into the words of [bn]. *)
Definition spec_digit (t : Z) : Z := if decide (97 <= t <= 102) then t - 97 + 10 else if decide (65 <= t <= 70) then t - 65 + 10 else t - 48.
Fixpoint shift_in (shift : Z) (t : Z) (bn : list Z) : list Z :=
  match bn with
  | [] => []
  | v :: bn => u32 (Z.lor (u32 (Z.shiftl v shift)) t) :: shift_in shift (Z.shiftr v (32 - shift)) bn
  end.
Definition spec_shift (b : Z) : Z := if decide (b = 16) then 4 else if decide (b = 8) then 3 else 1.
(** [BN_SIZE] is 2; the lower word is the result. *)
Definition token_spec_number (str : list Z) (b : Z) : Z :=
  s32 (default 0 (head (foldl (fun bn c => shift_in (spec_shift b) (spec_digit c) bn) [0; 0] str))).

(** Digits into [buf[128]], whose last place is for the terminator. *)
Definition read_digits (want : Z -> bool) (ch : Z) : TM (list Z * Z) :=
  '(buf, ch) ← reading want (fun buf ch => mret (buf ++ [ch])) [] ch;
  if decide (length buf < 128)%nat then mret (buf, ch) else undefined.

(** The character behind a number may be a suffix. *)
Definition number_suffix (ch : Z) : TM unit :=
  if decide (ch = 108 \/ ch = 76) then modify (set_current finsh_token_type_value_long)
  else token_prev_char.
Definition int_value (v ch : Z) : TM unit :=
  modify (set_value v);;
  modify (set_current finsh_token_type_value_int);;
  number_suffix ch.

Definition token_proc_number : TM unit :=
  ch ← token_next_char;
  if decide (ch = 48) then
    ch ← token_next_char;
    if decide (ch = 120 \/ ch = 88) then
      ch ← token_next_char;
      '(buf, ch) ← read_digits (fun ch => bool_decide (is_digit ch \/ is_alpha ch)) ch;
      int_value (token_spec_number buf 16) ch
    else if decide (ch = 98 \/ ch = 66) then
      ch ← token_next_char;
      '(buf, ch) ← read_digits (fun ch => bool_decide (ch = 48 \/ ch = 49)) ch;
      int_value (token_spec_number buf 2) ch
    else if decide (48 <= ch <= 55) then
      '(buf, ch) ← read_digits (fun ch => bool_decide (48 <= ch <= 55)) ch;
      int_value (token_spec_number buf 8) ch
    else
      token_prev_char;;
      modify (set_value 0);;
      modify (set_current finsh_token_type_value_int)
  else
    '(value, ch) ← reading (fun ch => bool_decide (is_digit ch)) (fun value ch => mret (s32 (value * 10 + (ch - 48)))) 0 ch;
    int_value value ch.

(** ** Tokens *)

Definition single_token (ch : Z) : option finsh_token_type :=
  if decide (ch = 40) then Some finsh_token_type_left_paren else if decide (ch = 41) then Some finsh_token_type_right_paren
  else if decide (ch = 44) then Some finsh_token_type_comma else if decide (ch = 59) then Some finsh_token_type_semicolon
  else if decide (ch = 38) then Some finsh_token_type_and else if decide (ch = 42) then Some finsh_token_type_mul
  else if decide (ch = 124) then Some finsh_token_type_or else if decide (ch = 37) then Some finsh_token_type_mod
  else if decide (ch = 126) then Some finsh_token_type_bitwise else if decide (ch = 94) then Some finsh_token_type_xor
  else if decide (ch = 61) then Some finsh_token_type_assign else None.

(** The token of the character twice, and the one of it alone. *)
Definition double_token (ch : Z) : option (finsh_token_type * finsh_token_type) :=
  if decide (ch = 43) then Some (finsh_token_type_inc, finsh_token_type_add)
  else if decide (ch = 45) then Some (finsh_token_type_dec, finsh_token_type_sub)
  else if decide (ch = 47) then Some (finsh_token_type_eof, finsh_token_type_div)
  else if decide (ch = 60) then Some (finsh_token_type_shl, finsh_token_type_bad)
  else if decide (ch = 62) then Some (finsh_token_type_shr, finsh_token_type_bad)
  else None.

Definition operator_token (ch : Z) : TM unit :=
  match single_token ch, double_token ch with
  | Some t, _ => modify (set_current t)
  | None, Some (twice, once) =>
    ch' ← token_next_char;
    if decide (ch' = ch) then modify (set_current twice) else token_prev_char;; modify (set_current once)
  | None, None =>
    if decide (ch = 39) then
      c ← token_proc_char;
      modify (fun s => set_value (put Byte c (tvalue s)) s);;
      modify (set_current finsh_token_type_value_char)
    else if decide (ch = 34) then
      token_proc_string;;
      modify (set_current finsh_token_type_value_string)
    else if decide (is_digit ch) then
      token_prev_char;;
      token_proc_number
    else
      modify (set_errno FINSH_ERROR_UNKNOWN_TOKEN);;
      modify (set_current finsh_token_type_bad)
  end.

Definition token_run : TM unit :=
  token_trim_space;;
  token_get_string;;
  e ← gets eof;
  if (e : bool) then modify (set_current finsh_token_type_eof)
  else
    str ← deref (fun s => c_string (string s));
    if decide (str <> []) then
      modify (set_current (default finsh_token_type_identifier (token_match_name str)))
    else
      ch ← token_next_char;
      operator_token ch.

Definition finsh_token_token : TM finsh_token_type :=
  r ← gets replay;
  (if (r : bool) then modify (set_replay false) else token_run);;
  gets current_token.
Definition finsh_token_replay : TM unit := modify (set_replay true).
