(* ===== verification/FinshHeap.v ===== *)
(** * FinshHeap: the heap that the strings of the shell are in

    components/finsh/finsh_heap.c: 128 bytes in memory, in which a block is a
    header of two words (its length and the next block of its list) and its data.
    The free blocks and the allocated ones are two lists.  The collector frees the
    allocated blocks that no variable points to.  A pointer is an address, and 0
    is NULL; a loop over a list has fuel for each block that the heap can have. *)

From S2P Require Import Prelude Bytes KString FinshVm.

Definition FINSH_HEAP_MAX : Z := 128.
Definition HEADER : Z := 8.
Definition HEAP_ALIGN_SIZE (size : Z) : Z := Z.land (u32 (size + 3)) (Z.lnot 3).
(** The blocks of a heap of 128 bytes, each with a header. *)
Definition BLOCKS : nat := 16.

Record heap := Heap { free_list : Z; allocate_list : Z; heap_mem : mem }.
Abbreviation HM := (M heap).
Inductive which := Free | Allocated.
Definition list_head (w : which) (s : heap) : Z := match w with Free => free_list s | Allocated => allocate_list s end.
Definition set_list (w : which) (p : Z) (s : heap) : heap :=
  match w with Free => Heap p (allocate_list s) (heap_mem s) | Allocated => Heap (free_list s) p (heap_mem s) end.
Definition set_mem (f : mem -> mem) (s : heap) : heap := Heap (free_list s) (allocate_list s) (f (heap_mem s)).

(** [p->length] and [p->next]; a NULL pointer is not dereferenced. *)
Definition word_at (p : Z) : HM Z := deref (fun s => if decide (p = 0) then None else Some (load32 p (heap_mem s))).
Definition get_length (p : Z) : HM Z := word_at p.
Definition get_next (p : Z) : HM Z := if decide (p = 0) then undefined else word_at (p + 4).
Definition set_length (p v : Z) : HM unit := if decide (p = 0) then undefined else modify (set_mem (store32 p (u32 v))).
Definition set_next (p v : Z) : HM unit := if decide (p = 0) then undefined else modify (set_mem (store32 (p + 4) (u32 v))).

Section heap.
(** The array of bytes, and the variables that have been declared: where their values are. *)
Context (finsh_heap : Z) (variables : list Z).

Definition finsh_heap_init : HM unit :=
  modify (set_mem (fun b => rt_memset finsh_heap 0 FINSH_HEAP_MAX b));;
  modify (set_list Free finsh_heap);;
  set_length finsh_heap (FINSH_HEAP_MAX - HEADER);;
  set_next finsh_heap 0;;
  modify (set_list Allocated 0).

(** The place in the list behind which a block is inserted. *)
Fixpoint insert_point (fuel : nat) (node header : Z) : HM Z :=
  match fuel with
  | O => halt
  | S fuel =>
    next ← get_next node;
    if decide (header < next \/ next = 0) then mret node else insert_point fuel next header
  end.
Definition finsh_block_insert (w : which) (header : Z) : HM unit :=
  node ← gets (list_head w);
  if decide (node = 0) then modify (set_list w header)
  else if decide (header < node) then set_next header node;; modify (set_list w header)
  else
    node ← insert_point BLOCKS node header;
    next ← get_next node;
    when (bool_decide (next <> 0)) (set_next header next);;
    set_next node header.

(** The block in front of [header], NULL if there is none. *)
Fixpoint find_previous (fuel : nat) (node header : Z) : HM Z :=
  if decide (node = 0) then mret 0
  else match fuel with
  | O => halt
  | S fuel => next ← get_next node; if decide (next = header) then mret node else find_previous fuel next header
  end.
Definition finsh_block_remove (w : which) (header : Z) : HM unit :=
  node ← gets (list_head w);
  if decide (node = header) then
    next ← get_next header;
    modify (set_list w next);;
    set_next header 0
  else
    node ← find_previous BLOCKS node header;
    if decide (node = 0) then mret tt
    else next ← get_next header; set_next node next.

Definition finsh_block_split (header size : Z) : HM unit :=
  let next := header + HEADER + size in
  length ← get_length header;
  set_length next (length - HEADER - size);;
  set_length header size;;
  old ← get_next header;
  set_next next old;;
  set_next header next.

Definition finsh_block_merge (w : which) (header : Z) : HM unit :=
  next_node ← get_next header;
  head ← gets (list_head w);
  prev_node ← (if decide (head = header) then mret 0 else find_previous BLOCKS head header);
  length ← get_length header;
  let next_is_close := bool_decide (next_node <> 0 /\ header + length + HEADER = next_node) in
  prev_length ← (if decide (prev_node = 0) then mret 0 else get_length prev_node);
  if decide (prev_node <> 0 /\ prev_node + prev_length + HEADER = header) then
    if next_is_close then
      next_length ← get_length next_node;
      set_length prev_node (prev_length + (length + next_length + 2 * HEADER));;
      next ← get_next next_node;
      set_next prev_node next
    else
      set_length prev_node (prev_length + (length + HEADER));;
      set_next prev_node next_node
  else if next_is_close then
    next_length ← get_length next_node;
    set_length header (length + (next_length + HEADER));;
    next ← get_next next_node;
    set_next header next
  else mret tt.

(** [header] is the block; the pointer that is given is behind the header. *)
Definition finsh_heap_free (ptr : Z) : HM unit :=
  let header := ptr - HEADER in
  finsh_block_remove Allocated header;;
  finsh_block_insert Free header;;
  finsh_block_merge Free header.

Fixpoint gc_loop (fuel : nat) (header : Z) : HM unit :=
  if decide (header = 0) then mret tt
  else match fuel with
  | O => halt
  | S fuel =>
    used ← gets (fun s => existsb (fun a => bool_decide (load32 a (heap_mem s) = u32 (header + HEADER))) variables);
    next ← get_next header;
    when (negb used) (finsh_heap_free (header + HEADER));;
    gc_loop fuel next
  end.
Definition finsh_heap_gc : HM unit :=
  header ← gets allocate_list;
  gc_loop BLOCKS header.

(** "find the first fit block" *)
Fixpoint find_fit (fits : Z -> bool) (fuel : nat) (header : Z) : HM Z :=
  if decide (header = 0) then mret 0
  else match fuel with
  | O => halt
  | S fuel => length ← get_length header; if fits length then mret header else next ← get_next header; find_fit fits fuel next
  end.

Definition finsh_heap_allocate (size : Z) : HM Z :=
  let size := HEAP_ALIGN_SIZE size in
  first ← gets free_list;
  header ← find_fit (fun length => bool_decide (u32 (size + HEADER) < length)) BLOCKS first;
  header ← (if decide (header = 0) then
              finsh_heap_gc;;
              first ← gets free_list;
              find_fit (fun length => bool_decide (u32 (size + HEADER) <= length)) BLOCKS first
            else mret header);
  if decide (header = 0) then mret 0
  else
    finsh_block_split header size;;
    finsh_block_remove Free header;;
    set_next header 0;;
    finsh_block_insert Allocated header;;
    modify (set_mem (rt_memset (header + HEADER) 0 size));;
    mret (header + HEADER).
End heap.

(** ** The two lists, as they are in memory: the headers and the lengths *)

Fixpoint blocks (fuel : nat) (p : Z) (b : mem) : list (Z * Z) :=
  match fuel with
  | O => []
  | S fuel => if decide (p = 0) then [] else (p, load32 p b) :: blocks fuel (load32 (p + 4) b) b
  end.
Definition lists (s : heap) : list (Z * Z) * list (Z * Z) :=
  (blocks BLOCKS (free_list s) (heap_mem s), blocks BLOCKS (allocate_list s) (heap_mem s)).
