(* ===== verification/FinshLex.v ===== *)
(** * FinshLex: how tokens are spelled

    What the texts of the tokens are, and that [token_run] finds each of them,
    behind blanks and in front of a character that ends it. *)

From S2P Require Import Prelude Bytes FinshVm FinshCompiler FinshToken.

(** A token with what it stands for. *)
Inductive tok :=
  | TOp (t : finsh_token_type)
  | TId (name : list Z)
  | TInt (v : Z)
  | TLong (v : Z)
  | TChar (c : Z)
  | TNull.

Definition kind (x : tok) : finsh_token_type :=
  match x with
  | TOp t => t | TId _ => finsh_token_type_identifier | TInt _ => finsh_token_type_value_int | TLong _ => finsh_token_type_value_long
  | TChar _ => finsh_token_type_value_char | TNull => finsh_token_type_value_null
  end.

Definition op_text (t : finsh_token_type) : option (list Z) :=
  match t with
  | finsh_token_type_left_paren => Some [40] | finsh_token_type_right_paren => Some [41] | finsh_token_type_comma => Some [44]
  | finsh_token_type_semicolon => Some [59] | finsh_token_type_mul => Some [42] | finsh_token_type_add => Some [43]
  | finsh_token_type_inc => Some [43; 43] | finsh_token_type_sub => Some [45] | finsh_token_type_dec => Some [45; 45]
  | finsh_token_type_div => Some [47] | finsh_token_type_mod => Some [37] | finsh_token_type_assign => Some [61]
  | finsh_token_type_and => Some [38] | finsh_token_type_or => Some [124] | finsh_token_type_xor => Some [94]
  | finsh_token_type_bitwise => Some [126] | finsh_token_type_shl => Some [60; 60] | finsh_token_type_shr => Some [62; 62]
  | _ => None
  end.

(** A name that is not a keyword, and for which there is room. *)
Definition identifier (name : list Z) : Prop :=
  (0 < length name < 16)%nat /\ Forall (fun c => ~ is_separator c) name /\ (forall c, head name = Some c -> ~ is_digit c) /\ token_match_name name = None.
Definition decimal (ds : list Z) : Z := foldl (fun v c => s32 (v * 10 + (c - 48))) 0 ds.
Definition hex_digit (c : Z) : Prop := 48 <= c <= 57 \/ 97 <= c <= 102 \/ 65 <= c <= 70.
Definition hexadecimal (ds : list Z) : Z := foldl (fun v c => u32 (16 * v + spec_digit c)) 0 ds.

Inductive spelling : tok -> list Z -> Prop :=
  | sp_op t l : op_text t = Some l -> spelling (TOp t) l
  | sp_id name : identifier name -> spelling (TId name) name
  | sp_null : spelling TNull [78; 85; 76; 76]
  | sp_char c : 32 <= c < 127 -> c <> 39 -> c <> 92 -> spelling (TChar c) [39; c; 39]
  | sp_zero : spelling (TInt 0) [48]
  | sp_int d ds : is_digit d -> d <> 48 -> Forall is_digit ds -> spelling (TInt (decimal (d :: ds))) (d :: ds)
  | sp_long d ds : is_digit d -> d <> 48 -> Forall is_digit ds -> spelling (TLong (decimal (d :: ds))) (d :: ds ++ [76])
  | sp_hex ds : (length ds < 128)%nat -> Forall hex_digit ds -> spelling (TInt (s32 (hexadecimal ds))) (48 :: 120 :: ds).

(** What may be behind a token: a word ends with a separator, and a sign is not doubled. *)
Definition ends (x : tok) (next : option Z) : Prop :=
  match x with
  | TOp t =>
    match t with
    | finsh_token_type_add | finsh_token_type_sub | finsh_token_type_div => exists c, next = Some c /\ op_text t <> Some [c]
    | _ => True
    end
  | TChar _ => True
  | _ => exists c, next = Some c /\ is_separator c
  end.

Definition blank (c : Z) : Prop := c = 32 \/ c = 9 \/ c = 13.

(** A text of these tokens, up to the end of the line. *)
Inductive spells : list Z -> list tok -> Prop :=
  | spells_nil ws : Forall blank ws -> spells ws []
  | spells_cons ws x l rest xs : Forall blank ws -> spelling x l -> ends x (head rest) -> spells rest xs -> spells (ws ++ l ++ rest) (x :: xs).

(** ** Reading *)

(** [rest] is in front of the machine, in a line of characters. *)
Definition in_line (c : Z) : Prop := 0 < c < 128 /\ c <> 10.
Record reads (t : finsh_token) (rest : list Z) : Prop := {
  reads_eof : eof t = false;
  reads_replay : replay t = false;
  reads_rest : drop (position t) (line t) = rest;
  reads_line : Forall in_line (line t);
  reads_string : length (string t) = FINSH_STRING_MAX
}.

#[export] Instance in_line_dec c : Decision (in_line c).
Proof. unfold in_line. apply _. Defined.
#[export] Instance blank_dec c : Decision (blank c).
Proof. unfold blank. apply _. Defined.

(** The token [n] characters on. *)
Definition advance (n : nat) (t : finsh_token) : finsh_token := set_position (position t + n) t.

Lemma reads_advance t l rest : reads t (l ++ rest) -> reads (advance (length l) t) rest.
Proof. intros [He Hr Hd Hl Hs]. split; try done. cbn. by rewrite <- drop_drop, Hd, drop_app_length. Qed.

Lemma reads_next t c rest : reads t (c :: rest) -> reads (advance 1 t) rest.
Proof. exact (reads_advance t [c] rest). Qed.

Lemma advance_advance m n t : advance n (advance m t) = advance (m + n) t.
Proof. unfold advance, set_position. cbn. by rewrite Nat.add_assoc. Qed.

Lemma reads_char t c rest : reads t (c :: rest) -> in_line c /\ line t !! position t = Some c.
Proof.
  intros [He Hr Hd Hl Hs]. assert (line t !! position t = Some c) as E by (by rewrite <- (Nat.add_0_r (position t)), <- lookup_drop, Hd).
  split; [|done]. by eapply Forall_lookup_1.
Qed.

Lemma reads_in_line t rest : reads t rest -> Forall in_line rest.
Proof. intros [_ _ Hd Hl _]. rewrite <- Hd. by apply Forall_drop. Qed.

Lemma reads_length t rest : reads t rest -> (length rest <= length (line t))%nat.
Proof. intros [_ _ Hd _ _]. rewrite <- Hd, length_drop. lia. Qed.

Lemma next_char t c rest : reads t (c :: rest) -> token_next_char t = Some (c, advance 1 t).
Proof.
  intros R. destruct (reads_char _ _ _ R) as [[H1 H2] E]. unfold token_next_char. rewrite (reads_eof _ _ R), E, decide_False by done.
  rewrite s8_small by lia. unfold advance. by rewrite Nat.add_1_r.
Qed.

Lemma next_end t : reads t [] -> token_next_char t = Some (0, set_position 0 (set_eof true t)).
Proof.
  intros R. unfold token_next_char. rewrite (reads_eof _ _ R). destruct (line t !! position t) as [c|] eqn:E; [|done].
  pose proof (reads_rest _ _ R) as Hd. apply lookup_lt_Some in E. apply (f_equal length) in Hd. rewrite length_drop in Hd. cbn in Hd. lia.
Qed.

Lemma prev_char t n rest : reads t rest -> token_prev_char (advance (S n) t) = Some (tt, advance n t).
Proof.
  intros R. unfold token_prev_char, modify, advance. cbn [eof set_position position]. rewrite (reads_eof _ _ R). do 2 f_equal.
  unfold set_position. cbn. f_equal. lia.
Qed.

(** Blanks. *)
Lemma trim_blanks ws : forall fuel t c rest, Forall blank ws -> ~ blank c -> (length ws <= fuel)%nat -> reads t (ws ++ c :: rest) ->
  trim_loop fuel t = Some (tt, advance (S (length ws)) t).
Proof.
  induction ws as [|w ws IH]; intros fuel t c rest Hw Hc Hf R; cbn [app length] in *.
  - destruct fuel; cbn [trim_loop]; rewrite (bind_eval _ _ _ _ _ (next_char _ _ _ R)); by rewrite decide_False.
  - apply Forall_cons in Hw as [Hb Hw]. destruct fuel as [|fuel]; [lia|]. cbn [trim_loop]. rewrite (bind_eval _ _ _ _ _ (next_char _ _ _ R)).
    rewrite decide_True by done. rewrite (IH fuel _ c rest Hw Hc ltac:(lia) (reads_next _ _ _ R)). by rewrite advance_advance.
Qed.

Lemma trim_ok ws t c rest : Forall blank ws -> ~ blank c -> reads t (ws ++ c :: rest) -> token_trim_space t = Some (tt, advance (length ws) t).
Proof.
  intros Hw Hc R. unfold token_trim_space. rewrite (bind_eval _ _ _ _ _ eq_refl).
  assert (length ws <= length (line t))%nat as Hl by (apply reads_length in R; rewrite length_app in R; lia).
  rewrite (bind_eval _ _ _ _ _ (trim_blanks ws _ t c rest Hw Hc Hl R)). by eapply prev_char.
Qed.

Lemma trim_end ws : forall fuel t, Forall blank ws -> (length ws <= fuel)%nat -> reads t ws ->
  trim_loop fuel t = Some (tt, set_position 0 (set_eof true t)).
Proof.
  induction ws as [|w ws IH]; intros fuel t Hw Hf R; cbn [length] in *.
  - destruct fuel; cbn [trim_loop]; by rewrite (bind_eval _ _ _ _ _ (next_end _ R)).
  - apply Forall_cons in Hw as [Hb Hw]. destruct fuel as [|fuel]; [lia|]. cbn [trim_loop]. rewrite (bind_eval _ _ _ _ _ (next_char _ _ _ R)).
    rewrite decide_True by done. by rewrite (IH fuel _ Hw ltac:(lia) (reads_next _ _ _ R)).
Qed.

(** ** Strings *)

Lemma put_string_ok p c t : (p < length (string t))%nat -> put_string p c t = Some (tt, set_string (<[p := u8 c]> (string t)) t).
Proof. intros H. unfold put_string. by rewrite decide_True. Qed.

Lemma c_string_app name tail : Forall (fun c => c <> 0) name -> c_string (name ++ 0 :: tail) = Some name.
Proof. induction 1 as [|c name Hc _ IH]; [done|]. cbn [app c_string]. by rewrite decide_False, IH by done. Qed.

(** The buffer after something has been put into it. *)
Lemma reads_set_string t st rest : reads t rest -> length st = FINSH_STRING_MAX -> reads (set_string st t) rest.
Proof. intros [He Hr Hd Hl Hs] H. by split. Qed.

Lemma take_S_insert {A} (l : list A) p x : (p < length l)%nat -> take (S p) (<[p := x]> l) = take p l ++ [x].
Proof. intros H. rewrite (take_S_r _ _ x) by (by apply list_lookup_insert_eq). by rewrite take_insert_ge. Qed.

(** An identifier is put into the buffer, up to the separator. *)
Lemma get_string_loop_ok name : forall fuel p t c d rest, Forall (fun c => ~ is_separator c) (c :: name) -> is_separator d ->
  (length name < fuel)%nat -> (p + length name < FINSH_STRING_MAX)%nat -> reads t (name ++ d :: rest) -> 0 < c < 128 ->
  exists st, get_string_loop fuel p c t = Some ((p + S (length name))%nat, advance (S (length name)) (set_string st t)) /\
    length st = FINSH_STRING_MAX /\ take (p + S (length name)) st = take p (string t) ++ c :: name.
Proof.
  induction name as [|c' name IH]; intros fuel p t c d rest Hn Hd Hf Hp R Hc; cbn [length app] in *; (destruct fuel as [|fuel]; [lia|]);
    apply Forall_cons in Hn as [Hsep Hn]; cbn [get_string_loop]; rewrite (bind_eval _ _ _ _ _ eq_refl), decide_True by (by rewrite (reads_eof _ _ R));
    (rewrite (bind_eval _ _ _ _ _ (put_string_ok p c t ltac:(rewrite (reads_string _ _ R); lia)))); rewrite wrap_small by (unfold in_range; lia);
    set (t' := set_string (<[p := c]> (string t)) t);
    (assert (reads t' _) as R' by (apply (reads_set_string _ _ _ R); by rewrite length_insert, (reads_string _ _ R)));
    rewrite (bind_eval _ _ _ _ _ (next_char _ _ _ R')).
  - exists (<[p := c]> (string t)). split; [|split; [by rewrite length_insert, (reads_string _ _ R)|]].
    + assert (forall f, get_string_loop f (S p) d (advance 1 t') = Some (S p, advance 1 t')) as E.
      { intros f. destruct f; cbn [get_string_loop]; rewrite (bind_eval _ _ _ _ _ eq_refl), decide_False by tauto; done. }
      rewrite E. do 2 f_equal; lia.
    + rewrite Nat.add_1_r, take_S_insert by (rewrite (reads_string _ _ R); lia). done.
  - destruct (reads_char _ _ _ R) as [[Hc' _] _].
    destruct (IH fuel (S p) (advance 1 t') c' d rest Hn Hd ltac:(lia) ltac:(lia) (reads_next _ _ _ R') ltac:(lia)) as (st & E & L & T).
    exists st. split; [|split; [done|]].
    + rewrite E. do 2 f_equal; [lia|]. unfold t', advance, set_string, set_position. cbn. f_equal. lia.
    + rewrite <- Nat.add_succ_comm. rewrite T. unfold t', advance. cbn [string set_string set_position].
      rewrite take_S_insert by (rewrite (reads_string _ _ R); lia). by rewrite <- app_assoc.
Qed.

(** The C string that a terminator ends. *)
Lemma c_string_insert st n : (n < length st)%nat -> Forall (fun c => c <> 0) (take n st) -> c_string (<[n := 0]> st) = Some (take n st).
Proof. intros Hn Hz. rewrite insert_take_drop by done. by apply c_string_app. Qed.

(** The machine at a token: its string, and the text that is left. *)
Lemma get_string_word name t d rest : name <> [] -> Forall (fun c => ~ is_separator c) name -> (forall c, head name = Some c -> ~ is_digit c) ->
  (length name < FINSH_STRING_MAX)%nat -> is_separator d -> reads t (name ++ d :: rest) ->
  exists st, token_get_string t = Some (tt, advance (length name) (set_string st t)) /\ length st = FINSH_STRING_MAX /\ c_string st = Some name /\
    take (S (length name)) st = name ++ [0].
Proof.
  intros Hne Hn Hd Hl Hsep R. destruct name as [|c name]; [done|]. cbn [app length] in *. unfold token_get_string.
  rewrite (bind_eval _ _ _ _ _ (next_char _ _ _ R)), (bind_eval _ _ _ _ _ eq_refl). cbn [eof advance set_position]. rewrite (reads_eof _ _ R).
  pose proof (reads_next _ _ _ R) as R1. rewrite (bind_eval _ _ _ _ _ (put_string_ok 0 0 _ ltac:(rewrite (reads_string _ _ R1); unfold FINSH_STRING_MAX; lia))).
  rewrite decide_False by (by apply Hd). rewrite (bind_eval _ _ _ _ _ eq_refl).
  set (t1 := set_string (<[0%nat := u8 0]> (string (advance 1 t))) (advance 1 t)).
  assert (reads t1 (name ++ d :: rest)) as R2 by (apply (reads_set_string _ _ _ R1); by rewrite length_insert, (reads_string _ _ R1)).
  destruct (reads_char _ _ _ R) as [[Hc _] _].
  destruct (get_string_loop_ok name (S (length (line t1))) 0 t1 c d rest Hn Hsep) as (st & E & L & T); [|lia|done|lia|].
  { pose proof (reads_length _ _ R2) as H. rewrite length_app in H. lia. }
  rewrite (bind_eval _ _ _ _ _ E). cbn [Nat.add take app] in *. rewrite (bind_eval _ _ _ _ _ eq_refl).
  rewrite (bind_eval _ _ _ tt (advance (S (length name)) (set_string st t))).
  2:{ unfold token_prev_char, modify, t1, advance, set_eof, set_string, set_position. cbn. do 2 f_equal. rewrite (reads_eof _ _ R). f_equal. lia. }
  rewrite put_string_ok by (unfold advance; cbn; lia). change (u8 0) with 0.
  exists (<[S (length name) := 0]> st).
  assert (Forall (fun c => c <> 0) (take (S (length name)) st)) as Hz.
  { rewrite T. eapply Forall_impl; [exact Hn|]. intros x Hx ->. apply Hx. unfold is_separator. lia. }
  split; [done|]. split; [by rewrite length_insert|]. split; [rewrite c_string_insert; [by rewrite T|lia|done]|].
  rewrite take_S_insert by lia. by rewrite T.
Qed.

(** Before another token the string is empty. *)
Lemma get_string_other t c rest : is_separator c \/ is_digit c -> reads t (c :: rest) ->
  exists st, token_get_string t = Some (tt, set_string st t) /\ length st = FINSH_STRING_MAX /\ c_string st = Some [].
Proof.
  intros Hc R. unfold token_get_string. rewrite (bind_eval _ _ _ _ _ (next_char _ _ _ R)), (bind_eval _ _ _ _ _ eq_refl). cbn [eof advance set_position]. rewrite (reads_eof _ _ R).
  pose proof (reads_next _ _ _ R) as R1. rewrite (bind_eval _ _ _ _ _ (put_string_ok 0 0 _ ltac:(rewrite (reads_string _ _ R1); unfold FINSH_STRING_MAX; lia))).
  set (st := <[0%nat := u8 0]> (string t)). assert (length st = FINSH_STRING_MAX) as Hs by (unfold st; by rewrite length_insert, (reads_string _ _ R)).
  assert (forall st', set_eof false (set_string st' (advance 1 t)) = set_string st' (advance 1 t)) as He by (intros st'; unfold set_eof, set_string, advance; cbn; by rewrite (reads_eof _ _ R)).
  assert (forall st', token_prev_char (set_string st' (advance 1 t)) = Some (tt, set_string st' t)) as Hp.
  { intros st'. unfold token_prev_char, modify, set_string, advance, set_position. cbn. rewrite (reads_eof _ _ R). do 3 f_equal. lia. }
  assert (forall st' p, (p < length st')%nat -> c_string (<[0%nat := 0]> st') = Some []) as Hz by (intros [|x st'] p Hp'; [cbn in Hp'; lia|done]).
  destruct (decide (is_digit c)) as [Hd|Hd].
  - rewrite Hp. exists st. split; [done|]. split; [done|]. apply (Hz _ 0%nat). rewrite (reads_string _ _ R). unfold FINSH_STRING_MAX. lia.
  - destruct Hc as [Hc|]; [|done]. rewrite (bind_eval _ _ _ _ _ eq_refl).
    rewrite (bind_eval _ _ _ 0%nat (set_string st (advance 1 t))).
    2:{ cbn [get_string_loop]. rewrite (bind_eval _ _ _ _ _ eq_refl). rewrite decide_False by tauto. done. }
    rewrite (bind_eval _ _ _ _ _ eq_refl), He, (bind_eval _ _ _ _ _ (Hp st)). rewrite put_string_ok by (cbn; rewrite Hs; unfold FINSH_STRING_MAX; lia).
    exists (<[0%nat := 0]> st). split; [done|]. split; [by rewrite length_insert|]. apply (Hz _ 0%nat). rewrite Hs. unfold FINSH_STRING_MAX. lia.
Qed.

(** ** Numbers *)

(** The characters that are wanted, up to the first one that is not. *)
Lemma read_while_ok {A} (want : Z -> bool) (g : A -> Z -> A) l : forall fuel (a : A) c d t rest, Forall (fun c => want c = true) (c :: l) -> want d = false ->
  (length l < fuel)%nat -> reads t (l ++ d :: rest) ->
  read_while want (fun a c => mret (g a c)) fuel a c t = Some ((foldl g a (c :: l), d), advance (S (length l)) t).
Proof.
  induction l as [|c' l IH]; intros fuel a c d t rest Hw Hd Hf R; cbn [length app] in *; (destruct fuel as [|fuel]; [lia|]);
    apply Forall_cons in Hw as [Hc Hw]; cbn [read_while]; rewrite Hc, (bind_eval _ _ _ _ _ eq_refl), (bind_eval _ _ _ _ _ (next_char _ _ _ R)).
  - destruct fuel; cbn [read_while]; by rewrite Hd.
  - rewrite (IH fuel _ c' d _ rest Hw Hd ltac:(lia) (reads_next _ _ _ R)). by rewrite advance_advance.
Qed.

Lemma reading_ok {A} (want : Z -> bool) (g : A -> Z -> A) l (a : A) c d t rest : Forall (fun c => want c = true) (c :: l) -> want d = false ->
  reads t (l ++ d :: rest) -> reading want (fun a c => mret (g a c)) a c t = Some ((foldl g a (c :: l), d), advance (S (length l)) t).
Proof.
  intros Hw Hd R. unfold reading. rewrite (bind_eval _ _ _ _ _ eq_refl). eapply read_while_ok; [done|done| |exact R].
  apply reads_length in R. rewrite length_app in R. cbn in R. lia.
Qed.

Lemma bool_decide_all (P : Z -> Prop) `{forall c, Decision (P c)} l : Forall P l -> Forall (fun c => bool_decide (P c) = true) l.
Proof. intros H'. eapply Forall_impl; [exact H'|]. intros c Hc. by apply bool_decide_eq_true. Qed.

(** A separator ends every number. *)
Lemma separator_ends d : is_separator d -> 0 < d < 128 -> ~ is_digit d /\ ~ is_alpha d.
Proof.
  unfold is_separator, is_digit, is_alpha. intros H Hd. split; [lia|].
  assert (forall n : nat, (n < 128)%nat -> (if decide (is_separator (Z.of_nat n)) then negb (bool_decide (u32 (Z.lor (Z.of_nat n) 32 - 97) < 26)) else true) = true) as Hall.
  { intros n Hn. do 128 (destruct n as [|n]; [reflexivity|]). lia. }
  specialize (Hall (Z.to_nat d) ltac:(lia)). rewrite Z2Nat.id, decide_True in Hall by (unfold is_separator; lia).
  apply negb_true_iff, bool_decide_eq_false in Hall. done.
Qed.

Lemma number_suffix_other d t n rest : is_separator d -> reads t rest -> number_suffix d (advance (S n) t) = Some (tt, advance n t).
Proof.
  intros Hd R. unfold number_suffix. rewrite decide_False by (unfold is_separator in Hd; lia). by eapply prev_char.
Qed.

Definition with_number (k : finsh_token_type) (v : Z) (t : finsh_token) : finsh_token := set_current k (set_value v t).

Lemma int_value_ok v d t n rest : is_separator d -> reads t rest -> int_value v d (advance (S n) t) = Some (tt, advance n (with_number finsh_token_type_value_int v t)).
Proof.
  intros Hd R. unfold int_value. rewrite !(bind_eval _ _ _ _ _ eq_refl).
  assert (reads (with_number finsh_token_type_value_int v t) rest) as R' by (by destruct R; split).
  exact (number_suffix_other d (with_number finsh_token_type_value_int v t) n rest Hd R').
Qed.

Lemma number_decimal d ds e rest t : is_digit d -> d <> 48 -> Forall is_digit ds -> is_separator e -> reads t (d :: ds ++ e :: rest) ->
  token_proc_number t = Some (tt, advance (S (length ds)) (with_number finsh_token_type_value_int (decimal (d :: ds)) t)).
Proof.
  intros Hd H0 Hds He R. unfold token_proc_number. rewrite (bind_eval _ _ _ _ _ (next_char _ _ _ R)), decide_False by done.
  pose proof (reads_next _ _ _ R) as R1. pose proof (reads_in_line _ _ R1) as Hl. apply Forall_app in Hl as [_ Hl]. apply Forall_cons in Hl as [[He' _] _].
  rewrite (bind_eval _ _ _ _ _ (reading_ok _ (fun value ch => s32 (value * 10 + (ch - 48))) ds 0 d e _ rest (bool_decide_all is_digit (d :: ds) ltac:(by constructor)) ltac:(apply bool_decide_eq_false; by apply separator_ends) R1)).
  rewrite advance_advance. by eapply int_value_ok.
Qed.

Lemma number_long d ds rest t : is_digit d -> d <> 48 -> Forall is_digit ds -> reads t (d :: ds ++ 76 :: rest) ->
  token_proc_number t = Some (tt, advance (S (S (length ds))) (with_number finsh_token_type_value_long (decimal (d :: ds)) t)).
Proof.
  intros Hd H0 Hds R. unfold token_proc_number. rewrite (bind_eval _ _ _ _ _ (next_char _ _ _ R)), decide_False by done.
  pose proof (reads_next _ _ _ R) as R1.
  rewrite (bind_eval _ _ _ _ _ (reading_ok _ (fun value ch => s32 (value * 10 + (ch - 48))) ds 0 d 76 _ rest (bool_decide_all is_digit (d :: ds) ltac:(by constructor)) eq_refl R1)).
  rewrite advance_advance. unfold int_value. rewrite !(bind_eval _ _ _ _ _ eq_refl). done.
Qed.

Lemma number_zero e rest t : is_separator e -> reads t (48 :: e :: rest) ->
  token_proc_number t = Some (tt, advance 1 (with_number finsh_token_type_value_int 0 t)).
Proof.
  intros He R. unfold token_proc_number. rewrite (bind_eval _ _ _ _ _ (next_char _ _ _ R)), decide_True by done.
  rewrite (bind_eval _ _ _ _ _ (next_char _ _ _ (reads_next _ _ _ R))). unfold is_separator in He. rewrite !decide_False by lia.
  rewrite advance_advance. rewrite (bind_eval _ _ _ _ _ (prev_char t 1 _ R)). by rewrite (bind_eval _ _ _ _ _ eq_refl).
Qed.

(** The lower word of the number is the sum of the digits at their places. *)
Lemma spec_digit_range c : hex_digit c -> 0 <= spec_digit c < 16.
Proof. unfold hex_digit, spec_digit. intros H. repeat case_decide; lia. Qed.

Lemma lor_digit v t : 0 <= t < 16 -> u32 (Z.lor (u32 (Z.shiftl v 4)) t) = u32 (16 * v + t).
Proof.
  intros Ht. rewrite Z.shiftl_mul_pow2 by lia. change (2 ^ 4) with 16.
  assert (u32 (v * 16) = 16 * (v mod 2 ^ 28)) as E by (unfold wrap; change (2 ^ 32) with (2 ^ 28 * 16); rewrite Z.mul_mod_distr_r by lia; lia).
  rewrite E. assert (Z.lor (16 * (v mod 2 ^ 28)) t = 16 * (v mod 2 ^ 28) + t) as ->.
  { symmetry. rewrite Z.add_nocarry_lxor, Z.lxor_lor; [done|..].
    all: apply Z.bits_inj'; intros n Hn; rewrite Z.land_spec, Z.bits_0; destruct (decide (n < 4)) as [Hn4|Hn4].
    all: try (rewrite (Z.mul_comm 16), (Z.mul_pow2_bits_low _ 4) by lia; done).
    all: rewrite (testbit_out 4 t n); [by rewrite andb_false_r|unfold in_range; lia|lia]. }
  rewrite <- E. unfold wrap. rewrite (Z.mul_comm v), Zplus_mod, Zmod_mod, <- Zplus_mod. done.
Qed.

Lemma hexadecimal_ok ds : Forall hex_digit ds -> token_spec_number ds 16 = s32 (hexadecimal ds).
Proof.
  intros H. unfold token_spec_number, hexadecimal. f_equal. change (spec_shift 16) with 4.
  assert (forall v w, exists w', foldl (fun bn c => shift_in 4 (spec_digit c) bn) [v; w] ds = [foldl (fun v c => u32 (16 * v + spec_digit c)) v ds; w']) as Hg.
  { induction H as [|c ds Hc _ IH]; intros v w; [by exists w|]. cbn [foldl shift_in]. rewrite lor_digit by (by apply spec_digit_range). apply IH. }
  destruct (Hg 0 0) as [w' ->]. done.
Qed.

Lemma foldl_snoc ds : forall (l : list Z), foldl (fun buf c => buf ++ [c]) l ds = l ++ ds.
Proof. induction ds as [|d ds IH]; intros l; cbn [foldl]; [by rewrite app_nil_r|]. by rewrite IH, <- app_assoc. Qed.

Lemma number_hex ds e rest t : (length ds < 128)%nat -> Forall hex_digit ds -> is_separator e -> reads t (48 :: 120 :: ds ++ e :: rest) ->
  token_proc_number t = Some (tt, advance (S (S (length ds))) (with_number finsh_token_type_value_int (s32 (hexadecimal ds)) t)).
Proof.
  intros Hn Hds He R. unfold token_proc_number. rewrite (bind_eval _ _ _ _ _ (next_char _ _ _ R)), decide_True by done.
  pose proof (reads_next _ _ _ R) as R1. rewrite (bind_eval _ _ _ _ _ (next_char _ _ _ R1)), decide_True by lia. pose proof (reads_next _ _ _ R1) as R2.
  pose proof (reads_in_line _ _ R2) as Hl. apply Forall_app in Hl as [Hl1 Hl]. apply Forall_cons in Hl as [[He' _] _].
  pose proof (separator_ends e He He') as [Hd Ha].
  assert (Forall (fun c => bool_decide (is_digit c \/ is_alpha c) = true) ds) as Hw.
  { apply bool_decide_all. rewrite Forall_forall in *. intros c Hc. specialize (Hds c Hc). unfold hex_digit in Hds. unfold is_digit, is_alpha.
    destruct (decide (48 <= c <= 57)) as [|H1]; [by left|right].
    assert (forall n : nat, (n < 128)%nat -> (if decide (97 <= Z.of_nat n <= 102 \/ 65 <= Z.of_nat n <= 70) then bool_decide (u32 (Z.lor (Z.of_nat n) 32 - 97) < 26) else true) = true) as Hall.
    { intros n Hn'. do 128 (destruct n as [|n]; [reflexivity|]). lia. }
    specialize (Hall (Z.to_nat c) ltac:(lia)). rewrite Z2Nat.id, decide_True in Hall by lia. by apply bool_decide_eq_true in Hall. }
  assert (bool_decide (is_digit e \/ is_alpha e) = false) as Hwe by (apply bool_decide_eq_false; tauto).
  rewrite <- (hexadecimal_ok ds Hds). destruct ds as [|d ds]; cbn [app length] in *.
  - rewrite (bind_eval _ _ _ _ _ (next_char _ _ _ R2)). rewrite (bind_eval _ _ _ ([], e) (advance 1 (advance 1 (advance 1 t)))).
    2:{ unfold read_digits, reading. rewrite (bind_eval _ _ _ ([], e) (advance 1 (advance 1 (advance 1 t)))); [done|]. rewrite (bind_eval _ _ _ _ _ eq_refl). cbn [read_while]. by rewrite Hwe. }
    rewrite !advance_advance. by eapply int_value_ok.
  - rewrite (bind_eval _ _ _ _ _ (next_char _ _ _ R2)). pose proof (reads_next _ _ _ R2) as R3.
    rewrite (bind_eval _ _ _ (d :: ds, e) (advance (S (length ds)) (advance 1 (advance 1 (advance 1 t))))).
    2:{ unfold read_digits. rewrite (bind_eval _ _ _ _ _ (reading_ok _ (fun buf ch => buf ++ [ch]) ds [] d e _ rest Hw Hwe R3)). rewrite foldl_snoc. cbn [app]. by rewrite decide_True by (cbn [length]; lia). }
    rewrite !advance_advance. by eapply int_value_ok.
Qed.

(** ** Tokens *)

(** The token that has just been read. *)
Definition is_tok (x : tok) (t : finsh_token) : Prop :=
  current_token t = kind x /\
  match x with
  | TId name => take (S (length name)) (string t) = name ++ [0]
  | TInt v | TLong v => tvalue t = v
  | TChar c => view Byte (tvalue t) = c
  | TOp _ | TNull => True
  end.

(** The first character of a text that is not a word. *)
Lemma digit_not_operator d : is_digit d -> single_token d = None /\ double_token d = None /\ d <> 39 /\ d <> 34.
Proof. unfold is_digit, single_token, double_token. intros H. rewrite !decide_False by lia. split_and!; [done|done|lia|lia]. Qed.

Lemma operator_digit d t : is_digit d -> forall rest, reads t (d :: rest) -> operator_token d (advance 1 t) = token_proc_number t.
Proof.
  intros Hd rest R. destruct (digit_not_operator d Hd) as (E1 & E2 & H1 & H2). unfold operator_token. rewrite E1, E2, !decide_False, decide_True by done.
  rewrite (bind_eval _ _ _ _ _ (prev_char t 0 _ R)). f_equal. unfold advance, set_position. destruct t. cbn. f_equal. lia.
Qed.

Lemma operator_twice c twice once rest t : single_token c = None -> double_token c = Some (twice, once) -> reads t (c :: c :: rest) ->
  operator_token c (advance 1 t) = Some (tt, set_current twice (advance 2 t)).
Proof.
  intros H1 H2 R. unfold operator_token. rewrite H1, H2. rewrite (bind_eval _ _ _ _ _ (next_char _ _ _ (reads_next _ _ _ R))), decide_True by done.
  by rewrite advance_advance.
Qed.

Lemma operator_once c twice once c' rest t : single_token c = None -> double_token c = Some (twice, once) -> c' <> c -> reads t (c :: c' :: rest) ->
  operator_token c (advance 1 t) = Some (tt, set_current once (advance 1 t)).
Proof.
  intros H1 H2 Hc R. unfold operator_token. rewrite H1, H2. rewrite (bind_eval _ _ _ _ _ (next_char _ _ _ (reads_next _ _ _ R))), decide_False by done.
  rewrite advance_advance. by rewrite (bind_eval _ _ _ _ _ (prev_char t 1 _ R)).
Qed.

Lemma operator_op o l d rest t : op_text o = Some l -> ends (TOp o) (head rest) -> reads t (l ++ rest) -> head l = Some d ->
  operator_token d (advance 1 t) = Some (tt, set_current o (advance (length l) t)).
Proof.
  intros Ho He R Hd. destruct o; try discriminate Ho; injection Ho as <-; injection Hd as <-; try reflexivity; cbn [ends op_text app] in *.
  all: try (by eapply operator_twice).
  all: destruct He as (c & Ec & Hc); destruct rest as [|c' rest]; [discriminate Ec|]; injection Ec as ->.
  all: eapply operator_once; [reflexivity|reflexivity| |exact R]; congruence.
Qed.

Lemma char_token c rest t : 32 <= c < 127 -> c <> 39 -> c <> 92 -> reads t (39 :: c :: 39 :: rest) ->
  operator_token 39 (advance 1 t) = Some (tt, set_current finsh_token_type_value_char (set_value (put Byte c (tvalue t)) (advance 3 t))).
Proof.
  intros Hc H1 H2 R. unfold operator_token. change (single_token 39) with (@None finsh_token_type). change (double_token 39) with (@None (finsh_token_type * finsh_token_type)). cbv iota.
  rewrite decide_True by done. pose proof (reads_next _ _ _ R) as R1. pose proof (reads_next _ _ _ R1) as R2.
  rewrite (bind_eval _ _ _ c (advance 3 t)).
  - by rewrite (bind_eval _ _ _ _ _ eq_refl).
  - unfold token_proc_char. rewrite (bind_eval _ _ _ _ _ (next_char _ _ _ R1)), decide_False by done.
    rewrite (bind_eval _ _ _ c (advance 1 (advance 1 t))) by done. rewrite (bind_eval _ _ _ _ _ (next_char _ _ _ R2)), decide_True by done. by rewrite !advance_advance.
Qed.

(** Spellings start with a character that is no blank. *)
Lemma spelling_head x l : spelling x l -> exists c l', l = c :: l' /\ ~ blank c.
Proof.
  unfold blank. intros H. destruct H as [t l Ho|name (Hl & Hn & _)| |c Hc| |d ds Hd|d ds Hd|ds]; try (eexists _, _; split; [reflexivity|lia]).
  - destruct t; try discriminate Ho; injection Ho as <-; eexists _, _; split; try reflexivity; lia.
  - destruct name as [|c name]; [cbn in Hl; lia|]. apply Forall_cons in Hn as [Hc _]. unfold is_separator in Hc. apply dec_stable in Hc. eexists _, _; split; [done|]. lia.
  - unfold is_digit in Hd. eexists _, _; split; [done|]. lia.
  - unfold is_digit in Hd. eexists _, _; split; [done|]. lia.
Qed.

(** A word: an identifier, or NULL. *)
Lemma run_word ws name t d rest : Forall blank ws -> name <> [] -> Forall (fun c => ~ is_separator c) name -> (forall c, head name = Some c -> ~ is_digit c) ->
  (length name < FINSH_STRING_MAX)%nat -> is_separator d -> reads t (ws ++ name ++ d :: rest) ->
  exists st, token_run t = Some (tt, set_current (default finsh_token_type_identifier (token_match_name name)) (advance (length name) (set_string st (advance (length ws) t)))) /\
    length st = FINSH_STRING_MAX /\ take (S (length name)) st = name ++ [0].
Proof.
  intros Hws Hne Hn Hd Hl Hsep R. pose proof (reads_advance _ _ _ R) as R1.
  destruct (get_string_word name _ d rest Hne Hn Hd Hl Hsep R1) as (st & E & L & Hc & T). exists st. split; [|done].
  unfold token_run. destruct name as [|c name]; [done|]. cbn [app] in R.
  assert (~ blank c) as Hb by (apply Forall_cons in Hn as [Hc' _]; unfold is_separator in Hc'; apply dec_stable in Hc'; unfold blank; lia).
  rewrite (bind_eval _ _ _ _ _ (trim_ok ws t c _ Hws Hb R)), (bind_eval _ _ _ _ _ E), (bind_eval _ _ _ _ _ eq_refl).
  cbn [eof advance set_position set_string]. rewrite (reads_eof _ _ R). rewrite (bind_deref _ _ _ (c :: name)) by exact Hc. by rewrite decide_True.
Qed.

(** Every other token is found by its first character. *)
Lemma run_other ws t c rest : Forall blank ws -> ~ blank c -> is_separator c \/ is_digit c -> reads t (ws ++ c :: rest) ->
  exists st, token_run t = operator_token c (advance 1 (set_string st (advance (length ws) t))) /\ length st = FINSH_STRING_MAX.
Proof.
  intros Hws Hb Hc R. pose proof (reads_advance _ _ _ R) as R1. destruct (get_string_other _ c rest Hc R1) as (st & E & L & Hs). exists st. split; [|done].
  unfold token_run. rewrite (bind_eval _ _ _ _ _ (trim_ok ws t c _ Hws Hb R)), (bind_eval _ _ _ _ _ E), (bind_eval _ _ _ _ _ eq_refl).
  cbn [eof advance set_position set_string]. rewrite (reads_eof _ _ R). rewrite (bind_deref _ _ _ []) by exact Hs. rewrite decide_False by congruence.
  apply bind_eval. apply (next_char _ _ rest). by apply reads_set_string.
Qed.

(** The run of the machine over a token, whatever it is. *)
Lemma token_run_ok ws x l rest t : Forall blank ws -> spelling x l -> ends x (head rest) -> reads t (ws ++ l ++ rest) ->
  exists t', token_run t = Some (tt, t') /\ is_tok x t' /\ reads t' rest /\ terrno t' = terrno t.
Proof.
  intros Hws Hx He R.
  assert (forall t', eof t' = eof t -> replay t' = replay t -> line t' = line t -> position t' = (position t + length ws + length l)%nat -> length (string t') = FINSH_STRING_MAX -> reads t' rest) as Hr.
  { intros t' H1 H2 H3 H4 H5. pose proof (reads_advance _ _ _ (reads_advance _ _ _ R)) as [Ra Rb Rc Rd Re]. cbn in *. split; rewrite ?H1, ?H2, ?H3, ?H4; done. }
  assert (Forall in_line l) as Hl by (pose proof (reads_in_line _ _ R) as Hl; rewrite !Forall_app in Hl; tauto).
  pose proof (reads_advance _ _ _ R) as R1.
  destruct Hx as [o l Ho|name (Hlen & Hn & Hd & Hm)| |c Hc Hc1 Hc2| |d ds Hd H0 Hds|d ds Hd H0 Hds|ds Hlen Hds].
  - destruct l as [|c l]; [by destruct o|].
    assert (~ blank c /\ is_separator c) as [Hb Hs] by (destruct o; try discriminate Ho; injection Ho as <- <-; unfold blank, is_separator; lia).
    destruct (run_other ws t c (l ++ rest) Hws Hb (or_introl Hs) R) as (st & E & L).
    pose proof (reads_set_string _ st _ R1 L) as R2. rewrite (operator_op o (c :: l) c rest _ Ho He R2 eq_refl) in E.
    eexists. split; [exact E|]. split; [done|]. split; [|done]. apply Hr; done.
  - destruct He as (d & Ed & Hsep). destruct rest as [|d' rest]; [discriminate Ed|]. injection Ed as ->.
    destruct (run_word ws name t d rest Hws) as (st & E & L & T); [by intros ->; cbn in Hlen; lia|done|done|unfold FINSH_STRING_MAX; lia|done|done|].
    rewrite Hm in E. eexists. split; [exact E|]. split; [by split|]. split; [|done]. apply Hr; done.
  - destruct He as (d & Ed & Hsep). destruct rest as [|d' rest]; [discriminate Ed|]. injection Ed as ->.
    destruct (run_word ws [78; 85; 76; 76] t d rest Hws) as (st & E & L & T); [done|repeat constructor; unfold is_separator; lia|intros c [= <-]; unfold is_digit; lia|cbn; unfold FINSH_STRING_MAX; lia|done|done|].
    eexists. split; [exact E|]. split; [done|]. split; [|done]. apply Hr; done.
  - destruct (run_other ws t 39 ([c; 39] ++ rest) Hws) as (st & E & L); [unfold blank; lia|left; unfold is_separator; lia|done|].
    pose proof (reads_set_string _ st _ R1 L) as R2. rewrite (char_token c rest _ Hc Hc1 Hc2 R2) in E.
    eexists. split; [exact E|]. split; [|split; [by apply Hr|done]]. split; [done|]. cbn [tvalue set_current set_value advance set_position].
    rewrite view_put. cbn [view]. apply s8_small. lia.
  - destruct He as (d & Ed & Hsep). destruct rest as [|d' rest]; [discriminate Ed|]. injection Ed as ->.
    destruct (run_other ws t 48 (d :: rest) Hws) as (st & E & L); [unfold blank; lia|right; unfold is_digit; lia|done|].
    pose proof (reads_set_string _ st _ R1 L) as R2. rewrite (operator_digit 48 _ ltac:(unfold is_digit; lia) _ R2), (number_zero d rest _ Hsep R2) in E.
    eexists. split; [exact E|]. split; [done|]. split; [|done]. by apply Hr.
  - destruct He as (e & Ed & Hsep). destruct rest as [|d' rest]; [discriminate Ed|]. injection Ed as ->.
    destruct (run_other ws t d (ds ++ e :: rest) Hws) as (st & E & L); [unfold is_digit in Hd; unfold blank; lia|by right|done|].
    pose proof (reads_set_string _ st _ R1 L) as R2. rewrite (operator_digit d _ Hd _ R2), (number_decimal d ds e rest _ Hd H0 Hds Hsep R2) in E.
    eexists. split; [exact E|]. split; [done|]. split; [|done]. by apply Hr.
  - destruct He as (e & Ed & Hsep). destruct rest as [|d' rest]; [discriminate Ed|]. injection Ed as ->.
    cbn [app] in R, R1. rewrite <- app_assoc in R, R1. cbn [app] in R, R1.
    destruct (run_other ws t d (ds ++ 76 :: e :: rest) Hws) as (st & E & L); [unfold is_digit in Hd; unfold blank; lia|by right|done|].
    pose proof (reads_set_string _ st _ R1 L) as R2. rewrite (operator_digit d _ Hd _ R2), (number_long d ds (e :: rest) _ Hd H0 Hds R2) in E.
    eexists. split; [exact E|]. split; [done|]. split; [|done]. apply Hr; try done. cbn. rewrite length_app. cbn. lia.
  - destruct He as (e & Ed & Hsep). destruct rest as [|d' rest]; [discriminate Ed|]. injection Ed as ->.
    destruct (run_other ws t 48 (120 :: ds ++ e :: rest) Hws) as (st & E & L); [unfold blank; lia|right; unfold is_digit; lia|done|].
    pose proof (reads_set_string _ st _ R1 L) as R2. rewrite (operator_digit 48 _ ltac:(unfold is_digit; lia) _ R2), (number_hex ds e rest _ Hlen Hds Hsep R2) in E.
    eexists. split; [exact E|]. split; [done|]. split; [|done]. by apply Hr.
Qed.

Lemma token_run_end ws t : Forall blank ws -> reads t ws ->
  exists t', token_run t = Some (tt, t') /\ current_token t' = finsh_token_type_eof /\ replay t' = false /\ terrno t' = terrno t.
Proof.
  intros Hws R. assert (token_trim_space t = Some (tt, set_position 0 (set_eof true t))) as E.
  { unfold token_trim_space. rewrite (bind_eval _ _ _ _ _ eq_refl). rewrite (bind_eval _ _ _ _ _ (trim_end ws _ t Hws (reads_length _ _ R) R)). done. }
  unfold token_run. rewrite (bind_eval _ _ _ _ _ E). rewrite (bind_eval _ _ _ tt (set_position 0 (set_eof true t))) by done. rewrite (bind_eval _ _ _ _ _ eq_refl).
  cbn [eof set_position set_eof]. eexists. split; [done|]. cbn. split; [done|]. by rewrite (reads_replay _ _ R).
Qed.

(** ** What the parser sees: the tokens, one after another *)

Fixpoint upcoming (t : finsh_token) (l : list tok) : Prop :=
  match l with
  | [] => True
  | x :: l => exists t', finsh_token_token t = Some (kind x, t') /\ is_tok x t' /\ replay t' = false /\ terrno t' = terrno t /\ upcoming t' l
  end.

Lemma spells_upcoming text l : spells text l -> forall t, reads t text -> upcoming t (l ++ [TOp finsh_token_type_eof]).
Proof.
  induction 1 as [ws Hws|ws x l rest xs Hws Hx He Hs IH]; intros t R; cbn [app upcoming].
  - destruct (token_run_end ws t Hws R) as (t' & E & Hc & Hr & Hn). exists t'.
    split; [|done]. unfold finsh_token_token. rewrite (bind_eval _ _ _ _ _ eq_refl), (reads_replay _ _ R), (bind_eval _ _ _ _ _ E). unfold gets. by rewrite Hc.
  - destruct (token_run_ok ws x l rest t Hws Hx He R) as (t' & E & Hc & R' & Hn). exists t'.
    split; [|split; [done|]; split; [by apply (reads_replay _ _ R')|]; split; [done|by apply IH]].
    unfold finsh_token_token. rewrite (bind_eval _ _ _ _ _ eq_refl), (reads_replay _ _ R), (bind_eval _ _ _ _ _ E). unfold gets. by destruct Hc as [-> _].
Qed.

(** A token that is given back is upcoming again. *)
Lemma upcoming_replay x l t : is_tok x t -> replay t = false -> upcoming t l -> upcoming (set_replay true t) (x :: l).
Proof.
  intros Hx Hr Hu. cbn [upcoming]. exists t. split; [|done]. unfold finsh_token_token. rewrite (bind_eval _ _ _ _ _ eq_refl). cbn [replay set_replay].
  rewrite (bind_eval _ _ _ _ _ eq_refl). unfold gets. destruct Hx as [Hc _]. destruct t. cbn in *. by subst.
Qed.
