(* ===== verification/FinshParser.v ===== *)
(** * FinshParser: the syntax of the lines of the shell

    components/finsh/finsh_parser.c, with finsh_node.c and finsh_var.c: the parser
    by recursive descent, which makes the tree of a line and declares variables.
    A node that has been taken is never given back while a line is parsed, so of
    the table of nodes only their number matters.  A pointer to a node is its tree,
    and NULL is [Null].  The functions that call each other have fuel; a loop in one
    of them takes as much as it is given. *)

From S2P Require Import Prelude Bytes KString FinshVm FinshCompiler FinshToken FinshHeap.

Definition FINSH_NAME_MAX : nat := 16.
Definition FINSH_NODE_MAX : nat := 16.
Definition FINSH_VARIABLE_MAX : nat := 8.

Definition FINSH_ERROR_INVALID_TOKEN : Z := 1.
Definition FINSH_ERROR_EXPECT_TYPE : Z := 2.
Definition FINSH_ERROR_VARIABLE_EXIST : Z := 4.
Definition FINSH_ERROR_EXPECT_OPERATOR : Z := 5.
Definition FINSH_ERROR_MEMORY_FULL : Z := 6.
Definition FINSH_ERROR_UNKNOWN_SYMBOL : Z := 13.
Definition FINSH_ERROR_NULL_NODE : Z := 14.

(** The names in a table, with a value, and in a list of what has been appended. *)
Record symbol_table := Table { table : list (list Z * Z); appended : list (list Z * Z) }.

(** Where the arrays are, and the symbols of the system: their names, and what the
    structures of the tables have besides. *)
Class Environment := {
  global_variable : Z;
  finsh_heap : Z;
  sysvars : symbol_table;
  syscalls : symbol_table;
  type_of_sysvar : Z -> finsh_type;
  var_of_sysvar : Z -> Z;
  func_of_syscall : Z -> Z
}.

(** [variables] are the names and the types of [global_variable]; the values are in
    the memory of [strings]. *)
Record finsh_parser := Parser {
  token : finsh_token;
  nodes : nat;
  variables : list (list Z * finsh_type);
  strings : heap
}.
Abbreviation PM := (M finsh_parser).

Definition set_token (t : finsh_token) (s : finsh_parser) : finsh_parser := Parser t (nodes s) (variables s) (strings s).
Definition set_nodes (n : nat) (s : finsh_parser) : finsh_parser := Parser (token s) n (variables s) (strings s).
Definition set_variables (l : list (list Z * finsh_type)) (s : finsh_parser) : finsh_parser := Parser (token s) (nodes s) l (strings s).
Definition set_strings (h : heap) (s : finsh_parser) : finsh_parser := Parser (token s) (nodes s) (variables s) h.

Definition on_token {A} (m : TM A) : PM A := fun s => '(a, t) ← m (token s); Some (a, set_token t s).
Definition on_heap {A} (m : HM A) : PM A := fun s => '(a, h) ← m (strings s); Some (a, set_strings h s).
Definition finsh_error_set (e : Z) : PM unit := on_token (modify (set_errno e)).

Section parser.
Context {env : Environment}.

(** ** Variables *)

Definition var_address (i : nat) : Z := global_variable + 24 * Z.of_nat i.
Definition index_of {A} (p : A -> bool) (l : list A) : option nat := fst <$> list_find (fun a => p a = true) l.
Definition named (name : list Z) (v : list Z * finsh_type) : bool := bool_decide (fst v = name).

(** A name has [FINSH_NAME_MAX] characters at most, and the comparison is of as many. *)
Definition finsh_var_lookup (name : list Z) : PM (option Z) :=
  l ← gets variables;
  mret (var_address <$> index_of (named name) l).

(** The number of the entry, none for the error. *)
Definition finsh_var_insert (name : list Z) (t : finsh_type) : PM (option nat) :=
  l ← gets variables;
  if decide (existsb (named name) l = true) then mret None
  else
    match index_of (fun v => bool_decide (snd v = finsh_type_unknown)) l with
    | None => mret None
    | Some i => modify (set_variables (<[i := (name, t)]> l));; mret (Some i)
    end.
Definition finsh_var_delete (name : list Z) : PM (option unit) :=
  l ← gets variables;
  match index_of (named name) l with
  | None => mret None
  | Some i =>
    modify (set_variables (<[i := ([], finsh_type_unknown)]> l));;
    on_heap (modify (set_mem (store32 (var_value (var_address i)) 0)));;
    mret (Some tt)
  end.

(** In the table a name is compared as a whole, in the list up to the length of the
    wanted one.  A wanted name of [FINSH_NAME_MAX] characters has no terminator. *)
Definition lookup_symbol (t : symbol_table) (name : list Z) : option Z :=
  match find (fun e => bool_decide (fst e = name)) (table t) with
  | Some e => Some (snd e)
  | None => snd <$> find (fun e => bool_decide (take (length name) (fst e) = name)) (appended t)
  end.
(** A new entry is in front of the appended ones, if there is memory for it: [p] is
    where it is. *)
Definition append (name : list Z) (p : option Z) (t : symbol_table) : symbol_table :=
  match p with Some p => Table (table t) ((name, p) :: appended t) | None => t end.
Definition finsh_sysvar_append := append.
Definition finsh_syscall_append := append.

Definition finsh_sysvar_lookup (name : list Z) : option Z := lookup_symbol sysvars name.
Definition finsh_syscall_lookup (name : list Z) : option Z := lookup_symbol syscalls name.

(** ** Nodes *)

(** No node if the table is full. *)
Definition finsh_node_allocate (k : node_kind) : PM (option finsh_node) :=
  n ← gets nodes;
  if decide (n < FINSH_NODE_MAX)%nat then modify (set_nodes (S n));; mret (Some (Node k 0 0 0 0))
  else mret None.

(** A node whose fields are filled in by [f]. *)
Definition new_node (k : node_kind) (f : finsh_node -> finsh_node) : PM tree :=
  node ← finsh_node_allocate k;
  match node with
  | Some n => mret (Tree (f n) Null Null)
  | None => finsh_error_set FINSH_ERROR_MEMORY_FULL;; mret Null
  end.
Definition with_value (v : Z) (n : finsh_node) : finsh_node := Node (node_type n) (data_type n) (idtype n) v (id n).
Definition with_id (t p : Z) (n : finsh_node) : finsh_node := Node (node_type n) (data_type n) t (value n) p.

Definition finsh_node_new_id (name : list Z) : PM tree :=
  var ← finsh_var_lookup name;
  match var with
  | Some p => new_node FINSH_NODE_ID (with_id FINSH_IDTYPE_VAR p)
  | None =>
    if decide (length name < FINSH_NAME_MAX)%nat then
      match finsh_sysvar_lookup name with
      | Some p => new_node FINSH_NODE_ID (with_id FINSH_IDTYPE_SYSVAR p)
      | None =>
        match finsh_syscall_lookup name with
        | Some p => new_node FINSH_NODE_ID (with_id FINSH_IDTYPE_SYSCALL p)
        | None => finsh_error_set FINSH_ERROR_UNKNOWN_SYMBOL;; mret Null
        end
      end
    else undefined
  end.
Definition finsh_node_new_char (c : Z) : PM tree := new_node FINSH_NODE_VALUE_CHAR (with_value c).
Definition finsh_node_new_int (i : Z) : PM tree := new_node FINSH_NODE_VALUE_INT (with_value i).
Definition finsh_node_new_long (l : Z) : PM tree := new_node FINSH_NODE_VALUE_LONG (with_value l).
Definition finsh_node_new_ptr (p : Z) : PM tree := new_node FINSH_NODE_VALUE_NULL (with_value p).

(** Where the values of the variables are that have a type. *)
Definition declared (l : list (list Z * finsh_type)) : list Z :=
  omap (fun '(i, v) => if decide (snd v <> finsh_type_unknown) then Some (var_value (var_address i)) else None) (imap pair l).

(** The string is copied into the heap, if there is room for it. *)
Fixpoint copy_string (a : Z) (s : list Z) (b : mem) : mem := match s with [] => store8 a 0 b | c :: s => copy_string (a + 1) s (store8 a c b) end.
Definition finsh_node_new_string (s : list Z) : PM tree :=
  node ← finsh_node_allocate FINSH_NODE_VALUE_STRING;
  match node with
  | Some n =>
    l ← gets variables;
    p ← on_heap (finsh_heap_allocate (declared l) (Z.of_nat (length s) + 1));
    if decide (p = 0) then undefined
    else
      on_heap (modify (set_mem (copy_string p s)));;
      mret (Tree (with_value p n) Null Null)
  | None => finsh_error_set FINSH_ERROR_MEMORY_FULL;; mret Null
  end.

Definition set_sibling (t sibling : tree) : tree := match t with Null => Null | Tree n child _ => Tree n child sibling end.
Definition make_sys_node (k : node_kind) (node1 node2 : tree) : PM tree :=
  node ← finsh_node_allocate k;
  match node, node1 with
  | Some n, Tree _ _ _ => mret (Tree n (set_sibling node1 node2) Null)
  | Some n, Null => finsh_error_set FINSH_ERROR_NULL_NODE;; mret (Tree n Null Null)
  | None, _ => finsh_error_set FINSH_ERROR_NULL_NODE;; mret Null
  end.

(** ** Tokens *)

Definition next_token : PM finsh_token_type := on_token finsh_token_token.
Definition replay_token : PM unit := on_token finsh_token_replay.
Definition check_token (t t' : finsh_token_type) : PM unit :=
  when (bool_decide (t <> t')) (finsh_error_set FINSH_ERROR_INVALID_TOKEN;; replay_token).
Definition match_token (t : finsh_token_type) : PM unit := t' ← next_token; check_token t' t.

Fixpoint until_zero (l : list Z) : list Z := match l with [] => [] | c :: l => if decide (c = 0) then [] else c :: until_zero l end.

(** [strncpy] of the string of the token. *)
Definition proc_identifier : PM (list Z) :=
  match_token finsh_token_type_identifier;;
  gets (fun s => until_zero (take FINSH_NAME_MAX (string (token s)))).

(** ** Types *)

Definition base_type (t : finsh_token_type) : option finsh_type :=
  match t with
  | finsh_token_type_void => Some finsh_type_void | finsh_token_type_char => Some finsh_type_char | finsh_token_type_short => Some finsh_type_short
  | finsh_token_type_int => Some finsh_type_int | finsh_token_type_long => Some finsh_type_long | _ => None
  end.
Definition is_base_type (t : finsh_token_type) : bool := bool_decide (base_type t <> None).
Definition unsigned_type (t : finsh_token_type) : option finsh_type :=
  match t with
  | finsh_token_type_char => Some finsh_type_uchar | finsh_token_type_short => Some finsh_type_ushort
  | finsh_token_type_int => Some finsh_type_uint | finsh_token_type_long => Some finsh_type_ulong | _ => None
  end.
Definition pointer_type (t : finsh_type) : finsh_type :=
  match t with
  | finsh_type_char | finsh_type_uchar => finsh_type_charp
  | finsh_type_short | finsh_type_ushort => finsh_type_shortp
  | finsh_type_int | finsh_type_uint => finsh_type_intp
  | finsh_type_long | finsh_type_ulong => finsh_type_longp
  | _ => finsh_type_voidp
  end.
Definition proc_pointer (t : finsh_type) : PM finsh_type :=
  tok ← next_token;
  if decide (tok = finsh_token_type_mul) then mret (pointer_type t) else replay_token;; mret t.
Definition type_error : PM finsh_type := replay_token;; finsh_error_set FINSH_ERROR_UNKNOWN_TYPE;; mret finsh_type_unknown.
Definition proc_type : PM finsh_type :=
  tok ← next_token;
  match base_type tok with
  | Some t => proc_pointer t
  | None =>
    if decide (tok = finsh_token_type_unsigned) then
      tok ← next_token;
      if is_base_type tok then
        match unsigned_type tok with Some t => proc_pointer t | None => type_error end
      else
        replay_token;;
        finsh_error_set FINSH_ERROR_EXPECT_TYPE;;
        proc_pointer finsh_type_unknown
    else type_error
  end.

(** ** Expressions *)

(** Operands that an operator is between, from the left: the loop of each level. *)
Fixpoint binary_loop (operand : PM tree) (op : finsh_token_type -> option node_kind) (fuel : nat) (t : tree) (tok : finsh_token_type) : PM tree :=
  match op tok with
  | None => replay_token;; mret t
  | Some k =>
    match fuel with
    | O => halt
    | S fuel =>
      new ← operand;
      t ← (match new with Null => finsh_error_set FINSH_ERROR_EXPECT_OPERATOR;; mret t | Tree _ _ _ => make_sys_node k t new end);
      tok ← next_token;
      binary_loop operand op fuel t tok
    end
  end.
Definition binary (operand : PM tree) (op : finsh_token_type -> option node_kind) (fuel : nat) : PM tree :=
  t ← operand;
  tok ← next_token;
  binary_loop operand op fuel t tok.

Definition multiplicative_op (t : finsh_token_type) : option node_kind :=
  match t with
  | finsh_token_type_mul => Some FINSH_NODE_SYS_MUL | finsh_token_type_div => Some FINSH_NODE_SYS_DIV | finsh_token_type_mod => Some FINSH_NODE_SYS_MOD | _ => None
  end.
Definition additive_op (t : finsh_token_type) : option node_kind :=
  match t with finsh_token_type_sub => Some FINSH_NODE_SYS_SUB | finsh_token_type_add => Some FINSH_NODE_SYS_ADD | _ => None end.
Definition shift_op (t : finsh_token_type) : option node_kind :=
  match t with finsh_token_type_shl => Some FINSH_NODE_SYS_SHL | finsh_token_type_shr => Some FINSH_NODE_SYS_SHR | _ => None end.
Definition and_op (t : finsh_token_type) : option node_kind := match t with finsh_token_type_and => Some FINSH_NODE_SYS_AND | _ => None end.
Definition xor_op (t : finsh_token_type) : option node_kind := match t with finsh_token_type_xor => Some FINSH_NODE_SYS_XOR | _ => None end.
Definition or_op (t : finsh_token_type) : option node_kind := match t with finsh_token_type_or => Some FINSH_NODE_SYS_OR | _ => None end.

Section levels.
(** The levels that are entered again, and the fuel of the loops. *)
Context (assign cast : PM tree) (fuel : nat).

(** The parameters are siblings: each is linked to the one in front of it. *)
Fixpoint param_loop (fuel : nat) (params : list tree) (tok : finsh_token_type) : PM (list tree) :=
  if decide (tok = finsh_token_type_comma) then
    match fuel with
    | O => halt
    | S fuel =>
      a ← assign;
      params ← (match a with Null => finsh_error_set FINSH_ERROR_EXPECT_OPERATOR;; mret params | Tree _ _ _ => mret (params ++ [a]) end);
      tok ← next_token;
      param_loop fuel params tok
    end
  else replay_token;; mret params.
Definition proc_param_list : PM tree :=
  a ← assign;
  match a with
  | Null => mret Null
  | Tree _ _ _ =>
    tok ← next_token;
    params ← param_loop fuel [a] tok;
    mret (foldr set_sibling Null params)
  end.

Definition proc_primary_expr : PM tree :=
  tok ← next_token;
  match tok with
  | finsh_token_type_identifier => replay_token;; name ← proc_identifier; finsh_node_new_id name
  | finsh_token_type_left_paren => expr ← assign; match_token finsh_token_type_right_paren;; mret expr
  | finsh_token_type_value_int => v ← gets (fun s => tvalue (token s)); finsh_node_new_int v
  | finsh_token_type_value_long => v ← gets (fun s => tvalue (token s)); finsh_node_new_long v
  | finsh_token_type_value_char => v ← gets (fun s => view Byte (tvalue (token s))); finsh_node_new_char v
  | finsh_token_type_value_string => s ← deref (fun s => c_string (string (token s))); finsh_node_new_string s
  | finsh_token_type_value_null => finsh_node_new_ptr 0
  | _ => finsh_error_set FINSH_ERROR_INVALID_TOKEN;; mret Null
  end.

Fixpoint postfix_loop (fuel : nat) (postfix : tree) (tok : finsh_token_type) : PM tree :=
  let again fuel m := (postfix ← m; tok ← next_token; postfix_loop fuel postfix tok) in
  match tok, fuel with
  | (finsh_token_type_inc | finsh_token_type_dec | finsh_token_type_left_paren), O => halt
  | finsh_token_type_inc, S fuel => again fuel (make_sys_node FINSH_NODE_SYS_INC postfix Null)
  | finsh_token_type_dec, S fuel => again fuel (make_sys_node FINSH_NODE_SYS_DEC postfix Null)
  | finsh_token_type_left_paren, S fuel =>
    again fuel (
      tok ← next_token;
      param_list ← (if decide (tok = finsh_token_type_right_paren) then mret Null
                    else replay_token;; l ← proc_param_list; match_token finsh_token_type_right_paren;; mret l);
      make_sys_node FINSH_NODE_SYS_FUNC postfix param_list)
  | _, _ => replay_token;; mret postfix
  end.
Definition proc_postfix_expr : PM tree :=
  postfix ← proc_primary_expr;
  tok ← next_token;
  postfix_loop fuel postfix tok.

Definition proc_unary_expr : PM tree :=
  tok ← next_token;
  match tok with
  | finsh_token_type_add => cast
  | finsh_token_type_inc => c ← cast; make_sys_node FINSH_NODE_SYS_PREINC c Null
  | finsh_token_type_sub => c ← cast; zero ← finsh_node_new_long 0; make_sys_node FINSH_NODE_SYS_SUB zero c
  | finsh_token_type_dec => c ← cast; make_sys_node FINSH_NODE_SYS_PREDEC c Null
  | finsh_token_type_bitwise => c ← cast; make_sys_node FINSH_NODE_SYS_BITWISE c Null
  | finsh_token_type_mul => c ← cast; make_sys_node FINSH_NODE_SYS_GETVALUE c Null
  | finsh_token_type_and => c ← cast; make_sys_node FINSH_NODE_SYS_GETADDR c Null
  | _ => replay_token;; proc_postfix_expr
  end.

(** The numbers of [enum finsh_type], which a cast puts into the node. *)
Definition type_number (t : finsh_type) : Z :=
  match t with
  | finsh_type_unknown => 0 | finsh_type_void => 1 | finsh_type_voidp => 2 | finsh_type_char => 3 | finsh_type_uchar => 4 | finsh_type_charp => 5
  | finsh_type_short => 6 | finsh_type_ushort => 7 | finsh_type_shortp => 8 | finsh_type_int => 9 | finsh_type_uint => 10 | finsh_type_intp => 11
  | finsh_type_long => 12 | finsh_type_ulong => 13 | finsh_type_longp => 14
  end.
Definition cast_expr : PM tree :=
  tok ← next_token;
  if decide (tok = finsh_token_type_left_paren) then
    t ← proc_type;
    match_token finsh_token_type_right_paren;;
    c ← cast;
    match c with
    | Tree n child sibling => mret (Tree (set_data_type (type_number t) n) child sibling)
    | Null => replay_token;; proc_unary_expr
    end
  else replay_token;; proc_unary_expr.

Definition proc_multiplicative_expr : PM tree := binary cast multiplicative_op fuel.
Definition proc_additive_expr : PM tree := binary proc_multiplicative_expr additive_op fuel.
Definition proc_shift_expr : PM tree := binary proc_additive_expr shift_op fuel.
Definition proc_and_expr : PM tree := binary proc_shift_expr and_op fuel.
Definition proc_exclusive_or_expr : PM tree := binary proc_and_expr xor_op fuel.
Definition proc_inclusive_or_expr : PM tree := binary proc_exclusive_or_expr or_op fuel.

Definition assign_expr : PM tree :=
  or ← proc_inclusive_or_expr;
  tok ← next_token;
  if decide (tok = finsh_token_type_assign) then
    a ← assign;
    make_sys_node FINSH_NODE_SYS_ASSIGN or a
  else replay_token;; mret or.
End levels.

Fixpoint proc_assign_expr (fuel : nat) : PM tree :=
  match fuel with O => halt | S fuel => fun s => assign_expr (proc_assign_expr fuel) (proc_cast_expr fuel) fuel s end
with proc_cast_expr (fuel : nat) : PM tree :=
  match fuel with O => halt | S fuel => fun s => cast_expr (proc_assign_expr fuel) (proc_cast_expr fuel) fuel s end.

(** ** Statements, as the list of their nodes *)

Definition one (t : tree) : list tree := match t with Null => [] | Tree _ _ _ => [t] end.

Section statements.
Context (fuel : nat).

Definition proc_expr_statement : PM (list tree) :=
  tok ← next_token;
  if decide (tok = finsh_token_type_semicolon) then mret []
  else
    replay_token;;
    expr ← proc_assign_expr fuel;
    match_token finsh_token_type_semicolon;;
    mret (one expr).

(** A variable that cannot be inserted is an error. *)
Definition declare (t : finsh_type) : PM (list Z) :=
  name ← proc_identifier;
  r ← finsh_var_insert name t;
  when (bool_decide (r = None)) (finsh_error_set FINSH_ERROR_VARIABLE_EXIST);;
  mret name.

(** The nodes so far, and whether [end] is NULL in spite of them. *)
Definition chain : Type := list tree * bool.
Definition chain_add (c : chain) (t : tree) : PM chain :=
  match c, t with
  | ([], _), _ => mret (one t, false)
  | (_ :: _, true), _ => undefined
  | (l, false), Null => mret (l, true)
  | (l, false), Tree _ _ _ => mret (l ++ [t], false)
  end.
Definition decl_assign (name : list Z) (c : chain) (tok : finsh_token_type) : PM (chain * finsh_token_type) :=
  if decide (tok = finsh_token_type_assign) then
    a ← proc_assign_expr fuel;
    match a with
    | Null => mret (c, tok)
    | Tree _ _ _ =>
      idnode ← finsh_node_new_id name;
      t ← make_sys_node FINSH_NODE_SYS_ASSIGN idnode a;
      c ← chain_add c t;
      tok ← next_token;
      mret (c, tok)
    end
  else mret (c, tok).
Fixpoint decl_loop (n : nat) (t : finsh_type) (c : chain) (tok : finsh_token_type) : PM (list tree) :=
  if decide (tok = finsh_token_type_comma) then
    match n with
    | O => halt
    | S n =>
      name ← declare t;
      tok ← next_token;
      '(c, tok) ← decl_assign name c tok;
      decl_loop n t c tok
    end
  else
    check_token tok finsh_token_type_semicolon;;
    mret (fst c).
Definition proc_variable_decl : PM (list tree) :=
  t ← proc_type;
  name ← declare t;
  tok ← next_token;
  match tok with
  | finsh_token_type_comma => decl_loop fuel t ([], false) tok
  | finsh_token_type_assign => '(c, tok) ← decl_assign name ([], false) tok; decl_loop fuel t c tok
  | finsh_token_type_semicolon => mret []
  | _ => finsh_error_set FINSH_ERROR_EXPECT_TYPE;; mret []
  end.

(** The statements up to [node], and those that are linked behind it: the next
    statement replaces these. *)
Definition link (root : option (list tree * list tree)) (l : list tree) : option (list tree * list tree) :=
  match root, l with
  | None, [] => None
  | None, t :: l => Some ([t], l)
  | Some (done, _), [] => Some (done, [])
  | Some (done, _), t :: l => Some (done ++ [t], l)
  end.
Fixpoint parser_loop (n : nat) (root : option (list tree * list tree)) (tok : finsh_token_type) : PM (option (list tree * list tree)) :=
  if decide (tok = finsh_token_type_eof \/ tok = finsh_token_type_bad) then mret root
  else match n with
  | O => halt
  | S n =>
    replay_token;;
    l ← (if is_base_type tok || bool_decide (tok = finsh_token_type_unsigned) then proc_variable_decl else proc_expr_statement);
    let again := bool_decide (tok <> finsh_token_type_identifier /\ root <> None /\ l = []) && negb (is_base_type tok || bool_decide (tok = finsh_token_type_unsigned)) in
    when again (next_token;; mret tt);;
    let root := link root l in
    match root with
    | None => mret None
    | Some _ => tok ← next_token; parser_loop n root tok
    end
  end.
End statements.

Definition statements (root : option (list tree * list tree)) : tree :=
  match root with None => Null | Some (done, rest) => foldr set_sibling Null (done ++ rest) end.

(** Each call takes a token, or is in one that has been taken; each token is a
    character of the line at least. *)
Definition finsh_parser_run (l : list Z) : PM tree :=
  on_token (fun t => Some (tt, finsh_token_init l (terrno t)));;
  let fuel := (2 * length l + 4)%nat in
  tok ← next_token;
  root ← parser_loop fuel fuel None tok;
  mret (statements root).
End parser.
