(* ===== verification/FinshBlocks.v ===== *)
(** * FinshBlocks: the heap of the strings is tiled by its blocks

    The heap of [FinshHeap] against a specification.  Its 128 bytes are tiled by
    blocks; the free ones and the allocated ones are each a list in memory, in the
    order of the addresses; no two free ones are neighbours, and the last one is
    free, without which the links of freed blocks would not be right.  [owns] says
    which blocks are allocated: freeing takes one away, the collector those that no
    variable points to, and allocating adds one, or there is no room for it. *)

From S2P Require Import Prelude Bytes KString FinshVm FinshHeap.

(** ** Lists in memory *)

(** The word behind the length is the next block. *)
Fixpoint seg (b : mem) (p : Z) (l : list Z) (q : Z) : Prop :=
  match l with [] => p = q | a :: l => p = a /\ seg b (load32 (a + 4) b) l q end.
Definition other (w : which) : which := match w with Free => Allocated | Allocated => Free end.

(** Headers do not overlap. *)
Definition spaced (l : list Z) : Prop := forall a x, a ∈ l -> x ∈ l -> a = x \/ a + 8 <= x \/ x + 8 <= a.
(** Only the links of [l] are changed. *)
Definition relinked (l : list Z) (b b' : mem) : Prop := forall x, Forall (fun a => ~ (a + 4 <= x < a + 8)) l -> b' x = b x.

Lemma load32_ext a b b' : (forall x, a <= x < a + 4 -> b' x = b x) -> load32 a b' = load32 a b.
Proof. intros H. unfold load32. by rewrite !H by lia. Qed.

Lemma load32_other a x v b : x + 4 <= a \/ a + 4 <= x -> load32 x (store32 a v b) = load32 x b.
Proof. intros H. apply load32_ext. intros y Hy. rewrite store32_spec. by rewrite decide_False by lia. Qed.

Lemma relinked_refl l b : relinked l b b.
Proof. done. Qed.

Lemma relinked_trans l b b1 b2 : relinked l b b1 -> relinked l b1 b2 -> relinked l b b2.
Proof. intros H1 H2 x Hx. by rewrite H2, H1. Qed.

Lemma relinked_store l a v b : a ∈ l -> relinked l b (store32 (a + 4) v b).
Proof. intros H x Hx. rewrite Forall_forall in Hx. specialize (Hx _ H). rewrite store32_spec. by rewrite decide_False by lia. Qed.

Lemma relinked_mono l l' b b' : l ⊆ l' -> relinked l b b' -> relinked l' b b'.
Proof. intros H H' x Hx. apply H'. rewrite Forall_forall in *. auto. Qed.

Lemma links_app b l1 : forall p l2 q, seg b p (l1 ++ l2) q <-> exists m, seg b p l1 m /\ seg b m l2 q.
Proof.
  induction l1 as [|a l1 IH]; intros p l2 q; cbn [app seg].
  - split; [by exists p|]. by intros (m & -> & H).
  - rewrite IH. naive_solver.
Qed.

Lemma links_frame b b' l : forall p q, (forall a, a ∈ l -> load32 (a + 4) b' = load32 (a + 4) b) -> seg b p l q -> seg b' p l q.
Proof.
  induction l as [|a l IH]; intros p q H Hs; [done|]. destruct Hs as [-> Hs]. cbn [seg]. split; [done|].
  rewrite H by constructor. apply IH; [|done]. intros x Hx. apply H. by constructor.
Qed.

Lemma get_next_ok a s : 0 < a -> get_next a s = Some (load32 (a + 4) (heap_mem s), s).
Proof. intros H. unfold get_next, word_at, deref. by rewrite !decide_False by lia. Qed.

Lemma get_length_ok a s : 0 < a -> get_length a s = Some (load32 a (heap_mem s), s).
Proof. intros H. unfold get_length, word_at, deref. by rewrite decide_False by lia. Qed.

Lemma set_next_ok a v s : 0 < a -> set_next a v s = Some (tt, set_mem (store32 (a + 4) (u32 v)) s).
Proof. intros H. unfold set_next. by rewrite decide_False by lia. Qed.

Lemma set_length_ok a v s : 0 < a -> set_length a v s = Some (tt, set_mem (store32 a (u32 v)) s).
Proof. intros H. unfold set_length. by rewrite decide_False by lia. Qed.

Lemma set_list_ok w p s : list_head w (set_list w p s) = p /\ list_head (other w) (set_list w p s) = list_head (other w) s /\
  heap_mem (set_list w p s) = heap_mem s.
Proof. by destruct w. Qed.

Lemma list_head_mem w f s : list_head w (set_mem f s) = list_head w s.
Proof. by destruct w. Qed.

Section links.
Context (A : list Z) (HA : spaced A) (Hpos : Forall (fun a => 0 < a < 2 ^ 32) A).

Lemma pos a : a ∈ A -> 0 < a.
Proof. intros H. rewrite Forall_forall in Hpos. by apply Hpos. Qed.

Lemma address a : a ∈ A \/ a = 0 -> u32 (u32 a) = a.
Proof. intros [H| ->]; [|done]. rewrite Forall_forall in Hpos. specialize (Hpos _ H). rewrite wrap_wrap by lia. apply wrap_small. unfold in_range. lia. Qed.

Lemma next_store a x v b : a ∈ A -> x ∈ A -> v ∈ A \/ v = 0 -> load32 (x + 4) (store32 (a + 4) (u32 v) b) = if decide (x = a) then v else load32 (x + 4) b.
Proof.
  intros Ha Hx Hv. case_decide as E; [subst; by rewrite load32_same, address|].
  apply load32_other. specialize (HA _ _ Ha Hx). lia.
Qed.

Lemma relinked_length l b b' x : l ⊆ A -> x ∈ A -> relinked l b b' -> load32 x b' = load32 x b.
Proof.
  intros Hl Hx H. apply load32_ext. intros y Hy. apply H. apply Forall_forall. intros a Ha.
  destruct (HA _ _ (Hl _ Ha) Hx) as [->|?]; lia.
Qed.

Lemma relinked_next l b b' x : l ⊆ A -> x ∈ A -> x ∉ l -> relinked l b b' -> load32 (x + 4) b' = load32 (x + 4) b.
Proof.
  intros Hl Hx Hn H. apply load32_ext. intros y Hy. apply H. apply Forall_forall. intros a Ha.
  destruct (HA _ _ (Hl _ Ha) Hx) as [->|?]; [done|lia].
Qed.

Lemma seg_store b p l q a v : a ∈ A -> l ⊆ A -> a ∉ l -> seg b p l q -> seg (store32 (a + 4) v b) p l q.
Proof. intros Ha Hl Hn. apply links_frame. intros x Hx. apply load32_other. destruct (HA _ _ Ha (Hl _ Hx)) as [->|?]; [done|lia]. Qed.

(** A list whose last link is [q] gets another one. *)
Lemma seg_redirect b p l c q v : c ∈ A -> l ⊆ A -> c ∉ l -> v ∈ A \/ v = 0 -> seg b p (l ++ [c]) q -> seg (store32 (c + 4) (u32 v) b) p (l ++ [c]) v.
Proof.
  intros Hc Hl Hn Hv H. apply links_app in H as (m & H1 & <- & H2). apply links_app. exists m. split; [by apply seg_store|].
  cbn [seg]. split; [done|]. rewrite next_store by done. by rewrite decide_True.
Qed.

Lemma find_previous_ok s h c l1 : forall fuel p, seg (heap_mem s) p (l1 ++ [c]) h -> l1 ++ [c] ⊆ A -> h ∉ l1 ++ [c] -> (length l1 < fuel)%nat ->
  find_previous fuel p h s = Some (c, s).
Proof.
  induction l1 as [|a l1 IH]; intros [|fuel] p Hs Hl Hh Hf; [cbn in Hf; lia| |cbn in Hf; lia|].
  - cbn [app seg] in Hs. destruct Hs as [-> Hn]. cbn [find_previous]. assert (0 < c) by (apply pos, Hl; constructor).
    rewrite decide_False by lia. rewrite (bind_eval _ _ _ _ _ (get_next_ok _ _ ltac:(done))). by rewrite decide_True.
  - cbn [app seg] in Hs. destruct Hs as [-> Hs]. cbn [find_previous]. assert (0 < a) by (apply pos, Hl; constructor).
    rewrite decide_False by lia. rewrite (bind_eval _ _ _ _ _ (get_next_ok _ _ ltac:(done))).
    rewrite decide_False; [apply IH; [done|set_solver|set_solver|cbn in Hf; lia]|].
    intros E. apply Hh. destruct l1 as [|d l1]; cbn [app seg] in Hs; destruct Hs as [E' _]; rewrite E' in E; subst; set_solver.
Qed.

Lemma insert_point_ok s h c q l1 : forall fuel p, seg (heap_mem s) p (l1 ++ [c]) q -> l1 ++ [c] ⊆ A -> Forall (fun a => a < h) (l1 ++ [c]) ->
  h < q \/ q = 0 -> (length l1 < fuel)%nat -> insert_point fuel p h s = Some (c, s).
Proof.
  induction l1 as [|a l1 IH]; intros [|fuel] p Hs Hl Hh Hq Hf; [cbn in Hf; lia| |cbn in Hf; lia|].
  - cbn [app seg] in Hs. destruct Hs as [-> Hn]. cbn [insert_point]. assert (0 < c) by (apply pos, Hl; constructor).
    rewrite (bind_eval _ _ _ _ _ (get_next_ok _ _ ltac:(done))), Hn. by rewrite decide_True by lia.
  - cbn [app seg] in Hs. destruct Hs as [-> Hs]. cbn [insert_point]. assert (0 < a) by (apply pos, Hl; constructor).
    rewrite (bind_eval _ _ _ _ _ (get_next_ok _ _ ltac:(done))). apply Forall_cons in Hh as [_ Hh].
    rewrite decide_False; [apply IH; [done|set_solver|done|done|cbn in Hf; lia]|].
    destruct l1 as [|d l1]; cbn [app seg] in Hs; destruct Hs as [E' _]; rewrite E'.
    + apply Forall_cons in Hh as [? _]. assert (0 < c) by (apply pos, Hl; set_solver). lia.
    + apply Forall_cons in Hh as [? _]. assert (0 < d) by (apply pos, Hl; set_solver). lia.
Qed.

Lemma seg_head b p l1 c q (P : Z -> Prop) : seg b p (l1 ++ [c]) q -> Forall P (l1 ++ [c]) -> P p.
Proof. intros Hs Hp. destruct l1; destruct Hs as [-> _]; by apply Forall_cons in Hp as [? _]. Qed.

(** [s'] has [l] as the list [w], and the other list as [s] has it. *)
Definition relists (w : which) (l k : list Z) (s s' : heap) : Prop :=
  seg (heap_mem s') (list_head w s') l 0 /\ list_head (other w) s' = list_head (other w) s /\ relinked k (heap_mem s) (heap_mem s').

Lemma finsh_block_insert_ok w s h l1 l2 : h ∈ A -> l1 ++ l2 ⊆ A -> NoDup (l1 ++ l2) -> seg (heap_mem s) (list_head w s) (l1 ++ l2) 0 ->
  Forall (fun a => a < h) l1 -> Forall (fun a => h < a) l2 -> (l2 = [] -> load32 (h + 4) (heap_mem s) = 0) -> (length l1 <= BLOCKS)%nat ->
  exists s', finsh_block_insert w h s = Some (tt, s') /\ relists w (l1 ++ h :: l2) (h :: l1) s s'.
Proof.
  intros Hh Hl Hd Hs H1 H2 H0 Hf. unfold finsh_block_insert, relists. rewrite (bind_eval _ _ _ _ _ eq_refl).
  pose proof (pos h Hh) as Hp. destruct l1 as [|c l1 _] using rev_ind.
  - destruct l2 as [|d l2]; cbn [app seg] in *.
    + rewrite decide_True by done. eexists. split; [done|]. destruct (set_list_ok w h s) as (-> & -> & ->).
      cbn [seg]. rewrite H0 by done. split_and!; [done..|apply relinked_refl].
    + destruct Hs as [Hd' Hs]. assert (d ∈ A) as HdA by set_solver. pose proof (pos d HdA). apply Forall_cons in H2 as [H2 H2'].
      rewrite decide_False, decide_True by lia. rewrite (bind_eval _ _ _ _ _ (set_next_ok _ _ _ Hp)). eexists. split; [done|].
      destruct (set_list_ok w h (set_mem (store32 (h + 4) (u32 (list_head w s))) s)) as (-> & -> & ->). rewrite list_head_mem.
      change (heap_mem (set_mem ?f s)) with (f (heap_mem s)). cbn [seg]. rewrite Hd', next_store, decide_True by (try left; done).
      split_and!; [done|done| |done|apply relinked_store; constructor].
      rewrite next_store, decide_False by (first [by left|done|lia]). apply seg_store; [done|set_solver| |done].
      intros ?. rewrite Forall_forall in H2'. specialize (H2' h ltac:(done)). lia.
  - rewrite <- app_assoc in Hs, Hl. cbn [app] in Hs, Hl.
    assert (c ∈ A) as Hc by set_solver. pose proof (pos c Hc). apply NoDup_app in Hd as (Hd & Hd2 & _). apply NoDup_app in Hd as (_ & Hd & _).
    assert (c ∉ l1) as Hc1 by set_solver. assert (c ∉ l2) as Hc2 by set_solver. clear Hd Hd2.
    change (c :: l2) with ([c] ++ l2) in Hs. rewrite app_assoc in Hs. apply links_app in Hs as (q & Hs1 & Hs2).
    pose proof (seg_head _ _ _ _ _ _ Hs1 H1) as Hlt. pose proof (seg_head _ _ _ _ _ (fun a => a ∈ A) Hs1 ltac:(rewrite Forall_forall; set_solver)) as Hin.
    cbn beta in Hlt, Hin. pose proof (pos _ Hin). do 2 rewrite decide_False by lia.
    assert (h ∉ l1 ++ [c]) as Hh1 by (intros ?; rewrite Forall_forall in H1; specialize (H1 h ltac:(done)); lia).
    assert (h ∉ l2) as Hh2 by (intros ?; rewrite Forall_forall in H2; specialize (H2 h ltac:(done)); lia).
    assert (q ∈ A /\ h < q \/ l2 = [] /\ q = 0) as Hq.
    { destruct l2 as [|d l2]; [by right|]. destruct Hs2 as [-> _]. left. apply Forall_cons in H2 as [? _]. split; [set_solver|done]. }
    rewrite (bind_eval _ _ _ _ _ (insert_point_ok s h c q l1 BLOCKS _ Hs1 ltac:(set_solver) H1 ltac:(naive_solver) ltac:(rewrite length_app in Hf; cbn in Hf; lia))).
    rewrite (bind_eval _ _ _ _ _ (get_next_ok c s ltac:(done))).
    assert (load32 (c + 4) (heap_mem s) = q) as Eq by (apply links_app in Hs1 as (? & _ & <- & E); exact E). rewrite Eq.
    assert (exists s1, when (bool_decide (q <> 0)) (set_next h q) s = Some (tt, s1) /\ relinked [h] (heap_mem s) (heap_mem s1) /\
      load32 (h + 4) (heap_mem s1) = q /\ list_head w s1 = list_head w s /\ list_head (other w) s1 = list_head (other w) s) as (s1 & Ew & R1 & E1 & Ew1 & Ew2).
    { destruct (decide (q = 0)) as [E|E].
      - exists s. rewrite bool_decide_eq_false_2 by (intros ?; contradiction). split_and!; try done. rewrite E. apply H0. naive_solver lia.
      - eexists. rewrite bool_decide_eq_true_2 by done. split; [by apply set_next_ok|]. rewrite !list_head_mem.
        change (heap_mem (set_mem ?f s)) with (f (heap_mem s)). split_and!; try done; [apply relinked_store; constructor|].
        rewrite next_store, decide_True; [done..|naive_solver]. }
    rewrite (bind_eval _ _ _ _ _ Ew), set_next_ok by done. eexists. split; [done|]. rewrite !list_head_mem, Ew1, Ew2.
    change (heap_mem (set_mem ?f s1)) with (f (heap_mem s1)). split_and!; [|done|].
    + change (h :: l2) with ([h] ++ l2). rewrite app_assoc. rewrite <- (app_assoc (l1 ++ [c])). apply links_app. exists h. split.
      * eapply seg_redirect; [done|set_solver|done|by left|]. eapply links_frame; [|exact Hs1]. intros x Hx. apply (relinked_next [h]); set_solver.
      * cbn [seg app]. split; [done|]. rewrite next_store, decide_False by (first [done|by left|set_solver]). rewrite E1.
        apply seg_store; [done|set_solver|done|]. eapply links_frame; [|exact Hs2]. intros x Hx. apply (relinked_next [h]); set_solver.
    + eapply relinked_trans; [eapply relinked_mono, R1; set_solver|]. apply relinked_store. set_solver.
Qed.

Lemma finsh_block_remove_ok w s h l1 l2 : l1 ++ h :: l2 ⊆ A -> NoDup (l1 ++ h :: l2) -> seg (heap_mem s) (list_head w s) (l1 ++ h :: l2) 0 ->
  (length l1 <= BLOCKS)%nat -> exists s', finsh_block_remove w h s = Some (tt, s') /\ relists w (l1 ++ l2) (h :: l1) s s'.
Proof.
  intros Hl Hd Hs Hf. unfold finsh_block_remove, relists. rewrite (bind_eval _ _ _ _ _ eq_refl).
  assert (h ∈ A) as Hh by set_solver. pose proof (pos h Hh) as Hp. apply NoDup_app in Hd as (Hd & Hd1 & Hd2). apply NoDup_cons in Hd2 as [Hd2 _].
  apply links_app in Hs as (m & Hs1 & -> & Hs2).
  assert (load32 (h + 4) (heap_mem s) ∈ A \/ load32 (h + 4) (heap_mem s) = 0) as Hq.
  { destruct l2; cbn [seg] in Hs2; [by right|]. destruct Hs2 as [-> _]. left. set_solver. }
  destruct l1 as [|c l1 _] using rev_ind.
  - cbn [seg] in Hs1. rewrite decide_True by done. rewrite (bind_eval _ _ _ _ _ (get_next_ok h s Hp)), (bind_eval _ _ _ _ _ eq_refl), set_next_ok by done.
    eexists. split; [done|]. rewrite !list_head_mem. destruct (set_list_ok w (load32 (h + 4) (heap_mem s)) s) as (E1 & E2 & E3). rewrite E1, E2.
    change (heap_mem (set_mem ?f ?s)) with (f (heap_mem s)). rewrite E3. cbn [app]. split_and!; [|done|apply relinked_store; constructor].
    apply seg_store; [done|set_solver|done|done].
  - apply NoDup_app in Hd as (_ & Hd & _). assert (c ∈ A) as Hc by set_solver. pose proof (pos c Hc).
    pose proof (fun P => seg_head _ _ _ _ _ P Hs1) as Hhd. rewrite decide_False.
    2:{ intros E. apply (Hd1 h); [|constructor]. rewrite <- E. apply (Hhd (fun a => a ∈ l1 ++ [c])). by apply Forall_forall. }
    rewrite (bind_eval _ _ _ _ _ (find_previous_ok s h c l1 BLOCKS _ Hs1 ltac:(set_solver) ltac:(set_solver) ltac:(rewrite length_app in Hf; cbn in Hf; lia))).
    rewrite decide_False by lia. rewrite (bind_eval _ _ _ _ _ (get_next_ok h s Hp)), set_next_ok by done. eexists. split; [done|].
    rewrite !list_head_mem. change (heap_mem (set_mem ?f s)) with (f (heap_mem s)). split_and!; [|done|apply relinked_store; set_solver].
    apply links_app. eexists. split; [eapply seg_redirect; [done|set_solver|set_solver|done|exact Hs1]|]. apply seg_store; [done|set_solver|set_solver|done].
Qed.

(** A block goes from one list to the other. *)
Lemma move_block w s h U1 U2 V1 V2 (clear : bool) : U1 ++ h :: U2 ⊆ A -> V1 ++ V2 ⊆ A -> NoDup (U1 ++ h :: U2) -> NoDup (V1 ++ V2) ->
  (forall x, x ∈ U1 ++ h :: U2 -> x ∈ V1 ++ V2 -> False) -> seg (heap_mem s) (list_head w s) (U1 ++ h :: U2) 0 ->
  seg (heap_mem s) (list_head (other w) s) (V1 ++ V2) 0 -> Forall (fun a => a < h) V1 -> Forall (fun a => h < a) V2 -> (V2 = [] -> clear = true) ->
  (length U1 <= BLOCKS)%nat -> (length V1 <= BLOCKS)%nat ->
  exists s1 s2 s3, finsh_block_remove w h s = Some (tt, s1) /\ when clear (set_next h 0) s1 = Some (tt, s2) /\
    finsh_block_insert (other w) h s2 = Some (tt, s3) /\ seg (heap_mem s3) (list_head w s3) (U1 ++ U2) 0 /\
    seg (heap_mem s3) (list_head (other w) s3) (V1 ++ h :: V2) 0 /\ relinked A (heap_mem s) (heap_mem s3).
Proof.
  intros HU HV DU DV Hd SU SV H1 H2 Hc LU LV. assert (h ∈ A) as Hh by set_solver. pose proof (pos h Hh) as Hp.
  destruct (finsh_block_remove_ok w s h U1 U2 HU DU SU LU) as (s1 & E1 & G1 & G2 & G3).
  set (s2 := if clear then set_mem (store32 (h + 4) (u32 0)) s1 else s1). exists s1, s2.
  assert (forall w', list_head w' s2 = list_head w' s1) as Ew by (intros w'; unfold s2; destruct clear; [apply list_head_mem|done]).
  assert (relinked [h] (heap_mem s1) (heap_mem s2)) as R2 by (unfold s2; destruct clear; [apply relinked_store; constructor|apply relinked_refl]).
  assert (relinked (h :: U1) (heap_mem s) (heap_mem s2)) as R by (eapply relinked_trans; [exact G3|eapply relinked_mono, R2; set_solver]).
  destruct (finsh_block_insert_ok (other w) s2 h V1 V2 Hh HV DV) as (s3 & E3 & I1 & I2 & I3); try done.
  - rewrite Ew, G2. eapply links_frame; [|exact SV]. intros x Hx. eapply relinked_next, R; [set_solver|set_solver|].
    intros ?. apply (Hd x); set_solver.
  - intros ->. unfold s2. rewrite Hc by done. change (heap_mem (set_mem ?f s1)) with (f (heap_mem s1)). by rewrite load32_same.
  - exists s3. split; [done|]. split; [by unfold when, s2; destruct clear; [apply set_next_ok|]|]. split; [done|].
    split; [|split; [done|]].
    + replace (other (other w)) with w in I2 by (by destruct w). rewrite I2, Ew.
      apply NoDup_app in DU as (DU1 & DU & DU2). apply NoDup_cons in DU2 as [DU2 _].
      eapply links_frame, G1. intros x Hx. assert (x <> h) by (intros ->; apply elem_of_app in Hx as [Hx|Hx]; [apply (DU h Hx); constructor|done]).
      assert (x ∉ V1) by (intros ?; apply (Hd x); set_solver).
      rewrite (relinked_next (h :: V1) _ (heap_mem s3) x) by (try exact I3; set_solver). eapply relinked_next, R2; set_solver.
    + eapply relinked_trans; [eapply relinked_mono, R; set_solver|eapply relinked_mono, I3; set_solver].
Qed.
End links.

(** ** The tiles of the heap: the length of the data, and whether it is allocated *)

Abbreviation tiles := (list (Z * bool)).
Fixpoint total (bs : tiles) : Z := match bs with [] => 0 | (n, _) :: bs => HEADER + n + total bs end.
Fixpoint starts (p : Z) (bs : tiles) : list Z := match bs with [] => [] | (n, _) :: bs => p :: starts (p + HEADER + n) bs end.
Fixpoint headers (u : bool) (p : Z) (bs : tiles) : list Z :=
  match bs with [] => [] | (n, v) :: bs => if eqb u v then p :: headers u (p + HEADER + n) bs else headers u (p + HEADER + n) bs end.
Fixpoint sized (b : mem) (p : Z) (bs : tiles) : Prop := match bs with [] => True | (n, _) :: bs => load32 p b = n /\ sized b (p + HEADER + n) bs end.
(** What is allocated: where the data is, and its length. *)
Fixpoint allocated (p : Z) (bs : tiles) : list (Z * Z) :=
  match bs with [] => [] | (n, u) :: bs => if u : bool then (p + HEADER, n) :: allocated (p + HEADER + n) bs else allocated (p + HEADER + n) bs end.
Definition nonneg (bs : tiles) : Prop := Forall (fun t => 0 <= fst t) bs.
Definition ends_free (bs : tiles) : Prop := exists l n, bs = l ++ [(n, false)].
Fixpoint coalesced (bs : tiles) : Prop :=
  match bs with [] => True | (_, u) :: bs => match bs with (_, v) :: _ => u || v = true | [] => True end /\ coalesced bs end.

Lemma tiles_total_app l1 l2 : total (l1 ++ l2) = total l1 + total l2.
Proof. induction l1 as [|[n u] l1 IH]; cbn; [done|]. rewrite IH. lia. Qed.

Lemma starts_app l1 : forall p l2, starts p (l1 ++ l2) = starts p l1 ++ starts (p + total l1) l2.
Proof. induction l1 as [|[n u] l1 IH]; intros p l2; cbn; [by rewrite Z.add_0_r|]. rewrite IH. do 3 f_equal. lia. Qed.

Lemma headers_app u l1 : forall p l2, headers u p (l1 ++ l2) = headers u p l1 ++ headers u (p + total l1) l2.
Proof.
  induction l1 as [|[n v] l1 IH]; intros p l2; cbn; [by rewrite Z.add_0_r|]. rewrite IH.
  replace (p + HEADER + n + total l1) with (p + (HEADER + n + total l1)) by lia. by destruct (eqb u v).
Qed.

Lemma sized_app b l1 : forall p l2, sized b p (l1 ++ l2) <-> sized b p l1 /\ sized b (p + total l1) l2.
Proof.
  induction l1 as [|[n u] l1 IH]; intros p l2; cbn; [rewrite Z.add_0_r; naive_solver|]. rewrite IH.
  replace (p + HEADER + n + total l1) with (p + (HEADER + n + total l1)) by lia. naive_solver.
Qed.

Lemma tiles_allocated_app l1 : forall p l2, allocated p (l1 ++ l2) = allocated p l1 ++ allocated (p + total l1) l2.
Proof.
  induction l1 as [|[n u] l1 IH]; intros p l2; cbn; [by rewrite Z.add_0_r|]. rewrite IH.
  replace (p + HEADER + n + total l1) with (p + (HEADER + n + total l1)) by lia. by destruct u.
Qed.

Lemma headers_allocated p bs : headers true p bs = (fun x => fst x - HEADER) <$> allocated p bs.
Proof.
  revert p. induction bs as [|[n u] bs IH]; intros p; cbn; [done|]. rewrite IH. destruct u; cbn; [|done]. f_equal. lia.
Qed.

Lemma total_nonneg bs : nonneg bs -> 8 * Z.of_nat (length bs) <= total bs.
Proof. induction 1 as [|[n u] bs H _ IH]; cbn in *; [lia|]. unfold HEADER. lia. Qed.

Lemma starts_range p bs x : nonneg bs -> x ∈ starts p bs -> p <= x /\ x + 8 <= p + total bs.
Proof.
  intros H. revert p. induction H as [|[n u] bs Hn H IH]; intros p Hx; cbn in *; [set_solver|]. unfold HEADER in *.
  apply total_nonneg in H. apply elem_of_cons in Hx as [->|Hx]; [lia|]. specialize (IH _ Hx). lia.
Qed.

Lemma starts_spaced p bs : nonneg bs -> spaced (starts p bs).
Proof.
  intros H. revert p. induction H as [|[n u] bs Hn H IH]; intros p a x Ha Hx; cbn in *; [set_solver|]. unfold HEADER in *.
  apply elem_of_cons in Ha as [->|Ha]; apply elem_of_cons in Hx as [->|Hx]; [by left|..|by eapply IH].
  - apply starts_range in Hx; [lia|done].
  - apply starts_range in Ha; [lia|done].
Qed.

Lemma headers_starts u p bs : headers u p bs ⊆ starts p bs.
Proof. revert p. induction bs as [|[n v] bs IH]; intros p; cbn; [done|]. specialize (IH (p + HEADER + n)). destruct (eqb u v); set_solver. Qed.

Lemma headers_range u p bs x : nonneg bs -> x ∈ headers u p bs -> p <= x /\ x + 8 <= p + total bs.
Proof. intros H Hx. apply starts_range; [done|]. by apply headers_starts in Hx. Qed.

Lemma headers_NoDup u p bs : nonneg bs -> NoDup (headers u p bs).
Proof.
  intros H. revert p. induction H as [|[n v] bs Hn H IH]; intros p; cbn in *; [constructor|].
  destruct (eqb u v); [|apply IH]. apply NoDup_cons. split; [|apply IH]. intros Hx. apply headers_range in Hx; [|done]. unfold HEADER in *. lia.
Qed.

Lemma headers_apart p bs x : nonneg bs -> x ∈ headers true p bs -> x ∉ headers false p bs.
Proof.
  intros H. revert p. induction H as [|[n v] bs Hn H IH]; intros p; cbn in *; [set_solver|]. unfold HEADER in *.
  pose proof (fun u => headers_range u (p + 8 + n) bs). destruct v; cbn.
  - intros [->|Hx]%elem_of_cons; [|by apply IH]. intros Hx. apply H0 in Hx; [lia|done].
  - intros Hx [->|Hx']%elem_of_cons; [apply H0 in Hx; [lia|done]|]. by eapply IH.
Qed.

Lemma headers_length u p bs : (length (headers u p bs) <= length bs)%nat.
Proof. revert p. induction bs as [|[n v] bs IH]; intros p; cbn; [lia|]. specialize (IH (p + HEADER + n)). destruct (eqb u v); cbn; lia. Qed.

(** A tile ends where the tiles do, or before. *)
Lemma tile_end b p bs x : nonneg bs -> sized b p bs -> x ∈ starts p bs -> x + HEADER + load32 x b <= p + total bs.
Proof.
  intros H. revert p. induction H as [|[n v] bs Hn H IH]; intros p Hs Hx; cbn in *; [set_solver|]. destruct Hs as [Hl Hs].
  apply total_nonneg in H. apply elem_of_cons in Hx as [->|Hx]; [lia|]. specialize (IH _ Hs Hx). lia.
Qed.

Lemma seg_end b l : forall p q q', seg b p l q -> seg b p l q' -> q = q'.
Proof. induction l as [|a l IH]; intros p q q'; cbn [seg]; [congruence|]. intros [_ H] [_ H']. by eapply IH. Qed.

Lemma sized_frame b b' bs : forall p, (forall x, x ∈ starts p bs -> load32 x b' = load32 x b) -> sized b p bs -> sized b' p bs.
Proof.
  induction bs as [|[n u] bs IH]; intros p Hf; cbn in *; [done|]. intros [H1 H2]. rewrite Hf by constructor. split; [done|].
  apply IH; [|done]. intros x Hx. apply Hf. by constructor.
Qed.

Lemma headers_none u p bs : Forall (fun t => snd t = negb u) bs -> headers u p bs = [].
Proof. intros H. revert p. induction H as [|[n v] bs Hv H IH]; intros p; cbn in *; [done|]. subst v. by destruct u; cbn. Qed.

(** What a free tile may be next to. *)
Definition ends_used (l : tiles) : Prop := match last l with Some (_, u) => u = true | None => True end.
Definition starts_used (l : tiles) : Prop := match l with (_, u) :: _ => u = true | [] => True end.

Lemma coalesced_middle l1 x l2 : coalesced (l1 ++ (x, false) :: l2) <-> coalesced l1 /\ coalesced l2 /\ ends_used l1 /\ starts_used l2.
Proof.
  induction l1 as [|[y u] l1 IH]; cbn [app coalesced].
  - unfold ends_used, starts_used. cbn [last]. destruct l2 as [|[z v] l2]; cbn [orb]; naive_solver.
  - rewrite IH. destruct l1 as [|[z v] l1]; cbn [app coalesced].
    + unfold ends_used. cbn [last]. rewrite orb_false_r. naive_solver.
    + unfold ends_used. change (last ((y, u) :: (z, v) :: l1)) with (last ((z, v) :: l1)). naive_solver.
Qed.

Lemma ends_cases l : ends_used l \/ exists k m, l = k ++ [(m, false)].
Proof.
  destruct l as [|[m u] l _] using rev_ind; [by left|]. unfold ends_used. rewrite last_snoc. destruct u; [by left|]. right. by exists l, m.
Qed.

Lemma starts_cases l : starts_used l \/ exists m k, l = (m, false) :: k.
Proof. destruct l as [|[m u] l]; [by left|]. destruct u; [by left|]. right. by exists m, l. Qed.

Lemma allocated_run p l1 m mid l2 : Forall (fun t => snd t = negb true) mid ->
  allocated p (l1 ++ (m + total mid, false) :: l2) = allocated p (l1 ++ (m, false) :: mid ++ l2).
Proof.
  intros H. rewrite !tiles_allocated_app. f_equal. cbn [allocated]. rewrite tiles_allocated_app.
  assert (forall p, allocated p mid = []) as E.
  { induction H as [|[n u] mid Hu _ IH]; intros p'; [done|]. cbn in Hu. subst u. apply IH. }
  rewrite E. cbn [app]. f_equal. lia.
Qed.

Definition list_of (u : bool) : which := if u then Allocated else Free.
(** Only the header at [c] is changed. *)
Definition only (c : Z) (b b' : mem) : Prop := forall x, ~ (c <= x < c + 8) -> b' x = b x.

Section strings.
Context (base : Z) (Hbase : 0 < base /\ base + FINSH_HEAP_MAX < 2 ^ 32).

(** The heap in memory has the tiles [bs]; the last one is always free. *)
Record tiled (s : heap) (bs : tiles) : Prop := Tiled {
  tiled_nonneg : nonneg bs;
  tiled_total : total bs = FINSH_HEAP_MAX;
  tiled_ends : ends_free bs;
  tiled_sized : sized (heap_mem s) base bs;
  tiled_links u : seg (heap_mem s) (list_head (list_of u) s) (headers u base bs) 0
}.

Lemma tiled_starts s bs : tiled s bs -> spaced (starts base bs) /\ Forall (fun a => 0 < a < 2 ^ 32) (starts base bs).
Proof.
  intros [Hn Ht _ _ _]. split; [by apply starts_spaced|]. apply Forall_forall. intros x Hx. apply starts_range in Hx; [|done].
  unfold FINSH_HEAP_MAX in *. lia.
Qed.

Lemma tiled_blocks s bs : tiled s bs -> (length bs <= BLOCKS)%nat.
Proof. intros [Hn Ht _ _ _]. apply total_nonneg in Hn. unfold FINSH_HEAP_MAX, BLOCKS in *. lia. Qed.

(** What the parts of the tiles have to do with each other. *)
Lemma tiled_middle l1 n u l2 : nonneg (l1 ++ (n, u) :: l2) ->
  nonneg l1 /\ 0 <= n /\ nonneg l2 /\ starts base (l1 ++ (n, u) :: l2) = starts base l1 ++ base + total l1 :: starts (base + total l1 + HEADER + n) l2 /\
  (forall x, x ∈ starts base l1 -> x + 8 <= base + total l1) /\ (forall x, x ∈ starts (base + total l1 + HEADER + n) l2 -> base + total l1 + 8 + n <= x).
Proof.
  intros H. apply Forall_app in H as [H1 H2]. apply Forall_cons in H2 as [Hn H2]. split_and!; [done|done|done|by rewrite starts_app| |].
  - intros x Hx. apply starts_range in Hx; [lia|done].
  - intros x Hx. apply starts_range in Hx; [unfold HEADER in *; lia|done].
Qed.

(** A free tile takes in the free ones behind it. *)
Lemma absorb s s' k1 m mid k2 q : let c := base + total k1 in
  tiled s (k1 ++ (m, false) :: mid ++ k2) -> Forall (fun t => snd t = negb true) mid ->
  seg (heap_mem s) (load32 (c + 4) (heap_mem s)) (headers false (c + HEADER + m) mid) q ->
  load32 c (heap_mem s') = m + total mid -> load32 (c + 4) (heap_mem s') = q -> only c (heap_mem s) (heap_mem s') ->
  (forall w, list_head w s' = list_head w s) -> tiled s' (k1 ++ (m + total mid, false) :: k2).
Proof.
  intros c T Hmid Hq E1 E2 Ho Hw. destruct (tiled_starts _ _ T) as [Hsp _]. destruct T as [Hn Ht He Hs Hl].
  destruct (tiled_middle _ _ _ _ Hn) as (Hn1 & Hm & Hn2 & Es & R1 & R2). apply Forall_app in Hn2 as [Hn2 Hn3].
  pose proof (total_nonneg _ Hn2). fold c in Es, R1, R2. rewrite starts_app in Es, R2. unfold HEADER in *.
  assert (forall x, x ∈ starts base k1 \/ x ∈ starts (c + 8 + m + total mid) k2 -> load32 x (heap_mem s') = load32 x (heap_mem s) /\
    load32 (x + 4) (heap_mem s') = load32 (x + 4) (heap_mem s)) as Hf.
  { intros x Hx. split; apply load32_ext; intros y Hy; apply Ho; destruct Hx as [Hx|Hx]; [specialize (R1 _ Hx)|specialize (R2 x ltac:(set_solver))|
      specialize (R1 _ Hx)|specialize (R2 x ltac:(set_solver))]; lia. }
  assert (c + 8 + (m + total mid) = c + 8 + m + total mid) as Ep by lia.
  split.
  - apply Forall_app. split; [done|]. apply Forall_cons. split; [cbn; lia|done].
  - rewrite tiles_total_app in *. cbn in *. rewrite tiles_total_app in Ht. lia.
  - destruct He as (l & k & He). destruct k2 as [|t k2 _] using rev_ind; [by eexists _, _|].
    exists (k1 ++ (m + total mid, false) :: k2), k. rewrite <- app_assoc. cbn. do 3 f_equal.
    rewrite !app_comm_cons, !app_assoc in He. by apply app_inj_tail in He as [_ ->].
  - apply sized_app in Hs as [Hs1 Hs2]. cbn in Hs2. destruct Hs2 as [_ Hs2]. apply sized_app in Hs2 as [_ Hs2]. apply sized_app.
    split; [eapply sized_frame, Hs1; intros x Hx; apply Hf; by left|]. cbn. split; [done|]. unfold HEADER. fold c. rewrite Ep.
    eapply sized_frame, Hs2. intros x Hx. apply Hf. by right.
  - intros u. specialize (Hl u). rewrite headers_app in Hl |- *. cbn [headers] in *. rewrite headers_app in Hl. unfold HEADER in *. fold c in Hl |- *. rewrite Ep, Hw.
    destruct u; cbn [eqb] in *.
    + rewrite (headers_none true _ mid) in Hl by done. eapply links_frame; [|exact Hl]. intros x Hx. apply Hf.
      apply elem_of_app in Hx as [Hx|Hx]; apply headers_starts in Hx; [by left|by right].
    + apply links_app in Hl as (p & Hl1 & -> & Hl2). apply links_app in Hl2 as (q' & Hm' & Hl2). rewrite (seg_end _ _ _ _ _ Hq Hm') in *.
      apply links_app. exists c. split; [eapply links_frame, Hl1; intros x Hx; apply Hf; left; by apply headers_starts in Hx|].
      cbn [seg]. split; [done|]. rewrite E2. eapply links_frame, Hl2. intros x Hx. apply Hf. right. by apply headers_starts in Hx.
Qed.

Lemma headers_disjoint u bs x : nonneg bs -> x ∈ headers u base bs -> x ∈ headers (negb u) base bs -> False.
Proof. intros Hn H1 H2. destruct u; [by eapply (headers_apart base bs x)|by eapply (headers_apart base bs x)]. Qed.

Lemma ends_free_headers p l : ends_free l -> headers false p l <> [].
Proof. intros (k & n & ->). rewrite headers_app. cbn. by destruct (headers false p k). Qed.

Lemma list_of_other u : other (list_of u) = list_of (negb u) /\ other (list_of (negb u)) = list_of u.
Proof. by destruct u. Qed.

Lemma flip u s l1 n l2 (clear : bool) : let h := base + total l1 in
  tiled s (l1 ++ (n, u) :: l2) -> ends_free l2 -> u || clear = true ->
  exists s1 s2 s3, finsh_block_remove (list_of u) h s = Some (tt, s1) /\ when clear (set_next h 0) s1 = Some (tt, s2) /\
    finsh_block_insert (list_of (negb u)) h s2 = Some (tt, s3) /\ tiled s3 (l1 ++ (n, negb u) :: l2) /\
    relinked (starts base (l1 ++ (n, u) :: l2)) (heap_mem s) (heap_mem s3).
Proof.
  intros h T He Hc. destruct (tiled_starts _ _ T) as [HA Hpos]. pose proof (tiled_blocks _ _ T) as Hbl. destruct T as [Hn Ht _ Hs Hl].
  destruct (tiled_middle _ _ _ _ Hn) as (Hn1 & Hm & Hn2 & _ & R1 & R2). fold h in R1, R2.
  assert (forall v, headers v base (l1 ++ (n, u) :: l2) =
    headers v base l1 ++ (if eqb v u then [h] else []) ++ headers v (h + HEADER + n) l2) as Eh.
  { intros v. rewrite headers_app. cbn [headers]. fold h. by destruct (eqb v u). }
  pose proof (Eh u) as Eu. pose proof (Eh (negb u)) as Ev. replace (eqb u u) with true in Eu by (by destruct u).
  replace (eqb (negb u) u) with false in Ev by (by destruct u). cbn [app] in Eu, Ev.
  pose proof (headers_length u base l1) as L1. pose proof (headers_length (negb u) base l1) as L2. rewrite length_app in Hbl.
  destruct (move_block _ HA Hpos (list_of u) s h (headers u base l1) (headers u (h + HEADER + n) l2)
    (headers (negb u) base l1) (headers (negb u) (h + HEADER + n) l2) clear) as (s1 & s2 & s3 & E1 & E2 & E3 & G1 & G2 & R); rewrite <- ?Eu, <- ?Ev.
  - apply headers_starts.
  - apply headers_starts.
  - by apply headers_NoDup.
  - by apply headers_NoDup.
  - intros x. by apply headers_disjoint.
  - apply Hl.
  - destruct (list_of_other u) as [-> _]. apply Hl.
  - apply Forall_forall. intros x Hx%headers_starts. specialize (R1 _ Hx). lia.
  - apply Forall_forall. intros x Hx%headers_starts. specialize (R2 _ Hx). lia.
  - destruct u; [|by rewrite orb_false_l in Hc]. intros E. by apply ends_free_headers in E.
  - lia.
  - lia.
  - exists s1, s2, s3. split; [done|]. split; [done|]. destruct (list_of_other u) as [Eo _]. rewrite Eo in E3, G2. split; [done|]. split; [|done]. split.
    + apply Forall_app. split; [done|]. by apply Forall_cons.
    + rewrite tiles_total_app in *. cbn in *. lia.
    + destruct He as (l & k & ->). exists (l1 ++ (n, negb u) :: l), k. by rewrite <- app_assoc.
    + apply sized_app in Hs as [Hs1 Hs2]. eapply sized_frame; [|apply sized_app; split; [exact Hs1|exact Hs2]].
      intros x Hx. eapply (relinked_length _ HA); [reflexivity| |exact R]. rewrite starts_app in *. exact Hx.
    + intros v. rewrite headers_app. cbn [headers]. fold h. destruct (decide (v = u)) as [->|Hv].
      * by replace (eqb u (negb u)) with false by (by destruct u).
      * replace v with (negb u) by (by destruct u, v). by replace (eqb (negb u) (negb u)) with true by (by destruct u).
Qed.

(** The length of the tile at a place. *)
Lemma tiled_length s l1 n u l2 : tiled s (l1 ++ (n, u) :: l2) -> load32 (base + total l1) (heap_mem s) = n.
Proof. intros [_ _ _ Hs _]. apply sized_app in Hs as [_ Hs]. by destruct Hs. Qed.

Lemma tiled_free_links s l1 n l2 : let h := base + total l1 in tiled s (l1 ++ (n, false) :: l2) ->
  seg (heap_mem s) (free_list s) (headers false base l1) h /\ seg (heap_mem s) (load32 (h + 4) (heap_mem s)) (headers false (h + HEADER + n) l2) 0.
Proof.
  intros h [_ _ _ _ Hl]. specialize (Hl false). rewrite headers_app in Hl. cbn in Hl. by apply links_app in Hl as (m & H1 & -> & H2).
Qed.

Lemma merge_prev s l1 n l2 : let h := base + total l1 in tiled s (l1 ++ (n, false) :: l2) ->
  exists p len, (if decide (free_list s = h) then mret 0 else find_previous BLOCKS (free_list s) h) s = Some (p, s) /\
    (if decide (p = 0) then mret 0 else get_length p) s = Some (len, s) /\
    ((exists k, l1 = k ++ [(len, false)] /\ p = base + total k) \/ ends_used l1 /\ ~ (p <> 0 /\ p + len + HEADER = h)).
Proof.
  intros h T. destruct (tiled_free_links _ _ _ _ T) as [Hs _]. destruct (tiled_starts _ _ T) as [HA Hpos]. pose proof (tiled_blocks _ _ T) as Hb.
  pose proof T as [Hn _ _ Hsz _]. destruct (tiled_middle _ _ _ _ Hn) as (Hn1 & _ & _ & _ & R1 & _). fold h in Hs, R1.
  pose proof (headers_length false base l1) as Hlen. rewrite length_app in Hb.
  destruct (headers false base l1) as [|p L _] eqn:EL using rev_ind.
  - cbn [seg] in Hs. exists 0, 0. rewrite !decide_True by done. split_and!; [done..|]. right. split; [|by intros [? _]].
    destruct (ends_cases l1) as [?|(k & m & ->)]; [done|]. rewrite headers_app in EL. cbn in EL. by destruct (headers false base k).
  - assert (forall x, x ∈ L ++ [p] -> x ∈ starts base l1) as Hin by (intros x; rewrite <- EL; apply headers_starts).
    assert (p ∈ starts base l1) as Hp by (apply Hin; set_solver). specialize (starts_range _ _ _ Hn1 Hp) as ?.
    assert (h ∉ L ++ [p]) as Hh by (intros Hx%Hin%R1; lia).
    exists p, (load32 p (heap_mem s)). rewrite decide_False.
    2:{ pose proof (seg_head _ _ _ _ _ (fun x => x ∈ L ++ [p]) Hs ltac:(by apply Forall_forall)) as Hx. cbn in Hx. by intros <-. }
    split; [eapply (find_previous_ok _ HA Hpos); [exact Hs| |done|rewrite length_app in Hlen; cbn in *; lia]|].
    { intros x Hx. rewrite starts_app. apply elem_of_app. left. by apply Hin. }
    rewrite decide_False by lia. split; [apply get_length_ok; lia|].
    destruct l1 as [|[m v] k _] using rev_ind; [cbn in EL; by destruct L|]. apply sized_app in Hsz as [Hsz _]. apply sized_app in Hsz as [Hk Hm].
    rewrite headers_app in EL. cbn in EL, Hm. destruct v; cbn [eqb] in EL.
    + right. split; [unfold ends_used; by rewrite last_snoc|]. intros [_ E]. rewrite app_nil_r in EL.
      assert (p ∈ headers false base k) as Hpk by (rewrite EL; set_solver). apply headers_starts in Hpk. apply Forall_app in Hn1 as [Hn1 Hmv].
      specialize (tile_end _ _ _ _ Hn1 Hk Hpk). unfold h in E. rewrite tiles_total_app in E. cbn in E. apply Forall_cons in Hmv as [Hmv _]. cbn in Hmv.
      unfold HEADER in *. lia.
    + left. exists k. apply app_inj_tail in EL as [_ <-]. destruct Hm as [-> _]. done.
Qed.

Lemma merge_next s l1 n l2 : let h := base + total l1 in tiled s (l1 ++ (n, false) :: l2) ->
  let next := load32 (h + 4) (heap_mem s) in
  (exists m k, l2 = (m, false) :: k /\ next = h + HEADER + n) \/ starts_used l2 /\ ~ (next <> 0 /\ h + n + HEADER = next).
Proof.
  intros h T next. destruct (tiled_free_links _ _ _ _ T) as [_ Hs]. fold h next in Hs. pose proof T as [Hn _ _ _ _].
  destruct (tiled_middle _ _ _ _ Hn) as (_ & _ & Hn2 & _ & _ & _).
  destruct (starts_cases l2) as [Hu|(m & k & ->)]; [right|left]. 
  - split; [done|]. intros [H0 E]. destruct l2 as [|[m v] k]; [by cbn in Hs|]. cbn in Hu. subst v. cbn in Hs. apply Forall_cons in Hn2 as [Hm Hk].
    destruct (headers false _ k) as [|x L] eqn:EL; [by cbn in Hs|]. destruct Hs as [Ex _].
    assert (x ∈ headers false (h + HEADER + n + HEADER + m) k) as Hx by (rewrite EL; constructor).
    apply headers_range in Hx; [|done]. cbn in Hm. unfold HEADER in *. lia.
  - exists m, k. split; [done|]. by destruct Hs.
Qed.

(** The memory with another header at [c]. *)
Definition reheader (c len q : Z) (s : heap) : heap := set_mem (store32 (c + 4) (u32 q)) (set_mem (store32 c (u32 len)) s).

Lemma reheader_ok c len q s : 0 <= len < 2 ^ 32 -> 0 <= q < 2 ^ 32 -> let s' := reheader c len q s in
  load32 c (heap_mem s') = len /\ load32 (c + 4) (heap_mem s') = q /\ only c (heap_mem s) (heap_mem s') /\ (forall w, list_head w s' = list_head w s).
Proof.
  intros H1 H2 s'. unfold s', reheader. cbn [set_mem heap_mem]. split_and!.
  - rewrite load32_other, load32_same, wrap_wrap by lia. by apply wrap_small.
  - rewrite load32_same, wrap_wrap by lia. by apply wrap_small.
  - intros x Hx. rewrite !store32_spec, !decide_False by lia. done.
  - intros w. by rewrite !list_head_mem.
Qed.

Lemma link_after c a len s : c + 8 <= a \/ a + 8 <= c -> load32 (a + 4) (heap_mem (set_mem (store32 c (u32 len)) s)) = load32 (a + 4) (heap_mem s).
Proof. intros H. apply load32_other. lia. Qed.

Definition hdr_only (A : list Z) (b b' : mem) : Prop := forall x, Forall (fun a => ~ (a <= x < a + 8)) A -> b' x = b x.

Lemma only_hdr c A b b' : c ∈ A -> only c b b' -> hdr_only A b b'.
Proof. intros H Ho x Hx. apply Ho. rewrite Forall_forall in Hx. by apply Hx. Qed.

Lemma relinked_hdr A b b' : relinked A b b' -> hdr_only A b b'.
Proof. intros H x Hx. apply H. eapply Forall_impl; [exact Hx|]. cbn. lia. Qed.

Lemma start_in l1 t l2 : base + total l1 ∈ starts base (l1 ++ t :: l2).
Proof. destruct t. rewrite starts_app. cbn. set_solver. Qed.

(** The free tile [n] takes in what [k2] is not, and is taken in by what [k1] is not. *)
Lemma merged s s' k1 m mid k2 q : let c := base + total k1 in let bs := k1 ++ (m, false) :: mid ++ k2 in
  tiled s bs -> Forall (fun t => snd t = negb true) mid -> seg (heap_mem s) (load32 (c + 4) (heap_mem s)) (headers false (c + HEADER + m) mid) q ->
  0 <= q < 2 ^ 32 -> s' = reheader c (m + total mid) q s -> coalesced k1 -> coalesced k2 -> ends_used k1 -> starts_used k2 ->
  exists bs', tiled s' bs' /\ coalesced bs' /\ allocated base bs' = allocated base bs /\ hdr_only (starts base bs) (heap_mem s) (heap_mem s').
Proof.
  intros c bs T Hmid Hs Hq -> C1 C2 U1 U2. pose proof T as [Hn Ht _ _ _]. unfold bs in Hn, Ht. apply Forall_app in Hn as [Hn1 Hn]. apply Forall_cons in Hn as [Hm Hn].
  apply Forall_app in Hn as [Hmn Hn2]. apply total_nonneg in Hn1, Hmn, Hn2. rewrite tiles_total_app in Ht. cbn in Ht, Hm. rewrite tiles_total_app in Ht. unfold FINSH_HEAP_MAX, HEADER in *.
  destruct (reheader_ok c (m + total mid) q s) as (E1 & E2 & Ho & Hw); [lia|done|]. exists (k1 ++ (m + total mid, false) :: k2). split_and!.
  - by eapply absorb.
  - by apply coalesced_middle.
  - by apply allocated_run.
  - eapply only_hdr, Ho. apply start_in.
Qed.

(** A link is an address or NULL. *)
Lemma link_range s bs a l q : tiled s bs -> seg (heap_mem s) (load32 (a + 4) (heap_mem s)) l 0 -> l ⊆ starts base bs ->
  load32 (a + 4) (heap_mem s) = q -> 0 <= q < 2 ^ 32.
Proof.
  intros T Hs Hl <-. destruct l as [|x l]; cbn [seg] in Hs; [rewrite Hs; lia|]. destruct Hs as [-> _].
  assert (x ∈ starts base bs) as Hx by (apply Hl; constructor). apply tiled_starts in T as [_ T]. rewrite Forall_forall in T. specialize (T _ Hx). lia.
Qed.

Lemma next_range s l1 n l2 : tiled s (l1 ++ (n, false) :: l2) -> 0 <= load32 (base + total l1 + 4) (heap_mem s) < 2 ^ 32.
Proof.
  intros T. destruct (tiled_free_links _ _ _ _ T) as [_ Hs]. eapply link_range; [exact T|exact Hs| |done].
  rewrite starts_app. cbn. intros x Hx%headers_starts. set_solver.
Qed.

Lemma finsh_block_merge_ok s l1 n l2 : let bs := l1 ++ (n, false) :: l2 in tiled s bs -> coalesced l1 -> coalesced l2 ->
  exists s' bs', finsh_block_merge Free (base + total l1) s = Some (tt, s') /\ tiled s' bs' /\ coalesced bs' /\
    allocated base bs' = allocated base bs /\ hdr_only (starts base bs) (heap_mem s) (heap_mem s').
Proof.
  intros bs T C1 C2. destruct (merge_prev s l1 n l2 T) as (p & len & Ep & El & Hprev). pose proof (merge_next s l1 n l2 T) as Hnext.
  pose proof (tiled_length _ _ _ _ _ T) as Eh. destruct (tiled_free_links _ _ _ _ T) as [_ Hlink]. pose proof (next_range _ _ _ _ T) as Hnr.
  pose proof T as [Hn0 _ _ _ _]. destruct (tiled_middle _ _ _ _ Hn0) as (Hn1 & H0 & Hn2 & _). pose proof (total_nonneg _ Hn1).
  assert (0 < base + total l1) as Hh by lia.
  unfold finsh_block_merge. rewrite (bind_eval _ _ _ _ _ (get_next_ok _ _ Hh)), (bind_eval _ _ _ _ _ eq_refl), (bind_eval _ _ _ _ _ Ep),
    (bind_eval _ _ _ _ _ (get_length_ok _ _ Hh)), (bind_eval _ _ _ _ _ El), Eh.
  set (h := base + total l1) in *. set (next := load32 (h + 4) (heap_mem s)) in *.
  unfold bs in *. destruct Hprev as [(k1 & -> & Hp)|[U1 Hp]]; destruct Hnext as [(m & k2 & -> & En)|[U2 Hn]].
  - subst p. set (p := base + total k1) in *. assert (h = p + HEADER + len) as Ehp by (unfold h; rewrite tiles_total_app; cbn; unfold p, HEADER; lia).
    clearbody h. apply Forall_app in Hn1 as [Hk Hlen]. apply total_nonneg in Hk. apply Forall_cons in Hlen as [Hlen _]. cbn in Hlen.
    assert (0 < p) by lia. rewrite bool_decide_eq_true_2, decide_True by (unfold HEADER in *; lia). rewrite <- app_assoc in T |- *. cbn [app] in T |- *.
    destruct (tiled_free_links _ _ _ _ T) as [_ (L1 & L2 & L3)]. fold p in L1, L2, L3.
    pose proof T as [_ _ _ Hsz _]. apply sized_app in Hsz as [_ (_ & _ & Em & _)]. fold p in Em.
    apply coalesced_middle in C1 as (C1 & _ & U1 & _). apply (coalesced_middle []) in C2 as (_ & C2 & _ & U2). clearbody next. subst next h.
    rewrite (bind_eval _ _ _ _ _ (get_length_ok (p + HEADER + len + HEADER + n) s ltac:(unfold HEADER; lia))), Em, (bind_eval _ _ _ _ _ (set_length_ok p _ s ltac:(lia))),
      (bind_eval _ _ _ _ _ (get_next_ok (p + HEADER + len + HEADER + n) _ ltac:(unfold HEADER; lia))), set_next_ok, link_after by (unfold HEADER; lia).
    destruct (merged s _ k1 len [(n, false); (m, false)] k2 _ T ltac:(by repeat constructor) (conj L1 (conj L2 eq_refl))
      (link_range _ _ _ _ _ T L3 ltac:(rewrite starts_app; cbn; fold p; intros x Hx%headers_starts; set_solver) eq_refl) eq_refl C1 C2 U1 U2) as (bs' & G).
    eexists _, bs'. split; [reflexivity|]. replace (len + (n + m + 2 * HEADER)) with (len + total [(n, false); (m, false)]) by (cbn; lia). exact G.
  - subst p. set (p := base + total k1) in *. assert (h = p + HEADER + len) as Ehp by (unfold h; rewrite tiles_total_app; cbn; unfold p, HEADER; lia).
    clearbody h. apply Forall_app in Hn1 as [Hk Hlen]. apply total_nonneg in Hk. apply Forall_cons in Hlen as [Hlen _]. cbn in Hlen.
    assert (0 < p) by lia. rewrite decide_True, bool_decide_eq_false_2 by (unfold HEADER in *; lia). rewrite <- app_assoc in T |- *. cbn [app] in T |- *.
    destruct (tiled_free_links _ _ _ _ T) as [_ (L1 & L2)]. fold p in L1, L2. apply coalesced_middle in C1 as (C1 & _ & U1 & _). subst h.
    rewrite (bind_eval _ _ _ _ _ (set_length_ok p _ s ltac:(lia))), set_next_ok by lia.
    destruct (merged s _ k1 len [(n, false)] l2 _ T ltac:(by repeat constructor) (conj L1 eq_refl) Hnr eq_refl C1 C2 U1 U2) as (bs' & G).
    eexists _, bs'. split; [reflexivity|]. replace (len + (n + HEADER)) with (len + total [(n, false)]) by (cbn; lia). exact G.
  - assert (~ (p <> 0 /\ p + len + HEADER = h)) as Hp' by exact Hp. destruct Hlink as [_ L3]. pose proof T as [_ _ _ Hsz _].
    apply sized_app in Hsz as [_ (_ & Em & _)]. fold h in Em. apply (coalesced_middle []) in C2 as (_ & C2 & _ & U2).
    rewrite decide_False, bool_decide_eq_true_2 by (unfold HEADER in *; lia). pose proof (eq_refl : next = load32 (h + 4) (heap_mem s)) as L1. clearbody next. subst next.
    rewrite (bind_eval _ _ _ _ _ (get_length_ok (h + HEADER + n) s ltac:(unfold HEADER; lia))), Em, (bind_eval _ _ _ _ _ (set_length_ok h _ s ltac:(lia))),
      (bind_eval _ _ _ _ _ (get_next_ok (h + HEADER + n) _ ltac:(unfold HEADER; lia))), set_next_ok, link_after by (unfold HEADER; lia).
    destruct (merged s _ l1 n [(m, false)] k2 _ T ltac:(by repeat constructor) (conj (eq_sym L1) eq_refl)
      (link_range _ _ _ _ _ T L3 ltac:(rewrite starts_app; cbn; fold h; intros x Hx%headers_starts; set_solver) eq_refl) eq_refl C1 C2 U1 U2) as (bs' & G).
    eexists _, bs'. split; [reflexivity|]. replace (n + (m + HEADER)) with (n + total [(m, false)]) by (cbn; lia). exact G.
  - rewrite decide_False by done. unfold HEADER in *. rewrite bool_decide_eq_false_2 by lia.
    exists s, (l1 ++ (n, false) :: l2). split_and!; [done|done|by apply coalesced_middle|done|done].
Qed.

Lemma coalesced_parts l1 t l2 : coalesced (l1 ++ t :: l2) -> coalesced l1 /\ coalesced l2.
Proof.
  induction l1 as [|[n u] l1 IH]; cbn [app coalesced]; [destruct t; by intros [_ ?]|]. intros [H1 (H2 & H3)%IH]. split; [|done].
  split; [|done]. by destruct l1.
Qed.

Lemma ends_free_rest l1 n l2 : ends_free (l1 ++ (n, true) :: l2) -> ends_free l2.
Proof.
  intros (l & k & E). destruct l2 as [|t l2 _] using rev_ind; [by apply app_inj_tail in E as [_ ?]|].
  rewrite app_comm_cons, app_assoc in E. apply app_inj_tail in E as [_ ->]. by exists l2, k.
Qed.

(** The heap has the blocks [m], where the data is, and how long, in the order of the addresses. *)
Definition owns (s : heap) (m : list (Z * Z)) : Prop := exists bs, tiled s bs /\ coalesced bs /\ allocated base bs = m.

(** What the heap does not touch: what is outside, and the data of its blocks. *)
Definition kept (m : list (Z * Z)) (b b' : mem) : Prop :=
  forall x, (~ (base <= x < base + FINSH_HEAP_MAX) \/ exists q n, (q, n) ∈ m /\ q <= x < q + n) -> b' x = b x.

Lemma kept_trans m m' b b1 b2 : kept m b b1 -> kept m' b1 b2 -> m' ⊆ m -> kept m' b b2.
Proof.
  intros H1 H2 Hm x Hx. rewrite H2, H1; [done| |done]. destruct Hx as [Hx|(q & n & Hq & Hx)]; [by left|]. right. exists q, n. split; [by apply Hm|done].
Qed.

Lemma allocated_split p bs m1 q n m2 : allocated p bs = m1 ++ (q, n) :: m2 ->
  exists l1 l2, bs = l1 ++ (n, true) :: l2 /\ q = p + total l1 + HEADER /\ allocated p l1 = m1 /\ allocated (p + total l1 + HEADER + n) l2 = m2.
Proof.
  revert p m1. induction bs as [|[k u] bs IH]; intros p m1 H; cbn in H; [by destruct m1|].
  assert (forall m, allocated (p + HEADER + k) bs = m ++ (q, n) :: m2 -> exists l1 l2, (k, u) :: bs = l1 ++ (n, true) :: l2 /\ q = p + total l1 + HEADER /\
    allocated p l1 = (if u then (p + HEADER, k) :: m else m) /\ allocated (p + total l1 + HEADER + n) l2 = m2) as Hr.
  { intros m (l1 & l2 & -> & -> & <- & <-)%IH. exists ((k, u) :: l1), l2. cbn. split; [done|]. split; [lia|]. split; [done|]. f_equal. lia. }
  destruct u; [|by apply Hr]. destruct m1 as [|x m1]; cbn in H.
  - injection H as <- <- <-. exists [], bs. cbn. by rewrite Z.add_0_r.
  - injection H as <- H. by apply Hr in H.
Qed.

Lemma allocated_tile p bs q n : (q, n) ∈ allocated p bs -> exists l1 l2, bs = l1 ++ (n, true) :: l2 /\ q = p + total l1 + HEADER.
Proof. intros (m1 & m2 & H)%list_elem_of_split. apply allocated_split in H as (l1 & l2 & -> & -> & _). by exists l1, l2. Qed.

Lemma tiled_kept s bs b : tiled s bs -> hdr_only (starts base bs) (heap_mem s) b -> kept (allocated base bs) (heap_mem s) b.
Proof.
  intros [Hn Ht _ _ _] H x Hx. apply H. apply Forall_forall. intros a Ha Hr. pose proof (starts_range _ _ _ Hn Ha).
  destruct Hx as [Hx|(q & n & (l1 & l2 & -> & ->)%allocated_tile & Hx)]; [unfold FINSH_HEAP_MAX in *; lia|].
  destruct (tiled_middle _ _ _ _ Hn) as (_ & _ & _ & E & R1 & R2). rewrite E in Ha. unfold HEADER in *.
  apply elem_of_app in Ha as [Ha|[->|Ha]%elem_of_cons]; [specialize (R1 _ Ha)| |specialize (R2 _ Ha)]; lia.
Qed.

Lemma finsh_heap_free_ok s l1 n l2 : let bs := l1 ++ (n, true) :: l2 in tiled s bs -> coalesced bs ->
  exists s', finsh_heap_free (base + total l1 + HEADER) s = Some (tt, s') /\
    owns s' (allocated base (l1 ++ (n, false) :: l2)) /\ kept (allocated base (l1 ++ (n, false) :: l2)) (heap_mem s) (heap_mem s').
Proof.
  intros bs T C. apply coalesced_parts in C as [C1 C2]. destruct (flip true s l1 n l2 false T) as (s1 & s2 & s3 & E1 & [= <-] & E3 & T3 & R); [|done|].
  { eapply ends_free_rest. apply T. }
  destruct (finsh_block_merge_ok _ _ _ _ T3 C1 C2) as (s4 & bs' & E4 & T4 & C4 & A4 & H4). exists s4. unfold finsh_heap_free.
  replace (base + total l1 + HEADER - HEADER) with (base + total l1) by lia. cbn [list_of negb] in E1, E3.
  rewrite (bind_eval _ _ _ _ _ E1), (bind_eval _ _ _ _ _ E3). split; [done|]. split; [by exists bs'|].
  eapply kept_trans; [|eapply tiled_kept, H4; exact T3|reflexivity].
  assert (starts base (l1 ++ (n, false) :: l2) = starts base bs) as Es by (unfold bs; by rewrite !starts_app).
  intros x Hx. apply (tiled_kept _ _ _ T (relinked_hdr _ _ _ R)). destruct Hx as [Hx|(q & k & Hq & Hx)]; [by left|]. right. exists q, k. split; [|done].
  unfold bs. rewrite tiles_allocated_app in *. cbn in *. set_solver.
Qed.

Lemma free_owns s m1 q n m2 : owns s (m1 ++ (q, n) :: m2) ->
  exists s', finsh_heap_free q s = Some (tt, s') /\ owns s' (m1 ++ m2) /\ kept (m1 ++ m2) (heap_mem s) (heap_mem s').
Proof.
  intros (bs & T & C & A). apply allocated_split in A as (l1 & l2 & -> & -> & <- & <-).
  pose proof (finsh_heap_free_ok s l1 n l2 T C) as H. rewrite !tiles_allocated_app in H. exact H.
Qed.

Definition block_of (x : Z * Z) : Z := fst x - HEADER.

Lemma owns_links s m : owns s m -> seg (heap_mem s) (allocate_list s) (block_of <$> m) 0.
Proof. intros (bs & [_ _ _ _ Hl] & _ & <-). specialize (Hl true). by rewrite headers_allocated in Hl. Qed.

Lemma owns_range s m q n : owns s m -> (q, n) ∈ m -> base + HEADER <= q /\ 0 <= n /\ q + n <= base + FINSH_HEAP_MAX.
Proof.
  intros (bs & [Hn Ht _ _ _] & _ & <-) (l1 & l2 & -> & ->)%allocated_tile. apply tiled_middle in Hn as (H1 & Hn & H2 & _).
  apply total_nonneg in H1, H2. rewrite tiles_total_app in Ht. cbn in Ht. unfold HEADER in *. lia.
Qed.

Lemma owns_length s m : owns s m -> (length m <= BLOCKS)%nat.
Proof.
  intros (bs & T & _ & <-). apply tiled_blocks in T. pose proof (headers_length true base bs) as H. rewrite headers_allocated, length_fmap in H. lia.
Qed.

Lemma seg_start b p l : seg b p l 0 -> p = hd 0 l.
Proof. destruct l; cbn; [done|]. by intros [-> _]. Qed.

(** ** Taking a block *)

(** A part of the free tile behind [l1] becomes a tile of its own. *)
Lemma split_tile s s' l1 n size l2 : let h := base + total l1 in let h' := h + HEADER + size in
  tiled s (l1 ++ (n, false) :: l2) -> 0 <= size -> size + HEADER <= n ->
  load32 h (heap_mem s') = size -> load32 (h + 4) (heap_mem s') = h' -> load32 h' (heap_mem s') = n - HEADER - size ->
  load32 (h' + 4) (heap_mem s') = load32 (h + 4) (heap_mem s) -> (forall x, ~ (h <= x < h + 8) -> ~ (h' <= x < h' + 8) -> heap_mem s' x = heap_mem s x) ->
  (forall w, list_head w s' = list_head w s) -> tiled s' (l1 ++ (size, false) :: (n - HEADER - size, false) :: l2).
Proof.
  intros h h' [Hn Ht He Hs Hl] H0 Hsz E1 E2 E3 E4 Ho Hw. destruct (tiled_middle _ _ _ _ Hn) as (Hn1 & Hm & Hn2 & _ & R1 & R2). fold h in R1, R2.
  assert (forall x, x ∈ starts base l1 \/ x ∈ starts (h + HEADER + n) l2 -> load32 x (heap_mem s') = load32 x (heap_mem s) /\
    load32 (x + 4) (heap_mem s') = load32 (x + 4) (heap_mem s)) as Hf.
  { intros x Hx. unfold h', HEADER in *. split; apply load32_ext; intros y Hy; apply Ho; destruct Hx as [Hx|Hx]; first [specialize (R1 _ Hx)|specialize (R2 _ Hx)]; lia. }
  assert (h' + HEADER + (n - HEADER - size) = h + HEADER + n) as Ep by (unfold h'; lia). split.
  - apply Forall_app. split; [done|]. apply Forall_cons. split; [done|]. apply Forall_cons. split; [cbn; lia|done].
  - rewrite tiles_total_app in *. cbn in *. lia.
  - destruct He as (l & k & He). destruct l2 as [|t l2 _] using rev_ind.
    + exists (l1 ++ [(size, false)]), (n - HEADER - size). by rewrite <- app_assoc.
    + exists (l1 ++ (size, false) :: (n - HEADER - size, false) :: l2), k. rewrite <- app_assoc. cbn. do 3 f_equal.
      rewrite !app_comm_cons, !app_assoc in He. by apply app_inj_tail in He as [_ ->].
  - apply sized_app in Hs as [Hs1 [_ Hs2]]. apply sized_app. split; [eapply sized_frame, Hs1; intros x Hx; apply Hf; by left|].
    cbn [sized]. fold h h'. rewrite Ep. split; [done|]. split; [done|]. eapply sized_frame, Hs2. intros x Hx. apply Hf. by right.
  - intros u. specialize (Hl u). rewrite headers_app in Hl |- *. cbn [headers] in *. fold h in Hl |- *. fold h'. rewrite Ep, Hw. destruct u; cbn [eqb] in *.
    + eapply links_frame; [|exact Hl]. intros x Hx. apply Hf. apply elem_of_app in Hx as [Hx|Hx]; apply headers_starts in Hx; [by left|by right].
    + apply links_app in Hl as (p & Hl1 & -> & Hl2). apply links_app. exists h.
      split; [eapply links_frame, Hl1; intros x Hx; apply Hf; left; by apply headers_starts in Hx|]. cbn [seg]. rewrite E2, E4. split; [done|]. split; [done|].
      eapply links_frame, Hl2. intros x Hx. apply Hf. right. by apply headers_starts in Hx.
Qed.

Lemma finsh_block_split_ok s l1 n size l2 : let h := base + total l1 in tiled s (l1 ++ (n, false) :: l2) -> 0 <= size -> size + HEADER <= n ->
  exists s', finsh_block_split h size s = Some (tt, s') /\ tiled s' (l1 ++ (size, false) :: (n - HEADER - size, false) :: l2) /\
    hdr_only [h; h + HEADER + size] (heap_mem s) (heap_mem s').
Proof.
  intros h T H0 Hsz. pose proof (tiled_length _ _ _ _ _ T) as Eh. fold h in Eh. pose proof (next_range _ _ _ _ T) as Hnr. fold h in Hnr.
  pose proof T as [Hn Ht _ _ _]. destruct (tiled_middle _ _ _ _ Hn) as (Hn1 & Hm & Hn2 & _). apply total_nonneg in Hn1, Hn2.
  rewrite tiles_total_app in Ht. cbn in Ht. set (h' := h + HEADER + size). unfold finsh_block_split. fold h'.
  assert (0 < h /\ h + HEADER <= h' /\ h' < 2 ^ 32 /\ n < 2 ^ 32) as (? & ? & ? & ?) by (unfold h', HEADER, FINSH_HEAP_MAX in *; lia). unfold HEADER in *.
  set (m1 := store32 h' (u32 (n - 8 - size)) (heap_mem s)). set (m2 := store32 h (u32 size) m1).
  assert (load32 (h + 4) m2 = load32 (h + 4) (heap_mem s)) as Eo by (unfold m2, m1; rewrite !load32_other by lia; done).
  rewrite (bind_eval _ _ _ _ _ (get_length_ok h s ltac:(lia))), Eh, (bind_eval _ _ _ _ _ (set_length_ok h' _ s ltac:(lia))),
    (bind_eval _ _ _ _ _ (set_length_ok h _ _ ltac:(lia))), (bind_eval _ _ _ _ _ (get_next_ok h _ ltac:(lia))). cbn [set_mem heap_mem].
  fold m1 m2. rewrite Eo, (bind_eval _ _ _ _ _ (set_next_ok h' _ _ ltac:(lia))), set_next_ok by lia. eexists. split; [reflexivity|].
  split; [eapply split_tile|]; try exact T; try done; cbn [set_mem heap_mem]; fold h h'; unfold HEADER in *.
  - rewrite !load32_other by (unfold HEADER; lia). unfold m2. rewrite load32_same, wrap_wrap by lia. apply wrap_small. unfold in_range. lia.
  - rewrite load32_same, wrap_wrap by lia. apply wrap_small. unfold in_range. lia.
  - fold h'. rewrite !load32_other, load32_same, wrap_wrap by lia. apply wrap_small. unfold in_range. lia.
  - fold h'. rewrite !load32_other, load32_same, wrap_wrap by lia. by apply wrap_small.
  - intros x Hx Hx'. unfold m2, m1. rewrite !store32_spec, !decide_False by lia. done.
  - intros x Hx. apply Forall_cons in Hx as [Hx (Hx' & _)%Forall_cons]. unfold m2, m1. rewrite !store32_spec, !decide_False by lia. done.
Qed.

Lemma tiles_allocated_range p bs q k : nonneg bs -> (q, k) ∈ allocated p bs -> p + HEADER <= q /\ 0 <= k /\ q + k <= p + total bs.
Proof.
  intros Hn (l1 & l2 & -> & ->)%allocated_tile. apply Forall_app in Hn as [H1 H2]. apply Forall_cons in H2 as [Hk H2]. cbn in Hk.
  apply total_nonneg in H1, H2. rewrite tiles_total_app. cbn. lia.
Qed.

(** Nothing that is kept is in a free tile. *)
Lemma kept_free_tile l1 n l2 b b' : let h := base + total l1 in nonneg (l1 ++ (n, false) :: l2) -> total (l1 ++ (n, false) :: l2) = FINSH_HEAP_MAX ->
  (forall x, ~ (h <= x < h + HEADER + n) -> b' x = b x) -> kept (allocated base (l1 ++ (n, false) :: l2)) b b'.
Proof.
  intros h Hn Ht H x Hx. apply H. intros Hr. apply Forall_app in Hn as [H1 H2]. apply Forall_cons in H2 as [Hk H2]. cbn in Hk.
  rewrite tiles_total_app in Ht. cbn in Ht. pose proof (total_nonneg _ H1). pose proof (total_nonneg _ H2).
  destruct Hx as [Hx|(q & k & Hq & Hx)]; [unfold h, FINSH_HEAP_MAX in *; lia|]. rewrite tiles_allocated_app in Hq. cbn in Hq. fold h in Hq.
  apply elem_of_app in Hq as [Hq|Hq]; apply tiles_allocated_range in Hq; try done; unfold h, HEADER in *; lia.
Qed.

(** Data may be changed. *)
Lemma tiled_data s bs f : tiled s bs -> (forall x a, a ∈ starts base bs -> a <= x < a + 8 -> f (heap_mem s) x = heap_mem s x) -> tiled (set_mem f s) bs.
Proof.
  intros [Hn Ht He Hs Hl] H. split; [done..| |].
  - eapply sized_frame, Hs. intros x Hx. apply load32_ext. intros y Hy. apply (H _ x); [done|lia].
  - intros u. rewrite list_head_mem. eapply links_frame, Hl. intros x Hx%headers_starts. apply load32_ext. intros y Hy. apply (H _ x); [done|lia].
Qed.

Lemma coalesced_taken l1 n size k l2 : coalesced (l1 ++ (n, false) :: l2) -> coalesced (l1 ++ (size, true) :: (k, false) :: l2).
Proof.
  induction l1 as [|[m u] l1 IH]; cbn [app coalesced]; [naive_solver|]. intros [H1 H2]. split; [|by apply IH].
  destruct l1 as [|[? ?] ?]; cbn in *; [apply orb_true_r|done].
Qed.

(** What [finsh_heap_allocate] does with the block that it has found. *)
Definition carve (header size : Z) : HM Z :=
  finsh_block_split header size;;
  finsh_block_remove Free header;;
  set_next header 0;;
  finsh_block_insert Allocated header;;
  modify (set_mem (rt_memset (header + HEADER) 0 size));;
  mret (header + HEADER).

Lemma take_block_given s l1 n l2 size : let h := base + total l1 in let bs := l1 ++ (n, false) :: l2 in
  tiled s bs -> coalesced bs -> 0 <= size -> size + HEADER <= n ->
  exists s', carve h size s = Some (h + HEADER, s') /\ owns s' (allocated base l1 ++ (h + HEADER, size) :: allocated (h + HEADER + n) l2) /\
    kept (allocated base bs) (heap_mem s) (heap_mem s') /\ (forall x, h + HEADER <= x < h + HEADER + size -> heap_mem s' x = 0).
Proof.
  intros h bs T C H0 Hsz. destruct (finsh_block_split_ok s l1 n size l2 T H0 Hsz) as (s1 & E1 & T1 & R1). fold h in E1, R1.
  assert (ends_free ((n - HEADER - size, false) :: l2)) as He.
  { pose proof T as [_ _ (l & k & He) _ _]. destruct l2 as [|t l2 _] using rev_ind; [by exists [], (n - HEADER - size)|].
    unfold bs in He. rewrite app_comm_cons, app_assoc in He. apply app_inj_tail in He as [_ ->]. by exists ((n - HEADER - size, false) :: l2), k. }
  destruct (flip false s1 l1 size _ true T1 He eq_refl) as (s2 & s3 & s4 & E2 & E3 & E4 & T4 & R4). fold h in E2, E3, E4. cbn [list_of negb when] in *.
  set (s5 := set_mem (rt_memset (h + HEADER) 0 size) s4). exists s5. unfold carve.
  rewrite (bind_eval _ _ _ _ _ E1), (bind_eval _ _ _ _ _ E2), (bind_eval _ _ _ _ _ E3), (bind_eval _ _ _ _ _ E4), (bind_eval _ _ _ _ _ eq_refl). split; [done|].
  assert (forall x, heap_mem s5 x = if decide (h + HEADER <= x < h + HEADER + size) then 0 else heap_mem s4 x) as E5.
  { intros x. cbn [s5 set_mem heap_mem]. rewrite rt_memset_spec by done. unfold filled. by case_decide. }
  pose proof T as [Hn Ht _ _ _]. pose proof T4 as [Hn4 _ _ _ _]. unfold HEADER in *. split_and!.
  - exists (l1 ++ (size, true) :: (n - 8 - size, false) :: l2). split_and!.
    + apply tiled_data; [done|]. intros x a Ha Hx. change (heap_mem s5 x = heap_mem s4 x). rewrite E5, decide_False; [done|].
      destruct (tiled_middle _ _ _ _ Hn4) as (_ & _ & _ & E & Q1 & Q2). rewrite E in Ha. fold h in Ha, Q1, Q2.
      apply elem_of_app in Ha as [Ha|[->|Ha]%elem_of_cons]; [specialize (Q1 _ Ha)| |specialize (Q2 _ Ha)]; lia.
    + by eapply coalesced_taken.
    + rewrite tiles_allocated_app. cbn. fold h. unfold HEADER. do 3 f_equal. lia.
  - set (m := allocated base bs). apply (kept_trans m m _ (heap_mem s1)); [|apply (kept_trans m m _ (heap_mem s4))|]; unfold m; try reflexivity.
    + apply kept_free_tile; [done|done|]. intros x Hx. apply R1. apply Forall_cons. fold h in Hx. unfold HEADER in *.
      split; [lia|]. apply Forall_cons. split; [lia|done].
    + replace (allocated base bs) with (allocated base (l1 ++ (size, false) :: (n - 8 - size, false) :: l2)).
      * apply (tiled_kept s1); [exact T1|by apply relinked_hdr].
      * unfold bs. rewrite !tiles_allocated_app. cbn. unfold HEADER. do 2 f_equal. lia.
    + apply kept_free_tile; [done|done|]. intros x Hx. fold h in Hx. unfold HEADER in *. rewrite E5, decide_False by lia. done.
  - intros x Hx. by rewrite E5, decide_True.
Qed.

(** ** The collector *)

Section collector.
Context (variables : list Z) (Hvars : Forall (fun a => a + 4 <= base \/ base + FINSH_HEAP_MAX <= a) variables).

Definition used (b : mem) (x : Z * Z) : bool := existsb (fun a => bool_decide (load32 a b = u32 (fst x))) variables.

Lemma used_kept m b b' x : kept m b b' -> used b' x = used b x.
Proof.
  intros H. unfold used. pose proof Hvars as Hv. clear Hvars. induction Hv as [|a l Ha _ IH]; [done|]. cbn [existsb]. rewrite IH.
  assert (load32 a b' = load32 a b) as -> by (apply load32_ext; intros y Hy; apply H; left; lia). done.
Qed.

Lemma gc_loop_ok L : forall M fuel s p, owns s (M ++ L) -> seg (heap_mem s) p (block_of <$> L) 0 -> (length L <= fuel)%nat ->
  let m := M ++ filter (fun x => used (heap_mem s) x = true) L in
  exists s', gc_loop variables fuel p s = Some (tt, s') /\ owns s' m /\ kept m (heap_mem s) (heap_mem s').
Proof.
  induction L as [|[q n] L IH]; intros M fuel s p O Hs Hf m.
  - cbn in Hs. subst p. exists s. unfold m. split; [by destruct fuel|]. rewrite app_nil_r in *. done.
  - destruct fuel as [|fuel]; [cbn in Hf; lia|]. destruct (owns_range _ _ q n O) as (R1 & _); [set_solver|]. destruct Hbase as [Hb _].
    cbn [fmap list_fmap seg] in Hs. destruct Hs as [-> Hs]. unfold block_of at 1 in Hs. cbn [fst] in Hs. cbn [gc_loop fst block_of]. unfold block_of. cbn [fst].
    rewrite decide_False by (unfold HEADER in *; lia). rewrite (bind_eval _ _ _ _ _ eq_refl), (bind_eval _ _ _ _ _ (get_next_ok (q - HEADER) s ltac:(unfold HEADER in *; lia))).
    replace (q - HEADER + HEADER) with q by lia. change (existsb _ variables) with (used (heap_mem s) (q, n)).
    unfold m. rewrite filter_cons. destruct (used (heap_mem s) (q, n)); cbn [negb when].
    + rewrite decide_True by done. change ((q, n) :: filter ?P L) with ([(q, n)] ++ filter P L). rewrite app_assoc. apply IH; [by rewrite <- app_assoc|done|cbn in Hf; lia].
    + rewrite decide_False by done. destruct (free_owns _ _ _ _ _ O) as (s1 & E1 & O1 & K1). rewrite (bind_eval _ _ _ _ _ E1).
      destruct (IH M fuel s1 (load32 (q - HEADER + 4) (heap_mem s)) O1) as (s2 & E2 & O2 & K2); [|cbn in Hf; lia|].
      { apply owns_links in O1. rewrite fmap_app in O1. apply links_app in O1 as (r & _ & O1). by rewrite (seg_start _ _ _ Hs), <- (seg_start _ _ _ O1). }
      assert (filter (fun x => used (heap_mem s1) x = true) L = filter (fun x => used (heap_mem s) x = true) L) as Ef.
      { apply list_filter_iff. intros x. by rewrite (used_kept _ _ _ x K1). }
      rewrite Ef in *. exists s2. split; [done|]. split; [done|]. eapply kept_trans; [exact K1|exact K2|].
      intros x. rewrite !elem_of_app, list_elem_of_filter. naive_solver.
Qed.

Lemma finsh_heap_gc_ok s m : owns s m -> let m' := filter (fun x => used (heap_mem s) x = true) m in
  exists s', finsh_heap_gc variables s = Some (tt, s') /\ owns s' m' /\ kept m' (heap_mem s) (heap_mem s').
Proof.
  intros O. unfold finsh_heap_gc. rewrite (bind_eval _ _ _ _ _ eq_refl). apply (gc_loop_ok m [] BLOCKS s); [done|by apply owns_links|by eapply owns_length].
Qed.

(** ** Allocation *)

Lemma find_fit_ok fits L : forall fuel p s, seg (heap_mem s) p L 0 -> Forall (fun a => 0 < a) L -> (length L <= fuel)%nat ->
  exists a, find_fit fits fuel p s = Some (a, s) /\
    (a = 0 /\ Forall (fun x => fits (load32 x (heap_mem s)) = false) L \/ 0 < a /\ a ∈ L /\ fits (load32 a (heap_mem s)) = true).
Proof.
  induction L as [|x L IH]; intros fuel p s Hs Hp Hf; cbn [seg] in Hs.
  - subst p. exists 0. split; [by destruct fuel|]. left. split; [done|constructor].
  - destruct Hs as [-> Hs]. apply Forall_cons in Hp as [Hx Hp]. destruct fuel as [|fuel]; [cbn in Hf; lia|]. cbn [find_fit].
    rewrite decide_False by lia. rewrite (bind_eval _ _ _ _ _ (get_length_ok x s Hx)). destruct (fits _) eqn:E.
    + exists x. split; [done|]. right. split; [done|]. split; [constructor|done].
    + rewrite (bind_eval _ _ _ _ _ (get_next_ok x s Hx)). destruct (IH fuel _ s Hs Hp ltac:(cbn in Hf; lia)) as (a & Ea & H). exists a. split; [done|].
      destruct H as [[? ?]|(? & ? & ?)]; [left|right]; (split; [done|]); [by constructor|split; [by constructor|done]].
Qed.

Lemma free_tile p bs a : a ∈ headers false p bs -> exists l1 n l2, bs = l1 ++ (n, false) :: l2 /\ a = p + total l1.
Proof.
  revert p. induction bs as [|[k u] bs IH]; intros p H; cbn in H; [set_solver|].
  assert (a ∈ headers false (p + HEADER + k) bs -> exists l1 n l2, (k, u) :: bs = l1 ++ (n, false) :: l2 /\ a = p + total l1) as Hr.
  { intros (l1 & n & l2 & -> & ->)%IH. exists ((k, u) :: l1), n, l2. cbn. split; [done|lia]. }
  destruct u; cbn [eqb] in H; [by apply Hr|]. apply elem_of_cons in H as [->|H]; [|by apply Hr]. exists [], k, bs. cbn. split; [done|lia].
Qed.

Lemma tile_header p l1 n l2 : p + total l1 ∈ headers false p (l1 ++ (n, false) :: l2).
Proof. rewrite headers_app. cbn. set_solver. Qed.

(** There are [k] bytes in a row that no block has. *)
Definition room (m : list (Z * Z)) (k : Z) : Prop := exists x, base <= x /\ x + k <= base + FINSH_HEAP_MAX /\
  Forall (fun '(q, n) => x + k <= q - HEADER \/ q + n <= x) m.

Lemma gap_in_tile x k bs : 0 < k -> forall p, nonneg bs -> coalesced bs -> p <= x -> x + k <= p + total bs ->
  Forall (fun '(q, n) => x + k <= q - HEADER \/ q + n <= x) (allocated p bs) -> exists l1 n l2, bs = l1 ++ (n, false) :: l2 /\ k <= HEADER + n.
Proof.
  intros Hk. induction bs as [|[n u] bs IH]; intros p Hn Hc Hx Hxk Ha; [cbn in Hxk; lia|].
  apply Forall_cons in Hn as [Hn Hbs]. cbn in Hn, Hc, Hxk, Ha. destruct Hc as [Hb Hc]. unfold HEADER in *.
  assert (p + 8 + n <= x -> Forall (fun '(q, n) => x + k <= q - 8 \/ q + n <= x) (allocated (p + 8 + n) bs) ->
    exists l1 n' l2, (n, u) :: bs = l1 ++ (n', false) :: l2 /\ k <= 8 + n') as Hr.
  { intros Hx' Ha'. destruct (IH _ Hbs Hc Hx' ltac:(lia) Ha') as (l1 & n' & l2 & -> & ?). by exists ((n, u) :: l1), n', l2. }
  destruct u.
  - apply Forall_cons in Ha as [Ha Ha']. cbn in Ha. apply Hr; [lia|done].
  - destruct (decide (p + 8 + n <= x)); [by apply Hr|]. exists [], n, bs. split; [done|].
    destruct bs as [|[n' v] bs]; [cbn in Hxk; lia|]. cbn in Hb. subst v. apply Forall_cons in Ha as [Ha _]. apply Forall_cons in Hbs as [Hn' _]. cbn in Ha, Hn'. unfold HEADER in Ha. lia.
Qed.

Lemma no_room s bs size : tiled s bs -> coalesced bs -> 0 <= size ->
  Forall (fun x => bool_decide (size + HEADER <= load32 x (heap_mem s)) = false) (headers false base bs) -> ~ room (allocated base bs) (size + 2 * HEADER).
Proof.
  intros T C H0 Hf (x & Hx & Hxk & Ha). pose proof T as [Hn Ht _ _ _]. rewrite <- Ht in Hxk.
  destruct (gap_in_tile x (size + 2 * HEADER) bs ltac:(unfold HEADER; lia) base Hn C Hx Hxk Ha) as (l1 & n & l2 & -> & Hk).
  rewrite Forall_forall in Hf. specialize (Hf _ (tile_header _ _ _ _)). rewrite (tiled_length _ _ _ _ _ T) in Hf. apply bool_decide_eq_false in Hf. lia.
Qed.

Lemma heap_align size : 0 <= size < 2 ^ 31 -> size <= HEAP_ALIGN_SIZE size < size + 4.
Proof.
  intros H. unfold HEAP_ALIGN_SIZE. rewrite wrap_small by (unfold in_range; lia).
  change (Z.lnot 3) with (Z.lnot (Z.ones 2)). rewrite <- Z.ldiff_land, Z.ldiff_ones_r by lia.
  rewrite Z.shiftl_mul_pow2, Z.shiftr_div_pow2 by lia. change (2 ^ 2) with 4.
  pose proof (Z.div_mod (size + 3) 4 ltac:(lia)). pose proof (Z.mod_pos_bound (size + 3) 4 ltac:(lia)). lia.
Qed.

Lemma find_free fits s bs : tiled s bs -> exists a, find_fit fits BLOCKS (free_list s) s = Some (a, s) /\
  (a = 0 /\ Forall (fun x => fits (load32 x (heap_mem s)) = false) (headers false base bs) \/
   0 < a /\ exists l1 n l2, bs = l1 ++ (n, false) :: l2 /\ a = base + total l1 /\ fits n = true).
Proof.
  intros T. pose proof (tiled_blocks _ _ T) as Hb. pose proof (headers_length false base bs) as Hl. destruct (tiled_starts _ _ T) as [_ Hp].
  pose proof T as [_ _ _ _ Hs]. specialize (Hs false). destruct (find_fit_ok fits _ BLOCKS _ s Hs) as (a & E & H); [|lia|].
  { apply Forall_forall. intros x Hx%headers_starts. rewrite Forall_forall in Hp. by apply Hp. }
  exists a. split; [done|]. destruct H as [?|(H0 & (l1 & n & l2 & -> & ->)%free_tile & Hf)]; [by left|right]. split; [done|].
  exists l1, n, l2. by rewrite (tiled_length _ _ _ _ _ T) in Hf.
Qed.

(** A block is taken behind those of [m1], and has only zeros. *)
Definition given (s : heap) (m : list (Z * Z)) (p size : Z) (s' : heap) : Prop :=
  exists m1 m2, m = m1 ++ m2 /\ owns s' (m1 ++ (p, size) :: m2) /\ kept m (heap_mem s) (heap_mem s') /\
    (forall x, p <= x < p + size -> heap_mem s' x = 0).

Lemma take_given s l1 n l2 size : let bs := l1 ++ (n, false) :: l2 in let h := base + total l1 in
  tiled s bs -> coalesced bs -> 0 <= size -> size + HEADER <= n -> exists s', carve h size s = Some (h + HEADER, s') /\ given s (allocated base bs) (h + HEADER) size s'.
Proof.
  intros bs h T C H0 Hs. destruct (take_block_given s l1 n l2 size T C H0 Hs) as (s' & E & O & K & Z). exists s'. split; [done|].
  eexists _, _. split_and!; [|exact O|exact K|exact Z]. unfold bs. by rewrite tiles_allocated_app.
Qed.

Lemma finsh_heap_allocate_ok s m size : owns s m -> 0 <= size < 2 ^ 31 ->
  let n := HEAP_ALIGN_SIZE size in let m' := filter (fun x => used (heap_mem s) x = true) m in
  exists p s', finsh_heap_allocate variables size s = Some (p, s') /\
    (p = 0 /\ owns s' m' /\ kept m' (heap_mem s) (heap_mem s') /\ ~ room m' (n + 2 * HEADER) \/ 0 < p /\ (given s m p n s' \/ given s m' p n s')).
Proof.
  intros O Hs n m'. pose proof (heap_align size Hs) as Ha. fold n in Ha. pose proof O as (bs & T & C & <-).
  unfold finsh_heap_allocate. fold n. cbv zeta. rewrite (bind_eval _ _ _ _ _ eq_refl).
  assert (u32 (n + HEADER) = n + HEADER) as -> by (apply wrap_small; unfold in_range, HEADER; lia).
  destruct (find_free (fun len => bool_decide (n + HEADER < len)) s bs T) as (a & E & H). cbn [list_head list_of] in E. rewrite (bind_eval _ _ _ _ _ E).
  destruct H as [[-> _]|(H0 & l1 & len & l2 & -> & -> & Hf)].
  - rewrite decide_True by done. destruct (finsh_heap_gc_ok s _ O) as (s1 & E1 & O1 & K1). fold m' in O1, K1. pose proof O1 as (bs1 & T1 & C1 & A1).
    destruct (find_free (fun len => bool_decide (n + HEADER <= len)) s1 bs1 T1) as (a & E2 & H).
    assert ((finsh_heap_gc variables;; first ← gets free_list; find_fit (fun len => bool_decide (n + HEADER <= len)) BLOCKS first) s = Some (a, s1)) as E3.
    { by rewrite (bind_eval _ _ _ _ _ E1), (bind_eval _ _ _ _ _ eq_refl). }
    rewrite (bind_eval _ _ _ _ _ E3). destruct H as [[-> Hf]|(H0 & l1 & len & l2 & -> & -> & Hf)].
    + rewrite decide_True by done. exists 0, s1. split; [done|]. left. split_and!; [done..|]. rewrite <- A1. eapply no_room; [done..|lia|done].
    + rewrite decide_False by lia. apply bool_decide_eq_true in Hf. destruct (take_given s1 l1 len l2 n T1 C1 ltac:(lia) Hf) as (s' & E' & G).
      eexists _, s'. split; [exact E'|]. right. split; [unfold HEADER; lia|]. right. rewrite A1 in G. destruct G as (m1 & m2 & Em & G1 & G2 & G3).
      exists m1, m2. split_and!; try done. eapply kept_trans; [exact K1|exact G2|reflexivity].
  - rewrite decide_False by lia. rewrite (bind_eval (mret _) _ _ _ _ eq_refl), decide_False by lia. apply bool_decide_eq_true in Hf.
    destruct (take_given s l1 len l2 n T C ltac:(lia) ltac:(lia)) as (s' & E' & G). eexists _, s'. split; [exact E'|]. right. split; [unfold HEADER; lia|]. by left.
Qed.
End collector.

(** ** The empty heap *)

Lemma finsh_heap_init_ok s : exists s', finsh_heap_init base s = Some (tt, s') /\ owns s' [] /\
  forall x, ~ (base <= x < base + FINSH_HEAP_MAX) -> heap_mem s' x = heap_mem s x.
Proof.
  unfold finsh_heap_init. assert (0 < base) as Hb by lia. rewrite (bind_eval _ _ _ _ _ eq_refl), (bind_eval _ _ _ _ _ eq_refl),
    (bind_eval _ _ _ _ _ (set_length_ok base _ _ Hb)), (bind_eval _ _ _ _ _ (set_next_ok base _ _ Hb)).
  eexists. split; [reflexivity|]. destruct (set_list_ok Allocated 0 s) as (_ & _ & _). cbn [set_list set_mem heap_mem free_list allocate_list].
  set (b := rt_memset base 0 FINSH_HEAP_MAX (heap_mem s)). set (b' := store32 (base + 4) (u32 0) (store32 base (u32 (FINSH_HEAP_MAX - HEADER)) b)).
  assert (load32 base b' = FINSH_HEAP_MAX - HEADER /\ load32 (base + 4) b' = 0) as [E1 E2].
  { unfold b'. rewrite load32_other, !load32_same by lia. done. }
  split.
  - exists [(FINSH_HEAP_MAX - HEADER, false)]. split; [|done]. split.
    + by repeat constructor.
    + done.
    + by exists [], (FINSH_HEAP_MAX - HEADER).
    + by split.
    + intros []; cbn; [done|]. by rewrite E2.
  - intros x Hx. unfold FINSH_HEAP_MAX in *. unfold b'. rewrite !store32_spec, !decide_False by lia. unfold b. rewrite rt_memset_spec by lia.
    unfold filled. by rewrite decide_False by lia.
Qed.

(** ** What is known of the blocks *)

Lemma tiles_apart p bs : nonneg bs -> forall i j q n q' n', allocated p bs !! i = Some (q, n) -> allocated p bs !! j = Some (q', n') -> (i < j)%nat ->
  q + n <= q' - HEADER.
Proof.
  intros Hn i j q n q' n' Hi Hj Hij. destruct (list_elem_of_split_length _ _ _ Hi) as (m1 & m2 & E & El).
  apply allocated_split in E as (l1 & l2 & -> & -> & E1 & E2). rewrite tiles_allocated_app in Hj. cbn in Hj. rewrite E1 in Hj.
  rewrite lookup_app_r in Hj by lia. destruct (j - length m1)%nat as [|k] eqn:Ek; [lia|]. cbn in Hj. apply list_elem_of_lookup_2 in Hj.
  apply Forall_app in Hn as [_ Hn]. apply Forall_cons in Hn as [_ Hn]. apply tiles_allocated_range in Hj; [lia|done].
Qed.

Lemma owns_apart s m q n q' n' : owns s m -> (q, n) ∈ m -> (q', n') ∈ m -> q = q' /\ n = n' \/ q + n <= q' - HEADER \/ q' + n' <= q - HEADER.
Proof.
  intros (bs & [Hn _ _ _ _] & _ & <-) (i & Hi)%list_elem_of_lookup (j & Hj)%list_elem_of_lookup.
  destruct (decide (i = j)) as [->|Hij]; [left; split; congruence|right].
  destruct (decide (i < j)%nat); [left; by eapply (tiles_apart base bs)|right; eapply (tiles_apart base bs Hn j i); [done|done|lia]].
Qed.

Lemma owns_NoDup s m : owns s m -> NoDup (fst <$> m).
Proof.
  intros (bs & [Hn _ _ _ _] & _ & <-). pose proof (headers_NoDup true base bs Hn) as H. rewrite headers_allocated in H.
  apply (NoDup_fmap_1 (fun q => q - HEADER)). by rewrite <- list_fmap_compose.
Qed.

(** The data of a block may be changed. *)
Lemma owns_data s m q n f : owns s m -> (q, n) ∈ m -> (forall x, ~ (q <= x < q + n) -> base <= x < base + FINSH_HEAP_MAX -> f (heap_mem s) x = heap_mem s x) ->
  owns (set_mem f s) m.
Proof.
  intros (bs & T & C & <-) Hq H. exists bs. split; [|done]. apply tiled_data; [done|]. intros x a Ha Hx.
  pose proof T as [Hn Ht _ _ _]. apply allocated_tile in Hq as (l1 & l2 & -> & ->). pose proof (starts_range _ _ _ Hn Ha).
  destruct (tiled_middle _ _ _ _ Hn) as (_ & _ & _ & E & R1 & R2). rewrite E in Ha. unfold HEADER in *.
  apply H; [|lia]. apply elem_of_app in Ha as [Ha|[->|Ha]%elem_of_cons]; [specialize (R1 _ Ha)| |specialize (R2 _ Ha)]; lia.
Qed.

Lemma owns_outside s s' m : owns s m -> free_list s' = free_list s -> allocate_list s' = allocate_list s ->
  (forall x, base <= x < base + FINSH_HEAP_MAX -> heap_mem s' x = heap_mem s x) -> owns s' m.
Proof.
  intros (bs & T & C & A) E1 E2 H. exists bs. split; [|done]. destruct s as [f a b], s' as [f' a' b']. cbn in *. subst f' a'.
  apply (tiled_data (Heap f a b) bs (fun _ => b') T). intros x y Hy Hx. apply H. destruct T as [Hn Ht _ _ _]. apply starts_range in Hy; [lia|done].
Qed.
End strings.
