(* ===== verification/FinshStrings.v ===== *)
(** * FinshStrings: a string that a variable points to is kept

    [finsh_node_new_string] of [FinshParser] with the heap of [FinshBlocks]: what a
    line may do with the strings of the shell, and what is promised of them. *)

From S2P Require Import Prelude Bytes KString FinshVm FinshCompiler FinshToken FinshHeap FinshParser FinshBlocks.

(** A string without NUL. *)
Definition a_text (t : list Z) : Prop := Forall (fun c => 0 < c < 256) t /\ Z.of_nat (length t) + 1 < 2 ^ 31.

Lemma copy_string_outside t : forall a b x, ~ (a <= x < a + Z.of_nat (length t) + 1) -> copy_string a t b x = b x.
Proof.
  induction t as [|c t IH]; intros a b x Hx; cbn in *; [|rewrite IH by lia]; unfold store8; by rewrite decide_False by lia.
Qed.

Lemma copy_string_at t : Forall (fun c => 0 < c < 256) t -> forall a b, str_at (copy_string a t b) a t.
Proof.
  induction 1 as [|c t Hc _ IH]; intros a b; cbn.
  - unfold store8. by rewrite decide_True.
  - split; [lia|]. split; [|apply IH]. rewrite copy_string_outside by lia. unfold store8. rewrite decide_True by done.
    apply wrap_small. unfold in_range. lia.
Qed.

(** What is in memory from [q] on. *)
Definition bytes_at (b : mem) (q : Z) (n : nat) : list Z := map (fun i => b (q + Z.of_nat i)) (seq 0 n).

Lemma bytes_at_S b q n : bytes_at b q (S n) = b q :: bytes_at b (q + 1) n.
Proof.
  unfold bytes_at. cbn [seq map]. f_equal; [f_equal; lia|]. rewrite <- seq_shift, map_map. apply map_ext. intros i. f_equal. lia.
Qed.

Lemma bytes_at_length b q n : length (bytes_at b q n) = n.
Proof. unfold bytes_at. by rewrite length_map, length_seq. Qed.

Lemma bytes_at_frame b b' q n : (forall x, q <= x < q + Z.of_nat n -> b' x = b x) -> bytes_at b' q n = bytes_at b q n.
Proof. intros H. apply map_ext_in. intros i Hi%in_seq. apply H. lia. Qed.

Lemma bytes_at_str b t : forall q, str_at b q t -> bytes_at b q (S (length t)) = t ++ [0].
Proof.
  induction t as [|c t IH]; intros q; cbn [str_at length app]; [intros E; by rewrite bytes_at_S, E|]. intros (_ & E & H). by rewrite bytes_at_S, E, IH.
Qed.

(** The part of a block that is for a string, with its end. *)
Definition room_of (bs : list Z) : Z := HEAP_ALIGN_SIZE (Z.of_nat (length bs)).

Section strings.
Context {env : Environment}.
Context (Hheap : 0 < finsh_heap /\ finsh_heap + FINSH_HEAP_MAX < 2 ^ 32).
Context (Hvars : global_variable + 24 * Z.of_nat FINSH_VARIABLE_MAX <= finsh_heap \/ finsh_heap + FINSH_HEAP_MAX <= global_variable).

(** A variable of the shell points to [q]. *)
Definition pointed (p : finsh_parser) (q : Z) : bool := existsb (fun a => bool_decide (load32 a (heap_mem (strings p)) = q)) (declared (variables p)).
Definition kept_strings (p : finsh_parser) (live : list (Z * list Z)) : list (Z * list Z) := filter (fun x => pointed p (fst x) = true) live.

(** What happens to the strings, with what is in those that are still promised.  A
    new one is promised from then on, with its end; those that no variable points
    to may be given up for it.  Anything else leaves the heap as it is, the tokens,
    the nodes, the values of the variables and where they are declared, or writes
    into the block of one of the strings: an assignment through a pointer, and what
    the functions do that a line calls. *)
Inductive reachable_strings : finsh_parser -> list (Z * list Z) -> Prop :=
  | strings_start h p : finsh_heap_init finsh_heap h = Some (tt, strings p) -> length (variables p) = FINSH_VARIABLE_MAX -> reachable_strings p []
  | strings_new p live t n c s p' : reachable_strings p live -> a_text t -> finsh_node_new_string t p = Some (Tree n c s, p') ->
      reachable_strings p' ((value n, t ++ [0]) :: kept_strings p live)
  | strings_other p live p' : reachable_strings p live -> length (variables p') = FINSH_VARIABLE_MAX ->
      free_list (strings p') = free_list (strings p) -> allocate_list (strings p') = allocate_list (strings p) ->
      (forall x, finsh_heap <= x < finsh_heap + FINSH_HEAP_MAX -> heap_mem (strings p') x = heap_mem (strings p) x) -> reachable_strings p' live
  | strings_write p live1 q bs live2 f : reachable_strings p (live1 ++ (q, bs) :: live2) ->
      (forall x, finsh_heap <= x < finsh_heap + FINSH_HEAP_MAX -> ~ (q <= x < q + room_of bs) -> f (heap_mem (strings p)) x = heap_mem (strings p) x) ->
      reachable_strings (set_strings (set_mem f (strings p)) p) (live1 ++ (q, bytes_at (f (heap_mem (strings p))) q (length bs)) :: live2).

(** The blocks of the heap have the strings. *)
Record holds (p : finsh_parser) (live : list (Z * list Z)) (m : list (Z * Z)) : Prop := Holds {
  holds_owns : owns finsh_heap (strings p) m;
  holds_variables : length (variables p) = FINSH_VARIABLE_MAX;
  holds_strings q bs : (q, bs) ∈ live -> exists n, (q, n) ∈ m /\ Z.of_nat (length bs) <= room_of bs <= n /\ bytes_at (heap_mem (strings p)) q (length bs) = bs;
  holds_distinct : NoDup (fst <$> live)
}.

Lemma declared_outside l : length l = FINSH_VARIABLE_MAX -> Forall (fun a => a + 4 <= finsh_heap \/ finsh_heap + FINSH_HEAP_MAX <= a) (declared l).
Proof.
  intros Hl. apply Forall_forall. intros a Ha. unfold declared in Ha. apply list_elem_of_omap in Ha as ([i v] & Hi & Ha). case_decide; [|done]. injection Ha as <-.
  apply list_elem_of_lookup in Hi as (k & Hk). rewrite list_lookup_imap in Hk. destruct (l !! k) as [v'|] eqn:E; [|done]. injection Hk as <- <-.
  apply lookup_lt_Some in E. rewrite Hl in E. unfold FINSH_VARIABLE_MAX, var_value, var_address in *. lia.
Qed.

Lemma finsh_node_new_string_ok p m t : owns finsh_heap (strings p) m -> length (variables p) = FINSH_VARIABLE_MAX -> a_text t -> (nodes p < FINSH_NODE_MAX)%nat ->
  let size := HEAP_ALIGN_SIZE (Z.of_nat (length t) + 1) in let m' := filter (fun x => used (declared (variables p)) (heap_mem (strings p)) x = true) m in
  finsh_node_new_string t p = None /\ ~ room finsh_heap m' (size + 2 * HEADER) \/
  exists n p' m0 m1 m2, finsh_node_new_string t p = Some (Tree n Null Null, p') /\ (m0 = m \/ m0 = m') /\ m0 = m1 ++ m2 /\
    owns finsh_heap (strings p') (m1 ++ (value n, size) :: m2) /\ kept finsh_heap m0 (heap_mem (strings p)) (heap_mem (strings p')) /\
    str_at (heap_mem (strings p')) (value n) t /\ variables p' = variables p.
Proof.
  intros O Hl [Ht Hs] Hn size m'. unfold finsh_node_new_string, finsh_node_allocate. rewrite bind_eval with (a := Some (Node FINSH_NODE_VALUE_STRING 0 0 0 0)) (s' := set_nodes (S (nodes p)) p).
  2:{ rewrite (bind_eval _ _ _ _ _ eq_refl). by rewrite decide_True. }
  rewrite (bind_eval _ _ _ _ _ eq_refl).
  destruct (finsh_heap_allocate_ok finsh_heap Hheap (declared (variables p)) (declared_outside _ Hl) (strings p) m (Z.of_nat (length t) + 1) O ltac:(lia))
    as (a & h & E & H). fold size m' in H.
  assert (on_heap (finsh_heap_allocate (declared (variables (set_nodes (S (nodes p)) p))) (Z.of_nat (length t) + 1)) (set_nodes (S (nodes p)) p) =
    Some (a, set_strings h (set_nodes (S (nodes p)) p))) as E'.
  { unfold on_heap. cbn [variables strings set_nodes]. by rewrite E. }
  rewrite (bind_eval _ _ _ _ _ E'). destruct H as [(-> & _ & _ & Hr)|(Ha & G)].
  - left. by rewrite decide_True.
  - right. rewrite decide_False by lia. rewrite (bind_eval _ _ _ _ _ eq_refl).
    assert (exists m0, (m0 = m \/ m0 = m') /\ given finsh_heap (strings p) m0 a size h) as (m0 & Hm0 & m1 & m2 & Em & O' & K & Hz) by (destruct G; eauto).
    assert (Z.of_nat (length t) + 1 <= size) as Hsz by (apply heap_align; lia).
    eexists _, _, m0, m1, m2. split; [reflexivity|]. split; [done|]. split; [done|]. cbn [value with_value strings set_strings set_mem heap_mem variables set_nodes]. split_and!.
    + apply (owns_data finsh_heap _ _ a size); [done|set_solver|]. intros x Hx _. apply copy_string_outside. lia.
    + eapply kept_trans; [exact K| |reflexivity]. intros x Hx. apply copy_string_outside. intros Hx'.
      destruct (owns_range finsh_heap _ _ a size O') as (R1 & R2 & R3); [set_solver|]. unfold HEADER in *.
      destruct Hx as [Hx|(q & n & Hq & Hx)]; [lia|].
      destruct (owns_range finsh_heap _ _ q n O') as (R1' & R2' & R3'); [set_solver|].
      destruct (owns_apart finsh_heap _ _ q n a size O') as [[-> ->]|?]; [set_solver|set_solver| |unfold HEADER in *; lia].
      apply owns_NoDup, NoDup_fmap_1 in O'. apply NoDup_app in O' as (_ & Hd & Hd2). apply NoDup_cons in Hd2 as [Hd2 _].
      subst m0. apply elem_of_app in Hq as [Hq|Hq]; [|done]. apply (Hd _ Hq). constructor.
    + by apply copy_string_at.
    + done.
Qed.

Lemma distinct_texts (live : list (Z * list Z)) q t t' : NoDup (fst <$> live) -> (q, t) ∈ live -> (q, t') ∈ live -> t = t'.
Proof.
  intros Hd Ht Ht'. apply list_elem_of_lookup in Ht as (i & Hi), Ht' as (j & Hj).
  assert (i = j) as <-; [|congruence]. eapply (NoDup_lookup _ _ _ q Hd); rewrite list_lookup_fmap; [by rewrite Hi|by rewrite Hj].
Qed.

Lemma used_pointed p m x : owns finsh_heap (strings p) m -> x ∈ m -> used (declared (variables p)) (heap_mem (strings p)) x = pointed p (fst x).
Proof.
  intros O Hx. destruct x as [q n]. destruct (owns_range finsh_heap _ _ _ _ O Hx) as (R1 & R2 & R3). cbn [fst].
  unfold used, pointed. cbn [fst]. by rewrite (wrap_small 32) by (unfold in_range, HEADER in *; lia).
Qed.

Lemma holds_new p live m t n c s p' : holds p live m -> a_text t -> finsh_node_new_string t p = Some (Tree n c s, p') ->
  exists m', holds p' ((value n, t ++ [0]) :: kept_strings p live) m'.
Proof.
  intros H Ht E. pose proof H as [O Hl Hs Hd].
  assert (nodes p < FINSH_NODE_MAX)%nat as Hn.
  { destruct (decide (nodes p < FINSH_NODE_MAX)%nat) as [?|Hn]; [done|]. exfalso. revert E. unfold finsh_node_new_string, finsh_node_allocate.
    rewrite bind_eval with (a := None) (s' := p); [|rewrite (bind_eval _ _ _ _ _ eq_refl); by rewrite decide_False].
    cbn. done. }
  destruct (finsh_node_new_string_ok p m t O Hl Ht Hn) as [[E' _]|(n' & p1 & m0 & m1 & m2 & E' & Hm0 & Em & O' & K & Hat & Hv)]; rewrite E in E'; [done|].
  injection E' as <- -> -> <-. set (size := HEAP_ALIGN_SIZE _) in O'. eexists. split; [exact O'|congruence| |].
  - intros q u [[= -> ->]|Hq]%elem_of_cons.
    + exists size. split; [set_solver|]. assert (length (t ++ [0]) = S (length t)) as El by (rewrite length_app; simpl; lia). unfold room_of. rewrite El. split; [|by apply bytes_at_str].
      replace (Z.of_nat (S (length t))) with (Z.of_nat (length t) + 1) by lia. destruct Ht, (heap_align (Z.of_nat (length t) + 1)); [lia|]. unfold size. lia.
    + unfold kept_strings in Hq. apply list_elem_of_filter in Hq as [Hp Hq]. destruct (Hs _ _ Hq) as (k & Hk & Hlen & Hstr). exists k.
      assert ((q, k) ∈ m0) as Hk0.
      { destruct Hm0 as [->| ->]; [done|]. apply list_elem_of_filter. split; [|done]. rewrite <- Hp. by apply (used_pointed p m (q, k)). }
      split; [subst m0; set_solver|]. split; [done|]. rewrite <- Hstr at 2. apply bytes_at_frame. intros x Hx. apply K. right. exists q, k. split; [done|lia].
  - cbn. apply NoDup_cons. split.
    + intros ([q u] & Eq & Hq)%list_elem_of_fmap. cbn in Eq. subst q. apply list_elem_of_filter in Hq as [Hp Hq]. destruct (Hs _ _ Hq) as (k & Hk & _).
      assert ((value n, k) ∈ m0) as Hk0.
      { destruct Hm0 as [->| ->]; [done|]. apply list_elem_of_filter. split; [|done]. cbn in Hp. rewrite <- Hp. by apply (used_pointed p m (value n, k)). }
      apply owns_NoDup in O'. rewrite fmap_app in O'. cbn in O'. apply NoDup_app in O' as (_ & Hd' & Hd2). apply NoDup_cons in Hd2 as [Hd2 _].
      subst m0. apply elem_of_app in Hk0 as [Hk0|Hk0]; apply (list_elem_of_fmap_2 fst) in Hk0; [|done]. apply (Hd' _ Hk0). constructor.
    + unfold kept_strings. eapply sublist_NoDup; [exact Hd|]. apply fmap_sublist, sublist_filter.
Qed.

Lemma holds_start h p : finsh_heap_init finsh_heap h = Some (tt, strings p) -> length (variables p) = FINSH_VARIABLE_MAX -> holds p [] [].
Proof.
  intros E Hl. destruct (finsh_heap_init_ok finsh_heap Hheap h) as (h' & E' & O & _). rewrite E in E'. injection E' as E'. rewrite <- E' in O.
  split; [done|done| |constructor]. intros q t Hq. by apply not_elem_of_nil in Hq.
Qed.

Lemma holds_other p live m p' : holds p live m -> length (variables p') = FINSH_VARIABLE_MAX ->
  free_list (strings p') = free_list (strings p) -> allocate_list (strings p') = allocate_list (strings p) ->
  (forall x, finsh_heap <= x < finsh_heap + FINSH_HEAP_MAX -> heap_mem (strings p') x = heap_mem (strings p) x) -> holds p' live m.
Proof.
  intros [O Hl Hs Hd] Hl' E1 E2 H. split; [by eapply owns_outside|done| |done]. intros q t Hq. destruct (Hs _ _ Hq) as (n & Hn & Hlen & Hstr).
  exists n. split; [done|]. split; [done|]. rewrite <- Hstr at 2. apply bytes_at_frame. intros x Hx. apply H.
  destruct (owns_range finsh_heap _ _ _ _ O Hn) as (? & ? & ?). unfold HEADER in *. lia.
Qed.

(** A write into one string leaves the others. *)
Lemma holds_write p live1 q bs live2 m f : holds p (live1 ++ (q, bs) :: live2) m ->
  (forall x, finsh_heap <= x < finsh_heap + FINSH_HEAP_MAX -> ~ (q <= x < q + room_of bs) -> f (heap_mem (strings p)) x = heap_mem (strings p) x) ->
  holds (set_strings (set_mem f (strings p)) p) (live1 ++ (q, bytes_at (f (heap_mem (strings p))) q (length bs)) :: live2) m.
Proof.
  intros [O Hl Hs Hd] H. destruct (Hs q bs) as (n & Hn & Hb & _); [set_solver|]. split; cbn [strings set_strings set_mem heap_mem variables].
  - apply (owns_data finsh_heap _ _ q n); [done|done|]. intros x Hx Hr. apply H; [done|lia].
  - done.
  - intros q' bs' Hq'. assert ((q', bs') = (q, bytes_at (f (heap_mem (strings p))) q (length bs)) \/ q' <> q /\ (q', bs') ∈ live1 ++ (q, bs) :: live2) as [[= -> ->]|[Hne Hin]].
    { rewrite fmap_app in Hd. cbn in Hd. apply NoDup_app in Hd as (_ & Hd1 & [Hd2 _]%NoDup_cons). apply elem_of_app in Hq' as [Hq'|[->|Hq']%elem_of_cons]; [right|by left|right].
      - split; [|set_solver]. intros ->. apply (list_elem_of_fmap_2 fst) in Hq'. apply (Hd1 _ Hq'). constructor.
      - split; [|set_solver]. intros ->. by apply (list_elem_of_fmap_2 fst) in Hq'. }
    + exists n. unfold room_of in *. by rewrite bytes_at_length.
    + destruct (Hs _ _ Hin) as (n' & Hn' & Hb' & E). exists n'. split; [done|]. split; [done|]. rewrite <- E at 2. apply bytes_at_frame. intros x Hx.
      destruct (owns_range finsh_heap _ _ _ _ O Hn') as (? & ? & ?). destruct (owns_apart finsh_heap _ _ _ _ _ _ O Hn Hn') as [[? _]|?]; [done|]. unfold HEADER in *. apply H; lia.
  - rewrite fmap_app in *. exact Hd.
Qed.

Lemma reachable_holds p live : reachable_strings p live -> exists m, holds p live m.
Proof.
  induction 1 as [h p E Hl|p live t n c s p' _ [m IH] Ht E|p live p' _ [m IH] Hl E1 E2 E|p live1 q bs live2 f _ [m IH] H].
  - exists []. by eapply holds_start.
  - by eapply holds_new.
  - exists m. by eapply holds_other.
  - exists m. by apply holds_write.
Qed.

(** ** The property *)

(** C40: Making a string never changes another one. Let lines of the shell make
    strings, declare variables, give them values, write anything outside of the
    heap of 128 bytes, and write into the words that the strings are in, by
    assignments through pointers or by the functions they call, but nowhere else
    in the heap (a write behind a string reaches the header of the next block).
    Then a string, for as long as some variable holds the address of its start
    whenever another string is made, is what was typed and its end, but for what
    has been written into it by such assignments; it is in the heap and overlaps
    no other one. If there is a node left, a new string is refused only when
    what the variables point to leaves no room for it and its headers anywhere
    in the heap; otherwise its node is made. A string that no variable points to
    is promised until the next one is made. *)
Theorem strings_are_kept p live : reachable_strings p live ->
  (forall q bs, (q, bs) ∈ live -> bytes_at (heap_mem (strings p)) q (length bs) = bs /\ finsh_heap < q /\ q + Z.of_nat (length bs) <= finsh_heap + FINSH_HEAP_MAX) /\
  (forall q bs q' bs', (q, bs) ∈ live -> (q', bs') ∈ live -> q = q' /\ bs = bs' \/ q + Z.of_nat (length bs) <= q' \/ q' + Z.of_nat (length bs') <= q) /\
  (forall t, a_text t -> (nodes p < FINSH_NODE_MAX)%nat -> (exists n p', finsh_node_new_string t p = Some (Tree n Null Null, p')) \/
    exists h m, finsh_heap_gc (declared (variables p)) (strings p) = Some (tt, h) /\ owns finsh_heap h m /\
      Forall (fun x => pointed p (fst x) = true) m /\ ~ room finsh_heap m (HEAP_ALIGN_SIZE (Z.of_nat (length t) + 1) + 2 * HEADER)).
Proof.
  intros (m & [O Hl Hs Hd])%reachable_holds. split_and!.
  - intros q t Hq. destruct (Hs _ _ Hq) as (n & Hn & Hlen & Hstr). destruct (owns_range finsh_heap _ _ _ _ O Hn) as (? & ? & ?).
    split; [done|]. unfold HEADER in *. lia.
  - intros q t q' t' Hq Hq'. destruct (Hs _ _ Hq) as (n & Hn & Hlen & _). destruct (Hs _ _ Hq') as (n' & Hn' & Hlen' & _).
    destruct (owns_apart finsh_heap _ _ _ _ _ _ O Hn Hn') as [[-> _]|?]; [left; split; [done|]; by eapply (distinct_texts live)|right; unfold HEADER in *; lia].
  - intros t Ht Hn. destruct (finsh_node_new_string_ok p m t O Hl Ht Hn) as [[_ Hr]|(n & p' & _ & _ & _ & E & _)]; [right|left; by exists n, p'].
    destruct (finsh_heap_gc_ok finsh_heap Hheap (declared (variables p)) (declared_outside _ Hl) _ _ O) as (h & E & O' & _). eexists h, _.
    split; [done|]. split; [exact O'|]. split; [|done]. apply Forall_forall. intros [q k] Hq. apply list_elem_of_filter in Hq as [Hu Hq]. rewrite <- Hu. symmetry.
    by eapply used_pointed.
Qed.
End strings.

(** ** An example *)

#[local] Instance demo_environment : Environment :=
  {| global_variable := 8192; finsh_heap := 4096; sysvars := Table [] []; syscalls := Table [] [];
     type_of_sysvar _ := finsh_type_unknown; var_of_sysvar _ := 0; func_of_syscall _ := 0 |}.
Definition no_variables : list (list Z * finsh_type) := replicate FINSH_VARIABLE_MAX ([], finsh_type_unknown).
Definition first_heap : heap := match finsh_heap_init 4096 (Heap 0 0 (fun _ => 0)) with Some (_, h) => h | None => Heap 0 0 (fun _ => 0) end.
Definition first_parser : finsh_parser := Parser (finsh_token_init [] 0) 0 no_variables first_heap.
Definition after_string (t : list Z) (p : finsh_parser) : finsh_parser := match finsh_node_new_string t p with Some (_, p') => p' | None => p end.
(** The variable [s] gets a pointer. *)
Definition point_to (q : Z) (p : finsh_parser) : finsh_parser :=
  Parser (token p) (nodes p) (<[0%nat := ([115], finsh_type_charp)]> (variables p)) (set_mem (store32 (var_value (var_address 0)) q) (strings p)).
Definition string_of (t : list Z) (p : finsh_parser) : option Z := match finsh_node_new_string t p with Some (Tree n _ _, _) => Some (value n) | _ => None end.

Lemma after_string_eq t p q : string_of t p = Some q -> exists n c s, finsh_node_new_string t p = Some (Tree n c s, after_string t p) /\ value n = q.
Proof.
  unfold string_of, after_string. destruct (finsh_node_new_string t p) as [[[|n c s] p']|]; try done. intros [= <-]. by exists n, c, s.
Qed.

(** [char *s = "hihihi"], then [*s = 5], of which the machine makes a word, and a
    second string: the first one is as the assignment left it. *)
Definition hi : list Z := [104; 105; 104; 105; 104; 105].
Definition pointing_parser : finsh_parser := point_to 4104 (after_string hi first_parser).
Definition assigned_parser : finsh_parser := set_strings (set_mem (store32 4104 5) (strings pointing_parser)) pointing_parser.
Definition second_parser : finsh_parser := after_string [33] assigned_parser.

Lemma demo_reachable : reachable_strings second_parser [(4120, [33; 0]); (4104, [5; 0; 0; 0; 104; 105; 0])].
Proof.
  assert (string_of hi first_parser = Some 4104) as E1 by (vm_compute; reflexivity).
  assert (string_of [33] assigned_parser = Some 4120) as E2 by (vm_compute; reflexivity).
  destruct (after_string_eq _ _ _ E1) as (n & c & s & F1 & V1). destruct (after_string_eq _ _ _ E2) as (n' & c' & s' & F2 & V2).
  pose proof (strings_start (Heap 0 0 (fun _ => 0)) first_parser eq_refl eq_refl) as R0.
  pose proof (strings_new first_parser [] hi n c s _ R0 ltac:(by repeat constructor) F1) as R1. rewrite V1 in R1.
  assert (reachable_strings pointing_parser ([] ++ (4104, hi ++ [0]) :: [])) as R2.
  { eapply strings_other; [exact R1|by vm_compute|by vm_compute|by vm_compute|]. intros x Hx. cbn [pointing_parser point_to strings set_mem heap_mem].
    rewrite store32_spec, decide_False; [done|]. cbn in *. unfold var_value, var_address, FINSH_HEAP_MAX in *. cbn in *. lia. }
  assert (reachable_strings assigned_parser [(4104, [5; 0; 0; 0; 104; 105; 0])]) as R3.
  { refine (strings_write pointing_parser [] 4104 (hi ++ [0]) [] (store32 4104 5) R2 _). intros x _ Hx. rewrite store32_spec, decide_False; [done|].
    change (room_of (hi ++ [0])) with 8 in Hx. lia. }
  pose proof (strings_new _ _ [33] n' c' s' _ R3 ltac:(by repeat constructor) F2) as R4. rewrite V2 in R4.
  assert (kept_strings assigned_parser [(4104, [5; 0; 0; 0; 104; 105; 0])] = [(4104, [5; 0; 0; 0; 104; 105; 0])]) as Ek by (vm_compute; reflexivity).
  rewrite Ek in R4. exact R4.
Qed.

Lemma strings_are_kept_witness : bytes_at (heap_mem (strings second_parser)) 4104 7 = [5; 0; 0; 0; 104; 105; 0].
Proof.
  destruct (strings_are_kept ltac:(done) ltac:(right; done) second_parser _ demo_reachable) as (H & _ & _).
  destruct (H 4104 [5; 0; 0; 0; 104; 105; 0]) as [H' _]; [constructor; constructor|exact H'].
Defined.

(** Without a variable a string does not even last until the end of its line: when
    there is no more room, the next string of the line gets its place. *)
Example string_is_given_up : let x := replicate 60 120 in let y := replicate 60 121 in
  string_of x first_parser = Some 4104 /\ string_of y (after_string x first_parser) = Some 4104.
Proof. vm_compute. split; reflexivity. Qed.

(** If a variable has it, there is no room, and that is not noticed. *)
Example full_heap_is_not_noticed : let x := replicate 60 120 in finsh_node_new_string x (point_to 4104 (after_string x first_parser)) = None.
Proof. vm_compute. reflexivity. Qed.
