(* ===== verification/FinshSyntax.v ===== *)
(** * FinshSyntax: the syntax of expressions

    The tokens of an expression, and that the parser makes its tree of them.  An
    operator binds as in C; there are no parentheses around expressions, because
    the parser takes each opening one for the start of a cast. *)

From S2P Require Import Prelude Bytes KString FinshVm FinshCompiler FinshExpr FinshRun FinshToken FinshHeap FinshLex FinshParser.

(** ** Operators *)

Definition bop_token (op : bop) : finsh_token_type :=
  match op with
  | Add => finsh_token_type_add | Sub => finsh_token_type_sub | Mul => finsh_token_type_mul | Div => finsh_token_type_div | Mod => finsh_token_type_mod
  | And => finsh_token_type_and | Or => finsh_token_type_or | Xor => finsh_token_type_xor | Shl => finsh_token_type_shl | Shr => finsh_token_type_shr
  end.
(** From 1, the weakest; an assignment is 0, a unary operator 7 and a postfix one 8. *)
Definition bop_level (op : bop) : nat :=
  match op with Or => 1 | Xor => 2 | And => 3 | Shl | Shr => 4 | Add | Sub => 5 | Mul | Div | Mod => 6 end.
Definition level (e : expr) : nat :=
  match e with
  | EAssign _ _ | EStore _ _ => 0
  | EBin op _ _ => bop_level op
  | EAddr _ | ENot _ | ELoad _ | EPre _ _ => 7
  | _ => 8
  end.
(** The level of a token that goes on with an expression. *)
Definition token_level (t : finsh_token_type) : option nat :=
  match t with
  | finsh_token_type_assign => Some 0%nat
  | finsh_token_type_or => Some 1%nat | finsh_token_type_xor => Some 2%nat | finsh_token_type_and => Some 3%nat
  | finsh_token_type_shl | finsh_token_type_shr => Some 4%nat | finsh_token_type_add | finsh_token_type_sub => Some 5%nat
  | finsh_token_type_mul | finsh_token_type_div | finsh_token_type_mod => Some 6%nat
  | finsh_token_type_inc | finsh_token_type_dec | finsh_token_type_left_paren => Some 8%nat
  | _ => None
  end.
(** An expression of the level [n] ends in front of it. *)
Definition stops (n : nat) (t : finsh_token_type) : Prop := match token_level t with Some m => (m < n)%nat | None => True end.

(** The nodes of an expression. *)
Fixpoint size (e : expr) : nat :=
  match e with
  | EChar _ | EConst _ _ | EId _ => 1
  | EAddr _ | EPre _ _ | EPost _ _ => 2
  | EBin _ e1 e2 => S (size e1 + size e2)
  | ENot e | ELoad e => S (size e)
  | EAssign _ e => S (S (size e))
  | EStore e1 e2 => S (S (size e1 + size e2))
  | ECall _ args => S (S (list_sum (map size args)))
  end.

Section syntax.
Context {env : Environment} {sy : Symbols}.
(** The variables that are declared, and the names of identifiers and functions. *)
Context (vars : list (list Z * finsh_type)) (ident_name : ident -> list Z) (function_name : Z -> list Z).

Definition const_token (k : const_kind) (v : Z) : tok := match k with CInt => TInt v | CLong => TLong v | CString | CNull => TNull end.
Definition inc_token (inc : bool) : tok := TOp (if inc then finsh_token_type_inc else finsh_token_type_dec).
Definition separated (l : list (list tok)) : list tok :=
  match l with [] => [] | x :: l => x ++ flat_map (fun y => TOp finsh_token_type_comma :: y) l end.
Fixpoint tokens (e : expr) : list tok :=
  match e with
  | EChar c => [TChar c]
  | EConst k v => [const_token k v]
  | EId i => [TId (ident_name i)]
  | EAddr i => [TOp finsh_token_type_and; TId (ident_name i)]
  | EBin op e1 e2 => tokens e1 ++ TOp (bop_token op) :: tokens e2
  | ENot e => TOp finsh_token_type_bitwise :: tokens e
  | ELoad e => TOp finsh_token_type_mul :: tokens e
  | EAssign i e => TId (ident_name i) :: TOp finsh_token_type_assign :: tokens e
  | EStore e1 e2 => TOp finsh_token_type_mul :: tokens e1 ++ TOp finsh_token_type_assign :: tokens e2
  | EPre inc p => [inc_token inc; TId (ident_name (Var p))]
  | EPost inc p => [TId (ident_name (Var p)); inc_token inc]
  | ECall f args => TId (function_name f) :: TOp finsh_token_type_left_paren :: separated (map tokens args) ++ [TOp finsh_token_type_right_paren]
  end.

(** What a name stands for: a variable, else a variable of the system, else a function. *)
Definition resolve (name : list Z) : option (Z * Z) :=
  match index_of (named name) vars with
  | Some i => Some (FINSH_IDTYPE_VAR, var_address i)
  | None =>
    match finsh_sysvar_lookup name with
    | Some p => Some (FINSH_IDTYPE_SYSVAR, p)
    | None => (fun p => (FINSH_IDTYPE_SYSCALL, p)) <$> finsh_syscall_lookup name
    end
  end.
Definition ident_named (i : ident) : Prop := identifier (ident_name i) /\ resolve (ident_name i) = Some (id_type i, ident_ptr i).
Definition function_named (f : Z) : Prop := identifier (function_name f) /\ resolve (function_name f) = Some (FINSH_IDTYPE_SYSCALL, f).

(** The expressions that can be written: operands bind stronger than their operator,
    and on the right side of one of the same level stronger than that. *)
Fixpoint writable (e : expr) : Prop :=
  match e with
  | EChar _ => True
  | EConst k v => match k with CString => False | CNull => v = 0 | _ => True end
  | EId i | EAddr i => ident_named i
  | EBin op e1 e2 => writable e1 /\ writable e2 /\ (bop_level op <= level e1)%nat /\ (bop_level op < level e2)%nat
  | ENot e | ELoad e => writable e /\ (7 <= level e)%nat
  | EAssign i e => ident_named i /\ writable e
  | EStore e1 e2 => writable e1 /\ writable e2 /\ (7 <= level e1)%nat
  | EPre _ p | EPost _ p => ident_named (Var p)
  | ECall f args => function_named f /\ foldr (fun a q => writable a /\ q) True args
  end.

(** ** The parser on tokens *)

Definition before (l : list tok) (t : finsh_token) : Prop := upcoming t l.
Definition after (x : tok) (l : list tok) (t : finsh_token) : Prop := is_tok x t /\ replay t = false /\ upcoming t l.

(** From tokens in [P] on, [m] does what [m'] does from tokens in [Q] on; [k] nodes are
    taken in between, and nothing else is changed. *)
Definition reaches {A} (m m' : PM A) (P Q : finsh_token -> Prop) (k : nat) : Prop :=
  forall s, P (token s) -> (nodes s + k <= FINSH_NODE_MAX)%nat -> variables s = vars ->
  exists s', m s = m' s' /\ Q (token s') /\ nodes s' = (nodes s + k)%nat /\ variables s' = vars /\ strings s' = strings s /\ terrno (token s') = terrno (token s).
Definition parses {A} (m : PM A) (P Q : finsh_token -> Prop) (k : nat) (a : A) : Prop := reaches m (mret a) P Q k.

Lemma reaches_refl {A} (m : PM A) P : reaches m m P P 0.
Proof. intros s Hp Hn Hv. exists s. by rewrite Nat.add_0_r. Qed.

Lemma reaches_trans {A} (m m' m'' : PM A) P Q R k k' : reaches m m' P Q k -> reaches m' m'' Q R k' -> reaches m m'' P R (k + k').
Proof.
  intros H1 H2 s Hp Hn Hv. destruct (H1 s Hp ltac:(lia) Hv) as (s1 & E1 & Q1 & N1 & V1 & T1 & Err1).
  destruct (H2 s1 Q1 ltac:(lia) V1) as (s2 & E2 & Q2 & N2 & V2 & T2 & Err2). exists s2. rewrite E1, E2, N2, N1, T2, T1, Err2, Err1. split_and!; try done. lia.
Qed.

Lemma reaches_bind {A B} (m : PM A) (f : A -> PM B) P Q k a : parses m P Q k a -> reaches (m ≫= f) (f a) P Q k.
Proof. intros H s Hp Hn Hv. destruct (H s Hp Hn Hv) as (s1 & E1 & Q1). exists s1. by rewrite (bind_eval _ _ _ _ _ E1). Qed.

(** The two together: one step of a parser. *)
Lemma parses_seq {A B} (m : PM A) (f : A -> PM B) m' P Q R k k' a : parses m P Q k a -> reaches (f a) m' Q R k' -> reaches (m ≫= f) m' P R (k + k').
Proof. intros H1 H2. eapply reaches_trans; [by apply reaches_bind|done]. Qed.

Lemma parses_weaken {A} (m m' : PM A) P P' Q k : reaches m m' P Q k -> (forall t, P' t -> P t) -> reaches m m' P' Q k.
Proof. intros H HP s Hp. apply H. by apply HP. Qed.

Lemma reaches_eq {A} (m m' : PM A) P Q k k' : k = k' -> reaches m m' P Q k -> reaches m m' P Q k'.
Proof. by intros ->. Qed.

Lemma after_before x l t : after x l t -> before l t.
Proof. by intros (_ & _ & H). Qed.

Lemma parses_next x l : parses next_token (before (x :: l)) (after x l) 0 (kind x).
Proof.
  intros s (t' & E & Hx & Hr & Hn & Hu) _ Hv. exists (set_token t' s). rewrite Nat.add_0_r. split; [|done]. unfold next_token, on_token. by rewrite E.
Qed.

Lemma parses_replay x l : parses replay_token (after x l) (before (x :: l)) 0 tt.
Proof.
  intros s (Hx & Hr & Hu) _ Hv. exists (set_token (set_replay true (token s)) s). rewrite Nat.add_0_r. split; [done|]. split; [by apply upcoming_replay|done].
Qed.

(** A token that is given back at once. *)
Lemma reaches_peek {A} (m : PM A) x l : reaches (next_token;; replay_token;; m) m (before (x :: l)) (before (x :: l)) 0.
Proof. eapply (parses_seq _ _ _ _ _ _ 0 0); [apply parses_next|]. eapply (reaches_bind _ (fun _ => m)), parses_replay. Qed.

Lemma parses_match x l : parses (match_token (kind x)) (before (x :: l)) (after x l) 0 tt.
Proof.
  eapply (parses_seq _ _ _ _ _ _ 0 0); [apply parses_next|]. unfold check_token. rewrite bool_decide_false by naive_solver. apply reaches_refl.
Qed.

(** ** Nodes *)

Lemma parses_node k P : parses (finsh_node_allocate k) P P 1 (Some (Node k 0 0 0 0)).
Proof.
  intros s Hp Hn Hv. unfold FINSH_NODE_MAX in Hn. exists (set_nodes (S (nodes s)) s). split; [|split_and!; try done; cbn; lia].
  unfold finsh_node_allocate. rewrite (bind_eval _ _ _ _ _ eq_refl), decide_True by (unfold FINSH_NODE_MAX; lia). by rewrite (bind_eval _ _ _ _ _ eq_refl).
Qed.

Lemma parses_new_node k f P : parses (new_node k f) P P 1 (Tree (f (Node k 0 0 0 0)) Null Null).
Proof. eapply (parses_seq _ _ _ _ _ _ 1 0); [apply parses_node|]. apply reaches_refl. Qed.

Lemma parses_sys k n child sib node2 P :
  parses (make_sys_node k (Tree n child sib) node2) P P 1 (Tree (sys_node k 0) (Tree n child node2) Null).
Proof. eapply (parses_seq _ _ _ _ _ _ 1 0); [apply parses_node|]. apply reaches_refl. Qed.

(** The tree of an expression is a node, whatever is beside it. *)
Lemma tree_of_parsed e : exists n child, forall sib, tree_of false e sib = Tree n child sib.
Proof. destruct e; cbn; eexists _, _; intros sib; reflexivity. Qed.

Lemma set_sibling_tree e sib : set_sibling (tree_of false e Null) sib = tree_of false e sib.
Proof. destruct (tree_of_parsed e) as (n & child & E). by rewrite !E. Qed.

(** A node over the tree of an expression. *)
Lemma parses_sys_expr k e node2 P : parses (make_sys_node k (tree_of false e Null) node2) P P 1 (Tree (sys_node k 0) (tree_of false e node2) Null).
Proof. destruct (tree_of_parsed e) as (n & child & E). rewrite !E. apply parses_sys. Qed.

(** ** Identifiers *)

Lemma until_zero_app name l : Forall (fun c => c <> 0) name -> until_zero (name ++ 0 :: l) = name.
Proof. induction 1 as [|c name Hc _ IH]; [done|]. cbn [app until_zero]. by rewrite decide_False, IH by done. Qed.

Lemma parses_identifier name l : identifier name -> parses proc_identifier (before (TId name :: l)) (after (TId name) l) 0 name.
Proof.
  intros (Hlen & Hn & _) s Hp Hk Hv. destruct (parses_match (TId name) l s Hp Hk Hv) as (s' & E & Hq & H'). exists s'. split; [|done].
  unfold proc_identifier. rewrite (bind_eval _ _ _ _ _ E). unfold gets. do 2 f_equal. destruct Hq as ((_ & Ht) & _ & _). cbn in Ht.
  replace (take FINSH_NAME_MAX (string (token s'))) with (name ++ 0 :: drop (S (length name)) (take FINSH_NAME_MAX (string (token s')))).
  - unfold mret, M_ret. do 2 f_equal. apply until_zero_app. eapply Forall_impl; [exact Hn|]. intros c Hc ->. apply Hc. unfold is_separator. lia.
  - rewrite <- (take_drop (S (length name)) (take FINSH_NAME_MAX (string (token s')))) at 2. rewrite take_take, Nat.min_l by (unfold FINSH_NAME_MAX; lia).
    rewrite Ht. by rewrite <- app_assoc.
Qed.

Lemma parses_new_id name t p P : identifier name -> resolve name = Some (t, p) ->
  parses (finsh_node_new_id name) P P 1 (Tree (Node FINSH_NODE_ID 0 t 0 p) Null Null).
Proof.
  intros (Hlen & _) Hr. unfold finsh_node_new_id, finsh_var_lookup. intros s Hp Hk Hv. unfold resolve in Hr.
  rewrite (bind_eval _ _ s (var_address <$> index_of (named name) vars) s) by (unfold gets, mbind, M_bind; by rewrite Hv).
  destruct (index_of (named name) vars) as [i|]; cbn [fmap option_fmap option_map].
  - injection Hr as <- <-. by apply parses_new_node.
  - rewrite decide_True by (unfold FINSH_NAME_MAX; lia). destruct (finsh_sysvar_lookup name) as [q|].
    + injection Hr as <- <-. by apply parses_new_node.
    + destruct (finsh_syscall_lookup name) as [q|]; [|done]. injection Hr as <- <-. by apply parses_new_node.
Qed.

(** ** Binary operators *)

Section levels.
Context (operand : PM tree) (op : finsh_token_type -> option node_kind) (n N : nat).
Hypothesis (Hn : (1 <= n <= 6)%nat).
Hypothesis (Hop : forall o, bop_level o = n -> op (bop_token o) = Some (bop_node o)).
Hypothesis (Hstop : forall t, stops n t -> op t = None).
Hypothesis (Hoperand : forall e x l, (size e <= N)%nat -> writable e -> (n < level e)%nat -> stops (S n) (kind x) ->
  parses operand (before (tokens e ++ x :: l)) (before (x :: l)) (size e) (tree_of false e Null)).

Lemma binary_first e x l fuel : (size e <= N)%nat -> writable e -> (n < level e)%nat -> stops (S n) (kind x) ->
  reaches (binary operand op fuel) (binary_loop operand op fuel (tree_of false e Null) (kind x)) (before (tokens e ++ x :: l)) (after x l) (size e).
Proof.
  intros HN W Hl Hx. eapply reaches_eq; [apply Nat.add_0_r|]. eapply parses_seq; [by apply Hoperand|]. eapply reaches_bind, parses_next.
Qed.

(** The loop behind the operands that an expression of the level [n] starts with. *)
Lemma binary_spine e : (size e <= N)%nat -> writable e -> (n <= level e)%nat -> forall x l fuel, stops (S n) (kind x) -> (size e <= fuel)%nat ->
  exists fuel', (fuel - size e <= fuel')%nat /\
    reaches (binary operand op fuel) (binary_loop operand op fuel' (tree_of false e Null) (kind x)) (before (tokens e ++ x :: l)) (after x l) (size e).
Proof.
  induction e using expr_ind'; intros HN W Hl x l fuel Hx Hf;
    try (exists fuel; split; [lia|]; apply binary_first; [done|done|cbn [level] in *; lia|done]).
  cbn [level] in Hl. destruct (decide (n < bop_level op0)%nat) as [Hlt|Hlt]; [exists fuel; split; [lia|]; by apply binary_first|].
  cbn [writable size tokens] in *. destruct W as (W1 & W2 & L1 & L2). assert (bop_level op0 = n) as Ho by lia.
  destruct (IHe1 ltac:(lia) W1 ltac:(lia) (TOp (bop_token op0)) (tokens e2 ++ x :: l) fuel) as (fuel' & Hf' & R1).
  { unfold stops. destruct op0; cbn in *; lia. }
  { lia. }
  destruct fuel' as [|fuel']; [lia|]. exists fuel'. split; [lia|]. rewrite <- app_assoc. cbn [app].
  apply (reaches_eq _ _ _ _ (size e1 + (size e2 + (1 + 0)))); [lia|].
  eapply reaches_trans; [exact R1|]. cbn [binary_loop kind]. rewrite Hop by done.
  eapply parses_seq; [eapply parses_weaken; [apply (Hoperand e2 x l); [lia|done|lia|done]|apply after_before]|].
  eapply parses_seq; [|eapply reaches_bind, parses_next].
  pose proof (fun P => parses_sys_expr (bop_node op0) e1 (tree_of false e2 Null) P) as Hsys.
  destruct (tree_of_parsed e2) as (n2 & c2 & E2). rewrite (E2 Null) in Hsys |- *. cbn [tree_of]. rewrite (E2 Null). apply Hsys.
Qed.

Lemma binary_ok e x l fuel : (size e <= N)%nat -> writable e -> (n <= level e)%nat -> stops n (kind x) -> (size e <= fuel)%nat ->
  parses (binary operand op fuel) (before (tokens e ++ x :: l)) (before (x :: l)) (size e) (tree_of false e Null).
Proof.
  intros HN W Hl Hx Hf. assert (stops (S n) (kind x)) as Hx' by (unfold stops in *; destruct (token_level (kind x)); [lia|done]).
  destruct (binary_spine e HN W Hl x l fuel Hx' Hf) as (fuel' & _ & R). eapply reaches_eq; [apply Nat.add_0_r|].
  eapply reaches_trans; [exact R|]. destruct fuel'; cbn [binary_loop]; rewrite (Hstop _ Hx); eapply (reaches_bind _ (fun _ => mret _)), parses_replay.
Qed.
End levels.

(** A parser of the expressions of a level, up to a size. *)
Definition good (m : PM tree) (n N : nat) : Prop := forall e x l, (size e <= N)%nat -> writable e -> (n <= level e)%nat -> stops n (kind x) ->
  parses m (before (tokens e ++ x :: l)) (before (x :: l)) (size e) (tree_of false e Null).

Lemma good_binary operand op n N fuel : (1 <= n <= 6)%nat -> (forall o, bop_level o = n -> op (bop_token o) = Some (bop_node o)) ->
  (forall t, stops n t -> op t = None) -> good operand (S n) N -> (N <= fuel)%nat -> good (binary operand op fuel) n N.
Proof. intros Hn Hop Hs Hg Hf e x l HN W Hl Hx. by apply (binary_ok operand op n N); [..|lia]. Qed.

Lemma good_inclusive_or cast fuel N : good cast 7 N -> (N <= fuel)%nat -> good (proc_inclusive_or_expr cast fuel) 1 N.
Proof.
  intros Hc Hf. unfold proc_inclusive_or_expr, proc_exclusive_or_expr, proc_and_expr, proc_shift_expr, proc_additive_expr, proc_multiplicative_expr.
  repeat (apply good_binary; [lia|by intros []|intros t Ht; destruct t; unfold stops in Ht; cbn in *; first [done|lia]| |done]). exact Hc.
Qed.

(** The first token of an expression. *)
Definition starter (t : finsh_token_type) : bool :=
  match t with
  | finsh_token_type_value_char | finsh_token_type_value_int | finsh_token_type_value_long | finsh_token_type_value_null | finsh_token_type_identifier
  | finsh_token_type_and | finsh_token_type_bitwise | finsh_token_type_mul | finsh_token_type_inc | finsh_token_type_dec => true
  | _ => false
  end.

Lemma tokens_head e : exists y r, tokens e = y :: r /\ starter (kind y) = true.
Proof.
  induction e using expr_ind'; cbn [tokens]; try (eexists _, _; split; reflexivity).
  - destruct k; eexists _, _; split; reflexivity.
  - destruct IHe1 as (y & r & -> & H'). eexists _, _. split; [reflexivity|done].
  - destruct inc; eexists _, _; split; reflexivity.
Qed.

Lemma size_pos e : (1 <= size e)%nat.
Proof. destruct e; cbn [size]; lia. Qed.

Section layers.
Context (assign cast : PM tree) (fuel N : nat).
Hypothesis (Hassign : good assign 0 N) (Hcast : good cast 7 N) (Hfuel : (S N <= fuel)%nat).

(** A cast starts with a parenthesis, and a literal or a name is no unary operator. *)
Lemma cast_unary y r : kind y <> finsh_token_type_left_paren ->
  reaches (cast_expr assign cast fuel) (proc_unary_expr assign cast fuel) (before (y :: r)) (before (y :: r)) 0.
Proof.
  intros Hy. eapply (parses_seq _ _ _ _ _ _ 0 0); [apply parses_next|]. rewrite decide_False by done. eapply (reaches_bind _ (fun _ => proc_unary_expr _ _ _)), parses_replay.
Qed.

Definition primary (t : finsh_token_type) : bool :=
  match t with
  | finsh_token_type_value_char | finsh_token_type_value_int | finsh_token_type_value_long | finsh_token_type_value_null | finsh_token_type_identifier => true
  | _ => false
  end.

Lemma unary_postfix y r : primary (kind y) = true ->
  reaches (proc_unary_expr assign cast fuel) (proc_postfix_expr assign fuel) (before (y :: r)) (before (y :: r)) 0.
Proof.
  intros Hy. eapply (parses_seq _ _ _ _ _ _ 0 0); [apply parses_next|].
  destruct (kind y) eqn:Ek; try discriminate Hy; eapply (reaches_bind _ (fun _ => proc_postfix_expr _ _)), parses_replay.
Qed.

Lemma cast_postfix y r : primary (kind y) = true ->
  reaches (cast_expr assign cast fuel) (proc_postfix_expr assign fuel) (before (y :: r)) (before (y :: r)) 0.
Proof. intros Hy. eapply (reaches_trans _ _ _ _ _ _ 0 0); [apply cast_unary; by intros E; rewrite E in Hy|by apply unary_postfix]. Qed.

(** Nothing is behind a postfix expression. *)
Lemma postfix_end t x l n : stops 7 (kind x) -> parses (postfix_loop assign fuel n t (kind x)) (after x l) (before (x :: l)) 0 t.
Proof.
  intros Hx. unfold stops in Hx. destruct n; cbn [postfix_loop]; destruct (kind x) eqn:Ek; cbn in Hx; try lia;
    eapply (reaches_bind _ (fun _ => mret t)); rewrite <- Ek || idtac; apply parses_replay.
Qed.

(** A literal. *)
Lemma parses_literal y x l m t : primary (kind y) = true -> stops 7 (kind x) -> parses (proc_primary_expr assign) (before (y :: x :: l)) (before (x :: l)) m t ->
  parses (cast_expr assign cast fuel) (before (y :: x :: l)) (before (x :: l)) m t.
Proof.
  intros Hy Hx Hp. apply (reaches_eq _ _ _ _ (0 + (m + (0 + 0)))); [lia|]. eapply reaches_trans; [by apply cast_postfix|].
  eapply parses_seq; [exact Hp|]. eapply parses_seq; [apply parses_next|]. by apply postfix_end.
Qed.

(** The value of a token, which the parser reads behind it. *)
Lemma parses_payload {A B} (f : finsh_parser -> A) (k : A -> PM B) m' P Q n a : (forall s, P (token s) -> f s = a) -> reaches (k a) m' P Q n ->
  reaches (gets f ≫= k) m' P Q n.
Proof. intros Hf Hk s Hp Hn Hv. destruct (Hk s Hp Hn Hv) as (s' & E & Hq). exists s'. split; [|done]. rewrite (bind_eval _ _ _ _ _ eq_refl). by rewrite (Hf s Hp). Qed.

Lemma primary_id name t p l : identifier name -> resolve name = Some (t, p) ->
  parses (proc_primary_expr assign) (before (TId name :: l)) (before l) 1 (Tree (Node FINSH_NODE_ID 0 t 0 p) Null Null).
Proof.
  intros Hi Hr. apply (reaches_eq _ _ _ _ (0 + (0 + (0 + 1)))); [lia|]. eapply parses_seq; [apply parses_next|].
  eapply parses_seq; [apply parses_replay|]. eapply parses_seq; [by apply parses_identifier|].
  eapply parses_weaken; [|apply after_before]. by apply parses_new_id.
Qed.

Lemma primary_char c l : parses (proc_primary_expr assign) (before (TChar c :: l)) (before l) 1 (Tree (Node FINSH_NODE_VALUE_CHAR 0 0 c 0) Null Null).
Proof.
  apply (reaches_eq _ _ _ _ (0 + 1)); [lia|]. eapply parses_seq; [apply parses_next|]. eapply parses_payload; [intros s ((_ & Ht) & _); exact Ht|].
  eapply parses_weaken; [|apply after_before]. exact (parses_new_node FINSH_NODE_VALUE_CHAR (with_value c) _).
Qed.

Lemma primary_const k v l : writable (EConst k v) ->
  parses (proc_primary_expr assign) (before (const_token k v :: l)) (before l) 1 (Tree (Node (const_node k) 0 0 v 0) Null Null).
Proof.
  intros W. apply (reaches_eq _ _ _ _ (0 + 1)); [lia|]. eapply parses_seq; [apply parses_next|]. destruct k; cbn [const_token kind writable] in *.
  - eapply parses_payload; [intros s ((_ & Ht) & _); exact Ht|]. eapply parses_weaken; [|apply after_before]. exact (parses_new_node FINSH_NODE_VALUE_INT (with_value v) _).
  - eapply parses_payload; [intros s ((_ & Ht) & _); exact Ht|]. eapply parses_weaken; [|apply after_before]. exact (parses_new_node FINSH_NODE_VALUE_LONG (with_value v) _).
  - done.
  - subst v. eapply parses_weaken; [|apply after_before]. exact (parses_new_node FINSH_NODE_VALUE_NULL (with_value 0) _).
Qed.

(** A unary operator over an expression. *)
Lemma parses_unary o k e x l : (size e <= N)%nat -> writable e -> (7 <= level e)%nat -> stops 7 (kind x) ->
  (forall s, proc_unary_expr assign cast fuel s = (tok ← next_token;
     if decide (tok = o) then c ← cast; make_sys_node k c Null else
     match tok with
     | finsh_token_type_add => cast
     | finsh_token_type_inc => c ← cast; make_sys_node FINSH_NODE_SYS_PREINC c Null
     | finsh_token_type_sub => c ← cast; zero ← finsh_node_new_long 0; make_sys_node FINSH_NODE_SYS_SUB zero c
     | finsh_token_type_dec => c ← cast; make_sys_node FINSH_NODE_SYS_PREDEC c Null
     | finsh_token_type_bitwise => c ← cast; make_sys_node FINSH_NODE_SYS_BITWISE c Null
     | finsh_token_type_mul => c ← cast; make_sys_node FINSH_NODE_SYS_GETVALUE c Null
     | finsh_token_type_and => c ← cast; make_sys_node FINSH_NODE_SYS_GETADDR c Null
     | _ => replay_token;; proc_postfix_expr assign fuel
     end) s) -> o <> finsh_token_type_left_paren ->
  parses (cast_expr assign cast fuel) (before (TOp o :: tokens e ++ x :: l)) (before (x :: l)) (S (size e)) (Tree (sys_node k 0) (tree_of false e Null) Null).
Proof.
  intros HN W Hl Hx Hu Ho. apply (reaches_eq _ _ _ _ (0 + (0 + (size e + 1)))); [lia|]. eapply reaches_trans; [by apply cast_unary|].
  intros s Hp Hk Hv. rewrite Hu. revert s Hp Hk Hv. eapply parses_seq; [apply parses_next|]. cbn [kind]. rewrite decide_True by done.
  eapply parses_seq; [eapply parses_weaken; [by apply Hcast|apply after_before]|]. apply parses_sys_expr.
Qed.

Lemma postfix_inc n inc nd c sib x l : (1 <= n)%nat -> stops 7 (kind x) ->
  parses (postfix_loop assign fuel n (Tree nd c sib) (kind (inc_token inc))) (after (inc_token inc) (x :: l)) (before (x :: l)) 1
    (Tree (sys_node (inc_node inc false) 0) (Tree nd c Null) Null).
Proof.
  intros Hn Hx. destruct n as [|n]; [lia|]. apply (reaches_eq _ _ _ _ (1 + (0 + 0))); [lia|].
  destruct inc; (eapply parses_seq; [apply parses_sys|]; eapply parses_seq; [eapply parses_weaken; [apply parses_next|apply after_before]|]; by apply postfix_end).
Qed.

Lemma parses_postfix_inc inc name t p x l : identifier name -> resolve name = Some (t, p) -> stops 7 (kind x) ->
  parses (cast_expr assign cast fuel) (before (TId name :: inc_token inc :: x :: l)) (before (x :: l)) 2
    (Tree (sys_node (inc_node inc false) 0) (Tree (Node FINSH_NODE_ID 0 t 0 p) Null Null) Null).
Proof.
  intros Hi Hr Hx. apply (reaches_eq _ _ _ _ (0 + (1 + (0 + 1)))); [lia|]. eapply reaches_trans; [by apply cast_postfix|].
  eapply parses_seq; [by apply primary_id|]. eapply parses_seq; [apply parses_next|]. apply postfix_inc; [lia|done].
Qed.

Lemma sum_cons n l : list_sum (n :: l) = (n + list_sum l)%nat.
Proof. done. Qed.

(** The parameters of a call, up to the parenthesis. *)
Lemma param_loop_ok es : forall n params l, Forall (fun e => (size e <= N)%nat /\ writable e) es -> (length es <= n)%nat ->
  let r := flat_map (fun y => TOp finsh_token_type_comma :: y) (map tokens es) ++ TOp finsh_token_type_right_paren :: l in
  forall x r', r = x :: r' -> parses (param_loop assign n params (kind x)) (after x r') (before (TOp finsh_token_type_right_paren :: l)) (list_sum (map size es))
    (params ++ map (fun e => tree_of false e Null) es).
Proof.
  induction es as [|e es IH]; intros n params l He Hn r x r' Hr; subst r; cbn [map flat_map length app] in *; rewrite ?sum_cons in *.
  - injection Hr as <- <-. rewrite app_nil_r. destruct n; cbn [param_loop]; rewrite decide_False by done; eapply (reaches_bind _ (fun _ => mret _)), parses_replay.
  - injection Hr as <- <-. apply Forall_cons in He as [[HN W] He]. destruct n as [|n]; [lia|]. cbn [param_loop kind]. rewrite decide_True by done.
    rewrite <- app_assoc. set (r := flat_map _ (map tokens es) ++ TOp finsh_token_type_right_paren :: l).
    assert (exists x' r', r = x' :: r' /\ stops 0 (kind x')) as (x' & r' & Er & Hs) by (unfold r; destruct es as [|e' es]; cbn; eexists _, _; (split; [reflexivity|done])).
    rewrite Er. apply (reaches_eq _ _ _ _ (size e + (0 + (0 + list_sum (map size es))))); [lia|].
    eapply parses_seq; [eapply parses_weaken; [apply (Hassign e x' r'); [done|done|lia|done]|apply after_before]|].
    destruct (tree_of_parsed e) as (n1 & c1 & E1).
    eapply (parses_seq _ _ _ _ _ _ 0); [rewrite (E1 Null), <- (E1 Null); apply reaches_refl|].
    eapply parses_seq; [apply parses_next|].
    pose proof (IH n (params ++ [tree_of false e Null]) l He ltac:(lia) x' r' Er) as Hl. rewrite <- app_assoc in Hl. exact Hl.
Qed.

Lemma siblings_ok es : foldr set_sibling Null (map (fun e => tree_of false e Null) es) = foldr (tree_of false) Null es.
Proof. induction es as [|e es IH]; [done|]. cbn [map foldr]. by rewrite IH, set_sibling_tree. Qed.

Lemma param_list_ok es l : es <> [] -> Forall (fun e => (size e <= N)%nat /\ writable e) es -> (length es <= fuel)%nat ->
  parses (proc_param_list assign fuel) (before (separated (map tokens es) ++ TOp finsh_token_type_right_paren :: l)) (before (TOp finsh_token_type_right_paren :: l))
    (list_sum (map size es)) (foldr (tree_of false) Null es).
Proof.
  intros Hne He Hn. destruct es as [|e es]; [done|]. apply Forall_cons in He as [[HN W] He]. cbn [map separated length] in *. rewrite sum_cons, <- app_assoc.
  set (r := flat_map _ (map tokens es) ++ TOp finsh_token_type_right_paren :: l).
  assert (exists x' r', r = x' :: r' /\ stops 0 (kind x')) as (x' & r' & Er & Hs) by (unfold r; destruct es as [|e' es]; cbn; eexists _, _; (split; [reflexivity|done])).
  rewrite Er. apply (reaches_eq _ _ _ _ (size e + (0 + (list_sum (map size es) + 0)))); [lia|].
  eapply parses_seq; [apply (Hassign e x' r'); [done|done|lia|done]|].
  destruct (tree_of_parsed e) as (n1 & c1 & E1). rewrite (E1 Null), <- (E1 Null).
  eapply parses_seq; [apply parses_next|]. eapply parses_seq; [eapply (param_loop_ok es fuel _ l He ltac:(lia)); exact Er|].
  cbn [app]. change (tree_of false e Null :: map (fun e => tree_of false e Null) es) with (map (fun e => tree_of false e Null) (e :: es)).
  rewrite siblings_ok. apply reaches_refl.
Qed.

Lemma postfix_call n args nd c sib x l : (1 <= n)%nat -> Forall (fun e => (size e <= N)%nat /\ writable e) args -> (length args <= fuel)%nat -> stops 7 (kind x) ->
  parses (postfix_loop assign fuel n (Tree nd c sib) finsh_token_type_left_paren)
    (after (TOp finsh_token_type_left_paren) (separated (map tokens args) ++ TOp finsh_token_type_right_paren :: x :: l)) (before (x :: l)) (S (list_sum (map size args)))
    (Tree (sys_node FINSH_NODE_SYS_FUNC 0) (Tree nd c (foldr (tree_of false) Null args)) Null).
Proof.
  intros Hn He Hlen Hx. destruct n as [|n]; [lia|]. apply (reaches_eq _ _ _ _ ((0 + (list_sum (map size args) + 1)) + (0 + 0))); [lia|]. cbn [postfix_loop].
  eapply (parses_seq _ _ _ _ (after (TOp finsh_token_type_right_paren) (x :: l))); [|eapply parses_seq; [eapply parses_weaken; [apply parses_next|apply after_before]|by apply postfix_end]].
  destruct args as [|e args].
  - cbn [map separated app foldr]. eapply parses_seq; [eapply parses_weaken; [apply parses_next|apply after_before]|]. cbn [kind]. rewrite decide_True by done.
    eapply (parses_seq _ _ _ _ _ _ 0 1); [apply reaches_refl|]. apply parses_sys.
  - destruct (tokens_head e) as (y & r & Ey & Hy). pose proof (param_list_ok (e :: args) (x :: l) ltac:(done) He ltac:(lia)) as Hp.
    cbn [map separated] in *. rewrite Ey in *. cbn [app] in *.
    eapply parses_seq; [eapply parses_weaken; [apply parses_next|apply after_before]|]. rewrite decide_False by (intros E; by rewrite E in Hy).
    eapply parses_seq; [|apply parses_sys].
    apply (reaches_eq _ _ _ _ (0 + (list_sum (map size (e :: args)) + (0 + 0)))); [cbn [map]; lia|].
    eapply parses_seq; [apply parses_replay|]. eapply parses_seq; [exact Hp|].
    eapply parses_seq; [apply (parses_match (TOp finsh_token_type_right_paren))|]. apply reaches_refl.
Qed.

Lemma parses_call name f args x l : identifier name -> resolve name = Some (FINSH_IDTYPE_SYSCALL, f) -> Forall (fun e => (size e <= N)%nat /\ writable e) args ->
  (length args <= fuel)%nat -> stops 7 (kind x) ->
  parses (cast_expr assign cast fuel) (before (TId name :: TOp finsh_token_type_left_paren :: separated (map tokens args) ++ TOp finsh_token_type_right_paren :: x :: l))
    (before (x :: l)) (S (S (list_sum (map size args))))
    (Tree (sys_node FINSH_NODE_SYS_FUNC 0) (Tree (Node FINSH_NODE_ID 0 FINSH_IDTYPE_SYSCALL 0 f) Null (foldr (tree_of false) Null args)) Null).
Proof.
  intros Hi Hr He Hlen Hx. apply (reaches_eq _ _ _ _ (0 + (1 + (0 + S (list_sum (map size args)))))); [lia|].
  eapply reaches_trans; [by apply cast_postfix|]. eapply parses_seq; [by apply primary_id|]. eapply parses_seq; [apply parses_next|].
  apply postfix_call; [lia|done..].
Qed.

(** One layer: the casts are all the expressions that have no binary operator outside. *)
Lemma good_cast : good (cast_expr assign cast fuel) 7 (S N).
Proof.
  intros e x l HN W Hl Hx. destruct e as [c|k v|i|i|op e1 e2|e|e|i e|e1 e2|inc p|inc p|f args]; cbn [level size tokens tree_of writable] in *; try (destruct op; cbn in *; lia); try lia; cbn [app].
  - apply parses_literal; [done|done|apply primary_char].
  - apply parses_literal; [by destruct k|done|by apply primary_const].
  - destruct W as [Hi Hr]. apply parses_literal; [done|done|]. unfold id_tree, id_node, ty, at_. rewrite Z.lor_0_r. by apply primary_id.
  - destruct W as [Hi Hr]. apply (reaches_eq _ _ _ _ (0 + (0 + (1 + 1)))); [lia|]. eapply reaches_trans; [by apply cast_unary|].
    eapply parses_seq; [apply parses_next|]. cbn [kind]. eapply parses_seq; [|apply (parses_sys_expr _ (EId i))].
    eapply parses_weaken; [|apply after_before]. apply (Hcast (EId i) x l); [cbn; lia|done|cbn; lia|done].
  - destruct W as [W Hl']. apply (parses_unary finsh_token_type_bitwise FINSH_NODE_SYS_BITWISE); try done; [lia|].
    intros s. unfold proc_unary_expr, mbind, M_bind. destruct (next_token s) as [[t s']|]; [|done]. destruct (decide (t = finsh_token_type_bitwise)) as [->|]; [done|]. by destruct t.
  - destruct W as [W Hl']. apply (parses_unary finsh_token_type_mul FINSH_NODE_SYS_GETVALUE); try done; [lia|].
    intros s. unfold proc_unary_expr, mbind, M_bind. destruct (next_token s) as [[t s']|]; [|done]. destruct (decide (t = finsh_token_type_mul)) as [->|]; [done|]. by destruct t.
  - apply (reaches_eq _ _ _ _ (0 + (0 + (1 + 1)))); [lia|]. eapply reaches_trans; [apply cast_unary; by destruct inc|].
    eapply parses_seq; [apply parses_next|].
    destruct inc; (eapply parses_seq; [eapply parses_weaken; [apply (Hcast (EId (Var p)) x l); [cbn; lia|done|cbn; lia|done]|apply after_before]|];
      exact (parses_sys_expr _ (EId (Var p)) Null _)).
  - destruct W as [Hi Hr]. unfold id_tree, id_node, ty, at_. rewrite Z.lor_0_r. by apply parses_postfix_inc.
  - destruct W as [[Hi Hr] W]. rewrite <- app_assoc. cbn [app].
    assert (Forall (fun e => (size e <= N)%nat /\ writable e) args /\ (length args <= list_sum (map size args))%nat) as [He Hlen].
    { assert (list_sum (map size args) <= N)%nat as Hs by lia. clear -Hs W. induction args as [|e args IH]; [by split|]. cbn [map foldr length] in *. rewrite sum_cons in *.
      destruct W as [W1 W]. destruct (IH W ltac:(lia)) as [He Hlen]. pose proof (size_pos e). split; [constructor; [split; [lia|done]|done]|lia]. }
    apply parses_call; try done. lia.
Qed.
End layers.

(** The other layer: assignments, and what is at their left. *)
Lemma good_assign assign cast fuel N : good assign 0 N -> good cast 7 (S N) -> (S N <= fuel)%nat -> good (assign_expr assign cast fuel) 0 (S N).
Proof.
  intros Ha Hc Hf e x l HN W Hl Hx. pose proof (good_inclusive_or cast fuel (S N) Hc Hf) as Hor.
  destruct (decide (1 <= level e)%nat) as [H1|H1].
  - assert (kind x <> finsh_token_type_assign /\ stops 1 (kind x)) as [Hne Hs] by (clear -Hx; unfold stops in *; destruct (kind x); cbn in *; split; first [done|lia]).
    apply (reaches_eq _ _ _ _ (size e + (0 + 0))); [lia|]. eapply parses_seq; [by apply Hor|]. eapply parses_seq; [apply parses_next|].
    rewrite decide_False by done. eapply (reaches_bind _ (fun _ => mret _)), parses_replay.
  - assert (forall lhs e', writable lhs -> writable e' -> (7 <= level lhs)%nat -> (size lhs + size e' < S N)%nat -> forall t, (forall sib, tree_of false lhs sib = t sib) ->
      parses (assign_expr assign cast fuel) (before (tokens lhs ++ TOp finsh_token_type_assign :: tokens e' ++ x :: l)) (before (x :: l)) (S (size lhs + size e'))
        (Tree (sys_node FINSH_NODE_SYS_ASSIGN 0) (t (tree_of false e' Null)) Null)) as Hlhs.
    { intros lhs e' W1 W2 L1 Hs t Ht. apply (reaches_eq _ _ _ _ (size lhs + (0 + (size e' + 1)))); [lia|].
      eapply parses_seq; [apply Hor; [lia|done|lia|unfold stops; cbn; lia]|]. eapply parses_seq; [apply parses_next|]. cbn [kind]. rewrite decide_True by done.
      eapply parses_seq; [eapply parses_weaken; [apply (Ha e' x l); [lia|done|lia|done]|apply after_before]|]. rewrite <- Ht. apply parses_sys_expr. }
    destruct e as [c|k v|i|i|op e1 e2|e|e|i e|e1 e2|inc p|inc p|f args]; cbn [level] in H1; try lia; [destruct op; cbn in H1; lia| |]; cbn [writable size tokens tree_of] in *.
    + destruct W as [Wi W]. apply (Hlhs (EId i) e Wi W ltac:(cbn; lia) ltac:(cbn; lia) (fun sib => id_tree false i FINSH_IDTYPE_ADDRESS sib)). done.
    + destruct W as (W1 & W2 & L1). rewrite <- app_comm_cons, <- app_assoc.
      apply (Hlhs (ELoad e1) e2 ltac:(done) W2 ltac:(cbn; lia) ltac:(cbn; lia) (fun sib => Tree (Node FINSH_NODE_SYS_GETVALUE 0 0 0 0) (tree_of false e1 Null) sib)). done.
Qed.

(** The two functions, with fuel for each node twice. *)
Lemma good_parser N : (forall fuel, (2 * N + 2 <= fuel)%nat -> good (proc_assign_expr fuel) 0 N) /\ (forall fuel, (2 * N + 1 <= fuel)%nat -> good (proc_cast_expr fuel) 7 N).
Proof.
  induction N as [|N [IHa IHc]]; [split; intros fuel _ e x l HN; pose proof (size_pos e); lia|].
  assert (forall fuel, (2 * S N + 1 <= fuel)%nat -> good (proc_cast_expr fuel) 7 (S N)) as Hc.
  { intros [|fuel] Hf; [lia|]. intros e x l. apply good_cast; [apply IHa; lia|apply IHc; lia|lia]. }
  split; [|exact Hc]. intros [|fuel] Hf; [lia|]. intros e x l. apply good_assign; [apply IHa; lia|apply Hc; lia|lia].
Qed.

(** ** Lines *)

Definition line_tokens (es : list expr) : list tok := flat_map (fun e => tokens e ++ [TOp finsh_token_type_semicolon]) es ++ [TOp finsh_token_type_eof].
Definition line_size (es : list expr) : nat := list_sum (map size es).

Lemma statement_ok e fuel l : writable e -> (2 * size e + 2 <= fuel)%nat ->
  parses (proc_expr_statement fuel) (before (tokens e ++ TOp finsh_token_type_semicolon :: l)) (before l) (size e) [tree_of false e Null].
Proof.
  intros W Hf. destruct (tokens_head e) as (y & r & Ey & Hy). destruct (good_parser (size e)) as [Hg _].
  pose proof (Hg fuel Hf e (TOp finsh_token_type_semicolon) l ltac:(lia) W ltac:(lia) I) as Hp. rewrite Ey in *. cbn [app] in *.
  apply (reaches_eq _ _ _ _ (0 + (0 + (size e + (0 + 0))))); [lia|]. eapply parses_seq; [apply parses_next|].
  rewrite decide_False by (intros E; by rewrite E in Hy). eapply parses_seq; [apply parses_replay|]. eapply parses_seq; [exact Hp|].
  eapply parses_seq; [apply (parses_match (TOp finsh_token_type_semicolon))|].
  destruct (tree_of_parsed e) as (n & c & E). rewrite (E Null). eapply parses_weaken; [apply reaches_refl|]. intros t. apply after_before.
Qed.

(** The statements up to here, as the parser has them. *)
Definition root_of (l : list tree) : option (list tree * list tree) := match l with [] => None | _ :: _ => Some (l, []) end.

Lemma link_root l t : is_Some (link (root_of l) [t]) /\ link (root_of l) [t] = root_of (l ++ [t]).
Proof. destruct l; cbn; eauto. Qed.

Lemma loop_ok es : forall fuel n l y r, Forall writable es -> Forall (fun e => 2 * size e + 2 <= fuel)%nat es -> (length es <= n)%nat -> line_tokens es = y :: r ->
  parses (parser_loop fuel n (root_of l) (kind y)) (after y r) (fun _ => True) (line_size es) (root_of (l ++ map (fun e => tree_of false e Null) es)).
Proof.
  induction es as [|e es IH]; intros fuel n l y r W Hf Hn Hy.
  - injection Hy as <- <-. cbn [map]. rewrite app_nil_r. destruct n; cbn [parser_loop kind]; rewrite decide_True by (by left);
      (eapply parses_weaken; [apply reaches_refl|done]).
  - apply Forall_cons in W as [We W]. apply Forall_cons in Hf as [Hfe Hf]. cbn [length] in Hn. destruct n as [|n]; [lia|].
    unfold line_tokens in Hy. cbn [flat_map] in Hy. rewrite <- !app_assoc in Hy. cbn [app] in Hy. fold (line_tokens es) in Hy.
    destruct (tokens_head e) as (y' & r' & Ey & Hs).
    assert (y' = y) as -> by (rewrite Ey in Hy; by injection Hy).
    cbn [parser_loop]. rewrite decide_False by (intros [E|E]; by rewrite E in Hs).
    assert (is_base_type (kind y) || bool_decide (kind y = finsh_token_type_unsigned) = false) as -> by (by destruct (kind y)). cbn [negb].
    unfold line_size. cbn [map]. rewrite sum_cons. apply (reaches_eq _ _ _ _ (0 + (size e + (0 + line_size es)))); [done|].
    eapply parses_seq; [apply parses_replay|]. rewrite <- Hy. eapply parses_seq; [by apply statement_ok|].
    rewrite (bool_decide_false (_ /\ _ /\ [tree_of false e Null] = [])) by naive_solver. cbn [andb when].
    eapply (parses_seq _ _ _ _ _ _ 0); [apply reaches_refl|]. destruct (link_root l (tree_of false e Null)) as [[q Hq] El]. rewrite Hq. rewrite Hq in El.
    assert (exists y2 r2, line_tokens es = y2 :: r2) as (y2 & r2 & E2).
    { unfold line_tokens. destruct es as [|e2 es]; [by eexists _, _|]. cbn [flat_map]. destruct (tokens_head e2) as (y2 & r2 & E2 & _). rewrite E2. by eexists _, _. }
    rewrite E2. apply (reaches_eq _ _ _ _ (0 + line_size es)); [done|]. eapply parses_seq; [apply parses_next|].
    pose proof (IH fuel n (l ++ [tree_of false e Null]) y2 r2 W Hf ltac:(lia) E2) as Hl. rewrite <- El, <- app_assoc in Hl. exact Hl.
Qed.

(** Each node has a token at least, and each token a character. *)
Lemma size_tokens e : (size e <= length (tokens e))%nat.
Proof.
  induction e as [c|k v|i|i|op e1 e2 IH1 IH2|e IH|e IH|i e IH|e1 e2 IH1 IH2|inc p|inc p|f args IH] using expr_ind'; cbn [size tokens length]; rewrite ?length_app; cbn [length]; try lia.
  assert (list_sum (map size args) <= length (separated (map tokens args)))%nat; [|lia].
  destruct IH as [|e args He IH]; [done|]. cbn [map separated]. rewrite sum_cons, length_app.
  assert (list_sum (map size args) <= length (flat_map (fun y => TOp finsh_token_type_comma :: y) (map tokens args)))%nat; [|lia].
  clear He. induction IH as [|e' args He' _ IH]; [done|]. cbn [map flat_map app length]. rewrite sum_cons, length_app. lia.
Qed.

Lemma spells_length l xs : spells l xs -> (length xs <= length l)%nat.
Proof.
  induction 1 as [|ws x l rest xs Hws Hx He Hs IH]; [cbn; lia|]. destruct (spelling_head _ _ Hx) as (c & l' & -> & _). rewrite !length_app. cbn [length]. lia.
Qed.

Lemma line_length es : (length es <= length (line_tokens es))%nat /\ Forall (fun e => size e < length (line_tokens es))%nat es.
Proof.
  unfold line_tokens. induction es as [|e es [IH1 IH2]]; [split; [cbn; lia|done]|]. cbn [flat_map]. rewrite !length_app in *. cbn [length] in *. pose proof (size_tokens e).
  split; [lia|]. constructor; [lia|]. eapply Forall_impl; [exact IH2|]. intros e' He'. cbn beta in He'. lia.
Qed.

(** The parser makes the trees of the expressions that a line spells. *)
Lemma parser_run_ok l xs es s : Forall in_line l -> spells l xs -> xs ++ [TOp finsh_token_type_eof] = line_tokens es -> es <> [] -> Forall writable es ->
  variables s = vars -> (nodes s + line_size es <= FINSH_NODE_MAX)%nat ->
  exists s', finsh_parser_run l s = Some (trees false es, s') /\ nodes s' = (nodes s + line_size es)%nat /\ variables s' = vars /\ strings s' = strings s /\ terrno (token s') = terrno (token s).
Proof.
  intros Hl Hs Hxs Hne W Hv Hn. set (s0 := set_token (finsh_token_init l (terrno (token s))) s).
  assert (reads (token s0) l) as R by (by split; [..|apply length_replicate]).
  pose proof (spells_upcoming l xs Hs (token s0) R) as Hu. rewrite Hxs in Hu.
  pose proof (spells_length l xs Hs) as Hlen. destruct (line_length es) as [H1 H2]. pose proof (f_equal length Hxs) as Hlx. rewrite length_app in Hlx. cbn [length] in Hlx.
  assert (exists y r, line_tokens es = y :: r) as (y & r & Ey) by (destruct (line_tokens es); [cbn in Hlx; lia|by eexists _, _]).
  assert (parses (tok ← next_token; root ← parser_loop (2 * length l + 4) (2 * length l + 4) None tok; mret (statements root)) (before (y :: r)) (fun _ => True) (line_size es) (trees false es)) as Hp.
  { apply (reaches_eq _ _ _ _ (0 + (line_size es + 0))); [lia|]. eapply parses_seq; [apply parses_next|]. eapply parses_seq.
    - apply (loop_ok es (2 * length l + 4) (2 * length l + 4) [] y r W); [|lia|done]. eapply Forall_impl; [exact H2|]. intros e He. cbn beta in He. lia.
    - destruct es as [|e es]; [done|]. cbn [map app root_of statements]. rewrite app_nil_r.
      change (tree_of false e Null :: map (fun e => tree_of false e Null) es) with (map (fun e => tree_of false e Null) (e :: es)).
      rewrite siblings_ok. apply reaches_refl. }
  rewrite Ey in Hu. destruct (Hp s0 Hu Hn Hv) as (s' & E & _ & N1 & V1 & S1 & T1). exists s'. split; [|done].
  unfold finsh_parser_run. rewrite (bind_eval _ _ _ tt s0) by done. exact E.
Qed.
End syntax.
