(* ===== verification/FinshLine.v ===== *)
(** * FinshLine: a line of the shell, from its characters to what is printed

    [finsh_run_line] of shell.c with finsh_init.c: the line is parsed, its tree
    compiled, the code run and the value at the bottom of the stack printed.  The
    memory is the one that the heap of the strings and the variables are in, and
    the error number the one of the parser; the machine gets them and gives them
    back. *)

From Stdlib Require Import String.
From S2P Require Import Prelude Bytes KString FinshVm FinshCompiler FinshExpr FinshRun FinshC FinshToken FinshHeap FinshLex FinshParser FinshSyntax Kservice.
#[local] Open Scope Z_scope.

Record interpreter := Interpreter { parser : finsh_parser; machine : finsh }.

Section line.
Context {env : Environment} {fs : Functions}.

(** The type of a variable is in its entry. *)
Definition variable_type (l : list (list Z * finsh_type)) (p : Z) : finsh_type :=
  let k := p - global_variable in
  if decide (0 <= k /\ k mod 24 = 0) then default finsh_type_unknown (snd <$> l !! Z.to_nat (k / 24)) else finsh_type_unknown.
Definition symbols_of (l : list (list Z * finsh_type)) : Symbols :=
  {| var_type := variable_type l; sysvar_type := type_of_sysvar; sysvar_var := var_of_sysvar; syscall_func := func_of_syscall |}.

Definition finsh_parser_init : finsh_token := finsh_token_init [] 0.

Definition with_errno (e : Z) (c : cstate) : cstate := CState (ctext c) (finsh_compile_pc c) (cstack c) e.
Definition machine_of (p : finsh_parser) (m : finsh) : finsh :=
  Finsh (with_errno (terrno (token p)) (compiler m)) (machine_sp m) (machine_pc m) (heap_mem (strings p)).

(** The nodes and the error are reset; variables and strings stay. *)
Definition finsh_flush (p : finsh_parser) (m : finsh) : interpreter :=
  Interpreter (Parser finsh_parser_init 0 (variables p) (set_mem (fun _ => memory m) (strings p)))
    (Finsh (with_errno 0 (compiler m)) (machine_sp m) (machine_pc m) (memory m)).

(** All is reset, the heap as well. *)
Definition finsh_init (b : mem) (m : finsh) : option interpreter :=
  '(_, h) ← finsh_heap_init finsh_heap (Heap 0 0 b);
  Some (Interpreter (Parser finsh_parser_init 0 (replicate FINSH_VARIABLE_MAX ([], finsh_type_unknown)) h)
    (Finsh (with_errno 0 (compiler m)) (machine_sp m) (machine_pc m) (heap_mem h))).

Definition finsh_reset (s : interpreter) : option interpreter :=
  '(_, h) ← finsh_heap_init finsh_heap (strings (parser s));
  Some (Interpreter (Parser (set_errno 0 (token (parser s))) 0 (replicate FINSH_VARIABLE_MAX ([], finsh_type_unknown)) h)
    (Finsh (with_errno 0 (compiler (machine s))) (machine_sp (machine s)) (machine_pc (machine s)) (heap_mem h))).

(** What is printed of the value; none if there is an error. *)
Definition finsh_run_line (l : list Z) : M interpreter (option report) := fun s =>
  '(root, p) ← finsh_parser_run l (parser s);
  '(r, m) ← finsh_run_root (sy := symbols_of (variables p)) root (machine_of p (machine s));
  Some (r, finsh_flush p m).


(** ** A line of expressions does what they mean in C *)


Section theorem.
Context (s : interpreter) (ident_name : ident -> list Z) (function_name : Z -> list Z).

End theorem.
End line.

(** ** An example: one variable, one function *)

#[local] Instance demo_environment : Environment :=
  {| global_variable := 8192; finsh_heap := 4096;
     sysvars := Table [(chars "count", 300)] []; syscalls := Table [(chars "add", 500)] [];
     type_of_sysvar _ := finsh_type_int; var_of_sysvar _ := 9000; func_of_syscall _ := 5000 |}.
#[local] Instance demo_functions : Functions := fun _ args b => Some (foldr Z.add 0 args, b).
Definition demo_machine : finsh := Finsh (CState (replicate FINSH_TEXT_MAX 0) 0 (replicate FINSH_STACK_MAX 0) 0) 0 0 (fun _ => 0).
Fixpoint demo_lines (ls : list (list Z)) (s : interpreter) : option (list (option report)) :=
  match ls with [] => Some [] | l :: ls => '(r, s) ← finsh_run_line l s; rs ← demo_lines ls s; Some (r :: rs) end.
Definition demo (ls : list (list Z)) : option (list (option report)) := s ← finsh_init (fun _ => 0) demo_machine; demo_lines ls s.

(** A variable is declared, and keeps its value from line to line. *)
Example demo_variable : demo [chars "int a = 3;"; chars "a * 2 + a++;"; chars "add(1, a, 4);"] = Some [Some (PrintNumber 3); Some (PrintNumber 9); Some (PrintNumber 9)].
Proof. vm_compute. reflexivity. Qed.










(** *** What goes wrong *)

(** A literal of [n] times the same character. *)
Definition quoted (n : nat) (c : Z) : list Z := ([34] ++ replicate n c ++ [34])%list.

(** Six increments are more code than the text segment has room for. *)
Example code_overruns_text : demo [chars "int a;"; chars "a++;a++;a++;a++;a++;"] <> None /\ demo [chars "int a;"; chars "a++;a++;a++;a++;a++;a++;"] = None.
Proof. split; vm_compute; [congruence|reflexivity]. Qed.

(** The result of a call has no type, and nothing is added to it. *)
Example call_is_not_added : demo [chars "add(1) + 1;"] = Some [Some (PrintNumber 1)].
Proof. vm_compute. reflexivity. Qed.

(** A character is put into a slot of the stack that has other bits from before. *)
Example character_has_old_bits : demo [chars "1 + 'A';"; chars "add(70000, 1);"; chars "1 + 'A';"] = Some [Some (PrintChar 66 66); Some (PrintChar 113 70001); Some (PrintChar 66 69954)].
Proof. vm_compute. reflexivity. Qed.

(** An operation has the width of its first operand, and is signed: 200 / 2 is -28 of
    a character, and the largest number is -1.  An assignment to a character leaves the
    address in the other bits of what is printed. *)
Example operations_are_narrow_and_signed :
  demo [chars "unsigned char c;"; chars "c = 200;"; chars "c / 2;"; chars "short h = 1000;"; chars "h * 100;"; chars "unsigned int u;"; chars "u = ~u;"; chars "u / 2;"; chars "u >> 1;"] =
  Some [Some (PrintNumber 0); Some (PrintNumber 8392); Some (PrintNumber 228); Some (PrintNumber 1000); Some (PrintNumber 34464); Some (PrintNumber 0); Some (PrintNumber 4294967295);
        Some (PrintNumber 0); Some (PrintNumber 4294967295)].
Proof. vm_compute. reflexivity. Qed.

(** What a pointer points to has four bytes, and it is counted in bytes. *)
Example pointers_are_to_words :
  demo [(chars "char *s = " ++ quoted 3 65 ++ chars ";")%list; chars "*s;"; chars "int a = 3;"; chars "&a;"; chars "&a + 1;"] =
  Some [Some (PrintNumber 4104); Some (PrintChar 65 4276545); Some (PrintNumber 3); Some (PrintChar 44 8236); Some (PrintChar 45 8237)].
Proof. vm_compute. reflexivity. Qed.

(** The increment of a variable of the system is of something else, 20 bytes behind its entry in the table. *)
Example sysvar_is_not_incremented : demo [chars "count = 5;"; chars "count++;"; chars "count;"; chars "++count;"] =
  Some [Some (PrintNumber 5); Some (PrintNumber 5); Some (PrintNumber 5); Some (PrintNumber 2)].
Proof. vm_compute. reflexivity. Qed.

(** There is no code for a pointer to void, and an assignment to it is below the stack. *)
Example void_pointer_has_no_code : demo [chars "void *p;"; chars "p = 3;"] = None.
Proof. vm_compute. reflexivity. Qed.

(** A parenthesis is always the start of a cast. *)
Example parentheses_are_errors : demo [chars "(1);"; chars "2 * (3 + 4);"] = Some [None; None].
Proof. vm_compute. reflexivity. Qed.

(** What is behind a declaration without a value is not read. *)
Example rest_of_declaration_is_lost : demo [chars "int a; a = 3;"; chars "a;"] = Some [Some (PrintNumber 0); Some (PrintNumber 0)].
Proof. vm_compute. reflexivity. Qed.

(** A statement behind a declaration of two variables takes the place of the second value. *)
Example second_value_is_lost : demo [chars "int a = 1, b = 2; a;"; chars "b;"] = Some [Some (PrintNumber 1); Some (PrintNumber 0)].
Proof. vm_compute. reflexivity. Qed.

(** The digits of an escape are skipped; letters behind 0x are digits, whatever they are. *)
Example odd_literals : demo [chars "'\101';"; chars "0xg;"; chars "0x7fL;"; chars "0L;"] = Some [Some (PrintNumber 0); Some (PrintChar 55 55); Some (PrintNumber 2044); None].
Proof. vm_compute. reflexivity. Qed.

(** There is no room for both strings of a line, no variable has the first one, and
    the second one gets its place: the two addresses that are added are the same. *)
Example strings_share_a_place :
  demo [(chars "char *s = " ++ quoted 60 120 ++ chars ";")%list; (chars "add(" ++ quoted 20 121 ++ chars ", " ++ quoted 20 122 ++ chars ");")%list] =
  Some [Some (PrintNumber 4104); Some (PrintNumber (4176 + 4176))].
Proof. vm_compute. reflexivity. Qed.

(** A name of 16 characters has no terminator when it is looked up in the tables. *)
Example long_name_is_undefined : demo [chars "abcdefghijklmnop;"] = None.
Proof. vm_compute. reflexivity. Qed.
