(* ===== verification/Gui.v ===== *)
(** * Gui: the display thread

    gui/new_gui.c: the thread that shows the messages of the main thread
    ([rt_flush_task] and the functions that format a cell), the start of the
    display and the two buttons.  The calls of the graphics library and of the
    message queue are recorded in the order they are made; a cell's text is the
    C string in the buffer.

    [stack] is what the buffers on the stack hold before they are written: a text
    that does not fit overruns its buffer, and the step has no result. *)

From Stdlib Require Import Ascii String.
From S2P Require Import Prelude Bytes AppMain Kservice.
#[local] Open Scope Z_scope.

Inductive gui_effect :=
| GCell (row col : Z) (text : list Z)   (* grid_set_cell_text(grid_main, ...) *)
| GMsg (e : effect)                     (* a message to another thread *)
| GCall (name : string).                (* another call of the graphics library *)

(** [ls1x_dc_started()] and [grid_main != NULL] do not change while the thread runs. *)
Record gui := Gui { g_started : bool; g_grid : bool; g_trace : list gui_effect }.

Definition gui_emit (e : gui_effect) : M gui unit :=
  modify (fun g => Gui (g_started g) (g_grid g) (g_trace g ++ [e])).

(** The C string at the start of a buffer. *)
Fixpoint cstring (b : list Z) : list Z :=
  match b with c :: b => if decide (c = 0) then [] else c :: cstring b | [] => [] end.

Definition gui_drawtext_in_grid (row col : Z) (str : list Z) : M gui unit :=
  started ← gets g_started;
  when started (grid ← gets g_grid; when grid (gui_emit (GCell row col (cstring str)))).

(** [rt_sprintf(buf, fmt, ...)]: the buffer afterwards. *)
Definition sprintf (buf : list Z) (fmt : string) (args : list Z) : M gui (list Z) :=
  deref (fun _ => rt_sprintf buf (chars fmt) (map VInt args)).

Section Gui.
Context (stack : nat -> list Z).

Definition draw_text_in_grid (row col : Z) (val : Z) : M gui unit :=
  info_buf ← sprintf (stack 8) " %i" [val];
  gui_drawtext_in_grid row col info_buf.

(** The caller's buffer is used, and left with the text in it. *)
Definition draw_text_in_grid_nb (row col : Z) (val : Z) (buf : list Z) : M gui (list Z) :=
  buf ← sprintf buf " %i" [val];
  gui_drawtext_in_grid row col buf;;
  mret buf.

(** [buf->val_arr[i]] *)
Definition word (buf : list Z) (i : nat) : M gui Z := deref (fun _ => val_arr buf i).

Definition draw_texts_in_grids (buf : list Z) : M gui unit :=
  v1 ← word buf 1; v2 ← word buf 2; v3 ← word buf 3; v4 ← word buf 4;
  info_buf ← draw_text_in_grid_nb 0 1 v1 (stack 8);
  info_buf ← draw_text_in_grid_nb 2 1 v2 info_buf;
  info_buf ← draw_text_in_grid_nb 0 3 v3 info_buf;
  _ ← draw_text_in_grid_nb 1 3 v4 info_buf;
  mret tt.

Definition draw_rtc_time_in_grid (row col : Z) (buf : list Z) : M gui unit :=
  v1 ← word buf 1; v2 ← word buf 2; v3 ← word buf 3;
  info_buf ← sprintf (stack 12) "%i.%i.%i" [v1; v2; v3];
  gui_drawtext_in_grid row col info_buf.

Definition draw_product_info (buf : list Z) : M gui unit :=
  v1 ← word buf 1; v2 ← word buf 2;
  info_buf ← draw_text_in_grid_nb 0 3 v1 (stack 8);
  _ ← draw_text_in_grid_nb 1 3 v2 info_buf;
  mret tt.

(** What [rt_flush_task] does with a message. *)
Definition rt_flush_step (rbuf : list Z) : M gui unit :=
  code ← word rbuf 0;
  match code with
  | 1 => draw_texts_in_grids rbuf
  | 2 => v ← word rbuf 1; draw_text_in_grid 1 1 v
  | 3 => draw_rtc_time_in_grid 2 3 rbuf
  | 4 => draw_product_info rbuf
  | 5 => v ← word rbuf 1; draw_text_in_grid 0 5 v
  | 6 => v ← word rbuf 1; draw_text_in_grid 1 5 v;; gui_drawtext_in_grid 2 5 (chars "OK" ++ [0])
  | _ => mret tt
  end.

(** [rt_flush_task] on the buffers that [rt_mq_recv] gives. *)
Fixpoint rt_flush_task (msgs : list (list Z)) : M gui unit :=
  match msgs with [] => mret tt | rbuf :: msgs => rt_flush_step rbuf;; rt_flush_task msgs end.

Definition send_btn_msg (code : Z) : M gui unit :=
  gui_emit (GMsg (ESend MainMq (set_val 0 code (stack 20)) 4)).
Definition main_onclick_0001 : M gui unit := send_btn_msg 6.
Definition main_onclick_0002 : M gui unit := send_btn_msg 7.

(** ** The start of the display *)

Definition grid_content_init : M gui unit :=
  gui_drawtext_in_grid 0 0 (chars "电压");;
  gui_drawtext_in_grid 1 0 (chars "阈值");;
  gui_drawtext_in_grid 2 0 (chars "合格");;
  gui_drawtext_in_grid 0 2 (chars "总数");;
  gui_drawtext_in_grid 1 2 (chars "合格数");;
  gui_drawtext_in_grid 2 2 (chars "日期");;
  gui_drawtext_in_grid 0 4 (chars "CSQ");;
  gui_drawtext_in_grid 1 4 (chars "ID");;
  gui_drawtext_in_grid 2 4 (chars "状态").

(** [start_gui_task], [fb] being the result of [fb_open]; the grid exists afterwards. *)
Definition start_gui_task (fb : Z) : M gui unit :=
  if decide (fb <> 0) then mret tt
  else
    started ← gets g_started;
    when started
      (gui_emit (GCall "init_simple_gui_env");;
       gui_emit (GCall "create_main_objects");;
       grid_content_init;;
       gui_emit (GCall "start_gui_monitor_task");;
       gui_emit (GCall "start_flush_task")).
End Gui.

(** ** What is seen *)

Lemma cstring_app t b : Forall (fun c => c <> 0) t -> cstring (t ++ 0 :: b) = t.
Proof. induction 1 as [|c t Hc _ IH]; [done|]. simpl. rewrite decide_False by done. by rewrite IH. Qed.

(** The values that fit into a cell's buffer. *)
Definition cell_fits (v : Z) : Prop := -99999 <= s32 v <= 999999.

#[export] Instance cell_fits_dec v : Decision (cell_fits v).
Proof. unfold cell_fits. apply _. Defined.

Lemma int_text_fits v : cell_fits v <-> (length (int_text v) <= 6)%nat.
Proof. pose proof (proj2 (int_text_ok v) 6 ltac:(lia)) as H. unfold cell_fits. simpl in H. lia. Qed.

Lemma format_cell v : format 4 (chars " %i") [VInt v] = Some (32 :: int_text v).
Proof. change (chars " %i") with [32; 37; 105]. rewrite format_char, format_int by done. simpl. by rewrite app_nil_r. Qed.

Lemma sprintf_cell buf v : length buf = 8%nat ->
  if decide (cell_fits v) then
    exists buf', rt_sprintf buf (chars " %i") [VInt v] = Some buf' /\ length buf' = 8%nat /\ cstring buf' = 32 :: int_text v
  else rt_sprintf buf (chars " %i") [VInt v] = None.
Proof.
  intros Hl. unfold rt_sprintf. change (S (length (chars " %i"))) with 4%nat. rewrite format_cell. cbn [mbind option_bind].
  rewrite Hl. simpl length. destruct (decide (cell_fits v)) as [Hf|Hf]; rewrite int_text_fits in Hf.
  - rewrite decide_True by lia. eexists. split; [done|]. split.
    + rewrite length_app. simpl. rewrite length_drop. lia.
    + apply (cstring_app (32 :: _)). constructor; [done|apply int_text_no_nul].
  - by rewrite decide_False by lia.
Qed.

(** A running display: its grid is there. *)
Definition visible (g : gui) : Prop := g_started g = true /\ g_grid g = true.
Definition with_cells (tr : list gui_effect) (g : gui) : gui := Gui (g_started g) (g_grid g) (g_trace g ++ tr).

Lemma visible_cells g tr : visible g -> visible (with_cells tr g).
Proof. done. Qed.

Lemma with_cells_app g t1 t2 : with_cells t2 (with_cells t1 g) = with_cells (t1 ++ t2) g.
Proof. unfold with_cells. simpl. by rewrite app_assoc. Qed.

Lemma drawtext_visible row col str g : visible g ->
  gui_drawtext_in_grid row col str g = Some (tt, with_cells [GCell row col (cstring str)] g).
Proof. intros [H1 H2]. unfold gui_drawtext_in_grid, gets, when, mbind, M_bind. by rewrite H1, H2. Qed.

(** The text of a cell that holds the number [v]. *)
Definition number_text (v : Z) : list Z := 32 :: int_text v.

Lemma number_text_reads v : read_number 10 (number_text v) = Some (s32 v).
Proof. exact (proj1 (int_text_ok v)). Qed.

Lemma draw_nb_ok row col v buf g : visible g -> length buf = 8%nat ->
  if decide (cell_fits v) then
    exists buf', draw_text_in_grid_nb row col v buf g = Some (buf', with_cells [GCell row col (number_text v)] g) /\ length buf' = 8%nat
  else draw_text_in_grid_nb row col v buf g = None.
Proof.
  intros Hg Hl. pose proof (sprintf_cell buf v Hl) as H. unfold draw_text_in_grid_nb, sprintf, deref, mbind, M_bind. simpl map.
  case_decide; [|by rewrite H]. destruct H as (buf' & -> & Hl' & Hc). exists buf'. split; [|done].
  rewrite drawtext_visible by done. by rewrite Hc.
Qed.

Section Shown.
Context (stack : nat -> list Z) (stack_length : forall n, length (stack n) = n).

Lemma draw_text_ok row col v g : visible g ->
  draw_text_in_grid stack row col v g =
    if decide (cell_fits v) then Some (tt, with_cells [GCell row col (number_text v)] g) else None.
Proof.
  intros Hg. pose proof (sprintf_cell (stack 8) v (stack_length 8)) as H. unfold draw_text_in_grid, sprintf, deref, mbind, M_bind.
  simpl map. case_decide; [|by rewrite H]. destruct H as (buf' & -> & _ & Hc). rewrite drawtext_visible by done. by rewrite Hc.
Qed.

(** The cells a message is about, with the numbers they have to show. *)
Definition cells_of (code v1 v2 v3 v4 : Z) : list (Z * Z * Z) :=
  match code with
  | 1 => [(0, 1, v1); (2, 1, v2); (0, 3, v3); (1, 3, v4)]
  | 2 => [(1, 1, v1)]
  | 4 => [(0, 3, v1); (1, 3, v2)]
  | 5 => [(0, 5, v1)]
  | 6 => [(1, 5, v1)]
  | _ => []
  end.

(** The number that a cell shows, read by a person. *)
Definition seen (e : gui_effect) : option (Z * Z * Z) :=
  match e with GCell row col text => v ← read_number 10 text; Some (row, col, v) | _ => None end.

Lemma seen_number row col v : seen (GCell row col (number_text v)) = Some (row, col, s32 v).
Proof. simpl. by rewrite number_text_reads. Qed.

Lemma word_eval rbuf i v g : val_arr rbuf i = Some v -> word rbuf i g = Some (v, g).
Proof. intros E. unfold word, deref. by rewrite E. Qed.

Definition all_fit (l : list (Z * Z * Z)) : Prop := Forall (fun c => cell_fits (snd c)) l.

#[export] Instance all_fit_dec l : Decision (all_fit l).
Proof. unfold all_fit. apply _. Defined.

(** Cells drawn one after the other with one buffer. *)
Fixpoint draw_list (l : list (Z * Z * Z)) (buf : list Z) : M gui (list Z) :=
  match l with
  | [] => mret buf
  | (row, col, v) :: l => buf ← draw_text_in_grid_nb row col v buf; draw_list l buf
  end.

Definition number_cell (c : Z * Z * Z) : gui_effect := GCell (fst (fst c)) (snd (fst c)) (number_text (snd c)).

Lemma seen_cells l : omap seen (map number_cell l) = map (fun c => (fst c, s32 (snd c))) l.
Proof. induction l as [|[[row col] v] l IH]; [done|]. simpl. rewrite number_text_reads. simpl. f_equal. exact IH. Qed.

Lemma draw_list_ok l : forall buf g, visible g -> length buf = 8%nat ->
  if decide (all_fit l) then exists buf', draw_list l buf g = Some (buf', with_cells (map number_cell l) g)
  else draw_list l buf g = None.
Proof.
  induction l as [|[[row col] v] l IH]; intros buf g Hg Hl; simpl.
  { exists buf. unfold with_cells. rewrite app_nil_r. by destruct g. }
  pose proof (draw_nb_ok row col v buf g Hg Hl) as H. unfold mbind at 1 2, M_bind. unfold all_fit.
  destruct (decide (cell_fits v)) as [Hv|Hv].
  - destruct H as (buf' & -> & Hl'). specialize (IH buf' (with_cells [GCell row col (number_text v)] g) Hg Hl'). unfold all_fit in IH.
    destruct (decide (Forall _ l)) as [Hf|Hf].
    + rewrite decide_True by by constructor. destruct IH as (buf'' & ->). exists buf''. by rewrite with_cells_app.
    + rewrite decide_False by (by intros [_ ?]%Forall_cons). done.
  - rewrite H. rewrite decide_False by (by intros [? _]%Forall_cons). done.
Qed.

Lemma draw_list_unit l g : visible g ->
  (draw_list l (stack 8);; mret tt) g = if decide (all_fit l) then Some (tt, with_cells (map number_cell l) g) else None.
Proof.
  intros Hg. pose proof (draw_list_ok l (stack 8) g Hg (stack_length 8)) as H. unfold mbind, M_bind.
  case_decide; [destruct H as (? & ->)|rewrite H]; done.
Qed.

Ltac same_draw := match goal with
  | |- context [match draw_text_in_grid_nb ?r ?c ?v ?b ?g with _ => _ end] => destruct (draw_text_in_grid_nb r c v b g) as [[? ?]|]; [|done]
  end.

Lemma draw_texts_list rbuf v1 v2 v3 v4 g :
  val_arr rbuf 1 = Some v1 -> val_arr rbuf 2 = Some v2 -> val_arr rbuf 3 = Some v3 -> val_arr rbuf 4 = Some v4 ->
  draw_texts_in_grids stack rbuf g = (draw_list (cells_of 1 v1 v2 v3 v4) (stack 8);; mret tt) g.
Proof.
  intros E1 E2 E3 E4. unfold draw_texts_in_grids, word, deref, mbind, M_bind. rewrite E1, E2, E3, E4. cbn [cells_of draw_list].
  unfold mbind, M_bind. repeat same_draw. done.
Qed.

Lemma draw_product_list rbuf v1 v2 v3 v4 g : val_arr rbuf 1 = Some v1 -> val_arr rbuf 2 = Some v2 ->
  draw_product_info stack rbuf g = (draw_list (cells_of 4 v1 v2 v3 v4) (stack 8);; mret tt) g.
Proof.
  intros E1 E2. unfold draw_product_info, word, deref, mbind, M_bind. rewrite E1, E2. cbn [cells_of draw_list].
  unfold mbind, M_bind. repeat same_draw. done.
Qed.

Lemma flush_numbers rbuf g code v1 v2 v3 v4 :
  visible g -> val_arr rbuf 0 = Some code -> code ∈ [1; 2; 4; 5; 6] ->
  val_arr rbuf 1 = Some v1 -> val_arr rbuf 2 = Some v2 -> val_arr rbuf 3 = Some v3 -> val_arr rbuf 4 = Some v4 ->
  exists tr', rt_flush_step stack rbuf g = (if decide (all_fit (cells_of code v1 v2 v3 v4))
    then Some (tt, with_cells (map number_cell (cells_of code v1 v2 v3 v4) ++ tr') g) else None) /\ omap seen tr' = [].
Proof.
  intros Hg E0 Hc E1 E2 E3 E4.
  assert (forall row col, all_fit [(row, col, v1)] <-> cell_fits v1) as H1 by (intros; unfold all_fit; rewrite Forall_singleton; done).
  unfold rt_flush_step. rewrite (bind_eval _ _ _ _ _ (word_eval _ _ _ _ E0)).
  rewrite !elem_of_cons, elem_of_nil in Hc. destruct Hc as [-> | [-> | [-> | [-> | [-> | []]]]]].
  - exists []. rewrite app_nil_r, (draw_texts_list _ v1 v2 v3 v4), draw_list_unit by done. done.
  - exists []. rewrite (bind_eval _ _ _ _ _ (word_eval _ _ _ _ E1)), draw_text_ok by done.
    cbn [cells_of]. by rewrite (decide_ext _ _ _ _ (H1 1 1)).
  - exists []. rewrite app_nil_r, (draw_product_list _ v1 v2 v3 v4), draw_list_unit by done. done.
  - exists []. rewrite (bind_eval _ _ _ _ _ (word_eval _ _ _ _ E1)), draw_text_ok by done.
    cbn [cells_of]. by rewrite (decide_ext _ _ _ _ (H1 0 5)).
  - exists [GCell 2 5 (chars "OK")]. split; [|reflexivity].
    rewrite (bind_eval _ _ _ _ _ (word_eval _ _ _ _ E1)). cbn [cells_of].
    rewrite (decide_ext _ _ _ _ (H1 1 5)). unfold mbind, M_bind. rewrite draw_text_ok by done.
    case_decide; [|done]. rewrite drawtext_visible by by apply visible_cells. rewrite with_cells_app. done.
Qed.

(** The messages that are numbers: what is drawn, and when a buffer is overrun. *)
Theorem messages_are_shown rbuf g code v1 v2 v3 v4 :
  visible g -> val_arr rbuf 0 = Some code -> code ∈ [1; 2; 4; 5; 6] ->
  val_arr rbuf 1 = Some v1 -> val_arr rbuf 2 = Some v2 -> val_arr rbuf 3 = Some v3 -> val_arr rbuf 4 = Some v4 ->
  if decide (all_fit (cells_of code v1 v2 v3 v4)) then
    exists tr, rt_flush_step stack rbuf g = Some (tt, with_cells tr g) /\
      omap seen tr = map (fun c => (fst c, s32 (snd c))) (cells_of code v1 v2 v3 v4)
  else rt_flush_step stack rbuf g = None.
Proof.
  intros Hg E0 Hc E1 E2 E3 E4. destruct (flush_numbers rbuf g code v1 v2 v3 v4) as (tr' & E & Hs); try done.
  case_decide; [|done]. eexists. split; [exact E|]. by rewrite omap_app, seen_cells, Hs, app_nil_r.
Qed.

(** ** The date *)

Definition date_text (y m d : Z) : list Z := int_text y ++ 46 :: int_text m ++ 46 :: int_text d.

Lemma format_date y m d : format 9 (chars "%i.%i.%i") [VInt y; VInt m; VInt d] = Some (date_text y m d).
Proof.
  change (chars "%i.%i.%i") with [37; 105; 46; 37; 105; 46; 37; 105].
  rewrite format_int, format_char, format_int, format_char, format_int by done. simpl. by rewrite app_nil_r.
Qed.

Lemma date_text_no_nul y m d : Forall (fun c => c <> 0) (date_text y m d).
Proof.
  unfold date_text. repeat first [apply Forall_app; split | apply Forall_cons; split]; try apply int_text_no_nul; done.
Qed.

(** A date as a person reads it: year, month and day with dots between them. *)
Definition seen_date (text : list Z) : option (Z * Z * Z) :=
  match read_digits 10 0 text with
  | (y, 46 :: r) =>
    match read_digits 10 0 r with
    | (m, 46 :: r) => d ← read_number 10 r; Some (y, m, d)
    | _ => None
    end
  | _ => None
  end.

Lemma seen_date_text y m d : 0 <= y < 2 ^ 31 -> 0 <= m < 2 ^ 31 -> seen_date (date_text y m d) = Some (y, m, s32 d).
Proof.
  intros Hy Hm. unfold seen_date, date_text. rewrite int_text_digits by done. simpl read_digits at 1. cbv beta iota.
  rewrite int_text_digits by done. simpl read_digits. cbv beta iota. by rewrite (proj1 (int_text_ok d)).
Qed.

(** The twelve bytes for the date hold a day of up to four characters, or three
    behind a month of two digits; a longer one overruns them. *)
Lemma flush_date rbuf g y m d :
  visible g -> val_arr rbuf 0 = Some 3 ->
  val_arr rbuf 1 = Some y -> val_arr rbuf 2 = Some m -> val_arr rbuf 3 = Some d ->
  1000 <= y <= 9999 -> 0 <= m <= 99 ->
  let k := if decide (m < 10) then 4 else 3 in
  if decide (- 10 ^ (k - 1) < s32 d < 10 ^ k) then
    exists text, rt_flush_step stack rbuf g = Some (tt, with_cells [GCell 2 3 text] g) /\ seen_date text = Some (y, m, s32 d)
  else rt_flush_step stack rbuf g = None.
Proof.
  intros Hg E0 E1 E2 E3 Hy Hm k.
  assert (forall z n, 1 <= n -> - 10 ^ (n - 1) < s32 z < 10 ^ n <-> Z.of_nat (length (int_text z)) <= n) as Hlen
    by (intros; symmetry; by apply int_text_ok).
  assert (Z.of_nat (length (int_text y)) = 4) as Ly.
  { pose proof (Hlen y 4 ltac:(lia)) as H4. pose proof (Hlen y 3 ltac:(lia)) as H3. rewrite s32_small in H3, H4 by lia. lia. }
  assert (Z.of_nat (length (int_text m)) = 5 - k) as Lm.
  { pose proof (Hlen m 1 ltac:(lia)) as H1. pose proof (Hlen m 2 ltac:(lia)) as H2. rewrite s32_small in H1, H2 by lia.
    assert (0 < length (int_text m))%nat by (pose proof (proj1 (int_text_ok m)) as Hr; destruct (int_text m); [done|simpl; lia]).
    subst k. case_decide; lia. }
  unfold rt_flush_step. rewrite (bind_eval _ _ _ _ _ (word_eval _ _ _ _ E0)). unfold draw_rtc_time_in_grid.
  rewrite (bind_eval _ _ _ _ _ (word_eval _ _ _ _ E1)), (bind_eval _ _ _ _ _ (word_eval _ _ _ _ E2)), (bind_eval _ _ _ _ _ (word_eval _ _ _ _ E3)).
  unfold sprintf, deref, rt_sprintf, mbind, M_bind. change (S (length (chars "%i.%i.%i"))) with 9%nat. simpl map.
  rewrite format_date. cbn [option_bind]. rewrite stack_length.
  assert ((length (date_text y m d) < 12)%nat <-> Z.of_nat (length (int_text d)) <= k) as Hd.
  { unfold date_text. rewrite length_app. simpl. rewrite length_app. simpl. lia. }
  assert (1 <= k) as Hk by (subst k; case_decide; lia).
  destruct (decide (- 10 ^ (k - 1) < s32 d < 10 ^ k)) as [Hf|Hf]; rewrite (Hlen d k Hk), <- Hd in Hf.
  - rewrite decide_True by done. eexists. split.
    + rewrite drawtext_visible by done. rewrite cstring_app by apply date_text_no_nul. reflexivity.
    + apply seen_date_text; lia.
  - by rewrite decide_False.
Qed.
End Shown.

(** ** Examples *)

Definition demo_gui_stack (n : nat) : list Z := replicate n 170.
Definition demo_gui : gui := Gui true true [].

Lemma demo_gui_stack_length n : List.length (demo_gui_stack n) = n.
Proof. apply length_replicate. Qed.

(** A million resistors do not fit: the counter is in the fourth word. *)
Lemma messages_are_shown_witness :
  (exists tr, rt_flush_step demo_gui_stack (set_val 4 9 (set_val 3 999999 (set_val 2 1 (set_val 1 600 (set_val 0 1 (replicate 20 0)))))) demo_gui
      = Some (tt, with_cells tr demo_gui) /\
    omap seen tr = [(0, 1, 600); (2, 1, 1); (0, 3, 999999); (1, 3, 9)]) /\
  rt_flush_step demo_gui_stack (set_val 4 9 (set_val 3 1000000 (set_val 2 1 (set_val 1 600 (set_val 0 1 (replicate 20 0)))))) demo_gui = None.
Proof.
  split.
  - apply (messages_are_shown demo_gui_stack demo_gui_stack_length
      (set_val 4 9 (set_val 3 999999 (set_val 2 1 (set_val 1 600 (set_val 0 1 (replicate 20 0)))))) demo_gui 1 600 1 999999 9);
      [done|by vm_compute|by left|by vm_compute..].
  - apply (messages_are_shown demo_gui_stack demo_gui_stack_length
      (set_val 4 9 (set_val 3 1000000 (set_val 2 1 (set_val 1 600 (set_val 0 1 (replicate 20 0)))))) demo_gui 1 600 1 1000000 9);
      [done|by vm_compute|by left|by vm_compute..].
Defined.

