(* ===== verification/FileWr.v ===== *)
(** * FileWr: the log file thread

    file_wr.c.  The file system (yaffs2) is an interface: [Yaffs] has the calls
    that file_wr.c makes, [YaffsLaws] what POSIX says of them, as far as one file
    is concerned.  [flash] is an instance of both.

    The statistics are kept in 24 bytes: the code 3, the two counters and the
    date.  A log that starts with 0 is blank. *)

From Stdlib Require Import String.
From S2P Require Import Prelude Bytes AppMain.
#[local] Open Scope Z_scope.

(** ** The file system *)

Class Yaffs (F : Type) := {
  yaffs_is_running : F -> bool;
  yaffs_opendir : string -> F -> bool;                 (* the directory exists *)
  yaffs_mkdir : string -> F -> F;
  yaffs_open : string -> F -> Z * F;                   (* with O_CREAT | O_RDWR *)
  yaffs_pwrite : Z -> list Z -> nat -> F -> F;
  yaffs_write : Z -> list Z -> F -> F;
  yaffs_pread : Z -> nat -> nat -> F -> list Z;        (* size, offset *)
  yaffs_read : Z -> nat -> F -> list Z * F;
  yaffs_flush : Z -> F -> F;
  yaffs_close : Z -> F -> F
}.

(** [bytes] written into a file at [off]; a gap is filled with zeros. *)
Definition splice (off : nat) (bytes c : list Z) : list Z :=
  take off (c ++ replicate (off - length c) 0) ++ bytes ++ drop (off + length bytes) c.

(** [content p f] is what the file [p] holds, if it exists; [opened fd f] what
    [fd] refers to and its position. *)
Class YaffsLaws (F : Type) `{Yaffs F} := {
  content : string -> F -> option (list Z);
  opened : Z -> F -> option (string * nat);
  open_law p f fd f' : yaffs_open p f = (fd, f') -> 0 <= fd ->
    content p f' = Some (default [] (content p f)) /\ opened fd f' = Some (p, 0%nat);
  pwrite_law fd p pos c bytes off f : opened fd f = Some (p, pos) -> content p f = Some c ->
    content p (yaffs_pwrite fd bytes off f) = Some (splice off bytes c);
  write_law fd p pos c bytes f : opened fd f = Some (p, pos) -> content p f = Some c ->
    content p (yaffs_write fd bytes f) = Some (splice pos bytes c);
  pread_law fd p pos c n off f : opened fd f = Some (p, pos) -> content p f = Some c ->
    yaffs_pread fd n off f = take n (drop off c);
  read_law fd p pos c n f : opened fd f = Some (p, pos) -> content p f = Some c ->
    fst (yaffs_read fd n f) = take n (drop pos c) /\ content p (snd (yaffs_read fd n f)) = Some c;
  flush_law fd p f : content p (yaffs_flush fd f) = content p f;
  close_law fd p f : content p (yaffs_close fd f) = content p f;
  mkdir_law d p f : content p (yaffs_mkdir d f) = content p f;
  mkdir_dir d f : yaffs_opendir d (yaffs_mkdir d f) = true;
  dir_law d f : yaffs_opendir d f = true ->
    (forall p, yaffs_opendir d (snd (yaffs_open p f)) = true) /\
    (forall fd bytes off, yaffs_opendir d (yaffs_pwrite fd bytes off f) = true) /\
    (forall fd bytes, yaffs_opendir d (yaffs_write fd bytes f) = true) /\
    (forall fd n, yaffs_opendir d (snd (yaffs_read fd n f)) = true) /\
    (forall fd, yaffs_opendir d (yaffs_flush fd f) = true) /\
    (forall fd, yaffs_opendir d (yaffs_close fd f) = true);
  running_law f : yaffs_is_running f = true ->
    (forall d, yaffs_is_running (yaffs_mkdir d f) = true) /\
    (forall p, yaffs_is_running (snd (yaffs_open p f)) = true) /\
    (forall fd bytes off, yaffs_is_running (yaffs_pwrite fd bytes off f) = true) /\
    (forall fd bytes, yaffs_is_running (yaffs_write fd bytes f) = true) /\
    (forall fd n, yaffs_is_running (snd (yaffs_read fd n f)) = true) /\
    (forall fd, yaffs_is_running (yaffs_flush fd f) = true) /\
    (forall fd, yaffs_is_running (yaffs_close fd f) = true)
}.

(** ** The code *)

Definition file_dir : string := "/ndd/userlog".
Definition file_name : string := "/ndd/userlog/logfile".

Section FileWr.
Context {F : Type} `{Yaffs F}.

(** The file system, and what has been sent. *)
Record file_wr := FileWr { fw_fs : F; fw_trace : list effect }.

Definition fs {A} (op : F -> A * F) : M file_wr A := fun s => let '(a, f) := op (fw_fs s) in Some (a, FileWr f (fw_trace s)).
Definition fs_do (op : F -> F) : M file_wr unit := fs (fun f => (tt, op f)).
Definition fs_get {A} (op : F -> A) : M file_wr A := fs (fun f => (op f, f)).
Definition fw_emit (e : effect) : M file_wr unit := modify (fun s => FileWr (fw_fs s) (fw_trace s ++ [e])).

Definition file_write (file_path : string) (wbuf : list Z) (nbyte offset : nat) : M file_wr Z :=
  fd ← fs (yaffs_open file_path);
  if decide (0 <= fd) then
    (if decide (offset <> 0%nat) then fs_do (yaffs_pwrite fd (take nbyte wbuf) offset)
     else fs_do (yaffs_write fd (take nbyte wbuf)));;
    fs_do (yaffs_flush fd);;
    fs_do (yaffs_close fd);;
    mret 0
  else mret (-1).

(** The result and the buffer: what was read replaces its first bytes. *)
Definition file_read (file_path : string) (rbuf : list Z) (nbyte offset : nat) : M file_wr (Z * list Z) :=
  fd ← fs (yaffs_open file_path);
  if decide (0 <= fd) then
    data ← (if decide (offset <> 0%nat) then fs_get (yaffs_pread fd nbyte offset) else fs (yaffs_read fd nbyte));
    fs_do (yaffs_flush fd);;
    fs_do (yaffs_close fd);;
    mret (0, data ++ drop (length data) rbuf)
  else mret (-1, rbuf).

Definition send_file_msg (buf : list Z) : M file_wr (list Z) :=
  v ← deref (fun _ => val_arr buf 0);
  if decide (v = 0) then
    let buf := set_val 0 2 buf in fw_emit (ESend MainMq buf 4);; mret buf
  else
    let buf := set_val 0 3 buf in fw_emit (ESend MainMq buf 24);; mret buf.

(** [file_wr_task] up to its loop: [rbuf], or none if the thread ends. *)
Definition file_wr_start (rbuf : list Z) : M file_wr (option (list Z)) :=
  running ← fs_get yaffs_is_running;
  if (running : bool) then
    temp_dir ← fs_get (yaffs_opendir file_dir);
    when (negb temp_dir)
      (fs_do (yaffs_mkdir file_dir);;
       _ ← file_write file_name (replicate 24 0) 24 0; mret tt);;
    '(ret, rbuf) ← file_read file_name rbuf 24 0;
    rbuf ← (if decide (ret < 0) then mret rbuf else send_file_msg rbuf);
    mret (Some rbuf)
  else mret None.

(** The body of the loop after a message has been received. *)
Definition file_wr_step (rbuf : list Z) : M file_wr (list Z) :=
  code ← deref (fun _ => val_arr rbuf 0);
  match code with
  | 1 => let rbuf := set_val 0 3 rbuf in _ ← file_write file_name rbuf 12 0; mret rbuf
  | 2 => _ ← file_write file_name (drop 4 rbuf) 12 12; mret rbuf
  | _ => mret rbuf
  end.

(** The loop on the buffers that [rt_mq_recv] gives. *)
Fixpoint file_wr_loop (msgs : list (list Z)) : M file_wr unit :=
  match msgs with [] => mret tt | rbuf :: msgs => _ ← file_wr_step rbuf; file_wr_loop msgs end.

End FileWr.
Arguments file_wr F : clear implicits.

(** ** What the thread keeps *)

Lemma length_splice off bytes c : length (splice off bytes c) = Nat.max (length c) (off + length bytes).
Proof. unfold splice. rewrite !length_app, length_take, length_app, length_replicate, length_drop. lia. Qed.

Lemma splice_front bytes c : splice 0 bytes c = bytes ++ drop (length bytes) c.
Proof. done. Qed.

Lemma splice_at off bytes c1 c2 : off = length c1 -> splice off bytes (c1 ++ c2) = c1 ++ bytes ++ drop (length bytes) c2.
Proof.
  intros ->. unfold splice. rewrite <- app_assoc, take_app_length. do 2 f_equal.
  rewrite drop_app_ge by lia. f_equal. lia.
Qed.

Section Log.
Context {F : Type} `{YaffsLaws F}.

(** The file system runs and has the directory of the log. *)
Definition live (f : F) : Prop := yaffs_is_running f = true /\ yaffs_opendir file_dir f = true.

(** In such a file system the log can be opened. *)
Context (open_ok : forall f, live f -> 0 <= fst (yaffs_open file_name f)).

Definition log_content (f : F) : list Z := default [] (content file_name f).

Lemma live_open f : live f -> live (snd (yaffs_open file_name f)).
Proof. intros [Hr Hd]. split; [by apply running_law|by apply dir_law]. Qed.
Lemma live_pwrite fd bytes off f : live f -> live (yaffs_pwrite fd bytes off f).
Proof. intros [Hr Hd]. split; [by apply running_law|by apply dir_law]. Qed.
Lemma live_write fd bytes f : live f -> live (yaffs_write fd bytes f).
Proof. intros [Hr Hd]. split; [by apply running_law|by apply dir_law]. Qed.
Lemma live_read fd n f : live f -> live (snd (yaffs_read fd n f)).
Proof. intros [Hr Hd]. split; [by apply running_law|by apply dir_law]. Qed.
Lemma live_flush fd f : live f -> live (yaffs_flush fd f).
Proof. intros [Hr Hd]. split; [by apply running_law|by apply dir_law]. Qed.
Lemma live_close fd f : live f -> live (yaffs_close fd f).
Proof. intros [Hr Hd]. split; [by apply running_law|by apply dir_law]. Qed.
Create HintDb yaffs.
#[local] Hint Resolve live_open live_pwrite live_write live_read live_flush live_close : yaffs.

Lemma open_log f : live f -> exists fd f', yaffs_open file_name f = (fd, f') /\ 0 <= fd /\
  content file_name f' = Some (log_content f) /\ opened fd f' = Some (file_name, 0%nat) /\ live f'.
Proof.
  intros Hl. destruct (yaffs_open file_name f) as [fd f'] eqn:E. pose proof (open_ok f Hl) as Hfd. rewrite E in Hfd.
  destruct (open_law _ _ _ _ E Hfd) as [Hc Ho]. exists fd, f'. split_and!; try done; apply live_open in Hl; rewrite E in Hl; apply Hl.
Qed.

Lemma file_write_log wbuf nbyte offset s : live (fw_fs s) ->
  exists f', file_write file_name wbuf nbyte offset s = Some (0, FileWr f' (fw_trace s)) /\
    log_content f' = splice offset (take nbyte wbuf) (log_content (fw_fs s)) /\ live f'.
Proof.
  intros Hs. destruct (open_log (fw_fs s) Hs) as (fd & f1 & E & Hfd & Hc & Ho & Hl).
  unfold file_write, fs_do, fs, mbind, M_bind. rewrite E, decide_True by done.
  unfold log_content at 1. destruct (decide (offset <> 0%nat)) as [Hn|Hn]; simpl.
  - eexists. split; [done|]. rewrite close_law, flush_law. split; [by erewrite pwrite_law|auto with yaffs].
  - assert (offset = 0%nat) as -> by lia.
    eexists. split; [done|]. rewrite close_law, flush_law. split; [by erewrite write_law|auto with yaffs].
Qed.

Lemma file_read_log rbuf nbyte s : live (fw_fs s) ->
  let c := log_content (fw_fs s) in
  exists f', file_read file_name rbuf nbyte 0 s = Some ((0, receive c (Nat.min nbyte (length c)) rbuf), FileWr f' (fw_trace s)) /\
    log_content f' = c /\ live f'.
Proof.
  intros Hs c. destruct (open_log (fw_fs s) Hs) as (fd & f1 & E & Hfd & Hc & Ho & Hl). fold c in Hc.
  unfold file_read, fs_do, fs_get, fs, mbind, M_bind. rewrite E, decide_True by done. simpl.
  destruct (yaffs_read fd nbyte f1) as [data f2] eqn:Er. pose proof (read_law _ _ _ _ nbyte _ Ho Hc) as [Hd Hc2].
  pose proof (live_read fd nbyte f1) as Hl2. rewrite Er in Hd, Hc2, Hl2. simpl in Hd, Hc2, Hl2. subst data.
  eexists. split; [|unfold log_content; rewrite close_law, flush_law, Hc2; split; [done|auto with yaffs]].
  unfold receive. rewrite drop_0, length_take.
  assert (take nbyte c = take (Nat.min nbyte (length c)) c) as <-; [|done].
  destruct (Nat.min_spec nbyte (length c)) as [[? ->]|[? ->]]; [done|by rewrite !take_ge by lia].
Qed.

Lemma fs_get_eval {A} (op : F -> A) s : fs_get op s = Some (op (fw_fs s), s).
Proof. by destruct s. Qed.
Lemma fs_do_eval (op : F -> F) s : fs_do op s = Some (tt, FileWr (op (fw_fs s)) (fw_trace s)).
Proof. done. Qed.

(** ** The contract *)

(** Without a log directory the file thread makes it and a blank log of 24
    zero bytes, and asks the main thread for the data to write (code 2). *)
Theorem first_boot rbuf s :
  length rbuf = 24%nat ->
  yaffs_is_running (fw_fs s) = true -> yaffs_opendir file_dir (fw_fs s) = false -> content file_name (fw_fs s) = None ->
  exists msg f', file_wr_start rbuf s = Some (Some msg, FileWr f' (fw_trace s ++ [ESend MainMq msg 4])) /\
    live f' /\ log_content f' = replicate 24 0 /\ val_arr msg 0 = Some 2.
Proof.
  intros Hr Hrun Hdir Hc. unfold file_wr_start.
  rewrite (bind_eval _ _ _ _ _ (fs_get_eval _ _)), Hrun. rewrite (bind_eval _ _ _ _ _ (fs_get_eval _ _)), Hdir. cbn [negb when].
  set (f1 := yaffs_mkdir file_dir (fw_fs s)).
  assert (live f1) as Hl1 by (split; [by apply running_law|apply mkdir_dir]).
  assert (log_content f1 = []) as Hc1 by (unfold log_content, f1; by rewrite mkdir_law, Hc).
  destruct (file_write_log (replicate 24 0) 24 0 (FileWr f1 (fw_trace s)) Hl1) as (f2 & E2 & Hc2 & Hl2).
  cbn [fw_fs fw_trace] in *. rewrite Hc1 in Hc2. change (splice 0 _ []) with (replicate 24 0) in Hc2.
  destruct (file_read_log rbuf 24 (FileWr f2 (fw_trace s)) Hl2) as (f3 & E3 & Hc3 & Hl3). cbn [fw_fs fw_trace] in *.
  unfold mbind, M_bind. rewrite fs_do_eval. fold f1. cbv beta iota. rewrite E2. cbv beta iota. unfold mret at 1, M_ret at 1. cbv beta iota.
  rewrite E3, Hc2. rewrite Hc2 in Hc3. eexists _, f3. split; [reflexivity|]. split; [done|]. split; [done|].
  rewrite val_arr_set; [done|]. rewrite length_receive; rewrite ?length_replicate; lia.
Qed.

Lemma start_live rbuf s : live (fw_fs s) -> length rbuf = 24%nat ->
  let c := log_content (fw_fs s) in
  let buf := receive c (Nat.min 24 (length c)) rbuf in
  exists v f', val_arr buf 0 = Some v /\ log_content f' = c /\ live f' /\
    file_wr_start rbuf s = Some (Some (set_val 0 (if decide (v = 0) then 2 else 3) buf),
      FileWr f' (fw_trace s ++ [ESend MainMq (set_val 0 (if decide (v = 0) then 2 else 3) buf) (if decide (v = 0) then 4 else 24)])).
Proof.
  intros Hl Hr c buf. destruct (file_read_log rbuf 24 s Hl) as (f1 & E1 & Hc1 & Hl1). fold c in E1, Hc1. fold buf in E1.
  assert (4 <= length buf)%nat as Hb by (unfold buf, receive; rewrite length_app, length_take, length_drop; lia).
  destruct (val_arr_total buf 0 ltac:(lia)) as (v & Ev & _). exists v, f1. split; [done|]. split; [done|]. split; [done|].
  unfold file_wr_start. destruct Hl as [Hrun Hdir].
  rewrite (bind_eval _ _ _ _ _ (fs_get_eval _ _)), Hrun. rewrite (bind_eval _ _ _ _ _ (fs_get_eval _ _)), Hdir. cbn [negb when].
  unfold mbind, M_bind. unfold mret at 1, M_ret at 1. cbv beta iota. rewrite E1. cbv beta iota. rewrite decide_False by lia.
  unfold send_file_msg, deref, mbind, M_bind. rewrite Ev. by case_decide.
Qed.

(** The two messages of the main thread. *)
Lemma step_info rbuf s : live (fw_fs s) -> (12 <= length rbuf)%nat -> val_arr rbuf 0 = Some 1 ->
  exists f', file_wr_step rbuf s = Some (set_val 0 3 rbuf, FileWr f' (fw_trace s)) /\
    log_content f' = splice 0 (take 12 (set_val 0 3 rbuf)) (log_content (fw_fs s)) /\ live f'.
Proof.
  intros Hl Hr E. destruct (file_write_log (set_val 0 3 rbuf) 12 0 s Hl) as (f' & Ew & Hc & Hl'). exists f'. split; [|done].
  unfold file_wr_step, deref, mbind, M_bind. rewrite E. by rewrite Ew.
Qed.

Lemma step_date rbuf s : live (fw_fs s) -> val_arr rbuf 0 = Some 2 ->
  exists f', file_wr_step rbuf s = Some (rbuf, FileWr f' (fw_trace s)) /\
    log_content f' = splice 12 (take 12 (drop 4 rbuf)) (log_content (fw_fs s)) /\ live f'.
Proof.
  intros Hl E. destruct (file_write_log (drop 4 rbuf) 12 12 s Hl) as (f' & Ew & Hc & Hl'). exists f'. split; [|done].
  unfold file_wr_step, deref, mbind, M_bind. rewrite E. by rewrite Ew.
Qed.

(** What is logged is what the next start sends. *)
Lemma log_restart r1 r2 rbuf s t q y m d :
  live (fw_fs s) -> length r1 = 24%nat -> length r2 = 24%nat -> length rbuf = 24%nat ->
  val_arr r1 0 = Some 1 -> val_arr r1 1 = Some t -> val_arr r1 2 = Some q ->
  val_arr r2 0 = Some 2 -> val_arr r2 1 = Some y -> val_arr r2 2 = Some m -> val_arr r2 3 = Some d ->
  exists f1, file_wr_loop [r1; r2] s = Some (tt, FileWr f1 (fw_trace s)) /\ live f1 /\
  forall tr, exists msg f2, file_wr_start rbuf (FileWr f1 tr) = Some (Some msg, FileWr f2 (tr ++ [ESend MainMq msg 24])) /\
    length msg = 24%nat /\ map (val_arr msg) (seq 0 6) = map Some [3; t; q; y; m; d].
Proof.
  intros Hl Lr1 Lr2 Hr A0 A1 A2 B0 B1 B2 B3.
  destruct (step_info r1 s Hl) as (f1 & E1 & Hc1 & Hl1); [lia|done|].
  destruct (step_date r2 (FileWr f1 (fw_trace s)) Hl1 B0) as (f2 & E2 & Hc2 & Hl2).
  cbn [fw_fs fw_trace] in *. exists f2. split; [|split; [done|]].
  { cbn [file_wr_loop]. unfold mbind, M_bind. rewrite E1. cbv beta iota. rewrite E2. reflexivity. }
  set (A := take 12 (set_val 0 3 r1)) in Hc1. set (B := take 12 (drop 4 r2)) in Hc2.
  assert (length A = 12%nat) as LA by (unfold A; rewrite length_take, length_set_val; lia).
  assert (length B = 12%nat) as LB by (unfold B; rewrite length_take, length_drop; lia).
  rewrite Hc1, splice_front, splice_at in Hc2 by done.
  assert (24 <= length (log_content f2))%nat as L2 by (rewrite Hc2, !length_app; lia).
  intros tr. destruct (start_live rbuf (FileWr f2 tr)) as (v & f3 & Ev & _ & _ & E3); [done|done|]. cbn [fw_fs fw_trace] in *.
  set (buf := receive _ _ _) in Ev, E3.
  assert (length buf = 24%nat) as Lb by (unfold buf; rewrite length_receive; lia).
  assert (forall i, (i < 3)%nat -> val_arr buf i = val_arr A i) as HA.
  { intros i Hi. unfold buf. rewrite val_arr_receive, Hc2 by lia. apply val_arr_app_l. lia. }
  assert (forall j, (j < 3)%nat -> val_arr buf (3 + j) = val_arr r2 (S j)) as HB.
  { intros j Hj. unfold buf. rewrite val_arr_receive, Hc2 by lia. rewrite (val_arr_app_r _ _ _ j) by lia.
    rewrite val_arr_app_l by lia. unfold B. by rewrite val_arr_take, (val_arr_drop 4 _ _ (S j)) by lia. }
  assert (val_arr A 0 = Some 3) as A0' by (unfold A; rewrite val_arr_take, val_arr_set by lia; done).
  assert (forall i, (0 < i < 3)%nat -> val_arr A i = val_arr r1 i) as HA'.
  { intros i Hi. unfold A. by rewrite val_arr_take, val_arr_set_ne by lia. }
  rewrite HA, A0' in Ev by lia. injection Ev as <-. rewrite decide_False in E3 by lia.
  eexists _, f3. split; [exact E3|]. split; [by rewrite length_set_val|]. cbn [seq map].
  rewrite val_arr_set, !val_arr_set_ne by lia.
  rewrite (HA 1%nat), (HA 2%nat), (HB 0%nat : _ -> val_arr buf 3 = _),
    (HB 1%nat : _ -> val_arr buf 4 = _), (HB 2%nat : _ -> val_arr buf 5 = _), !HA' by lia. by rewrite A1, A2, B1, B2, B3.
Qed.
End Log.

(** ** A file system in memory *)

(** Directories, files and open files; [openable] says which directory a file
    needs.  Descriptors are never used up. *)
Record flash := Flash { fl_dirs : gset string; fl_files : gmap string (list Z); fl_open : gmap Z (string * nat) }.

Definition flash_put (fd : Z) (bytes : list Z) (off : option nat) (f : flash) : flash :=
  match fl_open f !! fd with
  | Some (p, pos) =>
      Flash (fl_dirs f) (alter (splice (default pos off) bytes) p (fl_files f)) (fl_open f)
  | None => f
  end.

Definition flash_get (fd : Z) (n : nat) (off : option nat) (f : flash) : list Z :=
  match fl_open f !! fd with
  | Some (p, pos) => take n (drop (default pos off) (default [] (fl_files f !! p)))
  | None => []
  end.

#[export] Instance flash_yaffs : Yaffs flash := {
  yaffs_is_running _ := true;
  yaffs_opendir d f := bool_decide (d ∈ fl_dirs f);
  yaffs_mkdir d f := Flash ({[ d ]} ∪ fl_dirs f) (fl_files f) (fl_open f);
  yaffs_open p f :=
    if decide (file_dir ∈ fl_dirs f) then
      (3, Flash (fl_dirs f) (<[p := default [] (fl_files f !! p)]> (fl_files f)) (<[3 := (p, 0%nat)]> (fl_open f)))
    else (-1, f);
  yaffs_pwrite fd bytes off f := flash_put fd bytes (Some off) f;
  yaffs_write fd bytes f := flash_put fd bytes None f;
  yaffs_pread fd n off f := flash_get fd n (Some off) f;
  yaffs_read fd n f := (flash_get fd n None f, f);
  yaffs_flush _ f := f;
  yaffs_close fd f := Flash (fl_dirs f) (fl_files f) (delete fd (fl_open f))
}.

Lemma flash_put_dirs fd bytes off f : fl_dirs (flash_put fd bytes off f) = fl_dirs f.
Proof. unfold flash_put. by repeat case_match. Qed.

#[export] Instance flash_laws : YaffsLaws flash.
Proof.
  refine {| content p f := fl_files f !! p; opened fd f := fl_open f !! fd |}.
  - intros p f fd f'. simpl. case_decide; intros [= <- <-] Hfd; [|lia]. simpl. by simplify_map_eq.
  - intros fd p pos c bytes off f Ho Hc. simpl. unfold flash_put. rewrite Ho. simpl. by rewrite lookup_alter_eq, Hc.
  - intros fd p pos c bytes f Ho Hc. simpl. unfold flash_put. rewrite Ho. simpl. by rewrite lookup_alter_eq, Hc.
  - intros fd p pos c n off f Ho Hc. simpl. unfold flash_get. by rewrite Ho, Hc.
  - intros fd p pos c n f Ho Hc. simpl. unfold flash_get. by rewrite Ho, Hc.
  - done.
  - done.
  - done.
  - intros d f. simpl. apply bool_decide_eq_true. set_solver.
  - intros d f. simpl. rewrite bool_decide_eq_true. intros Hd. split_and!; intros; rewrite ?bool_decide_eq_true, ?flash_put_dirs; try done.
    by case_decide.
  - done.
Defined.

Lemma flash_open_ok f : live f -> 0 <= fst (yaffs_open file_name f).
Proof. intros [_ Hd]. simpl in *. rewrite bool_decide_eq_true in Hd. by rewrite decide_True. Qed.

Definition demo_flash : flash := Flash {[ file_dir ]} {[ file_name := replicate 24 0 ]} ∅.

Lemma first_boot_witness : exists msg f',
  file_wr_start (replicate 24 170) (FileWr (Flash ∅ ∅ ∅) []) = Some (Some msg, FileWr f' [ESend MainMq msg 4]) /\
  log_content f' = replicate 24 0 /\ val_arr msg 0 = Some 2.
Proof.
  destruct (first_boot flash_open_ok (replicate 24 170) (FileWr (Flash ∅ ∅ ∅) [])) as (msg & f' & E & _ & Hc & Hm); [done..|].
  exists msg, f'. split; [exact E|]. split; [exact Hc|exact Hm].
Defined.
