(* ===== verification/NbConn.v ===== *)
(** * NbConn: the NB-IoT thread

    nb_conn.c: the thread that talks to the NB-IoT module over a serial line: it
    asks for the signal strength and the time once, and publishes each measured
    resistor.

    - The AT commands are a parameter [at]: the real ones are in at_command.h,
      which is not in the repository; [placeholders] are those of nb_conn.c.
      Writing more bytes than a command has, its NUL included, is undefined.
    - [nb_replies] is what the reads of the serial line find, one after the
      other; a read gives at most the bytes it asks for.
    - [stack] is what the buffers on the stack hold before they are read into.
    - The queue was made for messages of 20 bytes, which [rt_mq_create] aligns to
      24; [nb_comm] receives 24 bytes into a buffer of 20.  [room] is how many
      bytes from the start of the buffer on may be written: 20 in C, and 24 where
      nothing else is in the four bytes behind it. *)

From Stdlib Require Import Ascii String.
From S2P Require Import Prelude Bytes AppMain Kservice.
#[local] Open Scope Z_scope.

(** ** Data *)

Record at_commands := AtCommands {
  at_csoc : list Z; at_csocon : list Z; at_csocl : list Z;
  at_cmqnew : list Z; at_cmqalicfg : list Z; at_cmqalicon : list Z; at_cmqdiscon : list Z
}.

Definition crlf : list Z := [13; 10].
Definition quoted (s : string) : list Z := 34 :: chars s ++ [34].

Definition placeholders : at_commands := {|
  at_csoc := chars "AT+CSOC=1,1,1" ++ crlf;
  at_csocon := chars "AT+CSOCON=0,{PORT}," ++ quoted "{IP ADDRESS}" ++ crlf;
  at_csocl := chars "AT+CSOCL=0" ++ crlf;
  at_cmqnew := chars "AT+CMQNEW=" ++ quoted "{ProductKey}.iot-as-mqtt.cn-shanghai.aliyuncs.com" ++ chars "," ++ quoted "1883"
    ++ chars ",12000,1024" ++ crlf;
  at_cmqalicfg := chars "AT+CMQALICFG=0," ++ quoted "{ProductKey}" ++ chars "," ++ quoted "{DeviceName}" ++ chars ","
    ++ quoted "{DeviceSecret}" ++ crlf;
  at_cmqalicon := chars "AT+CMQALICON=0,666,1" ++ crlf;
  at_cmqdiscon := chars "AT+CMQDISCON=0" ++ crlf
|}.

(** The command that is changed for each message. *)
Definition placeholder_cmqpub : list Z :=
  chars "AT+CMQPUB=0," ++ quoted "/sys/{ProductKey}/{DeviceName}/thing/event/property/post" ++ chars ",1,0,0,103,"
  ++ quoted "{JSON String}" ++ crlf.

Inductive nb_effect :=
| NWrite (bytes : list Z)     (* rt_device_write *)
| NDo (e : effect).           (* rt_thread_delay, rt_mq_send *)

(** The static [flag] of [nb_send_v_q], the bytes of [at_cmqpub], the replies to come. *)
Record nb := Nb { nb_flag : Z; nb_cmqpub : list Z; nb_replies : list (list Z); nb_trace : list nb_effect }.

Abbreviation NM := (M nb).

Definition nb_do (e : nb_effect) : NM unit :=
  modify (fun s => Nb (nb_flag s) (nb_cmqpub s) (nb_replies s) (nb_trace s ++ [e])).
Definition set_flag (n : Z) : NM unit :=
  modify (fun s => Nb n (nb_cmqpub s) (nb_replies s) (nb_trace s)).

(** [rt_device_write(s, 0, str, n)] *)
Definition nb_write (str : list Z) (n : nat) : NM unit :=
  if decide (n <= S (length str))%nat then nb_do (NWrite (take n (str ++ [0]))) else undefined.

(** [rt_device_read(s, -1, buf, n)]: the length and the buffer. *)
Definition nb_read (buf : list Z) (n : nat) : NM (nat * list Z) :=
  l ← gets nb_replies;
  modify (fun s => Nb (nb_flag s) (nb_cmqpub s) (tail (nb_replies s)) (nb_trace s));;
  let data := take n (default [] (head l)) in
  mret (length data, data ++ drop (length data) buf).

Definition nb_delay (ticks : Z) : NM unit := nb_do (NDo (EDelay ticks)).
Definition nb_send (b : list Z) (size : nat) : NM unit := nb_do (NDo (ESend MainMq b size)).

(** ** The code *)

Definition parse_ok (s : list Z) (l : nat) : bool :=
  bool_decide (4 <= l)%nat && bool_decide (s !! (l - 1)%nat = Some 10) && bool_decide (s !! (l - 2)%nat = Some 13) &&
  bool_decide (s !! (l - 3)%nat = Some 75) && bool_decide (s !! (l - 4)%nat = Some 79).

Section NbConn.
Context (at_ : at_commands) (stack : nat -> list Z).

Definition nb_init : NM Z :=
  nb_write (chars "AT" ++ crlf) 4;;
  nb_delay 100;;
  '(len, buf) ← nb_read (stack 20) 16;
  if negb (parse_ok buf len) then mret (-1)
  else
    nb_write (chars "ATE0" ++ crlf) 6;;
    nb_delay 100;;
    '(len, buf) ← nb_read buf 16;
    if negb (parse_ok buf len) then mret (-1) else mret 0.

(** [mqbuf->asc_str[j] = buf[i]] *)
Definition copy_char (buf : list Z) (i j : nat) (mqbuf : list Z) : NM (list Z) :=
  c ← deref (fun _ => buf !! i); mret (set_asc j c mqbuf).

Definition nb_get_csq (mqbuf : list Z) : NM (Z * list Z) :=
  let mqbuf := set_val 0 4 mqbuf in
  nb_write (chars "AT+CSQ" ++ crlf) 8;;
  nb_delay 100;;
  '(len, buf) ← nb_read (stack 40) 20;
  if negb (parse_ok buf len) then mret (-1, mqbuf)
  else
    mqbuf ← copy_char buf 8 4 mqbuf;
    mqbuf ← copy_char buf 9 5 mqbuf;
    nb_send mqbuf 6;;
    mret (0, mqbuf).

Definition nb_get_time (mqbuf : list Z) : NM (Z * list Z) :=
  let mqbuf := set_val 0 5 mqbuf in
  nb_write (at_csoc at_) 15;;
  nb_delay 100;;
  '(len, buf) ← nb_read (stack 60) 20;
  if negb (parse_ok buf len) then mret (-1, mqbuf)
  else
    nb_write (at_csocon at_) 33;;
    nb_delay 1800;;
    '(len, buf) ← nb_read buf 50;
    if decide (len <> 48%nat) then mret (-1, mqbuf)
    else
      mqbuf ← copy_char buf 23 4 mqbuf;
      mqbuf ← copy_char buf 25 5 mqbuf;
      mqbuf ← copy_char buf 27 6 mqbuf;
      mqbuf ← copy_char buf 29 7 mqbuf;
      mqbuf ← copy_char buf 31 8 mqbuf;
      mqbuf ← copy_char buf 33 9 mqbuf;
      mqbuf ← copy_char buf 35 10 mqbuf;
      mqbuf ← copy_char buf 37 11 mqbuf;
      nb_write (at_csocl at_) 12;;
      nb_send mqbuf 12;;
      mret (0, mqbuf).

(** Send a command, wait, and check the reply: the buffer, and whether it is OK. *)
Definition nb_command (str : list Z) (n : nat) (ticks : Z) (buf : list Z) (size : nat) : NM (bool * list Z) :=
  nb_write str n;;
  nb_delay ticks;;
  '(len, buf) ← nb_read buf size;
  mret (parse_ok buf len, buf).

(** [nb_send_v_q] without a connection: none if it has returned -1. *)
Definition nb_connect : NM (option (list Z)) :=
  nb_write (at_cmqdiscon at_) 16;;
  '(ok, buf) ← nb_command (at_cmqnew at_) 80 2000 (stack 60) 40;
  if negb ok then mret None
  else
    '(ok, buf) ← nb_command (at_cmqalicfg at_) 73 1000 buf 40;
    if negb ok then mret None
    else
      '(ok, buf) ← nb_command (at_cmqalicon at_) 22 1000 buf 40;
      if negb ok then mret None
      else set_flag 1;; mret (Some buf).

(** [nb_send_v_q] with a connection. *)
Definition nb_publish (buf : list Z) : NM Z :=
  '(_, buf) ← nb_command (chars "AT" ++ crlf) 4 100 buf 16;
  cmqpub ← gets nb_cmqpub;
  '(ok, buf) ← nb_command cmqpub 199 2000 buf 60;
  if negb ok then set_flag 0;; mret (-1)
  else set_flag 1;; mret 0.

Definition nb_send_v_q : NM Z :=
  flag ← gets nb_flag;
  connected ← (if decide (flag = 0) then nb_connect else mret (Some (stack 60)));
  match connected with None => mret (-1) | Some buf => nb_publish buf end.

(** [a[i] = r->asc_str[j]] *)
Definition set_cmd (r : list Z) (i j : nat) : NM unit :=
  c ← deref (fun _ => r !! j);
  a ← gets nb_cmqpub;
  if decide (i < length a)%nat
  then modify (fun s => Nb (nb_flag s) (<[i := c]> (nb_cmqpub s)) (nb_replies s) (nb_trace s))
  else undefined.

(** [set_at_cmd(at_cmqpub, r)] *)
Definition set_at_cmd (r : list Z) : NM unit :=
  set_cmd r 84 9;;
  set_cmd r 85 10;;
  set_cmd r 86 11;;
  set_cmd r 128 4;;
  set_cmd r 130 5;;
  set_cmd r 131 6;;
  set_cmd r 132 7;;
  set_cmd r 140 8;;
  set_cmd r 149 12;;
  set_cmd r 151 13;;
  set_cmd r 152 14;;
  set_cmd r 153 15.

Definition send_nb_conn_msg (r : list Z) : NM (list Z) :=
  let r := set_val 0 8 r in nb_send r 4;; mret r.

(** The body of the loop of [nb_comm] after a message has been received. *)
Definition nb_comm_step (mqbuf : list Z) : NM (list Z) :=
  code ← deref (fun _ => val_arr mqbuf 0);
  match code with
  | 1 =>
      set_at_cmd mqbuf;;
      ret ← nb_send_v_q;
      if decide (ret = 0) then send_nb_conn_msg mqbuf else mret mqbuf
  | _ => mret mqbuf
  end.

(** [nb_comm] before its loop, the device being there and open. *)
Definition nb_comm_start : NM unit :=
  _ ← nb_init;
  '(_, mqbuf) ← nb_get_csq (stack 20);
  _ ← nb_get_time mqbuf;
  mret tt.

(** [rt_mq_recv(nbiot_mq, &mqbuf.val_arr, 24, RT_WAITING_FOREVER)]: [msg] is the
    entry of the queue, and [mqbuf] what the 20 bytes of the buffer hold then. *)
Definition NB_MSG_SIZE : nat := Z.to_nat (RT_ALIGN 20 8).
Definition nb_recv (room : nat) (msg : list Z) : NM (list Z) :=
  if decide (24 `min` NB_MSG_SIZE <= room)%nat then mret (take 20 msg) else undefined.

(** The loop on the messages that arrive. *)
Fixpoint nb_comm_loop (room : nat) (msgs : list (list Z)) : NM unit :=
  match msgs with
  | [] => mret tt
  | msg :: msgs => mqbuf ← nb_recv room msg; _ ← nb_comm_step mqbuf; nb_comm_loop room msgs
  end.
End NbConn.

(** ** Replies *)

Definition ok_crlf : list Z := [79; 75; 13; 10].

(** What [parse_ok] accepts of a read of [n] bytes: text that ends with OK CR LF. *)
Definition accepted (n : nat) (reply : list Z) : bool := bool_decide (suffix ok_crlf (take n reply)).

Lemma parse_ok_suffix data rest : parse_ok (data ++ rest) (length data) = bool_decide (suffix ok_crlf data).
Proof.
  unfold parse_ok. apply eq_true_iff_eq. rewrite !andb_true_iff, !bool_decide_eq_true. split.
  - intros ((((Hl & H1) & H2) & H3) & H4). rewrite !lookup_app_l in H1, H2, H3, H4 by lia.
    exists (take (length data - 4) data).
    rewrite <- (take_drop (length data - 4) data) at 1. f_equal.
    apply list_eq. intros i. rewrite lookup_drop.
    destruct (decide (i < 4)%nat) as [Hi|Hi]; [|rewrite !lookup_ge_None_2; [done|simpl; lia|lia]].
    assert (i = 0 \/ i = 1 \/ i = 2 \/ i = 3)%nat as [-> | [-> | [-> | ->]]] by lia; simpl;
      [rewrite <- H4|rewrite <- H3|rewrite <- H2|rewrite <- H1]; f_equal; lia.
  - intros [p ->]. rewrite length_app, <- app_assoc. change (length ok_crlf) with 4%nat. split_and!; [lia|..]; rewrite lookup_app_r by lia.
    + by replace (length p + 4 - 1 - length p)%nat with 3%nat by lia.
    + by replace (length p + 4 - 2 - length p)%nat with 2%nat by lia.
    + by replace (length p + 4 - 3 - length p)%nat with 1%nat by lia.
    + by replace (length p + 4 - 4 - length p)%nat with 0%nat by lia.
Qed.

Definition reply (i : nat) (s : nb) : list Z := default [] (nb_replies s !! i).

Lemma nb_read_eval buf n s : nb_read buf n s =
  Some ((length (take n (reply 0 s)), take n (reply 0 s) ++ drop (length (take n (reply 0 s))) buf),
    Nb (nb_flag s) (nb_cmqpub s) (tail (nb_replies s)) (nb_trace s)).
Proof. unfold reply. by destruct s as [f p [|r l] tr]. Qed.

(** The bytes of a command. *)
Definition command (str : list Z) (n : nat) : list Z := take n (str ++ [0]).

Lemma nb_command_eval str n ticks buf size s : (n <= S (length str))%nat ->
  exists buf', nb_command str n ticks buf size s =
    Some ((accepted size (reply 0 s), buf'),
      Nb (nb_flag s) (nb_cmqpub s) (tail (nb_replies s)) (nb_trace s ++ [NWrite (command str n); NDo (EDelay ticks)])).
Proof.
  intros Hn. eexists. unfold nb_command.
  rewrite (bind_eval _ _ s tt (Nb (nb_flag s) (nb_cmqpub s) (nb_replies s) (nb_trace s ++ [NWrite (command str n)])))
    by (unfold nb_write; by rewrite decide_True).
  erewrite bind_eval by reflexivity. rewrite (bind_eval _ _ _ _ _ (nb_read_eval _ _ _)).
  cbn [nb_flag nb_cmqpub nb_replies nb_trace]. unfold mret, M_ret, reply. cbn [nb_replies].
  rewrite parse_ok_suffix, <- app_assoc. reflexivity.
Qed.

(** ** Publishing *)

(** The commands are long enough for what is written of them. *)
Record at_fits (c : at_commands) : Prop := AtFits {
  fits_csoc : (15 <= S (length (at_csoc c)))%nat;
  fits_csocon : (33 <= S (length (at_csocon c)))%nat;
  fits_csocl : (12 <= S (length (at_csocl c)))%nat;
  fits_cmqdiscon : (16 <= S (length (at_cmqdiscon c)))%nat;
  fits_cmqnew : (80 <= S (length (at_cmqnew c)))%nat;
  fits_cmqalicfg : (73 <= S (length (at_cmqalicfg c)))%nat;
  fits_cmqalicon : (22 <= S (length (at_cmqalicon c)))%nat
}.

(** What is written to the module. *)
Definition written (tr : list nb_effect) : list (list Z) := omap (fun e => match e with NWrite b => Some b | _ => None end) tr.
(** What is sent to the main thread. *)
Definition told (tr : list nb_effect) : list effect :=
  omap (fun e => match e with NDo (ESend q b n) => Some (ESend q b n) | _ => None end) tr.

Section Publish.
Context (at_ : at_commands) (stack : nat -> list Z) (Hfits : at_fits at_).

Definition at_test : list Z := command (chars "AT" ++ crlf) 4.

(** The dialogue for one message, [rs] being the replies: the commands, and
    whether the message has been published. *)
Definition dialogue (connected : bool) (pub : list Z) (rs : nat -> list Z) : list (list Z) * bool :=
  let publish k := ([at_test; command pub 199], accepted 60 (rs (S k))) in
  if connected then publish 0%nat
  else
    let '(cs, ok) :=
      if accepted 40 (rs 0%nat) then
        if accepted 40 (rs 1%nat) then
          if accepted 40 (rs 2%nat) then publish 3%nat else ([], false)
        else ([], false)
      else ([], false) in
    ([command (at_cmqdiscon at_) 16; command (at_cmqnew at_) 80] ++
     (if accepted 40 (rs 0%nat) then [command (at_cmqalicfg at_) 73] else []) ++
     (if accepted 40 (rs 0%nat) && accepted 40 (rs 1%nat) then [command (at_cmqalicon at_) 22] else []) ++ cs, ok).

Lemma reply_tail i s tr : reply i (Nb (nb_flag s) (nb_cmqpub s) (tail (nb_replies s)) tr) = reply (S i) s.
Proof. unfold reply. simpl. by destruct (nb_replies s) as [|? [|? ?]], i. Qed.

Lemma reply_drop i k s f p tr : reply i (Nb f p (drop k (nb_replies s)) tr) = reply (k + i) s.
Proof. unfold reply. simpl. by rewrite lookup_drop. Qed.

Lemma tail_drop {A} (l : list A) k : tail (drop k l) = drop (S k) l.
Proof. revert l. induction k as [|k IH]; intros [|x l]; try done. apply (IH l). Qed.

(** A command after [k] replies have been read. *)
Lemma command_step {B} str n ticks buf size f p s k tr (c : bool * list Z -> NM B) : (n <= S (length str))%nat ->
  exists buf', ('(ok, buf) ← nb_command str n ticks buf size; c (ok, buf)) (Nb f p (drop k (nb_replies s)) tr) =
    c (accepted size (reply k s), buf') (Nb f p (drop (S k) (nb_replies s)) (tr ++ [NWrite (command str n); NDo (EDelay ticks)])).
Proof.
  intros Hn. destruct (nb_command_eval str n ticks buf size (Nb f p (drop k (nb_replies s)) tr) Hn) as (buf' & E).
  exists buf'. rewrite (bind_eval _ _ _ _ _ E). cbn [nb_flag nb_cmqpub nb_replies nb_trace].
  by rewrite reply_drop, Nat.add_0_r, tail_drop.
Qed.

(** Run the first command of a computation that has read [k] replies of [s]. *)
Ltac command_step s H := match goal with
  | |- context [mbind ?c (nb_command ?str ?n ?ticks ?buf ?size) (Nb ?f ?p (drop ?k (nb_replies s)) ?tr)] =>
    let b := fresh "buf" in let E := fresh "E" in
    destruct (command_step str n ticks buf size f p s k tr c H) as (b & E); rewrite E; clear E
  end.

Lemma nb_publish_eval buf f s k tr : (199 <= S (length (nb_cmqpub s)))%nat ->
  let ok := accepted 60 (reply (S k) s) in
  nb_publish buf (Nb f (nb_cmqpub s) (drop k (nb_replies s)) tr) =
    Some (if ok then 0 else -1, Nb (if ok then 1 else 0) (nb_cmqpub s) (drop (2 + k) (nb_replies s))
      (tr ++ [NWrite at_test; NDo (EDelay 100); NWrite (command (nb_cmqpub s) 199); NDo (EDelay 2000)])).
Proof.
  intros Hp ok. unfold nb_publish.
  assert (4 <= S (length (chars "AT" ++ crlf)))%nat as H4 by (simpl; lia).
  command_step s H4. erewrite bind_eval by reflexivity. cbn [nb_cmqpub].
  command_step s Hp. fold ok. rewrite <- app_assoc. by destruct ok.
Qed.

Lemma nb_connect_eval s : nb_flag s = 0 ->
  let a i := accepted 40 (reply i s) in
  exists b k tr, nb_connect at_ stack s =
      Some (if a 0%nat && a 1%nat && a 2%nat then Some b else None,
        Nb (if a 0%nat && a 1%nat && a 2%nat then 1 else 0) (nb_cmqpub s) (drop k (nb_replies s)) (nb_trace s ++ tr)) /\
    (a 0%nat && a 1%nat && a 2%nat = true -> k = 3%nat) /\ told tr = [] /\
    written tr = [command (at_cmqdiscon at_) 16; command (at_cmqnew at_) 80] ++
     (if a 0%nat then [command (at_cmqalicfg at_) 73] else []) ++
     (if a 0%nat && a 1%nat then [command (at_cmqalicon at_) 22] else []).
Proof.
  intros Hf a. destruct Hfits as [_ _ _ H1 H2 H3 H4]. unfold nb_connect.
  set (d := command (at_cmqdiscon at_) 16). set (new := command (at_cmqnew at_) 80).
  set (cfg := command (at_cmqalicfg at_) 73). set (con := command (at_cmqalicon at_) 22).
  rewrite (bind_eval _ _ s tt (Nb 0 (nb_cmqpub s) (drop 0 (nb_replies s)) (nb_trace s ++ [NWrite d])))
    by (unfold nb_write; rewrite decide_True by done; destruct s; simpl in Hf; by subst).
  command_step s H2. fold (a 0%nat).
  destruct (a 0%nat); [|eexists [], _, _; split; [rewrite <- !app_assoc; reflexivity|done]].
  cbn [negb]. command_step s H3. fold (a 1%nat).
  destruct (a 1%nat); [|eexists [], _, _; split; [rewrite <- !app_assoc; reflexivity|done]].
  cbn [negb]. command_step s H4. fold (a 2%nat).
  destruct (a 2%nat); [|eexists [], _, _; split; [rewrite <- !app_assoc; reflexivity|done]].
  eexists _, 3%nat, _; split; [rewrite <- !app_assoc; reflexivity|done].
Qed.

Lemma nb_send_v_q_dialogue s : nb_flag s = 0 \/ nb_flag s = 1 -> (199 <= S (length (nb_cmqpub s)))%nat ->
  let '(cs, ok) := dialogue (bool_decide (nb_flag s = 1)) (nb_cmqpub s) (fun i => reply i s) in
  exists rs tr, nb_send_v_q at_ stack s =
      Some (if ok then 0 else -1, Nb (if ok then 1 else 0) (nb_cmqpub s) rs (nb_trace s ++ tr)) /\
    written tr = cs /\ told tr = [].
Proof.
  intros Hf Hp. unfold nb_send_v_q. erewrite bind_eval by reflexivity. destruct Hf as [Hf|Hf]; rewrite Hf.
  - rewrite bool_decide_false, decide_True by done.
    destruct (nb_connect_eval s Hf) as (b & k & tr & E & Hk & Ht & Hw). rewrite (bind_eval _ _ _ _ _ E). unfold dialogue.
    destruct (accepted 40 (reply 0 s)), (accepted 40 (reply 1 s)), (accepted 40 (reply 2 s)); cbn [andb] in *;
      try (eexists _, tr; split; [reflexivity|]; by rewrite Hw).
    rewrite (Hk eq_refl), nb_publish_eval by done. cbv zeta. eexists _, _. split; [rewrite <- app_assoc; reflexivity|].
    unfold written, told in *. by rewrite !omap_app, Hw, Ht.
  - rewrite bool_decide_true, decide_False by done. erewrite bind_eval by reflexivity.
    pose proof (nb_publish_eval (stack 60) 1 s 0 (nb_trace s) Hp) as E. cbv zeta in E.
    assert (Nb 1 (nb_cmqpub s) (drop 0 (nb_replies s)) (nb_trace s) = s) as Es by (destruct s; simpl in Hf; by subst).
    rewrite Es in E. cbv beta iota. rewrite E. unfold dialogue. by eexists _, _.
Qed.

(** *** The command of a message *)

(** Where the characters of the message go. *)
Definition fields : list (nat * nat) :=
  [(84, 9); (85, 10); (86, 11); (128, 4); (130, 5); (131, 6); (132, 7); (140, 8); (149, 12); (151, 13); (152, 14); (153, 15)]%nat.

Definition fill (r : list Z) (a : list Z) : list Z :=
  foldl (fun a ij => <[fst ij := default 0 (r !! snd ij)]> a) a fields.

Lemma set_cmd_eval r i j s : (i < length (nb_cmqpub s))%nat -> (j < length r)%nat ->
  set_cmd r i j s = Some (tt, Nb (nb_flag s) (<[i := default 0 (r !! j)]> (nb_cmqpub s)) (nb_replies s) (nb_trace s)).
Proof.
  intros Hi Hj. destruct (lookup_lt_is_Some_2 r j Hj) as [c E]. unfold set_cmd.
  rewrite (bind_eval _ _ s c s) by (unfold deref; by rewrite E). erewrite bind_eval by reflexivity. by rewrite decide_True, E.
Qed.

Lemma set_at_cmd_eval r s : (154 <= length (nb_cmqpub s))%nat -> (16 <= length r)%nat ->
  set_at_cmd r s = Some (tt, Nb (nb_flag s) (fill r (nb_cmqpub s)) (nb_replies s) (nb_trace s)).
Proof.
  intros Ha Hr. unfold set_at_cmd.
  do 11 (erewrite bind_eval by (apply set_cmd_eval; cbn [nb_cmqpub]; rewrite ?length_insert; lia); cbn [nb_flag nb_cmqpub nb_replies nb_trace]).
  rewrite set_cmd_eval by (cbn [nb_cmqpub]; rewrite ?length_insert; lia). reflexivity.
Qed.

Lemma length_fill r a : length (fill r a) = length a.
Proof. unfold fill, fields. simpl. by rewrite !length_insert. Qed.

(** A message to publish: the commands, the flag, and the acknowledgement. *)
Lemma publish_step mqbuf s :
  val_arr mqbuf 0 = Some 1 -> (16 <= length mqbuf)%nat -> nb_flag s = 0 \/ nb_flag s = 1 ->
  (199 <= S (length (nb_cmqpub s)))%nat ->
  let '(cs, ok) := dialogue (bool_decide (nb_flag s = 1)) (fill mqbuf (nb_cmqpub s)) (fun i => reply i s) in
  exists r s' tr, nb_comm_step at_ stack mqbuf s = Some (r, s') /\ nb_trace s' = nb_trace s ++ tr /\
    nb_cmqpub s' = fill mqbuf (nb_cmqpub s) /\ nb_flag s' = (if ok then 1 else 0) /\
    written tr = cs /\ told tr = (if ok then [ESend MainMq (set_val 0 8 mqbuf) 4] else []).
Proof.
  intros E0 Hr Hf Hp. set (s1 := Nb (nb_flag s) (fill mqbuf (nb_cmqpub s)) (nb_replies s) (nb_trace s)).
  pose proof (nb_send_v_q_dialogue s1 Hf) as H. cbn [nb_flag nb_cmqpub s1] in H. rewrite length_fill in H. specialize (H Hp).
  change (fun i => reply i s1) with (fun i => reply i s) in H. destruct (dialogue _ _ _) as [cs ok].
  destruct H as (rs & tr & E & Hw & Ht). unfold nb_comm_step.
  rewrite (bind_eval _ _ s 1 s) by (unfold deref; by rewrite E0).
  erewrite bind_eval by (apply set_at_cmd_eval; lia). fold s1. rewrite (bind_eval _ _ _ _ _ E). destruct ok.
  - rewrite decide_True by done. eexists _, _, _. split; [reflexivity|]. cbn [nb_trace nb_cmqpub nb_flag].
    split; [by rewrite <- app_assoc|]. split; [done|]. split; [done|]. unfold written, told in *.
    rewrite !omap_app, Hw, Ht. by rewrite app_nil_r.
  - rewrite decide_False by done. eexists _, _, tr. split; [reflexivity|]. done.
Qed.

(** Messages with another code change nothing. *)
Lemma other_step mqbuf s code : val_arr mqbuf 0 = Some code -> code <> 1 -> nb_comm_step at_ stack mqbuf s = Some (mqbuf, s).
Proof.
  intros E Hc. unfold nb_comm_step. rewrite (bind_eval _ _ s code s) by (unfold deref; by rewrite E).
  destruct code as [|[p|p|]|]; done.
Qed.

(** The messages that ask for a publication. *)
Definition is_publication (b : list Z) : Prop := val_arr b 0 = Some 1.
#[export] Instance is_publication_dec b : Decision (is_publication b).
Proof. unfold is_publication. apply _. Defined.

Lemma nb_recv_room room msg s : (24 <= room)%nat -> nb_recv room msg s = Some (take 20 msg, s).
Proof. intros H. unfold nb_recv. by rewrite decide_True. Qed.

Lemma nb_recv_overrun room msg s : (room < 24)%nat -> nb_recv room msg s = None.
Proof. intros H. unfold nb_recv. change (24 `min` NB_MSG_SIZE)%nat with 24%nat. by rewrite decide_False by lia. Qed.

Lemma any_step b s : length b = 20%nat -> nb_flag s = 0 \/ nb_flag s = 1 -> (199 <= S (length (nb_cmqpub s)))%nat ->
  exists r s1 tr1, nb_comm_step at_ stack b s = Some (r, s1) /\ nb_trace s1 = nb_trace s ++ tr1 /\
    (nb_flag s1 = 0 \/ nb_flag s1 = 1) /\ length (nb_cmqpub s1) = length (nb_cmqpub s) /\
    Forall (fun e => exists b, e = ESend MainMq b 4 /\ val_arr b 0 = Some 8) (told tr1) /\
    (length (told tr1) <= if decide (is_publication b) then 1 else 0)%nat.
Proof.
  intros Hb Hf Hp. destruct (val_arr_total b 0 ltac:(lia)) as (code & Ec & _). destruct (decide (is_publication b)) as [H1|H1].
  - pose proof (publish_step b s H1 ltac:(lia) Hf Hp) as H. destruct (dialogue _ _ _) as [cs ok].
    destruct H as (r & s1 & tr1 & E & T & P & F & _ & O). exists r, s1, tr1. split; [done|]. split; [done|].
    split; [rewrite F; destruct ok; tauto|]. split; [by rewrite P, length_fill|]. rewrite O. destruct ok; [|split; [done|simpl; lia]].
    split; [|simpl; lia]. repeat constructor. eexists. split; [done|]. rewrite val_arr_set by lia. done.
  - exists b, s, []. rewrite app_nil_r. split; [|done]. apply (other_step b s code Ec). intros ->. done.
Qed.

(** C7: With commands that are long enough (the publish command has 198 bytes or
    more) the NB-IoT thread handles every sequence of queue entries and replies
    without an undefined step, if the four bytes behind its receive buffer are
    free: it asks for 24 bytes, which is what an entry has, and its buffer has
    20, so that without them the first message, whatever it holds, is written
    over its end. Its connection flag stays 0 or 1, the command keeps its
    length, and the main thread is told of at most one publication for each
    message that asks for one. *)
Theorem nb_comm_loop_runs room msgs : forall s,
  Forall (fun b => length b = NB_MSG_SIZE) msgs -> nb_flag s = 0 \/ nb_flag s = 1 -> (199 <= S (length (nb_cmqpub s)))%nat ->
  if decide ((room < 24)%nat /\ msgs <> []) then nb_comm_loop at_ stack room msgs s = None else
  exists s' tr, nb_comm_loop at_ stack room msgs s = Some (tt, s') /\ nb_trace s' = nb_trace s ++ tr /\
    (nb_flag s' = 0 \/ nb_flag s' = 1) /\ length (nb_cmqpub s') = length (nb_cmqpub s) /\
    Forall (fun e => exists b, e = ESend MainMq b 4 /\ val_arr b 0 = Some 8) (told tr) /\
    (length (told tr) <= length (filter is_publication msgs))%nat.
Proof.
  induction msgs as [|b msgs IH]; intros s Hl Hf Hp; [rewrite decide_False by tauto; by exists s, []; rewrite app_nil_r|].
  apply Forall_cons in Hl as [Hb Hl]. change NB_MSG_SIZE with 24%nat in Hb. destruct (decide ((room < 24)%nat /\ b :: msgs <> [])) as [Hroom|Hroom].
  { destruct Hroom as [Hroom _]. cbn [nb_comm_loop]. unfold mbind, M_bind. rewrite nb_recv_overrun by exact Hroom. reflexivity. }
  assert (24 <= room)%nat as Hr by (apply Nat.nlt_ge; intros ?; apply Hroom; by split).
  destruct (any_step (take 20 b) s) as (r & s1 & tr1 & E1 & T1 & F1 & P1 & O1 & N1); [rewrite length_take; lia|done|done|].
  pose proof (IH s1 Hl F1 ltac:(lia)) as H2. rewrite decide_False in H2 by lia. destruct H2 as (s2 & tr2 & E2 & T2 & F2 & P2 & O2 & N2).
  exists s2, (tr1 ++ tr2). split; [simpl; by rewrite (bind_eval _ _ _ _ _ (nb_recv_room room b s Hr)), (bind_eval _ _ _ _ _ E1)|].
  split; [by rewrite T2, T1, app_assoc|]. split; [done|]. split; [lia|]. unfold told in *. rewrite omap_app, length_app.
  split; [by apply Forall_app|]. rewrite filter_cons.
  assert (is_publication (take 20 b) <-> is_publication b) as Ht by (unfold is_publication; by rewrite val_arr_take by lia).
  rewrite (decide_ext _ _ _ _ Ht) in N1.
  repeat case_decide; simpl; (done || lia).
Qed.

Lemma set_cmd_short r i j s : (length (nb_cmqpub s) <= i)%nat -> set_cmd r i j s = None.
Proof.
  intros Hi. unfold set_cmd, deref, gets, mbind, M_bind. destruct (r !! j); [|done]. by rewrite decide_False by lia.
Qed.

(** C8: With the placeholder command of the repository, which has 98 bytes, the
    first measured resistor makes the NB-IoT thread write outside of it. *)
Theorem placeholder_is_overrun mqbuf s :
  nb_cmqpub s = placeholder_cmqpub -> val_arr mqbuf 0 = Some 1 -> (16 <= length mqbuf)%nat ->
  nb_comm_step at_ stack mqbuf s = None.
Proof.
  intros Hp E0 Hr. assert (length (nb_cmqpub s) = 98%nat) as Hl by by rewrite Hp.
  unfold nb_comm_step. rewrite (bind_eval _ _ s 1 s) by (unfold deref; by rewrite E0).
  assert (set_at_cmd mqbuf s = None) as E; [|unfold mbind, M_bind; by rewrite E].
  unfold set_at_cmd.
  do 3 (erewrite bind_eval by (apply set_cmd_eval; cbn [nb_cmqpub]; rewrite ?length_insert; lia); cbn [nb_flag nb_cmqpub nb_replies nb_trace]).
  unfold mbind, M_bind. rewrite set_cmd_short; [done|]. cbn [nb_cmqpub]. rewrite !length_insert. lia.
Qed.
End Publish.

(** ** The values that are published *)

(** The number that the characters at the places [ks] spell. *)
Definition decimal_at (b : list Z) (ks : list nat) : option Z :=
  foldl (fun acc j => v ← acc; c ← asc_str b j; if decide (48 <= c <= 57) then Some (10 * v + (c - 48)) else None)
    (Some 0) ks.

Lemma decimal_at_transfer b1 b2 ks js : Forall2 (fun i j => asc_str b1 i = asc_str b2 j) ks js ->
  decimal_at b1 ks = decimal_at b2 js.
Proof.
  unfold decimal_at. generalize (Some 0). intros acc H. revert acc. induction H as [|i j ks js E _ IH]; intros acc; [done|].
  simpl. rewrite E. apply IH.
Qed.

Lemma fill_field r a i j c : (154 <= length a)%nat -> (i, j) ∈ fields -> r !! j = Some c -> asc_str (fill r a) i = asc_str r j.
Proof.
  intros Ha Hin Hc. unfold asc_str. f_equal. rewrite Hc. unfold fields in Hin. rewrite !elem_of_cons in Hin.
  unfold fill, fields. simpl.
  repeat destruct Hin as [[= -> ->]|Hin]; try (repeat first [rewrite list_lookup_insert_eq by (rewrite ?length_insert; lia); by rewrite Hc
    | rewrite list_lookup_insert_ne by lia]). by apply elem_of_nil in Hin.
Qed.

Lemma fill_other r a i : i ∉ map fst fields -> fill r a !! i = a !! i.
Proof.
  unfold fields. simpl. rewrite !not_elem_of_cons. intros H. unfold fill, fields. simpl.
  rewrite !list_lookup_insert_ne by (destruct_and!; congruence). done.
Qed.

(** ** Signal strength and time *)

Section Requests.
Context (at_ : at_commands) (stack : nat -> list Z) (Hfits : at_fits at_) (stack_length : forall n, length (stack n) = n).

Lemma copy_char_eval buf i j mq c s : buf !! i = Some c -> copy_char buf i j mq s = Some (set_asc j c mq, s).
Proof. intros E. unfold copy_char, deref, mbind, M_bind. by rewrite E. Qed.

Lemma nb_write_eval str n s : (n <= S (length str))%nat ->
  nb_write str n s = Some (tt, Nb (nb_flag s) (nb_cmqpub s) (nb_replies s) (nb_trace s ++ [NWrite (command str n)])).
Proof. intros Hn. unfold nb_write. by rewrite decide_True. Qed.

(** A command, the delay and the read behind it, with [k] replies read before. *)
Lemma request_step {B} str n ticks buf size f p s k tr (c : nat * list Z -> NM B) : (n <= S (length str))%nat ->
  let data := take size (reply k s) in
  (nb_write str n;; nb_delay ticks;; x ← nb_read buf size; c x) (Nb f p (drop k (nb_replies s)) tr) =
    c (length data, data ++ drop (length data) buf)
      (Nb f p (drop (S k) (nb_replies s)) (tr ++ [NWrite (command str n); NDo (EDelay ticks)])).
Proof.
  intros Hn data. rewrite (bind_eval _ _ _ _ _ (nb_write_eval _ _ _ Hn)). erewrite bind_eval by reflexivity.
  rewrite (bind_eval _ _ _ _ _ (nb_read_eval _ _ _)). cbn [nb_flag nb_cmqpub nb_replies nb_trace].
  rewrite reply_drop, Nat.add_0_r, tail_drop, <- app_assoc. done.
Qed.

(** The characters of the server's answer that are the digits of the date. *)
Definition time_digits (mq : list Z) (answer : list Z) : Prop :=
  Forall2 (fun j i => asc_str mq j = asc_str answer i) (seq 4 8) [23; 25; 27; 29; 31; 33; 35; 37]%nat.

Lemma drop_0_state s : s = Nb (nb_flag s) (nb_cmqpub s) (drop 0 (nb_replies s)) (nb_trace s).
Proof. by destruct s. Qed.

Lemma time_request mqbuf s : length mqbuf = 20%nat ->
  let answer := take 50 (reply 1 s) in
  exists mq rs tr, length mq = 20%nat /\ val_arr mq 0 = Some 5 /\
    if decide (accepted 20 (reply 0 s) = true /\ length answer = 48%nat) then
      nb_get_time at_ stack mqbuf s = Some ((0, mq), Nb (nb_flag s) (nb_cmqpub s) rs (nb_trace s ++ tr)) /\
      told tr = [ESend MainMq mq 12] /\ time_digits mq answer
    else
      nb_get_time at_ stack mqbuf s = Some ((-1, mq), Nb (nb_flag s) (nb_cmqpub s) rs (nb_trace s ++ tr)) /\ told tr = [].
Proof.
  intros Hl answer. destruct Hfits as [H1 H2 H3 _ _ _ _].
  assert (forall mq, length mq = 20%nat -> val_arr (set_val 0 5 mq) 0 = Some 5) as H5 by (intros; rewrite val_arr_set by lia; done).
  rewrite (f_equal (nb_get_time at_ stack mqbuf) (drop_0_state s)).
  unfold nb_get_time. rewrite (request_step _ _ _ _ _ _ _ _ _ _ _ H1), parse_ok_suffix. fold (accepted 20 (reply 0 s)).
  destruct (accepted 20 (reply 0 s)); cbn [negb].
  2:{ eexists _, _, _. rewrite decide_False by (intros [? ?]; done).
      split; [|split; [by apply H5|split; [reflexivity|done]]]. by rewrite length_set_val. }
  rewrite (request_step _ _ _ _ _ _ _ _ _ _ _ H2). fold answer. cbv beta iota. destruct (decide (length answer = 48%nat)) as [H48|H48].
  2:{ rewrite decide_True by done. eexists _, _, _. rewrite decide_False by (intros [? ?]; done).
      split; [|split; [by apply H5|split; [rewrite <- app_assoc; reflexivity|done]]]. by rewrite length_set_val. }
  rewrite decide_False by tauto.
  assert (forall i, (i < 48)%nat -> (answer ++ drop (length answer) (take 20 (reply 0 s) ++ drop (length (take 20 (reply 0 s))) (stack 60))) !! i
    = Some (default 0 (answer !! i))) as Hc.
  { intros i Hi. rewrite lookup_app_l by lia. destruct (lookup_lt_is_Some_2 answer i) as [c Ec]; [lia|]. by rewrite Ec. }
  do 8 (erewrite bind_eval by (apply copy_char_eval, Hc; lia)).
  rewrite (bind_eval _ _ _ _ _ (nb_write_eval _ _ _ H3)). erewrite bind_eval by reflexivity.
  match goal with |- context [mret (0, ?m)] => set (mq := m) end.
  exists mq. eexists _, _. rewrite decide_True by done. split; [|split; [|split; [|split]]].
  - unfold mq. by rewrite !length_set_asc, length_set_val.
  - unfold mq. rewrite !val_arr_set_asc by lia. by apply H5.
  - cbn [nb_flag nb_cmqpub nb_replies nb_trace]. rewrite <- !app_assoc. reflexivity.
  - reflexivity.
  - assert (forall i, (i < 48)%nat -> asc_str answer i = Some (s8 (default 0 (answer !! i)))) as Ha.
    { intros i Hi. unfold asc_str. destruct (lookup_lt_is_Some_2 answer i) as [c Ec]; [lia|]. by rewrite Ec. }
    unfold time_digits, mq. simpl seq.
    repeat (apply Forall2_cons; split; [rewrite ?asc_set_ne by lia; rewrite asc_set, Ha; [done|lia|autorewrite with bytes; lia]|]).
    done.
Qed.
End Requests.

(** ** Examples *)

Definition demo_at : at_commands := AtCommands (replicate 15 67) (replicate 33 67) (replicate 12 67) (replicate 80 78)
  (replicate 73 70) (replicate 22 65) (replicate 16 68).

Lemma demo_at_fits : at_fits demo_at.
Proof. split; simpl; lia. Qed.

(** A module that says OK to everything. *)
Definition demo_nb : nb := Nb 0 (replicate 199 46) (replicate 12 ok_crlf) [].

Definition demo_publication : list Z := nb_message (replicate 20 170) (ResParas 1234 350 1) (TrStat 0 42 0).

Lemma nb_comm_loop_runs_witness : let msgs := [demo_publication ++ replicate 4 0; replicate 24 9; demo_publication ++ replicate 4 0] in
  (exists s' tr, nb_comm_loop demo_at (fun n => replicate n 170) 24 msgs demo_nb = Some (tt, s') /\ nb_trace s' = tr /\ (length (told tr) <= 2)%nat) /\
  nb_comm_loop demo_at (fun n => replicate n 170) 20 msgs demo_nb = None.
Proof.
  intros msgs. pose proof (fun room => nb_comm_loop_runs demo_at (fun n => replicate n 170) demo_at_fits room msgs demo_nb
    ltac:(by repeat constructor) ltac:(by left) ltac:(simpl; lia)) as H. split.
  - destruct (H 24%nat) as (s' & tr & E & T & _ & _ & _ & Hn). exists s', tr. split; [exact E|]. split; [exact T|]. exact Hn.
  - exact (H 20%nat).
Defined.

Lemma placeholder_is_overrun_witness :
  nb_comm_step placeholders (fun n => replicate n 170) demo_publication (Nb 0 placeholder_cmqpub [] []) = None.
Proof.
  apply (placeholder_is_overrun placeholders (fun n => replicate n 170) demo_publication); [done|by vm_compute|].
  unfold demo_publication, nb_message. rewrite !length_set_asc, length_set_val. simpl. lia.
Defined.
