(* ===== verification/System.v ===== *)
(** * System: the threads together

    What comes out of the composition of the main thread with the display, the
    log file and the NB-IoT thread.  The message queues between them promise
    [delivered]: the receiver's buffer starts with the bytes that were sent. *)

From Stdlib Require Import Ascii String.
From S2P Require Import Prelude Bytes AppMain AppProps Kservice Gui FileWr NbConn.
#[local] Open Scope Z_scope.

(** The messages to the queue [q] among the effects of the main thread. *)
Definition mq_name_eqb (p q : mq_name) : bool :=
  match p, q with MainMq, MainMq | OutputMq, OutputMq | FileMq, FileMq | NbMq, NbMq => true | _, _ => false end.

Definition messages (q : mq_name) (tr : list effect) : list (list Z * nat) :=
  omap (fun e => match e with ESend p b n => if mq_name_eqb p q then Some (b, n) else None | _ => None end) tr.

Lemma decimal_delivered b n r i k : delivered b n r -> (i + k <= n)%nat -> decimal r i k = decimal b i k.
Proof.
  intros Hd Hi. apply (decimal_at_transfer r b (seq i k) (seq i k)). apply Forall2_same_length_lookup_2; [done|].
  intros j x y Hx Hy. rewrite Hx in Hy. injection Hy as <-. apply lookup_seq in Hx as [-> Hj].
  apply (delivered_asc b n); [done|lia].
Qed.

Section System.
Context (sbuf0 : list Z) (beyond : option Z) (Hsbuf : length sbuf0 = 20%nat).
Context (stack : nat -> list Z) (stack_length : forall n, length (stack n) = n).

(** ** A measured resistor *)

(** The effects of a measurement: one message to the display, one to the NB-IoT thread. *)
Lemma single_trace_messages t a :
  messages OutputMq (single_trace sbuf0 t a) = [(data_message sbuf0 (single_res t a) (single_info t a), 20%nat)] /\
  messages NbMq (single_trace sbuf0 t a) = [(nb_message sbuf0 (single_res t a) (single_stat a), 16%nat)].
Proof. unfold single_trace. by destruct (decide (u8 (a_adc_measure_count a - 1) = 0)). Qed.

Lemma measured_small t a : app_ok a -> 0 <= t -> 0 <= measured t a <= 131070.
Proof.
  intros [_ _ _ [Ha _] _ _] Ht. unfold measured. set (x := if decide (t <= a_adc_sum a) then _ else _).
  pose proof (wrap_range 16 x ltac:(lia)) as Hx. unfold in_range in *. rewrite (wrap_small 32) by (unfold in_range; lia). lia.
Qed.

Lemma data_message_words r p : in_range 32 (v_measure r) -> in_range 32 (qualified r) ->
  in_range 32 (total p) -> in_range 32 (qualified_amount p) ->
  let m := data_message sbuf0 r p in
  val_arr m 0 = Some 1 /\ val_arr m 1 = Some (v_measure r) /\ val_arr m 2 = Some (qualified r) /\
  val_arr m 3 = Some (total p) /\ val_arr m 4 = Some (qualified_amount p).
Proof.
  intros H1 H2 H3 H4 m. unfold m, data_message. autorewrite with bytes. by rewrite !(wrap_small 32) by done.
Qed.

Lemma next_sample_nonneg a : app_ok a -> 0 <= next_sample a.
Proof.
  intros [_ _ _ [_ Ht] _ _]. unfold next_sample. destruct (a_samples a) as [|[v|] l]; simpl; [apply Ht|apply wrap_range; lia|apply Ht].
Qed.

(** C4: After a measurement the display thread draws, from the message of the
    main thread, four cells that read as the voltage, the verdict and the two
    counters; with a counter of a million or more the text does not fit the
    8-byte buffer and overruns it. *)
Theorem measured_resistor_is_displayed a g :
  app_ok a -> a_ctrl_flow a <> 0 -> visible g ->
  exists a' tr m, on_single sbuf0 a = Some (tt, a') /\ a_trace a' = a_trace a ++ tr /\ messages OutputMq tr = [(m, 20%nat)] /\
  forall rbuf, delivered m 20 rbuf ->
    if decide (cell_fits (total (a_info a')) /\ cell_fits (qualified_amount (a_info a'))) then
      exists cells, rt_flush_step stack rbuf g = Some (tt, with_cells cells g) /\
        omap seen cells = [(0, 1, v_measure (a_res a')); (2, 1, qualified (a_res a'));
          (0, 3, s32 (total (a_info a'))); (1, 3, s32 (qualified_amount (a_info a')))]
    else rt_flush_step stack rbuf g = None.
Proof.
  intros H Hf Hg. pose proof (on_single_eval sbuf0 a Hf) as E. destruct (on_single_ok sbuf0 a H) as (a2 & tr2 & E2 & H2 & _).
  pose proof (next_sample_nonneg a H) as Hs. set (t := next_sample a) in *. pose proof (measured_small t a H Hs) as Hv.
  eexists _, (single_trace sbuf0 t a), _. split; [exact E|]. split; [done|]. split; [apply single_trace_messages|].
  rewrite E in E2. injection E2 as <-. destruct H2 as [_ _ Hq _ [Hv2 _] (Ht2 & Hm2 & _)]. cbn [a_res a_info] in *.
  intros rbuf Hd. destruct (data_message_words (single_res t a) (single_info t a)) as (W0 & W1 & W2 & W3 & W4);
    [done|destruct Hq as [-> | ->]; done|done|done|].
  rewrite <- (delivered_val _ 20 rbuf) in W0, W1, W2, W3, W4 by (done || lia).
  destruct (flush_numbers stack stack_length rbuf g 1 _ _ _ _ Hg W0 ltac:(by left) W1 W2 W3 W4) as (tr' & Ef & Hs').
  assert (s32 (v_measure (single_res t a)) = v_measure (single_res t a)) as Es1 by (apply s32_small; simpl; lia).
  assert (s32 (qualified (single_res t a)) = qualified (single_res t a)) as Es2 by (apply s32_small; destruct Hq as [-> | ->]; lia).
  assert (cell_fits (v_measure (single_res t a)) /\ cell_fits (qualified (single_res t a))) as [Hc1 Hc2].
  { unfold cell_fits. rewrite Es1, Es2. split; [simpl; lia|destruct Hq as [-> | ->]; lia]. }
  assert (all_fit (cells_of 1 (v_measure (single_res t a)) (qualified (single_res t a)) (total (single_info t a)) (qualified_amount (single_info t a)))
    <-> cell_fits (total (single_info t a)) /\ cell_fits (qualified_amount (single_info t a))) as Hfit.
  { unfold all_fit, cells_of. rewrite !Forall_cons, Forall_nil. cbn [snd]. tauto. }
  rewrite (decide_ext _ _ _ _ Hfit) in Ef. case_decide; [|done].
  eexists. split; [exact Ef|]. rewrite omap_app, seen_cells, Hs', app_nil_r. cbn [cells_of map fst snd]. by rewrite Es1, Es2.
Qed.

(** *** Publishing it *)




(** ** The date of the server *)

Lemma decimal_at_bound b ks v : decimal_at b ks = Some v -> 0 <= v < 10 ^ Z.of_nat (length ks).
Proof.
  revert v. induction ks as [|k ks IH] using rev_ind; intros v; [by intros [= <-]|].
  unfold decimal_at in *. rewrite foldl_snoc, length_app. destruct (foldl _ _ ks) as [u|]; [|done]. specialize (IH u eq_refl). simpl.
  destruct (asc_str b k) as [c|]; [|done]. simpl. case_decide; [|done]. intros [= <-].
  replace (Z.of_nat (length ks + 1)) with (Z.succ (Z.of_nat (length ks))) by lia. rewrite Z.pow_succ_r by lia. lia.
Qed.

(** The digits in the message to the main thread. *)
Lemma time_decimal mq answer rb : time_digits mq answer -> delivered mq 12 rb ->
  decimal rb 4 4 = decimal_at answer [23; 25; 27; 29]%nat /\ decimal rb 8 2 = decimal_at answer [31; 33]%nat /\
  decimal rb 10 2 = decimal_at answer [35; 37]%nat.
Proof.
  intros Ht Hd. rewrite !(decimal_delivered mq 12 rb) by (done || lia).
  unfold time_digits in Ht. simpl seq in Ht.
  repeat match goal with H : Forall2 _ (_ :: _) (_ :: _) |- _ => apply Forall2_cons in H as [? H] end.
  split_and!; apply (decimal_at_transfer mq answer (seq _ _)); by repeat constructor.
Qed.

(** C6: The date that the server answers with reaches the display: if the first
    command is accepted and the answer has 48 characters, the digits at the odd
    places from 23 to 37 become the date of the main thread, and the display
    shows a text that reads as this date. *)
Theorem server_date_is_displayed at_ mqbuf s y mo d :
  at_fits at_ -> length mqbuf = 20%nat ->
  accepted 20 (reply 0 s) = true -> length (take 50 (reply 1 s)) = 48%nat ->
  decimal_at (take 50 (reply 1 s)) [23; 25; 27; 29]%nat = Some y ->
  decimal_at (take 50 (reply 1 s)) [31; 33]%nat = Some mo ->
  decimal_at (take 50 (reply 1 s)) [35; 37]%nat = Some d -> 1000 <= y ->
  exists mq s' tr, nb_get_time at_ stack mqbuf s = Some ((0, mq), s') /\ nb_trace s' = nb_trace s ++ tr /\
    told tr = [ESend MainMq mq 12] /\
  forall rb a, delivered mq 12 rb ->
  exists m, main_step sbuf0 beyond rb a = Some (tt, with_trace (fun tr => tr ++ [ESend OutputMq m 16])
      (with_info (fun p => ProductInfo (total p) (qualified_amount p) y mo d) a)) /\
  forall rbuf g, delivered m 16 rbuf -> visible g ->
  exists text, rt_flush_step stack rbuf g = Some (tt, with_cells [GCell 2 3 text] g) /\ seen_date text = Some (y, mo, d).
Proof.
  intros Hat Hl Hok H48 Ey Emo Ed Hy.
  destruct (time_request at_ stack Hat mqbuf s Hl) as (mq & rs & tr & Lmq & E5 & H). rewrite decide_True in H by done.
  destruct H as (E & Ht & Hdig). exists mq. eexists _, tr. split; [exact E|]. split; [done|]. split; [done|].
  intros rb a Hd. destruct (time_decimal mq _ rb Hdig Hd) as (D1 & D2 & D3). rewrite Ey in D1. rewrite Emo in D2. rewrite Ed in D3.
  destruct (set_date_step sbuf0 beyond rb a y mo d Hsbuf) as (m & Em & M0 & M1 & M2 & M3); try done.
  { unfold is_code. by rewrite (delivered_val mq 12) by (done || lia). }
  exists m. split; [exact Em|]. intros rbuf g Hr Hg.
  rewrite <- (delivered_val m 16 rbuf) in M0, M1, M2, M3 by (done || lia).
  apply decimal_at_bound in Ey, Emo, Ed. simpl in Ey, Emo, Ed.
  pose proof (flush_date stack stack_length rbuf g y mo d Hg M0 M1 M2 M3 ltac:(lia) ltac:(lia)) as Hf. cbv zeta in Hf.
  rewrite (s32_small d) in Hf by lia. rewrite decide_True in Hf; [exact Hf|].
  destruct (decide (mo < 10)); simpl; lia.
Qed.

(** ** A power cycle *)

Lemma log_request_step b a : app_ok a -> is_code 2 b ->
  exists m1 m2, main_step sbuf0 beyond b a = Some (tt, with_trace (fun tr => tr ++ [ESend FileMq m1 12; ESend FileMq m2 16]) a) /\
    length m1 = 20%nat /\ length m2 = 20%nat /\
    val_arr m1 0 = Some 1 /\ val_arr m1 1 = Some (total (a_info a)) /\ val_arr m1 2 = Some (qualified_amount (a_info a)) /\
    val_arr m2 0 = Some 2 /\ val_arr m2 1 = Some (year (a_info a)) /\ val_arr m2 2 = Some (mon (a_info a)) /\
    val_arr m2 3 = Some (day (a_info a)).
Proof.
  intros [_ _ _ _ _ (H1 & H2 & H3 & H4 & H5)] Hb. unfold main_step. rewrite (bind_eval _ _ a 2 a) by (unfold deref; by rewrite Hb).
  destruct a as [res info stat flow adc n temp samples tr]. cbn [a_info] in *. eexists _, _. split.
  - unfold send_info_to_file_msg, send_date_to_file_msg. aunfold. awith. rewrite <- app_assoc. reflexivity.
  - rewrite !length_set_val. autorewrite with bytes. by rewrite !(wrap_small 32) by done.
Qed.

(** C3: The statistics survive a power cycle but for the day: what the main
    thread sends for the log, written by the file thread and read after a
    restart, comes back as the same two counters, year and month; the day is the
    word behind the 20-byte receive buffer (where there is one to read; without
    it the handler is undefined, as C2 says), and if that has more than four
    characters the display thread overruns its date buffer. *)
Theorem power_cycle {F : Type} `{YaffsLaws F} (open_ok : forall f, live f -> 0 <= fst (yaffs_open file_name f)) b a w : beyond = Some w ->
  app_ok a -> is_code 2 b ->
  exists m1 m2, main_step sbuf0 beyond b a = Some (tt, with_trace (fun tr => tr ++ [ESend FileMq m1 12; ESend FileMq m2 16]) a) /\
  length m1 = 20%nat /\ length m2 = 20%nat /\
  forall (s : file_wr F) r1 r2, live (fw_fs s) -> length r1 = 24%nat -> length r2 = 24%nat -> delivered m1 12 r1 -> delivered m2 16 r2 ->
  exists f1, file_wr_loop [r1; r2] s = Some (tt, FileWr f1 (fw_trace s)) /\
  forall rbuf, length rbuf = 24%nat ->
  exists msg f2, file_wr_start rbuf (FileWr f1 []) = Some (Some msg, FileWr f2 [ESend MainMq msg 24]) /\
  forall rb a0, delivered msg 20 rb ->
  exists a1 mr mi, main_step sbuf0 beyond rb a0 = Some (tt, a1) /\ a_trace a1 = a_trace a0 ++ [ESend OutputMq mr 16; ESend OutputMq mi 12] /\
    a_info a1 = ProductInfo (total (a_info a)) (qualified_amount (a_info a)) (year (a_info a)) (mon (a_info a)) (u32 w) /\
  forall rd g, delivered mr 16 rd -> visible g -> 1000 <= year (a_info a) <= 9999 -> 0 <= mon (a_info a) <= 99 ->
    s32 w < -999 \/ 9999 < s32 w -> rt_flush_step stack rd g = None.
Proof.
  intros Hw Ha Hb. destruct (log_request_step b a Ha Hb) as (m1 & m2 & E & N1 & N2 & A0 & A1 & A2 & B0 & B1 & B2 & B3).
  destruct Ha as [_ _ _ _ _ (_ & _ & R3 & R4 & _)].
  exists m1, m2. split; [exact E|]. split; [exact N1|]. split; [exact N2|]. intros s r1 r2 Hl L1 L2 D1 D2.
  rewrite <- (delivered_val m1 12 r1) in A0, A1, A2 by (done || lia).
  rewrite <- (delivered_val m2 16 r2) in B0, B1, B2, B3 by (done || lia).
  destruct (log_restart open_ok r1 r2 (replicate 24 0) s _ _ _ _ _ Hl L1 L2 eq_refl A0 A1 A2 B0 B1 B2 B3) as (f1 & El & _ & _).
  exists f1. split; [exact El|]. intros rbuf Lr.
  destruct (log_restart open_ok r1 r2 rbuf s _ _ _ _ _ Hl L1 L2 Lr A0 A1 A2 B0 B1 B2 B3) as (f1' & El' & _ & Hr).
  rewrite El in El'. injection El' as <-. destruct (Hr []) as (msg & f2 & Es & _ & Hm). exists msg, f2. split; [exact Es|].
  intros rb a0 Hd. cbn [seq map] in Hm. injection Hm as M0 M1 M2 M3 M4 M5.
  rewrite <- (delivered_val msg 20 rb) in M0, M1, M2, M3, M4 by (done || lia).
  destruct (restore_step sbuf0 beyond rb a0 _ _ _ _ w Hw Hsbuf M0 M1 M2 M3 M4) as (a1 & mr & mi & E1 & T & I & W0 & W1 & W2 & W3).
  exists a1, mr, mi. split; [exact E1|]. split; [exact T|]. split; [exact I|]. intros rd g Hrd Hg Hy Hmo Hbig.
  rewrite <- (delivered_val mr 16 rd) in W0, W1, W2, W3 by (done || lia). rewrite (wrap_small 32) in W1, W2 by done.
  pose proof (flush_date stack stack_length rd g _ _ _ Hg W0 W1 W2 W3 Hy Hmo) as Hf. cbv zeta in Hf. rewrite s32_u32 in Hf.
  rewrite decide_False in Hf; [exact Hf|]. destruct (decide (mon (a_info a) < 10)); simpl; lia.
Qed.
End System.

(** ** Examples *)

(** A batch has been picked up; the next resistor has 600 millivolts. *)
Definition demo_running : AppMain.app := App (ResParas 0 350 0) (ProductInfo 10 7 2022 7 13) (TrStat 20 998 0) 1 3000 6 0 [Some 2700] [].

Lemma demo_running_ok : app_ok demo_running.
Proof. split; [right; simpl; lia|simpl; lia|by left|done|done|done]. Qed.

Lemma measured_resistor_is_displayed_witness : exists a' m, on_single demo_stack demo_running = Some (tt, a') /\
  exists cells, rt_flush_step demo_gui_stack m demo_gui = Some (tt, with_cells cells demo_gui) /\
    omap seen cells = [(0, 1, 600); (2, 1, 1); (0, 3, 11); (1, 3, 8)].
Proof.
  destruct (measured_resistor_is_displayed demo_stack eq_refl demo_gui_stack demo_gui_stack_length demo_running demo_gui)
    as (a' & tr & m & E & T & _ & H); [apply demo_running_ok|done|done|].
  exists a', m. split; [exact E|]. vm_compute in E. injection E as <-. specialize (H m eq_refl).
  rewrite decide_True in H by (split; vm_compute; split; congruence). destruct H as (cells & Ef & Hs). exists cells. split; [exact Ef|exact Hs].
Defined.


(** The answer with the digits of 20220713 at every other place from 23 on. *)
Definition demo_answer : list Z :=
  replicate 23 46 ++ [50; 48; 48; 48; 50; 48; 50; 48; 48; 48; 55; 48; 49; 48; 51; 48] ++ replicate 9 46.

Lemma server_date_is_displayed_witness : exists mq s',
  nb_get_time demo_at demo_gui_stack (replicate 20 170) (Nb 0 [] [ok_crlf; demo_answer] []) = Some ((0, mq), s') /\
  exists m, main_step demo_stack (Some 0) mq demo_app = Some (tt, with_trace (fun tr => tr ++ [ESend OutputMq m 16])
      (with_info (fun p => ProductInfo (total p) (qualified_amount p) 2022 7 13) demo_app)) /\
  exists text, rt_flush_step demo_gui_stack m demo_gui = Some (tt, with_cells [GCell 2 3 text] demo_gui) /\ seen_date text = Some (2022, 7, 13).
Proof.
  destruct (server_date_is_displayed demo_stack (Some 0) eq_refl demo_gui_stack demo_gui_stack_length demo_at (replicate 20 170)
    (Nb 0 [] [ok_crlf; demo_answer] []) 2022 7 13) as (mq & s' & tr & E & _ & _ & H);
    [apply demo_at_fits|by vm_compute..|lia|]. exists mq, s'. split; [exact E|].
  destruct (H mq demo_app eq_refl) as (m & Em & Hm). exists m. split; [exact Em|].
  destruct (Hm m demo_gui eq_refl) as (text & Et & Hs); [done|]. exists text. split; [exact Et|exact Hs].
Defined.

Lemma power_cycle_witness : exists m1 m2,
  main_step demo_stack (Some 5) (demo_msg 2) demo_app = Some (tt, with_trace (fun tr => tr ++ [ESend FileMq m1 12; ESend FileMq m2 16]) demo_app) /\
  exists f1, file_wr_loop [m1 ++ replicate 4 0; m2 ++ replicate 4 0] (FileWr demo_flash []) = Some (tt, FileWr f1 []) /\
  exists msg f2, file_wr_start (replicate 24 170) (FileWr f1 []) = Some (Some msg, FileWr f2 [ESend MainMq msg 24]) /\
  exists a1, main_step demo_stack (Some 5) msg demo_app = Some (tt, a1) /\ a_info a1 = ProductInfo 10 7 2022 7 5.
Proof.
  destruct (power_cycle demo_stack (Some 5) eq_refl demo_gui_stack demo_gui_stack_length flash_open_ok (demo_msg 2) demo_app 5 eq_refl)
    as (m1 & m2 & E & N1 & N2 & H); [apply demo_app_ok|by apply demo_code|]. exists m1, m2. split; [exact E|].
  destruct (H (FileWr demo_flash []) (m1 ++ replicate 4 0) (m2 ++ replicate 4 0)) as (f1 & El & Hr); [by split|..].
  1-2: rewrite length_app, length_replicate; lia.
  1-2: unfold delivered; by rewrite take_app_le by lia.
  exists f1. split; [exact El|]. destruct (Hr (replicate 24 170) eq_refl) as (msg & f2 & Es & Hm).
  exists msg, f2. split; [exact Es|]. destruct (Hm msg demo_app eq_refl) as (a1 & mr & mi & Ea & _ & Ei & _).
  exists a1. split; [exact Ea|exact Ei].
Defined.
